(* ===== verification/_CoqProject ===== *)
-Q . S2P
Prelude.v
Ring.v
RtDef.v
Lwrb.v
RingBuffer.v
CText.v
KvStore.v
FlashParam.v
ParamCoherence.v
Serial.v
SerialCore.v
SerialPort.v
Rs485.v
UartTest.v
Nor.v
Sfud.v
Fal.v
FdbUtils.v
Kvdb.v
KvdbFlash.v
KvdbRecord.v
KvdbUpdate.v
KvdbScan.v
KvdbFind.v
KvdbCases.v
KvInstance.v
Params.v
Kernel.v
SmallMem.v
SmallMemChain.v
SmallMemOps.v
SmallMemSpec.v
SmallMemHeap.v
Heap.v
Sem.v
Waiters.v
Mailbox.v
Mutex.v
MutexInv.v
MutexOps.v
MutexRun.v
Event.v
MsgQueue.v
MsgQueueRun.v
MemPool.v
Timer.v
TimerRun.v
Sched.v
SchedInv.v
SchedRun.v
SchedKernel.v
Sleep.v
SfudInit.v
AtClient.v
AtSocket.v
Aiwb2.v
Aiwb2Send.v
Aiwb2Info.v
