(* ===== verification/Prelude.v ===== *)
(** * A verification library for the HC32F460 gateway firmware

    The firmware under src/project runs RT-Thread 5.1 on an HC32F460 microcontroller. It
    keeps parameters in a FlashDB key-value store on a serial NOR flash, talks to field
    devices over an RS-485 port, and reaches the network through an Ai-WB2 Wi-Fi module
    with AT commands. The library models its core logic as Rocq functions, translated
    from the C sources branch by branch, and proves what makes each part correct.
    Theorems that are claims about the program carry a number (C1 to C40) in their
    comment.

    ** The parts and the files

    Bytes from the wire to the application:
    - [Ring], [Lwrb] (lwrb/src/lwrb/lwrb.c, lwrb_ex.c): the byte ring between interrupt and
      thread. [lwrb_t] has the code's fields, a NULL handle is [None], events are a log.
      C1: any sequence of operations on two rings (writing, reading, peeking, skipping,
      advancing behind a DMA transfer, searching, overwriting, moving from one to the other)
      is one on two bounded FIFOs.
    - [RingBuffer] (rt-thread/components/drivers/ipc/ringbuffer.c): the kernel's ring with
      mirror bits. C4: a bounded FIFO whose forced writes drop the oldest bytes.
    - [SerialCore] (rt-thread/components/drivers/serial/serial.c and the device calls of
      components/drivers/core/device.c): opening, reading and writing in all modes, the
      interrupt service routine, over a UART as the class [UartOps]. C38: reception with
      interrupts is a queue that gives up its oldest bytes; [serial_dma_refines_queue]: so is
      reception with DMA. [serial_reopen_loses_mode] and [serial_dma_index_wraps] are the
      cases in which a mode or bytes are lost.
    - [Serial] (shared parts of rs485.c and uart_test.c, the serial device as the class
      [SerialDev] with the laws [SerialLaws]), [SerialPort] ([SerialCore] satisfies them),
      [Rs485] (applications/rs485.c), [UartTest] (applications/uart_test.c).
      [hex_str_to_bytes_roundtrip]: hexadecimal text; C12, C13: transmission time (where the
      32-bit product does not overflow) and direction pin; C14: the
      receive path is a bounded FIFO with tokens; [rs485_init_result], [rs485_init_ready] and
      [rs485_stale_token]: start-up, also on the framework, and exchanges.

    Parameters:
    - [CText]: the C library's strings, "%d", strtol, little-endian words.
    - [KvStore]: the store's primitives as a class without laws, and the calls of fdb_kvdb.c
      over them.
    - [FlashParam] (applications/flash_param.c), [ParamCoherence], [Params]
      (applications/params.c). The RAM objects are a store addressed by number, so
      pointers of the table may alias. C5: the store is written before RAM; C6:
      a write gives the store the encoding of the value and RAM its image; C8: a start-up on a
      store that gives the encodings back restores the values. These hold for every store;
      [KvInstance] makes the database below an instance, on which the witnesses run.
      [param_set_unreadable] and [do_time1_reset]: two cases in which a parameter is lost.

    Flash:
    - [Nor]: the chip as its datasheet describes it, with failing transfers (hardware, no
      source). [Sfud] (sfud.c and the SPI glue), [SfudInit] (sfud_sfdp.c, the chip table,
      sfud_device_init), [Fal] (fal_partition.c, fal_flash_sfud_port.c), [FdbUtils]
      (fdb_utils.c). C18, C19 and [sfud_read_exact]: write, erase and read have exactly
      their effect under any bus failures, for a write in page mode (in the other modes nothing
      is written); C21: confinement to a partition, where address and length do not wrap
      ([fal_partition_wrap] is the case that escapes it); C23, [fdb_status_forward]: CRC and status tables
      ([fdb_continue_ff_addr_spec]: the erased tail); [sfud_init_ready], C32: start-up from the
      SFDP tables and the round trip after it
      ([sfud_byte_mode_ignored]: a write mode that does nothing).

    The key-value database (packages/FlashDB-v2.1.0/src/fdb_kvdb.c, fdb.c) on that flash:
    - [Kvdb]: every operation, in a state monad over [kvdb] (the handle with the partition and
      the chip): records, sectors, both caches, allocation, garbage collection, set and
      delete, defaults, recovery at start-up, iterator, integrity check.
    - [KvdbFlash]: the writes of an operation as a script of programmed bytes. An operation
      that stops at its first failed write leaves the effect of a prefix of its script, which
      is how the theorems speak of power failures.
    - [KvdbRecord], C10: creating a record leaves it complete and valid or marked as not
      written, whatever transfer fails; C17: a created record reads back. [KvdbUpdate], C3:
      at every failure of an update the old or the new record is complete on the flash; what
      a restart makes of it is not part of the claim (see [KvdbCases]).
    - [KvdbScan], C22: the loops over records end for any flash contents. [KvdbFind], C33: on
      well-formed sectors ([holds]) a lookup returns the first valid record of the key.
    - [KvdbCases]: the search for the oldest sector on a cleared handle, and executions that
      show where the database breaks its promise (recovery that stops early, names of 64
      characters, names that share a checksum, deletions after a failed update, failed reads).

    Kernel:
    - [RtDef]: constants. [Kernel] (suspend lists, thread timers: ipc.c, thread.c,
      scheduler_comm.c, timer.c), [Sem], [Event], [Mailbox] (ipc.c). A critical section runs
      with interrupts off and is one function; runs are reachability over these steps. The expiry of
      a thread timer and its handler are two steps, as timer.c calls the handler with
      interrupts on; what falls between them meets a thread that is still in its list. C26:
      tokens are conserved, except the releases that meet such a thread, which are lost
      ([sem_release_lost] is one), [sem_wakes_in_order]: wake-up order. C27: an event wakes
      exactly the threads whose condition holds and whose timer has not expired
      ([event_lost_in_window]: one that is missed). [Waiters]: what happens to the two suspend
      lists of a queue. C29: a mailbox is a bounded queue; [mb_no_lost_wakeup]: no
      wake-up is lost; both for runs in which nothing is sent, received or reset between an
      expiry and its handler.
    - [MsgQueue] (ipc.c, the rt_mq calls): blocks linked into a queue and a free list, with a
      call's block outside both between its critical sections. [MsgQueueRun], C11: a message
      queue is a bounded queue of messages for any number of calls at once, in runs without
      such windows; calls that a reset wakes return RT_ERROR, which is positive
      ([mq_reset_as_message]: a receiver takes it for a length); [mq_no_lost_wakeup].
    - [MemPool] (rt-thread/src/mempool.c): pools of equal blocks, the free ones linked through
      their headers, with waiting threads. C7: a pool is an allocator of separate blocks, and
      no wake-up is lost unless a block is freed in such a window;
      [alloc_null_why]: when a call fails. [pool_init_underflow], [pool_create_wraps] and
      [pool_free_lost]: memory that is too small, a size that wraps, a block nobody is woken for.
    - [Mutex] (ipc.c, with the change of priorities of scheduler_comm.c and
      _thread_detach_from_mutex of thread.c): mutexes with priority inheritance. [MutexInv]
      states who owns and waits and how priorities are passed on along a chain of owners,
      [MutexOps] shows that every call keeps it, [MutexRun] has the runs. C9: no priority
      inversion; C20: exact inheritance, where timed-out threads run at once; C28: a mutex is
      a recursive lock. [mutex_priority_leak], [mutex_ceiling_lost] and
      [closed_owner_keeps] are the cases in which a priority or a mutex is left behind.
    - [Timer] (timer.c, the tick of clock.c): the lists of hard and soft timers, with a check
      split at the timeout function it calls. [TimerRun], C40: timers fire in the order of
      their deadlines across the wrap-around of the tick; [timer_check_ends]: a check returns,
      [kernel_timer_refines]: the thread timers of [Kernel] are these timers.
      [timer_zero_period], [timer_restart_refused] and [timer_oneshot_stays_active] are the
      cases in which a check does not end or a timer is left stopped.
    - [Sched] (scheduler_up.c, scheduler_comm.c, thread.c, idle.c): the ready queues with their
      bitmap, scheduling, threads and their life, delays, and the tick interrupt over [Timer].
      [SchedInv] has the invariant (each thread where its state says) and what [rt_schedule]
      does, [SchedRun] the runs, in which threads and interrupts take steps in any order. C24:
      the invariant holds and every operation returns, except the timeout handler of a thread
      that is no longer suspended, whose assertion fails; C16: the most urgent thread runs
      (a thread of the same priority may have taken over by a yield mark that was left); C30:
      threads of a priority take turns. [sched_stale_yield] and [thread_restart_lost]: a thread
      that loses its turn, and one that is not started. [SchedKernel]: the operations of
      [Kernel], on which the models of the IPC objects are built, are those of [Sched]
      ([kernel_sched_refines]). [Sleep], C31: a delay lasts exactly the ticks asked for
      ([mdelay_forever_stops]: one that stops the system).
    - [SmallMem] (rt-thread/src/mem.c and the heap calls of kservice.c): the system heap on
      its bytes, headers included. [SmallMemChain] describes the bytes as a chain of headers
      and blocks, [SmallMemOps] and [SmallMemSpec] the operations on that chain,
      [SmallMemHeap] the map from addresses to the contents of the blocks in use. [Heap], C2:
      any sequence of calls is an allocator of separate blocks, and every call returns; C15:
      a request fails only when no stretch between the blocks has room; [heap_align_roundtrip]: aligned
      blocks;
      C25: a second release of a block is caught ([heap_size_wraps]: sizes that are not
      refused).

    Network:
    - [AtClient] (rt-thread/components/net/at/src/at_client.c, at_utils.c): the parser
      thread as a function of one byte, response objects, command execution. C34: parsing
      bytes equals handling lines; C35: the outcome of a command.
    - [AtSocket] (at_socket/at_socket.c): the socket table, packet lists with their
      memory, the socket calls over the driver's operations (class [SocketOps]). C36: the
      packet lists are queues without leaks for a driver that hands over heap blocks.
    - [Aiwb2] (aiwb2/at_socket_aiwb2.c) implements [SocketOps]. C37: in every run, with any
      module output, descriptors and ConIDs identify their sockets;
      [aiwb2_received_data_lost]: the driver hands over no heap block, and received data is lost. [Aiwb2Send], C39: what a send writes
      and returns, by the prompts and acknowledgements that arrive. [Aiwb2Info] (aiwb2/at_device_aiwb2.c): reading the station's
      addresses ([aiwb2_stainfo_roundtrip]).

    [Prelude] (this file) has the machine integers, memory blocks, the tactics [len],
    [zbool] and [u32s], and shared lemmas.

    ** Conventions

    Integers are [Z] with the wrap-around of their C type written out ([u8], [u16], [u32],
    [s32]); bytes are values of [Z] in a list; errors are the negative codes the code
    returns; allocation and hardware outcomes are arguments. What another thread, an
    interrupt or a device does during a wait is an argument too, so theorems about runs
    quantify over it. Loops that are not structural take fuel: the number of packets in a
    list ([recvpkt_loop]), of bytes left ([send_loop], each round sends at least one), of
    retries the code itself bounds (busy polling, connecting, name resolution), or of
    fields and lines the code counts; the theorems are about the functions with the fuel
    fixed by their callers, so none holds only because fuel ran out. In [Kvdb] the scan of a
    sector has its size as fuel and the search for a magic word the end address (C22 shows
    that more makes no difference), the loop over sectors the number of sectors and one (a
    length that grows by a sector per round bounds it; C33 needs no more), and the retries of
    the recovery, which the code does not bound, take a number and return [None] if it is
    used up. The loops of the heap take its size in bytes, as every round moves to a higher
    address (C2 shows that they end). In [SmallMem] the result [None] is a call that does not
    return, because an assertion failed or a loop runs on; C2 excludes both. In [Mutex]
    likewise; the loop that passes a priority on takes the number of threads, as without a
    deadlock it meets no thread twice (C9). The reset of a message queue takes the number of
    its blocks (C11). The loop of a timer check, which the code does not bound, takes a number
    and returns [None] if it is used up ([timer_check_ends] says when it is not).

    Parameters that stand for code outside src/ or for hardware: the conversions "%.9g" and
    strtof (with their round trip), the UART with its register-level driver ([UartOps],
    [UartLaws]), the SPI transfer and the NOR chip, and what the Wi-Fi module sends. Each
    claim with such a hypothesis has a witness with concrete functions.

    ** Not modelled

    Of the key-value database: printing, the version update that is not compiled, the file
    mode, lock callbacks and assertions; that a database returns what
    was last set in it, and after a restart too, is not proved in general (C10, C17, C3 and C33
    are the parts that are, and the executions in [KvdbCases] show states in which it does not). Of the serial framework:
    the file operations, which are not compiled, and the data queue of dataqueue.c below a
    transmission with DMA, which is a list of eight places. Of
    the kernel: the object list, stacks, the hooks of the idle thread, the
    order of the start-up calls and the other heap algorithms (slab, memheap; not configured); at_client_obj_wait_connect and
    at_client_obj_recv; name resolution of the socket layer; the start-up thread and
    network-interface calls of the Ai-WB2 device driver; the block-device wrapper of the
    serial flash; shell commands. Register-level drivers, vendor libraries and third-party
    packages (MQTT, HTTP, WIZnet, OTA, ESP8266, ML307, system watch) are left out as not
    being the firmware's own logic.

    ** Possible extensions

    [Kvdb]'s set and delete on the layout of [KvdbFind], so that a set value is found
    again away from the cases of [KvdbCases]; the loop over sectors for arbitrary flash
    contents; the data queue and the completions of components/drivers/ipc; the Ai-WB2
    start-up. *)

From stdpp Require Export base numbers list list_numbers.
From Stdlib Require Export ZArith Lia.

#[export] Set Default Goal Selector "!".
Open Scope Z_scope.

(** * Machine integers *)

(** Unsigned and signed wrap-around at the widths the firmware uses
    ([uint8_t], [uint16_t], [uint32_t] / [unsigned long] / [size_t] on the
    32-bit target, and [int] / [long]). *)
Definition u8 (z : Z) : Z := z mod 256.
Definition u16 (z : Z) : Z := z mod 65536.
Definition u32 (z : Z) : Z := z mod 4294967296.
Definition s32 (z : Z) : Z := (z + 2147483648) mod 4294967296 - 2147483648.

Definition UINT32_MAX : Z := 4294967295.

Definition is_u8 (z : Z) : Prop := 0 ≤ z < 256.
Definition is_u16 (z : Z) : Prop := 0 ≤ z < 65536.
Definition is_u32 (z : Z) : Prop := 0 ≤ z < 4294967296.
Definition is_s32 (z : Z) : Prop := -2147483648 ≤ z < 2147483648.

(** The conditional operator on C truth values. *)
Definition BUF_MIN (x y : Z) : Z := if x <? y then x else y.

(** [flags & mask] as a truth value. *)
Definition flag_set (flags mask : Z) : bool := negb (Z.land flags mask =? 0).

(** * Memory blocks

    A block of bytes is a [list Z]; [blen] is its length as a [size_t]. *)
Definition blen {A} (l : list A) : Z := Z.of_nat (length l).

(** [p[i]] of a block (0 outside, where C has no defined value). *)
Definition nthZ (l : list Z) (i : Z) : Z := default 0 (l !! Z.to_nat i).

(** [memcpy(dst + doff, src + soff, n)]. *)
Definition memcpy (dst : list Z) (doff : Z) (src : list Z) (soff n : Z) : list Z :=
  take (Z.to_nat doff) dst
    ++ take (Z.to_nat n) (drop (Z.to_nat soff) src)
    ++ drop (Z.to_nat (doff + n)) dst.

(** [memset(dst + off, v, n)]. *)
Definition memset (dst : list Z) (off v n : Z) : list Z :=
  take (Z.to_nat off) dst ++ replicate (Z.to_nat n) v ++ drop (Z.to_nat (off + n)) dst.

(** * Tactics *)

(** Normalise list lengths, then linear arithmetic. *)
Create Rewrite HintDb len.
#[export] Hint Rewrite @length_app @length_take @length_drop @length_replicate
  @length_insert @length_fmap @length_cons @length_nil : len.

Ltac len := unfold blen in *; autorewrite with len in *; simpl length in *; lia.

(** Case analysis on the boolean tests of the code, as linear facts. *)
Ltac zbool1 :=
  match goal with
  | H : context [?a <? ?b] |- _ => destruct (Z.ltb_spec a b)
  | H : context [?a <=? ?b] |- _ => destruct (Z.leb_spec a b)
  | H : context [?a =? ?b] |- _ => destruct (Z.eqb_spec a b)
  | |- context [?a <? ?b] => destruct (Z.ltb_spec a b)
  | |- context [?a <=? ?b] => destruct (Z.leb_spec a b)
  | |- context [?a =? ?b] => destruct (Z.eqb_spec a b)
  end.
Ltac zbool := repeat (zbool1; simpl in *; try lia).

(** * Lemmas *)

Lemma u32_small z : is_u32 z → u32 z = z.
Proof. unfold is_u32, u32. intros. apply Z.mod_small. lia. Qed.

Lemma u32_range z : is_u32 (u32 z).
Proof. unfold is_u32, u32. apply Z.mod_pos_bound. lia. Qed.

Lemma u16_small z : is_u16 z → u16 z = z.
Proof. unfold is_u16, u16. intros. apply Z.mod_small. lia. Qed.

Lemma u8_small z : is_u8 z → u8 z = z.
Proof. unfold is_u8, u8. intros. apply Z.mod_small. lia. Qed.

Lemma u8_range z : is_u8 (u8 z).
Proof. unfold is_u8, u8. apply Z.mod_pos_bound. lia. Qed.

Lemma s32_small z : is_s32 z → s32 z = z.
Proof. unfold is_s32, s32. intros. rewrite Z.mod_small; lia. Qed.

Lemma s32_range z : is_s32 (s32 z).
Proof.
  unfold is_s32, s32.
  pose proof (Z.mod_pos_bound (z + 2147483648) 4294967296 eq_refl). lia.
Qed.

Lemma BUF_MIN_min x y : BUF_MIN x y = Z.min x y.
Proof. unfold BUF_MIN. destruct (Z.ltb_spec x y); lia. Qed.

Lemma blen_nonneg {A} (l : list A) : 0 ≤ blen l.
Proof. unfold blen. lia. Qed.

Lemma blen_app {A} (l k : list A) : blen (l ++ k) = blen l + blen k.
Proof. len. Qed.

Lemma blen_cons {A} (x : A) l : blen (x :: l) = blen l + 1.
Proof. len. Qed.

Lemma blen_perm {A} (l k : list A) : l ≡ₚ k → blen l = blen k.
Proof. unfold blen. by intros ->. Qed.

Lemma memcpy_length dst doff src soff n :
  0 ≤ doff → 0 ≤ soff → 0 ≤ n →
  doff + n ≤ blen dst → soff + n ≤ blen src →
  length (memcpy dst doff src soff n) = length dst.
Proof. intros. unfold memcpy. len. Qed.

Lemma memset_length dst off v n :
  0 ≤ off → 0 ≤ n → off + n ≤ blen dst →
  length (memset dst off v n) = length dst.
Proof. intros. unfold memset. len. Qed.

(** Byte [i] after a [memcpy]: the source inside the window, the old
    destination outside. *)
Lemma memcpy_lookup dst doff src soff n (i : nat) :
  0 ≤ doff → 0 ≤ soff → 0 ≤ n →
  doff + n ≤ blen dst → soff + n ≤ blen src →
  memcpy dst doff src soff n !! i =
    if (doff <=? Z.of_nat i) && (Z.of_nat i <? doff + n)
    then src !! Z.to_nat (soff + (Z.of_nat i - doff))
    else dst !! i.
Proof.
  intros. unfold memcpy. destruct (Z.leb_spec doff (Z.of_nat i)); simpl.
  - rewrite lookup_app_r by len. rewrite length_take.
    destruct (Z.ltb_spec (Z.of_nat i) (doff + n)).
    + rewrite lookup_app_l by len. rewrite lookup_take_lt by len.
      rewrite lookup_drop. f_equal. len.
    + rewrite lookup_app_r by len. rewrite lookup_drop. f_equal. len.
  - rewrite lookup_app_l by len. by rewrite lookup_take_lt by len.
Qed.

Lemma memset_lookup dst off v n (i : nat) :
  0 ≤ off → 0 ≤ n → off + n ≤ blen dst →
  memset dst off v n !! i =
    if (off <=? Z.of_nat i) && (Z.of_nat i <? off + n) then Some v else dst !! i.
Proof.
  intros. unfold memset. destruct (Z.leb_spec off (Z.of_nat i)); simpl.
  - rewrite lookup_app_r by len. rewrite length_take.
    destruct (Z.ltb_spec (Z.of_nat i) (off + n)).
    + rewrite lookup_app_l by len. rewrite lookup_replicate_2 by len. done.
    + rewrite lookup_app_r by len. rewrite lookup_drop. f_equal. len.
  - rewrite lookup_app_l by len. by rewrite lookup_take_lt by len.
Qed.

(** A block filled from offset 0 with [n] source bytes and zeroed after. *)
Lemma memcpy_full dst src n :
  blen dst = n → 0 ≤ n → n ≤ blen src →
  memcpy dst 0 src 0 n = take (Z.to_nat n) src.
Proof.
  intros. unfold memcpy. rewrite (drop_ge dst) by len.
  rewrite app_nil_r. done.
Qed.

(** Clipping a count to the length of the block changes nothing. *)
Lemma take_min_blen {A} a (l : list A) :
  take (Z.to_nat (Z.min a (blen l))) l = take (Z.to_nat a) l.
Proof.
  destruct (Z.le_gt_cases a (blen l)); [f_equal; lia |]. rewrite !take_ge by len. done.
Qed.

Lemma drop_min_blen {A} a (l : list A) :
  drop (Z.to_nat (Z.min a (blen l))) l = drop (Z.to_nat a) l.
Proof.
  destruct (Z.le_gt_cases a (blen l)); [f_equal; lia |]. rewrite !drop_ge by len. done.
Qed.

Lemma nthZ_lookup l (i : Z) x : l !! Z.to_nat i = Some x → nthZ l i = x.
Proof. unfold nthZ. by intros ->. Qed.

(** Shift-and-or is multiply-and-add when the low part fits. *)
Lemma lor_shiftl h l n : 0 ≤ n → 0 ≤ l < 2 ^ n → Z.lor (Z.shiftl h n) l = h * 2 ^ n + l.
Proof.
  intros Hn Hl. pose proof (Z.add_lor_land (Z.shiftl h n) l) as E.
  assert (Z.land (Z.shiftl h n) l = 0) as E0.
  { apply Z.bits_inj'. intros i Hi. rewrite Z.land_spec, Z.bits_0.
    destruct (Z.lt_ge_cases i n); [by rewrite Z.shiftl_spec_low |].
    rewrite andb_comm.
    destruct (decide (l = 0)) as [-> | Hnz]; [by rewrite Z.bits_0 |].
    rewrite Z.bits_above_log2; [done | lia |].
    apply Z.log2_lt_pow2; [lia |]. eapply Z.lt_le_trans; [apply Hl |]. by apply Z.pow_le_mono_r. }
  rewrite E0, Z.shiftl_mul_pow2 in E by done. rewrite <-E, Z.shiftl_mul_pow2 by done. lia.
Qed.

(** Remove the wrap-arounds that [lia] shows to be inactive, innermost first. *)
Ltac u32s :=
  repeat match goal with
  | |- context [u32 ?e] =>
      lazymatch e with
      | context [u32 _] => fail
      | _ => rewrite (u32_small e) by (unfold is_u32; lia)
      end
  end.
