(* ===== verification/Ring.v ===== *)
(** Circular byte arrays: the facts shared by the two ring buffers of the firmware
    (lwrb and rt_ringbuffer).  A stretch of [n] bytes that starts at array position
    [r] and wraps around once is its [ring_view]; the two-part copies of the code are
    [ring_put] and [ring_get]. *)

From S2P Require Import Prelude.

(** Position of the [i]-th byte counted from [r]. *)
Definition ring_idx (size r i : Z) : Z := if r + i <? size then r + i else r + i - size.

(** Distance of array position [j] from [w] around the ring. *)
Definition ring_off (size w j : Z) : Z := if w <=? j then j - w else j - w + size.

(** Advancing a position by [n ≤ size] steps with one conditional wrap. *)
Definition ring_adv (size p n : Z) : Z := if size <=? p + n then p + n - size else p + n.

(** The [n] bytes that start at position [r]. *)
Definition ring_view (l : list Z) (r n : Z) : list Z :=
  take (Z.to_nat n) (drop (Z.to_nat r) l ++ take (Z.to_nat r) l).

(** Writing [n] bytes of [d] from position [w] on: to the end of the array, then the
    rest from its start. *)
Definition ring_put (l : list Z) (w : Z) (d : list Z) (n : Z) : list Z :=
  let t := Z.min (blen l - w) n in
  let l1 := memcpy l w d 0 t in
  if 0 <? n - t then memcpy l1 0 d t (n - t) else l1.

(** Reading [n] bytes from position [r] on into the block [d]. *)
Definition ring_get (d l : list Z) (r n : Z) : list Z :=
  let t := Z.min (blen l - r) n in
  let d1 := memcpy d 0 l r t in
  if 0 <? n - t then memcpy d1 t l 0 (n - t) else d1.

Lemma ring_idx_range size r i :
  0 ≤ r < size → 0 ≤ i < size → 0 ≤ ring_idx size r i < size.
Proof. unfold ring_idx. intros. zbool. Qed.

Lemma ring_adv_range size p n : 0 ≤ p < size → 0 ≤ n ≤ size → 0 ≤ ring_adv size p n < size.
Proof. unfold ring_adv. intros. zbool. Qed.

Lemma ring_idx_adv size r k i :
  0 ≤ r < size → 0 ≤ k → 0 ≤ i → k + i < size →
  ring_idx size (ring_adv size r k) i = ring_idx size r (k + i).
Proof. unfold ring_idx, ring_adv. intros. zbool. Qed.

(** Going [i] steps from [r], measured from the position [c] steps after [r]. *)
Lemma ring_off_idx size r c i :
  0 ≤ r < size → 0 ≤ c < size → 0 ≤ i < size →
  ring_off size (ring_idx size r c) (ring_idx size r i)
  = if i <? c then i - c + size else i - c.
Proof. unfold ring_idx, ring_off. intros. zbool. Qed.

Lemma ring_put_length l w d n :
  0 ≤ w < blen l → 0 ≤ n ≤ blen l → n ≤ blen d → length (ring_put l w d n) = length l.
Proof.
  intros. unfold ring_put. destruct (Z.ltb_spec 0 (n - Z.min (blen l - w) n)).
  - rewrite memcpy_length; unfold blen in *; rewrite ?memcpy_length; unfold blen; lia.
  - rewrite memcpy_length; lia.
Qed.

Lemma ring_put_lookup l w d n (j : nat) :
  0 ≤ w < blen l → 0 ≤ n ≤ blen l → n ≤ blen d → Z.of_nat j < blen l →
  ring_put l w d n !! j =
    if ring_off (blen l) w (Z.of_nat j) <? n
    then d !! Z.to_nat (ring_off (blen l) w (Z.of_nat j)) else l !! j.
Proof.
  intros. unfold ring_put, ring_off.
  assert (Hl1 : blen (memcpy l w d 0 (Z.min (blen l - w) n)) = blen l).
  { unfold blen. rewrite memcpy_length; unfold blen in *; lia. }
  destruct (Z.ltb_spec 0 (n - Z.min (blen l - w) n)).
  - rewrite memcpy_lookup by lia. rewrite memcpy_lookup by lia.
    destruct (Z.leb_spec w (Z.of_nat j)); zbool; f_equal; lia.
  - rewrite memcpy_lookup by lia.
    destruct (Z.leb_spec w (Z.of_nat j)); zbool; f_equal; lia.
Qed.

Lemma ring_get_lookup d l r n (j : nat) :
  0 ≤ r < blen l → 0 ≤ n ≤ blen l → n ≤ blen d →
  ring_get d l r n !! j =
    if Z.of_nat j <? n then l !! Z.to_nat (ring_idx (blen l) r (Z.of_nat j)) else d !! j.
Proof.
  intros. unfold ring_get, ring_idx.
  assert (Hl1 : blen (memcpy d 0 l r (Z.min (blen l - r) n)) = blen d).
  { unfold blen. rewrite memcpy_length; unfold blen in *; lia. }
  destruct (Z.ltb_spec 0 (n - Z.min (blen l - r) n)).
  - rewrite memcpy_lookup by lia. rewrite memcpy_lookup by lia. zbool; f_equal; lia.
  - rewrite memcpy_lookup by lia. zbool; f_equal; lia.
Qed.

Lemma ring_view_length l r n :
  0 ≤ r ≤ blen l → 0 ≤ n ≤ blen l → length (ring_view l r n) = Z.to_nat n.
Proof. intros. unfold ring_view. len. Qed.

Lemma ring_view_blen l r n :
  0 ≤ r ≤ blen l → 0 ≤ n ≤ blen l → blen (ring_view l r n) = n.
Proof. intros. unfold blen. rewrite ring_view_length by lia. lia. Qed.

Lemma ring_view_lookup l r n (i : nat) :
  0 ≤ r < blen l → n ≤ blen l → Z.of_nat i < n →
  ring_view l r n !! i = l !! Z.to_nat (ring_idx (blen l) r (Z.of_nat i)).
Proof.
  intros. unfold ring_view, ring_idx. rewrite lookup_take_lt by lia.
  destruct (Z.ltb_spec (r + Z.of_nat i) (blen l)).
  - rewrite lookup_app_l by len. rewrite lookup_drop. f_equal. lia.
  - rewrite lookup_app_r by len. rewrite length_drop.
    rewrite lookup_take_lt by len. f_equal. len.
Qed.

(** Storing [n] bytes after the first [c] appends them to the view. *)
Lemma ring_view_put l r c d n :
  0 ≤ r < blen l → 0 ≤ c < blen l → 0 ≤ n → c + n ≤ blen l → n ≤ blen d →
  ring_view (ring_put l (ring_idx (blen l) r c) d n) r (c + n)
  = ring_view l r c ++ take (Z.to_nat n) d.
Proof.
  intros Hr Hc Hn Hfit Hd. pose proof (ring_idx_range (blen l) r c Hr ltac:(lia)).
  pose proof (ring_view_length l r c ltac:(lia) ltac:(lia)) as Hlen.
  assert (Hp : blen (ring_put l (ring_idx (blen l) r c) d n) = blen l)
    by (unfold blen; rewrite ring_put_length; unfold blen in *; lia).
  apply list_eq. intros i. destruct (decide (Z.of_nat i < c + n)).
  - rewrite ring_view_lookup by lia. rewrite Hp.
    pose proof (ring_idx_range (blen l) r (Z.of_nat i) Hr ltac:(lia)).
    rewrite ring_put_lookup by lia. rewrite Z2Nat.id by lia.
    rewrite ring_off_idx by lia. destruct (Z.ltb_spec (Z.of_nat i) c).
    + rewrite lookup_app_l by lia. rewrite ring_view_lookup by lia.
      destruct (Z.ltb_spec (Z.of_nat i - c + blen l) n); [lia | done].
    + rewrite lookup_app_r by lia. rewrite lookup_take_lt by lia.
      destruct (Z.ltb_spec (Z.of_nat i - c) n); [| lia]. f_equal. lia.
  - rewrite !lookup_ge_None_2; [done | len |]. rewrite ring_view_length; lia.
Qed.

(** Advancing the start by [k] drops the first [k] bytes. *)
Lemma ring_view_drop l r c k :
  0 ≤ r < blen l → c ≤ blen l → 0 ≤ k ≤ c →
  ring_view l (ring_adv (blen l) r k) (c - k) = drop (Z.to_nat k) (ring_view l r c).
Proof.
  intros Hr Hc Hk. pose proof (ring_adv_range (blen l) r k Hr ltac:(lia)).
  apply list_eq. intros i. rewrite lookup_drop. destruct (decide (Z.of_nat i < c - k)).
  - rewrite !ring_view_lookup by lia. f_equal. f_equal. unfold ring_idx, ring_adv. zbool.
  - rewrite !lookup_ge_None_2; [done | |]; rewrite ring_view_length; lia.
Qed.

(** Copying [n] bytes out, [k] bytes into the view. *)
Lemma ring_get_view d l r c k n :
  0 ≤ r < blen l → c ≤ blen l → 0 ≤ k < blen l → 0 ≤ n → k + n ≤ c → n ≤ blen d →
  ring_get d l (ring_idx (blen l) r k) n
  = take (Z.to_nat n) (drop (Z.to_nat k) (ring_view l r c)) ++ drop (Z.to_nat n) d.
Proof.
  intros Hr Hc Hk Hn Hkn Hd. pose proof (ring_idx_range (blen l) r k Hr ltac:(lia)).
  pose proof (ring_view_length l r c ltac:(lia) ltac:(lia)) as Hlen.
  apply list_eq. intros i. rewrite ring_get_lookup by lia.
  destruct (Z.ltb_spec (Z.of_nat i) n).
  - rewrite lookup_app_l by len. rewrite lookup_take_lt by lia. rewrite lookup_drop.
    rewrite ring_view_lookup by lia. f_equal. f_equal. unfold ring_idx in *. zbool.
  - rewrite lookup_app_r by len. rewrite lookup_drop. f_equal. len.
Qed.

(** A view that does not reach the end of the array is a plain slice. *)
Lemma ring_view_linear l r c n :
  0 ≤ r ≤ blen l → 0 ≤ n ≤ c → r + n ≤ blen l →
  take (Z.to_nat n) (drop (Z.to_nat r) l) = take (Z.to_nat n) (ring_view l r c).
Proof.
  intros. unfold ring_view. rewrite take_take, Nat.min_l by lia.
  rewrite take_app_le by len. done.
Qed.

(** The view only depends on the bytes it covers. *)
Lemma ring_view_nth l r c i :
  0 ≤ r < blen l → c ≤ blen l → 0 ≤ i < c →
  nthZ l (ring_idx (blen l) r i) = nthZ (ring_view l r c) i.
Proof.
  intros. unfold nthZ. rewrite ring_view_lookup by lia. by rewrite Z2Nat.id by lia.
Qed.

(** Storing one byte. *)
Lemma insert_ring_put l (w v : Z) :
  0 ≤ w < blen l → <[Z.to_nat w := v]> l = ring_put l w [v] 1.
Proof.
  intros Hw. apply list_eq. intros i.
  assert (length (ring_put l w [v] 1) = length l) as Hl
    by (apply ring_put_length; [done | lia | change (blen [v]) with 1; lia]).
  destruct (decide (Z.of_nat i < blen l)).
  - rewrite ring_put_lookup by (done || lia || (change (blen [v]) with 1; lia)).
    unfold ring_off. destruct (decide (i = Z.to_nat w)) as [->|Hne].
    + rewrite list_lookup_insert_eq by (unfold blen in *; lia). rewrite Z2Nat.id by lia.
      rewrite Z.leb_refl, Z.sub_diag. done.
    + rewrite list_lookup_insert_ne by done.
      destruct (Z.leb_spec w (Z.of_nat i)); [destruct (Z.ltb_spec (Z.of_nat i - w) 1)
        | destruct (Z.ltb_spec (Z.of_nat i - w + blen l) 1)]; (done || lia).
  - rewrite !lookup_ge_None_2; [done | unfold blen in *; lia | rewrite length_insert; unfold blen in *; lia].
Qed.

(** The last [n] elements: what a queue of [n] places keeps when the oldest are given up. *)
Definition keep_last {A} (n : Z) (l : list A) : list A := drop (Z.to_nat (blen l - n)) l.

Lemma keep_last_all {A} n (l : list A) : blen l ≤ n → keep_last n l = l.
Proof. intros Hl. unfold keep_last. by replace (Z.to_nat (blen l - n)) with 0%nat by lia. Qed.

Lemma keep_last_blen {A} n (l : list A) : 0 ≤ n → blen (keep_last n l) = Z.min n (blen l).
Proof. intros Hn. unfold keep_last. len. Qed.

Lemma keep_last_app {A} n (l k : list A) : 0 ≤ n → keep_last n (keep_last n l ++ k) = keep_last n (l ++ k).
Proof.
  intros Hn. destruct (Z.le_gt_cases (blen l) n) as [Hl|Hl]; [by rewrite (keep_last_all n l) |].
  unfold keep_last. rewrite <-drop_app_le by len. rewrite drop_drop. f_equal. len.
Qed.
