(* ===== verification/RtDef.v ===== *)
(** Constants of rt-thread/include/rtdef.h shared by the kernel and application files:
    the error codes of a build without RT_USING_LIBC, the waiting times, the limits
    and commands of the IPC objects, and alignment; and the conversion of milliseconds of
    rt-thread/src/clock.c. *)

From S2P Require Import Prelude.

Definition RT_EOK : Z := 0.
Definition RT_ERROR : Z := 1.
Definition RT_ETIMEOUT : Z := 2.
Definition RT_EFULL : Z := 3.
Definition RT_EEMPTY : Z := 4.
Definition RT_ENOMEM : Z := 5.
Definition RT_ENOSYS : Z := 6.
Definition RT_EBUSY : Z := 7.
Definition RT_EIO : Z := 8.
Definition RT_EINTR : Z := 9.
Definition RT_EINVAL : Z := 10.
Definition RT_ENOENT : Z := 11.

Definition RT_WAITING_FOREVER : Z := -1.
Definition RT_WAITING_NO : Z := 0.

Definition RT_SEM_VALUE_MAX : Z := 65535.
Definition RT_MB_ENTRY_MAX : Z := 65535.
Definition RT_MQ_ENTRY_MAX : Z := 65535.
Definition RT_MUTEX_HOLD_MAX : Z := 255.
Definition RT_THREAD_PRIORITY_MAX : Z := 32.
Definition RT_IPC_CMD_RESET : Z := 1.
Definition RT_IPC_CMD_SET_VLIMIT : Z := 3.

(** * Ticks *)

(** RT_TICK_PER_SECOND is 1000; the argument is an [rt_int32_t]. *)
Definition rt_tick_from_millisecond (ms : Z) : Z :=
  if ms <? 0 then u32 RT_WAITING_FOREVER
  else u32 (u32 (1000 * (ms / 1000)) + u32 ((1000 * (ms mod 1000) + 999) / 1000)).

(** * Alignment *)

Definition RT_ALIGN_SIZE : Z := 8.
Definition RT_ALIGN (size align : Z) : Z := Z.land (u32 (size + align - 1)) (u32 (Z.lnot (align - 1))).
Definition RT_ALIGN_DOWN (size align : Z) : Z := Z.land (u32 size) (u32 (Z.lnot (align - 1))).

Lemma land_high x k : is_u32 x → 0 ≤ k ≤ 32 → Z.land x (Z.land (Z.ones 32) (Z.lnot (Z.ones k))) = x / 2 ^ k * 2 ^ k.
Proof.
  intros Hx Hk. rewrite Z.land_assoc, Z.land_ones by lia. rewrite Z.mod_small by exact Hx.
  rewrite <-Z.ldiff_land, Z.ldiff_ones_r by lia. rewrite Z.shiftl_mul_pow2, Z.shiftr_div_pow2 by lia. done.
Qed.

Lemma land_8 x : is_u32 x → Z.land x (u32 (Z.lnot (8 - 1))) = x / 8 * 8.
Proof. intros Hx. exact (land_high x 3 Hx ltac:(lia)). Qed.

Lemma land_7 x : Z.land x (RT_ALIGN_SIZE - 1) = x mod 8.
Proof. exact (Z.land_ones x 3 ltac:(lia)). Qed.

Lemma RT_ALIGN_8 x : 0 ≤ x → x + 7 < 4294967296 → RT_ALIGN x 8 = (x + 7) / 8 * 8.
Proof.
  intros H0 Hx. unfold RT_ALIGN. replace (x + 8 - 1) with (x + 7) by lia.
  rewrite u32_small by (unfold is_u32; lia). apply land_8. unfold is_u32. lia.
Qed.

Lemma RT_ALIGN_DOWN_8 x : is_u32 x → RT_ALIGN_DOWN x 8 = x / 8 * 8.
Proof. intros Hx. unfold RT_ALIGN_DOWN. rewrite u32_small by done. by apply land_8. Qed.
