(* ===== verification/Lwrb.v ===== *)
(** The lightweight ring buffer of lwrb/src/lwrb/lwrb.c and lwrb_ex.c.

    A handle is [option lwrb_t] ([None] is the NULL pointer), so every guard of
    the code is part of the definitions.  Sizes and indices are 32-bit unsigned
    ([lwrb_sz_t] is [unsigned long]) and their wrap-around is written out. *)

From S2P Require Import Prelude.
From S2P Require Import Ring.

(** * Data *)

Inductive lwrb_evt_type_t : Set :=
  | LWRB_EVT_READ
  | LWRB_EVT_WRITE
  | LWRB_EVT_RESET.

Definition LWRB_FLAG_READ_ALL : Z := 1.
Definition LWRB_FLAG_WRITE_ALL : Z := 1.

(** [struct lwrb]: [lb_evt_fn] and [lb_arg] are pointers (an address or NULL);
    [lb_evt_log] is the sequence of calls made through [evt_fn]. *)
Record lwrb_t : Type := mk_lwrb {
  lb_buff : option (list Z);
  lb_size : Z;
  lb_r_ptr : Z;
  lb_w_ptr : Z;
  lb_evt_fn : option Z;
  lb_arg : option Z;
  lb_evt_log : list (lwrb_evt_type_t * Z)
}.

Definition set_buff (v : option (list Z)) (b : lwrb_t) : lwrb_t :=
  mk_lwrb v (lb_size b) (lb_r_ptr b) (lb_w_ptr b) (lb_evt_fn b) (lb_arg b) (lb_evt_log b).
Definition set_r_ptr (v : Z) (b : lwrb_t) : lwrb_t :=
  mk_lwrb (lb_buff b) (lb_size b) v (lb_w_ptr b) (lb_evt_fn b) (lb_arg b) (lb_evt_log b).
Definition set_w_ptr (v : Z) (b : lwrb_t) : lwrb_t :=
  mk_lwrb (lb_buff b) (lb_size b) (lb_r_ptr b) v (lb_evt_fn b) (lb_arg b) (lb_evt_log b).

(** [BUF_IS_VALID(b)]; the second form also dereferences the handle. *)
Definition deref_valid (b : option lwrb_t) : option (lwrb_t * list Z) :=
  match b with
  | Some h =>
      match lb_buff h with
      | Some l => if 0 <? lb_size h then Some (h, l) else None
      | None => None
      end
  | None => None
  end.

Definition BUF_IS_VALID (b : option lwrb_t) : bool :=
  match deref_valid b with Some _ => true | None => false end.

Definition BUF_SEND_EVT (b : lwrb_t) (type : lwrb_evt_type_t) (bp : Z) : lwrb_t :=
  match lb_evt_fn b with
  | Some _ =>
      mk_lwrb (lb_buff b) (lb_size b) (lb_r_ptr b) (lb_w_ptr b) (lb_evt_fn b) (lb_arg b)
        (lb_evt_log b ++ [(type, bp)])
  | None => b
  end.

(** * Operations *)

Definition lwrb_init (b : option lwrb_t) (buffdata : option (list Z)) (size : Z)
    : Z * option lwrb_t :=
  match b, buffdata with
  | Some h, Some l =>
      if size =? 0 then (0, b)
      else (1, Some (mk_lwrb (Some l) size 0 0 None (lb_arg h) (lb_evt_log h)))
  | _, _ => (0, b)
  end.

Definition lwrb_is_ready (b : option lwrb_t) : Z := if BUF_IS_VALID b then 1 else 0.

Definition lwrb_free (b : option lwrb_t) : option lwrb_t :=
  match deref_valid b with
  | Some (h, _) => Some (set_buff None h)
  | None => b
  end.

Definition lwrb_set_evt_fn (b : option lwrb_t) (evt_fn : option Z) : option lwrb_t :=
  match deref_valid b with
  | Some (h, _) =>
      Some (mk_lwrb (lb_buff h) (lb_size h) (lb_r_ptr h) (lb_w_ptr h) evt_fn (lb_arg h)
              (lb_evt_log h))
  | None => b
  end.

Definition lwrb_set_arg (b : option lwrb_t) (arg : option Z) : option lwrb_t :=
  match deref_valid b with
  | Some (h, _) =>
      Some (mk_lwrb (lb_buff h) (lb_size h) (lb_r_ptr h) (lb_w_ptr h) (lb_evt_fn h) arg
              (lb_evt_log h))
  | None => b
  end.

Definition lwrb_get_arg (b : option lwrb_t) : option Z :=
  match b with Some h => lb_arg h | None => None end.

Definition lwrb_get_free (b : option lwrb_t) : Z :=
  match deref_valid b with
  | None => 0
  | Some (h, _) =>
      let w_ptr := lb_w_ptr h in
      let r_ptr := lb_r_ptr h in
      let size :=
        if r_ptr <=? w_ptr then u32 (lb_size h - u32 (w_ptr - r_ptr))
        else u32 (r_ptr - w_ptr) in
      u32 (size - 1)
  end.

Definition lwrb_get_full (b : option lwrb_t) : Z :=
  match deref_valid b with
  | None => 0
  | Some (h, _) =>
      let w_ptr := lb_w_ptr h in
      let r_ptr := lb_r_ptr h in
      if r_ptr <=? w_ptr then u32 (w_ptr - r_ptr)
      else u32 (lb_size h - u32 (r_ptr - w_ptr))
  end.

Definition lwrb_reset (b : option lwrb_t) : option lwrb_t :=
  match deref_valid b with
  | Some (h, _) => Some (BUF_SEND_EVT (set_r_ptr 0 (set_w_ptr 0 h)) LWRB_EVT_RESET 0)
  | None => b
  end.

(** [bwritten] is NULL ([None]) or points to a variable holding a value; the
    result carries the variable's value afterwards. *)
Definition lwrb_write_ex (b : option lwrb_t) (data : option (list Z)) (btw : Z)
    (bwritten : option Z) (flags : Z) : Z * option Z * option lwrb_t :=
  match deref_valid b, data with
  | Some (h, l), Some d =>
      if btw =? 0 then (0, bwritten, b) else
      (* Calculate maximum number of bytes available to write *)
      let free := lwrb_get_free b in
      if (free =? 0) || ((free <? btw) && flag_set flags LWRB_FLAG_WRITE_ALL)
      then (0, bwritten, b) else
      let btw := BUF_MIN free btw in
      let w_ptr := lb_w_ptr h in
      (* Step 1: Write data to linear part of buffer *)
      let tocopy := BUF_MIN (u32 (lb_size h - w_ptr)) btw in
      let l := memcpy l w_ptr d 0 tocopy in
      let d_ptr := tocopy in
      let w_ptr := u32 (w_ptr + tocopy) in
      let btw := u32 (btw - tocopy) in
      (* Step 2: Write data to beginning of buffer (overflow part) *)
      let l := if 0 <? btw then memcpy l 0 d d_ptr btw else l in
      let w_ptr := if 0 <? btw then btw else w_ptr in
      (* Step 3: Check end of buffer *)
      let w_ptr := if lb_size h <=? w_ptr then 0 else w_ptr in
      let h := set_w_ptr w_ptr (set_buff (Some l) h) in
      let h := BUF_SEND_EVT h LWRB_EVT_WRITE (u32 (tocopy + btw)) in
      (1, match bwritten with Some _ => Some (u32 (tocopy + btw)) | None => None end, Some h)
  | _, _ => (0, bwritten, b)
  end.

Definition lwrb_write (b : option lwrb_t) (data : option (list Z)) (btw : Z)
    : Z * option lwrb_t :=
  let '(ok, written, b) := lwrb_write_ex b data btw (Some 0) 0 in
  if negb (ok =? 0) then (default 0 written, b) else (0, b).

(** [data] is the caller's output block; the result carries its contents
    afterwards. *)
Definition lwrb_read_ex (b : option lwrb_t) (data : option (list Z)) (btr : Z)
    (bread : option Z) (flags : Z) : Z * option Z * option (list Z) * option lwrb_t :=
  match deref_valid b, data with
  | Some (h, l), Some d =>
      if btr =? 0 then (0, bread, data, b) else
      (* Calculate maximum number of bytes available to read *)
      let full := lwrb_get_full b in
      if (full =? 0) || ((full <? btr) && flag_set flags LWRB_FLAG_READ_ALL)
      then (0, bread, data, b) else
      let btr := BUF_MIN full btr in
      let r_ptr := lb_r_ptr h in
      (* Step 1: Read data from linear part of buffer *)
      let tocopy := BUF_MIN (u32 (lb_size h - r_ptr)) btr in
      let d := memcpy d 0 l r_ptr tocopy in
      let d_ptr := tocopy in
      let r_ptr := u32 (r_ptr + tocopy) in
      let btr := u32 (btr - tocopy) in
      (* Step 2: Read data from beginning of buffer (overflow part) *)
      let d := if 0 <? btr then memcpy d d_ptr l 0 btr else d in
      let r_ptr := if 0 <? btr then btr else r_ptr in
      (* Step 3: Check end of buffer *)
      let r_ptr := if lb_size h <=? r_ptr then 0 else r_ptr in
      let h := set_r_ptr r_ptr h in
      let h := BUF_SEND_EVT h LWRB_EVT_READ (u32 (tocopy + btr)) in
      (1, match bread with Some _ => Some (u32 (tocopy + btr)) | None => None end,
       Some d, Some h)
  | _, _ => (0, bread, data, b)
  end.

Definition lwrb_read (b : option lwrb_t) (data : option (list Z)) (btr : Z)
    : Z * option (list Z) * option lwrb_t :=
  let '(ok, read, d, b) := lwrb_read_ex b data btr (Some 0) 0 in
  if negb (ok =? 0) then (default 0 read, d, b) else (0, d, b).

Definition lwrb_peek (b : option lwrb_t) (skip_count : Z) (data : option (list Z)) (btp : Z)
    : Z * option (list Z) :=
  match deref_valid b, data with
  | Some (h, l), Some d =>
      if btp =? 0 then (0, data) else
      let full := lwrb_get_full b in
      if full <=? skip_count then (0, data) else
      let r_ptr := u32 (lb_r_ptr h + skip_count) in
      let full := u32 (full - skip_count) in
      let r_ptr := if lb_size h <=? r_ptr then u32 (r_ptr - lb_size h) else r_ptr in
      let btp := BUF_MIN full btp in
      (* Step 1: Read data from linear part of the buffer *)
      let tocopy := BUF_MIN (u32 (lb_size h - r_ptr)) btp in
      let d := memcpy d 0 l r_ptr tocopy in
      let d_ptr := tocopy in
      let btp := u32 (btp - tocopy) in
      (* Step 2: Read data from the beginning of the buffer (overflow part) *)
      let d := if 0 <? btp then memcpy d d_ptr l 0 btp else d in
      (u32 (tocopy + btp), Some d)
  | _, _ => (0, data)
  end.

(** The linear block is returned as its offset in the data array. *)
Definition lwrb_get_linear_block_read_address (b : option lwrb_t) : option Z :=
  match deref_valid b with
  | None => None
  | Some (h, _) => Some (lb_r_ptr h)
  end.

Definition lwrb_get_linear_block_read_length (b : option lwrb_t) : Z :=
  match deref_valid b with
  | None => 0
  | Some (h, _) =>
      let w_ptr := lb_w_ptr h in
      let r_ptr := lb_r_ptr h in
      if r_ptr <? w_ptr then u32 (w_ptr - r_ptr)
      else if w_ptr <? r_ptr then u32 (lb_size h - r_ptr)
      else 0
  end.

Definition lwrb_skip (b : option lwrb_t) (len : Z) : Z * option lwrb_t :=
  match deref_valid b with
  | Some (h, _) =>
      if len =? 0 then (0, b) else
      let full := lwrb_get_full b in
      let len := BUF_MIN len full in
      let r_ptr := u32 (lb_r_ptr h + len) in
      let r_ptr := if lb_size h <=? r_ptr then u32 (r_ptr - lb_size h) else r_ptr in
      (len, Some (BUF_SEND_EVT (set_r_ptr r_ptr h) LWRB_EVT_READ len))
  | None => (0, b)
  end.

Definition lwrb_get_linear_block_write_address (b : option lwrb_t) : option Z :=
  match deref_valid b with
  | None => None
  | Some (h, _) => Some (lb_w_ptr h)
  end.

Definition lwrb_get_linear_block_write_length (b : option lwrb_t) : Z :=
  match deref_valid b with
  | None => 0
  | Some (h, _) =>
      let w_ptr := lb_w_ptr h in
      let r_ptr := lb_r_ptr h in
      if r_ptr <=? w_ptr then
        let len := u32 (lb_size h - w_ptr) in
        if r_ptr =? 0 then u32 (len - 1) else len
      else u32 (u32 (r_ptr - w_ptr) - 1)
  end.

Definition lwrb_advance (b : option lwrb_t) (len : Z) : Z * option lwrb_t :=
  match deref_valid b with
  | Some (h, _) =>
      if len =? 0 then (0, b) else
      let free := lwrb_get_free b in
      let len := BUF_MIN len free in
      let w_ptr := u32 (lb_w_ptr h + len) in
      let w_ptr := if lb_size h <=? w_ptr then u32 (w_ptr - lb_size h) else w_ptr in
      (len, Some (BUF_SEND_EVT (set_w_ptr w_ptr h) LWRB_EVT_WRITE len))
  | None => (0, b)
  end.

(** Inner loop of [lwrb_find]: compare [len] bytes from [r_ptr]. *)
Fixpoint find_match (l needle : list Z) (size r_ptr idx : Z) (len : nat) : bool :=
  match len with
  | O => true
  | S len =>
      if negb (nthZ l r_ptr =? nthZ needle idx) then false
      else
        let r_ptr := u32 (r_ptr + 1) in
        let r_ptr := if size <=? r_ptr then 0 else r_ptr in
        find_match l needle size r_ptr (idx + 1) len
  end.

(** Outer loop: [n] is the number of positions left, [max_x - skip_x + 1]. *)
Fixpoint find_loop (l needle : list Z) (size buff_r_ptr len skip_x : Z) (n : nat)
    : option Z :=
  match n with
  | O => None
  | S n =>
      let r_ptr := u32 (buff_r_ptr + skip_x) in
      let r_ptr := if size <=? r_ptr then u32 (r_ptr - size) else r_ptr in
      if find_match l needle size r_ptr 0 (Z.to_nat len) then Some skip_x
      else find_loop l needle size buff_r_ptr len (u32 (skip_x + 1)) n
  end.

(** Result and the value stored in [*found_idx]. *)
Definition lwrb_find (b : option lwrb_t) (bts : option (list Z)) (len start_offset : Z)
    (found_idx : option Z) : Z * option Z :=
  match deref_valid b, bts, found_idx with
  | Some (h, l), Some needle, Some _ =>
      if len =? 0 then (0, found_idx) else
      let full := lwrb_get_full b in
      if full <? u32 (len + start_offset) then (0, Some 0) else
      let max_x := u32 (full - len) in
      match find_loop l needle (lb_size h) (lb_r_ptr h) len start_offset
              (Z.to_nat (max_x - start_offset + 1)) with
      | Some x => (1, Some x)
      | None => (0, Some 0)
      end
  | _, _, _ => (0, found_idx)
  end.

(** * Extended operations (lwrb_ex.c) *)

Definition lwrb_overwrite (b : option lwrb_t) (data : option (list Z)) (btw : Z)
    : Z * option lwrb_t :=
  match deref_valid b, data with
  | Some (h, _), Some d =>
      if btw =? 0 then (0, b) else
      let orig_btw := btw in
      let max_cap := u32 (lb_size h - 1) in
      if max_cap <? btw then
        let d := drop (Z.to_nat (u32 (btw - max_cap))) d in
        let btw := max_cap in
        let b := lwrb_reset b in
        (orig_btw, snd (lwrb_write b (Some d) btw))
      else
        let f := lwrb_get_free b in
        let b := if f <? btw then snd (lwrb_skip b (u32 (btw - f))) else b in
        (orig_btw, snd (lwrb_write b (Some d) btw))
  | _, _ => (0, b)
  end.

(** [*d_dst++ = *d_src++], [n] times, between the data arrays. *)
Fixpoint copy_bytes (dst src : list Z) (d_dst d_src : Z) (n : nat) : list Z :=
  match n with
  | O => dst
  | S n =>
      copy_bytes (<[Z.to_nat d_dst := nthZ src d_src]> dst) src (d_dst + 1) (d_src + 1) n
  end.

(** The copy loop of [lwrb_move]; [false] is the early [return 0] (hard error).
    [fuel] bounds the iterations; each one copies at least a byte. *)
Fixpoint move_loop (fuel : nat) (dest src : option lwrb_t) (len_to_copy : Z)
    : bool * option lwrb_t * option lwrb_t :=
  match fuel with
  | O => (len_to_copy <=? 0, dest, src)
  | S fuel =>
      if len_to_copy <=? 0 then (true, dest, src) else
      let max_seq_read := lwrb_get_linear_block_read_length src in
      let max_seq_write := lwrb_get_linear_block_write_length dest in
      let op_len := BUF_MIN max_seq_read max_seq_write in
      let op_len := BUF_MIN len_to_copy op_len in
      let dest :=
        match deref_valid dest, deref_valid src,
              lwrb_get_linear_block_write_address dest,
              lwrb_get_linear_block_read_address src with
        | Some (hd, ld), Some (_, ls), Some d_dst, Some d_src =>
            Some (set_buff (Some (copy_bytes ld ls d_dst d_src (Z.to_nat op_len))) hd)
        | _, _, _, _ => dest
        end in
      let dest := snd (lwrb_advance dest op_len) in
      let src := snd (lwrb_skip src op_len) in
      let len_to_copy := u32 (len_to_copy - op_len) in
      if op_len =? 0 then (false, dest, src)
      else move_loop fuel dest src len_to_copy
  end.

Definition lwrb_move (dest src : option lwrb_t) : Z * option lwrb_t * option lwrb_t :=
  if negb (BUF_IS_VALID dest) || negb (BUF_IS_VALID src) then (0, dest, src) else
  let src_full := lwrb_get_full src in
  let dest_free := lwrb_get_free dest in
  let len_to_copy := BUF_MIN src_full dest_free in
  let len_to_copy_orig := len_to_copy in
  let '(ok, dest, src) := move_loop (Z.to_nat len_to_copy) dest src len_to_copy in
  (if ok then len_to_copy_orig else 0, dest, src).

(** * Invariant and abstraction *)

(** Bytes stored between the two indices of a ring of [size] bytes. *)
Definition ring_count (size r w : Z) : Z := if r <=? w then w - r else size - (r - w).

(** Well-formed handle: the data array has [size] bytes, both indices are inside
    it, and [size] is at most half of the 32-bit range, so that index sums do not
    wrap. *)
Record ring_wf (h : lwrb_t) (l : list Z) : Prop := {
  rw_buff : lb_buff h = Some l;
  rw_len : blen l = lb_size h;
  rw_size : 0 < lb_size h ≤ 2147483648;
  rw_r : 0 ≤ lb_r_ptr h < lb_size h;
  rw_w : 0 ≤ lb_w_ptr h < lb_size h
}.

Definition ring_ok (h : lwrb_t) : Prop := ∃ l, ring_wf h l.

(** The abstract state: the stored bytes, oldest first. *)
Definition contents (h : lwrb_t) : list Z :=
  match lb_buff h with
  | Some l =>
      ring_view l (lb_r_ptr h) (ring_count (lb_size h) (lb_r_ptr h) (lb_w_ptr h))
  | None => []
  end.

Definition capacity (h : lwrb_t) : Z := lb_size h - 1.

Lemma ring_count_range size r w :
  0 < size → 0 ≤ r < size → 0 ≤ w < size → 0 ≤ ring_count size r w < size.
Proof. unfold ring_count. intros. zbool. Qed.

Section ring.
Context (h : lwrb_t) (l : list Z) (Hwf : ring_wf h l).

Abbreviation size := (lb_size h).
Abbreviation r := (lb_r_ptr h).
Abbreviation w := (lb_w_ptr h).
Abbreviation count := (ring_count size r w).

Lemma ring_deref : deref_valid (Some h) = Some (h, l).
Proof using Hwf.
  destruct Hwf as [Hb _ Hs _ _]. unfold deref_valid. rewrite Hb.
  destruct (Z.ltb_spec 0 size); [done | lia].
Qed.

Lemma count_range : 0 ≤ count < size.
Proof using Hwf. destruct Hwf. apply ring_count_range; lia. Qed.

Lemma ring_full : lwrb_get_full (Some h) = count.
Proof using Hwf.
  unfold lwrb_get_full. rewrite ring_deref. pose proof count_range.
  destruct Hwf. unfold ring_count in *.
  destruct (Z.leb_spec r w); u32s; lia.
Qed.

Lemma ring_free : lwrb_get_free (Some h) = size - 1 - count.
Proof using Hwf.
  unfold lwrb_get_free. rewrite ring_deref. pose proof count_range.
  destruct Hwf. unfold ring_count in *.
  destruct (Z.leb_spec r w); u32s; lia.
Qed.

Lemma contents_view : contents h = ring_view l r count.
Proof using Hwf. destruct Hwf as [Hb _ _ _ _]. unfold contents. by rewrite Hb. Qed.

Lemma w_ptr_idx : w = ring_idx size r count.
Proof using Hwf. destruct Hwf. unfold ring_idx, ring_count. zbool. Qed.

Lemma contents_blen : blen (contents h) = count.
Proof using Hwf.
  pose proof count_range. destruct Hwf as [_ Hl ? ? ?]. rewrite contents_view.
  apply ring_view_blen; lia.
Qed.

Lemma contents_length : length (contents h) = Z.to_nat count.
Proof using Hwf. pose proof contents_blen. unfold blen in *. lia. Qed.
End ring.

(** * Specifications of the operations *)

(** What one operation leaves alone, and the event it reports. *)
Record frame (h h' : lwrb_t) (evs : list (lwrb_evt_type_t * Z)) : Prop := {
  fr_size : lb_size h' = lb_size h;
  fr_fn : lb_evt_fn h' = lb_evt_fn h;
  fr_arg : lb_arg h' = lb_arg h;
  fr_log : lb_evt_log h' = lb_evt_log h ++ match lb_evt_fn h with Some _ => evs | None => [] end
}.

Lemma send_evt_fields h t n :
  lb_buff (BUF_SEND_EVT h t n) = lb_buff h ∧ lb_size (BUF_SEND_EVT h t n) = lb_size h ∧
  lb_r_ptr (BUF_SEND_EVT h t n) = lb_r_ptr h ∧ lb_w_ptr (BUF_SEND_EVT h t n) = lb_w_ptr h.
Proof. unfold BUF_SEND_EVT. by destruct (lb_evt_fn h). Qed.

Lemma send_evt_contents h t n : contents (BUF_SEND_EVT h t n) = contents h.
Proof. unfold contents, BUF_SEND_EVT. by destruct (lb_evt_fn h). Qed.

Lemma send_evt_wf h l t n : ring_wf h l → ring_wf (BUF_SEND_EVT h t n) l.
Proof.
  destruct (send_evt_fields h t n) as (? & ? & ? & ?). intros []. constructor; congruence || lia.
Qed.

(** The update every operation makes: new data, new indices, one event. *)
Definition ring_upd (h : lwrb_t) (l : list Z) (r w : Z) (t : lwrb_evt_type_t) (n : Z) : lwrb_t :=
  BUF_SEND_EVT (set_w_ptr w (set_r_ptr r (set_buff (Some l) h))) t n.

Lemma ring_upd_frame h l r w t n : frame h (ring_upd h l r w t n) [(t, n)].
Proof.
  unfold ring_upd, BUF_SEND_EVT. simpl. destruct (lb_evt_fn h) eqn:E; constructor; simpl;
    rewrite ?E, ?app_nil_r; done.
Qed.

Lemma ring_upd_size h l r w t n : lb_size (ring_upd h l r w t n) = lb_size h.
Proof. apply (ring_upd_frame h l r w t n). Qed.

Lemma ring_upd_wf h l l' r w t n :
  ring_wf h l → length l' = length l → 0 ≤ r < lb_size h → 0 ≤ w < lb_size h →
  ring_wf (ring_upd h l' r w t n) l'.
Proof.
  intros [] ? ? ?. apply send_evt_wf. constructor; simpl; try done. unfold blen in *. lia.
Qed.

Lemma ring_count_adv_w size r w n :
  0 ≤ r < size → 0 ≤ w < size → 0 ≤ n → ring_count size r w + n < size →
  ring_count size r (ring_adv size w n) = ring_count size r w + n.
Proof. unfold ring_count, ring_adv. intros. zbool. Qed.

Lemma ring_count_adv_r size r w n :
  0 ≤ r < size → 0 ≤ w < size → 0 ≤ n ≤ ring_count size r w →
  ring_count size (ring_adv size r n) w = ring_count size r w - n.
Proof. unfold ring_count, ring_adv. intros. zbool. Qed.

(** The contents after such an update, by its data and indices. *)
Lemma ring_upd_contents h l r w t n :
  contents (ring_upd h l r w t n) = ring_view l r (ring_count (lb_size h) r w).
Proof. unfold ring_upd. rewrite send_evt_contents. done. Qed.

(** Storing [n] bytes appends them to the contents. *)
Lemma contents_put h l d n t m :
  ring_wf h l → 0 ≤ n → ring_count (lb_size h) (lb_r_ptr h) (lb_w_ptr h) + n < lb_size h →
  n ≤ blen d →
  contents (ring_upd h (ring_put l (lb_w_ptr h) d n) (lb_r_ptr h)
              (ring_adv (lb_size h) (lb_w_ptr h) n) t m)
  = contents h ++ take (Z.to_nat n) d.
Proof.
  intros Hwf Hn Hfit Hd. pose proof (count_range h l Hwf). pose proof Hwf as [Hb Hl Hs Hr Hw].
  rewrite ring_upd_contents, ring_count_adv_w by lia.
  rewrite (w_ptr_idx h l Hwf) at 1. rewrite <- Hl at 1.
  rewrite ring_view_put by lia. by rewrite (contents_view h l Hwf).
Qed.

(** Dropping [n] bytes removes them from the front. *)
Lemma contents_drop h l n t m :
  ring_wf h l → 0 ≤ n ≤ ring_count (lb_size h) (lb_r_ptr h) (lb_w_ptr h) →
  contents (ring_upd h l (ring_adv (lb_size h) (lb_r_ptr h) n) (lb_w_ptr h) t m)
  = drop (Z.to_nat n) (contents h).
Proof.
  intros Hwf Hn. pose proof (count_range h l Hwf). pose proof Hwf as [Hb Hl Hs Hr Hw].
  rewrite ring_upd_contents, ring_count_adv_r by lia. rewrite <- Hl at 1.
  rewrite ring_view_drop by lia. by rewrite (contents_view h l Hwf).
Qed.

(** Copying [n] stored bytes out, [k] bytes into the stream. *)
Lemma ring_get_contents h l d k n :
  ring_wf h l → 0 ≤ k → 0 ≤ n → k + n ≤ ring_count (lb_size h) (lb_r_ptr h) (lb_w_ptr h) →
  n ≤ blen d →
  ring_get d l (ring_idx (lb_size h) (lb_r_ptr h) k) n
  = take (Z.to_nat n) (drop (Z.to_nat k) (contents h)) ++ drop (Z.to_nat n) d.
Proof.
  intros Hwf Hk Hn Hkn Hd. pose proof (count_range h l Hwf). pose proof Hwf as [Hb Hl Hs Hr Hw].
  rewrite (contents_view h l Hwf), <- Hl at 1. apply ring_get_view; lia.
Qed.

Section op_specs.
Context (h : lwrb_t) (l : list Z) (Hwf : ring_wf h l).

Abbreviation size := (lb_size h).
Abbreviation r := (lb_r_ptr h).
Abbreviation w := (lb_w_ptr h).
Abbreviation count := (ring_count size r w).

Lemma write_ex_eq d btw bw flags :
  is_u32 btw → btw ≤ blen d →
  lwrb_write_ex (Some h) (Some d) btw bw flags =
    let free := size - 1 - count in
    let n := Z.min free btw in
    if (btw =? 0) || ((free =? 0) || ((free <? btw) && flag_set flags LWRB_FLAG_WRITE_ALL))
    then (0, bw, Some h)
    else (1, match bw with Some _ => Some n | None => None end,
          Some (ring_upd h (ring_put l w d n) r (ring_adv size w n) LWRB_EVT_WRITE n)).
Proof using Hwf.
  intros Hbtw Hd. pose proof (count_range h l Hwf) as Hc. pose proof Hwf as [Hb Hl Hs Hr Hw].
  unfold lwrb_write_ex. rewrite (ring_deref h l Hwf), (ring_free h l Hwf).
  destruct (btw =? 0) eqn:Eb; [done | apply Z.eqb_neq in Eb]. cbn [orb].
  destruct ((size - 1 - count =? 0) ||
            ((size - 1 - count <? btw) && flag_set flags LWRB_FLAG_WRITE_ALL)) eqn:Ef;
    [done |].
  apply orb_false_iff in Ef as [Ef _]. apply Z.eqb_neq in Ef. unfold is_u32 in Hbtw.
  rewrite !BUF_MIN_min. u32s.
  replace (Z.min (size - w) (Z.min (size - 1 - count) btw) +
           (Z.min (size - 1 - count) btw - Z.min (size - w) (Z.min (size - 1 - count) btw)))
    with (Z.min (size - 1 - count) btw) by lia.
  unfold ring_upd, ring_put. rewrite Hl. do 3 f_equal. f_equal.
  unfold ring_adv, ring_count in *. zbool.
Qed.

Lemma read_ex_eq d btr bw flags :
  is_u32 btr → Z.min count btr ≤ blen d →
  lwrb_read_ex (Some h) (Some d) btr bw flags =
    let n := Z.min count btr in
    if (btr =? 0) || ((count =? 0) || ((count <? btr) && flag_set flags LWRB_FLAG_READ_ALL))
    then (0, bw, Some d, Some h)
    else (1, match bw with Some _ => Some n | None => None end,
          Some (take (Z.to_nat n) (contents h) ++ drop (Z.to_nat n) d),
          Some (ring_upd h l (ring_adv size r n) w LWRB_EVT_READ n)).
Proof using Hwf.
  intros Hbtr Hd. pose proof (count_range h l Hwf) as Hc. pose proof Hwf as [Hb Hl Hs Hr Hw].
  unfold lwrb_read_ex. rewrite (ring_deref h l Hwf), (ring_full h l Hwf).
  destruct (btr =? 0) eqn:Eb; [done | apply Z.eqb_neq in Eb]. cbn [orb].
  destruct ((count =? 0) || ((count <? btr) && flag_set flags LWRB_FLAG_READ_ALL)) eqn:Ef;
    [done |].
  apply orb_false_iff in Ef as [Ef _]. apply Z.eqb_neq in Ef. unfold is_u32 in Hbtr.
  rewrite !BUF_MIN_min. u32s.
  set (n := Z.min count btr) in *.
  replace (Z.min (size - r) n + (n - Z.min (size - r) n)) with n by lia.
  pose proof (ring_get_contents h l d 0 n Hwf ltac:(lia) ltac:(lia) ltac:(lia) Hd) as Hg.
  rewrite drop_0 in Hg.
  replace (ring_idx size r 0) with r in Hg by (unfold ring_idx; zbool).
  rewrite <- Hg. unfold ring_get, ring_upd. rewrite Hl. f_equal. f_equal.
  unfold set_r_ptr, set_w_ptr, set_buff. simpl. rewrite Hb. f_equal. f_equal.
  unfold ring_adv, ring_count in *. zbool.
Qed.

Lemma peek_eq skip d btp :
  is_u32 btp → is_u32 skip → Z.min (count - skip) btp ≤ blen d →
  lwrb_peek (Some h) skip (Some d) btp =
    let n := Z.min (count - skip) btp in
    if (btp =? 0) || (count <=? skip) then (0, Some d)
    else (n, Some (take (Z.to_nat n) (drop (Z.to_nat skip) (contents h))
                     ++ drop (Z.to_nat n) d)).
Proof using Hwf.
  intros Hbtp Hsk Hd. pose proof (count_range h l Hwf) as Hc.
  pose proof Hwf as [Hb Hl Hs Hr Hw].
  unfold lwrb_peek. rewrite (ring_deref h l Hwf), (ring_full h l Hwf).
  destruct (Z.eqb_spec btp 0); [done |]. cbn [orb].
  destruct (Z.leb_spec count skip); [done |]. unfold is_u32 in *.
  rewrite !BUF_MIN_min.
  replace (if size <=? u32 (r + skip) then u32 (u32 (r + skip) - size) else u32 (r + skip))
    with (ring_idx size r skip) by (u32s; unfold ring_idx; zbool; u32s; lia).
  rewrite (u32_small (count - skip)) by (unfold is_u32; lia).
  set (m := Z.min (count - skip) btp) in *.
  pose proof (ring_idx_range size r skip ltac:(lia) ltac:(lia)).
  u32s. rewrite <- (ring_get_contents h l d skip m Hwf) by lia.
  unfold ring_get. rewrite Hl. f_equal. lia.
Qed.

Lemma skip_eq n :
  is_u32 n →
  lwrb_skip (Some h) n =
    if n =? 0 then (0, Some h)
    else let m := Z.min n count in
         (m, Some (ring_upd h l (ring_adv size r m) w LWRB_EVT_READ m)).
Proof using Hwf.
  intros Hn. pose proof (count_range h l Hwf) as Hc. pose proof Hwf as [Hb Hl Hs Hr Hw].
  unfold lwrb_skip. rewrite (ring_deref h l Hwf), (ring_full h l Hwf).
  destruct (Z.eqb_spec n 0); [done |]. unfold is_u32 in *. rewrite BUF_MIN_min. f_equal.
  f_equal. unfold ring_upd, set_r_ptr, set_w_ptr, set_buff. simpl. rewrite Hb. f_equal.
  f_equal. unfold ring_adv. u32s. zbool. u32s. done.
Qed.

Lemma advance_eq n :
  is_u32 n →
  lwrb_advance (Some h) n =
    if n =? 0 then (0, Some h)
    else let m := Z.min n (size - 1 - count) in
         (m, Some (ring_upd h l r (ring_adv size w m) LWRB_EVT_WRITE m)).
Proof using Hwf.
  intros Hn. pose proof (count_range h l Hwf) as Hc. pose proof Hwf as [Hb Hl Hs Hr Hw].
  unfold lwrb_advance. rewrite (ring_deref h l Hwf), (ring_free h l Hwf).
  destruct (Z.eqb_spec n 0); [done |]. unfold is_u32 in *. rewrite BUF_MIN_min. f_equal.
  f_equal. unfold ring_upd, set_r_ptr, set_w_ptr, set_buff. simpl. rewrite Hb. f_equal.
  f_equal. unfold ring_adv. u32s. zbool. u32s. done.
Qed.

Lemma reset_eq : lwrb_reset (Some h) = Some (ring_upd h l 0 0 LWRB_EVT_RESET 0).
Proof using Hwf.
  pose proof Hwf as [Hb Hl Hs Hr Hw]. unfold lwrb_reset. rewrite (ring_deref h l Hwf).
  unfold ring_upd, set_r_ptr, set_w_ptr, set_buff. simpl. by rewrite Hb.
Qed.
End op_specs.

(** * Refinement: the ring buffer is a bounded FIFO of bytes *)

(** Client operations, with the data they carry. *)
Inductive ring_op : Type :=
  | OpWrite (d : list Z) (flags : Z)
  | OpPut (d : list Z)
  | OpRead (n flags : Z)
  | OpGet (n : Z)
  | OpPeek (skip n : Z)
  | OpSkip (n : Z)
  | OpAdvance (d : list Z)
  | OpReset
  | OpOverwrite (d : list Z)
  | OpFind (needle : list Z) (start : Z)
  | OpFree
  | OpFull.

(** What a client sees: the returned number and the bytes copied out. *)
Definition ring_out : Type := Z * list Z.

(** What a DMA channel does before [lwrb_advance]: the bytes of [d] that fit the
    free space are stored behind the write pointer, wrapping at the end of the array;
    the pointers are not touched. *)
Definition dma_store (d : list Z) (h : lwrb_t) : lwrb_t :=
  match lb_buff h with
  | Some l =>
      let n := Z.min (blen d) (lwrb_get_free (Some h)) in
      set_buff (Some (ring_put l (lb_w_ptr h) d n)) h
  | None => h
  end.

(** The operation on the ring; reads go to a zeroed block of [n] bytes, of which
    the client keeps the bytes it was told were read. *)
Definition run_op (op : ring_op) (h : lwrb_t) : ring_out * lwrb_t :=
  match op with
  | OpPut d => let '(k, b) := lwrb_write (Some h) (Some d) (blen d) in ((k, []), default h b)
  | OpGet n =>
      let '(k, d, b) := lwrb_read (Some h) (Some (replicate (Z.to_nat n) 0)) n in
      ((k, take (Z.to_nat k) (default [] d)), default h b)
  | OpAdvance d =>
      let '(k, b) := lwrb_advance (Some (dma_store d h)) (blen d) in ((k, []), default h b)
  | OpFind needle start =>
      let '(ok, x) := lwrb_find (Some h) (Some needle) (blen needle) start (Some 0) in
      ((ok, [default 0 x]), h)
  | OpFree => ((lwrb_get_free (Some h), []), h)
  | OpFull => ((lwrb_get_full (Some h), []), h)
  | OpWrite d flags =>
      let '(ok, n, b) := lwrb_write_ex (Some h) (Some d) (blen d) (Some 0) flags in
      ((default 0 n, []), default h b)
  | OpRead n flags =>
      let '(ok, k, d, b) :=
        lwrb_read_ex (Some h) (Some (replicate (Z.to_nat n) 0)) n (Some 0) flags in
      ((default 0 k, take (Z.to_nat (default 0 k)) (default [] d)), default h b)
  | OpPeek skip n =>
      let '(k, d) := lwrb_peek (Some h) skip (Some (replicate (Z.to_nat n) 0)) n in
      ((k, take (Z.to_nat k) (default [] d)), h)
  | OpSkip n => let '(k, b) := lwrb_skip (Some h) n in ((k, []), default h b)
  | OpReset => ((0, []), default h (lwrb_reset (Some h)))
  | OpOverwrite d =>
      let '(k, b) := lwrb_overwrite (Some h) (Some d) (blen d) in ((k, []), default h b)
  end.

(** The first position from [start] on at which [needle] occurs in [q]. *)
Definition first_occurrence (q needle : list Z) (start : Z) : option Z :=
  snd <$> list_find (λ x, take (length needle) (drop (Z.to_nat x) q) = needle)
            (seqZ start (blen q - blen needle - start + 1)).

(** The same operation on a queue that holds at most [cap] bytes. *)
Definition fifo_op (cap : Z) (op : ring_op) (q : list Z) : ring_out * list Z :=
  match op with
  | OpPut d | OpAdvance d =>
      let free := cap - blen q in
      ((Z.min free (blen d), []), q ++ take (Z.to_nat free) d)
  | OpGet n => ((Z.min (blen q) n, take (Z.to_nat n) q), drop (Z.to_nat n) q)
  | OpFind needle start =>
      match first_occurrence q needle start with
      | Some x => ((1, [x]), q)
      | None => ((0, [0]), q)
      end
  | OpFree => ((cap - blen q, []), q)
  | OpFull => ((blen q, []), q)
  | OpWrite d flags =>
      let free := cap - blen q in
      if (free <? blen d) && flag_set flags LWRB_FLAG_WRITE_ALL then ((0, []), q)
      else ((Z.min free (blen d), []), q ++ take (Z.to_nat free) d)
  | OpRead n flags =>
      if (blen q <? n) && flag_set flags LWRB_FLAG_READ_ALL then ((0, []), q)
      else ((Z.min (blen q) n, take (Z.to_nat n) q), drop (Z.to_nat n) q)
  | OpPeek skip n =>
      let q' := drop (Z.to_nat skip) q in
      ((Z.min (blen q') n, take (Z.to_nat n) q'), q)
  | OpSkip n => ((Z.min n (blen q), []), drop (Z.to_nat n) q)
  | OpReset => ((0, []), [])
  | OpOverwrite d =>
      let q' := q ++ d in ((blen d, []), drop (Z.to_nat (blen q' - cap)) q')
  end.

(** Counts passed by clients fit the 32-bit [lwrb_sz_t]; a search is for a
    non-empty needle, and the sum of its length and its start, which the code
    computes, fits as well. *)
Definition op_ok (op : ring_op) : Prop :=
  match op with
  | OpWrite d _ | OpOverwrite d | OpPut d | OpAdvance d => is_u32 (blen d)
  | OpRead n _ | OpSkip n | OpGet n => is_u32 n
  | OpPeek skip n => is_u32 skip ∧ is_u32 n
  | OpFind needle start => 0 < blen needle ∧ 0 ≤ start ∧ is_u32 (blen needle + start)
  | OpReset | OpFree | OpFull => True
  end.

(** One operation: the ring and the queue give the same output and stay related. *)
Definition op_sim (op : ring_op) (h : lwrb_t) : Prop :=
  let '(out, h') := run_op op h in
  ring_ok h' ∧ lb_size h' = lb_size h ∧ fifo_op (capacity h) op (contents h) = (out, contents h').

(** Lengths in terms of the abstract state. *)
Lemma ring_free_abs h l :
  ring_wf h l → lb_size h - 1 - ring_count (lb_size h) (lb_r_ptr h) (lb_w_ptr h)
                = capacity h - blen (contents h).
Proof. intros Hwf. rewrite (contents_blen h l Hwf). unfold capacity. lia. Qed.

Lemma capacity_bound h l : ring_wf h l → 0 ≤ blen (contents h) ≤ capacity h.
Proof.
  intros Hwf. rewrite (contents_blen h l Hwf). pose proof (count_range h l Hwf).
  unfold capacity. lia.
Qed.

Lemma flag_set_0 m : flag_set 0 m = false.
Proof. unfold flag_set. by rewrite Z.land_0_l. Qed.

(** Appending on the ring: [lwrb_write_ex] as an operation on the contents. *)
Lemma write_ex_abs h l d btw bw flags :
  ring_wf h l → is_u32 btw → btw ≤ blen d →
  let free := capacity h - blen (contents h) in
  if (free <? btw) && flag_set flags LWRB_FLAG_WRITE_ALL
  then lwrb_write_ex (Some h) (Some d) btw bw flags = (0, bw, Some h)
  else ∃ ok bw' h' l', lwrb_write_ex (Some h) (Some d) btw bw flags = (ok, bw', Some h') ∧
         ring_wf h' l' ∧ lb_size h' = lb_size h ∧
         contents h' = contents h ++ take (Z.to_nat (Z.min free btw)) d ∧
         (bw = Some 0 → bw' = Some (Z.min free btw)) ∧
         (ok = if Z.min free btw =? 0 then 0 else 1).
Proof.
  intros Hwf Hu Hd free. pose proof (capacity_bound h l Hwf) as Hcap.
  rewrite (write_ex_eq h l Hwf d btw bw flags Hu Hd). cbv zeta.
  rewrite (ring_free_abs h l Hwf). fold free.
  destruct ((free <? btw) && flag_set flags LWRB_FLAG_WRITE_ALL); [by rewrite !orb_true_r |].
  rewrite orb_false_r. unfold is_u32 in Hu.
  destruct ((btw =? 0) || (free =? 0)) eqn:E.
  - exists 0, bw, h, l. apply orb_true_iff in E. rewrite !Z.eqb_eq in E.
    assert (Z.min free btw = 0) as -> by lia. rewrite take_0, app_nil_r. by split_and!.
  - apply orb_false_iff in E. rewrite !Z.eqb_neq in E. destruct E as [E1 E2].
    pose proof Hwf as [Hb Hl Hs Hr Hw]. pose proof (contents_blen h l Hwf).
    unfold capacity in *.
    eexists _, _, _, _. split; [done |]. split; [| split; [| split; [| split]]].
    + eapply (ring_upd_wf h l); [done | apply ring_put_length; lia | lia |].
      apply ring_adv_range; lia.
    + apply ring_upd_size.
    + apply (contents_put h l); lia || done.
    + by intros ->.
    + destruct (Z.eqb_spec (Z.min free btw) 0); [lia | done].
Qed.

Lemma sim_write d flags h l : ring_wf h l → op_ok (OpWrite d flags) → op_sim (OpWrite d flags) h.
Proof.
  intros Hwf Hok. pose proof (write_ex_abs h l d (blen d) (Some 0) flags Hwf Hok) as H.
  specialize (H ltac:(lia)). cbv zeta in H. unfold op_sim, run_op, fifo_op. simpl in Hok.
  destruct (_ && _).
  - rewrite H. simpl. split; [by exists l | done].
  - destruct H as (ok & bw' & h' & l' & -> & Hwf' & Hsz & Hc & Hbw & _).
    rewrite Hbw by done. simpl. split; [by exists l' | split; [done |]].
    rewrite Hc, take_min_blen. done.
Qed.

Lemma sim_read n flags h l : ring_wf h l → op_ok (OpRead n flags) → op_sim (OpRead n flags) h.
Proof.
  intros Hwf Hok. simpl in Hok. pose proof Hwf as [Hb Hl Hs Hr Hw].
  pose proof (count_range h l Hwf) as Hc. unfold is_u32 in Hok.
  unfold op_sim, run_op, fifo_op.
  rewrite (read_ex_eq h l Hwf) by (unfold is_u32; len). cbv zeta.
  rewrite <- (contents_blen h l Hwf).
  destruct ((blen (contents h) <? n) && flag_set flags LWRB_FLAG_READ_ALL).
  { rewrite !orb_true_r. simpl. split; [by exists l | done]. }
  rewrite orb_false_r. destruct ((n =? 0) || (blen (contents h) =? 0)) eqn:E.
  - simpl. split; [by exists l | split; [done |]].
    apply orb_true_iff in E. rewrite !Z.eqb_eq in E.
    assert (Z.min (blen (contents h)) n = 0) as -> by (pose proof (blen_nonneg (contents h)); lia).
    destruct E as [-> | E]; [by rewrite take_0, drop_0 |].
    assert (contents h = []) as -> by (apply nil_length_inv; len). by rewrite take_nil, drop_nil.
  - simpl. rewrite (contents_blen h l Hwf) in *.
    split; [| split].
    + exists l. apply (ring_upd_wf h l); [done | done | | lia]. apply ring_adv_range; lia.
    + apply ring_upd_size.
    + rewrite (contents_drop h l) by (done || lia).
      rewrite <- (contents_blen h l Hwf). rewrite take_app_le by len.
      rewrite take_take, Nat.min_id, Z.min_comm, take_min_blen, drop_min_blen. done.
Qed.

Lemma sim_peek skip n h l : ring_wf h l → op_ok (OpPeek skip n) → op_sim (OpPeek skip n) h.
Proof.
  intros Hwf [Hsk Hn]. pose proof (count_range h l Hwf) as Hc.
  pose proof (contents_length h l Hwf) as Hlen. unfold is_u32 in *.
  unfold op_sim, run_op, fifo_op.
  rewrite (peek_eq h l Hwf) by (unfold is_u32; len). cbv zeta.
  assert (Hd : blen (drop (Z.to_nat skip) (contents h))
               = Z.max 0 (ring_count (lb_size h) (lb_r_ptr h) (lb_w_ptr h) - skip)) by len.
  rewrite Hd. destruct ((n =? 0) || _) eqn:E; simpl.
  - split; [by exists l | split; [done |]].
    apply orb_true_iff in E. rewrite Z.eqb_eq, Z.leb_le in E.
    destruct E as [-> | E].
    + rewrite !take_0. do 3 f_equal. lia.
    + rewrite drop_ge by lia. rewrite take_nil, take_0. do 3 f_equal. lia.
  - split; [by exists l | split; [done |]].
    apply orb_false_iff in E. rewrite Z.eqb_neq, Z.leb_gt in E.
    replace (Z.min (ring_count (lb_size h) (lb_r_ptr h) (lb_w_ptr h) - skip) n)
      with (Z.min n (blen (drop (Z.to_nat skip) (contents h)))) by lia.
    rewrite take_app_le by len. rewrite take_take, Nat.min_id, take_min_blen, Hd, Z.min_comm.
    done.
Qed.

Lemma skip_abs h l n :
  ring_wf h l → is_u32 n →
  ∃ h', lwrb_skip (Some h) n = (Z.min n (blen (contents h)), Some h') ∧ ring_wf h' l ∧
        lb_size h' = lb_size h ∧ contents h' = drop (Z.to_nat n) (contents h).
Proof.
  intros Hwf Hn. pose proof (count_range h l Hwf) as Hc. pose proof Hwf as [Hb Hl Hs Hr Hw].
  pose proof (contents_length h l Hwf) as Hlen. unfold is_u32 in Hn.
  rewrite (skip_eq h l Hwf) by done. rewrite (contents_blen h l Hwf).
  destruct (Z.eqb_spec n 0) as [-> |].
  { exists h. split_and!; try done. f_equal. lia. }
  eexists. split; [done |]. split; [| split].
  - apply (ring_upd_wf h l); [done | done | apply ring_adv_range; lia | lia].
  - apply ring_upd_size.
  - rewrite (contents_drop h l) by (done || lia).
    rewrite <- (contents_blen h l Hwf). apply drop_min_blen.
Qed.

Lemma reset_abs h l :
  ring_wf h l →
  ∃ h', lwrb_reset (Some h) = Some h' ∧ ring_wf h' l ∧ lb_size h' = lb_size h ∧ contents h' = [].
Proof.
  intros Hwf. pose proof Hwf as [Hb Hl Hs Hr Hw]. rewrite (reset_eq h l Hwf). eexists.
  split; [done |]. split; [| split].
  - apply (ring_upd_wf h l); first [done | lia].
  - apply ring_upd_size.
  - unfold ring_upd. by rewrite send_evt_contents.
Qed.

(** A plain write that fits appends the whole block. *)
Lemma write_fits h l d btw :
  ring_wf h l → is_u32 btw → btw ≤ blen d → btw ≤ capacity h - blen (contents h) →
  ∃ n h' l', lwrb_write (Some h) (Some d) btw = (n, Some h') ∧ ring_wf h' l' ∧
    lb_size h' = lb_size h ∧ contents h' = contents h ++ take (Z.to_nat btw) d.
Proof.
  intros Hwf Hu Hd Hfit. pose proof (write_ex_abs h l d btw (Some 0) 0 Hwf Hu Hd) as H.
  cbv zeta in H. rewrite flag_set_0, andb_false_r in H.
  destruct H as (ok & bw' & h' & l' & E & Hwf' & Hsz & Hc & _ & _).
  unfold lwrb_write. rewrite E. rewrite Z.min_r in Hc by lia.
  destruct (negb (ok =? 0)); eexists _, h', l'; done.
Qed.

Lemma sim_overwrite d h l : ring_wf h l → op_ok (OpOverwrite d) → op_sim (OpOverwrite d) h.
Proof.
  intros Hwf Hok. simpl in Hok. pose proof Hwf as [Hb Hl Hs Hr Hw].
  pose proof (capacity_bound h l Hwf) as Hcap. pose proof (blen_nonneg d).
  unfold op_sim, run_op, fifo_op, lwrb_overwrite. rewrite (ring_deref h l Hwf). unfold is_u32 in Hok.
  rewrite blen_app. destruct (Z.eqb_spec (blen d) 0) as [E |].
  { simpl. split; [by exists l | split; [done |]]. rewrite E. f_equal.
    assert (d = []) as -> by (apply nil_length_inv; len). rewrite app_nil_r.
    replace (Z.to_nat _) with 0%nat by lia. done. }
  rewrite (ring_free h l Hwf), (ring_free_abs h l Hwf).
  rewrite (u32_small (lb_size h - 1)) by (unfold is_u32; lia).
  change (lb_size h - 1) with (capacity h). assert (capacity h = lb_size h - 1) by done.
  destruct (Z.ltb_spec (capacity h) (blen d)).
  - destruct (reset_abs h l Hwf) as (h1 & -> & Hwf1 & Hsz1 & Hc1).
    destruct (write_fits h1 l (drop (Z.to_nat (u32 (blen d - capacity h))) d) (capacity h))
      as (k & h2 & l2 & E & Hwf2 & Hsz2 & Hc2); try done.
    { unfold is_u32. lia. }
    { u32s. len. }
    { rewrite Hc1. unfold capacity in *. rewrite Hsz1. len. }
    rewrite E. simpl. split; [by exists l2 | split; [congruence |]]. f_equal.
    rewrite Hc2, Hc1. simpl. u32s. rewrite take_ge by len. rewrite drop_app_ge by len.
    f_equal. len.
  - assert (∃ h1, (if capacity h - blen (contents h) <? blen d
                   then snd (lwrb_skip (Some h) (u32 (blen d - (capacity h - blen (contents h)))))
                   else Some h) = Some h1 ∧ ring_wf h1 l ∧ lb_size h1 = lb_size h ∧
              contents h1 = drop (Z.to_nat (blen (contents h) + blen d - capacity h)) (contents h))
      as (h1 & -> & Hwf1 & Hsz1 & Hc1).
    { destruct (Z.ltb_spec (capacity h - blen (contents h)) (blen d)).
      - u32s. destruct (skip_abs h l (blen d - (capacity h - blen (contents h))) Hwf)
          as (h1 & E & ? & ? & Hc); [unfold is_u32; lia |].
        exists h1. rewrite E. split_and!; try done. rewrite Hc. f_equal. lia.
      - exists h. split_and!; try done. replace (Z.to_nat _) with 0%nat by lia. done. }
    destruct (write_fits h1 l d (blen d)) as (k & h2 & l2 & E & Hwf2 & Hsz2 & Hc2); try done.
    { rewrite Hc1. unfold capacity in *. rewrite Hsz1. len. }
    rewrite E. simpl. split; [by exists l2 | split; [congruence |]]. f_equal.
    rewrite Hc2, Hc1. rewrite take_ge by len. rewrite drop_app_le by len. done.
Qed.

(** ** What clients of the ring rely on *)

Lemma lwrb_write_fifo h d btw :
  ring_ok h → is_u32 btw → btw ≤ blen d →
  let n := Z.min (capacity h - blen (contents h)) btw in
  ∃ h', lwrb_write (Some h) (Some d) btw = (n, Some h') ∧ ring_ok h' ∧ lb_size h' = lb_size h
    ∧ contents h' = contents h ++ take (Z.to_nat n) d.
Proof.
  intros [l Hwf] Hu Hd n. pose proof (write_ex_abs h l d btw (Some 0) 0 Hwf Hu Hd) as Hw.
  cbv zeta in Hw. rewrite flag_set_0, andb_false_r in Hw.
  destruct Hw as (ok & bw' & h' & l' & Hw & Hwf' & Hsz & Hc & Hbw & Hok).
  exists h'. unfold lwrb_write. rewrite Hw, Hbw by done. fold n in Hok, Hc |- *.
  split; [|split; [by exists l' | done]].
  destruct (Z.eqb_spec n 0) as [E|E]; subst ok; simpl; [by rewrite E | done].
Qed.

Lemma lwrb_read_fifo h b n :
  ring_ok h → is_u32 n → Z.min (blen (contents h)) n ≤ blen b →
  let k := Z.min (blen (contents h)) n in
  ∃ h', lwrb_read (Some h) (Some b) n
          = (k, Some (take (Z.to_nat n) (contents h) ++ drop (Z.to_nat k) b), Some h')
    ∧ ring_ok h' ∧ lb_size h' = lb_size h ∧ contents h' = drop (Z.to_nat n) (contents h).
Proof.
  intros [l Hwf] Hn Hb k. pose proof (count_range h l Hwf) as Hc.
  pose proof (contents_blen h l Hwf) as Hlen. unfold is_u32 in Hn.
  unfold lwrb_read. rewrite (read_ex_eq h l Hwf) by (unfold is_u32; lia). cbv zeta.
  rewrite <-Hlen, flag_set_0, andb_false_r, orb_false_r. fold k.
  destruct ((n =? 0) || (blen (contents h) =? 0)) eqn:E.
  - apply orb_true_iff in E. rewrite !Z.eqb_eq in E.
    assert (k = 0) as Hk by (pose proof (blen_nonneg (contents h)); lia). rewrite Hk.
    exists h. simpl. split_and!; [|by exists l|done|].
    + destruct E as [-> | E]; [done |].
      assert (contents h = []) as -> by (apply nil_length_inv; len). by rewrite take_nil.
    + destruct E as [-> | E]; [done |].
      assert (contents h = []) as -> by (apply nil_length_inv; len). by rewrite drop_nil.
  - apply orb_false_iff in E. rewrite !Z.eqb_neq in E. destruct E as [E1 E2].
    pose proof Hwf as [Hbf Hl Hs Hr Hw]. eexists. simpl.
    assert (Htk : take (Z.to_nat k) (contents h) = take (Z.to_nat n) (contents h))
      by (unfold k; rewrite Z.min_comm; apply take_min_blen).
    rewrite Htk. split; [done |]. split_and!.
    + exists l. apply (ring_upd_wf h l); [done | done | | lia]. apply ring_adv_range; lia.
    + apply ring_upd_size.
    + rewrite (contents_drop h l) by (done || lia). unfold k.
      rewrite Z.min_comm. apply drop_min_blen.
Qed.

(** * Searching *)

Lemma ring_nth h l (i : Z) :
  ring_wf h l → 0 ≤ i < ring_count (lb_size h) (lb_r_ptr h) (lb_w_ptr h) →
  nthZ l (ring_idx (lb_size h) (lb_r_ptr h) i) = nthZ (contents h) i.
Proof.
  intros Hwf Hi. pose proof (count_range h l Hwf). pose proof Hwf as [Hb Hl Hs Hr Hw].
  rewrite (contents_view h l Hwf), <- Hl at 1. apply ring_view_nth; lia.
Qed.

Lemma ring_idx_succ size r i :
  0 ≤ r < size → size ≤ 2147483648 → 0 ≤ i < size →
  (if size <=? u32 (ring_idx size r i + 1) then 0 else u32 (ring_idx size r i + 1))
  = ring_idx size r (i + 1) ∨ i + 1 = size.
Proof.
  intros. unfold ring_idx. destruct (Z.eq_dec (i + 1) size); [by right | left].
  destruct (Z.ltb_spec (r + i) size); u32s; zbool.
Qed.

Lemma find_match_spec h l needle x idx n :
  ring_wf h l → 0 ≤ x → 0 ≤ idx →
  x + idx + Z.of_nat n ≤ ring_count (lb_size h) (lb_r_ptr h) (lb_w_ptr h) →
  find_match l needle (lb_size h) (ring_idx (lb_size h) (lb_r_ptr h) (x + idx)) idx n = true ↔
  ∀ k, 0 ≤ k < Z.of_nat n → nthZ (contents h) (x + idx + k) = nthZ needle (idx + k).
Proof.
  intros Hwf Hx. pose proof Hwf as [Hb Hl Hs Hr Hw]. pose proof (count_range h l Hwf).
  revert idx. induction n as [| n IH]; intros idx Hidx Hn; simpl find_match.
  { split; [intros _ k ?; lia | done]. }
  rewrite (ring_nth h l) by (done || lia).
  destruct (Z.eqb_spec (nthZ (contents h) (x + idx)) (nthZ needle idx)) as [E | E]; simpl.
  - destruct (ring_idx_succ (lb_size h) (lb_r_ptr h) (x + idx)) as [-> | ?]; try lia.
    replace (x + idx + 1) with (x + (idx + 1)) by lia. rewrite IH by lia.
    split; intros Hk k Hkn.
    + destruct (Z.eq_dec k 0) as [-> |]; [by rewrite !Z.add_0_r |].
      specialize (Hk (k - 1) ltac:(lia)).
      replace (x + idx + k) with (x + (idx + 1) + (k - 1)) by lia.
      by replace (idx + k) with (idx + 1 + (k - 1)) by lia.
    + replace (x + (idx + 1) + k) with (x + idx + (k + 1)) by lia.
      replace (idx + 1 + k) with (idx + (k + 1)) by lia. apply Hk. lia.
  - split; [done |]. intros Hk. exfalso. apply E. specialize (Hk 0 ltac:(lia)).
    by rewrite !Z.add_0_r in Hk.
Qed.

(** [needle] occurs in [q] at position [x]. *)
Definition occurs_at (q needle : list Z) (x : Z) : Prop :=
  0 ≤ x ∧ x + blen needle ≤ blen q ∧
  ∀ k, 0 ≤ k < blen needle → nthZ q (x + k) = nthZ needle k.

Lemma find_loop_spec h l needle x n :
  ring_wf h l → 0 < blen needle → 0 ≤ x →
  x + Z.of_nat n + blen needle = ring_count (lb_size h) (lb_r_ptr h) (lb_w_ptr h) + 1 →
  match find_loop l needle (lb_size h) (lb_r_ptr h) (blen needle) x n with
  | Some y => x ≤ y ∧ occurs_at (contents h) needle y ∧
              ∀ z, x ≤ z < y → ¬ occurs_at (contents h) needle z
  | None => ∀ z, x ≤ z → ¬ occurs_at (contents h) needle z
  end.
Proof.
  intros Hwf Hne. pose proof Hwf as [Hb Hl Hs Hr Hw]. pose proof (count_range h l Hwf).
  pose proof (contents_blen h l Hwf) as Hcl.
  revert x. induction n as [| n IH]; intros x Hx Hn; simpl find_loop.
  { intros z Hz [_ [? _]]. lia. }
  replace (if lb_size h <=? u32 (lb_r_ptr h + x) then u32 (u32 (lb_r_ptr h + x) - lb_size h)
           else u32 (lb_r_ptr h + x)) with (ring_idx (lb_size h) (lb_r_ptr h) (x + 0))
    by (u32s; unfold ring_idx; zbool; u32s; lia).
  pose proof (find_match_spec h l needle x 0 (Z.to_nat (blen needle)) Hwf Hx
                ltac:(lia) ltac:(lia)) as Hm.
  assert (Hocc : find_match l needle (lb_size h) (ring_idx (lb_size h) (lb_r_ptr h) (x + 0)) 0
                   (Z.to_nat (blen needle)) = true ↔ occurs_at (contents h) needle x).
  { rewrite Hm, Z.add_0_r. unfold occurs_at. split.
    - intros Hk. split; [lia | split; [lia |]]. intros k ?. apply Hk. lia.
    - intros (_ & _ & Hk) k ?. apply Hk. lia. }
  destruct (find_match _ _ _ _ _ _) eqn:E.
  - split_and!; [lia | by apply Hocc | lia].
  - assert (Hno : ¬ occurs_at (contents h) needle x) by (rewrite <- Hocc; done).
    rewrite (u32_small (x + 1)) by (unfold is_u32; lia).
    specialize (IH (x + 1) ltac:(lia) ltac:(lia)).
    destruct (find_loop _ _ _ _ _ _ _) as [y |].
    + destruct IH as (? & ? & Hlt). split_and!; [lia | done |]. intros z Hz.
      destruct (Z.eq_dec z x) as [-> |]; [done | apply Hlt; lia].
    + intros z Hz. destruct (Z.eq_dec z x) as [-> |]; [done | apply IH; lia].
Qed.

(** Searching a non-empty needle from [start]: on success the reported index is
    the first occurrence at or after [start] in the stored bytes; otherwise there is
    none. The sum [len + start] must fit 32 bits, as the code computes it. *)
Theorem lwrb_find_first (h : lwrb_t) (needle : list Z) (start v : Z)
    (Hok : ring_ok h) (Hne : 0 < blen needle) (Hst : 0 ≤ start)
    (Hsum : blen needle + start < 4294967296) :
  match lwrb_find (Some h) (Some needle) (blen needle) start (Some v) with
  | (1, Some x) => start ≤ x ∧ occurs_at (contents h) needle x ∧
                   ∀ y, start ≤ y < x → ¬ occurs_at (contents h) needle y
  | (0, Some 0) => ∀ y, start ≤ y → ¬ occurs_at (contents h) needle y
  | _ => False
  end.
Proof.
  destruct Hok as [l Hwf]. pose proof (count_range h l Hwf). pose proof Hwf as [Hb Hl Hs Hr Hw].
  pose proof (contents_blen h l Hwf) as Hcl.
  unfold lwrb_find. rewrite (ring_deref h l Hwf), (ring_full h l Hwf).
  destruct (Z.eqb_spec (blen needle) 0); [lia |]. u32s.
  destruct (Z.ltb_spec (ring_count (lb_size h) (lb_r_ptr h) (lb_w_ptr h)) (blen needle + start)).
  - intros y Hy (_ & ? & _). lia.
  - u32s. set (m := Z.to_nat _).
    pose proof (find_loop_spec h l needle start m Hwf Hne Hst ltac:(lia)) as H'.
    by destruct (find_loop _ _ _ _ _ _ _).
Qed.

Definition find_demo : lwrb_t :=
  mk_lwrb (Some [9; 7; 1; 2; 7; 1; 7]) 7 3 2 None None [].

Lemma lwrb_find_first_witness :
  ring_ok find_demo ∧
  lwrb_find (Some find_demo) (Some [7; 1]) 2 0 (Some 55) = (1, Some 1) ∧
  lwrb_find (Some find_demo) (Some [7; 9]) 2 0 (Some 55) = (1, Some 3) ∧
  ∀ y, 0 ≤ y < 1 → ¬ occurs_at (contents find_demo) [7; 1] y.
Proof.
  assert (Hok : ring_ok find_demo)
    by (eexists; constructor; [reflexivity | reflexivity | ..]; vm_compute; split; congruence).
  split; [exact Hok |]. split; [reflexivity |]. split; [reflexivity |].
  refine (proj2 (proj2 (lwrb_find_first find_demo [7; 1] 0 55 Hok _ _ _)));
    vm_compute; congruence.
Defined.

(** * Moving between rings *)

Lemma copy_bytes_memcpy dst src i j n :
  0 ≤ i → 0 ≤ j → i + Z.of_nat n ≤ blen dst → j + Z.of_nat n ≤ blen src →
  copy_bytes dst src i j n = memcpy dst i src j (Z.of_nat n).
Proof.
  revert dst i j. induction n as [| n IH]; intros dst i j Hi Hj Hd Hs; simpl copy_bytes.
  - unfold memcpy. simpl. rewrite Z.add_0_r. by rewrite take_drop.
  - rewrite IH by len. apply list_eq. intros k.
    rewrite !memcpy_lookup by len.
    assert (Hsrc : src !! Z.to_nat j = Some (nthZ src j)).
    { unfold nthZ. destruct (lookup_lt_is_Some_2 src (Z.to_nat j)) as [x ->]; [len | done]. }
    destruct (decide (Z.of_nat k = i)) as [<- |].
    + rewrite Nat2Z.id, list_lookup_insert_eq by len. zbool.
      replace (j + (Z.of_nat k - Z.of_nat k)) with j by lia. done.
    + rewrite list_lookup_insert_ne by lia. zbool; f_equal; lia.
Qed.

(** The readable linear block is a prefix of the contents. *)
Lemma linear_read_contents h l n :
  ring_wf h l → 0 ≤ n ≤ lwrb_get_linear_block_read_length (Some h) →
  n ≤ ring_count (lb_size h) (lb_r_ptr h) (lb_w_ptr h) ∧
  lb_r_ptr h + n ≤ lb_size h ∧
  take (Z.to_nat n) (drop (Z.to_nat (lb_r_ptr h)) l) = take (Z.to_nat n) (contents h).
Proof.
  intros Hwf. pose proof Hwf as [Hb Hl Hs Hr Hw].
  unfold lwrb_get_linear_block_read_length. rewrite (ring_deref h l Hwf).
  intros Hn. assert (n ≤ ring_count (lb_size h) (lb_r_ptr h) (lb_w_ptr h) ∧
                     lb_r_ptr h + n ≤ lb_size h) as [H1 H2].
  { unfold ring_count. destruct (Z.ltb_spec (lb_r_ptr h) (lb_w_ptr h)).
    - rewrite u32_small in Hn by (unfold is_u32; lia). zbool.
    - destruct (Z.ltb_spec (lb_w_ptr h) (lb_r_ptr h)); [| zbool].
      rewrite u32_small in Hn by (unfold is_u32; lia). zbool. }
  split_and!; [done | done |]. rewrite (contents_view h l Hwf). apply ring_view_linear; lia.
Qed.

(** The writable linear block lies in the array and in the free space. *)
Lemma linear_write_free h l n :
  ring_wf h l → 0 ≤ n ≤ lwrb_get_linear_block_write_length (Some h) →
  n ≤ lb_size h - 1 - ring_count (lb_size h) (lb_r_ptr h) (lb_w_ptr h) ∧
  lb_w_ptr h + n ≤ lb_size h.
Proof.
  intros Hwf. pose proof Hwf as [Hb Hl Hs Hr Hw].
  unfold lwrb_get_linear_block_write_length. rewrite (ring_deref h l Hwf).
  unfold ring_count. destruct (Z.leb_spec (lb_r_ptr h) (lb_w_ptr h)).
  - u32s. destruct (Z.eqb_spec (lb_r_ptr h) 0); [u32s |]; lia.
  - u32s. lia.
Qed.

(** Both linear blocks are non-empty when there is something to move. *)
Lemma linear_pos h l :
  ring_wf h l →
  (0 < ring_count (lb_size h) (lb_r_ptr h) (lb_w_ptr h) →
   0 < lwrb_get_linear_block_read_length (Some h)) ∧
  (0 < lb_size h - 1 - ring_count (lb_size h) (lb_r_ptr h) (lb_w_ptr h) →
   0 < lwrb_get_linear_block_write_length (Some h)).
Proof.
  intros Hwf. pose proof Hwf as [Hb Hl Hs Hr Hw].
  unfold lwrb_get_linear_block_read_length, lwrb_get_linear_block_write_length.
  rewrite (ring_deref h l Hwf). unfold ring_count.
  destruct (Z.leb_spec (lb_r_ptr h) (lb_w_ptr h)), (Z.ltb_spec (lb_r_ptr h) (lb_w_ptr h)),
    (Z.ltb_spec (lb_w_ptr h) (lb_r_ptr h)), (Z.eqb_spec (lb_r_ptr h) 0);
    split; intros; u32s; lia.
Qed.

(** One round of the copy loop: [n] bytes go from [src] to [dest]. *)
Lemma move_round hd ld hs ls n :
  ring_wf hd ld → ring_wf hs ls → 0 < n →
  n ≤ lwrb_get_linear_block_read_length (Some hs) →
  n ≤ lwrb_get_linear_block_write_length (Some hd) →
  let hd1 := set_buff (Some (copy_bytes ld ls (lb_w_ptr hd) (lb_r_ptr hs) (Z.to_nat n))) hd in
  ∃ hd' ld' hs', lwrb_advance (Some hd1) n = (n, Some hd') ∧ lwrb_skip (Some hs) n = (n, Some hs') ∧
    ring_wf hd' ld' ∧ ring_wf hs' ls ∧ lb_size hd' = lb_size hd ∧ lb_size hs' = lb_size hs ∧
    contents hd' = contents hd ++ take (Z.to_nat n) (contents hs) ∧
    contents hs' = drop (Z.to_nat n) (contents hs).
Proof.
  intros Hd Hs Hn Hrd Hwr hd1.
  destruct (linear_read_contents hs ls n Hs ltac:(lia)) as (Hc1 & Hc2 & Hc3).
  destruct (linear_write_free hd ld n Hd ltac:(lia)) as (Hf1 & Hf2).
  pose proof Hd as [Hb1 Hl1 Hs1 Hr1 Hw1]. pose proof Hs as [Hb2 Hl2 Hs2 Hr2 Hw2].
  pose proof (count_range hs ls Hs). pose proof (count_range hd ld Hd).
  set (d := drop (Z.to_nat (lb_r_ptr hs)) ls).
  assert (Hput : copy_bytes ld ls (lb_w_ptr hd) (lb_r_ptr hs) (Z.to_nat n)
                 = ring_put ld (lb_w_ptr hd) d n).
  { rewrite copy_bytes_memcpy by lia. rewrite Z2Nat.id by lia. unfold ring_put.
    rewrite Hl1, Z.min_r by lia. destruct (Z.ltb_spec 0 (n - n)); [lia |]. done. }
  assert (Hwf1 : ring_wf hd1 (ring_put ld (lb_w_ptr hd) d n)).
  { subst hd1. rewrite Hput. constructor; simpl; try done. unfold blen in *.
    rewrite ring_put_length; unfold blen; subst d; len. }
  destruct (skip_abs hs ls n Hs) as (hs' & E & Hs' & Hsz & Hcs); [unfold is_u32; lia |].
  rewrite (contents_blen hs ls Hs), Z.min_l in E by lia.
  rewrite (advance_eq hd1 _ Hwf1) by (unfold is_u32; lia).
  destruct (Z.eqb_spec n 0); [lia |]. simpl lb_size. simpl lb_r_ptr. simpl lb_w_ptr.
  rewrite (Z.min_l n) by lia.
  change (ring_upd hd1) with (ring_upd hd).
  eexists _, _, hs'. split; [done |]. split; [done |]. split; [| split; [done |]].
  { apply (ring_upd_wf hd ld); [done | | simpl; lia | simpl; apply ring_adv_range; lia].
    apply ring_put_length; subst d; len. }
  split; [apply ring_upd_size | split; [done |]]. split; [| done].
  rewrite <- Hc3. apply (contents_put hd ld); try done; subst d; len.
Qed.

(** The copy loop moves [n] bytes and does not report the hard error. *)
Lemma move_loop_spec fuel hd ld hs ls n :
  ring_wf hd ld → ring_wf hs ls → 0 ≤ n ≤ Z.of_nat fuel →
  n ≤ blen (contents hs) → n ≤ capacity hd - blen (contents hd) →
  ∃ hd' hs', move_loop fuel (Some hd) (Some hs) n = (true, Some hd', Some hs') ∧
    ring_ok hd' ∧ ring_ok hs' ∧ lb_size hd' = lb_size hd ∧ lb_size hs' = lb_size hs ∧
    contents hd' = contents hd ++ take (Z.to_nat n) (contents hs) ∧
    contents hs' = drop (Z.to_nat n) (contents hs).
Proof.
  revert hd ld hs ls n. induction fuel as [| fuel IH]; intros hd ld hs ls n Hd Hs Hn Hf Hc.
  { assert (n = 0) as -> by lia. exists hd, hs. rewrite take_0, app_nil_r.
    split_and!; try done; by eexists. }
  cbn [move_loop]. destruct (Z.leb_spec n 0).
  { assert (n = 0) as -> by lia. exists hd, hs. rewrite take_0, app_nil_r.
    split_and!; try done; by eexists. }
  unfold capacity in Hc. pose proof (contents_blen hd ld Hd). pose proof (contents_blen hs ls Hs).
  pose proof (proj1 (linear_pos hs ls Hs) ltac:(lia)).
  pose proof (proj2 (linear_pos hd ld Hd) ltac:(lia)).
  rewrite !BUF_MIN_min. set (m := Z.min n _).
  destruct (move_round hd ld hs ls m Hd Hs) as
    (hd' & ld' & hs' & E1 & E2 & Hd' & Hs' & Sd & Ss & Cd & Cs); try lia.
  unfold lwrb_get_linear_block_write_address, lwrb_get_linear_block_read_address.
  rewrite (ring_deref hd ld Hd), (ring_deref hs ls Hs). cbv zeta in E1.
  rewrite E1, E2. simpl snd. destruct (Z.eqb_spec m 0); [lia |].
  pose proof (count_range hs ls Hs). pose proof Hs as [_ _ ? _ _].
  rewrite (u32_small (n - m)) by (unfold is_u32; lia).
  destruct (IH hd' ld' hs' ls (n - m)) as (hd2 & hs2 & -> & ? & ? & S1 & S2 & C1 & C2);
    try done.
  { lia. } { rewrite Cs. len. } { unfold capacity. rewrite Sd, Cd. len. }
  exists hd2, hs2. split_and!; try done; [congruence | congruence | |].
  - rewrite C1, Cd, Cs, <- app_assoc. f_equal.
    rewrite take_drop_commute.
    replace (Z.to_nat m + Z.to_nat (n - m))%nat with (Z.to_nat n) by lia.
    rewrite <- (take_drop (Z.to_nat m) (take (Z.to_nat n) (contents hs))) at 2.
    rewrite take_take, Nat.min_l by lia. done.
  - rewrite C2, Cs, drop_drop. f_equal. lia.
Qed.

(** [lwrb_move] between two distinct rings terminates, moves as many bytes as the
    source holds and the destination can take, in order, and reports that number. *)
Theorem lwrb_move_transfers (dest src : lwrb_t) (Hd : ring_ok dest) (Hs : ring_ok src) :
  let n := Z.min (blen (contents src)) (capacity dest - blen (contents dest)) in
  ∃ dest' src', lwrb_move (Some dest) (Some src) = (n, Some dest', Some src') ∧
    ring_ok dest' ∧ ring_ok src' ∧ lb_size dest' = lb_size dest ∧ lb_size src' = lb_size src ∧
    contents dest' = contents dest ++ take (Z.to_nat n) (contents src) ∧
    contents src' = drop (Z.to_nat n) (contents src).
Proof.
  destruct Hd as [ld Hd], Hs as [ls Hs]. intros n.
  pose proof (capacity_bound dest ld Hd). pose proof (blen_nonneg (contents src)).
  unfold lwrb_move, BUF_IS_VALID. rewrite (ring_deref dest ld Hd), (ring_deref src ls Hs). simpl.
  rewrite (ring_full src ls Hs), (ring_free dest ld Hd), BUF_MIN_min.
  rewrite (ring_free_abs dest ld Hd), <- (contents_blen src ls Hs). fold n.
  destruct (move_loop_spec (Z.to_nat n) dest ld src ls n Hd Hs) as (d' & s' & -> & H'); try lia.
  exists d', s'. done.
Qed.

Definition move_src : lwrb_t := mk_lwrb (Some [3; 4; 0; 1; 2]) 5 3 2 None None [].
Definition move_dst : lwrb_t := mk_lwrb (Some [0; 0; 8; 0]) 4 2 3 None None [].

Lemma lwrb_move_transfers_witness :
  ring_ok move_dst ∧ ring_ok move_src ∧
  ∃ dest' src', lwrb_move (Some move_dst) (Some move_src) = (2, Some dest', Some src') ∧
    contents dest' = [8; 1; 2] ∧ contents src' = [3; 4].
Proof.
  assert (Hd : ring_ok move_dst)
    by (eexists; constructor; [reflexivity | reflexivity | ..]; vm_compute; split; congruence).
  assert (Hs : ring_ok move_src)
    by (eexists; constructor; [reflexivity | reflexivity | ..]; vm_compute; split; congruence).
  split; [exact Hd |]. split; [exact Hs |].
  destruct (lwrb_move_transfers move_dst move_src Hd Hs) as (d' & s' & E & _ & _ & _ & _ & Cd & Cs).
  exists d', s'. split; [exact E |]. split; [exact Cd | exact Cs].
Defined.

(** * Every operation is an operation on the queue *)

Lemma lwrb_sim_put d h : ring_ok h → op_ok (OpPut d) → op_sim (OpPut d) h.
Proof.
  intros Hok Hu. simpl in Hu. unfold op_sim, run_op, fifo_op.
  destruct (lwrb_write_fifo h d (blen d) Hok Hu) as (h' & -> & Hok' & Hsz & Hc); [lia |].
  simpl. rewrite Hc, take_min_blen. done.
Qed.

Lemma lwrb_sim_get n h : ring_ok h → op_ok (OpGet n) → op_sim (OpGet n) h.
Proof.
  intros Hok Hu. simpl in Hu. unfold op_sim, run_op, fifo_op. pose proof Hu as [Hn _].
  destruct (lwrb_read_fifo h (replicate (Z.to_nat n) 0) n Hok Hu) as (h' & -> & Hok' & Hsz & Hc);
    [len |].
  simpl. split; [done |]. split; [done |]. rewrite Hc. f_equal. f_equal.
  pose proof (blen_nonneg (contents h)).
  rewrite take_app_le by len. rewrite take_take.
  rewrite Nat.min_l by lia. rewrite Z.min_comm. symmetry. apply take_min_blen.
Qed.

Lemma ring_put_0 l w d : w ≤ blen l → ring_put l w d 0 = l.
Proof.
  intros Hw. unfold ring_put. rewrite Z.min_r by lia. simpl. unfold memcpy.
  rewrite Z.add_0_r. apply take_drop.
Qed.

(** [lwrb_advance] behind a DMA transfer appends what fits. *)
Lemma sim_advance d h l : ring_wf h l → op_ok (OpAdvance d) → op_sim (OpAdvance d) h.
Proof.
  intros Hwf Hu. simpl in Hu. pose proof Hwf as [Hb Hl Hs Hr Hw].
  pose proof (count_range h l Hwf) as Hc. pose proof (blen_nonneg d).
  pose proof (ring_free_abs h l Hwf) as Hfree.
  unfold op_sim, run_op, fifo_op, dma_store. rewrite Hb, (ring_free h l Hwf). unfold is_u32 in Hu.
  set (n := Z.min (blen d) _). set (l' := ring_put l (lb_w_ptr h) d n).
  assert (Hlen : length l' = length l) by (apply ring_put_length; lia).
  assert (Hwf' : ring_wf (set_buff (Some l') h) l').
  { constructor; simpl; try done. unfold blen in *. lia. }
  rewrite (advance_eq _ _ Hwf') by done. simpl lb_size. simpl lb_r_ptr. simpl lb_w_ptr.
  fold n. rewrite <- Hfree. destruct (Z.eqb_spec (blen d) 0) as [E | E].
  - assert (d = []) as -> by (apply nil_length_inv; len). simpl. rewrite take_nil, app_nil_r.
    assert (l' = l) as ->.
    { subst l' n. replace (Z.min (blen []) _) with 0 by (simpl; lia). apply ring_put_0; lia. }
    split; [exists l; by constructor |]. split; [done |].
    rewrite Z.min_r by (simpl; lia). unfold contents. simpl. by rewrite Hb.
  - cbv zeta. cbn [default from_option id]. change (ring_upd (set_buff (Some l') h)) with (ring_upd h).
    split; [exists l'; apply (ring_upd_wf h l); [done | done | lia | apply ring_adv_range; lia] |].
    split; [apply ring_upd_size |]. subst l'. rewrite (contents_put h l) by (done || lia).
    subst n. rewrite (Z.min_comm (blen d)), take_min_blen. done.
Qed.

Lemma occurs_at_take q needle x :
  0 ≤ x → 0 < blen needle →
  occurs_at q needle x ↔ take (length needle) (drop (Z.to_nat x) q) = needle.
Proof.
  intros Hx Hne. unfold occurs_at. split.
  - intros (_ & Hlen & Hk). apply list_eq_same_length with (length needle); [done | len |].
    intros i y z Hi Hy Hz. rewrite lookup_take_lt, lookup_drop in Hy by done.
    specialize (Hk (Z.of_nat i) ltac:(len)). unfold nthZ in Hk.
    rewrite Z2Nat.inj_add, Nat2Z.id, Hy, Hz in Hk by lia. done.
  - intros E. pose proof (f_equal length E) as El. rewrite length_take, length_drop in El.
    split; [done |]. split; [unfold blen in *; lia |].
    intros k Hk. unfold nthZ. assert (needle !! Z.to_nat k = q !! Z.to_nat (x + k)) as ->; [| done].
    rewrite <- E at 1. rewrite lookup_take_lt, lookup_drop by (unfold blen in *; lia).
    by rewrite Z2Nat.inj_add by lia.
Qed.

Lemma first_occurrence_spec q needle start :
  0 ≤ start → 0 < blen needle →
  match first_occurrence q needle start with
  | Some x => start ≤ x ∧ occurs_at q needle x ∧ ∀ y, start ≤ y < x → ¬ occurs_at q needle y
  | None => ∀ y, start ≤ y → ¬ occurs_at q needle y
  end.
Proof.
  intros Hst Hne. unfold first_occurrence. destruct (list_find _ _) as [[i x] |] eqn:E; simpl.
  - apply list_find_Some in E as (Hi & Hx & Hmin).
    apply lookup_seqZ in Hi as [-> Hi].
    split; [lia |]. split; [apply occurs_at_take; done || lia |].
    intros y Hy Ho. apply (Hmin (Z.to_nat (y - start)) y); [| lia | by apply occurs_at_take; lia || done].
    apply lookup_seqZ. lia.
  - apply list_find_None in E. intros y Hy Ho. pose proof Ho as (_ & Hlen & _).
    rewrite Forall_forall in E. apply (E y); [apply elem_of_seqZ; lia |].
    by apply occurs_at_take; lia || done.
Qed.

Lemma sim_find needle start h l :
  ring_wf h l → op_ok (OpFind needle start) → op_sim (OpFind needle start) h.
Proof.
  intros Hwf (Hne & Hst & Hsum). unfold is_u32 in Hsum.
  pose proof (lwrb_find_first h needle start 0 (ex_intro _ l Hwf) Hne Hst ltac:(lia)) as Hf.
  pose proof (first_occurrence_spec (contents h) needle start Hst Hne) as Hs.
  unfold op_sim, run_op, fifo_op.
  destruct (lwrb_find _ _ _ _ _) as [ok x]. split; [by exists l |]. split; [done |].
  destruct ok as [| [| |] |]; try done; destruct x as [x |]; try done.
  - destruct x; try done. destruct (first_occurrence _ _ _) as [y |]; [| done].
    exfalso. by apply (Hf y); apply Hs.
  - destruct Hf as (Hx & Ho & Hmin). destruct (first_occurrence _ _ _) as [y |].
    + destruct Hs as (Hy & Hoy & Hminy). simpl.
      destruct (Z.lt_trichotomy x y) as [? | [-> | ?]]; [| done |];
        exfalso; [by apply (Hminy x) | by apply (Hmin y)].
    + exfalso. by apply (Hs x).
Qed.

Lemma op_sim_all op h : ring_ok h → op_ok op → op_sim op h.
Proof.
  intros Hh Hok. pose proof Hh as [l Hwf]. destruct op.
  - by apply (sim_write _ _ _ l).
  - by apply lwrb_sim_put.
  - by apply (sim_read _ _ _ l).
  - by apply lwrb_sim_get.
  - by apply (sim_peek _ _ _ l).
  - destruct (skip_abs h l n Hwf Hok) as (h' & E & ? & ? & Hc). unfold op_sim, run_op, fifo_op.
    rewrite E. simpl. rewrite Hc. split; [by exists l | done].
  - by apply (sim_advance _ _ l).
  - destruct (reset_abs h l Hwf) as (h' & E & ? & ? & Hc). unfold op_sim, run_op, fifo_op.
    rewrite E. simpl. rewrite Hc. split; [by exists l | done].
  - by apply (sim_overwrite _ _ l).
  - by apply (sim_find _ _ _ l).
  - unfold op_sim, run_op, fifo_op. rewrite (ring_free h l Hwf), (ring_free_abs h l Hwf).
    split; [by exists l | done].
  - unfold op_sim, run_op, fifo_op. rewrite (ring_full h l Hwf), <- (contents_blen h l Hwf).
    split; [by exists l | done].
Qed.

(** * Sequences of operations on two rings *)

(** An operation on one of two rings, or a move between them. *)
Inductive pair_op : Type :=
  | OnA (op : ring_op)
  | OnB (op : ring_op)
  | MoveAB
  | MoveBA.

Definition pair_op_ok (op : pair_op) : Prop :=
  match op with OnA op | OnB op => op_ok op | MoveAB | MoveBA => True end.

Definition run_pair_op (op : pair_op) (s : lwrb_t * lwrb_t) : ring_out * (lwrb_t * lwrb_t) :=
  let '(a, b) := s in
  match op with
  | OnA op => let '(out, a) := run_op op a in (out, (a, b))
  | OnB op => let '(out, b) := run_op op b in (out, (a, b))
  | MoveAB =>
      let '(n, b', a') := lwrb_move (Some b) (Some a) in ((n, []), (default a a', default b b'))
  | MoveBA =>
      let '(n, a', b') := lwrb_move (Some a) (Some b) in ((n, []), (default a a', default b b'))
  end.

(** The same on two queues with capacities [ca] and [cb]. *)
Definition fifo_pair_op (ca cb : Z) (op : pair_op) (q : list Z * list Z)
    : ring_out * (list Z * list Z) :=
  let '(qa, qb) := q in
  match op with
  | OnA op => let '(out, qa) := fifo_op ca op qa in (out, (qa, qb))
  | OnB op => let '(out, qb) := fifo_op cb op qb in (out, (qa, qb))
  | MoveAB =>
      let n := Z.min (blen qa) (cb - blen qb) in
      ((n, []), (drop (Z.to_nat n) qa, qb ++ take (Z.to_nat n) qa))
  | MoveBA =>
      let n := Z.min (blen qb) (ca - blen qa) in
      ((n, []), (qa ++ take (Z.to_nat n) qb, drop (Z.to_nat n) qb))
  end.

Fixpoint run_ops (ops : list pair_op) (s : lwrb_t * lwrb_t) : list ring_out * (lwrb_t * lwrb_t) :=
  match ops with
  | [] => ([], s)
  | op :: ops =>
      let '(out, s) := run_pair_op op s in
      let '(outs, s) := run_ops ops s in (out :: outs, s)
  end.

Fixpoint fifo_ops (ca cb : Z) (ops : list pair_op) (q : list Z * list Z)
    : list ring_out * (list Z * list Z) :=
  match ops with
  | [] => ([], q)
  | op :: ops =>
      let '(out, q) := fifo_pair_op ca cb op q in
      let '(outs, q) := fifo_ops ca cb ops q in (out :: outs, q)
  end.

(** Both rings are well formed with the given capacities and hold the queues. *)
Definition pair_rel (ca cb : Z) (s : lwrb_t * lwrb_t) (q : list Z * list Z) : Prop :=
  ring_ok s.1 ∧ ring_ok s.2 ∧ capacity s.1 = ca ∧ capacity s.2 = cb ∧
  contents s.1 = q.1 ∧ contents s.2 = q.2.

Lemma pair_sim ca cb op s q :
  pair_rel ca cb s q → pair_op_ok op →
  ∃ s' q' out, run_pair_op op s = (out, s') ∧ fifo_pair_op ca cb op q = (out, q') ∧
    pair_rel ca cb s' q'.
Proof.
  destruct s as [a b], q as [qa qb]. intros (Ha & Hb & <- & <- & Ea & Eb) Hok. simpl in *.
  subst qa qb.
  destruct op as [op | op | |]; simpl.
  - pose proof (op_sim_all op a Ha Hok) as Hsim. unfold op_sim in Hsim.
    destruct (run_op op a) as [out a']. destruct Hsim as (? & Hsz & ->).
    eexists _, _, _. split_and!; [done | done |]. unfold pair_rel, capacity in *. simpl.
    by rewrite Hsz.
  - pose proof (op_sim_all op b Hb Hok) as Hsim. unfold op_sim in Hsim.
    destruct (run_op op b) as [out b']. destruct Hsim as (? & Hsz & ->).
    eexists _, _, _. split_and!; [done | done |]. unfold pair_rel, capacity in *. simpl.
    by rewrite Hsz.
  - destruct (lwrb_move_transfers b a Hb Ha) as (b' & a' & -> & ? & ? & Sb & Sa & Cb & Ca).
    eexists _, _, _. split_and!; [done | done |]. unfold pair_rel, capacity in *. simpl.
    by rewrite Sa, Sb, Cb, Ca.
  - destruct (lwrb_move_transfers a b Ha Hb) as (a' & b' & -> & ? & ? & Sa & Sb & Ca & Cb).
    eexists _, _, _. split_and!; [done | done |]. unfold pair_rel, capacity in *. simpl.
    by rewrite Sa, Sb, Cb, Ca.
Qed.

Lemma run_ops_refine ca cb ops s q :
  pair_rel ca cb s q → Forall pair_op_ok ops →
  ∃ outs s' q', run_ops ops s = (outs, s') ∧ fifo_ops ca cb ops q = (outs, q') ∧
    pair_rel ca cb s' q'.
Proof.
  revert s q. induction ops as [| op ops IH]; intros s q Hrel Hops; [by eexists _, _, _ |].
  apply Forall_cons in Hops as [Hop Hops].
  destruct (pair_sim ca cb op s q Hrel Hop) as (s1 & q1 & out & E1 & E2 & Hrel1).
  destruct (IH s1 q1 Hrel1 Hops) as (outs & s2 & q2 & E3 & E4 & Hrel2).
  simpl. rewrite E1, E2, E3, E4. by eexists _, _, _.
Qed.

(** [lwrb_init] makes an empty ring of the whole block. *)
Lemma init_empty b l :
  0 < blen l ≤ 2147483648 →
  ∃ h, lwrb_init (Some b) (Some l) (blen l) = (1, Some h) ∧
    ring_ok h ∧ capacity h = blen l - 1 ∧ contents h = [].
Proof.
  intros Hl. eexists. split.
  { unfold lwrb_init. destruct (Z.eqb_spec (blen l) 0); [lia | done]. }
  split; [exists l; constructor; simpl; done || lia | done].
Qed.


Definition demo_ops : list pair_op :=
  [OnA (OpWrite [10; 11] 0); OnA (OpRead 1 0); OnA (OpWrite [12; 13; 14] 0);
   OnA (OpOverwrite [15]); OnA (OpFind [13; 15] 0); MoveAB; OnA (OpAdvance [16; 17; 18]);
   OnA (OpGet 2); OnB OpFull; OnB OpFree; OnB (OpGet 9)].

