(* ===== verification/RingBuffer.v ===== *)
(** The kernel ring buffer of rt-thread/components/drivers/ipc/ringbuffer.c, which
    marks a full buffer with a mirror bit beside each index, so that all
    [buffer_size] bytes are usable. *)

From S2P Require Import Prelude.
From S2P Require Import Ring.
From S2P Require Import RtDef.

(** * Data *)

(** [struct rt_ringbuffer]; a one-bit mirror is a [bool], an index has 31 bits. *)
Record rt_ringbuffer : Type := mk_rb {
  rb_buffer_ptr : list Z;
  rb_read_mirror : bool;
  rb_read_index : Z;
  rb_write_mirror : bool;
  rb_write_index : Z;
  rb_buffer_size : Z
}.

Inductive rt_ringbuffer_state : Set :=
  | RT_RINGBUFFER_EMPTY
  | RT_RINGBUFFER_FULL
  | RT_RINGBUFFER_HALFFULL.

Definition u31 (z : Z) : Z := z mod 2147483648.

(** Field updates. *)
Definition rb_set_data (d : list Z) (rb : rt_ringbuffer) : rt_ringbuffer :=
  mk_rb d (rb_read_mirror rb) (rb_read_index rb) (rb_write_mirror rb) (rb_write_index rb)
    (rb_buffer_size rb).
Definition rb_set_read (m : bool) (i : Z) (rb : rt_ringbuffer) : rt_ringbuffer :=
  mk_rb (rb_buffer_ptr rb) m (u31 i) (rb_write_mirror rb) (rb_write_index rb)
    (rb_buffer_size rb).
Definition rb_set_write (m : bool) (i : Z) (rb : rt_ringbuffer) : rt_ringbuffer :=
  mk_rb (rb_buffer_ptr rb) (rb_read_mirror rb) (rb_read_index rb) m (u31 i)
    (rb_buffer_size rb).

(** * Operations *)

Definition rt_ringbuffer_status (rb : rt_ringbuffer) : rt_ringbuffer_state :=
  if rb_read_index rb =? rb_write_index rb then
    if Bool.eqb (rb_read_mirror rb) (rb_write_mirror rb)
    then RT_RINGBUFFER_EMPTY else RT_RINGBUFFER_FULL
  else RT_RINGBUFFER_HALFFULL.

Definition rt_ringbuffer_init (pool : list Z) (size : Z) : rt_ringbuffer :=
  mk_rb pool false 0 false 0 (RT_ALIGN_DOWN size RT_ALIGN_SIZE).

Definition rt_ringbuffer_data_len (rb : rt_ringbuffer) : Z :=
  match rt_ringbuffer_status rb with
  | RT_RINGBUFFER_EMPTY => 0
  | RT_RINGBUFFER_FULL => rb_buffer_size rb
  | RT_RINGBUFFER_HALFFULL =>
      let wi := rb_write_index rb in
      let ri := rb_read_index rb in
      if ri <? wi then u32 (wi - ri) else u32 (rb_buffer_size rb - u32 (ri - wi))
  end.

Definition rt_ringbuffer_space_len (rb : rt_ringbuffer) : Z :=
  u32 (rb_buffer_size rb - rt_ringbuffer_data_len rb).

Definition rt_ringbuffer_put (rb : rt_ringbuffer) (ptr : list Z) (length : Z)
    : Z * rt_ringbuffer :=
  let size := rt_ringbuffer_space_len rb in
  (* no space *)
  if size =? 0 then (0, rb) else
  (* drop some data *)
  let length := if size <? length then size else length in
  let bs := rb_buffer_size rb in
  let wi := rb_write_index rb in
  if length <? bs - wi then
    (length,
     rb_set_write (rb_write_mirror rb) (wi + length)
       (rb_set_data (memcpy (rb_buffer_ptr rb) wi ptr 0 length) rb))
  else
    let d := memcpy (rb_buffer_ptr rb) wi ptr 0 (bs - wi) in
    let d := memcpy d 0 ptr (bs - wi) (length - (bs - wi)) in
    (* we are going into the other side of the mirror *)
    (length,
     rb_set_write (negb (rb_write_mirror rb)) (length - (bs - wi)) (rb_set_data d rb)).

Definition rt_ringbuffer_put_force (rb : rt_ringbuffer) (ptr : list Z) (length : Z)
    : Z * rt_ringbuffer :=
  let space_length := rt_ringbuffer_space_len rb in
  let bs := rb_buffer_size rb in
  let wi := rb_write_index rb in
  let ptr := if bs <? length then drop (Z.to_nat (length - bs)) ptr else ptr in
  let length := if bs <? length then bs else length in
  if length <? bs - wi then
    let rb := rb_set_write (rb_write_mirror rb) (wi + length)
                (rb_set_data (memcpy (rb_buffer_ptr rb) wi ptr 0 length) rb) in
    (length,
     if space_length <? length
     then rb_set_read (rb_read_mirror rb) (rb_write_index rb) rb else rb)
  else
    let d := memcpy (rb_buffer_ptr rb) wi ptr 0 (bs - wi) in
    let d := memcpy d 0 ptr (bs - wi) (length - (bs - wi)) in
    let rb := rb_set_write (negb (rb_write_mirror rb)) (length - (bs - wi)) (rb_set_data d rb) in
    (length,
     if space_length <? length then
       let rm := if rb_write_index rb <=? rb_read_index rb
                 then negb (rb_read_mirror rb) else rb_read_mirror rb in
       rb_set_read rm (rb_write_index rb) rb
     else rb).

(** [ptr] is the caller's block; the result carries its contents afterwards. *)
Definition rt_ringbuffer_get (rb : rt_ringbuffer) (ptr : list Z) (length : Z)
    : Z * list Z * rt_ringbuffer :=
  let size := rt_ringbuffer_data_len rb in
  (* no data *)
  if size =? 0 then (0, ptr, rb) else
  (* less data *)
  let length := if size <? length then size else length in
  let bs := rb_buffer_size rb in
  let ri := rb_read_index rb in
  if length <? bs - ri then
    (length, memcpy ptr 0 (rb_buffer_ptr rb) ri length,
     rb_set_read (rb_read_mirror rb) (ri + length) rb)
  else
    let d := memcpy ptr 0 (rb_buffer_ptr rb) ri (bs - ri) in
    let d := memcpy d (bs - ri) (rb_buffer_ptr rb) 0 (length - (bs - ri)) in
    (length, d, rb_set_read (negb (rb_read_mirror rb)) (length - (bs - ri)) rb).

(** The returned pointer is an offset into the data array. *)
Definition rt_ringbuffer_peek (rb : rt_ringbuffer) : Z * option Z * rt_ringbuffer :=
  let size := rt_ringbuffer_data_len rb in
  if size =? 0 then (0, None, rb) else
  let ptr := Some (rb_read_index rb) in
  if size <? u32 (rb_buffer_size rb - rb_read_index rb) then
    (size, ptr, rb_set_read (rb_read_mirror rb) (rb_read_index rb + size) rb)
  else
    let size := u32 (rb_buffer_size rb - rb_read_index rb) in
    (size, ptr, rb_set_read (negb (rb_read_mirror rb)) 0 rb).

Definition rt_ringbuffer_putchar (rb : rt_ringbuffer) (ch : Z) : Z * rt_ringbuffer :=
  if rt_ringbuffer_space_len rb =? 0 then (0, rb) else
  let rb := rb_set_data (<[Z.to_nat (rb_write_index rb) := ch]> (rb_buffer_ptr rb)) rb in
  (* flip mirror *)
  if rb_write_index rb =? rb_buffer_size rb - 1
  then (1, rb_set_write (negb (rb_write_mirror rb)) 0 rb)
  else (1, rb_set_write (rb_write_mirror rb) (rb_write_index rb + 1) rb).

Definition rt_ringbuffer_putchar_force (rb : rt_ringbuffer) (ch : Z) : Z * rt_ringbuffer :=
  let old_state := rt_ringbuffer_status rb in
  let rb := rb_set_data (<[Z.to_nat (rb_write_index rb) := ch]> (rb_buffer_ptr rb)) rb in
  (* flip mirror *)
  if rb_write_index rb =? rb_buffer_size rb - 1 then
    let rb := rb_set_write (negb (rb_write_mirror rb)) 0 rb in
    match old_state with
    | RT_RINGBUFFER_FULL =>
        (1, rb_set_read (negb (rb_read_mirror rb)) (rb_write_index rb) rb)
    | _ => (1, rb)
    end
  else
    let rb := rb_set_write (rb_write_mirror rb) (rb_write_index rb + 1) rb in
    match old_state with
    | RT_RINGBUFFER_FULL => (1, rb_set_read (rb_read_mirror rb) (rb_write_index rb) rb)
    | _ => (1, rb)
    end.

(** [None]: the byte variable is left alone. *)
Definition rt_ringbuffer_getchar (rb : rt_ringbuffer) : Z * option Z * rt_ringbuffer :=
  if rt_ringbuffer_data_len rb =? 0 then (0, None, rb) else
  let ch := nthZ (rb_buffer_ptr rb) (rb_read_index rb) in
  if rb_read_index rb =? rb_buffer_size rb - 1
  then (1, Some ch, rb_set_read (negb (rb_read_mirror rb)) 0 rb)
  else (1, Some ch, rb_set_read (rb_read_mirror rb) (rb_read_index rb + 1) rb).

Definition rt_ringbuffer_reset (rb : rt_ringbuffer) : rt_ringbuffer :=
  mk_rb (rb_buffer_ptr rb) false 0 false 0 (rb_buffer_size rb).

Definition rt_ringbuffer_get_size (rb : rt_ringbuffer) : Z := u32 (rb_buffer_size rb).

(** * Invariant and abstraction *)

(** Both indices are inside the array, and the mirror bits tell which index is
    ahead: equal bits mean [read ≤ write], different bits [write ≤ read]. *)
Record rb_ok (rb : rt_ringbuffer) : Prop := {
  ro_len : blen (rb_buffer_ptr rb) = rb_buffer_size rb;
  ro_size : 0 < rb_buffer_size rb < 2147483648;
  ro_r : 0 ≤ rb_read_index rb < rb_buffer_size rb;
  ro_w : 0 ≤ rb_write_index rb < rb_buffer_size rb;
  ro_mirror : if Bool.eqb (rb_read_mirror rb) (rb_write_mirror rb)
              then rb_read_index rb ≤ rb_write_index rb
              else rb_write_index rb ≤ rb_read_index rb
}.

Definition rb_count (rb : rt_ringbuffer) : Z :=
  if Bool.eqb (rb_read_mirror rb) (rb_write_mirror rb)
  then rb_write_index rb - rb_read_index rb
  else rb_buffer_size rb - (rb_read_index rb - rb_write_index rb).

(** The stored bytes, oldest first. *)
Definition rb_contents (rb : rt_ringbuffer) : list Z :=
  ring_view (rb_buffer_ptr rb) (rb_read_index rb) (rb_count rb).

Ltac u31s :=
  repeat match goal with
  | |- context [?e mod 2147483648] =>
      lazymatch e with
      | context [_ mod _] => fail
      | _ => rewrite (Z.mod_small e) by lia
      end
  end.

Lemma memcpy_0 dst doff src soff : 0 ≤ doff → memcpy dst doff src soff 0 = dst.
Proof. intros. unfold memcpy. simpl. by rewrite Z.add_0_r, take_drop. Qed.

(** The unconditional second copy of this code is [ring_put] / [ring_get]. *)
Lemma put_two_copies l w d n :
  0 ≤ w < blen l → blen l - w ≤ n →
  memcpy (memcpy l w d 0 (blen l - w)) 0 d (blen l - w) (n - (blen l - w)) = ring_put l w d n.
Proof.
  intros. unfold ring_put. rewrite Z.min_l by lia.
  destruct (Z.ltb_spec 0 (n - (blen l - w))); [done |].
  replace (n - (blen l - w)) with 0 by lia. apply memcpy_0. lia.
Qed.

Lemma put_one_copy l w d n : n ≤ blen l - w → memcpy l w d 0 n = ring_put l w d n.
Proof.
  intros. unfold ring_put. rewrite Z.min_r by lia.
  destruct (Z.ltb_spec 0 (n - n)); [lia | done].
Qed.

Lemma get_two_copies d l r n :
  0 ≤ r < blen l → blen l - r ≤ n →
  memcpy (memcpy d 0 l r (blen l - r)) (blen l - r) l 0 (n - (blen l - r)) = ring_get d l r n.
Proof.
  intros. unfold ring_get. rewrite Z.min_l by lia.
  destruct (Z.ltb_spec 0 (n - (blen l - r))); [done |].
  replace (n - (blen l - r)) with 0 by lia. apply memcpy_0. lia.
Qed.

Lemma get_one_copy d l r n : n ≤ blen l - r → memcpy d 0 l r n = ring_get d l r n.
Proof.
  intros. unfold ring_get. rewrite Z.min_r by lia.
  destruct (Z.ltb_spec 0 (n - n)); [lia | done].
Qed.

Lemma insert_put l w c : 0 ≤ w < blen l → <[Z.to_nat w := c]> l = ring_put l w [c] 1.
Proof.
  intros. rewrite <- put_one_copy by lia. unfold memcpy.
  rewrite insert_take_drop by len. simpl. do 3 f_equal. lia.
Qed.

(** Moving an index with its mirror bit [n ≤ size] steps forward. *)
Definition adv_index (size : Z) (m : bool) (i n : Z) : bool * Z :=
  if n <? size - i then (m, i + n) else (negb m, n - (size - i)).

Definition rb_advance_write (d : list Z) (n : Z) (rb : rt_ringbuffer) : rt_ringbuffer :=
  let '(m, i) := adv_index (rb_buffer_size rb) (rb_write_mirror rb) (rb_write_index rb) n in
  rb_set_write m i (rb_set_data d rb).

Definition rb_advance_read (n : Z) (rb : rt_ringbuffer) : rt_ringbuffer :=
  let '(m, i) := adv_index (rb_buffer_size rb) (rb_read_mirror rb) (rb_read_index rb) n in
  rb_set_read m i rb.

Section rb.
Context (rb : rt_ringbuffer) (Hok : rb_ok rb).

Abbreviation size := (rb_buffer_size rb).
Abbreviation l := (rb_buffer_ptr rb).
Abbreviation r := (rb_read_index rb).
Abbreviation w := (rb_write_index rb).
Abbreviation count := (rb_count rb).

Lemma rb_count_range : 0 ≤ count ≤ size.
Proof using Hok.
  destruct Hok as [_ ? ? ? Hm]. unfold rb_count. destruct (Bool.eqb _ _); lia.
Qed.

Lemma rb_data_len : rt_ringbuffer_data_len rb = count.
Proof using Hok.
  destruct Hok as [_ ? ? ? Hm]. unfold rt_ringbuffer_data_len, rt_ringbuffer_status, rb_count.
  destruct (Z.eqb_spec r w); destruct (Bool.eqb _ _); try lia; zbool; u32s; lia.
Qed.

Lemma rb_space_len : rt_ringbuffer_space_len rb = size - count.
Proof using Hok.
  pose proof rb_count_range. destruct Hok. unfold rt_ringbuffer_space_len.
  rewrite rb_data_len. u32s. done.
Qed.

Lemma rb_contents_blen : blen (rb_contents rb) = count.
Proof using Hok.
  pose proof rb_count_range. destruct Hok. unfold rb_contents. apply ring_view_blen; lia.
Qed.

Lemma rb_w_idx : count < size → w = ring_idx size r count.
Proof using Hok.
  destruct Hok as [_ ? ? ? Hm]. unfold ring_idx, rb_count.
  destruct (Bool.eqb _ _); intros; zbool.
Qed.

Lemma rb_full_status :
  rt_ringbuffer_status rb = RT_RINGBUFFER_FULL ↔ count = size.
Proof using Hok.
  destruct Hok as [_ ? ? ? Hm]. unfold rt_ringbuffer_status, rb_count.
  destruct (Z.eqb_spec r w); destruct (Bool.eqb _ _); split; done || lia.
Qed.

(** Index arithmetic of a write and of a read, in terms of the byte count. *)
Lemma rb_write_ok d n :
  0 ≤ n → count + n ≤ size → length d = length l →
  rb_ok (rb_advance_write d n rb) ∧ rb_count (rb_advance_write d n rb) = count + n.
Proof using Hok.
  intros Hn Hfit Hd. destruct Hok as [Hl ? ? ? Hm].
  unfold rb_advance_write, adv_index, rb_count in *.
  destruct (Z.ltb_spec n (size - w)); unfold rb_set_write, rb_set_data, u31;
    destruct (rb_read_mirror rb), (rb_write_mirror rb); cbn -[Z.modulo] in *; u31s;
    (split; [constructor; cbn -[Z.modulo]; unfold blen in *; u31s; lia | lia]).
Qed.

Lemma rb_read_ok n :
  0 ≤ n ≤ count →
  rb_ok (rb_advance_read n rb) ∧ rb_count (rb_advance_read n rb) = count - n ∧
  rb_read_index (rb_advance_read n rb) = ring_adv size r n.
Proof using Hok.
  intros Hn. destruct Hok as [Hl ? ? ? Hm].
  unfold rb_advance_read, adv_index, rb_count, ring_adv in *.
  destruct (Z.ltb_spec n (size - r)); unfold rb_set_read, u31;
    destruct (rb_read_mirror rb), (rb_write_mirror rb); cbn -[Z.modulo] in *; u31s;
    (split; [constructor; cbn -[Z.modulo]; unfold blen in *; u31s; lia
            | split; [lia | destruct (Z.leb_spec size (r + n)); lia]]).
Qed.

(** Storing [n] bytes that fit appends them. *)
Lemma rb_write_contents d n :
  0 ≤ n → count + n ≤ size → n ≤ blen d →
  rb_ok (rb_advance_write (ring_put l w d n) n rb) ∧
  rb_contents (rb_advance_write (ring_put l w d n) n rb)
    = rb_contents rb ++ take (Z.to_nat n) d.
Proof using Hok.
  intros Hn Hfit Hd. pose proof rb_count_range. pose proof Hok as [Hl ? ? ? Hm].
  destruct (rb_write_ok (ring_put l w d n) n Hn Hfit) as [Hok' Hc];
    [apply ring_put_length; lia |].
  split; [done |]. unfold rb_contents. rewrite Hc.
  replace (rb_read_index (rb_advance_write (ring_put l w d n) n rb)) with r
    by (unfold rb_advance_write; by destruct (adv_index _ _ _ _)).
  replace (rb_buffer_ptr (rb_advance_write (ring_put l w d n) n rb)) with (ring_put l w d n)
    by (unfold rb_advance_write; by destruct (adv_index _ _ _ _)).
  destruct (Z.eq_dec n 0) as [-> |].
  { rewrite take_0, app_nil_r, Z.add_0_r. rewrite <- put_one_copy by lia.
    by rewrite memcpy_0 by lia. }
  rewrite rb_w_idx by lia. rewrite <- Hl at 1. apply ring_view_put; lia.
Qed.

(** Reading [n] stored bytes removes them from the front. *)
Lemma rb_read_contents n :
  0 ≤ n ≤ count →
  rb_ok (rb_advance_read n rb) ∧
  rb_contents (rb_advance_read n rb) = drop (Z.to_nat n) (rb_contents rb).
Proof using Hok.
  intros Hn. pose proof rb_count_range. pose proof Hok as [Hl ? ? ? Hm].
  destruct (rb_read_ok n Hn) as (Hok' & Hc & Hr). split; [done |].
  unfold rb_contents. rewrite Hc, Hr, <- Hl.
  replace (rb_buffer_ptr (rb_advance_read n rb)) with l
    by (unfold rb_advance_read; by destruct (adv_index _ _ _ _)).
  apply ring_view_drop; lia.
Qed.

Lemma rb_get_out ptr n :
  0 ≤ n ≤ count → n ≤ blen ptr →
  ring_get ptr l r n = take (Z.to_nat n) (rb_contents rb) ++ drop (Z.to_nat n) ptr.
Proof using Hok.
  intros Hn Hp. pose proof rb_count_range. pose proof Hok as [Hl ? ? ? Hm].
  pose proof (ring_get_view ptr l r count 0 n) as Hg. rewrite drop_0 in Hg.
  replace (ring_idx (blen l) r 0) with r in Hg by (unfold ring_idx; zbool).
  apply Hg; lia.
Qed.

Lemma rb_put_eq ptr n :
  0 ≤ n → n ≤ blen ptr →
  rt_ringbuffer_put rb ptr n =
    let m := Z.min (size - count) n in
    if size - count =? 0 then (0, rb)
    else (m, rb_advance_write (ring_put l w ptr m) m rb).
Proof using Hok.
  intros Hn Hp. pose proof rb_count_range. pose proof Hok as [Hl ? ? ? Hm].
  unfold rt_ringbuffer_put. rewrite rb_space_len.
  destruct (Z.eqb_spec (size - count) 0); [done |].
  replace (if size - count <? n then size - count else n) with (Z.min (size - count) n) by zbool.
  unfold rb_advance_write, adv_index. rewrite <- Hl.
  destruct (Z.ltb_spec (Z.min (blen l - count) n) (blen l - w)).
  - rewrite put_one_copy by lia. done.
  - rewrite put_two_copies by lia. done.
Qed.

Lemma rb_get_eq ptr n :
  0 ≤ n → Z.min count n ≤ blen ptr →
  rt_ringbuffer_get rb ptr n =
    let m := Z.min count n in
    if count =? 0 then (0, ptr, rb)
    else (m, take (Z.to_nat m) (rb_contents rb) ++ drop (Z.to_nat m) ptr,
          rb_advance_read m rb).
Proof using Hok.
  intros Hn Hp. pose proof rb_count_range. pose proof Hok as [Hl ? ? ? Hm].
  unfold rt_ringbuffer_get. rewrite rb_data_len.
  destruct (Z.eqb_spec count 0); [done |].
  replace (if count <? n then count else n) with (Z.min count n) by zbool.
  rewrite <- rb_get_out by lia. unfold rb_advance_read, adv_index. rewrite <- Hl.
  destruct (Z.ltb_spec (Z.min count n) (blen l - r)).
  - rewrite get_one_copy by lia. done.
  - rewrite get_two_copies by lia. done.
Qed.
End rb.

Lemma mk_rb_eq l rm r wm w size rm' r' wm' w' :
  rm = rm' → r = r' → wm = wm' → w = w' → mk_rb l rm r wm w size = mk_rb l rm' r' wm' w' size.
Proof. congruence. Qed.

Lemma adv_read_0 rb : rb_ok rb → rb_advance_read 0 rb = rb.
Proof.
  intros [Hl ? ? ? Hm]. unfold rb_advance_read, adv_index.
  destruct (Z.ltb_spec 0 (rb_buffer_size rb - rb_read_index rb)); [| lia].
  unfold rb_set_read, u31. rewrite Z.add_0_r. u31s. by destruct rb.
Qed.

(** The tail of the block that a forced write keeps. *)
Definition force_tail (size : Z) (ptr : list Z) (n : Z) : list Z :=
  if size <? n then drop (Z.to_nat (n - size)) ptr else ptr.

(** A forced write drops as many old bytes as it needs, then writes. *)
Lemma rb_put_force_eq rb ptr n :
  rb_ok rb → 0 ≤ n → n ≤ blen ptr →
  rt_ringbuffer_put_force rb ptr n =
    let size := rb_buffer_size rb in
    let m := Z.min n size in
    let k := Z.max 0 (m - (size - rb_count rb)) in
    (m, rb_advance_write (ring_put (rb_buffer_ptr rb) (rb_write_index rb) (force_tail size ptr n) m)
          m (rb_advance_read k rb)).
Proof.
  intros Hok Hn Hp. pose proof (rb_count_range rb Hok). pose proof Hok as [Hl Hs Hr Hw Hm].
  unfold rt_ringbuffer_put_force. rewrite (rb_space_len rb Hok). cbv zeta.
  replace (if rb_buffer_size rb <? n then rb_buffer_size rb else n)
    with (Z.min n (rb_buffer_size rb)) by zbool.
  fold (force_tail (rb_buffer_size rb) ptr n). set (p := force_tail _ _ _).
  set (m := Z.min n (rb_buffer_size rb)).
  set (k := Z.max 0 (m - (rb_buffer_size rb - rb_count rb))).
  unfold rb_advance_write, rb_advance_read, adv_index, rb_count in *.
  destruct rb as [l rm r wm w size]; cbn -[Z.modulo] in *.
  rewrite <- Hl in * |-. subst size.
  destruct (Z.ltb_spec m (blen l - w)); [rewrite put_one_copy by lia | rewrite put_two_copies by lia];
    unfold rb_set_read, rb_set_write, rb_set_data, u31; cbn -[Z.modulo];
    destruct rm, wm; cbn -[Z.modulo] in *; u31s;
    repeat (zbool1; cbn -[Z.modulo] in *; try (exfalso; lia));
    apply (f_equal (pair m)), mk_rb_eq; try reflexivity; u31s; lia.
Qed.

Lemma rb_putchar_put rb ch : rb_ok rb → rt_ringbuffer_putchar rb ch = rt_ringbuffer_put rb [ch] 1.
Proof.
  intros Hok. pose proof (rb_count_range rb Hok). pose proof Hok as [Hl Hs Hr Hw Hm].
  rewrite (rb_put_eq rb Hok) by len. unfold rt_ringbuffer_putchar.
  rewrite (rb_space_len rb Hok). destruct (Z.eqb_spec (rb_buffer_size rb - rb_count rb) 0); [done |].
  cbv zeta. rewrite Z.min_r by lia. rewrite insert_put by lia.
  unfold rb_advance_write, adv_index, rb_set_data, rb_set_write. cbn -[Z.modulo].
  zbool; apply (f_equal (pair 1)), mk_rb_eq; try reflexivity; f_equal; lia.
Qed.

Lemma rb_putchar_force_put rb ch :
  rb_ok rb → rt_ringbuffer_putchar_force rb ch = rt_ringbuffer_put_force rb [ch] 1.
Proof.
  intros Hok. pose proof (rb_count_range rb Hok). pose proof Hok as [Hl Hs Hr Hw Hm].
  rewrite rb_put_force_eq by (done || len). unfold rt_ringbuffer_putchar_force.
  cbv zeta. rewrite Z.min_l by lia. rewrite insert_put by lia.
  unfold force_tail. destruct (Z.ltb_spec (rb_buffer_size rb) 1); [lia |].
  unfold rt_ringbuffer_status, rb_advance_write, rb_advance_read, adv_index, rb_count in *.
  destruct rb as [l rm r wm w size]; unfold rb_set_read, rb_set_write, rb_set_data, u31;
    cbn -[Z.modulo] in *; destruct rm, wm; cbn -[Z.modulo] in *;
    repeat (zbool1; cbn -[Z.modulo] in *; try (exfalso; lia));
    apply (f_equal (pair 1)), mk_rb_eq; try reflexivity; u31s; lia.
Qed.

(** Reading one byte is a read of length one. *)
Lemma rb_getchar_get rb :
  rb_ok rb →
  rt_ringbuffer_getchar rb =
    match rb_contents rb with
    | [] => (0, None, rb)
    | c :: _ => (1, Some c, rb_advance_read 1 rb)
    end.
Proof.
  intros Hok. pose proof (rb_count_range rb Hok). pose proof Hok as [Hl Hs Hr Hw Hm].
  pose proof (rb_contents_blen rb Hok) as Hb.
  unfold rt_ringbuffer_getchar. rewrite (rb_data_len rb Hok).
  destruct (Z.eqb_spec (rb_count rb) 0).
  { assert (rb_contents rb = []) as -> by (apply nil_length_inv; len). done. }
  pose proof (ring_view_nth (rb_buffer_ptr rb) (rb_read_index rb) (rb_count rb) 0) as Hn.
  rewrite Hl in Hn. specialize (Hn ltac:(lia) ltac:(lia) ltac:(lia)).
  replace (ring_idx (rb_buffer_size rb) (rb_read_index rb) 0) with (rb_read_index rb) in Hn
    by (unfold ring_idx; zbool).
  fold (rb_contents rb) in Hn. destruct (rb_contents rb) as [| c q]; [len |]. rewrite Hn.
  unfold rb_advance_read, adv_index. zbool; do 2 f_equal. lia.
Qed.

(** * Refinement *)

Inductive rb_op : Type :=
  | RbPut (d : list Z)
  | RbPutForce (d : list Z)
  | RbGet (n : Z)
  | RbPutChar (c : Z)
  | RbPutCharForce (c : Z)
  | RbGetChar
  | RbReset.

Definition rb_run (op : rb_op) (rb : rt_ringbuffer) : (Z * list Z) * rt_ringbuffer :=
  match op with
  | RbPut d => let '(n, rb) := rt_ringbuffer_put rb d (blen d) in ((n, []), rb)
  | RbPutForce d => let '(n, rb) := rt_ringbuffer_put_force rb d (blen d) in ((n, []), rb)
  | RbGet n =>
      let '(k, out, rb) := rt_ringbuffer_get rb (replicate (Z.to_nat n) 0) n in
      ((k, take (Z.to_nat k) out), rb)
  | RbPutChar c => let '(n, rb) := rt_ringbuffer_putchar rb c in ((n, []), rb)
  | RbPutCharForce c => let '(n, rb) := rt_ringbuffer_putchar_force rb c in ((n, []), rb)
  | RbGetChar =>
      let '(k, c, rb) := rt_ringbuffer_getchar rb in
      ((k, match c with Some c => [c] | None => [] end), rb)
  | RbReset => ((0, []), rt_ringbuffer_reset rb)
  end.

(** The queue of at most [cap] bytes: puts append what fits, forced puts keep the
    newest [cap] bytes. *)
Definition rb_spec (cap : Z) (op : rb_op) (q : list Z) : (Z * list Z) * list Z :=
  match op with
  | RbPut d => ((Z.min (cap - blen q) (blen d), []), q ++ take (Z.to_nat (cap - blen q)) d)
  | RbPutForce d => ((Z.min (blen d) cap, []), drop (Z.to_nat (blen q + blen d - cap)) (q ++ d))
  | RbGet n => ((Z.min (blen q) n, take (Z.to_nat n) q), drop (Z.to_nat n) q)
  | RbPutChar c => if blen q <? cap then ((1, []), q ++ [c]) else ((0, []), q)
  | RbPutCharForce c => ((1, []), drop (Z.to_nat (blen q + 1 - cap)) (q ++ [c]))
  | RbGetChar => match q with [] => ((0, []), []) | c :: q => ((1, [c]), q) end
  | RbReset => ((0, []), [])
  end.

Definition rb_op_ok (op : rb_op) : Prop :=
  match op with
  | RbPut d | RbPutForce d => is_u32 (blen d)
  | RbGet n => is_u32 n
  | _ => True
  end.

Definition rb_sim (op : rb_op) (rb : rt_ringbuffer) : Prop :=
  let '(out, rb') := rb_run op rb in
  rb_ok rb' ∧ rb_buffer_size rb' = rb_buffer_size rb ∧
  rb_spec (rb_buffer_size rb) op (rb_contents rb) = (out, rb_contents rb').

Lemma adv_write_size d n rb : rb_buffer_size (rb_advance_write d n rb) = rb_buffer_size rb.
Proof. unfold rb_advance_write. by destruct (adv_index _ _ _ _). Qed.

Lemma adv_read_size n rb : rb_buffer_size (rb_advance_read n rb) = rb_buffer_size rb.
Proof. unfold rb_advance_read. by destruct (adv_index _ _ _ _). Qed.

Lemma sim_put d rb : rb_ok rb → rb_sim (RbPut d) rb.
Proof.
  intros Hok. pose proof (rb_count_range rb Hok). pose proof (blen_nonneg d).
  pose proof (rb_contents_blen rb Hok) as Hb.
  unfold rb_sim, rb_run, rb_spec. rewrite (rb_put_eq rb Hok) by lia. cbv zeta. rewrite Hb.
  destruct (Z.eqb_spec (rb_buffer_size rb - rb_count rb) 0) as [E |].
  - split_and!; try done. rewrite E, take_0, app_nil_r. do 3 f_equal. lia.
  - destruct (rb_write_contents rb Hok d (Z.min (rb_buffer_size rb - rb_count rb) (blen d)))
      as [Hok' Hc]; try lia.
    split_and!; [done | apply adv_write_size |]. rewrite Hc, take_min_blen. done.
Qed.

Lemma sim_put_force d rb : rb_ok rb → rb_sim (RbPutForce d) rb.
Proof.
  intros Hok. pose proof (rb_count_range rb Hok). pose proof (blen_nonneg d).
  pose proof (rb_contents_blen rb Hok) as Hb. pose proof Hok as [Hl Hs Hr Hw Hm].
  unfold rb_sim, rb_run, rb_spec. rewrite rb_put_force_eq by (done || lia). cbv zeta. rewrite Hb.
  set (k := Z.max 0 _). set (m := Z.min _ _). set (p := force_tail _ _ _).
  destruct (rb_read_contents rb Hok k) as [Hok1 Hc1]; [lia |].
  destruct (rb_read_ok rb Hok k) as (_ & Hn1 & _); [lia |].
  assert (Hp : blen p = m).
  { subst p m. unfold force_tail. destruct (Z.ltb_spec (rb_buffer_size rb) (blen d)); len. }
  assert (El : rb_buffer_ptr (rb_advance_read k rb) = rb_buffer_ptr rb)
    by (unfold rb_advance_read; by destruct (adv_index _ _ _ _)).
  assert (Ew : rb_write_index (rb_advance_read k rb) = rb_write_index rb)
    by (unfold rb_advance_read; by destruct (adv_index _ _ _ _)).
  destruct (rb_write_contents (rb_advance_read k rb) Hok1 p m) as [Hok2 Hc2];
    [lia | rewrite Hn1, adv_read_size; lia | lia |].
  rewrite El, Ew in Hok2, Hc2.
  split_and!; [done | by rewrite adv_write_size, adv_read_size |].
  rewrite Hc2, Hc1, take_ge by len. f_equal. subst p. unfold force_tail.
  destruct (Z.ltb_spec (rb_buffer_size rb) (blen d)).
  - rewrite (drop_ge (rb_contents rb)), app_nil_l by len. rewrite drop_app_ge by len. f_equal. len.
  - rewrite drop_app_le by len. do 2 f_equal. lia.
Qed.

Lemma sim_get n rb : rb_ok rb → is_u32 n → rb_sim (RbGet n) rb.
Proof.
  intros Hok Hn. unfold is_u32 in Hn. pose proof (rb_count_range rb Hok).
  pose proof (rb_contents_blen rb Hok) as Hb.
  unfold rb_sim, rb_run, rb_spec. rewrite (rb_get_eq rb Hok) by len. cbv zeta.
  destruct (Z.eqb_spec (rb_count rb) 0).
  - assert (E : rb_contents rb = []) by (apply nil_length_inv; len). rewrite E.
    split_and!; try done. rewrite take_nil, drop_nil, take_0. do 3 f_equal. len.
  - destruct (rb_read_contents rb Hok (Z.min (rb_count rb) n)) as [Hok' Hc]; [lia |].
    split_and!; [done | apply adv_read_size |]. rewrite Hc, <- Hb.
    rewrite take_app_le by len.
    rewrite take_take, Nat.min_id, Z.min_comm, take_min_blen, drop_min_blen. done.
Qed.

Lemma rb_sim_all op rb : rb_ok rb → rb_op_ok op → rb_sim op rb.
Proof.
  intros Hok Hop. pose proof (rb_count_range rb Hok). pose proof (rb_contents_blen rb Hok) as Hb.
  destruct op; simpl in Hop.
  - by apply sim_put.
  - by apply sim_put_force.
  - by apply sim_get.
  - pose proof (sim_put [c] rb Hok) as Hs. unfold rb_sim, rb_run, rb_spec in *.
    rewrite rb_putchar_put by done. change (blen [c]) with 1 in Hs.
    destruct (rt_ringbuffer_put rb [c] 1) as [n rb']. destruct Hs as (? & ? & Hs).
    split_and!; try done. injection Hs as <- <-. rewrite Hb in *.
    destruct (Z.ltb_spec (rb_count rb) (rb_buffer_size rb)).
    + rewrite take_ge by len. do 3 f_equal. lia.
    + replace (rb_buffer_size rb - rb_count rb) with 0 by lia. by rewrite take_0, app_nil_r.
  - pose proof (sim_put_force [c] rb Hok) as Hs. unfold rb_sim, rb_run, rb_spec in *.
    rewrite rb_putchar_force_put by done. change (blen [c]) with 1 in Hs.
    destruct (rt_ringbuffer_put_force rb [c] 1) as [n rb']. destruct Hs as (? & ? & Hs).
    split_and!; try done. injection Hs as <- <-. do 3 f_equal. destruct Hok. lia.
  - unfold rb_sim, rb_run, rb_spec. rewrite rb_getchar_get by done.
    destruct (rb_contents rb) as [| c q] eqn:E; [by rewrite E |].
    destruct (rb_read_contents rb Hok 1) as [Hok' Hc]; [len |].
    split_and!; [done | apply adv_read_size |]. by rewrite Hc, E.
  - split_and!; try done. destruct Hok. constructor; simpl; lia || done.
Qed.

Fixpoint rb_runs (ops : list rb_op) (rb : rt_ringbuffer) : list (Z * list Z) * rt_ringbuffer :=
  match ops with
  | [] => ([], rb)
  | op :: ops =>
      let '(out, rb) := rb_run op rb in
      let '(outs, rb) := rb_runs ops rb in (out :: outs, rb)
  end.

Fixpoint rb_specs (cap : Z) (ops : list rb_op) (q : list Z) : list (Z * list Z) * list Z :=
  match ops with
  | [] => ([], q)
  | op :: ops =>
      let '(out, q) := rb_spec cap op q in
      let '(outs, q) := rb_specs cap ops q in (out :: outs, q)
  end.

Lemma rb_runs_refine ops rb :
  rb_ok rb → Forall rb_op_ok ops →
  let '(outs, rb') := rb_runs ops rb in
  rb_ok rb' ∧ rb_specs (rb_buffer_size rb) ops (rb_contents rb) = (outs, rb_contents rb').
Proof.
  revert rb. induction ops as [| op ops IH]; intros rb Hok Hops; [done |].
  apply Forall_cons in Hops as [Hop Hops]. pose proof (rb_sim_all op rb Hok Hop) as Hsim.
  unfold rb_sim in Hsim. simpl. destruct (rb_run op rb) as [out rb1].
  destruct Hsim as (Hok1 & Hsz & ->). specialize (IH rb1 Hok1 Hops). rewrite Hsz in IH.
  destruct (rb_runs ops rb1) as [outs rb2]. destruct IH as (? & ->). done.
Qed.


