(* ===== verification/CText.v ===== *)
(** The parts of the C library the firmware's text handling uses: strings inside
    byte blocks, [strncpy], decimal printing and parsing ([snprintf] with "%d",
    [strtol] base 10), and little-endian storage of 32-bit words. *)

From Stdlib Require Import String Ascii.
From S2P Require Import Prelude.

Open Scope Z_scope.
Open Scope list_scope.

(** * Strings in byte blocks *)

(** The C string at the start of a block: the bytes before the first NUL. *)
Fixpoint cstr (l : list Z) : list Z :=
  match l with
  | [] => []
  | c :: l => if c =? 0 then [] else c :: cstr l
  end.

Definition strlen (l : list Z) : Z := blen (cstr l).

(** [strncpy(dst, src, n)]: the string, then NULs up to [n] bytes. *)
Definition strncpy (dst src : list Z) (n : Z) : list Z :=
  let s := take (Z.to_nat n) (cstr src) in
  s ++ replicate (Z.to_nat n - length s) 0 ++ drop (Z.to_nat n) dst.

(** [isspace] and [isdigit] in the C locale. *)
Definition isspace (c : Z) : bool := (c =? 32) || ((9 <=? c) && (c <=? 13)).
Definition isdigit (c : Z) : bool := (48 <=? c) && (c <=? 57).

(** Characters of a string constant. *)
Fixpoint str (s : string) : list Z :=
  match s with
  | EmptyString => []
  | String c s => Z.of_nat (nat_of_ascii c) :: str s
  end.

(** "%-ns": left-justified in [n] columns. *)
Definition pad (n : nat) (s : list Z) : list Z := s ++ replicate (n - List.length s) 32.

(** * Decimal text *)

Fixpoint dec_digits (fuel : nat) (n : Z) (acc : list Z) : list Z :=
  match fuel with
  | O => acc
  | S fuel =>
      let acc := 48 + n mod 10 :: acc in
      if n <? 10 then acc else dec_digits fuel (n / 10) acc
  end.

(** "%d"; the number of binary digits is enough fuel for the decimal ones. *)
Definition dec_nat (n : Z) : list Z := dec_digits (S (Z.to_nat (Z.log2 n))) n [].
Definition dec_int (v : Z) : list Z := if v <? 0 then 45 :: dec_nat (- v) else dec_nat v.

(** [snprintf(buf, size, "%d", v)] leaves the string [take (size - 1) (dec_int v)]. *)
Definition snprintf_d (size v : Z) : list Z := take (Z.to_nat (size - 1)) (dec_int v).

Fixpoint skip_space (s : list Z) : list Z :=
  match s with
  | c :: s' => if isspace c then skip_space s' else s
  | [] => []
  end.

(** Value of the leading digits, the number of them, and the rest. *)
Fixpoint read_digits (s : list Z) (v : Z) (k : nat) : Z * nat * list Z :=
  match s with
  | c :: s' => if isdigit c then read_digits s' (10 * v + (c - 48)) (S k) else (v, k, s)
  | [] => (v, k, s)
  end.

Record strtol_res : Type := mk_strtol {
  sl_val : Z;          (* the returned long *)
  sl_end : list Z;     (* the text at [end] *)
  sl_conv : bool;      (* a conversion was performed: [end != str] *)
  sl_erange : bool     (* [errno == ERANGE] *)
}.

Definition strtol (s : list Z) : strtol_res :=
  let t := skip_space s in
  let '(neg, t) :=
    match t with
    | c :: t' => if c =? 45 then (true, t') else if c =? 43 then (false, t') else (false, t)
    | [] => (false, t)
    end in
  let '(v, k, rest) := read_digits t 0 0 in
  match k with
  | O => mk_strtol 0 s false false
  | S _ =>
      let v := if neg : bool then - v else v in
      if v <? -2147483648 then mk_strtol (-2147483648) rest true true
      else if 2147483647 <? v then mk_strtol 2147483647 rest true true
      else mk_strtol v rest true false
  end.

(** * Little-endian words *)

Fixpoint le_bytes (n : nat) (v : Z) : list Z :=
  match n with
  | O => []
  | S n => v mod 256 :: le_bytes n (v / 256)
  end.

Fixpoint le_val (l : list Z) : Z :=
  match l with
  | [] => 0
  | b :: l => b + 256 * le_val l
  end.

Definition le32 (v : Z) : list Z := le_bytes 4 (u32 v).

(** An [int] stored at the start of a block. *)
Definition load_int (l : list Z) : Z := s32 (le_val (take 4 l)).
Definition load_u32 (l : list Z) (off : Z) : Z := le_val (take 4 (drop (Z.to_nat off) l)).

(** * Lemmas *)

Lemma cstr_no_nul l : Forall (λ c, c ≠ 0) (cstr l).
Proof. induction l as [|c l IH]; simpl; [constructor |]. zbool; constructor; auto. Qed.

Lemma cstr_app_nul s l : Forall (λ c, c ≠ 0) s → cstr (s ++ 0 :: l) = s.
Proof. induction 1 as [|c s Hc Hs IH]; simpl; [done |]. zbool. by rewrite IH. Qed.

Lemma cstr_id s : Forall (λ c, c ≠ 0) s → cstr s = s.
Proof. induction 1 as [|c s Hc Hs IH]; simpl; [done |]. zbool. by rewrite IH. Qed.

Lemma cstr_idemp l : cstr (cstr l) = cstr l.
Proof. apply cstr_id, cstr_no_nul. Qed.

Lemma length_strncpy dst src n :
  0 ≤ n ≤ blen dst → length (strncpy dst src n) = length dst.
Proof. intros. unfold strncpy. len. Qed.
#[export] Hint Rewrite length_strncpy using len : len.

Lemma length_le_bytes n v : length (le_bytes n v) = n.
Proof. revert v. induction n; simpl; auto. Qed.
#[export] Hint Rewrite length_le_bytes : len.

Lemma le_bytes_u8 n v : Forall is_u8 (le_bytes n v).
Proof.
  revert v. induction n; intros; simpl; constructor; auto.
  unfold is_u8. apply Z.mod_pos_bound. lia.
Qed.

Lemma le_val_bytes n v : le_val (le_bytes n v) = v mod 256 ^ Z.of_nat n.
Proof.
  revert v. induction n as [|n IH]; intros v; cbn [le_bytes le_val].
  { simpl. by rewrite Z.mod_1_r. }
  rewrite IH. replace (Z.of_nat (S n)) with (1 + Z.of_nat n) by lia.
  rewrite Z.pow_add_r, Z.pow_1_r by lia. symmetry. apply Z.rem_mul_r; lia.
Qed.

Lemma le_bytes_val l : Forall is_u8 l → le_bytes (length l) (le_val l) = l.
Proof.
  unfold is_u8. induction 1 as [|b l Hb Hl IH]; simpl; [done |].
  replace (b + 256 * le_val l) with (le_val l * 256 + b) by lia.
  rewrite Z.mul_comm, (Z.add_comm _ b), (Z.mul_comm 256), Z.mod_add by lia.
  rewrite Z.mod_small, Z.div_add, Z.div_small by lia. by rewrite Z.add_0_l, IH.
Qed.

Lemma le_val_range l : Forall is_u8 l → 0 ≤ le_val l < 256 ^ blen l.
Proof.
  unfold is_u8, blen. induction 1 as [|b l Hb Hl IH]; cbn [le_val length]; [lia |].
  rewrite Nat2Z.inj_succ, Z.pow_succ_r by lia. lia.
Qed.

Lemma length_le32 v : length (le32 v) = 4%nat.
Proof. apply length_le_bytes. Qed.
#[export] Hint Rewrite length_le32 : len.

(** An [int] survives being stored and loaded again. *)
Lemma load_int_le32 v l : is_s32 v → load_int (le32 v ++ l) = v.
Proof.
  intros Hv. unfold load_int. rewrite take_app_length' by (by rewrite length_le32).
  unfold le32. rewrite le_val_bytes. change (256 ^ Z.of_nat 4) with 4294967296.
  unfold u32, s32, is_s32 in *. rewrite Z.mod_mod by lia.
  rewrite <-Zplus_mod_idemp_l, Z.mod_mod, Zplus_mod_idemp_l, Z.mod_small by lia. lia.
Qed.

Lemma le32_load_int l : Forall is_u8 l → length l = 4%nat → le32 (load_int l) = l.
Proof.
  intros Hl H4. unfold load_int. rewrite take_ge by lia.
  pose proof (le_val_range l Hl) as Hr. unfold blen in Hr. rewrite H4 in Hr.
  change (256 ^ Z.of_nat 4) with 4294967296 in Hr.
  unfold le32. replace (u32 (s32 (le_val l))) with (le_val l).
  - rewrite <-H4. by apply le_bytes_val.
  - unfold u32, s32. rewrite Zminus_mod_idemp_l.
    replace (le_val l + 2147483648 - 2147483648) with (le_val l) by lia.
    by rewrite Z.mod_small by lia.
Qed.

(** ** Decimal round trip *)

Lemma isdigit_digit d : 0 ≤ d < 10 → isdigit (48 + d) = true.
Proof. intros. unfold isdigit. zbool; lia. Qed.

Lemma dec_digits_spec fuel n acc :
  0 ≤ n < 2 ^ Z.of_nat fuel → (0 < fuel)%nat →
  ∃ ds, dec_digits fuel n acc = ds ++ acc ∧ Forall (λ c, isdigit c = true) ds
    ∧ (0 < length ds ≤ fuel)%nat
    ∧ ∀ v k r, read_digits (ds ++ r) v k
                 = read_digits r (v * 10 ^ blen ds + n) (k + length ds).
Proof.
  revert n acc. induction fuel as [|fuel IH]; intros n acc Hn Hf; [lia |]. cbn [dec_digits].
  assert (Hd : 0 ≤ n mod 10 < 10) by (apply Z.mod_pos_bound; lia).
  assert (Hstep : ∀ v k r, read_digits (48 + n mod 10 :: r) v k
                             = read_digits r (10 * v + n mod 10) (S k)).
  { intros. cbn [read_digits]. rewrite isdigit_digit by done. f_equal; lia. }
  destruct (Z.ltb_spec n 10).
  - exists [48 + n mod 10]. split_and!; [done | | simpl; lia | simpl; lia |].
    + constructor; [by apply isdigit_digit | constructor].
    + intros. change ([48 + n mod 10] ++ r) with (48 + n mod 10 :: r). rewrite Hstep.
      rewrite Z.mod_small by lia. change (blen [_]) with 1. simpl length. f_equal; lia.
  - rewrite Nat2Z.inj_succ, Z.pow_succ_r in Hn by lia.
    assert (0 < fuel)%nat by (destruct fuel; simpl in Hn; lia).
    destruct (IH (n / 10) (48 + n mod 10 :: acc)) as (ds & -> & Hds & Hlen & Hr); [|done|].
    { split; [apply Z.div_pos; lia |]. apply Z.div_lt_upper_bound; lia. }
    exists (ds ++ [48 + n mod 10]). split_and!.
    + by rewrite <-app_assoc.
    + apply Forall_app. split; [done |]. constructor; [by apply isdigit_digit | constructor].
    + len.
    + len.
    + intros. rewrite <-app_assoc, Hr. cbn [app]. rewrite Hstep. f_equal; [|len].
      rewrite blen_app. change (blen [_]) with 1.
      rewrite Z.pow_add_r by (pose proof (blen_nonneg ds); lia).
      pose proof (Z.div_mod n 10). lia.
Qed.

Lemma dec_nat_spec n :
  0 ≤ n →
  Forall (λ c, isdigit c = true) (dec_nat n)
    ∧ (0 < length (dec_nat n) ≤ S (Z.to_nat (Z.log2 n)))%nat
    ∧ read_digits (dec_nat n) 0 0 = (n, length (dec_nat n), []).
Proof.
  intros Hn. unfold dec_nat.
  destruct (dec_digits_spec (S (Z.to_nat (Z.log2 n))) n []) as (ds & -> & Hds & Hlen & Hr).
  - split; [done |]. pose proof (Z.log2_nonneg n). rewrite Nat2Z.inj_succ, Z2Nat.id by lia.
    destruct (decide (n = 0)) as [-> | Hnz]; [by compute |].
    apply Z.log2_spec. lia.
  - lia.
  - rewrite app_nil_r. split_and!; [done | lia | lia |].
    specialize (Hr 0 0%nat []). rewrite app_nil_r in Hr. rewrite Hr. done.
Qed.

Lemma isdigit_facts c : isdigit c = true → 48 ≤ c ≤ 57.
Proof. unfold isdigit. rewrite andb_true_iff, !Z.leb_le. done. Qed.

Lemma skip_space_id c s : isspace c = false → skip_space (c :: s) = c :: s.
Proof. simpl. by intros ->. Qed.

(** [strtol] reads back what "%d" printed, for every [int]. *)
Lemma strtol_dec_int v : is_s32 v → strtol (dec_int v) = mk_strtol v [] true false.
Proof.
  unfold is_s32. intros Hv. unfold strtol, dec_int.
  destruct (Z.ltb_spec v 0) as [Hneg|Hpos].
  - destruct (dec_nat_spec (- v)) as (_ & Hlen & Hr); [lia |].
    rewrite skip_space_id by done. cbn [Z.eqb Pos.eqb]. rewrite Hr.
    destruct (length (dec_nat (- v))); [lia |].
    zbool. f_equal. lia.
  - destruct (dec_nat_spec v) as (Hds & Hlen & Hr); [lia |].
    destruct (dec_nat v) as [|c s] eqn:E; [simpl in Hlen; lia |].
    pose proof (isdigit_facts _ (Forall_inv Hds)).
    rewrite skip_space_id by (unfold isspace; zbool).
    destruct (Z.eqb_spec c 45); [lia |]. destruct (Z.eqb_spec c 43); [lia |].
    rewrite Hr. simpl length. by zbool.
Qed.

(** The leading digits end at the first other character. *)
Lemma read_digits_app ds c r : ∀ v k,
  Forall (λ c, isdigit c = true) ds → isdigit c = false →
  read_digits (ds ++ c :: r) v k = ((read_digits ds v k).1, c :: r).
Proof.
  induction ds as [|d ds IH]; intros v k Hd Hc; simpl; [by rewrite Hc |].
  apply Forall_cons in Hd as [-> Hd]. by apply IH.
Qed.

Lemma strtol_dec_int_app v c rest :
  is_s32 v → isdigit c = false → strtol (dec_int v ++ c :: rest) = mk_strtol v (c :: rest) true false.
Proof.
  unfold is_s32. intros Hv Hc. unfold strtol, dec_int.
  destruct (Z.ltb_spec v 0) as [Hneg|Hpos].
  - destruct (dec_nat_spec (- v)) as (Hds & Hlen & Hr); [lia |].
    cbn [app]. rewrite skip_space_id by done. cbn [Z.eqb Pos.eqb]. rewrite read_digits_app, Hr by done. simpl.
    destruct (length (dec_nat (- v))); [lia |].
    zbool. f_equal. lia.
  - destruct (dec_nat_spec v) as (Hds & Hlen & Hr); [lia |].
    destruct (dec_nat v) as [|d s] eqn:E; [simpl in Hlen; lia |].
    pose proof (isdigit_facts _ (Forall_inv Hds)).
    cbn [app]. rewrite skip_space_id by (unfold isspace; zbool).
    destruct (Z.eqb_spec d 45); [lia |]. destruct (Z.eqb_spec d 43); [lia |].
    rewrite app_comm_cons, read_digits_app, Hr by done. simpl length. cbn [fst]. by zbool.
Qed.

(** The text of an [int] is non-empty and has only
    digits and a minus sign. *)
Lemma dec_int_chars v :
  is_s32 v →
  Forall (λ c, c = 45 ∨ 48 ≤ c ≤ 57) (dec_int v) ∧ (0 < length (dec_int v))%nat.
Proof.
  unfold is_s32. intros Hv.
  assert (Hc : ∀ n, 0 ≤ n → Forall (λ c, c = 45 ∨ 48 ≤ c ≤ 57) (dec_nat n)).
  { intros n Hn. destruct (dec_nat_spec n Hn) as [Hds _].
    eapply Forall_impl; [exact Hds |]. intros c Hd. right. by apply isdigit_facts. }
  unfold dec_int. destruct (Z.ltb_spec v 0).
  - split; [constructor; [by left | apply Hc; lia] | simpl; lia].
  - split; [apply Hc; lia |]. destruct (dec_nat_spec v) as (_ & ? & _); lia.
Qed.

(** Number of decimal digits: a number below [10 ^ k] prints in at most [k]. *)
Lemma dec_digits_len fuel n acc k :
  0 ≤ n < 10 ^ Z.of_nat k → (0 < k)%nat →
  (length (dec_digits fuel n acc) ≤ k + length acc)%nat.
Proof.
  revert n acc k. induction fuel as [|fuel IH]; intros n acc k Hn Hk; cbn [dec_digits]; [lia |].
  destruct (Z.ltb_spec n 10); [simpl; lia |].
  destruct k as [|k]; [lia |].
  rewrite Nat2Z.inj_succ, Z.pow_succ_r in Hn by lia.
  destruct k as [|k]; [simpl in Hn; lia |].
  pose proof (IH (n / 10) (48 + n mod 10 :: acc) (S k)) as Hl. simpl length in Hl.
  etrans; [apply Hl; [|lia] | lia].
  split; [apply Z.div_pos; lia | apply Z.div_lt_upper_bound; lia].
Qed.

Lemma dec_int_length v : is_s32 v → (length (dec_int v) ≤ 11)%nat.
Proof.
  assert (Hd : ∀ n, 0 ≤ n < 10 ^ 10 → (length (dec_nat n) ≤ 10)%nat).
  { intros n Hn. unfold dec_nat. etrans; [by apply (dec_digits_len _ _ _ 10); [|lia] |].
    simpl. lia. }
  unfold is_s32, dec_int. intros Hv. destruct (Z.ltb_spec v 0).
  - cbn [length]. pose proof (Hd (- v)). lia.
  - pose proof (Hd v). lia.
Qed.

(** 32 bytes are enough for the text of any [int]. *)
Lemma snprintf_d_32 v : is_s32 v → snprintf_d 32 v = dec_int v.
Proof.
  intros Hv. unfold snprintf_d. apply take_ge.
  pose proof (dec_int_length v Hv). simpl. lia.
Qed.
