(* ===== verification/KvStore.v ===== *)
(** What the parameter manager calls of the FlashDB key-value store: the store's
    two primitives (find a value, set a value) and its start-up as an interface class
    without laws, and the string and blob calls of fdb_kvdb.c written over them. The
    theorems about the parameter manager hold for every instance; FlashDB itself is
    modelled in Kvdb.v and made an instance in KvInstance.v. *)

From S2P Require Import Prelude.
From S2P Require Import CText.

(** * Data *)

Inductive fdb_err_t : Set :=
  | FDB_NO_ERR | FDB_ERASE_ERR | FDB_READ_ERR | FDB_WRITE_ERR | FDB_PART_NOT_FOUND
  | FDB_KV_NAME_ERR | FDB_KV_NAME_EXIST | FDB_SAVED_FULL | FDB_INIT_FAILED.

#[export] Instance fdb_err_eq_dec : EqDecision fdb_err_t.
Proof. solve_decision. Defined.

(** A C string used as a key, without its NUL. *)
Definition key : Type := list Z.

Definition FDB_STR_KV_VALUE_MAX_SIZE : Z := 128.

(** [struct fdb_blob] as the caller sees it: the buffer's contents, its size, and
    the length of the stored value. *)
Record fdb_blob : Type := mk_blob {
  bl_buf : list Z;
  bl_size : Z;
  bl_saved_len : Z
}.

(** * Interface *)

(** [kv_find] is [find_kv] followed by the flash read of the value it found;
    [kv_set_kv] is [set_kv], where no value means deletion; [kvdb_start] is
    [fdb_kvdb_control] with the two sizes and [fdb_kvdb_init] on a cleared handle,
    with the default table's keys and values; reads may refresh the caches, so every
    call returns the store. *)
Class KvStore (DB : Type) : Type := {
  kv_init_ok : DB → bool;
  kv_find : DB → key → option (list Z) * DB;
  kv_set_kv : DB → key → option (list Z) → fdb_err_t * DB;
  kvdb_start : DB → Z → Z → list (key * list Z) → fdb_err_t * DB;
  kv_format_default : DB → list (key * list Z) → fdb_err_t * DB;
  fdb_kvdb_deinit : DB → DB
}.

(** * String and blob calls *)

(** [__is_print]: [(unsigned int)(ch - ' ') < 127u - ' ']. *)
Definition is_print (ch : Z) : bool := u32 (ch - 32) <? 127 - 32.

Definition fdb_is_str (value : list Z) (len : Z) : bool :=
  forallb is_print (take (Z.to_nat len) value).

Section calls.
Context {DB : Type} `{KvStore DB}.

Definition fdb_blob_make (blob : fdb_blob) (value_buf : list Z) (buf_len : Z) : fdb_blob :=
  mk_blob value_buf buf_len (bl_saved_len blob).

(** Result, buffer contents, [*value_len]. *)
Definition get_kv (db : DB) (k : key) (value_buf : list Z) (buf_len : Z)
    : Z * list Z * Z * DB :=
  match kv_find db k with
  | (Some v, db) =>
      let read_len := if blen v <? buf_len then blen v else buf_len in
      (read_len, memcpy value_buf 0 v 0 read_len, blen v, db)
  | (None, db) => (0, value_buf, 0, db)
  end.

Definition fdb_kv_get_blob (db : DB) (k : key) (blob : fdb_blob) : Z * fdb_blob * DB :=
  if negb (kv_init_ok db) then (0, blob, db) else
  let '(read_len, buf, value_len, db) := get_kv db k (bl_buf blob) (bl_size blob) in
  (read_len, mk_blob buf (bl_size blob) value_len, db).

(** [value] is the function's static buffer, [blob0] the uninitialised blob on its
    stack. The second result is the buffer afterwards; the first is the string it
    returns, or NULL. *)
Definition fdb_kv_get (value : list Z) (blob0 : fdb_blob) (db : DB) (k : key)
    : option (list Z) * list Z * DB :=
  let '(get_size, blob, db) :=
    fdb_kv_get_blob db k (fdb_blob_make blob0 value FDB_STR_KV_VALUE_MAX_SIZE) in
  let value := bl_buf blob in
  if 0 <? get_size then
    if fdb_is_str value get_size then
      let value := <[Z.to_nat get_size := 0]> value in
      (Some (cstr value), value, db)
    else (None, value, db)
  else (None, value, db).

Definition fdb_kv_set_blob (db : DB) (k : key) (blob : fdb_blob) : fdb_err_t * DB :=
  if negb (kv_init_ok db) then (FDB_INIT_FAILED, db) else
  kv_set_kv db k (Some (take (Z.to_nat (bl_size blob)) (bl_buf blob))).

Definition fdb_kv_del (db : DB) (k : key) : fdb_err_t * DB :=
  if negb (kv_init_ok db) then (FDB_INIT_FAILED, db) else kv_set_kv db k None.

Definition fdb_kv_set (blob0 : fdb_blob) (db : DB) (k : key) (value : option (list Z))
    : fdb_err_t * DB :=
  match value with
  | Some v => fdb_kv_set_blob db k (fdb_blob_make blob0 v (strlen v))
  | None => fdb_kv_del db k
  end.

End calls.

(** * Lemmas *)

(** The values [fdb_kv_get] returns as strings: printable and not empty. *)
Definition text_value (v : list Z) : Prop := v ≠ [] ∧ Forall (λ c, 32 ≤ c < 127) v.

Lemma is_print_spec c : 0 ≤ c < 256 → is_print c = true ↔ 32 ≤ c < 127.
Proof.
  intros. unfold is_print, u32. rewrite Z.ltb_lt.
  destruct (Z.le_gt_cases 32 c).
  - rewrite Z.mod_small by lia. lia.
  - replace (c - 32) with (c - 32 + 4294967296 + (-1) * 4294967296) by lia.
    rewrite Z.mod_add, Z.mod_small by lia. lia.
Qed.

Lemma text_is_str v : Forall (λ c, 32 ≤ c < 127) v → forallb is_print v = true.
Proof.
  induction 1 as [|c v Hc Hv IH]; simpl; [done |].
  rewrite IH, (proj2 (is_print_spec c ltac:(lia)) Hc). done.
Qed.

Lemma print_no_nul v : forallb is_print v = true → Forall (λ c, c ≠ 0) v.
Proof.
  induction v as [|c v IH]; simpl; [constructor |]. rewrite andb_true_iff. intros [Hc Hv].
  constructor; [|auto]. intros ->. done.
Qed.

(** The string a stored value reads back as. *)
Definition kv_text (v : list Z) : option (list Z) :=
  if negb (bool_decide (v = [])) && forallb is_print (take 128 v) then Some (take 128 v) else None.

Lemma text_value_text v : text_value v → kv_text v = Some (take 128 v).
Proof.
  intros [Hne Hv]. unfold kv_text. rewrite bool_decide_eq_false_2 by done.
  rewrite text_is_str by (by apply Forall_take). done.
Qed.

Section call_lemmas.
Context {DB : Type} `{KvStore DB}.

Lemma set_blob_eq db k b n s :
  kv_init_ok db = true → fdb_kv_set_blob db k (mk_blob b n s) = kv_set_kv db k (Some (take (Z.to_nat n) b)).
Proof. intros Hok. unfold fdb_kv_set_blob. by rewrite Hok. Qed.

Lemma take_strlen l : take (Z.to_nat (strlen l)) l = cstr l.
Proof.
  unfold strlen, blen. rewrite Nat2Z.id. induction l as [|c l IH]; simpl; [done |].
  destruct (c =? 0); [done |]. simpl. by rewrite IH.
Qed.

(** Setting a string stores its characters. *)
Lemma kv_set_eq blob0 db k v :
  kv_init_ok db = true → fdb_kv_set blob0 db k (Some v) = kv_set_kv db k (Some (cstr v)).
Proof.
  intros Hok. unfold fdb_kv_set, fdb_blob_make. rewrite set_blob_eq by done. by rewrite take_strlen.
Qed.

(** [fdb_kv_get] reads only: the store keeps its values. *)
Lemma kv_get_db value blob0 db k :
  kv_init_ok db = true → (fdb_kv_get value blob0 db k).2 = (kv_find db k).2.
Proof.
  intros Hok. unfold fdb_kv_get, fdb_kv_get_blob, get_kv. rewrite Hok. simpl.
  destruct (kv_find db k) as [[v|] db']; simpl; [|done]. by repeat case_match.
Qed.

Lemma kv_get_length value blob0 db k :
  kv_init_ok db = true → blen value = FDB_STR_KV_VALUE_MAX_SIZE + 1 →
  length (fdb_kv_get value blob0 db k).1.2 = length value.
Proof.
  intros Hok Hlen. unfold fdb_kv_get, fdb_kv_get_blob, get_kv. rewrite Hok. simpl.
  destruct (kv_find db k) as [[v|] db']; simpl; [|done].
  assert (Hm : length (memcpy value 0 v 0 (if blen v <? FDB_STR_KV_VALUE_MAX_SIZE then blen v
                        else FDB_STR_KV_VALUE_MAX_SIZE)) = length value).
  { unfold FDB_STR_KV_VALUE_MAX_SIZE in *. pose proof (blen_nonneg v).
    destruct (Z.ltb_spec (blen v) 128); apply memcpy_length; lia. }
  repeat case_match; simpl; rewrite ?length_insert; done.
Qed.

(** What [fdb_kv_get] returns: the first 128 characters of a text, NULL for what is
    absent, empty or not printable. *)
Lemma kv_get_spec value blob0 db k :
  kv_init_ok db = true → blen value = FDB_STR_KV_VALUE_MAX_SIZE + 1 →
  (fdb_kv_get value blob0 db k).1.1 = (kv_find db k).1 ≫= kv_text.
Proof.
  intros Hok Hlen. unfold fdb_kv_get, fdb_kv_get_blob, get_kv.
  rewrite Hok. simpl.
  destruct (kv_find db k) as [[v|] db']; simpl; [|done]. unfold FDB_STR_KV_VALUE_MAX_SIZE in *.
  set (n := if blen v <? 128 then blen v else 128).
  assert (Hn : n = Z.min 128 (blen v)) by (unfold n; zbool; lia).
  assert (Ht : take (Z.to_nat n) v = take 128 v) by (rewrite Hn; apply (take_min_blen 128)).
  assert (Hl : length (take (Z.to_nat n) v) = Z.to_nat n) by len.
  assert (Hcpy : memcpy value 0 v 0 n = take 128 v ++ drop (Z.to_nat n) value) by by rewrite <-Ht.
  unfold kv_text. destruct (decide (v = [])) as [-> | Hne]; [done |].
  assert (0 < blen v) by (destruct v; [done | len]).
  rewrite bool_decide_eq_false_2 by done. destruct (Z.ltb_spec 0 n); [|lia]. rewrite Hcpy.
  unfold fdb_is_str. rewrite take_app_length' by (by rewrite <-Ht). cbn [andb negb].
  destruct (forallb is_print (take 128 v)) eqn:Hp; cbn [fst snd]; [|done].
  f_equal. rewrite insert_app_r_alt by (rewrite <-Ht; lia). rewrite <-Ht, Hl, Nat.sub_diag.
  destruct (drop (Z.to_nat n) value) as [|c0 rest] eqn:Hd.
  { apply (f_equal length) in Hd. rewrite length_drop in Hd. simpl in Hd. unfold blen in *. lia. }
  simpl. apply cstr_app_nul. rewrite Ht. by apply print_no_nul.
Qed.

End call_lemmas.
