(* ===== verification/FlashParam.v ===== *)
(** The parameter manager of applications/flash_param.c: a table of typed parameters
    whose run-time values live in RAM objects and whose persistent values live in
    the key-value store. RAM is a store of byte blocks addressed by object number, so
    that two pointers of the table may alias. *)

From Stdlib Require Import String.
From S2P Require Import Prelude.
From S2P Require Import CText.
From S2P Require Import KvStore.

Open Scope Z_scope.
Open Scope list_scope.

(** * Data *)

(** [PARAM_TYPE_OTHER] is any other number the enumeration variable may hold. *)
Inductive param_type_t : Set :=
  | PARAM_TYPE_INT | PARAM_TYPE_FLOAT | PARAM_TYPE_STR | PARAM_TYPE_BLOB
  | PARAM_TYPE_OTHER (n : Z).

Inductive param_group_t : Set :=
  | PARAM_GROUP_SYSTEM | PARAM_GROUP_COMM | PARAM_GROUP_DI | PARAM_GROUP_DO
  | PARAM_GROUP_DO_TIME | PARAM_GROUP_MAX.

#[export] Instance param_type_eq_dec : EqDecision param_type_t.
Proof. solve_decision. Defined.
#[export] Instance param_group_eq_dec : EqDecision param_group_t.
Proof. solve_decision. Defined.

(** A pointer to the start of a memory object, or NULL. *)
Definition ptr : Type := option nat.

Record param_item_t : Type := mk_item {
  it_key : option key;
  it_def_val : ptr;
  it_def_size : Z;
  it_type : param_type_t;
  it_ram_ptr : ptr;
  it_ram_size : Z;
  it_group : param_group_t;
  it_desc : option (list Z)
}.

Record fdb_default_kv_node : Type := mk_node {
  dn_key : key;
  dn_value : ptr;
  dn_value_len : Z
}.

(** [param_mgr_t] without the [kvdb] handle, which [pstate] holds together with the
    flash; a lock function is an identifier. *)
Record param_mgr_t : Type := mk_mgr {
  pm_items : list param_item_t;
  pm_count : Z;
  pm_def_nodes : option (list fdb_default_kv_node);
  pm_init_ok : bool;
  pm_lock : option nat;
  pm_unlock : option nat
}.

(** What the outside sees: lock calls, writes to the store with their results,
    writes to RAM objects, printed lines. *)
Inductive event : Type :=
  | EvLock (f : nat)
  | EvUnlock (f : nat)
  | EvDb (k : key) (r : fdb_err_t)
  | EvRam (o : nat)
  | EvPrint (line : list Z)
  | EvKvPrint.

(** Text of "%.9g" for the four bytes of a [float], and [strtof]: the four bytes
    read, the text at [end], whether something was converted, whether [errno] is
    set. They belong to the C library's floating-point printing. *)
Class FloatText : Type := {
  fmt_g9 : list Z → list Z;
  strtof : list Z → list Z * list Z * bool * bool
}.

(** The floats whose nine significant digits read back exactly, as text. *)
Class FloatLaws `{FloatText} : Type := {
  float_ok : list Z → Prop;
  strtof_fmt b : float_ok b → strtof (fmt_g9 b) = (b, [], true, false);
  fmt_text b : float_ok b → text_value (fmt_g9 b) ∧ blen (fmt_g9 b) < 32;
  float_len b : float_ok b → length b = 4%nat;
  strtof_len s : length (strtof s).1.1.1 = 4%nat
}.

(** The program's state: the store, the RAM objects, [fdb_kv_get]'s static buffer
    and the log. *)
Record pstate (DB : Type) : Type := mk_ps {
  ps_db : DB;
  ps_mem : list (list Z);
  ps_value : list Z;
  ps_log : list event
}.
Arguments mk_ps {DB}.
Arguments ps_db {DB}.
Arguments ps_mem {DB}.
Arguments ps_value {DB}.
Arguments ps_log {DB}.

(** * Operations *)

Section ops.
Context {DB : Type} `{KvStore DB} `{FloatText}.
(* the uninitialised [struct fdb_blob] on the stack of the reading functions *)
Variable blob0 : fdb_blob.

Definition emit (e : event) (ps : pstate DB) : pstate DB :=
  mk_ps (ps_db ps) (ps_mem ps) (ps_value ps) (ps_log ps ++ [e]).
Definition set_db (db : DB) (ps : pstate DB) : pstate DB :=
  mk_ps db (ps_mem ps) (ps_value ps) (ps_log ps).
Definition set_value (v : list Z) (ps : pstate DB) : pstate DB :=
  mk_ps (ps_db ps) (ps_mem ps) v (ps_log ps).

(** The block a pointer designates. *)
Definition deref (p : ptr) (ps : pstate DB) : list Z :=
  match p with Some o => default [] (ps_mem ps !! o) | None => [] end.

(** The block a pointer designates is overwritten. *)
Definition store (p : ptr) (v : list Z) (ps : pstate DB) : pstate DB :=
  match p with
  | Some o => emit (EvRam o) (mk_ps (ps_db ps) (<[o := v]> (ps_mem ps)) (ps_value ps) (ps_log ps))
  | None => ps
  end.

Definition _find_item (mgr : param_mgr_t) (k : key) : option param_item_t :=
  find (λ it, bool_decide (default [] (it_key it) = k))
    (take (Z.to_nat (pm_count mgr)) (pm_items mgr)).

(** ** Type helpers *)

Definition _int_to_str (val : list Z) (buf_sz : Z) : list Z := snprintf_d buf_sz (load_int val).

(** The parsed [int], or failure. *)
Definition _int_from_str (s : option (list Z)) : option Z :=
  match s with
  | None => None
  | Some s =>
      let r := strtol s in
      if sl_erange r || negb (sl_conv r) || negb (bool_decide (sl_end r = [])) then None
      else Some (s32 (sl_val r))
  end.

Definition _float_to_str (val : list Z) (buf_sz : Z) : list Z :=
  take (Z.to_nat (buf_sz - 1)) (fmt_g9 (take 4 val)).

Definition _float_from_str (s : option (list Z)) : option (list Z) :=
  match s with
  | None => None
  | Some s =>
      let '(v, rest, conv, erange) := strtof s in
      if erange || negb conv || negb (bool_decide (rest = [])) then None else Some v
  end.

(** [fdb_kv_set] and [fdb_kv_get] on the program's state. *)
Definition kv_set (k : key) (v : list Z) (ps : pstate DB) : fdb_err_t * pstate DB :=
  let '(e, db) := fdb_kv_set blob0 (ps_db ps) k (Some v) in
  (e, emit (EvDb k e) (set_db db ps)).

Definition kv_get (k : key) (ps : pstate DB) : option (list Z) * pstate DB :=
  let '(s, value, db) := fdb_kv_get (ps_value ps) blob0 (ps_db ps) k in
  (s, set_value value (set_db db ps)).

Definition _int_db_write (k : key) (val : ptr) (ps : pstate DB) : fdb_err_t * pstate DB :=
  kv_set k (_int_to_str (deref val ps) 32) ps.

(** [*(int * )val = v]. *)
Definition store_word (val : ptr) (w : list Z) (ps : pstate DB) : pstate DB :=
  store val (memcpy (deref val ps) 0 w 0 4) ps.

Definition _int_db_read (k : key) (val : ptr) (ps : pstate DB) : Z * pstate DB :=
  let '(s, ps) := kv_get k ps in
  match _int_from_str s with
  | Some v => (0, store_word val (le32 v) ps)
  | None => (-1, ps)
  end.

Definition _float_db_write (k : key) (val : ptr) (ps : pstate DB) : fdb_err_t * pstate DB :=
  kv_set k (_float_to_str (deref val ps) 32) ps.

Definition _float_db_read (k : key) (val : ptr) (ps : pstate DB) : Z * pstate DB :=
  let '(s, ps) := kv_get k ps in
  match _float_from_str s with
  | Some v => (0, store_word val v ps)
  | None => (-1, ps)
  end.

Definition _str_db_write (k : key) (val : ptr) (ps : pstate DB) : fdb_err_t * pstate DB :=
  kv_set k (deref val ps) ps.

(** [strncpy(val, src, size - 1); val[size - 1] = '\0']. *)
Definition str_assign (val : ptr) (src : list Z) (size : Z) (ps : pstate DB) : pstate DB :=
  store val (<[Z.to_nat (u32 (size - 1)) := 0]> (strncpy (deref val ps) src (u32 (size - 1)))) ps.

Definition _str_db_read (k : key) (val : ptr) (size : Z) (ps : pstate DB) : Z * pstate DB :=
  let '(s, ps) := kv_get k ps in
  match s with
  | Some s => (0, str_assign val s size ps)
  | None => (-1, ps)
  end.

Definition _blob_db_write (k : key) (val : ptr) (size : Z) (ps : pstate DB)
    : fdb_err_t * pstate DB :=
  let '(e, db) := fdb_kv_set_blob (ps_db ps) k (fdb_blob_make blob0 (deref val ps) size) in
  (e, emit (EvDb k e) (set_db db ps)).

Definition _blob_db_read (k : key) (val : ptr) (size : Z) (ps : pstate DB) : Z * pstate DB :=
  let '(read_len, blob, db) :=
    fdb_kv_get_blob (ps_db ps) k (fdb_blob_make blob0 (deref val ps) size) in
  let ps := set_db db ps in
  let ps := if 0 <? read_len then store val (bl_buf blob) ps else ps in
  (if 0 <? bl_saved_len blob then 0 else -1, ps).

(** [memset(ram, 0, ram_size); memcpy(ram, src, n)]: the copy reads [src] after the
    clearing. *)
Definition blob_assign (ram : ptr) (ram_size : Z) (src : ptr) (n : Z) (ps : pstate DB)
    : pstate DB :=
  let ps := store ram (memset (deref ram ps) 0 0 ram_size) ps in
  store ram (memcpy (deref ram ps) 0 (deref src ps) 0 n) ps.

Definition item_key (it : param_item_t) : key := default [] (it_key it).

(** Write the default to the store, and on success to RAM: the second half of
    [_sync_one], the whole of [_reset_one_locked]. *)
Definition _reset_one_locked (it : param_item_t) (ps : pstate DB) : Z * pstate DB :=
  let k := item_key it in
  match it_type it with
  | PARAM_TYPE_INT =>
      let '(e, ps) := _int_db_write k (it_def_val it) ps in
      if decide (e ≠ FDB_NO_ERR) then (-1, ps)
      else (0, store_word (it_ram_ptr it) (deref (it_def_val it) ps) ps)
  | PARAM_TYPE_FLOAT =>
      let '(e, ps) := _float_db_write k (it_def_val it) ps in
      if decide (e ≠ FDB_NO_ERR) then (-1, ps)
      else (0, store_word (it_ram_ptr it) (deref (it_def_val it) ps) ps)
  | PARAM_TYPE_STR =>
      let '(e, ps) := _str_db_write k (it_def_val it) ps in
      if decide (e ≠ FDB_NO_ERR) then (-1, ps)
      else (0, str_assign (it_ram_ptr it) (deref (it_def_val it) ps) (it_ram_size it) ps)
  | PARAM_TYPE_BLOB =>
      let '(e, ps) := _blob_db_write k (it_def_val it) (it_def_size it) ps in
      if decide (e ≠ FDB_NO_ERR) then (-1, ps)
      else (0, blob_assign (it_ram_ptr it) (it_ram_size it) (it_def_val it)
                 (BUF_MIN (it_def_size it) (it_ram_size it)) ps)
  | PARAM_TYPE_OTHER _ => (-1, ps)
  end.

Definition _sync_one (it : param_item_t) (ps : pstate DB) : Z * pstate DB :=
  let k := item_key it in
  let read :=
    match it_type it with
    | PARAM_TYPE_INT => Some (_int_db_read k (it_ram_ptr it) ps)
    | PARAM_TYPE_FLOAT => Some (_float_db_read k (it_ram_ptr it) ps)
    | PARAM_TYPE_STR => Some (_str_db_read k (it_ram_ptr it) (it_ram_size it) ps)
    | PARAM_TYPE_BLOB => Some (_blob_db_read k (it_ram_ptr it) (it_ram_size it) ps)
    | PARAM_TYPE_OTHER _ => None
    end in
  match read with
  | Some (r, ps) => if r <? 0 then _reset_one_locked it ps else (0, ps)
  | None => (-1, ps)
  end.

(** ** Public operations *)

Definition lock_call (mgr : param_mgr_t) (ps : pstate DB) : pstate DB :=
  match pm_lock mgr with Some f => emit (EvLock f) ps | None => ps end.
Definition unlock_call (mgr : param_mgr_t) (ps : pstate DB) : pstate DB :=
  match pm_unlock mgr with Some f => emit (EvUnlock f) ps | None => ps end.

(** The checks of [flash_param_init] on one item. *)
Definition item_check (it : param_item_t) : bool :=
  bool_decide (is_Some (it_key it)) && bool_decide (is_Some (it_ram_ptr it))
  && match it_type it with
     | PARAM_TYPE_INT | PARAM_TYPE_FLOAT => 4 <=? it_ram_size it
     | PARAM_TYPE_STR | PARAM_TYPE_BLOB =>
         negb (it_ram_size it =? 0) && bool_decide (is_Some (it_def_val it))
     | PARAM_TYPE_OTHER _ => false
     end.

(** No key of the table is used twice. *)
Fixpoint keys_unique (items : list param_item_t) : bool :=
  match items with
  | [] => true
  | it :: items =>
      forallb (λ it', negb (bool_decide (item_key it = item_key it'))) items
      && keys_unique items
  end.

Definition make_node (it : param_item_t) : fdb_default_kv_node :=
  mk_node (item_key it) (it_def_val it) (it_def_size it).

(** Key and value bytes of a default, as [fdb_kv_set_default] reads them: a zero
    length means a string. *)
Definition default_value (ps : pstate DB) (n : fdb_default_kv_node) : key * list Z :=
  let v := deref (dn_value n) ps in
  let value_len := if dn_value_len n =? 0 then strlen v else dn_value_len n in
  (dn_key n, take (Z.to_nat value_len) v).

(** The synchronisation loop of [flash_param_init]: stops at the first failure. *)
Fixpoint sync_all (items : list param_item_t) (ps : pstate DB) : Z * pstate DB :=
  match items with
  | [] => (0, ps)
  | it :: items =>
      let '(r, ps) := _sync_one it ps in
      if r =? 0 then sync_all items ps else (-1, ps)
  end.

(** [malloc_ok] is the outcome of the allocation of the default table. *)
Definition flash_param_init (malloc_ok : bool) (mgr : option param_mgr_t)
    (sec_size max_size : Z) (items : option (list param_item_t)) (count : Z)
    (lock unlock : option nat) (ps : pstate DB) : Z * option param_mgr_t * pstate DB :=
  match mgr, items with
  | Some _, Some items =>
      if count =? 0 then (-1, mgr, ps) else
      (* lock/unlock must be both provided or both NULL *)
      if negb (Bool.eqb (bool_decide (is_Some lock)) (bool_decide (is_Some unlock)))
      then (-1, mgr, ps) else
      let table := take (Z.to_nat count) items in
      (* validate each item *)
      if negb (forallb item_check table) then (-1, mgr, ps) else
      (* check for duplicate keys *)
      if negb (keys_unique table) then (-1, mgr, ps) else
      if negb malloc_ok then (-1, Some (mk_mgr items count None false None None), ps) else
      let nodes := map make_node table in
      let '(err, db) := kvdb_start (ps_db ps) sec_size max_size (map (default_value ps) nodes) in
      let ps := set_db db ps in
      if decide (err ≠ FDB_NO_ERR) then
        (-1, Some (mk_mgr items count None false None None), ps)
      else
        match sync_all table ps with
        | (0, ps) => (0, Some (mk_mgr items count (Some nodes) true lock unlock), ps)
        | (_, ps) =>
            (-1, Some (mk_mgr items count None false lock unlock),
             set_db (fdb_kvdb_deinit (ps_db ps)) ps)
        end
  | _, _ => (-1, mgr, ps)
  end.

Definition flash_param_deinit (mgr : option param_mgr_t) (ps : pstate DB)
    : Z * option param_mgr_t * pstate DB :=
  match mgr with
  | Some m =>
      if negb (pm_init_ok m) then (-1, mgr, ps) else
      (0, Some (mk_mgr (pm_items m) (pm_count m) None false (pm_lock m) (pm_unlock m)),
       set_db (fdb_kvdb_deinit (ps_db ps)) ps)
  | None => (-1, mgr, ps)
  end.

(** The guards the keyed operations share: the item, if the manager is initialised
    and has the key. *)
Definition lookup_item (mgr : option param_mgr_t) (k : option key)
    : option (param_mgr_t * param_item_t * key) :=
  match mgr, k with
  | Some m, Some k =>
      if negb (pm_init_ok m) then None else
      match _find_item m k with Some it => Some (m, it, k) | None => None end
  | _, _ => None
  end.

(** The switch of [flash_param_set]. *)
Definition set_item (it : param_item_t) (k : key) (val : ptr) (ps : pstate DB) : Z * pstate DB :=
  match it_type it with
  | PARAM_TYPE_INT =>
      let '(e, ps) := _int_db_write k val ps in
      if decide (e = FDB_NO_ERR) then (0, store_word (it_ram_ptr it) (deref val ps) ps)
      else (-1, ps)
  | PARAM_TYPE_FLOAT =>
      let '(e, ps) := _float_db_write k val ps in
      if decide (e = FDB_NO_ERR) then (0, store_word (it_ram_ptr it) (deref val ps) ps)
      else (-1, ps)
  | PARAM_TYPE_STR =>
      let '(e, ps) := _str_db_write k val ps in
      if decide (e = FDB_NO_ERR)
      then (0, str_assign (it_ram_ptr it) (deref val ps) (it_ram_size it) ps)
      else (-1, ps)
  | PARAM_TYPE_BLOB =>
      let copy_sz := BUF_MIN (it_ram_size it) (it_def_size it) in
      let '(e, ps) := _blob_db_write k val copy_sz ps in
      if decide (e = FDB_NO_ERR)
      then (0, blob_assign (it_ram_ptr it) (it_ram_size it) val copy_sz ps)
      else (-1, ps)
  | PARAM_TYPE_OTHER _ => (-1, ps)
  end.

Definition flash_param_set (mgr : option param_mgr_t) (k : option key) (val : ptr)
    (ps : pstate DB) : Z * pstate DB :=
  match lookup_item mgr k, val with
  | Some (m, it, k), Some _ =>
      let ps := lock_call m ps in
      let '(ret, ps) := set_item it k val ps in
      (ret, unlock_call m ps)
  | _, _ => (-1, ps)
  end.

Definition flash_param_set_blob (mgr : option param_mgr_t) (k : option key) (val : ptr)
    (val_len : Z) (ps : pstate DB) : Z * pstate DB :=
  match lookup_item mgr k, val with
  | Some (m, it, k), Some _ =>
      if val_len =? 0 then (-1, ps) else
      if negb (bool_decide (it_type it = PARAM_TYPE_BLOB)) then (-1, ps) else
      if it_ram_size it <? val_len then (-1, ps) else
      let ps := lock_call m ps in
      let '(e, ps) := _blob_db_write k val val_len ps in
      let '(ret, ps) :=
        if decide (e = FDB_NO_ERR) then
          let ram := it_ram_ptr it in
          let ps := store ram (memcpy (deref ram ps) 0 (deref val ps) 0 val_len) ps in
          (0, if val_len <? it_ram_size it
              then store ram (memset (deref ram ps) val_len 0 (it_ram_size it - val_len)) ps
              else ps)
        else (-1, ps) in
      (ret, unlock_call m ps)
  | _, _ => (-1, ps)
  end.

(** [size] is [*size]; the result carries its final value. *)
Definition flash_param_get (mgr : option param_mgr_t) (k : option key) (buf : ptr)
    (size : option Z) (ps : pstate DB) : Z * option Z * pstate DB :=
  match lookup_item mgr k, buf, size with
  | Some (m, it, _), Some _, Some sz =>
      let ps := lock_call m ps in
      let '(ret, ps) :=
        if sz <? it_ram_size it then (-1, ps)
        else (0, store buf (memcpy (deref buf ps) 0 (deref (it_ram_ptr it) ps) 0 (it_ram_size it)) ps) in
      (ret, Some (it_ram_size it), unlock_call m ps)
  | _, _, _ => (-1, size, ps)
  end.

Definition flash_param_reset (mgr : option param_mgr_t) (k : option key) (ps : pstate DB)
    : Z * pstate DB :=
  match lookup_item mgr k with
  | Some (m, it, _) =>
      let '(ret, ps) := _reset_one_locked it (lock_call m ps) in
      (ret, unlock_call m ps)
  | None => (-1, ps)
  end.

(** The loops of the group operations: every item is processed, the result is -1 if
    any step failed. *)
Fixpoint each_item (f : param_item_t → pstate DB → Z * pstate DB)
    (items : list param_item_t) (ret : Z) (ps : pstate DB) : Z * pstate DB :=
  match items with
  | [] => (ret, ps)
  | it :: items =>
      let '(r, ps) := f it ps in
      each_item f items (if r =? 0 then ret else -1) ps
  end.

Definition mgr_table (m : param_mgr_t) : list param_item_t :=
  take (Z.to_nat (pm_count m)) (pm_items m).

Definition flash_param_group_reset (mgr : option param_mgr_t) (group : param_group_t)
    (ps : pstate DB) : Z * pstate DB :=
  match mgr with
  | Some m =>
      if negb (pm_init_ok m) then (-1, ps) else
      let step it ps :=
        if decide (it_group it = group) then _reset_one_locked it ps else (0, ps) in
      let '(ret, ps) := each_item step (mgr_table m) 0 (lock_call m ps) in
      (ret, unlock_call m ps)
  | None => (-1, ps)
  end.

Definition flash_param_reset_all (mgr : option param_mgr_t) (ps : pstate DB) : Z * pstate DB :=
  match mgr with
  | Some m =>
      if negb (pm_init_ok m) then (-1, ps) else
      let ps := lock_call m ps in
      let nodes := default [] (pm_def_nodes m) in
      let '(_, db) := kv_format_default (ps_db ps) (map (default_value ps) nodes) in
      let '(ret, ps) := each_item _sync_one (mgr_table m) 0 (set_db db ps) in
      (ret, unlock_call m ps)
  | None => (-1, ps)
  end.

(** The callback is the caller's. *)
Definition flash_param_foreach (mgr : option param_mgr_t) (group : param_group_t)
    (cb : option (param_item_t → pstate DB → pstate DB)) (ps : pstate DB) : pstate DB :=
  match mgr, cb with
  | Some m, Some cb =>
      let ps := lock_call m ps in
      let ps := foldl (λ ps it, if decide (it_group it = group) then cb it ps else ps)
                  ps (mgr_table m) in
      unlock_call m ps
  | _, _ => ps
  end.

(** The text of a value in the listings, cut to the 128-byte line buffer. *)
Definition print_value (it : param_item_t) (ps : pstate DB) : list Z :=
  let ram := deref (it_ram_ptr it) ps in
  take 127
    match it_type it with
    | PARAM_TYPE_INT => dec_int (load_int ram)
    | PARAM_TYPE_FLOAT => fmt_g9 (take 4 ram)
    | PARAM_TYPE_STR => cstr ram
    | PARAM_TYPE_BLOB => str "<blob:" ++ dec_nat (it_ram_size it) ++ str " bytes>"
    | PARAM_TYPE_OTHER _ => str "<unknown>"
    end.

Definition group_number (g : param_group_t) : Z :=
  match g with
  | PARAM_GROUP_SYSTEM => 0 | PARAM_GROUP_COMM => 1 | PARAM_GROUP_DI => 2
  | PARAM_GROUP_DO => 3 | PARAM_GROUP_DO_TIME => 4 | PARAM_GROUP_MAX => 5
  end.

Definition flash_param_print (mgr : option param_mgr_t) (ps : pstate DB) : pstate DB :=
  match mgr with
  | Some m =>
      if negb (pm_init_ok m) then ps else
      let ps := lock_call m ps in
      let ps := emit (EvPrint (str "============= All Parameters (" ++ dec_nat (pm_count m)
                                 ++ str ") =============")) ps in
      let line i it :=
        str "[" ++ dec_int (Z.of_nat i) ++ str "] " ++ pad 24 (item_key it) ++ str " = "
          ++ pad 32 (print_value it ps) ++ str " | group:" ++ dec_int (group_number (it_group it))
          ++ str " " ++ default [] (it_desc it) in
      let ps := foldl (λ ps l, emit (EvPrint l) ps) ps (imap line (mgr_table m)) in
      let ps := emit (EvPrint (str "=================================================")) ps in
      unlock_call m (emit EvKvPrint ps)
  | None => ps
  end.

Definition flash_param_print_group (mgr : option param_mgr_t) (group : param_group_t)
    (ps : pstate DB) : pstate DB :=
  match mgr with
  | Some m =>
      if negb (pm_init_ok m) then ps else
      let ps := lock_call m ps in
      let ps := emit (EvPrint (str "========== Group " ++ dec_int (group_number group)
                                 ++ str " Parameters ==========")) ps in
      let line it :=
        str "  " ++ pad 24 (item_key it) ++ str " = " ++ pad 32 (print_value it ps)
          ++ str " | " ++ default [] (it_desc it) in
      let ps := foldl (λ ps it, if decide (it_group it = group)
                                then emit (EvPrint (line it)) ps else ps) ps (mgr_table m) in
      unlock_call m ps
  | None => ps
  end.

End ops.

(** * Write order and failure atomicity *)

(** The keyed operations that change a parameter. *)
Inductive write_op : Type :=
  | WSet (k : option key) (val : ptr)
  | WSetBlob (k : option key) (val : ptr) (val_len : Z)
  | WReset (k : option key).

(** A log in which every RAM write follows a successful write to the store, and
    which takes or releases no lock. *)
Fixpoint db_first (armed : bool) (l : list event) : bool :=
  match l with
  | [] => true
  | EvDb _ e :: l => db_first (bool_decide (e = FDB_NO_ERR)) l
  | EvRam _ :: l => armed && db_first armed l
  | _ => false
  end.

Definition opt_ev (f : nat → event) (o : option nat) : list event :=
  match o with Some n => [f n] | None => [] end.

Section order.
Context {DB : Type} `{KvStore DB} `{FloatText}.
Variable blob0 : fdb_blob.

Definition run_write (op : write_op) (mgr : option param_mgr_t) (ps : pstate DB)
    : Z * pstate DB :=
  match op with
  | WSet k val => flash_param_set blob0 mgr k val ps
  | WSetBlob k val n => flash_param_set_blob blob0 mgr k val n ps
  | WReset k => flash_param_reset blob0 mgr k ps
  end.

(** One store write that succeeded and RAM writes after it, or one that failed and
    nothing after it. *)
Definition write_step (ps : pstate DB) (res : Z * pstate DB) : Prop :=
  ∃ body, ps_log res.2 = ps_log ps ++ body ∧ db_first false body = true
    ∧ (res.1 = 0 ∨ res.1 = -1 ∧ ps_mem res.2 = ps_mem ps).

Lemma store_log p v (ps : pstate DB) :
  ps_log (store p v ps) = ps_log ps ++ opt_ev EvRam p.
Proof. destruct p; simpl; [done | by rewrite app_nil_r]. Qed.

Lemma lock_log m (ps : pstate DB) :
  ps_log (lock_call m ps) = ps_log ps ++ opt_ev EvLock (pm_lock m).
Proof. unfold lock_call. destruct (pm_lock m); simpl; [done | by rewrite app_nil_r]. Qed.

Lemma unlock_log m (ps : pstate DB) :
  ps_log (unlock_call m ps) = ps_log ps ++ opt_ev EvUnlock (pm_unlock m).
Proof. unfold unlock_call. destruct (pm_unlock m); simpl; [done | by rewrite app_nil_r]. Qed.

Lemma lock_mem m (ps : pstate DB) : ps_mem (lock_call m ps) = ps_mem ps.
Proof. unfold lock_call. by destruct (pm_lock m). Qed.

Lemma unlock_mem m (ps : pstate DB) : ps_mem (unlock_call m ps) = ps_mem ps.
Proof. unfold unlock_call. by destruct (pm_unlock m). Qed.

(** Store first, RAM second: the shape all the writers share. *)
Lemma db_then_ram k (e : fdb_err_t) (db : DB) (ps ps2 : pstate DB) rams :
  ps_log ps2 = ps_log ps ++ EvDb k e :: rams →
  (e = FDB_NO_ERR → Forall (λ ev, ∃ o, ev = EvRam o) rams) →
  (e ≠ FDB_NO_ERR → rams = [] ∧ ps_mem ps2 = ps_mem ps) →
  write_step ps (if decide (e = FDB_NO_ERR) then 0 else -1, ps2).
Proof.
  intros Hlog Hok Hfail. exists (EvDb k e :: rams). simpl. split; [done |].
  assert (Hr : ∀ l, Forall (λ ev, ∃ o, ev = EvRam o) l → db_first true l = true).
  { induction 1 as [|? ? [o ->] _ IH]; simpl; done. }
  destruct (decide (e = FDB_NO_ERR)) as [He|He].
  - rewrite bool_decide_eq_true_2 by done. split; [auto | by left].
  - destruct (Hfail He) as [-> Hm]. by split; [|right].
Qed.

Lemma opt_ram_events p : Forall (λ ev, ∃ o, ev = EvRam o) (opt_ev EvRam p).
Proof. destruct p; repeat constructor. eauto. Qed.

(** Writers of the form "write the store; if it took it, change RAM". *)
Lemma write_then_step k e (db : DB) (ps : pstate DB) (f : pstate DB → pstate DB) rams :
  Forall (λ ev, ∃ o, ev = EvRam o) rams →
  (∀ ps, ps_log (f ps) = ps_log ps ++ rams) →
  write_step ps
    (if decide (e = FDB_NO_ERR) then (0, f (emit (EvDb k e) (set_db db ps)))
     else (-1, emit (EvDb k e) (set_db db ps))).
Proof.
  intros Hr Hf. destruct (decide (e = FDB_NO_ERR)) as [He|He].
  - pose proof (db_then_ram k e db ps (f (emit (EvDb k e) (set_db db ps))) rams) as Hs.
    rewrite decide_True in Hs by done. apply Hs; [|done|done].
    rewrite Hf. simpl. by rewrite <-app_assoc.
  - pose proof (db_then_ram k e db ps (emit (EvDb k e) (set_db db ps)) []) as Hs.
    rewrite decide_False in Hs by done. apply Hs; [done|done|by split].
Qed.

(** The same with the test written the other way round. *)
Lemma write_then_step_neg k e (db : DB) (ps : pstate DB) (f : pstate DB → pstate DB) rams :
  Forall (λ ev, ∃ o, ev = EvRam o) rams →
  (∀ ps, ps_log (f ps) = ps_log ps ++ rams) →
  write_step ps
    (if decide (e ≠ FDB_NO_ERR) then (-1, emit (EvDb k e) (set_db db ps))
     else (0, f (emit (EvDb k e) (set_db db ps)))).
Proof.
  intros Hr Hf. pose proof (write_then_step k e db ps f rams Hr Hf) as Hs.
  destruct (decide (e ≠ FDB_NO_ERR)), (decide (e = FDB_NO_ERR)); done.
Qed.

Lemma blob_assign_log ram n src c (ps : pstate DB) :
  ps_log (blob_assign ram n src c ps) = ps_log ps ++ (opt_ev EvRam ram ++ opt_ev EvRam ram).
Proof. unfold blob_assign. rewrite !store_log. by rewrite app_assoc. Qed.

Lemma write_step_none ps : write_step ps (-1, ps).
Proof. exists []. simpl. rewrite app_nil_r. auto. Qed.

(* The store call of a writer, taken apart. *)
Ltac split_db_call :=
  match goal with
  | |- context [fdb_kv_set ?b ?d ?k ?v] => destruct (fdb_kv_set b d k v)
  | |- context [fdb_kv_set_blob ?d ?k ?v] => destruct (fdb_kv_set_blob d k v)
  end.

Lemma two_ram_events p : Forall (λ ev, ∃ o, ev = EvRam o) (opt_ev EvRam p ++ opt_ev EvRam p).
Proof. apply Forall_app; split; apply opt_ram_events. Qed.

Lemma set_item_step it k val ps : write_step ps (set_item blob0 it k val ps).
Proof.
  unfold set_item, _int_db_write, _float_db_write, _str_db_write, _blob_db_write, kv_set.
  destruct (it_type it); [split_db_call .. | apply write_step_none].
  - apply (write_then_step _ _ _ _ (λ ps, store_word (it_ram_ptr it) (deref val ps) ps)
      _ (opt_ram_events (it_ram_ptr it))). intros. apply store_log.
  - apply (write_then_step _ _ _ _ (λ ps, store_word (it_ram_ptr it) (deref val ps) ps)
      _ (opt_ram_events (it_ram_ptr it))). intros. apply store_log.
  - apply (write_then_step _ _ _ _ (λ ps, str_assign (it_ram_ptr it) (deref val ps) (it_ram_size it) ps)
      _ (opt_ram_events (it_ram_ptr it))). intros. apply store_log.
  - apply (write_then_step _ _ _ _ (blob_assign (it_ram_ptr it) _ val _) _ (two_ram_events (it_ram_ptr it))).
    intros. apply blob_assign_log.
Qed.

Lemma reset_one_step it ps : write_step ps (_reset_one_locked blob0 it ps).
Proof.
  unfold _reset_one_locked, _int_db_write, _float_db_write, _str_db_write, _blob_db_write, kv_set.
  destruct (it_type it); [split_db_call .. | apply write_step_none].
  - apply (write_then_step_neg _ _ _ _ (λ ps, store_word (it_ram_ptr it) (deref (it_def_val it) ps) ps)
      _ (opt_ram_events (it_ram_ptr it))). intros. apply store_log.
  - apply (write_then_step_neg _ _ _ _ (λ ps, store_word (it_ram_ptr it) (deref (it_def_val it) ps) ps)
      _ (opt_ram_events (it_ram_ptr it))). intros. apply store_log.
  - apply (write_then_step_neg _ _ _ _ (λ ps, str_assign (it_ram_ptr it) (deref (it_def_val it) ps) (it_ram_size it) ps)
      _ (opt_ram_events (it_ram_ptr it))). intros. apply store_log.
  - apply (write_then_step_neg _ _ _ _ (blob_assign (it_ram_ptr it) _ _ _) _ (two_ram_events (it_ram_ptr it))).
    intros. apply blob_assign_log.
Qed.

(** The RAM update of [flash_param_set_blob]. *)
Definition set_blob_ram (it : param_item_t) (val : ptr) (n : Z) (ps : pstate DB) : pstate DB :=
  let ram := it_ram_ptr it in
  let ps := store ram (memcpy (deref ram ps) 0 (deref val ps) 0 n) ps in
  if n <? it_ram_size it
  then store ram (memset (deref ram ps) n 0 (it_ram_size it - n)) ps else ps.

Lemma set_blob_step it k val n ps :
  write_step ps
    (let '(e, ps) := _blob_db_write blob0 k val n ps in
     if decide (e = FDB_NO_ERR) then (0, set_blob_ram it val n ps) else (-1, ps)).
Proof.
  unfold _blob_db_write. split_db_call.
  apply (write_then_step _ _ _ _ (set_blob_ram it val n)
    (opt_ev EvRam (it_ram_ptr it)
       ++ (if n <? it_ram_size it then opt_ev EvRam (it_ram_ptr it) else []))).
  - apply Forall_app; split; [apply opt_ram_events |].
    destruct (n <? it_ram_size it); [apply opt_ram_events | constructor].
  - intros. unfold set_blob_ram.
    destruct (n <? it_ram_size it); rewrite !store_log, <-?app_assoc, ?app_nil_r; done.
Qed.

(** Between the lock calls. *)
Lemma write_step_locked m ps res :
  write_step (lock_call m ps) res →
  ∃ body,
    ps_log (unlock_call m res.2)
      = ps_log ps ++ opt_ev EvLock (pm_lock m) ++ body ++ opt_ev EvUnlock (pm_unlock m)
    ∧ db_first false body = true
    ∧ (res.1 = 0 ∨ res.1 = -1 ∧ ps_mem (unlock_call m res.2) = ps_mem ps).
Proof.
  intros (body & Hlog & Hord & Hres). exists body.
  rewrite unlock_log, Hlog, lock_log, unlock_mem, <-!app_assoc.
  by rewrite lock_mem in Hres.
Qed.

(** C5. Every operation that changes one parameter writes the store before RAM: it
    either rejects the request without any effect, or its log is the lock call, one
    store write, RAM writes only if the store write succeeded, and the unlock call;
    it returns 0 or -1, and when it returns -1 no RAM object has changed. *)
Theorem param_write_db_first (op : write_op) (m : param_mgr_t) (ps : pstate DB) :
  let res := run_write op (Some m) ps in
  res = (-1, ps)
  ∨ ∃ body,
      ps_log res.2 = ps_log ps ++ opt_ev EvLock (pm_lock m) ++ body
                       ++ opt_ev EvUnlock (pm_unlock m)
      ∧ db_first false body = true
      ∧ (res.1 = 0 ∨ res.1 = -1 ∧ ps_mem res.2 = ps_mem ps).
Proof.
  destruct op as [k val|k val n|k]; simpl;
    unfold flash_param_set, flash_param_set_blob, flash_param_reset, lookup_item;
    (destruct k as [k|]; [|by left]); (destruct (negb (pm_init_ok m)); [by left |]);
    (destruct (_find_item m k) as [it|]; [|by left]).
  - destruct val as [o|]; [|by left]. right.
    pose proof (write_step_locked m ps _ (set_item_step it k (Some o) (lock_call m ps))) as Hs.
    by destruct (set_item _ _ _ _ _).
  - destruct val as [o|]; [|by left]. do 3 (case_match; [by left |]). right.
    pose proof (write_step_locked m ps _ (set_blob_step it k (Some o) n (lock_call m ps))) as Hs.
    destruct (_blob_db_write _ _ _ _ _) as [e ps']. by destruct (decide (e = FDB_NO_ERR)).
  - right. pose proof (write_step_locked m ps _ (reset_one_step it (lock_call m ps))) as Hs.
    by destruct (_reset_one_locked _ _ _).
Qed.

End order.
