(* ===== verification/ParamCoherence.v ===== *)
(** What the parameter manager of FlashParam.v puts into the store and into RAM: the
    images of a value, the exact effect of the writing operations on both, and what a
    start-up loads when the store gives the images back. The results hold for every
    store; nothing is assumed about how it keeps its values. *)

From S2P Require Import Prelude.
From S2P Require Import CText.
From S2P Require Import KvStore.
From S2P Require Import FlashParam.

(** * Images of a value *)

(** A string in a buffer of [rs] bytes, cut to fit and padded with NULs. *)
Definition str_image (rs : Z) (s : list Z) : list Z :=
  let t := take (Z.to_nat (rs - 1)) s in t ++ replicate (Z.to_nat rs - length t) 0.

Definition blob_image (rs : Z) (b : list Z) : list Z :=
  take (Z.to_nat rs) b ++ replicate (Z.to_nat rs - length b) 0.

Section images.
Context `{FloatText}.

(** What the store receives for the bytes [src], of which a blob takes [n]. *)
Definition db_image (it : param_item_t) (src : list Z) (n : Z) : list Z :=
  match it_type it with
  | PARAM_TYPE_INT => dec_int (load_int src)
  | PARAM_TYPE_FLOAT => fmt_g9 (take 4 src)
  | PARAM_TYPE_STR => cstr src
  | _ => take (Z.to_nat n) src
  end.

(** What the RAM object [ram] becomes. *)
Definition ram_image (it : param_item_t) (src : list Z) (n : Z) (ram : list Z) : list Z :=
  match it_type it with
  | PARAM_TYPE_INT | PARAM_TYPE_FLOAT => take 4 src ++ drop 4 ram
  | PARAM_TYPE_STR => str_image (it_ram_size it) (cstr src)
  | _ => blob_image (it_ram_size it) (take (Z.to_nat n) src)
  end.

(** What loading the stored image of [src] makes of the RAM object [ram]: a blob
    leaves the bytes behind its own. *)
Definition load_image (it : param_item_t) (src : list Z) (n : Z) (ram : list Z) : list Z :=
  match it_type it with
  | PARAM_TYPE_INT | PARAM_TYPE_FLOAT => take 4 src ++ drop 4 ram
  | PARAM_TYPE_STR => str_image (it_ram_size it) (cstr src)
  | _ => take (Z.to_nat (it_ram_size it)) (take (Z.to_nat n) src) ++ drop (Z.to_nat n) ram
  end.

(** The part of a RAM object that holds the value. *)
Definition value_of (it : param_item_t) (n : Z) (ram : list Z) : list Z :=
  match it_type it with
  | PARAM_TYPE_INT | PARAM_TYPE_FLOAT => take 4 ram
  | PARAM_TYPE_BLOB => take (Z.to_nat n) ram
  | _ => ram
  end.

End images.

(** The sizes [flash_param_init] accepts, below the range of [size_t]. *)
Definition sized (it : param_item_t) : Prop :=
  match it_type it with PARAM_TYPE_INT | PARAM_TYPE_FLOAT => 4 | _ => 1 end
    ≤ it_ram_size it < 4294967296.

(** The values that survive the store: any [int]; a [float] that nine digits
    determine; a non-empty printable string that fits the 128-byte buffer of
    [fdb_kv_get] (or a shorter RAM buffer); a non-empty blob. *)
Definition storable `{FloatLaws} (it : param_item_t) (src : list Z) (n : Z) : Prop :=
  Forall is_u8 src ∧
  match it_type it with
  | PARAM_TYPE_INT => 4 ≤ blen src
  | PARAM_TYPE_FLOAT => float_ok (take 4 src)
  | PARAM_TYPE_STR => text_value (cstr src) ∧ (blen (cstr src) ≤ 128 ∨ it_ram_size it ≤ 129)
  | PARAM_TYPE_BLOB => 0 < n ≤ blen src
  | PARAM_TYPE_OTHER _ => False
  end.

(** The source has the bytes the write needs; strings may be anything. *)
Definition writable `{FloatLaws} (it : param_item_t) (src : list Z) (n : Z) : Prop :=
  match it_type it with
  | PARAM_TYPE_INT => 4 ≤ blen src
  | PARAM_TYPE_FLOAT => float_ok (take 4 src)
  | PARAM_TYPE_STR => True
  | PARAM_TYPE_BLOB => 0 < n ≤ blen src
  | PARAM_TYPE_OTHER _ => False
  end.

Section image_lemmas.
Context `{FloatLaws}.

Lemma storable_writable it src n : storable it src n → writable it src n.
Proof. unfold storable, writable. intros [_ Hs]. by destruct (it_type it). Qed.

Lemma length_str_image rs s : 0 < rs → length (str_image rs s) = Z.to_nat rs.
Proof. intros. unfold str_image. len. Qed.

Lemma length_blob_image rs b : 0 < rs → length (blob_image rs b) = Z.to_nat rs.
Proof. intros. unfold blob_image. len. Qed.

Lemma dec_int_text v : is_s32 v → text_value (dec_int v).
Proof.
  intros Hv. destruct (dec_int_chars v Hv) as [Hc Hl]. split.
  - intros E. rewrite E in Hl. simpl in Hl. lia.
  - eapply Forall_impl; [exact Hc |]. simpl. lia.
Qed.

Lemma int_text_roundtrip z : is_s32 z → _int_from_str (kv_text (dec_int z)) = Some z.
Proof.
  intros Hz. rewrite text_value_text by by apply dec_int_text.
  pose proof (dec_int_length z Hz). rewrite take_ge by lia. simpl.
  rewrite strtol_dec_int by done. simpl. by rewrite s32_small.
Qed.

(** A load and a write of the same bytes agree on the value. *)
Lemma load_value it src n ram ram0 :
  storable it src n → blen ram0 = it_ram_size it →
  value_of it n (load_image it src n ram0) = value_of it n (ram_image it src n ram).
Proof.
  intros [_ Hs] Hlen. unfold value_of, load_image, ram_image.
  revert Hs. destruct (it_type it); intros Hs; [| | done | |done].
  - rewrite !take_app_length' by len. done.
  - pose proof (float_len _ Hs). rewrite !take_app_length' by len. done.
  - unfold blob_image. set (b := take (Z.to_nat n) src). assert (length b = Z.to_nat n) by (unfold b; len).
    destruct (Nat.le_gt_cases (length b) (Z.to_nat (it_ram_size it))).
    + rewrite (take_ge b) by lia. by rewrite !take_app_length' by done.
    + rewrite (drop_ge ram0) by len. do 2 f_equal. symmetry.
      by replace (Z.to_nat (it_ram_size it) - length b)%nat with 0%nat by lia.
Qed.

End image_lemmas.

(** * One committed write *)

(** The RAM object of an item: [it_ram_size] bytes at object [o]. *)
Record item_at (it : param_item_t) (o : nat) (ram : list Z) (mem : list (list Z)) : Prop := {
  ia_ptr : it_ram_ptr it = Some o;
  ia_obj : mem !! o = Some ram;
  ia_len : blen ram = it_ram_size it;
  ia_sized : sized it
}.

Section commit.
Context {DB : Type} `{KvStore DB} `{FloatLaws}.
Variable blob0 : fdb_blob.

(** The store is asked to take the image of [src]; RAM follows if it did. *)
Definition commits (it : param_item_t) (k : key) (o : nat) (ram src : list Z) (n : Z)
    (ps : pstate DB) (res : Z * pstate DB) : Prop :=
  ∃ e db', kv_set_kv (ps_db ps) k (Some (db_image it src n)) = (e, db')
    ∧ ps_db res.2 = db' ∧ ps_value res.2 = ps_value ps
    ∧ (e = FDB_NO_ERR ∧ res.1 = 0 ∧ ps_mem res.2 = <[o := ram_image it src n ram]> (ps_mem ps)
       ∨ e ≠ FDB_NO_ERR ∧ res.1 = -1 ∧ ps_mem res.2 = ps_mem ps).

Lemma deref_at v src (ps : pstate DB) : ps_mem ps !! v = Some src → deref (Some v) ps = src.
Proof. simpl. by intros ->. Qed.

(** RAM updates, as functions of the object. *)
Lemma store_word_mem o ram w (ps : pstate DB) :
  ps_mem ps !! o = Some ram →
  ps_mem (store_word (Some o) w ps) = <[o := take 4 w ++ drop 4 ram]> (ps_mem ps).
Proof. intros Ho. unfold store_word. by rewrite (deref_at o ram). Qed.

Lemma str_assign_image rs ram s :
  0 < rs < 4294967296 → blen ram = rs →
  <[Z.to_nat (u32 (rs - 1)) := 0]> (strncpy ram s (u32 (rs - 1))) = str_image rs (cstr s).
Proof.
  intros Hrs Hlen. u32s. unfold strncpy, str_image.
  set (t := take (Z.to_nat (rs - 1)) (cstr s)).
  assert (Ht : (length t ≤ Z.to_nat (rs - 1))%nat) by (unfold t; len).
  rewrite app_assoc. rewrite insert_app_r_alt by len.
  replace (Z.to_nat (rs - 1) - length (t ++ replicate (Z.to_nat (rs - 1) - length t) 0%Z))%nat
    with 0%nat by len.
  destruct (drop (Z.to_nat (rs - 1)) ram) as [|c rest] eqn:Hd.
  { apply (f_equal length) in Hd. exfalso. len. }
  assert (length rest = 0)%nat.
  { apply (f_equal length) in Hd. len. }
  destruct rest; [|done]. simpl. rewrite <-app_assoc. f_equal.
  replace (Z.to_nat rs - length t)%nat with (S (Z.to_nat (rs - 1) - length t)) by lia.
  by rewrite replicate_S_end.
Qed.

Lemma str_assign_mem o ram s rs (ps : pstate DB) :
  ps_mem ps !! o = Some ram → 0 < rs < 4294967296 → blen ram = rs →
  ps_mem (str_assign (Some o) s rs ps) = <[o := str_image rs (cstr s)]> (ps_mem ps).
Proof.
  intros Ho Hrs Hlen. unfold str_assign. rewrite (deref_at o ram) by done.
  rewrite str_assign_image by done. done.
Qed.

Lemma clear_copy_image rs ram src n :
  0 < rs → blen ram = rs → 0 ≤ n ≤ rs → n ≤ blen src →
  memcpy (memset ram 0 0 rs) 0 src 0 n = blob_image rs (take (Z.to_nat n) src).
Proof.
  intros Hrs Hlen Hn Hs. unfold memcpy, memset, blob_image. rewrite !drop_0, !Z.add_0_l.
  change (Z.to_nat 0) with 0%nat. rewrite !take_0, !app_nil_l.
  rewrite (drop_ge ram) by len. rewrite app_nil_r, drop_replicate.
  rewrite (take_ge (take _ src)) by len. f_equal. f_equal. len.
Qed.

Lemma blob_assign_mem o v ram src rs n (ps : pstate DB) :
  ps_mem ps !! o = Some ram → ps_mem ps !! v = Some src → v ≠ o →
  0 < rs → blen ram = rs → 0 ≤ n ≤ rs → n ≤ blen src →
  ps_mem (blob_assign (Some o) rs (Some v) n ps)
    = <[o := blob_image rs (take (Z.to_nat n) src)]> (ps_mem ps).
Proof.
  intros Ho Hv Hne Hrs Hlen Hn Hs. unfold blob_assign. rewrite (deref_at o ram ps) by done.
  unfold store at 1. simpl. rewrite list_insert_insert_eq.
  rewrite list_lookup_insert_eq by (by apply lookup_lt_Some in Ho).
  rewrite list_lookup_insert_ne by done. rewrite Hv. simpl. by rewrite clear_copy_image.
Qed.

(** [flash_param_set_blob] copies first and clears the rest afterwards. *)
Lemma copy_clear_image rs ram src n :
  blen ram = rs → 0 < n ≤ rs → n ≤ blen src →
  memset (memcpy ram 0 src 0 n) n 0 (rs - n) = blob_image rs (take (Z.to_nat n) src).
Proof.
  intros Hlen Hn Hs. unfold memcpy, memset, blob_image. rewrite drop_0, Z.add_0_l.
  change (Z.to_nat 0) with 0%nat. rewrite take_0, app_nil_l.
  rewrite take_app_length' by len.
  rewrite drop_ge by len. rewrite app_nil_r, (take_ge (take _ src)) by len.
  f_equal. f_equal. len.
Qed.

(** RAM updates leave the store and the static buffer alone. *)
Lemma store_frame p v (ps : pstate DB) :
  ps_db (store p v ps) = ps_db ps ∧ ps_value (store p v ps) = ps_value ps.
Proof. by destruct p. Qed.

Lemma commit_intro it k o ram src n ps e db' (f : pstate DB → pstate DB) :
  kv_set_kv (ps_db ps) k (Some (db_image it src n)) = (e, db') →
  (∀ ps1, ps_mem ps1 = ps_mem ps →
     ps_mem (f ps1) = <[o := ram_image it src n ram]> (ps_mem ps)
     ∧ ps_db (f ps1) = ps_db ps1 ∧ ps_value (f ps1) = ps_value ps1) →
  let ps1 := emit (EvDb k e) (set_db db' ps) in
  commits it k o ram src n ps (if decide (e = FDB_NO_ERR) then (0, f ps1) else (-1, ps1)).
Proof.
  intros Hset Hf ps1. exists e, db'. split; [done |].
  destruct (Hf ps1 eq_refl) as (Hm & Hd & Hv).
  destruct (decide (e = FDB_NO_ERR)); simpl; split_and!; auto.
Qed.

Lemma kv_set_commit k v (ps : pstate DB) :
  kv_init_ok (ps_db ps) = true →
  kv_set blob0 k v ps
    = let '(e, db) := kv_set_kv (ps_db ps) k (Some (cstr v)) in
      (e, emit (EvDb k e) (set_db db ps)).
Proof. intros Hok. unfold kv_set. by rewrite kv_set_eq. Qed.

Lemma blob_write_commit k v n src (ps : pstate DB) :
  kv_init_ok (ps_db ps) = true → ps_mem ps !! v = Some src →
  _blob_db_write blob0 k (Some v) n ps
    = let '(e, db) := kv_set_kv (ps_db ps) k (Some (take (Z.to_nat n) src)) in
      (e, emit (EvDb k e) (set_db db ps)).
Proof.
  intros Hok Hv. unfold _blob_db_write, fdb_blob_make. rewrite set_blob_eq by done.
  by rewrite (deref_at v src).
Qed.

Lemma cstr_int_text src : cstr (_int_to_str src 32) = dec_int (load_int src).
Proof.
  assert (Hs : is_s32 (load_int src)) by apply s32_range.
  unfold _int_to_str. rewrite snprintf_d_32 by done. apply cstr_id.
  destruct (dec_int_text _ Hs) as [_ Ht]. eapply Forall_impl; [exact Ht |]. simpl. lia.
Qed.

Lemma cstr_float_text src :
  float_ok (take 4 src) → cstr (_float_to_str src 32) = fmt_g9 (take 4 src).
Proof.
  intros Hf. destruct (fmt_text _ Hf) as [[_ Ht] Hl].
  unfold _float_to_str. rewrite take_ge by len. apply cstr_id.
  eapply Forall_impl; [exact Ht |]. simpl. lia.
Qed.

(** The two writers of a whole value share this: the type's store write with the
    bytes at [v], then the type's RAM update; [n] is the blob length, [c] the part
    that is copied to RAM. *)
Definition write_value (it : param_item_t) (k : key) (v : ptr) (n c : Z) (ps : pstate DB)
    : Z * pstate DB :=
  let '(e, ps1) :=
    match it_type it with
    | PARAM_TYPE_INT => _int_db_write blob0 k v ps
    | PARAM_TYPE_FLOAT => _float_db_write blob0 k v ps
    | PARAM_TYPE_STR => _str_db_write blob0 k v ps
    | _ => _blob_db_write blob0 k v n ps
    end in
  if decide (e = FDB_NO_ERR) then
    (0, match it_type it with
        | PARAM_TYPE_INT | PARAM_TYPE_FLOAT => store_word (it_ram_ptr it) (deref v ps1) ps1
        | PARAM_TYPE_STR => str_assign (it_ram_ptr it) (deref v ps1) (it_ram_size it) ps1
        | _ => blob_assign (it_ram_ptr it) (it_ram_size it) v c ps1
        end)
  else (-1, ps1).

Lemma set_item_write it k v ps :
  (∀ t, it_type it ≠ PARAM_TYPE_OTHER t) →
  set_item blob0 it k v ps
    = write_value it k v (BUF_MIN (it_ram_size it) (it_def_size it))
        (BUF_MIN (it_ram_size it) (it_def_size it)) ps.
Proof.
  intros Ht. unfold set_item, write_value. destruct (it_type it); try done. by destruct (Ht n).
Qed.

Lemma reset_one_write it ps :
  (∀ t, it_type it ≠ PARAM_TYPE_OTHER t) →
  _reset_one_locked blob0 it ps
    = write_value it (item_key it) (it_def_val it) (it_def_size it)
        (BUF_MIN (it_def_size it) (it_ram_size it)) ps.
Proof.
  intros Ht. unfold _reset_one_locked, write_value.
  destruct (it_type it); try (by destruct (Ht n)); repeat case_match; done.
Qed.

(* One type's case: name the store call, fold the image, leave the RAM update [f]. *)
Local Ltac commit_case it src n Et f :=
  let Ek := fresh "Ek" in
  lazymatch goal with
  | |- context [kv_set_kv ?d ?k (Some ?v)] =>
      replace v with (db_image it src n) by (unfold db_image; by rewrite Et);
      destruct (kv_set_kv d k (Some (db_image it src n))) as [e db'] eqn:Ek
  end;
  apply (commit_intro _ _ _ _ _ _ _ _ _ f Ek);
  intros ps1 Hm; unfold ram_image; rewrite Et.

Lemma write_value_commits it k v o ram src n c ps :
  kv_init_ok (ps_db ps) = true → item_at it o ram (ps_mem ps) → ps_mem ps !! v = Some src → v ≠ o →
  writable it src n → c = BUF_MIN n (it_ram_size it) →
  commits it k o ram src n ps (write_value it k (Some v) n c ps).
Proof.
  intros Hok [Hp Ho Hlen Hsz] Hv Hne Hst ->. unfold writable in Hst. unfold write_value.
  unfold _int_db_write, _float_db_write, _str_db_write.
  rewrite !kv_set_commit, (blob_write_commit k v n src) by done.
  rewrite !(deref_at v src) by done. rewrite cstr_int_text, Hp.
  assert (Hrs : 0 < it_ram_size it < 4294967296).
  { unfold sized in Hsz. by destruct (it_type it); lia. }
  assert (Hw : ∀ ps1 : pstate DB, ps_mem ps1 = ps_mem ps →
    ps_mem (store_word (Some o) (deref (Some v) ps1) ps1)
      = <[o := take 4 src ++ drop 4 ram]> (ps_mem ps)).
  { intros ps1 Hm. by rewrite (deref_at v src), (store_word_mem o ram), Hm by by rewrite Hm. }
  destruct (it_type it) eqn:Et; [| | | |done].
  - commit_case it src n Et (λ ps1 : pstate DB, store_word (Some o) (deref (Some v) ps1) ps1).
    split; [auto | done].
  - rewrite cstr_float_text by done.
    commit_case it src n Et (λ ps1 : pstate DB, store_word (Some o) (deref (Some v) ps1) ps1).
    split; [auto | done].
  - commit_case it src n Et
      (λ ps1 : pstate DB, str_assign (Some o) (deref (Some v) ps1) (it_ram_size it) ps1).
    rewrite (deref_at v src) by by rewrite Hm.
    rewrite (str_assign_mem o ram) by (by rewrite ?Hm). by rewrite Hm.
  - commit_case it src n Et
      (blob_assign (DB:=DB) (Some o) (it_ram_size it) (Some v) (BUF_MIN n (it_ram_size it))).
    rewrite BUF_MIN_min, (blob_assign_mem o v ram src) by (rewrite ?Hm; (done || lia)).
    rewrite Hm. split; [|done].
    f_equal. unfold blob_image. rewrite !take_take. f_equal; [f_equal; lia |]. f_equal. len.
Qed.

Lemma set_blob_commits it k v o ram src n ps :
  kv_init_ok (ps_db ps) = true → item_at it o ram (ps_mem ps) → ps_mem ps !! v = Some src →
  it_type it = PARAM_TYPE_BLOB → 0 < n ≤ blen src → n ≤ it_ram_size it →
  commits it k o ram src n ps
    (let '(e, ps1) := _blob_db_write blob0 k (Some v) n ps in
     if decide (e = FDB_NO_ERR) then (0, set_blob_ram it (Some v) n ps1) else (-1, ps1)).
Proof.
  intros Hok [Hp Ho Hlen Hsz] Hv Et Hn Hle. rewrite (blob_write_commit k v n src) by done.
  commit_case it src n Et (set_blob_ram (DB:=DB) it (Some v) n).
  unfold set_blob_ram. rewrite Hp, (deref_at o ram ps1), (deref_at v src ps1) by by rewrite Hm.
  assert (Hlt : (o < length (ps_mem ps))%nat) by by apply lookup_lt_Some in Ho.
  pose proof (copy_clear_image (it_ram_size it) ram src n Hlen ltac:(lia) ltac:(lia)) as Himg.
  destruct (Z.ltb_spec n (it_ram_size it)); simpl; rewrite ?Hm.
  - rewrite list_lookup_insert_eq by done. simpl. by rewrite Himg, list_insert_insert_eq.
  - assert (n = it_ram_size it) as -> by lia. split; [|done]. f_equal. rewrite <-Himg.
    rewrite Z.sub_diag. unfold memset. simpl. by rewrite Z.add_0_r, take_drop.
Qed.

End commit.

(** * Writes *)

Lemma NoDup_fmap_eq {A B} (f : A → B) (l : list A) x y :
  NoDup (f <$> l) → x ∈ l → y ∈ l → f x = f y → x = y.
Proof.
  intros Hnd [i Hi]%list_elem_of_lookup [j Hj]%list_elem_of_lookup Hf.
  assert (i = j) as ->.
  { eapply NoDup_lookup; [exact Hnd | |]; rewrite list_lookup_fmap, ?Hi, ?Hj; simpl; by rewrite ?Hf. }
  by simplify_eq.
Qed.

Section param.
Context {DB : Type} `{KvStore DB} `{FloatLaws}.
Variable blob0 : fdb_blob.

(** Keys and RAM objects of the table are pairwise distinct. *)
Definition table_ok (table : list param_item_t) : Prop :=
  NoDup (item_key <$> table) ∧ NoDup (it_ram_ptr <$> table).

Lemma find_item_unique m it :
  NoDup (item_key <$> mgr_table m) → it ∈ mgr_table m → _find_item m (item_key it) = Some it.
Proof.
  unfold _find_item, mgr_table. set (l := take _ _). intros Hnd Hin.
  induction l as [|x l IH]; [by apply not_elem_of_nil in Hin |].
  rewrite fmap_cons in Hnd. apply NoDup_cons in Hnd as [Hx Hnd]. simpl.
  apply elem_of_cons in Hin as [-> | Hin]; [by rewrite bool_decide_eq_true_2 |].
  rewrite bool_decide_eq_false_2; [by apply IH |]. intros Hk. apply Hx.
  change (item_key x = item_key it) in Hk. rewrite Hk. by apply list_elem_of_fmap_2.
Qed.

Lemma lookup_item_unique m it :
  pm_init_ok m = true → NoDup (item_key <$> mgr_table m) → it ∈ mgr_table m →
  lookup_item (Some m) (Some (item_key it)) = Some (m, it, item_key it).
Proof. intros Hi Hnd Hin. unfold lookup_item. rewrite Hi. simpl. by rewrite find_item_unique. Qed.

Lemma lock_frame m (ps : pstate DB) :
  ps_db (lock_call m ps) = ps_db ps ∧ ps_mem (lock_call m ps) = ps_mem ps
  ∧ ps_value (lock_call m ps) = ps_value ps.
Proof. unfold lock_call. by destruct (pm_lock m). Qed.

Lemma unlock_frame m (ps : pstate DB) :
  ps_db (unlock_call m ps) = ps_db ps ∧ ps_mem (unlock_call m ps) = ps_mem ps
  ∧ ps_value (unlock_call m ps) = ps_value ps.
Proof. unfold unlock_call. by destruct (pm_unlock m). Qed.

Lemma commits_locked m it k o ram src n ps res :
  commits it k o ram src n (lock_call m ps) res →
  commits it k o ram src n ps (res.1, unlock_call m res.2).
Proof.
  unfold commits. destruct (lock_frame m ps) as (-> & -> & ->).
  destruct (unlock_frame m res.2) as (Hd & Hm & Hv). simpl. by rewrite Hd, Hm, Hv.
Qed.

(** [op] gives [it] the bytes of object [v]; [n] is the length a blob takes. Only
    [flash_param_set_blob] may be given one of the table's RAM objects. *)
Definition op_gives (table : list param_item_t) (op : write_op) (it : param_item_t) (v : nat)
    (n : Z) : Prop :=
  match op with
  | WSet k p =>
      k = Some (item_key it) ∧ p = Some v ∧ n = BUF_MIN (it_ram_size it) (it_def_size it)
      ∧ Some v ∉ (it_ram_ptr <$> table)
  | WSetBlob k p len =>
      k = Some (item_key it) ∧ p = Some v ∧ n = len ∧ it_type it = PARAM_TYPE_BLOB
      ∧ len ≤ it_ram_size it
  | WReset k =>
      k = Some (item_key it) ∧ it_def_val it = Some v ∧ n = it_def_size it
      ∧ Some v ∉ (it_ram_ptr <$> table)
  end.

Lemma writable_type it src n t : writable it src n → it_type it ≠ PARAM_TYPE_OTHER t.
Proof. unfold writable. intros Hs E. by rewrite E in Hs. Qed.


Lemma run_write_commits m op it v o ram src n ps :
  pm_init_ok m = true → table_ok (mgr_table m) → it ∈ mgr_table m → kv_init_ok (ps_db ps) = true →
  op_gives (mgr_table m) op it v n → item_at it o ram (ps_mem ps) →
  ps_mem ps !! v = Some src → writable it src n →
  commits it (item_key it) o ram src n ps (run_write blob0 op (Some m) ps).
Proof.
  intros Hi [Hnd Hnp] Hin Hok Hop Hat Hv Hst.
  assert (Hne : Some v ∉ (it_ram_ptr <$> mgr_table m) → v ≠ o).
  { intros Hn ->. apply Hn. rewrite <-(ia_ptr _ _ _ _ Hat). by apply list_elem_of_fmap_2. }
  destruct (lock_frame m ps) as (Hld & Hlm & _).
  assert (Hok' : kv_init_ok (ps_db (lock_call m ps)) = true) by by rewrite Hld.
  assert (Hmin : ∀ a b, BUF_MIN a b = BUF_MIN (BUF_MIN a b) a) by (intros; rewrite !BUF_MIN_min; lia).
  destruct op as [k p|k p len|k]; simpl in Hop |- *.
  - destruct Hop as (-> & -> & -> & Hn). unfold flash_param_set. rewrite lookup_item_unique by done.
    rewrite set_item_write by (intros t; by eapply writable_type).
    pose proof (commits_locked m it (item_key it) o ram src _ ps _ (write_value_commits blob0 it
      (item_key it) v o ram src _ _ (lock_call m ps) Hok' ltac:(by rewrite Hlm)
      ltac:(by rewrite Hlm) (Hne Hn) Hst (Hmin _ _))) as Hc.
    by destruct (write_value _ _ _ _ _ _ _).
  - destruct Hop as (-> & -> & -> & Ht & Hlen). unfold flash_param_set_blob.
    rewrite lookup_item_unique by done. unfold writable in Hst. rewrite Ht in Hst.
    destruct (Z.eqb_spec len 0); [lia |]. rewrite bool_decide_eq_true_2 by done. simpl.
    destruct (Z.ltb_spec (it_ram_size it) len); [lia |].
    pose proof (commits_locked m it (item_key it) o ram src len ps _ (set_blob_commits blob0 it
      (item_key it) v o ram src len (lock_call m ps) Hok' ltac:(by rewrite Hlm)
      ltac:(by rewrite Hlm) Ht Hst Hlen)) as Hc.
    destruct (_blob_db_write _ _ _ _ _) as [e ps1]. by destruct (decide (e = FDB_NO_ERR)).
  - destruct Hop as (-> & Hd & -> & Hn). unfold flash_param_reset. rewrite lookup_item_unique by done.
    rewrite reset_one_write by (intros t; by eapply writable_type). rewrite Hd.
    pose proof (commits_locked m it (item_key it) o ram src _ ps _ (write_value_commits blob0 it
      (item_key it) v o ram src _ _ (lock_call m ps) Hok' ltac:(by rewrite Hlm)
      ltac:(by rewrite Hlm) (Hne Hn) Hst eq_refl)) as Hc.
    by destruct (write_value _ _ _ _ _ _ _).
Qed.


(** ** Start-up *)

(** The store after a lookup. *)
Definition kv_seen (k : key) (db : DB) : DB := (kv_find db k).2.

Lemma kv_get_ps k ps :
  kv_init_ok (ps_db ps) = true → blen (ps_value ps) = FDB_STR_KV_VALUE_MAX_SIZE + 1 →
  ∃ value, blen value = FDB_STR_KV_VALUE_MAX_SIZE + 1
    ∧ kv_get blob0 k ps = ((kv_find (ps_db ps) k).1 ≫= kv_text,
                           mk_ps (kv_seen k (ps_db ps)) (ps_mem ps) value (ps_log ps)).
Proof.
  intros Hok Hval. unfold kv_get.
  pose proof (kv_get_spec (ps_value ps) blob0 (ps_db ps) k Hok Hval) as Hs.
  pose proof (kv_get_db (ps_value ps) blob0 (ps_db ps) k Hok) as Hd.
  pose proof (kv_get_length (ps_value ps) blob0 (ps_db ps) k Hok Hval) as Hl.
  destruct (fdb_kv_get _ _ _ _) as [[r value] db]. simpl in *. subst db r.
  exists value. split; [|done]. unfold blen in *. by rewrite Hl.
Qed.

(** The item's key was looked up and its object set to [r]. *)
Definition loaded (it : param_item_t) (o : nat) (r : list Z) (ps : pstate DB) (res : Z * pstate DB) : Prop :=
  ∃ value, blen value = FDB_STR_KV_VALUE_MAX_SIZE + 1
    ∧ res = (0, mk_ps (kv_seen (item_key it) (ps_db ps)) (<[o := r]> (ps_mem ps)) value
                  (ps_log ps ++ [EvRam o])).

Lemma blob_loads it o ram src n ps :
  kv_init_ok (ps_db ps) = true → blen (ps_value ps) = FDB_STR_KV_VALUE_MAX_SIZE + 1 →
  item_at it o ram (ps_mem ps) → it_type it = PARAM_TYPE_BLOB → 0 < n ≤ blen src →
  (kv_find (ps_db ps) (item_key it)).1 = Some (take (Z.to_nat n) src) →
  loaded it o (take (Z.to_nat (it_ram_size it)) (take (Z.to_nat n) src) ++ drop (Z.to_nat n) ram) ps
    (_blob_db_read blob0 (item_key it) (Some o) (it_ram_size it) ps).
Proof.
  intros Hok Hval [Hp Ho Hlen Hsz] Et Hn Hf. unfold sized in Hsz. rewrite Et in Hsz.
  unfold _blob_db_read, fdb_kv_get_blob, get_kv, loaded, kv_seen. rewrite Hok. simpl. rewrite Ho. simpl.
  destruct (kv_find _ _) as [r db]. simpl in Hf. subst r. simpl.
  set (b := take (Z.to_nat n) src). assert (Hb : blen b = n) by (unfold b; len). rewrite Hb.
  assert (Hmin : (if n <? it_ram_size it then n else it_ram_size it) = Z.min n (it_ram_size it))
    by (destruct (Z.ltb_spec n (it_ram_size it)); lia).
  rewrite Hmin. destruct (Z.ltb_spec 0 (Z.min n (it_ram_size it))); [|lia].
  destruct (Z.ltb_spec 0 n); [|lia]. exists (ps_value ps). split; [done |].
  unfold store, emit, set_db. simpl. do 3 f_equal. unfold memcpy. rewrite drop_0, Z.add_0_l. simpl.
  destruct (Z.le_gt_cases n (it_ram_size it)).
  - rewrite Z.min_l by lia. by rewrite !(take_ge b) by len.
  - rewrite Z.min_r by lia. rewrite (drop_ge ram (Z.to_nat (it_ram_size it))), (drop_ge ram) by len. done.
Qed.

(** The text of a stored value. *)
Lemma text_image it src n :
  storable it src n → it_type it ≠ PARAM_TYPE_BLOB →
  kv_text (db_image it src n) = Some (take 128 (db_image it src n)).
Proof.
  intros [_ Hs] Hb. apply text_value_text. unfold db_image. destruct (it_type it); try done.
  - apply dec_int_text, s32_range.
  - by destruct (fmt_text _ Hs).
  - by destruct Hs.
Qed.

Lemma str_image_text rs s :
  text_value s ∧ (blen s ≤ 128 ∨ rs ≤ 129) → str_image rs (cstr (take 128 s)) = str_image rs s.
Proof.
  intros [[_ Ht] Hb]. rewrite cstr_id by (apply Forall_take; eapply Forall_impl; [exact Ht | simpl; lia]).
  unfold str_image. destruct Hb as [Hb|Hb]; [by rewrite (take_ge s 128) by len |].
  rewrite take_take.
  by replace (Z.to_nat (rs - 1) `min` 128)%nat with (Z.to_nat (rs - 1)) by lia.
Qed.

Lemma memcpy_word (ram src : list Z) : memcpy ram 0 (take 4 src) 0 4 = take 4 src ++ drop 4 ram.
Proof. unfold memcpy. rewrite drop_0. simpl. by rewrite take_take. Qed.

Lemma int_image_word src : Forall is_u8 src → 4 ≤ blen src → le32 (load_int src) = take 4 src.
Proof.
  intros Hu Hl. rewrite <-(le32_load_int (take 4 src)); [|by apply Forall_take|len].
  unfold load_int. by rewrite take_take.
Qed.

(** The store gives back what was stored: the item's object receives it. *)
Lemma sync_one_loads it o ram src n ps :
  kv_init_ok (ps_db ps) = true → blen (ps_value ps) = FDB_STR_KV_VALUE_MAX_SIZE + 1 →
  item_at it o ram (ps_mem ps) → storable it src n →
  (kv_find (ps_db ps) (item_key it)).1 = Some (db_image it src n) →
  loaded it o (load_image it src n ram) ps (_sync_one blob0 it ps).
Proof.
  intros Hok Hval Hat Hst Hf. pose proof Hat as [Hp Ho Hlen Hsz]. pose proof Hst as [Hu Hs].
  pose proof (text_image it src n Hst) as Htext.
  destruct (kv_get_ps (item_key it) ps Hok Hval) as (value & Hv & Hget). rewrite Hf in Hget. simpl in Hget.
  unfold _sync_one. rewrite Hp. unfold load_image. unfold sized in Hsz. unfold db_image in *.
  destruct (it_type it) as [| | | |t] eqn:Et; [| | | |done].
  - unfold _int_db_read. rewrite Hget, int_text_roundtrip by apply s32_range.
    exists value. split; [done |]. unfold store_word. rewrite (deref_at o ram) by done.
    rewrite int_image_word by done. do 4 f_equal. by rewrite memcpy_word.
  - unfold _float_db_read. rewrite Hget, Htext by done.
    destruct (fmt_text _ Hs) as [Ht Hl]. rewrite (take_ge (fmt_g9 _)) by len. unfold _float_from_str. rewrite strtof_fmt by done.
    exists value. split; [done |]. unfold store_word. rewrite (deref_at o ram) by done.
    simpl. do 4 f_equal. by rewrite memcpy_word.
  - unfold _str_db_read. rewrite Hget, Htext by done. exists value. split; [done |].
    unfold str_assign. rewrite (deref_at o ram) by done. rewrite str_assign_image by (done || lia).
    by rewrite (str_image_text (it_ram_size it) (cstr src)).
  - pose proof (blob_loads it o ram src n ps Hok Hval Hat Et Hs Hf) as (value' & Hv' & ->). by exists value'.
Qed.

(** Every item has its RAM object. *)
Definition ram_ready (table : list param_item_t) (mem : list (list Z)) : Prop :=
  ∀ it, it ∈ table → ∃ o ram, item_at it o ram mem.

Lemma ram_ready_insert table it o ram mem :
  table_ok table → it ∈ table → ram_ready table mem → it_ram_ptr it = Some o →
  blen ram = it_ram_size it → ram_ready table (<[o := ram]> mem).
Proof.
  intros [_ Hnp] Hin Hr Hp Hb it' Hin'. destruct (Hr it' Hin') as (o' & ram' & Hat).
  destruct (decide (o = o')) as [-> | Hne].
  - assert (it' = it) as ->.
    { eapply (NoDup_fmap_eq it_ram_ptr); [done..|]. by rewrite Hp, (ia_ptr _ _ _ _ Hat). }
    exists o', ram. destruct Hat as [? Ho ? ?]. constructor; try done.
    apply list_lookup_insert_eq. by apply lookup_lt_Some in Ho.
  - exists o', ram'. destruct Hat. constructor; try done. by rewrite list_lookup_insert_ne.
Qed.

Lemma load_image_length it src n ram :
  sized it → storable it src n → blen ram = it_ram_size it →
  blen (load_image it src n ram) = it_ram_size it.
Proof.
  unfold sized. intros Hrs [_ Hs] Hlen. unfold load_image, blen.
  revert Hrs Hs. destruct (it_type it); intros Hrs Hs; [| | | |done].
  - len.
  - pose proof (float_len _ Hs). len.
  - rewrite length_str_image by lia. lia.
  - len.
Qed.

(** The store, asked for these keys one after the other, is up and gives these values. *)
Fixpoint store_gives (db : DB) (l : list (key * list Z)) : Prop :=
  match l with
  | [] => True
  | (k, v) :: l => kv_init_ok db = true ∧ (kv_find db k).1 = Some v ∧ store_gives (kv_seen k db) l
  end.

(** The store after these lookups. *)
Definition store_seen (table : list param_item_t) (db : DB) : DB :=
  foldl (λ db it, kv_seen (item_key it) db) db table.

(** A table of parameters that were last given the bytes [src], a blob [len] of them, as
    the store holds it. *)
Definition stored (src : param_item_t → list Z) (len : param_item_t → Z) (table : list param_item_t)
    : list (key * list Z) :=
  (λ it, (item_key it, db_image it (src it) (len it))) <$> table.

Lemma sync_all_loads src len table todo ps :
  table_ok table → todo ⊆ table → NoDup todo →
  blen (ps_value ps) = FDB_STR_KV_VALUE_MAX_SIZE + 1 → ram_ready table (ps_mem ps) →
  (∀ it, it ∈ table → storable it (src it) (len it)) →
  store_gives (ps_db ps) (stored src len todo) →
  ∃ ps' l, sync_all blob0 todo ps = (0, ps') ∧ ps_db ps' = store_seen todo (ps_db ps)
    ∧ ps_log ps' = ps_log ps ++ (EvRam <$> l)
    ∧ (∀ it o ram, it ∈ todo → item_at it o ram (ps_mem ps) →
         ps_mem ps' !! o = Some (load_image it (src it) (len it) ram))
    ∧ (∀ o, (Some o ∉ it_ram_ptr <$> todo) → ps_mem ps' !! o = ps_mem ps !! o).
Proof.
  intros Htab Hsub Hnd Hval Hr Hst Hg. revert ps Hval Hr Hg.
  induction todo as [|it todo IH]; intros ps Hval Hr Hg; simpl.
  { exists ps, []. split_and!; [done | done | by rewrite app_nil_r | by intros ? ? ? ?%not_elem_of_nil | done]. }
  apply NoDup_cons in Hnd as [Hni Hnd].
  assert (Hin : it ∈ table) by (apply Hsub, list_elem_of_here).
  assert (Hsub' : todo ⊆ table) by (intros x Hx; apply Hsub; by apply list_elem_of_further).
  destruct (Hr it Hin) as (o & ram & Hat). pose proof Hat as [Hp Ho Hlen Hsz].
  destruct Hg as (Hup & Hf & Hg).
  destruct (sync_one_loads it o ram (src it) (len it) ps Hup Hval Hat (Hst it Hin) Hf) as (value & Hv & ->).
  simpl. assert (Hptr : Some o ∉ it_ram_ptr <$> todo).
  { intros (it' & E & Hin')%list_elem_of_fmap. apply Hni.
    rewrite (NoDup_fmap_eq it_ram_ptr table it it'); [done | apply Htab | done | by apply Hsub' | congruence]. }
  set (ps1 := mk_ps _ _ _ _).
  destruct (IH Hsub' Hnd ps1 Hv) as (ps' & l & E & Hdb & Hlog & Hall & Hfr); [|done|].
  { simpl. eapply ram_ready_insert; [done.. |]. apply load_image_length; [done | by apply Hst | done]. }
  exists ps', (o :: l). split_and!; [done | done | | |].
  - rewrite Hlog. simpl. by rewrite <-app_assoc.
  - intros it' o' r' [-> | Hin']%elem_of_cons Hat'.
    + destruct Hat' as [Hp' Ho' _ _]. simplify_eq. rewrite Hfr by done. simpl.
      apply list_lookup_insert_eq. by apply lookup_lt_Some in Ho.
    + apply Hall; [done |]. destruct Hat' as [Hp' Ho' Hl' Hs']. constructor; try done. simpl.
      rewrite list_lookup_insert_ne; [done |]. intros ->. apply Hptr. rewrite <-Hp'.
      by apply list_elem_of_fmap_2.
  - intros o' Ho'. change (Some o' ∉ it_ram_ptr <$> it :: todo) in Ho'.
    rewrite fmap_cons, not_elem_of_cons in Ho'. destruct Ho' as [Hne Ho'].
    rewrite Hfr by done. simpl. rewrite list_lookup_insert_ne; [done |]. congruence.
Qed.

Lemma keys_unique_NoDup l : keys_unique l = true → NoDup (item_key <$> l).
Proof.
  induction l as [|it l IH]; [constructor |]. cbn [keys_unique]. rewrite andb_true_iff.
  intros [Hf Hu]. rewrite fmap_cons. apply NoDup_cons. split; [|auto].
  intros (it' & Heq & Hin)%list_elem_of_fmap. rewrite forallb_forall in Hf.
  specialize (Hf it' (proj1 (list_elem_of_In _ _) Hin)). by rewrite bool_decide_eq_true_2 in Hf.
Qed.

(** C8. A restart restores every parameter: the parameters were last given the bytes [src],
    and the store that [flash_param_init] starts gives back, key after key, the encodings
    those writes put into it. Then, for a table that passes the checks, with memory for the
    table of defaults and whatever RAM contains at power-on, [flash_param_init] returns 0
    with the manager ready, the store is only read, every parameter's RAM object is loaded
    with [src] (the rest of a longer word or blob object keeps its contents), so that its
    value is the one the write left in RAM, and no other object changes. *)
Theorem param_restart_restores (m0 : param_mgr_t) (s mx : Z)
    (items : list param_item_t) (count : Z) (lk ul : option nat) (ps0 : pstate DB)
    (src : param_item_t → list Z) (len : param_item_t → Z)
    (Hcount : count ≠ 0) (Hlock : is_Some lk ↔ is_Some ul)
    (Hchk : forallb item_check (take (Z.to_nat count) items) = true)
    (Huni : keys_unique (take (Z.to_nat count) items) = true)
    (Hnp : NoDup (it_ram_ptr <$> take (Z.to_nat count) items))
    (Hval : blen (ps_value ps0) = FDB_STR_KV_VALUE_MAX_SIZE + 1)
    (Hready : ram_ready (take (Z.to_nat count) items) (ps_mem ps0))
    (Hst : ∀ it, it ∈ take (Z.to_nat count) items → storable it (src it) (len it)) :
  let table := take (Z.to_nat count) items in
  let start := kvdb_start (ps_db ps0) s mx (map (default_value ps0) (map make_node table)) in
  start.1 = FDB_NO_ERR → store_gives start.2 (stored src len table) →
  ∃ m ps' l, flash_param_init blob0 true (Some m0) s mx (Some items) count lk ul ps0
               = (0, Some m, ps')
    ∧ pm_init_ok m = true ∧ mgr_table m = table
    ∧ ps_db ps' = store_seen table start.2 ∧ ps_log ps' = ps_log ps0 ++ (EvRam <$> l)
    ∧ (∀ it o ram, it ∈ table → item_at it o ram (ps_mem ps0) →
         let ram' := load_image it (src it) (len it) ram in
         ps_mem ps' !! o = Some ram'
         ∧ ∀ before, value_of it (len it) ram'
                     = value_of it (len it) (ram_image it (src it) (len it) before))
    ∧ ∀ o, (Some o ∉ it_ram_ptr <$> table) → ps_mem ps' !! o = ps_mem ps0 !! o.
Proof.
  intros table start Hstart Hg. unfold flash_param_init. fold table in Hchk, Huni, Hnp, Hready, Hst |- *.
  rewrite (proj2 (Z.eqb_neq _ _) Hcount), Hchk, Huni. simpl.
  rewrite (bool_decide_ext _ _ Hlock), Bool.eqb_reflx. simpl. fold start.
  destruct start as [e db1]. simpl in Hstart, Hg. subst e.
  destruct (decide (FDB_NO_ERR ≠ FDB_NO_ERR)) as [|_]; [done |].
  assert (Htab : table_ok table) by (split; [by apply keys_unique_NoDup | done]).
  destruct (sync_all_loads src len table table (set_db db1 ps0) Htab) as (ps' & l & -> & Hdb & Hlog & Hall & Hfr);
    try done.
  { eapply NoDup_fmap_1. apply Htab. }
  eexists _, ps', l. split_and!; try done.
  intros it o ram Hin Hat. split; [by apply Hall |]. intros before.
  apply load_value; [by apply Hst | apply Hat].
Qed.

(** Passing a blob parameter's own RAM object to [flash_param_set_blob] keeps its first
    [n] bytes: the copy comes before the clearing. *)
Lemma set_blob_self m it o ram n ps :
  pm_init_ok m = true → table_ok (mgr_table m) → it ∈ mgr_table m →
  kv_init_ok (ps_db ps) = true →
  it_type it = PARAM_TYPE_BLOB → item_at it o ram (ps_mem ps) → 0 < n ≤ it_ram_size it →
  let res := flash_param_set_blob blob0 (Some m) (Some (item_key it)) (Some o) n ps in
  res.1 = 0 → ps_mem res.2 !! o = Some (blob_image (it_ram_size it) (take (Z.to_nat n) ram)).
Proof.
  intros Hi Htab Hin Hok Ht Hat Hn res Hr.
  pose proof (run_write_commits m (WSetBlob (Some (item_key it)) (Some o) n) it o o ram ram n ps
    Hi Htab Hin Hok ltac:(split_and!; (done || lia)) Hat (ia_obj _ _ _ _ Hat)
    ltac:(unfold writable; rewrite Ht, (ia_len _ _ _ _ Hat); lia)) as (e & db & _ & _ & _ & Hc).
  cbn [run_write] in Hc. fold res in Hc. destruct Hc as [(_ & _ & ->)|(_ & ? & _)]; [|lia].
  unfold ram_image. rewrite Ht. apply list_lookup_insert_eq.
  apply (lookup_lt_Some _ _ _ (ia_obj _ _ _ _ Hat)).
Qed.

(** A string parameter can be set to a text that does not come back: when
    [flash_param_set] is given a string that is empty or has a character outside the
    printable ASCII range and the store takes it, it returns 0 and the string is in RAM,
    but a start-up on a store that returns this very string replaces it by the default. *)
Theorem param_set_unreadable (m : param_mgr_t) (it : param_item_t) (v o : nat)
    (ram src : list Z) (ps ps1 : pstate DB)
    (Hinit : pm_init_ok m = true) (Htab : table_ok (mgr_table m)) (Hin : it ∈ mgr_table m)
    (Hup : kv_init_ok (ps_db ps) = true) (Htype : it_type it = PARAM_TYPE_STR)
    (Hat : item_at it o ram (ps_mem ps)) (Hsrc : ps_mem ps !! v = Some src)
    (Hna : Some v ∉ it_ram_ptr <$> mgr_table m)
    (Hbad : cstr src = [] ∨ forallb is_print (take 128 (cstr src)) = false)
    (Hroom : (kv_set_kv (ps_db ps) (item_key it) (Some (cstr src))).1 = FDB_NO_ERR)
    (Hup1 : kv_init_ok (ps_db ps1) = true)
    (Hval : blen (ps_value ps1) = FDB_STR_KV_VALUE_MAX_SIZE + 1)
    (Hgives : (kv_find (ps_db ps1) (item_key it)).1 = Some (cstr src)) :
  let res := flash_param_set blob0 (Some m) (Some (item_key it)) (Some v) ps in
  res.1 = 0 ∧ ps_mem res.2 !! o = Some (str_image (it_ram_size it) (cstr src))
  ∧ ps_db res.2 = (kv_set_kv (ps_db ps) (item_key it) (Some (cstr src))).2
  ∧ ∃ value, _sync_one blob0 it ps1
      = _reset_one_locked blob0 it
          (mk_ps (kv_seen (item_key it) (ps_db ps1)) (ps_mem ps1) value (ps_log ps1)).
Proof.
  intros res.
  pose proof (run_write_commits m (WSet (Some (item_key it)) (Some v)) it v o ram src
    (BUF_MIN (it_ram_size it) (it_def_size it)) ps Hinit Htab Hin Hup ltac:(by split_and!) Hat Hsrc
    ltac:(unfold writable; by rewrite Htype)) as (e & db' & Hset & Hdb & Hv & Hcase).
  unfold db_image, ram_image in *. rewrite Htype in *. cbn [run_write] in *.
  fold res in Hdb, Hv, Hcase. rewrite Hset in Hroom |- *. simpl in Hroom. subst e.
  destruct Hcase as [(_ & Hr & Hm)|(? & _)]; [|done].
  split_and!; try done.
  { rewrite Hm. apply list_lookup_insert_eq, (lookup_lt_Some _ _ _ (ia_obj _ _ _ _ Hat)). }
  destruct (kv_get_ps (item_key it) ps1 Hup1 Hval) as (value & _ & Hget). exists value.
  unfold _sync_one, _str_db_read. rewrite Htype, Hget, Hgives. simpl.
  replace (kv_text (cstr src)) with (@None (list Z)); [done |]. unfold kv_text.
  destruct Hbad as [-> | ->]; [done | by rewrite andb_false_r].
Qed.

End param.
