(* ===== verification/Serial.v ===== *)
(** What rs485.c and uart_test.c share: parsing of hexadecimal text, the serial device
    as an interface, and the state of a port (receive ring, semaphore value, log of
    what reaches the bus). *)

From Stdlib Require Import String.
From S2P Require Import Prelude.
From S2P Require Import CText.
From S2P Require Import RtDef.
From S2P Require Import Lwrb.

Open Scope Z_scope.
Open Scope list_scope.

(** * Hexadecimal text *)

Definition hex_char_to_nibble (c : Z) : Z :=
  if (48 <=? c) && (c <=? 57) then c - 48
  else if (97 <=? c) && (c <=? 102) then c - 97 + 10
  else if (65 <=? c) && (c <=? 70) then c - 65 + 10
  else -1.

Definition is_sep (c : Z) : bool := (c =? 32) || (c =? 9) || (c =? 44) || (c =? 45).

Fixpoint skip_sep (s : list Z) : list Z :=
  match s with
  | c :: s' => if is_sep c then skip_sep s' else s
  | [] => []
  end.

(** The loop over the string; each round consumes two characters at least, so the
    length of the string is enough fuel. *)
Fixpoint hex_loop (fuel : nat) (hex : list Z) (max_len len : Z) (out : list Z) : Z * list Z :=
  match fuel with
  | O => (len, out)
  | S fuel =>
      match hex with
      | [] => (len, out)
      | _ =>
          if negb (len <? max_len) then (len, out) else
          match skip_sep hex with
          | [] => (len, out)
          | c1 :: hex =>
              let h := hex_char_to_nibble c1 in
              if h <? 0 then (len, out) else
              match hex with
              | [] => (len, out)
              | c2 :: hex =>
                  let l := hex_char_to_nibble c2 in
                  if l <? 0 then (len, out) else
                  let b := u8 (Z.lor (Z.shiftl h 4) l) in
                  hex_loop fuel hex max_len (len + 1) (<[Z.to_nat len := b]> out)
              end
          end
      end
  end.

(** Number of bytes parsed, and the output buffer. *)
Definition hex_str_to_bytes (hex out : option (list Z)) (max_len : Z) : Z * option (list Z) :=
  match hex, out with
  | Some hex, Some buf =>
      if max_len =? 0 then (0, out) else
      let s := cstr hex in
      let '(len, buf) := hex_loop (S (List.length s)) s max_len 0 buf in (len, Some buf)
  | _, _ => (0, out)
  end.

(** [rt_strncpy(buf + used, arg, sizeof(buf) - used - 1); buf[sizeof(buf) - 1] = 0],
    when there is room. *)
Definition append_arg (buf arg : list Z) : list Z :=
  let used := strlen buf in
  let remain := blen buf - used - 1 in
  if 0 <? remain then
    <[Z.to_nat (blen buf - 1) := 0]>
      (take (Z.to_nat used) buf ++ strncpy (drop (Z.to_nat used) buf) arg remain)
  else buf.

(** The arguments of a shell command, separated by spaces, in a 256-byte buffer. *)
Fixpoint join_args (args : list (list Z)) (buf : list Z) : list Z :=
  match args with
  | [] => buf
  | [a] => append_arg buf a
  | a :: args => join_args args (append_arg (append_arg buf a) (str " "))
  end.

(** "%02X". *)
Definition hex_digit (d : Z) : Z := if d <? 10 then 48 + d else 65 + (d - 10).
Definition hex_byte (b : Z) : list Z := [hex_digit (b / 16); hex_digit (b mod 16)].
Definition hex_dump (l : list Z) : list Z := concat (map (λ b, 32 :: hex_byte b) l).

(** * The device *)

(** The calls of the serial device framework the two files make, and an interrupt that brings
    bytes, with whether the receive callback is called. [dev_pending] are the bytes that were
    received and not read, [dev_cap] is how many of them the device can hold: 0 unless it is
    open for reception and a callback is registered. *)
Class SerialDev (Dev : Type) : Type := {
  dev_find : Dev → bool;
  dev_close : Dev → Dev;
  dev_control : Dev → Z → Z * Dev;
  dev_open : Dev → Z * Dev;
  dev_set_rx_indicate : Dev → Dev;
  dev_read1 : Dev → option Z * Dev;
  dev_write : Dev → list Z → Z * Dev;
  dev_rx : Dev → list Z → bool * Dev;
  dev_pending : Dev → list Z;
  dev_cap : Dev → Z
}.

(** Received bytes that fit are announced, and read in the order of arrival. *)
Class SerialLaws (Dev : Type) `{SerialDev Dev} : Prop := {
  dev_read1_spec d :
    0 < dev_cap d →
    (dev_read1 d).1 = head (dev_pending d) ∧ dev_pending (dev_read1 d).2 = tail (dev_pending d)
    ∧ dev_cap (dev_read1 d).2 = dev_cap d;
  dev_rx_spec d bs :
    Forall is_u8 bs → 0 < blen bs → blen (dev_pending d) + blen bs ≤ dev_cap d →
    (dev_rx d bs).1 = true ∧ dev_pending (dev_rx d bs).2 = dev_pending d ++ bs ∧ dev_cap (dev_rx d bs).2 = dev_cap d;
  dev_write_spec d bs :
    0 < dev_cap d → dev_pending (dev_write d bs).2 = dev_pending d ∧ dev_cap (dev_write d bs).2 = dev_cap d
}.

(** What one interrupt brings: at least one byte, and no more than the device holds. *)
Definition arrival_ok (fc : Z) (bs : list Z) : Prop := Forall is_u8 bs ∧ 0 < blen bs ≤ fc.

(** * Port state *)

Inductive bus_event : Type :=
  | EvPinMode
  | EvPin (high : bool)
  | EvTx (data : list Z)
  | EvUsDelay (us : Z)
  | EvMsDelay (ms : Z)
  | EvRxIndicate
  | EvRingInit
  | EvSemInit
  | EvText (line : list Z).

(** The static variables of the file: device handle (the hardware behind it is
    [pt_dev], [pt_bound] says whether the pointer is set), baud rate, receive ring,
    value of the receive semaphore. *)
Record port (Dev : Type) : Type := mk_port {
  pt_dev : Dev;
  pt_bound : bool;
  pt_baud : Z;
  pt_rb : lwrb_t;
  pt_sem : Z;
  pt_log : list bus_event
}.
Arguments mk_port {Dev}.
Arguments pt_dev {Dev}.
Arguments pt_bound {Dev}.
Arguments pt_baud {Dev}.
Arguments pt_rb {Dev}.
Arguments pt_sem {Dev}.
Arguments pt_log {Dev}.

Section port_ops.
Context {Dev : Type} `{SerialDev Dev}.

Definition pt_emit (e : bus_event) (p : port Dev) : port Dev :=
  mk_port (pt_dev p) (pt_bound p) (pt_baud p) (pt_rb p) (pt_sem p) (pt_log p ++ [e]).
Definition pt_set_dev (d : Dev) (p : port Dev) : port Dev :=
  mk_port d (pt_bound p) (pt_baud p) (pt_rb p) (pt_sem p) (pt_log p).
Definition pt_bind (b : bool) (p : port Dev) : port Dev :=
  mk_port (pt_dev p) b (pt_baud p) (pt_rb p) (pt_sem p) (pt_log p).
Definition pt_set_baud (b : Z) (p : port Dev) : port Dev :=
  mk_port (pt_dev p) (pt_bound p) b (pt_rb p) (pt_sem p) (pt_log p).
Definition pt_set_rb (rb : lwrb_t) (p : port Dev) : port Dev :=
  mk_port (pt_dev p) (pt_bound p) (pt_baud p) rb (pt_sem p) (pt_log p).
Definition pt_set_sem (v : Z) (p : port Dev) : port Dev :=
  mk_port (pt_dev p) (pt_bound p) (pt_baud p) (pt_rb p) v (pt_log p).

(** [rt_sem_release] with no thread waiting, and with one, which takes the token. *)
Definition sem_release (waiting : bool) (p : port Dev) : port Dev :=
  if waiting then p
  else if pt_sem p <? RT_SEM_VALUE_MAX then pt_set_sem (pt_sem p + 1) p else p.

(** [while (rt_device_read(dev, 0, &ch, 1) == 1) lwrb_write(&rx_rb, &ch, 1);] *)
Fixpoint drain (fuel : nat) (p : port Dev) : port Dev :=
  match fuel with
  | O => p
  | S fuel =>
      match dev_read1 (pt_dev p) with
      | (Some ch, d) =>
          let '(_, rb) := lwrb_write (Some (pt_rb p)) (Some [ch]) 1 in
          drain fuel (pt_set_rb (default (pt_rb p) rb) (pt_set_dev d p))
      | (None, d) => pt_set_dev d p
      end
  end.

(** One more round than there are bytes: the last read finds none. *)
Definition drain_all (p : port Dev) : port Dev := drain (S (List.length (dev_pending (pt_dev p)))) p.

End port_ops.

(** * Parsing is the inverse of printing *)

(** A byte as a user may type it: separators, then two digits in either case. *)
Definition digit (upper : bool) (d : Z) : Z :=
  if d <? 10 then 48 + d else (if upper then 65 else 97) + (d - 10).

Record token : Type := mk_token { tk_sep : list Z; tk_upper : bool; tk_byte : Z }.

Definition render (t : token) : list Z :=
  tk_sep t ++ [digit (tk_upper t) (tk_byte t / 16); digit (tk_upper t) (tk_byte t mod 16)].

Definition token_ok (t : token) : Prop :=
  Forall (λ c, is_sep c = true) (tk_sep t) ∧ is_u8 (tk_byte t).

Lemma nibble_digit u d : 0 ≤ d < 16 → hex_char_to_nibble (digit u d) = d.
Proof. intros. unfold digit, hex_char_to_nibble. destruct u; zbool. Qed.

Lemma digit_not_sep u d : 0 ≤ d < 16 → is_sep (digit u d) = false.
Proof. intros. unfold digit, is_sep. destruct u; zbool. Qed.

Lemma digit_not_nul u d : 0 ≤ d < 16 → digit u d ≠ 0.
Proof. intros. unfold digit. destruct u; zbool. Qed.

Lemma skip_sep_app s c r :
  Forall (λ c, is_sep c = true) s → is_sep c = false → skip_sep (s ++ c :: r) = c :: r.
Proof. induction 1 as [|x s Hx _ IH]; simpl; intros Hc; [by rewrite Hc | by rewrite Hx, IH]. Qed.

Lemma skip_sep_all s : Forall (λ c, is_sep c = true) s → skip_sep s = [].
Proof. induction 1 as [|x s Hx _ IH]; simpl; [done | by rewrite Hx]. Qed.

Lemma nibbles_byte b : is_u8 b → 0 ≤ b / 16 < 16 ∧ 0 ≤ b mod 16 < 16.
Proof.
  unfold is_u8. intros. split; [|apply Z.mod_pos_bound; lia].
  split; [apply Z.div_pos; lia | apply Z.div_lt_upper_bound; lia].
Qed.

Lemma join_nibbles h l : 0 ≤ h < 16 → 0 ≤ l < 16 → u8 (Z.lor (Z.shiftl h 4) l) = 16 * h + l.
Proof.
  intros Hh Hl. rewrite lor_shiftl by lia. change (2 ^ 4) with 16.
  rewrite u8_small by (unfold is_u8; lia). lia.
Qed.

Lemma byte_nibbles u b :
  is_u8 b →
  u8 (Z.lor (Z.shiftl (hex_char_to_nibble (digit u (b / 16))) 4)
        (hex_char_to_nibble (digit u (b mod 16)))) = b.
Proof.
  intros Hb. destruct (nibbles_byte b Hb). rewrite !nibble_digit, join_nibbles by done.
  pose proof (Z.div_mod b 16). lia.
Qed.

Lemma insert_take (l : list Z) (i : nat) x :
  (i < length l)%nat → <[i := x]> l = take i l ++ x :: drop (S i) l.
Proof. intros Hi. rewrite <-(insert_take_drop l i x) by done. done. Qed.

(** One round of the loop on a rendered byte. *)
Lemma hex_loop_token fuel t r max_len len out :
  token_ok t → len < max_len →
  hex_loop (S fuel) (render t ++ r) max_len len out
    = hex_loop fuel r max_len (len + 1) (<[Z.to_nat len := tk_byte t]> out).
Proof.
  intros [Hs Hb] Hlen. destruct (nibbles_byte _ Hb) as [Hh Hl].
  unfold render. rewrite <-app_assoc. cbn [app].
  set (c1 := digit _ (_ / 16)). set (c2 := digit _ (_ mod 16)).
  assert (Hk : skip_sep (tk_sep t ++ c1 :: c2 :: r) = c1 :: c2 :: r)
    by (apply skip_sep_app; [done | by apply digit_not_sep]).
  assert (H1 : hex_char_to_nibble c1 = tk_byte t / 16) by by apply nibble_digit.
  assert (H2 : hex_char_to_nibble c2 = tk_byte t mod 16) by by apply nibble_digit.
  cbn [hex_loop]. rewrite Hk, (proj2 (Z.ltb_lt _ _) Hlen), H1, H2.
  destruct (Z.ltb_spec (tk_byte t / 16) 0); [lia |].
  destruct (Z.ltb_spec (tk_byte t mod 16) 0); [lia |].
  rewrite join_nibbles by done.
  replace (16 * (tk_byte t / 16) + tk_byte t mod 16) with (tk_byte t)
    by (pose proof (Z.div_mod (tk_byte t) 16); lia).
  by destruct (tk_sep t).
Qed.

Lemma hex_loop_full fuel s max_len out :
  hex_loop fuel s max_len max_len out = (max_len, out).
Proof. destruct fuel; [done |]. cbn [hex_loop]. rewrite Z.ltb_irrefl. by destruct s. Qed.

Lemma hex_loop_seps fuel s max_len len out :
  Forall (λ c, is_sep c = true) s → hex_loop fuel s max_len len out = (len, out).
Proof.
  intros Hs. destruct fuel; [done |]. cbn [hex_loop]. rewrite skip_sep_all by done.
  destruct s; [done |]. by destruct (negb _).
Qed.

Lemma hex_loop_spec toks tail fuel max_len len out :
  Forall token_ok toks → Forall (λ c, is_sep c = true) tail →
  (length toks < fuel)%nat → 0 ≤ len ≤ max_len → max_len ≤ blen out →
  let bytes := take (Z.to_nat (max_len - len)) (map tk_byte toks) in
  hex_loop fuel (concat (map render toks) ++ tail) max_len len out
    = (len + blen bytes,
       take (Z.to_nat len) out ++ bytes ++ drop (Z.to_nat (len + blen bytes)) out).
Proof.
  intros Ht Htail. revert fuel len out.
  induction Ht as [|t toks Htok _ IH]; intros fuel len out Hf Hlen Hmax bytes.
  { simpl in bytes. subst bytes. rewrite take_nil. simpl. rewrite hex_loop_seps by done.
    change (blen []) with 0. rewrite Z.add_0_r. by rewrite take_drop. }
  destruct (Z.eq_dec len max_len) as [-> | Hne].
  { subst bytes. rewrite Z.sub_diag. simpl. rewrite hex_loop_full.
    change (blen []) with 0. rewrite Z.add_0_r. by rewrite take_drop. }
  destruct fuel as [|fuel]; [simpl in Hf; lia |].
  cbn [map concat]. rewrite <-app_assoc, hex_loop_token by (done || lia).
  rewrite IH by (simpl in Hf; len). clear IH. subst bytes. cbn [map].
  replace (Z.to_nat (max_len - len)) with (S (Z.to_nat (max_len - (len + 1)))) by lia.
  cbn [take]. set (bs := take (Z.to_nat (max_len - (len + 1))) (map tk_byte toks)).
  assert (Hb : blen (tk_byte t :: bs) = 1 + blen bs) by len. rewrite Hb.
  f_equal; [lia |]. rewrite insert_take by len.
  assert (Hl : length (take (Z.to_nat len) out) = Z.to_nat len) by len.
  rewrite take_app_ge by lia. rewrite Hl.
  replace (Z.to_nat (len + 1) - Z.to_nat len)%nat with 1%nat by lia. cbn [take].
  rewrite take_0, <-app_assoc. f_equal. cbn [app]. f_equal. f_equal.
  rewrite drop_app_ge by (rewrite Hl; pose proof (blen_nonneg bs); lia). rewrite Hl.
  pose proof (blen_nonneg bs).
  replace (Z.to_nat (len + 1 + blen bs) - Z.to_nat len)%nat with (S (Z.to_nat (blen bs))) by lia.
  cbn [drop]. rewrite drop_drop. f_equal. lia.
Qed.

(** Hexadecimal text is parsed back to the bytes it was printed from: whatever
    separators (spaces, tabs, commas, dashes) stand between the bytes, at the end or
    nowhere, and in either letter case, [hex_str_to_bytes] returns the number of
    bytes typed, at most [max_len], and writes exactly those bytes to the front of
    the buffer. *)
Theorem hex_str_to_bytes_roundtrip (toks : list token) (tail rest out : list Z) (max_len : Z)
    (Htok : Forall token_ok toks) (Htail : Forall (λ c, is_sep c = true) tail)
    (Hmax : 0 ≤ max_len ≤ blen out) :
  let bytes := take (Z.to_nat max_len) (map tk_byte toks) in
  hex_str_to_bytes (Some (concat (map render toks) ++ tail ++ 0 :: rest)) (Some out) max_len
    = (blen bytes, Some (bytes ++ drop (length bytes) out)).
Proof.
  intros bytes. unfold hex_str_to_bytes.
  destruct (Z.eqb_spec max_len 0) as [-> | Hne]; [done |].
  assert (Hnn : Forall (λ c, c ≠ 0) (concat (map render toks) ++ tail)).
  { apply Forall_app. split; [|eapply Forall_impl; [exact Htail |]; intros c Hc ->; done].
    induction Htok as [|t toks' [Hs Hb] _ IH]; [constructor |]. cbn [map concat].
    destruct (nibbles_byte _ Hb). apply Forall_app. split; [|done]. apply Forall_app. split.
    - eapply Forall_impl; [exact Hs |]. intros c Hc ->; done.
    - repeat constructor; by apply digit_not_nul. }
  rewrite app_assoc, cstr_app_nul by done.
  rewrite hex_loop_spec; try done; try lia.
  - rewrite Z.sub_0_r. fold bytes. rewrite Z.add_0_l. unfold blen. by rewrite Nat2Z.id.
  - rewrite length_app. apply Nat.lt_succ_r. etrans; [|apply Nat.le_add_r].
    clear. induction toks as [|t toks IH]; [done |]. cbn [map concat length].
    unfold render at 1. rewrite !length_app. simpl. lia.
Qed.

(** "01,A5 ff" with a limit of two bytes. *)
Lemma hex_str_to_bytes_roundtrip_witness :
  hex_str_to_bytes (Some [48; 49; 44; 65; 53; 32; 102; 102; 0]) (Some [9; 9; 9]) 2
    = (2, Some [1; 165; 9]).
Proof.
  pose proof (hex_str_to_bytes_roundtrip
    [mk_token [] true 1; mk_token [44] true 165; mk_token [32] false 255] [] [] [9; 9; 9] 2) as E.
  apply E.
  - repeat constructor; (done || (unfold is_u8; simpl; lia)).
  - constructor.
  - change (blen [9; 9; 9]) with 3. lia.
Defined.

(** * Draining the receive FIFO *)

Section drain.
Context {Dev : Type} `{SerialLaws Dev}.

(** The receive side between two operations: a well-formed ring, and an open device with
    room for [fc] bytes and none received. *)
Record rx_ok (fc : Z) (p : port Dev) : Prop := {
  ro_ring : ring_ok (pt_rb p);
  ro_fifo : dev_pending (pt_dev p) = [];
  ro_room : dev_cap (pt_dev p) = fc ∧ 0 < fc;
  ro_sem : 0 ≤ pt_sem p ≤ RT_SEM_VALUE_MAX
}.

(** Bytes written one by one: those that fit are kept, the rest is dropped. *)
Lemma drain_spec fuel p :
  ring_ok (pt_rb p) → 0 < dev_cap (pt_dev p) → (length (dev_pending (pt_dev p)) < fuel)%nat →
  let p' := drain fuel p in
  ring_ok (pt_rb p') ∧ lb_size (pt_rb p') = lb_size (pt_rb p) ∧ dev_pending (pt_dev p') = []
  ∧ contents (pt_rb p') = contents (pt_rb p)
      ++ take (Z.to_nat (capacity (pt_rb p) - blen (contents (pt_rb p)))) (dev_pending (pt_dev p))
  ∧ pt_sem p' = pt_sem p ∧ pt_bound p' = pt_bound p ∧ pt_baud p' = pt_baud p
  ∧ pt_log p' = pt_log p ∧ dev_cap (pt_dev p') = dev_cap (pt_dev p).
Proof.
  revert p. induction fuel as [|fuel IH]; intros p Hok Hcap Hf; [lia |]. cbn [drain].
  destruct (dev_read1_spec (pt_dev p) Hcap) as (Hh & Ht & Hcp).
  destruct (dev_read1 (pt_dev p)) as [[ch|] d]; simpl in Hh, Ht, Hcp.
  - destruct (dev_pending (pt_dev p)) as [|c bs] eqn:Hp; [done |]. simpl in Hh, Ht. injection Hh as <-.
    destruct (lwrb_write_fifo (pt_rb p) [ch] 1 Hok) as (rb' & Hw & Hok' & Hsz & Hc);
      [unfold is_u32; lia | done |].
    rewrite Hw. cbn [default].
    destruct (IH (pt_set_rb rb' (pt_set_dev d p))) as (H1 & H2 & H3 & H4 & H5 & H6 & H7 & H8 & H9).
    + done.
    + simpl. lia.
    + simpl. rewrite Ht. simpl in Hf. lia.
    + simpl in *. split_and!; try done; [by rewrite H2 | | by rewrite H9]. rewrite H4, Ht, Hc.
      unfold capacity in *. rewrite Hsz. set (free := lb_size (pt_rb p) - 1 - blen (contents (pt_rb p))).
      rewrite <-app_assoc. f_equal. rewrite blen_app.
      destruct (Z.le_gt_cases free 0).
      * rewrite Z.min_l by lia. replace (Z.to_nat free) with 0%nat by lia. simpl.
        change (blen []) with 0. by replace (Z.to_nat (lb_size (pt_rb p) - 1 - (blen (contents (pt_rb p)) + 0)))
          with 0%nat by lia.
      * rewrite Z.min_r by lia. change (take (Z.to_nat 1) [ch]) with [ch]. change (blen [ch]) with 1.
        replace (Z.to_nat free) with (S (Z.to_nat (lb_size (pt_rb p) - 1 - (blen (contents (pt_rb p)) + 1)))) by lia.
        done.
  - destruct (dev_pending (pt_dev p)) as [|c bs] eqn:Hp; [|done]. simpl in *.
    split_and!; try done. by rewrite take_nil, app_nil_r.
Qed.

Lemma drain_all_spec fc p bs :
  rx_ok fc p → arrival_ok fc bs →
  let p' := drain_all (pt_set_dev (dev_rx (pt_dev p) bs).2 p) in
  (dev_rx (pt_dev p) bs).1 = true
  ∧ rx_ok fc p' ∧ lb_size (pt_rb p') = lb_size (pt_rb p) ∧ pt_bound p' = pt_bound p
  ∧ pt_log p' = pt_log p ∧ pt_sem p' = pt_sem p
  ∧ contents (pt_rb p') = contents (pt_rb p)
      ++ take (Z.to_nat (capacity (pt_rb p) - blen (contents (pt_rb p)))) bs.
Proof.
  intros [Hr Hf [Hc Hc0] Hs] [Hu8 Hb] p'. unfold drain_all in p'.
  destruct (dev_rx_spec (pt_dev p) bs Hu8) as (Hi & Hp & Hcp); [lia | rewrite Hf; change (blen []) with 0; lia |].
  destruct (drain_spec (S (length (dev_pending (pt_dev (pt_set_dev (dev_rx (pt_dev p) bs).2 p)))))
    (pt_set_dev (dev_rx (pt_dev p) bs).2 p)) as (H1 & H2 & H3 & H4 & H5 & H6 & H7 & H8 & H9);
    [done | simpl; lia | simpl; lia |].
  fold p' in H1, H2, H3, H4, H5, H6, H7, H8, H9. clearbody p'. simpl in *.
  rewrite Hp, Hf in H4. simpl in H4.
  split_and!; try done. constructor; [done | done | rewrite H9, Hcp; done | by rewrite H5].
Qed.

End drain.
