(* ===== verification/SerialCore.v ===== *)
(** The serial device framework (rt-thread/components/drivers/serial/serial.c, version 1) with
    the device calls of components/drivers/core/device.c in front of it: opening and closing,
    reading and writing in the polling, interrupt and DMA modes, and the interrupt service
    routine. The UART behind it is an interface. *)

From S2P Require Import Prelude.
From S2P Require Import RtDef.
From S2P Require Import Ring.
Open Scope Z_scope.

Definition RT_DEVICE_FLAG_STANDALONE : Z := 8.
Definition RT_DEVICE_FLAG_ACTIVATED : Z := 16.
Definition RT_DEVICE_FLAG_SUSPENDED : Z := 32.
Definition RT_DEVICE_FLAG_STREAM : Z := 64.
Definition RT_DEVICE_FLAG_INT_RX : Z := 256.
Definition RT_DEVICE_FLAG_DMA_RX : Z := 512.
Definition RT_DEVICE_FLAG_INT_TX : Z := 1024.
Definition RT_DEVICE_FLAG_DMA_TX : Z := 2048.
Definition RT_DEVICE_OFLAG_CLOSE : Z := 0.
Definition RT_DEVICE_OFLAG_OPEN : Z := 8.
Definition RT_DEVICE_OFLAG_MASK : Z := 3855.

Definition RT_DEVICE_CTRL_CONFIG : Z := 3.
Definition RT_DEVICE_CTRL_CLOSE : Z := 4.
Definition RT_DEVICE_CTRL_SET_INT : Z := 6.
Definition RT_DEVICE_CTRL_CLR_INT : Z := 7.

(** Setting and clearing a flag. *)
Definition set_flag (flags f : Z) : Z := Z.lor flags f.
Definition clr_flag (flags f : Z) : Z := Z.ldiff flags f.

Record serial_configure : Type := mk_cfg {
  baud_rate : Z;
  data_bits : Z;
  stop_bits : Z;
  parity : Z;
  bit_order : Z;
  invert : Z;
  bufsz : Z;
  flowcontrol : Z
}.

(** * The UART *)

(** The operations of a UART driver ([struct rt_uart_ops]) on the state [HW] of the hardware.
    [uart_wait]: what the hardware has become when the completion of a transmission wakes a
    sender. [uart_arrive] puts bytes on the receive line, [uart_rx] are those not fetched yet. *)
Class UartOps (HW : Type) : Type := {
  uart_configure : HW → serial_configure → Z * HW;
  uart_control : HW → Z → Z → Z * HW;
  uart_putc : HW → Z → Z * HW;
  uart_getc : HW → Z * HW;
  uart_dma_tx : HW → list Z → HW;
  uart_dma_rx : HW → Z → HW;
  uart_wait : HW → HW;
  uart_arrive : HW → list Z → HW;
  uart_rx : HW → list Z
}.

(** [uart_getc] returns the bytes in the order of arrival, and -1 when there is none; sending leaves
    them, and the other operations bring none. *)
Class UartLaws (HW : Type) `{UartOps HW} : Prop := {
  uart_getc_spec h : (uart_getc h).1 = default (-1) (head (uart_rx h)) ∧ uart_rx (uart_getc h).2 = tail (uart_rx h);
  uart_arrive_spec h bs : Forall is_u8 bs → uart_rx (uart_arrive h bs) = uart_rx h ++ bs;
  uart_putc_spec h c : uart_rx (uart_putc h c).2 = uart_rx h;
  uart_configure_spec h cfg : uart_rx h = [] → uart_rx (uart_configure h cfg).2 = [];
  uart_control_spec h cmd arg : uart_rx h = [] → uart_rx (uart_control h cmd arg).2 = []
}.

(** * The device *)

Record rt_serial_rx_fifo : Type := mk_fifo {
  buffer : list Z;
  put_index : Z;
  get_index : Z;
  is_full : bool
}.

(** What [serial_rx] points to: nothing, a FIFO, or the state of a DMA without a FIFO. *)
Inductive serial_rx_t : Type :=
  | RxNone
  | RxFifo (f : rt_serial_rx_fifo)
  | RxDma (activated : bool).

(** What [serial_tx] points to: nothing, a completion, or the queue of buffers of a DMA. *)
Inductive serial_tx_t : Type :=
  | TxNone
  | TxFifo
  | TxDma (activated : bool) (data_queue : list (list Z)).

Record rt_serial_device (HW : Type) : Type := mk_serial {
  flag : Z;
  open_flag : Z;
  ref_count : Z;
  rx_indicate : bool;
  rx_notify : bool;
  config : serial_configure;
  serial_rx : serial_rx_t;
  serial_tx : serial_tx_t;
  hw : HW
}.
Arguments mk_serial {HW}.
Arguments flag {HW}.
Arguments open_flag {HW}.
Arguments ref_count {HW}.
Arguments rx_indicate {HW}.
Arguments rx_notify {HW}.
Arguments config {HW}.
Arguments serial_rx {HW}.
Arguments serial_tx {HW}.
Arguments hw {HW}.

Section serial.
Context {HW : Type} `{UartOps HW}.
Implicit Types (s : rt_serial_device HW) (h : HW).

Definition set_flags s (fl ofl : Z) : rt_serial_device HW :=
  mk_serial fl ofl (ref_count s) (rx_indicate s) (rx_notify s) (config s) (serial_rx s) (serial_tx s) (hw s).
Definition set_ref s (n : Z) : rt_serial_device HW :=
  mk_serial (flag s) (open_flag s) n (rx_indicate s) (rx_notify s) (config s) (serial_rx s) (serial_tx s) (hw s).
Definition set_callbacks s (ind notify : bool) : rt_serial_device HW :=
  mk_serial (flag s) (open_flag s) (ref_count s) ind notify (config s) (serial_rx s) (serial_tx s) (hw s).
Definition set_config s (c : serial_configure) : rt_serial_device HW :=
  mk_serial (flag s) (open_flag s) (ref_count s) (rx_indicate s) (rx_notify s) c (serial_rx s) (serial_tx s) (hw s).
Definition set_rx s (r : serial_rx_t) : rt_serial_device HW :=
  mk_serial (flag s) (open_flag s) (ref_count s) (rx_indicate s) (rx_notify s) (config s) r (serial_tx s) (hw s).
Definition set_tx s (t : serial_tx_t) : rt_serial_device HW :=
  mk_serial (flag s) (open_flag s) (ref_count s) (rx_indicate s) (rx_notify s) (config s) (serial_rx s) t (hw s).
Definition set_hw s h : rt_serial_device HW :=
  mk_serial (flag s) (open_flag s) (ref_count s) (rx_indicate s) (rx_notify s) (config s) (serial_rx s) (serial_tx s) h.
Definition open_with s (f : Z) : rt_serial_device HW := set_flags s (flag s) (set_flag (open_flag s) f).
Definition open_without s (f : Z) : rt_serial_device HW := set_flags s (flag s) (clr_flag (open_flag s) f).
Definition control_hw s (cmd arg : Z) : rt_serial_device HW := set_hw s (uart_control (hw s) cmd arg).2.

(** * Reading and writing *)

(** Polling: every round takes one byte from the hardware or ends the loop. *)
Fixpoint _serial_poll_rx (length : nat) (stream : bool) h : list Z * HW :=
  match length with
  | O => ([], h)
  | S length =>
      let '(ch, h) := uart_getc h in
      if ch =? -1 then ([], h)
      else if stream && (ch =? 10) then ([u8 ch], h)
      else let '(data, h) := _serial_poll_rx length stream h in (u8 ch :: data, h)
  end.

Fixpoint _serial_poll_tx (data : list Z) (stream : bool) h : HW :=
  match data with
  | [] => h
  | c :: data =>
      let h := if (c =? 10) && stream then (uart_putc h 13).2 else h in
      _serial_poll_tx data stream (uart_putc h c).2
  end.

(** One byte out of the FIFO; [None] when there is none. *)
Definition fifo_get (bufsz : Z) (f : rt_serial_rx_fifo) : option (Z * rt_serial_rx_fifo) :=
  if (get_index f =? put_index f) && negb (is_full f) then None else
  let ch := nthZ (buffer f) (get_index f) in
  let get := u16 (get_index f + 1) in
  let get := if bufsz <=? get then 0 else get in
  Some (Z.land ch 255, mk_fifo (buffer f) (put_index f) get false).

Fixpoint _serial_int_rx (length : nat) (bufsz : Z) (f : rt_serial_rx_fifo) : list Z * rt_serial_rx_fifo :=
  match length with
  | O => ([], f)
  | S length =>
      match fifo_get bufsz f with
      | None => ([], f)
      | Some (ch, f) => let '(data, f) := _serial_int_rx length bufsz f in (ch :: data, f)
      end
  end.

(** Sending with interrupts: a byte that the hardware does not take is tried again when the
    completion was signalled. [None] when [fuel] completions were not enough. *)
Fixpoint putc_wait (fuel : nat) h (c : Z) : option HW :=
  let '(r, h) := uart_putc h c in
  if r =? -1 then match fuel with O => None | S fuel => putc_wait fuel (uart_wait h) c end
  else Some h.

Fixpoint _serial_int_tx (fuel : nat) (data : list Z) (stream : bool) h : option HW :=
  match data with
  | [] => Some h
  | c :: data =>
      match (if (c =? 10) && stream then putc_wait fuel h 13 else Some h) with
      | None => None
      | Some h =>
          match putc_wait fuel h c with
          | None => None
          | Some h => _serial_int_tx fuel data stream h
          end
      end
  end.

Definition _serial_fifo_calc_recved_len (bufsz : Z) (f : rt_serial_rx_fifo) : Z :=
  if put_index f =? get_index f then (if negb (is_full f) then 0 else bufsz)
  else if get_index f <? put_index f then put_index f - get_index f
  else bufsz - (get_index f - put_index f).

Definition rt_dma_calc_recved_len (bufsz : Z) (f : rt_serial_rx_fifo) : Z := _serial_fifo_calc_recved_len bufsz f.

(** [None] when the assertion fails. *)
Definition rt_dma_recv_update_get_index (bufsz : Z) (f : rt_serial_rx_fifo) (len : Z) : option rt_serial_rx_fifo :=
  if negb (len <=? rt_dma_calc_recved_len bufsz f) then None else
  let full := if is_full f && negb (len =? 0) then false else is_full f in
  let get := u16 (get_index f + u16 len) in
  let get := if bufsz <=? get then get mod bufsz else get in
  Some (mk_fifo (buffer f) (put_index f) get full).

Definition rt_dma_recv_update_put_index (bufsz : Z) (f : rt_serial_rx_fifo) (len : Z) : rt_serial_rx_fifo :=
  let put := u16 (put_index f + u16 len) in
  let '(put, full) :=
    if get_index f <=? put_index f then
      if bufsz <=? put then
        let put := put mod bufsz in (put, if get_index f <=? put then true else is_full f)
      else (put, is_full f)
    else if get_index f <=? put then (if bufsz <=? put then put mod bufsz else put, true)
    else (put, is_full f) in
  mk_fifo (buffer f) put (if full then put else get_index f) full.

(** Reading after DMA with a FIFO: the bytes, in one or two stretches. *)
Definition dma_fifo_rx (length : Z) (bufsz : Z) (f : rt_serial_rx_fifo) : option (list Z * rt_serial_rx_fifo) :=
  let fifo_recved_len := rt_dma_calc_recved_len bufsz f in
  let recv_len := if length <? s32 fifo_recved_len then length else fifo_recved_len in
  let data :=
    if get_index f + recv_len <? bufsz
    then take (Z.to_nat recv_len) (drop (Z.to_nat (get_index f)) (buffer f))
    else take (Z.to_nat (bufsz - get_index f)) (drop (Z.to_nat (get_index f)) (buffer f))
         ++ take (Z.to_nat (recv_len + get_index f - bufsz)) (buffer f) in
  match rt_dma_recv_update_get_index bufsz f recv_len with
  | None => None
  | Some f => Some (data, f)
  end.

(** The number of bytes the call reports, and the bytes that are in the buffer when it returns:
    a DMA without a FIFO stores them later. [None] when an assertion fails. *)
Definition _serial_dma_rx s (length : Z) : option (Z * list Z * rt_serial_device HW) :=
  if bufsz (config s) =? 0 then
    match serial_rx s with
    | RxDma false => Some (length, [], set_hw (set_rx s (RxDma true)) (uart_dma_rx (hw s) length))
    | RxDma true => Some (0, [], s)
    | _ => None
    end
  else
    match serial_rx s with
    | RxFifo f =>
        match dma_fifo_rx length (bufsz (config s)) f with
        | Some (data, f) => Some (blen data, data, set_rx s (RxFifo f))
        | None => None
        end
    | _ => None
    end.

(** The queue has room for eight buffers; [None] when it is full and the caller has to wait. *)
Definition _serial_dma_tx s (data : list Z) : option (Z * rt_serial_device HW) :=
  match serial_tx s with
  | TxDma activated queue =>
      if 8 <=? blen queue then None else
      let queue := queue ++ [data] in
      if activated then Some (blen data, set_tx s (TxDma true queue))
      else Some (blen data, set_hw (set_tx s (TxDma true queue)) (uart_dma_tx (hw s) data))
  | _ => None
  end.

Definition rt_serial_read s (size : Z) : option (Z * list Z * rt_serial_device HW) :=
  if size =? 0 then Some (0, [], s) else
  if flag_set (open_flag s) RT_DEVICE_FLAG_INT_RX then
    match serial_rx s with
    | RxFifo f =>
        let '(data, f) := _serial_int_rx (Z.to_nat size) (bufsz (config s)) f in
        Some (blen data, data, set_rx s (RxFifo f))
    | _ => None
    end
  else if flag_set (open_flag s) RT_DEVICE_FLAG_DMA_RX then _serial_dma_rx s size
  else
    let '(data, h) := _serial_poll_rx (Z.to_nat size) (flag_set (open_flag s) RT_DEVICE_FLAG_STREAM) (hw s) in
    Some (blen data, data, set_hw s h).

Definition rt_serial_write (fuel : nat) s (data : list Z) : option (Z * rt_serial_device HW) :=
  let stream := flag_set (open_flag s) RT_DEVICE_FLAG_STREAM in
  match data with
  | [] => Some (0, s)
  | _ =>
      if flag_set (open_flag s) RT_DEVICE_FLAG_INT_TX then
        match serial_tx s with
        | TxFifo => (λ h, (blen data, set_hw s h)) <$> _serial_int_tx fuel data stream (hw s)
        | _ => None
        end
      else if flag_set (open_flag s) RT_DEVICE_FLAG_DMA_TX then _serial_dma_tx s data
      else Some (blen data, set_hw s (_serial_poll_tx data stream (hw s)))
  end.

(** * Opening and closing *)

Definition rt_serial_init s : Z * rt_serial_device HW :=
  let s := set_callbacks (set_tx (set_rx s RxNone) TxNone) (rx_indicate s) false in
  let '(result, h) := uart_configure (hw s) (config s) in
  (result, set_hw s h).

Definition new_fifo (bufsz : Z) : rt_serial_rx_fifo := mk_fifo (replicate (Z.to_nat bufsz) 0) 0 0 false.

(** The receiving side of [rt_serial_open]; [alloc] says whether [rt_malloc] succeeds. *)
Definition open_rx (alloc : bool) s (oflag : Z) : option (rt_serial_device HW) :=
  match serial_rx s with
  | RxNone =>
      if flag_set oflag RT_DEVICE_FLAG_INT_RX then
        if negb alloc then None else
        let s := open_with (set_rx s (RxFifo (new_fifo (bufsz (config s))))) RT_DEVICE_FLAG_INT_RX in
        Some (control_hw s RT_DEVICE_CTRL_SET_INT RT_DEVICE_FLAG_INT_RX)
      else if flag_set oflag RT_DEVICE_FLAG_DMA_RX then
        if negb alloc then None else
        if bufsz (config s) =? 0 then Some (open_with (set_rx s (RxDma false)) RT_DEVICE_FLAG_DMA_RX)
        else
          let s := set_rx s (RxFifo (new_fifo (bufsz (config s)))) in
          Some (open_with (control_hw s RT_DEVICE_CTRL_CONFIG RT_DEVICE_FLAG_DMA_RX) RT_DEVICE_FLAG_DMA_RX)
      else Some s
  | _ =>
      Some (if flag_set oflag RT_DEVICE_FLAG_INT_RX then open_with s RT_DEVICE_FLAG_INT_RX
            else if flag_set oflag RT_DEVICE_FLAG_DMA_RX then open_with s RT_DEVICE_FLAG_DMA_RX
            else s)
  end.

Definition open_tx (alloc : bool) s (oflag : Z) : option (rt_serial_device HW) :=
  match serial_tx s with
  | TxNone =>
      if flag_set oflag RT_DEVICE_FLAG_INT_TX then
        if negb alloc then None else
        Some (control_hw (open_with (set_tx s TxFifo) RT_DEVICE_FLAG_INT_TX) RT_DEVICE_CTRL_SET_INT RT_DEVICE_FLAG_INT_TX)
      else if flag_set oflag RT_DEVICE_FLAG_DMA_TX then
        if negb alloc then None else
        Some (control_hw (open_with (set_tx s (TxDma false [])) RT_DEVICE_FLAG_DMA_TX) RT_DEVICE_CTRL_CONFIG RT_DEVICE_FLAG_DMA_TX)
      else Some s
  | _ =>
      Some (if flag_set oflag RT_DEVICE_FLAG_INT_TX then open_with s RT_DEVICE_FLAG_INT_TX
            else if flag_set oflag RT_DEVICE_FLAG_DMA_TX then open_with s RT_DEVICE_FLAG_DMA_TX
            else s)
  end.

(** A mode that is asked for and that the device does not have. *)
Definition lacks s (oflag f : Z) : bool := flag_set oflag f && negb (flag_set (flag s) f).

Definition rt_serial_open (alloc : bool) s (oflag : Z) : option (Z * rt_serial_device HW) :=
  if lacks s oflag RT_DEVICE_FLAG_DMA_RX || lacks s oflag RT_DEVICE_FLAG_DMA_TX
     || lacks s oflag RT_DEVICE_FLAG_INT_RX || lacks s oflag RT_DEVICE_FLAG_INT_TX
  then Some (- RT_EIO, s) else
  let stream_flag :=
    if flag_set oflag RT_DEVICE_FLAG_STREAM || flag_set (open_flag s) RT_DEVICE_FLAG_STREAM then RT_DEVICE_FLAG_STREAM else 0 in
  let s := set_flags s (flag s) (Z.land oflag 255) in
  match open_rx alloc s oflag with
  | None => None
  | Some s =>
      match open_tx alloc s oflag with
      | None => None
      | Some s => Some (RT_EOK, open_with s stream_flag)
      end
  end.

(** [None] when an assertion fails. *)
Definition close_rx s : option (rt_serial_device HW) :=
  let stop s f := open_without (control_hw s RT_DEVICE_CTRL_CLR_INT f) f in
  if flag_set (open_flag s) RT_DEVICE_FLAG_INT_RX then
    match serial_rx s with RxNone => None | _ => Some (set_rx (stop s RT_DEVICE_FLAG_INT_RX) RxNone) end
  else if flag_set (open_flag s) RT_DEVICE_FLAG_DMA_RX then
    match serial_rx s with RxNone => None | _ => Some (set_rx (stop s RT_DEVICE_FLAG_DMA_RX) RxNone) end
  else Some s.

Definition close_tx s : option (rt_serial_device HW) :=
  let stop s f := open_without (control_hw s RT_DEVICE_CTRL_CLR_INT f) f in
  if flag_set (open_flag s) RT_DEVICE_FLAG_INT_TX then
    match serial_tx s with TxNone => None | _ => Some (set_tx (stop s RT_DEVICE_FLAG_INT_TX) TxNone) end
  else if flag_set (open_flag s) RT_DEVICE_FLAG_DMA_TX then
    match serial_tx s with TxNone => None | _ => Some (set_tx (stop s RT_DEVICE_FLAG_DMA_TX) TxNone) end
  else Some s.

Definition rt_serial_close s : option (Z * rt_serial_device HW) :=
  if 1 <? ref_count s then Some (RT_EOK, s) else
  match close_rx s with
  | None => None
  | Some s =>
      match close_tx s with
      | None => None
      | Some s =>
          let s := control_hw s RT_DEVICE_CTRL_CLOSE 0 in
          Some (RT_EOK, set_flags s (clr_flag (flag s) RT_DEVICE_FLAG_ACTIVATED) (open_flag s))
      end
  end.

(** The commands of [rt_serial_control] in a build without the POSIX terminal. *)
Inductive serial_cmd : Type :=
  | CtrlSuspend
  | CtrlResume
  | CtrlConfig (args : option serial_configure)
  | CtrlNotifySet (args : option bool)
  | CtrlConsoleOflag
  | CtrlOther (cmd arg : Z).

Definition rt_serial_control s (cmd : serial_cmd) : Z * rt_serial_device HW :=
  match cmd with
  | CtrlSuspend => (RT_EOK, set_flags s (set_flag (flag s) RT_DEVICE_FLAG_SUSPENDED) (open_flag s))
  | CtrlResume => (RT_EOK, set_flags s (clr_flag (flag s) RT_DEVICE_FLAG_SUSPENDED) (open_flag s))
  | CtrlConfig None => (RT_EOK, s)
  | CtrlConfig (Some pconfig) =>
      if negb (bufsz pconfig =? bufsz (config s)) && negb (ref_count s =? 0) then (- RT_EBUSY, s) else
      let s := set_config s pconfig in
      if negb (ref_count s =? 0) then (RT_EOK, set_hw s (uart_configure (hw s) pconfig).2) else (RT_EOK, s)
  | CtrlNotifySet None => (RT_EOK, s)
  | CtrlNotifySet (Some notify) => (RT_EOK, set_callbacks s (rx_indicate s) notify)
  | CtrlConsoleOflag => (RT_EOK, s)
  | CtrlOther cmd arg => ((uart_control (hw s) cmd arg).1, control_hw s cmd arg)
  end.

(** * The interrupt service routine *)

(** One received byte: when the FIFO would look empty the oldest byte is given up. *)
Definition fifo_put (bufsz : Z) (f : rt_serial_rx_fifo) (ch : Z) : rt_serial_rx_fifo :=
  let buf := <[Z.to_nat (put_index f) := u8 ch]> (buffer f) in
  let put := u16 (put_index f + 1) in
  let put := if bufsz <=? put then 0 else put in
  if put =? get_index f then
    let get := u16 (get_index f + 1) in
    mk_fifo buf put (if bufsz <=? get then 0 else get) true
  else mk_fifo buf put (get_index f) (is_full f).

(** The loop over the bytes the hardware has; one more round than there are bytes ends it. *)
Fixpoint isr_rx_loop (fuel : nat) (bufsz : Z) (f : rt_serial_rx_fifo) h : rt_serial_rx_fifo * HW :=
  match fuel with
  | O => (f, h)
  | S fuel =>
      let '(ch, h) := uart_getc h in
      if ch =? -1 then (f, h) else isr_rx_loop fuel bufsz (fifo_put bufsz f ch) h
  end.

(** The callback an interrupt ends with. *)
Inductive callback : Type :=
  | NoCallback
  | Notify
  | RxIndicate (size : Z)
  | TxComplete (data : list Z).

Definition isr_rx_ind s : option (callback * rt_serial_device HW) :=
  match serial_rx s with
  | RxFifo f =>
      let '(f, h) := isr_rx_loop (S (length (uart_rx (hw s)))) (bufsz (config s)) f (hw s) in
      let s := set_hw (set_rx s (RxFifo f)) h in
      let rx_length :=
        if get_index f <=? put_index f then put_index f - get_index f
        else bufsz (config s) - (get_index f - put_index f) in
      Some (if rx_notify s then Notify
            else if rx_indicate s && negb (rx_length =? 0) then RxIndicate rx_length
            else NoCallback, s)
  | _ => None
  end.

(** The next buffer of the queue, if any, is handed to the DMA; [last] is the one it has sent.
    The callback is called if one is registered; an empty queue has no buffer to report. *)
Definition isr_tx_dmadone s : option (callback * rt_serial_device HW) :=
  match serial_tx s with
  | TxDma _ (last :: queue) =>
      let s := match queue with
               | data :: _ => set_hw (set_tx s (TxDma true queue)) (uart_dma_tx (hw s) data)
               | [] => set_tx s (TxDma false [])
               end in
      Some (TxComplete last, s)
  | _ => None
  end.

Definition isr_rx_dmadone s (len : Z) : option (callback * rt_serial_device HW) :=
  if bufsz (config s) =? 0 then
    match serial_rx s with
    | RxDma _ => if rx_indicate s then Some (RxIndicate len, set_rx s (RxDma false)) else None
    | _ => None
    end
  else
    match serial_rx s with
    | RxFifo f =>
        let f := rt_dma_recv_update_put_index (bufsz (config s)) f len in
        let len := rt_dma_calc_recved_len (bufsz (config s)) f in
        Some (if rx_indicate s then RxIndicate len else NoCallback, set_rx s (RxFifo f))
    | _ => None
    end.

Definition RT_SERIAL_EVENT_RX_IND : Z := 1.
Definition RT_SERIAL_EVENT_TX_DONE : Z := 2.
Definition RT_SERIAL_EVENT_RX_DMADONE : Z := 3.
Definition RT_SERIAL_EVENT_TX_DMADONE : Z := 4.

(** [None] when an assertion fails or a structure is used that is not there. The completion that
    [TX_DONE] signals is [uart_wait]. *)
Definition rt_hw_serial_isr s (event : Z) : option (callback * rt_serial_device HW) :=
  let kind := Z.land event 255 in
  if kind =? RT_SERIAL_EVENT_RX_IND then isr_rx_ind s
  else if kind =? RT_SERIAL_EVENT_TX_DONE then Some (NoCallback, s)
  else if kind =? RT_SERIAL_EVENT_TX_DMADONE then isr_tx_dmadone s
  else if kind =? RT_SERIAL_EVENT_RX_DMADONE then isr_rx_dmadone s (Z.shiftr event 8)
  else Some (NoCallback, s).

(** * Device calls *)

Definition rt_device_open (alloc : bool) s (oflag : Z) : option (Z * rt_serial_device HW) :=
  let '(result, s) :=
    if flag_set (flag s) RT_DEVICE_FLAG_ACTIVATED then (RT_EOK, s) else
    let '(result, s) := rt_serial_init s in
    if negb (result =? RT_EOK) then (result, s)
    else (RT_EOK, set_flags s (set_flag (flag s) RT_DEVICE_FLAG_ACTIVATED) (open_flag s)) in
  if negb (result =? RT_EOK) then Some (result, s) else
  let opened := flag_set (open_flag s) RT_DEVICE_OFLAG_OPEN in
  if flag_set (flag s) RT_DEVICE_FLAG_STANDALONE && opened then Some (- RT_EBUSY, s) else
  match (if negb opened || negb (Z.land (open_flag s) RT_DEVICE_OFLAG_MASK =? Z.land oflag RT_DEVICE_OFLAG_MASK)
         then rt_serial_open alloc s oflag else Some (RT_EOK, s)) with
  | None => None
  | Some (result, s) =>
      if (result =? RT_EOK) || (result =? - RT_ENOSYS) then
        let s := set_ref (open_with s RT_DEVICE_OFLAG_OPEN) (u8 (ref_count s + 1)) in
        if ref_count s =? 0 then None else Some (result, s)
      else Some (result, s)
  end.

Definition rt_device_close s : option (Z * rt_serial_device HW) :=
  if ref_count s =? 0 then Some (- RT_ERROR, s) else
  let s := set_ref s (ref_count s - 1) in
  if negb (ref_count s =? 0) then Some (RT_EOK, s) else
  match rt_serial_close s with
  | None => None
  | Some (result, s) =>
      Some (result, if (result =? RT_EOK) || (result =? - RT_ENOSYS) then set_flags s (flag s) RT_DEVICE_OFLAG_CLOSE else s)
  end.

Definition rt_device_read s (size : Z) : option (Z * list Z * rt_serial_device HW) :=
  if ref_count s =? 0 then Some (0, [], s) else rt_serial_read s size.

Definition rt_device_write (fuel : nat) s (data : list Z) : option (Z * rt_serial_device HW) :=
  if ref_count s =? 0 then Some (0, s) else rt_serial_write fuel s data.

Definition rt_device_control s (cmd : serial_cmd) : Z * rt_serial_device HW := rt_serial_control s cmd.

Definition rt_device_set_rx_indicate s (rx_ind : bool) : Z * rt_serial_device HW :=
  (RT_EOK, set_callbacks s rx_ind (rx_notify s)).

(** [found]: a device of that name exists. *)
Definition rt_device_register (found : bool) s (fl : Z) : Z * rt_serial_device HW :=
  if found then (- RT_ERROR, s) else (RT_EOK, set_ref (set_flags s (u16 fl) 0) 0).

Definition rt_hw_serial_register (found : bool) s (fl : Z) : Z * rt_serial_device HW :=
  rt_device_register found (set_callbacks s false (rx_notify s)) fl.

End serial.

(** * The FIFO in interrupt mode *)

(** [n] is the size of the buffer. *)
Record fifo_ok (n : Z) (f : rt_serial_rx_fifo) : Prop := {
  f_size : 2 ≤ n ≤ 65535;
  f_len : blen (buffer f) = n;
  f_put : 0 ≤ put_index f < n;
  f_get : 0 ≤ get_index f < n;
  f_full : is_full f = true → get_index f = ring_adv n (put_index f) 1;
  f_bytes : Forall is_u8 (buffer f)
}.

(** The bytes in the FIFO, oldest first. *)
Definition fifo_count (n : Z) (f : rt_serial_rx_fifo) : Z := ring_off n (get_index f) (put_index f).
Definition fifo_contents (n : Z) (f : rt_serial_rx_fifo) : list Z := ring_view (buffer f) (get_index f) (fifo_count n f).

Lemma fifo_count_range n f : fifo_ok n f → 0 ≤ fifo_count n f < n.
Proof. intros []. unfold fifo_count, ring_off. zbool. Qed.

Lemma fifo_contents_blen n f : fifo_ok n f → blen (fifo_contents n f) = fifo_count n f.
Proof. intros Hf. pose proof (fifo_count_range n f Hf). destruct Hf. apply ring_view_blen; lia. Qed.

Lemma new_fifo_ok n : 2 ≤ n ≤ 65535 → fifo_ok n (new_fifo n) ∧ fifo_contents n (new_fifo n) = [].
Proof.
  intros Hn. split; [|done]. constructor; simpl; [lia | len | lia | lia | done |].
  apply Forall_replicate. unfold is_u8. lia.
Qed.

Lemma fifo_get_spec n f :
  fifo_ok n f →
  match fifo_contents n f with
  | [] => fifo_get n f = None
  | c :: q => ∃ f', fifo_get n f = Some (c, f') ∧ fifo_ok n f' ∧ fifo_contents n f' = q
  end.
Proof.
  intros Hf. pose proof (fifo_count_range n f Hf) as Hc. pose proof (fifo_contents_blen n f Hf) as Hb. pose proof Hf as [Hn Hl Hp Hg Hfull Hby].
  unfold fifo_get. destruct (fifo_contents n f) as [|c q] eqn:E.
  - assert (Ez : fifo_count n f = 0) by (by rewrite <-Hb). unfold fifo_count, ring_off in Ez.
    assert (Egp : get_index f = put_index f) by zbool. rewrite Egp, Z.eqb_refl.
    destruct (is_full f); [|done]. specialize (Hfull eq_refl). unfold ring_adv in Hfull. zbool.
  - assert (Hpos : 0 < fifo_count n f) by (rewrite <-Hb; len).
    replace ((get_index f =? put_index f) && negb (is_full f)) with false
      by (symmetry; apply andb_false_iff; left; apply Z.eqb_neq; unfold fifo_count, ring_off in Hpos; zbool).
    assert (Ec : nthZ (buffer f) (get_index f) = c).
    { replace (get_index f) with (ring_idx (blen (buffer f)) (get_index f) 0) by (unfold ring_idx; zbool).
      rewrite (ring_view_nth _ _ (fifo_count n f)) by lia. fold (fifo_contents n f). by rewrite E. }
    assert (Hc8 : is_u8 c).
    { rewrite <-Ec. unfold nthZ. destruct (lookup_lt_is_Some_2 (buffer f) (Z.to_nat (get_index f))) as [x Hx]; [unfold blen in *; lia |].
      rewrite Hx. simpl. by apply (Forall_lookup_1 _ _ _ _ Hby Hx). }
    rewrite Ec. change 255 with (Z.ones 8). rewrite Z.land_ones by lia. change (2 ^ 8) with 256. rewrite Z.mod_small by exact Hc8. rewrite u16_small by (unfold is_u16; lia).
    set (g := if n <=? get_index f + 1 then 0 else get_index f + 1).
    assert (Eg : g = ring_adv n (get_index f) 1) by (unfold g, ring_adv; zbool). clearbody g.
    assert (Ecnt : ring_off n g (put_index f) = fifo_count n f - 1)
      by (rewrite Eg; unfold fifo_count, ring_off, ring_adv in *; zbool).
    eexists. split; [done |]. split; [constructor; simpl; try done; rewrite Eg; apply ring_adv_range; lia |].
    unfold fifo_contents, fifo_count. simpl. rewrite Ecnt, Eg. rewrite <-Hl at 1. rewrite ring_view_drop by lia.
    fold (fifo_contents n f). rewrite E. done.
Qed.

Lemma fifo_put_spec n f ch :
  fifo_ok n f → fifo_ok n (fifo_put n f ch) ∧ fifo_contents n (fifo_put n f ch) = keep_last (n - 1) (fifo_contents n f ++ [u8 ch]).
Proof.
  intros Hf. pose proof (fifo_count_range n f Hf) as Hc. pose proof (fifo_contents_blen n f Hf) as Hb. pose proof Hf as [Hn Hl Hp Hg Hfull Hby].
  assert (Hput : put_index f = ring_idx (blen (buffer f)) (get_index f) (fifo_count n f)) by (unfold fifo_count, ring_off, ring_idx in *; zbool).
  assert (Hv : ring_view (<[Z.to_nat (put_index f) := u8 ch]> (buffer f)) (get_index f) (fifo_count n f + 1) = fifo_contents n f ++ [u8 ch]).
  { rewrite insert_ring_put by lia. rewrite Hput. by rewrite ring_view_put by (len || lia). }
  assert (Hl' : blen (<[Z.to_nat (put_index f) := u8 ch]> (buffer f)) = n) by (unfold blen; by rewrite length_insert).
  assert (Hby' : Forall is_u8 (<[Z.to_nat (put_index f) := u8 ch]> (buffer f))) by (apply Forall_insert; [done | apply u8_range]).
  unfold fifo_put. rewrite u16_small by (unfold is_u16; lia). set (buf := <[_ := _]> (buffer f)) in *.
  set (p := if n <=? put_index f + 1 then 0 else put_index f + 1).
  assert (Ep : p = ring_adv n (put_index f) 1) by (unfold p, ring_adv; zbool). clearbody p.
  destruct (Z.eqb_spec p (get_index f)) as [Epg|Hne].
  - rewrite u16_small by (unfold is_u16; lia). set (g := if n <=? get_index f + 1 then 0 else get_index f + 1).
    assert (Eg : g = ring_adv n (get_index f) 1) by (unfold g, ring_adv; zbool). clearbody g.
    assert (Ecount : fifo_count n f = n - 1) by (unfold fifo_count, ring_off, ring_adv in *; zbool).
    split; [constructor; simpl; try done; try (rewrite ?Eg, ?Ep; apply ring_adv_range; lia); intros _; congruence |].
    unfold fifo_contents at 1, fifo_count. simpl. assert (ring_off n g p = fifo_count n f + 1 - 1) as ->
      by (rewrite Ecount, Eg, Epg; unfold ring_off, ring_adv; zbool).
    rewrite Eg, <-Hl' at 1. rewrite ring_view_drop by lia. rewrite Hv. unfold keep_last. f_equal. len.
  - assert (Ecount : ring_off n (get_index f) p = fifo_count n f + 1) by (rewrite Ep in *; unfold fifo_count, ring_off, ring_adv in *; zbool).
    assert (fifo_count n f < n - 1) by (rewrite Ep in *; unfold fifo_count, ring_off, ring_adv in *; zbool).
    split.
    + constructor; simpl; try done; [rewrite Ep; apply ring_adv_range; lia |]. intros Ef. specialize (Hfull Ef). congruence.
    + unfold fifo_contents at 1, fifo_count. simpl. rewrite Ecount, Hv. rewrite keep_last_all; [done |]. len.
Qed.

Lemma int_rx_spec k n f :
  fifo_ok n f → ∃ f', _serial_int_rx k n f = (take k (fifo_contents n f), f') ∧ fifo_ok n f' ∧ fifo_contents n f' = drop k (fifo_contents n f).
Proof.
  revert f. induction k as [|k IH]; intros f Hf; cbn [_serial_int_rx]; [by exists f; rewrite drop_0 |].
  pose proof (fifo_get_spec n f Hf) as Hget. destruct (fifo_contents n f) as [|c q] eqn:E.
  - rewrite Hget. exists f. by rewrite E.
  - destruct Hget as (f1 & -> & Hf1 & E1). destruct (IH f1 Hf1) as (f' & -> & Hf' & E'). exists f'. by rewrite E', E1.
Qed.

Section interrupt_mode.
Context {HW : Type} `{UartLaws HW}.
Implicit Types (s : rt_serial_device HW) (h : HW).

Lemma isr_rx_loop_spec fuel n f h :
  fifo_ok n f → Forall is_u8 (uart_rx h) → (length (uart_rx h) < fuel)%nat →
  let '(f', h') := isr_rx_loop fuel n f h in
  fifo_ok n f' ∧ uart_rx h' = [] ∧ fifo_contents n f' = keep_last (n - 1) (fifo_contents n f ++ uart_rx h).
Proof.
  revert f h. induction fuel as [|fuel IH]; intros f h Hf Hb Hl; [lia |]. cbn [isr_rx_loop].
  pose proof (f_size n f Hf) as Hn. destruct (uart_getc_spec h) as [Eg Et].
  destruct (uart_getc h) as [ch h1]. simpl in Eg, Et. destruct (uart_rx h) as [|c bs] eqn:E; simpl in Eg, Et; subst ch.
  - split_and!; [done | done |]. rewrite app_nil_r, keep_last_all; [done |]. rewrite fifo_contents_blen by done.
    pose proof (fifo_count_range n f Hf). lia.
  - apply Forall_cons in Hb as [Hc Hb]. destruct (Z.eqb_spec c (-1)) as [->|_]; [by destruct Hc |].
    destruct (fifo_put_spec n f c Hf) as [Hf1 E1]. specialize (IH (fifo_put n f c) h1 Hf1). rewrite Et in IH.
    specialize (IH Hb ltac:(simpl in Hl; lia)). destruct (isr_rx_loop fuel n (fifo_put n f c) h1) as [f' h'].
    destruct IH as (H1 & H2 & H3). split_and!; [done | done |]. rewrite H3, E1, keep_last_app by lia.
    rewrite <-app_assoc. rewrite u8_small by done. done.
Qed.

(** The device is open for reception with interrupts, and the hardware has no bytes left. *)
Record int_ready (n : Z) s : Prop := {
  i_ref : ref_count s ≠ 0;
  i_flag : flag_set (open_flag s) RT_DEVICE_FLAG_INT_RX = true;
  i_size : bufsz (config s) = n;
  i_notify : rx_notify s = false;
  i_fifo : ∃ f, serial_rx s = RxFifo f ∧ fifo_ok n f;
  i_hw : uart_rx (hw s) = []
}.

(** The received bytes that were not read yet. *)
Definition serial_pending s : list Z :=
  match serial_rx s with RxFifo f => fifo_contents (bufsz (config s)) f | _ => [] end.

(** The callback that announces [q]. *)
Definition indication (ind : bool) (q : list Z) : callback :=
  if ind && negb (blen q =? 0) then RxIndicate (blen q) else NoCallback.

(** An interrupt brings bytes. *)
Definition serial_interrupt s (bs : list Z) : option (callback * rt_serial_device HW) :=
  rt_hw_serial_isr (set_hw s (uart_arrive (hw s) bs)) RT_SERIAL_EVENT_RX_IND.

Lemma serial_interrupt_spec n s bs :
  int_ready n s → Forall is_u8 bs →
  ∃ s', serial_interrupt s bs = Some (indication (rx_indicate s) (serial_pending s'), s') ∧ int_ready n s'
    ∧ serial_pending s' = keep_last (n - 1) (serial_pending s ++ bs) ∧ rx_indicate s' = rx_indicate s ∧ open_flag s' = open_flag s.
Proof.
  intros [Hr Hfl Hn Hno (f & Ef & Hf) Hh] Hbs. unfold serial_interrupt, rt_hw_serial_isr.
  change (Z.land RT_SERIAL_EVENT_RX_IND 255 =? RT_SERIAL_EVENT_RX_IND) with true. cbv iota.
  unfold isr_rx_ind. cbn [serial_rx set_hw config hw]. rewrite Ef, Hn.
  pose proof (isr_rx_loop_spec (S (length (uart_rx (uart_arrive (hw s) bs)))) n f (uart_arrive (hw s) bs) Hf) as Hl.
  rewrite (uart_arrive_spec (hw s) bs Hbs), Hh in Hl |- *. rewrite app_nil_l in Hl |- *. specialize (Hl Hbs ltac:(lia)).
  destruct (isr_rx_loop _ n f _) as [f' h']. destruct Hl as (Hf' & Hh' & Hc).
  exists (set_hw (set_rx s (RxFifo f')) h'). unfold serial_pending. simpl. rewrite Ef, Hn, Hno. pose proof (fifo_contents_blen n f' Hf') as Hb.
  split; [|split; [constructor; simpl; eauto | done]]. do 2 f_equal. unfold indication. rewrite Hb.
  replace (if get_index f' <=? put_index f' then _ else _) with (fifo_count n f'); [done |]. unfold fifo_count, ring_off. zbool.
Qed.

Lemma serial_read_spec n s k :
  int_ready n s → 0 ≤ k →
  ∃ s', rt_device_read s k = Some (blen (take (Z.to_nat k) (serial_pending s)), take (Z.to_nat k) (serial_pending s), s')
    ∧ int_ready n s' ∧ serial_pending s' = drop (Z.to_nat k) (serial_pending s) ∧ rx_indicate s' = rx_indicate s ∧ open_flag s' = open_flag s.
Proof.
  intros Hs Hk. pose proof Hs as [Hr Hfl Hn Hno (f & Ef & Hf) Hh]. unfold rt_device_read, rt_serial_read, serial_pending.
  destruct (Z.eqb_spec (ref_count s) 0); [done |]. destruct (Z.eqb_spec k 0) as [->|_].
  { exists s. simpl. by rewrite drop_0. }
  rewrite Hfl, Ef, Hn. destruct (int_rx_spec (Z.to_nat k) n f Hf) as (f' & -> & Hf' & Ec).
  eexists. split; [done |]. split; [constructor; simpl; eauto |]. simpl. by rewrite Hn.
Qed.

Lemma poll_tx_rx data stream h : uart_rx (_serial_poll_tx data stream h) = uart_rx h.
Proof.
  revert h. induction data as [|c data IH]; intros h; simpl; [done |].
  rewrite IH, uart_putc_spec. by destruct ((c =? 10) && stream); rewrite ?uart_putc_spec.
Qed.

(** * The interrupt mode is a queue *)

(** Interrupts that bring bytes, and reads. *)
Inductive int_op : Type :=
  | IArrive (bs : list Z)
  | IRead (n : Z).

Inductive int_out : Type :=
  | OCall (c : callback)
  | OData (r : Z) (data : list Z).

Definition int_exec s (o : int_op) : option (int_out * rt_serial_device HW) :=
  match o with
  | IArrive bs => (λ x : callback * rt_serial_device HW, (OCall x.1, x.2)) <$> serial_interrupt s bs
  | IRead n => (λ x : Z * list Z * rt_serial_device HW, (OData x.1.1 x.1.2, x.2)) <$> rt_device_read s n
  end.

Fixpoint int_run s (ops : list int_op) : option (list int_out * rt_serial_device HW) :=
  match ops with
  | [] => Some ([], s)
  | o :: ops =>
      match int_exec s o with
      | None => None
      | Some (out, s) => (λ x : list int_out * rt_serial_device HW, (out :: x.1, x.2)) <$> int_run s ops
      end
  end.

Definition int_op_ok (o : int_op) : Prop :=
  match o with IArrive bs => Forall is_u8 bs | IRead n => 0 ≤ n < 2147483648 end.

End interrupt_mode.

(** The specification: a queue of [cap] places that gives up its oldest bytes. *)
Definition sq_exec (cap : Z) (ind : bool) (o : int_op) (q : list Z) : int_out * list Z :=
  match o with
  | IArrive bs => let q := keep_last cap (q ++ bs) in (OCall (indication ind q), q)
  | IRead n => (OData (blen (take (Z.to_nat n) q)) (take (Z.to_nat n) q), drop (Z.to_nat n) q)
  end.

Fixpoint sq_run (cap : Z) (ind : bool) (ops : list int_op) (q : list Z) : list int_out * list Z :=
  match ops with
  | [] => ([], q)
  | o :: ops =>
      let '(out, q) := sq_exec cap ind o q in
      let '(outs, q) := sq_run cap ind ops q in
      (out :: outs, q)
  end.

Section queue.
Context {HW : Type} `{UartLaws HW}.

(** C38. Reception with interrupts is a queue that gives up its oldest bytes. For any UART that
    returns the bytes in the order of arrival, and any sequence of interrupts, each with any
    number of bytes, and reads of a device that is open for reception with interrupts, the
    device does what a queue of [n - 1] places does, where [n] is the size of its buffer: reads
    return the oldest bytes, the callback reports how many there are, and is not called when there
    are none; every call returns. *)
Theorem serial_int_refines_queue (n : Z) (s : rt_serial_device HW) (ops : list int_op)
    (Hready : int_ready n s) (Hops : Forall int_op_ok ops) :
  ∃ outs s', int_run s ops = Some (outs, s') ∧ int_ready n s'
    ∧ (outs, serial_pending s') = sq_run (n - 1) (rx_indicate s) ops (serial_pending s).
Proof.
  revert s Hready. induction Hops as [|o ops Ho _ IH]; intros s Hs; [by exists [], s |]. cbn [int_run sq_run]. destruct o as [bs|k]; simpl in Ho |- *.
  - destruct (serial_interrupt_spec n s bs Hs Ho) as (s1 & -> & Hs1 & Hp1 & Hi1 & _). simpl.
    destruct (IH s1 Hs1) as (outs & s' & -> & Hs' & Hq). rewrite <-Hp1, <-Hi1, <-Hq. simpl. by eexists _, s'.
  - destruct (serial_read_spec n s k Hs ltac:(lia)) as (s1 & -> & Hs1 & Hp1 & Hi1 & _). simpl.
    destruct (IH s1 Hs1) as (outs & s' & -> & Hs' & Hq). rewrite <-Hp1, <-Hi1, <-Hq. simpl. by eexists _, s'.
Qed.

End queue.

(** * The FIFO in DMA mode *)

(** The hardware stores bytes in the buffer, round and round, and reports them later. *)
Inductive dma_op : Type :=
  | DStore (bs : list Z)
  | DDone
  | DRead (n : Z).

(** The specification: the queue of reported bytes and those stored since the last report.
    [None] when the hardware stores more than the buffer holds between two reports, or when bytes
    are read that have been overwritten. *)
Definition dq_exec (n : Z) (ind : bool) (o : dma_op) (a : list Z * list Z) : option (int_out * (list Z * list Z)) :=
  let '(q, w) := a in
  match o with
  | DStore bs => if blen w + blen bs <=? n then Some (OCall NoCallback, (q, w ++ bs)) else None
  | DDone =>
      if 0 <? blen w then
        let q := keep_last n (q ++ w) in Some (OCall (if ind then RxIndicate (blen q) else NoCallback), (q, []))
      else None
  | DRead k =>
      if (blen q + blen w <=? n) && (0 <=? k) && (k <? 2147483648)
      then Some (OData (blen (take (Z.to_nat k) q)) (take (Z.to_nat k) q), (drop (Z.to_nat k) q, w))
      else None
  end.

Fixpoint dq_run (n : Z) (ind : bool) (ops : list dma_op) (a : list Z * list Z) : option (list int_out * (list Z * list Z)) :=
  match ops with
  | [] => Some ([], a)
  | o :: ops =>
      match dq_exec n ind o a with
      | None => None
      | Some (out, a) => (λ x : list int_out * (list Z * list Z), (out :: x.1, x.2)) <$> dq_run n ind ops a
      end
  end.

(** All bytes that ever were in the buffer, of which it holds the last ones: [q] are reported and
    not read, [w] stored and not reported. *)
Record dma_fifo_ok (n : Z) (f : rt_serial_rx_fifo) (q w : list Z) : Prop := {
  d_size : 1 ≤ n ≤ 32767;
  d_len : blen (buffer f) = n;
  d_get : 0 ≤ get_index f < n;
  d_q : blen q ≤ n;
  d_w : blen w ≤ n;
  d_put : put_index f = ring_adv n (get_index f) (blen q);
  d_full : is_full f = (blen q =? n);
  d_hist : ∃ hist, n ≤ blen (hist ++ q ++ w)
             ∧ ring_view (buffer f) (ring_adv n (put_index f) (blen w)) n = keep_last n (hist ++ q ++ w)
}.

(** The hardware stores [bs] after the [k] bytes it has not reported yet. *)
Definition dma_store (n : Z) (f : rt_serial_rx_fifo) (k : Z) (bs : list Z) : rt_serial_rx_fifo :=
  mk_fifo (ring_put (buffer f) (ring_adv n (put_index f) k) bs (blen bs)) (put_index f) (get_index f) (is_full f).

Lemma new_fifo_dma n : 1 ≤ n ≤ 32767 → dma_fifo_ok n (new_fifo n) [] [].
Proof.
  intros Hn. assert (E0 : ring_adv n 0 0 = 0) by (unfold ring_adv; zbool). constructor; simpl; [lia | len | lia | len | len | by change (blen []) with 0; rewrite E0 | |].
  - by destruct n; try lia.
  - exists (replicate (Z.to_nat n) 0). rewrite !app_nil_r. split; [len |]. change (blen []) with 0. rewrite E0, keep_last_all by len.
    unfold ring_view. rewrite drop_0, take_0, app_nil_r. apply take_ge. len.
Qed.

Lemma ring_adv_adv n p a b : 0 ≤ p < n → 0 ≤ a ≤ n → 0 ≤ b ≤ n → a + b ≤ n → ring_adv n (ring_adv n p a) b = ring_adv n p (a + b).
Proof. intros. unfold ring_adv. zbool. Qed.

(** Storing bytes in a ring, seen from its new end. *)
Lemma ring_view_store l e bs :
  0 ≤ e < blen l → blen bs ≤ blen l →
  ring_view (ring_put l e bs (blen bs)) (ring_adv (blen l) e (blen bs)) (blen l) = keep_last (blen l) (ring_view l e (blen l) ++ bs).
Proof.
  intros He Hb. pose proof (blen_nonneg bs). destruct (decide (blen bs = 0)) as [Hz|Hz].
  { assert (bs = []) as -> by (destruct bs; [done | len]). change (blen []) with 0.
    assert (ring_adv (blen l) e 0 = e) as -> by (unfold ring_adv; zbool). rewrite app_nil_r, keep_last_all by (rewrite ring_view_blen; lia).
    f_equal. apply list_eq. intros j. destruct (decide (Z.of_nat j < blen l)).
    - rewrite ring_put_lookup by (lia || done). destruct (Z.ltb_spec (ring_off (blen l) e (Z.of_nat j)) 0); [|done]. unfold ring_off in *. zbool.
    - rewrite !lookup_ge_None_2; [done | len |]. rewrite ring_put_length by (done || lia). len. }
  set (e' := ring_adv (blen l) e (blen bs)). pose proof (ring_adv_range (blen l) e (blen bs) He ltac:(lia)) as He'. fold e' in He'.
  assert (Ee : e = ring_idx (blen l) e' (blen l - blen bs)) by (unfold e', ring_adv, ring_idx; zbool).
  rewrite Ee at 1. replace (blen l) with (blen l - blen bs + blen bs) at 3 by lia. rewrite ring_view_put by lia.
  unfold e'. rewrite ring_view_drop by lia. rewrite take_ge by len. unfold keep_last. rewrite drop_app_le; [f_equal; f_equal|].
  - pose proof (ring_view_blen l e (blen l)). len.
  - pose proof (ring_view_length l e (blen l)). len.
Qed.

Lemma dma_store_ok n f q w bs :
  dma_fifo_ok n f q w → blen w + blen bs ≤ n → dma_fifo_ok n (dma_store n f (blen w) bs) q (w ++ bs).
Proof.
  intros Hf Hb. destruct Hf as [Hn Hl Hg Hq Hw Hp Hfu (hist & Hh & Hv)]. pose proof (blen_nonneg q). pose proof (blen_nonneg w). pose proof (blen_nonneg bs).
  assert (Hpr : 0 ≤ put_index f < n) by (rewrite Hp; apply ring_adv_range; lia).
  pose proof (ring_adv_range n (put_index f) (blen w) Hpr ltac:(lia)) as He. set (e := ring_adv n (put_index f) (blen w)) in *.
  constructor; simpl; try done; [unfold blen in *; rewrite ring_put_length; unfold blen; lia | len |].
  exists hist. split; [len |]. rewrite blen_app, <-ring_adv_adv by lia. fold e. rewrite <-Hl. rewrite ring_view_store by lia.
  rewrite Hl, Hv, keep_last_app by lia. by rewrite <-!app_assoc.
Qed.

(** What is reported and not overwritten is in the buffer. *)
Lemma dma_view n f q w :
  dma_fifo_ok n f q w → blen q + blen w ≤ n → ring_view (buffer f) (get_index f) (blen q) = q.
Proof.
  intros [Hn Hl Hg Hq Hw Hp Hfu (hist & Hh & Hv)] Hc. pose proof (blen_nonneg q). pose proof (blen_nonneg w). set (c := blen q + blen w) in *.
  rewrite Hp, ring_adv_adv in Hv by lia. fold c in Hv. pose proof (ring_adv_range n (get_index f) c Hg ltac:(lia)) as He. set (e := ring_adv n (get_index f) c) in *.
  assert (Eg : get_index f = ring_adv (blen (buffer f)) e (n - c)) by (unfold e, ring_adv in *; zbool).
  assert (Hqw : ring_view (buffer f) (get_index f) c = q ++ w).
  { rewrite Eg. replace c with (n - (n - c)) at 2 by lia. rewrite ring_view_drop by lia. rewrite Hv. unfold keep_last. rewrite drop_drop.
    rewrite app_assoc, <-app_assoc. rewrite drop_app_ge by len. replace (_ - length hist)%nat with 0%nat by len. done. }
  assert (ring_view (buffer f) (get_index f) (blen q) = take (Z.to_nat (blen q)) (ring_view (buffer f) (get_index f) c)) as ->
    by (unfold ring_view; rewrite take_take; f_equal; lia).
  rewrite Hqw. rewrite take_app_le by len. apply take_ge. len.
Qed.

Lemma dma_calc n f q w : dma_fifo_ok n f q w → rt_dma_calc_recved_len n f = blen q.
Proof.
  intros [Hn Hl Hg Hq Hw Hp Hfu _]. pose proof (blen_nonneg q). unfold rt_dma_calc_recved_len, _serial_fifo_calc_recved_len. rewrite Hfu.
  assert (E : put_index f = get_index f ∧ (blen q = 0 ∨ blen q = n) ∨ put_index f ≠ get_index f ∧ 0 < blen q < n) by (rewrite Hp; unfold ring_adv; zbool).
  destruct E as [[E Hz]|[E Hz]]; [rewrite E, Z.eqb_refl; zbool |]. destruct (Z.eqb_spec (put_index f) (get_index f)); [done |]. rewrite Hp. unfold ring_adv in *. zbool.
Qed.

(** The copy of [r] bytes in one or two stretches. *)
Lemma dma_copy l g c r :
  0 ≤ g < blen l → 0 ≤ r ≤ c → c ≤ blen l →
  (if g + r <? blen l then take (Z.to_nat r) (drop (Z.to_nat g) l)
   else take (Z.to_nat (blen l - g)) (drop (Z.to_nat g) l) ++ take (Z.to_nat (r + g - blen l)) l)
  = take (Z.to_nat r) (ring_view l g c).
Proof.
  intros Hg Hr Hc. destruct (Z.ltb_spec (g + r) (blen l)); [by apply ring_view_linear; lia |].
  unfold ring_view. rewrite take_take, Nat.min_l by lia. rewrite take_app_ge by len. rewrite (take_ge (drop _ l)) by len. f_equal.
  rewrite take_take. f_equal. len.
Qed.

Lemma dma_fifo_rx_spec n f q w k :
  dma_fifo_ok n f q w → blen q + blen w ≤ n → 0 ≤ k →
  ∃ f', dma_fifo_rx k n f = Some (take (Z.to_nat k) q, f') ∧ dma_fifo_ok n f' (drop (Z.to_nat k) q) w.
Proof.
  intros Hf Hc Hk. pose proof (dma_calc n f q w Hf) as Ecalc. pose proof (dma_view n f q w Hf Hc) as Ev.
  destruct Hf as [Hn Hl Hg Hq Hw Hp Hfu (hist & Hh & Hv)]. pose proof (blen_nonneg q). pose proof (blen_nonneg w).
  unfold dma_fifo_rx, rt_dma_recv_update_get_index. rewrite Ecalc. rewrite s32_small by (unfold is_s32; lia).
  set (r := if k <? blen q then k else blen q). assert (Er : r = Z.min k (blen q)) by (unfold r; zbool). clearbody r.
  replace (negb (r <=? blen q)) with false by zbool.
  rewrite (u16_small r), (u16_small (_ + r)) by (unfold is_u16; lia). 
  pose proof (dma_copy (buffer f) (get_index f) (blen q) r ltac:(lia) ltac:(lia) ltac:(lia)) as Ecp. rewrite Hl in Ecp. rewrite Ecp, Ev.
  assert (Etk : take (Z.to_nat r) q = take (Z.to_nat k) q) by (rewrite Er; apply take_min_blen).
  assert (Edr : drop (Z.to_nat k) q = drop (Z.to_nat r) q) by (rewrite Er; symmetry; apply drop_min_blen).
  rewrite Etk. eexists. split; [done |]. rewrite Edr.
  assert (Eg : (if n <=? get_index f + r then (get_index f + r) mod n else get_index f + r) = ring_adv n (get_index f) r).
  { unfold ring_adv. destruct (Z.leb_spec n (get_index f + r)); [|done]. symmetry. apply (Z.mod_unique_pos _ _ 1); lia. }
  rewrite Eg. assert (Eb : blen (drop (Z.to_nat r) q) = blen q - r) by len.
  constructor; simpl; [done | done | apply ring_adv_range; lia | lia | done | | |].
  - rewrite Eb, ring_adv_adv by lia. rewrite Hp. f_equal. lia.
  - rewrite Eb, Hfu. zbool.
  - exists (hist ++ take (Z.to_nat r) q). rewrite <-!app_assoc, (app_assoc (take _ q)), take_drop. done.
Qed.

Lemma dma_done_spec n f q w :
  dma_fifo_ok n f q w → 0 < blen w → dma_fifo_ok n (rt_dma_recv_update_put_index n f (blen w)) (keep_last n (q ++ w)) [].
Proof.
  intros [Hn Hl Hg Hq Hw Hp Hfu (hist & Hh & Hv)] Hw0. pose proof (blen_nonneg q).
  assert (Hpr : 0 ≤ put_index f < n) by (rewrite Hp; apply ring_adv_range; lia).
  pose proof (ring_adv_range n (put_index f) (blen w) Hpr ltac:(lia)) as Her.
  unfold rt_dma_recv_update_put_index. rewrite (u16_small (blen w)), (u16_small (_ + blen w)) by (unfold is_u16; lia).
  set (full := n <=? blen q + blen w). set (e := ring_adv n (put_index f) (blen w)) in *.
  assert (Emod : (if n <=? put_index f + blen w then (put_index f + blen w) mod n else put_index f + blen w) = e).
  { unfold e, ring_adv. destruct (Z.leb_spec n (put_index f + blen w)); [|done]. symmetry. apply (Z.mod_unique_pos _ _ 1); lia. }
  assert (Ex : (if get_index f <=? put_index f then
      if n <=? put_index f + blen w then
        ((put_index f + blen w) mod n, if get_index f <=? (put_index f + blen w) mod n then true else is_full f)
      else (put_index f + blen w, is_full f)
    else if get_index f <=? put_index f + blen w
      then (if n <=? put_index f + blen w then (put_index f + blen w) mod n else put_index f + blen w, true)
      else (put_index f + blen w, is_full f)) = (e, full)).
  { rewrite Emod. rewrite Hfu. destruct (Z.leb_spec n (put_index f + blen w)) as [Hx|Hx]; rewrite ?Emod; unfold full;
      unfold e, ring_adv in *; destruct (Z.leb_spec (get_index f) (put_index f)); zbool; f_equal; lia. }
  rewrite Ex. constructor; simpl; [done | done | by destruct full | rewrite keep_last_blen; lia | change (blen []) with 0; lia | | |].
  - rewrite keep_last_blen by lia. rewrite blen_app. unfold full. destruct (Z.leb_spec n (blen q + blen w)).
    + rewrite Z.min_l by lia. unfold ring_adv. zbool.
    + rewrite Z.min_r by lia. unfold e. rewrite Hp, ring_adv_adv by lia. done.
  - rewrite keep_last_blen, blen_app by lia. unfold full. zbool.
  - exists (hist ++ take (Z.to_nat (blen (q ++ w) - n)) (q ++ w)). unfold keep_last at 1 3. rewrite app_nil_r, <-app_assoc, take_drop.
    split; [done |]. change (blen []) with 0. assert (ring_adv n e 0 = e) as -> by (unfold ring_adv; zbool). done.
Qed.

Section dma_mode.
Context {HW : Type} `{UartOps HW}.
Implicit Types s : rt_serial_device HW.

(** The device is open for reception with DMA into a buffer. *)
Record dma_ready (n : Z) s (q w : list Z) : Prop := {
  dr_ref : ref_count s ≠ 0;
  dr_int : flag_set (open_flag s) RT_DEVICE_FLAG_INT_RX = false;
  dr_flag : flag_set (open_flag s) RT_DEVICE_FLAG_DMA_RX = true;
  dr_size : bufsz (config s) = n;
  dr_fifo : ∃ f, serial_rx s = RxFifo f ∧ dma_fifo_ok n f q w
}.

(** [k] is the number of bytes the hardware has stored and not reported. *)
Definition dma_exec (s : rt_serial_device HW) (k : Z) (o : dma_op) : option (int_out * rt_serial_device HW * Z) :=
  match o with
  | DStore bs =>
      match serial_rx s with
      | RxFifo f => Some (OCall NoCallback, set_rx s (RxFifo (dma_store (bufsz (config s)) f k bs)), k + blen bs)
      | _ => None
      end
  | DDone =>
      (λ x : callback * rt_serial_device HW, (OCall x.1, x.2, 0)) <$> rt_hw_serial_isr s (RT_SERIAL_EVENT_RX_DMADONE + 256 * k)
  | DRead n => (λ x : Z * list Z * rt_serial_device HW, (OData x.1.1 x.1.2, x.2, k)) <$> rt_device_read s n
  end.

Fixpoint dma_run (s : rt_serial_device HW) (k : Z) (ops : list dma_op) : option (list int_out * rt_serial_device HW) :=
  match ops with
  | [] => Some ([], s)
  | o :: ops =>
      match dma_exec s k o with
      | None => None
      | Some (out, s, k) => (λ x : list int_out * rt_serial_device HW, (out :: x.1, x.2)) <$> dma_run s k ops
      end
  end.

Lemma dma_exec_spec n s q w o out q' w' :
  dma_ready n s q w → dq_exec n (rx_indicate s) o (q, w) = Some (out, (q', w')) →
  ∃ s', dma_exec s (blen w) o = Some (out, s', blen w') ∧ dma_ready n s' q' w' ∧ rx_indicate s' = rx_indicate s.
Proof.
  intros [Hr Hi Hfl Hn (f & Ef & Hf)] E. destruct o as [bs| |k]; simpl in E |- *.
  - destruct (Z.leb_spec (blen w + blen bs) n) as [Hb|]; [|done]. injection E as <- <- <-. rewrite Ef, Hn.
    eexists. rewrite blen_app. split; [done |]. split; [constructor; simpl; try done | done]. eexists. split; [done |]. by apply dma_store_ok.
  - destruct (Z.ltb_spec 0 (blen w)) as [Hw|]; [|done]. injection E as <- <- <-.
    pose proof (dma_done_spec n f q w Hf Hw) as Hd. pose proof (dma_calc _ _ _ _ Hd) as Ec. destruct Hf as [Hsz _ _ _ Hwn _ _ _].
    unfold rt_hw_serial_isr. change 255 with (Z.ones 8). rewrite Z.land_ones by lia. change (2 ^ 8) with 256.
    replace ((RT_SERIAL_EVENT_RX_DMADONE + 256 * blen w) mod 256) with 3 by (unfold RT_SERIAL_EVENT_RX_DMADONE; rewrite Z.mul_comm, Z.mod_add by lia; done).
    rewrite Z.shiftr_div_pow2 by lia. change (2 ^ 8) with 256.
    replace ((RT_SERIAL_EVENT_RX_DMADONE + 256 * blen w) / 256) with (blen w) by (unfold RT_SERIAL_EVENT_RX_DMADONE; Z.div_mod_to_equations; lia).
    cbn -[rt_dma_recv_update_put_index rt_dma_calc_recved_len keep_last Z.mul]. unfold isr_rx_dmadone. rewrite Hn, Ef. destruct (Z.eqb_spec n 0); [lia |].
    rewrite Ec. eexists. split; [done |]. split; [constructor; simpl; try done | done]. by eexists.
  - destruct ((blen q + blen w <=? n) && (0 <=? k) && (k <? 2147483648)) eqn:Eb; [|done]. injection E as <- <- <-.
    rewrite !andb_true_iff, !Z.leb_le, Z.ltb_lt in Eb. destruct Eb as [[Hc Hk] _].
    unfold rt_device_read, rt_serial_read. destruct (Z.eqb_spec (ref_count s) 0); [done |]. destruct (Z.eqb_spec k 0) as [->|_].
    { exists s. simpl. rewrite drop_0. split_and!; [done | | done]. constructor; eauto. }
    rewrite Hi, Hfl. unfold _serial_dma_rx. rewrite Hn, Ef. destruct (Z.eqb_spec n 0); [destruct Hf; lia |].
    destruct (dma_fifo_rx_spec n f q w k Hf Hc Hk) as (f' & -> & Hf'). simpl. eexists. split; [done |]. split; [constructor; simpl; eauto | done].
Qed.

(** Reception with DMA is a queue that gives up its oldest bytes. As long as no more than a
    buffer is stored between two reports, and bytes are read before the hardware overwrites them, any
    sequence of stores, reports and reads does what a queue of [n] places does, where [n] is the size
    of the buffer, up to 32767: reads return the oldest reported bytes, the callback reports
    how many there are, and an overflow gives up the oldest ones and leaves the [n] latest. *)
Theorem serial_dma_refines_queue (n : Z) (s : rt_serial_device HW) (q w q' w' : list Z) (ops : list dma_op) (outs : list int_out)
    (Hready : dma_ready n s q w) (Hspec : dq_run n (rx_indicate s) ops (q, w) = Some (outs, (q', w'))) :
  ∃ s', dma_run s (blen w) ops = Some (outs, s') ∧ dma_ready n s' q' w'.
Proof.
  revert s q w outs Hready Hspec. induction ops as [|o ops IH]; intros s q w outs Hs E; cbn [dq_run dma_run] in E |- *; [injection E as <- <- <-; by eexists |].
  destruct (dq_exec n (rx_indicate s) o (q, w)) as [[out [q1 w1]]|] eqn:E1; [|done].
  destruct (dma_exec_spec n s q w o out q1 w1 Hs E1) as (s1 & -> & Hs1 & Hi1). rewrite <-Hi1 in E.
  destruct (dq_run n (rx_indicate s1) ops (q1, w1)) as [[outs1 a]|] eqn:E2; [|done]. simpl in E. injection E as <- ->.
  destruct (IH s1 q1 w1 outs1 Hs1 E2) as (s' & -> & Hs'). by exists s'.
Qed.

End dma_mode.

(** * Opening *)

Lemma flag_set_testbit x k : 0 ≤ k → flag_set x (2 ^ k) = Z.testbit x k.
Proof.
  intros Hk. unfold flag_set. destruct (Z.testbit x k) eqn:E.
  - apply negb_true_iff, Z.eqb_neq. intros Ez. assert (Z.testbit (Z.land x (2 ^ k)) k = false) as Hf by (rewrite Ez; apply Z.bits_0).
    rewrite Z.land_spec, E, Z.pow2_bits_true in Hf by done. done.
  - apply negb_false_iff, Z.eqb_eq. apply Z.bits_inj'. intros j Hj. rewrite Z.land_spec, Z.bits_0.
    destruct (decide (j = k)) as [->|Hne]; [by rewrite E | by rewrite Z.pow2_bits_false, andb_false_r by lia].
Qed.

Lemma flag_set_or x f k : 0 ≤ k → flag_set (set_flag x f) (2 ^ k) = flag_set x (2 ^ k) || flag_set f (2 ^ k).
Proof. intros Hk. rewrite !flag_set_testbit by done. apply Z.lor_spec. Qed.

Section opening.
Context {HW : Type} `{UartLaws HW}.
Implicit Types s : rt_serial_device HW.

(** A device that is not open: registered and never opened, or closed again. *)
Record closed s : Prop := {
  c_ref : ref_count s = 0;
  c_open : open_flag s = 0;
  c_act : flag_set (flag s) RT_DEVICE_FLAG_ACTIVATED = false;
  c_rx : uart_rx (hw s) = []
}.

(** The device after it was opened for reception with interrupts. *)
Definition opened s : rt_serial_device HW :=
  mk_serial (set_flag (flag s) RT_DEVICE_FLAG_ACTIVATED) (set_flag RT_DEVICE_FLAG_INT_RX RT_DEVICE_OFLAG_OPEN) 1
    (rx_indicate s) false (config s) (RxFifo (new_fifo (bufsz (config s)))) TxNone
    (uart_control (uart_configure (hw s) (config s)).2 RT_DEVICE_CTRL_SET_INT RT_DEVICE_FLAG_INT_RX).2.

Lemma open_int_eq s :
  closed s → flag_set (flag s) RT_DEVICE_FLAG_INT_RX = true → (uart_configure (hw s) (config s)).1 = RT_EOK →
  rt_device_open true s RT_DEVICE_FLAG_INT_RX = Some (RT_EOK, opened s).
Proof.
  intros [Hr Ho Ha _] Hi Hc. destruct s as [fl ofl rc ind no cfg rx tx h]. cbn [ref_count open_flag flag hw config] in *. subst rc ofl.
  unfold rt_device_open, rt_serial_init, opened. cbn [flag]. rewrite Ha. cbn.
  destruct (uart_configure h cfg) as [r h1]. cbn in Hc |- *. subst r. cbn. rewrite andb_false_r. unfold rt_serial_open, lacks. cbn -[flag_set set_flag].
  assert (flag_set (set_flag fl RT_DEVICE_FLAG_ACTIVATED) RT_DEVICE_FLAG_INT_RX = true) as ->.
  { change RT_DEVICE_FLAG_INT_RX with (2 ^ 8) in *. rewrite flag_set_or by lia. by rewrite Hi. }
  reflexivity.
Qed.

Lemma opened_ready s :
  closed s → 2 ≤ bufsz (config s) ≤ 65535 → int_ready (bufsz (config s)) (opened s) ∧ serial_pending (opened s) = [].
Proof.
  intros [_ _ _ Hh] Hn. destruct (new_fifo_ok _ Hn) as [Hf Ec]. unfold opened. split; [|exact Ec].
  constructor; cbn [ref_count open_flag config rx_notify serial_rx hw]; [done | done | done | done | eexists; split; [reflexivity | exact Hf] |].
  apply uart_control_spec, uart_configure_spec. exact Hh.
Qed.

End opening.

(** * Where the framework goes wrong *)

Section defects.
Context {HW : Type} `{UartLaws HW}.
Implicit Types s : rt_serial_device HW.

(** A second opening without a mode of reception takes the mode away. A device that is open for
    reception with interrupts is opened again for reading and writing: the call succeeds, the
    flag of the mode is gone, so that reads ask the hardware, for which the interrupts compete;
    and when both are closed the FIFO is not given back and the interrupt not turned off, but
    the next opening forgets the FIFO. *)
Theorem serial_reopen_loses_mode (s : rt_serial_device HW)
    (Hshared : flag_set (flag s) RT_DEVICE_FLAG_STANDALONE = false) :
  ∃ s2 s3 s4,
    rt_device_open true (opened s) 3 = Some (RT_EOK, s2) ∧ ref_count s2 = 2
    ∧ flag_set (open_flag s2) RT_DEVICE_FLAG_INT_RX = false ∧ serial_rx s2 = RxFifo (new_fifo (bufsz (config s)))
    ∧ (∀ k, 0 < k → (rt_device_read s2 k ≫= λ x, Some x.1.2) = Some (_serial_poll_rx (Z.to_nat k) false (hw s2)).1)
    ∧ rt_device_close s2 = Some (RT_EOK, s3) ∧ rt_device_close s3 = Some (RT_EOK, s4)
    ∧ open_flag s4 = RT_DEVICE_OFLAG_CLOSE ∧ serial_rx s4 = RxFifo (new_fifo (bufsz (config s)))
    ∧ serial_rx (rt_serial_init s4).2 = RxNone.
Proof.
  destruct s as [fl ofl rc ind no cfg rx tx h]. unfold opened. cbn [flag open_flag ref_count rx_indicate config hw] in *.
  set (h1 := (uart_control _ _ _).2). set (fl1 := set_flag fl RT_DEVICE_FLAG_ACTIVATED).
  assert (Hact : flag_set fl1 RT_DEVICE_FLAG_ACTIVATED = true)
    by (unfold fl1; change RT_DEVICE_FLAG_ACTIVATED with (2 ^ 4); rewrite flag_set_or by lia; by rewrite orb_true_r).
  assert (Hsh : flag_set fl1 RT_DEVICE_FLAG_STANDALONE = false)
    by (unfold fl1; change RT_DEVICE_FLAG_STANDALONE with (2 ^ 3) in *; rewrite flag_set_or by lia; by rewrite Hshared).
  clearbody h1 fl1. unfold rt_device_open. cbn [flag]. rewrite Hact. cbn [negb Z.eqb flag open_flag]. rewrite Hsh.
  eexists _, _, _. split; [reflexivity |]. split_and!; try reflexivity. { intros k Hk. unfold rt_device_read, rt_serial_read. simpl.
    destruct (Z.eqb_spec k 0); [lia |]. by destruct (_serial_poll_rx _ _ _). }
  unfold rt_serial_init. match goal with |- context [uart_configure ?h ?c] => by destruct (uart_configure h c) end.
Qed.

End defects.

(** Buffers of more than 32767 bytes: the index of the DMA is a 16-bit number, and a report that
    takes it past 65535 loses 65536. A buffer of 40000 bytes with index 39999 and a report of 30000
    bytes: the next byte goes to 29999, the index says 4463. *)
Theorem serial_dma_index_wraps :
  let f := rt_dma_recv_update_put_index 40000 (mk_fifo [] 39999 39999 false) 30000 in
  put_index f = 4463 ∧ (39999 + 30000) mod 40000 = 29999.
Proof. done. Qed.

(** * A simulated UART *)

(** The bytes on the receive line, those sent, and whether configurations are accepted. *)
Record sim_uart : Type := mk_uart { su_line : list Z; su_sent : list Z; su_config : Z }.

#[export] Instance sim_uart_ops : UartOps sim_uart := {
  uart_configure u _ := (su_config u, u);
  uart_control u _ _ := (RT_EOK, u);
  uart_putc u c := (1, mk_uart (su_line u) (su_sent u ++ [c]) (su_config u));
  uart_getc u := (default (-1) (head (su_line u)), mk_uart (tail (su_line u)) (su_sent u) (su_config u));
  uart_dma_tx u data := mk_uart (su_line u) (su_sent u ++ data) (su_config u);
  uart_dma_rx u _ := u;
  uart_wait u := u;
  uart_arrive u bs := mk_uart (su_line u ++ bs) (su_sent u) (su_config u);
  uart_rx := su_line
}.

#[export] Instance sim_uart_laws : UartLaws sim_uart.
Proof. by constructor. Qed.

(** A registered device with a buffer of [n] bytes. *)
Definition sim_serial_device (n : Z) : rt_serial_device sim_uart :=
  mk_serial 3843 0 0 false false (mk_cfg 115200 8 0 0 0 0 n 0) RxNone TxNone (mk_uart [] [] RT_EOK).

Lemma sim_closed n : closed (sim_serial_device n).
Proof. by constructor. Qed.

(** Six bytes reach a buffer of four: the last three are kept. *)
Lemma serial_int_refines_queue_witness :
  ∃ s, int_run (opened (sim_serial_device 4)) [IArrive [1; 2]; IArrive [3; 4; 5; 6]; IRead 2; IRead 5; IRead 1]
    = Some ([OCall NoCallback; OCall NoCallback; OData 2 [4; 5]; OData 1 [6]; OData 0 []], s).
Proof.
  destruct (opened_ready (sim_serial_device 4) (sim_closed 4)) as [Hr _]; [simpl; lia |].
  destruct (serial_int_refines_queue 4 (opened (sim_serial_device 4)) [IArrive [1; 2]; IArrive [3; 4; 5; 6]; IRead 2; IRead 5; IRead 1])
    as (outs & s & E & _ & Eq); [exact Hr | by repeat constructor; simpl; lia |].
  exists s. rewrite E. f_equal. vm_compute in Eq. injection Eq as -> _. reflexivity.
Defined.

(** The device with a buffer of four bytes, open for reception with DMA. *)
Definition sim_dma : rt_serial_device sim_uart :=
  match rt_device_open true (sim_serial_device 4) 515 with Some (_, s) => s | None => sim_serial_device 4 end.

Lemma sim_dma_ready : dma_ready 4 sim_dma [] [].
Proof. constructor; [done | done | done | done |]. exists (new_fifo 4). split; [done |]. by apply new_fifo_dma. Qed.

Lemma serial_dma_refines_queue_witness :
  ∃ s, dma_run sim_dma 0 [DStore [1; 2; 3]; DDone; DRead 1; DStore [4]; DStore [5]; DDone; DRead 9; DStore [6; 7; 8]; DDone; DStore [9; 10]; DDone; DRead 9]
    = Some ([OCall NoCallback; OCall NoCallback; OData 1 [1]; OCall NoCallback; OCall NoCallback; OCall NoCallback; OData 4 [2; 3; 4; 5];
             OCall NoCallback; OCall NoCallback; OCall NoCallback; OCall NoCallback; OData 4 [7; 8; 9; 10]], s)
    ∧ dma_ready 4 s [] [].
Proof.
  apply (serial_dma_refines_queue 4 sim_dma [] [] [] []).
  - exact sim_dma_ready.
  - vm_compute. reflexivity.
Defined.

Lemma serial_reopen_loses_mode_witness :
  ∃ s2, rt_device_open true (opened (sim_serial_device 64)) 3 = Some (RT_EOK, s2) ∧ flag_set (open_flag s2) RT_DEVICE_FLAG_INT_RX = false.
Proof.
  destruct (serial_reopen_loses_mode (sim_serial_device 64)) as (s2 & s3 & s4 & E & _ & Hf & _); [reflexivity |]. by exists s2.
Defined.
