(* ===== verification/SerialPort.v ===== *)
(** The serial device framework as the ports use it: [SerialCore] keeps the interface
    [SerialDev] of [Serial] with its laws, on any UART. A failed assertion stops the system:
    the device is then [None]. *)

From S2P Require Import Prelude.
From S2P Require Import RtDef.
From S2P Require Import Serial.
From S2P Require Import SerialCore.
Open Scope Z_scope.

(** The configuration the ports ask for: 8 data bits, one stop bit, no parity, 64 bytes of
    buffer. *)
Definition port_config (baud : Z) : serial_configure := mk_cfg baud 8 0 0 0 0 64 0.

#[export] Instance fifo_ok_dec n f : Decision (fifo_ok n f).
Proof.
  destruct (decide ((2 ≤ n ≤ 65535) ∧ blen (buffer f) = n ∧ (0 ≤ put_index f < n) ∧ (0 ≤ get_index f < n)
    ∧ (is_full f = true → get_index f = Ring.ring_adv n (put_index f) 1) ∧ Forall is_u8 (buffer f))) as [Hf|Hf].
  - left. destruct Hf as (H1 & H2 & H3 & H4 & H5 & H6). by constructor.
  - right. intros [H1 H2 H3 H4 H5 H6]. by apply Hf.
Defined.

Section port.
Context {HW : Type} `{UartLaws HW}.

(** Open for reception with interrupts, and nothing else, with the callback registered and all
    bytes fetched from the hardware. *)
Definition receiving (s : rt_serial_device HW) : Prop :=
  ref_count s ≠ 0 ∧ open_flag s = set_flag RT_DEVICE_FLAG_INT_RX RT_DEVICE_OFLAG_OPEN ∧ rx_indicate s = true
  ∧ rx_notify s = false ∧ uart_rx (hw s) = []
  ∧ match serial_rx s with RxFifo f => fifo_ok (bufsz (config s)) f | _ => False end.

#[export] Instance receiving_dec s : Decision (receiving s).
Proof. unfold receiving. destruct (serial_rx s); apply _. Defined.

Lemma receiving_ready s : receiving s → int_ready (bufsz (config s)) s ∧ rx_indicate s = true.
Proof.
  intros (Hr & Ho & Hi & Hn & Hh & Hf). destruct (serial_rx s) as [|f|] eqn:E; [done | | done].
  split; [|done]. constructor; try done; [by rewrite Ho | by exists f].
Qed.

Lemma ready_receiving n s :
  int_ready n s → rx_indicate s = true → open_flag s = set_flag RT_DEVICE_FLAG_INT_RX RT_DEVICE_OFLAG_OPEN → receiving s.
Proof. intros [Hr Hf <- Hn (f & Ef & Hfo) Hh] Hi Ho. unfold receiving. by rewrite Ef. Qed.

#[export] Instance serial_dev : SerialDev (option (rt_serial_device HW)) := {
  dev_find d := match d with Some _ => true | None => false end;
  dev_close d := match d ≫= rt_device_close with Some (_, s) => Some s | None => None end;
  dev_control d baud :=
    match d with
    | Some s => let '(r, s) := rt_device_control s (CtrlConfig (Some (port_config baud))) in (r, Some s)
    | None => (- RT_ERROR, None)
    end;
  dev_open d :=
    match d ≫= λ s, rt_device_open true s RT_DEVICE_FLAG_INT_RX with
    | Some (r, s) => (r, Some s)
    | None => (- RT_ERROR, None)
    end;
  dev_set_rx_indicate d := match d with Some s => Some (rt_device_set_rx_indicate s true).2 | None => None end;
  dev_read1 d :=
    match d ≫= λ s, rt_device_read s 1 with
    | Some (_, data, s) => (head data, Some s)
    | None => (None, None)
    end;
  dev_write d data :=
    match d ≫= λ s, rt_device_write 0 s data with
    | Some (r, s) => (r, Some s)
    | None => (0, None)
    end;
  dev_rx d bs :=
    match d ≫= λ s, serial_interrupt s bs with
    | Some (RxIndicate _, s) => (true, Some s)
    | Some (_, s) => (false, Some s)
    | None => (false, None)
    end;
  dev_pending d := match d with Some s => serial_pending s | None => [] end;
  dev_cap d :=
    match d with
    | Some s => if decide (receiving s) then bufsz (config s) - 1 else 0
    | None => 0
    end
}.

(** What the operations on a receiving device leave as it is. *)
Lemma dev_cap_receiving s : receiving s → dev_cap (Some s) = bufsz (config s) - 1.
Proof. intros Hs. simpl. by rewrite decide_True. Qed.

Lemma dev_cap_pos d : 0 < dev_cap d → ∃ s, d = Some s ∧ receiving s.
Proof. destruct d as [s|]; simpl; [|lia]. case_decide; [by exists s | lia]. Qed.

(** The framework keeps the laws of the interface. *)
#[export] Instance serial_dev_laws : SerialLaws (option (rt_serial_device HW)).
Proof.
  constructor.
  - intros d (s & -> & Hs)%dev_cap_pos. destruct (receiving_ready s Hs) as [Hr Hi].
    destruct (serial_read_spec _ s 1 Hr) as (s' & E & Hr' & Hp & Hi' & Ho); [lia |].
    assert (receiving s') as Hs' by (eapply ready_receiving; [done | congruence |]; rewrite Ho; apply Hs).
    rewrite dev_cap_receiving by done. cbn -[dev_cap]. rewrite E. cbn -[dev_cap].
    rewrite dev_cap_receiving, (i_size _ _ Hr'), Hp by done. by destruct (serial_pending s).
  - intros d bs Hu8 Hb Hc. destruct (dev_cap_pos d) as (s & -> & Hs); [pose proof (blen_nonneg (dev_pending d)); lia |].
    rewrite dev_cap_receiving in Hc |- * by done. destruct (receiving_ready s Hs) as [Hr Hi].
    destruct (serial_interrupt_spec _ s bs Hr Hu8) as (s' & E & Hr' & Hp & Hi' & Ho).
    assert (receiving s') as Hs' by (eapply ready_receiving; [done | congruence |]; rewrite Ho; apply Hs).
    cbn [dev_pending serial_dev] in Hc. rewrite Ring.keep_last_all in Hp by (rewrite blen_app; lia).
    assert (Hne : blen (serial_pending s') ≠ 0) by (rewrite Hp, blen_app; pose proof (blen_nonneg (serial_pending s)); lia).
    cbn -[dev_cap]. rewrite E. unfold indication. rewrite Hi. destruct (Z.eqb_spec (blen (serial_pending s')) 0); [done |]. cbn -[dev_cap].
    by rewrite dev_cap_receiving, (i_size _ _ Hr'), Hp.
  - intros d bs (s & -> & Hs)%dev_cap_pos. pose proof Hs as (Hr & Ho & Hi & Hn & Hh & Hf). cbn -[dev_cap]. unfold rt_device_write, rt_serial_write.
    destruct (Z.eqb_spec (ref_count s) 0); [done |]. destruct bs as [|b bs]; [done |]. rewrite Ho.
    change (flag_set (set_flag RT_DEVICE_FLAG_INT_RX RT_DEVICE_OFLAG_OPEN) RT_DEVICE_FLAG_INT_TX) with false.
    change (flag_set (set_flag RT_DEVICE_FLAG_INT_RX RT_DEVICE_OFLAG_OPEN) RT_DEVICE_FLAG_DMA_TX) with false. cbn -[dev_cap _serial_poll_tx]. split; [done |].
    rewrite !dev_cap_receiving; [done | done |]. unfold receiving. cbn -[_serial_poll_tx]. by rewrite poll_tx_rx.
Qed.

(** * Initialisation *)

(** What [rs485_init] and [uart_test_init] do to a device that is not open: it is configured,
    opened and given the callback, and then receives, with room for 63 bytes. *)
Theorem port_init_receives (s : rt_serial_device HW) (baud : Z)
    (Hcl : closed s) (Hint : flag_set (flag s) RT_DEVICE_FLAG_INT_RX = true)
    (Hcfg : (uart_configure (hw s) (port_config baud)).1 = RT_EOK) :
  ∃ s1 s2, dev_control (Some s) baud = (RT_EOK, Some s1) ∧ dev_open (Some s1) = (RT_EOK, Some s2)
    ∧ dev_cap (dev_set_rx_indicate (Some s2)) = 63 ∧ dev_pending (dev_set_rx_indicate (Some s2)) = [].
Proof.
  pose proof Hcl as [Hr Ho Ha Hh]. set (s1 := set_config s (port_config baud)).
  assert (Hcl1 : closed s1) by (by constructor). exists s1, (opened s1).
  destruct (opened_ready s1 Hcl1) as [Hrd Hp]; [simpl; lia |].
  split; [|split; [|split]].
  - cbn. unfold rt_serial_control. rewrite Hr. cbn. rewrite andb_false_r. done.
  - cbn -[rt_device_open opened]. by rewrite (open_int_eq s1 Hcl1 Hint Hcfg).
  - change (dev_set_rx_indicate (Some (opened s1))) with (Some (set_callbacks (opened s1) true (rx_notify (opened s1)))).
    rewrite dev_cap_receiving; [done |]. destruct Hrd as [Hr1 _ _ Hn1 (f & Ef & Hf) Hh1]. unfold receiving. cbn [serial_rx set_callbacks]. rewrite Ef. by split_and!.
  - exact Hp.
Qed.

(** A device that is open elsewhere with a buffer of another size cannot be configured. *)
Lemma port_config_busy (s : rt_serial_device HW) (baud : Z) :
  ref_count s ≠ 0 → bufsz (config s) ≠ 64 → dev_control (Some s) baud = (- RT_EBUSY, Some s).
Proof.
  intros Hr Hb. unfold dev_control, serial_dev, rt_device_control, rt_serial_control.
  change (bufsz (port_config baud)) with 64. destruct (Z.eqb_spec 64 (bufsz (config s))); [congruence |].
  destruct (Z.eqb_spec (ref_count s) 0); [congruence | done].
Qed.

End port.

Lemma port_init_receives_witness :
  ∃ s1 s2, dev_control (Some (sim_serial_device 2048)) 9600 = (RT_EOK, Some s1) ∧ dev_open (Some s1) = (RT_EOK, Some s2)
    ∧ dev_cap (dev_set_rx_indicate (Some s2)) = 63.
Proof.
  destruct (port_init_receives (sim_serial_device 2048) 9600 (sim_closed 2048)) as (s1 & s2 & E1 & E2 & E3 & _); [reflexivity | reflexivity |].
  exists s1, s2. by split_and!.
Defined.
