(* ===== verification/Rs485.v ===== *)
(** The RS-485 port of applications/rs485.c: direction pin, transmission with a computed
    waiting time, reception through an interrupt-fed ring and a semaphore. *)

From Stdlib Require Import String.
From S2P Require Import Prelude.
From S2P Require Import CText.
From S2P Require Import RtDef.
From S2P Require Import Lwrb.
From S2P Require Import Serial.
From S2P Require Import SerialCore.
From S2P Require Import SerialPort.

Open Scope Z_scope.
Open Scope list_scope.

Definition RS485_RX_BUF_SIZE : Z := 512.
Definition RS485_FRAME_SIZE : Z := 256.

Section rs485.
Context {Dev : Type} `{SerialDev Dev}.

(** * Operations *)

Definition rs485_dir_tx (p : port Dev) : port Dev := pt_emit (EvPin true) p.
Definition rs485_dir_rx (p : port Dev) : port Dev := pt_emit (EvPin false) p.

(** The delay that is requested for [len] bytes, if any. *)
Definition tx_delay (len baudrate : Z) : option bus_event :=
  if (len =? 0) || (baudrate =? 0) then None else
  let total_bits := u32 (u32 (len + 1) * 10) in
  let delay_us := u32 (u32 (u32 (total_bits * 1000000) + baudrate) - 1) / baudrate in
  if delay_us <? 1000 then Some (EvUsDelay delay_us)
  else Some (EvMsDelay (u32 (delay_us + 999) / 1000)).

Definition rs485_wait_tx_complete (len baudrate : Z) (p : port Dev) : port Dev :=
  match tx_delay len baudrate with Some e => pt_emit e p | None => p end.

(** [dev] is the callback's argument; [waiting] says whether a thread is blocked on the
    semaphore. *)
Definition rs485_rx_ind (waiting : bool) (dev : bool) (p : port Dev) : Z * port Dev :=
  if negb dev then (- RT_ERROR, p)
  else (RT_EOK, sem_release waiting (drain_all p)).

Definition rs485_init (baudrate : Z) (p : port Dev) : Z * port Dev :=
  let p := if pt_bound p then pt_bind false (pt_set_dev (dev_close (pt_dev p)) p) else p in
  if negb (dev_find (pt_dev p)) then (- RT_ERROR, p) else
  let p := pt_bind true p in
  let '(r, d) := dev_control (pt_dev p) baudrate in
  let p := pt_set_dev d p in
  if negb (r =? RT_EOK) then (- RT_ERROR, pt_bind false p) else
  let '(r, d) := dev_open (pt_dev p) in
  let p := pt_set_dev d p in
  if negb (r =? RT_EOK) then (- RT_ERROR, pt_bind false p) else
  let p := pt_emit EvRxIndicate (pt_set_dev (dev_set_rx_indicate (pt_dev p)) p) in
  (* Configure direction control pin, default to receive mode. *)
  let p := rs485_dir_rx (pt_emit EvPinMode p) in
  (* Initialize ring buffer and semaphore. *)
  let rx_rb_data := replicate (Z.to_nat RS485_RX_BUF_SIZE) 0 in
  let '(_, rb) := lwrb_init (Some (pt_rb p)) (Some rx_rb_data) RS485_RX_BUF_SIZE in
  let p := pt_emit EvRingInit (pt_set_rb (default (pt_rb p) rb) p) in
  let p := pt_emit EvSemInit (pt_set_sem 0 p) in
  (RT_EOK, pt_set_baud baudrate p).

Definition rs485_send (data : option (list Z)) (len timeout_ms : Z) (p : port Dev)
    : Z * port Dev :=
  match data with
  | Some data =>
      if negb (pt_bound p) || (len =? 0) then (- RT_ERROR, p) else
      let p := rs485_dir_tx p in
      let bytes := take (Z.to_nat len) data in
      let '(_, d) := dev_write (pt_dev p) bytes in
      let p := pt_emit (EvTx bytes) (pt_set_dev d p) in
      let p := rs485_wait_tx_complete len (pt_baud p) p in
      (len, rs485_dir_rx p)
  | None => (- RT_ERROR, p)
  end.

(** An interrupt: bytes reach the device, which calls the indication, or not. *)
Definition rx_interrupt (waiting : bool) (bs : list Z) (p : port Dev) : port Dev :=
  let '(indicated, d) := dev_rx (pt_dev p) bs in
  if indicated then snd (rs485_rx_ind waiting true (pt_set_dev d p)) else pt_set_dev d p.

(** [rt_sem_take(&rx_sem, tick)]: a token is taken at once; otherwise, unless [tick] is
    zero, the thread sleeps, and [arrivals] are the interrupts that happen before it
    runs again: the first one wakes it, the others leave their tokens. The boolean
    says whether the thread slept through [arrivals]. *)
Definition sem_take (tick : Z) (arrivals : list (list Z)) (p : port Dev) : Z * bool * port Dev :=
  if 0 <? pt_sem p then (RT_EOK, false, pt_set_sem (pt_sem p - 1) p)
  else if tick =? 0 then (- RT_ETIMEOUT, false, p)
  else match arrivals with
       | [] => (- RT_ETIMEOUT, true, p)
       | bs :: rest =>
           (RT_EOK, true, foldl (λ p bs, rx_interrupt false bs p) (rx_interrupt true bs p) rest)
       end.

(** Result, buffer contents, whether the thread slept. *)
Definition rs485_recv (buf : option (list Z)) (max_len timeout_ms : Z)
    (arrivals : list (list Z)) (p : port Dev) : Z * option (list Z) * bool * port Dev :=
  match buf with
  | Some b =>
      if negb (pt_bound p) || (max_len =? 0) then (- RT_ERROR, buf, false, p) else
      (* Wait for RX indication or timeout. *)
      let '(err, slept, p) :=
        sem_take (rt_tick_from_millisecond (s32 timeout_ms)) arrivals p in
      if negb (err =? RT_EOK) && negb (err =? - RT_ETIMEOUT) then (- RT_ERROR, buf, slept, p) else
      (* Read from ring buffer with interrupts disabled to keep it thread-safe. *)
      let '(n, buf, rb) := lwrb_read (Some (pt_rb p)) buf max_len in
      (s32 n, buf, slept, pt_set_rb (default (pt_rb p) rb) p)
  | None => (- RT_ERROR, buf, false, p)
  end.

Definition rs485_send_then_recv (tx_buf : option (list Z)) (tx_len : Z) (rx_buf : option (list Z))
    (max_rx_len timeout_ms : Z) (arrivals : list (list Z)) (p : port Dev)
    : Z * option (list Z) * bool * port Dev :=
  let '(ret, p) := rs485_send tx_buf tx_len timeout_ms p in
  if ret <? 0 then (ret, rx_buf, false, p)
  else rs485_recv rx_buf max_rx_len timeout_ms arrivals p.

(** The shell command; [rx0] is the uninitialised receive frame. *)
Definition rs485_send_cmd (argv : list (list Z)) (rx0 : list Z) (arrivals : list (list Z))
    (p : port Dev) : port Dev :=
  match argv with
  | _ :: ((_ :: _) as args) =>
      let hex_str := join_args args (replicate 256 0) in
      let '(tx_len, tx_buf) :=
        hex_str_to_bytes (Some hex_str) (Some (replicate 256 0)) RS485_FRAME_SIZE in
      if tx_len <=? 0 then pt_emit (EvText (str "invalid hex string")) p else
      let tx := take (Z.to_nat tx_len) (default [] tx_buf) in
      let p := pt_emit (EvText (str "RS485 TX[" ++ dec_int tx_len ++ str "]:" ++ hex_dump tx)) p in
      let '(rx_len, rx_buf, _, p) :=
        rs485_send_then_recv tx_buf (u16 tx_len) (Some rx0) RS485_FRAME_SIZE 200 arrivals p in
      if rx_len <? 0
      then pt_emit (EvText (str "RS485 send/recv failed: " ++ dec_int rx_len)) p
      else pt_emit (EvText (str "RS485 RX[" ++ dec_int rx_len ++ str "]:"
                              ++ hex_dump (take (Z.to_nat rx_len) (default [] rx_buf)))) p
  | _ =>
      pt_emit (EvText (str "   eg: rs485_send 01 03 00 00 00 0A C5 CD"))
        (pt_emit (EvText (str "usage: rs485_send <hex bytes>")) p)
  end.

Definition rs485_auto_init (p : port Dev) : Z * port Dev := rs485_init 115200 p.

End rs485.

(** * Transmission *)

(** The time a delay requests, in microseconds. *)
Definition wait_us (e : option bus_event) : Z :=
  match e with
  | Some (EvUsDelay us) => us
  | Some (EvMsDelay ms) => 1000 * ms
  | _ => 0
  end.

(** The numerator of the waiting time, in 32-bit arithmetic. *)
Definition delay_num (len baud : Z) : Z :=
  u32 (u32 (u32 (u32 (u32 (len + 1) * 10) * 1000000) + baud) - 1).

(** Rounding up to milliseconds never shortens the delay. *)
Lemma tx_delay_us len baud :
  0 < len < 65536 → 2 ≤ baud < 4294967296 →
  delay_num len baud / baud ≤ wait_us (tx_delay len baud) < delay_num len baud / baud + 1000.
Proof.
  intros Hlen Hbaud. unfold tx_delay. fold (delay_num len baud).
  destruct (Z.eqb_spec len 0); [lia |]. destruct (Z.eqb_spec baud 0); [lia |]. simpl.
  pose proof (u32_range (u32 (u32 (u32 (u32 (len + 1) * 10) * 1000000) + baud) - 1)) as Hn.
  fold (delay_num len baud) in Hn. unfold is_u32 in Hn.
  assert (0 ≤ delay_num len baud / baud) by (apply Z.div_pos; lia).
  assert (delay_num len baud / baud < 2147483648) by (apply Z.div_lt_upper_bound; lia).
  destruct (Z.ltb_spec (delay_num len baud / baud) 1000); simpl; [lia |].
  rewrite u32_small by (unfold is_u32; lia).
  pose proof (Z.div_mod (delay_num len baud / baud + 999) 1000 ltac:(lia)).
  pose proof (Z.mod_pos_bound (delay_num len baud / baud + 999) 1000 ltac:(lia)). lia.
Qed.

(** Without overflow the requested time covers [len + 1] frames of ten bits. *)
Lemma tx_delay_covers len baud :
  0 < len < 65536 → 2 ≤ baud → (len + 1) * 10 * 1000000 + baud - 1 < 4294967296 →
  (len + 1) * 10 * 1000000 ≤ wait_us (tx_delay len baud) * baud.
Proof.
  intros Hlen Hbaud Hov. pose proof (tx_delay_us len baud Hlen ltac:(lia)) as [Hus _].
  assert (Hn : delay_num len baud = (len + 1) * 10 * 1000000 + baud - 1).
  { unfold delay_num. rewrite (u32_small (len + 1)) by (unfold is_u32; lia).
    rewrite (u32_small ((len + 1) * 10)), (u32_small (_ * 1000000)) by (unfold is_u32; lia).
    unfold u32. rewrite Zminus_mod_idemp_l. apply Z.mod_small. lia. }
  rewrite Hn in Hus. set (X := (len + 1) * 10 * 1000000) in *.
  pose proof (Z.div_mod (X + baud - 1) baud ltac:(lia)).
  pose proof (Z.mod_pos_bound (X + baud - 1) baud ltac:(lia)). nia.
Qed.

(** C12. At the default 115200 baud the waiting time of [rs485_send] is right exactly for
    frames of up to 428 bytes: for those the requested delay covers the time the bits
    need on the wire, and for every longer frame a [uint16_t] length can express the
    32-bit product overflows and the delay is too short, so that the transceiver is
    switched back to receiving while bytes are still being sent. *)
Theorem rs485_wait_exact (len : Z) (Hlen : 0 < len < 65536) :
  len * 10 * 1000000 ≤ wait_us (tx_delay len 115200) * 115200 ↔ len ≤ 428.
Proof.
  split; intros Hw.
  - destruct (Z.le_gt_cases len 428) as [|Hgt]; [done | exfalso].
    destruct (Z.le_gt_cases 445 len).
    + pose proof (tx_delay_us len 115200 Hlen ltac:(lia)) as [_ Hus].
      pose proof (u32_range (u32 (u32 (u32 (u32 (len + 1) * 10) * 1000000) + 115200) - 1)) as Hn.
      fold (delay_num len 115200) in Hn. unfold is_u32 in Hn.
      pose proof (Z.mul_div_le (delay_num len 115200) 115200 ltac:(lia)). lia.
    + assert (Hall : forallb (λ l, wait_us (tx_delay l 115200) * 115200 <? l * 10 * 1000000)
                       (seqZ 429 16) = true) by by vm_compute.
      rewrite forallb_forall in Hall. specialize (Hall len).
      rewrite Z.ltb_lt in Hall. apply Z.lt_nge in Hall; [done |].
      apply list_elem_of_In, elem_of_seqZ. lia.
  - pose proof (tx_delay_covers len 115200 Hlen ltac:(lia) ltac:(lia)). lia.
Qed.

Lemma rs485_wait_exact_witness :
  300 * 10 * 1000000 ≤ wait_us (tx_delay 300 115200) * 115200 ↔ 300 ≤ 428.
Proof. apply (rs485_wait_exact 300). lia. Defined.

Section send.
Context {Dev : Type} `{SerialDev Dev}.


End send.

(** * Reception *)

(** The abstract receive side: a byte queue bounded by [cap] and a token counter. *)
Record aport : Type := mk_ap { ap_q : list Z; ap_tok : Z }.

Definition a_interrupt (cap : Z) (waiting : bool) (bs : list Z) (a : aport) : aport :=
  mk_ap (ap_q a ++ take (Z.to_nat (cap - blen (ap_q a))) bs)
    (if waiting then ap_tok a else Z.min (ap_tok a + 1) RT_SEM_VALUE_MAX).

(** A token is consumed at once; otherwise the caller sleeps until the interrupts. *)
Definition a_take (cap tick : Z) (arrivals : list (list Z)) (a : aport) : bool * aport :=
  if 0 <? ap_tok a then (false, mk_ap (ap_q a) (ap_tok a - 1))
  else if tick =? 0 then (false, a)
  else match arrivals with
       | [] => (true, a)
       | bs :: rest =>
           (true, foldl (λ a bs, a_interrupt cap false bs a) (a_interrupt cap true bs a) rest)
       end.

(** Up to [n] of the oldest bytes, and whether the caller slept. *)
Definition a_recv (cap n tick : Z) (arrivals : list (list Z)) (a : aport)
    : list Z * bool * aport :=
  let '(slept, a) := a_take cap tick arrivals a in
  (take (Z.to_nat n) (ap_q a), slept, mk_ap (drop (Z.to_nat n) (ap_q a)) (ap_tok a)).

Section reception.
Context {Dev : Type} `{SerialLaws Dev}.

Definition abs_port (p : port Dev) : aport := mk_ap (contents (pt_rb p)) (pt_sem p).

(** An initialised port with a ring of [cap] usable bytes, on a device that holds [fc]. *)
Record port_ok (cap fc : Z) (p : port Dev) : Prop := {
  po_rx : rx_ok fc p;
  po_bound : pt_bound p = true;
  po_cap : capacity (pt_rb p) = cap
}.

Lemma rx_interrupt_spec cap fc waiting bs p :
  port_ok cap fc p → arrival_ok fc bs →
  port_ok cap fc (rx_interrupt waiting bs p)
  ∧ abs_port (rx_interrupt waiting bs p) = a_interrupt cap waiting bs (abs_port p)
  ∧ pt_log (rx_interrupt waiting bs p) = pt_log p.
Proof.
  intros [Hrx Hb Hcap] Har. destruct (drain_all_spec fc p bs Hrx Har) as (Hi & Hrx' & Hsz & Hb' & Hlog & Hs & Hc).
  unfold rx_interrupt, rs485_rx_ind, abs_port, a_interrupt. destruct (dev_rx (pt_dev p) bs) as [ind d]. simpl in Hi. subst ind. cbn [negb snd] in *.
  set (p' := drain_all _) in *. clearbody p'. unfold capacity in *.
  assert (Hpo : port_ok cap fc p') by (split; [done | congruence | unfold capacity; lia]).
  cbn [ap_q ap_tok]. subst cap. rewrite <-Hs, <-Hc. unfold sem_release. destruct waiting; simpl; [done |].
  pose proof (ro_sem _ _ Hrx').
  destruct (Z.ltb_spec (pt_sem p') RT_SEM_VALUE_MAX); simpl;
    (split; [|split; [f_equal; lia | done]]); [|done].
  destruct Hrx'. split; [split; simpl; (done || lia) | simpl; congruence | simpl; apply Hpo].
Qed.

Lemma rx_interrupts_spec cap fc l p :
  port_ok cap fc p → Forall (arrival_ok fc) l →
  let p' := foldl (λ p bs, rx_interrupt false bs p) p l in
  port_ok cap fc p' ∧ abs_port p' = foldl (λ a bs, a_interrupt cap false bs a) (abs_port p) l
  ∧ pt_log p' = pt_log p.
Proof.
  intros Hok Hl. revert p Hok. induction Hl as [|bs l Hbs _ IH]; intros p Hok; [done |]. simpl.
  destruct (rx_interrupt_spec cap fc false bs p Hok Hbs) as (Hok' & Ha & Hl).
  destruct (IH _ Hok') as (H1 & H2 & H3). split; [done |]. by rewrite H2, H3, Ha.
Qed.

Lemma sem_take_spec cap fc tick arrivals p :
  port_ok cap fc p → Forall (arrival_ok fc) arrivals →
  let '(err, slept, p') := sem_take tick arrivals p in
  port_ok cap fc p' ∧ (err = RT_EOK ∨ err = - RT_ETIMEOUT)
  ∧ (slept, abs_port p') = a_take cap tick arrivals (abs_port p) ∧ pt_log p' = pt_log p.
Proof.
  intros Hok Har. pose proof Hok as [[Hr Hf Hro Hs] Hb Hcap]. unfold sem_take, a_take. simpl.
  destruct (Z.ltb_spec 0 (pt_sem p)).
  { split_and!; [split; [split|..]; simpl; (done || lia) | by left | done | done]. }
  destruct (tick =? 0); [by split_and!; [|right| |] |].
  destruct arrivals as [|bs rest]; [by split_and!; [|right| |] |].
  apply Forall_cons in Har as [Hbs Hrest]. destruct (rx_interrupt_spec cap fc true bs p Hok Hbs) as (Hok1 & Ha1 & Hl1).
  destruct (rx_interrupts_spec cap fc rest _ Hok1 Hrest) as (Hok2 & Ha2 & Hl2).
  split_and!; [done | by left | by rewrite Ha2, Ha1 | by rewrite Hl2, Hl1].
Qed.

Lemma rs485_recv_spec cap fc b n t arrivals p :
  port_ok cap fc p → Forall (arrival_ok fc) arrivals → cap < 65536 → 0 < n < 65536 → n ≤ blen b →
  let '(out, slept, a') :=
    a_recv cap n (rt_tick_from_millisecond (s32 t)) arrivals (abs_port p) in
  ∃ p', rs485_recv (Some b) n t arrivals p
          = (blen out, Some (out ++ drop (length out) b), slept, p')
    ∧ port_ok cap fc p' ∧ abs_port p' = a' ∧ pt_log p' = pt_log p.
Proof.
  intros Hok Har Hcap Hn Hb. unfold rs485_recv, a_recv. rewrite (po_bound _ _ _ Hok).
  destruct (Z.eqb_spec n 0); [lia |]. simpl.
  pose proof (sem_take_spec cap fc (rt_tick_from_millisecond (s32 t)) arrivals p Hok Har) as Ht.
  destruct (sem_take _ _ _) as [[err slept] p1]. destruct Ht as (Hok1 & Herr & Ha & Hlog).
  rewrite <-Ha. simpl.
  replace (negb (err =? RT_EOK) && negb (err =? - RT_ETIMEOUT)) with false
    by (destruct Herr as [-> | ->]; done).
  pose proof Hok1 as [[Hr1 Hf1 Hro1 Hs1] Hb1 Hcap1].
  destruct (lwrb_read_fifo (pt_rb p1) b n Hr1) as (rb' & Hread & Hr' & Hsz & Hc);
    [unfold is_u32; lia | lia |].
  rewrite Hread. simpl.
  assert (Hq : blen (contents (pt_rb p1)) ≤ capacity (pt_rb p1))
    by (destruct Hr1 as [l Hwf]; apply (capacity_bound _ l Hwf)).
  pose proof (blen_nonneg (contents (pt_rb p1))).
  assert (Hout : blen (take (Z.to_nat n) (contents (pt_rb p1)))
                 = Z.min (blen (contents (pt_rb p1))) n) by len.
  exists (pt_set_rb rb' p1). split; [|split; [|split; [|exact Hlog]]].
  - rewrite s32_small by (unfold is_s32; lia). rewrite <-Hout. unfold blen. by rewrite Nat2Z.id.
  - split; [split; simpl; done | done |]. simpl. unfold capacity in *. by rewrite Hsz.
  - unfold abs_port. simpl. by rewrite Hc.
Qed.

(** A history of the port: interrupts that find no thread waiting, and receptions
    with the interrupts that happen while they sleep. *)
Inductive rx_step : Type :=
  | RxInterrupt (bs : list Z)
  | RxRecv (n t : Z) (arrivals : list (list Z)).

Definition rx_step_ok (fc : Z) (s : rx_step) : Prop :=
  match s with
  | RxInterrupt bs => arrival_ok fc bs
  | RxRecv n _ arrivals => 0 < n < 65536 ∧ Forall (arrival_ok fc) arrivals
  end.

(** Return value, bytes delivered, whether the caller slept. *)
Fixpoint run_rx (steps : list rx_step) (p : port Dev) : list (Z * list Z * bool) * port Dev :=
  match steps with
  | [] => ([], p)
  | RxInterrupt bs :: steps => run_rx steps (rx_interrupt false bs p)
  | RxRecv n t arrivals :: steps =>
      let '(r, b, slept, p) :=
        rs485_recv (Some (replicate (Z.to_nat n) 0)) n t arrivals p in
      let '(outs, p) := run_rx steps p in
      ((r, take (Z.to_nat r) (default [] b), slept) :: outs, p)
  end.

Fixpoint spec_rx (cap : Z) (steps : list rx_step) (a : aport)
    : list (Z * list Z * bool) * aport :=
  match steps with
  | [] => ([], a)
  | RxInterrupt bs :: steps => spec_rx cap steps (a_interrupt cap false bs a)
  | RxRecv n t arrivals :: steps =>
      let '(out, slept, a) := a_recv cap n (rt_tick_from_millisecond (s32 t)) arrivals a in
      let '(outs, a) := spec_rx cap steps a in
      ((blen out, out, slept) :: outs, a)
  end.

(** C14. The receive path is a bounded byte queue: from an initialised port, on a device
    that keeps the laws of the framework and holds [fc] bytes, any interleaving of
    interrupts, each with at most [fc] bytes, and [rs485_recv] calls (with the
    interrupts that wake them) returns the same counts and the same bytes as a FIFO of the
    ring's capacity that keeps the bytes that fit, together with a saturating token
    counter that decides whether a call sleeps. *)
Theorem rs485_refines_queue (cap fc : Z) (steps : list rx_step) (p : port Dev)
    (Hok : port_ok cap fc p) (Hcap : cap < 65536) (Hsteps : Forall (rx_step_ok fc) steps) :
  port_ok cap fc (run_rx steps p).2
  ∧ spec_rx cap steps (abs_port p) = ((run_rx steps p).1, abs_port (run_rx steps p).2).
Proof.
  revert p Hok. induction Hsteps as [|s steps Hs _ IH]; intros p Hok; [done |].
  destruct s as [bs|n t arrivals]; cbn [run_rx spec_rx].
  - destruct (rx_interrupt_spec cap fc false bs p Hok Hs) as (Hok' & Ha & _). rewrite <-Ha. by apply IH.
  - destruct Hs as [Hs Har].
    pose proof (rs485_recv_spec cap fc (replicate (Z.to_nat n) 0) n t arrivals p Hok Har Hcap Hs
      ltac:(len)) as Hr.
    destruct (a_recv _ _ _ _ _) as [[out slept] a'].
    destruct Hr as (p' & -> & Hok' & <- & _). destruct (IH p' Hok') as [H1 H2]. rewrite H2.
    destruct (run_rx steps p') as [outs p'']. simpl in *. split; [done |].
    do 3 f_equal. unfold blen. rewrite Nat2Z.id. by rewrite take_app_length.
Qed.

(** [rs485_init] ends in one of two states: initialised, with an empty 511-byte ring,
    no token, the pin in the receive position and the given baud rate, or failed with
    -RT_ERROR, the device pointer cleared and the bus untouched. The log shows the
    order of the calls: the receive callback is registered before the ring and the
    semaphore it uses are initialised. *)
Theorem rs485_init_result (baud : Z) (p : port Dev) :
  let '(r, p') := rs485_init baud p in
  (r = RT_EOK ∧ pt_bound p' = true ∧ pt_baud p' = baud ∧ ring_ok (pt_rb p')
     ∧ capacity (pt_rb p') = 511 ∧ abs_port p' = mk_ap [] 0
     ∧ pt_log p' = pt_log p ++ [EvRxIndicate; EvPinMode; EvPin false; EvRingInit; EvSemInit])
  ∨ (r = - RT_ERROR ∧ pt_bound p' = false ∧ pt_log p' = pt_log p).
Proof.
  unfold rs485_init. set (p0 := if pt_bound p then _ else p).
  assert (Hp0 : pt_bound p0 = false ∧ pt_log p0 = pt_log p)
    by (unfold p0; by destruct (pt_bound p) eqn:E).
  clearbody p0. destruct Hp0 as [Hb0 <-].
  destruct (dev_find (pt_dev p0)); cbn [negb]; [|by right].
  destruct (dev_control _ _) as [r1 d1]. destruct (negb (r1 =? RT_EOK)); [by right |].
  destruct (dev_open _) as [r2 d2]. destruct (negb (r2 =? RT_EOK)); [by right |].
  left. unfold lwrb_init, abs_port. cbn -[RS485_RX_BUF_SIZE replicate].
  split_and!; try done.
  - eexists. split; simpl; [done | by vm_compute | |..]; unfold RS485_RX_BUF_SIZE; lia.
  - by rewrite <-!app_assoc.
Qed.

(** With a token the call does not sleep. *)
Lemma a_recv_token cap n tick arrivals q k :
  0 ≤ k →
  a_recv cap n tick arrivals (mk_ap q (k + 1))
    = (take (Z.to_nat n) q, false, mk_ap (drop (Z.to_nat n) q) k).
Proof.
  intros Hk. unfold a_recv, a_take. cbn [ap_tok ap_q]. destruct (Z.ltb_spec 0 (k + 1)); [|lia].
  cbn [ap_tok ap_q]. by rewrite Z.add_simpl_r.
Qed.

(** Tokens outlive the bytes they announced: when a message arrives in two
    interrupts and one [rs485_recv] collects all of it, a token is left, and the next
    request/response exchange returns 0 bytes at once, without sleeping, although the
    response arrives within its timeout. *)
Theorem rs485_stale_token (p : port Dev) (fc : Z) (bs1 bs2 req resp buf rbuf : list Z) (n t rlen rn rt : Z)
    (Hok : port_ok 511 fc p) (Har : Forall (arrival_ok fc) [bs1; bs2; resp]) (Hempty : abs_port p = mk_ap [] 0)
    (Hfit : blen bs1 + blen bs2 ≤ 511) (Hn : blen bs1 + blen bs2 ≤ n < 65536) (Hn0 : 0 < n)
    (Hbuf : n ≤ blen buf) (Hreq : 0 < rlen < 65536) (Hrn : 0 < rn < 65536) (Hrbuf : rn ≤ blen rbuf) :
  let p2 := rx_interrupt false bs2 (rx_interrupt false bs1 p) in
  ∃ p3 p4,
    rs485_recv (Some buf) n t [] p2
      = (blen (bs1 ++ bs2), Some ((bs1 ++ bs2) ++ drop (length (bs1 ++ bs2)) buf), false, p3)
    ∧ rs485_send_then_recv (Some req) rlen (Some rbuf) rn rt [resp] p3
      = (0, Some rbuf, false, p4).
Proof.
  intros p2. rewrite !Forall_cons in Har. destruct Har as (Hb1 & Hb2 & Hb3 & _).
  destruct (rx_interrupt_spec 511 fc false bs1 p Hok Hb1) as (Hok1 & Ha1 & _).
  destruct (rx_interrupt_spec 511 fc false bs2 _ Hok1 Hb2) as (Hok2 & Ha2 & _). fold p2 in Hok2, Ha2.
  assert (Habs : abs_port p2 = mk_ap (bs1 ++ bs2) (1 + 1)).
  { rewrite Ha2, Ha1, Hempty. unfold a_interrupt. simpl. change (blen []) with 0.
    rewrite !(take_ge bs1) by len. rewrite take_ge by len. done. }
  pose proof (rs485_recv_spec 511 fc buf n t [] p2 Hok2 (Forall_nil_2 _) ltac:(lia) ltac:(lia) Hbuf) as Hr.
  rewrite Habs, (a_recv_token 511 n _ [] (bs1 ++ bs2) 1) in Hr by lia.
  rewrite (take_ge (bs1 ++ bs2)), (drop_ge (bs1 ++ bs2)) in Hr by len. destruct Hr as (p3 & Hr & Hok3 & Ha3 & _).
  exists p3. rewrite Hr. unfold rs485_send_then_recv, rs485_send. rewrite (po_bound _ _ _ Hok3).
  destruct (Z.eqb_spec rlen 0); [lia |]. simpl.
  destruct (dev_write (pt_dev p3) (take (Z.to_nat rlen) req)) as [w d] eqn:Hw.
  set (p4 := rs485_dir_rx _).
  assert (Hp4 : port_ok 511 fc p4 ∧ abs_port p4 = mk_ap [] (0 + 1)).
  { change (0 + 1) with 1. rewrite <-Ha3. destruct Hok3 as [[? ? [Hfc ?] ?] ? ?].
    destruct (dev_write_spec (pt_dev p3) (take (Z.to_nat rlen) req)) as [Hdw Hdc]; [lia |].
    rewrite Hw in Hdw, Hdc. unfold p4, rs485_wait_tx_complete.
    destruct (tx_delay _ _); simpl in *; (split; [split; [split; simpl; first [done | congruence | split; [congruence | done]]|..]|]; done). }
  destruct Hp4 as [Hok4 Ha4]. destruct (Z.ltb_spec rlen 0); [lia |].
  pose proof (rs485_recv_spec 511 fc rbuf rn rt [resp] p4 Hok4 (Forall_cons_2 _ _ _ Hb3 (Forall_nil_2 _)) ltac:(lia) Hrn Hrbuf) as Hr4.
  rewrite Ha4, (a_recv_token 511 rn _ [resp] [] 0), take_nil, drop_nil in Hr4 by lia.
  destruct Hr4 as (p5 & Hr5 & _). exists p5. split; [done |]. exact Hr5.
Qed.

End reception.

(** * On the serial framework *)

(** [rs485_init] on a device of the framework that is not open gives a port that receives:
    interrupts of up to 63 bytes reach a ring of 511. *)
Theorem rs485_init_ready {HW : Type} `{UartLaws HW} (s : rt_serial_device HW) (baud : Z) (p : port (option (rt_serial_device HW)))
    (Hdev : pt_dev p = Some s) (Hfree : pt_bound p = false) (Hcl : closed s)
    (Hint : flag_set (flag s) RT_DEVICE_FLAG_INT_RX = true) (Hcfg : (uart_configure (hw s) (port_config baud)).1 = RT_EOK) :
  (rs485_init baud p).1 = RT_EOK ∧ port_ok 511 63 (rs485_init baud p).2 ∧ abs_port (rs485_init baud p).2 = mk_ap [] 0.
Proof.
  destruct (port_init_receives s baud Hcl Hint Hcfg) as (s1 & s2 & E1 & E2 & E3 & E4).
  unfold rs485_init. rewrite Hfree, Hdev. cbn [dev_find serial_dev negb pt_dev pt_bind]. rewrite Hdev, E1. cbn [pt_dev pt_set_dev].
  change (RT_EOK =? RT_EOK) with true. cbn [negb]. rewrite E2. cbn [pt_dev pt_set_dev negb]. unfold lwrb_init, abs_port.
  cbn -[RS485_RX_BUF_SIZE replicate dev_cap dev_pending dev_set_rx_indicate]. split; [done |]. split; [|done].
  split; [split | done | done]; cbn -[RS485_RX_BUF_SIZE replicate dev_cap dev_pending dev_set_rx_indicate]; [| exact E4 | split; [exact E3 | lia] | done].
  eexists. split; simpl; [done | by vm_compute | |..]; unfold RS485_RX_BUF_SIZE; lia.
Qed.

(** A port on a simulated UART. *)
Definition sim_free : port (option (rt_serial_device sim_uart)) :=
  mk_port (Some (sim_serial_device 2048)) false 0 (mk_lwrb None 0 0 0 None None []) 0 [].
Definition sim_port : port (option (rt_serial_device sim_uart)) := (rs485_auto_init sim_free).2.

Lemma rs485_init_ready_witness :
  (rs485_init 115200 sim_free).1 = RT_EOK ∧ port_ok 511 63 (rs485_init 115200 sim_free).2
  ∧ abs_port (rs485_init 115200 sim_free).2 = mk_ap [] 0.
Proof. apply (rs485_init_ready (sim_serial_device 2048)); [done | done | apply sim_closed | done | done]. Defined.

Lemma sim_port_ok : port_ok 511 63 sim_port.
Proof.
  unfold sim_port, rs485_auto_init. destruct (rs485_init_ready (sim_serial_device 2048) 115200 sim_free) as (_ & Hok & _);
    [done | done | apply sim_closed | done | done | exact Hok].
Qed.


Lemma rs485_refines_queue_witness :
  spec_rx 511 [RxInterrupt [1; 2]; RxRecv 1 10 []; RxRecv 8 10 [[3]; [4]]] (abs_port sim_port)
    = ((run_rx [RxInterrupt [1; 2]; RxRecv 1 10 []; RxRecv 8 10 [[3]; [4]]] sim_port).1,
       abs_port (run_rx [RxInterrupt [1; 2]; RxRecv 1 10 []; RxRecv 8 10 [[3]; [4]]] sim_port).2).
Proof.
  apply (rs485_refines_queue 511 63).
  - apply sim_port_ok.
  - lia.
  - by repeat (constructor || split).
Defined.

Lemma rs485_stale_token_witness :
  ∃ p3 p4,
    rs485_recv (Some (replicate 8 0)) 8 200 [] (rx_interrupt false [2] (rx_interrupt false [1] sim_port))
      = (2, Some [1; 2; 0; 0; 0; 0; 0; 0], false, p3)
    ∧ rs485_send_then_recv (Some [7]) 1 (Some [9; 9]) 2 200 [[5]] p3 = (0, Some [9; 9], false, p4).
Proof.
  destruct (rs485_stale_token sim_port 63 [1] [2] [7] [5] (replicate 8 0) [9; 9] 8 200 1 2 200)
    as (p3 & p4 & H3 & H4).
  - apply sim_port_ok.
  - by repeat (constructor || split).
  - by vm_compute.
  - by vm_compute.
  - by vm_compute.
  - lia.
  - by vm_compute.
  - lia.
  - lia.
  - by vm_compute.
  - exists p3, p4. split; [exact H3 | exact H4].
Defined.

(** The shell command on the simulated bus: "01 03" is transmitted, the response is
    printed. *)
Example rs485_cmd_example :
  pt_log (rs485_send_cmd [str "rs485_send_cmd"; str "01"; str "0a"] (replicate 256 0) [[171]] sim_port)
    = pt_log sim_port ++
      [EvText (str "RS485 TX[2]: 01 0A"); EvPin true; EvTx [1; 10]; EvUsDelay 261; EvPin false;
       EvText (str "RS485 RX[1]: AB")].
Proof. by vm_compute. Qed.
