(* ===== verification/UartTest.v ===== *)
(** The plain UART test port of applications/uart_test.c: the receive path of rs485.c
    without a direction pin and without a transmission delay. *)

From Stdlib Require Import String.
From S2P Require Import Prelude.
From S2P Require Import CText.
From S2P Require Import RtDef.
From S2P Require Import Lwrb.
From S2P Require Import Serial.
From S2P Require Import SerialCore.
From S2P Require Import SerialPort.
From S2P Require Import Rs485.

Open Scope Z_scope.
Open Scope list_scope.

Definition TEST_RX_BUF_SIZE : Z := 512.
Definition TEST_FRAME_SIZE : Z := 256.

Section uart_test.
Context {Dev : Type} `{SerialDev Dev}.

(** * Operations *)

Definition uart_test_rx_ind (waiting : bool) (dev : bool) (p : port Dev) : Z * port Dev :=
  if negb dev then (- RT_ERROR, p)
  else (RT_EOK, sem_release waiting (drain_all p)).

Definition uart_test_init (baudrate : Z) (p : port Dev) : Z * port Dev :=
  let p := if pt_bound p then pt_bind false (pt_set_dev (dev_close (pt_dev p)) p) else p in
  if negb (dev_find (pt_dev p)) then (- RT_ERROR, p) else
  let p := pt_bind true p in
  let '(r, d) := dev_control (pt_dev p) baudrate in
  let p := pt_set_dev d p in
  if negb (r =? RT_EOK) then (- RT_ERROR, pt_bind false p) else
  let '(r, d) := dev_open (pt_dev p) in
  let p := pt_set_dev d p in
  if negb (r =? RT_EOK) then (- RT_ERROR, pt_bind false p) else
  let p := pt_emit EvRxIndicate (pt_set_dev (dev_set_rx_indicate (pt_dev p)) p) in
  let rx_rb_data := replicate (Z.to_nat TEST_RX_BUF_SIZE) 0 in
  let '(_, rb) := lwrb_init (Some (pt_rb p)) (Some rx_rb_data) TEST_RX_BUF_SIZE in
  let p := pt_emit EvRingInit (pt_set_rb (default (pt_rb p) rb) p) in
  let p := pt_emit EvSemInit (pt_set_sem 0 p) in
  (RT_EOK, pt_set_baud baudrate p).

Definition uart_test_send (data : option (list Z)) (len timeout_ms : Z) (p : port Dev)
    : Z * port Dev :=
  match data with
  | Some data =>
      if negb (pt_bound p) || (len =? 0) then (- RT_ERROR, p) else
      let bytes := take (Z.to_nat len) data in
      let '(_, d) := dev_write (pt_dev p) bytes in
      (len, pt_emit (EvTx bytes) (pt_set_dev d p))
  | None => (- RT_ERROR, p)
  end.

(** An interrupt, and [rt_sem_take] as in Rs485.v with this file's callback. *)
Definition uart_interrupt (waiting : bool) (bs : list Z) (p : port Dev) : port Dev :=
  let '(indicated, d) := dev_rx (pt_dev p) bs in
  if indicated then snd (uart_test_rx_ind waiting true (pt_set_dev d p)) else pt_set_dev d p.

Definition uart_sem_take (tick : Z) (arrivals : list (list Z)) (p : port Dev)
    : Z * bool * port Dev :=
  if 0 <? pt_sem p then (RT_EOK, false, pt_set_sem (pt_sem p - 1) p)
  else if tick =? 0 then (- RT_ETIMEOUT, false, p)
  else match arrivals with
       | [] => (- RT_ETIMEOUT, true, p)
       | bs :: rest =>
           (RT_EOK, true, foldl (λ p bs, uart_interrupt false bs p) (uart_interrupt true bs p) rest)
       end.

Definition uart_test_recv (buf : option (list Z)) (max_len timeout_ms : Z)
    (arrivals : list (list Z)) (p : port Dev) : Z * option (list Z) * bool * port Dev :=
  match buf with
  | Some b =>
      if negb (pt_bound p) || (max_len =? 0) then (- RT_ERROR, buf, false, p) else
      let '(err, slept, p) :=
        uart_sem_take (rt_tick_from_millisecond (s32 timeout_ms)) arrivals p in
      if negb (err =? RT_EOK) && negb (err =? - RT_ETIMEOUT) then (- RT_ERROR, buf, slept, p) else
      let '(n, buf, rb) := lwrb_read (Some (pt_rb p)) buf max_len in
      (s32 n, buf, slept, pt_set_rb (default (pt_rb p) rb) p)
  | None => (- RT_ERROR, buf, false, p)
  end.

Definition uart_test_send_then_recv (tx_buf : option (list Z)) (tx_len : Z)
    (rx_buf : option (list Z)) (max_rx_len timeout_ms : Z) (arrivals : list (list Z))
    (p : port Dev) : Z * option (list Z) * bool * port Dev :=
  let '(ret, p) := uart_test_send tx_buf tx_len timeout_ms p in
  if ret <? 0 then (ret, rx_buf, false, p)
  else uart_test_recv rx_buf max_rx_len timeout_ms arrivals p.

Definition uart_test_cmd (argv : list (list Z)) (rx0 : list Z) (arrivals : list (list Z))
    (p : port Dev) : port Dev :=
  match argv with
  | _ :: ((_ :: _) as args) =>
      let hex_str := join_args args (replicate 256 0) in
      let '(tx_len, tx_buf) :=
        hex_str_to_bytes (Some hex_str) (Some (replicate 256 0)) TEST_FRAME_SIZE in
      if tx_len <=? 0 then pt_emit (EvText (str "invalid hex string")) p else
      let tx := take (Z.to_nat tx_len) (default [] tx_buf) in
      let p := pt_emit (EvText (str "TEST TX[" ++ dec_int tx_len ++ str "]:" ++ hex_dump tx)) p in
      let '(rx_len, rx_buf, _, p) :=
        uart_test_send_then_recv tx_buf (u16 tx_len) (Some rx0) TEST_FRAME_SIZE 200 arrivals p in
      if rx_len <? 0
      then pt_emit (EvText (str "TEST send/recv failed: " ++ dec_int rx_len)) p
      else pt_emit (EvText (str "TEST RX[" ++ dec_int rx_len ++ str "]:"
                              ++ hex_dump (take (Z.to_nat rx_len) (default [] rx_buf)))) p
  | _ =>
      pt_emit (EvText (str "   eg: uart_test 01 03 00 00 00 0A C5 CD"))
        (pt_emit (EvText (str "usage: uart_test <hex bytes>")) p)
  end.

Definition uart_test_auto_init (p : port Dev) : Z * port Dev := uart_test_init 115200 p.

End uart_test.

(** * Request and response *)

Section exchange.
Context {Dev : Type} `{SerialLaws Dev}.

(** A request/response exchange on a quiet port delivers the response: if the ring is
    empty and no token is left, and the whole response arrives in one interrupt while
    the call sleeps, [uart_test_send_then_recv] transmits the request and returns the
    first [n] bytes of the response; if nothing arrives it returns 0 after its
    timeout. *)
Theorem uart_test_exchange (p : port Dev) (fc : Z) (req resp rbuf : list Z) (len n t : Z)
    (Hok : port_ok 511 fc p) (Har : arrival_ok fc resp) (Hempty : abs_port p = mk_ap [] 0)
    (Hlen : 0 < len < 65536) (Hn : 0 < n < 65536) (Hbuf : n ≤ blen rbuf)
    (Ht : rt_tick_from_millisecond (s32 t) ≠ 0) (Hfit : blen resp ≤ 511) :
  let out := take (Z.to_nat n) resp in
  (∃ p', uart_test_send_then_recv (Some req) len (Some rbuf) n t [resp] p
           = (blen out, Some (out ++ drop (length out) rbuf), true, p')
         ∧ pt_log p' = pt_log p ++ [EvTx (take (Z.to_nat len) req)])
  ∧ ∃ p', uart_test_send_then_recv (Some req) len (Some rbuf) n t [] p
            = (0, Some rbuf, true, p').
Proof.
  intros out. unfold uart_test_send_then_recv, uart_test_send. rewrite (po_bound _ _ _ Hok).
  destruct (Z.eqb_spec len 0); [lia |]. simpl.
  destruct (dev_write (pt_dev p) (take (Z.to_nat len) req)) as [w d] eqn:Hw.
  set (p1 := pt_emit _ _). destruct (Z.ltb_spec len 0); [lia |].
  assert (Hp1 : port_ok 511 fc p1 ∧ abs_port p1 = mk_ap [] 0).
  { rewrite <-Hempty. destruct Hok as [[? ? [Hfc ?] ?] ? ?].
    destruct (dev_write_spec (pt_dev p) (take (Z.to_nat len) req)) as [Hdw Hdc]; [lia |].
    rewrite Hw in Hdw, Hdc. split; [|done].
    split; [split; simpl in *; first [done | congruence | split; [congruence | done]] | done | done]. }
  destruct Hp1 as [Hok1 Ha1].
  change uart_test_recv with (rs485_recv (Dev:=Dev)).
  pose proof (rs485_recv_spec 511 fc rbuf n t [resp] p1 Hok1 (Forall_cons_2 _ _ _ Har (Forall_nil_2 _)) ltac:(lia) Hn Hbuf) as Hr.
  pose proof (rs485_recv_spec 511 fc rbuf n t [] p1 Hok1 (Forall_nil_2 _) ltac:(lia) Hn Hbuf) as Hr0.
  rewrite Ha1 in Hr, Hr0. unfold a_recv, a_take in Hr, Hr0. cbn [ap_tok ap_q] in Hr, Hr0.
  change (0 <? 0) with false in Hr, Hr0. cbv iota in Hr, Hr0.
  destruct (Z.eqb_spec (rt_tick_from_millisecond (s32 t)) 0); [done |].
  cbn [foldl a_interrupt ap_q ap_tok app] in Hr, Hr0. change (blen []) with 0 in Hr.
  rewrite (take_ge resp) in Hr by len. rewrite take_nil, app_nil_l, drop_0 in Hr0.
  destruct Hr as (p' & Hr & _ & _ & Hl), Hr0 as (p'' & Hr0 & _).
  split; [exists p'; split; [exact Hr | by rewrite Hl] | exists p''; exact Hr0].
Qed.

End exchange.

Lemma uart_test_exchange_witness :
  ∃ p', uart_test_send_then_recv (Some [1]) 1 (Some [9; 9; 9]) 3 200 [[5; 6]] sim_port
          = (2, Some [5; 6; 9], true, p').
Proof.
  destruct (uart_test_exchange sim_port 63 [1] [5; 6] [9; 9; 9] 1 3 200) as [(p' & Hr & _) _].
  - apply sim_port_ok.
  - by repeat (constructor || split).
  - by vm_compute.
  - lia.
  - lia.
  - by vm_compute.
  - by vm_compute.
  - by vm_compute.
  - exists p'. exact Hr.
Defined.
