(* ===== verification/Nor.v ===== *)
(** The serial NOR flash chip on the SPI bus, as its datasheet describes it to a driver:
    the array, the write-enable latch, the busy flag and the reaction to each command.
    The chip is hardware, so there is no source for it under src/; every theorem that
    uses it holds for any contents, any durations of its write cycles and any pattern of
    failing bus transfers. *)

From S2P Require Import Prelude.

(** What happens to a bus transfer: it succeeds, it is lost before it reaches the chip,
    or the chip takes it but the controller reports an error. *)
Inductive bus : Type := BusOk | BusLost | BusLate.
#[export] Instance bus_eq_dec : EqDecision bus.
Proof. solve_decision. Defined.

(** What is fixed in a part: erase commands with their block sizes, the JEDEC id and the
    SFDP area. *)
Record nor_part : Type := mk_nor_part {
  np_blocks : list (Z * Z);
  np_id : list Z;
  np_sfdp : list Z
}.

(** [nor_busy] counts the status reads that will still report a write cycle in progress;
    [nor_cycles] holds the durations of the coming write cycles and [nor_bus] the fate of
    the coming transfers (0 and success when the list is used up). [nor_aai] is the next
    address in auto-address-increment mode. *)
Record nor : Type := mk_nor {
  nor_spec : nor_part;
  nor_mem : list Z;
  nor_wel : bool;
  nor_busy : nat;
  nor_4b : bool;
  nor_aai : option Z;
  nor_cycles : list nat;
  nor_bus : list bus
}.

Definition set_wel (d : nor) (b : bool) : nor :=
  mk_nor (nor_spec d) (nor_mem d) b (nor_busy d) (nor_4b d) (nor_aai d) (nor_cycles d) (nor_bus d).
Definition set_4b (d : nor) (b : bool) : nor :=
  mk_nor (nor_spec d) (nor_mem d) (nor_wel d) (nor_busy d) b (nor_aai d) (nor_cycles d) (nor_bus d).
Definition set_aai (d : nor) (a : option Z) : nor :=
  mk_nor (nor_spec d) (nor_mem d) (nor_wel d) (nor_busy d) (nor_4b d) a (nor_cycles d) (nor_bus d).
Definition pop_bus (d : nor) : nor :=
  mk_nor (nor_spec d) (nor_mem d) (nor_wel d) (nor_busy d) (nor_4b d) (nor_aai d) (nor_cycles d)
    (tail (nor_bus d)).

(** The end of a write cycle clears the latch, except in auto-increment mode. *)
Definition wel_after (d : nor) (busy : nat) : bool :=
  if decide (busy = O) then (match nor_aai d with Some _ => nor_wel d | None => false end) else nor_wel d.

(** Start of a write cycle that leaves the array as [m]. *)
Definition start_cycle (d : nor) (m : list Z) : nor :=
  let n := default O (head (nor_cycles d)) in
  mk_nor (nor_spec d) m (wel_after d n) n (nor_4b d) (nor_aai d) (tail (nor_cycles d)) (nor_bus d).

(** Bit 0 of the status register is the busy flag, bit 1 the write-enable latch. *)
Definition nor_status (d : nor) : Z :=
  (if decide (nor_busy d = O) then 0 else 1) + (if nor_wel d then 2 else 0).

(** Time passes with every status read. *)
Definition tick (d : nor) : nor :=
  match nor_busy d with
  | O => d
  | S n => mk_nor (nor_spec d) (nor_mem d) (wel_after d n) n (nor_4b d) (nor_aai d)
             (nor_cycles d) (nor_bus d)
  end.

(** Programming can only clear bits. *)
Fixpoint nor_program (mem : list Z) (off : nat) (data : list Z) : list Z :=
  match data with
  | [] => mem
  | b :: data => nor_program (alter (λ old, Z.land old b) off mem) (S off) data
  end.

(** A page program: the address wraps inside its page of 256 bytes. *)
Fixpoint page_program (mem : list Z) (a : Z) (data : list Z) : list Z :=
  match data with
  | [] => mem
  | b :: data =>
      page_program (alter (λ old, Z.land old b) (Z.to_nat a) mem)
        (if (a + 1) mod 256 =? 0 then a + 1 - 256 else a + 1) data
  end.

(** Big-endian value of address bytes. *)
Definition be_val (l : list Z) : Z := foldl (λ acc b, acc * 256 + b) 0 l.

Definition addr_len (d : nor) : nat := if nor_4b d then 4 else 3.

(** The address that follows a command; address bits beyond the array are ignored. *)
Definition nor_addr (d : nor) (args : list Z) : Z :=
  be_val (take (addr_len d) args) mod blen (nor_mem d).

Fixpoint assocZ (l : list (Z * Z)) (k : Z) : option Z :=
  match l with
  | [] => None
  | (k', v) :: l => if k' =? k then Some v else assocZ l k
  end.

(** The reaction to a command with its argument bytes; [n] bytes are read back. A busy
    chip answers only status reads. *)
Definition nor_exec (d : nor) (cmd : Z) (args : list Z) (n : nat) : list Z * nor :=
  if cmd =? 0x05 then (replicate n (nor_status d), tick d) else
  if negb (bool_decide (nor_busy d = O)) then (replicate n 0xFF, d) else
  if cmd =? 0x06 then (replicate n 0xFF, set_wel d true) else
  if cmd =? 0x04 then (replicate n 0xFF, set_aai (set_wel d false) None) else
  if cmd =? 0x03 then
    (take n (drop (Z.to_nat (nor_addr d args)) (nor_mem d ++ nor_mem d)), d) else
  if cmd =? 0x9F then (take n (np_id (nor_spec d) ++ replicate n 0xFF), d) else
  if cmd =? 0x5A then
    (take n (drop (Z.to_nat (be_val (take 3 args))) (np_sfdp (nor_spec d)) ++ replicate n 0xFF), d)
  else
  if cmd =? 0xB7 then (replicate n 0xFF, set_4b d true) else
  if cmd =? 0xE9 then (replicate n 0xFF, set_4b d false) else
  if negb (nor_wel d) then (replicate n 0xFF, d) else
  if cmd =? 0x01 then (replicate n 0xFF, start_cycle d (nor_mem d)) else
  if cmd =? 0x02 then
    (replicate n 0xFF,
     start_cycle d (page_program (nor_mem d) (nor_addr d args) (drop (addr_len d) args))) else
  if cmd =? 0xAD then
    let '(a, data) :=
      match nor_aai d with
      | Some a => (a, args)
      | None => (nor_addr d args, drop (addr_len d) args)
      end in
    (replicate n 0xFF,
     start_cycle (set_aai d (Some (a + 2))) (nor_program (nor_mem d) (Z.to_nat a) (take 2 data))) else
  if cmd =? 0xC7 then
    (replicate n 0xFF, start_cycle d (replicate (length (nor_mem d)) 0xFF)) else
  match assocZ (np_blocks (nor_spec d)) cmd with
  | Some s =>
      let a := nor_addr d args in
      (replicate n 0xFF, start_cycle d (memset (nor_mem d) (a - a mod s) 0xFF s))
  | None => (replicate n 0xFF, d)
  end.

(** One transfer: [None] when the controller reports an error. *)
Definition nor_xfer (d : nor) (w : list Z) (n : nat) : option (list Z) * nor :=
  let fate := default BusOk (head (nor_bus d)) in
  let d := pop_bus d in
  match fate, w with
  | BusLost, _ => (None, d)
  | BusLate, cmd :: args => (None, (nor_exec d cmd args n).2)
  | BusOk, cmd :: args =>
      let '(out, d) := nor_exec d cmd args n in (Some out, d)
  | _, [] => (Some (replicate n 0xFF), d)
  end.

(** * Programming *)

Lemma nor_program_length mem off data : length (nor_program mem off data) = length mem.
Proof.
  revert mem off. induction data as [|b data IH]; intros; simpl; [done |].
  by rewrite IH, length_alter.
Qed.
#[export] Hint Rewrite nor_program_length : len.

(** Byte [i] after programming: and-ed inside the window, unchanged outside. *)
Lemma nor_program_lookup mem off data (i : nat) :
  nor_program mem off data !! i =
    if decide (off ≤ i < off + length data)%nat
    then old ← mem !! i; b ← data !! (i - off)%nat; Some (Z.land old b)
    else mem !! i.
Proof.
  revert mem off. induction data as [|b data IH]; intros mem off; simpl.
  { case_decide; [lia | done]. }
  rewrite IH. destruct (decide (i = off)) as [-> | Hne].
  - rewrite decide_False by lia. rewrite decide_True by lia.
    rewrite list_lookup_alter_eq, Nat.sub_diag. by destruct (mem !! off).
  - rewrite list_lookup_alter_ne by done.
    destruct (decide (S off ≤ i < S off + length data)%nat).
    + rewrite decide_True by lia. by replace (i - off)%nat with (S (i - S off)) by lia.
    + by rewrite decide_False by lia.
Qed.

Lemma nor_program_app mem off l k :
  nor_program mem off (l ++ k) = nor_program (nor_program mem off l) (off + length l) k.
Proof.
  revert mem off. induction l as [|b l IH]; intros mem off; simpl.
  - by rewrite Nat.add_0_r.
  - rewrite IH. f_equal. lia.
Qed.

(** Programming erased flash stores the data. *)
Lemma land_255 b : is_u8 b → Z.land 255 b = b.
Proof.
  intros Hb. rewrite Z.land_comm. change 255 with (Z.ones 8). rewrite Z.land_ones by lia.
  apply Z.mod_small. by unfold is_u8 in Hb.
Qed.

(** A page program that does not cross the end of its page programs the bytes in order. *)
Lemma page_program_nor mem a data :
  0 ≤ a → a mod 256 + blen data ≤ 256 → page_program mem a data = nor_program mem (Z.to_nat a) data.
Proof.
  revert mem a. induction data as [|b data IH]; intros mem a Ha Hp; simpl; [done |].
  assert (blen (b :: data) = blen data + 1) as E by len. pose proof (blen_nonneg data).
  destruct data as [|b' data]; [done |].
  assert ((a + 1) mod 256 = a mod 256 + 1) as Hm.
  { pose proof (Z.div_mod a 256). pose proof (Z.mod_pos_bound a 256).
    symmetry. apply Z.mod_unique with (a / 256); [|lia]. left.
    assert (blen (b' :: data) = blen data + 1) by len. pose proof (blen_nonneg data). lia. }
  pose proof (Z.mod_pos_bound a 256).
  destruct (Z.eqb_spec ((a + 1) mod 256) 0) as [E0|E0]; [lia |].
  rewrite IH by lia. by replace (Z.to_nat (a + 1)) with (S (Z.to_nat a)) by lia.
Qed.

(** Erasing a stretch in two steps. *)
Lemma memset_app m a v n k :
  0 ≤ a → 0 ≤ n → 0 ≤ k → a + n + k ≤ blen m →
  memset (memset m a v n) (a + n) v k = memset m a v (n + k).
Proof.
  intros. apply list_eq. intros i.
  rewrite memset_lookup by (rewrite ?Z.add_assoc; unfold blen in *; rewrite ?memset_length; unfold blen; lia).
  rewrite !memset_lookup by lia. zbool; done.
Qed.

Lemma memset_0 m a v : 0 ≤ a → memset m a v 0 = m.
Proof. intros. unfold memset. simpl. by rewrite Z.add_0_r, take_drop. Qed.

(** Decoding the big-endian address bytes of the driver. *)
Lemma be_val_3 a :
  0 ≤ a < 16777216 →
  be_val [Z.land (Z.shiftr a 16) 255; Z.land (Z.shiftr a 8) 255; Z.land (Z.shiftr a 0) 255] = a.
Proof.
  intros Ha. unfold be_val. simpl. change 255 with (Z.ones 8). rewrite !Z.land_ones by lia.
  rewrite !Z.shiftr_div_pow2 by lia. change (2 ^ 16) with (256 * 256). change (2 ^ 8) with 256.
  change (2 ^ 0) with 1. rewrite Z.div_1_r, <-Z.div_div by lia.
  rewrite (Z.mod_small (a / 256 / 256)).
  - pose proof (Z.div_mod a 256). pose proof (Z.div_mod (a / 256) 256). lia.
  - split; [repeat apply Z.div_pos; lia |]. repeat apply Z.div_lt_upper_bound; lia.
Qed.

Lemma be_val_4 a :
  0 ≤ a < 4294967296 →
  be_val [Z.land (Z.shiftr a 24) 255; Z.land (Z.shiftr a 16) 255; Z.land (Z.shiftr a 8) 255;
          Z.land (Z.shiftr a 0) 255] = a.
Proof.
  intros Ha. unfold be_val. simpl. change 255 with (Z.ones 8). rewrite !Z.land_ones by lia.
  rewrite !Z.shiftr_div_pow2 by lia. change (2 ^ 24) with (256 * 256 * 256).
  change (2 ^ 16) with (256 * 256). change (2 ^ 8) with 256. change (2 ^ 0) with 1.
  rewrite Z.div_1_r, <-!Z.div_div by lia. rewrite (Z.mod_small (a / 256 / 256 / 256)).
  - pose proof (Z.div_mod a 256). pose proof (Z.div_mod (a / 256) 256).
    pose proof (Z.div_mod (a / 256 / 256) 256). lia.
  - split; [repeat apply Z.div_pos; lia |]. repeat apply Z.div_lt_upper_bound; lia.
Qed.
