(* ===== verification/Sfud.v ===== *)
(** The serial flash driver SFUD (rt-thread/components/drivers/spi/sfud/src/sfud.c) over
    the SPI glue of spi_flash_sfud.c: reading, page programming, auto-increment
    programming and block erase, with the busy polling and the write-enable handshake, on
    a chip whose transfers may fail. *)

From S2P Require Import Prelude.
From S2P Require Import Nor.

(** * Data *)

Inductive sfud_err : Type :=
  | SFUD_SUCCESS | SFUD_ERR_NOT_FOUND | SFUD_ERR_WRITE | SFUD_ERR_READ | SFUD_ERR_TIMEOUT
  | SFUD_ERR_ADDR_OUT_OF_BOUND.
#[export] Instance sfud_err_eq_dec : EqDecision sfud_err.
Proof. solve_decision. Defined.

Definition SFUD_CMD_WRITE_ENABLE : Z := 0x06.
Definition SFUD_CMD_WRITE_DISABLE : Z := 0x04.
Definition SFUD_CMD_READ_STATUS_REGISTER : Z := 0x05.
Definition SFUD_VOLATILE_SR_WRITE_ENABLE : Z := 0x50.
Definition SFUD_CMD_WRITE_STATUS_REGISTER : Z := 0x01.
Definition SFUD_CMD_PAGE_PROGRAM : Z := 0x02.
Definition SFUD_CMD_AAI_WORD_PROGRAM : Z := 0xAD.
Definition SFUD_CMD_ERASE_CHIP : Z := 0xC7.
Definition SFUD_CMD_READ_DATA : Z := 0x03.
Definition SFUD_CMD_JEDEC_ID : Z := 0x9F.
Definition SFUD_CMD_READ_SFDP_REGISTER : Z := 0x5A.
Definition SFUD_CMD_ENABLE_RESET : Z := 0x66.
Definition SFUD_CMD_RESET : Z := 0x99.
Definition SFUD_CMD_ENTER_4B_ADDRESS_MODE : Z := 0xB7.
Definition SFUD_CMD_EXIT_4B_ADDRESS_MODE : Z := 0xE9.
Definition SFUD_DUMMY_DATA : Z := 0xFF.
Definition SFUD_STATUS_REGISTER_BUSY : Z := 1.
Definition SFUD_STATUS_REGISTER_WEL : Z := 2.

Definition SFUD_WM_PAGE_256B : Z := 1.
Definition SFUD_WM_BYTE : Z := 2.
Definition SFUD_WM_AAI : Z := 4.
Definition SFUD_WM_DUAL_BUFFER : Z := 8.

(** The chip's name is only printed and left out. *)
Record sfud_flash_chip : Type := mk_chip {
  mf_id : Z; type_id : Z; capacity_id : Z;
  capacity : Z; write_mode : Z; erase_gran : Z; erase_gran_cmd : Z
}.

Record eraser : Type := mk_eraser { er_size : Z; er_cmd : Z }.

Record sfud_sfdp : Type := mk_sfdp {
  available : bool; major_rev : Z; minor_rev : Z; write_gran : Z;
  erase_4k : bool; erase_4k_cmd : Z; sr_is_non_vola : bool; vola_sr_we_cmd : Z;
  addr_3_byte : bool; addr_4_byte : bool; sfdp_capacity : Z;
  erasers : list eraser
}.

Record sfud_flash : Type := mk_flash {
  fl_chip : sfud_flash_chip;
  fl_sfdp : sfud_sfdp;
  init_ok : bool;
  addr_in_4_byte : bool;
  retry_times : nat
}.

(** The bus as the driver sees it: the chip, and how often the bus lock is held. *)
Record io : Type := mk_io { io_nor : nor; io_locks : Z }.

Definition spi_lock (s : io) : io := mk_io (io_nor s) (io_locks s + 1).
Definition spi_unlock (s : io) : io := mk_io (io_nor s) (io_locks s - 1).

(** [spi_write_read]: an error of the SPI driver is a timeout. *)
Definition spi_write_read (s : io) (write_buf : list Z) (read_size : nat)
    : sfud_err * list Z * io :=
  let '(out, d) := nor_xfer (io_nor s) write_buf read_size in
  let s := mk_io d (io_locks s) in
  match out with
  | Some out => (SFUD_SUCCESS, out, s)
  | None => (SFUD_ERR_TIMEOUT, [], s)
  end.

(** A transfer that reads nothing. *)
Definition spi_write (s : io) (write_buf : list Z) : sfud_err * io :=
  let '(r, _, s) := spi_write_read s write_buf 0 in (r, s).

(** [if (result != SFUD_SUCCESS) goto __exit;] after a call: the rest runs only on
    success. *)
Definition on_success (x : sfud_err * io) (k : io → sfud_err * io) : sfud_err * io :=
  match x with
  | (SFUD_SUCCESS, s) => k s
  | (r, s) => (r, s)
  end.
Declare Scope sfud_scope.
Delimit Scope sfud_scope with sfud.
Notation "s <-? e ; k" := (on_success e (λ s, k))
  (at level 100, e at next level, k at level 200, right associativity) : sfud_scope.
Open Scope sfud_scope.

(** * Status register *)

(** [sfud_read_status]: the result and, when it is success, the register. *)
Definition sfud_read_status (s : io) : sfud_err * Z * io :=
  let '(r, out, s) := spi_write_read s [SFUD_CMD_READ_STATUS_REGISTER] 1 in
  (r, nthZ out 0, s).

(** The polling loop of [wait_busy] with the retries that are left. *)
Fixpoint wait_busy_loop (retry_times : nat) (s : io) : sfud_err * io :=
  let '(r, status, s) := sfud_read_status s in
  if bool_decide (r = SFUD_SUCCESS) && (Z.land status SFUD_STATUS_REGISTER_BUSY =? 0)
  then (r, s)
  else match retry_times with
       | O => (SFUD_ERR_TIMEOUT, s)
       | S retry_times => wait_busy_loop retry_times s
       end.

Definition wait_busy (flash : sfud_flash) (s : io) : sfud_err * io :=
  wait_busy_loop (retry_times flash) s.

Definition set_write_enabled (s : io) (enabled : bool) : sfud_err * io :=
  let cmd := if enabled then SFUD_CMD_WRITE_ENABLE else SFUD_CMD_WRITE_DISABLE in
  s <-? spi_write s [cmd];
  let '(r, register_status, s) := sfud_read_status s in
  if bool_decide (r = SFUD_SUCCESS) then
    if enabled && (Z.land register_status SFUD_STATUS_REGISTER_WEL =? 0) then (SFUD_ERR_WRITE, s)
    else if negb enabled && negb (Z.land register_status SFUD_STATUS_REGISTER_WEL =? 0)
    then (SFUD_ERR_WRITE, s)
    else (r, s)
  else (r, s).

(** The label [__exit] of the write and erase functions. *)
Definition exit_write (x : sfud_err * io) : sfud_err * io :=
  let '(r, s) := x in
  let '(_, s) := set_write_enabled s false in
  (r, spi_unlock s).

Definition make_address_byte_array (flash : sfud_flash) (addr : Z) : list Z :=
  let len := if addr_in_4_byte flash then 4 else 3 in
  (λ i, Z.land (Z.shiftr addr ((len - (i + 1)) * 8)) 0xFF) <$> seqZ 0 len.

(** * Reading *)

(** [sfud_read]: the result and the contents of [data]. *)
Definition sfud_read (flash : sfud_flash) (s : io) (addr size : Z) (data : list Z)
    : sfud_err * list Z * io :=
  if capacity (fl_chip flash) <? u32 (addr + size) then (SFUD_ERR_ADDR_OUT_OF_BOUND, data, s) else
  let s := spi_lock s in
  let '(r, s) := wait_busy flash s in
  if bool_decide (r = SFUD_SUCCESS) then
    let cmd_data := SFUD_CMD_READ_DATA :: make_address_byte_array flash addr in
    let '(r, out, s) := spi_write_read s cmd_data (Z.to_nat size) in
    (r, if bool_decide (r = SFUD_SUCCESS) then memcpy data 0 out 0 size else data, spi_unlock s)
  else (r, data, spi_unlock s).

(** * Erasing *)

Definition sfud_chip_erase (flash : sfud_flash) (s : io) : sfud_err * io :=
  let s := spi_lock s in
  exit_write
    (s <-? set_write_enabled s true;
     s <-? (if flag_set (write_mode (fl_chip flash)) SFUD_WM_DUAL_BUFFER
            then spi_write s [SFUD_CMD_ERASE_CHIP; 0x94; 0x80; 0x9A]
            else spi_write s [SFUD_CMD_ERASE_CHIP]);
     wait_busy flash s).

(** [sfud_sfdp_get_suitable_eraser] (sfud_sfdp.c): the index of the largest eraser that
    fits the rest and the alignment; the loop over [i] from the end of the table. *)
Definition SMALLEST_ERASER_INDEX : nat := 0.
Definition eraser_at (flash : sfud_flash) (i : nat) : eraser :=
  default (mk_eraser 0 0) (erasers (fl_sfdp flash) !! i).

Fixpoint eraser_loop (flash : sfud_flash) (addr erase_size : Z) (i : nat) : nat :=
  let sz := er_size (eraser_at flash i) in
  if negb (sz =? 0) && (sz <=? erase_size) && (addr mod sz =? 0) then i
  else match i with
       | O => SMALLEST_ERASER_INDEX
       | S i => eraser_loop flash addr erase_size i
       end.

Definition SFUD_SFDP_ERASE_TYPE_MAX_NUM : nat := 4.

Definition sfud_sfdp_get_suitable_eraser (flash : sfud_flash) (addr erase_size : Z) : nat :=
  if negb (addr mod er_size (eraser_at flash SMALLEST_ERASER_INDEX) =? 0) then SMALLEST_ERASER_INDEX
  else eraser_loop flash addr erase_size (SFUD_SFDP_ERASE_TYPE_MAX_NUM - 1).

(** The eraser of one round: from the SFDP table, or the chip's granularity. *)
Definition cur_eraser (flash : sfud_flash) (addr size : Z) : eraser :=
  if available (fl_sfdp flash)
  then eraser_at flash (sfud_sfdp_get_suitable_eraser flash addr size)
  else mk_eraser (erase_gran (fl_chip flash)) (erase_gran_cmd (fl_chip flash)).

(** The loop of [sfud_erase]; every round shortens [size], which is enough fuel. *)
Fixpoint erase_loop (fuel : nat) (flash : sfud_flash) (s : io) (addr size : Z) : sfud_err * io :=
  match fuel with
  | O => (SFUD_SUCCESS, s)
  | S fuel =>
      if size =? 0 then (SFUD_SUCCESS, s) else
      let e := cur_eraser flash addr size in
      let cur_erase_size := er_size e in
      s <-? set_write_enabled s true;
      s <-? spi_write s (er_cmd e :: make_address_byte_array flash addr);
      s <-? wait_busy flash s;
      let step :=
        if negb (addr mod cur_erase_size =? 0) then cur_erase_size - addr mod cur_erase_size
        else cur_erase_size in
      if step <? size then erase_loop fuel flash s (u32 (addr + step)) (size - step)
      else (SFUD_SUCCESS, s)
  end.

Definition sfud_erase (flash : sfud_flash) (s : io) (addr size : Z) : sfud_err * io :=
  if capacity (fl_chip flash) <? u32 (addr + size) then (SFUD_ERR_ADDR_OUT_OF_BOUND, s) else
  if (addr =? 0) && (size =? capacity (fl_chip flash)) then sfud_chip_erase flash s else
  let s := spi_lock s in
  exit_write (erase_loop (Z.to_nat size) flash s addr size).

(** * Programming *)

(** How much of the rest goes into one page program. *)
Definition page_chunk (write_gran addr size : Z) : Z :=
  if negb (addr mod write_gran =? 0) then
    if write_gran - addr mod write_gran <? size then write_gran - addr mod write_gran else size
  else if write_gran <? size then write_gran else size.

(** The loop of [page256_or_1_byte_write]. *)
Fixpoint page_loop (fuel : nat) (flash : sfud_flash) (s : io) (addr size write_gran : Z)
    (data : list Z) : sfud_err * io :=
  match fuel with
  | O => (SFUD_SUCCESS, s)
  | S fuel =>
      if size =? 0 then (SFUD_SUCCESS, s) else
      s <-? set_write_enabled s true;
      let cmd_data := SFUD_CMD_PAGE_PROGRAM :: make_address_byte_array flash addr in
      let data_size := page_chunk write_gran addr size in
      s <-? spi_write s (cmd_data ++ take (Z.to_nat data_size) data);
      s <-? wait_busy flash s;
      page_loop fuel flash s (u32 (addr + data_size)) (size - data_size) write_gran
        (drop (Z.to_nat data_size) data)
  end.

Definition page256_or_1_byte_write (flash : sfud_flash) (s : io) (addr size write_gran : Z)
    (data : list Z) : sfud_err * io :=
  if capacity (fl_chip flash) <? u32 (addr + size) then (SFUD_ERR_ADDR_OUT_OF_BOUND, s) else
  let s := spi_lock s in
  exit_write (page_loop (Z.to_nat size) flash s addr size write_gran data).

(** The loop of [aai_write] over pairs of bytes; the result carries what is left. *)
Fixpoint aai_loop (fuel : nat) (flash : sfud_flash) (s : io) (addr size : Z) (first_write : bool)
    (data : list Z) : sfud_err * io * Z * Z * list Z :=
  match fuel with
  | O => (SFUD_SUCCESS, s, addr, size, data)
  | S fuel =>
      if size <? 2 then (SFUD_SUCCESS, s, addr, size, data) else
      let cmd_data :=
        if first_write then SFUD_CMD_AAI_WORD_PROGRAM :: make_address_byte_array flash addr
        else [SFUD_CMD_AAI_WORD_PROGRAM] in
      let '(r, s) :=
        s <-? spi_write s (cmd_data ++ [nthZ data 0; nthZ data 1]);
        wait_busy flash s in
      if bool_decide (r = SFUD_SUCCESS)
      then aai_loop fuel flash s (u32 (addr + 2)) (size - 2) false (drop 2 data)
      else (r, s, addr, size, data)
  end.

Definition aai_write (flash : sfud_flash) (s : io) (addr size : Z) (data : list Z)
    : sfud_err * io :=
  if capacity (fl_chip flash) <? u32 (addr + size) then (SFUD_ERR_ADDR_OUT_OF_BOUND, s) else
  let s := spi_lock s in
  let '(r, s) :=
    (* the address must be even: one byte first when it is odd *)
    let '(r, s) :=
      if negb (addr mod 2 =? 0) then page256_or_1_byte_write flash s addr 1 1 data
      else (SFUD_SUCCESS, s) in
    let '(addr, size, data) :=
      if negb (addr mod 2 =? 0) then (u32 (addr + 1), u32 (size - 1), drop 1 data)
      else (addr, size, data) in
    s <-? (r, s);
    s <-? set_write_enabled s true;
    let '(r, s, addr, size, data) := aai_loop (Z.to_nat size) flash s addr size true data in
    s <-? (r, s);
    (* write disable to leave the mode *)
    s <-? set_write_enabled s false;
    if size =? 1 then page256_or_1_byte_write flash s addr 1 1 data else (SFUD_SUCCESS, s) in
  let '(_, s) :=
    if bool_decide (r ≠ SFUD_SUCCESS) then set_write_enabled s false else (r, s) in
  (r, spi_unlock s).

Definition sfud_write (flash : sfud_flash) (s : io) (addr size : Z) (data : list Z)
    : sfud_err * io :=
  let wm := write_mode (fl_chip flash) in
  if flag_set wm SFUD_WM_PAGE_256B then page256_or_1_byte_write flash s addr size 256 data
  else if flag_set wm SFUD_WM_AAI then aai_write flash s addr size data
  else if flag_set wm SFUD_WM_DUAL_BUFFER then (SFUD_SUCCESS, s)
  else (SFUD_SUCCESS, s).

Definition sfud_erase_write (flash : sfud_flash) (s : io) (addr size : Z) (data : list Z)
    : sfud_err * io :=
  s <-? sfud_erase flash s addr size;
  sfud_write flash s addr size data.

(** * Mode and reset commands *)

Definition sfud_write_status (s : io) (is_volatile : bool) (status : Z) : sfud_err * io :=
  s <-? (if is_volatile then spi_write s [SFUD_VOLATILE_SR_WRITE_ENABLE]
         else set_write_enabled s true);
  spi_write s [SFUD_CMD_WRITE_STATUS_REGISTER; status].

Definition reset (flash : sfud_flash) (s : io) : sfud_err * io :=
  s <-? spi_write s [SFUD_CMD_ENABLE_RESET];
  (* the result of this wait is overwritten *)
  let '(_, s) := wait_busy flash s in
  s <-? spi_write s [SFUD_CMD_RESET];
  wait_busy flash s.

Definition set_addr_in_4_byte (flash : sfud_flash) (b : bool) : sfud_flash :=
  mk_flash (fl_chip flash) (fl_sfdp flash) (init_ok flash) b (retry_times flash).

Definition set_4_byte_address_mode (flash : sfud_flash) (s : io) (enabled : bool)
    : sfud_err * sfud_flash * io :=
  let '(r, s) :=
    s <-? set_write_enabled s true;
    spi_write s
      [if enabled then SFUD_CMD_ENTER_4B_ADDRESS_MODE else SFUD_CMD_EXIT_4B_ADDRESS_MODE] in
  (r, if bool_decide (r = SFUD_SUCCESS) then set_addr_in_4_byte flash enabled else flash, s).

(** * Transfers *)

(** No transfer fails and no write cycle outlasts [n] polls. *)
Definition healthy (n : nat) (s : io) : Prop :=
  Forall (λ b, b = BusOk) (nor_bus (io_nor s)) ∧ Forall (λ c, (c ≤ n)%nat) (nor_cycles (io_nor s)).

(** No write cycle in progress, not in auto-increment mode. *)
Definition idle (s : io) : Prop := nor_busy (io_nor s) = O ∧ nor_aai (io_nor s) = None.

(** What every operation leaves alone. *)
Record frame (n : nat) (s s' : io) : Prop := {
  fr_spec : nor_spec (io_nor s') = nor_spec (io_nor s);
  fr_4b : nor_4b (io_nor s') = nor_4b (io_nor s);
  fr_locks : io_locks s' = io_locks s;
  fr_len : length (nor_mem (io_nor s')) = length (nor_mem (io_nor s));
  fr_healthy : healthy n s → healthy n s'
}.

#[export] Instance frame_preorder n : PreOrder (frame n).
Proof.
  split; [by intros s; constructor |]. intros s1 s2 s3 [] [].
  constructor; try congruence; auto.
Qed.

(** A frame that also keeps the array. *)
Definition quiet (n : nat) (s s' : io) : Prop :=
  frame n s s' ∧ nor_mem (io_nor s') = nor_mem (io_nor s).

#[export] Instance quiet_preorder n : PreOrder (quiet n).
Proof.
  split; [by split |]. intros s1 s2 s3 [F1 M1] [F2 M2]. split; [by etrans | congruence].
Qed.

Lemma xfer_cases s cmd args n r out s' :
  spi_write_read s (cmd :: args) n = (r, out, s') →
  io_locks s' = io_locks s
  ∧ ((r = SFUD_ERR_TIMEOUT
      ∧ (io_nor s' = pop_bus (io_nor s) ∨ io_nor s' = (nor_exec (pop_bus (io_nor s)) cmd args n).2)
      ∧ ∀ m, ¬ healthy m s)
     ∨ (r = SFUD_SUCCESS ∧ nor_exec (pop_bus (io_nor s)) cmd args n = (out, io_nor s'))).
Proof.
  unfold spi_write_read, nor_xfer, healthy. intros H.
  destruct (nor_bus (io_nor s)) as [|b l] eqn:Hb; simpl in H.
  - destruct (nor_exec _ _ _ _) as [o d'] eqn:E. simplify_eq. auto.
  - destruct b; simpl in H.
    + destruct (nor_exec _ _ _ _) as [o d'] eqn:E. simplify_eq. auto.
    + simplify_eq. split; [done |]. left. split_and!; [done | by left |].
      intros m [Hf _]. by apply Forall_cons in Hf as [? _].
    + simplify_eq. split; [done |]. left. split_and!; [done | by right |].
      intros m [Hf _]. by apply Forall_cons in Hf as [? _].
Qed.

(** Popping a transfer changes nothing else. *)
Lemma pop_quiet n s : quiet n s (mk_io (pop_bus (io_nor s)) (io_locks s)).
Proof.
  split; [|done]. constructor; try done. intros [Hb Hc]. split; [|done]. simpl.
  by apply Forall_tail.
Qed.

(** The commands that never touch the array. *)
Definition latch_cmd (cmd : Z) : bool := (cmd =? 4) || (cmd =? 5) || (cmd =? 6).

Lemma exec_latch n d l cmd args k :
  latch_cmd cmd = true →
  quiet n (mk_io d l) (mk_io (nor_exec d cmd args k).2 l)
  ∧ (idle (mk_io d l) → idle (mk_io (nor_exec d cmd args k).2 l)).
Proof.
  intros Hc. unfold nor_exec. destruct (Z.eqb_spec cmd 5) as [->|H5].
  - unfold tick, idle. simpl. destruct d as [sp m w [|b] f a cs bs]; simpl; [done |].
    split; [by split; [constructor |] | by intros [? ?]].
  - destruct (negb _); [done |]. destruct (Z.eqb_spec cmd 6) as [->|H6].
    { split; [by split; [constructor |] | done]. }
    destruct (Z.eqb_spec cmd 4) as [->|H4]; [|unfold latch_cmd in Hc; lia].
    split; [by split; [constructor |] | by intros [? ?]].
Qed.

Lemma xfer_latch n s cmd k r out s' :
  latch_cmd cmd = true → spi_write_read s [cmd] k = (r, out, s') →
  quiet n s s' ∧ (idle s → idle s') ∧ (healthy n s → r = SFUD_SUCCESS).
Proof.
  intros Hc H. apply xfer_cases in H as [Hl H].
  pose proof (pop_quiet n s) as Hp. pose proof (exec_latch n (pop_bus (io_nor s)) (io_locks s) cmd [] k Hc) as [He Hi].
  destruct s' as [d' l']. simpl in *. subst l'.
  destruct H as [(-> & [-> | ->] & Hb) | [-> E]].
  - split_and!; [done | done |]. intros Hh. by destruct (Hb n).
  - split_and!; [by etrans | by intros; apply Hi |]. intros Hh. by destruct (Hb n).
  - rewrite E in He, Hi. split_and!; [by etrans | by intros; apply Hi | done].
Qed.

(** * The handshakes *)

Lemma status_bits d :
  (Z.land (nor_status d) SFUD_STATUS_REGISTER_BUSY =? 0) = bool_decide (nor_busy d = O)
  ∧ (Z.land (nor_status d) SFUD_STATUS_REGISTER_WEL =? 0) = negb (nor_wel d).
Proof. unfold nor_status. destruct (nor_busy d), (nor_wel d); by vm_compute. Qed.

(** A status read reports the chip as it is, and time passes. *)
Lemma read_status_spec n s r status s' :
  sfud_read_status s = (r, status, s') →
  quiet n s s' ∧ (idle s → idle s') ∧ (healthy n s → r = SFUD_SUCCESS)
  ∧ nor_aai (io_nor s') = nor_aai (io_nor s)
  ∧ (r = SFUD_SUCCESS → status = nor_status (io_nor s) ∧ io_nor s' = tick (pop_bus (io_nor s))).
Proof.
  unfold sfud_read_status. destruct (spi_write_read _ _ _) as [[r0 out] s0] eqn:H.
  intros [= <- <- <-]. pose proof (λ Hc, xfer_latch n _ _ _ _ _ _ Hc H) as Hx; specialize (Hx eq_refl) as (Hq & Hi & Hh).
  apply xfer_cases in H as [Hl H]. unfold nor_exec in H. simpl in H.
  assert (nor_aai (tick (pop_bus (io_nor s))) = nor_aai (io_nor s)) as Ha
    by (unfold tick; simpl; by case_match).
  destruct H as [(-> & [-> | ->] & _) | [-> E]]; simplify_eq; split_and!; congruence || done.
Qed.

(** One round of polling. *)
Lemma poll_round n s r status s' :
  sfud_read_status s = (r, status, s') →
  quiet n s s' ∧ (idle s → idle s') ∧ nor_aai (io_nor s') = nor_aai (io_nor s)
  ∧ if bool_decide (r = SFUD_SUCCESS) && (Z.land status SFUD_STATUS_REGISTER_BUSY =? 0)
    then nor_busy (io_nor s') = O
    else healthy n s → nor_busy (io_nor s) = S (nor_busy (io_nor s')).
Proof.
  intros H. apply (read_status_spec n) in H as (Hq & Hi & Hh & Ha & Hok).
  split_and!; [done | done | done |]. case_bool_decide as Hr; simpl.
  - destruct (Hok Hr) as [-> ->]. rewrite (proj1 (status_bits _)). unfold tick; simpl.
    by destruct (nor_busy (io_nor s)) as [|b] eqn:Hb; simpl.
  - intros Hs. by destruct Hr; apply Hh.
Qed.

Lemma wait_busy_spec n k s r s' :
  wait_busy_loop k s = (r, s') →
  quiet n s s' ∧ (idle s → idle s') ∧ nor_aai (io_nor s') = nor_aai (io_nor s)
  ∧ (r = SFUD_SUCCESS → nor_busy (io_nor s') = O)
  ∧ (healthy n s → (nor_busy (io_nor s) ≤ k)%nat → r = SFUD_SUCCESS).
Proof.
  revert s. induction k as [|k IH]; intros s; simpl;
    destruct (sfud_read_status s) as [[r0 st] s0] eqn:Hs;
    pose proof (poll_round n _ _ _ _ Hs) as (Hq & Hi & Ha & Hp);
    destruct (bool_decide (r0 = SFUD_SUCCESS) && _) eqn:Hok; intros E.
  1,3: apply andb_true_iff in Hok as [->%bool_decide_eq_true _]; simplify_eq; done.
  - simplify_eq. split_and!; [done | done | done | done |]. intros Hh. specialize (Hp Hh). lia.
  - apply IH in E as (Hq' & Hi' & Ha' & Hb & Hl).
    split_and!; [by etrans | auto | congruence | done |].
    intros Hh Hk. specialize (Hp Hh). apply Hl; [|lia]. by apply Hq.
Qed.

Lemma set_write_enabled_spec n s b r s' :
  set_write_enabled s b = (r, s') →
  quiet n s s' ∧ (idle s → idle s') ∧ (idle s → r = SFUD_SUCCESS → nor_wel (io_nor s') = b)
  ∧ (healthy n s → idle s → r = SFUD_SUCCESS).
Proof.
  unfold set_write_enabled, spi_write.
  set (cmd := if b then SFUD_CMD_WRITE_ENABLE else SFUD_CMD_WRITE_DISABLE).
  assert (latch_cmd cmd = true) as Hc by (subst cmd; by destruct b).
  destruct (spi_write_read s [cmd] 0) as [[r0 out] s0] eqn:Hw.
  pose proof (xfer_latch n _ _ _ _ _ _ Hc Hw) as (Hq & Hi & Hh).
  destruct (decide (r0 = SFUD_SUCCESS)) as [->|Hne].
  2:{ intros E. assert (s' = s0 ∧ r = r0) as [-> ->] by (by destruct r0; simplify_eq/=).
      split_and!; naive_solver. }
  simpl. destruct (sfud_read_status s0) as [[r1 st] s1] eqn:Hs.
  pose proof (read_status_spec n _ _ _ _ Hs) as (Hq1 & Hi1 & Hh1 & _ & Hok).
  assert (idle s → nor_wel (io_nor s0) = b) as Hwel.
  { intros [Hb0 _]. apply xfer_cases in Hw as [_ [(? & _) | [_ E]]]; [done |].
    unfold nor_exec in E. simpl in E. rewrite Hb0 in E. subst cmd. destruct b; simpl in E; injection E as _ <-; done. }
  case_bool_decide as Hr1.
  - destruct (Hok Hr1) as [-> Hn]. rewrite (proj2 (status_bits _)), negb_involutive.
    intros E. assert (s' = s1) as -> by (by repeat case_match; simplify_eq).
    split_and!; [by etrans | auto | |].
    + intros Hid _. rewrite Hn. destruct (Hi Hid) as [Hz _]. unfold tick. simpl. rewrite Hz. by apply Hwel.
    + intros Hhs Hid. rewrite (Hwel Hid) in E. destruct b; simpl in E; by simplify_eq.
  - intros [= <- <-]. split_and!; [by etrans | auto | done |].
    intros Hhs Hid. apply Hh1. by apply Hq.
Qed.

(** * One write cycle *)

Lemma on_success_inv x k r s' :
  on_success x k = (r, s') →
  (x.1 = SFUD_SUCCESS ∧ k x.2 = (r, s')) ∨ (x.1 ≠ SFUD_SUCCESS ∧ x = (r, s')).
Proof. destruct x as [[] s]; simpl; intros; simplify_eq; auto. Qed.

(** The command makes an idle, write-enabled chip start a write cycle that leaves [m]. *)
Definition starts (s : io) (w m : list Z) : Prop :=
  ∃ cmd args, w = cmd :: args ∧ length m = length (nor_mem (io_nor s)) ∧
  ∀ d, nor_spec d = nor_spec (io_nor s) → nor_mem d = nor_mem (io_nor s) →
       nor_4b d = nor_4b (io_nor s) → nor_busy d = O → nor_aai d = None → nor_wel d = true →
       (nor_exec d cmd args 0).2 = start_cycle d m.

Lemma start_cycle_frame n d l m :
  length m = length (nor_mem d) → frame n (mk_io d l) (mk_io (start_cycle d m) l).
Proof.
  intros Hm. constructor; try done. intros [Hb Hc]. split; [done |]. simpl. by apply Forall_tail.
Qed.

Lemma start_cycle_busy n d m l :
  healthy n (mk_io d l) → (nor_busy (start_cycle d m) ≤ n)%nat.
Proof.
  intros [_ Hc]. simpl in *. destruct (nor_cycles d); simpl; [lia |].
  by apply Forall_cons in Hc as [? _].
Qed.

(** Write enable, command, wait: on success the cycle has run and the chip is idle; on
    failure it has run or it has not. *)
Definition write_cycle (flash : sfud_flash) (s : io) (w : list Z) : sfud_err * io :=
  s <-? set_write_enabled s true;
  s <-? spi_write s w;
  wait_busy flash s.

Lemma write_cycle_then flash s w k :
  (s <-? set_write_enabled s true; s <-? spi_write s w; s <-? wait_busy flash s; k s)
  = (s <-? write_cycle flash s w; k s).
Proof.
  unfold write_cycle. destruct (set_write_enabled s true) as [[] s0]; try done. simpl.
  by destruct (spi_write s0 w) as [[] s1].
Qed.

Lemma write_cycle_spec flash s w m r s' :
  idle s → starts s w m → write_cycle flash s w = (r, s') →
  frame (retry_times flash) s s'
  ∧ (nor_mem (io_nor s') = nor_mem (io_nor s) ∨ nor_mem (io_nor s') = m)
  ∧ (r = SFUD_SUCCESS → nor_mem (io_nor s') = m ∧ idle s')
  ∧ (healthy (retry_times flash) s → r = SFUD_SUCCESS).
Proof.
  set (n := retry_times flash). unfold write_cycle. intros Hid Hst.
  destruct (set_write_enabled s true) as [r0 s0] eqn:H0.
  pose proof (set_write_enabled_spec n _ _ _ _ H0) as ([F0 M0] & Hid0 & Hw0 & Hh0).
  intros [[Hr E] | [Hne E]]%on_success_inv; simpl in *.
  2:{ simplify_eq. split_and!; [done | by left | done |]. intros Hh. by destruct Hne; apply Hh0. }
  subst r0. specialize (Hid0 Hid) as [Hb0 Ha0]. specialize (Hw0 Hid eq_refl).
  destruct Hst as (cmd & args & -> & Hlm & Hst).
  specialize (Hst (pop_bus (io_nor s0)) (fr_spec _ _ _ F0) M0 (fr_4b _ _ _ F0) Hb0 Ha0 Hw0).
  unfold spi_write in E.
  destruct (spi_write_read s0 (cmd :: args) 0) as [[r1 out] s1] eqn:H1.
  apply xfer_cases in H1 as [Hl1 H1]. pose proof (pop_quiet n s0) as [FP MP].
  assert (length m = length (nor_mem (pop_bus (io_nor s0)))) as Hlm' by (simpl; congruence).
  pose proof (start_cycle_frame n _ (io_locks s0) m Hlm') as FC.
  destruct s1 as [d1 l1]. simpl in Hl1. subst l1.
  apply on_success_inv in E as [[Hr E] | [Hne E]]; simpl in *.
  - destruct H1 as [(? & _) | [_ H1]]; [congruence |]. rewrite H1 in Hst. simpl in Hst. subst d1.
    apply (wait_busy_spec n) in E as ([F2 M2] & _ & Ha2 & Hb2 & Hh2).
    split_and!.
    + etrans; [exact F0 |]. etrans; [exact FP |]. etrans; [exact FC | exact F2].
    + right. by rewrite M2.
    + intros Hs. split; [by rewrite M2 | split; [by apply Hb2 |]]. by rewrite Ha2.
    + intros Hh. assert (healthy n (mk_io (pop_bus (io_nor s0)) (io_locks s0))) as Hhp
        by (apply FP, F0; done).
      apply Hh2; [by apply FC |]. by eapply start_cycle_busy.
  - simplify_eq. destruct H1 as [(-> & Hd & Hb) | [? _]]; [|done].
    assert (healthy n s → False) as Hnh by (intros Hh; apply (Hb n); by apply F0).
    destruct Hd as [-> | ->]; [|rewrite Hst].
    + split_and!; [by etrans | by left | done | by intros ?%Hnh].
    + split_and!; [by etrans; [|etrans] | by right | done | by intros ?%Hnh].
Qed.

(** The exit path leaves the array alone. *)
Lemma exit_write_spec n r s r' s' :
  exit_write (r, s) = (r', s') →
  r' = r ∧ quiet n (spi_unlock s) s' ∧ (idle s → idle s')
  ∧ (healthy n s → idle s → nor_wel (io_nor s') = false).
Proof.
  unfold exit_write. destruct (set_write_enabled s false) as [r0 s0] eqn:H0. intros [= <- <-].
  apply (set_write_enabled_spec n) in H0 as ([[] M0] & Hid & Hw & Hh).
  split_and!; [done | | done | by auto].
  split; [|done]. constructor; simpl; try done. by rewrite fr_locks0.
Qed.

(** * Programming *)

(** The driver's view of the chip is right and the chip can be addressed. *)
Record flash_ok (flash : sfud_flash) (s : io) : Prop := {
  fo_cap : capacity (fl_chip flash) = blen (nor_mem (io_nor s));
  fo_mode : addr_in_4_byte flash = nor_4b (io_nor s);
  fo_range : blen (nor_mem (io_nor s)) < 4294967296;
  fo_range3 : addr_in_4_byte flash = false → blen (nor_mem (io_nor s)) ≤ 16777216
}.

Lemma flash_ok_frame flash n s s' : flash_ok flash s → frame n s s' → flash_ok flash s'.
Proof.
  intros [] []. assert (blen (nor_mem (io_nor s')) = blen (nor_mem (io_nor s))) as E
    by (unfold blen; congruence).
  constructor; rewrite ?E; congruence || auto.
Qed.

Lemma address_length flash addr :
  length (make_address_byte_array flash addr) = if addr_in_4_byte flash then 4%nat else 3%nat.
Proof. unfold make_address_byte_array. by destruct (addr_in_4_byte flash). Qed.

(** The chip decodes the address the driver sends. *)
Lemma nor_addr_spec flash s d addr rest :
  flash_ok flash s → nor_mem d = nor_mem (io_nor s) → nor_4b d = nor_4b (io_nor s) →
  0 ≤ addr < blen (nor_mem (io_nor s)) →
  nor_addr d (make_address_byte_array flash addr ++ rest) = addr
  ∧ drop (addr_len d) (make_address_byte_array flash addr ++ rest) = rest.
Proof.
  intros [Hc Hm Hr Hr3] Hmem H4 Ha. unfold nor_addr, addr_len. rewrite Hmem, H4, <-Hm.
  assert (be_val (make_address_byte_array flash addr) = addr) as E.
  { unfold make_address_byte_array. destruct (addr_in_4_byte flash).
    - apply be_val_4. lia.
    - specialize (Hr3 eq_refl). apply be_val_3. lia. }
  pose proof (address_length flash addr) as Hl.
  split.
  - rewrite <-Hl, take_app_length, E. by apply Z.mod_small.
  - by rewrite <-Hl, drop_app_length.
Qed.

Lemma page_starts flash s addr chunk :
  flash_ok flash s → 0 ≤ addr < blen (nor_mem (io_nor s)) → addr mod 256 + blen chunk ≤ 256 →
  starts s (SFUD_CMD_PAGE_PROGRAM :: make_address_byte_array flash addr ++ chunk)
    (nor_program (nor_mem (io_nor s)) (Z.to_nat addr) chunk).
Proof.
  intros Hok Ha Hp. exists SFUD_CMD_PAGE_PROGRAM, (make_address_byte_array flash addr ++ chunk).
  split; [reflexivity |]. split; [by rewrite nor_program_length |]. intros d Hs Hm H4 Hb Haai Hw.
  destruct (nor_addr_spec flash s d addr chunk Hok Hm H4 Ha) as [E1 E2].
  unfold nor_exec. rewrite Hb, Hw, E1, E2, Hm. simpl. by rewrite page_program_nor by lia.
Qed.

Lemma page_chunk_spec write_gran addr size :
  write_gran = 1 ∨ write_gran = 256 → 0 < size →
  0 < page_chunk write_gran addr size ≤ size
  ∧ addr mod 256 + page_chunk write_gran addr size ≤ 256.
Proof.
  intros Hg Hs. unfold page_chunk. pose proof (Z.mod_pos_bound addr 256).
  destruct Hg as [-> | ->].
  - rewrite Z.mod_1_r. simpl. destruct (Z.ltb_spec 1 size); lia.
  - destruct (Z.eqb_spec (addr mod 256) 0); simpl;
      [destruct (Z.ltb_spec 256 size) | destruct (Z.ltb_spec (256 - addr mod 256) size)]; lia.
Qed.

(** What a programming operation did: a prefix of the data, all of it on success. *)
Definition programmed (n : nat) (s s' : io) (r : sfud_err) (addr size : Z) (data : list Z) : Prop :=
  frame n s s'
  ∧ (∃ k, 0 ≤ k ≤ size
      ∧ nor_mem (io_nor s')
        = nor_program (nor_mem (io_nor s)) (Z.to_nat addr) (take (Z.to_nat k) data)
      ∧ (r = SFUD_SUCCESS → k = size))
  ∧ (r = SFUD_SUCCESS → idle s')
  ∧ (healthy n s → r = SFUD_SUCCESS).

(** Two consecutive operations, the second on the rest of the data. *)
Lemma programmed_step n s s1 s' r addr size c data :
  0 ≤ addr → 0 ≤ c ≤ size → c ≤ blen data →
  programmed n s s1 SFUD_SUCCESS addr c data →
  programmed n s1 s' r (addr + c) (size - c) (drop (Z.to_nat c) data) →
  programmed n s s' r addr size data.
Proof.
  intros Ha Hc Hd (F1 & (k1 & Hk1 & M1 & E1) & I1 & H1) (F2 & (k2 & Hk2 & M2 & E2) & I2 & H2).
  specialize (E1 eq_refl) as ->. unfold programmed. split_and!; [by etrans | | done |].
  - exists (c + k2). split_and!; [lia | lia | | intros; rewrite E2 by done; lia].
    rewrite M2, M1. replace (take (Z.to_nat (c + k2)) data)
      with (take (Z.to_nat c) data ++ take (Z.to_nat k2) (drop (Z.to_nat c) data)).
    + rewrite nor_program_app. f_equal. len.
    + rewrite take_take_drop. f_equal. lia.
  - intros Hh. by apply H2, F1.
Qed.

(** A failed first step. *)
Lemma programmed_fail n s s1 r addr size c data :
  0 ≤ c ≤ size → r ≠ SFUD_SUCCESS →
  programmed n s s1 r addr c data → programmed n s s1 r addr size data.
Proof.
  intros Hc Hr (F1 & (k1 & Hk1 & M1 & E1) & I1 & H1). unfold programmed. split_and!; [done | | done | done].
  exists k1. split_and!; [lia | lia | done | done].
Qed.

Lemma page_step flash s addr size write_gran data r s' :
  flash_ok flash s → idle s → write_gran = 1 ∨ write_gran = 256 →
  0 ≤ addr → 0 < size → addr + size ≤ blen (nor_mem (io_nor s)) → size ≤ blen data →
  let c := page_chunk write_gran addr size in
  write_cycle flash s (SFUD_CMD_PAGE_PROGRAM :: make_address_byte_array flash addr
                         ++ take (Z.to_nat c) data) = (r, s') →
  programmed (retry_times flash) s s' r addr c data.
Proof.
  intros Hok Hid Hg Ha Hs Hfit Hd c H.
  pose proof (page_chunk_spec write_gran addr size Hg Hs) as [Hc Hp]. fold c in Hc, Hp.
  assert (blen (take (Z.to_nat c) data) = c) as Hl by len.
  assert (addr mod 256 + blen (take (Z.to_nat c) data) ≤ 256) as Hp' by lia.
  pose proof (page_starts flash s addr _ Hok ltac:(lia) Hp') as Hst.
  destruct (write_cycle_spec flash s _ _ _ _ Hid Hst H) as (F & M & Hr & Hh).
  unfold programmed. split_and!; [done | | by intros E%Hr; apply E | done].
  destruct (decide (r = SFUD_SUCCESS)) as [E|E].
  - exists c. split_and!; [lia | lia | by apply Hr | done].
  - destruct M as [M|M]; [exists 0; simpl | exists c]; by split_and!; [lia | lia | |].
Qed.

Lemma page_loop_spec fuel flash s addr size write_gran data r s' :
  flash_ok flash s → idle s → write_gran = 1 ∨ write_gran = 256 →
  0 ≤ addr → 0 ≤ size → addr + size ≤ blen (nor_mem (io_nor s)) → size ≤ blen data →
  size ≤ Z.of_nat fuel →
  page_loop fuel flash s addr size write_gran data = (r, s') →
  programmed (retry_times flash) s s' r addr size data.
Proof.
  revert s addr size data. induction fuel as [|fuel IH]; intros s addr size data Hok Hid Hg Ha Hs Hfit Hd Hf;
    simpl page_loop.
  - intros [= <- <-]. unfold programmed. split_and!; [done | | done | done]. exists 0. by split_and!; [lia | lia | | lia].
  - destruct (Z.eqb_spec size 0) as [->|Hnz].
    { intros [= <- <-]. unfold programmed. split_and!; [done | | done | done]. exists 0. by split_and!; [lia | lia | | ]. }
    set (c := page_chunk write_gran addr size).
    pose proof (page_chunk_spec write_gran addr size Hg ltac:(lia)) as [Hc _]. fold c in Hc.
    rewrite u32_small by (destruct Hok; unfold is_u32; lia).
    intros E. pose proof (write_cycle_then flash s
      (SFUD_CMD_PAGE_PROGRAM :: make_address_byte_array flash addr ++ take (Z.to_nat c) data)
      (λ s, page_loop fuel flash s (addr + c) (size - c) write_gran (drop (Z.to_nat c) data))) as W.
    cbv beta in W. rewrite W in E. clear W.
    destruct (write_cycle _ _ _) as [r1 s1] eqn:H1.
    apply (page_step flash s addr size write_gran data) in H1; try done; [|lia]. fold c in H1.
    apply on_success_inv in E as [[Hr E] | [Hr E]]; simpl in *.
    + subst r1. destruct (H1) as (F1 & _ & I1 & _).
      apply (programmed_step _ s s1 s' r addr size c data); [done | lia | lia | done |].
      assert (blen (nor_mem (io_nor s1)) = blen (nor_mem (io_nor s))) as El
        by (unfold blen; by rewrite (fr_len _ _ _ F1)).
      apply IH; first [by eapply flash_ok_frame | by apply I1 | lia | len | done].
    + simplify_eq. by apply (programmed_fail _ s s' r addr size c data); [lia | |].
Qed.

(** The frame of the locked section. *)
Lemma frame_locked n s s1 s' :
  frame n (spi_lock s) s1 → quiet n (spi_unlock s1) s' → frame n s s'.
Proof.
  intros [] [[] _]. simpl in *. constructor; try congruence; [lia |]. auto.
Qed.

Lemma page_write_spec flash s addr size write_gran data r s' :
  flash_ok flash s → idle s → write_gran = 1 ∨ write_gran = 256 →
  0 ≤ addr → 0 ≤ size → addr + size ≤ blen (nor_mem (io_nor s)) → size ≤ blen data →
  page256_or_1_byte_write flash s addr size write_gran data = (r, s') →
  programmed (retry_times flash) s s' r addr size data
  ∧ (healthy (retry_times flash) s → nor_wel (io_nor s') = false).
Proof.
  intros Hok Hid Hg Ha Hs Hfit Hd. destruct (Hok). unfold page256_or_1_byte_write. u32s.
  destruct (Z.ltb_spec (capacity (fl_chip flash)) (addr + size)); [lia |].
  destruct (page_loop _ _ _ _ _ _ _) as [r1 s1] eqn:H1. intros E.
  apply (page_loop_spec _ flash (spi_lock s)) in H1; try done; [|lia].
  destruct H1 as (F1 & (k & Hk & M1 & Ek) & I1 & H1).
  apply (exit_write_spec (retry_times flash)) in E as (-> & Hq & I2 & Hw).
  unfold programmed. split_and!; [by eapply frame_locked | | auto | done |].
  - exists k. split_and!; [lia | lia | | done]. rewrite (proj2 Hq). done.
  - intros Hh. apply Hw; [by apply F1 |]. by apply I1, H1.
Qed.

(** * Erasing *)

(** Commands with a fixed meaning; an erase command is none of them. *)
Definition fixed_cmd (cmd : Z) : bool :=
  existsb (Z.eqb cmd) [0x05; 0x06; 0x04; 0x03; 0x9F; 0x5A; 0xB7; 0xE9; 0x01; 0x02; 0xAD; 0xC7].

(** The chip erases blocks of the eraser's size on its command. *)
Definition erases (s : io) (e : eraser) : Prop :=
  assocZ (np_blocks (nor_spec (io_nor s))) (er_cmd e) = Some (er_size e)
  ∧ fixed_cmd (er_cmd e) = false ∧ 0 < er_size e.

(** The erasers the driver knows are the chip's; [gran] is the smallest, the others are
    multiples of it. *)
Record erasers_ok (flash : sfud_flash) (s : io) (gran : Z) : Prop := {
  eo_plain : available (fl_sfdp flash) = false →
    erase_gran (fl_chip flash) = gran
    ∧ erases s (mk_eraser (erase_gran (fl_chip flash)) (erase_gran_cmd (fl_chip flash)));
  eo_sfdp : available (fl_sfdp flash) = true →
    er_size (eraser_at flash 0) = gran ∧ erases s (eraser_at flash 0)
    ∧ ∀ i, er_size (eraser_at flash i) ≠ 0 →
        erases s (eraser_at flash i) ∧ (gran | er_size (eraser_at flash i))
}.

Lemma erases_frame n s s' e : frame n s s' → erases s e → erases s' e.
Proof. intros [] H. unfold erases. by rewrite fr_spec0. Qed.

Lemma erasers_ok_frame flash n s s' gran :
  frame n s s' → erasers_ok flash s gran → erasers_ok flash s' gran.
Proof.
  intros F []. constructor.
  - intros H. destruct (eo_plain0 H). eauto using erases_frame.
  - intros H. destruct (eo_sfdp0 H) as (? & ? & He). split_and!; eauto using erases_frame.
    intros i Hi. destruct (He i Hi). eauto using erases_frame.
Qed.

Lemma fixed_cmd_ne cmd k :
  fixed_cmd cmd = false → fixed_cmd k = true → (cmd =? k) = false.
Proof. intros H1 H2. destruct (Z.eqb_spec cmd k); [congruence | done]. Qed.

Lemma erase_starts flash s e addr :
  flash_ok flash s → erases s e → 0 ≤ addr < blen (nor_mem (io_nor s)) →
  addr - addr mod er_size e + er_size e ≤ blen (nor_mem (io_nor s)) →
  starts s (er_cmd e :: make_address_byte_array flash addr)
    (memset (nor_mem (io_nor s)) (addr - addr mod er_size e) 0xFF (er_size e)).
Proof.
  intros Hok (Hb & Hf & Hp) Ha Hfit. pose proof (Z.mod_pos_bound addr (er_size e) Hp).
  pose proof (Z.mod_le addr (er_size e) ltac:(lia) Hp).
  exists (er_cmd e), (make_address_byte_array flash addr). split; [done |].
  split; [by rewrite memset_length by lia |]. intros d Hs Hm H4 Hbz Haai Hw.
  destruct (nor_addr_spec flash s d addr [] Hok Hm H4 Ha) as [E1 _]. rewrite app_nil_r in E1.
  unfold nor_exec. rewrite Hbz, Hw, Hs, Hb, E1, Hm.
  by rewrite !(fixed_cmd_ne (er_cmd e)) by done.
Qed.

Lemma eraser_loop_spec flash addr size i :
  let j := eraser_loop flash addr size i in
  j = 0%nat ∨ (er_size (eraser_at flash j) ≠ 0 ∧ er_size (eraser_at flash j) ≤ size
               ∧ addr mod er_size (eraser_at flash j) = 0).
Proof.
  induction i as [|i IH]; simpl; destruct (negb _ && _ && _) eqn:E; try done; [by left | by left |].
  right. apply andb_true_iff in E as [[E1 E2]%andb_true_iff E3]. simpl.
  apply negb_true_iff, Z.eqb_neq in E1. apply Z.leb_le in E2. by apply Z.eqb_eq in E3.
Qed.

(** The eraser of a round: the granule, or a larger block that starts at the address and
    fits the rest. *)
Lemma cur_eraser_spec flash s gran addr size :
  erasers_ok flash s gran →
  let e := cur_eraser flash addr size in
  erases s e
  ∧ (er_size e = gran ∨ ((gran | er_size e) ∧ er_size e ≤ size ∧ addr mod er_size e = 0)).
Proof.
  intros [Hp Hs]. unfold cur_eraser. destruct (available (fl_sfdp flash)).
  - destruct (Hs eq_refl) as (E0 & He0 & He). unfold sfud_sfdp_get_suitable_eraser.
    destruct (negb _); [split; [done | by left] |].
    destruct (eraser_loop_spec flash addr size (SFUD_SFDP_ERASE_TYPE_MAX_NUM - 1))
      as [-> | (Hn & Hle & Hm)]; [split; [done | by left] |].
    destruct (He _ Hn). auto.
  - destruct (Hp eq_refl) as [<- ?]. split; [done | by left].
Qed.

(** [lo] and [hi] are the range [addr, addr + size) rounded to granules. *)
Definition rounded (gran addr size lo hi : Z) : Prop :=
  0 < gran ∧ (gran | lo) ∧ (gran | hi) ∧ lo ≤ addr < lo + gran
  ∧ hi - gran < addr + size ≤ hi ∧ 0 ≤ lo.

(** One block covers [lo] on; it ends the range or leaves a rounded rest. *)
Lemma block_step gran addr size lo hi sz :
  rounded gran addr size lo hi → 0 ≤ addr → 0 < size → 0 < sz →
  sz = gran ∨ ((gran | sz) ∧ sz ≤ size ∧ addr mod sz = 0) →
  addr - addr mod sz = lo ∧ lo + sz ≤ hi
  ∧ if sz - (addr - lo) <? size
    then rounded gran (lo + sz) (size - (sz - (addr - lo))) (lo + sz) hi
         ∧ 0 < size - (sz - (addr - lo))
    else lo + sz = hi.
Proof.
  intros (Hg & [a ->] & [b ->] & Hlo & Hhi & Hlo0) Ha Hs Hsz Hcase.
  assert (addr - addr mod sz = a * gran ∧ (∃ k, sz = k * gran ∧ (k = 1 ∨ sz ≤ size ∧ addr = a * gran)))
    as [Hbase (k & -> & Hk)].
  { destruct Hcase as [-> | ([k ->] & Hle & Hm)].
    - split; [|exists 1; lia]. rewrite <-(Z.mod_unique addr gran a (addr - a * gran)); lia.
    - assert (addr = a * gran) as ->.
      { apply Z.mod_divide in Hm as [q ->]; [|lia]. assert (a = q * k) as -> by nia. lia. }
      split; [lia |]. exists k. split; [done | by right]. }
  assert (0 < k) by nia. split; [done |].
  assert (a * gran + k * gran ≤ b * gran) by (destruct Hk as [->|[? ?]]; [assert (a < b) by nia; nia | lia]).
  split; [done |]. destruct (Z.ltb_spec (k * gran - (addr - a * gran)) size).
  - split; [|lia]. unfold rounded. split_and!; try lia; [by exists (a + k); lia | by exists b].
  - destruct Hk as [->|[? ?]].
    + assert (b < a + 2) by nia. nia.
    + assert (b < a + k + 1) by nia. nia.
Qed.

(** What an erase did: a whole number of granules from [lo] on, all up to [hi] on
    success. *)
Definition erased (n : nat) (s s' : io) (r : sfud_err) (gran lo hi : Z) : Prop :=
  frame n s s'
  ∧ (∃ h, lo ≤ h ≤ hi ∧ (gran | h)
      ∧ nor_mem (io_nor s') = memset (nor_mem (io_nor s)) lo 0xFF (h - lo)
      ∧ (r = SFUD_SUCCESS → h = hi))
  ∧ (r = SFUD_SUCCESS → idle s')
  ∧ (healthy n s → r = SFUD_SUCCESS).

Lemma erase_step flash s e gran addr size lo hi r s' :
  flash_ok flash s → idle s → erases s e →
  rounded gran addr size lo hi → 0 ≤ addr → 0 < size → hi ≤ blen (nor_mem (io_nor s)) →
  er_size e = gran ∨ ((gran | er_size e) ∧ er_size e ≤ size ∧ addr mod er_size e = 0) →
  write_cycle flash s (er_cmd e :: make_address_byte_array flash addr) = (r, s') →
  erased (retry_times flash) s s' r gran lo (lo + er_size e).
Proof.
  intros Hok Hid He Hr Ha Hs Hfit Hc H. pose proof (proj2 (proj2 He)) as Hp.
  destruct (block_step _ _ _ _ _ _ Hr Ha Hs Hp Hc) as (Hb & Hle & _).
  destruct Hr as (Hg & Dlo & _ & _ & _ & Hlo).
  assert ((gran | lo + er_size e)) as Dh.
  { apply Z.divide_add_r; [done |]. destruct Hc as [->|[? _]]; [apply Z.divide_refl | done]. }
  assert (addr < blen (nor_mem (io_nor s))) by (pose proof (Z.mod_pos_bound addr _ Hp); lia).
  pose proof (erase_starts flash s e addr Hok He ltac:(lia) ltac:(lia)) as Hst. rewrite Hb in Hst.
  destruct (write_cycle_spec flash s _ _ _ _ Hid Hst H) as (F & M & Hsu & Hh).
  unfold erased. split_and!; [done | | by intros E%Hsu; apply E | done].
  destruct (decide (r = SFUD_SUCCESS)) as [E|E].
  - exists (lo + er_size e). replace (lo + er_size e - lo) with (er_size e) by lia.
    split_and!; [lia | lia | done | by apply Hsu | done].
  - destruct M as [M|M]; [exists lo | exists (lo + er_size e)].
    + rewrite Z.sub_diag, memset_0 by done. split_and!; [lia | lia | done | done | done].
    + replace (lo + er_size e - lo) with (er_size e) by lia.
      split_and!; [lia | lia | done | done | done].
Qed.

Lemma erased_step n s s1 s' r gran lo mid hi :
  0 ≤ lo ≤ mid → mid ≤ hi → hi ≤ blen (nor_mem (io_nor s)) →
  erased n s s1 SFUD_SUCCESS gran lo mid → erased n s1 s' r gran mid hi →
  erased n s s' r gran lo hi.
Proof.
  intros Hl Hm Hh (F1 & (h1 & L1 & D1 & M1 & E1) & I1 & H1) (F2 & (h2 & L2 & D2 & M2 & E2) & I2 & H2).
  specialize (E1 eq_refl) as ->. unfold erased. split_and!; [by etrans | | done |].
  - exists h2. split_and!; [lia | lia | done | | done]. rewrite M2, M1.
    replace mid with (lo + (mid - lo)) at 2 by lia. rewrite memset_app by lia. f_equal. lia.
  - intros Hs. by apply H2, F1.
Qed.

Lemma erase_loop_spec fuel flash s gran addr size lo hi r s' :
  flash_ok flash s → idle s → erasers_ok flash s gran →
  rounded gran addr size lo hi → 0 ≤ addr → 0 < size → hi ≤ blen (nor_mem (io_nor s)) →
  size ≤ Z.of_nat fuel →
  erase_loop fuel flash s addr size = (r, s') →
  erased (retry_times flash) s s' r gran lo hi.
Proof.
  revert s addr size lo. induction fuel as [|fuel IH]; intros s addr size lo Hok Hid Heo Hr Ha Hs Hfit Hf; [lia |].
  simpl erase_loop. destruct (Z.eqb_spec size 0) as [->|_]; [lia |].
  destruct (cur_eraser_spec flash s gran addr size Heo) as [He Hc].
  set (e := cur_eraser flash addr size) in *. pose proof (proj2 (proj2 He)) as Hp.
  destruct (block_step _ _ _ _ _ _ Hr Ha Hs Hp Hc) as (Hb & Hle & Hnext).
  assert ((if negb (addr mod er_size e =? 0) then er_size e - addr mod er_size e else er_size e)
          = er_size e - (addr - lo)) as -> by (destruct (Z.eqb_spec (addr mod er_size e) 0); simpl; lia).
  replace (addr + (er_size e - (addr - lo))) with (lo + er_size e) by lia.
  assert (0 ≤ lo) by apply Hr. rewrite u32_small by (destruct Hok; unfold is_u32; lia).
  intros E. pose proof (write_cycle_then flash s (er_cmd e :: make_address_byte_array flash addr)
    (λ s, if er_size e - (addr - lo) <? size
          then erase_loop fuel flash s (lo + er_size e) (size - (er_size e - (addr - lo)))
          else (SFUD_SUCCESS, s))) as W.
  cbv beta in W. rewrite W in E. clear W.
  destruct (write_cycle _ _ _) as [r1 s1] eqn:H1.
  apply (erase_step flash s e gran addr size lo hi) in H1; try done.
  apply on_success_inv in E as [[Hr1 E] | [Hr1 E]]; simpl in *.
  - subst r1. destruct (Z.ltb_spec (er_size e - (addr - lo)) size).
    + destruct (H1) as (F1 & _ & I1 & _). destruct Hnext as [Hn Hpos].
      apply (erased_step _ s s1 s' r gran lo (lo + er_size e) hi); [lia | lia | lia | done |].
      assert (blen (nor_mem (io_nor s1)) = blen (nor_mem (io_nor s))) as El
        by (unfold blen; by rewrite (fr_len _ _ _ F1)).
      pose proof (Z.mod_pos_bound addr _ Hp).
      apply (IH s1 (lo + er_size e) (size - (er_size e - (addr - lo))));
        first [by eapply flash_ok_frame | by apply I1 | by eapply erasers_ok_frame | done | lia].
    + injection E as <- <-. by rewrite <-Hnext.
  - simplify_eq. destruct H1 as (F1 & (h & Lh & Dh & M1 & E1) & I1 & H1).
    unfold erased. split_and!; [done | | done | done]. exists h. split_and!; [lia | lia | done | done | done].
Qed.

Lemma chip_erase_spec flash s r s' :
  flash_ok flash s → idle s → sfud_chip_erase flash s = (r, s') →
  frame (retry_times flash) s s'
  ∧ (nor_mem (io_nor s') = nor_mem (io_nor s)
     ∨ nor_mem (io_nor s') = replicate (length (nor_mem (io_nor s))) 0xFF)
  ∧ (r = SFUD_SUCCESS →
       nor_mem (io_nor s') = replicate (length (nor_mem (io_nor s))) 0xFF ∧ idle s')
  ∧ (healthy (retry_times flash) s → r = SFUD_SUCCESS).
Proof.
  intros Hok Hid. unfold sfud_chip_erase.
  set (w := if flag_set (write_mode (fl_chip flash)) SFUD_WM_DUAL_BUFFER
            then [SFUD_CMD_ERASE_CHIP; 0x94; 0x80; 0x9A] else [SFUD_CMD_ERASE_CHIP]).
  set (x := on_success _ _). assert (x = write_cycle flash (spi_lock s) w) as ->.
  { subst x w. unfold write_cycle. by destruct (flag_set _ _). }
  destruct (write_cycle flash (spi_lock s) w) as [r1 s1] eqn:H1. intros E.
  assert (starts (spi_lock s) w (replicate (length (nor_mem (io_nor s))) 0xFF)) as Hst.
  { exists SFUD_CMD_ERASE_CHIP, (drop 1 w). split; [subst w; by destruct (flag_set _ _) |].
    split; [by rewrite length_replicate |]. intros d _ Hm _ Hb Ha Hw.
    unfold nor_exec. by rewrite Hb, Hw, Hm. }
  destruct (write_cycle_spec flash (spi_lock s) _ _ _ _ Hid Hst H1) as (F & M & Hs & Hh).
  apply (exit_write_spec (retry_times flash)) in E as (-> & Hq & I2 & _).
  assert (nor_mem (io_nor s') = nor_mem (io_nor s1)) as Em by apply Hq.
  rewrite Em. split_and!; [by eapply frame_locked | done | | done].
  intros E. destruct (Hs E). auto.
Qed.

Definition round_down (gran a : Z) : Z := a - a mod gran.
Definition round_up (gran a : Z) : Z := round_down gran (a + gran - 1).

Lemma rounded_intro gran addr size :
  0 < gran → 0 ≤ addr → rounded gran addr size (round_down gran addr) (round_up gran (addr + size)).
Proof.
  intros Hg Ha. unfold rounded, round_up, round_down.
  pose proof (Z.mod_pos_bound addr gran Hg). pose proof (Z.mod_pos_bound (addr + size + gran - 1) gran Hg).
  pose proof (Z.mod_le addr gran Ha Hg).
  split_and!; try lia.
  - exists (addr / gran). pose proof (Z.div_mod addr gran). lia.
  - exists ((addr + size + gran - 1) / gran). pose proof (Z.div_mod (addr + size + gran - 1) gran). lia.
Qed.

Lemma round_up_le gran a cap : 0 < gran → (gran | cap) → a ≤ cap → round_up gran a ≤ cap.
Proof.
  intros Hg [q ->] Ha. unfold round_up, round_down.
  pose proof (Z.div_mod (a + gran - 1) gran). pose proof (Z.mod_pos_bound (a + gran - 1) gran Hg).
  assert ((a + gran - 1) / gran < q + 1) by (apply Z.div_lt_upper_bound; nia). nia.
Qed.

Lemma round_up_id gran a : 0 < gran → (gran | a) → round_up gran a = a.
Proof.
  intros Hg [q ->]. unfold round_up, round_down.
  rewrite <-(Z.mod_unique (q * gran + gran - 1) gran q (gran - 1)); lia.
Qed.

(** The erase loop between lock and unlock. *)
Lemma erase_range_spec flash s gran addr size lo hi r s' :
  flash_ok flash s → idle s → erasers_ok flash s gran →
  rounded gran addr size lo hi → 0 ≤ addr → 0 < size → hi ≤ blen (nor_mem (io_nor s)) →
  exit_write (erase_loop (Z.to_nat size) flash (spi_lock s) addr size) = (r, s') →
  erased (retry_times flash) s s' r gran lo hi.
Proof.
  intros Hok Hid Heo Hr Ha Hs Hhi. destruct (erase_loop _ _ _ _ _) as [r1 s1] eqn:H1. intros E.
  assert (flash_ok flash (spi_lock s)) as Hok' by (destruct Hok; by constructor).
  assert (erasers_ok flash (spi_lock s) gran) as Heo' by (destruct Heo; by constructor).
  pose proof (erase_loop_spec (Z.to_nat size) flash (spi_lock s) gran addr size lo hi r1 s1 Hok' Hid Heo' Hr Ha Hs Hhi
    ltac:(lia) H1) as (F1 & (h & Lh & Dh & M1 & Eh) & I1 & Hh).
  apply (exit_write_spec (retry_times flash)) in E as (-> & Hq & I2 & _).
  unfold erased. split_and!; [by eapply frame_locked | | auto | done].
  exists h. by rewrite (proj2 Hq).
Qed.

(** * The operations *)

Lemma sfud_write_spec (flash : sfud_flash) (s : io) (addr size : Z) (data : list Z)
    (r : sfud_err) (s' : io)
    (Hok : flash_ok flash s) (Hid : idle s)
    (Hmode : flag_set (write_mode (fl_chip flash)) SFUD_WM_PAGE_256B = true)
    (Haddr : 0 ≤ addr) (Hsize : 0 ≤ size) (Hwrap : addr + size < 4294967296)
    (Hdata : size ≤ blen data)
    (Hrun : sfud_write flash s addr size data = (r, s')) :
  if blen (nor_mem (io_nor s)) <? addr + size
  then r = SFUD_ERR_ADDR_OUT_OF_BOUND ∧ s' = s
  else programmed (retry_times flash) s s' r addr size data
       ∧ (healthy (retry_times flash) s → nor_wel (io_nor s') = false).
Proof.
  unfold sfud_write in Hrun. rewrite Hmode in Hrun.
  destruct (Z.ltb_spec (blen (nor_mem (io_nor s))) (addr + size)).
  - revert Hrun. unfold page256_or_1_byte_write. u32s. rewrite (fo_cap _ _ Hok).
    destruct (Z.ltb_spec (blen (nor_mem (io_nor s))) (addr + size)); [|lia]. by intros [= <- <-].
  - apply page_write_spec in Hrun; auto.
Qed.

Lemma sfud_erase_spec (flash : sfud_flash) (s : io) (gran addr size : Z)
    (r : sfud_err) (s' : io)
    (Hok : flash_ok flash s) (Hid : idle s) (Heo : erasers_ok flash s gran)
    (Hg : 0 < gran) (Hdiv : (gran | capacity (fl_chip flash)))
    (Haddr : 0 ≤ addr) (Hsize : 0 < size) (Hwrap : addr + size < 4294967296)
    (Hrun : sfud_erase flash s addr size = (r, s')) :
  if blen (nor_mem (io_nor s)) <? addr + size
  then r = SFUD_ERR_ADDR_OUT_OF_BOUND ∧ s' = s
  else erased (retry_times flash) s s' r gran (round_down gran addr) (round_up gran (addr + size)).
Proof.
  revert Hrun. unfold sfud_erase. u32s. rewrite (fo_cap _ _ Hok) in *.
  destruct (Z.ltb_spec (blen (nor_mem (io_nor s))) (addr + size)); [by intros [= <- <-] |].
  pose proof (rounded_intro gran addr size Hg Haddr) as Hr.
  pose proof (round_up_le gran (addr + size) _ Hg Hdiv ltac:(lia)) as Hhi.
  destruct (Z.eqb_spec addr 0) as [->|]; [destruct (Z.eqb_spec size (blen (nor_mem (io_nor s)))) as [->|] |]; simpl.
  1: { intros E%chip_erase_spec; [|done|done]. destruct E as (F & M & Hs & Hh).
    rewrite round_up_id by done. change (round_down gran 0) with 0. unfold erased.
    assert (memset (nor_mem (io_nor s)) 0 255 (blen (nor_mem (io_nor s)))
            = replicate (length (nor_mem (io_nor s))) 255) as Em.
    { unfold memset. simpl. rewrite drop_ge, app_nil_r by len. f_equal. len. }
    split_and!; [done | | by intros E%Hs; apply E | done].
    destruct (decide (r = SFUD_SUCCESS)) as [E|E].
    - exists (blen (nor_mem (io_nor s))). rewrite Z.sub_0_r, Em.
      split_and!; [lia | lia | done | by apply Hs | lia].
    - destruct M as [M|M]; [exists 0 | exists (blen (nor_mem (io_nor s)))]; rewrite Z.sub_0_r, ?Em.
      + rewrite memset_0 by done. split_and!; [lia | lia | apply Z.divide_0_r | done | done].
      + split_and!; [lia | lia | done | done | done]. }
  all: by intros E; apply (erase_range_spec flash s gran _ _ _ _ _ _ Hok Hid Heo Hr).
Qed.

Lemma sfud_read_spec (flash : sfud_flash) (s : io) (addr size : Z) (data : list Z)
    (r : sfud_err) (data' : list Z) (s' : io)
    (Hok : flash_ok flash s) (Haddr : 0 ≤ addr) (Hsize : 0 < size)
    (Hfit : addr + size ≤ blen (nor_mem (io_nor s)))
    (Hrun : sfud_read flash s addr size data = (r, data', s')) :
  quiet (retry_times flash) s s' ∧ (idle s → idle s')
  ∧ (r = SFUD_SUCCESS → data' = memcpy data 0 (nor_mem (io_nor s)) addr size)
  ∧ (r ≠ SFUD_SUCCESS → data' = data)
  ∧ (healthy (retry_times flash) s → (nor_busy (io_nor s) ≤ retry_times flash)%nat →
     r = SFUD_SUCCESS).
Proof.
  set (n := retry_times flash) in *. pose proof Hok as [Hcap _ Hlt _].
  revert Hrun. unfold sfud_read. u32s.
  destruct (Z.ltb_spec (capacity (fl_chip flash)) (addr + size)); [lia |].
  destruct (wait_busy flash (spi_lock s)) as [r1 s1] eqn:H1.
  apply (wait_busy_spec n) in H1 as ([F1 M1] & Hi1 & _ & Hb1 & Hh1). case_bool_decide as Hr1.
  2:{ intros [= <- <- <-]. split; [split; [eapply frame_locked, reflexivity; exact F1 | done] |].
      split_and!; [done | done | done |]. intros Hh Hb. by destruct Hr1; apply Hh1. }
  specialize (Hb1 Hr1). destruct (spi_write_read s1 _ _) as [[r2 out] s2] eqn:H2.
  intros [= <- <- <-]. apply xfer_cases in H2 as [Hl2 H2].
  assert (nor_mem (pop_bus (io_nor s1)) = nor_mem (io_nor s)) as Mp by done.
  assert (nor_exec (pop_bus (io_nor s1)) SFUD_CMD_READ_DATA (make_address_byte_array flash addr)
            (Z.to_nat size)
          = (take (Z.to_nat size) (drop (Z.to_nat addr) (nor_mem (io_nor s))), pop_bus (io_nor s1))) as Hx.
  { destruct (nor_addr_spec flash s (pop_bus (io_nor s1)) addr [] Hok Mp (fr_4b _ _ _ F1) ltac:(lia))
      as [E1 _]. rewrite app_nil_r in E1.
    unfold nor_exec. simpl (nor_busy _). rewrite Hb1, E1, Mp. simpl. f_equal.
    rewrite drop_app_le by len. by rewrite take_app_le by len. }
  rewrite Hx in H2. simpl in H2.
  pose proof (pop_quiet n s1) as [FP MP].
  assert (s2 = mk_io (pop_bus (io_nor s1)) (io_locks s1)) as ->.
  { destruct s2 as [d2 l2]. simpl in *. subst l2.
    by destruct H2 as [(_ & [-> | ->] & _) | [_ [= _ ->]]]. }
  split; [split; [eapply frame_locked, reflexivity; by etrans | done] |].
  destruct H2 as [(-> & _ & Hb) | [-> [= <-]]]; simpl.
  - split_and!; [done | done | done |]. intros Hh _. destruct (Hb n). by apply F1.
  - split_and!; [done | |done|done]. intros _. unfold memcpy. f_equal. f_equal.
    by rewrite drop_0, take_take, Nat.min_id.
Qed.

(** * Theorems *)

(** C18. What [sfud_write] does, by the write mode of the chip (with [addr + size] below 2^32 and
    the chip idle). In page mode a range inside the chip is programmed exactly: split at page
    boundaries, a prefix of the data is programmed in place and nothing else, whatever transfers
    fail and however long the write cycles take; success is reported only when all data is
    programmed and the chip idle again; the bus lock is released; and when no transfer fails and
    no cycle exceeds the retry limit it does succeed and leaves the chip write-protected. In page
    mode and in AAI mode a range beyond the capacity is refused without any transfer (what AAI
    mode writes is not part of the claim). In every other mode (byte and dual buffer) success is
    reported and nothing is written. *)
Theorem sfud_write_programs (flash : sfud_flash) (s : io) (addr size : Z) (data : list Z)
    (r : sfud_err) (s' : io)
    (Hok : flash_ok flash s) (Hid : idle s)
    (Haddr : 0 ≤ addr) (Hsize : 0 ≤ size) (Hwrap : addr + size < 4294967296)
    (Hdata : size ≤ blen data)
    (Hrun : sfud_write flash s addr size data = (r, s')) :
  let mode := write_mode (fl_chip flash) in
  let inside := addr + size <=? blen (nor_mem (io_nor s)) in
  if flag_set mode SFUD_WM_PAGE_256B then
    if inside
    then programmed (retry_times flash) s s' r addr size data
         ∧ (healthy (retry_times flash) s → nor_wel (io_nor s') = false)
    else r = SFUD_ERR_ADDR_OUT_OF_BOUND ∧ s' = s
  else if flag_set mode SFUD_WM_AAI then
    inside = false → r = SFUD_ERR_ADDR_OUT_OF_BOUND ∧ s' = s
  else r = SFUD_SUCCESS ∧ s' = s.
Proof.
  intros mode inside. subst inside. rewrite Z.leb_antisym.
  destruct (flag_set mode SFUD_WM_PAGE_256B) eqn:Hmode.
  - pose proof (sfud_write_spec flash s addr size data r s' Hok Hid Hmode Haddr Hsize Hwrap Hdata Hrun) as H.
    by destruct (_ <? _).
  - unfold sfud_write in Hrun. fold mode in Hrun. rewrite Hmode in Hrun. destruct (flag_set mode SFUD_WM_AAI).
    + intros Hin%negb_false_iff. unfold aai_write in Hrun. rewrite (u32_small (addr + size)) in Hrun by (unfold is_u32; lia).
      rewrite (fo_cap _ _ Hok), Hin in Hrun. by injection Hrun as <- <-.
    + by destruct (flag_set mode SFUD_WM_DUAL_BUFFER); injection Hrun as <- <-.
Qed.


(** Reading is exact and harmless. For a range inside the chip, from any state of it,
    [sfud_read] waits for a write cycle in progress, changes no byte of the chip (and
    leaves an idle chip idle), and
    either succeeds with exactly the bytes of the range in the buffer or fails with the
    buffer unchanged; it succeeds when no transfer fails and the cycle in progress ends
    within the retry limit. *)
Theorem sfud_read_exact (flash : sfud_flash) (s : io) (addr size : Z) (data : list Z)
    (r : sfud_err) (data' : list Z) (s' : io)
    (Hok : flash_ok flash s) (Haddr : 0 ≤ addr) (Hsize : 0 < size)
    (Hfit : addr + size ≤ blen (nor_mem (io_nor s)))
    (Hrun : sfud_read flash s addr size data = (r, data', s')) :
  quiet (retry_times flash) s s' ∧ (idle s → idle s')
  ∧ (r = SFUD_SUCCESS → data' = memcpy data 0 (nor_mem (io_nor s)) addr size)
  ∧ (r ≠ SFUD_SUCCESS → data' = data)
  ∧ (healthy (retry_times flash) s → (nor_busy (io_nor s) ≤ retry_times flash)%nat →
     r = SFUD_SUCCESS).
Proof. exact (sfud_read_spec flash s addr size data r data' s' Hok Haddr Hsize Hfit Hrun). Qed.

(** * Witnesses *)

(** A chip of 512 bytes with erase blocks of 16 and 64 bytes and two slow write cycles. *)
Definition demo_flash : sfud_flash :=
  mk_flash (mk_chip 0xEF 0x40 0x16 512 SFUD_WM_PAGE_256B 16 0x20)
    (mk_sfdp true 1 0 256 true 0x20 true 0 true false 512
       [mk_eraser 16 0x20; mk_eraser 64 0x52; mk_eraser 0 0; mk_eraser 0 0])
    true false 3.
Definition demo_io : io :=
  mk_io (mk_nor (mk_nor_part [(0x20, 16); (0x52, 64)] [0xEF; 0x40; 0x16] [])
           (replicate 512 0xFF) false 0 false None [2%nat; 1%nat; 3%nat] []) 0.

Lemma demo_ok : flash_ok demo_flash demo_io ∧ idle demo_io ∧ healthy 3 demo_io.
Proof.
  split_and!; [by constructor; vm_compute | done | by split; repeat constructor].
Qed.

Lemma demo_erasers : erasers_ok demo_flash demo_io 16.
Proof.
  constructor; [done |]. intros _. split_and!; [done | done |].
  intros [|[|[|[|i]]]] Hi; try done; split; try done; by exists 4 || exists 1.
Qed.

Definition demo_data : list Z := [1; 2; 3; 4; 5; 6; 7; 8; 9; 10; 11; 12].

(** Twelve bytes across the page boundary at 256. *)
Lemma sfud_write_programs_witness :
  let x := sfud_write demo_flash demo_io 250 12 demo_data in
  x.1 = SFUD_SUCCESS ∧ programmed 3 demo_io x.2 x.1 250 12 demo_data.
Proof.
  intros x. split; [by vm_compute |]. destruct demo_ok as (Hok & Hid & _).
  exact (proj1 (sfud_write_programs demo_flash demo_io 250 12 demo_data x.1 x.2 Hok Hid
    ltac:(lia) ltac:(lia) ltac:(lia) ltac:(by vm_compute) (surjective_pairing x))).
Defined.


Lemma sfud_read_exact_witness :
  let x := sfud_read demo_flash demo_io 3 2 [0; 0] in
  x.1.1 = SFUD_SUCCESS ∧ x.1.2 = [255; 255].
Proof.
  intros x. destruct demo_ok as (Hok & _ & Hh).
  destruct (sfud_read_exact demo_flash demo_io 3 2 [0; 0] x.1.1 x.1.2 x.2 Hok
    ltac:(lia) ltac:(lia) ltac:(by vm_compute) ltac:(by vm_compute)) as (_ & _ & Hs & _ & Hr).
  specialize (Hr Hh ltac:(simpl; lia)). split; [exact Hr |]. rewrite (Hs Hr). by vm_compute.
Defined.
