(* ===== verification/Fal.v ===== *)
(** The flash under FlashDB: the SFUD port of board/ports/fal and the partition access of
    rt-thread/components/fal/src/fal_partition.c, over the serial flash driver. *)

From S2P Require Import Prelude.
From S2P Require Import Nor.
From S2P Require Import Sfud.

(** The flash device of the port: the driver's object and the bus with the chip. *)
Record nordev : Type := mk_dev { dv_flash : sfud_flash; dv_io : io }.

(** The array of the chip. *)
Definition dv_mem (c : nordev) : list Z := nor_mem (io_nor (dv_io c)).

(** * The port (fal_flash_sfud_port.c) *)

(** [ext_nor_flash0.addr] is 0; a [size_t] is returned as an [int]. The result of
    [sfud_read] is ignored. *)
Definition port_read (c : nordev) (offset : Z) (buf : list Z) (size : Z) : Z * list Z * nordev :=
  let '(_, buf, s) := sfud_read (dv_flash c) (dv_io c) (u32 (0 + offset)) size buf in
  (s32 size, buf, mk_dev (dv_flash c) s).

Definition port_write (c : nordev) (offset : Z) (buf : list Z) (size : Z) : Z * nordev :=
  let '(r, s) := sfud_write (dv_flash c) (dv_io c) (u32 (0 + offset)) size buf in
  (if bool_decide (r ≠ SFUD_SUCCESS) then -1 else s32 size, mk_dev (dv_flash c) s).

Definition port_erase (c : nordev) (offset size : Z) : Z * nordev :=
  let '(r, s) := sfud_erase (dv_flash c) (dv_io c) (u32 (0 + offset)) size in
  (if bool_decide (r ≠ SFUD_SUCCESS) then -1 else s32 size, mk_dev (dv_flash c) s).

(** * Partitions (fal_partition.c) *)

(** [pa_found] is the outcome of [flash_device_find_by_part]. *)
Record fal_partition : Type := mk_part { pa_offset : Z; pa_len : Z; pa_found : bool }.

Definition fal_partition_read (part : fal_partition) (c : nordev) (addr : Z) (buf : list Z)
    (size : Z) : Z * list Z * nordev :=
  if pa_len part <? u32 (addr + size) then (-1, buf, c) else
  if negb (pa_found part) then (-1, buf, c) else
  port_read c (u32 (pa_offset part + addr)) buf size.

Definition fal_partition_write (part : fal_partition) (c : nordev) (addr : Z) (buf : list Z)
    (size : Z) : Z * nordev :=
  if pa_len part <? u32 (addr + size) then (-1, c) else
  if negb (pa_found part) then (-1, c) else
  port_write c (u32 (pa_offset part + addr)) buf size.

Definition fal_partition_erase (part : fal_partition) (c : nordev) (addr size : Z) : Z * nordev :=
  if pa_len part <? u32 (addr + size) then (-1, c) else
  if negb (pa_found part) then (-1, c) else
  port_erase c (u32 (pa_offset part + addr)) size.

Definition fal_partition_erase_all (part : fal_partition) (c : nordev) : Z * nordev :=
  fal_partition_erase part c 0 (pa_len part).

(** * A partition on an idle chip *)

Record part_ok (part : fal_partition) (c : nordev) : Prop := {
  po_off : 0 ≤ pa_offset part;
  po_len : 0 ≤ pa_len part;
  po_in : pa_offset part + pa_len part ≤ blen (dv_mem c);
  po_size : blen (dv_mem c) < 2147483648;
  po_found : pa_found part = true;
  po_flash : flash_ok (dv_flash c) (dv_io c);
  po_idle : idle (dv_io c);
  po_mode : flag_set (write_mode (fl_chip (dv_flash c))) SFUD_WM_PAGE_256B = true
}.

(** No transfer fails and no write cycle exceeds the driver's retry limit. *)
Definition dev_healthy (c : nordev) : Prop := healthy (retry_times (dv_flash c)) (dv_io c).

(** The bus and the driver's view of the chip survive an operation. *)
Definition dev_frame (c c' : nordev) : Prop :=
  dv_flash c' = dv_flash c ∧ frame (retry_times (dv_flash c)) (dv_io c) (dv_io c').

Lemma dev_frame_blen c c' : dev_frame c c' → blen (dv_mem c') = blen (dv_mem c).
Proof. intros [_ []]. unfold blen, dv_mem. by f_equal. Qed.

Lemma dev_frame_healthy c c' : dev_frame c c' → dev_healthy c → dev_healthy c'.
Proof. unfold dev_healthy. intros [-> []]. auto. Qed.

Lemma part_ok_frame part c c' :
  part_ok part c → dev_frame c c' → idle (dv_io c') → part_ok part c'.
Proof.
  intros [] F Hid. pose proof (dev_frame_blen _ _ F) as E. destruct F as [Ef F].
  constructor; rewrite ?E, ?Ef; try done. by eapply flash_ok_frame.
Qed.

Section part.
Context (part : fal_partition) (c : nordev) (Hok : part_ok part c).

(** An access inside the partition reaches the driver at the partition's offset. *)
Lemma part_read_in addr buf size :
  0 ≤ addr → 0 ≤ size → addr + size ≤ pa_len part →
  fal_partition_read part c addr buf size
    = (let '(_, buf, s) := sfud_read (dv_flash c) (dv_io c) (pa_offset part + addr) size buf in
       (size, buf, mk_dev (dv_flash c) s)).
Proof using Hok.
  destruct Hok. intros. unfold fal_partition_read, port_read. rewrite Z.add_0_l. u32s.
  destruct (Z.ltb_spec (pa_len part) (addr + size)); [lia |].
  by rewrite po_found0, s32_small by (unfold is_s32; lia).
Qed.

Lemma part_write_in addr buf size :
  0 ≤ addr → 0 ≤ size → addr + size ≤ pa_len part →
  fal_partition_write part c addr buf size
    = (let '(r, s) := sfud_write (dv_flash c) (dv_io c) (pa_offset part + addr) size buf in
       (if bool_decide (r ≠ SFUD_SUCCESS) then -1 else size, mk_dev (dv_flash c) s)).
Proof using Hok.
  destruct Hok. intros. unfold fal_partition_write, port_write. rewrite Z.add_0_l. u32s.
  destruct (Z.ltb_spec (pa_len part) (addr + size)); [lia |].
  by rewrite po_found0, s32_small by (unfold is_s32; lia).
Qed.

Lemma part_erase_in addr size :
  0 ≤ addr → 0 ≤ size → addr + size ≤ pa_len part →
  fal_partition_erase part c addr size
    = (let '(r, s) := sfud_erase (dv_flash c) (dv_io c) (pa_offset part + addr) size in
       (if bool_decide (r ≠ SFUD_SUCCESS) then -1 else size, mk_dev (dv_flash c) s)).
Proof using Hok.
  destruct Hok. intros. unfold fal_partition_erase, port_erase. rewrite Z.add_0_l. u32s.
  destruct (Z.ltb_spec (pa_len part) (addr + size)); [lia |].
  by rewrite po_found0, s32_small by (unfold is_s32; lia).
Qed.

(** ** Effects, whatever transfers fail *)

Lemma part_read_spec addr buf size :
  0 ≤ addr → 0 < size → addr + size ≤ pa_len part →
  ∃ buf' c', fal_partition_read part c addr buf size = (size, buf', c')
    ∧ dev_frame c c' ∧ idle (dv_io c') ∧ dv_mem c' = dv_mem c
    ∧ (buf' = buf ∨ buf' = memcpy buf 0 (dv_mem c) (pa_offset part + addr) size)
    ∧ (dev_healthy c → buf' = memcpy buf 0 (dv_mem c) (pa_offset part + addr) size).
Proof using Hok.
  intros Ha Hs Hin. rewrite part_read_in by lia.
  destruct (sfud_read _ _ _ _ _) as [[r buf'] s'] eqn:H.
  pose proof Hok as []. unfold dv_mem in *.
  apply sfud_read_spec in H as ([F M] & Hi & Hsu & Hf & Hh); [|done | lia | lia | lia].
  exists buf', (mk_dev (dv_flash c) s'). split_and!; try done; [by apply Hi | |].
  - destruct (decide (r = SFUD_SUCCESS)); [right | left]; auto.
  - intros Hy. apply Hsu, Hh; [done |]. destruct po_idle0 as [-> _]. lia.
Qed.

Lemma part_write_spec addr buf size :
  0 ≤ addr → 0 ≤ size → addr + size ≤ pa_len part → size ≤ blen buf →
  ∃ r c' k, fal_partition_write part c addr buf size = (r, c')
    ∧ dev_frame c c' ∧ 0 ≤ k ≤ size
    ∧ dv_mem c' = nor_program (dv_mem c) (Z.to_nat (pa_offset part + addr)) (take (Z.to_nat k) buf)
    ∧ (r = -1 ∨ (r = size ∧ k = size ∧ idle (dv_io c')))
    ∧ (dev_healthy c → r = size ∧ k = size ∧ idle (dv_io c')).
Proof using Hok.
  intros Ha Hs Hin Hb. rewrite part_write_in by lia.
  destruct (sfud_write _ _ _ _ _) as [r s'] eqn:H.
  pose proof Hok as []. unfold dv_mem in *.
  apply sfud_write_spec in H; try done; [|lia | lia].
  destruct (Z.ltb_spec (blen (nor_mem (io_nor (dv_io c)))) (pa_offset part + addr + size)); [lia |].
  destruct H as [(F & (k & Hk & M & Ek) & Hi & Hh) _].
  eexists _, _, k. split; [done |]. split; [done |]. split; [done |]. split; [done |].
  destruct (decide (r = SFUD_SUCCESS)) as [->|Hr].
  - rewrite bool_decide_false by tauto. auto 6.
  - rewrite bool_decide_true by done. split; [by left |]. intros Hy. by destruct Hr; apply Hh.
Qed.

Lemma part_erase_spec gran addr size :
  erasers_ok (dv_flash c) (dv_io c) gran → 0 < gran → (gran | blen (dv_mem c)) →
  0 ≤ addr → 0 < size → addr + size ≤ pa_len part →
  let lo := round_down gran (pa_offset part + addr) in
  let hi := round_up gran (pa_offset part + addr + size) in
  ∃ r c' h, fal_partition_erase part c addr size = (r, c')
    ∧ dev_frame c c' ∧ lo ≤ h ≤ hi
    ∧ dv_mem c' = memset (dv_mem c) lo 0xFF (h - lo)
    ∧ (r = -1 ∨ (r = size ∧ h = hi ∧ idle (dv_io c')))
    ∧ (dev_healthy c → r = size ∧ h = hi ∧ idle (dv_io c')).
Proof using Hok.
  intros He Hg Hd Ha Hs Hin lo hi. rewrite part_erase_in by lia.
  destruct (sfud_erase _ _ _ _) as [r s'] eqn:H.
  pose proof Hok as []. unfold dv_mem in *.
  apply (sfud_erase_spec _ _ gran) in H; try done; [|by rewrite (fo_cap _ _ po_flash0) | lia | lia].
  destruct (Z.ltb_spec (blen (nor_mem (io_nor (dv_io c)))) (pa_offset part + addr + size)); [lia |].
  destruct H as (F & (h & Hk & _ & M & Ek) & Hi & Hh).
  eexists _, _, h. split; [done |]. split; [done |]. split; [done |]. split; [done |].
  destruct (decide (r = SFUD_SUCCESS)) as [->|Hr].
  - rewrite bool_decide_false by tauto. auto 6.
  - rewrite bool_decide_true by done. split; [by left |]. intros Hy. by destruct Hr; apply Hh.
Qed.

(** Beyond the end, as long as the 32-bit sum does not wrap, nothing happens. *)
Lemma part_out addr buf size :
  0 ≤ addr → 0 ≤ size → addr + size < 4294967296 → pa_len part < addr + size →
  fal_partition_read part c addr buf size = (-1, buf, c)
  ∧ fal_partition_write part c addr buf size = (-1, c)
  ∧ fal_partition_erase part c addr size = (-1, c).
Proof using.
  intros. unfold fal_partition_read, fal_partition_write, fal_partition_erase. u32s.
  by destruct (Z.ltb_spec (pa_len part) (addr + size)); [|lia].
Qed.

End part.

(** ** On a working bus *)

Definition part_ready (part : fal_partition) (c : nordev) : Prop := part_ok part c ∧ dev_healthy c.

Lemma ready_read part c addr buf size :
  part_ready part c → 0 ≤ addr → 0 < size → addr + size ≤ pa_len part →
  ∃ c', fal_partition_read part c addr buf size
      = (size, memcpy buf 0 (dv_mem c) (pa_offset part + addr) size, c')
    ∧ part_ready part c' ∧ dv_mem c' = dv_mem c.
Proof.
  intros [Hok Hy] Ha Hs Hin.
  destruct (part_read_spec part c Hok addr buf size Ha Hs Hin) as (buf' & c' & E & F & Hi & M & _ & Hb).
  exists c'. rewrite E, (Hb Hy). split_and!; [done | | done].
  split; [by eapply part_ok_frame | by eapply dev_frame_healthy].
Qed.

Lemma ready_write part c addr buf size :
  part_ready part c → 0 ≤ addr → 0 ≤ size → addr + size ≤ pa_len part → size ≤ blen buf →
  ∃ c', fal_partition_write part c addr buf size = (size, c') ∧ part_ready part c'
    ∧ dv_mem c'
      = nor_program (dv_mem c) (Z.to_nat (pa_offset part + addr)) (take (Z.to_nat size) buf).
Proof.
  intros [Hok Hy] Ha Hs Hin Hl.
  destruct (part_write_spec part c Hok addr buf size Ha Hs Hin Hl) as (r & c' & k & E & F & _ & M & _ & Hh).
  destruct (Hh Hy) as (-> & -> & Hi). exists c'. split_and!; [done | | done].
  split; [by eapply part_ok_frame | by eapply dev_frame_healthy].
Qed.

(** A granule-aligned partition contains the granules of its ranges. *)
Lemma rounded_inside gran part addr size :
  0 < gran → (gran | pa_offset part) → (gran | pa_len part) →
  0 ≤ addr → 0 ≤ pa_offset part → addr + size ≤ pa_len part →
  pa_offset part ≤ round_down gran (pa_offset part + addr)
  ∧ round_up gran (pa_offset part + addr + size) ≤ pa_offset part + pa_len part.
Proof.
  intros Hg [a Ha] [b Hb] H0 Ho Hin. split.
  - unfold round_down. rewrite Ha. rewrite Z.add_comm, Z.mod_add by lia.
    pose proof (Z.mod_le addr gran H0 Hg). lia.
  - apply round_up_le; [done | | lia]. exists (a + b). lia.
Qed.

Definition inside (part : fal_partition) (i : nat) : Prop :=
  pa_offset part ≤ Z.of_nat i < pa_offset part + pa_len part.

(** C21. A partition confines every access whose end is below 2^32. On an idle chip in page mode
    with a granule-aligned partition, for an address and a size with [addr + size < 2^32] (the
    check of the code is on the 32-bit sum, and [fal_partition_wrap] is an access that passes it
    when the sum wraps): beyond the
    partition's end every operation returns -1 and does nothing; inside, a read leaves
    the chip alone and a write or erase, even one whose transfers fail half-way, changes
    no byte outside the partition; write and erase return the size only when the whole
    range is programmed or its granules erased, and they do so when the bus works. *)
Theorem fal_partition_confined (part : fal_partition) (c : nordev) (gran addr size : Z)
    (buf : list Z)
    (Hok : part_ok part c) (Heo : erasers_ok (dv_flash c) (dv_io c) gran)
    (Hg : 0 < gran) (Hcap : (gran | blen (dv_mem c)))
    (Ho : (gran | pa_offset part)) (Hl : (gran | pa_len part))
    (Haddr : 0 ≤ addr) (Hsize : 0 < size) (Hwrap : addr + size < 4294967296)
    (Hbuf : size ≤ blen buf) :
  let '(rr, buf', cr) := fal_partition_read part c addr buf size in
  let '(rw, cw) := fal_partition_write part c addr buf size in
  let '(re, ce) := fal_partition_erase part c addr size in
  (pa_len part < addr + size → (rr, buf', cr) = (-1, buf, c) ∧ (rw, cw) = (-1, c) ∧ (re, ce) = (-1, c))
  ∧ dv_mem cr = dv_mem c
  ∧ (∀ i : nat, ¬ inside part i → dv_mem cw !! i = dv_mem c !! i ∧ dv_mem ce !! i = dv_mem c !! i)
  ∧ (rw = size →
       dv_mem cw = nor_program (dv_mem c) (Z.to_nat (pa_offset part + addr)) (take (Z.to_nat size) buf))
  ∧ (re = size → ∀ i : nat,
       pa_offset part + addr ≤ Z.of_nat i < pa_offset part + addr + size → dv_mem ce !! i = Some 0xFF)
  ∧ (dev_healthy c → addr + size ≤ pa_len part →
       rw = size ∧ re = size ∧ buf' = memcpy buf 0 (dv_mem c) (pa_offset part + addr) size).
Proof.
  destruct (Z.lt_ge_cases (pa_len part) (addr + size)) as [Hout|Hin].
  { destruct (part_out part c addr buf size) as (-> & -> & ->); [lia | lia | lia | lia |].
    split_and!; try done; intros; lia. }
  destruct (part_read_spec part c Hok addr buf size) as (buf' & cr & -> & _ & _ & Mr & _ & Hr); [lia | lia | lia |].
  destruct (part_write_spec part c Hok addr buf size) as (rw & cw & k & -> & _ & Hk & Mw & Hrw & Hhw);
    [lia | lia | lia | lia |].
  destruct (part_erase_spec part c Hok gran addr size) as (re & ce & h & -> & _ & Hh & Me & Hre & Hhe);
    [done | done | done | lia | lia | lia |].
  destruct (rounded_inside gran part addr size) as [Hlo Hhi]; try done; [apply Hok |].
  pose proof Hok as []. pose proof (rounded_intro gran (pa_offset part + addr) size Hg ltac:(lia)) as
    (_ & _ & _ & Hrd & Hru & _).
  split_and!; try done.
  - lia.
  - intros i Hi. unfold inside in Hi. rewrite Mw, Me. split.
    + rewrite nor_program_lookup, decide_False; [done |]. len.
    + rewrite memset_lookup by lia. destruct (Z.leb_spec (round_down gran (pa_offset part + addr)) (Z.of_nat i)); [|done].
      destruct (Z.ltb_spec (Z.of_nat i) (round_down gran (pa_offset part + addr)
        + (h - round_down gran (pa_offset part + addr)))); [lia | done].
  - intros E. destruct Hrw as [-> | (_ & -> & _)]; [lia | done].
  - intros E i Hi. destruct Hre as [-> | (_ & -> & _)]; [lia |]. rewrite Me, memset_lookup by lia.
    destruct (Z.leb_spec (round_down gran (pa_offset part + addr)) (Z.of_nat i)); [|lia].
    by destruct (Z.ltb_spec (Z.of_nat i) (round_down gran (pa_offset part + addr)
        + (round_up gran (pa_offset part + addr + size) - round_down gran (pa_offset part + addr)))); [|lia].
  - intros Hy _. split_and!; [by apply Hhw | by apply Hhe | by apply Hr].
Qed.

(** The bound check is on a 32-bit sum: an erase of [size] bytes at the address
    [2^32 - size] passes it, although it lies outside the partition, and on a working
    chip clears the [size] bytes that precede the partition. *)
Theorem fal_partition_wrap (part : fal_partition) (c : nordev) (gran size : Z)
    (Hok : part_ready part c) (Heo : erasers_ok (dv_flash c) (dv_io c) gran)
    (Hg : 0 < gran) (Hcap : (gran | blen (dv_mem c)))
    (Ho : (gran | pa_offset part)) (Hl : (gran | size))
    (Hsize : 0 < size ≤ pa_offset part) :
  ∃ c', fal_partition_erase part c (4294967296 - size) size = (size, c')
    ∧ dv_mem c' = memset (dv_mem c) (pa_offset part - size) 0xFF size.
Proof.
  destruct Hok as [Hok Hy]. pose proof Hok as [].
  (* the same transfers as an erase through a partition that starts at 0 *)
  set (whole := mk_part 0 (blen (dv_mem c)) true).
  assert (part_ok whole c) as Hw by (constructor; simpl; try done; lia).
  assert (fal_partition_erase part c (4294967296 - size) size
          = fal_partition_erase whole c (pa_offset part - size) size) as ->.
  { rewrite (part_erase_in whole c Hw) by (simpl; lia). unfold fal_partition_erase, port_erase.
    replace (u32 (4294967296 - size + size)) with 0 by (unfold u32; by rewrite Z.sub_add).
    destruct (Z.ltb_spec (pa_len part) 0); [lia |]. rewrite po_found0, !Z.add_0_l. simpl.
    replace (u32 (u32 (pa_offset part + (4294967296 - size)))) with (pa_offset part - size).
    - by rewrite s32_small by (unfold is_s32; lia).
    - unfold u32. rewrite Z.mod_mod by lia. replace (pa_offset part + (4294967296 - size))
        with (pa_offset part - size + 1 * 4294967296) by lia.
      rewrite Z.mod_add, Z.mod_small by lia. done. }
  destruct (part_erase_spec whole c Hw gran (pa_offset part - size) size)
    as (r & c' & h & E & _ & _ & M & _ & Hh); simpl in *; [done | done | done | lia | lia | lia |].
  destruct (Hh Hy) as (-> & -> & _). exists c'. split; [done |]. rewrite M, Z.add_0_l.
  replace (pa_offset part - size + size) with (pa_offset part) by lia.
  assert ((gran | pa_offset part - size)) as Hd by (by apply Z.divide_sub_r).
  assert (round_down gran (pa_offset part - size) = pa_offset part - size) as ->.
  { unfold round_down. rewrite (proj2 (Z.mod_divide _ gran ltac:(lia)) Hd). lia. }
  rewrite round_up_id by done. f_equal. lia.
Qed.

(** A partition of 256 bytes in the upper half of a chip of 512 bytes. *)
Definition demo_dev : nordev := mk_dev demo_flash demo_io.
Definition part_hi : fal_partition := mk_part 256 256 true.

Lemma part_hi_ready : part_ready part_hi demo_dev.
Proof.
  destruct demo_ok as (Hok & Hid & Hh). split; [|done]. by constructor.
Qed.

Lemma fal_partition_confined_witness :
  (fal_partition_write part_hi demo_dev 2 [5; 6] 2).1 = 2
  ∧ fal_partition_write part_hi demo_dev 255 [5; 6] 2 = (-1, demo_dev).
Proof.
  split.
  - destruct part_hi_ready as [Hok Hy].
    pose proof (fal_partition_confined part_hi demo_dev 16 2 2 [5; 6] Hok demo_erasers ltac:(lia)
      ltac:(by exists 32) ltac:(by exists 16) ltac:(by exists 16) ltac:(lia) ltac:(lia) ltac:(lia)
      ltac:(by vm_compute)) as H.
    destruct (fal_partition_read _ _ _ _ _) as [[rr b] cr].
    destruct (fal_partition_write _ _ _ _ _) as [rw cw].
    destruct (fal_partition_erase _ _ _ _) as [re ce].
    destruct H as (_ & _ & _ & _ & _ & H). apply (H Hy). simpl. lia.
  - destruct part_hi_ready as [Hok Hy].
    pose proof (fal_partition_confined part_hi demo_dev 16 255 2 [5; 6] Hok demo_erasers ltac:(lia)
      ltac:(by exists 32) ltac:(by exists 16) ltac:(by exists 16) ltac:(lia) ltac:(lia) ltac:(lia)
      ltac:(by vm_compute)) as H.
    destruct (fal_partition_read _ _ _ _ _) as [[rr b] cr].
    destruct (fal_partition_write _ _ _ _ _) as [rw cw].
    destruct (fal_partition_erase _ _ _ _) as [re ce].
    destruct H as (H & _). apply H. simpl. lia.
Defined.

Lemma fal_partition_wrap_witness :
  ∃ c', fal_partition_erase part_hi demo_dev 4294967264 32 = (32, c')
    ∧ dv_mem c' = memset (dv_mem demo_dev) 224 0xFF 32.
Proof.
  apply (fal_partition_wrap part_hi demo_dev 16 32 part_hi_ready demo_erasers);
    [lia | by exists 32 | by exists 16 | by exists 2 | simpl; lia].
Defined.
