(* ===== verification/FdbUtils.v ===== *)
(** FlashDB's utilities (packages/FlashDB-v2.1.0/src/fdb_utils.c): the CRC, the status
    tables kept in flash, the search for erased space, and the flash access of a
    database in FAL mode with a write granularity of one bit. *)

From S2P Require Import Prelude.
From S2P Require Import KvStore.
From S2P Require Import Nor.
From S2P Require Import Sfud.
From S2P Require Import Fal.

Definition FDB_BYTE_ERASED : Z := 0xFF.
Definition FDB_BYTE_WRITTEN : Z := 0x00.
Definition FDB_WRITE_GRAN : Z := 1.
Definition SIZE_MAX : Z := 4294967295.

Definition FDB_ALIGN (size align : Z) : Z := (size + align - 1) - (size + align - 1) mod align.
Definition FDB_WG_ALIGN (size : Z) : Z := FDB_ALIGN size ((FDB_WRITE_GRAN + 7) / 8).
Definition FDB_ALIGN_DOWN (size align : Z) : Z := size / align * align.
Definition FDB_WG_ALIGN_DOWN (size : Z) : Z := FDB_ALIGN_DOWN size ((FDB_WRITE_GRAN + 7) / 8).
Definition FDB_STATUS_TABLE_SIZE (status_number : Z) : Z := (status_number * FDB_WRITE_GRAN + 7) / 8.

(** * CRC-32 *)

Definition crc32_table : list Z :=
  [
    0x00000000; 0x77073096; 0xee0e612c; 0x990951ba; 0x076dc419; 0x706af48f;
    0xe963a535; 0x9e6495a3; 0x0edb8832; 0x79dcb8a4; 0xe0d5e91e; 0x97d2d988;
    0x09b64c2b; 0x7eb17cbd; 0xe7b82d07; 0x90bf1d91; 0x1db71064; 0x6ab020f2;
    0xf3b97148; 0x84be41de; 0x1adad47d; 0x6ddde4eb; 0xf4d4b551; 0x83d385c7;
    0x136c9856; 0x646ba8c0; 0xfd62f97a; 0x8a65c9ec; 0x14015c4f; 0x63066cd9;
    0xfa0f3d63; 0x8d080df5; 0x3b6e20c8; 0x4c69105e; 0xd56041e4; 0xa2677172;
    0x3c03e4d1; 0x4b04d447; 0xd20d85fd; 0xa50ab56b; 0x35b5a8fa; 0x42b2986c;
    0xdbbbc9d6; 0xacbcf940; 0x32d86ce3; 0x45df5c75; 0xdcd60dcf; 0xabd13d59;
    0x26d930ac; 0x51de003a; 0xc8d75180; 0xbfd06116; 0x21b4f4b5; 0x56b3c423;
    0xcfba9599; 0xb8bda50f; 0x2802b89e; 0x5f058808; 0xc60cd9b2; 0xb10be924;
    0x2f6f7c87; 0x58684c11; 0xc1611dab; 0xb6662d3d; 0x76dc4190; 0x01db7106;
    0x98d220bc; 0xefd5102a; 0x71b18589; 0x06b6b51f; 0x9fbfe4a5; 0xe8b8d433;
    0x7807c9a2; 0x0f00f934; 0x9609a88e; 0xe10e9818; 0x7f6a0dbb; 0x086d3d2d;
    0x91646c97; 0xe6635c01; 0x6b6b51f4; 0x1c6c6162; 0x856530d8; 0xf262004e;
    0x6c0695ed; 0x1b01a57b; 0x8208f4c1; 0xf50fc457; 0x65b0d9c6; 0x12b7e950;
    0x8bbeb8ea; 0xfcb9887c; 0x62dd1ddf; 0x15da2d49; 0x8cd37cf3; 0xfbd44c65;
    0x4db26158; 0x3ab551ce; 0xa3bc0074; 0xd4bb30e2; 0x4adfa541; 0x3dd895d7;
    0xa4d1c46d; 0xd3d6f4fb; 0x4369e96a; 0x346ed9fc; 0xad678846; 0xda60b8d0;
    0x44042d73; 0x33031de5; 0xaa0a4c5f; 0xdd0d7cc9; 0x5005713c; 0x270241aa;
    0xbe0b1010; 0xc90c2086; 0x5768b525; 0x206f85b3; 0xb966d409; 0xce61e49f;
    0x5edef90e; 0x29d9c998; 0xb0d09822; 0xc7d7a8b4; 0x59b33d17; 0x2eb40d81;
    0xb7bd5c3b; 0xc0ba6cad; 0xedb88320; 0x9abfb3b6; 0x03b6e20c; 0x74b1d29a;
    0xead54739; 0x9dd277af; 0x04db2615; 0x73dc1683; 0xe3630b12; 0x94643b84;
    0x0d6d6a3e; 0x7a6a5aa8; 0xe40ecf0b; 0x9309ff9d; 0x0a00ae27; 0x7d079eb1;
    0xf00f9344; 0x8708a3d2; 0x1e01f268; 0x6906c2fe; 0xf762575d; 0x806567cb;
    0x196c3671; 0x6e6b06e7; 0xfed41b76; 0x89d32be0; 0x10da7a5a; 0x67dd4acc;
    0xf9b9df6f; 0x8ebeeff9; 0x17b7be43; 0x60b08ed5; 0xd6d6a3e8; 0xa1d1937e;
    0x38d8c2c4; 0x4fdff252; 0xd1bb67f1; 0xa6bc5767; 0x3fb506dd; 0x48b2364b;
    0xd80d2bda; 0xaf0a1b4c; 0x36034af6; 0x41047a60; 0xdf60efc3; 0xa867df55;
    0x316e8eef; 0x4669be79; 0xcb61b38c; 0xbc66831a; 0x256fd2a0; 0x5268e236;
    0xcc0c7795; 0xbb0b4703; 0x220216b9; 0x5505262f; 0xc5ba3bbe; 0xb2bd0b28;
    0x2bb45a92; 0x5cb36a04; 0xc2d7ffa7; 0xb5d0cf31; 0x2cd99e8b; 0x5bdeae1d;
    0x9b64c2b0; 0xec63f226; 0x756aa39c; 0x026d930a; 0x9c0906a9; 0xeb0e363f;
    0x72076785; 0x05005713; 0x95bf4a82; 0xe2b87a14; 0x7bb12bae; 0x0cb61b38;
    0x92d28e9b; 0xe5d5be0d; 0x7cdcefb7; 0x0bdbdf21; 0x86d3d2d4; 0xf1d4e242;
    0x68ddb3f8; 0x1fda836e; 0x81be16cd; 0xf6b9265b; 0x6fb077e1; 0x18b74777;
    0x88085ae6; 0xff0f6a70; 0x66063bca; 0x11010b5c; 0x8f659eff; 0xf862ae69;
    0x616bffd3; 0x166ccf45; 0xa00ae278; 0xd70dd2ee; 0x4e048354; 0x3903b3c2;
    0xa7672661; 0xd06016f7; 0x4969474d; 0x3e6e77db; 0xaed16a4a; 0xd9d65adc;
    0x40df0b66; 0x37d83bf0; 0xa9bcae53; 0xdebb9ec5; 0x47b2cf7f; 0x30b5ffe9;
    0xbdbdf21c; 0xcabac28a; 0x53b39330; 0x24b4a3a6; 0xbad03605; 0xcdd70693;
    0x54de5729; 0x23d967bf; 0xb3667a2e; 0xc4614ab8; 0x5d681b02; 0x2a6f2b94;
    0xb40bbe37; 0xc30c8ea1; 0x5a05df1b; 0x2d02ef8d
  ].

(** The loop of [fdb_calc_crc32]; [crc ^ ~0U] on 32 bits. *)
Fixpoint crc_loop (crc : Z) (p : list Z) : Z :=
  match p with
  | [] => crc
  | b :: p =>
      crc_loop (Z.lxor (nthZ crc32_table (Z.land (Z.lxor crc b) 0xFF)) (Z.shiftr crc 8)) p
  end.

Definition fdb_calc_crc32 (crc : Z) (buf : list Z) (size : Z) : Z :=
  Z.lxor (crc_loop (Z.lxor crc 0xFFFFFFFF) (take (Z.to_nat size) buf)) 0xFFFFFFFF.

(** * Status tables *)

(** The table and the index of the changed byte. *)
Definition _fdb_set_status (status_table : list Z) (status_num status_index : Z) : list Z * Z :=
  let t := memset status_table 0 FDB_BYTE_ERASED (FDB_STATUS_TABLE_SIZE status_num) in
  if 0 <? status_index then
    let byte_index := (status_index - 1) / 8 in
    (<[Z.to_nat byte_index :=
         Z.land (nthZ t byte_index) (Z.shiftr 0x00ff (status_index mod 8))]> t, byte_index)
  else (t, SIZE_MAX).

(** The loop of [_fdb_get_status] on the remaining [status_num]; the result is [i]. *)
Fixpoint get_status_loop (status_table : list Z) (status_num : nat) (i : Z) : Z :=
  match status_num with
  | O => i
  | S n =>
      let s := Z.of_nat n in
      if Z.land (nthZ status_table (s / 8)) (Z.shiftr 0x80 (s mod 8)) =? 0 then i
      else get_status_loop status_table n (i + 1)
  end.

Definition _fdb_get_status (status_table : list Z) (status_num : Z) : Z :=
  let status_num := status_num - 1 in
  status_num - get_status_loop status_table (Z.to_nat status_num) 0.

(** * Flash access in FAL mode *)

Definition _fdb_flash_read (part : fal_partition) (c : nordev) (addr : Z) (buf : list Z) (size : Z)
    : fdb_err_t * list Z * nordev :=
  let '(r, buf, c) := fal_partition_read part c addr buf size in
  (if r <? 0 then FDB_READ_ERR else FDB_NO_ERR, buf, c).

Definition _fdb_flash_erase (part : fal_partition) (c : nordev) (addr size : Z)
    : fdb_err_t * nordev :=
  let '(r, c) := fal_partition_erase part c addr size in
  (if r <? 0 then FDB_ERASE_ERR else FDB_NO_ERR, c).

Definition _fdb_flash_write (part : fal_partition) (c : nordev) (addr : Z) (buf : list Z) (size : Z)
    : fdb_err_t * nordev :=
  let '(r, c) := fal_partition_write part c addr buf size in
  (if r <? 0 then FDB_WRITE_ERR else FDB_NO_ERR, c).

(** With a granularity of one bit the aligned part is the whole and the remainder is
    empty. *)
Definition _fdb_flash_write_align (part : fal_partition) (c : nordev) (addr : Z) (buf : list Z)
    (size : Z) : fdb_err_t * nordev :=
  let down := FDB_WG_ALIGN_DOWN size in
  let '(result, c) :=
    if 0 <? down then _fdb_flash_write part c addr buf down else (FDB_NO_ERR, c) in
  let align_remain := size - down in
  if decide (result = FDB_NO_ERR) then
    if negb (align_remain =? 0) then
      let align_data :=
        memcpy [FDB_BYTE_ERASED] 0 buf down align_remain in
      _fdb_flash_write part c (addr + down) align_data 1
    else (result, c)
  else (result, c).

Definition _fdb_write_status (part : fal_partition) (c : nordev) (addr : Z) (status_table : list Z)
    (status_num status_index : Z) : fdb_err_t * list Z * nordev :=
  let '(t, byte_index) := _fdb_set_status status_table status_num status_index in
  (* the first status table value is all 1, so no need to write flash *)
  if byte_index =? SIZE_MAX then (FDB_NO_ERR, t, c) else
  let '(r, c) :=
    _fdb_flash_write part c (addr + byte_index) (drop (Z.to_nat byte_index) t) 1 in
  (r, t, c).

Definition _fdb_read_status (part : fal_partition) (c : nordev) (addr : Z) (status_table : list Z)
    (total_num : Z) : Z * nordev :=
  let '(_, t, c) := _fdb_flash_read part c addr status_table (FDB_STATUS_TABLE_SIZE total_num) in
  (_fdb_get_status t total_num, c).

(** ** The end of the written space *)

(** The inner loop over the bytes of a chunk: [(last_data, addr)]. *)
Fixpoint ff_chunk (buf : list Z) (pos : Z) (last_data addr : Z) : Z * Z :=
  match buf with
  | [] => (last_data, addr)
  | b :: buf =>
      let addr := if negb (last_data =? FDB_BYTE_ERASED) && (b =? FDB_BYTE_ERASED) then pos else addr in
      ff_chunk buf (pos + 1) b addr
  end.

(** The outer loop in chunks of 32 bytes. *)
Fixpoint ff_loop (fuel : nat) (part : fal_partition) (c : nordev) (start end_ : Z) (buf : list Z)
    (last_data addr : Z) : Z * Z * nordev :=
  match fuel with
  | O => (last_data, addr, c)
  | S fuel =>
      if negb (start <? end_) then (last_data, addr, c) else
      let read_size := if start + 32 <? end_ then 32 else end_ - start in
      let '(_, buf, c) := _fdb_flash_read part c start buf read_size in
      let '(last_data, addr) := ff_chunk (take (Z.to_nat read_size) buf) start last_data addr in
      ff_loop fuel part c (start + 32) end_ buf last_data addr
  end.

(** [buf0] is the uninitialised buffer; each round advances by 32, so the distance is
    enough fuel. *)
Definition _fdb_continue_ff_addr (part : fal_partition) (c : nordev) (start end_ : Z) (buf0 : list Z)
    : Z * nordev :=
  let '(last_data, addr, c) :=
    ff_loop (S (Z.to_nat (end_ - start))) part c start end_ buf0 FDB_BYTE_WRITTEN start in
  (if last_data =? FDB_BYTE_ERASED then FDB_WG_ALIGN addr else end_, c).

(** [fdb_blob_read]: length, buffer contents. *)
Definition fdb_blob_read (part : fal_partition) (c : nordev) (buf : list Z)
    (size saved_addr saved_len : Z) : Z * list Z * nordev :=
  let read_len := if saved_len <? size then saved_len else size in
  let '(r, buf, c) := _fdb_flash_read part c saved_addr buf read_len in
  (if decide (r ≠ FDB_NO_ERR) then 0 else read_len, buf, c).

(** * The CRC is CRC-32 *)

(** One bit and one byte of the reflected CRC with polynomial 0xEDB88320. *)
Definition crc_bit (c : Z) : Z := Z.lxor (Z.shiftr c 1) (if Z.testbit c 0 then 0xEDB88320 else 0).
Definition crc_byte (c b : Z) : Z := Nat.iter 8 crc_bit (Z.lxor c b).

Definition crc32_spec (msg : list Z) : Z := Z.lxor (foldl crc_byte 0xFFFFFFFF msg) 0xFFFFFFFF.

Lemma crc_bit_lxor a b : crc_bit (Z.lxor a b) = Z.lxor (crc_bit a) (crc_bit b).
Proof.
  unfold crc_bit. rewrite Z.shiftr_lxor, Z.lxor_spec.
  set (x := Z.shiftr a 1). set (y := Z.shiftr b 1). set (p := 0xEDB88320).
  destruct (Z.testbit a 0), (Z.testbit b 0); simpl;
    rewrite ?Z.lxor_0_r; apply Z.bits_inj; intros n; rewrite ?Z.lxor_spec, ?Z.bits_0;
    by destruct (Z.testbit x n), (Z.testbit y n), (Z.testbit p n).
Qed.

Lemma iter_crc_lxor k a b :
  Nat.iter k crc_bit (Z.lxor a b) = Z.lxor (Nat.iter k crc_bit a) (Nat.iter k crc_bit b).
Proof. induction k as [|k IH]; [done |]. simpl. by rewrite IH, crc_bit_lxor. Qed.

Lemma iter_crc_shift k y : Nat.iter k crc_bit (Z.shiftl y (Z.of_nat k)) = y.
Proof.
  revert y. induction k as [|k IH]; intros y; [by rewrite Z.shiftl_0_r |].
  rewrite Nat.iter_succ_r. unfold crc_bit at 2.
  rewrite Z.shiftl_spec_low by lia. rewrite Z.lxor_0_r, Z.shiftr_shiftl_l by lia.
  replace (Z.of_nat (S k) - 1) with (Z.of_nat k) by lia. apply IH.
Qed.

Lemma split_low8 x : x = Z.lxor (Z.land x 255) (Z.shiftl (Z.shiftr x 8) 8).
Proof.
  apply Z.bits_inj'. intros n Hn. rewrite Z.lxor_spec, Z.land_spec.
  change 255 with (Z.ones 8). destruct (Z.lt_ge_cases n 8).
  - rewrite Z.ones_spec_low, Z.shiftl_spec_low by lia. by rewrite andb_true_r, xorb_false_r.
  - rewrite Z.ones_spec_high, Z.shiftl_spec, Z.shiftr_spec by lia.
    rewrite andb_false_r, xorb_false_l. f_equal. lia.
Qed.

(** The table holds the CRC of each byte. *)
Lemma crc32_table_spec i : is_u8 i → nthZ crc32_table i = Nat.iter 8 crc_bit i.
Proof.
  intros Hi.
  assert (Hall : forallb (λ i, nthZ crc32_table i =? Nat.iter 8 crc_bit i) (seqZ 0 256) = true)
    by by vm_compute.
  rewrite forallb_forall in Hall. specialize (Hall i). rewrite Z.eqb_eq in Hall.
  apply Hall, list_elem_of_In, elem_of_seqZ. unfold is_u8 in Hi. lia.
Qed.

Lemma land_255_u8 x : is_u8 (Z.land x 255).
Proof. change 255 with (Z.ones 8). rewrite Z.land_ones by lia. apply u8_range. Qed.

Lemma shiftr8_u8 b : is_u8 b → Z.shiftr b 8 = 0.
Proof. intros Hb. rewrite Z.shiftr_div_pow2 by lia. apply Z.div_small. by unfold is_u8 in Hb. Qed.

(** One round of the table-driven loop is one byte of the bitwise CRC. *)
Lemma crc_round c b :
  is_u8 b →
  Z.lxor (nthZ crc32_table (Z.land (Z.lxor c b) 0xFF)) (Z.shiftr c 8) = crc_byte c b.
Proof.
  intros Hb. unfold crc_byte. rewrite crc32_table_spec by apply land_255_u8.
  rewrite (split_low8 (Z.lxor c b)) at 2. rewrite iter_crc_lxor.
  rewrite (iter_crc_shift 8), Z.shiftr_lxor, (shiftr8_u8 b), Z.lxor_0_r by done. done.
Qed.

Lemma crc_loop_spec p c : Forall is_u8 p → crc_loop c p = foldl crc_byte c p.
Proof.
  intros Hp. revert c. induction Hp as [|b p Hb _ IH]; intros c; [done |].
  cbn [crc_loop foldl]. by rewrite crc_round, IH.
Qed.

Lemma fdb_crc_foldl crc buf :
  Forall is_u8 buf →
  fdb_calc_crc32 crc buf (blen buf)
    = Z.lxor (foldl crc_byte (Z.lxor crc 0xFFFFFFFF) buf) 0xFFFFFFFF.
Proof.
  intros Hb. unfold fdb_calc_crc32. rewrite take_ge by len. by rewrite crc_loop_spec.
Qed.

(** ** Error detection *)

Lemma lxor_u32 a b : is_u32 a → is_u32 b → is_u32 (Z.lxor a b).
Proof.
  unfold is_u32. intros Ha Hb. split; [apply Z.lxor_nonneg; lia |].
  destruct (decide (Z.lxor a b = 0)) as [-> | Hnz]; [lia |].
  apply Z.log2_lt_pow2 with (b := 32); [pose proof (proj2 (Z.lxor_nonneg a b)); lia |].
  eapply Z.le_lt_trans; [apply Z.log2_lxor; lia |].
  assert (Hlog : ∀ x, 0 ≤ x < 2 ^ 32 → Z.log2 x < 32).
  { intros x Hx. destruct (decide (x = 0)) as [-> | ?]; [by vm_compute |].
    apply Z.log2_lt_pow2; lia. }
  apply Z.max_lub_lt; apply Hlog; lia.
Qed.

Lemma crc_bit_range c : is_u32 c → is_u32 (crc_bit c) ∧ Z.testbit (crc_bit c) 31 = Z.testbit c 0.
Proof.
  unfold is_u32. intros Hc.
  assert (Hs : 0 ≤ Z.shiftr c 1 < 2 ^ 31).
  { rewrite Z.shiftr_div_pow2 by lia. change (2 ^ 1) with 2.
    split; [apply Z.div_pos; lia | apply Z.div_lt_upper_bound; lia]. }
  assert (H31 : Z.testbit (Z.shiftr c 1) 31 = false).
  { rewrite Z.testbit_false, Z.div_small by lia. done. }
  unfold crc_bit. rewrite Z.lxor_spec, H31. split.
  - apply lxor_u32; unfold is_u32; [lia |]. destruct (Z.testbit c 0); lia.
  - by destruct (Z.testbit c 0).
Qed.

Lemma crc_bit_inj a b : is_u32 a → is_u32 b → crc_bit a = crc_bit b → a = b.
Proof.
  intros Ha Hb E. assert (H0 : Z.testbit a 0 = Z.testbit b 0).
  { destruct (crc_bit_range a Ha) as [_ <-], (crc_bit_range b Hb) as [_ <-]. by rewrite E. }
  unfold crc_bit in E. rewrite H0 in E. set (q := if Z.testbit b 0 then _ else _) in E.
  assert (Hs : Z.shiftr a 1 = Z.shiftr b 1).
  { apply (f_equal (Z.lxor q)) in E. rewrite !(Z.lxor_comm q), !Z.lxor_assoc, Z.lxor_nilpotent in E.
    by rewrite !Z.lxor_0_r in E. }
  apply Z.bits_inj'. intros n Hn. destruct (decide (n = 0)) as [-> | Hne]; [done |].
  replace n with (n - 1 + 1) by lia. rewrite <-!Z.shiftr_spec by lia. by rewrite Hs.
Qed.

Lemma iter_crc_inj k a b :
  is_u32 a → is_u32 b → Nat.iter k crc_bit a = Nat.iter k crc_bit b → a = b.
Proof.
  revert a b. induction k as [|k IH]; intros a b Ha Hb E; [done |].
  rewrite !Nat.iter_succ_r in E. apply crc_bit_inj; [done..|].
  by apply IH; [apply crc_bit_range..|].
Qed.

Lemma iter_crc_range k a : is_u32 a → is_u32 (Nat.iter k crc_bit a).
Proof. intros Ha. induction k as [|k IH]; [done |]. simpl. by apply crc_bit_range. Qed.

Lemma lxor_cancel_r a b c : Z.lxor a c = Z.lxor b c → a = b.
Proof.
  intros E. apply (f_equal (λ z, Z.lxor z c)) in E.
  by rewrite !Z.lxor_assoc, Z.lxor_nilpotent, !Z.lxor_0_r in E.
Qed.

Lemma u8_u32 b : is_u8 b → is_u32 b.
Proof. unfold is_u8, is_u32. lia. Qed.

(** A step determines its state from the byte and the byte from the state. *)
Lemma crc_byte_inj c c' b b' :
  is_u32 c → is_u32 c' → is_u8 b → is_u8 b' →
  crc_byte c b = crc_byte c' b' → Z.lxor c b = Z.lxor c' b'.
Proof. intros. eapply iter_crc_inj; [| |done]; apply lxor_u32; auto using u8_u32. Qed.

Lemma foldl_crc_range msg c : is_u32 c → Forall is_u8 msg → is_u32 (foldl crc_byte c msg).
Proof.
  intros Hc Hm. revert c Hc. induction Hm as [|b msg Hb _ IH]; intros c Hc; [done |].
  simpl. apply IH, iter_crc_range, lxor_u32; auto using u8_u32.
Qed.

Lemma foldl_crc_inj msg c c' :
  is_u32 c → is_u32 c' → Forall is_u8 msg →
  foldl crc_byte c msg = foldl crc_byte c' msg → c = c'.
Proof.
  intros Hc Hc' Hm. revert c c' Hc Hc'. induction Hm as [|b msg Hb _ IH]; intros c c' Hc Hc'; [done |].
  simpl. intros E. apply IH in E; [|apply iter_crc_range, lxor_u32; auto using u8_u32..].
  apply crc_byte_inj in E; [|done..]. by eapply lxor_cancel_r.
Qed.

(** C23. The checksum is the standard CRC-32, computed incrementally, and it detects any
    corruption of one byte: the table-driven [fdb_calc_crc32] over several buffers in
    turn equals the bitwise CRC-32 of their concatenation, and two messages that
    differ in exactly one byte have different checksums. *)
Theorem fdb_crc32_correct (a b : list Z) (x y : Z)
    (Ha : Forall is_u8 a) (Hb : Forall is_u8 b) (Hx : is_u8 x) (Hy : is_u8 y) :
  fdb_calc_crc32 (fdb_calc_crc32 0 a (blen a)) b (blen b) = crc32_spec (a ++ b)
  ∧ (x ≠ y → crc32_spec (a ++ x :: b) ≠ crc32_spec (a ++ y :: b)).
Proof.
  split.
  - rewrite !fdb_crc_foldl by done. unfold crc32_spec.
    rewrite Z.lxor_assoc, Z.lxor_nilpotent, Z.lxor_0_r, Z.lxor_0_l, foldl_app. done.
  - intros Hne E. apply Hne. unfold crc32_spec in E. apply lxor_cancel_r in E.
    rewrite !foldl_app in E. simpl in E.
    set (c := foldl crc_byte 4294967295 a) in E.
    assert (Hc : is_u32 c) by (apply foldl_crc_range; [unfold is_u32; lia | done]).
    apply foldl_crc_inj in E; [|apply iter_crc_range, lxor_u32; auto using u8_u32..|done].
    apply crc_byte_inj in E; [|done..].
    rewrite !(Z.lxor_comm c) in E. by apply lxor_cancel_r in E.
Qed.

(** The check value of CRC-32, the checksum of "123456789". *)
Lemma fdb_crc32_correct_witness :
  fdb_calc_crc32 (fdb_calc_crc32 0 [49; 50; 51; 52] 4) [53; 54; 55; 56; 57] 5
    = crc32_spec [49; 50; 51; 52; 53; 54; 55; 56; 57]
  ∧ crc32_spec [49; 50; 51; 52; 53; 54; 55; 56; 57] = 0xCBF43926.
Proof.
  split; [|by vm_compute].
  apply (fdb_crc32_correct [49; 50; 51; 52] [53; 54; 55; 56; 57] 0 1);
    repeat constructor; unfold is_u8; lia.
Defined.

(** * Status tables in flash *)

(** The byte that encodes status [i] of at most eight. *)
Definition status_byte (i : Z) : Z := Z.shiftr 255 i.

(** With up to eight states only the first byte counts. *)
Lemma get_status_head t t' n i :
  (n < 8)%nat → nthZ t 0 = nthZ t' 0 → get_status_loop t n i = get_status_loop t' n i.
Proof.
  intros Hn Ht. revert i. induction n as [|n IH]; intros i; [done |]. cbn [get_status_loop].
  rewrite Z.div_small by lia. rewrite Ht. by rewrite IH by lia.
Qed.

Lemma get_status_byte t num i :
  0 ≤ i < num → num ≤ 8 → nthZ t 0 = status_byte i → _fdb_get_status t num = i.
Proof.
  intros Hi Hnum Ht. unfold _fdb_get_status.
  rewrite (get_status_head t [status_byte i]) by (rewrite ?Ht; (done || lia)).
  assert (Hall : forallb (λ num, forallb (λ i, num - 1 - get_status_loop [status_byte i] (Z.to_nat (num - 1)) 0 =? i)
                                  (seqZ 0 num)) (seqZ 1 8) = true) by by vm_compute.
  rewrite forallb_forall in Hall. specialize (Hall num). rewrite forallb_forall in Hall.
  apply Z.eqb_eq, Hall; apply list_elem_of_In, elem_of_seqZ; lia.
Qed.

Lemma table_size_1 num : 1 ≤ num ≤ 8 → FDB_STATUS_TABLE_SIZE num = 1.
Proof.
  intros Hnum. unfold FDB_STATUS_TABLE_SIZE, FDB_WRITE_GRAN. rewrite Z.mul_1_r.
  symmetry. apply (Z.div_unique_pos _ _ _ (num - 1)); lia.
Qed.

Lemma set_status_byte t num i :
  (0 < length t)%nat → 0 ≤ i < num → 1 ≤ num ≤ 8 →
  nthZ (_fdb_set_status t num i).1 0 = status_byte i
  ∧ length (_fdb_set_status t num i).1 = length t
  ∧ (_fdb_set_status t num i).2 = if 0 <? i then 0 else SIZE_MAX.
Proof.
  intros Ht Hi Hnum. unfold _fdb_set_status.
  rewrite table_size_1 by done.
  destruct t as [|x t]; [simpl in Ht; lia |]. unfold memset. simpl take. simpl drop. cbn [app].
  destruct (Z.ltb_spec 0 i) as [Hp|Hp].
  - replace ((i - 1) / 8) with 0 by (symmetry; apply Z.div_small; lia). simpl.
    rewrite Z.mod_small by lia. split_and!; try done. unfold nthZ, status_byte. cbn -[Z.land Z.shiftr].
    apply land_255. unfold is_u8. rewrite Z.shiftr_div_pow2 by lia.
    split; [apply Z.div_pos; lia |]. apply Z.div_lt_upper_bound; [lia |].
    assert (1 ≤ 2 ^ i) by (apply (Z.pow_le_mono_r 2 0 i); lia). lia.
  - assert (i = 0) as -> by lia. done.
Qed.

Lemma status_byte_land i j : 0 ≤ i < 8 → 0 ≤ j < 8 →
  Z.land (status_byte j) (status_byte i) = status_byte (Z.max i j).
Proof.
  intros Hi Hj.
  assert (Hall : forallb (λ i, forallb (λ j, Z.land (status_byte j) (status_byte i) =? status_byte (Z.max i j))
                                 (seqZ 0 8)) (seqZ 0 8) = true) by by vm_compute.
  rewrite forallb_forall in Hall. specialize (Hall i). rewrite forallb_forall in Hall.
  apply Z.eqb_eq, Hall; apply list_elem_of_In, elem_of_seqZ; lia.
Qed.

Lemma nthZ_take1 (m : list Z) (off : Z) buf :
  0 ≤ off → (0 < length buf)%nat → (Z.to_nat off < length m)%nat →
  nthZ (memcpy buf 0 m off 1) 0 = nthZ m off.
Proof.
  intros Ho Hb Hm. unfold nthZ. rewrite memcpy_lookup by (unfold blen; lia). simpl.
  replace (off + (Z.of_nat (Z.to_nat 0) - 0)) with off by lia. done.
Qed.

Lemma read_status_byte part c addr num t s :
  part_ready part c → 0 ≤ addr < pa_len part → 1 ≤ num ≤ 8 → 0 ≤ s < num → (0 < length t)%nat →
  dv_mem c !! Z.to_nat (pa_offset part + addr) = Some (status_byte s) →
  ∃ c', _fdb_read_status part c addr t num = (s, c') ∧ part_ready part c' ∧ dv_mem c' = dv_mem c.
Proof.
  intros Hok Haddr Hnum Hs Ht Hc. unfold _fdb_read_status, _fdb_flash_read.
  rewrite table_size_1 by done.
  destruct (ready_read part c addr t 1 Hok) as (c' & -> & Hok' & M); [lia | lia | lia |].
  exists c'. split_and!; [|done | done]. f_equal. apply get_status_byte; [done | lia |].
  destruct Hok as [[] _].
  rewrite nthZ_take1 by (done || lia || by eapply lookup_lt_Some). by apply nthZ_lookup.
Qed.

(** Status changes in flash only go forward: for a cell that encodes status [j] of a
    table with at most eight states, writing status [i] succeeds and reading the cell
    back gives the later of the two; every other byte of the chip is unchanged. *)
Theorem fdb_status_forward (part : fal_partition) (c : nordev) (addr num i j : Z) (t t' : list Z)
    (Hok : part_ready part c) (Haddr : 0 ≤ addr < pa_len part)
    (Hnum : 1 ≤ num ≤ 8) (Hi : 0 ≤ i < num) (Hj : 0 ≤ j < num)
    (Ht : (0 < length t)%nat) (Ht' : (0 < length t')%nat)
    (Hcell : dv_mem c !! Z.to_nat (pa_offset part + addr) = Some (status_byte j)) :
  let '(r, _, c') := _fdb_write_status part c addr t num i in
  r = FDB_NO_ERR ∧ part_ready part c' ∧ (_fdb_read_status part c' addr t' num).1 = Z.max i j
  ∧ dv_mem c' !! Z.to_nat (pa_offset part + addr) = Some (status_byte (Z.max i j))
  ∧ ∀ k, k ≠ Z.to_nat (pa_offset part + addr) → dv_mem c' !! k = dv_mem c !! k.
Proof.
  unfold _fdb_write_status.
  destruct (set_status_byte t num i Ht Hi Hnum) as (Hb & Hl & Hidx).
  destruct (_fdb_set_status t num i) as [tab bi]. simpl in Hb, Hl, Hidx. subst bi.
  destruct (Z.ltb_spec 0 i) as [Hp|Hp].
  - change (0 =? SIZE_MAX) with false. cbv iota. rewrite Z.add_0_r.
    change (Z.to_nat 0) with 0%nat. rewrite drop_0. unfold _fdb_flash_write.
    destruct (ready_write part c addr tab 1 Hok) as (c' & -> & Hok' & M); [lia | lia | lia | len |].
    change (Z.to_nat 1) with 1%nat in M. set (a := Z.to_nat (pa_offset part + addr)) in *.
    assert (take 1 tab = [status_byte i]) as Htab.
    { destruct tab as [|x tab]; [simpl in *; lia |]. unfold nthZ in Hb. simpl in Hb. by rewrite Hb. }
    rewrite Htab in M. cbn [nor_program] in M.
    assert (dv_mem c' !! a = Some (status_byte (Z.max i j))) as Hcell'.
    { rewrite M, list_lookup_alter_eq, Hcell. simpl. by rewrite status_byte_land by lia. }
    change (1 <? 0) with false. cbv iota. split_and!; try done.
    + destruct (read_status_byte part c' addr num t' (Z.max i j)) as (c'' & -> & _); (done || lia).
    + intros k Hk. by rewrite M, list_lookup_alter_ne.
  - assert (i = 0) as -> by lia. rewrite Z.eqb_refl. rewrite Z.max_r by lia.
    split_and!; try done. by destruct (read_status_byte part c addr num t' j) as (c'' & -> & _).
Qed.

(** A chip that holds [l] followed by erased bytes, 512 in all. *)
Definition dev_with (l : list Z) : nordev :=
  mk_dev demo_flash
    (mk_io (mk_nor (nor_spec (io_nor demo_io)) (l ++ replicate (512 - length l) 255)
              false 0 false None [1%nat] []) 0).

(** Writing KV_WRITE over KV_PRE_WRITE, of six states. *)
Lemma fdb_status_forward_witness :
  let c := dev_with [255; status_byte 1; 255] in
  let '(r, _, c') := _fdb_write_status (mk_part 0 256 true) c 1 [0] 6 2 in
  r = FDB_NO_ERR ∧ (_fdb_read_status (mk_part 0 256 true) c' 1 [0] 6).1 = 2.
Proof.
  intros c. pose proof (fdb_status_forward (mk_part 0 256 true) c 1 6 2 1 [0] [0]) as Hs.
  destruct (_fdb_write_status (mk_part 0 256 true) c 1 [0] 6 2) as [[r t] c'].
  destruct Hs as (Hr & _ & Hread & _); [| | | | | | | |by split].
  - split; [constructor; by vm_compute || (constructor; by vm_compute) |].
    by split; repeat constructor.
  - simpl. lia.
  - lia.
  - lia.
  - lia.
  - simpl. lia.
  - simpl. lia.
  - reflexivity.
Defined.

(** * The end of the written space *)

Lemma ff_chunk_app l1 l2 pos last addr :
  ff_chunk (l1 ++ l2) pos last addr
    = let '(last', addr') := ff_chunk l1 pos last addr in ff_chunk l2 (pos + blen l1) last' addr'.
Proof.
  revert pos last addr. induction l1 as [|b l1 IH]; intros pos last addr.
  { simpl. change (blen []) with 0. by rewrite Z.add_0_r. }
  cbn [app ff_chunk]. rewrite IH. destruct (ff_chunk l1 _ _ _).
  replace (blen (b :: l1)) with (1 + blen l1) by len. f_equal. lia.
Qed.

(** The bytes of the partition in [start, end). *)
Definition region (part : fal_partition) (c : nordev) (start end_ : Z) : list Z :=
  take (Z.to_nat (end_ - start)) (drop (Z.to_nat (pa_offset part + start)) (dv_mem c)).

Lemma region_blen part c start end_ :
  part_ok part c → 0 ≤ start ≤ end_ → end_ ≤ pa_len part → blen (region part c start end_) = end_ - start.
Proof. intros [] ? ?. unfold region. len. Qed.

Lemma region_split part c start mid end_ :
  part_ok part c → 0 ≤ start ≤ mid → mid ≤ end_ → end_ ≤ pa_len part →
  region part c start end_ = region part c start mid ++ region part c mid end_.
Proof.
  intros [] ? ? ?. unfold region.
  replace (Z.to_nat (end_ - start)) with (Z.to_nat (mid - start) + Z.to_nat (end_ - mid))%nat by lia.
  rewrite <-take_take_drop. f_equal. rewrite drop_drop. do 2 f_equal. lia.
Qed.

Lemma region_mem part c c' start end_ :
  dv_mem c' = dv_mem c → region part c' start end_ = region part c start end_.
Proof. intros E. unfold region. by rewrite E. Qed.

(** The loop in chunks is the loop over the region. *)
Lemma ff_loop_region fuel part c start end_ buf last addr :
  part_ready part c → 0 ≤ start → end_ ≤ pa_len part → blen buf = 32 → end_ - start < Z.of_nat fuel →
  ∃ c', ff_loop fuel part c start end_ buf last addr
      = (if start <? end_ then ff_chunk (region part c start end_) start last addr else (last, addr), c')
    ∧ part_ready part c' ∧ dv_mem c' = dv_mem c.
Proof.
  revert c start buf last addr.
  induction fuel as [|fuel IH]; intros c start buf last addr Hok Hs He Hb Hf; cbn [ff_loop].
  { destruct (Z.ltb_spec start end_); [lia | by exists c]. }
  destruct (Z.ltb_spec start end_) as [Hlt|Hge]; [|by exists c]. cbn [negb].
  set (n := if start + 32 <? end_ then 32 else end_ - start).
  assert (Hn : 0 < n ≤ 32 ∧ n = Z.min 32 (end_ - start))
    by (unfold n; destruct (Z.ltb_spec (start + 32) end_); lia).
  unfold _fdb_flash_read.
  destruct (ready_read part c start buf n Hok) as (c1 & -> & Hok1 & M1); [lia | lia | lia |].
  pose proof (po_off _ _ (proj1 Hok)). pose proof (po_in _ _ (proj1 Hok)).
  assert (Hm : memcpy buf 0 (dv_mem c) (pa_offset part + start) n
               = region part c start (start + n) ++ drop (Z.to_nat n) buf).
  { unfold memcpy, region. rewrite Z.add_0_l. change (Z.to_nat 0) with 0%nat. rewrite take_0.
    cbn [app]. by replace (start + n - start) with n by lia. }
  assert (Hr : length (region part c start (start + n)) = Z.to_nat n) by (unfold region; len).
  rewrite Hm, take_app_length' by done.
  rewrite (region_split part c start (start + n) end_) by (lia || apply Hok).
  rewrite ff_chunk_app. destruct (ff_chunk (region part c start (start + n)) _ _ _) as [l' a'].
  destruct (IH c1 (start + 32) (region part c start (start + n) ++ drop (Z.to_nat n) buf) l' a')
    as (c2 & -> & Hok2 & M2); [done | lia | done | len | lia |].
  exists c2. split_and!; [|done | congruence]. f_equal.
  rewrite (region_mem part c c1) by done. unfold blen. rewrite Hr, Z2Nat.id by lia.
  destruct (Z.ltb_spec (start + 32) end_) as [H32|H32].
  - by replace (start + n) with (start + 32) by lia.
  - replace (start + n) with end_ by lia. unfold region. rewrite Z.sub_diag. done.
Qed.

(** What the scan has found after the bytes [l] from [pos] on: a run of erased bytes up
    to here starts at [addr] and nowhere earlier. *)
Lemma ff_chunk_spec l pos :
  let '(last, addr) := ff_chunk l pos FDB_BYTE_WRITTEN pos in
  (last = 255 →
     pos ≤ addr < pos + blen l
     ∧ (∀ i : nat, addr ≤ pos + Z.of_nat i < pos + blen l → l !! i = Some 255)
     ∧ (addr = pos ∨ ∃ b, l !! Z.to_nat (addr - 1 - pos) = Some b ∧ b ≠ 255))
  ∧ (last ≠ 255 → l = [] ∨ ∃ b, l !! Z.to_nat (blen l - 1) = Some b ∧ b ≠ 255).
Proof.
  induction l as [|b l IH] using rev_ind; [by split; [|left] |].
  rewrite ff_chunk_app. destruct (ff_chunk l pos FDB_BYTE_WRITTEN pos) as [last addr].
  cbn [ff_chunk]. unfold FDB_BYTE_ERASED. destruct IH as [Hff Hnf].
  assert (Hlb : blen (l ++ [b]) = blen l + 1) by len. pose proof (blen_nonneg l).
  assert (Hlast : (l ++ [b]) !! Z.to_nat (blen l) = Some b).
  { unfold blen. rewrite Nat2Z.id. by rewrite lookup_app_r, Nat.sub_diag by lia. }
  split; intros Hb.
  - subst b. destruct (Z.eqb_spec last 255) as [El|El]; simpl.
    + destruct (Hff El) as (Ha & Hall & Hpre). split_and!; [lia | lia | |].
      * intros i Hi. destruct (decide (Z.of_nat i = blen l)) as [E|Hne].
        { rewrite <-Hlast. f_equal. lia. }
        rewrite lookup_app_l by len. apply Hall. lia.
      * destruct Hpre as [-> | (x & Hx & Hxn)]; [by left | right; exists x].
        split; [|done]. rewrite lookup_app_l; [done |]. by eapply lookup_lt_Some.
    + split_and!; [lia | lia | |].
      * intros i Hi. rewrite <-Hlast. f_equal. lia.
      * destruct (Hnf El) as [-> | (x & Hx & Hxn)]; [left; change (blen []) with 0; lia |].
        right. exists x. split; [|done]. rewrite lookup_app_l.
        -- rewrite <-Hx. f_equal. lia.
        -- apply lookup_lt_Some in Hx. replace (Z.to_nat (pos + blen l - 1 - pos)) with (Z.to_nat (blen l - 1)) by lia. done.
  - right. exists b. split; [|done]. rewrite Hlb. by rewrite Z.add_simpl_r.
Qed.

Lemma wg_align_id a : FDB_WG_ALIGN a = a.
Proof.
  unfold FDB_WG_ALIGN, FDB_ALIGN, FDB_WRITE_GRAN. change ((1 + 7) / 8) with 1.
  rewrite Z.mod_1_r. lia.
Qed.

(** [_fdb_continue_ff_addr] finds the erased tail: between [start] and [end] of the
    partition it returns the address from which all bytes up to [end] are 0xFF, and
    the byte before it, if there is one, is not. *)
Theorem fdb_continue_ff_addr_spec (part : fal_partition) (c : nordev) (start end_ : Z)
    (buf0 : list Z) (Hok : part_ready part c) (Hs : 0 ≤ start ≤ end_) (He : end_ ≤ pa_len part)
    (Hbuf : blen buf0 = 32) :
  let r := (_fdb_continue_ff_addr part c start end_ buf0).1 in
  let l := region part c start end_ in
  start ≤ r ≤ end_
  ∧ (∀ i : nat, r ≤ start + Z.of_nat i < end_ → l !! i = Some 255)
  ∧ (r = start ∨ ∃ b, l !! Z.to_nat (r - 1 - start) = Some b ∧ b ≠ 255).
Proof.
  intros r l. unfold r, _fdb_continue_ff_addr.
  destruct (ff_loop_region (S (Z.to_nat (end_ - start))) part c start end_ buf0 FDB_BYTE_WRITTEN start)
    as (c' & -> & _); [done | lia | done | done | lia |].
  pose proof (region_blen part c start end_ (proj1 Hok) Hs He) as Hl. fold l in Hl |- *.
  destruct (Z.ltb_spec start end_) as [Hlt|Hge].
  - pose proof (ff_chunk_spec l start) as Hspec.
    destruct (ff_chunk l start FDB_BYTE_WRITTEN start) as [last addr].
    destruct Hspec as [Hff Hnf]. unfold FDB_BYTE_ERASED. rewrite wg_align_id. cbn [fst].
    destruct (Z.eqb_spec last 255) as [E|E].
    + destruct (Hff E) as (Ha & Hall & Hpre). rewrite Hl in *. split_and!; [lia | lia | | done].
      intros i Hi. apply Hall. lia.
    + split_and!; [lia | lia | intros; lia |]. right.
      destruct (Hnf E) as [Hn | (x & Hx & Hxn)]; [rewrite Hn in Hl; change (blen []) with 0 in Hl; lia |].
      exists x. split; [|done]. rewrite <-Hx. f_equal. lia.
  - assert (end_ = start) as -> by lia. simpl. split_and!; [lia | lia | intros; lia | by left].
Qed.

Lemma fdb_continue_ff_addr_spec_witness :
  let c := dev_with [255; 3] in
  let part := mk_part 0 256 true in
  (_fdb_continue_ff_addr part c 0 42 (replicate 32 0)).1 = 2
  ∧ ∀ i : nat, 2 ≤ 0 + Z.of_nat i < 42 → region part c 0 42 !! i = Some 255.
Proof.
  intros c part.
  pose proof (fdb_continue_ff_addr_spec part c 0 42 (replicate 32 0)) as Hs. cbv zeta in Hs.
  assert (Hr : (_fdb_continue_ff_addr part c 0 42 (replicate 32 0)).1 = 2) by by vm_compute.
  rewrite Hr in Hs. split; [done |]. apply Hs.
  - split; [constructor; by vm_compute || (constructor; by vm_compute) |].
    by split; repeat constructor.
  - lia.
  - simpl. lia.
  - by vm_compute.
Defined.
