(* ===== verification/Kvdb.v ===== *)
(** FlashDB's key-value database (packages/FlashDB-v2.1.0/src/fdb_kvdb.c, inc/fdb_def.h) in the
    configuration of the board: FAL mode, write granularity of one bit, both caches.

    The database lives in a partition of the serial flash ([db_part], [db_dev]). The code
    threads a database object through all calls, so the functions are written in a state
    monad over [kvdb]; objects that the C functions fill in through pointers (a sector, a
    record) are passed in and returned. Locking is left out: the caller of the public
    functions holds the lock. Local buffers and objects are uninitialised in C: [junk], [kv0]
    and [sec0] stand for what they contain. *)

From S2P Require Import Prelude.
From S2P Require Import CText.
From S2P Require Import KvStore.
From S2P Require Import Nor.
From S2P Require Import Sfud.
From S2P Require Import Fal.
From S2P Require Import FdbUtils.

(** * Constants and data *)

Definition SECTOR_MAGIC_WORD : Z := 0x30424446.
Definition KV_MAGIC_WORD : Z := 0x3030564B.
Definition SECTOR_NOT_COMBINED : Z := 0xFFFFFFFF.
Definition SECTOR_COMBINED : Z := 0.
Definition FAILED_ADDR : Z := 0xFFFFFFFF.
Definition FDB_DATA_UNUSED : Z := 0xFFFFFFFF.

(** The layout of [struct sector_hdr_data] and [struct kv_hdr_data]. *)
Definition SECTOR_HDR_DATA_SIZE : Z := 16.
Definition SECTOR_DIRTY_OFFSET : Z := 1.
Definition KV_HDR_DATA_SIZE : Z := 24.
Definition KV_MAGIC_OFFSET : Z := 4.

Definition FDB_KV_NAME_MAX : Z := 64.
Definition FDB_SEC_REMAIN_THRESHOLD : Z := KV_HDR_DATA_SIZE + FDB_KV_NAME_MAX.
Definition FDB_GC_EMPTY_SEC_THRESHOLD : Z := 1.
Definition FDB_KV_CACHE_TABLE_SIZE : nat := 64.
Definition FDB_SECTOR_CACHE_TABLE_SIZE : nat := 8.

(** [enum fdb_kv_status], [fdb_sector_store_status], [fdb_sector_dirty_status]. *)
Definition FDB_KV_PRE_WRITE : Z := 1.
Definition FDB_KV_WRITE : Z := 2.
Definition FDB_KV_PRE_DELETE : Z := 3.
Definition FDB_KV_DELETED : Z := 4.
Definition FDB_KV_ERR_HDR : Z := 5.
Definition FDB_KV_STATUS_NUM : Z := 6.
Definition FDB_SECTOR_STORE_UNUSED : Z := 0.
Definition FDB_SECTOR_STORE_EMPTY : Z := 1.
Definition FDB_SECTOR_STORE_USING : Z := 2.
Definition FDB_SECTOR_STORE_FULL : Z := 3.
Definition FDB_SECTOR_STORE_STATUS_NUM : Z := 4.
Definition FDB_SECTOR_DIRTY_UNUSED : Z := 0.
Definition FDB_SECTOR_DIRTY_FALSE : Z := 1.
Definition FDB_SECTOR_DIRTY_TRUE : Z := 2.
Definition FDB_SECTOR_DIRTY_GC : Z := 3.
Definition FDB_SECTOR_DIRTY_STATUS_NUM : Z := 4.

Record fdb_kv : Type := mk_kv {
  kv_status : Z;
  kv_crc_is_ok : bool;
  kv_name_len : Z;
  kv_len : Z;
  kv_value_len : Z;
  kv_name : list Z;
  kv_start : Z;
  kv_value : Z
}.

Record kvdb_sec_info : Type := mk_sec {
  se_check_ok : bool;
  se_store : Z;
  se_dirty : Z;
  se_addr : Z;
  se_magic : Z;
  se_combined : Z;
  se_remain : Z;
  se_empty_kv : Z
}.

Record kv_cache_node : Type := mk_node { nd_name_crc : Z; nd_active : Z; nd_addr : Z }.

Record default_kv_node : Type := mk_default { dk_key : key; dk_value : list Z; dk_value_len : Z }.

(** [struct fdb_kvdb] with its parent [struct fdb_db]; the partition is the handle that
    [fal_partition_find] returned, the device the chip behind it. *)
Record kvdb : Type := mk_db {
  db_part : fal_partition;
  db_dev : nordev;
  db_init_ok : bool;
  db_sec_size : Z;
  db_max_size : Z;
  db_oldest_addr : Z;
  db_not_formatable : bool;
  db_gc_request : bool;
  db_in_recovery_check : bool;
  db_last_is_complete_del : bool;
  db_cur_kv : fdb_kv;
  db_cur_sector : kvdb_sec_info;
  db_kv_cache : list kv_cache_node;
  db_sec_cache : list kvdb_sec_info;
  db_default_kvs : list default_kv_node
}.

(** * The state monad *)

Definition M (A : Type) : Type := kvdb → A * kvdb.
Definition ret {A} (a : A) : M A := λ db, (a, db).
Definition bind {A B} (m : M A) (k : A → M B) : M B := λ db, let '(a, db) := m db in k a db.
Definition gets {A} (f : kvdb → A) : M A := λ db, (f db, db).
Definition modify (f : kvdb → kvdb) : M unit := λ db, (tt, f db).
Definition when (b : bool) (m : M unit) : M unit := if b then m else ret tt.

Declare Scope kv_scope.
Delimit Scope kv_scope with kv.
Notation "x <- m ;; k" := (bind m (λ x, k)) (at level 100, m at next level, right associativity) : kv_scope.
Notation "' p <- m ;; k" := (bind m (λ x, match x with p => k end))
  (at level 100, p pattern, m at next level, right associativity) : kv_scope.
Notation "m ;;; k" := (bind m (λ _, k)) (at level 100, right associativity) : kv_scope.
Open Scope kv_scope.

Definition set_dev (d : nordev) (db : kvdb) : kvdb :=
  mk_db (db_part db) d (db_init_ok db) (db_sec_size db) (db_max_size db) (db_oldest_addr db)
    (db_not_formatable db) (db_gc_request db) (db_in_recovery_check db) (db_last_is_complete_del db)
    (db_cur_kv db) (db_cur_sector db) (db_kv_cache db) (db_sec_cache db) (db_default_kvs db).
Definition set_db_init (b : bool) (db : kvdb) : kvdb :=
  mk_db (db_part db) (db_dev db) b (db_sec_size db) (db_max_size db) (db_oldest_addr db)
    (db_not_formatable db) (db_gc_request db) (db_in_recovery_check db) (db_last_is_complete_del db)
    (db_cur_kv db) (db_cur_sector db) (db_kv_cache db) (db_sec_cache db) (db_default_kvs db).
Definition set_storage (p : fal_partition) (sec_size max_size : Z) (db : kvdb) : kvdb :=
  mk_db p (db_dev db) (db_init_ok db) sec_size max_size (db_oldest_addr db) (db_not_formatable db)
    (db_gc_request db) (db_in_recovery_check db) (db_last_is_complete_del db) (db_cur_kv db)
    (db_cur_sector db) (db_kv_cache db) (db_sec_cache db) (db_default_kvs db).
Definition set_oldest (a : Z) (db : kvdb) : kvdb :=
  mk_db (db_part db) (db_dev db) (db_init_ok db) (db_sec_size db) (db_max_size db) a
    (db_not_formatable db) (db_gc_request db) (db_in_recovery_check db) (db_last_is_complete_del db)
    (db_cur_kv db) (db_cur_sector db) (db_kv_cache db) (db_sec_cache db) (db_default_kvs db).
Definition set_not_formatable (b : bool) (db : kvdb) : kvdb :=
  mk_db (db_part db) (db_dev db) (db_init_ok db) (db_sec_size db) (db_max_size db) (db_oldest_addr db) b
    (db_gc_request db) (db_in_recovery_check db) (db_last_is_complete_del db) (db_cur_kv db)
    (db_cur_sector db) (db_kv_cache db) (db_sec_cache db) (db_default_kvs db).
Definition set_gc_request (b : bool) (db : kvdb) : kvdb :=
  mk_db (db_part db) (db_dev db) (db_init_ok db) (db_sec_size db) (db_max_size db) (db_oldest_addr db)
    (db_not_formatable db) b (db_in_recovery_check db) (db_last_is_complete_del db) (db_cur_kv db)
    (db_cur_sector db) (db_kv_cache db) (db_sec_cache db) (db_default_kvs db).
Definition set_recovery (b : bool) (db : kvdb) : kvdb :=
  mk_db (db_part db) (db_dev db) (db_init_ok db) (db_sec_size db) (db_max_size db) (db_oldest_addr db)
    (db_not_formatable db) (db_gc_request db) b (db_last_is_complete_del db) (db_cur_kv db)
    (db_cur_sector db) (db_kv_cache db) (db_sec_cache db) (db_default_kvs db).
Definition set_last_del (b : bool) (db : kvdb) : kvdb :=
  mk_db (db_part db) (db_dev db) (db_init_ok db) (db_sec_size db) (db_max_size db) (db_oldest_addr db)
    (db_not_formatable db) (db_gc_request db) (db_in_recovery_check db) b (db_cur_kv db)
    (db_cur_sector db) (db_kv_cache db) (db_sec_cache db) (db_default_kvs db).
Definition set_cur_kv (k : fdb_kv) (db : kvdb) : kvdb :=
  mk_db (db_part db) (db_dev db) (db_init_ok db) (db_sec_size db) (db_max_size db) (db_oldest_addr db)
    (db_not_formatable db) (db_gc_request db) (db_in_recovery_check db) (db_last_is_complete_del db) k
    (db_cur_sector db) (db_kv_cache db) (db_sec_cache db) (db_default_kvs db).
Definition set_cur_sector (s : kvdb_sec_info) (db : kvdb) : kvdb :=
  mk_db (db_part db) (db_dev db) (db_init_ok db) (db_sec_size db) (db_max_size db) (db_oldest_addr db)
    (db_not_formatable db) (db_gc_request db) (db_in_recovery_check db) (db_last_is_complete_del db)
    (db_cur_kv db) s (db_kv_cache db) (db_sec_cache db) (db_default_kvs db).
Definition set_kv_cache (l : list kv_cache_node) (db : kvdb) : kvdb :=
  mk_db (db_part db) (db_dev db) (db_init_ok db) (db_sec_size db) (db_max_size db) (db_oldest_addr db)
    (db_not_formatable db) (db_gc_request db) (db_in_recovery_check db) (db_last_is_complete_del db)
    (db_cur_kv db) (db_cur_sector db) l (db_sec_cache db) (db_default_kvs db).
Definition set_sec_cache (l : list kvdb_sec_info) (db : kvdb) : kvdb :=
  mk_db (db_part db) (db_dev db) (db_init_ok db) (db_sec_size db) (db_max_size db) (db_oldest_addr db)
    (db_not_formatable db) (db_gc_request db) (db_in_recovery_check db) (db_last_is_complete_del db)
    (db_cur_kv db) (db_cur_sector db) (db_kv_cache db) l (db_default_kvs db).
Definition set_defaults (l : list default_kv_node) (db : kvdb) : kvdb :=
  mk_db (db_part db) (db_dev db) (db_init_ok db) (db_sec_size db) (db_max_size db) (db_oldest_addr db)
    (db_not_formatable db) (db_gc_request db) (db_in_recovery_check db) (db_last_is_complete_del db)
    (db_cur_kv db) (db_cur_sector db) (db_kv_cache db) (db_sec_cache db) l.

Definition set_start (a : Z) (kv : fdb_kv) : fdb_kv :=
  mk_kv (kv_status kv) (kv_crc_is_ok kv) (kv_name_len kv) (kv_len kv) (kv_value_len kv) (kv_name kv) a (kv_value kv).

(** * Flash access (fdb_utils.c)

    Addresses are [uint32_t]. *)

Definition flash_read (addr : Z) (buf : list Z) (size : Z) : M (fdb_err_t * list Z) := λ db,
  let '(r, buf, d) := _fdb_flash_read (db_part db) (db_dev db) (u32 addr) buf size in ((r, buf), set_dev d db).
Definition flash_write (addr : Z) (buf : list Z) (size : Z) : M fdb_err_t := λ db,
  let '(r, d) := _fdb_flash_write (db_part db) (db_dev db) (u32 addr) buf size in (r, set_dev d db).
Definition flash_write_align (addr : Z) (buf : list Z) (size : Z) : M fdb_err_t := λ db,
  let '(r, d) := _fdb_flash_write_align (db_part db) (db_dev db) (u32 addr) buf size in (r, set_dev d db).
Definition flash_erase (addr size : Z) : M fdb_err_t := λ db,
  let '(r, d) := _fdb_flash_erase (db_part db) (db_dev db) (u32 addr) size in (r, set_dev d db).
Definition write_status (addr : Z) (table : list Z) (status_num status : Z) : M fdb_err_t := λ db,
  let '(r, _, d) := _fdb_write_status (db_part db) (db_dev db) (u32 addr) table status_num status in (r, set_dev d db).
Definition read_status (addr : Z) (table : list Z) (status_num : Z) : M Z := λ db,
  let '(r, d) := _fdb_read_status (db_part db) (db_dev db) (u32 addr) table status_num in (r, set_dev d db).
Definition continue_ff_addr (start end_ : Z) (buf : list Z) : M Z := λ db,
  let '(r, d) := _fdb_continue_ff_addr (db_part db) (db_dev db) start end_ buf in (r, set_dev d db).

Section kvdb.
Context (junk : list Z) (kv0 : fdb_kv) (sec0 : kvdb_sec_info).

(** An uninitialised local buffer of [n] bytes. *)
Definition stack (n : nat) : list Z := take n (junk ++ replicate n 0).
Definition no_err (r : fdb_err_t) : bool := bool_decide (r = FDB_NO_ERR).

(** * Caches *)

Definition get_sector_from_cache (sec_addr : Z) : M (option kvdb_sec_info) :=
  gets (λ db, snd <$> list_find (λ s, se_addr s = sec_addr) (db_sec_cache db)).

(** The index of a sector in the cache and of the last unused entry before it. *)
Fixpoint find_sector_slot (l : list kvdb_sec_info) (addr : Z) (i : nat) (empty : option nat)
    : option nat * option nat :=
  match l with
  | [] => (None, empty)
  | s :: l =>
      if se_addr s =? addr then (Some i, empty)
      else find_sector_slot l addr (S i) (if se_addr s =? FDB_DATA_UNUSED then Some i else empty)
  end.

Definition invalid_sector (s : kvdb_sec_info) : kvdb_sec_info :=
  mk_sec (se_check_ok s) (se_store s) (se_dirty s) FDB_DATA_UNUSED (se_magic s) (se_combined s) (se_remain s)
    (se_empty_kv s).

Definition update_sector_cache (sector : kvdb_sec_info) : M unit :=
  modify (λ db,
    let l := db_sec_cache db in
    set_sec_cache
      (match find_sector_slot l (se_addr sector) 0 None with
       | (Some i, _) => if se_check_ok sector then <[i := sector]> l else alter invalid_sector i l
       | (None, Some i) => if se_check_ok sector then <[i := sector]> l else l
       | (None, None) => l
       end) db).

(** A change of the cached copy of a sector, if there is one. *)
Definition modify_sector_cache (sec_addr : Z) (f : kvdb → kvdb_sec_info → kvdb_sec_info) : M unit :=
  modify (λ db,
    match list_find (λ s, se_addr s = sec_addr) (db_sec_cache db) with
    | Some (i, _) => set_sec_cache (alter (f db) i (db_sec_cache db)) db
    | None => db
    end).

Definition update_sector_empty_addr_cache (sec_addr empty_addr : Z) : M unit :=
  modify_sector_cache sec_addr (λ db s,
    mk_sec (se_check_ok s) (se_store s) (se_dirty s) (se_addr s) (se_magic s) (se_combined s)
      (u32 (db_sec_size db - (empty_addr - se_addr s))) empty_addr).

Definition update_sector_status_store_cache (sec_addr status : Z) : M unit :=
  modify_sector_cache sec_addr (λ _ s,
    mk_sec (se_check_ok s) status (se_dirty s) (se_addr s) (se_magic s) (se_combined s) (se_remain s) (se_empty_kv s)).

Definition name_crc16 (name : list Z) (name_len : Z) : Z := Z.shiftr (fdb_calc_crc32 0 name name_len) 16.

(** The loop of [update_kv_cache] for a new address: the table with the activities reduced,
    and the slot to use ([inl] the entry of the name, at which the loop stops). *)
Fixpoint cache_slot (l : list kv_cache_node) (crc : Z) (i : nat) (empty : option nat) (min_index : option nat)
    (min_activity : Z) : list kv_cache_node * (nat + option nat) :=
  match l with
  | [] => ([], inr (match empty with Some e => Some e | None => min_index end))
  | e :: l =>
      if nd_name_crc e =? crc then (e :: l, inl i) else
      let is_empty := (nd_addr e =? FDB_DATA_UNUSED) in
      if is_empty && bool_decide (empty = None) then
        let '(l, r) := cache_slot l crc (S i) (Some i) min_index min_activity in (e :: l, r)
      else if negb is_empty then
        let e := mk_node (nd_name_crc e) (if 0 <? nd_active e then nd_active e - 1 else nd_active e) (nd_addr e) in
        let '(mi, ma) := if nd_active e <? min_activity then (Some i, nd_active e) else (min_index, min_activity) in
        let '(l, r) := cache_slot l crc (S i) empty mi ma in (e :: l, r)
      else let '(l, r) := cache_slot l crc (S i) empty min_index min_activity in (e :: l, r)
  end.

Definition update_kv_cache (name : list Z) (name_len addr : Z) : M unit :=
  modify (λ db,
    let l := db_kv_cache db in
    let crc := name_crc16 name name_len in
    set_kv_cache
      (if negb (addr =? FDB_DATA_UNUSED) then
         match cache_slot l crc 0 None None 0xFFFF with
         | (l, inl i) => alter (λ e, mk_node (nd_name_crc e) (nd_active e) addr) i l
         | (l, inr (Some i)) => <[i := mk_node crc (Z.of_nat FDB_KV_CACHE_TABLE_SIZE) addr]> l
         | (l, inr None) => l
         end
       else
         match list_find (λ e, nd_name_crc e = crc) l with
         | Some (i, e) => <[i := mk_node (nd_name_crc e) 0 FDB_DATA_UNUSED]> l
         | None => l
         end) db).

(** [strncmp(name, saved_name, name_len)] is 0. *)
Definition strncmp_eq (a b : list Z) (n : Z) : bool :=
  bool_decide (cstr (take (Z.to_nat n) a) = cstr (take (Z.to_nat n) b)).

(** The entries from index [i] on. *)
Fixpoint cache_lookup (l : list kv_cache_node) (name : list Z) (name_len crc : Z) (i : nat) : M (option Z) :=
  match l with
  | [] => ret None
  | e :: l =>
      if negb (nd_addr e =? FDB_DATA_UNUSED) && (nd_name_crc e =? crc) then
        '(_, saved_name) <- flash_read (nd_addr e + KV_HDR_DATA_SIZE) (replicate 64 0) FDB_KV_NAME_MAX;;
        if strncmp_eq name saved_name name_len then
          modify (λ db, set_kv_cache
            (alter (λ e, mk_node (nd_name_crc e)
                           (if 0xFFFF - Z.of_nat FDB_KV_CACHE_TABLE_SIZE <=? nd_active e then 0xFFFF
                            else nd_active e + Z.of_nat FDB_KV_CACHE_TABLE_SIZE) (nd_addr e)) i (db_kv_cache db)) db);;;
          ret (Some (nd_addr e))
        else cache_lookup l name name_len crc (S i)
      else cache_lookup l name name_len crc (S i)
  end.

Definition get_kv_from_cache (name : list Z) (name_len : Z) : M (option Z) :=
  l <- gets db_kv_cache;; cache_lookup l name name_len (name_crc16 name name_len) 0.

(** * Reading *)

(** The inner loop of [find_next_kv_addr]: [n] positions from index [i] of the buffer. *)
Fixpoint find_magic (n : nat) (buf : list Z) (i start start_bak end_ : Z) : option Z :=
  match n with
  | O => None
  | S n =>
      if negb (u32 (start + i) <? end_) then None else
      if (load_u32 buf i =? KV_MAGIC_WORD) && (start_bak <=? u32 (start + i - KV_MAGIC_OFFSET))
      then Some (u32 (start + i - KV_MAGIC_OFFSET))
      else find_magic n buf (i + 1) start start_bak end_
  end.

(** The outer loop; each round advances by 28 bytes. *)
Fixpoint find_next_loop (fuel : nat) (buf : list Z) (start start_bak end_ : Z) : M Z :=
  match fuel with
  | O => ret FAILED_ADDR
  | S fuel =>
      if negb ((start <? end_) && (u32 (start + 32) <? end_)) then ret FAILED_ADDR else
      '(r, buf) <- flash_read start buf 32;;
      if negb (no_err r) then ret FAILED_ADDR else
      match find_magic 28 buf 0 start start_bak end_ with
      | Some a => ret a
      | None => find_next_loop fuel buf (u32 (start + 28)) start_bak end_
      end
  end.

Definition find_next_kv_addr (start end_ : Z) : M Z :=
  sec_size <- gets db_sec_size;;
  sector <- get_sector_from_cache (FDB_ALIGN_DOWN start sec_size);;
  if match sector with Some s => start =? se_empty_kv s | None => false end then ret FAILED_ADDR
  else find_next_loop (S (Z.to_nat end_)) (stack 32) start start end_.

Definition get_next_kv_addr (sector : kvdb_sec_info) (pre_kv : fdb_kv) : M Z :=
  sec_size <- gets db_sec_size;;
  if se_store sector =? FDB_SECTOR_STORE_EMPTY then ret FAILED_ADDR else
  if kv_start pre_kv =? FAILED_ADDR then ret (u32 (se_addr sector + SECTOR_HDR_DATA_SIZE)) else
  if kv_start pre_kv <=? u32 (se_addr sector + sec_size) then
    let addr :=
      if kv_crc_is_ok pre_kv then u32 (kv_start pre_kv + kv_len pre_kv)
      else u32 (kv_start pre_kv + FDB_WG_ALIGN 1) in
    addr <- find_next_kv_addr addr (u32 (se_addr sector + sec_size - SECTOR_HDR_DATA_SIZE));;
    if (addr =? FAILED_ADDR) || (u32 (se_addr sector + sec_size) <? addr) || (kv_len pre_kv =? 0)
    then ret FAILED_ADDR
    else ret addr
  else ret FAILED_ADDR.

(** The checksum loop of [read_kv], in chunks of at most 32 bytes. *)
Fixpoint crc_data_loop (fuel : nat) (buf : list Z) (addr len crc_data_len crc : Z) : M Z :=
  match fuel with
  | O => ret crc
  | S fuel =>
      if negb (len <? crc_data_len) then ret crc else
      let size := if len + 32 <? crc_data_len then 32 else crc_data_len - len in
      '(_, buf) <- flash_read (addr + KV_HDR_DATA_SIZE + len) buf (FDB_WG_ALIGN size);;
      crc_data_loop fuel buf addr (len + size) crc_data_len (fdb_calc_crc32 crc buf size)
  end.

(** The record at [kv_start kv]; fields that are not read keep their old contents. *)
Definition read_kv (kv : fdb_kv) : M (fdb_err_t * fdb_kv) :=
  max_size <- gets db_max_size;;
  let start := kv_start kv in
  '(_, hdr) <- flash_read start (stack 24) KV_HDR_DATA_SIZE;;
  let status := _fdb_get_status hdr FDB_KV_STATUS_NUM in
  let len := load_u32 hdr 8 in
  if (len =? 4294967295) || (max_size <? len) || (len <? KV_HDR_DATA_SIZE) then
    when (negb (status =? FDB_KV_ERR_HDR))
      (write_status start hdr FDB_KV_STATUS_NUM FDB_KV_ERR_HDR;;; ret tt);;;
    ret (FDB_READ_ERR,
         mk_kv FDB_KV_ERR_HDR false (kv_name_len kv) KV_HDR_DATA_SIZE (kv_value_len kv) (kv_name kv)
           start (kv_value kv))
  else
    let hdr_crc32 := load_u32 hdr 12 in
    let hdr_name_len := nthZ hdr 16 in
    let hdr_value_len := load_u32 hdr 20 in
    let crc := fdb_calc_crc32 0 (drop 16 hdr) 4 in
    let crc := fdb_calc_crc32 crc (drop 20 hdr) 4 in
    let crc_data_len := len - KV_HDR_DATA_SIZE in
    crc <- crc_data_loop (Z.to_nat crc_data_len) (stack 32) start 0 crc_data_len crc;;
    let kv_name_addr := u32 (start + KV_HDR_DATA_SIZE) in
    if negb (crc =? hdr_crc32) then
      let name_len := if FDB_KV_NAME_MAX <? hdr_name_len then FDB_KV_NAME_MAX else hdr_name_len in
      '(_, name) <- flash_read kv_name_addr (kv_name kv) (FDB_WG_ALIGN name_len);;
      ret (FDB_READ_ERR, mk_kv status false (kv_name_len kv) len (kv_value_len kv) name start (kv_value kv))
    else
      '(_, name) <- flash_read kv_name_addr (kv_name kv) (FDB_WG_ALIGN hdr_name_len);;
      let end_ := if FDB_KV_NAME_MAX <=? hdr_name_len then FDB_KV_NAME_MAX - 1 else hdr_name_len in
      ret (FDB_NO_ERR,
           mk_kv status true hdr_name_len len hdr_value_len (<[Z.to_nat end_ := 0]> name) start
             (u32 (kv_name_addr + FDB_WG_ALIGN hdr_name_len))).

(** The loop [do { read_kv; ... } while (next address)] over the records of a sector from
    [kv_start kv] on. The body returns whether to leave the loop. The addresses increase,
    so the sector size is enough fuel. *)
Fixpoint scan_kv {A} (fuel : nat) (sector : kvdb_sec_info) (body : fdb_err_t → fdb_kv → A → M (bool * A))
    (kv : fdb_kv) (acc : A) : M (bool * fdb_kv * A) :=
  match fuel with
  | O => ret (false, kv, acc)
  | S fuel =>
      '(r, kv) <- read_kv kv;;
      '(stop, acc) <- body r kv acc;;
      if (stop : bool) then ret (true, kv, acc) else
      addr <- get_next_kv_addr sector kv;;
      let kv := set_start addr kv in
      if addr =? FAILED_ADDR then ret (false, kv, acc) else scan_kv fuel sector body kv acc
  end.

Definition scan_sector {A} (sector : kvdb_sec_info) (body : fdb_err_t → fdb_kv → A → M (bool * A))
    (kv : fdb_kv) (acc : A) : M (bool * fdb_kv * A) :=
  sec_size <- gets db_sec_size;;
  scan_kv (S (Z.to_nat sec_size)) sector body (set_start (u32 (se_addr sector + SECTOR_HDR_DATA_SIZE)) kv) acc.

(** The traversal of a sector in use: [(result, remain, empty_kv)]. *)
Definition traverse_cb (_ : fdb_err_t) (kv : fdb_kv) (acc : fdb_err_t * Z * Z) : M (bool * (fdb_err_t * Z * Z)) :=
  let '(result, remain, empty_kv) := acc in
  if negb (kv_crc_is_ok kv) && negb (kv_status kv =? FDB_KV_PRE_WRITE) && negb (kv_status kv =? FDB_KV_ERR_HDR)
  then ret (true, (FDB_READ_ERR, 0, empty_kv))
  else ret (false, (result, u32 (remain - kv_len kv), u32 (empty_kv + kv_len kv))).

(** [sector] is the object the caller passes by reference; [remain] and [empty_kv] keep
    their contents where they are not computed. *)
Definition read_sector_info (addr : Z) (sector : kvdb_sec_info) (traversal : bool) : M (fdb_err_t * kvdb_sec_info) :=
  sec_size <- gets db_sec_size;;
  sector_cache <- get_sector_from_cache addr;;
  let hit :=
    match sector_cache with
    | Some s => if negb traversal || negb (se_empty_kv s =? FAILED_ADDR) then Some s else None
    | None => None
    end in
  match hit with
  | Some s => ret (FDB_NO_ERR, s)
  | None =>
      '(_, hdr) <- flash_read addr (replicate 16 0) SECTOR_HDR_DATA_SIZE;;
      let magic := load_u32 hdr 4 in
      let combined := load_u32 hdr 8 in
      if negb (magic =? SECTOR_MAGIC_WORD)
         || negb (combined =? SECTOR_NOT_COMBINED) && negb (combined =? SECTOR_COMBINED)
      then
        ret (FDB_INIT_FAILED,
             mk_sec false FDB_SECTOR_STORE_UNUSED FDB_SECTOR_DIRTY_UNUSED addr magic SECTOR_NOT_COMBINED
               (se_remain sector) (se_empty_kv sector))
      else
        let store := _fdb_get_status hdr FDB_SECTOR_STORE_STATUS_NUM in
        let dirty := _fdb_get_status (drop 1 hdr) FDB_SECTOR_DIRTY_STATUS_NUM in
        let info := mk_sec true store dirty addr magic combined in
        if traversal then
          '(result, sector) <-
            (if store =? FDB_SECTOR_STORE_EMPTY then
               ret (FDB_NO_ERR, info (u32 (sec_size - SECTOR_HDR_DATA_SIZE)) (u32 (addr + SECTOR_HDR_DATA_SIZE)))
             else if store =? FDB_SECTOR_STORE_USING then
               let empty_kv := u32 (addr + SECTOR_HDR_DATA_SIZE) in
               let remain := u32 (sec_size - SECTOR_HDR_DATA_SIZE) in
               '(_, _, acc) <- scan_sector (info remain empty_kv) traverse_cb kv0 (FDB_NO_ERR, remain, empty_kv);;
               let '(result, remain, empty_kv) := acc in
               ff_addr <- continue_ff_addr empty_kv (u32 (addr + sec_size)) (stack 32);;
               ret (result,
                    if negb (empty_kv =? ff_addr) then info (u32 (sec_size - (ff_addr - addr))) ff_addr
                    else info remain empty_kv)
             else ret (FDB_NO_ERR, info 0 (u32 (addr + SECTOR_HDR_DATA_SIZE))));;
          update_sector_cache sector;;;
          ret (result, sector)
        else
          sec_cache <- get_sector_from_cache addr;;
          match sec_cache with
          | Some _ => ret (FDB_NO_ERR, info (se_remain sector) (se_empty_kv sector))
          | None =>
              let sector := info 0 FAILED_ADDR in
              update_sector_cache sector;;;
              ret (FDB_NO_ERR, sector)
          end
  end.

Definition get_next_sector_addr (pre_sec : kvdb_sec_info) (traversed_len : Z) : M Z :=
  sec_size <- gets db_sec_size;;
  max_size <- gets db_max_size;;
  let cur_block_size :=
    if se_combined pre_sec =? SECTOR_NOT_COMBINED then sec_size else u32 (se_combined pre_sec * sec_size) in
  if u32 (traversed_len + cur_block_size) <=? max_size then
    if u32 (se_addr pre_sec + cur_block_size) <? max_size then ret (u32 (se_addr pre_sec + cur_block_size))
    else ret 0
  else ret FAILED_ADDR.

(** The loop over the sectors. The traversed length grows by a sector in each round, so the
    number of sectors is enough fuel. *)
Fixpoint sector_loop {A} (fuel : nat) (body : Z → kvdb_sec_info → A → M (bool * kvdb_sec_info * A))
    (sec_addr traversed_len : Z) (sector : kvdb_sec_info) (acc : A) : M (kvdb_sec_info * A) :=
  match fuel with
  | O => ret (sector, acc)
  | S fuel =>
      sec_size <- gets db_sec_size;;
      let traversed_len := u32 (traversed_len + sec_size) in
      '(stop, sector, acc) <- body sec_addr sector acc;;
      if (stop : bool) then ret (sector, acc) else
      sec_addr <- get_next_sector_addr sector traversed_len;;
      if sec_addr =? FAILED_ADDR then ret (sector, acc) else sector_loop fuel body sec_addr traversed_len sector acc
  end.

Definition all_sectors {A} (body : Z → kvdb_sec_info → A → M (bool * kvdb_sec_info * A))
    (sector : kvdb_sec_info) (acc : A) : M (kvdb_sec_info * A) :=
  sec_size <- gets db_sec_size;;
  max_size <- gets db_max_size;;
  oldest <- gets db_oldest_addr;;
  sector_loop (S (Z.to_nat (max_size / sec_size))) body oldest 0 sector acc.

Definition has_kv (sector : kvdb_sec_info) : bool :=
  (se_store sector =? FDB_SECTOR_STORE_USING) || (se_store sector =? FDB_SECTOR_STORE_FULL).

(** The last record read and the callback's data. *)
Definition kv_iterator {A} (kv : fdb_kv) (callback : fdb_kv → A → M (bool * A)) (acc : A) : M (fdb_kv * A) :=
  '(_, acc) <-
    all_sectors (λ sec_addr sector acc,
      let '(kv, acc) := acc in
      '(r, sector) <- read_sector_info sec_addr sector false;;
      if negb (no_err r) then ret (false, sector, (kv, acc)) else
      if has_kv sector then
        '(stop, kv, acc) <- scan_sector sector (λ _ kv acc, callback kv acc) kv acc;;
        ret (stop, sector, (kv, acc))
      else ret (false, sector, (kv, acc))) sec0 (kv, acc);;
  ret acc.

(** [strncmp(a, b, n)] of a buffer and a C string is 0. *)
Definition find_kv_cb (key : key) (kv : fdb_kv) (find_ok : bool) : M (bool * bool) :=
  if negb (blen key =? kv_name_len kv) then ret (false, find_ok) else
  if kv_crc_is_ok kv && (kv_status kv =? FDB_KV_WRITE) && strncmp_eq (kv_name kv) key (blen key)
  then ret (true, true)
  else ret (false, find_ok).

Definition find_kv_no_cache (key : key) (kv : fdb_kv) : M (bool * fdb_kv) :=
  '(kv, find_ok) <- kv_iterator kv (find_kv_cb key) false;;
  ret (find_ok, kv).

Definition find_kv (key : key) (kv : fdb_kv) : M (bool * fdb_kv) :=
  let key_len := blen key in
  hit <- get_kv_from_cache key key_len;;
  match hit with
  | Some addr =>
      '(_, kv) <- read_kv (set_start addr kv);;
      ret (true, kv)
  | None =>
      '(find_ok, kv) <- find_kv_no_cache key kv;;
      when find_ok (update_kv_cache key key_len (kv_start kv));;;
      ret (find_ok, kv)
  end.

(** * Writing *)

(** [struct kv_hdr_data] as [create_kv_blob] fills it: erased bytes, then the fields. *)
Definition kv_hdr_bytes (status magic len crc32 name_len value_len : Z) : list Z :=
  [status; 255; 255; 255] ++ le32 magic ++ le32 len ++ le32 crc32 ++ [u8 name_len; 255; 255; 255] ++ le32 value_len.

Definition write_kv_hdr (addr : Z) (kv_hdr : list Z) : M fdb_err_t :=
  result <- write_status addr kv_hdr FDB_KV_STATUS_NUM FDB_KV_PRE_WRITE;;
  if negb (no_err result) then ret result else
  flash_write (addr + KV_MAGIC_OFFSET) (drop 4 kv_hdr) (KV_HDR_DATA_SIZE - KV_MAGIC_OFFSET).

(** The header [format_sector] writes. *)
Definition sector_hdr_bytes (combined_value : Z) : list Z :=
  (_fdb_set_status [255] FDB_SECTOR_STORE_STATUS_NUM FDB_SECTOR_STORE_EMPTY).1
    ++ (_fdb_set_status [255] FDB_SECTOR_DIRTY_STATUS_NUM FDB_SECTOR_DIRTY_FALSE).1
    ++ [255; 255] ++ le32 SECTOR_MAGIC_WORD ++ le32 combined_value ++ le32 FDB_DATA_UNUSED.

Definition format_sector (addr combined_value : Z) : M fdb_err_t :=
  sec_size <- gets db_sec_size;;
  result <- flash_erase addr sec_size;;
  if no_err result then
    result <- flash_write addr (sector_hdr_bytes combined_value) SECTOR_HDR_DATA_SIZE;;
    update_sector_cache (mk_sec false 0 0 addr 0 0 0 FAILED_ADDR);;;
    ret result
  else ret result.

(** The result and [*is_full], which keeps its value where it is not set. *)
Definition update_sec_status (sector : kvdb_sec_info) (new_kv_len : Z) (is_full : bool) : M (fdb_err_t * bool) :=
  if se_store sector =? FDB_SECTOR_STORE_EMPTY then
    result <- write_status (se_addr sector) (stack 1) FDB_SECTOR_STORE_STATUS_NUM FDB_SECTOR_STORE_USING;;
    update_sector_status_store_cache (se_addr sector) FDB_SECTOR_STORE_USING;;;
    ret (result, is_full)
  else if se_store sector =? FDB_SECTOR_STORE_USING then
    if (se_remain sector <? FDB_SEC_REMAIN_THRESHOLD)
       || (u32 (se_remain sector - new_kv_len) <? FDB_SEC_REMAIN_THRESHOLD)
    then
      result <- write_status (se_addr sector) (stack 1) FDB_SECTOR_STORE_STATUS_NUM FDB_SECTOR_STORE_FULL;;
      update_sector_status_store_cache (se_addr sector) FDB_SECTOR_STORE_FULL;;;
      ret (result, true)
    else ret (FDB_NO_ERR, false)
  else ret (FDB_NO_ERR, is_full).

Definition sector_iterator {A} (sector : kvdb_sec_info) (status : Z)
    (callback : kvdb_sec_info → A → M (bool * A)) (traversal_kv : bool) (acc : A) : M (kvdb_sec_info * A) :=
  all_sectors (λ sec_addr sector acc,
    '(_, sector) <- read_sector_info sec_addr sector false;;
    if (status =? FDB_SECTOR_STORE_UNUSED) || (status =? se_store sector) then
      sector <- (if traversal_kv then
                   '(_, sector) <- read_sector_info sec_addr sector true;; ret sector
                 else ret sector);;
      '(stop, acc) <- callback sector acc;;
      ret (stop, sector, acc)
    else ret (false, sector, acc)) sector acc.

(** [(empty_sector, using_sector)]. *)
Definition sector_statistics_cb (sector : kvdb_sec_info) (acc : Z * Z) : M (bool * (Z * Z)) :=
  let '(empty_sector, using_sector) := acc in
  ret (false,
       if se_check_ok sector && (se_store sector =? FDB_SECTOR_STORE_EMPTY) then (empty_sector + 1, using_sector)
       else if se_check_ok sector && (se_store sector =? FDB_SECTOR_STORE_USING) then (empty_sector, using_sector + 1)
       else (empty_sector, using_sector)).

Definition alloc_kv_cb (kv_size : Z) (sector : kvdb_sec_info) (empty_kv : Z) : M (bool * Z) :=
  gc_request <- gets db_gc_request;;
  if se_check_ok sector && (u32 (kv_size + FDB_SEC_REMAIN_THRESHOLD) <? se_remain sector)
     && ((se_dirty sector =? FDB_SECTOR_DIRTY_FALSE)
         || (se_dirty sector =? FDB_SECTOR_DIRTY_TRUE) && negb gc_request)
  then ret (true, se_empty_kv sector)
  else ret (false, empty_kv).

(** The address and the sector last looked at. *)
Definition alloc_kv (sector : kvdb_sec_info) (kv_size : Z) : M (Z * kvdb_sec_info) :=
  '(sector, (empty_sector, using_sector)) <-
    sector_iterator sector FDB_SECTOR_STORE_UNUSED sector_statistics_cb false (0, 0);;
  '(sector, empty_kv) <-
    (if 0 <? using_sector then
       sector_iterator sector FDB_SECTOR_STORE_USING (alloc_kv_cb kv_size) true FAILED_ADDR
     else ret (sector, FAILED_ADDR));;
  if (0 <? empty_sector) && (empty_kv =? FAILED_ADDR) then
    gc_request <- gets db_gc_request;;
    if (FDB_GC_EMPTY_SEC_THRESHOLD <? empty_sector) || gc_request then
      '(sector, empty_kv) <-
        sector_iterator sector FDB_SECTOR_STORE_EMPTY (alloc_kv_cb kv_size) true empty_kv;;
      ret (empty_kv, sector)
    else modify (set_gc_request true);;; ret (empty_kv, sector)
  else ret (empty_kv, sector).

(** [del_kv] on a record that is given, [key] may be NULL. *)
Definition del_found_kv (key : option key) (old_kv : fdb_kv) (complete_del : bool) : M fdb_err_t :=
  sec_size <- gets db_sec_size;;
  result <-
    (if negb complete_del then
       result <- write_status (kv_start old_kv) (stack 1) FDB_KV_STATUS_NUM FDB_KV_PRE_DELETE;;
       modify (set_last_del true);;;
       ret result
     else
       result <- write_status (kv_start old_kv) (stack 1) FDB_KV_STATUS_NUM FDB_KV_DELETED;;
       last_is_complete_del <- gets db_last_is_complete_del;;
       when (negb last_is_complete_del && no_err result)
         (match key with
          | Some k => update_kv_cache k (blen k) FDB_DATA_UNUSED
          | None => update_kv_cache (kv_name old_kv) (kv_name_len old_kv) FDB_DATA_UNUSED
          end);;;
       modify (set_last_del false);;;
       ret result);;
  let sec_addr := FDB_ALIGN_DOWN (kv_start old_kv) sec_size in
  let dirty_status_addr := u32 (sec_addr + SECTOR_DIRTY_OFFSET) in
  if no_err result then
    dirty <- read_status dirty_status_addr (stack 1) FDB_SECTOR_DIRTY_STATUS_NUM;;
    if dirty =? FDB_SECTOR_DIRTY_FALSE then
      result <- write_status dirty_status_addr (stack 1) FDB_SECTOR_DIRTY_STATUS_NUM FDB_SECTOR_DIRTY_TRUE;;
      modify_sector_cache sec_addr (λ _ s,
        mk_sec (se_check_ok s) (se_store s) FDB_SECTOR_DIRTY_TRUE (se_addr s) (se_magic s) (se_combined s)
          (se_remain s) (se_empty_kv s));;;
      ret result
    else ret result
  else ret result.

Definition del_kv (key : key) (complete_del : bool) : M fdb_err_t :=
  '(found, kv) <- find_kv key kv0;;
  if found then del_found_kv (Some key) kv complete_del else ret FDB_KV_NAME_ERR.

(** The copy loop of [move_kv] in chunks of at most 32 bytes. *)
Fixpoint copy_loop (fuel : nat) (buf : list Z) (from to len kv_len : Z) (result : fdb_err_t) : M fdb_err_t :=
  match fuel with
  | O => ret result
  | S fuel =>
      if negb (len <? kv_len) then ret result else
      let size := if len + 32 <? kv_len then 32 else kv_len - len in
      '(_, buf) <- flash_read (from + KV_MAGIC_OFFSET + len) buf (FDB_WG_ALIGN size);;
      result <- flash_write (to + KV_MAGIC_OFFSET + len) buf size;;
      copy_loop fuel buf from to (len + size) kv_len result
  end.

(** The part of [move_kv] that copies the record to [kv_addr] of [sector]. *)
Definition copy_kv (kv : fdb_kv) (kv_addr : Z) (sector : kvdb_sec_info) : M fdb_err_t :=
  sec_size <- gets db_sec_size;;
  update_sec_status sector (kv_len kv) false;;;
  write_status kv_addr (stack 1) FDB_KV_STATUS_NUM FDB_KV_PRE_WRITE;;;
  let kv_len' := u32 (kv_len kv - KV_MAGIC_OFFSET) in
  result <- copy_loop (Z.to_nat kv_len') (stack 32) (kv_start kv) kv_addr 0 kv_len' FDB_NO_ERR;;
  write_status kv_addr (stack 1) FDB_KV_STATUS_NUM FDB_KV_WRITE;;;
  update_sector_empty_addr_cache (FDB_ALIGN_DOWN kv_addr sec_size)
    (u32 (kv_addr + KV_HDR_DATA_SIZE + FDB_WG_ALIGN (kv_name_len kv) + FDB_WG_ALIGN (kv_value_len kv)));;;
  update_kv_cache (kv_name kv) (kv_name_len kv) kv_addr;;;
  ret result.

Definition move_kv (kv : fdb_kv) : M fdb_err_t :=
  when (kv_status kv =? FDB_KV_WRITE) (del_found_kv None kv false;;; ret tt);;;
  '(kv_addr, sector) <- alloc_kv sec0 (kv_len kv);;
  if kv_addr =? FAILED_ADDR then ret FDB_SAVED_FULL else
  in_recovery_check <- gets db_in_recovery_check;;
  (* check the KV in flash is already create success *)
  created <-
    (if in_recovery_check && (kv_status kv =? FDB_KV_PRE_DELETE) then
       '(found, _) <- find_kv_no_cache (cstr (take (Z.to_nat (kv_name_len kv)) (kv_name kv))) kv0;;
       ret found
     else ret false);;
  result <- (if (created : bool) then ret FDB_NO_ERR else copy_kv kv kv_addr sector);;
  del_found_kv None kv true;;;
  ret result.

(** ** Garbage collection *)

(** [(empty_sec_num, empty_sec_addr)]. *)
Definition gc_check_cb (sector : kvdb_sec_info) (acc : Z * Z) : M (bool * (Z * Z)) :=
  ret (false, if se_check_ok sector then (acc.1 + 1, se_addr sector) else acc).

Definition do_gc_kv (_ : fdb_err_t) (kv : fdb_kv) (_ : unit) : M (bool * unit) :=
  when (kv_crc_is_ok kv && ((kv_status kv =? FDB_KV_WRITE) || (kv_status kv =? FDB_KV_PRE_DELETE)))
    (move_kv kv;;; ret tt);;;
  ret (false, tt).

(** The callback's data is [gc->last_gc_sec_addr]. *)
Definition do_gc (setting_free_size : Z) (sector : kvdb_sec_info) (last_gc_sec_addr : Z) : M (bool * Z) :=
  if se_check_ok sector
     && ((se_dirty sector =? FDB_SECTOR_DIRTY_TRUE) || (se_dirty sector =? FDB_SECTOR_DIRTY_GC))
  then
    write_status (se_addr sector + SECTOR_DIRTY_OFFSET) (stack 1) FDB_SECTOR_DIRTY_STATUS_NUM FDB_SECTOR_DIRTY_GC;;;
    scan_sector sector do_gc_kv kv0 tt;;;
    format_sector (se_addr sector) SECTOR_NOT_COMBINED;;;
    oldest <- get_next_sector_addr sector 0;;
    modify (set_oldest oldest);;;
    '(r, last_gc_sector) <- read_sector_info last_gc_sec_addr sec0 true;;
    ret (no_err r && (setting_free_size <? se_remain last_gc_sector), se_addr sector)
  else ret (false, last_gc_sec_addr).

Definition gc_collect_by_free_size (free_size : Z) : M unit :=
  '(sector, (empty_sec_num, empty_sec_addr)) <-
    sector_iterator sec0 FDB_SECTOR_STORE_EMPTY gc_check_cb false (0, 0);;
  when (empty_sec_num <=? FDB_GC_EMPTY_SEC_THRESHOLD)
    (sector_iterator sector FDB_SECTOR_STORE_UNUSED (do_gc free_size) false empty_sec_addr;;; ret tt);;;
  modify (set_gc_request false).

Definition gc_collect : M unit :=
  max_size <- gets db_max_size;; gc_collect_by_free_size max_size.

Definition new_kv (sector : kvdb_sec_info) (kv_size : Z) : M (Z * kvdb_sec_info) :=
  '(empty_kv, sector) <- alloc_kv sector kv_size;;
  if negb (empty_kv =? FAILED_ADDR) then ret (empty_kv, sector) else
  gc_request <- gets db_gc_request;;
  if (gc_request : bool) then
    gc_collect_by_free_size kv_size;;;
    (* retry *)
    '(empty_kv, sector) <- alloc_kv sector kv_size;;
    when (empty_kv =? FAILED_ADDR) (modify (set_gc_request false));;;
    ret (empty_kv, sector)
  else ret (empty_kv, sector).

Definition new_kv_ex (sector : kvdb_sec_info) (key_len buf_len : Z) : M (Z * kvdb_sec_info) :=
  new_kv sector (u32 (KV_HDR_DATA_SIZE + FDB_WG_ALIGN key_len + FDB_WG_ALIGN buf_len)).

(** ** Setting a value *)

(** The checksum of a record's name and value; with byte granularity there is no padding. *)
Definition kv_crc (kv_hdr key value : list Z) (name_len value_len : Z) : Z :=
  let crc := fdb_calc_crc32 0 (drop 16 kv_hdr) 4 in
  let crc := fdb_calc_crc32 crc (drop 20 kv_hdr) 4 in
  let crc := fdb_calc_crc32 crc key name_len in
  let crc := Nat.iter (Z.to_nat (FDB_WG_ALIGN name_len - name_len)) (λ crc, fdb_calc_crc32 crc [FDB_BYTE_ERASED] 1) crc in
  let crc := fdb_calc_crc32 crc value value_len in
  Nat.iter (Z.to_nat (FDB_WG_ALIGN value_len - value_len)) (λ crc, fdb_calc_crc32 crc [FDB_BYTE_ERASED] 1) crc.

(** Run the next step if the last one succeeded. *)
Definition on_no_err (result : fdb_err_t) (m : M fdb_err_t) : M fdb_err_t :=
  if no_err result then m else ret result.

(** The writes of [create_kv_blob] at [kv_addr]. *)
Definition write_kv (sector : kvdb_sec_info) (kv_addr : Z) (key value : list Z) (name_len value_len : Z) : M fdb_err_t :=
  let kv_hdr_len := u32 (KV_HDR_DATA_SIZE + FDB_WG_ALIGN name_len + FDB_WG_ALIGN value_len) in
  '(result, is_full) <- update_sec_status sector kv_hdr_len false;;
  let kv_hdr crc := kv_hdr_bytes FDB_BYTE_ERASED KV_MAGIC_WORD kv_hdr_len crc name_len value_len in
  let kv_hdr := kv_hdr (kv_crc (kv_hdr 0) key value name_len value_len) in
  result <- on_no_err result (write_kv_hdr kv_addr kv_hdr);;
  result <- on_no_err result
    (result <- flash_write_align (kv_addr + KV_HDR_DATA_SIZE) key name_len;;
     when (negb is_full)
       (update_sector_empty_addr_cache (se_addr sector)
          (u32 (kv_addr + KV_HDR_DATA_SIZE + FDB_WG_ALIGN name_len + FDB_WG_ALIGN value_len)));;;
     update_kv_cache key name_len kv_addr;;;
     ret result);;
  result <- on_no_err result
    (flash_write_align (kv_addr + KV_HDR_DATA_SIZE + FDB_WG_ALIGN name_len) value value_len);;
  result <- on_no_err result (write_status kv_addr kv_hdr FDB_KV_STATUS_NUM FDB_KV_WRITE);;
  when (no_err result && is_full) (modify (set_gc_request true));;;
  ret result.

(** The result and the sector object, which [new_kv] fills in. *)
Definition create_kv_blob (sector : kvdb_sec_info) (key value : list Z) (len : Z) : M (fdb_err_t * kvdb_sec_info) :=
  sec_size <- gets db_sec_size;;
  if FDB_KV_NAME_MAX <? blen key then ret (FDB_KV_NAME_ERR, sector) else
  let name_len := u8 (blen key) in
  let value_len := u32 len in
  let kv_hdr_len := u32 (KV_HDR_DATA_SIZE + FDB_WG_ALIGN name_len + FDB_WG_ALIGN value_len) in
  if u32 (sec_size - SECTOR_HDR_DATA_SIZE) <? kv_hdr_len then ret (FDB_SAVED_FULL, sector) else
  '(kv_addr, sector) <-
    (if negb (se_empty_kv sector =? FAILED_ADDR) then ret (se_empty_kv sector, sector) else new_kv sector kv_hdr_len);;
  if kv_addr =? FAILED_ADDR then ret (FDB_SAVED_FULL, sector) else
  result <- write_kv sector kv_addr key value name_len value_len;;
  ret (result, sector).

(** The record in [cur_kv], if there is one, is replaced: prepare to delete the old one, create
    the new one, delete the old one. *)
Definition update_kv (kv_is_found : bool) (key value : list Z) (buf_len : Z) : M fdb_err_t :=
  cur_kv <- gets db_cur_kv;;
  result <- (if kv_is_found then del_found_kv (Some key) cur_kv false else ret FDB_NO_ERR);;
  result <- on_no_err result
    (cur_sector <- gets db_cur_sector;;
     '(result, cur_sector) <- create_kv_blob cur_sector key value buf_len;;
     modify (set_cur_sector cur_sector);;;
     ret result);;
  if kv_is_found then on_no_err result (del_found_kv (Some key) cur_kv true) else ret result.

Definition set_kv (key : key) (value_buf : option (list Z)) (buf_len : Z) : M fdb_err_t :=
  match value_buf with
  | None => del_kv key true
  | Some value =>
      cur_sector <- gets db_cur_sector;;
      '(addr, cur_sector) <- new_kv_ex cur_sector (blen key) buf_len;;
      modify (set_cur_sector cur_sector);;;
      if addr =? FAILED_ADDR then ret FDB_SAVED_FULL else
      cur_kv <- gets db_cur_kv;;
      '(kv_is_found, cur_kv) <- find_kv key cur_kv;;
      modify (set_cur_kv cur_kv);;;
      result <- update_kv kv_is_found key value buf_len;;
      gc_request <- gets db_gc_request;;
      when gc_request
        (gc_collect_by_free_size (u32 (KV_HDR_DATA_SIZE + FDB_WG_ALIGN (blen key) + FDB_WG_ALIGN buf_len)));;;
      ret result
  end.

(** * Defaults, start-up and iteration *)

(** The loop that formats every sector. *)
Fixpoint format_all (fuel : nat) (addr : Z) : M fdb_err_t :=
  match fuel with
  | O => ret FDB_NO_ERR
  | S fuel =>
      sec_size <- gets db_sec_size;;
      max_size <- gets db_max_size;;
      if negb (addr <? max_size) then ret FDB_NO_ERR else
      result <- format_sector addr SECTOR_NOT_COMBINED;;
      if negb (no_err result) then ret result else format_all fuel (u32 (addr + sec_size))
  end.

(** The results of [create_kv_blob] are dropped. *)
Fixpoint create_defaults (kvs : list default_kv_node) (sector : kvdb_sec_info) : M unit :=
  match kvs with
  | [] => ret tt
  | d :: kvs =>
      let value_len := if dk_value_len d =? 0 then strlen (dk_value d) else dk_value_len d in
      let sector := mk_sec (se_check_ok sector) (se_store sector) (se_dirty sector) (se_addr sector)
                      (se_magic sector) (se_combined sector) (se_remain sector) FAILED_ADDR in
      '(_, sector) <- create_kv_blob sector (dk_key d) (dk_value d) value_len;;
      create_defaults kvs sector
  end.

Definition fdb_kv_set_default : M fdb_err_t :=
  modify (λ db, set_kv_cache ((λ e, mk_node (nd_name_crc e) (nd_active e) FDB_DATA_UNUSED) <$> db_kv_cache db) db);;;
  sec_size <- gets db_sec_size;;
  max_size <- gets db_max_size;;
  result <- format_all (S (Z.to_nat (max_size / sec_size))) 0;;
  when (no_err result) (kvs <- gets db_default_kvs;; create_defaults kvs sec0);;;
  modify (set_oldest 0);;;
  ret result.

(** [(sector_oldest_addr, last_sector_status)]. *)
Definition check_oldest_addr_cb (sector : kvdb_sec_info) (acc : Z * Z) : M (bool * (Z * Z)) :=
  ret (false, (if (acc.2 =? FDB_SECTOR_STORE_EMPTY) && has_kv sector then se_addr sector else acc.1, se_store sector)).

(** The count of failed sectors. *)
Definition check_sec_hdr_cb (sector : kvdb_sec_info) (failed_count : Z) : M (bool * Z) :=
  if negb (se_check_ok sector) then
    not_formatable <- gets db_not_formatable;;
    if (not_formatable : bool) then ret (true, failed_count + 1) else
    format_sector (se_addr sector) SECTOR_NOT_COMBINED;;; ret (false, failed_count + 1)
  else ret (false, failed_count).

Definition check_and_recovery_gc_cb (sector : kvdb_sec_info) (_ : unit) : M (bool * unit) :=
  when (se_check_ok sector && (se_dirty sector =? FDB_SECTOR_DIRTY_GC))
    (modify (set_gc_request true);;; gc_collect);;;
  ret (false, tt).

Definition check_and_recovery_kv_cb (kv : fdb_kv) (_ : unit) : M (bool * unit) :=
  if kv_crc_is_ok kv && (kv_status kv =? FDB_KV_PRE_DELETE) then
    result <- move_kv kv;;
    ret (negb (no_err result), tt)
  else if kv_status kv =? FDB_KV_PRE_WRITE then
    write_status (kv_start kv) (stack 1) FDB_KV_STATUS_NUM FDB_KV_ERR_HDR;;;
    ret (true, tt)
  else if kv_crc_is_ok kv && (kv_status kv =? FDB_KV_WRITE) then
    update_kv_cache (kv_name kv) (kv_name_len kv) (kv_start kv);;;
    ret (false, tt)
  else ret (false, tt).

(** The retry loop; [None] when the fuel is used up. *)
Fixpoint recover_loop (fuel : nat) (kv : fdb_kv) : M (option unit) :=
  match fuel with
  | O => ret None
  | S fuel =>
      '(kv, _) <- kv_iterator kv check_and_recovery_kv_cb tt;;
      gc_request <- gets db_gc_request;;
      if (gc_request : bool) then gc_collect;;; recover_loop fuel kv else ret (Some tt)
  end.

(** [None] when the retry loop has not ended after [fuel] rounds. *)
Definition _fdb_kv_load (fuel : nat) : M (option fdb_err_t) :=
  modify (set_recovery true);;;
  sec_size <- gets db_sec_size;;
  max_size <- gets db_max_size;;
  not_formatable <- gets db_not_formatable;;
  '(sector, check_failed_count) <- sector_iterator sec0 FDB_SECTOR_STORE_UNUSED check_sec_hdr_cb false 0;;
  if not_formatable && (0 <? check_failed_count) then ret (Some FDB_READ_ERR) else
  when (check_failed_count =? max_size / sec_size) (fdb_kv_set_default;;; ret tt);;;
  sector_iterator sector FDB_SECTOR_STORE_UNUSED check_and_recovery_gc_cb false tt;;;
  done <- recover_loop fuel kv0;;
  match done with
  | None => ret None
  | Some _ => modify (set_recovery false);;; ret (Some FDB_NO_ERR)
  end.

(** [_fdb_init_ex] of fdb.c in FAL mode; [found] is the partition the path names and the
    block size of its flash device. The assertion that the sector size is a power of two
    is not part of the model. *)
Definition _fdb_init_ex (found : option (fal_partition * Z)) : M fdb_err_t :=
  init_ok <- gets db_init_ok;;
  if (init_ok : bool) then ret FDB_NO_ERR else
  match found with
  | None => ret FDB_PART_NOT_FOUND
  | Some (part, block_size) =>
      sec_size <- gets db_sec_size;;
      modify (λ db, set_storage part (db_sec_size db) (db_max_size db) db);;;
      if negb (sec_size =? 0) && negb (sec_size mod block_size =? 0) then ret FDB_INIT_FAILED else
      let sec_size := if sec_size =? 0 then block_size else sec_size in
      let max_size := pa_len part in
      modify (set_storage part sec_size max_size);;;
      if negb (max_size mod sec_size =? 0) then ret FDB_INIT_FAILED else
      if max_size / sec_size <? 2 then ret FDB_INIT_FAILED else
      ret FDB_NO_ERR
  end.

Definition _fdb_init_finish (result : fdb_err_t) : M unit :=
  when (no_err result) (modify (set_db_init true)).

(** The search for the oldest sector. *)
Definition find_oldest : M unit :=
  modify (set_oldest 0);;;
  '(_, (sector_oldest_addr, _)) <-
    sector_iterator sec0 FDB_SECTOR_STORE_UNUSED check_oldest_addr_cb false (0, FDB_SECTOR_STORE_UNUSED);;
  modify (set_oldest sector_oldest_addr).

Definition clear_caches (db : kvdb) : kvdb :=
  set_kv_cache ((λ e, mk_node (nd_name_crc e) (nd_active e) FDB_DATA_UNUSED) <$> db_kv_cache db)
    (set_sec_cache ((λ s, mk_sec false (se_store s) (se_dirty s) FDB_DATA_UNUSED (se_magic s) (se_combined s)
                            (se_remain s) FAILED_ADDR) <$> db_sec_cache db) db).

Definition fdb_kvdb_init (fuel : nat) (found : option (fal_partition * Z)) (default_kv : list default_kv_node)
    : M (option fdb_err_t) :=
  result <- _fdb_init_ex found;;
  result <-
    (if no_err result then
       modify (set_gc_request false);;;
       modify (set_recovery false);;;
       modify (set_defaults default_kv);;;
       find_oldest;;;
       modify clear_caches;;;
       _fdb_kv_load fuel
     else ret (Some result));;
  match result with
  | None => ret None
  | Some r => _fdb_init_finish r;;; ret (Some r)
  end.

Definition fdb_kvdb_deinit : M fdb_err_t := modify (set_db_init false);;; ret FDB_NO_ERR.

(** ** The iterator *)

Record fdb_kv_iterator : Type := mk_itr {
  it_kv : fdb_kv;
  it_cnt : Z;
  it_obj_bytes : Z;
  it_value_bytes : Z;
  it_sector_addr : Z;
  it_traversed_len : Z
}.

Definition fdb_kv_iterator_init (itr : fdb_kv_iterator) : M fdb_kv_iterator :=
  oldest <- gets db_oldest_addr;;
  ret (mk_itr (set_start 0 (it_kv itr)) 0 0 0 oldest 0).

(** The first live record from [kv_start kv] on. *)
Definition live_kv (_ : fdb_err_t) (kv : fdb_kv) (_ : unit) : M (bool * unit) :=
  ret ((kv_status kv =? FDB_KV_WRITE) && kv_crc_is_ok kv, tt).

(** The outer loop; [continue] goes to the condition as well, [traversed_len] having been
    advanced on either path. *)
Fixpoint iterate_loop (fuel : nat) (itr : fdb_kv_iterator) (sector : kvdb_sec_info) : M (bool * fdb_kv_iterator) :=
  match fuel with
  | O => ret (false, itr)
  | S fuel =>
      sec_size <- gets db_sec_size;;
      '(r, sector) <- read_sector_info (it_sector_addr itr) sector false;;
      let kv := it_kv itr in
      '(stop, kv) <-
        (if no_err r && has_kv sector then
           addr <- (if kv_start kv =? 0 then ret (u32 (se_addr sector + SECTOR_HDR_DATA_SIZE))
                    else get_next_kv_addr sector kv);;
           if negb (kv_start kv =? 0) && (addr =? FAILED_ADDR) then ret (false, kv) else
           '(stop, kv, _) <- scan_kv (S (Z.to_nat sec_size)) sector live_kv (set_start addr kv) tt;;
           ret (stop, kv)
         else ret (false, kv));;
      if (stop : bool) then
        ret (true, mk_itr kv (u32 (it_cnt itr + 1)) (u32 (it_obj_bytes itr + kv_len kv))
                     (u32 (it_value_bytes itr + kv_value_len kv)) (it_sector_addr itr) (it_traversed_len itr))
      else
        let traversed_len := u32 (it_traversed_len itr + sec_size) in
        sec_addr <- get_next_sector_addr sector traversed_len;;
        let itr := mk_itr (set_start 0 kv) (it_cnt itr) (it_obj_bytes itr) (it_value_bytes itr) sec_addr traversed_len in
        if sec_addr =? FAILED_ADDR then ret (false, itr) else iterate_loop fuel itr sector
  end.

Definition fdb_kv_iterate (itr : fdb_kv_iterator) : M (bool * fdb_kv_iterator) :=
  sec_size <- gets db_sec_size;;
  max_size <- gets db_max_size;;
  iterate_loop (S (Z.to_nat (max_size / sec_size))) itr sec0.

(** ** Integrity check *)

(** The records of a sector; the next address is computed before the result is looked at. *)
Fixpoint check_kv_loop (fuel : nat) (sector : kvdb_sec_info) (kv : fdb_kv) : M (fdb_err_t * fdb_kv) :=
  match fuel with
  | O => ret (FDB_NO_ERR, kv)
  | S fuel =>
      '(result, kv) <- read_kv kv;;
      addr <- get_next_kv_addr sector kv;;
      let kv := set_start addr kv in
      if negb (addr =? FAILED_ADDR) && no_err result then check_kv_loop fuel sector kv else ret (result, kv)
  end.

Fixpoint check_loop (fuel : nat) (sec_addr traversed_len : Z) (sector : kvdb_sec_info) (kv : fdb_kv) : M fdb_err_t :=
  match fuel with
  | O => ret FDB_NO_ERR
  | S fuel =>
      sec_size <- gets db_sec_size;;
      let traversed_len := u32 (traversed_len + sec_size) in
      '(result, sector) <- read_sector_info sec_addr sector false;;
      '(result, kv) <-
        (if no_err result && has_kv sector then
           check_kv_loop (S (Z.to_nat sec_size)) sector (set_start (u32 (se_addr sector + SECTOR_HDR_DATA_SIZE)) kv)
         else ret (result, kv));;
      sec_addr <- get_next_sector_addr sector traversed_len;;
      if negb (sec_addr =? FAILED_ADDR) && no_err result then check_loop fuel sec_addr traversed_len sector kv
      else ret result
  end.

Definition fdb_kvdb_check : M fdb_err_t :=
  init_ok <- gets db_init_ok;;
  if negb init_ok then ret FDB_INIT_FAILED else
  sec_size <- gets db_sec_size;;
  max_size <- gets db_max_size;;
  oldest <- gets db_oldest_addr;;
  check_loop (S (Z.to_nat (max_size / sec_size))) oldest 0 sec0 kv0.

(** ** Objects and options *)

Definition fdb_kv_get_obj (key : key) (kv : fdb_kv) : M (option fdb_kv) :=
  init_ok <- gets db_init_ok;;
  if negb init_ok then ret None else
  '(find_ok, kv) <- find_kv key kv;;
  ret (if find_ok : bool then Some kv else None).

(** [blob->saved]: meta address, address and length. *)
Definition fdb_kv_to_blob (kv : fdb_kv) : Z * Z * Z := (kv_start kv, kv_value kv, kv_value_len kv).

(** The options that concern the modelled state; the lock functions are not part of it, and
    file mode is not configured. *)
Inductive kvdb_ctrl : Set := CTRL_SET_SEC_SIZE (n : Z) | CTRL_GET_SEC_SIZE | CTRL_SET_NOT_FORMAT (b : bool).

Definition fdb_kvdb_control (cmd : kvdb_ctrl) : M Z :=
  match cmd with
  | CTRL_SET_SEC_SIZE n => modify (λ db, set_storage (db_part db) n (db_max_size db) db);;; ret n
  | CTRL_GET_SEC_SIZE => gets db_sec_size
  | CTRL_SET_NOT_FORMAT b => modify (set_not_formatable b);;; ret 0
  end.

End kvdb.
