(* ===== verification/KvdbFlash.v ===== *)
(** What the flash of a database holds after a sequence of writes of which any may fail: the
    writes of an operation form a script of programmed bytes, and an operation that stops at
    its first failed write leaves the effect of a prefix of its script. *)

From S2P Require Import Prelude.
From S2P Require Import CText.
From S2P Require Import KvStore.
From S2P Require Import Nor.
From S2P Require Import Sfud.
From S2P Require Import Fal.
From S2P Require Import FdbUtils.
From S2P Require Import Kvdb.

(** * Scripts *)

(** Bytes programmed one after the other. *)
Definition script : Type := list (nat * Z).
Definition prog (ps : script) (m : list Z) : list Z :=
  foldl (λ m p, alter (λ old, Z.land old p.2) p.1 m) m ps.

(** The script of a write of [data] at [addr]. *)
Definition bytes_at (addr : Z) (data : list Z) : script := imap (λ i b, (Z.to_nat addr + i, b)%nat) data.

Lemma prog_app ps qs m : prog (ps ++ qs) m = prog qs (prog ps m).
Proof. apply foldl_app. Qed.

Lemma prog_length ps m : length (prog ps m) = length m.
Proof.
  revert m. induction ps as [|[a b] ps IH]; intros m; [done |]. simpl. by rewrite IH, length_alter.
Qed.

Lemma length_bytes_at addr data : length (bytes_at addr data) = length data.
Proof. apply length_imap. Qed.
#[export] Hint Rewrite prog_length length_bytes_at : len.

Lemma bytes_at_cons addr b data :
  0 ≤ addr → bytes_at addr (b :: data) = (Z.to_nat addr, b) :: bytes_at (addr + 1) data.
Proof.
  intros H. unfold bytes_at. rewrite imap_cons, Nat.add_0_r. f_equal. apply imap_ext. intros i x _.
  unfold compose. f_equal. lia.
Qed.

Lemma prog_bytes_at addr data m :
  0 ≤ addr → prog (bytes_at addr data) m = nor_program m (Z.to_nat addr) data.
Proof.
  revert addr m. induction data as [|b data IH]; intros addr m Ha; [done |].
  rewrite bytes_at_cons by done. cbn [prog foldl nor_program fst snd]. fold (prog (bytes_at (addr + 1) data)).
  change (foldl _ ?x (bytes_at (addr + 1) data)) with (prog (bytes_at (addr + 1) data) x).
  rewrite IH by lia. f_equal. lia.
Qed.

Lemma bytes_at_take addr data n : 0 ≤ addr → take n (bytes_at addr data) = bytes_at addr (take n data).
Proof.
  revert addr n. induction data as [|b data IH]; intros addr [|n] Ha; try done.
  cbn [take]. rewrite !bytes_at_cons by done. cbn [take]. by rewrite IH by lia.
Qed.

Lemma bytes_at_app addr l k : 0 ≤ addr → bytes_at addr (l ++ k) = bytes_at addr l ++ bytes_at (addr + blen l) k.
Proof.
  revert addr. induction l as [|b l IH]; intros addr Ha.
  { change (blen []) with 0. by rewrite Z.add_0_r. }
  cbn [app]. rewrite !bytes_at_cons by done. rewrite IH by lia. cbn [app]. do 3 f_equal. len.
Qed.

Lemma bytes_at_elem addr data p :
  0 ≤ addr → p ∈ bytes_at addr data → addr ≤ Z.of_nat p.1 < addr + blen data.
Proof.
  intros Ha Hp. apply list_elem_of_lookup in Hp as [i Hi]. unfold bytes_at in Hi.
  apply list_lookup_imap_Some in Hi as (b & Hb & ->). apply lookup_lt_Some in Hb. simpl. len.
Qed.

(** A byte that no entry of the script names is unchanged. *)
Lemma prog_lookup_ne ps m (i : nat) : (∀ p, p ∈ ps → p.1 ≠ i) → prog ps m !! i = m !! i.
Proof.
  revert m. induction ps as [|[a b] ps IH]; intros m H; [done |]. simpl.
  rewrite IH by (intros p Hp; apply H; by right).
  apply list_lookup_alter_ne. exact (H (a, b) (list_elem_of_here _ _)).
Qed.

(** * The partition as a block *)

Definition pmem (db : kvdb) : list Z := region (db_part db) (db_dev db) 0 (pa_len (db_part db)).

(** The bytes [a, a + n) of a block. *)
Definition slice (m : list Z) (a n : Z) : list Z := take (Z.to_nat n) (drop (Z.to_nat a) m).

Lemma slice_blen m a n : 0 ≤ a → 0 ≤ n → a + n ≤ blen m → blen (slice m a n) = n.
Proof. intros. unfold slice. len. Qed.

Lemma slice_lookup m a n (i : nat) : 0 ≤ a → Z.of_nat i < n → slice m a n !! i = m !! (Z.to_nat a + i)%nat.
Proof. intros. unfold slice. rewrite lookup_take_lt by lia. by rewrite lookup_drop. Qed.

Lemma slice_eq m m' a n :
  0 ≤ a → 0 ≤ n → a + n ≤ blen m → blen m' = blen m →
  (∀ i : nat, a ≤ Z.of_nat i < a + n → m' !! i = m !! i) → slice m' a n = slice m a n.
Proof.
  intros Ha Hn Hin Hl H. apply list_eq. intros i. destruct (decide (Z.of_nat i < n)).
  - rewrite !slice_lookup by lia. apply H. lia.
  - rewrite !lookup_ge_None_2; [done | |]; unfold slice; len.
Qed.

(** A slice of a slice. *)
Lemma slice_slice m a n b k :
  0 ≤ a → 0 ≤ b → 0 ≤ k → b + k ≤ n → slice (slice m a n) b k = slice m (a + b) k.
Proof.
  intros. unfold slice. apply list_eq. intros i. destruct (decide (Z.of_nat i < k)).
  - rewrite !lookup_take_lt by lia. rewrite !lookup_drop, lookup_take_lt by lia.
    rewrite lookup_drop. f_equal. lia.
  - rewrite !lookup_ge_None_2; [done | |]; rewrite length_take; lia.
Qed.

Lemma slice_app_l l k n : blen l = n → slice (l ++ k) 0 n = l.
Proof. intros <-. unfold slice, blen. rewrite Nat2Z.id, drop_0. by rewrite take_app_length. Qed.

Lemma slice_app_r l k a n : blen l = a → blen k = n → slice (l ++ k) a n = k.
Proof.
  intros <- <-. unfold slice, blen. rewrite !Nat2Z.id, drop_app_length. apply take_ge. lia.
Qed.

(** A script outside of a slice leaves it alone. *)
Lemma prog_slice_ne ps m a n :
  0 ≤ a → 0 ≤ n → a + n ≤ blen m → (∀ p, p ∈ ps → ¬ a ≤ Z.of_nat p.1 < a + n) →
  slice (prog ps m) a n = slice m a n.
Proof.
  intros Ha Hn Hin H. apply slice_eq; [done | done | done | len |].
  intros i Hi. apply prog_lookup_ne. intros p Hp E. apply (H p Hp). lia.
Qed.

(** * Runs *)

Definition flash_ready (db : kvdb) : Prop := part_ok (db_part db) (db_dev db).
Definition flash_healthy (db : kvdb) : Prop := dev_healthy (db_dev db).

(** What no operation on the flash changes. *)
Record db_frame (db db' : kvdb) : Prop := {
  df_part : db_part db' = db_part db;
  df_sec : db_sec_size db' = db_sec_size db;
  df_max : db_max_size db' = db_max_size db;
  df_dev : dev_frame (db_dev db) (db_dev db')
}.

#[export] Instance dev_frame_preorder : PreOrder dev_frame.
Proof.
  split; [by intros c; split |]. intros c1 c2 c3 [E1 F1] [E2 F2]. split; [congruence |].
  rewrite E1 in F2. by etrans.
Qed.

#[export] Instance db_frame_preorder : PreOrder db_frame.
Proof.
  split; [by intros db; constructor |]. intros d1 d2 d3 [] [].
  constructor; try congruence; by etrans.
Qed.

Lemma flash_ready_frame db db' :
  flash_ready db → db_frame db db' → idle (dv_io (db_dev db')) → flash_ready db'.
Proof. unfold flash_ready. intros H [E _ _ F] Hid. rewrite E. by eapply part_ok_frame. Qed.

Lemma pmem_blen db : flash_ready db → blen (pmem db) = pa_len (db_part db).
Proof. intros H. unfold pmem. rewrite region_blen; [lia | done | |]; destruct H; lia. Qed.

Lemma pmem_lookup db (i : nat) :
  flash_ready db → Z.of_nat i < pa_len (db_part db) →
  pmem db !! i = dv_mem (db_dev db) !! (Z.to_nat (pa_offset (db_part db)) + i)%nat.
Proof.
  intros [] Hi. unfold pmem, region. rewrite lookup_take_lt by lia. rewrite lookup_drop. f_equal. lia.
Qed.

(** An operation whose writes are one of the scripts [Q] and that stops at the first failure. *)
Definition runs {A} (err : A → fdb_err_t) (Q : script → Prop) (m : M A) (db : kvdb) : Prop :=
  ∃ a db' ps k, m db = (a, db') ∧ Q ps ∧ db_frame db db'
    ∧ pmem db' = prog (take k ps) (pmem db)
    ∧ (err a = FDB_NO_ERR → (length ps ≤ k)%nat ∧ flash_ready db')
    ∧ (flash_healthy db → err a = FDB_NO_ERR).

(** Scripts in sequence. *)
Definition seqs (Q1 Q2 : script → Prop) (ps : script) : Prop :=
  ∃ ps1 ps2, ps = ps1 ++ ps2 ∧ Q1 ps1 ∧ Q2 ps2.

(** No write, and the flash stays as it is: changes of caches and flags. *)
Definition still (db db' : kvdb) : Prop :=
  db_part db' = db_part db ∧ db_dev db' = db_dev db ∧ db_sec_size db' = db_sec_size db
  ∧ db_max_size db' = db_max_size db.

Lemma still_frame db db' : still db db' → db_frame db db'.
Proof. intros (E1 & E2 & E3 & E4). constructor; try done. by rewrite E2. Qed.

Lemma still_pmem db db' : still db db' → pmem db' = pmem db.
Proof. intros (E1 & E2 & _). unfold pmem. by rewrite E1, E2. Qed.

Lemma still_ready db db' : still db db' → flash_ready db → flash_ready db'.
Proof. intros (E1 & E2 & _). unfold flash_ready. by rewrite E1, E2. Qed.

Lemma runs_bind_mem {A B} (e1 : A → fdb_err_t) (e2 : B → fdb_err_t) Q1 Q2 (m : M A) (k : A → M B) db :
  runs e1 Q1 m db → (∃ ps, Q2 ps) →
  (∀ a db1 ps, m db = (a, db1) → db_frame db db1 → flash_ready db1 → e1 a = FDB_NO_ERR →
     Q1 ps → pmem db1 = prog ps (pmem db) → runs e2 Q2 (k a) db1) →
  (∀ a db1, e1 a ≠ FDB_NO_ERR → ∃ b db2, k a db1 = (b, db2) ∧ still db1 db2 ∧ e2 b ≠ FDB_NO_ERR) →
  runs e2 (seqs Q1 Q2) (bind m k) db.
Proof.
  intros (a & db1 & ps1 & k1 & E1 & H1 & F1 & M1 & Hok1 & Hy1) [ps0 H0] Hk Hf.
  unfold runs, bind. rewrite E1. destruct (decide (e1 a = FDB_NO_ERR)) as [Ea|Ea].
  - destruct (Hok1 Ea) as [Hk1 Hr1].
    rewrite take_ge in M1 by lia.
    destruct (Hk a db1 ps1 E1 F1 Hr1 Ea H1 M1) as (b & db2 & ps2 & k2 & E2 & H2 & F2 & M2 & Hok2 & Hy2).
    exists b, db2, (ps1 ++ ps2), (length ps1 + k2)%nat. split_and!; try done.
    + by exists ps1, ps2.
    + by etrans.
    + rewrite take_app_add, prog_app, M2, M1. done.
    + intros Eb. destruct (Hok2 Eb). split; [rewrite length_app; lia | done].
    + intros Hy. apply Hy2. eapply dev_frame_healthy; [apply F1 | done].
  - destruct (Hf a db1 Ea) as (b & db2 & E2 & S2 & Eb).
    exists b, db2, (ps1 ++ ps0), (Nat.min k1 (length ps1)). split_and!; try done.
    + by exists ps1, ps0.
    + etrans; [done | by apply still_frame].
    + rewrite (still_pmem _ _ S2), M1. f_equal. rewrite take_app_le by apply Nat.le_min_r.
      destruct (Nat.le_ge_cases k1 (length ps1)); [by rewrite Nat.min_l | rewrite Nat.min_r by done].
      by rewrite !take_ge by lia.
    + intros Hy. by apply Hy1 in Hy.
Qed.

Lemma runs_bind {A B} (e1 : A → fdb_err_t) (e2 : B → fdb_err_t) Q1 Q2 (m : M A) (k : A → M B) db :
  runs e1 Q1 m db → (∃ ps, Q2 ps) →
  (∀ a db1, m db = (a, db1) → db_frame db db1 → flash_ready db1 → e1 a = FDB_NO_ERR → runs e2 Q2 (k a) db1) →
  (∀ a db1, e1 a ≠ FDB_NO_ERR → ∃ b db2, k a db1 = (b, db2) ∧ still db1 db2 ∧ e2 b ≠ FDB_NO_ERR) →
  runs e2 (seqs Q1 Q2) (bind m k) db.
Proof. intros H1 H0 Hk Hf. eapply runs_bind_mem; eauto. Qed.

Lemma runs_ret {A} (err : A → fdb_err_t) (a : A) db :
  flash_ready db → err a = FDB_NO_ERR → runs err (eq []) (ret a) db.
Proof. intros Hr Ea. exists a, db, [], 0%nat. by split_and!. Qed.

Lemma runs_ext {A} (m m' : M A) (err : A → fdb_err_t) Q db : m db = m' db → runs err Q m db → runs err Q m' db.
Proof. unfold runs. by intros ->. Qed.

(** Changes of caches after the writes. *)
Lemma runs_still {A B} (e1 : A → fdb_err_t) (e2 : B → fdb_err_t) Q (m : M A) (k : A → M B) db :
  runs e1 Q m db →
  (∀ a db1, ∃ b db2, k a db1 = (b, db2) ∧ still db1 db2 ∧ (e2 b = FDB_NO_ERR ↔ e1 a = FDB_NO_ERR)) →
  runs e2 Q (bind m k) db.
Proof.
  intros (a & db1 & ps1 & k1 & E1 & H1 & F1 & M1 & Hok1 & Hy1) Hk.
  destruct (Hk a db1) as (b & db2 & E2 & S2 & He). exists b, db2, ps1, k1. unfold bind. rewrite E1, E2.
  split_and!; try done.
  - etrans; [done | by apply still_frame].
  - by rewrite (still_pmem _ _ S2).
  - intros Eb. destruct (Hok1 (proj1 He Eb)). split; [done | by eapply still_ready].
  - intros Hy. by apply He, Hy1.
Qed.

Lemma runs_mono {A} (err : A → fdb_err_t) (Q Q' : script → Prop) (m : M A) db :
  runs err Q m db → (∀ ps, Q ps → Q' ps) → runs err Q' m db.
Proof. intros (a & db' & ps & k & E & HQ & Hrest) Himp. exists a, db', ps, k. auto. Qed.

(** * Flash access *)

Lemma WG_ALIGN_id n : FDB_WG_ALIGN n = n.
Proof.
  unfold FDB_WG_ALIGN, FDB_ALIGN, FDB_WRITE_GRAN. change ((1 + 7) / 8) with 1. rewrite Z.mod_1_r. lia.
Qed.

Lemma WG_ALIGN_DOWN_id n : FDB_WG_ALIGN_DOWN n = n.
Proof.
  unfold FDB_WG_ALIGN_DOWN, FDB_ALIGN_DOWN, FDB_WRITE_GRAN. change ((1 + 7) / 8) with 1.
  by rewrite Z.div_1_r, Z.mul_1_r.
Qed.

(** Programming the chip is programming the partition. *)
Lemma pmem_program db d addr data :
  flash_ready db → 0 ≤ addr → addr + blen data ≤ pa_len (db_part db) → dev_frame (db_dev db) d →
  dv_mem d = nor_program (dv_mem (db_dev db)) (Z.to_nat (pa_offset (db_part db) + addr)) data →
  pmem (set_dev d db) = nor_program (pmem db) (Z.to_nat addr) data.
Proof.
  intros Hr Ha Hin F M. pose proof Hr as []. pose proof (dev_frame_blen _ _ F) as Hl.
  apply list_eq. intros i. destruct (decide (Z.of_nat i < pa_len (db_part db))) as [Hi|Hi].
  - rewrite nor_program_lookup, (pmem_lookup db) by done.
    unfold pmem. cbn [set_dev db_part db_dev]. unfold region. rewrite lookup_take_lt by lia.
    rewrite lookup_drop, M, nor_program_lookup.
    replace (Z.to_nat (pa_offset (db_part db) + 0) + i)%nat
      with (Z.to_nat (pa_offset (db_part db)) + i)%nat by lia.
    destruct (decide (Z.to_nat addr ≤ i < Z.to_nat addr + length data)%nat).
    + rewrite decide_True by lia. by replace (Z.to_nat (pa_offset (db_part db)) + i
        - Z.to_nat (pa_offset (db_part db) + addr))%nat with (i - Z.to_nat addr)%nat by lia.
    + by rewrite decide_False by lia.
  - rewrite !lookup_ge_None_2; [done | |].
    + pose proof (pmem_blen db Hr). len.
    + unfold pmem. cbn [set_dev db_part db_dev]. unfold region. len.
Qed.

Lemma set_dev_frame db d : dev_frame (db_dev db) d → db_frame db (set_dev d db).
Proof. by constructor. Qed.

Lemma runs_write db addr buf size :
  flash_ready db → 0 ≤ addr → 0 ≤ size → addr + size ≤ pa_len (db_part db) → size ≤ blen buf →
  runs id (eq (bytes_at addr (take (Z.to_nat size) buf))) (flash_write addr buf size) db.
Proof.
  intros Hr Ha Hs Hin Hb. pose proof Hr as [].
  destruct (part_write_spec _ _ Hr addr buf size) as (r & c' & k & E & F & Hk & M & Hres & Hh); try lia.
  exists (if r <? 0 then FDB_WRITE_ERR else FDB_NO_ERR), (set_dev c' db), (bytes_at addr (take (Z.to_nat size) buf)), (Z.to_nat k).
  split_and!; [unfold flash_write, _fdb_flash_write; rewrite u32_small by (unfold is_u32; lia); by rewrite E | done | by apply set_dev_frame | | |].
  - rewrite bytes_at_take, take_take, prog_bytes_at by done. rewrite Nat.min_l by lia.
    apply pmem_program; [done | done | len | done | done].
  - destruct Hres as [-> | (-> & -> & Hid)]; [done |]. intros _. split; [len |].
    by eapply flash_ready_frame; [done | apply set_dev_frame|].
  - intros Hy. destruct (Hh Hy) as (-> & -> & _). destruct (Z.ltb_spec size 0); [lia | done].
Qed.

Lemma runs_write_align db addr buf size data :
  flash_ready db → 0 ≤ addr → 0 ≤ size → addr + size ≤ pa_len (db_part db) → size ≤ blen buf →
  take (Z.to_nat size) buf = data →
  runs id (eq (bytes_at addr data)) (flash_write_align addr buf size) db.
Proof.
  intros Hr Ha Hs Hin Hb <-. destruct (Z.eq_dec size 0) as [-> | Hp].
  - apply (runs_ext (ret FDB_NO_ERR)); [|by apply runs_ret]. unfold ret, flash_write_align, _fdb_flash_write_align.
    rewrite WG_ALIGN_DOWN_id. simpl. by destruct db.
  - apply (runs_ext (flash_write addr buf size)); [|by apply runs_write].
    unfold flash_write, flash_write_align, _fdb_flash_write_align. rewrite WG_ALIGN_DOWN_id, Z.sub_diag.
    cbn [Z.eqb negb]. destruct (Z.ltb_spec 0 size); [|lia].
    destruct (_fdb_flash_write _ _ _ _ _) as [r c]. by destruct (decide (r = FDB_NO_ERR)).
Qed.

Lemma runs_write_status db addr t num i :
  flash_ready db → 0 ≤ addr < pa_len (db_part db) → 0 < i < num → num ≤ 8 → (0 < length t)%nat →
  runs id (eq [(Z.to_nat addr, status_byte i)]) (write_status addr t num i) db.
Proof.
  intros Hr Ha Hi Hn Ht. destruct (set_status_byte t num i Ht) as (Hb & Hl & Hidx); [lia | lia |].
  destruct (_fdb_set_status t num i) as [tab bi] eqn:Es. simpl in Hb, Hl, Hidx. subst bi.
  destruct (Z.ltb_spec 0 i); [|lia].
  assert (take 1 tab = [status_byte i]) as Htab.
  { destruct tab as [|x tab]; [simpl in *; lia |]. unfold nthZ in Hb. simpl in Hb. by subst x. }
  apply (runs_ext (flash_write addr tab 1)).
  - unfold flash_write, write_status, _fdb_write_status. rewrite Es. change (0 =? SIZE_MAX) with false.
    cbv iota. rewrite Z.add_0_r. change (Z.to_nat 0) with 0%nat. rewrite drop_0.
    by destruct (_fdb_flash_write _ _ _ _ _).
  - eapply runs_mono; [apply runs_write; [done | lia | lia | lia | len] |].
    intros ps <-. change (Z.to_nat 1) with 1%nat. rewrite Htab. by rewrite bytes_at_cons by lia.
Qed.

(** A read changes nothing but the state of the bus. *)
Definition reads {A} (m : M A) (db : kvdb) (R : A → Prop) : Prop :=
  ∃ a d, m db = (a, set_dev d db) ∧ dev_frame (db_dev db) d ∧ part_ok (db_part db) d
    ∧ dv_mem d = dv_mem (db_dev db) ∧ (flash_healthy db → R a).

Lemma pmem_set_dev db d : dv_mem d = dv_mem (db_dev db) → pmem (set_dev d db) = pmem db.
Proof. intros M. unfold pmem. cbn [set_dev db_part db_dev]. by apply region_mem. Qed.

Lemma reads_flash db addr buf size :
  flash_ready db → 0 ≤ addr → 0 < size → addr + size ≤ pa_len (db_part db) →
  reads (flash_read addr buf size) db
    (λ x, x = (FDB_NO_ERR, slice (pmem db) addr size ++ drop (Z.to_nat size) buf)).
Proof.
  intros Hr Ha Hs Hin. pose proof Hr as [].
  destruct (part_read_spec _ _ Hr addr buf size) as (buf' & c' & E & F & Hid & M & _ & Hh); try lia.
  exists (FDB_NO_ERR, buf'), c'. split.
  { unfold flash_read, _fdb_flash_read. rewrite u32_small by (unfold is_u32; lia). rewrite E.
    destruct (Z.ltb_spec size 0); [lia | done]. } split_and!; [done | by eapply part_ok_frame | done |].
  intros Hy. rewrite (Hh Hy). f_equal.
  unfold memcpy. rewrite Z.add_0_l. change (Z.to_nat 0) with 0%nat. rewrite take_0. cbn [app].
  f_equal. unfold slice, pmem, region. apply list_eq. intros i.
  destruct (decide (Z.of_nat i < size)).
  - rewrite !lookup_take_lt by lia. rewrite !lookup_drop, lookup_take_lt by lia.
    rewrite lookup_drop. f_equal. lia.
  - rewrite !lookup_ge_None_2; [done | |]; rewrite length_take; lia.
Qed.

Lemma reads_ret {A} (a : A) db (R : A → Prop) : flash_ready db → R a → reads (ret a) db R.
Proof. intros Hr Ha. exists a, (db_dev db). split; [by destruct db |]. by split_and!. Qed.

Lemma reads_bind {A B} (m : M A) (k : A → M B) db R S :
  reads m db R →
  (∀ a d, part_ok (db_part db) d → dv_mem d = dv_mem (db_dev db) → dev_frame (db_dev db) d →
     reads (k a) (set_dev d db) (λ b, R a → S b)) →
  reads (bind m k) db S.
Proof.
  intros (a & d & E & F & Hp & M & HR) Hk. destruct (Hk a d Hp M F) as (b & d' & E' & F' & Hp' & M' & HS).
  exists b, d'. unfold bind. rewrite E, E'. split; [by destruct db |]. simpl in *.
  split_and!; [by etrans | done | congruence |]. intros Hy. apply HS.
  - unfold flash_healthy in *. by eapply dev_frame_healthy.
  - auto.
Qed.

Lemma reads_mono {A} (m : M A) db (R S : A → Prop) : reads m db R → (∀ a, R a → S a) → reads m db S.
Proof. intros (a & d & E & F & Hp & M & HR) H. exists a, d. auto 10. Qed.

(** * On working flash *)

Definition up (db : kvdb) : Prop := flash_ready db ∧ flash_healthy db.

(** [m] returns [a] and leaves the database and the flash contents as they are. *)
Definition yields {A} (m : M A) (db : kvdb) (a : A) : Prop :=
  ∃ d, m db = (a, set_dev d db) ∧ up (set_dev d db) ∧ dv_mem d = dv_mem (db_dev db) ∧ dev_frame (db_dev db) d.

Lemma set_dev_dev db d d' : set_dev d' (set_dev d db) = set_dev d' db.
Proof. by destruct db. Qed.

Lemma set_dev_id db : set_dev (db_dev db) db = db.
Proof. by destruct db. Qed.

Lemma yields_ret {A} (a : A) db : up db → yields (ret a) db a.
Proof. intros H. exists (db_dev db). rewrite set_dev_id. by split_and!. Qed.

Lemma yields_gets {A} (f : kvdb → A) db : up db → yields (gets f) db (f db).
Proof. intros H. exists (db_dev db). unfold gets. rewrite set_dev_id. by split_and!. Qed.

Lemma yields_bind {A B} (m : M A) (k : A → M B) db a b :
  yields m db a → (∀ d, up (set_dev d db) → pmem (set_dev d db) = pmem db → yields (k a) (set_dev d db) b) →
  yields (bind m k) db b.
Proof.
  intros (d & E & Hup & M & F) Hk.
  destruct (Hk d Hup (pmem_set_dev db d M)) as (d' & E' & Hup' & M' & F').
  rewrite set_dev_dev in E', Hup'. simpl in *. exists d'. unfold bind. rewrite E, E'.
  split_and!; [done | done | congruence | by etrans].
Qed.

Lemma yields_read db addr buf size :
  up db → 0 ≤ addr → 0 < size → addr + size ≤ pa_len (db_part db) →
  yields (flash_read addr buf size) db (FDB_NO_ERR, slice (pmem db) addr size ++ drop (Z.to_nat size) buf).
Proof.
  intros [Hr Hy] Ha Hs Hin. destruct (reads_flash db addr buf size Hr Ha Hs Hin) as (x & d & E & F & Hp & M & HR).
  rewrite (HR Hy) in E. exists d. split_and!; try done. split; [done |].
  unfold flash_healthy in *. by eapply dev_frame_healthy.
Qed.

(** A successful run on working flash has the effect of its whole script. *)
Lemma runs_up {A} (err : A → fdb_err_t) Q (m : M A) db :
  runs err Q m db → flash_healthy db →
  ∃ a db' ps, m db = (a, db') ∧ Q ps ∧ err a = FDB_NO_ERR ∧ db_frame db db' ∧ up db' ∧ pmem db' = prog ps (pmem db).
Proof.
  intros (a & db' & ps & k & E & HQ & F & M & Hok & Hh) Hy. pose proof (Hh Hy) as Ea.
  destruct (Hok Ea) as [Hk Hr]. exists a, db', ps. split_and!; try done.
  - split; [done |]. unfold flash_healthy. eapply dev_frame_healthy; [apply F | done].
  - by rewrite M, take_ge by lia.
Qed.
