(* ===== verification/KvdbRecord.v ===== *)
(** The records of the key-value database: their layout on flash, that [read_kv] reads back
    what [create_kv_blob] writes, and that a record that is not written completely never
    has the status of a valid one. *)

From S2P Require Import Prelude.
From S2P Require Import CText.
From S2P Require Import KvStore.
From S2P Require Import Nor.
From S2P Require Import Sfud.
From S2P Require Import Fal.
From S2P Require Import FdbUtils.
From S2P Require Import Kvdb.
From S2P Require Import KvdbFlash.

(** * The layout *)

(** The checksum of a block, started from [c]. *)
Definition crcs (c : Z) (l : list Z) : Z := fdb_calc_crc32 c l (blen l).

Definition rec_len (key value : list Z) : Z := KV_HDR_DATA_SIZE + blen key + blen value.
Definition rec_crc (key value : list Z) : Z :=
  crcs 0 ([blen key; 255; 255; 255] ++ le32 (blen value) ++ key ++ value).
Definition rec_hdr (st : Z) (key value : list Z) : list Z :=
  kv_hdr_bytes (status_byte st) KV_MAGIC_WORD (rec_len key value) (rec_crc key value) (blen key) (blen value).
Definition rec_bytes (st : Z) (key value : list Z) : list Z := rec_hdr st key value ++ key ++ value.

(** A key and a value that fit in a record. *)
Record rec_fits (key value : list Z) : Prop := {
  rf_key : 1 ≤ blen key < FDB_KV_NAME_MAX;
  rf_key8 : Forall is_u8 key;
  rf_val8 : Forall is_u8 value;
  rf_len : rec_len key value < 2147483648
}.

(** The record of a key and a value with status [st] at address [a] of the partition. *)
Definition rec_at (m : list Z) (a st : Z) (key value : list Z) : Prop :=
  0 ≤ a ∧ a + rec_len key value ≤ blen m ∧ slice m a (rec_len key value) = rec_bytes st key value.

Lemma length_rec_hdr st key value : length (rec_hdr st key value) = 24%nat.
Proof. reflexivity. Qed.
#[export] Hint Rewrite length_rec_hdr : len.

Lemma blen_rec_bytes st key value : blen (rec_bytes st key value) = rec_len key value.
Proof. unfold rec_bytes, rec_len, KV_HDR_DATA_SIZE. len. Qed.

(** ** Fields of the header *)

Lemma load_u32_app l v r a : blen l = a → is_u32 v → load_u32 (l ++ le32 v ++ r) a = v.
Proof.
  intros <- Hv. unfold load_u32, blen. rewrite Nat2Z.id, drop_app_length.
  rewrite take_app_length' by done. unfold le32. rewrite le_val_bytes, u32_small by done.
  change (256 ^ Z.of_nat 4) with 4294967296. apply Z.mod_small. unfold is_u32 in Hv. lia.
Qed.

Lemma crc_loop_app c a b : crc_loop c (a ++ b) = crc_loop (crc_loop c a) b.
Proof. revert c. induction a as [|x a IH]; intros c; [done |]. cbn [app crc_loop]. by rewrite IH. Qed.

Lemma crcs_app c a b : crcs (crcs c a) b = crcs c (a ++ b).
Proof.
  unfold crcs, fdb_calc_crc32. rewrite !take_ge by len. rewrite crc_loop_app.
  by rewrite Z.lxor_assoc, Z.lxor_nilpotent, Z.lxor_0_r.
Qed.

Lemma crcs_nil c : crcs c [] = c.
Proof.
  unfold crcs, fdb_calc_crc32. rewrite take_nil. cbn [crc_loop].
  by rewrite Z.lxor_assoc, Z.lxor_nilpotent, Z.lxor_0_r.
Qed.

(** Only the first [size] bytes count. *)
Lemma crc_prefix c l r size : blen l = size → fdb_calc_crc32 c (l ++ r) size = crcs c l.
Proof.
  intros <-. unfold crcs, fdb_calc_crc32, blen. rewrite Nat2Z.id, take_app_length, take_ge by lia. done.
Qed.

Lemma crc_exact c l size : blen l = size → fdb_calc_crc32 c l size = crcs c l.
Proof. by intros <-. Qed.

Lemma crcs_u32 c l : is_u32 c → Forall is_u8 l → is_u32 (crcs c l).
Proof.
  intros Hc Hl. unfold crcs. rewrite fdb_crc_foldl by done.
  apply lxor_u32; [|unfold is_u32; lia]. apply foldl_crc_range; [|done]. apply lxor_u32; [done | unfold is_u32; lia].
Qed.

Lemma le32_u8 v : Forall is_u8 (le32 v).
Proof. apply le_bytes_u8. Qed.

Lemma rec_crc_u32 key value : rec_fits key value → is_u32 (rec_crc key value).
Proof.
  intros []. unfold rec_crc. apply crcs_u32; [unfold is_u32; lia |].
  unfold FDB_KV_NAME_MAX in *.
  repeat apply Forall_app_2; try done; [|apply le32_u8]. repeat constructor; unfold is_u8; lia.
Qed.

Lemma rec_crc_eq key value :
  rec_crc key value = crcs (crcs (crcs 0 [blen key; 255; 255; 255]) (le32 (blen value))) (key ++ value).
Proof. unfold rec_crc. by rewrite !crcs_app, app_assoc. Qed.

Section fields.
Context (st : Z) (key value : list Z) (Hfit : rec_fits key value).

Lemma hdr_eq :
  rec_hdr st key value
  = [status_byte st; 255; 255; 255] ++ le32 KV_MAGIC_WORD ++ le32 (rec_len key value) ++ le32 (rec_crc key value)
      ++ [blen key; 255; 255; 255] ++ le32 (blen value).
Proof using Hfit.
  destruct Hfit. unfold rec_hdr, kv_hdr_bytes. unfold FDB_KV_NAME_MAX in *.
  by rewrite u8_small by (unfold is_u8; lia).
Qed.

Lemma hdr_fields :
  load_u32 (rec_hdr st key value) 8 = rec_len key value
  ∧ load_u32 (rec_hdr st key value) 12 = rec_crc key value
  ∧ nthZ (rec_hdr st key value) 16 = blen key
  ∧ load_u32 (rec_hdr st key value) 20 = blen value
  ∧ drop 16 (rec_hdr st key value) = [blen key; 255; 255; 255] ++ le32 (blen value)
  ∧ drop 20 (rec_hdr st key value) = le32 (blen value).
Proof using Hfit.
  pose proof Hfit as []. unfold rec_len, KV_HDR_DATA_SIZE, FDB_KV_NAME_MAX in *.
  pose proof (blen_nonneg value).
  rewrite hdr_eq. set (l0 := [status_byte st; 255; 255; 255]). set (l4 := [blen key; 255; 255; 255]).
  split_and!.
  - rewrite (app_assoc l0). apply load_u32_app; [done | unfold is_u32, rec_len, KV_HDR_DATA_SIZE in *; lia].
  - rewrite !(app_assoc l0), (app_assoc (l0 ++ _)). apply load_u32_app; [done | by apply rec_crc_u32].
  - done.
  - rewrite <-(app_nil_r (le32 (blen value))), !(app_assoc l0), (app_assoc (l0 ++ _)), (app_assoc ((l0 ++ _) ++ _)), (app_assoc (((l0 ++ _) ++ _) ++ _)).
    apply load_u32_app; [done | unfold is_u32; lia].
  - done.
  - done.
Qed.
End fields.

(** * Reading a record *)

Lemma length_stack junk n : length (stack junk n) = n.
Proof. unfold stack. len. Qed.
#[export] Hint Rewrite length_stack : len.

Lemma slice_split m a n k :
  0 ≤ a → 0 ≤ k ≤ n → slice m a n = slice m a k ++ slice m (a + k) (n - k).
Proof.
  intros Ha Hk. unfold slice. replace (Z.to_nat n) with (Z.to_nat k + Z.to_nat (n - k))%nat by lia.
  rewrite <-take_take_drop. f_equal. rewrite drop_drop. do 2 f_equal. lia.
Qed.

(** The checksum loop is the checksum of the bytes it reads. *)
Lemma crc_data_loop_spec fuel buf addr len n crc db :
  up db → blen buf = 32 → 0 ≤ addr → 0 ≤ len ≤ n → addr + 24 + n ≤ pa_len (db_part db) → n - len ≤ Z.of_nat fuel →
  yields (crc_data_loop fuel buf addr len n crc) db (crcs crc (slice (pmem db) (addr + 24 + len) (n - len))).
Proof.
  revert buf len crc db. induction fuel as [|fuel IH]; intros buf len crc db Hup Hb Ha Hl Hin Hf; cbn [crc_data_loop].
  { replace (n - len) with 0 by lia. rewrite crcs_nil. by apply yields_ret. }
  destruct (Z.ltb_spec len n) as [Hlt|Hge]; cbn [negb].
  2: { replace (n - len) with 0 by lia. rewrite crcs_nil. by apply yields_ret. }
  rewrite WG_ALIGN_id. unfold KV_HDR_DATA_SIZE. set (size := if len + 32 <? n then 32 else n - len).
  assert (Hs : 0 < size ≤ 32 ∧ size ≤ n - len) by (unfold size; destruct (Z.ltb_spec (len + 32) n); lia).
  pose proof (pmem_blen db (proj1 Hup)).
  eapply yields_bind; [apply yields_read; [done | lia | lia | lia] |]. intros d Hup' Hm. cbv beta iota.
  rewrite (slice_split _ (addr + 24 + len) (n - len) size) by lia.
  rewrite crc_prefix, <-crcs_app by (apply slice_blen; lia).
  replace (addr + 24 + len + size) with (addr + 24 + (len + size)) by lia.
  replace (n - len - size) with (n - (len + size)) by lia. rewrite <-Hm.
  apply IH; try done; try lia. rewrite Hm. unfold slice. len.
Qed.

(** The object that [read_kv] fills in for a record; [name] is the old contents of its name
    buffer. *)
Definition rec_obj (st : Z) (key value name : list Z) (a : Z) : fdb_kv :=
  mk_kv st true (blen key) (rec_len key value) (blen value) (key ++ 0 :: drop (S (length key)) name) a
    (a + KV_HDR_DATA_SIZE + blen key).

Lemma rec_at_parts m a st key value :
  rec_at m a st key value →
  slice m a 24 = rec_hdr st key value ∧ slice m (a + 24) (blen key) = key
  ∧ slice m (a + 24 + blen key) (blen value) = value
  ∧ slice m (a + 24) (rec_len key value - 24) = key ++ value.
Proof.
  intros (Ha & Hin & E). unfold rec_len, KV_HDR_DATA_SIZE in *.
  pose proof (blen_nonneg key). pose proof (blen_nonneg value).
  assert (Hsl : ∀ b k, 0 ≤ b → 0 ≤ k → b + k ≤ 24 + blen key + blen value →
            slice m (a + b) k = slice (rec_bytes st key value) b k).
  { intros b k ? ? ?. rewrite <-E. rewrite slice_slice by lia. done. }
  unfold rec_bytes in Hsl. split_and!.
  - rewrite <-(Z.add_0_r a), Hsl by lia. by apply slice_app_l.
  - rewrite Hsl by lia. rewrite app_assoc. unfold slice. rewrite drop_app_le by len.
    rewrite (drop_app_length' (rec_hdr st key value)) by done. apply take_app_length'. len.
  - rewrite <-Z.add_assoc, Hsl by lia. rewrite app_assoc. apply slice_app_r; len.
  - rewrite Hsl by lia. apply slice_app_r; len.
Qed.

Lemma read_kv_rec junk kv db st key value :
  up db → rec_fits key value → 0 ≤ st < FDB_KV_STATUS_NUM → rec_at (pmem db) (kv_start kv) st key value →
  rec_len key value ≤ db_max_size db → blen (kv_name kv) = FDB_KV_NAME_MAX →
  yields (read_kv junk kv) db (FDB_NO_ERR, rec_obj st key value (kv_name kv) (kv_start kv)).
Proof.
  intros Hup Hfit Hst Hrec Hmax Hname. pose proof (pmem_blen db (proj1 Hup)) as Hpl.
  destruct (rec_at_parts _ _ _ _ _ Hrec) as (Ph & Pk & _ & Pkv). pose proof Hrec as (Ha & Hin & _).
  destruct (hdr_fields st key value Hfit) as (Flen & Fcrc & Fnl & Fvl & D16 & D20).
  pose proof Hfit as [[Hk1 Hk2] _ _ Hl]. pose proof (po_size _ _ (proj1 Hup)). pose proof (po_in _ _ (proj1 Hup)).
  pose proof (po_off _ _ (proj1 Hup)). pose proof (blen_nonneg value).
  assert (Hlen : rec_len key value = 24 + blen key + blen value) by done.
  unfold FDB_KV_NAME_MAX, FDB_KV_STATUS_NUM in *. unfold read_kv.
  eapply yields_bind; [by apply yields_gets |]. intros d1 Hup1 M1. unfold KV_HDR_DATA_SIZE.
  eapply yields_bind; [apply yields_read; [done | lia | lia | simpl; lia] |]. intros d2 Hup2 M2. rewrite set_dev_dev in *.
  cbv beta iota zeta. rewrite M1, Ph, drop_ge, app_nil_r by len.
  rewrite Flen, Fcrc, Fnl, Fvl.
  assert (_fdb_get_status (rec_hdr st key value) FDB_KV_STATUS_NUM = st) as ->
    by (apply get_status_byte; unfold FDB_KV_STATUS_NUM; (lia || done)).
  destruct (Z.eqb_spec (rec_len key value) 4294967295); [lia |].
  destruct (Z.ltb_spec (db_max_size db) (rec_len key value)); [lia |].
  destruct (Z.ltb_spec (rec_len key value) 24); [lia |]. cbn [orb].
  eapply yields_bind.
  { apply crc_data_loop_spec; [done | len | done | lia | simpl; lia | lia]. }
  intros d3 Hup3 M3. rewrite set_dev_dev in *. rewrite M2, M1 in M3. rewrite M2, M1, Z.add_0_r, Z.sub_0_r, Pkv.
  rewrite D16, D20. rewrite (crc_prefix 0 [blen key; 255; 255; 255]) by done.
  rewrite (crc_exact _ (le32 (blen value))), <-rec_crc_eq, Z.eqb_refl by done. cbn [negb].
  rewrite u32_small by (unfold is_u32; lia). rewrite WG_ALIGN_id.
  eapply yields_bind; [apply yields_read; [done | lia | lia | simpl; lia] |]. intros d4 Hup4 M4. rewrite set_dev_dev in *.
  rewrite M3, Pk. destruct (Z.leb_spec FDB_KV_NAME_MAX (blen key)); [unfold FDB_KV_NAME_MAX in *; lia |].
  rewrite u32_small by (unfold is_u32; lia).
  assert (<[Z.to_nat (blen key):=0]> (key ++ drop (Z.to_nat (blen key)) (kv_name kv))
          = key ++ 0 :: drop (S (length key)) (kv_name kv)) as ->.
  { unfold blen. rewrite Nat2Z.id. rewrite insert_app_r_alt by lia. rewrite Nat.sub_diag. f_equal.
    destruct (drop (length key) (kv_name kv)) as [|x r] eqn:E.
    - apply (f_equal length) in E. rewrite length_drop in E. simpl in E. len.
    - simpl. f_equal. rewrite <-Nat.add_1_r, <-drop_drop, E. done. }
  by apply yields_ret.
Qed.

(** * Writing a record *)

(** Operations on the caches do not touch the flash. *)
Definition stills {A} (m : M A) : Prop := ∀ db, ∃ a db', m db = (a, db') ∧ still db db'.

#[export] Instance still_preorder : PreOrder still.
Proof.
  split; [by intros db; split_and! |]. intros d1 d2 d3 (? & ? & ? & ?) (? & ? & ? & ?).
  split_and!; congruence.
Qed.

Lemma stills_ret {A} (a : A) : stills (ret a).
Proof. intros db. by exists a, db. Qed.

Lemma stills_bind {A B} (m : M A) (k : A → M B) : stills m → (∀ a, stills (k a)) → stills (bind m k).
Proof.
  intros Hm Hk db. destruct (Hm db) as (a & db1 & E1 & S1). destruct (Hk a db1) as (b & db2 & E2 & S2).
  exists b, db2. unfold bind. rewrite E1. split; [done | by etrans].
Qed.

Lemma stills_when b m : stills m → stills (when b m).
Proof. destruct b; [done |]. intros _. apply stills_ret. Qed.

Lemma stills_modify f : (∀ db, still db (f db)) → stills (modify f).
Proof. intros H db. by exists tt, (f db). Qed.

Lemma stills_update_kv_cache name n addr : stills (update_kv_cache name n addr).
Proof. apply stills_modify. intros db. by split_and!. Qed.

Lemma stills_modify_sector_cache addr f : stills (modify_sector_cache addr f).
Proof. apply stills_modify. intros db. destruct (list_find _ _) as [[i s]|]; by split_and!. Qed.

Lemma stills_empty_addr_cache sec addr : stills (update_sector_empty_addr_cache sec addr).
Proof. apply stills_modify_sector_cache. Qed.

Lemma stills_store_cache sec s : stills (update_sector_status_store_cache sec s).
Proof. apply stills_modify_sector_cache. Qed.

Lemma stills_gets {A} (f : kvdb → A) : stills (gets f).
Proof. intros db. by exists (f db), db. Qed.

Lemma stills_on_err r m : r ≠ FDB_NO_ERR → on_no_err r m = ret r.
Proof. intros H. unfold on_no_err, no_err. by rewrite bool_decide_false. Qed.

Lemma on_no_err_ok m : on_no_err FDB_NO_ERR m = m.
Proof. done. Qed.

#[export] Hint Resolve stills_ret stills_bind stills_when stills_update_kv_cache stills_empty_addr_cache
  stills_store_cache stills_modify_sector_cache stills_gets : still.

(** Such operations that return [b]. *)
Definition keeps {B} (b : B) (m : M B) : Prop := ∀ db, ∃ db', m db = (b, db') ∧ still db db'.

Lemma keeps_ret {B} (b : B) : keeps b (ret b).
Proof. intros db. by exists db. Qed.

Lemma keeps_bind {A B} (b : B) (m : M A) (k : A → M B) : stills m → (∀ a, keeps b (k a)) → keeps b (bind m k).
Proof.
  intros Hm Hk db. destruct (Hm db) as (a & db1 & E1 & S1). destruct (Hk a db1) as (db2 & E2 & S2).
  exists db2. unfold bind. rewrite E1. split; [done | by etrans].
Qed.

Lemma keeps_still {A B} (e1 : A → fdb_err_t) (e2 : B → fdb_err_t) (a : A) (b : B) (m : M B) :
  keeps b m → e2 b = e1 a → ∀ db, ∃ b db2, m db = (b, db2) ∧ still db db2 ∧ (e2 b = FDB_NO_ERR ↔ e1 a = FDB_NO_ERR).
Proof. intros Hm E db. destruct (Hm db) as (db2 & Em & S). exists b, db2. by rewrite E. Qed.

(** ** The scripts *)

(** The status byte of a sector's header, for [update_sec_status]. *)
Definition sec_script (sec_addr : Z) (ps : script) : Prop :=
  ps = [] ∨ ∃ s, (s = FDB_SECTOR_STORE_USING ∨ s = FDB_SECTOR_STORE_FULL) ∧ ps = [(Z.to_nat sec_addr, status_byte s)].

(** The writes of a record: its status is marked before and after the contents. *)
Definition rec_body (key value : list Z) : list Z := drop 4 (rec_bytes 0 key value).
Definition rec_script (a : Z) (key value : list Z) : script :=
  (Z.to_nat a, status_byte FDB_KV_PRE_WRITE) :: bytes_at (a + 4) (rec_body key value)
    ++ [(Z.to_nat a, status_byte FDB_KV_WRITE)].

Lemma runs_update_sec_status junk sector n full db :
  flash_ready db → 0 ≤ se_addr sector < pa_len (db_part db) →
  runs fst (sec_script (se_addr sector)) (update_sec_status junk sector n full) db.
Proof.
  intros Hr Ha. unfold update_sec_status.
  assert (Hw : ∀ s (b : bool), (s = FDB_SECTOR_STORE_USING ∨ s = FDB_SECTOR_STORE_FULL) →
    runs fst (sec_script (se_addr sector))
      (result <- write_status (se_addr sector) (stack junk 1) FDB_SECTOR_STORE_STATUS_NUM s;;
       update_sector_status_store_cache (se_addr sector) s;;; ret (result, b))%kv db).
  { intros s b Hs. eapply runs_still.
    - eapply runs_mono; [apply runs_write_status; [done | done | | | len]|].
      + unfold FDB_SECTOR_STORE_USING, FDB_SECTOR_STORE_FULL, FDB_SECTOR_STORE_STATUS_NUM in *. lia.
      + by vm_compute.
      + intros ps <-. right. by exists s.
    - intros r db1. destruct (stills_store_cache (se_addr sector) s db1) as (u & db2 & E & S).
      exists (r, b), db2. unfold bind. rewrite E. by split_and!. }
  assert (Hn : ∀ b : bool, runs fst (sec_script (se_addr sector)) (ret (FDB_NO_ERR, b)) db).
  { intros b. eapply runs_mono; [by apply runs_ret |]. intros ps <-. by left. }
  destruct (se_store sector =? FDB_SECTOR_STORE_EMPTY); [apply Hw; by left |].
  destruct (se_store sector =? FDB_SECTOR_STORE_USING); [|apply Hn].
  destruct (_ || _); [apply Hw; by right | apply Hn].
Qed.

Lemma runs_write_kv_hdr db a h :
  flash_ready db → 0 ≤ a → a + 24 ≤ pa_len (db_part db) → length h = 24%nat →
  runs id (eq ((Z.to_nat a, status_byte FDB_KV_PRE_WRITE) :: bytes_at (a + 4) (drop 4 h))) (write_kv_hdr a h) db.
Proof.
  intros Hr Ha Hin Hh. eapply runs_mono.
  - unfold write_kv_hdr, KV_MAGIC_OFFSET, KV_HDR_DATA_SIZE.
    eapply (runs_bind id id _ (eq (bytes_at (a + 4) (take (Z.to_nat (24 - 4)) (drop 4 h))))).
    + apply runs_write_status; [done | lia | by vm_compute | by vm_compute | lia].
    + by eexists.
    + intros r db1 E F Hr1 Hok. unfold id in Hok. subst r. change (negb (no_err FDB_NO_ERR)) with false. cbv iota.
      rewrite <-(df_part _ _ F) in Hin. apply runs_write; [done | lia | lia | lia | len].
    + intros r db1 Hne. exists r, db1. unfold no_err. by rewrite bool_decide_false.
  - intros ps (ps1 & ps2 & -> & <- & <-). cbn [app]. do 2 f_equal. symmetry. apply take_ge. len.
Qed.

(** The header and the checksum that [create_kv_blob] computes are those of the record. *)
Lemma kv_crc_rec key value len :
  rec_fits key (take (Z.to_nat len) value) → 0 ≤ len ≤ blen value →
  let hdr := kv_hdr_bytes FDB_BYTE_ERASED KV_MAGIC_WORD (KV_HDR_DATA_SIZE + blen key + len) in
  kv_crc (hdr 0 (blen key) len) key value (blen key) len = rec_crc key (take (Z.to_nat len) value)
  ∧ drop 4 (hdr (rec_crc key (take (Z.to_nat len) value)) (blen key) len) = drop 4 (rec_hdr 0 key (take (Z.to_nat len) value)).
Proof.
  intros Hfit Hlen hdr. pose proof (rf_key _ _ Hfit). unfold FDB_KV_NAME_MAX in *.
  assert (blen (take (Z.to_nat len) value) = len) as Hv by len.
  split.
  - unfold kv_crc. rewrite !WG_ALIGN_id, !Z.sub_diag. cbn [Z.to_nat Nat.iter]. rewrite rec_crc_eq, <-crcs_app, Hv.
    assert (drop 16 (hdr 0 (blen key) len) = [blen key; 255; 255; 255] ++ le32 len) as ->
      by (unfold hdr, kv_hdr_bytes; by rewrite u8_small by (unfold is_u8; lia)).
    assert (drop 20 (hdr 0 (blen key) len) = le32 len) as -> by done.
    rewrite (crc_prefix 0 [blen key; 255; 255; 255]) by done. rewrite (crc_exact _ (le32 len)) by done.
    fold (crcs (crcs (crcs 0 [blen key; 255; 255; 255]) (le32 len)) key).
    set (c := crcs _ key). rewrite <-(take_drop (Z.to_nat len) value) at 1. by apply crc_prefix.
  - unfold hdr, rec_hdr, rec_len, kv_hdr_bytes. by rewrite Hv.
Qed.

Lemma seqs_app l k ps : seqs (eq l) (eq k) ps → l ++ k = ps.
Proof. by intros (? & ? & -> & <- & <-). Qed.

Lemma bind_ret {A B} (a : A) (k : A → M B) : bind (ret a) k = k a.
Proof. reflexivity. Qed.

(** Once a write has failed, the rest of [write_kv] does nothing. *)
Ltac err_path :=
  repeat (rewrite stills_on_err by done; rewrite bind_ret); unfold no_err; rewrite bool_decide_false by done;
  eexists _, _; split; [reflexivity | by split].

(** The writes of a record, after those of its sector's status. *)
Lemma runs_write_kv junk sector a key value len db :
  flash_ready db → rec_fits key (take (Z.to_nat len) value) → 0 ≤ len ≤ blen value →
  0 ≤ se_addr sector < pa_len (db_part db) → 0 ≤ a →
  a + rec_len key (take (Z.to_nat len) value) ≤ pa_len (db_part db) →
  runs id (seqs (sec_script (se_addr sector)) (eq (rec_script a key (take (Z.to_nat len) value))))
    (write_kv junk sector a key value (blen key) len) db.
Proof.
  intros Hr Hfit Hlen Hsec Ha Hin. destruct (kv_crc_rec key value len Hfit Hlen) as [Ecrc Ehdr].
  pose proof Hfit as [[Hk1 Hk2] _ _ Hl]. unfold FDB_KV_NAME_MAX in *.
  set (v := take (Z.to_nat len) value) in *. assert (blen v = len) as Hv by (unfold v; len).
  unfold rec_len in *. rewrite Hv in *. unfold KV_HDR_DATA_SIZE in *.
  unfold write_kv. rewrite !WG_ALIGN_id. unfold KV_HDR_DATA_SIZE. rewrite !u32_small by (unfold is_u32; lia).
  rewrite Ecrc. clear Ecrc. set (h := kv_hdr_bytes _ _ _ (rec_crc _ _) _ _) in *. pose proof (blen_nonneg v).
  assert (Hps : rec_script a key v
    = (((Z.to_nat a, status_byte FDB_KV_PRE_WRITE) :: bytes_at (a + 4) (drop 4 h)) ++ bytes_at (a + 24) key
       ++ bytes_at (a + 24 + blen key) v ++ [(Z.to_nat a, status_byte FDB_KV_WRITE)])).
  { unfold rec_script, rec_body, rec_bytes. rewrite drop_app_le by len. rewrite <-Ehdr. fold h.
    assert (blen (drop 4 h) = 20) as Hh by done. rewrite !bytes_at_app by lia. rewrite Hh.
    replace (a + 4 + 20) with (a + 24) by lia. cbn [app]. by rewrite <-!app_assoc. }
  rewrite Hps. eapply runs_bind; [by apply runs_update_sec_status | by eexists | |].
  2: { intros [r full] db1 Hne. simpl in Hne. err_path. }
  intros [r full] db1 E1 F1 Hr1 Hok. simpl in Hok. subst r. rewrite on_no_err_ok. rewrite <-(df_part _ _ F1) in Hin.
  eapply runs_mono; [|intros ps Hq; exact (seqs_app _ _ _ Hq)].
  eapply runs_bind; [apply runs_write_kv_hdr; [done | done | lia | done] | by eexists | |].
  2: { intros r db2 Hne. err_path. }
  intros r db2 E2 F2 Hr2 Hok. unfold id in Hok. subst r. rewrite on_no_err_ok. rewrite <-(df_part _ _ F2) in Hin.
  eapply runs_mono; [|intros ps Hq; exact (seqs_app _ _ _ Hq)].
  eapply runs_bind; [| by eexists | |].
  { eapply (runs_still id id).
    - apply runs_write_align; [done | lia | lia | lia | lia | apply take_ge; len].
    - intros r. apply (keeps_still _ _ _ r); [|done]. do 2 (apply keeps_bind; [eauto with still |]; intros _). apply keeps_ret. }
  2: { intros r db3 Hne. err_path. }
  intros r db3 E3 F3 Hr3 Hok. unfold id in Hok. subst r. rewrite on_no_err_ok. rewrite <-(df_part _ _ F3) in Hin.
  eapply runs_mono; [|intros ps Hq; exact (seqs_app _ _ _ Hq)].
  eapply runs_bind; [apply runs_write_align; [done | lia | lia | lia | lia | done] | by eexists | |].
  2: { intros r db4 Hne. err_path. }
  intros r db4 E4 F4 Hr4 Hok. unfold id in Hok. subst r. rewrite on_no_err_ok. rewrite <-(df_part _ _ F4) in Hin.
  eapply (runs_still id id).
  - apply runs_write_status; [done | lia | by vm_compute | by vm_compute | exact (Nat.lt_0_succ 23)].
  - intros r db5. destruct (no_err r && full) eqn:E; eexists r, _; by split_and!.
Qed.

(** ** Prefixes of a record's writes *)

Definition erased (m : list Z) (a n : Z) : Prop := ∀ i : nat, a ≤ Z.of_nat i < a + n → m !! i = Some 255.

Lemma status_byte_u8 st : 0 ≤ st → is_u8 (status_byte st).
Proof.
  intros Hst. unfold status_byte, is_u8. rewrite Z.shiftr_div_pow2 by lia.
  assert (1 ≤ 2 ^ st) by (apply (Z.pow_le_mono_r 2 0 st); lia).
  split; [apply Z.div_pos; lia | apply Z.div_lt_upper_bound; lia].
Qed.

Lemma rec_bytes_u8 st key value : 0 ≤ st → rec_fits key value → Forall is_u8 (rec_bytes st key value).
Proof.
  intros Hst Hfit. pose proof Hfit as [[Hk1 Hk2] H1 H2 _]. unfold rec_bytes. rewrite hdr_eq by done.
  unfold FDB_KV_NAME_MAX in *.
  repeat apply Forall_app_2; try done; try apply le32_u8; repeat constructor; try (unfold is_u8; lia).
  all: by apply status_byte_u8.
Qed.

(** Records with different status differ in their first byte only. *)
Lemma rec_bytes_lookup st key value (i : nat) :
  rec_bytes st key value !! i
  = if decide (i = 0%nat) then Some (status_byte st)
    else if decide (i < 4)%nat then Some 255 else rec_body key value !! (i - 4)%nat.
Proof.
  unfold rec_body. rewrite lookup_drop.
  destruct i as [|[|[|[|i]]]]; try done. rewrite decide_False, decide_False by lia.
  by replace (4 + (S (S (S (S i))) - 4))%nat with (S (S (S (S i)))) by lia.
Qed.

Lemma blen_rec_body key value : blen (rec_body key value) = rec_len key value - 4.
Proof.
  unfold rec_body. pose proof (blen_rec_bytes 0 key value). unfold rec_len, KV_HDR_DATA_SIZE in *. len.
Qed.

Lemma rec_body_u8 key value i b : rec_fits key value → rec_body key value !! i = Some b → is_u8 b.
Proof.
  intros Hfit Hb. unfold rec_body in Hb. rewrite lookup_drop in Hb.
  eapply Forall_lookup_1; [by apply (rec_bytes_u8 0) | done].
Qed.

Lemma elem_of_take_elem {A} (x : A) k l : x ∈ take k l → x ∈ l.
Proof. intros Hx. rewrite <-(take_drop k l). apply elem_of_app. by left. Qed.

Lemma rec_script_elem a key value p :
  0 ≤ a → p ∈ rec_script a key value → a ≤ Z.of_nat p.1 < a + rec_len key value.
Proof.
  intros Ha Hp. pose proof (blen_nonneg key). pose proof (blen_nonneg value). pose proof (blen_rec_body key value).
  assert (Hlen : rec_len key value = 24 + blen key + blen value) by done.
  unfold rec_script in Hp. apply elem_of_cons in Hp as [-> | Hp]; [simpl; lia |].
  apply elem_of_app in Hp as [Hp | Hp]; [apply bytes_at_elem in Hp; lia |].
  apply list_elem_of_singleton in Hp as ->. simpl. lia.
Qed.

Section torn.
Context (m : list Z) (a : Z) (key value : list Z).
Context (Hfit : rec_fits key value) (Ha : 0 ≤ a) (Hin : a + rec_len key value ≤ blen m).
Context (Her : erased m a (rec_len key value)).

(** The block after [n] bytes of the body have been written. *)
Definition torn_mem (n : nat) : list Z :=
  nor_program (alter (λ old, Z.land old (status_byte FDB_KV_PRE_WRITE)) (Z.to_nat a) m) (Z.to_nat (a + 4))
    (take n (rec_body key value)).

Lemma torn_status n : torn_mem n !! Z.to_nat a = Some (status_byte FDB_KV_PRE_WRITE).
Proof using Ha Hin Her.
  unfold torn_mem. rewrite nor_program_lookup, decide_False by lia. rewrite list_lookup_alter_eq.
  rewrite Her; [done |]. unfold rec_len, KV_HDR_DATA_SIZE in *. pose proof (blen_nonneg key). pose proof (blen_nonneg value). lia.
Qed.

Lemma torn_complete n :
  (length (rec_body key value) ≤ n)%nat →
  rec_at (alter (λ old, Z.land old (status_byte FDB_KV_WRITE)) (Z.to_nat a) (torn_mem n)) a FDB_KV_WRITE key value.
Proof using Hfit Ha Hin Her.
  intros Hn. pose proof (blen_nonneg key). pose proof (blen_nonneg value). pose proof (blen_rec_body key value).
  assert (Hlen : rec_len key value = 24 + blen key + blen value) by done.
  split_and!; [done | unfold torn_mem, blen in *; rewrite length_alter, nor_program_length, length_alter; lia |].
  apply list_eq. intros i. destruct (decide (Z.of_nat i < rec_len key value)) as [Hi|Hi].
  2: { rewrite !lookup_ge_None_2; [done | |].
       - pose proof (blen_rec_bytes FDB_KV_WRITE key value). len.
       - unfold slice. rewrite length_take. lia. }
  rewrite slice_lookup, rec_bytes_lookup by done. destruct (decide (i = 0%nat)) as [-> | Hi0].
  - rewrite Nat.add_0_r, list_lookup_alter_eq, torn_status. done.
  - rewrite list_lookup_alter_ne by lia. unfold torn_mem. rewrite take_ge, nor_program_lookup by done.
    assert (Hm : alter (λ old, Z.land old (status_byte FDB_KV_PRE_WRITE)) (Z.to_nat a) m !! (Z.to_nat a + i)%nat = Some 255).
    { rewrite list_lookup_alter_ne by lia. apply Her. lia. }
    destruct (decide (i < 4)%nat) as [H4|H4].
    + by rewrite decide_False by lia.
    + rewrite decide_True by len. rewrite Hm. simpl.
      replace (Z.to_nat a + i - Z.to_nat (a + 4))%nat with (i - 4)%nat by lia.
      destruct (rec_body key value !! (i - 4)%nat) as [b|] eqn:E; [|done]. simpl.
      by rewrite land_255 by (by eapply rec_body_u8).
Qed.

(** A prefix of the writes of a record on erased flash. *)
Lemma rec_script_prefix k :
  let m' := prog (take k (rec_script a key value)) m in
  (rec_at m' a FDB_KV_WRITE key value
   ∨ (k < length (rec_script a key value))%nat
     ∧ (m' !! Z.to_nat a = Some (status_byte 0) ∨ m' !! Z.to_nat a = Some (status_byte FDB_KV_PRE_WRITE)))
  ∧ ((length (rec_script a key value) ≤ k)%nat → rec_at m' a FDB_KV_WRITE key value)
  ∧ ∀ i : nat, ¬ a ≤ Z.of_nat i < a + rec_len key value → m' !! i = m !! i.
Proof using Hfit Ha Hin Her.
  intros m'. pose proof (blen_rec_body key value). pose proof (blen_nonneg key). pose proof (blen_nonneg value).
  assert (Hlen : rec_len key value = 24 + blen key + blen value) by done.
  assert (Hl : length (rec_script a key value) = S (S (length (rec_body key value)))).
  { unfold rec_script. cbn [length]. rewrite length_app, length_bytes_at. simpl. lia. }
  assert (Hsplit : ∀ j, (j ≤ length (rec_body key value))%nat → prog (take (S j) (rec_script a key value)) m = torn_mem j).
  { intros j Hj. unfold rec_script. cbn [take]. rewrite take_app_le by (rewrite length_bytes_at; lia).
    rewrite bytes_at_take by lia. apply (prog_bytes_at (a + 4)). lia. }
  assert (Hfull : (length (rec_script a key value) ≤ k)%nat → rec_at m' a FDB_KV_WRITE key value).
  { intros Hk. unfold m'. rewrite take_ge by done. unfold rec_script. rewrite app_comm_cons, prog_app.
    rewrite <-(take_ge (bytes_at (a + 4) (rec_body key value)) (length (rec_body key value))) by (rewrite length_bytes_at; lia).
    rewrite bytes_at_take by lia.
    assert (prog ((Z.to_nat a, status_byte FDB_KV_PRE_WRITE) :: bytes_at (a + 4) (take (length (rec_body key value)) (rec_body key value))) m
            = torn_mem (length (rec_body key value))) as -> by (apply (prog_bytes_at (a + 4)); lia).
    by apply torn_complete. }
  split_and!; [|done |].
  - destruct (Nat.le_gt_cases (length (rec_script a key value)) k) as [Hk|Hk]; [by left; apply Hfull |].
    right. split; [done |]. destruct k as [|j]; unfold m'.
    + left. apply Her. lia.
    + right. rewrite Hsplit by lia. apply torn_status.
  - intros i Hi. apply prog_lookup_ne. intros p Hp. apply elem_of_take_elem, rec_script_elem in Hp; [lia | done].
Qed.
End torn.

(** * Creating a record *)

(** The hypotheses under which [create_kv_blob] writes at [a]: the space in front of it is
    erased, and the record fits in the sector. *)
Record create_pre (db : kvdb) (sector : kvdb_sec_info) (a : Z) (key v : list Z) : Prop := {
  cp_fits : rec_fits key v;
  cp_addr : se_empty_kv sector = a;
  cp_sec : 0 ≤ se_addr sector;
  cp_off : se_addr sector + SECTOR_HDR_DATA_SIZE ≤ a;
  cp_in : a + rec_len key v ≤ pa_len (db_part db);
  cp_size : rec_len key v ≤ db_sec_size db - SECTOR_HDR_DATA_SIZE;
  cp_sec_u32 : db_sec_size db < 4294967296;
  cp_erased : erased (pmem db) a (rec_len key v)
}.

Lemma create_kv_blob_write junk kv0 sec0 sector a key value len db :
  flash_ready db → 0 ≤ len ≤ blen value → create_pre db sector a key (take (Z.to_nat len) value) →
  create_kv_blob junk kv0 sec0 sector key value len db
  = (let '(r, db') := write_kv junk sector a key value (blen key) len db in ((r, sector), db')).
Proof.
  intros Hr Hlen []. destruct cp_fits0 as [[Hk1 Hk2] _ _ Hl]. pose proof Hr as [].
  unfold rec_len, KV_HDR_DATA_SIZE, SECTOR_HDR_DATA_SIZE, FDB_KV_NAME_MAX in *.
  assert (blen (take (Z.to_nat len) value) = len) as Hv by len. rewrite Hv in *.
  unfold create_kv_blob, bind, gets. unfold FDB_KV_NAME_MAX, KV_HDR_DATA_SIZE, SECTOR_HDR_DATA_SIZE.
  destruct (Z.ltb_spec 64 (blen key)); [lia |].
  rewrite (u8_small (blen key)) by (unfold is_u8; lia). rewrite (u32_small len) by (unfold is_u32; lia).
  rewrite !WG_ALIGN_id. rewrite !u32_small by (unfold is_u32; lia).
  destruct (Z.ltb_spec (db_sec_size db - 16) (24 + blen key + len)); [lia |].
  rewrite cp_addr0. unfold FAILED_ADDR. destruct (Z.eqb_spec a 4294967295); [lia |]. cbn [negb].
  unfold ret at 1. cbv beta iota. destruct (Z.eqb_spec a 4294967295); [lia |].
  by destruct (write_kv _ _ _ _ _ _ _ db).
Qed.

Lemma take_seqs k (ps1 ps2 : script) m :
  prog (take k (ps1 ++ ps2)) m = prog (take (k - length ps1) ps2) (prog (take k ps1) m).
Proof. by rewrite take_app, prog_app. Qed.

(** The status byte of the sector is the only byte outside the record that changes. *)
Lemma sec_script_elem sec ps p : sec_script sec ps → p ∈ ps → p.1 = Z.to_nat sec.
Proof.
  intros [-> | (s & _ & ->)] Hp; [by apply not_elem_of_nil in Hp |].
  by apply list_elem_of_singleton in Hp as ->.
Qed.

Lemma create_effect m sec a key v ps k :
  rec_fits key v → 0 ≤ sec < a → a + rec_len key v ≤ blen m → erased m a (rec_len key v) →
  seqs (sec_script sec) (eq (rec_script a key v)) ps →
  let m' := prog (take k ps) m in
  (rec_at m' a FDB_KV_WRITE key v
   ∨ (k < length ps)%nat
     ∧ (m' !! Z.to_nat a = Some (status_byte 0) ∨ m' !! Z.to_nat a = Some (status_byte FDB_KV_PRE_WRITE)))
  ∧ ((length ps ≤ k)%nat → rec_at m' a FDB_KV_WRITE key v)
  ∧ ∀ i : nat, ¬ a ≤ Z.of_nat i < a + rec_len key v → Z.of_nat i ≠ sec → m' !! i = m !! i.
Proof.
  intros Hfit Hsec Hin Her (ps1 & ps2 & -> & H1 & <-) m'. unfold m'. clear m'.
  rewrite take_seqs. set (m1 := prog (take k ps1) m).
  assert (Hm1 : ∀ i : nat, Z.of_nat i ≠ sec → m1 !! i = m !! i).
  { intros i Hi. apply prog_lookup_ne. intros p Hp. apply elem_of_take_elem, (sec_script_elem _ _ _ H1) in Hp. lia. }
  destruct (rec_script_prefix m1 a key v Hfit ltac:(lia)) with (k := (k - length ps1)%nat) as (Hst & Hfull & Hout).
  - unfold m1. len.
  - intros i Hi. rewrite Hm1 by lia. by apply Her.
  - rewrite length_app. split_and!.
    + destruct Hst as [? | [? ?]]; [by left | right; split; [lia | done]].
    + intros Hk. apply Hfull. lia.
    + intros i Hi Hs. rewrite Hout by done. by apply Hm1.
Qed.

(** The same for the flash of a database. *)
Lemma create_pre_effect db sector a key v ps k :
  flash_ready db → create_pre db sector a key v →
  seqs (sec_script (se_addr sector)) (eq (rec_script a key v)) ps →
  let m' := prog (take k ps) (pmem db) in
  (rec_at m' a FDB_KV_WRITE key v
   ∨ (k < length ps)%nat
     ∧ (m' !! Z.to_nat a = Some (status_byte 0) ∨ m' !! Z.to_nat a = Some (status_byte FDB_KV_PRE_WRITE)))
  ∧ ((length ps ≤ k)%nat → rec_at m' a FDB_KV_WRITE key v)
  ∧ ∀ i : nat, ¬ a ≤ Z.of_nat i < a + rec_len key v → Z.of_nat i ≠ se_addr sector → m' !! i = pmem db !! i.
Proof.
  intros Hr [] HQ. unfold SECTOR_HDR_DATA_SIZE in *.
  apply create_effect; [done | lia | rewrite (pmem_blen db Hr); lia | done | done].
Qed.

(** C10. Creating a record is atomic whatever transfers fail: on an idle chip, at an address
    with enough erased space in front of it, [create_kv_blob] either leaves the complete
    record with status KV_WRITE, or reports an error and leaves a status byte that says
    unused or KV_PRE_WRITE; it reports success only with the complete record, which it
    writes whenever the bus works; no other byte of the partition changes but the store
    status of the sector. *)
Theorem kv_create_atomic (junk : list Z) (kv0 : fdb_kv) (sec0 sector : kvdb_sec_info) (a len : Z)
    (key value : list Z) (db : kvdb)
    (Hr : flash_ready db) (Hlen : 0 ≤ len ≤ blen value)
    (Hpre : create_pre db sector a key (take (Z.to_nat len) value)) :
  let v := take (Z.to_nat len) value in
  let '((r, _), db') := create_kv_blob junk kv0 sec0 sector key value len db in
  (rec_at (pmem db') a FDB_KV_WRITE key v
   ∨ r ≠ FDB_NO_ERR
     ∧ (pmem db' !! Z.to_nat a = Some (status_byte 0)
        ∨ pmem db' !! Z.to_nat a = Some (status_byte FDB_KV_PRE_WRITE)))
  ∧ (r = FDB_NO_ERR → rec_at (pmem db') a FDB_KV_WRITE key v)
  ∧ (flash_healthy db → r = FDB_NO_ERR)
  ∧ (∀ i : nat, ¬ a ≤ Z.of_nat i < a + rec_len key v → Z.of_nat i ≠ se_addr sector →
       pmem db' !! i = pmem db !! i).
Proof.
  intros v. rewrite (create_kv_blob_write _ _ _ _ a) by done.
  destruct (runs_write_kv junk sector a key value len db) as (r & db' & ps & k & -> & HQ & _ & M & Hok & Hh);
    try done; try apply Hpre.
  - split; [apply Hpre |]. destruct Hpre. unfold SECTOR_HDR_DATA_SIZE, rec_len, KV_HDR_DATA_SIZE in *.
    pose proof (blen_nonneg key). pose proof (blen_nonneg (take (Z.to_nat len) value)). lia.
  - destruct Hpre. unfold SECTOR_HDR_DATA_SIZE in *. lia.
  - destruct (create_pre_effect db sector a key v ps k Hr Hpre HQ) as (Hst & Hfull & Hout). rewrite <-M in *.
    split_and!; try done.
    + destruct (decide (r = FDB_NO_ERR)) as [E|E]; [left; by apply Hfull, Hok |].
      destruct Hst as [? | [_ ?]]; [by left | by right].
    + intros E. by apply Hfull, Hok.
Qed.

(** C17. What is created is read back: on working flash [create_kv_blob] succeeds, and
    [read_kv] at the record's address then returns it with a correct checksum, its name,
    its length and the address of its value, where the value is found. *)
Theorem kv_create_read (junk junk' : list Z) (kv0 kv : fdb_kv) (sec0 sector : kvdb_sec_info) (a len : Z)
    (key value : list Z) (db : kvdb)
    (Hup : up db) (Hlen : 0 < len ≤ blen value)
    (Hpre : create_pre db sector a key (take (Z.to_nat len) value))
    (Hmax : rec_len key (take (Z.to_nat len) value) ≤ db_max_size db)
    (Hname : blen (kv_name kv) = FDB_KV_NAME_MAX) :
  let v := take (Z.to_nat len) value in
  let obj := rec_obj FDB_KV_WRITE key v (kv_name kv) a in
  ∃ db', create_kv_blob junk kv0 sec0 sector key value len db = ((FDB_NO_ERR, sector), db')
    ∧ yields (read_kv junk' (set_start a kv)) db' (FDB_NO_ERR, obj)
    ∧ ∀ buf, yields (flash_read (kv_value obj) buf (kv_value_len obj)) db' (FDB_NO_ERR, v ++ drop (length v) buf).
Proof.
  intros v obj. assert (blen v = len) as Hv by (unfold v; len). pose proof Hpre as []. pose proof cp_fits0 as [[Hk1 Hk2] _ _ Hl].
  fold v in cp_in0, Hl, Hmax. unfold SECTOR_HDR_DATA_SIZE in *. pose proof (blen_nonneg key).
  assert (Hr : rec_len key v = 24 + blen key + blen v) by done. destruct Hup as [Hrd Hy].
  rewrite (create_kv_blob_write _ _ _ _ a) by (done || lia).
  destruct (runs_up _ _ _ _ (runs_write_kv junk sector a key value len db Hrd cp_fits0 ltac:(lia) ltac:(fold v; lia) ltac:(lia) cp_in0) Hy)
    as (r & db' & ps & -> & HQ & Er & F & Hup' & M).
  unfold id in Er. subst r. exists db'. split; [done |].
  destruct (create_pre_effect db sector a key v ps (length ps) Hrd Hpre HQ) as (_ & Hrec & _). rewrite take_ge in Hrec by done.
  rewrite <-M in Hrec. specialize (Hrec ltac:(done)). split.
  - rewrite <-(df_max _ _ F) in Hmax. exact (read_kv_rec junk' (set_start a kv) db' FDB_KV_WRITE key v Hup' cp_fits0 ltac:(by vm_compute) Hrec Hmax Hname).
  - intros buf. destruct (rec_at_parts _ _ _ _ _ Hrec) as (_ & _ & Pv & _). unfold obj. cbn [rec_obj kv_value kv_value_len].
    unfold KV_HDR_DATA_SIZE.
    replace (v ++ drop (length v) buf) with (slice (pmem db') (a + 24 + blen key) (blen v) ++ drop (Z.to_nat (blen v)) buf)
      by (rewrite Pv; unfold blen; by rewrite Nat2Z.id).
    apply yields_read; [done | lia | lia |]. rewrite (df_part _ _ F). lia.
Qed.

(** ** A chip of four sectors of 256 bytes *)

Definition kv_flash : sfud_flash :=
  mk_flash (mk_chip 0xEF 0x40 0x16 1024 SFUD_WM_PAGE_256B 256 0x20)
    (mk_sfdp true 1 0 256 true 0x20 true 0 true false 1024
       [mk_eraser 256 0x20; mk_eraser 0 0; mk_eraser 0 0; mk_eraser 0 0]) true false 3.
Definition kv_dev (m : list Z) (fates : list bus) : nordev :=
  mk_dev kv_flash
    (mk_io (mk_nor (mk_nor_part [(0x20, 256)] [0xEF; 0x40; 0x16] []) m false 0 false None [] fates) 0).

(** Cleared objects, and a database on a chip that holds [m]. *)
Definition kv_zero : fdb_kv := mk_kv 0 false 0 0 0 (replicate 64 0) 0 0.
Definition sec_zero : kvdb_sec_info := mk_sec false 0 0 0 0 0 0 0.
Definition kv_part : fal_partition := mk_part 0 1024 true.
Definition demo_db (m : list Z) (fates : list bus) : kvdb :=
  mk_db kv_part (kv_dev m fates) true 256 1024 0 false false false false kv_zero sec_zero
    (replicate 64 (mk_node 0 0 FDB_DATA_UNUSED)) (replicate 8 (mk_sec false 0 0 FDB_DATA_UNUSED 0 0 0 FAILED_ADDR)) [].

Lemma demo_db_ready m fates : length m = 1024%nat → flash_ready (demo_db m fates).
Proof.
  intros Hm. assert (blen (dv_mem (db_dev (demo_db m fates))) = 1024) as E by (unfold blen, dv_mem; simpl; lia).
  constructor; rewrite ?E; simpl; try done; try lia. constructor; simpl; try done; unfold blen; rewrite ?Hm; done.
Qed.

(** The first sector, empty, and a record in it. *)
Definition demo_sector : kvdb_sec_info := mk_sec true 1 1 0 SECTOR_MAGIC_WORD SECTOR_NOT_COMBINED 240 16.
Definition demo_key : list Z := [97; 98].
Definition demo_value : list Z := [1; 2; 3].

Lemma demo_create_pre fates : create_pre (demo_db (replicate 1024 255) fates) demo_sector 16 demo_key (take (Z.to_nat 3) demo_value).
Proof.
  constructor; try (vm_compute; done).
  - constructor; try (by vm_compute); repeat constructor; unfold is_u8; lia.
  - intros i Hi. unfold pmem, region. cbn [demo_db db_part db_dev kv_part pa_len pa_offset].
    change (rec_len demo_key (take (Z.to_nat 3) demo_value)) with 29 in Hi.
    rewrite lookup_take_lt by lia. rewrite lookup_drop. apply lookup_replicate_2. lia.
Qed.

(** The fourteenth transfer fails: the record stays in status KV_PRE_WRITE. *)
Lemma kv_create_atomic_witness :
  let db := demo_db (replicate 1024 255) (replicate 13 BusOk ++ [BusLost]) in
  let '((r, _), db') := create_kv_blob [] kv_zero sec_zero demo_sector demo_key demo_value 3 db in
  r = FDB_WRITE_ERR ∧ nthZ (pmem db') 16 = status_byte FDB_KV_PRE_WRITE
  ∧ (rec_at (pmem db') 16 FDB_KV_WRITE demo_key demo_value
     ∨ r ≠ FDB_NO_ERR
       ∧ (pmem db' !! Z.to_nat 16 = Some (status_byte 0)
          ∨ pmem db' !! Z.to_nat 16 = Some (status_byte FDB_KV_PRE_WRITE))).
Proof.
  intros db.
  pose proof (kv_create_atomic [] kv_zero sec_zero demo_sector 16 3 demo_key demo_value db
    (demo_db_ready (replicate 1024 255) _ eq_refl) ltac:(by vm_compute) (demo_create_pre _)) as H.
  assert ((let '((r, _), db') := create_kv_blob [] kv_zero sec_zero demo_sector demo_key demo_value 3 db in
           r = FDB_WRITE_ERR ∧ nthZ (pmem db') 16 = status_byte FDB_KV_PRE_WRITE)) as E by (vm_compute; by split).
  destruct (create_kv_blob [] kv_zero sec_zero demo_sector demo_key demo_value 3 db) as [[r s] db'].
  destruct H as (H & _). destruct E. by split_and!.
Defined.

Lemma kv_create_read_witness :
  ∃ db', create_kv_blob [] kv_zero sec_zero demo_sector demo_key demo_value 3 (demo_db (replicate 1024 255) [])
      = ((FDB_NO_ERR, demo_sector), db')
    ∧ yields (read_kv [] (set_start 16 kv_zero)) db'
        (FDB_NO_ERR, rec_obj FDB_KV_WRITE demo_key demo_value (replicate 64 0) 16).
Proof.
  destruct (kv_create_read [] [] kv_zero kv_zero sec_zero demo_sector 16 3 demo_key demo_value
    (demo_db (replicate 1024 255) [])) as (db' & E & Y & _).
  - split; [by apply demo_db_ready |]. by split; constructor.
  - by vm_compute.
  - apply demo_create_pre.
  - by vm_compute.
  - by vm_compute.
  - exact (ex_intro _ db' (conj E Y)).
Defined.
