(* ===== verification/KvdbUpdate.v ===== *)
(** Replacing the value of a key in the key-value database: whatever transfers fail, and
    wherever the supply is cut, the old or the new record is complete on the flash. *)

From S2P Require Import Prelude.
From S2P Require Import CText.
From S2P Require Import KvStore.
From S2P Require Import Nor.
From S2P Require Import Sfud.
From S2P Require Import Fal.
From S2P Require Import FdbUtils.
From S2P Require Import Kvdb.
From S2P Require Import KvdbFlash.
From S2P Require Import KvdbRecord.

(** * Deleting a record *)

(** The status of the record, then perhaps the dirty status of its sector. *)
Definition del_script (a dirty st : Z) (ps : script) : Prop :=
  ps = [(Z.to_nat a, status_byte st)]
  ∨ ps = [(Z.to_nat a, status_byte st); (Z.to_nat dirty, status_byte FDB_SECTOR_DIRTY_TRUE)].

Lemma runs_reads {A B} (err : B → fdb_err_t) Q (m : M A) (k : A → M B) db R :
  reads m db R → (∀ a d, flash_ready (set_dev d db) → runs err Q (k a) (set_dev d db)) → runs err Q (bind m k) db.
Proof.
  intros (a & d & E & F & Hp & Hm & _) Hk.
  destruct (Hk a d Hp) as (b & db' & ps & n & E' & HQ & F' & M' & Hok & Hh).
  exists b, db', ps, n. unfold bind. rewrite E, E'. split_and!; try done.
  - etrans; [by apply set_dev_frame | done].
  - by rewrite M', (pmem_set_dev db d Hm).
  - intros Hy. apply Hh. unfold flash_healthy in *. by eapply dev_frame_healthy.
Qed.

Lemma reads_status junk db addr :
  flash_ready db → 0 ≤ addr < pa_len (db_part db) →
  reads (read_status addr (stack junk 1) FDB_SECTOR_DIRTY_STATUS_NUM) db (λ _, True).
Proof.
  intros Hr Ha. destruct (reads_flash db addr (stack junk 1) 1 Hr) as (x & d & E & F & Hp & Hm & _); [lia | lia | lia |].
  unfold flash_read in E. destruct (_fdb_flash_read _ _ _ _ _) as [[r b] d'] eqn:E'.
  assert (d' = d) as -> by exact (f_equal (λ p, db_dev p.2) E).
  eexists _, d. split_and!; [|done | done | done | done].
  unfold read_status, _fdb_read_status. change (FDB_STATUS_TABLE_SIZE FDB_SECTOR_DIRTY_STATUS_NUM) with 1.
  by rewrite E'.
Qed.

Lemma runs_gets {A B} (f : kvdb → A) (k : A → M B) (err : B → fdb_err_t) Q db :
  runs err Q (k (f db)) db → runs err Q (bind (gets f) k) db.
Proof. by apply runs_ext. Qed.

Section del.
Context (junk : list Z) (key : option key) (kv : fdb_kv) (b : bool).

(** The first part of [del_kv]: the status of the record, the cache, the flag. *)
Lemma runs_del_status db :
  flash_ready db → 0 ≤ kv_start kv < pa_len (db_part db) →
  runs id (eq [(Z.to_nat (kv_start kv), status_byte (if b then FDB_KV_DELETED else FDB_KV_PRE_DELETE))])
    (if negb b then
       result <- write_status (kv_start kv) (stack junk 1) FDB_KV_STATUS_NUM FDB_KV_PRE_DELETE;;
       modify (set_last_del true);;; ret result
     else
       result <- write_status (kv_start kv) (stack junk 1) FDB_KV_STATUS_NUM FDB_KV_DELETED;;
       last_is_complete_del <- gets db_last_is_complete_del;;
       when (negb last_is_complete_del && no_err result)
         (match key with
          | Some k => update_kv_cache k (blen k) FDB_DATA_UNUSED
          | None => update_kv_cache (kv_name kv) (kv_name_len kv) FDB_DATA_UNUSED
          end);;;
       modify (set_last_del false);;; ret result)%kv db.
Proof.
  intros Hr Ha. assert (Hm : ∀ f, stills (modify (set_last_del f))) by (intros f; by apply stills_modify).
  destruct b; cbn [negb]; (eapply (runs_still id id); [apply runs_write_status;
    [done | done | by vm_compute | by vm_compute | len] |]); intros r; apply (keeps_still _ _ _ r); try done.
  - apply keeps_bind; [eauto with still |]. intros last. apply keeps_bind; [destruct key; eauto with still |].
    intros _. apply keeps_bind; [done |]. intros _. apply keeps_ret.
  - apply keeps_bind; [done |]. intros _. apply keeps_ret.
Qed.

Lemma runs_del db :
  let dirty := FDB_ALIGN_DOWN (kv_start kv) (db_sec_size db) + SECTOR_DIRTY_OFFSET in
  flash_ready db → 0 ≤ kv_start kv < pa_len (db_part db) → 0 ≤ dirty < pa_len (db_part db) →
  runs id (del_script (kv_start kv) dirty (if b then FDB_KV_DELETED else FDB_KV_PRE_DELETE))
    (del_found_kv junk key kv b) db.
Proof.
  intros dirty Hr Ha Hd. unfold del_found_kv. apply runs_gets.
  pose proof (po_size _ _ Hr). pose proof (po_in _ _ Hr). pose proof (po_off _ _ Hr).
  eapply runs_mono.
  - eapply (runs_bind id id _ (λ ps, ps = [] ∨ ps = [(Z.to_nat dirty, status_byte FDB_SECTOR_DIRTY_TRUE)]));
      [by apply runs_del_status | by exists []; left | |].
    + intros r db1 E F Hr1 Hok. unfold id in Hok. subst r. change (no_err FDB_NO_ERR) with true. cbv iota.
      rewrite u32_small by (unfold is_u32, dirty in *; lia). fold dirty. rewrite <-(df_part _ _ F) in Hd.
      eapply runs_reads; [by apply reads_status |]. intros st d Hr2.
      destruct (st =? FDB_SECTOR_DIRTY_FALSE).
      * apply (runs_mono _ (eq [(Z.to_nat dirty, status_byte FDB_SECTOR_DIRTY_TRUE)])); [|intros ps <-; by right]. eapply (runs_still id id).
        -- apply runs_write_status; [done | done | by vm_compute | by vm_compute | len].
        -- intros r. apply (keeps_still _ _ _ r); [|done]. apply keeps_bind; [eauto with still |]. intros _. apply keeps_ret.
      * eapply runs_mono; [by apply runs_ret | intros ps <-; by left].
    + intros r db1 Hne. exists r, db1. unfold no_err. rewrite bool_decide_false by done. by split_and!.
  - intros ps (ps1 & ps2 & -> & <- & [-> | ->]); [by left | by right].
Qed.
End del.

(** * The flash during an update *)

(** A record of [n] bytes at [a] lies in one sector, behind its header. *)
Definition in_sector (s a n : Z) : Prop :=
  0 < s ∧ FDB_ALIGN_DOWN a s + SECTOR_HDR_DATA_SIZE ≤ a ∧ a + n ≤ FDB_ALIGN_DOWN a s + s.

(** No byte of a sector header belongs to a record. *)
Lemma hdr_outside s a n b j :
  in_sector s a n → 0 ≤ j < SECTOR_HDR_DATA_SIZE → ¬ a ≤ FDB_ALIGN_DOWN b s + j < a + n.
Proof.
  unfold in_sector, FDB_ALIGN_DOWN, SECTOR_HDR_DATA_SIZE. intros (Hs & H1 & H2) Hj [H3 H4].
  destruct (Z.le_gt_cases (b / s) (a / s)) as [Hle|Hgt].
  - pose proof (Z.mul_le_mono_nonneg_r (b / s) (a / s) s ltac:(lia) Hle). lia.
  - assert ((a / s + 1) * s ≤ b / s * s) by (apply Z.mul_le_mono_nonneg_r; lia). lia.
Qed.

Lemma rec_at_ne ps m a st key v :
  rec_at m a st key v → (∀ p, p ∈ ps → ¬ a ≤ Z.of_nat p.1 < a + rec_len key v) → rec_at (prog ps m) a st key v.
Proof.
  intros (Ha & Hin & E) H. split_and!; [done | len |]. rewrite prog_slice_ne; try done.
  rewrite <-(blen_rec_bytes st). apply blen_nonneg.
Qed.

(** A status change keeps the record. *)
Lemma rec_at_status m a st st' key v :
  rec_at m a st key v → 0 ≤ st < 8 → 0 ≤ st' < 8 →
  rec_at (prog [(Z.to_nat a, status_byte st')] m) a (Z.max st' st) key v.
Proof.
  intros (Ha & Hin & E) Hst Hst'. split_and!; [done | len |].
  pose proof (blen_nonneg key). pose proof (blen_nonneg v).
  assert (Hlen : rec_len key v = 24 + blen key + blen v) by done.
  apply list_eq. intros i. destruct (decide (Z.of_nat i < rec_len key v)) as [Hi|Hi].
  - rewrite slice_lookup, rec_bytes_lookup by done. apply (f_equal (.!! i)) in E.
    rewrite slice_lookup, rec_bytes_lookup in E by done. cbn [prog foldl fst snd].
    destruct (decide (i = 0%nat)) as [-> | Hne].
    + rewrite Nat.add_0_r in *. rewrite list_lookup_alter_eq, E. simpl. by rewrite status_byte_land.
    + by rewrite list_lookup_alter_ne by lia.
  - rewrite !lookup_ge_None_2; [done | |].
    + pose proof (blen_rec_bytes (Z.max st' st) key v). len.
    + unfold slice. rewrite length_take. lia.
Qed.

Section update.
Context (m : list Z) (s old new sec : Z) (key v0 v : list Z).
Context (Hfit : rec_fits key v).
Context (Hold : rec_at m old FDB_KV_WRITE key v0) (Hnew : 0 ≤ new) (Hin : new + rec_len key v ≤ blen m).
Context (Her : erased m new (rec_len key v)).
Context (Hso : in_sector s old (rec_len key v0)) (Hsn : in_sector s new (rec_len key v)).
Context (Hsec : sec = FDB_ALIGN_DOWN new s).
Context (Hdis : old + rec_len key v0 ≤ new ∨ new + rec_len key v ≤ old).

Notation dirty := (FDB_ALIGN_DOWN old s + SECTOR_DIRTY_OFFSET).

Lemma dirty_nonneg : 0 ≤ dirty.
Proof using Hold Hso.
  destruct Hold as (? & _). destruct Hso as (? & _). unfold FDB_ALIGN_DOWN, SECTOR_DIRTY_OFFSET.
  pose proof (Z.div_pos old s). nia.
Qed.

Lemma sec_nonneg : 0 ≤ sec < new.
Proof using Hsec Hnew Hsn.
  destruct Hsn as (? & ? & _). subst sec. unfold FDB_ALIGN_DOWN, SECTOR_HDR_DATA_SIZE in *.
  pose proof (Z.div_pos new s). nia.
Qed.

(** The old record and the status writes of a deletion. *)
Lemma del_phase m0 k st st' ps :
  rec_at m0 old st key v0 → 0 ≤ st < 8 → 0 ≤ st' < 8 → del_script old dirty st' ps →
  rec_at (prog (take k ps) m0) old (if decide (k = 0%nat) then st else Z.max st' st) key v0.
Proof using Hold Hso.
  intros Hrec Hst Hst' Hps. pose proof dirty_nonneg.
  assert (Hd : ∀ m1 st1 ps1, rec_at m1 old st1 key v0 →
    ps1 = [] ∨ ps1 = [(Z.to_nat dirty, status_byte FDB_SECTOR_DIRTY_TRUE)] → rec_at (prog ps1 m1) old st1 key v0).
  { intros m1 st1 ps1 H1 [-> | ->]; [done |]. apply rec_at_ne; [done |].
    intros p Hp. apply list_elem_of_singleton in Hp as ->. simpl. rewrite Z2Nat.id by done.
    apply (hdr_outside s); [done | by vm_compute]. }
  destruct k as [|k]; [done |]. rewrite decide_False by done.
  pose proof (rec_at_status m0 old st st' key v0 Hrec Hst Hst') as H1.
  destruct Hps as [-> | ->]; cbn [take]; [by rewrite take_nil |].
  destruct k as [|k]; cbn [take]; [done |]. rewrite take_nil.
  apply (Hd _ _ [(Z.to_nat dirty, status_byte FDB_SECTOR_DIRTY_TRUE)] H1). by right.
Qed.

(** Deletion does not touch the new record's space. *)
Lemma del_outside st ps p :
  del_script old dirty st ps → p ∈ ps → ¬ new ≤ Z.of_nat p.1 < new + rec_len key v.
Proof using Hold Hso Hsn Hdis.
  intros Hps Hp. pose proof dirty_nonneg. destruct Hold as (Ho & _).
  assert (0 < rec_len key v0) by (unfold rec_len, KV_HDR_DATA_SIZE; pose proof (blen_nonneg key); pose proof (blen_nonneg v0); lia).
  assert (p.1 = Z.to_nat old ∨ p.1 = Z.to_nat dirty) as [E|E].
  { destruct Hps as [-> | ->]; [apply list_elem_of_singleton in Hp as ->; by left |].
    apply elem_of_cons in Hp as [-> | Hp]; [by left |]. apply list_elem_of_singleton in Hp as ->. by right. }
  - lia.
  - rewrite E, Z2Nat.id by done. apply (hdr_outside s); [done | by vm_compute].
Qed.

(** Creation does not touch the old record. *)
Lemma create_outside ps p :
  seqs (sec_script sec) (eq (rec_script new key v)) ps → p ∈ ps → ¬ old ≤ Z.of_nat p.1 < old + rec_len key v0.
Proof using Hold Hso Hsn Hdis Hsec Hnew.
  intros (ps1 & ps2 & -> & H1 & <-) Hp. pose proof sec_nonneg. apply elem_of_app in Hp as [Hp | Hp].
  - apply (sec_script_elem _ _ _ H1) in Hp. rewrite Hp, Z2Nat.id by lia. subst sec.
    rewrite <-(Z.add_0_r (FDB_ALIGN_DOWN new s)). apply (hdr_outside s); [done | by vm_compute].
  - apply rec_script_elem in Hp; [lia | done].
Qed.

(** The states of the flash when an update stops anywhere. *)
Lemma update_effect pd pc pe k :
  del_script old dirty FDB_KV_PRE_DELETE pd → seqs (sec_script sec) (eq (rec_script new key v)) pc →
  del_script old dirty FDB_KV_DELETED pe →
  let m' := prog (take k (pd ++ pc ++ pe)) m in
  ∃ st, rec_at m' old st key v0
    ∧ (st = FDB_KV_WRITE ∧ m' = m ∨ st = FDB_KV_PRE_DELETE
       ∨ st = FDB_KV_DELETED ∧ rec_at m' new FDB_KV_WRITE key v)
    ∧ ((length (pd ++ pc ++ pe) ≤ k)%nat → st = FDB_KV_DELETED).
Proof using All.
  intros Hpd Hpc Hpe m'. unfold m'. clear m'. rewrite !take_seqs.
  set (m1 := prog (take k pd) m). set (k1 := (k - length pd)%nat). set (m2 := prog (take k1 pc) m1).
  set (k2 := (k1 - length pc)%nat).
  pose proof (del_phase m k FDB_KV_WRITE FDB_KV_PRE_DELETE pd Hold ltac:(by vm_compute) ltac:(by vm_compute) Hpd) as H1.
  fold m1 in H1. set (st1 := if decide (k = 0%nat) then _ else _) in H1.
  assert (H2 : rec_at m2 old st1 key v0).
  { apply rec_at_ne; [done |]. intros p Hp. eapply create_outside; [done | by eapply elem_of_take_elem]. }
  assert (Hst1 : 0 ≤ st1 < 8) by (unfold st1; by destruct (decide (k = 0%nat))).
  pose proof (del_phase m2 k2 st1 FDB_KV_DELETED pe H2 Hst1 ltac:(by vm_compute) Hpe) as H3.
  eexists. split; [exact H3 |].
  assert (Hlp : (0 < length pd)%nat) by (destruct Hpd as [-> | ->]; simpl; lia).
  assert (Hle : (0 < length pe)%nat) by (destruct Hpe as [-> | ->]; simpl; lia).
  rewrite !length_app. destruct (decide (k2 = 0%nat)) as [E2|E2].
  - split; [|intros Hk; unfold k2, k1 in E2; lia]. rewrite E2, take_0. cbn [prog foldl].
    unfold st1. destruct (decide (k = 0%nat)) as [E0|E0]; [left | right; left]; [|done].
    split; [done |]. unfold m2, k1, m1. by rewrite E0, !take_0.
  - assert (Z.max FDB_KV_DELETED st1 = FDB_KV_DELETED) as -> by (unfold st1; by destruct (decide (k = 0%nat))).
    split; [|done]. right. right. split; [done |]. apply rec_at_ne.
    + destruct (create_effect m1 sec new key v pc k1) as (_ & Hfull & _); try done.
      * apply sec_nonneg.
      * unfold m1. len.
      * intros i Hi. unfold m1. rewrite prog_lookup_ne; [by apply Her |].
        intros p Hp <-. by apply (del_outside _ _ p Hpd (elem_of_take_elem _ _ _ Hp)).
      * apply Hfull. unfold k2 in E2. lia.
    + intros p Hp. eapply del_outside; [done | by eapply elem_of_take_elem].
Qed.
End update.

(** * Updating a key *)

Lemma del_cur_sector junk key kv b db : db_cur_sector (del_found_kv junk key kv b db).2 = db_cur_sector db.
Proof.
  unfold del_found_kv, bind, gets, when, modify, ret, write_status, read_status, update_kv_cache, modify_sector_cache, modify.
  destruct b; cbn [negb];
    repeat first [ progress simpl | case_match; simplify_eq ]; try done; by subst.
Qed.

(** The state in which [set_kv] updates: the old record found, space for the new one. *)
Record update_pre (db : kvdb) (old : Z) (v0 : list Z) (new : Z) (key v : list Z) : Prop := {
  up_create : create_pre db (db_cur_sector db) new key v;
  up_start : kv_start (db_cur_kv db) = old;
  up_old : rec_at (pmem db) old FDB_KV_WRITE key v0;
  up_old_sec : in_sector (db_sec_size db) old (rec_len key v0);
  up_new_sec : in_sector (db_sec_size db) new (rec_len key v);
  up_sec : se_addr (db_cur_sector db) = FDB_ALIGN_DOWN new (db_sec_size db);
  up_disjoint : old + rec_len key v0 ≤ new ∨ new + rec_len key v ≤ old
}.

(** The new record's conditions still hold after the first status change. *)
Lemma create_pre_frame db db1 sector new key v :
  create_pre db sector new key v → db_frame db db1 →
  (∀ i : nat, new ≤ Z.of_nat i < new + rec_len key v → pmem db1 !! i = pmem db !! i) →
  create_pre db1 sector new key v.
Proof.
  intros Hp F H. constructor; rewrite ?(df_part _ _ F), ?(df_sec _ _ F); try apply Hp.
  intros i Hi. rewrite H by done. by apply (cp_erased _ _ _ _ _ Hp).
Qed.

Section crash.
Context (junk : list Z) (kv0 : fdb_kv) (sec0 : kvdb_sec_info) (key value v0 : list Z) (len old new : Z) (db : kvdb).
Notation v := (take (Z.to_nat len) value).
Context (Hr : flash_ready db) (Hlen : 0 ≤ len ≤ blen value) (Hpre : update_pre db old v0 new key v).
Notation dirty := (FDB_ALIGN_DOWN old (db_sec_size db) + SECTOR_DIRTY_OFFSET).

Lemma rec_len_pos (k w : list Z) : 24 ≤ rec_len k w.
Proof. unfold rec_len, KV_HDR_DATA_SIZE. pose proof (blen_nonneg k). pose proof (blen_nonneg w). lia. Qed.

(** The creation step inside the update. *)
Lemma runs_create db1 :
  flash_ready db1 → create_pre db1 (db_cur_sector db1) new key v →
  runs id (seqs (sec_script (se_addr (db_cur_sector db1))) (eq (rec_script new key v)))
    (cur_sector <- gets db_cur_sector;;
     '(result, cur_sector) <- create_kv_blob junk kv0 sec0 cur_sector key value len;;
     modify (set_cur_sector cur_sector);;; ret result)%kv db1.
Proof using Hlen.
  intros Hr1 Hp. apply runs_gets. pose proof (rec_len_pos key v). destruct (Hp) as [].
  unfold SECTOR_HDR_DATA_SIZE in *.
  apply (runs_ext (result <- write_kv junk (db_cur_sector db1) new key value (blen key) len;;
                   modify (set_cur_sector (db_cur_sector db1));;; ret result)%kv).
  - unfold bind. rewrite (create_kv_blob_write _ _ _ _ new) by done. by destruct (write_kv _ _ _ _ _ _ _ db1).
  - eapply (runs_still id id).
    + apply runs_write_kv; try done; lia.
    + intros r. apply (keeps_still _ _ _ r); [|done]. apply keeps_bind; [|intros _; apply keeps_ret].
      apply stills_modify. intros db2. by split_and!.
Qed.

Lemma runs_update :
  runs id (seqs (del_script old dirty FDB_KV_PRE_DELETE)
             (seqs (seqs (sec_script (se_addr (db_cur_sector db))) (eq (rec_script new key v)))
                   (del_script old dirty FDB_KV_DELETED)))
    (update_kv junk kv0 sec0 true key value len) db.
Proof using Hr Hlen Hpre.
  destruct Hpre. pose proof (pmem_blen db Hr) as Hpl. destruct (up_old0) as (Ho & Hoin & _).
  pose proof (rec_len_pos key v0). pose proof (rec_len_pos key v).
  assert (Hd : 0 ≤ dirty < pa_len (db_part db)).
  { destruct up_old_sec0 as (? & ? & _). unfold FDB_ALIGN_DOWN, SECTOR_HDR_DATA_SIZE, SECTOR_DIRTY_OFFSET in *.
    pose proof (Z.div_pos old (db_sec_size db)). nia. }
  unfold update_kv. apply runs_gets. subst old.
  (* the first step only prepares the deletion *)
  lazymatch goal with |- context [del_found_kv _ (Some key) _ false] => idtac end.
  eapply runs_bind_mem; [eapply (runs_del _ _ _ false); [done | lia | done] | | |].
  - do 3 eexists; split_and!; [done | | by left]. do 2 eexists; split_and!; [done | by left | done].
  - intros r db1 ps1 E1 F1 Hr1 Hok Hps1 M1. unfold id in Hok. subst r. rewrite on_no_err_ok.
    pose proof (del_cur_sector junk (Some key) (db_cur_kv db) false db) as Hcs. rewrite E1 in Hcs. simpl in Hcs.
    rewrite <-Hcs. rewrite <-(df_part _ _ F1), <-(df_sec _ _ F1) in *.
    eapply runs_bind; [apply runs_create; [done |] | by eexists; left | |].
    + rewrite Hcs. eapply create_pre_frame; [done | done |]. intros i Hi. rewrite M1. apply prog_lookup_ne.
      intros p Hp <-. by eapply (del_outside (pmem db)).
    + intros r db2 E2 F2 Hr2 Hok. unfold id in Hok. subst r. rewrite on_no_err_ok.
      rewrite <-(df_part _ _ F2), <-(df_sec _ _ F2) in *. apply (runs_del _ _ _ true); [done | lia | done].
    + intros r db2 Hne. rewrite stills_on_err by done. by exists r, db2.
  - intros r db1 Hne. rewrite stills_on_err by done. rewrite bind_ret. rewrite stills_on_err by done. by exists r, db1.
Qed.
End crash.

(** C3. Replacing a value leaves a complete record on the flash at any loss of power: whatever
    transfers fail while [set_kv] marks the old record for deletion, creates the new one and
    deletes the old one, the old record is still complete on the flash, and it is not deleted
    unless the new one is complete and valid. From the flash as it is then, over a working bus,
    [read_kv] at the address of the old record reads it, valid or marked for deletion, or at the
    address of the new one reads that. (Whether the start-up finds it is not part of the claim:
    [KvdbCases.kv_recovery_stops] is a recovery that does not reach the old record.) When the
    update reports success, as it does on a working bus, the old record is deleted and the new
    one is valid. *)
Theorem kv_update_crash_safe (junk : list Z) (kv0 : fdb_kv) (sec0 : kvdb_sec_info) (key value v0 : list Z)
    (len old new : Z) (db : kvdb)
    (Hr : flash_ready db) (Hlen : 0 ≤ len ≤ blen value) (Hfit : rec_fits key v0)
    (Hpre : update_pre db old v0 new key (take (Z.to_nat len) value)) :
  let v := take (Z.to_nat len) value in
  let '(r, db') := update_kv junk kv0 sec0 true key value len db in
  (∃ st, rec_at (pmem db') old st key v0
     ∧ (st = FDB_KV_WRITE ∧ pmem db' = pmem db ∨ st = FDB_KV_PRE_DELETE
        ∨ st = FDB_KV_DELETED ∧ rec_at (pmem db') new FDB_KV_WRITE key v))
  ∧ (∀ junk' kv db'', up db'' → pmem db'' = pmem db' → blen (kv_name kv) = FDB_KV_NAME_MAX →
       rec_len key v0 ≤ db_max_size db'' → rec_len key v ≤ db_max_size db'' →
       (∃ st, (st = FDB_KV_WRITE ∨ st = FDB_KV_PRE_DELETE)
          ∧ yields (read_kv junk' (set_start old kv)) db'' (FDB_NO_ERR, rec_obj st key v0 (kv_name kv) old))
       ∨ yields (read_kv junk' (set_start new kv)) db'' (FDB_NO_ERR, rec_obj FDB_KV_WRITE key v (kv_name kv) new))
  ∧ (r = FDB_NO_ERR → rec_at (pmem db') old FDB_KV_DELETED key v0 ∧ rec_at (pmem db') new FDB_KV_WRITE key v)
  ∧ (flash_healthy db → r = FDB_NO_ERR).
Proof.
  intros v. destruct (runs_update junk kv0 sec0 key value v0 len old new db Hr Hlen Hpre)
    as (r & db' & ps & k & -> & (pd & ps' & -> & Hpd & pc & pe & -> & Hpc & Hpe) & _ & M & Hok & Hh).
  pose proof Hpre as []. pose proof (pmem_blen db Hr) as Hpl.
  pose proof (cp_in _ _ _ _ _ up_create0) as Hin. pose proof (cp_off _ _ _ _ _ up_create0) as Hoff.
  pose proof (cp_sec _ _ _ _ _ up_create0). unfold SECTOR_HDR_DATA_SIZE in Hoff. fold v in Hin.
  destruct (update_effect (pmem db) (db_sec_size db) old new (se_addr (db_cur_sector db)) key v0 v) with (pd := pd) (pc := pc) (pe := pe) (k := k)
    as (st & Hrec & Hst & Hfull); try done; try apply up_create0; try lia.
  rewrite <-M in *. split_and!; [by exists st | | | done].
  - intros junk' kv db'' Hup Hm Hname Hmax0 Hmax. rewrite <-Hm in *.
    assert (Hread : ∀ st, rec_at (pmem db'') old st key v0 → 0 ≤ st < FDB_KV_STATUS_NUM →
      yields (read_kv junk' (set_start old kv)) db'' (FDB_NO_ERR, rec_obj st key v0 (kv_name kv) old)).
    { intros st' Hr' Hs'. by apply (read_kv_rec junk' (set_start old kv)). }
    destruct Hst as [[-> _] | [-> | [-> Hn]]].
    + left. exists FDB_KV_WRITE. split; [by left | by apply Hread].
    + left. exists FDB_KV_PRE_DELETE. split; [by right | by apply Hread].
    + right. apply (read_kv_rec junk' (set_start new kv)); try done. apply up_create0.
  - intros E. destruct (Hok E) as [Hk _]. rewrite (Hfull Hk) in Hrec. split; [done |].
    destruct Hst as [[E' _] | [E' | [_ ?]]]; [| |done]; by rewrite (Hfull Hk) in E'.
Qed.

(** A record at 16 of the first sector; its key gets a new value at 45. *)
Definition update_mem : list Z :=
  replicate 16 255 ++ rec_bytes FDB_KV_WRITE demo_key demo_value ++ replicate 979 255.
Definition update_db (fates : list bus) : kvdb :=
  set_cur_sector (mk_sec true 2 1 0 SECTOR_MAGIC_WORD SECTOR_NOT_COMBINED 211 45)
    (set_cur_kv (set_start 16 kv_zero) (demo_db update_mem fates)).

Lemma update_db_pre fates : update_pre (update_db fates) 16 demo_value 45 demo_key (take (Z.to_nat 4) [9; 8; 7; 6]).
Proof.
  constructor; try (vm_compute; split_and!; congruence).
  - constructor; try (vm_compute; congruence).
    + constructor; try (by vm_compute); repeat constructor; unfold is_u8; lia.
    + intros i Hi. change (rec_len demo_key (take (Z.to_nat 4) [9; 8; 7; 6])) with 30 in Hi.
      assert (∃ j, i = (45 + j)%nat ∧ (j < 30)%nat) as (j & -> & Hj) by (exists (i - 45)%nat; lia).
      do 30 (destruct j as [|j]; [by vm_compute |]). lia.
  - reflexivity.
  - reflexivity.
  - left. by vm_compute.
Qed.

(** The supply fails at the transfer 20: the new record stays incomplete, the old one is
    marked for deletion. *)
Lemma kv_update_crash_safe_witness :
  let '(r, db') := update_kv [] kv_zero sec_zero true demo_key [9; 8; 7; 6] 4 (update_db (replicate 20 BusOk ++ replicate 80 BusLost)) in
  r = FDB_WRITE_ERR
  ∧ ∃ st, rec_at (pmem db') 16 st demo_key demo_value
     ∧ (st = FDB_KV_WRITE ∧ pmem db' = pmem (update_db (replicate 20 BusOk ++ replicate 80 BusLost)) ∨ st = FDB_KV_PRE_DELETE
        ∨ st = FDB_KV_DELETED ∧ rec_at (pmem db') 45 FDB_KV_WRITE demo_key [9; 8; 7; 6]).
Proof.
  set (db := update_db (replicate 20 BusOk ++ replicate 80 BusLost)).
  pose proof (kv_update_crash_safe [] kv_zero sec_zero demo_key [9; 8; 7; 6] demo_value 4 16 45 db
    (demo_db_ready update_mem (replicate 20 BusOk ++ replicate 80 BusLost) eq_refl) ltac:(by vm_compute)
    (cp_fits _ _ _ _ _ (demo_create_pre [])) (update_db_pre _)) as H.
  assert ((update_kv [] kv_zero sec_zero true demo_key [9; 8; 7; 6] 4 db).1 = FDB_WRITE_ERR) as E by (vm_compute; reflexivity).
  destruct (update_kv [] kv_zero sec_zero true demo_key [9; 8; 7; 6] 4 db) as [r db'].
  destruct H as (H & _). exact (conj E H).
Defined.
