(* ===== verification/KvdbScan.v ===== *)
(** The loops of the key-value database over records and sectors end: the addresses they
    visit increase, so more fuel than the definitions give them makes no difference,
    whatever the flash contains and whatever transfers fail. *)

From S2P Require Import Prelude.
From S2P Require Import CText.
From S2P Require Import KvStore.
From S2P Require Import Nor.
From S2P Require Import Sfud.
From S2P Require Import Fal.
From S2P Require Import FdbUtils.
From S2P Require Import Kvdb.

(** * The geometry of a database never changes *)

Definition geometry (db : kvdb) : fal_partition * Z * Z := (db_part db, db_sec_size db, db_max_size db).

(** Operations that keep the partition and the sizes. *)
Definition steady {A} (m : M A) : Prop := ∀ db, geometry (m db).2 = geometry db.

Lemma steady_ret {A} (a : A) : steady (ret a).
Proof. done. Qed.
Lemma steady_gets {A} (f : kvdb → A) : steady (gets f).
Proof. done. Qed.
Lemma steady_bind {A B} (m : M A) (k : A → M B) : steady m → (∀ a, steady (k a)) → steady (bind m k).
Proof.
  intros Hm Hk db. unfold bind. specialize (Hm db). destruct (m db) as [a db1]. simpl in Hm. by rewrite Hk.
Qed.
Lemma steady_when b m : steady m → steady (when b m).
Proof. intros H. by destruct b; [|intros db]. Qed.
Lemma steady_modify f : (∀ db, geometry (f db) = geometry db) → steady (modify f).
Proof. intros H db. exact (H db). Qed.
Lemma steady_read addr buf n : steady (flash_read addr buf n).
Proof. intros db. unfold flash_read. by destruct (_fdb_flash_read _ _ _ _ _) as [[r b] d]. Qed.
Lemma steady_write addr buf n : steady (flash_write addr buf n).
Proof. intros db. unfold flash_write. by destruct (_fdb_flash_write _ _ _ _ _). Qed.
Lemma steady_write_align addr buf n : steady (flash_write_align addr buf n).
Proof. intros db. unfold flash_write_align. by destruct (_fdb_flash_write_align _ _ _ _ _). Qed.
Lemma steady_erase addr n : steady (flash_erase addr n).
Proof. intros db. unfold flash_erase. by destruct (_fdb_flash_erase _ _ _ _). Qed.
Lemma steady_write_status addr t n i : steady (write_status addr t n i).
Proof. intros db. unfold write_status. by destruct (_fdb_write_status _ _ _ _ _ _) as [[r t'] d]. Qed.
Lemma steady_read_status addr t n : steady (read_status addr t n).
Proof. intros db. unfold read_status. by destruct (_fdb_read_status _ _ _ _ _). Qed.
Lemma steady_ff a b buf : steady (continue_ff_addr a b buf).
Proof. intros db. unfold continue_ff_addr. by destruct (_fdb_continue_ff_addr _ _ _ _ _). Qed.

Create HintDb steady.
#[export] Hint Resolve steady_ret steady_gets steady_when steady_read steady_write steady_write_align steady_erase
  steady_write_status steady_read_status steady_ff : steady.

(** Walk down a definition. *)
Ltac steady :=
  repeat (intros; match goal with
  | |- steady (bind _ _) => apply steady_bind
  | |- steady (when _ _) => apply steady_when
  | |- steady (modify _) => apply steady_modify
  | |- steady (match ?x with _ => _ end) => destruct x
  | |- steady (let _ := _ in _) => cbv zeta
  | |- steady _ => solve [eauto with steady]
  | |- geometry _ = geometry _ => repeat case_match; reflexivity
  end).

Lemma steady_sector_from_cache a : steady (get_sector_from_cache a).
Proof. unfold get_sector_from_cache. steady. Qed.
Lemma steady_update_sector_cache s : steady (update_sector_cache s).
Proof. unfold update_sector_cache. steady. Qed.
Lemma steady_modify_sector_cache a f : steady (modify_sector_cache a f).
Proof. unfold modify_sector_cache. steady. Qed.
Lemma steady_empty_addr_cache a e : steady (update_sector_empty_addr_cache a e).
Proof. apply steady_modify_sector_cache. Qed.
Lemma steady_store_cache a e : steady (update_sector_status_store_cache a e).
Proof. apply steady_modify_sector_cache. Qed.
Lemma steady_kv_cache name n a : steady (update_kv_cache name n a).
Proof. unfold update_kv_cache. steady. Qed.
Lemma steady_cache_lookup l name n crc i : steady (cache_lookup l name n crc i).
Proof. revert i. induction l as [|e l IH]; intros i; cbn [cache_lookup]; steady; apply IH. Qed.
#[export] Hint Resolve steady_sector_from_cache steady_update_sector_cache steady_modify_sector_cache
  steady_empty_addr_cache steady_store_cache steady_kv_cache steady_cache_lookup : steady.

Section ops.
Context (junk : list Z) (kv0 : fdb_kv) (sec0 : kvdb_sec_info).

Lemma steady_from_cache name n : steady (get_kv_from_cache name n).
Proof. unfold get_kv_from_cache. steady. Qed.
Lemma steady_find_next_loop fuel buf a b e : steady (find_next_loop fuel buf a b e).
Proof. revert buf a. induction fuel as [|fuel IH]; intros buf a; cbn [find_next_loop]; steady; apply IH. Qed.
Hint Resolve steady_from_cache steady_find_next_loop : steady.
Lemma steady_find_next a e : steady (find_next_kv_addr junk a e).
Proof. unfold find_next_kv_addr. steady. Qed.
Hint Resolve steady_find_next : steady.
Lemma steady_get_next s kv : steady (get_next_kv_addr junk s kv).
Proof. unfold get_next_kv_addr. steady. Qed.
Lemma steady_crc_loop fuel buf a l n c : steady (crc_data_loop fuel buf a l n c).
Proof. revert buf l c. induction fuel as [|fuel IH]; intros buf l c; cbn [crc_data_loop]; steady; apply IH. Qed.
Hint Resolve steady_get_next steady_crc_loop : steady.
Lemma steady_read_kv kv : steady (read_kv junk kv).
Proof. unfold read_kv. steady. Qed.
Hint Resolve steady_read_kv : steady.

Lemma steady_scan_kv {A} fuel s (body : fdb_err_t → fdb_kv → A → M (bool * A)) kv acc :
  (∀ r kv acc, steady (body r kv acc)) → steady (scan_kv junk fuel s body kv acc).
Proof.
  intros Hb. revert kv acc. induction fuel as [|fuel IH]; intros kv acc; cbn [scan_kv]; steady; auto.
Qed.

Lemma steady_scan_sector {A} s (body : fdb_err_t → fdb_kv → A → M (bool * A)) kv acc :
  (∀ r kv acc, steady (body r kv acc)) → steady (scan_sector junk s body kv acc).
Proof. intros Hb. unfold scan_sector. steady. intros n. by apply steady_scan_kv. Qed.

Lemma steady_get_next_sector s n : steady (get_next_sector_addr s n).
Proof. unfold get_next_sector_addr. steady. Qed.
Hint Resolve steady_get_next_sector : steady.

Lemma steady_read_sector_info a s b : steady (read_sector_info junk kv0 a s b).
Proof. unfold read_sector_info. steady. all: try apply steady_scan_sector; unfold traverse_cb; steady. Qed.
Hint Resolve steady_read_sector_info : steady.

Lemma steady_sector_loop {A} fuel (body : Z → kvdb_sec_info → A → M (bool * kvdb_sec_info * A)) a n s acc :
  (∀ a s acc, steady (body a s acc)) → steady (sector_loop fuel body a n s acc).
Proof.
  intros Hb. revert a n s acc. induction fuel as [|fuel IH]; intros a n s acc; cbn [sector_loop]; steady; auto.
Qed.

Lemma steady_all_sectors {A} (body : Z → kvdb_sec_info → A → M (bool * kvdb_sec_info * A)) s acc :
  (∀ a s acc, steady (body a s acc)) → steady (all_sectors body s acc).
Proof. intros Hb. unfold all_sectors. steady. intros oldest. by apply steady_sector_loop. Qed.

Lemma steady_kv_iterator {A} kv (cb : fdb_kv → A → M (bool * A)) acc :
  (∀ kv acc, steady (cb kv acc)) → steady (kv_iterator junk kv0 sec0 kv cb acc).
Proof.
  intros Hb. unfold kv_iterator. apply steady_bind; [|intros [s x]; steady].
  apply steady_all_sectors. intros a s [kv' acc']. steady. intros. by apply steady_scan_sector.
Qed.

Lemma steady_sector_iterator {A} s st (cb : kvdb_sec_info → A → M (bool * A)) b acc :
  (∀ s acc, steady (cb s acc)) → steady (sector_iterator junk kv0 s st cb b acc).
Proof. intros Hb. unfold sector_iterator. apply steady_all_sectors. steady; auto. Qed.
End ops.

(** * Addresses increase *)

Lemma find_magic_ge n buf i start bak end_ r : find_magic n buf i start bak end_ = Some r → bak ≤ r.
Proof.
  revert i. induction n as [|n IH]; intros i; cbn [find_magic]; [done |].
  destruct (negb _); [done |]. destruct (load_u32 buf i =? KV_MAGIC_WORD); simpl; [|apply IH].
  destruct (Z.leb_spec bak (u32 (start + i - KV_MAGIC_OFFSET))); [|apply IH]. intros [= <-]. done.
Qed.

Lemma find_next_loop_ge fuel buf start bak end_ db :
  let r := (find_next_loop fuel buf start bak end_ db).1 in r = FAILED_ADDR ∨ bak ≤ r.
Proof.
  revert buf start db. induction fuel as [|fuel IH]; intros buf start db; cbn [find_next_loop]; [by left |].
  destruct (negb _); [by left |]. unfold bind. destruct (flash_read start buf 32 db) as [[r b] db1].
  destruct (negb (no_err r)); [by left |]. destruct (find_magic _ _ _ _ _ _) eqn:E; [|apply IH].
  right. by eapply find_magic_ge.
Qed.

Lemma find_next_ge junk start end_ db :
  let r := (find_next_kv_addr junk start end_ db).1 in r = FAILED_ADDR ∨ start ≤ r.
Proof.
  unfold find_next_kv_addr, bind, gets, get_sector_from_cache, gets.
  destruct (match _ with Some s => _ | None => _ end); [by left | apply find_next_loop_ge].
Qed.

(** The address after a record is behind it and inside the sector. *)
Lemma get_next_inc junk sector kv db :
  0 ≤ kv_start kv → 0 < kv_len kv → kv_start kv + kv_len kv < 4294967296 →
  let r := (get_next_kv_addr junk sector kv db).1 in
  kv_start kv ≠ FAILED_ADDR →
  r = FAILED_ADDR ∨ kv_start kv < r ≤ u32 (se_addr sector + db_sec_size db).
Proof.
  intros H0 Hl Hu r Hne. unfold r, get_next_kv_addr, bind, gets.
  destruct (se_store sector =? FDB_SECTOR_STORE_EMPTY); [by left |].
  destruct (Z.eqb_spec (kv_start kv) FAILED_ADDR); [done |].
  destruct (_ <=? _); [|by left].
  assert (Ha : kv_start kv < (if kv_crc_is_ok kv then u32 (kv_start kv + kv_len kv) else u32 (kv_start kv + FDB_WG_ALIGN 1))).
  { change (FDB_WG_ALIGN 1) with 1. destruct (kv_crc_is_ok kv); rewrite u32_small; unfold is_u32; lia. }
  set (addr := if kv_crc_is_ok kv then _ else _) in *.
  pose proof (find_next_ge junk addr (u32 (se_addr sector + db_sec_size db - SECTOR_HDR_DATA_SIZE)) db) as Hge.
  destruct (find_next_kv_addr junk addr _ db) as [a db1]. simpl in Hge.
  destruct (Z.eqb_spec a FAILED_ADDR); [by left |]. destruct (Z.ltb_spec (u32 (se_addr sector + db_sec_size db)) a); [by left |].
  destruct (kv_len kv =? 0); [by left |]. right. simpl. destruct Hge; lia.
Qed.

(** [read_kv] keeps the start and reports a length between the header and the database. *)
Lemma read_kv_len junk kv db :
  24 ≤ db_max_size db →
  let kv' := (read_kv junk kv db).1.2 in kv_start kv' = kv_start kv ∧ 24 ≤ kv_len kv' ≤ db_max_size db.
Proof.
  intros Hm. unfold read_kv, bind, gets, KV_HDR_DATA_SIZE.
  destruct (flash_read (kv_start kv) (stack junk 24) 24 db) as [[r hdr] db1].
  destruct (_ || _ || _) eqn:E.
  - unfold when, ret. destruct (negb _); [destruct (write_status _ _ _ _ _)|]; simpl; lia.
  - apply orb_false_iff in E as [E H3]. apply orb_false_iff in E as [_ H2].
    apply Z.ltb_ge in H2, H3. destruct (crc_data_loop _ _ _ _ _ _ _) as [crc db2].
    destruct (negb _); destruct (flash_read _ _ _ db2) as [[r' name] db3]; simpl; lia.
Qed.

(** * Enough fuel *)

Section fuel.
Context (junk : list Z).

(** The loop over the records of a sector. *)
Lemma scan_kv_fuel {A} (f g : nat) sector (body : fdb_err_t → fdb_kv → A → M (bool * A)) kv acc db :
  (∀ r kv acc, steady (body r kv acc)) →
  let end_ := u32 (se_addr sector + db_sec_size db) in
  24 ≤ db_max_size db → end_ + db_max_size db < 4294967295 →
  0 ≤ kv_start kv ≤ end_ → end_ - kv_start kv < Z.of_nat f → end_ - kv_start kv < Z.of_nat g →
  scan_kv junk f sector body kv acc db = scan_kv junk g sector body kv acc db.
Proof.
  intros Hb end_ Hm He. revert g kv acc db end_ Hm He.
  induction f as [|f IH]; intros [|g] kv acc db end_ Hm He Hs Hf Hg; try lia. cbn [scan_kv]. unfold bind at 1 4.
  pose proof (read_kv_len junk kv db Hm) as [Ks Kl]. pose proof (steady_read_kv junk kv db) as G1.
  destruct (read_kv junk kv db) as [[r kv1] db1]. simpl in Ks, Kl, G1.
  unfold bind at 1 3. pose proof (Hb r kv1 acc db1) as G2. destruct (body r kv1 acc db1) as [[stop acc1] db2]. simpl in G2.
  destruct stop; [done |]. unfold bind.
  injection G1 as E1 E2 E3. injection G2 as E4 E5 E6.
  pose proof (get_next_inc junk sector kv1 db2) as Hinc. pose proof (steady_get_next junk sector kv1 db2) as G3.
  destruct (get_next_kv_addr junk sector kv1 db2) as [a db3]. simpl in Hinc, G3. injection G3 as E7 E8 E9.
  destruct (Z.eqb_spec a FAILED_ADDR) as [|Ha]; [done |].
  assert (kv_start kv1 < a ≤ end_) as Hrange.
  { unfold end_ in *. rewrite <-E2, <-E5. destruct Hinc as [|]; [lia | lia | lia | unfold FAILED_ADDR; lia | done | done]. }
  unfold end_ in *. apply IH; rewrite ?E8, ?E5, ?E2, ?E9, ?E6, ?E3; simpl; lia.
Qed.

(** The search for the next record. *)
Lemma find_next_loop_fuel f g buf start bak end_ db :
  0 ≤ start → end_ < 4294967296 - 32 → end_ - start < Z.of_nat f → end_ - start < Z.of_nat g →
  find_next_loop f buf start bak end_ db = find_next_loop g buf start bak end_ db.
Proof.
  revert g buf start db. induction f as [|f IH]; intros [|g] buf start db Hs He Hf Hg; cbn [find_next_loop]; try done.
  - destruct (Z.ltb_spec start end_); [lia | done].
  - destruct (Z.ltb_spec start end_); [lia | done].
  - destruct (Z.ltb_spec start end_); [|done]. destruct (_ <? end_); [|done]. cbn [andb negb].
    unfold bind. destruct (flash_read start buf 32 db) as [[r b] db1]. destruct (negb (no_err r)); [done |].
    destruct (find_magic _ _ _ _ _ _); [done |]. rewrite u32_small by (unfold is_u32; lia). apply IH; lia.
Qed.

(** The checksum loop. *)
Lemma crc_data_loop_fuel f g buf addr len n crc db :
  n - len ≤ Z.of_nat f → n - len ≤ Z.of_nat g →
  crc_data_loop f buf addr len n crc db = crc_data_loop g buf addr len n crc db.
Proof.
  revert g buf len crc db. induction f as [|f IH]; intros [|g] buf len crc db Hf Hg; cbn [crc_data_loop]; try done.
  - destruct (Z.ltb_spec len n); [lia | done].
  - destruct (Z.ltb_spec len n); [lia | done].
  - destruct (Z.ltb_spec len n); [|done]. cbn [negb]. unfold bind.
    destruct (flash_read _ _ _ db) as [[r b] db1]. destruct (Z.ltb_spec (len + 32) n); apply IH; lia.
Qed.

(** The copy loop. *)
Lemma copy_loop_fuel f g buf from to len n res db :
  n - len ≤ Z.of_nat f → n - len ≤ Z.of_nat g →
  copy_loop f buf from to len n res db = copy_loop g buf from to len n res db.
Proof.
  revert g buf len res db. induction f as [|f IH]; intros [|g] buf len res db Hf Hg; cbn [copy_loop]; try done.
  - destruct (Z.ltb_spec len n); [lia | done].
  - destruct (Z.ltb_spec len n); [lia | done].
  - destruct (Z.ltb_spec len n); [|done]. cbn [negb]. unfold bind.
    destruct (flash_read _ _ _ db) as [[r b] db1]. destruct (flash_write _ _ _ db1) as [r' db2].
    destruct (Z.ltb_spec (len + 32) n); apply IH; lia.
Qed.
End fuel.

(** C22. The loops of the database end, whatever the flash contains and whatever transfers
    fail: visiting the records of a sector with any body that leaves the sizes alone, the
    search for the next record by its magic word, the checksum over a record and the copy of
    a record all give the same result when the definitions allow them more rounds. *)
Theorem kv_scan_terminates {A} (junk : list Z) (n : nat) (sector : kvdb_sec_info) (kv : fdb_kv) (db : kvdb)
    (body : fdb_err_t → fdb_kv → A → M (bool * A)) (acc : A) (buf : list Z) (start end_ from to len crc : Z)
    (res : fdb_err_t)
    (Hbody : ∀ r kv acc, steady (body r kv acc))
    (Hsec : 0 ≤ se_addr sector) (Hsize : SECTOR_HDR_DATA_SIZE ≤ db_sec_size db)
    (Hmax : se_addr sector + db_sec_size db ≤ db_max_size db) (Hbound : db_max_size db < 2147483647)
    (Hmin : KV_HDR_DATA_SIZE ≤ db_max_size db)
    (Hstart : 0 ≤ start) (Hend : end_ ≤ db_max_size db) :
  scan_sector junk sector body kv acc db
    = scan_kv junk (S (Z.to_nat (db_sec_size db)) + n) sector body
        (set_start (u32 (se_addr sector + SECTOR_HDR_DATA_SIZE)) kv) acc db
  ∧ find_next_loop (S (Z.to_nat end_) + n) buf start start end_ db
    = find_next_loop (S (Z.to_nat end_)) buf start start end_ db
  ∧ crc_data_loop (Z.to_nat len + n) buf start 0 len crc db = crc_data_loop (Z.to_nat len) buf start 0 len crc db
  ∧ copy_loop (Z.to_nat len + n) buf from to 0 len res db = copy_loop (Z.to_nat len) buf from to 0 len res db.
Proof.
  unfold SECTOR_HDR_DATA_SIZE, KV_HDR_DATA_SIZE in *. split_and!.
  - unfold scan_sector, bind, gets. apply scan_kv_fuel; try done; rewrite ?u32_small by (unfold is_u32, SECTOR_HDR_DATA_SIZE; lia);
      unfold SECTOR_HDR_DATA_SIZE; cbn [set_start kv_start]; try lia.
  - apply find_next_loop_fuel; lia.
  - apply crc_data_loop_fuel; lia.
  - apply copy_loop_fuel; lia.
Qed.

(** The traversal of a sector on a chip of two sectors. *)
Definition scan_sec : kvdb_sec_info := mk_sec true 2 1 256 SECTOR_MAGIC_WORD SECTOR_NOT_COMBINED 240 272.
Definition scan_obj : fdb_kv := mk_kv 0 false 0 0 0 (replicate 64 0) 0 0.
Definition scan_db : kvdb :=
  mk_db (mk_part 0 512 true) (mk_dev demo_flash demo_io) true 256 512 0 false false false false scan_obj scan_sec [] [] [].

Lemma kv_scan_terminates_witness :
  scan_sector [] scan_sec traverse_cb scan_obj (FDB_NO_ERR, 240, 272) scan_db
    = scan_kv [] (S (Z.to_nat (db_sec_size scan_db)) + 100) scan_sec traverse_cb
        (set_start (u32 (se_addr scan_sec + SECTOR_HDR_DATA_SIZE)) scan_obj) (FDB_NO_ERR, 240, 272) scan_db.
Proof.
  apply (kv_scan_terminates [] 100 scan_sec scan_obj scan_db traverse_cb (FDB_NO_ERR, 240, 272) [] 0 0 0 0 0 0 FDB_NO_ERR);
    [intros r k [[res rem] e]; unfold traverse_cb; steady | vm_compute; congruence ..].
Defined.
