(* ===== verification/KvdbFind.v ===== *)
(** Looking up a key: on working flash that holds well-formed sectors, [find_kv_no_cache]
    returns the first valid record of the key in the order of the sectors. *)

From S2P Require Import Prelude.
From S2P Require Import CText.
From S2P Require Import KvStore.
From S2P Require Import Nor.
From S2P Require Import Sfud.
From S2P Require Import Fal.
From S2P Require Import FdbUtils.
From S2P Require Import Kvdb.
From S2P Require Import KvdbFlash.
From S2P Require Import KvdbRecord.

(** * The contents of a sector *)

(** A record: status, key and value. *)
Definition record : Type := Z * list Z * list Z.
Definition r_len (r : record) : Z := rec_len r.1.2 r.2.

(** Records behind each other from [a] on, each of them complete. *)
Fixpoint recs_at (m : list Z) (a : Z) (rs : list record) : Prop :=
  match rs with
  | [] => True
  | (st, k, v) :: rs =>
      rec_at m a st k v ∧ rec_fits k v ∧ Forall (λ c, c ≠ 0) k ∧ 0 ≤ st < FDB_KV_STATUS_NUM
      ∧ recs_at m (a + rec_len k v) rs
  end.

Definition recs_end (a : Z) (rs : list record) : Z := foldl (λ a r, a + r_len r) a rs.

Lemma r_len_pos r : 24 ≤ r_len r.
Proof. unfold r_len, rec_len, KV_HDR_DATA_SIZE. pose proof (blen_nonneg r.1.2). pose proof (blen_nonneg r.2). lia. Qed.

Lemma recs_end_len a rs : a + 24 * blen rs ≤ recs_end a rs.
Proof.
  revert a. induction rs as [|r rs IH]; intros a; [change (blen []) with 0; simpl; lia |]. cbn [recs_end foldl].
  pose proof (r_len_pos r). pose proof (IH (a + r_len r)). unfold recs_end, blen in *. cbn [length]. lia.
Qed.

Lemma recs_end_ge a rs : a ≤ recs_end a rs.
Proof. pose proof (recs_end_len a rs). pose proof (blen_nonneg rs). lia. Qed.

Lemma rec_at_len m a st k v : rec_at m a st k v → 24 ≤ rec_len k v ∧ 0 ≤ a ∧ a + rec_len k v ≤ blen m.
Proof. intros (? & ? & _). by pose proof (r_len_pos (st, k, v)). Qed.

(** ** The search for the next record *)

Lemma find_magic_hit buf a end_ :
  4 ≤ a → a + 32 < end_ → end_ < 4294967296 → load_u32 buf 4 = KV_MAGIC_WORD →
  find_magic 28 buf 0 a a end_ = Some a.
Proof.
  intros Ha He Hu Hm. unfold KV_MAGIC_OFFSET.
  assert (Hskip : ∀ n i, 0 ≤ i < 4 → find_magic (S n) buf i a a end_ = find_magic n buf (i + 1) a a end_).
  { intros n i Hi. cbn [find_magic]. unfold KV_MAGIC_OFFSET. rewrite !u32_small by (unfold is_u32; lia).
    destruct (Z.ltb_spec (a + i) end_); [|lia]. destruct (Z.leb_spec a (a + i - 4)); [lia |]. by rewrite andb_false_r. }
  rewrite !Hskip by lia. cbn [find_magic]. unfold KV_MAGIC_OFFSET.
  change (0 + 1 + 1 + 1 + 1) with 4. rewrite Hm, Z.eqb_refl, !u32_small by (unfold is_u32; lia).
  destruct (Z.ltb_spec (a + 4) end_); [|lia]. destruct (Z.leb_spec a (a + 4 - 4)); [|lia]. cbn [negb andb].
  f_equal. lia.
Qed.

Lemma find_magic_miss n buf i a bak end_ :
  0 ≤ i → (∀ j : nat, (j < length buf)%nat → buf !! j = Some 255) → i + Z.of_nat n + 3 ≤ blen buf →
  find_magic n buf i a bak end_ = None.
Proof.
  intros Hi Hb. revert i Hi. induction n as [|n IH]; intros i Hi Hl; [done |]. cbn [find_magic].
  destruct (negb _); [done |].
  assert (load_u32 buf i = 4294967295) as ->.
  { unfold load_u32. assert (take 4 (drop (Z.to_nat i) buf) = [255; 255; 255; 255]) as ->; [|done].
    apply list_eq. intros j. destruct (decide (j < 4)%nat) as [Hj|Hj].
    - rewrite lookup_take_lt, lookup_drop, Hb by len. by do 4 (destruct j as [|j]; [done |]); lia.
    - rewrite !lookup_ge_None_2; [done | simpl; lia | rewrite length_take; lia]. }
  simpl. apply IH; lia.
Qed.

Lemma rec_at_magic m a st k v n : rec_at m a st k v → 8 ≤ n → load_u32 (slice m a n) 4 = KV_MAGIC_WORD.
Proof.
  intros (Ha & Hin & E) Hn. pose proof (blen_nonneg k). pose proof (blen_nonneg v).
  unfold rec_len, KV_HDR_DATA_SIZE in *.
  assert (slice (slice m a n) 4 4 = slice (rec_bytes st k v) 4 4) as Hs.
  { rewrite <-E, !slice_slice by lia. done. }
  change (le_val (slice (slice m a n) 4 4) = KV_MAGIC_WORD). by rewrite Hs.
Qed.

Section search.
Context (db : kvdb) (Hup : up db).

Lemma find_next_hit fuel buf a end_ st k v :
  rec_at (pmem db) a st k v → 4 ≤ a → a + 32 < end_ → end_ ≤ pa_len (db_part db) →
  yields (find_next_loop (S fuel) buf a a end_) db a.
Proof using Hup.
  intros Hrec Ha He Hin. pose proof (po_size _ _ (proj1 Hup)). pose proof (po_in _ _ (proj1 Hup)).
  pose proof (po_off _ _ (proj1 Hup)). cbn [find_next_loop].
  destruct (Z.ltb_spec a end_); [|lia]. rewrite u32_small by (unfold is_u32; lia).
  destruct (Z.ltb_spec (a + 32) end_); [|lia]. cbn [andb negb].
  eapply yields_bind; [apply yields_read; [done | lia | lia | lia] |]. intros d Hup' Hm. cbv beta iota. change (negb (no_err FDB_NO_ERR)) with false. cbv iota.
  rewrite find_magic_hit; [by apply yields_ret | done | done | lia |].
  pose proof (rec_at_magic _ _ _ _ _ 32 Hrec ltac:(lia)) as E. unfold load_u32 in *.
  assert (blen (slice (pmem db) a 32) = 32) as Hl by (apply slice_blen; rewrite ?pmem_blen; (lia || apply Hup)).
  rewrite drop_app_le by len. rewrite take_app_le by len. done.
Qed.

Lemma find_next_miss fuel buf a bak end_ :
  blen buf = 32 → 0 ≤ a → erased (pmem db) a (end_ - a) → end_ ≤ pa_len (db_part db) → end_ - a < Z.of_nat fuel →
  yields (find_next_loop fuel buf a bak end_) db FAILED_ADDR.
Proof using Hup.
  pose proof (po_size _ _ (proj1 Hup)) as Hsz. pose proof (po_in _ _ (proj1 Hup)) as Hpi.
  pose proof (po_off _ _ (proj1 Hup)) as Hpo.
  revert buf a db Hup Hsz Hpi Hpo. induction fuel as [|fuel IH]; intros buf a db' Hup' Hsz Hpi Hpo Hb Ha Her Hin Hf; cbn [find_next_loop].
  { by apply yields_ret. }
  destruct (Z.ltb_spec a end_); [|by apply yields_ret]. rewrite u32_small by (unfold is_u32; lia).
  destruct (Z.ltb_spec (a + 32) end_); [|by apply yields_ret]. cbn [andb negb].
  assert (Hl : blen (slice (pmem db') a 32) = 32) by (apply slice_blen; rewrite ?pmem_blen; (lia || apply Hup')).
  eapply yields_bind; [apply yields_read; [done | lia | lia | lia] |]. intros d Hup1 Hm. cbv beta iota. change (negb (no_err FDB_NO_ERR)) with false. cbv iota.
  rewrite drop_ge, app_nil_r by len. rewrite find_magic_miss; [|lia | | lia].
  - rewrite u32_small by (unfold is_u32; lia). pose proof Hup1 as [[] _].
    apply IH; try done; try lia. intros i Hi. rewrite Hm. apply Her. lia.
  - intros j Hj. rewrite slice_lookup by len. apply Her. len.
Qed.
End search.

(** ** Visiting the records of a sector *)

Lemma bind_gets {A B} (f : kvdb → A) (k : A → M B) db : bind (gets f) k db = k (f db) db.
Proof. done. Qed.

Lemma yields_gets_bind {A B} (f : kvdb → A) (k : A → M B) db b : yields (k (f db)) db b → yields (bind (gets f) k) db b.
Proof. done. Qed.

(** Every record starts more than 48 bytes before [b]: the search by magic word stops there. *)
Fixpoint starts_before (b a : Z) (rs : list record) : Prop :=
  match rs with
  | [] => True
  | r :: rs => a + 48 < b ∧ starts_before b (a + r_len r) rs
  end.

(** A sector of size [s] at [sec] that holds the records [rs], followed by erased bytes. *)
Record sector_holds (m : list Z) (s sec : Z) (rs : list record) : Prop := {
  sh_ne : rs ≠ [];
  sh_recs : recs_at m (sec + SECTOR_HDR_DATA_SIZE) rs;
  sh_starts : starts_before (sec + s) (sec + SECTOR_HDR_DATA_SIZE) rs;
  sh_end : recs_end (sec + SECTOR_HDR_DATA_SIZE) rs ≤ sec + s;
  sh_rest : erased m (recs_end (sec + SECTOR_HDR_DATA_SIZE) rs) (sec + s - recs_end (sec + SECTOR_HDR_DATA_SIZE) rs)
}.

(** The cached end of the sector at [sec], if any, is [e]; a full sector has the address of its
    first record there. *)
Definition cached_end (db : kvdb) (sec e : Z) : Prop :=
  ∀ i c, list_find (λ x, se_addr x = sec) (db_sec_cache db) = Some (i, c) →
    se_empty_kv c = FAILED_ADDR ∨ se_empty_kv c = sec + SECTOR_HDR_DATA_SIZE ∨ se_empty_kv c = e.

Lemma align_down s sec a : 0 < s → (s | sec) → sec ≤ a < sec + s → FDB_ALIGN_DOWN a s = sec.
Proof.
  intros Hs [q ->] Ha. unfold FDB_ALIGN_DOWN. f_equal. symmetry. apply (Z.div_unique_pos a s q (a - q * s)); lia.
Qed.

Section visit.
Context (junk : list Z) (s sec : Z) (sector : kvdb_sec_info).
Context (Hs : 0 < s) (Hsec : 0 ≤ sec) (Hal : (s | sec)).
Context (Hsa : se_addr sector = sec) (Hst : se_store sector ≠ FDB_SECTOR_STORE_EMPTY).

(** The bounds of the database, for the sector at [sec]. *)
Definition fits_db (db : kvdb) : Prop :=
  up db ∧ db_sec_size db = s ∧ sec + s ≤ pa_len (db_part db) ∧ pa_len (db_part db) ≤ db_max_size db.

Lemma next_rec db a st k v e :
  fits_db db → rec_at (pmem db) a st k v → sec + SECTOR_HDR_DATA_SIZE < a → a + 48 < sec + s → a ≠ e →
  cached_end db sec e → yields (find_next_kv_addr junk a (u32 (sec + s - SECTOR_HDR_DATA_SIZE))) db a.
Proof using Hs Hsec Hal.
  intros (Hup & Es & Hin & _) Hrec Ha Hend Hne Hc. pose proof (po_size _ _ (proj1 Hup)). pose proof (po_in _ _ (proj1 Hup)).
  pose proof (po_off _ _ (proj1 Hup)). unfold SECTOR_HDR_DATA_SIZE in *. unfold find_next_kv_addr.
  apply yields_gets_bind. rewrite Es. apply yields_gets_bind. rewrite (align_down s sec) by (done || lia).
  assert (match snd <$> list_find (λ x, se_addr x = sec) (db_sec_cache db) with Some c => a =? se_empty_kv c | None => false end = false) as ->.
  { destruct (list_find _ _) as [[i c]|] eqn:E; [|done]. simpl. apply Z.eqb_neq.
    destruct (Hc i c E) as [-> | [-> | ->]]; [unfold FAILED_ADDR; lia | unfold SECTOR_HDR_DATA_SIZE; lia | done]. }
  rewrite u32_small by (unfold is_u32; lia).
  eapply find_next_hit; [done | done | lia | lia | lia].
Qed.

Lemma next_end db e :
  fits_db db → sec + SECTOR_HDR_DATA_SIZE ≤ e ≤ sec + s → erased (pmem db) e (sec + s - e) →
  yields (find_next_kv_addr junk e (u32 (sec + s - SECTOR_HDR_DATA_SIZE))) db FAILED_ADDR.
Proof using Hs Hsec.
  intros (Hup & Es & Hin & _) He Her. pose proof (po_size _ _ (proj1 Hup)). pose proof (po_in _ _ (proj1 Hup)).
  pose proof (po_off _ _ (proj1 Hup)). unfold SECTOR_HDR_DATA_SIZE in *. unfold find_next_kv_addr.
  do 2 apply yields_gets_bind.
  destruct (match _ with Some c => _ | None => _ end); [by apply yields_ret |].
  rewrite u32_small by (unfold is_u32; lia).
  apply find_next_miss; [done | len | lia | | lia | lia]. intros i Hi. apply Her. lia.
Qed.

(** The address after a record that was read. *)
Lemma next_after db st k v name a r :
  fits_db db → rec_fits k v → sec ≤ a → a + rec_len k v ≤ sec + s →
  yields (find_next_kv_addr junk (a + rec_len k v) (u32 (sec + s - SECTOR_HDR_DATA_SIZE))) db r →
  r = FAILED_ADDR ∨ r ≤ sec + s →
  yields (get_next_kv_addr junk sector (rec_obj st k v name a)) db r.
Proof using Hs Hsec Hsa Hst.
  intros (Hup & Es & Hin & _) Hfit Ha Hend Hy Hr. pose proof (po_size _ _ (proj1 Hup)). pose proof (po_in _ _ (proj1 Hup)).
  pose proof (po_off _ _ (proj1 Hup)). pose proof (blen_nonneg k). pose proof (blen_nonneg v).
  assert (Hl : rec_len k v = 24 + blen k + blen v) by done.
  unfold get_next_kv_addr. apply yields_gets_bind.
  destruct (Z.eqb_spec (se_store sector) FDB_SECTOR_STORE_EMPTY); [done |]. cbn [rec_obj kv_start kv_crc_is_ok kv_len].
  destruct (Z.eqb_spec a FAILED_ADDR); [unfold FAILED_ADDR in *; lia |].
  rewrite Es, Hsa, (u32_small (sec + s)), (u32_small (a + rec_len k v)) by (unfold is_u32; lia).
  destruct (Z.leb_spec a (sec + s)); [|lia].
  eapply yields_bind; [done |]. intros d1 Hup1 M1.
  destruct (Z.eqb_spec r FAILED_ADDR) as [-> | Hne]; [by apply yields_ret |].
  destruct (Z.ltb_spec (sec + s) r); [destruct Hr; [done | lia] |].
  destruct (Z.eqb_spec (rec_len k v) 0); [lia |]. by apply yields_ret.
Qed.

(** The loop over the records as a function of the records. *)
Fixpoint visit {A} (cb : fdb_kv → A → bool * A) (rs : list record) (a : Z) (kv : fdb_kv) (acc : A) : bool * fdb_kv * A :=
  match rs with
  | [] => (false, kv, acc)
  | (st, k, v) :: rs =>
      let kv := rec_obj st k v (kv_name kv) a in
      let '(stop, acc) := cb kv acc in
      if stop then (true, kv, acc) else
      match rs with
      | [] => (false, set_start FAILED_ADDR kv, acc)
      | _ => visit cb rs (a + rec_len k v) (set_start (a + rec_len k v) kv) acc
      end
  end.

Lemma blen_obj_name st k v name a :
  rec_fits k v → blen name = FDB_KV_NAME_MAX → blen (kv_name (rec_obj st k v name a)) = FDB_KV_NAME_MAX.
Proof using. intros [[H1 H2] _ _ _] Hn. unfold FDB_KV_NAME_MAX in *. cbn [rec_obj kv_name]. len. Qed.

Lemma scan_visit {A} (body : fdb_err_t → fdb_kv → A → M (bool * A)) (cb : fdb_kv → A → bool * A) fuel rs a kv acc db :
  let e := recs_end a rs in
  (∀ r kv acc, body r kv acc = ret (cb kv acc)) → fits_db db → cached_end db sec e → recs_at (pmem db) a rs → rs ≠ [] → starts_before (sec + s) a rs → e ≤ sec + s →
  erased (pmem db) e (sec + s - e) → sec + SECTOR_HDR_DATA_SIZE ≤ a → kv_start kv = a →
  blen (kv_name kv) = FDB_KV_NAME_MAX → (length rs ≤ fuel)%nat →
  yields (scan_kv junk fuel sector body kv acc) db (visit cb rs a kv acc).
Proof using Hs Hsec Hal Hsa Hst.
  revert fuel a kv acc db. induction rs as [|[[st k] v] rs IH]; [done |].
  intros [|fuel] a kv acc db e Hbody Hfits Hc Hrecs _ Hsb He Her Ha Hkv Hname Hf; [simpl in Hf; lia |].
  destruct Hrecs as (Hrec & Hfit & _ & Hstat & Hrecs). destruct Hsb as [Hsb1 Hsb2].
  change (r_len (st, k, v)) with (rec_len k v) in *.
  assert (Ee : e = recs_end (a + rec_len k v) rs) by done. pose proof (recs_end_ge (a + rec_len k v) rs) as Hge.
  pose proof Hfits as (Hup & Es & Hin & Hmax). pose proof (rec_at_len _ _ _ _ _ Hrec).
  unfold SECTOR_HDR_DATA_SIZE in *. cbn [scan_kv visit].
  eapply yields_bind.
  { apply read_kv_rec; [done | done | done | by rewrite Hkv | lia | done]. }
  intros d1 Hup1 M1. rewrite Hkv. cbv beta iota. rewrite Hbody, bind_ret.
  destruct (cb (rec_obj st k v (kv_name kv) a) acc) as [stop acc']. destruct stop; [by apply yields_ret |].
  assert (Hfits1 : fits_db (set_dev d1 db)) by done.
  destruct rs as [|r rs].
  - cbn [recs_end foldl] in Ee. eapply yields_bind.
    + apply (next_after _ st k v (kv_name kv) a FAILED_ADDR); [done | done | lia | lia | | by left].
      apply next_end; [done | unfold SECTOR_HDR_DATA_SIZE; lia |]. rewrite M1. by rewrite <-Ee.
    + intros d2 Hup2 M2. rewrite Z.eqb_refl. by apply yields_ret.
  - assert (Hnext : a + rec_len k v + 48 < sec + s) by apply Hsb2. pose proof (r_len_pos r).
    pose proof (recs_end_ge (a + rec_len k v + r_len r) rs). change (recs_end (a + rec_len k v) (r :: rs)) with (recs_end (a + rec_len k v + r_len r) rs) in *.
    eapply yields_bind.
    + apply (next_after _ st k v (kv_name kv) a (a + rec_len k v)); [done | done | lia | lia | | right; lia].
      destruct r as [[st' k'] v']. eapply (next_rec _ _ st' k' v' e); [done | rewrite M1; apply Hrecs | unfold SECTOR_HDR_DATA_SIZE; lia | lia | lia | done].
    + intros d2 Hup2 M2. rewrite set_dev_dev in *. rewrite M1 in M2.
      destruct (Z.eqb_spec (a + rec_len k v) FAILED_ADDR) as [E|_].
      { pose proof (po_size _ _ (proj1 Hup)). pose proof (po_in _ _ (proj1 Hup)). pose proof (po_off _ _ (proj1 Hup)). unfold FAILED_ADDR in E. lia. }
      apply IH; try done; rewrite ?M2; try done; try (unfold SECTOR_HDR_DATA_SIZE; lia).
      * by apply blen_obj_name.
      * simpl in Hf. simpl. lia.
Qed.
End visit.

(** * The layout of a database *)

(** A sector: [None] if its header is not valid, else its store status and its records. *)
Notation flash_sector := (option (Z * list record)).

(** The header of a sector at [sec], which is not combined with others. *)
Definition sec_hdr_at (m : list Z) (sec store : Z) : Prop :=
  let hdr := slice m sec SECTOR_HDR_DATA_SIZE in
  load_u32 hdr 4 = SECTOR_MAGIC_WORD ∧ load_u32 hdr 8 = SECTOR_NOT_COMBINED
  ∧ _fdb_get_status hdr FDB_SECTOR_STORE_STATUS_NUM = store.

Definition in_use (store : Z) : bool := (store =? FDB_SECTOR_STORE_USING) || (store =? FDB_SECTOR_STORE_FULL).

Definition sector_at (m : list Z) (s sec : Z) (sc : flash_sector) : Prop :=
  match sc with
  | None => load_u32 (slice m sec SECTOR_HDR_DATA_SIZE) 4 ≠ SECTOR_MAGIC_WORD
  | Some (store, rs) => sec_hdr_at m sec store ∧ if in_use store then sector_holds m s sec rs else rs = []
  end.

(** The sectors behind each other from address 0. *)
Definition layout (m : list Z) (s : Z) (secs : list flash_sector) : Prop :=
  ∀ i sc, secs !! i = Some sc → sector_at m s (Z.of_nat i * s) sc.

(** A cached sector agrees with the flash. *)
Definition cache_sound (s : Z) (secs : list flash_sector) (c : kvdb_sec_info) : Prop :=
  se_addr c = FDB_DATA_UNUSED
  ∨ ∃ i store rs, secs !! i = Some (Some (store, rs)) ∧ se_addr c = Z.of_nat i * s ∧ se_store c = store
      ∧ se_combined c = SECTOR_NOT_COMBINED
      ∧ (se_empty_kv c = FAILED_ADDR ∨ se_empty_kv c = Z.of_nat i * s + SECTOR_HDR_DATA_SIZE
         ∨ se_empty_kv c = recs_end (Z.of_nat i * s + SECTOR_HDR_DATA_SIZE) rs).

(** A database on working flash that holds [secs]. *)
Record holds (s : Z) (secs : list flash_sector) (db : kvdb) : Prop := {
  ho_up : up db;
  ho_pos : SECTOR_HDR_DATA_SIZE ≤ s;
  ho_size : db_sec_size db = s;
  ho_max : db_max_size db = blen secs * s;
  ho_len : pa_len (db_part db) = blen secs * s;
  ho_layout : layout (pmem db) s secs;
  ho_cache : Forall (cache_sound s secs) (db_sec_cache db)
}.

(** The records in the order of a search that starts at sector [k], with their addresses. *)
Fixpoint addressed (a : Z) (rs : list record) : list (Z * record) :=
  match rs with
  | [] => []
  | r :: rs => (a, r) :: addressed (a + r_len r) rs
  end.
Definition sector_recs (s : Z) (secs : list flash_sector) (i : nat) : list (Z * record) :=
  match secs !! i with
  | Some (Some (_, rs)) => addressed (Z.of_nat i * s + SECTOR_HDR_DATA_SIZE) rs
  | _ => []
  end.
Definition search_order (s : Z) (secs : list flash_sector) (k : nat) : list (Z * record) :=
  flat_map (sector_recs s secs) (seq k (length secs - k) ++ seq 0 k).

(** A valid record of a key. *)
Definition is_value (key : list Z) (x : Z * record) : Prop := x.2.1.1 = FDB_KV_WRITE ∧ x.2.1.2 = key.
#[export] Instance is_value_dec key x : Decision (is_value key x).
Proof. unfold is_value. apply _. Defined.
Definition first_value (key : list Z) (l : list (Z * record)) : option (Z * record) := head (filter (is_value key) l).

(** ** The search as a function of the records *)

(** [find_kv_cb] has no effect. *)
Definition find_cb (key : list Z) (kv : fdb_kv) (find_ok : bool) : bool * bool :=
  if negb (blen key =? kv_name_len kv) then (false, find_ok) else
  if kv_crc_is_ok kv && (kv_status kv =? FDB_KV_WRITE) && strncmp_eq (kv_name kv) key (blen key) then (true, true)
  else (false, find_ok).

Lemma find_kv_cb_pure key kv ok : find_kv_cb key kv ok = ret (find_cb key kv ok).
Proof. unfold find_kv_cb, find_cb. by repeat case_match. Qed.

Lemma find_cb_rec key st k v name a ok :
  Forall (λ c, c ≠ 0) key → Forall (λ c, c ≠ 0) k →
  find_cb key (rec_obj st k v name a) ok = if decide (is_value key (a, (st, k, v))) then (true, true) else (false, ok).
Proof.
  intros Hkey Hk. unfold find_cb, is_value. cbn [rec_obj kv_name_len kv_crc_is_ok kv_status kv_name fst snd andb].
  destruct (Z.eqb_spec (blen key) (blen k)) as [El|El]; cbn [negb]; [|rewrite decide_False; [done | by intros [_ ->]]].
  assert (strncmp_eq (k ++ 0 :: drop (S (length k)) name) key (blen key) = bool_decide (k = key)) as ->.
  { unfold strncmp_eq. rewrite take_app_le by len. rewrite !take_ge by len. by rewrite !cstr_id. }
  destruct (Z.eqb_spec st FDB_KV_WRITE); cbn [andb]; [|by rewrite decide_False by naive_solver].
  case_bool_decide; [by rewrite decide_True | by rewrite decide_False by naive_solver].
Qed.

(** What a search over the records [l] returns. *)
Definition search_result (key : list Z) (l : list (Z * record)) (ok : bool) (kv : fdb_kv) : Prop :=
  blen (kv_name kv) = FDB_KV_NAME_MAX ∧
  match first_value key l with
  | Some (a, (st, k, v)) => ok = true ∧ ∃ name, kv = rec_obj st k v name a
  | None => ok = false
  end.

Lemma visit_find key m rs a kv :
  Forall (λ c, c ≠ 0) key → recs_at m a rs → blen (kv_name kv) = FDB_KV_NAME_MAX →
  ∃ ok kv', visit (find_cb key) rs a kv false = (ok, kv', ok) ∧ search_result key (addressed a rs) ok kv'.
Proof.
  intros Hkey. revert a kv. induction rs as [|[[st k] v] rs IH]; intros a kv Hrecs Hn; [by exists false, kv |].
  destruct Hrecs as (_ & Hfit & Hk & _ & Hrecs). cbn [visit addressed]. rewrite find_cb_rec by done.
  unfold search_result, first_value. rewrite filter_cons.
  pose proof (blen_obj_name st k v (kv_name kv) a Hfit Hn) as Hn'.
  destruct (decide _).
  { eexists true, _. split; [done |]. split; [done |]. split; [done |]. by eexists. }
  destruct rs as [|r rs].
  { eexists false, _. split; [done |]. by split. }
  exact (IH (a + rec_len k v) (set_start (a + rec_len k v) _) Hrecs Hn').
Qed.

(** ** Reading a sector *)

(** The operations of a search change the device and the sector cache only. *)
Definition keeps (db db' : kvdb) : Prop := ∃ d l, db' = set_sec_cache l (set_dev d db).

#[export] Instance keeps_preorder : PreOrder keeps.
Proof.
  split; [intros db; exists (db_dev db), (db_sec_cache db); by destruct db |].
  intros d1 d2 d3 (d & l & ->) (d' & l' & ->). exists d', l'. by destruct d1.
Qed.

Section lookup.
Context (junk : list Z) (kv0 : fdb_kv) (sec0 : kvdb_sec_info) (s : Z) (secs : list flash_sector).

Lemma holds_bounds db i sc :
  holds s secs db → secs !! i = Some sc →
  16 ≤ s ∧ 0 ≤ Z.of_nat i * s ∧ Z.of_nat i * s + s ≤ blen secs * s ∧ blen secs * s < 2147483648.
Proof.
  intros Hh Hi. apply lookup_lt_Some in Hi. pose proof (ho_pos _ _ _ Hh). unfold SECTOR_HDR_DATA_SIZE in *.
  pose proof (ho_up _ _ _ Hh) as [Hr _]. pose proof (po_size _ _ Hr). pose proof (po_in _ _ Hr). pose proof (po_off _ _ Hr).
  rewrite (ho_len _ _ _ Hh) in *. unfold blen in *. split_and!; nia.
Qed.

Lemma holds_dev db d : holds s secs db → up (set_dev d db) → pmem (set_dev d db) = pmem db → holds s secs (set_dev d db).
Proof. intros [] Hup Hm. constructor; try done. by rewrite Hm. Qed.

Lemma holds_cache db l : holds s secs db → Forall (cache_sound s secs) l → holds s secs (set_sec_cache l db).
Proof. intros [] Hl. by constructor. Qed.

Lemma yields_holds {A} (m : M A) db a :
  holds s secs db → yields m db a → ∃ db', m db = (a, db') ∧ holds s secs db' ∧ keeps db db' ∧ pmem db' = pmem db.
Proof.
  intros Hh (d & E & Hup & M & _). exists (set_dev d db). split_and!; [done | | | by apply pmem_set_dev].
  - apply holds_dev; [done | done | by apply pmem_set_dev].
  - exists d, (db_sec_cache db). by destruct db.
Qed.

(** Adding a sound entry. *)
Lemma update_sector_sound db c :
  holds s secs db → cache_sound s secs c → se_check_ok c = true →
  ∃ db', update_sector_cache c db = (tt, db') ∧ holds s secs db' ∧ keeps db db' ∧ pmem db' = pmem db.
Proof.
  intros Hh Hc Hok. unfold update_sector_cache, modify. rewrite Hok. eexists. split; [done |].
  split_and!; [|by eexists (db_dev db), _; destruct db | done].
  apply holds_cache; [done |]. pose proof (ho_cache _ _ _ Hh).
  destruct (find_sector_slot _ _ _ _) as [[i|] [j|]]; try done; by apply Forall_insert.
Qed.

Lemma cached_sector db i sc n c :
  holds s secs db → secs !! i = Some sc → list_find (λ x, se_addr x = Z.of_nat i * s) (db_sec_cache db) = Some (n, c) →
  ∃ store rs, sc = Some (store, rs) ∧ se_addr c = Z.of_nat i * s ∧ se_store c = store ∧ se_combined c = SECTOR_NOT_COMBINED
    ∧ (se_empty_kv c = FAILED_ADDR ∨ se_empty_kv c = Z.of_nat i * s + SECTOR_HDR_DATA_SIZE
       ∨ se_empty_kv c = recs_end (Z.of_nat i * s + SECTOR_HDR_DATA_SIZE) rs).
Proof.
  intros Hh Hi Hf. apply list_find_Some in Hf as (Hn & Ea & _). pose proof (holds_bounds db i sc Hh Hi).
  pose proof (ho_cache _ _ _ Hh) as Hc. rewrite Forall_lookup in Hc.
  destruct (Hc n c Hn) as [E|(j & store & rs & Hj & E & Hst & Hco & He)].
  - unfold FDB_DATA_UNUSED in E. lia.
  - assert (j = i) as -> by nia. exists store, rs. rewrite Hi in Hj. by injection Hj as ->.
Qed.

Lemma read_sector_spec db i sc sector0 :
  holds s secs db → secs !! i = Some sc →
  ∃ r sec' db', read_sector_info junk kv0 (Z.of_nat i * s) sector0 false db = ((r, sec'), db')
    ∧ holds s secs db' ∧ keeps db db' ∧ se_addr sec' = Z.of_nat i * s ∧ se_combined sec' = SECTOR_NOT_COMBINED
    ∧ match sc with Some (store, _) => r = FDB_NO_ERR ∧ se_store sec' = store | None => r ≠ FDB_NO_ERR end.
Proof.
  intros Hh Hi. pose proof (holds_bounds db i sc Hh Hi) as (Hs16 & Ha & Hin & Hu).
  unfold read_sector_info, get_sector_from_cache. unfold bind at 1, gets at 1. unfold bind at 1, gets at 1.
  destruct (list_find _ _) as [[n c]|] eqn:Ef.
  { destruct (cached_sector db i sc n c Hh Hi Ef) as (store & rs & -> & Ea & Est & Eco & _).
    exists FDB_NO_ERR, c, db. by split_and!. }
  cbn [fmap option_fmap option_map]. unfold bind at 1.
  destruct (yields_holds _ db _ Hh (yields_read db (Z.of_nat i * s) (replicate 16 0) SECTOR_HDR_DATA_SIZE (ho_up _ _ _ Hh) Ha
    eq_refl ltac:(rewrite (ho_len _ _ _ Hh); unfold SECTOR_HDR_DATA_SIZE; lia))) as (db1 & E1 & Hh1 & K1 & M1).
  rewrite E1. change (drop (Z.to_nat SECTOR_HDR_DATA_SIZE) (replicate 16 0)) with (@nil Z). rewrite app_nil_r.
  pose proof (ho_layout _ _ _ Hh i sc Hi) as Hat. set (hdr := slice (pmem db) (Z.of_nat i * s) SECTOR_HDR_DATA_SIZE) in *.
  destruct sc as [[store rs]|]; unfold sector_at in Hat; fold hdr in Hat.
  - destruct Hat as [(Em & Ec & Est) _]. fold hdr in Em, Ec, Est. rewrite Em, Ec, Est, !Z.eqb_refl. cbn [negb andb orb].
    cbv beta iota zeta. rewrite bind_gets.
    destruct (snd <$> list_find (λ x, se_addr x = Z.of_nat i * s) (db_sec_cache db1)) as [c|].
    { eexists _, _, db1. by split_and!. }
    destruct (update_sector_sound db1 (mk_sec true store
      (_fdb_get_status (drop 1 hdr) FDB_SECTOR_DIRTY_STATUS_NUM) (Z.of_nat i * s) SECTOR_MAGIC_WORD SECTOR_NOT_COMBINED 0 FAILED_ADDR))
      as (db2 & E2 & Hh2 & K2 & M2); [done | | done |].
    { right. exists i, store, rs. split_and!; try done. by left. }
    unfold bind. rewrite E2. eexists _, _, db2. split; [done |]. split_and!; try done. by etrans.
  - destruct (Z.eqb_spec (load_u32 hdr 4) SECTOR_MAGIC_WORD); [done |]. cbn [negb orb].
    eexists _, _, db1. by split_and!.
Qed.

(** Searching a sector. *)
Lemma scan_sector_find db i store rs sector0 key kv :
  holds s secs db → secs !! i = Some (Some (store, rs)) → in_use store = true →
  se_addr sector0 = Z.of_nat i * s → se_store sector0 = store →
  Forall (λ c, c ≠ 0) key → blen (kv_name kv) = FDB_KV_NAME_MAX →
  ∃ ok kv', yields (scan_sector junk sector0 (λ _ kv acc, find_kv_cb key kv acc) kv false) db (ok, kv', ok)
    ∧ search_result key (sector_recs s secs i) ok kv'.
Proof.
  intros Hh Hi Huse Ea Est Hkey Hn. pose proof (holds_bounds db i _ Hh Hi) as (Hs16 & Ha & Hin & Hu).
  pose proof (ho_layout _ _ _ Hh i _ Hi) as [_ Hat]. rewrite Huse in Hat. destruct Hat as [Hne Hrecs Hsb He Her].
  set (a := Z.of_nat i * s + SECTOR_HDR_DATA_SIZE) in *.
  destruct (visit_find key (pmem db) rs a (set_start a kv) Hkey Hrecs Hn) as (ok & kv' & Ev & Hres).
  exists ok, kv'. split; [|unfold sector_recs; by rewrite Hi].
  unfold scan_sector. apply yields_gets_bind. rewrite Ea, (ho_size _ _ _ Hh), <-Ev.
  rewrite u32_small by (unfold is_u32, SECTOR_HDR_DATA_SIZE; lia). fold a.
  apply (scan_visit junk s (Z.of_nat i * s) sector0); try done.
  - lia.
  - by exists (Z.of_nat i).
  - rewrite Est. intros E. by rewrite E in Huse.
  - intros r k acc. apply find_kv_cb_pure.
  - split_and!; [apply Hh | apply Hh | rewrite (ho_len _ _ _ Hh); lia | rewrite (ho_len _ _ _ Hh), (ho_max _ _ _ Hh); lia].
  - intros n c Hf. destruct (cached_sector db i _ n c Hh Hi Hf) as (st' & rs' & E & _ & _ & _ & Hend). by injection E as <- <-.
  - pose proof (recs_end_len a rs). unfold blen in *.
    unfold a, SECTOR_HDR_DATA_SIZE in *. lia.
Qed.

(** The body of [kv_iterator]. *)
Definition iter_body (key : list Z) (sec_addr : Z) (sector : kvdb_sec_info) (acc : fdb_kv * bool)
    : M (bool * kvdb_sec_info * (fdb_kv * bool)) :=
  let '(kv, acc) := acc in
  '(r, sector) <- read_sector_info junk kv0 sec_addr sector false;;
  if negb (no_err r) then ret (false, sector, (kv, acc)) else
  if has_kv sector then
    '(stop, kv, acc) <- scan_sector junk sector (λ _ kv acc, find_kv_cb key kv acc) kv acc;;
    ret (stop, sector, (kv, acc))
  else ret (false, sector, (kv, acc)).

Lemma iter_body_find db i sc key kv sector0 :
  holds s secs db → secs !! i = Some sc → Forall (λ c, c ≠ 0) key → blen (kv_name kv) = FDB_KV_NAME_MAX →
  ∃ ok sec' kv' db', iter_body key (Z.of_nat i * s) sector0 (kv, false) db = ((ok, sec', (kv', ok)), db')
    ∧ holds s secs db' ∧ keeps db db' ∧ se_addr sec' = Z.of_nat i * s ∧ se_combined sec' = SECTOR_NOT_COMBINED
    ∧ search_result key (sector_recs s secs i) ok kv'.
Proof.
  intros Hh Hi Hkey Hn. destruct (read_sector_spec db i sc sector0 Hh Hi) as (r & sec' & db1 & E1 & Hh1 & K1 & Ea & Eco & Hsc).
  assert (Hnone : match sc with Some (store, _) => in_use store = false | None => True end →
    sector_recs s secs i = []).
  { intros Hc. unfold sector_recs. rewrite Hi. destruct sc as [[store rs]|]; [|done].
    pose proof (ho_layout _ _ _ Hh i _ Hi) as [_ Hat]. rewrite Hc in Hat. by subst rs. }
  unfold iter_body, bind at 1. rewrite E1. destruct sc as [[store rs]|].
  - destruct Hsc as [-> Est]. change (negb (no_err FDB_NO_ERR)) with false. cbv iota.
    unfold has_kv. rewrite Est. fold (in_use store). destruct (in_use store) eqn:Huse.
    + destruct (scan_sector_find db1 i store rs sec' key kv Hh1 Hi Huse Ea Est Hkey Hn) as (ok & kv' & Hy & Hres).
      destruct (yields_holds _ _ _ Hh1 Hy) as (db2 & E2 & Hh2 & K2 & _). unfold bind. rewrite E2.
      exists ok, sec', kv', db2. split_and!; try done. by etrans.
    + exists false, sec', kv, db1. split; [done |]. rewrite (Hnone eq_refl). by split_and!.
  - unfold no_err. rewrite bool_decide_false by done. exists false, sec', kv, db1. split; [done |].
    rewrite (Hnone I). by split_and!.
Qed.

(** ** The loop over the sectors *)

(** [n] sectors from index [i] on, with wrap-around. *)
Fixpoint cycle (n i : nat) : list nat :=
  match n with
  | O => []
  | S n => i :: cycle n (if decide (S i < length secs)%nat then S i else 0%nat)
  end.

Lemma cycle_low n i : (i + n ≤ length secs)%nat → cycle n i = seq i n.
Proof.
  revert i. induction n as [|n IH]; intros i Hn; [done |]. cbn [cycle seq]. f_equal.
  destruct n as [|n]; [done |]. rewrite decide_True by lia. apply IH. lia.
Qed.

Lemma cycle_all k : (k < length secs)%nat → cycle (length secs) k = seq k (length secs - k) ++ seq 0 k.
Proof.
  intros Hk. replace (length secs) with (length secs - k + k)%nat at 1 by lia.
  assert (Hn : ∀ n i, (0 < n)%nat → (i + n = length secs)%nat → cycle (n + k) i = seq i n ++ seq 0 k).
  { induction n as [|n IH]; intros i Hp Hi; [lia |]. cbn [cycle seq Nat.add app]. f_equal. destruct n as [|n].
    - rewrite decide_False by lia. apply cycle_low. lia.
    - rewrite decide_True by lia. apply IH; lia. }
  apply Hn; lia.
Qed.

Lemma next_sector db i n sec' :
  holds s secs db → (i < length secs)%nat → se_addr sec' = Z.of_nat i * s → se_combined sec' = SECTOR_NOT_COMBINED →
  (0 < n ≤ length secs)%nat →
  get_next_sector_addr sec' (u32 (Z.of_nat n * s)) db =
    (if decide (n < length secs)%nat then Z.of_nat (if decide (S i < length secs)%nat then S i else 0%nat) * s else FAILED_ADDR, db).
Proof.
  intros Hh Hi Ea Eco Hn. destruct (lookup_lt_is_Some_2 secs i Hi) as [sc Hsc].
  pose proof (holds_bounds db i sc Hh Hsc) as (Hs16 & Ha & Hin & Hu). unfold get_next_sector_addr, bind, gets.
  rewrite Eco, Z.eqb_refl, Ea, (ho_size _ _ _ Hh), (ho_max _ _ _ Hh).
  assert (Z.of_nat n * s ≤ blen secs * s) by (unfold blen; nia).
  rewrite (u32_small (Z.of_nat n * s)), (u32_small (Z.of_nat i * s + s)) by (unfold is_u32; lia).
  rewrite u32_small by (unfold is_u32; lia).
  destruct (decide (n < length secs)%nat).
  - destruct (Z.leb_spec (Z.of_nat n * s + s) (blen secs * s)); [|unfold blen in *; nia].
    destruct (decide (S i < length secs)%nat).
    + destruct (Z.ltb_spec (Z.of_nat i * s + s) (blen secs * s)); [|unfold blen in *; nia]. unfold ret. f_equal. lia.
    + destruct (Z.ltb_spec (Z.of_nat i * s + s) (blen secs * s)); [unfold blen in *; nia|]. done.
  - destruct (Z.leb_spec (Z.of_nat n * s + s) (blen secs * s)); [unfold blen in *; nia|]. done.
Qed.

(** The result of a search that goes on. *)
Lemma search_result_app key l1 l2 ok kv :
  first_value key l1 = None → search_result key l2 ok kv → search_result key (l1 ++ l2) ok kv.
Proof.
  unfold search_result, first_value. intros H1 [Hn H2]. split; [done |]. rewrite filter_app.
  by destruct (filter _ l1).
Qed.

Lemma search_result_stop key l1 l2 kv : search_result key l1 true kv → search_result key (l1 ++ l2) true kv.
Proof.
  unfold search_result, first_value. intros [Hn H1]. split; [done |]. rewrite filter_app.
  by destruct (filter _ l1).
Qed.

Lemma sector_loop_find fuel n i key kv sector0 db :
  holds s secs db → Forall (λ c, c ≠ 0) key → blen (kv_name kv) = FDB_KV_NAME_MAX →
  (i < length secs)%nat → (0 < n ≤ length secs)%nat → (n ≤ fuel)%nat →
  ∃ ok sec' kv' db',
    sector_loop fuel (iter_body key) (Z.of_nat i * s) (Z.of_nat (length secs - n) * s) sector0 (kv, false) db
      = ((sec', (kv', ok)), db')
    ∧ holds s secs db' ∧ keeps db db' ∧ search_result key (flat_map (sector_recs s secs) (cycle n i)) ok kv'.
Proof.
  revert n i kv sector0 db. induction fuel as [|fuel IH]; intros n i kv sector0 db Hh Hkey Hname Hi Hn Hf; [lia |].
  destruct n as [|n]; [lia |]. destruct (lookup_lt_is_Some_2 secs i Hi) as [sc Hsc].
  destruct (iter_body_find db i sc key kv sector0 Hh Hsc Hkey Hname) as (ok & sec1 & kv1 & db1 & E1 & Hh1 & K1 & Ea & Eco & Hres).
  cbn [sector_loop cycle flat_map]. rewrite bind_gets, (ho_size _ _ _ Hh). unfold bind at 1. rewrite E1. destruct ok.
  { exists true, sec1, kv1, db1. split_and!; try done. by apply search_result_stop. }
  replace (Z.of_nat (length secs - S n) * s + s) with (Z.of_nat (length secs - n) * s)
    by (rewrite !Nat2Z.inj_sub, Nat2Z.inj_succ by lia; lia).
  unfold bind. rewrite (next_sector db1 i (length secs - n)) by (done || lia).
  assert (Hnone : first_value key (sector_recs s secs i) = None).
  { destruct Hres as [_ Hr]. by destruct (first_value _ _) as [[a [[st k] v]]|]; [destruct Hr |]. }
  destruct n as [|n].
  - rewrite decide_False by lia. exists false, sec1, kv1, db1. rewrite Z.eqb_refl. split_and!; try done.
    by rewrite app_nil_r.
  - rewrite decide_True by lia. set (j := if decide (S i < length secs)%nat then S i else 0%nat).
    assert (j < length secs)%nat as Hj by (unfold j; destruct (decide _); lia).
    destruct (lookup_lt_is_Some_2 secs j Hj) as [scj Hscj]. pose proof (holds_bounds db1 j scj Hh1 Hscj) as (Hs16 & Hj0 & Hjs & Hju).
    destruct (Z.eqb_spec (Z.of_nat j * s) FAILED_ADDR) as [E|_]; [unfold FAILED_ADDR in *; lia |].
    assert (Hu : u32 (Z.of_nat (length secs - S n) * s) = Z.of_nat (length secs - S n) * s).
    { apply u32_small. unfold is_u32, blen in *. assert (Z.of_nat (length secs - S n) ≤ Z.of_nat (length secs)) by lia. nia. }
    rewrite Hu.
    destruct (IH (S n) j kv1 sec1 db1) as (ok & sec2 & kv2 & db2 & E2 & Hh2 & K2 & Hres2); try done; [apply Hres | lia | lia |].
    rewrite E2. exists ok, sec2, kv2, db2. split_and!; try done; [by etrans |]. by apply search_result_app.
Qed.
End lookup.

(** C33. A lookup finds the value of a key: on working flash that holds well-formed sectors,
    with a sector cache that agrees with the flash, [find_kv_no_cache] returns the first
    record of the key in status KV_WRITE, in the order of the sectors from the oldest one on,
    and reports that there is none if no such record exists. Records in other states (being
    written, marked for deletion, deleted, damaged header) and sectors without a valid header
    are passed over; nothing but the sector cache changes, and it still agrees with the flash. *)
Theorem kv_find_first (junk : list Z) (kv0 : fdb_kv) (sec0 : kvdb_sec_info) (s : Z) (secs : list flash_sector)
    (k : nat) (key : list Z) (kv : fdb_kv) (db : kvdb)
    (Hdb : holds s secs db) (Hold : db_oldest_addr db = Z.of_nat k * s) (Hk : (k < length secs)%nat)
    (Hkey : Forall (λ c, c ≠ 0) key) (Hname : blen (kv_name kv) = FDB_KV_NAME_MAX) :
  ∃ ok kv' db', find_kv_no_cache junk kv0 sec0 key kv db = ((ok, kv'), db')
    ∧ match first_value key (search_order s secs k) with
      | Some (a, (st, key', v)) => ok = true ∧ ∃ name, kv' = rec_obj st key' v name a
      | None => ok = false
      end
    ∧ holds s secs db' ∧ keeps db db'.
Proof.
  destruct (sector_loop_find junk kv0 s secs (S (Z.to_nat (db_max_size db / db_sec_size db))) (length secs) k key kv sec0 db)
    as (ok & sec' & kv' & db' & E & Hh' & K & Hres); try done; [lia | |].
  { destruct (lookup_lt_is_Some_2 secs k Hk) as [sc Hsc]. pose proof (holds_bounds s secs db k sc Hdb Hsc).
    rewrite (ho_max _ _ _ Hdb), (ho_size _ _ _ Hdb), Z.div_mul by lia. unfold blen. lia. }
  rewrite Nat.sub_diag, <-Hold in E. exists ok, kv', db'. split_and!; try done.
  - unfold find_kv_no_cache, kv_iterator, all_sectors. unfold bind at 1. unfold bind at 1. rewrite !bind_gets.
    change (Z.of_nat 0 * s) with 0 in E. unfold iter_body in E. rewrite E. done.
  - unfold search_order. rewrite <-cycle_all by done. apply Hres.
Qed.

(** ** A database of four sectors *)

Definition fill (n : nat) (l : list Z) : list Z := take n (l ++ replicate n 255).
Definition sector_bytes (store : Z) (rs : list record) : list Z :=
  fill 256 ([status_byte store; status_byte 1; 255; 255] ++ le32 SECTOR_MAGIC_WORD ++ le32 SECTOR_NOT_COMBINED
    ++ le32 FDB_DATA_UNUSED ++ flat_map (λ r, rec_bytes r.1.1 r.1.2 r.2) rs).

(** Updates of [97; 98]: an older record is deleted, one is marked for deletion, the newest one
    is in the oldest sector but one; the first sector has no header. *)
Definition demo_recs2 : list record := [(FDB_KV_WRITE, [99], [5; 6]); (FDB_KV_PRE_DELETE, demo_key, [1])].
Definition demo_recs3 : list record := [(FDB_KV_DELETED, demo_key, [0]); (FDB_KV_WRITE, demo_key, demo_value)].
Definition demo_secs : list flash_sector :=
  [None; Some (FDB_SECTOR_STORE_EMPTY, []); Some (FDB_SECTOR_STORE_FULL, demo_recs2); Some (FDB_SECTOR_STORE_USING, demo_recs3)].
Definition demo_mem : list Z :=
  replicate 256 255 ++ sector_bytes 1 [] ++ sector_bytes 3 demo_recs2 ++ sector_bytes 2 demo_recs3.
Definition lookup_db : kvdb := set_oldest 512 (demo_db demo_mem []).

Lemma erased_slice m a n : 0 ≤ a → slice m a n = replicate (Z.to_nat n) 255 → erased m a n.
Proof.
  intros Ha E i Hi. assert (slice m a n !! (i - Z.to_nat a)%nat = Some 255) as Hs.
  { rewrite E. apply lookup_replicate_2. lia. }
  rewrite slice_lookup in Hs by lia. by replace i with (Z.to_nat a + (i - Z.to_nat a))%nat by lia.
Qed.

(** The bytes of the demonstration, by evaluation. *)
Ltac demo_recs :=
  repeat split; try (vm_compute; congruence); try (vm_compute; reflexivity);
  try (repeat constructor; unfold is_u8; lia); try (by repeat constructor).

Lemma demo_sector2 : sector_holds demo_mem 256 512 demo_recs2.
Proof. constructor; [done | demo_recs | demo_recs | by vm_compute |]. by apply erased_slice; vm_compute. Qed.

Lemma demo_sector3 : sector_holds demo_mem 256 768 demo_recs3.
Proof. constructor; [done | demo_recs | demo_recs | by vm_compute |]. by apply erased_slice; vm_compute. Qed.

Lemma demo_hdr1 : sec_hdr_at demo_mem 256 1.
Proof. vm_compute. auto. Qed.
Lemma demo_hdr2 : sec_hdr_at demo_mem 512 3.
Proof. vm_compute. auto. Qed.
Lemma demo_hdr3 : sec_hdr_at demo_mem 768 2.
Proof. vm_compute. auto. Qed.

Lemma lookup_holds : holds 256 demo_secs lookup_db.
Proof.
  assert (pmem lookup_db = demo_mem) as Em by (vm_compute; reflexivity).
  apply Build_holds; [| by vm_compute | reflexivity | reflexivity | reflexivity | |].
  - split; [exact (demo_db_ready demo_mem [] eq_refl) |]. by split; constructor.
  - rewrite Em. intros i sc Hi. destruct i as [|[|[|[|i]]]]; [injection Hi as <- ..| done].
    + by vm_compute.
    + exact (conj demo_hdr1 eq_refl).
    + exact (conj demo_hdr2 demo_sector2).
    + exact (conj demo_hdr3 demo_sector3).
  - apply Forall_replicate. by left.
Qed.

Lemma kv_find_first_witness :
  ∃ kv' db', find_kv_no_cache [] kv_zero sec_zero demo_key kv_zero lookup_db = ((true, kv'), db')
    ∧ (∃ name, kv' = rec_obj FDB_KV_WRITE demo_key demo_value name 811) ∧ holds 256 demo_secs db'.
Proof.
  destruct (kv_find_first [] kv_zero sec_zero 256 demo_secs 2 demo_key kv_zero lookup_db lookup_holds eq_refl)
    as (ok & kv' & db' & E & Hres & Hh & _); [simpl; lia | by repeat constructor | done |].
  assert (first_value demo_key (search_order 256 demo_secs 2) = Some (811, (FDB_KV_WRITE, demo_key, demo_value))) as Ef
    by (vm_compute; reflexivity).
  rewrite Ef in Hres. destruct Hres as [-> Hname]. exists kv', db'. split_and!; done.
Defined.
