(* ===== verification/KvdbCases.v ===== *)
(** The key-value database started on a cleared handle: the search for the oldest sector finds
    nothing, and executions on a chip of four small sectors that show where the database does
    not do what it promises (lost updates after a power failure, names of the maximal length,
    names that share a checksum, failed transfers). *)

From S2P Require Import Prelude.
From S2P Require Import CText.
From S2P Require Import KvStore.
From S2P Require Import Nor.
From S2P Require Import Sfud.
From S2P Require Import Fal.
From S2P Require Import FdbUtils.
From S2P Require Import Kvdb.
From S2P Require Import KvdbFlash.
From S2P Require Import KvdbRecord.

(** * The oldest sector *)

Section oldest.
Context (junk : list Z) (kv0 : fdb_kv).

(** The cleared cache entry stands for the sector at address 0. *)
Lemma read_sector_cleared s sl db :
  db_sec_cache db = sec_zero :: sl → read_sector_info junk kv0 0 s false db = ((FDB_NO_ERR, sec_zero), db).
Proof. intros E. unfold read_sector_info, bind, gets, get_sector_from_cache, gets. by rewrite E. Qed.

Lemma next_sector_cleared n db :
  (get_next_sector_addr sec_zero n db).1 = 0 ∨ (get_next_sector_addr sec_zero n db).1 = FAILED_ADDR.
Proof.
  unfold get_next_sector_addr, bind, gets, ret. simpl.
  repeat case_match; simpl in *; auto.
Qed.

Lemma next_sector_state s n db : (get_next_sector_addr s n db).2 = db.
Proof. unfold get_next_sector_addr, bind, gets, ret. by repeat case_match. Qed.

Lemma oldest_loop_cleared fuel n s a sl db :
  db_sec_cache db = sec_zero :: sl → ∃ s',
  sector_loop fuel (λ sec_addr sector acc,
    '(_, sector) <- read_sector_info junk kv0 sec_addr sector false;;
    if (FDB_SECTOR_STORE_UNUSED =? FDB_SECTOR_STORE_UNUSED) || (FDB_SECTOR_STORE_UNUSED =? se_store sector) then
      sector <- ret sector;;
      '(stop, acc) <- check_oldest_addr_cb sector acc;;
      ret (stop, sector, acc)
    else ret (false, sector, acc))%kv 0 n s (a, FDB_SECTOR_STORE_UNUSED) db
  = ((s', (a, FDB_SECTOR_STORE_UNUSED)), db).
Proof.
  intros E. revert n s. induction fuel as [|fuel IH]; intros n s; cbn [sector_loop]; [by exists s |].
  unfold bind at 1, gets at 1. unfold bind at 1. unfold bind at 1. rewrite (read_sector_cleared s sl) by done.
  simpl. unfold bind at 1.
  pose proof (next_sector_cleared (u32 (n + db_sec_size db)) db) as Hn.
  pose proof (next_sector_state sec_zero (u32 (n + db_sec_size db)) db) as Hs.
  destruct (get_next_sector_addr sec_zero (u32 (n + db_sec_size db)) db) as [x db']. simpl in Hn, Hs. subst db'.
  destruct Hn as [-> | ->]; [apply IH | by exists sec_zero].
Qed.
End oldest.

(** On a cleared handle the search for the oldest sector has no effect: whatever the
    flash contains, it takes the cleared entries of the sector cache for the sector at
    address 0, reads no header and leaves the oldest address at 0. *)
Theorem kv_oldest_cleared (junk : list Z) (kv0 : fdb_kv) (sec0 : kvdb_sec_info) (sl : list kvdb_sec_info) (db : kvdb)
    (Hcache : db_sec_cache db = sec_zero :: sl) :
  find_oldest junk kv0 sec0 db = (tt, set_oldest 0 db).
Proof.
  unfold find_oldest, bind at 1, modify at 1. unfold bind at 1. unfold sector_iterator, all_sectors.
  unfold bind at 1, gets at 1. unfold bind at 1, gets at 1. unfold bind at 1, gets at 1.
  destruct (oldest_loop_cleared junk kv0 (S (Z.to_nat (db_max_size (set_oldest 0 db) / db_sec_size (set_oldest 0 db))))
    0 sec0 0 sl (set_oldest 0 db) Hcache) as (s' & E).
  change (db_oldest_addr (set_oldest 0 db)) with 0.
  rewrite E. by destruct db.
Qed.

(** * Executions *)

(** A cleared handle, started on a chip that holds [m]. *)
Definition cold_db (m : list Z) (fates : list bus) : kvdb :=
  mk_db (mk_part 0 0 false) (kv_dev m fates) false 0 0 0 false false false false kv_zero sec_zero
    (replicate 64 (mk_node 0 0 0)) (replicate 8 sec_zero) [].
Definition boot (m : list Z) : option fdb_err_t * kvdb :=
  fdb_kvdb_init [] kv_zero sec_zero 3 (Some (kv_part, 256)) [] (cold_db m []).

(** The chip after a start on erased flash, and calls on a database with a given bus. *)
Definition fresh : kvdb := (boot (replicate 1024 255)).2.
Definition on_bus (fates : list bus) (db : kvdb) : kvdb := set_dev (kv_dev (pmem db) fates) db.
Definition put_value (k v : list Z) (db : kvdb) : fdb_err_t * kvdb := set_kv [] kv_zero sec_zero k (Some v) (blen v) db.
Definition del_value (k : list Z) (db : kvdb) : fdb_err_t * kvdb := set_kv [] kv_zero sec_zero k None 0 db.

(** The value that a lookup finds. *)
Definition lookup_value (k : list Z) (db : kvdb) : option (list Z) :=
  let '((found, kv), db) := find_kv [] kv_zero sec_zero k kv_zero db in
  if found then Some (slice (pmem db) (kv_value kv) (kv_value_len kv)) else None.

(** The bus fails for good after [n] transfers. *)
Definition power_cut (n : nat) : list bus := replicate n BusOk ++ replicate 300 BusLost.

Lemma kv_oldest_cleared_witness :
  find_oldest [] kv_zero sec_zero (cold_db (replicate 1024 7) []) = (tt, set_oldest 0 (cold_db (replicate 1024 7) [])).
Proof. exact (kv_oldest_cleared [] kv_zero sec_zero (replicate 7 sec_zero) (cold_db (replicate 1024 7) []) eq_refl). Defined.

(** Values survive a restart, updates included. *)
Example kv_restart :
  let db := (put_value [97] [3] (put_value [98] [2] (put_value [97] [1] fresh).2).2).2 in
  (lookup_value [97] db, lookup_value [98] db) = (Some [3], Some [2])
  ∧ (lookup_value [97] (boot (pmem db)).2, lookup_value [98] (boot (pmem db)).2) = (Some [3], Some [2]).
Proof. vm_compute. by split. Qed.

(** A value of 60 bytes fills the first sector so far that the 70 bytes of [98] go to the
    second one; a short new value of [98] goes to the first sector again. The supply fails
    while it is written. *)
Definition two_sectors : kvdb := (put_value [98] (replicate 70 2) (put_value [97] (replicate 60 1) fresh).2).2.
Definition cut_update (n : nat) : kvdb := (put_value [98] [3] (on_bus (power_cut n) two_sectors)).2.

(** The recovery stops at the incomplete new record and does not reach the old one, which is
    marked for deletion: after the restart the key has no value, after a second restart it has
    its old value again. *)
Example kv_recovery_stops :
  let db1 := (boot (pmem (cut_update 40))).2 in
  (boot (pmem (cut_update 40))).1 = Some FDB_NO_ERR
  ∧ lookup_value [98] two_sectors = Some (replicate 70 2)
  ∧ lookup_value [98] db1 = None
  ∧ lookup_value [98] (boot (pmem db1)).2 = Some (replicate 70 2).
Proof. vm_compute. by split_and!. Qed.

(** If the missing value is set to a default in between, the old one is lost. *)
Example kv_recovery_loses :
  let db1 := (put_value [98] [0] (boot (pmem (cut_update 40))).2).2 in
  lookup_value [98] (boot (pmem db1)).2 = Some [0].
Proof. vm_compute. reflexivity. Qed.

(** A name of FDB_KV_NAME_MAX characters is accepted, but not found after a restart. *)
Example kv_name_max :
  let key := replicate 64 120 in
  let '(r, db) := put_value key [5] fresh in
  r = FDB_NO_ERR ∧ lookup_value key db = Some [5] ∧ lookup_value key (boot (pmem db)).2 = None.
Proof. vm_compute. by split_and!. Qed.

(** "ip" and "ipr20" have the same upper half of the checksum, and the first is a prefix of
    the second: a lookup of "ip" hits the cached record of "ipr20", and setting "ip" deletes
    that record. *)
Definition key_ip : list Z := [105; 112].
Definition key_ipr20 : list Z := [105; 112; 114; 50; 48].
Example kv_cache_prefix :
  let db := (put_value key_ipr20 [7] fresh).2 in
  lookup_value key_ip db = Some [7]
  ∧ let db1 := (put_value key_ip [8] db).2 in
    lookup_value key_ipr20 (boot (pmem db1)).2 = None.
Proof. vm_compute. by split. Qed.

(** After an update of one key that failed, the deletion of another key reports success but
    leaves its entry in the cache, and the deleted value is still found. *)
Definition failed_update : kvdb :=
  (put_value [97] [9] (on_bus (replicate 16 BusOk ++ [BusLost]) (put_value [98] [8] (put_value [97] [7] fresh).2).2)).2.
Example kv_stale_delete :
  let '(r, db) := del_value [98] failed_update in
  r = FDB_NO_ERR ∧ lookup_value [98] db = Some [8].
Proof. vm_compute. by split. Qed.

(** A lookup whose header read is lost marks the intact record as damaged: here the
    uninitialised buffer holds erased bytes. *)
Example kv_read_destroys :
  let db := (put_value [97] [7] fresh).2 in
  let '((_, kv), db1) :=
    find_kv (replicate 32 255) kv_zero sec_zero [97] kv_zero (on_bus (replicate 3 BusOk ++ [BusLost]) db) in
  nthZ (pmem db) 16 = status_byte FDB_KV_WRITE ∧ nthZ (pmem db1) 16 = status_byte FDB_KV_ERR_HDR
  ∧ lookup_value [97] (boot (pmem db1)).2 = None.
Proof. vm_compute. by split_and!. Qed.
