(* ===== verification/KvInstance.v ===== *)
(** FlashDB as modelled in Kvdb.v, on a partition that covers its chip, as an instance of
    the store interface of the parameter manager. It runs the concrete start-ups and writes
    of Params.v. *)

From S2P Require Import Prelude.
From S2P Require Import CText.
From S2P Require Import KvStore.
From S2P Require Import Nor.
From S2P Require Import Sfud.
From S2P Require Import Fal.
From S2P Require Import FdbUtils.
From S2P Require Import Kvdb.
From S2P Require Import KvdbFlash.
From S2P Require Import KvdbRecord.
From S2P Require Import KvdbCases.

(** [find_kv] and the flash read of the whole value. *)
Definition flashdb_find (db : kvdb) (k : key) : option (list Z) * kvdb :=
  let '((found, kv), db) := find_kv [] kv_zero sec_zero k kv_zero db in
  if found then
    let '((_, value), db) :=
      flash_read (kv_value kv) (replicate (Z.to_nat (kv_value_len kv)) 0) (kv_value_len kv) db in
    (Some value, db)
  else (None, db).

Definition flashdb_defaults (d : list (key * list Z)) : list default_kv_node :=
  (λ '(k, v), mk_default k v (blen v)) <$> d.

(** The handle is cleared, the sector size set, and the database started on the whole chip;
    FlashDB takes the size of the database from the partition. Three rounds of the recovery
    loop are enough for the runs of Params.v. *)
Definition flashdb_start (db : kvdb) (sec_size max_size : Z) (d : list (key * list Z)) : fdb_err_t * kvdb :=
  let dev := db_dev db in
  let part := mk_part 0 (blen (dv_mem dev)) true in
  let '(_, db) := fdb_kvdb_control (CTRL_SET_SEC_SIZE sec_size) (set_dev dev (cold_db [] [])) in
  let '(r, db) :=
    fdb_kvdb_init [] kv_zero sec_zero 3 (Some (part, erase_gran (fl_chip (dv_flash dev)))) (flashdb_defaults d) db in
  (default FDB_INIT_FAILED r, db).

#[export] Instance flashdb_store : KvStore kvdb := {
  kv_init_ok := db_init_ok;
  kv_find := flashdb_find;
  kv_set_kv db k v :=
    set_kv [] kv_zero sec_zero k v (match v with Some v => blen v | None => 0 end) db;
  kvdb_start := flashdb_start;
  kv_format_default db d := fdb_kv_set_default [] kv_zero sec_zero (set_defaults (flashdb_defaults d) db);
  KvStore.fdb_kvdb_deinit db := (Kvdb.fdb_kvdb_deinit db).2
}.

(** A blank chip of four sectors of [gran] bytes. *)
Definition blank_flash (gran : Z) : kvdb :=
  let flash :=
    mk_flash (mk_chip 0xEF 0x40 0x16 (4 * gran) SFUD_WM_PAGE_256B gran 0x20)
      (mk_sfdp true 1 0 256 true 0x20 true 0 true false (4 * gran)
         [mk_eraser gran 0x20; mk_eraser 0 0; mk_eraser 0 0; mk_eraser 0 0]) true false 3 in
  let chip :=
    mk_nor (mk_nor_part [(0x20, gran)] [0xEF; 0x40; 0x16] []) (replicate (Z.to_nat (4 * gran)) 255)
      false 0 false None [] [] in
  set_dev (mk_dev flash (mk_io chip 0)) (cold_db [] []).
