(* ===== verification/Params.v ===== *)
(** The parameter table of applications/params.c and its start-up, with the concrete
    runs that the general theorems of FlashParam.v and ParamCoherence.v are applied to. *)

From Stdlib Require Import String.
From S2P Require Import Prelude.
From S2P Require Import CText.
From S2P Require Import RtDef.
From S2P Require Import KvStore.
From S2P Require Import Kvdb.
From S2P Require Import KvInstance.
From S2P Require Import FlashParam.
From S2P Require Import ParamCoherence.

Open Scope Z_scope.
Open Scope list_scope.

(** * The table *)

(** Object numbers of the static variables and of the default literals. *)
Definition g_baud_1 : nat := 0.
Definition g_baud_2 : nat := 1.
Definition g_sn : nat := 2.
Definition g_sn2 : nat := 3.
Definition g_di1_trigger : nat := 4.
Definition g_do1_level : nat := 5.
Definition g_do1_time_type : nat := 6.
Definition lit_sn : nat := 7.
Definition lit_sn2 : nat := 8.
Definition lit_baud_1 : nat := 9.
Definition lit_baud_2 : nat := 10.
Definition lit_di1 : nat := 11.
Definition lit_do1 : nat := 12.

(** The entry macros of flash_param.h; [n] is [sizeof(def_str)]. *)
Definition PARAM_INT (k : string) (lit ram : nat) (g : param_group_t) (desc : string)
    : param_item_t :=
  mk_item (Some (str k)) (Some lit) 4 PARAM_TYPE_INT (Some ram) 4 g (Some (str desc)).
Definition PARAM_STR (k : string) (lit : nat) (n : Z) (ram : nat) (max_len : Z)
    (g : param_group_t) (desc : string) : param_item_t :=
  mk_item (Some (str k)) (Some lit) (if 1 <? n then n - 1 else 0) PARAM_TYPE_STR
    (Some ram) max_len g (Some (str desc)).
Definition PARAM_BLOB (k : string) (def : nat) (def_sz : Z) (ram : nat) (ram_sz : Z)
    (g : param_group_t) (desc : string) : param_item_t :=
  mk_item (Some (str k)) (Some def) def_sz PARAM_TYPE_BLOB (Some ram) ram_sz g (Some (str desc)).

(** Note that the default of [do_time1] is the RAM variable itself. *)
Definition g_items : list param_item_t :=
  [ PARAM_STR "SN" lit_sn 21 g_sn 32 PARAM_GROUP_SYSTEM "serial number";
    PARAM_STR "SN2" lit_sn2 21 g_sn2 32 PARAM_GROUP_SYSTEM "serial2 number";
    PARAM_INT "rs485_1_baud" lit_baud_1 g_baud_1 PARAM_GROUP_COMM "RS485-1 baudrate";
    PARAM_INT "rs485_2_baud" lit_baud_2 g_baud_2 PARAM_GROUP_COMM "RS485-2 baudrate";
    PARAM_INT "di1_trigger_level" lit_di1 g_di1_trigger PARAM_GROUP_DI "DI1 trigger level";
    PARAM_INT "do1_level" lit_do1 g_do1_level PARAM_GROUP_DO "DO1 output level";
    PARAM_BLOB "do_time1" g_do1_time_type 4 g_do1_time_type 4 PARAM_GROUP_DO_TIME
      "DO1 timer config (type)" ].

(** The memory at power-on: zeroed variables, then the literals. *)
Definition boot_mem : list (list Z) :=
  [ le32 0; le32 0; replicate 32 0; replicate 32 0; le32 0; le32 0; le32 0;
    str "01234567890123456789" ++ [0]; str "01234567890123456789" ++ [0];
    le32 115200; le32 115200; le32 0; le32 2 ].

(** * Start-up *)

Section startup.
Context {DB : Type} `{KvStore DB} `{FloatText}.
Variable blob0 : fdb_blob.

(** Identifiers of [mt_lock_fn] and [mt_unlock_fn]; the manager is the static [mgr]. *)
Definition mt_lock_fn : nat := 1.
Definition mt_unlock_fn : nat := 2.
Definition mgr_zero : param_mgr_t := mk_mgr [] 0 None false None None.

(** [mutex_ok] is the outcome of [rt_mutex_create]; the last result says whether the
    mutex still exists. *)
Definition fdb_kvdc_params (mutex_ok malloc_ok : bool) (ps : pstate DB)
    : Z * option param_mgr_t * pstate DB * bool :=
  if negb mutex_ok then (- RT_ERROR, Some mgr_zero, ps, false) else
  let '(ret, m, ps) :=
    flash_param_init blob0 malloc_ok (Some mgr_zero) 4096 (4096 * 4) (Some g_items)
      (Z.of_nat (List.length g_items)) (Some mt_lock_fn) (Some mt_unlock_fn) ps in
  if negb (ret =? 0) then (- RT_ERROR, m, ps, false)
  else (RT_EOK, m, flash_param_print m ps, true).

End startup.

(** * A concrete machine

    FlashDB on four sectors, and floats written as their eight hexadecimal letters. *)

Definition hex_out (b : Z) : list Z := [65 + b / 16; 65 + b mod 16].
Fixpoint hex_in (l : list Z) : list Z :=
  match l with
  | a :: b :: l => (a - 65) * 16 + (b - 65) :: hex_in l
  | _ => []
  end.

#[export] Instance hex_float : FloatText := {
  fmt_g9 b := concat (map hex_out b);
  strtof s := (take 4 (hex_in (take 8 s) ++ replicate 4 0), drop 8 s, true, false)
}.

#[export] Instance hex_float_laws : FloatLaws.
Proof.
  refine {| float_ok b := length b = 4%nat ∧ Forall is_u8 b |}; simpl.
  - intros b [Hl Hb].
    destruct b as [|b0 [|b1 [|b2 [|b3 [|? ?]]]]]; try done. simpl.
    do 2 f_equal. unfold is_u8 in Hb.
    repeat match goal with H : Forall _ (_ :: _) |- _ => inversion_clear H end.
    assert (E : ∀ b, (65 + b / 16 - 65) * 16 + (65 + b mod 16 - 65) = b).
    { intros b. pose proof (Z.div_mod b 16). lia. }
    by rewrite !E.
  - intros b [Hl Hb].
    destruct b as [|b0 [|b1 [|b2 [|b3 [|? ?]]]]]; try done. split; [|done]. split; [done |].
    assert (Ho : ∀ b, is_u8 b → Forall (λ c, 32 ≤ c < 127) (hex_out b)).
    { unfold is_u8, hex_out. intros b ?. pose proof (Z.mod_pos_bound b 16).
      assert (b / 16 < 16) by (apply Z.div_lt_upper_bound; lia).
      assert (0 ≤ b / 16) by (apply Z.div_pos; lia). repeat constructor; lia. }
    change (Forall (λ c, 32 ≤ c < 127) (concat (map hex_out [b0; b1; b2; b3]))).
    cbn [map concat]. repeat (apply Forall_cons in Hb as [? Hb]).
    repeat apply Forall_app_2; auto.
  - by intros b [? _].
  - intros s. destruct (hex_in (take 8 s)) as [|? [|? [|? [|? ?]]]]; done.
Defined.

Definition blob_undef : fdb_blob := mk_blob [] 0 77.
(** Three buffers of a caller follow the program's own objects. *)
Definition buf_sn : nat := 13.
Definition buf_none : nat := 14.
Definition buf_level : nat := 15.
Definition power_on (db : kvdb) : pstate kvdb :=
  mk_ps db (boot_mem ++ [str "GW-0001" ++ [0]; [0; 0]; le32 (-5)]) (replicate 129 0) [].

(** The first boot on a blank chip with sectors of 4096 bytes. *)
Definition first_boot : Z * option param_mgr_t * pstate kvdb * bool :=
  fdb_kvdc_params blob_undef true true (power_on (blank_flash 4096)).

(** * The aliased default *)

(** Resetting [do_time1] does not reset it: its table entry names the RAM variable as
    its own default, so [flash_param_reset] stores the current value (whatever it is)
    and then clears the variable. The call reports success, RAM holds zeros, and the
    store was given the old value. *)
Theorem do_time1_reset {DB : Type} `{KvStore DB} `{FloatText} (blob0 : fdb_blob)
    (m : param_mgr_t) (ps : pstate DB) (b : list Z)
    (Hinit : pm_init_ok m = true) (Htab : mgr_table m = g_items) (Hok : kv_init_ok (ps_db ps) = true)
    (Hram : ps_mem ps !! g_do1_time_type = Some b) (Hlen : length b = 4%nat)
    (Hroom : (kv_set_kv (ps_db ps) (str "do_time1") (Some b)).1 = FDB_NO_ERR) :
  let res := flash_param_reset blob0 (Some m) (Some (str "do_time1")) ps in
  res.1 = 0 ∧ ps_db res.2 = (kv_set_kv (ps_db ps) (str "do_time1") (Some b)).2
  ∧ ps_mem res.2 !! g_do1_time_type = Some [0; 0; 0; 0].
Proof.
  unfold flash_param_reset, lookup_item, _find_item. rewrite Hinit. fold (mgr_table m). rewrite Htab.
  set (r := find _ g_items). vm_compute in r. subst r. cbn [negb]. cbv zeta beta iota.
  set (it := mk_item _ _ _ _ _ _ _ _). set (ps1 := lock_call m ps).
  destruct (lock_frame m ps) as (Hd & Hm & _). fold ps1 in Hd, Hm.
  unfold _reset_one_locked, _blob_db_write, item_key. cbn [it it_key it_type it_def_val it_def_size
    it_ram_ptr it_ram_size default]. unfold fdb_blob_make. rewrite set_blob_eq by by rewrite Hd.
  assert (Hat : ps_mem ps1 !! 6%nat = Some b) by by rewrite Hm.
  rewrite (deref_at 6 b ps1 Hat), take_ge by (rewrite Hlen; done). rewrite Hd.
  change (str "do_time1") with
    [100; 111; 95; 116; 105; 109; 101; 49] in *.
  destruct (kv_set_kv _ _ _) as [e db']. simpl in Hroom. subst e.
  destruct (decide (FDB_NO_ERR ≠ FDB_NO_ERR)) as [|_]; [done |].
  set (ps2 := emit _ _). assert (Hat2 : ps_mem ps2 !! 6%nat = Some b) by done.
  destruct (unlock_frame m (blob_assign (Some 6%nat) 4 (Some 6%nat) (BUF_MIN 4 4) ps2))
    as (Hd3 & Hm3 & _). cbn [fst snd]. rewrite Hd3, Hm3.
  split_and!; [done | done |]. unfold blob_assign. rewrite (deref_at 6 b ps2 Hat2).
  assert (Hlt : (6 < length (ps_mem ps2))%nat) by by eapply lookup_lt_Some.
  destruct b as [|b0 [|b1 [|b2 [|b3 [|? ?]]]]]; try done. simpl.
  rewrite list_insert_insert_eq, !list_lookup_insert_eq by exact Hlt. done.
Qed.

(* Evaluation of a closed goal. *)
Ltac vmc := vm_compute; first [reflexivity | done].

(** * The theorems on a running board *)

(** The manager with the first six entries, after a first boot. *)
Definition table6 : list param_item_t := take 6 g_items.
Definition mgr6 : param_mgr_t :=
  mk_mgr g_items 6 (Some (map make_node table6)) true (Some mt_lock_fn) (Some mt_unlock_fn).
Definition booted (db : kvdb) : Z * option param_mgr_t * pstate kvdb :=
  flash_param_init blob_undef true (Some mgr_zero) 4096 16384 (Some g_items) 6
    (Some mt_lock_fn) (Some mt_unlock_fn) (power_on db).
Definition board : pstate kvdb := (booted (blank_flash 4096)).2.

(** The board after two parameters were set. *)
Definition set_sn : write_op := WSet (Some (str "SN")) (Some buf_sn).
Definition set_level : write_op := WSet (Some (str "di1_trigger_level")) (Some buf_level).
Definition board_set : pstate kvdb :=
  (run_write blob_undef set_level (Some mgr6) (run_write blob_undef set_sn (Some mgr6) board).2).2.

(** The bytes the parameters were last given. *)
Definition last_src (it : param_item_t) : list Z :=
  if decide (item_key it = str "SN") then str "GW-0001" ++ [0]
  else if decide (item_key it = str "di1_trigger_level") then le32 (-5)
  else default [] (it_def_val it ≫= λ d, boot_mem !! d).

Definition it_sn : param_item_t :=
  PARAM_STR "SN" lit_sn 21 g_sn 32 PARAM_GROUP_SYSTEM "serial number".
Definition it_level : param_item_t :=
  PARAM_INT "di1_trigger_level" lit_di1 g_di1_trigger PARAM_GROUP_DI "DI1 trigger level".

Ltac each_item_of H :=
  repeat (apply elem_of_cons in H as [-> | H]); [.. | by apply not_elem_of_nil in H].

Lemma table6_ok : table_ok table6.
Proof. split; apply (bool_decide_unpack _); vmc. Qed.

Lemma board_ready db : ram_ready table6 (ps_mem (power_on db)).
Proof.
  intros it Hin. unfold table6 in Hin. simpl take in Hin.
  each_item_of Hin; (eexists _, _; constructor;
    [reflexivity | vm_compute; reflexivity | vm_compute; reflexivity | vmc]).
Qed.

Lemma board_sn_at :
  item_at it_sn g_sn (str "01234567890123456789" ++ replicate 12 0) (ps_mem board).
Proof. constructor; vmc. Qed.

Lemma power_on_sn db : item_at it_sn g_sn (replicate 32 0) (ps_mem (power_on db)).
Proof. constructor; vmc. Qed.
Lemma power_on_level db : item_at it_level g_di1_trigger (le32 0) (ps_mem (power_on db)).
Proof. constructor; vmc. Qed.

Ltac u8_list := repeat constructor; (lia || done).

Lemma last_src_storable it : it ∈ table6 → storable it (last_src it) 4.
Proof.
  intros Hin. unfold table6 in Hin. simpl take in Hin.
  each_item_of Hin; (split; [vm_compute; u8_list |];
    first [ vmc | split; [split; [vmc | vm_compute; u8_list] | left; vmc]]).
Qed.


(** A restart of that board. *)
Lemma param_restart_restores_witness :
  ∃ m ps', booted (ps_db board_set) = (0, Some m, ps') ∧ pm_init_ok m = true
    ∧ ps_mem ps' !! g_sn = Some (str "GW-0001" ++ replicate 25 0)
    ∧ ps_mem ps' !! g_di1_trigger = Some (le32 (-5)).
Proof.
  destruct (param_restart_restores blob_undef mgr_zero 4096 16384 g_items 6 (Some mt_lock_fn)
    (Some mt_unlock_fn) (power_on (ps_db board_set)) last_src (λ _, 4))
    as (m & ps' & l & Hinit & Hm & _ & _ & _ & Hall & _).
  - done.
  - by split.
  - vmc.
  - vmc.
  - apply table6_ok.
  - vmc.
  - apply board_ready.
  - apply last_src_storable.
  - vmc.
  - vm_compute. repeat split.
  - exists m, ps'. split_and!; [exact Hinit | exact Hm | |].
    + exact (proj1 (Hall it_sn g_sn _ ltac:(apply list_elem_of_here) (power_on_sn _))).
    + exact (proj1 (Hall it_level g_di1_trigger _
        ltac:(do 4 apply list_elem_of_further; apply list_elem_of_here) (power_on_level _))).
Defined.

Lemma param_set_unreadable_witness :
  let res := flash_param_set blob_undef (Some mgr6) (Some (str "SN")) (Some buf_none) board in
  res.1 = 0 ∧ ps_mem res.2 !! g_sn = Some (replicate 32 0).
Proof.
  destruct (param_set_unreadable blob_undef mgr6 it_sn buf_none g_sn
    (str "01234567890123456789" ++ replicate 12 0) [0; 0] board
    (mk_ps (kv_set_kv (ps_db board) (str "SN") (Some [])).2 [] (replicate 129 0) [])) as (Hr & Hm & _).
  - reflexivity.
  - apply table6_ok.
  - apply list_elem_of_here.
  - vmc.
  - reflexivity.
  - apply board_sn_at.
  - vmc.
  - apply (bool_decide_unpack _). vmc.
  - by left.
  - vmc.
  - vmc.
  - vmc.
  - vmc.
  - by split.
Defined.

(** A board on which [do_time1] was set to 5. *)
Definition mgr7 : param_mgr_t := mk_mgr g_items 7 None true None None.
Definition board5 : pstate kvdb :=
  mk_ps (ps_db board) (<[6%nat := le32 5]> boot_mem) [] [].

Lemma do_time1_reset_witness :
  let res := flash_param_reset blob_undef (Some mgr7) (Some (str "do_time1")) board5 in
  res.1 = 0 ∧ ps_mem res.2 !! g_do1_time_type = Some [0; 0; 0; 0].
Proof.
  destruct (do_time1_reset blob_undef mgr7 board5 (le32 5)) as (Hr & _ & Hm);
    [reflexivity | reflexivity | vmc | reflexivity | reflexivity | vmc |]. by split.
Defined.

(** The first boot of the whole table on blank flash. *)
Example first_boot_ok : first_boot.1.1.1 = RT_EOK ∧ first_boot.2 = true.
Proof. vmc. Qed.
