(* ===== verification/Kernel.v ===== *)
(** Threads and suspend lists of the kernel, as the IPC objects use them: suspending a
    thread to a list, waking one or all, the thread timer and its timeout handler
    (rt-thread/src/ipc.c, thread.c, scheduler_comm.c, timer.c). A critical section, which
    runs with interrupts off on the single core, is one function. *)

From stdpp Require Export gmap.
From Stdlib Require Export Sorted.
From S2P Require Import Prelude.
From S2P Require Import RtDef.

(** * Threads *)

(** [t_susp]: suspended, not ready or running. [t_ttmr] is [sched_flag_ttmr_set];
    [t_active] and [t_pend] are the ACTIVATED and PROCESSING flags of the thread timer:
    [rt_timer_check] clears the first and sets the second with interrupts off, turns
    interrupts on, and then calls [_thread_timeout]. *)
Record thread : Type := mk_thread {
  t_prio : Z;
  t_error : Z;
  t_susp : bool;
  t_ttmr : bool;
  t_active : bool;
  t_pend : bool
}.

(** The threads of the system; an id without an entry is a ready thread of priority 0. *)
Notation threads := (gmap nat thread).
Definition th (ts : threads) (t : nat) : thread :=
  default (mk_thread 0 0 false false false false) (ts !! t).
Definition upd (ts : threads) (t : nat) (x : thread) : threads := <[t := x]> ts.
#[global] Arguments th : simpl never.
#[global] Arguments upd : simpl never.

Definition set_error (x : thread) (e : Z) : thread :=
  mk_thread (t_prio x) e (t_susp x) (t_ttmr x) (t_active x) (t_pend x).
Definition set_susp (x : thread) (b : bool) : thread :=
  mk_thread (t_prio x) (t_error x) b (t_ttmr x) (t_active x) (t_pend x).
Definition set_timer (x : thread) (ttmr active pend : bool) : thread :=
  mk_thread (t_prio x) (t_error x) (t_susp x) ttmr active pend.

(** * The thread timer *)

(** [rt_timer_stop] on a thread timer: fails when the timer is not activated. *)
Definition rt_timer_stop (x : thread) : Z * thread :=
  if negb (t_active x) then (- RT_ERROR, x)
  else (RT_EOK, set_timer x (t_ttmr x) false (t_pend x)).

Definition rt_sched_thread_timer_stop (x : thread) : Z * thread :=
  if t_ttmr x then
    let '(error, x) := rt_timer_stop x in
    (error, set_timer x false (t_active x) (t_pend x))
  else (RT_EOK, x).

(** [rt_timer_start] on a thread timer. *)
Definition rt_timer_start (x : thread) : thread := set_timer x true true (t_pend x).

(** The part of [rt_timer_check] before the handler runs: an expired one-shot timer is
    taken off the timer list. *)
Definition timer_expire (ts : threads) (t : nat) : threads :=
  upd ts t (set_timer (th ts t) (t_ttmr (th ts t)) false true).

(** * Suspend lists *)

Definition RT_IPC_FLAG_FIFO : Z := 0.
Definition RT_IPC_FLAG_PRIO : Z := 1.

(** [rt_list_remove] of the node of [t]. *)
Definition list_remove (l : list nat) (t : nat) : list nat := filter (λ u, u ≠ t) l.

(** [rt_sched_thread_ready]: the thread leaves the suspend list it is on. *)
Definition rt_sched_thread_ready (ts : threads) (l : list nat) (t : nat)
    : Z * threads * list nat :=
  let x := th ts t in
  if negb (t_susp x) then (- RT_EINVAL, ts, l)
  else
    let '(error, x) := if t_ttmr x then rt_sched_thread_timer_stop x else (RT_EOK, x) in
    if error =? 0 then (error, upd ts t (set_susp x false), list_remove l t)
    else (error, upd ts t x, l).

(** [rt_susp_list_dequeue]: the thread that was resumed, if any. *)
Definition rt_susp_list_dequeue (ts : threads) (l : list nat) (thread_error : Z)
    : option nat * threads * list nat :=
  match l with
  | [] => (None, ts, l)
  | t :: _ =>
      let '(error, ts, l) := rt_sched_thread_ready ts l t in
      if negb (error =? 0) then (None, ts, l)
      else (Some t,
            if 0 <=? thread_error then upd ts t (set_error (th ts t) thread_error) else ts, l)
  end.

#[global] Arguments rt_susp_list_dequeue : simpl never.

(** [rt_susp_list_resume_all]: the threads that were resumed, in order. Every round
    shortens the list. *)
Fixpoint resume_loop (fuel : nat) (ts : threads) (l : list nat) (thread_error : Z)
    : list nat * threads * list nat :=
  match fuel with
  | O => ([], ts, l)
  | S fuel =>
      match rt_susp_list_dequeue ts l thread_error with
      | (Some t, ts, l) =>
          let '(woken, ts, l) := resume_loop fuel ts l thread_error in (t :: woken, ts, l)
      | (None, ts, l) => ([], ts, l)
      end
  end.

Definition rt_susp_list_resume_all (ts : threads) (l : list nat) (thread_error : Z)
    : list nat * threads * list nat :=
  resume_loop (S (length l)) ts l thread_error.

(** The search for a position in priority order. *)
Fixpoint prio_insert (ts : threads) (l : list nat) (t : nat) : list nat :=
  match l with
  | [] => [t]
  | u :: l => if t_prio (th ts t) <? t_prio (th ts u) then t :: u :: l else u :: prio_insert ts l t
  end.

Definition rt_susp_list_enqueue (ts : threads) (l : list nat) (t : nat) (ipc_flags : Z) : list nat :=
  if ipc_flags =? RT_IPC_FLAG_FIFO then l ++ [t]
  else if ipc_flags =? RT_IPC_FLAG_PRIO then prio_insert ts l t
  else l.

(** [rt_thread_suspend_to_list] of the running thread. *)
Definition rt_thread_suspend_to_list (ts : threads) (l : list nat) (t : nat) (ipc_flags : Z)
    : Z * threads * list nat :=
  if t_susp (th ts t) then (- RT_ERROR, ts, l) else
  let ts := upd ts t (set_susp (th ts t) true) in
  let l := rt_susp_list_enqueue ts l t ipc_flags in
  (RT_EOK, upd ts t (rt_sched_thread_timer_stop (th ts t)).2, l).

(** [_thread_timeout]; [None] when its assertion fails. The handler ends the processing
    of the timer. *)
Definition _thread_timeout (ts : threads) (l : list nat) (t : nat) : option (threads * list nat) :=
  let x := th ts t in
  if negb (t_susp x) then None
  else Some (upd ts t (set_timer (set_susp (set_error x (- RT_ETIMEOUT)) false)
                         (t_ttmr x) (t_active x) false),
             list_remove l t).

(** A call that may suspend its caller. *)
Inductive call : Type := Returns (r : Z) | Blocks.

(** * Lemmas *)

Lemma th_upd_eq ts t x : th (upd ts t x) t = x.
Proof. unfold th, upd. by rewrite lookup_insert_eq. Qed.

Lemma th_upd_ne ts t u x : t ≠ u → th (upd ts t x) u = th ts u.
Proof. intros. unfold th, upd. by rewrite lookup_insert_ne. Qed.

Lemma th_upd ts t u x : th (upd ts t x) u = if decide (t = u) then x else th ts u.
Proof. case_decide; [subst; apply th_upd_eq | by apply th_upd_ne]. Qed.


Lemma list_remove_head l t : t ∉ l → list_remove (t :: l) t = l.
Proof.
  intros Ht. unfold list_remove. rewrite filter_cons_False by tauto.
  induction l as [|u l IH]; [done |]. apply not_elem_of_cons in Ht as [? ?].
  rewrite filter_cons_True by congruence. f_equal. by apply IH.
Qed.

Lemma list_remove_notin l t : t ∉ l → list_remove l t = l.
Proof.
  induction l as [|u l IH]; intros Ht; [done |]. apply not_elem_of_cons in Ht as [? ?].
  unfold list_remove. rewrite filter_cons_True by congruence. f_equal. by apply IH.
Qed.

Lemma elem_of_list_remove l t u : u ∈ list_remove l t ↔ u ≠ t ∧ u ∈ l.
Proof. unfold list_remove. rewrite list_elem_of_filter. done. Qed.

Lemma NoDup_list_remove l t : NoDup l → NoDup (list_remove l t).
Proof. apply NoDup_filter. Qed.

(** Suspend lists are ordered by priority when the object asks for it. *)
Definition prio_ordered (ts : threads) (flag : Z) (l : list nat) : Prop :=
  flag = RT_IPC_FLAG_PRIO → StronglySorted (λ a b, t_prio (th ts a) ≤ t_prio (th ts b)) l.

(** Two states that agree on priorities order lists alike. *)
Definition same_prio (ts ts' : threads) : Prop := ∀ t, t_prio (th ts' t) = t_prio (th ts t).

#[export] Instance same_prio_preorder : PreOrder same_prio.
Proof. split; [done | intros a b c H1 H2 t; by rewrite H2, H1]. Qed.

Lemma same_prio_upd ts t x : t_prio x = t_prio (th ts t) → same_prio ts (upd ts t x).
Proof. intros E u. rewrite th_upd. case_decide; congruence. Qed.

Lemma prio_ordered_same ts ts' flag l : same_prio ts ts' → prio_ordered ts flag l → prio_ordered ts' flag l.
Proof.
  intros E Hs Hf. specialize (Hs Hf). induction Hs as [|a l Hs IH Ha]; constructor; [done |].
  eapply Forall_impl; [done |]. intros b. by rewrite !E.
Qed.

Lemma StronglySorted_filter {A} (R : A → A → Prop) P `{∀ x, Decision (P x)} l :
  StronglySorted R l → StronglySorted R (filter P l).
Proof.
  induction 1 as [|a l Hs IH Ha]; [constructor |]. rewrite filter_cons. case_decide; [|done].
  constructor; [done |]. rewrite Forall_forall in *. intros x [_ Hx]%list_elem_of_filter. auto.
Qed.

Lemma prio_ordered_remove ts flag l t : prio_ordered ts flag l → prio_ordered ts flag (list_remove l t).
Proof. intros Hs Hf. by apply StronglySorted_filter, Hs. Qed.

(** The new thread goes after every thread of its priority or a more urgent one and
    before all others; the others keep their order. *)
Lemma prio_insert_split ts l t :
  StronglySorted (λ a b, t_prio (th ts a) ≤ t_prio (th ts b)) l →
  ∃ l1 l2, l = l1 ++ l2 ∧ prio_insert ts l t = l1 ++ t :: l2
    ∧ Forall (λ u, t_prio (th ts u) ≤ t_prio (th ts t)) l1
    ∧ Forall (λ u, t_prio (th ts t) < t_prio (th ts u)) l2.
Proof.
  induction 1 as [|u l Hs IH Hu]; simpl; [by exists [], [] |].
  destruct (Z.ltb_spec (t_prio (th ts t)) (t_prio (th ts u))).
  - exists [], (u :: l). split_and!; [done | done | done |]. constructor; [done |].
    eapply Forall_impl; [exact Hu |]. simpl. intros. lia.
  - destruct IH as (l1 & l2 & -> & -> & H1 & H2). exists (u :: l1), l2.
    split_and!; [done | done | by constructor | done].
Qed.

Lemma prio_insert_elem ts l t u : u ∈ prio_insert ts l t ↔ u = t ∨ u ∈ l.
Proof.
  induction l as [|v l IH]; simpl; [set_solver |]. destruct (_ <? _); set_solver.
Qed.

Lemma prio_insert_NoDup ts l t : NoDup l → t ∉ l → NoDup (prio_insert ts l t).
Proof.
  induction 1 as [|v l Hv Hn IH]; simpl; intros Ht; [apply NoDup_singleton |].
  apply not_elem_of_cons in Ht as [Hne Ht]. destruct (_ <? _).
  - constructor; [set_solver |]. by constructor.
  - constructor; [|by apply IH]. rewrite prio_insert_elem. set_solver.
Qed.

Lemma enqueue_elem ts l t flag u :
  flag = RT_IPC_FLAG_FIFO ∨ flag = RT_IPC_FLAG_PRIO →
  u ∈ rt_susp_list_enqueue ts l t flag ↔ u = t ∨ u ∈ l.
Proof.
  unfold rt_susp_list_enqueue. intros [-> | ->]; simpl; [set_solver | apply prio_insert_elem].
Qed.

Lemma enqueue_NoDup ts l t flag :
  flag = RT_IPC_FLAG_FIFO ∨ flag = RT_IPC_FLAG_PRIO → NoDup l → t ∉ l →
  NoDup (rt_susp_list_enqueue ts l t flag).
Proof.
  unfold rt_susp_list_enqueue. intros [-> | ->] Hn Ht; simpl.
  - apply NoDup_app. split_and!; [done | set_solver | apply NoDup_singleton].
  - by apply prio_insert_NoDup.
Qed.

Lemma enqueue_ordered ts l t flag :
  prio_ordered ts flag l → prio_ordered ts flag (rt_susp_list_enqueue ts l t flag).
Proof.
  unfold rt_susp_list_enqueue. intros Hs ->. simpl. specialize (Hs eq_refl).
  destruct (prio_insert_split ts l t Hs) as (l1 & l2 & -> & -> & H1 & H2).
  induction l1 as [|u l1 IH]; simpl in *.
  - constructor; [done |]. eapply Forall_impl; [exact H2 |]. simpl. intros. lia.
  - apply StronglySorted_inv in Hs as [Hs Hu]. apply Forall_cons in H1 as [Hut H1].
    constructor; [by apply IH |]. rewrite Forall_app in *. destruct Hu as [Hu1 Hu2].
    split; [done |]. by constructor.
Qed.

(** ** Waiting threads

    [W] holds the threads suspended on the lists of an object; a thread timer runs, or
    waits for its handler, only for a thread in [W] that started it. *)
Record wait_ok (ts : threads) (W : list nat) : Prop := {
  w_nodup : NoDup W;
  w_susp : ∀ t, t_susp (th ts t) = true ↔ t ∈ W;
  w_ttmr : ∀ t, t ∈ W → t_ttmr (th ts t) = t_active (th ts t) || t_pend (th ts t);
  w_excl : ∀ t, t_active (th ts t) && t_pend (th ts t) = false;
  w_off : ∀ t, t ∉ W → t_active (th ts t) = false ∧ t_pend (th ts t) = false
}.

Lemma wait_ok_perm ts W W' : W ≡ₚ W' → wait_ok ts W → wait_ok ts W'.
Proof.
  intros E []. constructor; try done.
  - by rewrite <-E.
  - intros t. by rewrite <-E.
  - intros t. rewrite <-E. auto.
  - intros t. rewrite <-E. auto.
Qed.

(** Only the waiting state of the threads matters. *)
Lemma wait_ok_ext ts ts' W :
  (∀ u, t_susp (th ts' u) = t_susp (th ts u) ∧ t_ttmr (th ts' u) = t_ttmr (th ts u)
        ∧ t_active (th ts' u) = t_active (th ts u) ∧ t_pend (th ts' u) = t_pend (th ts u)) →
  wait_ok ts W → wait_ok ts' W.
Proof.
  intros E []. constructor; [done | ..]; intros u; destruct (E u) as (E1 & E2 & E3 & E4);
    rewrite ?E1, ?E2, ?E3, ?E4; auto.
Qed.

Lemma wait_ok_error ts W t e : wait_ok ts W → wait_ok (upd ts t (set_error (th ts t) e)) W.
Proof. apply wait_ok_ext. intros u. rewrite th_upd. case_decide; by subst. Qed.

Lemma not_susp ts W t : wait_ok ts W → t ∉ W ↔ t_susp (th ts t) = false.
Proof. intros []. rewrite <-w_susp0. by destruct (t_susp (th ts t)). Qed.

(** Waking a waiting thread whose timeout handler is not about to run. *)
Lemma ready_spec ts W l t :
  wait_ok ts W → t ∈ W → t_pend (th ts t) = false →
  ∃ x, rt_sched_thread_ready ts l t = (0, upd ts t x, list_remove l t)
    ∧ t_error x = t_error (th ts t) ∧ t_prio x = t_prio (th ts t)
    ∧ wait_ok (upd ts t x) (list_remove W t).
Proof.
  intros Hw Ht Hp. pose proof Hw as []. unfold rt_sched_thread_ready.
  rewrite (proj2 (w_susp0 t) Ht). simpl.
  specialize (w_ttmr0 t Ht) as Htt. rewrite Hp, orb_false_r in Htt.
  set (x := mk_thread (t_prio (th ts t)) (t_error (th ts t)) false false false false).
  exists x. split.
  - unfold rt_sched_thread_timer_stop, rt_timer_stop. rewrite Htt.
    destruct (t_active (th ts t)) eqn:Ea; simpl; unfold x, set_susp, set_timer; simpl; rewrite ?Hp; [done |].
    by rewrite Htt, Ea.
  - split_and!; [done | done |]. constructor.
    + by apply NoDup_list_remove.
    + intros u. rewrite th_upd, elem_of_list_remove. case_decide as E; [subst; simpl; naive_solver |].
      rewrite w_susp0. naive_solver.
    + intros u [Hne Hu]%elem_of_list_remove. rewrite th_upd_ne by done. by apply w_ttmr0.
    + intros u. rewrite th_upd. by case_decide.
    + intros u Hu. rewrite th_upd. case_decide; [done |]. apply w_off0.
      intros Hin. apply Hu, elem_of_list_remove. done.
Qed.

(** Suspending the running thread. *)
Lemma suspend_spec ts W l t flag :
  wait_ok ts W → t ∉ W → flag = RT_IPC_FLAG_FIFO ∨ flag = RT_IPC_FLAG_PRIO →
  ∃ x, rt_thread_suspend_to_list ts l t flag
      = (RT_EOK, upd (upd ts t (set_susp (th ts t) true)) t x, rt_susp_list_enqueue ts l t flag)
    ∧ t_error x = t_error (th ts t) ∧ t_prio x = t_prio (th ts t)
    ∧ t_active x = false ∧ t_pend x = false ∧ t_ttmr x = false ∧ t_susp x = true.
Proof.
  intros Hw Ht Hf. unfold rt_thread_suspend_to_list. rewrite (proj1 (not_susp _ _ _ Hw) Ht).
  destruct (w_off _ _ Hw t Ht) as [Ha Hp]. rewrite th_upd_eq.
  unfold rt_sched_thread_timer_stop, rt_timer_stop. simpl. rewrite Ha. simpl.
  assert (∀ l, prio_insert (upd ts t (set_susp (th ts t) true)) l t = prio_insert ts l t) as E.
  { intros k. induction k as [|u k IH]; simpl; [done |]. rewrite IH, !th_upd.
    rewrite decide_True by done. by case_decide; subst. }
  unfold rt_susp_list_enqueue. rewrite E. eexists. split_and!; [reflexivity | ..].
  - by destruct (t_ttmr (th ts t)).
  - by destruct (t_ttmr (th ts t)).
  - by destruct (t_ttmr (th ts t)).
  - by destruct (t_ttmr (th ts t)).
  - destruct (t_ttmr (th ts t)) eqn:Et; simpl; done.
  - by destruct (t_ttmr (th ts t)).
Qed.

(** A thread whose record says that it waits joins the waiting threads. *)
Lemma wait_ok_join ts W t x :
  wait_ok ts W → t ∉ W → t_susp x = true → t_pend x = false → t_ttmr x = t_active x →
  wait_ok (upd ts t x) (t :: W).
Proof.
  intros Hw Ht Hs Hp Htt. pose proof Hw as []. constructor.
  - by constructor.
  - intros u. rewrite th_upd. case_decide; [subst; set_solver |]. rewrite w_susp0. set_solver.
  - intros u Hu. rewrite th_upd. case_decide; [by rewrite Hp, orb_false_r |].
    apply w_ttmr0. set_solver.
  - intros u. rewrite th_upd. case_decide; [by rewrite Hp, andb_false_r | done].
  - intros u Hu. rewrite th_upd_ne by set_solver. apply w_off0. set_solver.
Qed.

(** The timer of a waiting thread expires. *)
Lemma expire_spec ts W t :
  wait_ok ts W → t_active (th ts t) = true → t ∈ W ∧ wait_ok (timer_expire ts t) W.
Proof.
  intros Hw Ha. pose proof Hw as [].
  assert (t ∈ W) as Ht.
  { destruct (decide (t ∈ W)) as [|Hn]; [done |]. destruct (w_off0 t Hn). congruence. }
  split; [done |]. unfold timer_expire. constructor; [done | | | |].
  - intros u. rewrite th_upd. case_decide; [subst; simpl; apply w_susp0 | apply w_susp0].
  - intros u Hu. rewrite th_upd. case_decide; [subst; simpl; by rewrite w_ttmr0, Ha | by apply w_ttmr0].
  - intros u. rewrite th_upd. by case_decide.
  - intros u Hu. rewrite th_upd_ne by congruence. by apply w_off0.
Qed.

(** The handler runs: its assertion holds and the thread is removed. *)
Lemma timeout_spec ts W l t :
  wait_ok ts W → t_pend (th ts t) = true →
  ∃ x, _thread_timeout ts l t = Some (upd ts t x, list_remove l t)
    ∧ t ∈ W ∧ t_error x = - RT_ETIMEOUT ∧ t_prio x = t_prio (th ts t)
    ∧ wait_ok (upd ts t x) (list_remove W t).
Proof.
  intros Hw Hp. pose proof Hw as [].
  assert (t ∈ W) as Ht.
  { destruct (decide (t ∈ W)) as [|Hn]; [done |]. destruct (w_off0 t Hn). congruence. }
  assert (t_active (th ts t) = false) as Ha
    by (specialize (w_excl0 t); rewrite Hp, andb_true_r in w_excl0; done).
  unfold _thread_timeout. rewrite (proj2 (w_susp0 t) Ht). simpl. eexists.
  split_and!; [done | done | done | done |]. constructor.
  - by apply NoDup_list_remove.
  - intros u. rewrite th_upd, elem_of_list_remove. case_decide as E; [subst; simpl; naive_solver |].
    rewrite w_susp0. naive_solver.
  - intros u [Hne Hu]%elem_of_list_remove. rewrite th_upd_ne by done. by apply w_ttmr0.
  - intros u. rewrite th_upd. case_decide; [by rewrite andb_comm | done].
  - intros u Hu. rewrite th_upd. case_decide; [done |]. apply w_off0.
    intros Hin. apply Hu, elem_of_list_remove. done.
Qed.

(** ** Waking from a list

    The other waiting threads of the object are [R]. *)

Lemma dequeue_spec ts t l R e :
  wait_ok ts ((t :: l) ++ R) → t_pend (th ts t) = false → 0 ≤ e →
  ∃ ts', rt_susp_list_dequeue ts (t :: l) e = (Some t, ts', l)
    ∧ wait_ok ts' (l ++ R) ∧ same_prio ts ts' ∧ t_error (th ts' t) = e
    ∧ (∀ u, u ≠ t → th ts' u = th ts u).
Proof.
  intros Hw Hp He. pose proof (w_nodup _ _ Hw) as Hn. simpl in Hn. apply NoDup_cons in Hn as [Hnot Hn].
  assert (t ∉ l) as Hl by set_solver.
  destruct (ready_spec ts _ (t :: l) t Hw) as (x & E & _ & Hpr & Hw'); [set_solver | done |].
  unfold rt_susp_list_dequeue. rewrite E. simpl. rewrite th_upd_eq, list_remove_head by done.
  replace (0 <=? e) with true by (symmetry; by apply Z.leb_le).
  simpl in Hw'. change (list_remove (t :: l ++ R) t) with (list_remove (t :: (l ++ R)) t) in Hw'.
  rewrite list_remove_head in Hw' by done.
  eexists. split; [done |]. split_and!.
  - rewrite <-(th_upd_eq ts t x) at 2. by apply wait_ok_error.
  - etrans; [by apply same_prio_upd|]. apply same_prio_upd. by rewrite th_upd_eq.
  - by rewrite th_upd_eq.
  - intros u Hu. by rewrite !th_upd_ne by done.
Qed.

(** The timer of the first thread has expired and its handler has not run: the thread is not woken. *)
Lemma dequeue_pending ts W t l e :
  wait_ok ts W → t ∈ W → t_pend (th ts t) = true →
  rt_susp_list_dequeue ts (t :: l) e = (None, upd ts t (set_timer (th ts t) false false true), t :: l).
Proof.
  intros Hw Ht Hp. pose proof (w_excl _ _ Hw t) as Ha. rewrite Hp, andb_true_r in Ha.
  unfold rt_susp_list_dequeue, rt_sched_thread_ready, rt_sched_thread_timer_stop, rt_timer_stop.
  rewrite (proj2 (w_susp _ _ Hw t) Ht), (w_ttmr _ _ Hw t Ht), Ha, Hp. simpl. by rewrite Ha, Hp.
Qed.

Lemma resume_loop_spec fuel ts l R e :
  (length l < fuel)%nat → wait_ok ts (l ++ R) → Forall (λ t, t_pend (th ts t) = false) l → 0 ≤ e →
  ∃ ts', resume_loop fuel ts l e = (l, ts', [])
    ∧ wait_ok ts' R ∧ same_prio ts ts' ∧ Forall (λ t, t_error (th ts' t) = e) l
    ∧ (∀ u, u ∉ l → th ts' u = th ts u).
Proof.
  revert ts l. induction fuel as [|fuel IH]; intros ts [|t l] Hf Hw Hp He; simpl in Hf; try lia.
  { exists ts. by split_and!. }
  apply Forall_cons in Hp as [Hpt Hp]. cbn [resume_loop].
  pose proof (w_nodup _ _ Hw) as Hn. simpl in Hn. apply NoDup_cons in Hn as [Hnot Hn].
  destruct (dequeue_spec ts t l R e Hw Hpt He) as (ts1 & -> & Hw1 & Hs1 & He1 & Hu1).
  destruct (IH ts1 l) as (ts2 & -> & Hw2 & Hs2 & He2 & Hu2); [lia | done | | done |].
  { rewrite Forall_forall in *. intros u Hu. rewrite Hu1 by set_solver. auto. }
  exists ts2. split_and!; [done | done | by etrans | |].
  - constructor; [|done]. rewrite Hu2 by set_solver. done.
  - intros u Hu. rewrite Hu2, Hu1 by set_solver. done.
Qed.

Lemma resume_all_spec ts l R e :
  wait_ok ts (l ++ R) → Forall (λ t, t_pend (th ts t) = false) l → 0 ≤ e →
  ∃ ts', rt_susp_list_resume_all ts l e = (l, ts', [])
    ∧ wait_ok ts' R ∧ same_prio ts ts' ∧ Forall (λ t, t_error (th ts' t) = e) l
    ∧ (∀ u, u ∉ l → th ts' u = th ts u).
Proof. intros. apply resume_loop_spec; [lia | done..]. Qed.

(** A thread that suspends, with or without a timer, joins the waiting threads. *)
Lemma block_spec ts W l t flag e timeout :
  wait_ok ts W → t ∉ W → flag = RT_IPC_FLAG_FIFO ∨ flag = RT_IPC_FLAG_PRIO →
  let ts0 := upd ts t (set_error (th ts t) e) in
  ∃ ts1, rt_thread_suspend_to_list ts0 l t flag = (RT_EOK, ts1, rt_susp_list_enqueue ts l t flag)
    ∧ let ts2 := if 0 <? timeout then upd ts1 t (rt_timer_start (th ts1 t)) else ts1 in
      wait_ok ts2 (t :: W) ∧ same_prio ts ts2 ∧ (∀ u, u ≠ t → th ts2 u = th ts u)
      ∧ t_error (th ts2 t) = e.
Proof.
  intros Hw Ht Hf ts0.
  assert (wait_ok ts0 W) as Hw0 by (by apply wait_ok_error).
  assert (same_prio ts ts0) as Hs0 by (by apply same_prio_upd).
  destruct (suspend_spec ts0 W l t flag Hw0 Ht Hf) as (x & E & Hx & Hpr & Ha & Hp & Htt & Hsu).
  assert (rt_susp_list_enqueue ts0 l t flag = rt_susp_list_enqueue ts l t flag) as El.
  { unfold rt_susp_list_enqueue. assert (∀ k, prio_insert ts0 k t = prio_insert ts k t) as Ei.
    { intros k. induction k as [|u k IHk]; simpl; [done |]. by rewrite IHk, !Hs0. }
    by rewrite Ei. }
  rewrite El in E. eexists. split; [exact E |]. intros ts2.
  set (y := if 0 <? timeout then rt_timer_start x else x).
  assert (∀ u, th ts2 u = if decide (t = u) then y else th ts u) as Hth.
  { intros u. subst ts2 y ts0. destruct (0 <? timeout); rewrite !th_upd; repeat case_decide; done || congruence. }
  split_and!.
  - assert (wait_ok (upd ts0 t y) (t :: W)) as Hj.
    { apply wait_ok_join; try done; subst y; destruct (0 <? timeout); simpl; congruence. }
    revert Hj. apply wait_ok_ext. intros u. rewrite Hth. subst ts0. rewrite !th_upd. by case_decide.
  - intros u. rewrite Hth. case_decide; [subst u | done]. subst y ts0.
    rewrite th_upd_eq in Hpr. by destruct (0 <? timeout).
  - intros u Hu. rewrite Hth. by rewrite decide_False.
  - rewrite Hth, decide_True by done. subst y ts0. rewrite th_upd_eq in Hx. by destruct (0 <? timeout).
Qed.

(** No thread waits. *)
Lemma wait_ok_nil ts :
  (∀ t, t_susp (th ts t) = false ∧ t_active (th ts t) = false ∧ t_pend (th ts t) = false) →
  wait_ok ts [].
Proof.
  intros H. constructor; [apply NoDup_nil_2 | ..]; intros t; destruct (H t) as (Hs & Ha & Hp);
    rewrite ?Hs, ?Ha, ?Hp; try done; set_solver.
Qed.

(** ** Waiting threads when interrupts enter between an expiry and its handler

    What holds of the waiting threads [W] in every run: a thread whose timer was started has
    it running, or its handler is still to come. *)
Record wait_any (ts : threads) (W : list nat) : Prop := {
  a_nodup : NoDup W;
  a_susp : ∀ t, t_susp (th ts t) = true ↔ t ∈ W;
  a_ttmr : ∀ t, t ∈ W → t_ttmr (th ts t) = true → t_active (th ts t) || t_pend (th ts t) = true
}.

(** The timer was started and has expired, so that [rt_timer_stop] fails. *)
Definition timed_out (x : thread) : bool := t_ttmr x && negb (t_active x).

Lemma wait_any_ok ts W : wait_ok ts W → wait_any ts W.
Proof. intros []. constructor; [done | done |]. intros t Ht E. by rewrite <-w_ttmr0. Qed.

Lemma timed_out_pend ts W t : wait_any ts W → t ∈ W → timed_out (th ts t) = true → t_pend (th ts t) = true.
Proof.
  intros [_ _ Ha] Ht [E1 E2%negb_true_iff]%andb_true_iff. specialize (Ha t Ht E1). by rewrite E2 in Ha.
Qed.

Lemma any_not_susp ts W t : wait_any ts W → t ∉ W ↔ t_susp (th ts t) = false.
Proof. intros []. rewrite <-a_susp0. by destruct (t_susp (th ts t)). Qed.

Lemma wait_any_perm ts W W' : W ≡ₚ W' → wait_any ts W → wait_any ts W'.
Proof.
  intros E []. constructor; [by rewrite <-E | intros t; by rewrite <-E | intros t; rewrite <-E; auto].
Qed.

(** One thread changes: it still waits, or it does not wait any more. *)
Lemma wait_any_upd ts W t x :
  wait_any ts W →
  (if t_susp x then t ∈ W ∧ (t_ttmr x = true → t_active x || t_pend x = true) else True) →
  wait_any (upd ts t x) (if t_susp x then W else list_remove W t).
Proof.
  intros [Hn Hs Ha] Hx. destruct (t_susp x) eqn:Ex.
  - destruct Hx as [Hin Hx]. constructor; [done | |].
    + intros u. rewrite th_upd. case_decide; [subst; by rewrite Ex | apply Hs].
    + intros u Hu. rewrite th_upd. case_decide; [subst; apply Hx | by apply Ha].
  - constructor; [by apply NoDup_list_remove | |].
    + intros u. rewrite th_upd, elem_of_list_remove. case_decide; [subst; rewrite Ex; naive_solver |].
      rewrite Hs. naive_solver.
    + intros u [Hne Hu]%elem_of_list_remove. rewrite th_upd_ne by done. by apply Ha.
Qed.

Lemma wait_any_error ts W t e : wait_any ts W → wait_any (upd ts t (set_error (th ts t) e)) W.
Proof.
  intros [Hn Hs Ha]. constructor; [done | ..]; intros u; rewrite th_upd; case_decide; subst; simpl; auto.
Qed.

(** Waking a waiting thread: it fails when its timer has expired. *)
Lemma ready_any ts W l t :
  wait_any ts W → t ∈ W →
  if timed_out (th ts t) then
    ∃ x, rt_sched_thread_ready ts l t = (- RT_ERROR, upd ts t x, l)
      ∧ t_error x = t_error (th ts t) ∧ t_prio x = t_prio (th ts t) ∧ t_pend x = t_pend (th ts t)
      ∧ wait_any (upd ts t x) W
  else
    ∃ x, rt_sched_thread_ready ts l t = (0, upd ts t x, list_remove l t)
      ∧ t_error x = t_error (th ts t) ∧ t_prio x = t_prio (th ts t) ∧ t_susp x = false
      ∧ wait_any (upd ts t x) (list_remove W t).
Proof.
  intros Hw Ht. pose proof Hw as [Hn Hs Ha]. pose proof (proj2 (Hs t) Ht) as Hsu.
  unfold rt_sched_thread_ready, rt_sched_thread_timer_stop, rt_timer_stop, timed_out. rewrite Hsu. simpl.
  destruct (t_ttmr (th ts t)) eqn:Et; simpl.
  - destruct (t_active (th ts t)) eqn:Ea; simpl.
    + eexists. split; [done |]. split_and!; try done.
      pose proof (λ x, wait_any_upd ts W t x Hw) as Hu. by apply (Hu (mk_thread _ _ false _ _ _)).
    + eexists. split; [done |]. split_and!; try done.
      pose proof (λ x, wait_any_upd ts W t x Hw) as Hu. specialize (Hu (set_timer (th ts t) false (t_active (th ts t)) (t_pend (th ts t)))).
      simpl in Hu. rewrite Hsu in Hu. by apply Hu.
  - eexists. split; [done |]. split_and!; try done.
    pose proof (λ x, wait_any_upd ts W t x Hw) as Hu. by apply (Hu (mk_thread _ _ false _ _ _)).
Qed.

(** [rt_susp_list_dequeue] in any state. *)
Lemma dequeue_any ts t l e :
  wait_any ts (t :: l) → 0 ≤ e →
  ∃ ts', same_prio ts ts' ∧ (∀ u, u ≠ t → th ts' u = th ts u)
    ∧ if timed_out (th ts t) then
        rt_susp_list_dequeue ts (t :: l) e = (None, ts', t :: l) ∧ wait_any ts' (t :: l)
        ∧ t_error (th ts' t) = t_error (th ts t)
      else
        rt_susp_list_dequeue ts (t :: l) e = (Some t, ts', l) ∧ wait_any ts' l
        ∧ t_error (th ts' t) = e ∧ t_susp (th ts' t) = false.
Proof.
  intros Hw He. pose proof (a_nodup _ _ Hw) as Hn. apply NoDup_cons in Hn as [Hnot Hn].
  pose proof (ready_any ts _ (t :: l) t Hw ltac:(by left)) as Hr. unfold rt_susp_list_dequeue.
  destruct (timed_out (th ts t)); destruct Hr as (x & -> & Hx & Hp & Hrest & Hw').
  - exists (upd ts t x). split; [by apply same_prio_upd |]. split; [intros u Hu; by apply th_upd_ne |].
    simpl. by rewrite th_upd_eq.
  - simpl. rewrite list_remove_head in Hw' |- * by done.
    replace (0 <=? e) with true by (symmetry; by apply Z.leb_le). eexists. split_and!; [| | done | | |].
    + etrans; [by apply (same_prio_upd _ t x) |]. apply same_prio_upd. by rewrite th_upd_eq.
    + intros u Hu. by rewrite !th_upd_ne.
    + by apply wait_any_error.
    + by rewrite th_upd_eq.
    + by rewrite !th_upd_eq.
Qed.

(** [rt_susp_list_resume_all] in any state: the threads up to the first whose timer has
    expired are resumed. *)
Lemma resume_loop_any fuel ts l e :
  (length l < fuel)%nat → wait_any ts l → 0 ≤ e →
  ∃ woken ts' l', resume_loop fuel ts l e = (woken, ts', l') ∧ l = woken ++ l' ∧ wait_any ts' l'
    ∧ same_prio ts ts' ∧ (∀ u, u ∉ l → th ts' u = th ts u) ∧ (∀ u, u ∈ l' → t_pend (th ts' u) = t_pend (th ts u)).
Proof.
  revert ts l. induction fuel as [|fuel IH]; intros ts [|t l] Hf Hw He; simpl in Hf; try lia.
  { exists [], ts, []. by split_and!. }
  cbn [resume_loop]. pose proof (a_nodup _ _ Hw) as Hn. apply NoDup_cons in Hn as [Hnot Hn].
  pose proof (ready_any ts _ (t :: l) t Hw ltac:(by left)) as Hr.
  destruct (dequeue_any ts t l e Hw He) as (ts1 & Hs1 & Hu1 & Hd).
  destruct (timed_out (th ts t)) eqn:Et.
  - destruct Hd as (E & Hw1 & _). rewrite E. exists [], ts1, (t :: l). split_and!; try done.
    + intros u Hu. apply Hu1. set_solver.
    + intros u Hu. destruct (decide (u = t)) as [-> | Hne]; [|by rewrite Hu1].
      destruct Hr as (x & Er & _ & _ & Hpx & _). unfold rt_susp_list_dequeue in E. rewrite Er in E. simpl in E.
      injection E as <-. by rewrite th_upd_eq.
  - destruct Hd as (-> & Hw1 & _). destruct (IH ts1 l) as (w & ts2 & l2 & -> & -> & Hw2 & Hs2 & Hu2 & Hp2); [lia | done | done |].
    exists (t :: w), ts2, l2. split_and!; try done; [by etrans | |].
    + intros u Hu. rewrite Hu2, Hu1 by set_solver. done.
    + intros u Hu. rewrite Hp2 by done. rewrite Hu1 by set_solver. done.
Qed.

Lemma resume_all_any ts l e :
  wait_any ts l → 0 ≤ e →
  ∃ woken ts' l', rt_susp_list_resume_all ts l e = (woken, ts', l') ∧ l = woken ++ l' ∧ wait_any ts' l'
    ∧ same_prio ts ts' ∧ (∀ u, u ∉ l → th ts' u = th ts u) ∧ (∀ u, u ∈ l' → t_pend (th ts' u) = t_pend (th ts u)).
Proof. intros. apply resume_loop_any; [lia | done..]. Qed.

(** Blocking, expiry and handler in any state. *)
Lemma suspend_any ts l t flag timeout :
  wait_any ts l → t ∉ l → flag = RT_IPC_FLAG_FIFO ∨ flag = RT_IPC_FLAG_PRIO →
  ∃ ts1 l', rt_thread_suspend_to_list ts l t flag = (RT_EOK, ts1, l') ∧ l' ≡ₚ t :: l
    ∧ let ts2 := if 0 <? timeout then upd ts1 t (rt_timer_start (th ts1 t)) else ts1 in
      wait_any ts2 (t :: l) ∧ (∀ u, u ≠ t → th ts2 u = th ts u).
Proof.
  intros Hw Ht Hf. pose proof Hw as [Hn Hs Ha]. unfold rt_thread_suspend_to_list.
  rewrite (proj1 (any_not_susp _ _ _ Hw) Ht). eexists _, _. split; [done |]. split.
  { apply NoDup_Permutation; [by apply enqueue_NoDup | by constructor |].
    intros u. rewrite enqueue_elem by done. set_solver. }
  set (ts2 := if 0 <? timeout then _ else _) in |- *.
  set (x := (rt_sched_thread_timer_stop (set_susp (th ts t) true)).2).
  set (y := if 0 <? timeout then rt_timer_start x else x).
  assert (Hth : ∀ u, th ts2 u = if decide (t = u) then y else th ts u).
  { intros u. subst ts2 y. rewrite th_upd_eq. fold x. destruct (0 <? timeout); rewrite !th_upd; repeat case_decide; done || congruence. }
  assert (Hx : t_susp x = true ∧ (t_ttmr x = true → t_active x || t_pend x = true)).
  { subst x. unfold rt_sched_thread_timer_stop, rt_timer_stop. simpl. destruct (t_ttmr (th ts t)) eqn:E; simpl.
    - by destruct (t_active (th ts t)); simpl; split.
    - split; [done |]. intros E'. by rewrite E in E'. }
  assert (Hy : t_susp y = true ∧ (t_ttmr y = true → t_active y || t_pend y = true)).
  { subst y. destruct Hx. destruct (0 <? timeout); [|done]. by split. }
  destruct Hy as [Hy1 Hy2]. split; [|intros u Hu; rewrite Hth; by rewrite decide_False].
  constructor; [by constructor | |].
  - intros u. rewrite Hth. case_decide; [subst; set_solver |]. rewrite Hs. set_solver.
  - intros u Hu. rewrite Hth. case_decide; [done |]. apply Ha. set_solver.
Qed.

Lemma expire_any ts W t : wait_any ts W → wait_any (timer_expire ts t) W.
Proof.
  intros [Hn Hs Ha]. unfold timer_expire. constructor; [done | ..]; intros u; rewrite th_upd; case_decide; subst; simpl; auto.
Qed.

Lemma timeout_any ts W l t :
  wait_any ts W →
  if t_susp (th ts t) then
    ∃ x, _thread_timeout ts l t = Some (upd ts t x, list_remove l t)
      ∧ t_error x = - RT_ETIMEOUT ∧ t_prio x = t_prio (th ts t) ∧ t_susp x = false
      ∧ wait_any (upd ts t x) (list_remove W t)
  else _thread_timeout ts l t = None.
Proof.
  intros Hw. unfold _thread_timeout. destruct (t_susp (th ts t)); simpl; [|done].
  eexists. split; [done |]. split_and!; try done.
  pose proof (λ x, wait_any_upd ts W t x Hw) as Hu. by apply (Hu (mk_thread _ _ false _ _ _)).
Qed.
