(* ===== verification/SmallMem.v ===== *)
(** The heap of the kernel (rt-thread/src/mem.c, and rt_malloc to rt_free_align of
    rt-thread/src/kservice.c) in the configuration of the board: small memory management as
    the system heap, 32-bit words, alignment of 8 bytes, no memory trace.

    The heap is a block of bytes from [heap_ptr] on; a header ([struct rt_small_mem_item])
    is read and written in it as three little-endian words. Pointers are addresses. The
    result [None] stands for a call that does not return: the handler of a failed assertion
    loops, and so does the code on a heap whose headers do not lead anywhere. *)

From S2P Require Import Prelude.
From S2P Require Import CText.
From S2P Require Import RtDef.

(** * Constants *)

(** [sizeof(struct rt_small_mem_item)] and [sizeof(struct rt_small_mem)]. *)
Definition sizeof_item : Z := 12.
Definition sizeof_small_mem : Z := 56.
Definition MIN_SIZE : Z := 12.
Definition MEM_MASK : Z := u32 (Z.lnot 0 - 1).
Definition MIN_SIZE_ALIGNED : Z := RT_ALIGN MIN_SIZE RT_ALIGN_SIZE.
Definition SIZEOF_STRUCT_MEM : Z := RT_ALIGN sizeof_item RT_ALIGN_SIZE.

Definition MEM_USED (mem : Z) : Z := Z.lor (Z.land mem MEM_MASK) 1.
Definition MEM_FREED (mem : Z) : Z := Z.lor (Z.land mem MEM_MASK) 0.

(** * The memory object *)

(** [struct rt_small_mem] at address [sm_self], with its parent [struct rt_memory], and the
    bytes from [heap_ptr] on. *)
Record rt_small_mem : Type := mk_smem {
  sm_self : Z;
  sm_total : Z;
  sm_used : Z;
  sm_max : Z;
  heap_ptr : Z;
  heap_end : Z;
  lfree : Z;
  mem_size_aligned : Z;
  sm_heap : list Z
}.

Definition set_used (used max : Z) (m : rt_small_mem) : rt_small_mem :=
  mk_smem (sm_self m) (sm_total m) used max (heap_ptr m) (heap_end m) (lfree m) (mem_size_aligned m) (sm_heap m).
Definition set_lfree (p : Z) (m : rt_small_mem) : rt_small_mem :=
  mk_smem (sm_self m) (sm_total m) (sm_used m) (sm_max m) (heap_ptr m) (heap_end m) p (mem_size_aligned m) (sm_heap m).
Definition set_heap (h : list Z) (m : rt_small_mem) : rt_small_mem :=
  mk_smem (sm_self m) (sm_total m) (sm_used m) (sm_max m) (heap_ptr m) (heap_end m) (lfree m) (mem_size_aligned m) h.

(** Words of the heap. *)
Definition store_u32 (h : list Z) (off v : Z) : list Z := memcpy h off (le32 v) 0 4.
Definition rd (m : rt_small_mem) (a : Z) : Z := load_u32 (sm_heap m) (a - heap_ptr m).
Definition wr (a v : Z) (m : rt_small_mem) : rt_small_mem := set_heap (store_u32 (sm_heap m) (a - heap_ptr m) v) m.

(** The fields of the header at address [p]. *)
Definition pool_ptr (m : rt_small_mem) (p : Z) : Z := rd m p.
Definition item_next (m : rt_small_mem) (p : Z) : Z := rd m (p + 4).
Definition item_prev (m : rt_small_mem) (p : Z) : Z := rd m (p + 8).
Definition set_pool (p v : Z) (m : rt_small_mem) : rt_small_mem := wr p v m.
Definition set_next (p v : Z) (m : rt_small_mem) : rt_small_mem := wr (p + 4) v m.
Definition set_prev (p v : Z) (m : rt_small_mem) : rt_small_mem := wr (p + 8) v m.

Definition MEM_ISUSED (m : rt_small_mem) (p : Z) : bool := negb (Z.land (pool_ptr m p) (u32 (Z.lnot MEM_MASK)) =? 0).
Definition MEM_POOL (m : rt_small_mem) (p : Z) : Z := Z.land (pool_ptr m p) MEM_MASK.

(** [RT_ASSERT]. *)
Definition assert {A} (b : bool) (k : option A) : option A := if b then k else None.

(** [small_mem->parent.used] goes up, and the maximum with it. *)
Definition add_used (n : Z) (m : rt_small_mem) : rt_small_mem :=
  let used := u32 (sm_used m + n) in set_used used (if sm_max m <? used then used else sm_max m) m.

(** * Operations *)

(** [begin_addr] and [size] delimit the memory that is handed over; [ram] is what it
    contains behind the object. *)
Definition rt_smem_init (begin_addr size : Z) (ram : list Z) : option rt_small_mem :=
  let small_mem := RT_ALIGN begin_addr RT_ALIGN_SIZE in
  let start_addr := u32 (small_mem + sizeof_small_mem) in
  let begin_align := RT_ALIGN start_addr RT_ALIGN_SIZE in
  let end_align := RT_ALIGN_DOWN (u32 (begin_addr + size)) RT_ALIGN_SIZE in
  if (2 * SIZEOF_STRUCT_MEM <? end_align) && (start_addr <=? u32 (end_align - 2 * SIZEOF_STRUCT_MEM)) then
    let mem_size := u32 (end_align - begin_align - 2 * SIZEOF_STRUCT_MEM) in
    let e := u32 (begin_align + (mem_size + SIZEOF_STRUCT_MEM)) in
    let m := mk_smem small_mem mem_size 0 0 begin_align e begin_align mem_size ram in
    let m := set_pool begin_align (MEM_FREED small_mem) m in
    let m := set_next begin_align (mem_size + SIZEOF_STRUCT_MEM) m in
    let m := set_prev begin_align 0 m in
    let m := set_pool e (MEM_USED small_mem) m in
    let m := set_next e (mem_size + SIZEOF_STRUCT_MEM) m in
    let m := set_prev e (mem_size + SIZEOF_STRUCT_MEM) m in
    Some m
  else None.

(** The two parts of [plug_holes]: the next block is free, the block before is free. *)
Definition plug_forward (m : rt_small_mem) (mem : Z) : rt_small_mem :=
  let nmem := heap_ptr m + item_next m mem in
  if negb (mem =? nmem) && negb (MEM_ISUSED m nmem) && negb (nmem =? heap_end m) then
    let m := if lfree m =? nmem then set_lfree mem m else m in
    let m := set_pool nmem 0 m in
    let m := set_next mem (item_next m nmem) m in
    set_prev (heap_ptr m + item_next m nmem) (u32 (mem - heap_ptr m)) m
  else m.

Definition plug_backward (m : rt_small_mem) (mem : Z) : rt_small_mem :=
  let pmem := heap_ptr m + item_prev m mem in
  if negb (pmem =? mem) && negb (MEM_ISUSED m pmem) then
    let m := if lfree m =? mem then set_lfree pmem m else m in
    let m := set_pool mem 0 m in
    let m := set_next pmem (item_next m mem) m in
    set_prev (heap_ptr m + item_next m mem) (u32 (pmem - heap_ptr m)) m
  else m.

Definition plug_holes (m : rt_small_mem) (mem : Z) : option rt_small_mem :=
  assert (heap_ptr m <=? mem) (assert (mem <? heap_end m) (
    Some (plug_backward (plug_forward m mem) mem))).

(** The loop of [rt_smem_alloc] up to the block that fits: [Some None] if there is none. *)
Fixpoint find_fit (fuel : nat) (m : rt_small_mem) (ptr size : Z) : option (option Z) :=
  match fuel with
  | O => None
  | S fuel =>
      if ptr <=? u32 (mem_size_aligned m - size) then
        let mem := heap_ptr m + ptr in
        if negb (MEM_ISUSED m mem) && (size <=? u32 (item_next m mem - (ptr + SIZEOF_STRUCT_MEM))) then Some (Some ptr)
        else find_fit fuel m (item_next m mem) size
      else Some None
  end.

(** The lowest free block from [lfree] on. *)
Fixpoint advance_lfree (fuel : nat) (m : rt_small_mem) : option rt_small_mem :=
  match fuel with
  | O => None
  | S fuel =>
      if MEM_ISUSED m (lfree m) && negb (lfree m =? heap_end m)
      then advance_lfree fuel (set_lfree (heap_ptr m + item_next m (lfree m)) m)
      else Some m
  end.

(** Every round goes to a higher address, so the size of the heap is enough fuel. *)
Definition heap_fuel (m : rt_small_mem) : nat := S (length (sm_heap m)).

(** The block at [ptr] is taken: split it if the rest can hold a block, mark it used. *)
Definition split_block (m : rt_small_mem) (ptr size : Z) : rt_small_mem :=
  let mem := heap_ptr m + ptr in
  let ptr2 := u32 (ptr + SIZEOF_STRUCT_MEM + size) in
  let mem2 := heap_ptr m + ptr2 in
  let m := set_pool mem2 (MEM_FREED (sm_self m)) m in
  let m := set_next mem2 (item_next m mem) m in
  let m := set_prev mem2 ptr m in
  let m := set_next mem ptr2 m in
  if negb (item_next m mem2 =? u32 (mem_size_aligned m + SIZEOF_STRUCT_MEM))
  then set_prev (heap_ptr m + item_next m mem2) ptr2 m
  else m.

Definition take_block (m : rt_small_mem) (ptr size : Z) : option (Z * rt_small_mem) :=
  let mem := heap_ptr m + ptr in
  let room := u32 (item_next m mem - (ptr + SIZEOF_STRUCT_MEM)) in
  let m :=
    if u32 (size + SIZEOF_STRUCT_MEM + MIN_SIZE_ALIGNED) <=? room
    then add_used (size + SIZEOF_STRUCT_MEM) (split_block m ptr size)
    else add_used (item_next m mem - (mem - heap_ptr m)) m in
  let m := set_pool mem (MEM_USED (sm_self m)) m in
  m ← (if mem =? lfree m then
         m ← advance_lfree (heap_fuel m) m;
         assert ((lfree m =? heap_end m) || negb (MEM_ISUSED m (lfree m))) (Some m)
       else Some m);
  assert (u32 (mem + SIZEOF_STRUCT_MEM + size) <=? heap_end m)
    (assert (u32 (mem + SIZEOF_STRUCT_MEM) mod RT_ALIGN_SIZE =? 0)
       (assert (Z.land mem (RT_ALIGN_SIZE - 1) =? 0) (Some (mem + SIZEOF_STRUCT_MEM, m)))).

(** The address of the block and the heap; 0 is NULL. *)
Definition rt_smem_alloc (m : rt_small_mem) (size : Z) : option (Z * rt_small_mem) :=
  if size =? 0 then Some (0, m) else
  let size := RT_ALIGN size RT_ALIGN_SIZE in
  let size := if size <? MIN_SIZE_ALIGNED then MIN_SIZE_ALIGNED else size in
  if mem_size_aligned m <? size then Some (0, m) else
  r ← find_fit (heap_fuel m) m (lfree m - heap_ptr m) size;
  match r with
  | None => Some (0, m)
  | Some ptr => take_block m ptr size
  end.

(** [rmem] is an address in the heap, or 0 for NULL. The object is found through the header;
    there is one memory object, so that the check of its type fails for any other address. *)
Definition rt_smem_free (m : rt_small_mem) (rmem : Z) : option rt_small_mem :=
  if rmem =? 0 then Some m else
  assert (Z.land rmem (RT_ALIGN_SIZE - 1) =? 0) (
  let mem := rmem - SIZEOF_STRUCT_MEM in
  let small_mem := MEM_POOL m mem in
  assert (negb (small_mem =? 0)) (
  assert (MEM_ISUSED m mem) (
  assert (small_mem =? sm_self m) (
  assert ((heap_ptr m <=? rmem) && (rmem <? heap_end m)) (
  assert (MEM_POOL m (heap_ptr m + item_next m mem) =? small_mem) (
  let m := set_pool mem (MEM_FREED small_mem) m in
  let m := if mem <? lfree m then set_lfree mem m else m in
  let m := set_used (u32 (sm_used m - (item_next m mem - (mem - heap_ptr m)))) (sm_max m) m in
  plug_holes m mem)))))).

(** [rt_memcpy] inside the heap. *)
Definition heap_copy (m : rt_small_mem) (dst src n : Z) : rt_small_mem :=
  set_heap (memcpy (sm_heap m) (dst - heap_ptr m) (sm_heap m) (src - heap_ptr m) n) m.

Definition rt_smem_realloc (m : rt_small_mem) (rmem newsize : Z) : option (Z * rt_small_mem) :=
  let newsize := RT_ALIGN newsize RT_ALIGN_SIZE in
  if mem_size_aligned m <? newsize then Some (0, m)
  else if newsize =? 0 then
    m ← rt_smem_free m rmem; Some (0, m)
  else if rmem =? 0 then rt_smem_alloc m newsize
  else
  assert (Z.land rmem (RT_ALIGN_SIZE - 1) =? 0) (
  assert (heap_ptr m <=? rmem) (
  assert (rmem <? heap_end m) (
  let mem := rmem - SIZEOF_STRUCT_MEM in
  let ptr := u32 (mem - heap_ptr m) in
  let size := u32 (item_next m mem - ptr - SIZEOF_STRUCT_MEM) in
  if size =? newsize then Some (rmem, m)
  else if u32 (newsize + SIZEOF_STRUCT_MEM + MIN_SIZE) <? size then
    let m := set_used (u32 (sm_used m - (size - newsize))) (sm_max m) m in
    let m := split_block m ptr newsize in
    let mem2 := heap_ptr m + u32 (ptr + SIZEOF_STRUCT_MEM + newsize) in
    let m := if mem2 <? lfree m then set_lfree mem2 m else m in
    m ← plug_holes m mem2; Some (rmem, m)
  else
    '(nmem, m) ← rt_smem_alloc m newsize;
    if negb (nmem =? 0) then
      let m := heap_copy m nmem rmem (if size <? newsize then size else newsize) in
      m ← rt_smem_free m rmem; Some (nmem, m)
    else Some (nmem, m)))).

(** * The system heap (kservice.c), between [_heap_lock] and [_heap_unlock], without hooks *)

Definition rt_malloc (m : rt_small_mem) (size : Z) : option (Z * rt_small_mem) := rt_smem_alloc m size.
Definition rt_realloc (m : rt_small_mem) (ptr newsize : Z) : option (Z * rt_small_mem) := rt_smem_realloc m ptr newsize.
Definition rt_free (m : rt_small_mem) (ptr : Z) : option rt_small_mem := if ptr =? 0 then Some m else rt_smem_free m ptr.

Definition rt_calloc (m : rt_small_mem) (count size : Z) : option (Z * rt_small_mem) :=
  '(p, m) ← rt_malloc m (u32 (count * size));
  if negb (p =? 0) then Some (p, set_heap (memset (sm_heap m) (p - heap_ptr m) 0 (u32 (count * size))) m)
  else Some (p, m).

Definition rt_malloc_align (m : rt_small_mem) (size align : Z) : option (Z * rt_small_mem) :=
  let align := RT_ALIGN align 4 in
  let align_size := u32 (RT_ALIGN size 4 + align) in
  '(ptr, m) ← rt_malloc m align_size;
  if negb (ptr =? 0) then
    let align_ptr :=
      if Z.land ptr (u32 (align - 1)) =? 0 then u32 (ptr + align)
      else Z.land (u32 (ptr + (align - 1))) (u32 (Z.lnot (align - 1))) in
    Some (align_ptr, wr (align_ptr - 4) ptr m)
  else Some (ptr, m).

Definition rt_free_align (m : rt_small_mem) (ptr : Z) : option rt_small_mem :=
  if ptr =? 0 then Some m else rt_free m (rd m (ptr - 4)).

Definition _rt_system_heap_init (begin_addr end_addr : Z) (ram : list Z) : option (option rt_small_mem) :=
  let begin_align := RT_ALIGN begin_addr RT_ALIGN_SIZE in
  let end_align := RT_ALIGN_DOWN end_addr RT_ALIGN_SIZE in
  assert (begin_align <? end_align) (Some (rt_smem_init begin_align (u32 (end_align - begin_align)) ram)).
