(* ===== verification/SmallMemChain.v ===== *)
(** The headers of the heap as a chain of blocks: reading and writing them, and the blocks in
    use with their contents. *)

From S2P Require Import Prelude.
From S2P Require Import RtDef.
From S2P Require Import CText.
From S2P Require Import SmallMem.

(** * Words in a block of bytes *)

Lemma store_length h a v : 0 ≤ a → a + 4 ≤ blen h → length (store_u32 h a v) = length h.
Proof. intros. unfold store_u32. apply memcpy_length; len. Qed.

Lemma store_blen h a v : 0 ≤ a → a + 4 ≤ blen h → blen (store_u32 h a v) = blen h.
Proof. intros. unfold blen. by rewrite store_length. Qed.

Lemma store_lookup h a v (i : nat) :
  0 ≤ a → a + 4 ≤ blen h → Z.of_nat i < a ∨ a + 4 ≤ Z.of_nat i → store_u32 h a v !! i = h !! i.
Proof. intros Ha Hl Hi. unfold store_u32. rewrite memcpy_lookup by len. by zbool. Qed.

Lemma load_store_eq h a v : 0 ≤ a → a + 4 ≤ blen h → is_u32 v → load_u32 (store_u32 h a v) a = v.
Proof.
  intros Ha Hl Hv. unfold load_u32, store_u32, memcpy. change (Z.to_nat 0) with 0%nat. rewrite drop_0.
  rewrite drop_app_length' by len. rewrite take_app_length' by len.
  rewrite take_ge by len. unfold le32. rewrite le_val_bytes, u32_small by done.
  change (256 ^ Z.of_nat 4) with 4294967296. apply Z.mod_small. exact Hv.
Qed.

(** Loads see only their four bytes. *)
Lemma load_ext h h' a :
  0 ≤ a → (∀ i : nat, a ≤ Z.of_nat i < a + 4 → h' !! i = h !! i) → load_u32 h' a = load_u32 h a.
Proof.
  intros Ha H. unfold load_u32. f_equal. apply list_eq. intros i. destruct (decide (i < 4)%nat).
  - rewrite !lookup_take_lt by lia. rewrite !lookup_drop. apply H. lia.
  - rewrite !lookup_ge_None_2; [done | |]; rewrite length_take; lia.
Qed.

Lemma load_store_ne h a b v :
  0 ≤ a → 0 ≤ b → a + 4 ≤ blen h → b + 4 ≤ a ∨ a + 4 ≤ b → load_u32 (store_u32 h a v) b = load_u32 h b.
Proof. intros. apply load_ext; [done |]. intros i Hi. apply store_lookup; lia. Qed.

(** Bounds of stores, and loads after stores. *)
Ltac sb := repeat (rewrite store_blen by sb); unfold is_u32; lia.
Ltac lds := repeat first [rewrite load_store_eq by sb | rewrite load_store_ne by sb].

(** * Chains of headers *)

(** A block: its size with the header, and whether it is in use. *)
Notation blk := (Z * bool)%type.
Definition total (bs : list blk) : Z := foldr (λ b n, b.1 + n) 0 bs.
Definition tag (self : Z) (used : bool) : Z := if used then self + 1 else self.

(** The headers of [bs] from offset [o] on, behind a block at [prev]. *)
Fixpoint chain (h : list Z) (self prev o : Z) (bs : list blk) : Prop :=
  match bs with
  | [] => True
  | (n, u) :: bs =>
      load_u32 h o = tag self u ∧ load_u32 h (o + 4) = o + n ∧ load_u32 h (o + 8) = prev
      ∧ 16 ≤ n ∧ (8 | n) ∧ chain h self o (o + n) bs
  end.

(** The offset of the last block. *)
Fixpoint last_off (prev o : Z) (bs : list blk) : Z :=
  match bs with
  | [] => prev
  | b :: bs => last_off o (o + b.1) bs
  end.

(** The blocks in use: the offset of the data and the data. *)
Definition data (h : list Z) (o n : Z) : list Z := take (Z.to_nat (n - 16)) (drop (Z.to_nat (o + 16)) h).
Fixpoint live (h : list Z) (o : Z) (bs : list blk) : list (Z * list Z) :=
  match bs with
  | [] => []
  | (n, u) :: bs => (if u then [(o + 16, data h o n)] else []) ++ live h (o + n) bs
  end.

Lemma total_app bs1 bs2 : total (bs1 ++ bs2) = total bs1 + total bs2.
Proof. induction bs1 as [|[n u] bs1 IH]; simpl; lia. Qed.

Lemma total_cons n u bs : total ((n, u) :: bs) = n + total bs.
Proof. done. Qed.

Lemma chain_total h self prev o bs : chain h self prev o bs → 16 * blen bs ≤ total bs ∧ (8 | total bs).
Proof.
  revert prev o. induction bs as [|[n u] bs IH]; intros prev o; simpl.
  - intros _. split; [done | by exists 0].
  - intros (_ & _ & _ & Hn & Hd & H). destruct (IH _ _ H) as [IH1 IH2]. split; [len |]. by apply Z.divide_add_r.
Qed.

Lemma total_nonneg bs : Forall (λ b, 16 ≤ b.1) bs → 0 ≤ total bs.
Proof. induction 1; simpl; lia. Qed.

Lemma chain_total_min h self prev o bs : chain h self prev o bs → total bs = 0 ∨ 16 ≤ total bs.
Proof.
  destruct bs as [|b bs]; [by left |]. intros H. right. pose proof (chain_total _ _ _ _ _ H) as [Ht _]. len.
Qed.

Lemma chain_app h self prev o bs1 bs2 :
  chain h self prev o (bs1 ++ bs2) ↔
  chain h self prev o bs1 ∧ chain h self (last_off prev o bs1) (o + total bs1) bs2.
Proof.
  revert prev o. induction bs1 as [|[n u] bs1 IH]; intros prev o; cbn [app chain last_off total foldr fst].
  - rewrite Z.add_0_r. naive_solver.
  - rewrite IH. replace (o + n + total bs1) with (o + (n + total bs1)) by lia. fold (total bs1). naive_solver.
Qed.

Lemma last_off_snoc prev o bs b : last_off prev o (bs ++ [b]) = o + total bs.
Proof.
  revert prev o. induction bs as [|[n u] bs IH]; intros prev o; simpl; [lia |]. rewrite IH. lia.
Qed.

Lemma live_app h o bs1 bs2 : live h o (bs1 ++ bs2) = live h o bs1 ++ live h (o + total bs1) bs2.
Proof.
  revert o. induction bs1 as [|[n u] bs1 IH]; intros o; cbn [app live total foldr fst].
  - by rewrite Z.add_0_r.
  - rewrite IH, <-app_assoc. fold (total bs1). do 3 f_equal. lia.
Qed.

(** ** Changes outside of a stretch *)

Lemma chain_agree h h' self prev o bs :
  0 ≤ o → (∀ i : nat, o ≤ Z.of_nat i < o + total bs → h' !! i = h !! i) →
  chain h self prev o bs → chain h' self prev o bs.
Proof.
  revert prev o. induction bs as [|[n u] bs IH]; intros prev o Ho Hag Hc; [done |].
  pose proof (chain_total _ _ _ _ _ Hc) as [Ht _]. destruct Hc as (H1 & H2 & H3 & Hn & Hd & Hc).
  pose proof (chain_total _ _ _ _ _ Hc) as [Ht' _]. pose proof (blen_nonneg bs). rewrite total_cons in *.
  cbn [chain]. split_and!; try done.
  - rewrite <-H1. apply load_ext; [lia |]. intros i Hi. apply Hag. lia.
  - rewrite <-H2. apply load_ext; [lia |]. intros i Hi. apply Hag. lia.
  - rewrite <-H3. apply load_ext; [lia |]. intros i Hi. apply Hag. lia.
  - apply IH; [lia | | done]. intros i Hi. apply Hag. lia.
Qed.

Lemma data_agree h h' o n :
  0 ≤ o → (∀ i : nat, o + 16 ≤ Z.of_nat i < o + n → h' !! i = h !! i) → data h' o n = data h o n.
Proof.
  intros Ho Hag. unfold data. apply list_eq. intros i. destruct (decide (Z.of_nat i < n - 16)).
  - rewrite !lookup_take_lt by lia. rewrite !lookup_drop. apply Hag. lia.
  - rewrite !lookup_ge_None_2; [done | |]; rewrite length_take; lia.
Qed.

Lemma live_agree h h' o bs :
  0 ≤ o → Forall (λ b, 16 ≤ b.1) bs → (∀ i : nat, o ≤ Z.of_nat i < o + total bs → h' !! i = h !! i) →
  live h' o bs = live h o bs.
Proof.
  revert o. induction bs as [|[n u] bs IH]; intros o Ho Hs Hag; [done |]. apply Forall_cons in Hs as [Hn Hs].
  simpl in Hn. pose proof (total_nonneg bs Hs). rewrite total_cons in *. cbn [live].
  rewrite IH; [|lia | done | intros i Hi; apply Hag; lia].
  destruct u; [|done]. rewrite (data_agree h h'); [done | lia |]. intros i Hi. apply Hag. lia.
Qed.

Lemma chain_sizes h self prev o bs : chain h self prev o bs → Forall (λ b, 16 ≤ b.1) bs.
Proof.
  revert prev o. induction bs as [|[n u] bs IH]; intros prev o; [done |]. intros (_ & _ & _ & Hn & _ & H).
  constructor; [done | by eapply IH].
Qed.

Lemma chain_store h a v self prev o bs :
  0 ≤ o → 0 ≤ a → a + 4 ≤ blen h → a + 4 ≤ o ∨ o + total bs ≤ a → chain h self prev o bs →
  chain (store_u32 h a v) self prev o bs ∧ live (store_u32 h a v) o bs = live h o bs.
Proof.
  intros Ho Ha Hl Hout Hc. split.
  - eapply chain_agree; [done | | done]. intros i Hi. apply store_lookup; lia.
  - apply live_agree; [done | by eapply chain_sizes |]. intros i Hi. apply store_lookup; lia.
Qed.

(** A new predecessor for the first block. *)
Lemma chain_store_prev h self prev prev' o bs :
  0 ≤ o → o + total bs ≤ blen h → o + 12 ≤ blen h → is_u32 prev' → chain h self prev o bs →
  chain (store_u32 h (o + 8) prev') self prev' o bs ∧ live (store_u32 h (o + 8) prev') o bs = live h o bs.
Proof.
  intros Ho Hl Hl' Hp Hc. destruct bs as [|[n u] bs]; [done |]. destruct Hc as (H1 & H2 & H3 & Hn & Hd & Hc).
  pose proof (chain_total _ _ _ _ _ Hc) as [Ht _]. pose proof (blen_nonneg bs). rewrite total_cons in Hl.
  destruct (chain_store h (o + 8) prev' self o (o + n) bs) as [Hc' Hlv]; try lia; [done |].
  cbn [chain live]. split.
  - split_and!; try done.
    + by rewrite load_store_ne by lia.
    + by rewrite load_store_ne by lia.
    + apply load_store_eq; (done || lia).
  - rewrite Hlv. destruct u; [|done]. rewrite (data_agree h); [done | lia |]. intros i Hi. apply store_lookup; lia.
Qed.

(** * The free blocks *)

(** No two free blocks are neighbours; [f] tells whether the block before is free. *)
Fixpoint coalesced (f : bool) (bs : list blk) : Prop :=
  match bs with
  | [] => True
  | (_, u) :: bs => (f = true → u = true) ∧ coalesced (negb u) bs
  end.
Fixpoint last_free (f : bool) (bs : list blk) : bool :=
  match bs with
  | [] => f
  | (_, u) :: bs => last_free (negb u) bs
  end.

Lemma coalesced_app f bs1 bs2 : coalesced f (bs1 ++ bs2) ↔ coalesced f bs1 ∧ coalesced (last_free f bs1) bs2.
Proof. revert f. induction bs1 as [|[n u] bs1 IH]; intros f; cbn [app coalesced last_free]; [naive_solver |]. rewrite IH. naive_solver. Qed.

Lemma last_free_snoc f bs n u : last_free f (bs ++ [(n, u)]) = negb u.
Proof. revert f. induction bs as [|[k w] bs IH]; intros f; [done |]. apply IH. Qed.

Lemma coalesced_weaken f bs : coalesced true bs → coalesced f bs.
Proof. destruct bs as [|[n u] bs]; [done |]. cbn [coalesced]. intros [H ?]. split; [intros _; by apply H | done]. Qed.

(** The lowest free block, and the lowest one with room for [size] bytes. *)
Fixpoint first_free (o : Z) (bs : list blk) : Z :=
  match bs with
  | [] => o
  | (n, u) :: bs => if u then first_free (o + n) bs else o
  end.
Fixpoint first_fit (size o : Z) (bs : list blk) : option Z :=
  match bs with
  | [] => None
  | (n, u) :: bs => if negb u && (size <=? n - 16) then Some o else first_fit size (o + n) bs
  end.

Lemma first_free_app o bs1 bs2 :
  first_free o (bs1 ++ bs2) =
    if forallb snd bs1 then first_free (o + total bs1) bs2 else first_free o bs1.
Proof.
  revert o. induction bs1 as [|[n u] bs1 IH]; intros o; simpl; [by rewrite Z.add_0_r |].
  destruct u; [|done]. rewrite IH. simpl. by rewrite Z.add_assoc.
Qed.

Lemma first_free_range o bs : Forall (λ b, 16 ≤ b.1) bs → o ≤ first_free o bs ≤ o + total bs.
Proof.
  intros Hs. revert o. induction Hs as [|[n u] bs Hn Hs IH]; intros o; simpl in *; [lia |].
  pose proof (total_nonneg bs Hs).
  destruct u; [|lia]. specialize (IH (o + n)). lia.
Qed.

(** The sizes of the blocks in use. *)
Definition used_sum (bs : list blk) : Z := foldr (λ (b : blk) n, (if b.2 then b.1 else 0) + n) 0 bs.
Lemma used_sum_app bs1 bs2 : used_sum (bs1 ++ bs2) = used_sum bs1 + used_sum bs2.
Proof. induction bs1 as [|[n u] bs1 IH]; simpl; lia. Qed.
Lemma used_sum_range bs : Forall (λ b, 16 ≤ b.1) bs → 0 ≤ used_sum bs ≤ total bs.
Proof. induction 1 as [|[n u] bs Hn Hs IH]; simpl in *; [lia |]. destruct u; lia. Qed.

(** The search result as a split of the list. *)
Lemma first_fit_some size o bs p :
  first_fit size o bs = Some p → ∃ bs1 n bs2, bs = bs1 ++ (n, false) :: bs2 ∧ p = o + total bs1 ∧ size ≤ n - 16.
Proof.
  revert o. induction bs as [|[n u] bs IH]; intros o; cbn [first_fit]; [done |]. destruct (negb u && _) eqn:Eb.
  - intros [= <-]. apply andb_true_iff in Eb as [Eu Es]. apply negb_true_iff in Eu as ->. apply Z.leb_le in Es.
    exists [], n, bs. split_and!; try done; simpl; lia.
  - intros (bs1 & k & bs2 & -> & -> & Hs)%IH. exists ((n, u) :: bs1), k, bs2. split_and!; try done; simpl; lia.
Qed.

Lemma first_fit_none size o bs : first_fit size o bs = None → Forall (λ b, b.2 = true ∨ b.1 - 16 < size) bs.
Proof.
  revert o. induction bs as [|[n u] bs IH]; intros o; cbn [first_fit]; [done |]. destruct (negb u && _) eqn:Eb; [done |].
  intros H. constructor; [|by eapply IH]. apply andb_false_iff in Eb as [Eu | Es].
  - left. by apply negb_false_iff in Eu.
  - right. by apply Z.leb_gt in Es.
Qed.

(** The blocks before the lowest free one are in use, so that the search may start there. *)
Lemma free_split size o bs :
  ∃ bs1 bs2, bs = bs1 ++ bs2 ∧ forallb snd bs1 = true ∧ first_free o bs = o + total bs1
    ∧ first_fit size o bs = first_fit size (o + total bs1) bs2 ∧ match bs2 with (_, true) :: _ => False | _ => True end.
Proof.
  revert o. induction bs as [|[n u] bs IH]; intros o.
  - exists [], []. split_and!; try done. simpl. lia.
  - destruct u.
    + destruct (IH (o + n)) as (bs1 & bs2 & -> & Hu & Hf & Hs & Hb). exists ((n, true) :: bs1), bs2.
      split_and!; try done; cbn [first_free first_fit negb andb total foldr fst]; fold (total bs1); rewrite ?Hf, ?Hs; [lia | f_equal; lia].
    + exists [], ((n, false) :: bs). split_and!; try done; cbn [total foldr]; rewrite ?Z.add_0_r; done.
Qed.

Lemma first_free_lt o bs : Forall (λ b, 16 ≤ b.1) bs → forallb snd bs = false → first_free o bs < o + total bs.
Proof.
  intros Hs. revert o. induction Hs as [|[n u] bs Hn Hs IH]; intros o; [done |]. simpl in *.
  pose proof (total_nonneg bs Hs). destruct u; [|lia]. intros Hf. specialize (IH (o + n) Hf). lia.
Qed.
