(* ===== verification/SmallMemOps.v ===== *)
(** The operations of the heap on a chain of blocks: initialising, taking a block, giving it
    back with its neighbours merged, and resizing it. *)

From S2P Require Import Prelude.
From S2P Require Import CText.
From S2P Require Import RtDef.
From S2P Require Import SmallMem.
From S2P Require Import SmallMemChain.

(** * Tags *)

Lemma MASK_even x : is_u32 x → Z.land x MEM_MASK = x / 2 * 2.
Proof. intros Hx. exact (land_high x 1 Hx ltac:(lia)). Qed.

Lemma SIZEOF_16 : SIZEOF_STRUCT_MEM = 16.
Proof. reflexivity. Qed.
Lemma MIN_16 : MIN_SIZE_ALIGNED = 16.
Proof. reflexivity. Qed.

(** * The object *)

Section heap.
Context (self hp E : Z).

(** The bounds of the heap: [E] is the offset of the last header. *)
Record geometry : Prop := {
  ge_self : 0 < self < 4294967295;
  ge_even : (8 | self);
  ge_hp : 0 < hp;
  ge_hp8 : (8 | hp);
  ge_E : 16 ≤ E;
  ge_E8 : (8 | E);
  ge_fit : hp + E + 16 ≤ 4294967296
}.
Context (G : geometry).

Definition obj (used mx lf : Z) (h : list Z) : rt_small_mem := mk_smem self (E - 16) used mx hp (hp + E) (hp + lf) (E - 16) h.

(** The bytes hold the blocks [bs]. *)
Record heap_at (h : list Z) (bs : list blk) : Prop := {
  ha_total : total bs = E;
  ha_len : blen h = E + 16;
  ha_chain : chain h self 0 0 bs;
  ha_stop : load_u32 h E = self + 1
}.

Lemma tag_used : MEM_USED self = self + 1.
Proof using G.
  destruct G as [? [q ->] _ _ _ _ _]. unfold MEM_USED. rewrite MASK_even by (unfold is_u32; lia).
  replace (q * 8 / 2 * 2) with (q * 8) by (rewrite <-(Z.div_unique_exact (q * 8) 2 (q * 4)); lia).
  change 8 with (2 ^ 3). rewrite <-Z.shiftl_mul_pow2 by lia. rewrite (lor_shiftl q 1 3); [by rewrite Z.shiftl_mul_pow2 | done | split; [done | reflexivity]].
Qed.

Lemma tag_freed : MEM_FREED self = self.
Proof using G.
  destruct G as [? [q ->] _ _ _ _ _]. unfold MEM_FREED. rewrite Z.lor_0_r, MASK_even by (unfold is_u32; lia).
  rewrite <-(Z.div_unique_exact (q * 8) 2 (q * 4)); lia.
Qed.

Lemma tag_u32 u : is_u32 (tag self u).
Proof using G. destruct G. unfold tag, is_u32. destruct u; lia. Qed.

Lemma tag_pool u : Z.land (tag self u) MEM_MASK = self.
Proof using G.
  rewrite MASK_even by apply tag_u32. destruct G as [? [q ->] _ _ _ _ _]. unfold tag. destruct u.
  - rewrite <-(Z.div_unique_pos (q * 8 + 1) 2 (q * 4) 1); lia.
  - rewrite <-(Z.div_unique_pos (q * 8) 2 (q * 4) 0); lia.
Qed.

Lemma tag_bit u : negb (Z.land (tag self u) (u32 (Z.lnot MEM_MASK)) =? 0) = u.
Proof using G.
  change (u32 (Z.lnot MEM_MASK)) with (Z.ones 1). rewrite Z.land_ones by lia. change (2 ^ 1) with 2.
  destruct G as [? [q ->] _ _ _ _ _]. unfold tag. destruct u.
  - rewrite <-(Z.mod_unique_pos (q * 8 + 1) 2 (q * 4) 1) by lia. done.
  - rewrite <-(Z.mod_unique_pos (q * 8) 2 (q * 4) 0) by lia. done.
Qed.

(** ** Reading headers *)

Section fields.
Context (used mx lf : Z) (h : list Z).

Lemma pool_obj o : pool_ptr (obj used mx lf h) (hp + o) = load_u32 h o.
Proof using. unfold pool_ptr, rd. cbn [obj sm_heap heap_ptr]. f_equal. lia. Qed.
Lemma next_obj o : item_next (obj used mx lf h) (hp + o) = load_u32 h (o + 4).
Proof using. unfold item_next, rd. cbn [obj sm_heap heap_ptr]. f_equal. lia. Qed.
Lemma prev_obj o : item_prev (obj used mx lf h) (hp + o) = load_u32 h (o + 8).
Proof using. unfold item_prev, rd. cbn [obj sm_heap heap_ptr]. f_equal. lia. Qed.
Lemma set_pool_obj o v : set_pool (hp + o) v (obj used mx lf h) = obj used mx lf (store_u32 h o v).
Proof using. unfold set_pool, wr, set_heap, obj. cbn. do 2 f_equal. lia. Qed.
Lemma set_next_obj o v : set_next (hp + o) v (obj used mx lf h) = obj used mx lf (store_u32 h (o + 4) v).
Proof using. unfold set_next, wr, set_heap, obj. cbn. do 2 f_equal. lia. Qed.
Lemma set_prev_obj o v : set_prev (hp + o) v (obj used mx lf h) = obj used mx lf (store_u32 h (o + 8) v).
Proof using. unfold set_prev, wr, set_heap, obj. cbn. do 2 f_equal. lia. Qed.
Lemma isused_obj o : MEM_ISUSED (obj used mx lf h) (hp + o) = negb (Z.land (load_u32 h o) (u32 (Z.lnot MEM_MASK)) =? 0).
Proof using. unfold MEM_ISUSED. by rewrite pool_obj. Qed.
Lemma mpool_obj o : MEM_POOL (obj used mx lf h) (hp + o) = Z.land (load_u32 h o) MEM_MASK.
Proof using. unfold MEM_POOL. by rewrite pool_obj. Qed.
End fields.

(** The header of a block. *)
Lemma chain_hdr h bs1 n u bs2 :
  heap_at h (bs1 ++ (n, u) :: bs2) →
  let o := total bs1 in
  load_u32 h o = tag self u ∧ load_u32 h (o + 4) = o + n ∧ load_u32 h (o + 8) = last_off 0 0 bs1
  ∧ 16 ≤ n ∧ (8 | n) ∧ 0 ≤ o ∧ (8 | o) ∧ o + n + total bs2 = E ∧ 0 ≤ total bs2.
Proof using.
  intros [Ht _ Hc _]. apply chain_app in Hc as [Hc1 (H1 & H2 & H3 & Hn & Hd & Hc2)].
  pose proof (chain_total _ _ _ _ _ Hc1) as [? Hd1]. pose proof (chain_total _ _ _ _ _ Hc2) as [? _].
  pose proof (blen_nonneg bs1). pose proof (blen_nonneg bs2). rewrite total_app, total_cons in Ht.
  rewrite !Z.add_0_l in *. cbv zeta. split_and!; (done || lia).
Qed.

(** The last header. *)
Lemma isused_end used mx lf h bs : heap_at h bs → MEM_ISUSED (obj used mx lf h) (hp + E) = true.
Proof using G. intros H. rewrite isused_obj, (ha_stop _ _ H). exact (tag_bit true). Qed.

Lemma isused_blk used mx lf h bs1 n u bs2 :
  heap_at h (bs1 ++ (n, u) :: bs2) → MEM_ISUSED (obj used mx lf h) (hp + total bs1) = u.
Proof using G. intros H. destruct (chain_hdr _ _ _ _ _ H) as (H1 & _). rewrite isused_obj, H1. apply tag_bit. Qed.

(** ** Merging neighbours *)

(** A free block of size [n] takes in the free block behind it. *)
Definition absorb (n : Z) (bs : list blk) : list blk :=
  match bs with
  | (n2, false) :: bs => (n + n2, false) :: bs
  | _ => (n, false) :: bs
  end.

Lemma total_snoc bs n u : total (bs ++ [(n, u)]) = total bs + n.
Proof using. rewrite total_app, total_cons. simpl. lia. Qed.

Lemma live_free h o n bs : live h o ((n, false) :: bs) = live h (o + n) bs.
Proof using. done. Qed.

(** The three writes that merge two free blocks. *)
Definition merged (h : list Z) (o n n2 : Z) : list Z :=
  store_u32 (store_u32 (store_u32 h (o + n) 0) (o + 4) (o + n + n2)) (o + n + n2 + 8) o.

Lemma merge_ok h bs1 n n2 bs2 :
  heap_at h (bs1 ++ (n, false) :: (n2, false) :: bs2) →
  heap_at (merged h (total bs1) n n2) (bs1 ++ (n + n2, false) :: bs2)
  ∧ live (merged h (total bs1) n n2) 0 (bs1 ++ (n + n2, false) :: bs2)
    = live h 0 (bs1 ++ (n, false) :: (n2, false) :: bs2).
Proof using G.
  intros H. destruct (chain_hdr _ _ _ _ _ H) as (H1 & H2 & H3 & Hn & Hd & Ho & Hod & HE & Ht2).
  destruct H as [Ht Hl Hc Hst]. apply chain_app in Hc as [Hc1 (_ & _ & _ & _ & _ & _ & _ & _ & Kn & Kd & Hc2)].
  pose proof (chain_total_min _ _ _ _ _ Hc2) as Hge. rewrite Z.add_0_l in Hc2.
  rewrite total_cons in HE. pose proof (ge_fit G). pose proof (ge_hp G). unfold merged. set (o := total bs1) in *.
  destruct (chain_store h (o + n) 0 self 0 0 bs1) as [C1 L1]; try lia; [done |].
  destruct (chain_store (store_u32 h (o + n) 0) (o + 4) (o + n + n2) self 0 0 bs1) as [C2 L2]; try sb; [done |].
  destruct (chain_store (store_u32 (store_u32 h (o + n) 0) (o + 4) (o + n + n2)) (o + n + n2 + 8) o self 0 0 bs1) as [C3 L3]; try sb; [done |].
  destruct (chain_store h (o + n) 0 self (o + n) (o + n + n2) bs2) as [D1 M1]; try lia; [done |].
  destruct (chain_store (store_u32 h (o + n) 0) (o + 4) (o + n + n2) self (o + n) (o + n + n2) bs2) as [D2 M2]; try sb; [done |].
  destruct (chain_store_prev (store_u32 (store_u32 h (o + n) 0) (o + 4) (o + n + n2)) self (o + n) o (o + n + n2) bs2) as [D3 M3]; try sb; [done |].
  split.
  - constructor.
    + rewrite total_app, !total_cons in *. lia.
    + sb.
    + apply chain_app. split; [done |]. rewrite Z.add_0_l. fold o. cbn [chain]. lds. rewrite Z.add_assoc.
      split_and!; try done; [lia | by apply Z.divide_add_r].
    + lds. done.
  - rewrite !live_app, !live_free, Z.add_0_l. fold o. rewrite Z.add_assoc. by rewrite L3, L2, L1, M3, M2, M1.
Qed.

Lemma plug_forward_ok used mx lf h bs1 n bs2 :
  heap_at h (bs1 ++ (n, false) :: bs2) → lf ≤ total bs1 →
  ∃ h', plug_forward (obj used mx lf h) (hp + total bs1) = obj used mx lf h' ∧ heap_at h' (bs1 ++ absorb n bs2)
    ∧ live h' 0 (bs1 ++ absorb n bs2) = live h 0 (bs1 ++ (n, false) :: bs2).
Proof using G.
  intros H Hlf. destruct (chain_hdr _ _ _ _ _ H) as (H1 & H2 & H3 & Hn & Hd & Ho & Hod & HE & Ht2).
  unfold plug_forward. rewrite next_obj, H2. cbn [heap_ptr obj]. fold (obj used mx lf h).
  assert (Hno : MEM_ISUSED (obj used mx lf h) (hp + (total bs1 + n)) = true ∧ absorb n bs2 = (n, false) :: bs2
    ∨ ∃ n2 r, bs2 = (n2, false) :: r).
  { destruct bs2 as [|[n2 [|]] r]; [| |by right; eexists _, _].
    - left. split; [|done]. replace (total bs1 + n) with E by (simpl in HE; lia). by eapply isused_end.
    - left. split; [|done]. rewrite <-(total_snoc bs1 n false). rewrite cons_middle, app_assoc in H. by eapply isused_blk. }
  destruct Hno as [[Hu ->] | (n2 & r & ->)]; [exists h; by rewrite Hu, andb_false_r |].
  exists (merged h (total bs1) n n2). split; [|by apply merge_ok].
  pose proof H as H'. rewrite cons_middle, app_assoc in H'.
  destruct (chain_hdr _ _ _ _ _ H') as (K1 & K2 & _ & Kn & Kd & _ & _ & KE & Kt).
  pose proof (isused_blk used mx lf _ _ _ _ _ H') as Hu. rewrite total_snoc in K1, K2, KE, Hu.
  pose proof (ha_len _ _ H) as Hl. set (o := total bs1) in *. pose proof (ge_fit G). pose proof (ge_hp G).
  cbn [obj heap_end lfree]. fold (obj used mx lf h). rewrite Hu.
  destruct (Z.eqb_spec (hp + o) (hp + (o + n))); [lia |]. destruct (Z.eqb_spec (hp + (o + n)) (hp + E)); [lia |].
  destruct (Z.eqb_spec (hp + lf) (hp + (o + n))); [lia |]. cbn [negb andb].
  rewrite set_pool_obj, next_obj, set_next_obj, next_obj. cbn [obj heap_ptr].
  fold (obj used mx lf (store_u32 (store_u32 h (o + n) 0) (o + 4) (load_u32 (store_u32 h (o + n) 0) (o + n + 4)))).
  lds. rewrite K2. rewrite set_prev_obj. replace (hp + o - hp) with o by lia. by rewrite u32_small by (unfold is_u32; lia).
Qed.

Lemma plug_backward_ok used mx lf h bs1 n bs2 :
  heap_at h (bs1 ++ (n, false) :: bs2) → lf = first_free 0 (bs1 ++ (n, false) :: bs2) →
  ∃ h' bs', plug_backward (obj used mx lf h) (hp + total bs1) = obj used mx lf h' ∧ heap_at h' bs'
    ∧ live h' 0 bs' = live h 0 (bs1 ++ (n, false) :: bs2)
    ∧ ((∃ bs0 n1, bs1 = bs0 ++ [(n1, false)] ∧ bs' = bs0 ++ (n1 + n, false) :: bs2 ∧ load_u32 h' (total bs1) = 0)
       ∨ (last_free false bs1 = false ∧ bs' = bs1 ++ (n, false) :: bs2 ∧ load_u32 h' (total bs1) = self)).
Proof using G.
  intros H Hlf. destruct (chain_hdr _ _ _ _ _ H) as (H1 & H2 & H3 & Hn & Hd & Ho & Hod & HE & Ht2).
  unfold plug_backward. rewrite prev_obj, H3. cbn [heap_ptr obj]. fold (obj used mx lf h).
  destruct bs1 as [|[n1 u1] bs0 _] using rev_ind.
  { cbn [last_off]. rewrite Z.eqb_refl. cbn [negb andb]. exists h, ([] ++ (n, false) :: bs2). split_and!; try done. by right. }
  rewrite last_off_snoc, total_snoc, Z.add_0_l in *. pose proof H as H'. rewrite <-app_assoc in H'. cbn [app] in H'.
  destruct (chain_hdr _ _ _ _ _ H') as (K1 & K2 & _ & Kn & _ & Ko & _ & _ & _).
  rewrite (isused_blk used mx lf _ _ _ _ _ H'). destruct u1.
  { rewrite andb_false_r. exists h, ((bs0 ++ [(n1, true)]) ++ (n, false) :: bs2). split_and!; try done. right. by rewrite last_free_snoc. }
  set (o := total bs0) in *. destruct (Z.eqb_spec (hp + o) (hp + (o + n1))); [lia |]. cbn [negb andb].
  assert (Hl : lf ≤ o).
  { rewrite Hlf, <-app_assoc, first_free_app. case_match; [cbn [app first_free]; unfold o; lia |].
    destruct H' as [_ _ Hc _]. apply chain_app in Hc as [Hc _]. pose proof (first_free_range 0 bs0 (chain_sizes _ _ _ _ _ Hc)). unfold o; lia. }
  cbn [lfree obj]. fold (obj used mx lf h). destruct (Z.eqb_spec (hp + lf) (hp + (o + n1))); [lia |].
  destruct (merge_ok h bs0 n1 n bs2 H') as [Hm Hlm]. fold o in Hm, Hlm.
  exists (merged h o n1 n), (bs0 ++ (n1 + n, false) :: bs2). pose proof (ha_len _ _ H) as Hl'. pose proof (ge_fit G). pose proof (ge_hp G).
  split_and!; try done.
  - rewrite set_pool_obj, next_obj, set_next_obj, next_obj. cbn [obj heap_ptr].
    fold (obj used mx lf (store_u32 (store_u32 h (o + n1) 0) (o + 4) (load_u32 (store_u32 h (o + n1) 0) (o + n1 + 4)))).
    lds. rewrite H2. rewrite set_prev_obj. replace (hp + o - hp) with o by lia. by rewrite u32_small by (unfold is_u32; lia).
  - by rewrite <-app_assoc.
  - left. exists bs0, n1. split_and!; try done. unfold merged. by lds.
Qed.

Lemma absorb_spec n bs :
  coalesced false bs → ∃ n' r, absorb n bs = (n', false) :: r ∧ coalesced true r ∧ used_sum r = used_sum bs
    ∧ (Forall (λ b, b.2 = true → 24 ≤ b.1) bs → Forall (λ b, b.2 = true → 24 ≤ b.1) r).
Proof using.
  destruct bs as [|[n2 [|]] r]; cbn [absorb coalesced].
  - intros _. by exists n, [].
  - intros [_ Hc]. by exists n, ((n2, true) :: r).
  - intros [_ Hc]. exists (n + n2), r. split_and!; try done. by intros [_ ?]%Forall_cons.
Qed.

(** Releasing the block behind [bs1]. *)
Lemma plug_holes_ok used mx lf h bs1 n bs2 :
  heap_at h (bs1 ++ (n, false) :: bs2) → coalesced false bs1 → coalesced false bs2 →
  lf = first_free 0 (bs1 ++ (n, false) :: bs2) →
  ∃ h' bs', plug_holes (obj used mx lf h) (hp + total bs1) = Some (obj used mx lf h') ∧ heap_at h' bs'
    ∧ coalesced false bs' ∧ lf = first_free 0 bs' ∧ used_sum bs' = used_sum bs1 + used_sum bs2
    ∧ live h' 0 bs' = live h 0 (bs1 ++ (n, false) :: bs2)
    ∧ (load_u32 h' (total bs1) = 0 ∨ load_u32 h' (total bs1) = self)
    ∧ (Forall (λ b, b.2 = true → 24 ≤ b.1) (bs1 ++ bs2) → Forall (λ b, b.2 = true → 24 ≤ b.1) bs').
Proof using G.
  intros H C1 C2 Hlf. destruct (chain_hdr _ _ _ _ _ H) as (_ & _ & _ & Hn & _ & Ho & _ & HE & Ht2).
  assert (Hle : lf ≤ total bs1).
  { destruct H as [_ _ Hc _]. apply chain_app in Hc as [Hc _]. pose proof (first_free_range 0 bs1 (chain_sizes _ _ _ _ _ Hc)).
    rewrite Hlf, first_free_app. case_match; [cbn [first_free]; lia | lia]. }
  destruct (plug_forward_ok used mx lf h bs1 n bs2 H Hle) as (h1 & E1 & A1 & L1).
  destruct (absorb_spec n bs2 C2) as (n' & r & Ea & Cr & Ur & Fr). rewrite Ea in A1, L1.
  assert (Hlf' : lf = first_free 0 (bs1 ++ (n', false) :: r)).
  { rewrite Hlf, !first_free_app. by case_match. }
  destruct (plug_backward_ok used mx lf h1 bs1 n' r A1 Hlf') as (h2 & bs' & E2 & A2 & L2 & Hcase).
  exists h2, bs'. split.
  { unfold plug_holes. cbn [obj heap_ptr heap_end]. fold (obj used mx lf h).
    destruct (Z.leb_spec hp (hp + total bs1)); [|lia]. destruct (Z.ltb_spec (hp + total bs1) (hp + E)); [|lia].
    unfold assert. by rewrite E1, E2. }
  split; [done |]. rewrite L2, L1. destruct Hcase as [(bs0 & n1 & -> & -> & Hw) | (Hf & -> & Hw)].
  - apply coalesced_app in C1 as [C0 Cn]. split_and!; try done.
    + apply coalesced_app. split; [done |]. cbn [coalesced] in *. split; [apply Cn | done].
    + rewrite Hlf', <-app_assoc, !first_free_app. case_match; done.
    + rewrite !used_sum_app. simpl. rewrite Ur. lia.
    + by left.
    + intros [[F0 _]%Forall_app F2]%Forall_app. apply Forall_app. split; [done |]. constructor; [intros [=] | by apply Fr].
  - split_and!; try done.
    + apply coalesced_app. rewrite Hf. split; [done |]. by split.
    + rewrite !used_sum_app. simpl. rewrite Ur. lia.
    + by right.
    + intros [F1 F2]%Forall_app. apply Forall_app. split; [done |]. constructor; [intros [=] | by apply Fr].
Qed.

(** ** Taking a block *)

Lemma heap_at_count h bs : heap_at h bs → (length bs < length h)%nat.
Proof using G. intros [Ht Hl Hc _]. pose proof (chain_total _ _ _ _ _ Hc) as [Hn _]. destruct G. len. Qed.

Lemma find_fit_ok fuel used mx lf h bs1 bs2 size :
  heap_at h (bs1 ++ bs2) → 0 < size ≤ E - 16 → (length bs2 < fuel)%nat →
  find_fit fuel (obj used mx lf h) (total bs1) size = Some (first_fit size (total bs1) bs2).
Proof using G.
  intros H Hs. revert bs1 fuel H. induction bs2 as [|[n u] bs2 IH]; intros bs1 [|fuel] H Hf; cbn [length] in Hf; try lia; cbn [find_fit first_fit];
    cbn [obj mem_size_aligned heap_ptr]; fold (obj used mx lf h); pose proof (ge_fit G) as Gf; pose proof (ge_hp G) as Gp;
    rewrite (u32_small (E - 16 - size)) by (unfold is_u32; lia).
  - rewrite app_nil_r in H. rewrite (ha_total _ _ H). destruct (Z.leb_spec E (E - 16 - size)); [lia | done].
  - destruct (chain_hdr _ _ _ _ _ H) as (H1 & H2 & H3 & Hn & Hd & Ho & Hod & HE & Ht2).
    rewrite (isused_blk used mx lf _ _ _ _ _ H), next_obj, H2, SIZEOF_16.
    replace (total bs1 + n - (total bs1 + 16)) with (n - 16) by lia. rewrite u32_small by (unfold is_u32; lia).
    destruct (Z.leb_spec (total bs1) (E - 16 - size)).
    + destruct (negb u && _); [done |]. rewrite <-total_snoc with (u := u). rewrite cons_middle, app_assoc in H. apply IH; [done | lia].
    + destruct (negb u && (size <=? n - 16)) eqn:Eb; [apply andb_true_iff in Eb as [_ Eb%Z.leb_le]; lia |].
      destruct (first_fit size (total bs1 + n) bs2) as [p|] eqn:Ef; [|done].
      apply first_fit_some in Ef as (l1 & k & l2 & -> & -> & Hk). rewrite cons_middle, app_assoc in H. rewrite app_assoc in H.
      destruct (chain_hdr _ _ _ _ _ H) as (_ & _ & _ & _ & _ & Ho' & _ & HE' & Ht').
      pose proof (chain_sizes _ _ _ _ _ (ha_chain _ _ H)) as Hsz. apply Forall_app in Hsz as [Hsz _]. apply Forall_app in Hsz as [_ Hsz].
      pose proof (total_nonneg _ Hsz). rewrite !total_app, total_cons in *. simpl in *. lia.
Qed.

Lemma advance_lfree_ok fuel used mx h bs1 bs2 :
  heap_at h (bs1 ++ bs2) → (length bs2 < fuel)%nat →
  advance_lfree fuel (obj used mx (total bs1) h) = Some (obj used mx (first_free (total bs1) bs2) h).
Proof using G.
  intros H. revert bs1 fuel H. induction bs2 as [|[n u] bs2 IH]; intros bs1 [|fuel] H Hf; cbn [length] in Hf; try lia; cbn [advance_lfree first_free];
    cbn [obj lfree heap_end heap_ptr]; fold (obj used mx (total bs1) h).
  - rewrite app_nil_r in H. rewrite (ha_total _ _ H), Z.eqb_refl. by rewrite andb_false_r.
  - destruct (chain_hdr _ _ _ _ _ H) as (H1 & H2 & H3 & Hn & Hd & Ho & Hod & HE & Ht2).
    rewrite (isused_blk used mx (total bs1) _ _ _ _ _ H). destruct u; [|done].
    destruct (Z.eqb_spec (hp + total bs1) (hp + E)); [lia |]. cbn [andb negb]. rewrite next_obj, H2.
    rewrite cons_middle, app_assoc in H. rewrite <-(total_snoc bs1 n true). apply IH; [done | lia].
Qed.

(** A new tag for a block. *)
Lemma retag_ok h bs1 n u u' bs2 :
  heap_at h (bs1 ++ (n, u) :: bs2) →
  let h' := store_u32 h (total bs1) (tag self u') in
  heap_at h' (bs1 ++ (n, u') :: bs2)
  ∧ live h' 0 (bs1 ++ (n, u') :: bs2)
    = live h 0 bs1 ++ (if u' then [(total bs1 + 16, data h (total bs1) n)] else []) ++ live h (total bs1 + n) bs2.
Proof using G.
  intros H h'. destruct (chain_hdr _ _ _ _ _ H) as (H1 & H2 & H3 & Hn & Hd & Ho & Hod & HE & Ht2).
  destruct H as [Ht Hl Hc Hst]. apply chain_app in Hc as [Hc1 (_ & _ & _ & _ & _ & Hc2)]. rewrite Z.add_0_l in Hc2.
  unfold h'. set (o := total bs1) in *. pose proof (tag_u32 u') as Hu. unfold is_u32 in Hu.
  destruct (chain_store h o (tag self u') self 0 0 bs1) as [C1 L1]; try lia; [done |].
  destruct (chain_store h o (tag self u') self o (o + n) bs2) as [C2 L2]; try lia; [done |].
  split.
  - constructor; [rewrite total_app, total_cons in *; lia | sb | | by lds].
    apply chain_app. split; [done |]. rewrite Z.add_0_l. fold o. cbn [chain]. lds. by split_and!.
  - rewrite live_app, L1, Z.add_0_l. fold o. cbn [live]. rewrite L2. do 2 f_equal.
    destruct u'; [|done]. rewrite (data_agree h); [done | lia |]. intros i Hi. apply store_lookup; lia.
Qed.

(** Four writes behind [bs1] and before [bs2]. *)
Lemma chain_store4 h a1 v1 a2 v2 a3 v3 a4 v4 prev o bs :
  0 ≤ o → o + total bs ≤ blen h → chain h self prev o bs →
  Forall (λ a, 0 ≤ a ∧ a + 4 ≤ blen h ∧ (a + 4 ≤ o ∨ o + total bs ≤ a)) [a1; a2; a3; a4] →
  let h' := store_u32 (store_u32 (store_u32 (store_u32 h a1 v1) a2 v2) a3 v3) a4 v4 in
  chain h' self prev o bs ∧ live h' o bs = live h o bs.
Proof using.
  intros Ho Hl Hc (B1 & (B2 & (B3 & (B4 & _)%Forall_cons)%Forall_cons)%Forall_cons)%Forall_cons.
  destruct (chain_store h a1 v1 self prev o bs) as [C1 L1]; try lia; [done |].
  destruct (chain_store (store_u32 h a1 v1) a2 v2 self prev o bs) as [C2 L2]; try sb; [done |].
  destruct (chain_store (store_u32 (store_u32 h a1 v1) a2 v2) a3 v3 self prev o bs) as [C3 L3]; try sb; [done |].
  destruct (chain_store (store_u32 (store_u32 (store_u32 h a1 v1) a2 v2) a3 v3) a4 v4 self prev o bs) as [C4 L4]; try sb; [done |].
  split; [done | congruence].
Qed.

(** The writes of [split_block]. *)
Definition split_words (h : list Z) (o n size : Z) : list Z :=
  let o2 := o + 16 + size in
  store_u32 (store_u32 (store_u32 (store_u32 h o2 self) (o2 + 4) (o + n)) (o2 + 8) o) (o + 4) o2.
Definition split_heap (h : list Z) (o n size : Z) : list Z :=
  if o + n =? E then split_words h o n size else store_u32 (split_words h o n size) (o + n + 8) (o + 16 + size).

Lemma split_heap_ok h bs1 n u bs2 size :
  heap_at h (bs1 ++ (n, u) :: bs2) → 0 < size → (8 | size) → size + 32 ≤ n →
  let h' := split_heap h (total bs1) n size in
  heap_at h' (bs1 ++ (16 + size, u) :: (n - 16 - size, false) :: bs2)
  ∧ live h' 0 bs1 = live h 0 bs1 ∧ live h' (total bs1 + n) bs2 = live h (total bs1 + n) bs2
  ∧ data h' (total bs1) (16 + size) = take (Z.to_nat size) (data h (total bs1) n).
Proof using G.
  intros H Hs Hs8 Hsn h'. destruct (chain_hdr _ _ _ _ _ H) as (H1 & H2 & H3 & Hn & Hd & Ho & Hod & HE & Ht2).
  destruct H as [Ht Hl Hc Hst]. apply chain_app in Hc as [Hc1 (_ & _ & _ & _ & _ & Hc2)]. rewrite Z.add_0_l in Hc2.
  pose proof (ge_fit G) as Gf. pose proof (ge_hp G) as Gp. pose proof (ge_self G) as Gs.
  set (o := total bs1) in *. pose proof (chain_total_min _ _ _ _ _ Hc2) as Hmin.
  assert (Hlw : blen (split_words h o n size) = E + 16) by (unfold split_words; sb).
  assert (D1 : chain (split_words h o n size) self 0 0 bs1 ∧ live (split_words h o n size) 0 bs1 = live h 0 bs1).
  { apply chain_store4; [lia | lia | done | repeat constructor; lia]. }
  assert (D2 : chain (split_words h o n size) self o (o + n) bs2 ∧ live (split_words h o n size) (o + n) bs2 = live h (o + n) bs2).
  { apply chain_store4; [lia | lia | done | repeat constructor; lia]. }
  assert (Hh : blen h' = E + 16 ∧ (chain h' self 0 0 bs1 ∧ live h' 0 bs1 = live h 0 bs1)
    ∧ (chain h' self (o + 16 + size) (o + n) bs2 ∧ live h' (o + n) bs2 = live h (o + n) bs2)
    ∧ (∀ a, 0 ≤ a → a + 4 ≤ o + n + 8 ∨ o + n + 12 ≤ a → load_u32 h' a = load_u32 (split_words h o n size) a)
    ∧ (∀ i : nat, Z.of_nat i < o + n → h' !! i = split_words h o n size !! i)).
  { unfold h', split_heap. destruct (Z.eqb_spec (o + n) E) as [Ee|Ene].
    - assert (bs2 = []) as -> by (destruct bs2 as [|[k w] l]; [done | destruct Hc2 as (_ & _ & _ & ? & _ & Hc2); pose proof (total_nonneg l (chain_sizes _ _ _ _ _ Hc2)); rewrite total_cons in HE; lia]).
      split_and!; done || apply D1.
    - destruct D1 as [D1 D1']. destruct D2 as [D2 D2'].
      destruct (chain_store (split_words h o n size) (o + n + 8) (o + 16 + size) self 0 0 bs1) as [C1 L1]; try (rewrite ?Hlw; lia); [done |].
      destruct (chain_store_prev (split_words h o n size) self o (o + 16 + size) (o + n) bs2) as [C2 L2]; try (rewrite ?Hlw; unfold is_u32; lia); [done |].
      split_and!; try done; try congruence.
      + rewrite store_blen; [done | lia | rewrite Hlw; lia].
      + intros a Ha Hout. apply load_store_ne; [lia | lia | rewrite Hlw; lia | lia].
      + intros i Hi. apply store_lookup; [lia | rewrite Hlw; lia | lia]. }
  destruct Hh as (Hlen & (C1 & L1) & (C2 & L2) & Hload & Hlook). split_and!; [|done | done |].
  - constructor; [rewrite total_app, !total_cons in *; lia | done | |].
    + apply chain_app. split; [done |]. rewrite Z.add_0_l. fold o. cbn [chain]. rewrite (Z.add_assoc o 16 size).
      rewrite !Hload by lia. unfold split_words. lds. replace (o + 16 + size + (n - 16 - size)) with (o + n) by lia.
      split_and!; try done; try lia; [apply Z.divide_add_r; [by exists 2 | done] |].
      replace (n - 16 - size) with (n - (16 + size)) by lia. apply Z.divide_sub_r; [done |]. apply Z.divide_add_r; [by exists 2 | done].
    + rewrite Hload by lia. unfold split_words. by lds.
  - unfold data. apply list_eq. intros i. destruct (decide (Z.of_nat i < size)).
    + rewrite !lookup_take_lt, !lookup_drop by lia. rewrite Hlook by lia. unfold split_words.
      rewrite !store_lookup by sb. done.
    + rewrite !lookup_ge_None_2; [done | |]; rewrite length_take; lia.
Qed.

Lemma split_block_eq used mx lf h bs1 n u bs2 size :
  heap_at h (bs1 ++ (n, u) :: bs2) → 0 < size → size + 32 ≤ n →
  split_block (obj used mx lf h) (total bs1) size = obj used mx lf (split_heap h (total bs1) n size).
Proof using G.
  intros H Hs Hsn. destruct (chain_hdr _ _ _ _ _ H) as (_ & H2 & _ & Hn & _ & Ho & _ & HE & Ht2).
  pose proof (ge_fit G) as Gf. pose proof (ge_hp G) as Gp. pose proof (ge_self G) as Gs. pose proof (ha_len _ _ H) as Hl.
  set (o := total bs1) in *. unfold split_block. rewrite SIZEOF_16, (u32_small (o + 16 + size)) by (unfold is_u32; lia).
  cbn [obj heap_ptr sm_self]. fold (obj used mx lf h). rewrite tag_freed. cbv zeta.
  assert (Hnx : load_u32 (store_u32 h (o + 16 + size) self) (o + 4) = o + n) by (lds; done).
  rewrite set_pool_obj, next_obj, set_next_obj, set_prev_obj, set_next_obj, next_obj, Hnx. lds.
  cbn [obj mem_size_aligned heap_ptr]. replace (E - 16 + 16) with E by lia. rewrite u32_small by (unfold is_u32; lia).
  unfold split_heap, split_words. destruct (Z.eqb_spec (o + n) E); [done |]. cbn [negb].
  exact (set_prev_obj used mx lf _ (o + n) _).
Qed.

(** The object of a heap with the blocks [bs]. *)
Definition heap_obj (mx : Z) (h : list Z) (bs : list blk) : rt_small_mem := obj (used_sum bs) mx (first_free 0 bs) h.
Record inv (mx : Z) (h : list Z) (bs : list blk) : Prop := {
  in_heap : heap_at h bs;
  in_free : coalesced false bs;
  in_data : Forall (λ b, b.2 = true → 24 ≤ b.1) bs;
  in_max : used_sum bs ≤ mx
}.

Lemma heap_at_sizes h bs : heap_at h bs → Forall (λ b, 16 ≤ b.1) bs.
Proof using. intros [_ _ Hc _]. by eapply chain_sizes. Qed.

(** The end of [rt_smem_alloc]: the lowest free block is found again. *)
Lemma advance_ok used mx h bs1 k bs2 n bs3 :
  heap_at h (bs1 ++ (n, true) :: bs3) →
  let lf := first_free 0 (bs1 ++ (k, false) :: bs2) in
  (if hp + total bs1 =? hp + lf then
     m ← advance_lfree (heap_fuel (obj used mx lf h)) (obj used mx lf h);
     assert ((lfree m =? heap_end m) || negb (MEM_ISUSED m (lfree m))) (Some m)
   else Some (obj used mx lf h)) = Some (obj used mx (first_free 0 (bs1 ++ (n, true) :: bs3)) h).
Proof using G.
  intros H lf. pose proof (heap_at_sizes _ _ H) as Hsz. apply Forall_app in Hsz as [Hs1 Hs2].
  unfold lf. rewrite !first_free_app, Z.add_0_l. destruct (forallb snd bs1) eqn:Eall.
  - cbn [first_free]. rewrite Z.eqb_refl.
    rewrite (advance_lfree_ok _ used mx h bs1 ((n, true) :: bs3)); [|done |].
    + cbn [mbind option_bind first_free obj lfree heap_end]. destruct (free_split 0 (total bs1 + n) bs3) as (l1 & l2 & -> & _ & Ef & _ & Hl2).
      rewrite Ef. unfold assert. destruct l2 as [|[k2 [|]] l2]; [| done |].
      * rewrite app_nil_r in H. pose proof (ha_total _ _ H) as Ht. rewrite total_app, total_cons in Ht.
        replace (total bs1 + n + total l1) with E by lia. by rewrite Z.eqb_refl.
      * rewrite cons_middle, app_assoc in H. rewrite app_assoc in H.
        fold (obj used mx (total bs1 + n + total l1) h).
        rewrite <-(total_snoc bs1 n true), <-total_app. rewrite (isused_blk used mx _ _ _ _ _ _ H). by rewrite orb_true_r.
    + unfold heap_fuel. cbn [obj sm_heap]. pose proof (heap_at_count _ _ H) as Hc. rewrite length_app in Hc. lia.
  - pose proof (first_free_lt 0 bs1 Hs1 Eall). destruct (Z.eqb_spec (hp + total bs1) (hp + first_free 0 bs1)); [lia | done].
Qed.

Lemma mod_8_0 x : (8 | x) → x mod 8 = 0.
Proof using. intros [q ->]. by apply Z.mod_mul. Qed.

Lemma take_finish used mx h bs1 k bs2 n bs3 size :
  heap_at h (bs1 ++ (n, false) :: bs3) → 0 < size → size ≤ n - 16 →
  let lf := first_free 0 (bs1 ++ (k, false) :: bs2) in
  let mem := hp + total bs1 in
  let m := set_pool mem (MEM_USED self) (obj used mx lf h) in
  (m ← (if mem =? hp + lf then
          m ← advance_lfree (heap_fuel m) m;
          assert ((lfree m =? heap_end m) || negb (MEM_ISUSED m (lfree m))) (Some m)
        else Some m);
   assert (u32 (mem + SIZEOF_STRUCT_MEM + size) <=? heap_end m)
     (assert (u32 (mem + SIZEOF_STRUCT_MEM) mod RT_ALIGN_SIZE =? 0)
        (assert (Z.land mem (RT_ALIGN_SIZE - 1) =? 0) (Some (mem + SIZEOF_STRUCT_MEM, m)))))
  = Some (hp + total bs1 + 16, obj used mx (first_free 0 (bs1 ++ (n, true) :: bs3)) (store_u32 h (total bs1) (self + 1))).
Proof using G.
  intros H Hs Hn lf mem m. destruct (chain_hdr _ _ _ _ _ H) as (_ & _ & _ & _ & _ & Ho & Ho8 & HE & Ht).
  destruct (retag_ok h bs1 n false true bs3 H) as [Hr _]. pose proof (ge_fit G) as Gf. pose proof (ge_hp G) as Gp. pose proof (ge_hp8 G) as G8.
  unfold m, mem. rewrite tag_used, set_pool_obj. pose proof (advance_ok used mx _ bs1 k bs2 n bs3 Hr) as Ha. fold lf in Ha.
  cbn [tag] in Ha. cbv zeta in Ha. rewrite Ha. cbn [mbind option_bind obj heap_end]. rewrite SIZEOF_16. unfold assert, RT_ALIGN_SIZE.
  rewrite !u32_small by (unfold is_u32; lia). destruct (Z.leb_spec (hp + total bs1 + 16 + size) (hp + E)); [|lia].
  pose proof (land_7 (hp + total bs1)) as L7. unfold RT_ALIGN_SIZE in L7. rewrite L7.
  rewrite !mod_8_0 by (repeat apply Z.divide_add_r; done || by exists 2). done.
Qed.

Lemma add_used_obj used mx lf h n :
  0 ≤ used → used ≤ mx → 0 ≤ n → used + n < 4294967296 →
  ∃ mx', add_used n (obj used mx lf h) = obj (used + n) mx' lf h ∧ mx ≤ mx' ∧ used + n ≤ mx'.
Proof using.
  intros. unfold add_used. cbn [obj sm_used sm_max]. rewrite u32_small by (unfold is_u32; lia).
  destruct (Z.ltb_spec mx (used + n)); [exists (used + n) | exists mx]; split; try done; lia.
Qed.

Lemma blen_data h o n : 0 ≤ o → 16 ≤ n → o + n ≤ blen h → blen (data h o n) = n - 16.
Proof using. intros. unfold data. len. Qed.

Lemma take_block_ok mx h bs1 k bs2 size :
  inv mx h (bs1 ++ (k, false) :: bs2) → 16 ≤ size → (8 | size) → size ≤ k - 16 →
  ∃ mx' h' bs' c, take_block (heap_obj mx h (bs1 ++ (k, false) :: bs2)) (total bs1) size
      = Some (hp + total bs1 + 16, heap_obj mx' h' bs')
    ∧ inv mx' h' bs' ∧ size ≤ blen c
    ∧ live h' 0 bs' = live h 0 bs1 ++ (total bs1 + 16, c) :: live h (total bs1 + k) bs2.
Proof using G.
  intros [H Hco Hda Hmx] Hs Hs8 Hk. destruct (chain_hdr _ _ _ _ _ H) as (H1 & H2 & H3 & Hn & Hd & Ho & Hod & HE & Ht2).
  pose proof (ge_fit G) as Gf. pose proof (ge_hp G) as Gp. pose proof (ha_len _ _ H) as Hlen.
  pose proof (used_sum_range _ (heap_at_sizes _ _ H)) as Hus. rewrite (ha_total _ _ H) in Hus.
  assert (Husk : used_sum (bs1 ++ (k, false) :: bs2) + k ≤ E).
  { pose proof (heap_at_sizes _ _ H) as Hsz. apply Forall_app in Hsz as [Hs1 [_ Hs2]%Forall_cons].
    pose proof (used_sum_range _ Hs1). pose proof (used_sum_range _ Hs2). rewrite used_sum_app. simpl. lia. }
  apply coalesced_app in Hco as [Hc1 [Hcf Hc2]]. apply Forall_app in Hda as [Hd1 [_ Hd2]%Forall_cons].
  unfold take_block, heap_obj. set (lf := first_free 0 (bs1 ++ (k, false) :: bs2)).
  set (us := used_sum (bs1 ++ (k, false) :: bs2)) in *. cbn [heap_ptr obj]. fold (obj us mx lf h).
  rewrite next_obj, H2, SIZEOF_16, MIN_16. replace (total bs1 + k - (total bs1 + 16)) with (k - 16) by lia.
  rewrite (u32_small (k - 16)), (u32_small (size + 16 + 16)) by (unfold is_u32; lia).
  destruct (Z.leb_spec (size + 16 + 16) (k - 16)) as [Hsp|Hsp].
  - destruct (split_heap_ok h bs1 k false bs2 size H) as (Hh & Hl1 & Hl2 & _); try lia; [done |].
    rewrite (split_block_eq us mx lf h bs1 k false bs2 size) by (done || lia).
    destruct (add_used_obj us mx lf (split_heap h (total bs1) k size) (size + 16)) as (mx' & Ea & Hmx1 & Hmx2); try lia.
    rewrite Ea. destruct (retag_ok _ _ _ _ true _ Hh) as [Hr Hrl].
    exists mx', (store_u32 (split_heap h (total bs1) k size) (total bs1) (self + 1)),
      (bs1 ++ (16 + size, true) :: (k - 16 - size, false) :: bs2), (data (split_heap h (total bs1) k size) (total bs1) (16 + size)).
    assert (Hu' : used_sum (bs1 ++ (16 + size, true) :: (k - 16 - size, false) :: bs2) = us + (size + 16)).
    { unfold us. rewrite !used_sum_app. simpl. lia. }
    split_and!.
    + cbn [obj sm_self lfree]. pose proof (take_finish (us + (size + 16)) mx' _ bs1 k bs2 _ _ size Hh ltac:(lia) ltac:(lia)) as Hf.
      fold lf in Hf. rewrite Hu'. exact Hf.
    + constructor; [done | | | lia].
      * apply coalesced_app. split; [done |]. cbn [coalesced negb]. done.
      * apply Forall_app. split; [done |]. repeat constructor; [simpl; lia | done | done].
    + rewrite blen_data; [lia | lia | lia | rewrite (ha_len _ _ Hh); lia].
    + cbn [tag] in Hrl. rewrite Hrl, Hl1. cbn [live app].
      replace (total bs1 + (16 + size) + (k - 16 - size)) with (total bs1 + k) by lia. by rewrite Hl2.
  - destruct (add_used_obj us mx lf h k) as (mx' & Ea & Hmx1 & Hmx2); try lia.
    replace (total bs1 + k - (hp + total bs1 - hp)) with k by lia. rewrite Ea.
    destruct (retag_ok _ _ _ _ true _ H) as [Hr Hrl].
    exists mx', (store_u32 h (total bs1) (self + 1)), (bs1 ++ (k, true) :: bs2), (data h (total bs1) k).
    assert (Hu' : used_sum (bs1 ++ (k, true) :: bs2) = us + k).
    { unfold us. rewrite !used_sum_app. simpl. lia. }
    split_and!.
    + cbn [obj sm_self lfree]. pose proof (take_finish (us + k) mx' _ bs1 k bs2 _ _ size H ltac:(lia) ltac:(lia)) as Hf.
      fold lf in Hf. rewrite Hu'. exact Hf.
    + constructor; [done | | | lia].
      * apply coalesced_app. split; [done |]. cbn [coalesced negb]. split; [done | by apply coalesced_weaken].
      * apply Forall_app. split; [done |]. constructor; [simpl; lia | done].
    + rewrite blen_data; lia.
    + done.
Qed.
End heap.
