(* ===== verification/SmallMemSpec.v ===== *)
(** What the heap promises: every permitted call returns, blocks never overlap, and their
    contents change only by the calls that are meant to change them. *)

From stdpp Require Import gmap.
From S2P Require Import Prelude.
From S2P Require Import RtDef.
From S2P Require Import CText.
From S2P Require Import SmallMem.
From S2P Require Import SmallMemChain.
From S2P Require Import SmallMemOps.
Open Scope Z_scope.

(** * The calls on a chain of blocks *)

(** The room a request takes. *)
Definition need (size : Z) : Z := Z.max 16 ((size + 7) / 8 * 8).

Lemma round_8 x : 0 ≤ x → x ≤ (x + 7) / 8 * 8 < x + 8 ∧ (8 | (x + 7) / 8 * 8).
Proof.
  intros Hx. pose proof (Z.div_mod (x + 7) 8 ltac:(lia)). pose proof (Z.mod_pos_bound (x + 7) 8 ltac:(lia)).
  split; [lia |]. by exists ((x + 7) / 8).
Qed.

Lemma need_spec size : 0 ≤ size → size ≤ need size ∧ 16 ≤ need size ∧ (8 | need size).
Proof.
  intros Hs. pose proof (round_8 size Hs) as [? Hd]. unfold need. split_and!; try lia.
  destruct (Z.max_spec 16 ((size + 7) / 8 * 8)) as [[_ ->] | [_ ->]]; [done | by exists 2].
Qed.

Section calls.
Context (self hp E : Z) (G : geometry self hp E).
Notation obj := (obj self hp E).
Notation heap_at := (heap_at self E).
Notation heap_obj := (heap_obj self hp E).
Notation inv := (inv self E).

Lemma fuel_enough mx h bs : heap_at h bs → (length bs < heap_fuel (heap_obj mx h bs))%nat.
Proof using G. intros H. unfold heap_fuel. pose proof (heap_at_count self hp E G _ _ H). simpl. lia. Qed.

(** Finding a block. *)
Lemma find_ok mx h bs n :
  heap_at h bs → 0 < n ≤ E - 16 →
  find_fit (heap_fuel (heap_obj mx h bs)) (heap_obj mx h bs) (lfree (heap_obj mx h bs) - heap_ptr (heap_obj mx h bs)) n
  = Some (first_fit n 0 bs).
Proof using G.
  intros H Hn. pose proof (fuel_enough mx h bs H) as Hf. revert Hf. generalize (heap_fuel (heap_obj mx h bs)). intros fuel Hf.
  unfold heap_obj. cbn [lfree heap_ptr obj].
  destruct (free_split n 0 bs) as (bs1 & bs2 & -> & _ & Ef & Es & _). rewrite Ef, Es, Z.add_0_l.
  replace (hp + total bs1 - hp) with (total bs1) by lia. apply (find_fit_ok self hp E G); [done | done |].
  rewrite length_app in Hf. lia.
Qed.

Lemma alloc_ok mx h bs size :
  inv mx h bs → 0 < size ≤ 4294967288 →
  match first_fit (need size) 0 bs with
  | None => rt_smem_alloc (heap_obj mx h bs) size = Some (0, heap_obj mx h bs)
  | Some o => ∃ mx' h' bs' l1 l2 c, rt_smem_alloc (heap_obj mx h bs) size = Some (hp + o + 16, heap_obj mx' h' bs')
      ∧ inv mx' h' bs' ∧ need size ≤ blen c ∧ live h 0 bs = l1 ++ l2 ∧ live h' 0 bs' = l1 ++ (o + 16, c) :: l2
  end.
Proof using G.
  intros Hi Hs. pose proof (need_spec size ltac:(lia)) as (_ & Hn16 & Hn8).
  pose proof (in_heap _ _ _ _ _ Hi) as H. pose proof (ha_total _ _ _ _ H) as Ht.
  unfold rt_smem_alloc. destruct (Z.eqb_spec size 0) as [|_]; [lia |]. unfold RT_ALIGN_SIZE. rewrite RT_ALIGN_8 by lia. rewrite MIN_16.
  assert ((if (size + 7) / 8 * 8 <? 16 then 16 else (size + 7) / 8 * 8) = need size) as ->.
  { unfold need. destruct (Z.ltb_spec ((size + 7) / 8 * 8) 16); lia. }
  cbn [mem_size_aligned heap_obj obj]. fold (obj (used_sum bs) mx (first_free 0 bs) h). fold (heap_obj mx h bs).
  destruct (Z.ltb_spec (E - 16) (need size)) as [Hbig|Hfits].
  - destruct (first_fit (need size) 0 bs) as [o|] eqn:Ef; [|done]. exfalso.
    apply first_fit_some in Ef as (bs1 & n & bs2 & -> & _ & Hn).
    destruct (chain_hdr _ _ _ _ _ _ _ H) as (_ & _ & _ & _ & _ & ? & _ & ? & ?). lia.
  - rewrite find_ok by (done || lia). cbn [mbind option_bind].
    destruct (first_fit (need size) 0 bs) as [o|] eqn:Ef; [|done].
    apply first_fit_some in Ef as (bs1 & n & bs2 & -> & -> & Hn). rewrite Z.add_0_l.
    destruct (take_block_ok self hp E G mx h bs1 n bs2 (need size) Hi Hn16 Hn8 Hn) as (mx' & h' & bs' & c & Et & Hi' & Hc & Hl).
    exists mx', h', bs', (live h 0 bs1), (live h (total bs1 + n) bs2), c. split_and!; try done.
    by rewrite live_app, live_free, Z.add_0_l.
Qed.

(** Giving a block back. *)
Lemma mpool_split used mx lf h bs1 bs2 :
  heap_at h (bs1 ++ bs2) → MEM_POOL (obj used mx lf h) (hp + total bs1) = self.
Proof using G.
  intros H. rewrite mpool_obj. destruct bs2 as [|[n u] bs2].
  - rewrite app_nil_r in H. rewrite (ha_total _ _ _ _ H), (ha_stop _ _ _ _ H). exact (tag_pool self hp E G true).
  - destruct (chain_hdr _ _ _ _ _ _ _ H) as (-> & _). exact (tag_pool self hp E G u).
Qed.

Lemma free_ok mx h bs1 n bs2 :
  inv mx h (bs1 ++ (n, true) :: bs2) →
  ∃ h' bs', rt_smem_free (heap_obj mx h (bs1 ++ (n, true) :: bs2)) (hp + total bs1 + 16) = Some (heap_obj mx h' bs')
    ∧ inv mx h' bs' ∧ live h' 0 bs' = live h 0 bs1 ++ live h (total bs1 + n) bs2
    ∧ (load_u32 h' (total bs1) = 0 ∨ load_u32 h' (total bs1) = self).
Proof using G.
  intros [H Hco Hda Hmx]. destruct (chain_hdr _ _ _ _ _ _ _ H) as (H1 & H2 & H3 & Hn & Hd & Ho & Hod & HE & Ht2).
  pose proof (ge_fit _ _ _ G) as Gf. pose proof (ge_hp _ _ _ G) as Gp. pose proof (ge_hp8 _ _ _ G) as G8. pose proof (ge_self _ _ _ G) as Gs.
  destruct (retag_ok self hp E G h bs1 n true false bs2 H) as [Hr Hrl]. cbn [tag] in Hr, Hrl.
  pose proof (heap_at_sizes _ _ _ _ H) as Hsz. apply Forall_app in Hsz as [Hs1 [_ Hs2]%Forall_cons].
  pose proof (used_sum_range _ Hs1). pose proof (used_sum_range _ Hs2).
  apply coalesced_app in Hco as [Hc1 [_ Hc2]]. cbn [negb] in Hc2.
  apply Forall_app in Hda as [Hd1 [Hdn Hd2]%Forall_cons]. specialize (Hdn eq_refl). simpl in Hdn.
  set (lf' := first_free 0 (bs1 ++ (n, false) :: bs2)).
  destruct (plug_holes_ok self hp E G (used_sum bs1 + used_sum bs2) mx lf' _ bs1 n bs2 Hr Hc1 Hc2 eq_refl)
    as (h' & bs' & Ep & A & C & Lf & U & L & W & F).
  exists h', bs'. rewrite used_sum_app in *. simpl in Hmx. split_and!; [|constructor; [done | done | by apply F, Forall_app | lia] | by rewrite L, Hrl | done].
  unfold rt_smem_free. destruct (Z.eqb_spec (hp + total bs1 + 16) 0); [lia |].
  rewrite land_7, mod_8_0 by (repeat apply Z.divide_add_r; done || by exists 2). rewrite SIZEOF_16.
  replace (hp + total bs1 + 16 - 16) with (hp + total bs1) by lia. unfold heap_obj.
  set (lf := first_free 0 (bs1 ++ (n, true) :: bs2)). set (us := used_sum (bs1 ++ (n, true) :: bs2)).
  rewrite (mpool_split us mx lf h bs1 _ H), (isused_blk self hp E G us mx lf h bs1 n true bs2 H), next_obj, H2.
  cbn [heap_ptr heap_end sm_self obj]. fold (obj us mx lf h).
  rewrite <-(total_snoc bs1 n true), (mpool_split us mx lf h (bs1 ++ [(n, true)]) bs2) by (by rewrite <-app_assoc).
  rewrite Z.eqb_refl. destruct (Z.eqb_spec self 0); [lia |]. unfold assert. cbn [negb].
  destruct (Z.leb_spec hp (hp + total bs1 + 16)); [|lia]. destruct (Z.ltb_spec (hp + total bs1 + 16) (hp + E)); [|lia].
  cbn [andb Z.eqb]. rewrite (tag_freed self hp E G), set_pool_obj.
  assert (Hlf : (if hp + total bs1 <? lfree (obj us mx lf (store_u32 h (total bs1) self))
                 then set_lfree (hp + total bs1) (obj us mx lf (store_u32 h (total bs1) self))
                 else obj us mx lf (store_u32 h (total bs1) self)) = obj us mx lf' (store_u32 h (total bs1) self)).
  { unfold lf, lf'. rewrite !first_free_app, Z.add_0_l. cbn [obj lfree first_free]. destruct (forallb snd bs1) eqn:Eall.
    - pose proof (first_free_range (total bs1 + n) bs2 Hs2). destruct (Z.ltb_spec (hp + total bs1) (hp + first_free (total bs1 + n) bs2)); [done | lia].
    - pose proof (first_free_lt 0 bs1 Hs1 Eall). destruct (Z.ltb_spec (hp + total bs1) (hp + first_free 0 bs1)); [lia | done]. }
  rewrite Hlf. rewrite next_obj. cbn [obj sm_used sm_max heap_ptr set_used]. 
  rewrite load_store_ne by (rewrite ?(ha_len _ _ _ _ H); lia). rewrite H2.
  replace (us - (total bs1 + n - (hp + total bs1 - hp))) with (used_sum bs1 + used_sum bs2) by (unfold us; rewrite used_sum_app; simpl; lia).
  rewrite u32_small by (unfold is_u32; pose proof (ha_total _ _ _ _ H); rewrite total_app, total_cons in *; lia).
  rewrite !Z.eqb_refl, U, <-Lf. exact Ep.
Qed.

(** Making a block smaller. *)
Lemma shrink_ok mx h bs1 n bs2 ns :
  inv mx h (bs1 ++ (n, true) :: bs2) → 0 < ns → (8 | ns) → ns + 28 < n - 16 →
  let m := set_used (u32 (used_sum (bs1 ++ (n, true) :: bs2) - (n - 16 - ns))) mx (heap_obj mx h (bs1 ++ (n, true) :: bs2)) in
  let m := split_block m (total bs1) ns in
  let mem2 := heap_ptr m + u32 (total bs1 + SIZEOF_STRUCT_MEM + ns) in
  let m := if mem2 <? lfree m then set_lfree mem2 m else m in
  ∃ h' bs', plug_holes m mem2 = Some (heap_obj mx h' bs') ∧ inv mx h' bs'
    ∧ live h' 0 bs' = live h 0 bs1 ++ (total bs1 + 16, take (Z.to_nat ns) (data h (total bs1) n)) :: live h (total bs1 + n) bs2.
Proof using G.
  cbv zeta. intros [H Hco Hda Hmx] Hns Hns8 Hsp. destruct (chain_hdr _ _ _ _ _ _ _ H) as (H1 & H2 & H3 & Hn & Hd & Ho & Hod & HE & Ht2).
  pose proof (ge_fit _ _ _ G) as Gf. pose proof (ge_hp _ _ _ G) as Gp.
  pose proof (heap_at_sizes _ _ _ _ H) as Hsz. apply Forall_app in Hsz as [Hs1 [_ Hs2]%Forall_cons].
  pose proof (used_sum_range _ Hs1). pose proof (used_sum_range _ Hs2).
  apply coalesced_app in Hco as [Hc1 [_ Hc2]]. apply Forall_app in Hda as [Hd1 [_ Hd2]%Forall_cons].
  assert (Hns' : 8 ≤ ns) by (destruct Hns8 as [r ->]; lia).
  assert (Hns32 : ns + 32 ≤ n - 16) by (destruct Hd as [q ->], Hns8 as [r ->]; lia).
  destruct (split_heap_ok self hp E G h bs1 n true bs2 ns H) as (Hh & Hl1 & Hl2 & Hdt); try lia; [done |].
  set (us := used_sum (bs1 ++ (n, true) :: bs2)) in *.
  assert (Hus : us = used_sum bs1 + n + used_sum bs2) by (unfold us; rewrite used_sum_app; simpl; lia).
  set (us' := us - (n - 16 - ns)). rewrite u32_small by (unfold is_u32; lia). fold us'.
  set (lf := first_free 0 (bs1 ++ (n, true) :: bs2)).
  change (set_used us' mx (heap_obj mx h (bs1 ++ (n, true) :: bs2))) with (obj us' mx lf h).
  rewrite (split_block_eq self hp E G us' mx lf h bs1 n true bs2 ns) by (done || lia).
  cbn [heap_ptr obj]. rewrite SIZEOF_16, u32_small by (unfold is_u32; lia). fold (obj us' mx lf (split_heap self E h (total bs1) n ns)).
  set (lf' := first_free 0 ((bs1 ++ [(16 + ns, true)]) ++ (n - 16 - ns, false) :: bs2)).
  assert (Hlf : (if hp + (total bs1 + 16 + ns) <? hp + lf
                 then set_lfree (hp + (total bs1 + 16 + ns)) (obj us' mx lf (split_heap self E h (total bs1) n ns))
                 else obj us' mx lf (split_heap self E h (total bs1) n ns)) = obj us' mx lf' (split_heap self E h (total bs1) n ns)).
  { unfold lf, lf'. rewrite <-app_assoc. cbn [app]. rewrite !first_free_app, Z.add_0_l. cbn [first_free]. rewrite ?(Z.add_assoc (total bs1) 16 ns). destruct (forallb snd bs1) eqn:Eall.
    - pose proof (first_free_range (total bs1 + n) bs2 Hs2). destruct (Z.ltb_spec (hp + (total bs1 + 16 + ns)) (hp + first_free (total bs1 + n) bs2)); [done | lia].
    - pose proof (first_free_lt 0 bs1 Hs1 Eall). destruct (Z.ltb_spec (hp + (total bs1 + 16 + ns)) (hp + first_free 0 bs1)); [lia | done]. }
  cbn [lfree obj] in Hlf |- *. fold (obj us' mx lf (split_heap self E h (total bs1) n ns)) in Hlf |- *. rewrite Hlf.
  rewrite (cons_middle (16 + ns, true)), app_assoc in Hh.
  destruct (plug_holes_ok self hp E G us' mx lf' _ (bs1 ++ [(16 + ns, true)]) (n - 16 - ns) bs2 Hh) as (h' & bs' & Ep & A & C & Lf & U & L & _ & F).
  { apply coalesced_app. split; [done |]. by split. }
  { done. }
  { done. }
  rewrite total_snoc, (Z.add_assoc (total bs1) 16 ns) in Ep. exists h', bs'.
  assert (us' = used_sum bs') as Eu by (rewrite U, used_sum_app; unfold us'; simpl; lia). split_and!.
  - rewrite Ep, Eu, Lf. done.
  - constructor; [done | done | | lia]. apply F. rewrite !Forall_app. split_and!; [done | | done]. repeat constructor. simpl. lia.
  - rewrite L, <-app_assoc. cbn [app]. rewrite live_app, Z.add_0_l, Hl1. cbn [live app]. rewrite Hdt.
    replace (total bs1 + (16 + ns) + (n - 16 - ns)) with (total bs1 + n) by lia. by rewrite Hl2.
Qed.

(** Writing into a block. *)
Lemma poke_ok mx h h' bs1 n bs2 :
  inv mx h (bs1 ++ (n, true) :: bs2) → length h' = length h →
  (∀ i : nat, Z.of_nat i < total bs1 + 16 ∨ total bs1 + n ≤ Z.of_nat i → h' !! i = h !! i) →
  inv mx h' (bs1 ++ (n, true) :: bs2)
  ∧ live h' 0 (bs1 ++ (n, true) :: bs2) = live h 0 bs1 ++ (total bs1 + 16, data h' (total bs1) n) :: live h (total bs1 + n) bs2.
Proof using G.
  intros [H Hco Hda Hmx] Hl Hag. destruct (chain_hdr _ _ _ _ _ _ _ H) as (H1 & H2 & H3 & Hn & Hd & Ho & Hod & HE & Ht2).
  pose proof (heap_at_sizes _ _ _ _ H) as Hsz. apply Forall_app in Hsz as [Hs1 [_ Hs2]%Forall_cons].
  destruct H as [Ht Hlen Hc Hst]. apply chain_app in Hc as [C1 (_ & _ & _ & _ & _ & C2)]. rewrite Z.add_0_l in C2. split.
  - constructor; try done. constructor; [done | unfold blen in *; lia | |].
    + apply chain_app. split; [eapply chain_agree; [lia | | done]; intros i Hi; apply Hag; lia |]. rewrite Z.add_0_l. cbn [chain].
      rewrite !(load_ext h h') by (lia || (intros i Hi; apply Hag; lia)). split_and!; try done.
      eapply chain_agree; [lia | | done]. intros i Hi. apply Hag. lia.
    + rewrite <-Hst. apply load_ext; [lia |]. intros i Hi. apply Hag. lia.
  - rewrite live_app, Z.add_0_l. cbn [live]. rewrite !(live_agree h h') by (done || lia || (intros i Hi; apply Hag; lia)). done.
Qed.

(** A block in use by its address. *)
Lemma live_in h o bs p c :
  (p, c) ∈ live h o bs → ∃ bs1 n bs2, bs = bs1 ++ (n, true) :: bs2 ∧ p = o + total bs1 + 16 ∧ c = data h (o + total bs1) n.
Proof using.
  revert o. induction bs as [|[n u] bs IH]; intros o; cbn [live]; [by intros ?%not_elem_of_nil |].
  rewrite elem_of_app. intros [Hp | (bs1 & k & bs2 & -> & -> & ->)%IH].
  - destruct u; [|by apply not_elem_of_nil in Hp]. apply list_elem_of_singleton in Hp. injection Hp as -> ->.
    exists [], n, bs. cbn [total foldr]. by rewrite Z.add_0_r.
  - exists ((n, u) :: bs1), k, bs2. cbn [total foldr fst]. fold (total bs1). by rewrite Z.add_assoc.
Qed.
End calls.
