(* ===== verification/SmallMemHeap.v ===== *)
(** The heap as a map from addresses to blocks of bytes: the calls of the system heap against
    an abstract allocator, the search for a free block, and repeated releases. *)

From stdpp Require Import gmap.
From S2P Require Import Prelude.
From S2P Require Import RtDef.
From S2P Require Import CText.
From S2P Require Import SmallMem.
From S2P Require Import SmallMemChain.
From S2P Require Import SmallMemOps.
From S2P Require Import SmallMemSpec.
From Stdlib Require Import Sorted.
Open Scope Z_scope.

(** * The blocks in use *)

(** Follow the headers from offset [o] to the end of the heap. *)
Fixpoint heap_walk (fuel : nat) (m : rt_small_mem) (o : Z) : list (Z * list Z) :=
  match fuel with
  | O => []
  | S fuel =>
      let mem := heap_ptr m + o in
      if mem =? heap_end m then [] else
      (if MEM_ISUSED m mem then [(mem + 16, data (sm_heap m) o (item_next m mem - o))] else [])
        ++ heap_walk fuel m (item_next m mem)
  end.
Definition heap_blocks (m : rt_small_mem) : gmap Z (list Z) := list_to_map (heap_walk (heap_fuel m) m 0).

(** The invariant of the heap. *)
Definition smem_inv (m : rt_small_mem) : Prop :=
  ∃ self hp E mx h bs, geometry self hp E ∧ inv self E mx h bs ∧ m = heap_obj self hp E mx h bs.

Definition shift (hp : Z) (x : Z * list Z) : Z * list Z := (hp + x.1, x.2).

Lemma shift_eq hp o c : shift hp (o + 16, c) = (hp + o + 16, c).
Proof. unfold shift. cbn [fst snd]. by rewrite Z.add_assoc. Qed.

Section walk.
Context (self hp E : Z) (G : geometry self hp E).
Notation obj := (obj self hp E).
Notation heap_at := (heap_at self E).
Notation heap_obj := (heap_obj self hp E).
Notation inv := (inv self E).

Lemma walk_live fuel used mx lf h bs1 bs2 :
  heap_at h (bs1 ++ bs2) → (length bs2 < fuel)%nat →
  heap_walk fuel (obj used mx lf h) (total bs1) = shift hp <$> live h (total bs1) bs2.
Proof using G.
  intros H. revert bs1 fuel H. induction bs2 as [|[n u] bs2 IH]; intros bs1 [|fuel] H Hf; cbn [length] in Hf; try lia; cbn [heap_walk];
    cbn [obj heap_ptr heap_end sm_heap]; fold (obj used mx lf h).
  - rewrite app_nil_r in H. by rewrite (ha_total _ _ _ _ H), Z.eqb_refl.
  - destruct (chain_hdr _ _ _ _ _ _ _ H) as (H1 & H2 & H3 & Hn & Hd & Ho & Hod & HE & Ht2).
    destruct (Z.eqb_spec (hp + total bs1) (hp + E)); [lia |].
    rewrite (isused_blk self hp E G used mx lf _ _ _ _ _ H), next_obj, H2. cbn [live]. rewrite fmap_app.
    replace (total bs1 + n - total bs1) with n by lia. rewrite cons_middle, app_assoc in H.
    specialize (IH (bs1 ++ [(n, u)]) fuel H ltac:(lia)). rewrite total_snoc in IH. rewrite IH. f_equal.
    destruct u; [|done]. unfold shift. simpl. do 2 f_equal. lia.
Qed.

Lemma blocks_live mx h bs : heap_at h bs → heap_blocks (heap_obj mx h bs) = list_to_map (shift hp <$> live h 0 bs).
Proof using G.
  intros H. unfold heap_blocks. f_equal. apply (walk_live _ _ _ _ h [] bs); [done |]. by apply (fuel_enough self hp E G).
Qed.

(** Blocks in use come in the order of their addresses, apart by the headers. *)
Definition before (x y : Z * list Z) : Prop := x.1 + blen x.2 + 16 ≤ y.1.

Lemma live_bounds h o bs x :
  0 ≤ o → Forall (λ b, 16 ≤ b.1) bs → o + total bs ≤ blen h → x ∈ live h o bs → o + 16 ≤ x.1 ∧ x.1 + blen x.2 ≤ o + total bs.
Proof using.
  intros Ho Hs Hl Hx. destruct x as [p c]. apply live_in in Hx as (bs1 & n & bs2 & -> & -> & ->).
  apply Forall_app in Hs as [Hs1 [Hn Hs2]%Forall_cons]. pose proof (total_nonneg _ Hs1). pose proof (total_nonneg _ Hs2).
  rewrite total_app, total_cons in *. simpl in *. rewrite blen_data; lia.
Qed.

Lemma live_sorted h o bs :
  0 ≤ o → Forall (λ b, 16 ≤ b.1) bs → o + total bs ≤ blen h → StronglySorted before (live h o bs).
Proof using.
  revert o. induction bs as [|[n u] bs IH]; intros o Ho Hs Hl; [constructor |]. apply Forall_cons in Hs as [Hn Hs].
  pose proof (total_nonneg _ Hs). rewrite total_cons in Hl. simpl in Hn. cbn [live].
  assert (IH' : StronglySorted before (live h (o + n) bs)) by (apply IH; [lia | done | lia]). destruct u; [|done].
  constructor; [done |]. apply Forall_forall. intros x Hx.
  apply live_bounds in Hx as [Hx _]; [|lia | done | lia]. unfold before. cbn [fst snd]. rewrite blen_data by lia. lia.
Qed.

Lemma sorted_keys l : StronglySorted before l → NoDup (shift hp <$> l).*1.
Proof using.
  intros Hs. induction Hs as [|x l Hs IH Hx]; [constructor |]. cbn [fmap list_fmap]. constructor; [|done].
  rewrite list_elem_of_fmap. intros (y & Ey & Hy). apply list_elem_of_fmap in Hy as (z & -> & Hz).
  rewrite Forall_forall in Hx. specialize (Hx z Hz). unfold before in Hx. simpl in Ey. pose proof (blen_nonneg x.2). lia.
Qed.

Lemma live_keys mx h bs : inv mx h bs → NoDup (shift hp <$> live h 0 bs).*1.
Proof using G.
  intros [H _ _ _]. apply sorted_keys, live_sorted; [lia | by eapply heap_at_sizes |].
  destruct H as [Ht Hl _ _]. lia.
Qed.
End walk.

(** * Maps of lists *)

Section maps.
Context {A : Type}.

Lemma map_insert_mid (l1 l2 : list (Z * A)) p c :
  NoDup (l1 ++ (p, c) :: l2).*1 →
  list_to_map (M := gmap Z A) (l1 ++ (p, c) :: l2) = <[p := c]> (list_to_map (l1 ++ l2))
  ∧ list_to_map (M := gmap Z A) (l1 ++ l2) !! p = None.
Proof using.
  intros Hd. assert (Hp : (l1 ++ (p, c) :: l2).*1 ≡ₚ p :: (l1 ++ l2).*1).
  { rewrite !fmap_app. cbn [fmap list_fmap fst]. by rewrite Permutation_middle. }
  split.
  - rewrite (list_to_map_proper _ ((p, c) :: l1 ++ l2) Hd); [done |]. by rewrite Permutation_middle.
  - apply not_elem_of_list_to_map_1. rewrite Hp in Hd. by apply NoDup_cons in Hd as [? _].
Qed.

Lemma map_delete_mid (l1 l2 : list (Z * A)) p c :
  NoDup (l1 ++ (p, c) :: l2).*1 →
  list_to_map (M := gmap Z A) (l1 ++ l2) = delete p (list_to_map (l1 ++ (p, c) :: l2)).
Proof using. intros Hd. destruct (map_insert_mid l1 l2 p c Hd) as [-> Hn]. by rewrite delete_insert_id. Qed.
End maps.

(** * The calls on the map *)

(** A new block [c] at [r]: aligned, and apart from all blocks of [B]. *)
Definition fresh (B : gmap Z (list Z)) (r : Z) (c : list Z) : Prop :=
  r ≠ 0 ∧ (8 | r) ∧ B !! r = None ∧ ∀ q d, B !! q = Some d → r + blen c ≤ q ∨ q + blen d ≤ r.

(** A block in use, by its position in the chain. *)
Lemma inv_lookup m p c :
  smem_inv m → heap_blocks m !! p = Some c →
  ∃ self hp E mx h bs1 n bs2, geometry self hp E ∧ inv self E mx h (bs1 ++ (n, true) :: bs2)
    ∧ m = heap_obj self hp E mx h (bs1 ++ (n, true) :: bs2) ∧ p = hp + total bs1 + 16 ∧ c = data h (total bs1) n.
Proof.
  intros (self & hp & E & mx & h & bs & G & Hi & ->) Hp. rewrite (blocks_live self hp E G) in Hp by apply Hi.
  apply elem_of_list_to_map_2, list_elem_of_fmap in Hp as ([q d] & [= -> ->] & Hq).
  apply live_in in Hq as (bs1 & n & bs2 & -> & -> & ->). exists self, hp, E, mx, h, bs1, n, bs2.
  split_and!; try done. simpl. lia.
Qed.

Lemma blocks_split self hp E mx h bs1 n bs2 :
  geometry self hp E → inv self E mx h (bs1 ++ (n, true) :: bs2) →
  heap_blocks (heap_obj self hp E mx h (bs1 ++ (n, true) :: bs2))
  = list_to_map ((shift hp <$> live h 0 bs1) ++ (hp + total bs1 + 16, data h (total bs1) n) :: (shift hp <$> live h (total bs1 + n) bs2))
  ∧ NoDup ((shift hp <$> live h 0 bs1) ++ (hp + total bs1 + 16, data h (total bs1) n) :: (shift hp <$> live h (total bs1 + n) bs2)).*1.
Proof.
  intros G Hi. pose proof (live_keys self hp E G mx h _ Hi) as Hk.
  assert (Es : shift hp <$> live h 0 (bs1 ++ (n, true) :: bs2)
    = (shift hp <$> live h 0 bs1) ++ (hp + total bs1 + 16, data h (total bs1) n) :: (shift hp <$> live h (total bs1 + n) bs2)).
  { rewrite live_app, Z.add_0_l, fmap_app. cbn [live app]. rewrite fmap_cons. by rewrite shift_eq. }
  rewrite <-Es. split; [|done]. apply (blocks_live self hp E G). apply Hi.
Qed.

Lemma free_map m p c :
  smem_inv m → heap_blocks m !! p = Some c →
  ∃ m', rt_smem_free m p = Some m' ∧ smem_inv m' ∧ heap_ptr m' = heap_ptr m ∧ heap_blocks m' = delete p (heap_blocks m)
    ∧ rt_smem_free m' p = None.
Proof.
  intros Hi Hp. destruct (inv_lookup m p c Hi Hp) as (self & hp & E & mx & h & bs1 & n & bs2 & G & Hin & -> & -> & ->).
  destruct (free_ok self hp E G mx h bs1 n bs2 Hin) as (h' & bs' & Ef & Hi' & Hl & Hw).
  exists (heap_obj self hp E mx h' bs'). split_and!; [done | by exists self, hp, E, mx, h', bs' | done | |].
  - rewrite (blocks_live self hp E G) by apply Hi'. rewrite Hl, fmap_app.
    destruct (blocks_split self hp E mx h bs1 n bs2 G Hin) as [-> Hd]. by eapply map_delete_mid.
  - pose proof (in_heap _ _ _ _ _ Hin) as H. destruct (chain_hdr _ _ _ _ _ _ _ H) as (_ & _ & _ & _ & _ & Ho & Ho8 & _).
    pose proof (ge_hp _ _ _ G). pose proof (ge_hp8 _ _ _ G). pose proof (ge_self _ _ _ G).
    unfold rt_smem_free. destruct (Z.eqb_spec (hp + total bs1 + 16) 0); [lia |]. unfold assert.
    rewrite land_7, mod_8_0 by (repeat apply Z.divide_add_r; done || by exists 2). rewrite SIZEOF_16.
    replace (hp + total bs1 + 16 - 16) with (hp + total bs1) by lia. unfold heap_obj. rewrite mpool_obj, isused_obj.
    destruct Hw as [-> | ->]; [done |].
    pose proof (tag_bit self hp E G false) as Tb. cbn [tag] in Tb. rewrite Tb. by destruct (negb (Z.land self MEM_MASK =? 0)).
Qed.

Lemma memcpy_data h o n i b :
  0 ≤ o → 16 ≤ n → o + n ≤ blen h → 0 ≤ i → i + blen b ≤ n - 16 →
  data (memcpy h (o + 16 + i) b 0 (blen b)) o n = memcpy (data h o n) i b 0 (blen b).
Proof.
  intros Ho Hn Hl Hi Hb. assert (Hld : blen (data h o n) = n - 16) by (apply blen_data; lia). pose proof (blen_nonneg b).
  apply list_eq. intros j. unfold data at 1. destruct (decide (Z.of_nat j < n - 16)).
  - rewrite lookup_take_lt, lookup_drop by lia. rewrite !memcpy_lookup by lia.
    unfold data. rewrite lookup_take_lt, lookup_drop by lia.
    replace (o + 16 + i <=? Z.of_nat (Z.to_nat (o + 16) + j)) with (i <=? Z.of_nat j) by (destruct (Z.leb_spec i (Z.of_nat j)); symmetry; [apply Z.leb_le | apply Z.leb_gt]; lia).
    replace (Z.of_nat (Z.to_nat (o + 16) + j) <? o + 16 + i + blen b) with (Z.of_nat j <? i + blen b)
      by (destruct (Z.ltb_spec (Z.of_nat j) (i + blen b)); symmetry; [apply Z.ltb_lt | apply Z.ltb_ge]; lia).
    destruct (_ && _); [f_equal; lia | done].
  - rewrite !lookup_ge_None_2; [done | |].
    + rewrite memcpy_length by lia. unfold blen in Hld. lia.
    + rewrite length_take, length_drop, memcpy_length by lia. unfold blen in *. lia.
Qed.

(** A client writes [b] at index [i] of its block. *)
Definition heap_write (m : rt_small_mem) (p i : Z) (b : list Z) : rt_small_mem :=
  set_heap (memcpy (sm_heap m) (p - heap_ptr m + i) b 0 (blen b)) m.

Lemma write_map m p c i b :
  smem_inv m → heap_blocks m !! p = Some c → 0 ≤ i → i + blen b ≤ blen c →
  smem_inv (heap_write m p i b) ∧ heap_blocks (heap_write m p i b) = <[p := memcpy c i b 0 (blen b)]> (heap_blocks m).
Proof.
  intros Hi Hp Hi0 Hb. destruct (inv_lookup m p c Hi Hp) as (self & hp & E & mx & h & bs1 & n & bs2 & G & Hin & -> & -> & ->).
  pose proof (in_heap _ _ _ _ _ Hin) as H. destruct (chain_hdr _ _ _ _ _ _ _ H) as (_ & _ & _ & Hn & _ & Ho & _ & HE & Ht).
  pose proof (ha_len _ _ _ _ H) as Hl. rewrite blen_data in Hb by lia. pose proof (blen_nonneg b).
  assert (Ew : heap_write (heap_obj self hp E mx h (bs1 ++ (n, true) :: bs2)) (hp + total bs1 + 16) i b
    = heap_obj self hp E mx (memcpy h (total bs1 + 16 + i) b 0 (blen b)) (bs1 ++ (n, true) :: bs2)).
  { unfold heap_write, heap_obj, obj, set_heap. cbn. do 2 f_equal. lia. }
  destruct (poke_ok self hp E G mx h (memcpy h (total bs1 + 16 + i) b 0 (blen b)) bs1 n bs2 Hin) as [Hi' Hl'].
  { apply memcpy_length; lia. }
  { intros j Hj. rewrite memcpy_lookup by lia.
    destruct (Z.leb_spec (total bs1 + 16 + i) (Z.of_nat j)); [|done]. destruct (Z.ltb_spec (Z.of_nat j) (total bs1 + 16 + i + blen b)); [lia | done]. }
  rewrite Ew. split; [by exists self, hp, E, mx, (memcpy h (total bs1 + 16 + i) b 0 (blen b)), (bs1 ++ (n, true) :: bs2) |].
  pose proof (live_keys self hp E G mx _ _ Hi') as Hk. rewrite (blocks_live self hp E G) by apply Hi'.
  destruct (blocks_split self hp E mx h bs1 n bs2 G Hin) as [-> Hd]. rewrite Hl', fmap_app, fmap_cons, shift_eq in Hk |- *.
  rewrite (proj1 (map_insert_mid _ _ _ _ Hk)), (proj1 (map_insert_mid _ _ _ _ Hd)), insert_insert_eq. f_equal.
  apply memcpy_data; lia.
Qed.

(** Two blocks in use do not overlap; [B] of a heap. *)
Definition apart (B : gmap Z (list Z)) : Prop :=
  ∀ p c q d, B !! p = Some c → B !! q = Some d → p ≠ q → p + blen c ≤ q ∨ q + blen d ≤ p.

Lemma sorted_apart l x y :
  StronglySorted before l → x ∈ l → y ∈ l → x = y ∨ before x y ∨ before y x.
Proof.
  induction 1 as [|z l Hs IH Hz]; intros Hx Hy; [by apply not_elem_of_nil in Hx |].
  rewrite Forall_forall in Hz. rewrite elem_of_cons in Hx, Hy. destruct Hx as [-> | Hx], Hy as [-> | Hy]; auto.
Qed.

Lemma inv_apart m : smem_inv m → apart (heap_blocks m).
Proof.
  intros (self & hp & E & mx & h & bs & G & Hi & ->) p c q d Hp Hq Hne.
  pose proof (in_heap _ _ _ _ _ Hi) as H. rewrite (blocks_live self hp E G) in Hp, Hq by done.
  apply elem_of_list_to_map_2, list_elem_of_fmap in Hp as ([p' c'] & [= -> ->] & Hp').
  apply elem_of_list_to_map_2, list_elem_of_fmap in Hq as ([q' d'] & [= -> ->] & Hq').
  assert (Hs : StronglySorted before (live h 0 bs)).
  { apply live_sorted; [lia | by eapply heap_at_sizes |]. destruct H as [Ht Hl _ _]. lia. }
  destruct (sorted_apart _ _ _ Hs Hp' Hq') as [[= -> ->] | [Hb | Hb]]; [done | |]; unfold before in Hb; simpl in *; lia.
Qed.

(** No stretch of [n] bytes of the heap is free of blocks in use with their headers. *)
Definition no_room (m : rt_small_mem) (n : Z) : Prop :=
  ∀ a, heap_ptr m ≤ a → a + n ≤ heap_end m →
    ∃ q d, heap_blocks m !! q = Some d ∧ q - 16 < a + n ∧ a < q + blen d.

(** The block around an offset. *)
Lemma block_at bs o a :
  Forall (λ b, 16 ≤ b.1) bs → o ≤ a < o + total bs →
  ∃ bs1 n u bs2, bs = bs1 ++ (n, u) :: bs2 ∧ o + total bs1 ≤ a < o + total bs1 + n.
Proof.
  intros Hs. revert o. induction Hs as [|[n u] bs Hn Hs IH]; intros o Ha; simpl in Ha; [lia |].
  destruct (Z.lt_ge_cases a (o + n)).
  - exists [], n, u, bs. split; [done | simpl; lia].
  - destruct (IH (o + n)) as (bs1 & k & w & bs2 & -> & Hk); [lia |]. exists ((n, u) :: bs1), k, w, bs2. split; [done | simpl; lia].
Qed.

Lemma fit_room self hp E mx h bs n :
  geometry self hp E → inv self E mx h bs → 16 ≤ n → first_fit n 0 bs = None → no_room (heap_obj self hp E mx h bs) (16 + n).
Proof.
  intros G Hi Hn Hf a Ha Hend. cbn [heap_obj obj heap_ptr heap_end] in Ha, Hend.
  pose proof (in_heap _ _ _ _ _ Hi) as H. apply first_fit_none in Hf.
  destruct (block_at bs 0 (a - hp)) as (bs1 & k & u & bs2 & -> & Hk); [by eapply heap_at_sizes | rewrite (ha_total _ _ _ _ H); lia |].
  destruct (chain_hdr _ _ _ _ _ _ _ H) as (_ & _ & _ & Hk16 & _ & Ho & _ & HE & Ht2). pose proof (ha_len _ _ _ _ H) as Hl.
  destruct u.
  - destruct (blocks_split self hp E mx h bs1 k bs2 G Hi) as [-> Hd]. exists (hp + total bs1 + 16), (data h (total bs1) k).
    rewrite (proj1 (map_insert_mid _ _ _ _ Hd)), lookup_insert_eq. rewrite blen_data by lia. split; [done | lia].
  - rewrite Forall_app, Forall_cons in Hf. destruct Hf as (_ & [[=] | Hsmall] & _). simpl in Hsmall.
    destruct bs2 as [|[k2 u2] bs2]; [simpl in HE; lia |].
    pose proof (in_free _ _ _ _ _ Hi) as Hc. apply coalesced_app in Hc as [_ [_ [Hu _]]]. rewrite Hu in * by done.
    rewrite cons_middle, app_assoc in Hi, H |- *. destruct (chain_hdr _ _ _ _ _ _ _ H) as (_ & _ & _ & Hk2 & _ & _ & _ & HE' & Ht').
    destruct (blocks_split self hp E mx h (bs1 ++ [(k, false)]) k2 bs2 G Hi) as [-> Hd].
    eexists _, _. rewrite (proj1 (map_insert_mid _ _ _ _ Hd)), lookup_insert_eq. split; [done |]. rewrite total_snoc in *.
    rewrite blen_data by lia. lia.
Qed.

Lemma alloc_map m size :
  smem_inv m → 0 < size ≤ 4294967288 →
  ∃ r m', rt_smem_alloc m size = Some (r, m') ∧ smem_inv m' ∧ heap_ptr m' = heap_ptr m ∧ heap_end m' = heap_end m ∧
    (r = 0 ∧ m' = m ∧ no_room m (16 + need size)
     ∨ ∃ c, need size ≤ blen c ∧ fresh (heap_blocks m) r c ∧ heap_blocks m' = <[r := c]> (heap_blocks m)).
Proof.
  intros (self & hp & E & mx & h & bs & G & Hi & ->) Hs. pose proof (alloc_ok self hp E G mx h bs size Hi Hs) as Ha.
  pose proof (need_spec size ltac:(lia)) as (_ & Hn16 & _).
  destruct (first_fit (need size) 0 bs) as [o|] eqn:Ef.
  - destruct Ha as (mx' & h' & bs' & l1 & l2 & c & Ea & Hi' & Hc & El & El').
    exists (hp + o + 16), (heap_obj self hp E mx' h' bs'). split_and!; try done; [by exists self, hp, E, mx', h', bs' |].
    right. exists c. split; [done |]. pose proof (live_keys self hp E G mx' h' bs' Hi') as Hk.
    rewrite !(blocks_live self hp E G) by apply Hi || apply Hi'. rewrite El' in Hk |- *. rewrite El, (fmap_app (shift hp) l1 l2).
    rewrite (fmap_app (shift hp) l1 _), fmap_cons, shift_eq in Hk |- *.
    destruct (map_insert_mid _ _ _ _ Hk) as [-> Hnone]. split; [|done].
    apply first_fit_some in Ef as (bs1 & n & bs2 & -> & -> & Hn). pose proof (in_heap _ _ _ _ _ Hi) as H.
    destruct (chain_hdr _ _ _ _ _ _ _ H) as (_ & _ & _ & _ & _ & Ho & Ho8 & _). pose proof (ge_hp _ _ _ G). pose proof (ge_hp8 _ _ _ G).
    split_and!; [lia | repeat apply Z.divide_add_r; done || (by exists 2) || by exists 0 | done |].
    intros q d Hq. assert (Hap : apart (heap_blocks (heap_obj self hp E mx' h' bs'))).
    { apply inv_apart. by exists self, hp, E, mx', h', bs'. }
    rewrite (blocks_live self hp E G) in Hap by apply Hi'. rewrite El', (fmap_app (shift hp) l1 _), fmap_cons, shift_eq in Hap.
    destruct (map_insert_mid _ _ _ _ Hk) as [Eins _]. rewrite Eins in Hap.
    apply (Hap (hp + (0 + total bs1) + 16) c q d); [apply lookup_insert_eq | | intros <-; congruence].
    rewrite lookup_insert_ne; [done |]. intros <-. congruence.
  - exists 0, (heap_obj self hp E mx h bs). split_and!; try done; [by exists self, hp, E, mx, h, bs |].
    left. split_and!; try done. by apply fit_room.
Qed.

(** A move: the new block gets the contents of the old one. *)
Lemma move_map m p c ns :
  smem_inv m → heap_blocks m !! p = Some c → 0 < ns ≤ 4294967288 →
  ∃ r m', ('(nmem, m) ← rt_smem_alloc m ns;
           if negb (nmem =? 0) then
             let m := heap_copy m nmem p (if blen c <? ns then blen c else ns) in
             m ← rt_smem_free m p; Some (nmem, m)
           else Some (nmem, m)) = Some (r, m')
    ∧ smem_inv m' ∧ heap_ptr m' = heap_ptr m
    ∧ (r = 0 ∧ m' = m
       ∨ ∃ c', ns ≤ blen c' ∧ take (Z.to_nat (Z.min ns (blen c))) c' = take (Z.to_nat (Z.min ns (blen c))) c
           ∧ heap_blocks m' = <[r := c']> (delete p (heap_blocks m)) ∧ fresh (heap_blocks m) r c').
Proof.
  intros Hi Hp Hns. destruct (alloc_map m ns Hi Hns) as (r & m1 & Ea & Hi1 & Ehp & Ehe & Hres). rewrite Ea. cbn [mbind option_bind].
  destruct Hres as [(-> & -> & _) | (c2 & Hc2 & Hfr & Eb)]; [by exists 0, m; split_and!; try done; left |].
  destruct (Z.eqb_spec r 0); [by destruct Hfr |]. cbn [negb]. pose proof (need_spec ns ltac:(lia)) as (Hneed & _ & _).
  set (k := if blen c <? ns then blen c else ns).
  assert (Ek : k = Z.min ns (blen c)) by (unfold k; destruct (Z.ltb_spec (blen c) ns); lia).
  pose proof (blen_nonneg c). set (b := take (Z.to_nat k) c). assert (Hb : blen b = k) by (unfold b; len).
  assert (Hr1 : heap_blocks m1 !! r = Some c2) by (rewrite Eb; apply lookup_insert_eq).
  assert (Hp1 : heap_blocks m1 !! p = Some c).
  { rewrite Eb, lookup_insert_ne; [done |]. intros ->. destruct Hfr as (_ & _ & Hn & _). congruence. }
  assert (Ecp : heap_copy m1 r p k = heap_write m1 r 0 b).
  { destruct (inv_lookup m1 p c Hi1 Hp1) as (self & hp & E & mx & h & bs1 & n' & bs2 & G & Hin & -> & -> & Ec).
    pose proof (in_heap _ _ _ _ _ Hin) as H'. destruct (chain_hdr _ _ _ _ _ _ _ H') as (_ & _ & _ & Hn & _ & Ho & _ & HE & Ht).
    pose proof (ha_len _ _ _ _ H') as Hl. unfold heap_copy, heap_write, set_heap. cbn [heap_obj obj sm_heap heap_ptr]. f_equal.
    rewrite Hb, Z.add_0_r. unfold memcpy. f_equal. f_equal. change (Z.to_nat 0) with 0%nat. rewrite drop_0.
    assert (Hkn : k ≤ n' - 16) by (rewrite Ek, Ec, blen_data; lia).
    unfold b. rewrite Ec. unfold data. rewrite !take_take. rewrite Nat.min_id, Nat.min_l by lia. do 2 f_equal. lia. }
  rewrite Ecp. destruct (write_map m1 r c2 0 b Hi1 Hr1) as [Hi2 Eb2]; [lia | lia |].
  set (c' := memcpy c2 0 b 0 (blen b)) in *.
  assert (Hlc : length c' = length c2) by (apply memcpy_length; lia).
  destruct (free_map (heap_write m1 r 0 b) p c Hi2) as (m' & Ef & Hi' & Ehp' & Eb' & _).
  { rewrite Eb2, lookup_insert_ne; [done |]. intros ->. rewrite Hr1 in Hp1. destruct Hfr as (_ & _ & Hn & _). congruence. }
  rewrite Ef. cbn [mbind option_bind]. exists r, m'. split_and!; try done; [rewrite Ehp'; exact Ehp |]. right. exists c'.
  assert (Hne : r ≠ p) by (intros ->; destruct Hfr as (_ & _ & Hn & _); congruence). split_and!.
  - unfold blen in *. lia.
  - rewrite <-Ek. unfold c', memcpy. change (Z.to_nat 0) with 0%nat. rewrite take_0, drop_0. cbn [app].
    rewrite (take_ge b) by len. rewrite take_app_le by len. by rewrite take_ge by len.
  - rewrite Eb', Eb2, Eb, insert_insert_eq, delete_insert_ne by done. done.
  - destruct Hfr as (? & ? & ? & Hfr). split_and!; try done. intros q d Hq. unfold blen. rewrite Hlc. by apply Hfr.
Qed.

Lemma realloc_map m p c n :
  smem_inv m → heap_blocks m !! p = Some c → 0 < n ≤ 4294967288 →
  ∃ r m', rt_smem_realloc m p n = Some (r, m') ∧ smem_inv m' ∧ heap_ptr m' = heap_ptr m
    ∧ (r = 0 ∧ m' = m
       ∨ ∃ c', n ≤ blen c' ∧ take (Z.to_nat (Z.min n (blen c))) c' = take (Z.to_nat (Z.min n (blen c))) c
           ∧ heap_blocks m' = <[r := c']> (delete p (heap_blocks m)) ∧ (r = p ∨ fresh (heap_blocks m) r c')).
Proof.
  intros Hi Hp Hn. pose proof (round_8 n ltac:(lia)) as [Hr Hr8]. set (ns := (n + 7) / 8 * 8) in *.
  pose proof (move_map m p c ns Hi Hp ltac:(lia)) as (r & m' & Em & Hi' & Ehp & Hres).
  destruct (inv_lookup m p c Hi Hp) as (self & hp & E & mx & h & bs1 & k & bs2 & G & Hin & -> & -> & ->).
  pose proof (in_heap _ _ _ _ _ Hin) as H. destruct (chain_hdr _ _ _ _ _ _ _ H) as (_ & H2 & _ & Hk & Hk8 & Ho & Ho8 & HE & Ht).
  pose proof (ge_fit _ _ _ G) as Gf. pose proof (ge_hp _ _ _ G) as Gp. pose proof (ge_hp8 _ _ _ G) as G8. pose proof (ha_len _ _ _ _ H) as Hl.
  pose proof (in_data _ _ _ _ _ Hin) as Hda. apply Forall_app in Hda as [_ [Hdn _]%Forall_cons]. specialize (Hdn eq_refl). simpl in Hdn.
  assert (Hld : blen (data h (total bs1) k) = k - 16) by (apply blen_data; lia).
  destruct (blocks_split self hp E mx h bs1 k bs2 G Hin) as [Eb Hd].
  unfold rt_smem_realloc, RT_ALIGN_SIZE. rewrite RT_ALIGN_8 by lia. fold ns. cbn [heap_obj obj mem_size_aligned].
  fold (obj self hp E (used_sum (bs1 ++ (k, true) :: bs2)) mx (first_free 0 (bs1 ++ (k, true) :: bs2)) h). fold (heap_obj self hp E mx h (bs1 ++ (k, true) :: bs2)).
  set (m := heap_obj self hp E mx h (bs1 ++ (k, true) :: bs2)) in *.
  destruct (Z.ltb_spec (E - 16) ns). { exists 0, m. split_and!; try done. by left. }
  destruct (Z.eqb_spec ns 0); [lia |]. destruct (Z.eqb_spec (hp + total bs1 + 16) 0); [lia |].
  pose proof (land_7 (hp + total bs1 + 16)) as L7. unfold RT_ALIGN_SIZE in L7.
  rewrite L7, mod_8_0 by (repeat apply Z.divide_add_r; done || by exists 2). unfold assert at 1 2 3. cbn [Z.eqb].
  change (heap_ptr m) with hp. change (heap_end m) with (hp + E). rewrite SIZEOF_16.
  destruct (Z.leb_spec hp (hp + total bs1 + 16)); [|lia]. destruct (Z.ltb_spec (hp + total bs1 + 16) (hp + E)); [|lia].
  replace (hp + total bs1 + 16 - 16) with (hp + total bs1) by lia. replace (hp + total bs1 - hp) with (total bs1) by lia.
  assert (Hnx : item_next m (hp + total bs1) = total bs1 + k) by (unfold m, heap_obj; by rewrite next_obj).
  rewrite Hnx, (u32_small (total bs1)) by (unfold is_u32; lia).
  replace (total bs1 + k - total bs1 - 16) with (k - 16) by lia. rewrite (u32_small (k - 16)) by (unfold is_u32; lia).
  destruct (Z.eqb_spec (k - 16) ns) as [Es|Es].
  { exists (hp + total bs1 + 16), m. split_and!; try done. right. exists (data h (total bs1) k). split_and!; [lia | done | | by left].
    by rewrite insert_delete_id. }
  change MIN_SIZE with 12. rewrite (u32_small (ns + 16 + 12)) by (unfold is_u32; lia).
  destruct (Z.ltb_spec (ns + 16 + 12) (k - 16)) as [Hsm|Hsm].
  - destruct (shrink_ok self hp E G mx h bs1 k bs2 ns Hin ltac:(lia) Hr8 ltac:(lia)) as (h' & bs' & Epl & Hinv & Hlv).
    rewrite SIZEOF_16 in Epl. change (sm_used m) with (used_sum (bs1 ++ (k, true) :: bs2)). change (sm_max m) with mx.
    fold m in Epl. cbv zeta in Epl. cbv zeta. rewrite Epl. cbn [mbind option_bind].
    exists (hp + total bs1 + 16), (heap_obj self hp E mx h' bs'). split_and!; [done | by exists self, hp, E, mx, h', bs' | done |].
    right. exists (take (Z.to_nat ns) (data h (total bs1) k)). split_and!; [len | | | by left].
    + rewrite take_take, Nat.min_l by lia. done.
    + pose proof (live_keys self hp E G mx _ _ Hinv) as Hkk. rewrite (blocks_live self hp E G) by apply Hinv.
      rewrite Hlv, (fmap_app (shift hp) (live h 0 bs1) _), fmap_cons, shift_eq in Hkk |- *.
      rewrite (proj1 (map_insert_mid _ _ _ _ Hkk)). f_equal. rewrite Eb. by eapply map_delete_mid.
  - rewrite Hld in Em, Hres. cbv zeta in Em |- *. rewrite Em. exists r, m'. split_and!; try done. destruct Hres as [Hres | (c' & Hc & Htk & Hb & Hfr)]; [by left |].
    right. exists c'. split_and!; [lia | | done | by right]. rewrite Hld.
    pose proof (f_equal (take (Z.to_nat (Z.min n (k - 16)))) Htk) as Htk'. rewrite !take_take, Nat.min_l in Htk' by lia. done.
Qed.
