(* ===== verification/Heap.v ===== *)
(** The system heap as its clients see it: any sequence of calls on an initialised heap
    behaves as an allocator of separate blocks, a request fails only when there is no room,
    and a block cannot be released twice. *)

From stdpp Require Import gmap.
From S2P Require Import Prelude.
From S2P Require Import RtDef.
From S2P Require Import CText.
From S2P Require Import SmallMem.
From S2P Require Import SmallMemChain.
From S2P Require Import SmallMemOps.
From S2P Require Import SmallMemSpec.
From S2P Require Import SmallMemHeap.
Open Scope Z_scope.

(** * Initialising *)

(** The memory behind the object that is handed over. *)
Definition heap_bytes (begin_addr size : Z) : Z :=
  RT_ALIGN_DOWN (begin_addr + size) RT_ALIGN_SIZE - RT_ALIGN (RT_ALIGN begin_addr RT_ALIGN_SIZE + sizeof_small_mem) RT_ALIGN_SIZE.

Lemma init_inv begin_addr size ram m :
  0 < begin_addr → 0 ≤ size → begin_addr + size < 4294967224 → blen ram = heap_bytes begin_addr size →
  rt_smem_init begin_addr size ram = Some m → smem_inv m ∧ heap_blocks m = ∅.
Proof.
  intros Hb Hs Hu Hl. unfold rt_smem_init, heap_bytes, sizeof_small_mem, RT_ALIGN_SIZE in *. rewrite SIZEOF_16.
  rewrite (RT_ALIGN_8 begin_addr) in Hl |- * by lia. pose proof (round_8 begin_addr ltac:(lia)) as [Hr Hr8].
  set (self := (begin_addr + 7) / 8 * 8) in *. rewrite (u32_small (self + 56)) by (unfold is_u32; lia).
  rewrite (u32_small (begin_addr + size)) by (unfold is_u32; lia). rewrite RT_ALIGN_DOWN_8 in Hl |- * by (unfold is_u32; lia).
  pose proof (Z.div_mod (begin_addr + size) 8 ltac:(lia)). pose proof (Z.mod_pos_bound (begin_addr + size) 8 ltac:(lia)).
  set (e := (begin_addr + size) / 8 * 8) in *. assert (He8 : (8 | e)) by (by exists ((begin_addr + size) / 8)).
  assert (He : 0 ≤ e ≤ begin_addr + size) by lia.
  destruct (2 * 16 <? e) eqn:E1; [|done]. apply Z.ltb_lt in E1. rewrite (u32_small (e - 2 * 16)) by (unfold is_u32; lia).
  destruct (Z.leb_spec (self + 56) (e - 2 * 16)) as [E2|]; [|done]. cbn [andb].
  assert (H56 : (8 | self + 56)) by (apply Z.divide_add_r; [done | by exists 7]).
  assert (Er : RT_ALIGN (self + 56) 8 = self + 56).
  { rewrite RT_ALIGN_8 by lia. destruct H56 as [q Hq]. rewrite Hq.
    rewrite <-(Z.div_unique_pos (q * 8 + 7) 8 q 7); lia. }
  rewrite Er in Hl |- *. rewrite (u32_small (e - (self + 56) - 2 * 16)) by (unfold is_u32; lia).
  set (hp := self + 56) in *. set (E := e - hp - 16). replace (e - hp - 2 * 16 + 16) with E by (unfold E; lia).
  assert (G : geometry self hp E).
  { constructor; try done; try (unfold hp, E in *; lia). unfold E. apply Z.divide_sub_r; [by apply Z.divide_sub_r | by exists 2]. }
  pose proof (ge_fit _ _ _ G) as Gf. pose proof (ge_self _ _ _ G) as Gs. pose proof (ge_E _ _ _ G) as GE. pose proof (ge_hp _ _ _ G) as Gp.
  rewrite (u32_small (hp + E)) by (unfold is_u32; lia). rewrite (tag_used self hp E G), (tag_freed self hp E G).
  replace (e - hp - 2 * 16) with (E - 16) by (unfold E; lia). replace (mk_smem self (E - 16) 0 0 hp (hp + E) hp (E - 16) ram)
    with (obj self hp E 0 0 0 ram) by (unfold obj; f_equal; lia).
  intros [= <-]. replace (set_pool hp self) with (set_pool (hp + 0) self) by (f_equal; lia).
  replace (set_next hp E) with (set_next (hp + 0) E) by (f_equal; lia). replace (set_prev hp 0) with (set_prev (hp + 0) 0) by (f_equal; lia).
  rewrite set_pool_obj, set_next_obj, set_prev_obj, set_pool_obj, set_next_obj, set_prev_obj.
  match goal with |- context [obj self hp E 0 0 0 ?x] => set (h := x) end.
  assert (Hram : blen ram = E + 16) by (unfold E; lia).
  assert (Hh : heap_at self E h [(E, false)]).
  { constructor; [simpl; lia | unfold h; sb | | unfold h; by lds].
    cbn [chain]. unfold h. split_and!; try done; lds; try done. apply G. }
  assert (Hi : inv self E 0 h [(E, false)]).
  { constructor; [done | done | by repeat constructor | done]. }
  change (obj self hp E 0 0 0 h) with (heap_obj self hp E 0 h [(E, false)]). split.
  - by exists self, hp, E, 0, h, [(E, false)].
  - by rewrite (blocks_live self hp E G).
Qed.

(** * Calls *)

(** What a client does: the calls of kservice.c, and writing into its blocks. *)
Inductive call : Type :=
| Malloc (size : Z)
| Calloc (count size : Z)
| Realloc (p size : Z)
| Free (p : Z)
| Write (p i : Z) (b : list Z).

Definition run_call (m : rt_small_mem) (c : call) : option (Z * rt_small_mem) :=
  match c with
  | Malloc size => rt_malloc m size
  | Calloc count size => rt_calloc m count size
  | Realloc p size => rt_realloc m p size
  | Free p => m ← rt_free m p; Some (0, m)
  | Write p i b => Some (0, heap_write m p i b)
  end.

(** Sizes that do not wrap around when they are rounded up; addresses of blocks in use, or
    NULL; writes inside a block. *)
Definition permitted (B : gmap Z (list Z)) (c : call) : Prop :=
  match c with
  | Malloc size => 0 ≤ size ≤ 4294967288
  | Calloc count size => 0 ≤ count ∧ 0 ≤ size ∧ count * size ≤ 4294967288
  | Realloc p size => (p = 0 ∨ is_Some (B !! p)) ∧ 0 ≤ size ≤ 4294967288
  | Free p => p = 0 ∨ is_Some (B !! p)
  | Write p i b => ∃ d, B !! p = Some d ∧ 0 ≤ i ∧ i + blen b ≤ blen d
  end.

(** The allocator: failure changes nothing; a new block is apart from the others. *)
Definition allocated (size : Z) (good : list Z → Prop) (B : gmap Z (list Z)) (r : Z) (B' : gmap Z (list Z)) : Prop :=
  r = 0 ∧ B' = B ∨ ∃ d, 0 < size ≤ blen d ∧ good d ∧ fresh B r d ∧ B' = <[r := d]> B.

Definition allocator (B : gmap Z (list Z)) (c : call) (r : Z) (B' : gmap Z (list Z)) : Prop :=
  match c with
  | Malloc size => allocated size (λ _, True) B r B'
  | Calloc count size => allocated (count * size) (λ d, take (Z.to_nat (count * size)) d = replicate (Z.to_nat (count * size)) 0) B r B'
  | Realloc p size =>
      if size =? 0 then r = 0 ∧ B' = delete p B
      else if p =? 0 then allocated size (λ _, True) B r B'
      else r = 0 ∧ B' = B
        ∨ ∃ d d', B !! p = Some d ∧ size ≤ blen d'
            ∧ take (Z.to_nat (Z.min size (blen d))) d' = take (Z.to_nat (Z.min size (blen d))) d
            ∧ B' = <[r := d']> (delete p B) ∧ (r = p ∨ fresh B r d')
  | Free p => r = 0 ∧ B' = delete p B
  | Write p i b => r = 0 ∧ ∃ d, B !! p = Some d ∧ B' = <[p := memcpy d i b 0 (blen b)]> B
  end.

(** The heaps that arise. *)
Inductive heap_reach : rt_small_mem → Prop :=
| reach_init begin_addr size ram m :
    0 < begin_addr → 0 ≤ size → begin_addr + size < 4294967224 → blen ram = heap_bytes begin_addr size →
    rt_smem_init begin_addr size ram = Some m → heap_reach m
| reach_call m c r m' :
    heap_reach m → permitted (heap_blocks m) c → run_call m c = Some (r, m') → heap_reach m'.

(** * The abstract allocator *)

Lemma alloc_zero m : rt_smem_alloc m 0 = Some (0, m).
Proof. done. Qed.

Lemma malloc_allocated m size :
  smem_inv m → 0 ≤ size ≤ 4294967288 →
  ∃ r m', rt_malloc m size = Some (r, m') ∧ smem_inv m' ∧ heap_ptr m' = heap_ptr m
    ∧ (r = 0 ∧ heap_blocks m' = heap_blocks m
       ∨ ∃ d, 0 < size ≤ blen d ∧ fresh (heap_blocks m) r d ∧ heap_blocks m' = <[r := d]> (heap_blocks m)).
Proof.
  intros Hi Hs. unfold rt_malloc. destruct (decide (size = 0)) as [-> | Hne].
  { exists 0, m. rewrite alloc_zero. split_and!; try done. by left. }
  destruct (alloc_map m size Hi ltac:(lia)) as (r & m' & E & Hi' & Ehp & _ & Hres). exists r, m'. split_and!; try done.
  destruct Hres as [(-> & -> & _) | (d & Hd & Hf & Hb)]; [by left |]. right. exists d. split_and!; try done; [lia |].
  pose proof (need_spec size ltac:(lia)). lia.
Qed.

Lemma block_nonzero m p d : smem_inv m → heap_blocks m !! p = Some d → 0 < p.
Proof.
  intros Hi Hp. destruct (inv_lookup m p d Hi Hp) as (self & hp & E & mx & h & bs1 & n & bs2 & G & Hin & -> & -> & ->).
  destruct (chain_hdr _ _ _ _ _ _ _ (in_heap _ _ _ _ _ Hin)) as (_ & _ & _ & _ & _ & Ho & _). pose proof (ge_hp _ _ _ G). lia.
Qed.

Lemma no_null m : smem_inv m → heap_blocks m !! 0 = None.
Proof. intros Hi. destruct (heap_blocks m !! 0) eqn:E; [|done]. pose proof (block_nonzero m 0 _ Hi E). lia. Qed.

Lemma free_allocated m p :
  smem_inv m → p = 0 ∨ is_Some (heap_blocks m !! p) →
  ∃ m', rt_smem_free m p = Some m' ∧ smem_inv m' ∧ heap_blocks m' = delete p (heap_blocks m).
Proof.
  intros Hi [-> | [d Hd]].
  - exists m. split_and!; [done | done |]. by rewrite delete_id by by apply no_null.
  - destruct (free_map m p d Hi Hd) as (m' & E & Hi' & _ & Hb & _). by exists m'.
Qed.

Lemma calloc_allocated m count size :
  smem_inv m → 0 ≤ count → 0 ≤ size → count * size ≤ 4294967288 →
  ∃ r m', rt_calloc m count size = Some (r, m') ∧ smem_inv m'
    ∧ allocated (count * size) (λ d, take (Z.to_nat (count * size)) d = replicate (Z.to_nat (count * size)) 0)
        (heap_blocks m) r (heap_blocks m').
Proof.
  intros Hi Hc Hs Hu. unfold rt_calloc. rewrite u32_small by (unfold is_u32; nia). set (n := count * size) in *.
  destruct (malloc_allocated m n Hi ltac:(unfold n; nia)) as (r & m1 & E & Hi1 & _ & Hres). rewrite E. cbn [mbind option_bind].
  destruct Hres as [[-> Hb] | (d & Hd & Hf & Hb)]; [exists 0, m1; split_and!; try done; by left |].
  destruct (Z.eqb_spec r 0); [by destruct Hf |]. cbn [negb].
  assert (Hr : heap_blocks m1 !! r = Some d) by (rewrite Hb; apply lookup_insert_eq).
  destruct (write_map m1 r d 0 (replicate (Z.to_nat n) 0) Hi1 Hr) as [Hi2 Hb2]; [lia | len |].
  assert (Ew : heap_write m1 r 0 (replicate (Z.to_nat n) 0) = set_heap (memset (sm_heap m1) (r - heap_ptr m1) 0 n) m1).
  { unfold heap_write. f_equal. unfold memset, memcpy. rewrite Z.add_0_r.
    assert (blen (replicate (Z.to_nat n) 0) = n) as -> by len. change (Z.to_nat 0) with 0%nat. rewrite drop_0.
    by rewrite (take_ge (replicate (Z.to_nat n) 0)) by (rewrite length_replicate; lia). }
  rewrite <-Ew. exists r, (heap_write m1 r 0 (replicate (Z.to_nat n) 0)). split_and!; try done. right.
  exists (memcpy d 0 (replicate (Z.to_nat n) 0) 0 (blen (replicate (Z.to_nat n) 0))).
  assert (Hbl : blen (replicate (Z.to_nat n) 0) = n) by len. rewrite Hbl in *.
  assert (Hlen : length (memcpy d 0 (replicate (Z.to_nat n) 0) 0 n) = length d) by (apply memcpy_length; lia).
  split_and!; [lia | unfold blen in *; lia | | | by rewrite Hb2, Hb, insert_insert_eq].
  - unfold memcpy. change (Z.to_nat 0) with 0%nat. rewrite take_0, drop_0. cbn [app].
    rewrite take_app_le by (rewrite length_take, length_replicate; lia). rewrite take_take, Nat.min_id. apply take_ge. by rewrite length_replicate.
  - destruct Hf as (? & ? & ? & Hf). split_and!; try done. intros q e Hq. unfold blen. rewrite Hlen. by apply Hf.
Qed.

(** Every permitted call returns with the allocator's result, and keeps the invariant. *)
Lemma call_ok m c :
  smem_inv m → permitted (heap_blocks m) c →
  ∃ r m', run_call m c = Some (r, m') ∧ smem_inv m' ∧ allocator (heap_blocks m) c r (heap_blocks m').
Proof.
  intros Hi Hp. destruct c as [size | count size | p size | p | p i b]; cbn [run_call permitted allocator] in *.
  - destruct (malloc_allocated m size Hi Hp) as (r & m' & E & Hi' & _ & Hres). exists r, m'. split_and!; try done.
    destruct Hres as [? | (d & ? & ? & ?)]; [by left |]. right. by exists d.
  - destruct Hp as (? & ? & ?). by apply calloc_allocated.
  - destruct Hp as [Hp Hs]. unfold rt_realloc. destruct (Z.eqb_spec size 0) as [-> | Hne].
    { destruct (free_allocated m p Hi Hp) as (m' & E & Hi' & Hb). exists 0, m'. unfold rt_smem_realloc.
      change (RT_ALIGN 0 RT_ALIGN_SIZE) with 0. destruct (Z.ltb_spec (mem_size_aligned m) 0) as [Hneg|].
      - exfalso. destruct Hi as (self & hp & E' & mx & h & bs & G & _ & ->). pose proof (ge_E _ _ _ G). simpl in Hneg. lia.
      - cbn [Z.eqb]. by rewrite E. }
    destruct (Z.eqb_spec p 0) as [-> | Hp0].
    + pose proof (round_8 size ltac:(lia)) as [Hr Hr8]. set (ns := (size + 7) / 8 * 8) in *.
      destruct (malloc_allocated m ns Hi ltac:(lia)) as (r & m' & E & Hi' & _ & Hres).
      unfold rt_smem_realloc, RT_ALIGN_SIZE. rewrite RT_ALIGN_8 by lia. fold ns.
      destruct (Z.ltb_spec (mem_size_aligned m) ns). { exists 0, m. split_and!; try done. by left. }
      destruct (Z.eqb_spec ns 0); [lia |]. cbn [Z.eqb]. exists r, m'. split_and!; try done.
      destruct Hres as [? | (d & ? & ? & ?)]; [by left |]. right. exists d. split_and!; try done; lia.
    + destruct Hp as [? | [d Hd]]; [done |]. destruct (realloc_map m p d size Hi Hd ltac:(lia)) as (r & m' & E & Hi' & _ & Hres).
      exists r, m'. split_and!; try done. destruct Hres as [[-> ->] | (d' & ? & ? & ? & ?)]; [by left |]. right. by exists d, d'.
  - unfold rt_free. destruct (free_allocated m p Hi Hp) as (m' & E & Hi' & Hb). exists 0, m'. split_and!; try done.
    destruct (Z.eqb_spec p 0) as [-> | _]; [|by rewrite E]. simpl in E. injection E as ->. done.
  - destruct Hp as (d & Hd & Hi0 & Hl). destruct (write_map m p d i b Hi Hd Hi0 Hl) as [Hi' Hb].
    exists 0, (heap_write m p i b). split_and!; try done. by exists d.
Qed.

Lemma reach_inv m : heap_reach m → smem_inv m.
Proof.
  induction 1 as [begin_addr size ram m Hb Hs Hu Hl E | m c r m' Hr IH Hp E].
  - by eapply init_inv.
  - destruct (call_ok m c IH Hp) as (r1 & m1 & E1 & Hi & _). rewrite E in E1. by injection E1 as -> ->.
Qed.

(** C2. The heap is an allocator: after any sequence of permitted calls on an initialised heap
    every further one returns (no assertion fails, no loop runs on); a failed request leaves
    all blocks as they were; a new block is aligned, large enough and apart from all others;
    rt_calloc clears it; rt_realloc keeps the common prefix; a release removes the block; no
    call changes the contents of another block; and the blocks in use never overlap. *)
Theorem heap_refines_allocator (m : rt_small_mem) (c : call)
    (Hreach : heap_reach m) (Hperm : permitted (heap_blocks m) c) :
  ∃ r m', run_call m c = Some (r, m') ∧ allocator (heap_blocks m) c r (heap_blocks m') ∧ apart (heap_blocks m').
Proof.
  destruct (call_ok m c (reach_inv m Hreach) Hperm) as (r & m' & E & Hi & Ha). exists r, m'. split_and!; try done.
  by apply inv_apart.
Qed.

(** C15. A request fails only for lack of room: if rt_malloc returns NULL, the heap is as it
    was and every stretch of the heap as long as the rounded request with its header meets a
    block in use (free neighbours are always merged, and the search misses no block); so a
    heap without blocks serves every request up to its size. *)
Theorem heap_alloc_complete (m m' : rt_small_mem) (size : Z)
    (Hreach : heap_reach m) (Hsize : 0 < size ≤ 4294967288) (Hfail : rt_malloc m size = Some (0, m')) :
  m' = m ∧ no_room m (16 + need size) ∧ (heap_blocks m = ∅ → mem_size_aligned m < need size).
Proof.
  destruct (alloc_map m size (reach_inv m Hreach) Hsize) as (r & m1 & E & _ & _ & _ & Hres).
  unfold rt_malloc in Hfail. rewrite E in Hfail. injection Hfail as -> ->.
  destruct Hres as [(_ & -> & Hroom) | (d & _ & (? & _) & _)]; [|done]. split_and!; try done.
  intros Hemp. destruct (reach_inv m Hreach) as (self & hp & E' & mx & h & bs & G & Hi & ->). simpl.
  destruct (Z.lt_ge_cases (E' - 16) (need size)) as [|Hge]; [done |]. exfalso.
  destruct (Hroom hp) as (q & d & Hq & _); [simpl; lia | simpl; lia |]. by rewrite Hemp in Hq.
Qed.

(** C25. Releasing a block twice is caught: the second rt_free of the same address, with no
    call in between, runs into an assertion, also when the block was merged with a neighbour. *)
Theorem heap_double_free (m : rt_small_mem) (p : Z) (d : list Z)
    (Hreach : heap_reach m) (Hp : heap_blocks m !! p = Some d) :
  ∃ m', rt_free m p = Some m' ∧ heap_blocks m' = delete p (heap_blocks m) ∧ rt_free m' p = None.
Proof.
  pose proof (reach_inv m Hreach) as Hi. destruct (free_map m p d Hi Hp) as (m' & E & _ & _ & Hb & Hagain).
  pose proof (block_nonzero m p d Hi Hp). exists m'. unfold rt_free. destruct (Z.eqb_spec p 0); [lia |]. done.
Qed.

(** Sizes near the end of the address range are not refused: rounding them up gives 0, so that
    a request for 4 GB gets the smallest block, and resizing to it releases the block. *)
Theorem heap_size_wraps (m : rt_small_mem) (p size : Z) :
  4294967289 ≤ size < 4294967296 →
  rt_malloc m size = rt_malloc m 1 ∧ rt_realloc m p size = rt_realloc m p 0.
Proof.
  intros Hs. assert (RT_ALIGN size RT_ALIGN_SIZE = 0) as E.
  { unfold RT_ALIGN, RT_ALIGN_SIZE. unfold u32 at 1. rewrite <-(Z.mod_unique_pos (size + 8 - 1) 4294967296 1 (size - 4294967289)) by lia.
    rewrite land_8 by (unfold is_u32; lia). rewrite Z.div_small; lia. }
  unfold rt_malloc, rt_realloc, rt_smem_alloc, rt_smem_realloc. rewrite E. destruct (Z.eqb_spec size 0); [lia |]. done.
Qed.

(** ** Aligned blocks *)

Lemma u32_lnot k : 0 ≤ k → u32 (Z.lnot (2 ^ k - 1)) = Z.land (Z.ones 32) (Z.lnot (Z.ones k)).
Proof.
  intros Hk. unfold u32. change 4294967296 with (2 ^ 32). rewrite <-Z.land_ones by lia. rewrite Z.land_comm.
  by rewrite (Z.ones_equiv k), Z.sub_1_r.
Qed.

Lemma RT_ALIGN_pow x k : 0 ≤ x → 0 ≤ k ≤ 32 → x + 2 ^ k - 1 < 4294967296 → RT_ALIGN x (2 ^ k) = (x + 2 ^ k - 1) / 2 ^ k * 2 ^ k.
Proof.
  intros Hx Hk Hu. pose proof (Z.pow_pos_nonneg 2 k ltac:(lia) ltac:(lia)). unfold RT_ALIGN.
  rewrite (u32_small (x + 2 ^ k - 1)) by (unfold is_u32; lia). rewrite u32_lnot by lia. apply land_high; [unfold is_u32; lia | done].
Qed.

(** Rounding up to a positive [a]. *)
Lemma round_up x a : 0 ≤ x → 0 < a → x ≤ (x + a - 1) / a * a < x + a ∧ (a | (x + a - 1) / a * a).
Proof.
  intros Hx Ha. pose proof (Z.div_mod (x + a - 1) a ltac:(lia)). pose proof (Z.mod_pos_bound (x + a - 1) a Ha).
  split; [lia | by exists ((x + a - 1) / a)].
Qed.

(** A word of a block. *)
Lemma block_word m p d i :
  smem_inv m → heap_blocks m !! p = Some d → 0 ≤ i → i + 4 ≤ blen d → rd m (p + i) = load_u32 d i.
Proof.
  intros Hi Hp Hi0 Hl. destruct (inv_lookup m p d Hi Hp) as (self & hp & E & mx & h & bs1 & n & bs2 & G & Hin & -> & -> & ->).
  pose proof (in_heap _ _ _ _ _ Hin) as H. destruct (chain_hdr _ _ _ _ _ _ _ H) as (_ & _ & _ & Hn & _ & Ho & _ & HE & Ht).
  pose proof (ha_len _ _ _ _ H) as Hlh. rewrite blen_data in Hl by lia.
  unfold rd. cbn [heap_obj obj sm_heap heap_ptr]. unfold load_u32, data. f_equal. apply list_eq. intros j.
  destruct (decide (j < 4)%nat).
  - rewrite !lookup_take_lt by lia. rewrite !lookup_drop, lookup_take_lt by lia. rewrite lookup_drop. f_equal. lia.
  - rewrite !lookup_ge_None_2; [done | |]; rewrite length_take; lia.
Qed.

(** The address behind [ptr] that [rt_malloc_align] returns. *)
Lemma align_address ptr k :
  (8 | ptr) → 0 < ptr → 2 ≤ k ≤ 30 → ptr + 2 ^ k < 4294967296 →
  let r := if Z.land ptr (u32 (2 ^ k - 1)) =? 0 then u32 (ptr + 2 ^ k)
           else Z.land (u32 (ptr + (2 ^ k - 1))) (u32 (Z.lnot (2 ^ k - 1))) in
  (2 ^ k | r) ∧ ptr + 4 ≤ r ≤ ptr + 2 ^ k.
Proof.
  intros H8 Hp Hk Hu. pose proof (Z.pow_le_mono_r 2 2 k ltac:(lia) ltac:(lia)) as H4. change (2 ^ 2) with 4 in H4.
  pose proof (Z.pow_le_mono_r 2 k 30 ltac:(lia) ltac:(lia)) as H30. change (2 ^ 30) with 1073741824 in H30.
  rewrite (u32_small (2 ^ k - 1)) by (unfold is_u32; lia). assert (Hland : Z.land ptr (2 ^ k - 1) = ptr mod 2 ^ k)
    by (by rewrite Z.sub_1_r, <-Z.ones_equiv, Z.land_ones by lia).
  rewrite Hland.
  destruct (Z.eqb_spec (ptr mod 2 ^ k) 0) as [Hz|Hnz]; cbv zeta.
  - rewrite u32_small by (unfold is_u32; lia). split; [|lia]. apply Z.divide_add_r; [by apply Z.mod_divide; [lia |] | done].
  - rewrite u32_lnot by lia. rewrite (u32_small (ptr + (2 ^ k - 1))) by (unfold is_u32; lia). rewrite land_high by (unfold is_u32; lia).
    replace (ptr + (2 ^ k - 1)) with (ptr + 2 ^ k - 1) by lia. pose proof (round_up ptr (2 ^ k) ltac:(lia) ltac:(lia)) as [Hr Hd].
    split; [done |]. assert (Hk3 : k = 2 ∨ 3 ≤ k) by lia. destruct Hk3 as [-> | Hk3].
    { exfalso. apply Hnz. destruct H8 as [q ->]. change (2 ^ 2) with 4. replace (q * 8) with ((q * 2) * 4) by lia. by apply Z.mod_mul. }
    assert (H8k : (8 | 2 ^ k)). { exists (2 ^ (k - 3)). change 8 with (2 ^ 3). rewrite <-Z.pow_add_r by lia. f_equal. lia. }
    assert (H8r : (8 | (ptr + 2 ^ k - 1) / 2 ^ k * 2 ^ k)) by (etrans; [exact H8k | exact Hd]).
    set (r := (ptr + 2 ^ k - 1) / 2 ^ k * 2 ^ k) in *. assert (ptr ≠ r). { intros E. apply Hnz. rewrite E. by apply Z.mod_divide; [lia |]. }
    destruct H8 as [q ->], H8r as [q' Hq']. lia.
Qed.

(** rt_malloc_align returns an address that is a multiple of the requested power of two
    with the requested number of bytes behind it inside one block, apart from all other
    blocks, and rt_free_align on it releases exactly this block again. *)
Theorem heap_align_roundtrip (m m' : rt_small_mem) (size k r : Z)
    (Hreach : heap_reach m) (Hk : 2 ≤ k ≤ 30) (Hsize : 0 < size ≤ 2147483648)
    (Hcall : rt_malloc_align m size (2 ^ k) = Some (r, m')) (Hok : r ≠ 0) :
  (2 ^ k | r)
  ∧ (∃ p d, fresh (heap_blocks m) p d ∧ heap_blocks m' = <[p := d]> (heap_blocks m) ∧ p + 4 ≤ r ∧ r + size ≤ p + blen d)
  ∧ ∃ m'', rt_free_align m' r = Some m'' ∧ heap_blocks m'' = heap_blocks m.
Proof.
  pose proof (reach_inv m Hreach) as Hi. pose proof (Z.pow_le_mono_r 2 2 k ltac:(lia) ltac:(lia)) as H4. change (2 ^ 2) with 4 in H4.
  pose proof (Z.pow_le_mono_r 2 k 30 ltac:(lia) ltac:(lia)) as H30. change (2 ^ 30) with 1073741824 in H30.
  pose proof (round_up size 4 ltac:(lia) ltac:(lia)) as [Hs4 _]. set (s4 := (size + 4 - 1) / 4 * 4) in *.
  assert (Ea : RT_ALIGN (2 ^ k) 4 = 2 ^ k).
  { change 4 with (2 ^ 2). rewrite RT_ALIGN_pow by (simpl; lia). change (2 ^ 2) with 4. replace k with (k - 2 + 2) by lia. rewrite Z.pow_add_r by lia.
    change (2 ^ 2) with 4. set (x := 2 ^ (k - 2)). rewrite <-(Z.div_unique_pos (x * 4 + 4 - 1) 4 x 3); lia. }
  assert (Es : RT_ALIGN size 4 = s4). { change 4 with (2 ^ 2). rewrite RT_ALIGN_pow by (simpl; lia). done. }
  unfold rt_malloc_align in Hcall. rewrite Ea, Es, (u32_small (s4 + 2 ^ k)) in Hcall by (unfold is_u32; lia).
  destruct (malloc_allocated m (s4 + 2 ^ k) Hi ltac:(lia)) as (p & m1 & E & Hi1 & Ehp & Hres). rewrite E in Hcall. cbn [mbind option_bind] in Hcall.
  destruct Hres as [[-> _] | (d & Hd & Hf & Hb)]; [cbn [Z.eqb negb] in Hcall; by injection Hcall as <- <- |].
  pose proof Hf as (Hp0 & Hp8 & Hnone & Hapart). destruct (Z.eqb_spec p 0); [done |]. cbn [negb] in Hcall. injection Hcall as <- <-.
  assert (Hp1 : heap_blocks m1 !! p = Some d) by (rewrite Hb; apply lookup_insert_eq).
  assert (Hpb : 0 < p ∧ p + blen d < 4294967296).
  { split; [by eapply block_nonzero |]. destruct (inv_lookup m1 p d Hi1 Hp1) as (self & hp & E' & mx & h & bs1 & n' & bs2 & G & Hin & -> & -> & ->).
    pose proof (in_heap _ _ _ _ _ Hin) as H. destruct (chain_hdr _ _ _ _ _ _ _ H) as (_ & _ & _ & Hn & _ & Ho & _ & HE & Ht).
    pose proof (ge_fit _ _ _ G). rewrite blen_data by (rewrite ?(ha_len _ _ _ _ H); lia). lia. }
  destruct (align_address p k Hp8 ltac:(lia) Hk ltac:(lia)) as [Hdiv Hrange]. set (r := if _ =? 0 then _ else _) in *.
  assert (Ew : wr (r - 4) p m1 = heap_write m1 p (r - 4 - p) (le32 p)).
  { unfold wr, heap_write, store_u32. do 2 f_equal. lia. }
  assert (Hl4 : blen (le32 p) = 4) by done.
  destruct (write_map m1 p d (r - 4 - p) (le32 p) Hi1 Hp1 ltac:(lia) ltac:(lia)) as [Hi2 Hb2]. rewrite Ew. rewrite Hl4 in Hb2.
  set (d' := memcpy d (r - 4 - p) (le32 p) 0 4) in *. assert (Hld : length d' = length d) by (apply memcpy_length; lia).
  split_and!; [done | |].
  - exists p, d'. split_and!; [| by rewrite Hb2, Hb, insert_insert_eq | lia | unfold blen in *; lia].
    split_and!; try done. intros q e Hq. unfold blen. rewrite Hld. by apply Hapart.
  - assert (Hp2 : heap_blocks (heap_write m1 p (r - 4 - p) (le32 p)) !! p = Some d') by (rewrite Hb2; apply lookup_insert_eq).
    destruct (free_map _ p d' Hi2 Hp2) as (m'' & Ef & _ & _ & Hb'' & _). exists m''. split.
    + unfold rt_free_align, rt_free. destruct (Z.eqb_spec r 0); [lia |].
      pose proof (block_word _ p d' (r - 4 - p) Hi2 Hp2 ltac:(lia) ltac:(unfold blen in *; lia)) as Hw.
      replace (p + (r - 4 - p)) with (r - 4) in Hw by lia. rewrite Hw.
      unfold d'. change (memcpy d (r - 4 - p) (le32 p) 0 4) with (store_u32 d (r - 4 - p) p).
      rewrite load_store_eq by (unfold is_u32; lia). destruct (Z.eqb_spec p 0); [done |]. exact Ef.
    + by rewrite Hb'', Hb2, Hb, insert_insert_eq, delete_insert_id.
Qed.

(** ** A heap of 256 bytes *)

Definition no_heap : rt_small_mem := mk_smem 0 0 0 0 0 0 0 0 [].
Definition demo_heap : rt_small_mem := default no_heap (rt_smem_init 0x20000000 256 (replicate 200 0)).
Definition demo_block : rt_small_mem := snd (default (0, no_heap) (rt_malloc demo_heap 20)).

Lemma demo_heap_reach : heap_reach demo_heap.
Proof. by apply (reach_init 0x20000000 256 (replicate 200 0)). Qed.

Lemma demo_block_reach : heap_reach demo_block.
Proof.
  apply (reach_call demo_heap (Malloc 20) 0x20000048 demo_block demo_heap_reach); [simpl; lia | vm_compute; reflexivity].
Qed.

Lemma heap_refines_allocator_witness :
  ∃ r m', run_call demo_heap (Malloc 20) = Some (r, m') ∧ allocator (heap_blocks demo_heap) (Malloc 20) r (heap_blocks m').
Proof.
  destruct (heap_refines_allocator demo_heap (Malloc 20) demo_heap_reach) as (r & m' & E & H & _); [simpl; lia |].
  exact (ex_intro _ r (ex_intro _ m' (conj E H))).
Defined.

Lemma heap_alloc_complete_witness : rt_malloc demo_block 160 = Some (0, demo_block) ∧ no_room demo_block (16 + need 160).
Proof.
  assert (Hf : rt_malloc demo_block 160 = Some (0, demo_block)) by (vm_compute; reflexivity).
  destruct (heap_alloc_complete demo_block demo_block 160 demo_block_reach ltac:(lia) Hf) as (_ & H & _).
  exact (conj Hf H).
Defined.

Lemma heap_double_free_witness :
  ∃ m', rt_free demo_block 0x20000048 = Some m' ∧ rt_free m' 0x20000048 = None.
Proof.
  destruct (heap_double_free demo_block 0x20000048 (replicate 24 0) demo_block_reach ltac:(vm_compute; reflexivity)) as (m' & E & _ & E').
  exact (ex_intro _ m' (conj E E')).
Defined.

Lemma heap_align_roundtrip_witness :
  ∃ m' m'', rt_malloc_align demo_block 10 (2 ^ 5) = Some (0x20000080, m') ∧ (2 ^ 5 | 0x20000080)
    ∧ rt_free_align m' 0x20000080 = Some m''.
Proof.
  destruct (rt_malloc_align demo_block 10 (2 ^ 5)) as [[r m']|] eqn:E; [|vm_compute in E; discriminate].
  assert (r = 0x20000080) as -> by (vm_compute in E; congruence).
  destruct (heap_align_roundtrip demo_block m' 10 5 0x20000080 demo_block_reach ltac:(lia) ltac:(lia) E ltac:(lia)) as (Hd & _ & m'' & Ef & _).
  exact (ex_intro _ m' (ex_intro _ m'' (conj eq_refl (conj Hd Ef)))).
Defined.
