(* ===== verification/Sem.v ===== *)
(** Counting semaphores (rt-thread/src/ipc.c): every operation on a semaphore, the
    machine of threads, interrupts and timers that use one, and its correctness. *)

From S2P Require Import Prelude.
From S2P Require Import RtDef.
From S2P Require Import Kernel.
Open Scope Z_scope.

(** * The object and its operations *)

(** [sem_flag] is the flag of the parent object. *)
Record rt_semaphore : Type := mk_sem {
  value : Z;
  max_value : Z;
  sem_flag : Z;
  suspend_thread : list nat
}.

Definition set_value (sem : rt_semaphore) (v : Z) : rt_semaphore :=
  mk_sem v (max_value sem) (sem_flag sem) (suspend_thread sem).
Definition set_list (sem : rt_semaphore) (l : list nat) : rt_semaphore :=
  mk_sem (value sem) (max_value sem) (sem_flag sem) l.

Definition _sem_object_init (value flag max_value : Z) : rt_semaphore :=
  mk_sem (u16 value) (u16 max_value) flag [].

Definition rt_sem_init (value flag : Z) : Z * rt_semaphore :=
  (RT_EOK, _sem_object_init value flag RT_SEM_VALUE_MAX).

(** [alloc]: whether the object can be allocated. *)
Definition rt_sem_create (alloc : bool) (value flag : Z) : option rt_semaphore :=
  if negb alloc then None else Some (_sem_object_init value flag RT_SEM_VALUE_MAX).

(** Detaching and deleting resume all waiting threads; the threads resumed are part of
    the result. *)
Definition rt_sem_detach (ts : threads) (sem : rt_semaphore)
    : Z * list nat * threads * rt_semaphore :=
  let '(woken, ts, l) := rt_susp_list_resume_all ts (suspend_thread sem) RT_ERROR in
  (RT_EOK, woken, ts, set_list sem l).

Definition rt_sem_delete (ts : threads) (sem : rt_semaphore)
    : Z * list nat * threads * rt_semaphore :=
  let '(woken, ts, l) := rt_susp_list_resume_all ts (suspend_thread sem) RT_ERROR in
  (RT_EOK, woken, ts, set_list sem l).

(** [_rt_sem_take] up to [rt_schedule]. *)
Definition _rt_sem_take (ts : threads) (sem : rt_semaphore) (self : nat) (timeout : Z)
    : call * threads * rt_semaphore :=
  if 0 <? value sem then (Returns RT_EOK, ts, set_value sem (value sem - 1))
  else if timeout =? 0 then (Returns (- RT_ETIMEOUT), ts, sem)
  else
    let ts := upd ts self (set_error (th ts self) RT_EINTR) in
    let '(ret, ts, l) := rt_thread_suspend_to_list ts (suspend_thread sem) self (sem_flag sem) in
    if negb (ret =? RT_EOK) then (Returns ret, ts, set_list sem l)
    else
      let ts := if 0 <? timeout then upd ts self (rt_timer_start (th ts self)) else ts in
      (Blocks, ts, set_list sem l).

(** [_rt_sem_take] after [rt_schedule], when the thread runs again. *)
Definition sem_take_resume (error : Z) : Z :=
  if negb (error =? RT_EOK) then (if 0 <? error then - error else error) else RT_EOK.

Definition rt_sem_take (ts : threads) (sem : rt_semaphore) (self : nat) (time : Z)
    : call * threads * rt_semaphore :=
  _rt_sem_take ts sem self time.

Definition rt_sem_trytake (ts : threads) (sem : rt_semaphore) (self : nat)
    : call * threads * rt_semaphore :=
  rt_sem_take ts sem self RT_WAITING_NO.

Definition rt_sem_release (ts : threads) (sem : rt_semaphore)
    : Z * list nat * threads * rt_semaphore :=
  match suspend_thread sem with
  | _ :: _ =>
      let '(woken, ts, l) := rt_susp_list_dequeue ts (suspend_thread sem) RT_EOK in
      (RT_EOK, option_list woken, ts, set_list sem l)
  | [] =>
      if value sem <? max_value sem then (RT_EOK, [], ts, set_value sem (value sem + 1))
      else (- RT_EFULL, [], ts, sem)
  end.

Definition rt_sem_control (ts : threads) (sem : rt_semaphore) (cmd arg : Z)
    : Z * list nat * threads * rt_semaphore :=
  if cmd =? RT_IPC_CMD_RESET then
    let '(woken, ts, l) := rt_susp_list_resume_all ts (suspend_thread sem) RT_ERROR in
    (RT_EOK, woken, ts, set_value (set_list sem l) (u16 arg))
  else if cmd =? RT_IPC_CMD_SET_VLIMIT then
    let max := u16 arg in
    if (RT_SEM_VALUE_MAX <? max) || (max <? 1) then (- RT_EINVAL, [], ts, sem) else
    let '(woken, ts, l) :=
      if (max <? value sem) && negb (bool_decide (suspend_thread sem = []))
      then rt_susp_list_resume_all ts (suspend_thread sem) RT_ERROR
      else ([], ts, suspend_thread sem) in
    (RT_EOK, woken, ts, mk_sem (value sem) max (sem_flag sem) l)
  else (- RT_ERROR, [], ts, sem).

(** * The machine *)

(** What threads, interrupts and the timer do to a semaphore. *)
Inductive sem_op : Type :=
  | Take (t : nat) (timeout : Z)
  | Release
  | Control (cmd arg : Z)
  | Detach
  | Expire (t : nat)
  | Timeout (t : nat).

Record sem_state : Type := mk_st { st_ts : threads; st_sem : rt_semaphore }.

(** What an operation lets be seen: the result of the call, unless it blocks, and the
    threads it resumed with the results of their [rt_sem_take]. *)
Record event : Type := mk_ev { ev_ret : option Z; ev_woken : list (nat * Z) }.

Definition woken_codes (ts : threads) (woken : list nat) : list (nat * Z) :=
  (λ t, (t, sem_take_resume (t_error (th ts t)))) <$> woken.

Definition lift_call (x : Z * list nat * threads * rt_semaphore) : option (event * sem_state) :=
  let '(r, woken, ts, sem) := x in
  Some (mk_ev (Some r) (woken_codes ts woken), mk_st ts sem).

(** One operation; [None] when an assertion of the kernel fails. *)
Definition sem_exec (s : sem_state) (o : sem_op) : option (event * sem_state) :=
  let ts := st_ts s in
  let sem := st_sem s in
  match o with
  | Take t timeout =>
      let '(c, ts, sem) := rt_sem_take ts sem t timeout in
      Some (mk_ev (match c with Returns r => Some r | Blocks => None end) [], mk_st ts sem)
  | Release => lift_call (rt_sem_release ts sem)
  | Control cmd arg => lift_call (rt_sem_control ts sem cmd arg)
  | Detach => lift_call (rt_sem_detach ts sem)
  | Expire t => Some (mk_ev None [], mk_st (timer_expire ts t) sem)
  | Timeout t =>
      match _thread_timeout ts (suspend_thread sem) t with
      | Some (ts, l) => Some (mk_ev None (woken_codes ts [t]), mk_st ts (set_list sem l))
      | None => None
      end
  end.

(** No waiting thread is between the expiry of its timer and the timeout handler. *)
Definition no_window (s : sem_state) : Prop :=
  Forall (λ t, t_pend (th (st_ts s) t) = false) (suspend_thread (st_sem s)).

(** When an operation can happen: only a thread that is not suspended calls; only an
    active timer expires; the handler follows the expiry. Everything else can happen at any
    time, also between an expiry and its handler. *)
Definition enabled (s : sem_state) (o : sem_op) : Prop :=
  match o with
  | Take t _ => t_susp (th (st_ts s) t) = false
  | Expire t => t_active (th (st_ts s) t) = true
  | Timeout t => t_pend (th (st_ts s) t) = true
  | Release | Control _ _ | Detach => True
  end.

(** The operation wakes nobody inside the window of a timeout. *)
Definition quiet (s : sem_state) (o : sem_op) : Prop :=
  match o with
  | Release | Control _ _ | Detach => no_window s
  | Take _ _ | Expire _ | Timeout _ => True
  end.

Inductive sem_run : sem_state → list (sem_op * event) → sem_state → Prop :=
  | run_nil s : sem_run s [] s
  | run_step s o e s' tr s'' :
      enabled s o → sem_exec s o = Some (e, s') → sem_run s' tr s'' →
      sem_run s ((o, e) :: tr) s''.

(** No release, control or detach of the run falls in the window of a timeout. *)
Fixpoint outside_windows (s : sem_state) (tr : list (sem_op * event)) : Prop :=
  match tr with
  | [] => True
  | (o, _) :: tr =>
      quiet s o ∧ match sem_exec s o with Some (_, s) => outside_windows s tr | None => True end
  end.

(** * The invariant *)

Record sem_ok (s : sem_state) : Prop := {
  so_wait : wait_ok (st_ts s) (suspend_thread (st_sem s));
  so_flag : sem_flag (st_sem s) = RT_IPC_FLAG_FIFO ∨ sem_flag (st_sem s) = RT_IPC_FLAG_PRIO;
  so_order : prio_ordered (st_ts s) (sem_flag (st_sem s)) (suspend_thread (st_sem s));
  so_value : 0 ≤ value (st_sem s) ≤ 65535;
  so_max : 1 ≤ max_value (st_sem s) ≤ 65535;
  so_idle : 0 < value (st_sem s) → suspend_thread (st_sem s) = []
}.

Definition sumZ (l : list Z) : Z := foldr Z.add 0 l.

(** Tokens handed out by an operation: a take that succeeds at once, and waiting threads
    resumed with success. *)
Definition granted (o : sem_op) (e : event) : Z :=
  (match o, ev_ret e with Take _ _, Some 0 => 1 | _, _ => 0 end)
  + sumZ ((λ p : nat * Z, if p.2 =? RT_EOK then 1 else 0) <$> ev_woken e).

Definition posted (o : sem_op) (e : event) : Z :=
  match o, ev_ret e with Release, Some 0 => 1 | _, _ => 0 end.

(** A release is lost when the timer of the first waiting thread has expired. *)
Definition lost (s : sem_state) (o : sem_op) : Z :=
  match o, suspend_thread (st_sem s) with
  | Release, t :: _ => if timed_out (th (st_ts s) t) then 1 else 0
  | _, _ => 0
  end.

Fixpoint lost_in (s : sem_state) (tr : list (sem_op * event)) : Z :=
  match tr with
  | [] => 0
  | (o, _) :: tr =>
      lost s o + match sem_exec s o with Some (_, s) => lost_in s tr | None => 0 end
  end.

(** The value an operation sets directly. *)
Definition plain (o : sem_op) : bool :=
  match o with Control _ _ | Detach => false | _ => true end.

(** ** Each operation keeps the invariant and accounts for its tokens *)

Definition balance (s s' : sem_state) (o : sem_op) (e : event) : Prop :=
  plain o = true → value (st_sem s') + granted o e = value (st_sem s) + posted o e.

(** Outcome of a step. *)
Definition step_good (s : sem_state) (o : sem_op) : Prop :=
  ∃ e s', sem_exec s o = Some (e, s') ∧ sem_ok s' ∧ balance s s' o e.

Lemma take_good s t timeout : sem_ok s → enabled s (Take t timeout) → step_good s (Take t timeout).
Proof.
  intros Hok Hen. pose proof Hok as [Hw Hf Ho Hv Hm Hi]. destruct s as [ts sem]. simpl in *.
  unfold step_good. simpl. unfold rt_sem_take, _rt_sem_take.
  destruct (Z.ltb_spec 0 (value sem)) as [Hpos|Hz].
  - eexists _, _. split; [done |]. split.
    + constructor; simpl; try done; [lia |]. intros _. by apply Hi.
    + intros _. unfold granted, posted. simpl. lia.
  - destruct (Z.eqb_spec timeout 0) as [->|Hto].
    { eexists _, _. split; [done |]. split; [done |]. intros _. unfold granted, posted.
simpl. lia. }
    assert (t ∉ suspend_thread sem) as Ht by (by apply (not_susp ts)).
    destruct (block_spec ts _ (suspend_thread sem) t (sem_flag sem) RT_EINTR timeout Hw Ht Hf)
      as (ts1 & -> & Hb). simpl. destruct Hb as (Hw2 & Hs2 & _ & _).
    eexists _, _. split; [done |]. split.
    + constructor; simpl; try done; [| | lia].
      * eapply wait_ok_perm; [|exact Hw2]. apply NoDup_Permutation.
        -- by apply NoDup_cons; split; [|apply Hw].
        -- apply enqueue_NoDup; [done | apply Hw | done].
        -- intros u. rewrite enqueue_elem by done. set_solver.
      * eapply prio_ordered_same; [exact Hs2 |]. by apply enqueue_ordered.
    + intros _. unfold granted, posted. simpl. lia.
Qed.

(** All waiting threads resumed with an error. *)
Lemma resume_all_good ts l v m f :
  wait_ok ts l → Forall (λ t, t_pend (th ts t) = false) l → f = RT_IPC_FLAG_FIFO ∨ f = RT_IPC_FLAG_PRIO →
  0 ≤ v ≤ 65535 → 1 ≤ m ≤ 65535 →
  ∃ ts', rt_susp_list_resume_all ts l RT_ERROR = (l, ts', []) ∧ sem_ok (mk_st ts' (mk_sem v m f [])).
Proof.
  intros Hw Hp Hf Hv Hm.
  destruct (resume_all_spec ts l [] RT_ERROR) as (ts' & E & Hw' & _); [by rewrite app_nil_r | done | done |].
  exists ts'. split; [done |]. constructor; simpl; try done. intros _. constructor.
Qed.

Lemma release_good s : sem_ok s → quiet s Release → step_good s Release.
Proof.
  intros Hok Hen. pose proof Hok as [Hw Hf Ho Hv Hm Hi]. destruct s as [ts sem].
  unfold quiet, no_window in Hen. unfold step_good. simpl in *. unfold rt_sem_release.
  destruct (suspend_thread sem) as [|t l] eqn:El.
  - destruct (Z.ltb_spec (value sem) (max_value sem)); eexists _, _; (split; [done |]); split.
    + constructor; simpl; rewrite ?El; try done; lia.
    + intros _. unfold granted, posted. simpl. lia.
    + constructor; simpl; rewrite ?El; try done; lia.
    + intros _. unfold granted, posted. simpl. lia.
  - apply Forall_cons in Hen as [Hpt _].
    destruct (dequeue_spec ts t l [] RT_EOK) as (ts' & -> & Hw' & Hs' & He' & _);
      [by rewrite app_nil_r | done | done |].
    rewrite app_nil_r in Hw'. simpl. eexists _, _. split; [done |]. split.
    + constructor; simpl; try done.
      * eapply prio_ordered_same; [done |]. intros Hp. specialize (Ho Hp).
        by apply StronglySorted_inv in Ho as [? _].
      * intros Hpos. specialize (Hi Hpos). done.
    + intros _. unfold granted, posted. simpl. rewrite He'. simpl. lia.
Qed.

Lemma control_good s cmd arg : sem_ok s → quiet s (Control cmd arg) → step_good s (Control cmd arg).
Proof.
  intros Hok Hen. pose proof Hok as [Hw Hf Ho Hv Hm Hi]. destruct s as [ts sem].
  unfold quiet, no_window in Hen. unfold step_good. simpl in *. unfold rt_sem_control.
  assert (0 ≤ u16 arg ≤ 65535) as Ha.
  { unfold u16. pose proof (Z.mod_pos_bound arg 65536). lia. }
  destruct (cmd =? RT_IPC_CMD_RESET).
  { destruct (resume_all_good ts (suspend_thread sem) (u16 arg) (max_value sem) (sem_flag sem))
      as (ts' & -> & Hok'); [done | done | done | lia | lia |]. by eexists _, _. }
  destruct (cmd =? RT_IPC_CMD_SET_VLIMIT); [|by eexists _, _].
  destruct ((RT_SEM_VALUE_MAX <? u16 arg) || (u16 arg <? 1)) eqn:Hr; [by eexists _, _ |].
  apply orb_false_iff in Hr as [_ Hr%Z.ltb_ge].
  destruct ((u16 arg <? value sem) && _).
  - destruct (resume_all_good ts (suspend_thread sem) (value sem) (u16 arg) (sem_flag sem))
      as (ts' & -> & Hok'); [done | done | done | lia | lia |]. by eexists _, _.
  - eexists _, _. split; [done |]. split; [constructor; simpl; done || lia | done].
Qed.

Lemma detach_good s : sem_ok s → quiet s Detach → step_good s Detach.
Proof.
  intros Hok Hen. pose proof Hok as [Hw Hf Ho Hv Hm Hi]. destruct s as [ts sem].
  unfold quiet, no_window in Hen. unfold step_good. simpl in *. unfold rt_sem_detach.
  destruct (resume_all_good ts (suspend_thread sem) (value sem) (max_value sem) (sem_flag sem))
    as (ts' & -> & Hok'); [done | done | done | lia | lia |]. by eexists _, _.
Qed.

Lemma expire_good s t : sem_ok s → enabled s (Expire t) → step_good s (Expire t).
Proof.
  intros Hok Hen. pose proof Hok as [Hw Hf Ho Hv Hm Hi]. destruct s as [ts sem]. simpl in *.
  destruct (expire_spec ts _ t Hw Hen) as [_ Hw']. eexists _, _. split; [done |]. split.
  - constructor; simpl; try done. eapply prio_ordered_same; [|done]. by apply same_prio_upd.
  - intros _. unfold granted, posted. simpl. lia.
Qed.

Lemma timeout_good s t : sem_ok s → enabled s (Timeout t) → step_good s (Timeout t).
Proof.
  intros Hok Hen. pose proof Hok as [Hw Hf Ho Hv Hm Hi]. destruct s as [ts sem]. simpl in *.
  destruct (timeout_spec ts _ (suspend_thread sem) t Hw Hen) as (x & E & Hin & Hx & Hpr & Hw').
  unfold step_good. simpl. rewrite E. eexists _, _. split; [done |]. split.
  - constructor; simpl; try done.
    + apply prio_ordered_remove. eapply prio_ordered_same; [|done]. by apply same_prio_upd.
    + intros Hpos. by rewrite (Hi Hpos).
  - intros _. unfold granted, posted. simpl. rewrite th_upd_eq, Hx. simpl. lia.
Qed.

Lemma step_ok s o : sem_ok s → enabled s o → quiet s o → step_good s o.
Proof.
  destruct o; intros; auto using take_good, release_good, control_good, detach_good, expire_good, timeout_good.
Qed.

(** ** Any state, also between an expiry and its handler *)

Record sem_any (s : sem_state) : Prop := {
  sa_wait : wait_any (st_ts s) (suspend_thread (st_sem s));
  sa_flag : sem_flag (st_sem s) = RT_IPC_FLAG_FIFO ∨ sem_flag (st_sem s) = RT_IPC_FLAG_PRIO;
  sa_value : 0 ≤ value (st_sem s) ≤ 65535;
  sa_max : 1 ≤ max_value (st_sem s) ≤ 65535
}.

Lemma sem_ok_any s : sem_ok s → sem_any s.
Proof. intros []. constructor; try done. by apply wait_any_ok. Qed.

(** What a step does to the tokens, lost ones included. *)
Definition balance_any (s s' : sem_state) (o : sem_op) (e : event) : Prop :=
  plain o = true → value (st_sem s') + granted o e + lost s o = value (st_sem s) + posted o e.

Definition step_any (s : sem_state) (o : sem_op) : Prop :=
  ∃ e s', sem_exec s o = Some (e, s') ∧ sem_any s' ∧ balance_any s s' o e.

Lemma take_any s t timeout : sem_any s → t_susp (th (st_ts s) t) = false → step_any s (Take t timeout).
Proof.
  intros Hok Hen. pose proof Hok as [Hw Hf Hv Hm]. destruct s as [ts sem]. simpl in *.
  unfold step_any, balance_any, granted, posted. simpl. unfold rt_sem_take, _rt_sem_take.
  destruct (Z.ltb_spec 0 (value sem)) as [Hpos|Hz].
  { eexists _, _. split; [done |]. split; [constructor; simpl; done || lia | intros _; simpl; lia]. }
  destruct (Z.eqb_spec timeout 0) as [->|Hto].
  { eexists _, _. split; [done |]. split; [done | intros _; simpl; lia]. }
  destruct (suspend_any (upd ts t (set_error (th ts t) RT_EINTR)) (suspend_thread sem) t (sem_flag sem) timeout)
    as (ts1 & l' & -> & Hl & Hw2 & _); [by apply wait_any_error | by apply (any_not_susp ts) | done |].
  simpl. eexists _, _. split; [done |]. split; [|intros _; simpl; lia].
  constructor; simpl; try done. by apply (wait_any_perm _ (t :: suspend_thread sem)).
Qed.

Lemma release_any s : sem_any s → step_any s Release.
Proof.
  intros Hok. pose proof Hok as [Hw Hf Hv Hm]. destruct s as [ts sem]. unfold step_any, balance_any, lost. simpl in *.
  unfold rt_sem_release. destruct (suspend_thread sem) as [|t l] eqn:El.
  - destruct (Z.ltb_spec (value sem) (max_value sem)); eexists _, _; (split; [done |]); split;
      try (intros _; unfold granted, posted; simpl; lia); constructor; simpl; rewrite ?El; done || lia.
  - destruct (dequeue_any ts t l RT_EOK Hw) as (ts' & _ & _ & Hd); [done |].
    destruct (timed_out (th ts t)).
    + destruct Hd as (-> & Hw' & _). simpl. eexists _, _. split; [done |]. split; [by constructor |].
      intros _. unfold granted, posted. simpl. lia.
    + destruct Hd as (-> & Hw' & He & _). simpl. eexists _, _. split; [done |]. split; [by constructor |].
      intros _. unfold granted, posted. simpl. rewrite He. simpl. lia.
Qed.

Lemma resume_any ts l v m f :
  wait_any ts l → f = RT_IPC_FLAG_FIFO ∨ f = RT_IPC_FLAG_PRIO → 0 ≤ v ≤ 65535 → 1 ≤ m ≤ 65535 →
  ∃ woken ts' l', rt_susp_list_resume_all ts l RT_ERROR = (woken, ts', l') ∧ sem_any (mk_st ts' (mk_sem v m f l')).
Proof.
  intros Hw Hf Hv Hm. destruct (resume_all_any ts l RT_ERROR Hw) as (woken & ts' & l' & E & _ & Hw' & _); [done |].
  exists woken, ts', l'. split; [done |]. by constructor.
Qed.

Lemma control_any s cmd arg : sem_any s → step_any s (Control cmd arg).
Proof.
  intros Hok. pose proof Hok as [Hw Hf Hv Hm]. destruct s as [ts sem]. unfold step_any, balance_any. simpl in *. unfold rt_sem_control.
  assert (0 ≤ u16 arg ≤ 65535) as Ha.
  { unfold u16. pose proof (Z.mod_pos_bound arg 65536). lia. }
  destruct (cmd =? RT_IPC_CMD_RESET).
  { destruct (resume_any ts (suspend_thread sem) (u16 arg) (max_value sem) (sem_flag sem))
      as (w & ts' & l' & -> & Hok'); [done | done | lia | lia |]. by eexists _, _. }
  destruct (cmd =? RT_IPC_CMD_SET_VLIMIT); [|by eexists _, _].
  destruct ((RT_SEM_VALUE_MAX <? u16 arg) || (u16 arg <? 1)) eqn:Hr; [by eexists _, _ |].
  apply orb_false_iff in Hr as [_ Hr%Z.ltb_ge].
  destruct ((u16 arg <? value sem) && _).
  - destruct (resume_any ts (suspend_thread sem) (value sem) (u16 arg) (sem_flag sem))
      as (w & ts' & l' & -> & Hok'); [done | done | lia | lia |]. by eexists _, _.
  - eexists _, _. split; [done |]. split; [constructor; simpl; done || lia | done].
Qed.

Lemma detach_any s : sem_any s → step_any s Detach.
Proof.
  intros [Hw Hf Hv Hm]. destruct s as [ts sem]. unfold step_any. simpl in *. unfold rt_sem_detach.
  destruct (resume_any ts (suspend_thread sem) (value sem) (max_value sem) (sem_flag sem))
    as (w & ts' & l' & -> & Hok'); [done | done | lia | lia |]. by eexists _, _.
Qed.

Lemma timer_any s t :
  sem_any s → step_any s (Expire t) ∧ (t_susp (th (st_ts s) t) = true → step_any s (Timeout t)).
Proof.
  intros [Hw Hf Hv Hm]. destruct s as [ts sem]. unfold step_any, balance_any, granted, posted. simpl in *. split.
  - eexists _, _. split; [done |]. split; [constructor; simpl; try done; by apply expire_any | intros _; simpl; lia].
  - intros Hs. pose proof (timeout_any ts _ (suspend_thread sem) t Hw) as Ht. rewrite Hs in Ht.
    destruct Ht as (x & -> & He & _ & _ & Hw'). eexists _, _. split; [done |]. split; [by constructor |].
    intros _. simpl. rewrite th_upd_eq, He. simpl. lia.
Qed.

(** Every operation returns, but for the handler of a thread that does not wait any more. *)
Lemma step_any_ok s o :
  sem_any s → enabled s o → (∃ t, o = Timeout t ∧ t_susp (th (st_ts s) t) = false ∧ sem_exec s o = None) ∨ step_any s o.
Proof.
  intros Hok Hen. destruct o as [t timeout | | cmd arg | | t | t].
  - right. by apply take_any.
  - right. by apply release_any.
  - right. by apply control_any.
  - right. by apply detach_any.
  - right. by apply timer_any.
  - destruct (t_susp (th (st_ts s) t)) eqn:E; [right; by apply timer_any |]. left. exists t. split_and!; [done | done |].
    simpl. unfold _thread_timeout. by rewrite E.
Qed.

(** Over a run. *)
Lemma run_any s tr s' :
  sem_any s → sem_run s tr s' → sem_any s'
  ∧ (Forall (λ p, plain p.1 = true) tr →
     value (st_sem s') + sumZ ((λ p, granted p.1 p.2) <$> tr) + lost_in s tr
       = value (st_sem s) + sumZ ((λ p, posted p.1 p.2) <$> tr)).
Proof.
  intros Hok Hrun. induction Hrun as [s | s o e s1 tr s2 Hen He Hrun IH]; [split; [done |]; simpl; lia |].
  destruct (step_any_ok s o Hok Hen) as [(t & _ & _ & E) | (e' & s1' & E & Hok1 & Hb)]; rewrite He in E; [done |].
  injection E as <- <-. destruct (IH Hok1) as [Hok2 Hsum]. split; [done |].
  intros [Hp Htr]%Forall_cons. specialize (Hsum Htr). specialize (Hb Hp).
  rewrite !fmap_cons. cbn [sumZ foldr lost_in]. rewrite He. unfold sumZ in *. simpl in *. lia.
Qed.

Lemma quiet_not_lost s o : sem_ok s → quiet s o → lost s o = 0.
Proof.
  intros Hok Hq. destruct o; try done. unfold lost, quiet, no_window in *.
  destruct (suspend_thread (st_sem s)) as [|t l] eqn:El; [done |]. apply Forall_cons in Hq as [Hp _].
  destruct (timed_out (th (st_ts s) t)) eqn:Et; [|done].
  rewrite (timed_out_pend (st_ts s) (t :: l)) in Hp; [done | | by left | done].
  rewrite <-El. apply wait_any_ok, Hok.
Qed.

Lemma run_quiet s tr s' : sem_ok s → sem_run s tr s' → outside_windows s tr → sem_ok s' ∧ lost_in s tr = 0.
Proof.
  intros Hok Hrun. induction Hrun as [s | s o e s1 tr s2 Hen He Hrun IH]; [done |]. intros [Hq Hw]. simpl.
  rewrite He in Hw |- *. destruct (step_ok s o Hok Hen Hq) as (e' & s1' & E & Hok1 & _). rewrite He in E.
  injection E as <- <-. destruct (IH Hok1 Hw) as [Hok2 ->]. by rewrite (quiet_not_lost s o Hok Hq).
Qed.

(** Wake-up order of one release. *)
Lemma release_wakes s t l :
  sem_ok s → no_window s → suspend_thread (st_sem s) = t :: l →
  ∃ s', sem_exec s Release = Some (mk_ev (Some RT_EOK) [(t, RT_EOK)], s')
    ∧ suspend_thread (st_sem s') = l ∧ value (st_sem s') = 0
    ∧ t_susp (th (st_ts s') t) = false
    ∧ (sem_flag (st_sem s) = RT_IPC_FLAG_PRIO →
       Forall (λ u, t_prio (th (st_ts s) t) ≤ t_prio (th (st_ts s) u)) l).
Proof.
  intros Hok Hnw El. pose proof Hok as [Hw Hf Ho Hv Hm Hi]. destruct s as [ts sem].
  unfold no_window in Hnw. simpl in *. unfold rt_sem_release. rewrite El in *.
  apply Forall_cons in Hnw as [Hpt _].
  destruct (dequeue_spec ts t l [] RT_EOK) as (ts' & -> & Hw' & Hs' & He' & _);
    [by rewrite app_nil_r | done | done |].
  rewrite app_nil_r in Hw'. simpl. rewrite He'. eexists. split; [done |]. simpl.
  split_and!; [done | | |].
  - destruct (decide (0 < value sem)) as [Hp|]; [by specialize (Hi Hp) | lia].
  - apply (not_susp _ _ _ Hw'). pose proof (w_nodup _ _ Hw) as Hn. by apply NoDup_cons in Hn as [? _].
  - intros Hp. specialize (Ho Hp). by apply StronglySorted_inv in Ho as [_ ?].
Qed.

Lemma sumZ_cons x l : sumZ (x :: l) = x + sumZ l.
Proof. done. Qed.

(** * Theorems *)

(** A fresh semaphore among threads of which none is suspended. *)
Definition sem_start (ts : threads) (v flag : Z) : sem_state := mk_st ts (rt_sem_init v flag).2.

Lemma sem_start_ok ts v flag :
  wait_ok ts [] → 0 ≤ v ≤ 65535 → flag = RT_IPC_FLAG_FIFO ∨ flag = RT_IPC_FLAG_PRIO →
  sem_ok (sem_start ts v flag).
Proof.
  intros Hw Hv Hf. unfold sem_start, rt_sem_init, _sem_object_init. simpl.
  constructor; simpl; try done.
  - intros _. constructor.
  - rewrite u16_small by (unfold is_u16; lia). lia.
Qed.


(** Threads are woken in the order the flag asks for. In any state of the invariant:
    a take that has to wait puts the thread at the end of the list (FIFO), or after all
    waiting threads of its own or a more urgent priority and before all others (PRIO),
    and leaves the order of the others; and a release with waiting threads, outside the
    window of a timeout, returns success, makes exactly the first of the list ready, whose
    take returns success, and in priority mode no waiting thread is more urgent. *)
Theorem sem_wakes_in_order (s : sem_state) (t : nat) (timeout : Z)
    (Hok : sem_ok s) (Hready : t_susp (th (st_ts s) t) = false)
    (Hzero : value (st_sem s) = 0) (Hwait : timeout ≠ 0) :
  let l := suspend_thread (st_sem s) in
  (∃ s', sem_exec s (Take t timeout) = Some (mk_ev None [], s')
     ∧ t_susp (th (st_ts s') t) = true
     ∧ (sem_flag (st_sem s) = RT_IPC_FLAG_FIFO → suspend_thread (st_sem s') = l ++ [t])
     ∧ (sem_flag (st_sem s) = RT_IPC_FLAG_PRIO →
        ∃ l1 l2, l = l1 ++ l2 ∧ suspend_thread (st_sem s') = l1 ++ t :: l2
          ∧ Forall (λ u, t_prio (th (st_ts s) u) ≤ t_prio (th (st_ts s) t)) l1
          ∧ Forall (λ u, t_prio (th (st_ts s) t) < t_prio (th (st_ts s) u)) l2))
  ∧ (no_window s → ∀ u k, l = u :: k →
     ∃ s', sem_exec s Release = Some (mk_ev (Some RT_EOK) [(u, RT_EOK)], s')
       ∧ suspend_thread (st_sem s') = k ∧ value (st_sem s') = 0
       ∧ t_susp (th (st_ts s') u) = false
       ∧ (sem_flag (st_sem s) = RT_IPC_FLAG_PRIO →
          Forall (λ w, t_prio (th (st_ts s) u) ≤ t_prio (th (st_ts s) w)) k)).
Proof.
  intros l. split; [|intros Hnw u k El; by apply release_wakes].
  pose proof Hok as [Hw Hf Ho Hv Hm Hi]. destruct s as [ts sem]. simpl in *.
  unfold rt_sem_take, _rt_sem_take. rewrite Hzero. simpl.
  destruct (Z.eqb_spec timeout 0); [done |].
  assert (t ∉ suspend_thread sem) as Ht by (by apply (not_susp ts)).
  destruct (block_spec ts _ (suspend_thread sem) t (sem_flag sem) RT_EINTR timeout Hw Ht Hf)
    as (ts1 & -> & Hb). simpl. destruct Hb as (Hw2 & Hs2 & _ & _).
  eexists. split; [done |]. simpl. split_and!.
  - apply (w_susp _ _ Hw2). set_solver.
  - intros ->. done.
  - intros Hp. unfold rt_susp_list_enqueue. rewrite Hp. simpl. apply prio_insert_split. auto.
Qed.

(** A release inside the window of a timeout is lost. While the first waiting thread
    is between the expiry of its timer and its timeout handler (an interrupt that nests
    on the tick interrupt), [rt_sem_release] returns success but neither wakes a thread
    nor increments the value; the thread then times out. A second release in the same
    window wakes the thread, and the handler's assertion that it is suspended fails. *)
Theorem sem_release_lost (s : sem_state) (t : nat) (l : list nat)
    (Hok : sem_ok s) (Hl : suspend_thread (st_sem s) = t :: l)
    (Hpend : t_pend (th (st_ts s) t) = true) :
  ∃ s1, sem_exec s Release = Some (mk_ev (Some RT_EOK) [], s1)
    ∧ value (st_sem s1) = value (st_sem s)
    ∧ (∃ s2, sem_exec s1 (Timeout t) = Some (mk_ev None [(t, - RT_ETIMEOUT)], s2)
         ∧ value (st_sem s2) = value (st_sem s) ∧ suspend_thread (st_sem s2) = l)
    ∧ (∃ s3, sem_exec s1 Release = Some (mk_ev (Some RT_EOK) [(t, RT_EOK)], s3)
         ∧ sem_exec s3 (Timeout t) = None).
Proof.
  pose proof Hok as [Hw Hf Ho Hv Hm Hi]. destruct s as [ts sem]. simpl in *. rewrite Hl in *.
  pose proof (w_nodup _ _ Hw) as Hn. apply NoDup_cons in Hn as [Hnot Hn].
  assert (t_susp (th ts t) = true) as Hsu by (apply (w_susp _ _ Hw); set_solver).
  set (x := set_timer (th ts t) false false true).
  assert (rt_susp_list_dequeue ts (t :: l) RT_EOK = (None, upd ts t x, t :: l)) as E1
    by (eapply dequeue_pending; [exact Hw | set_solver | done]).
  assert (th (upd ts t x) t = x) as Ex by apply th_upd_eq.
  assert (rt_susp_list_dequeue (upd ts t x) (t :: l) RT_EOK
          = (Some t, upd (upd (upd ts t x) t (set_susp x false)) t
                       (set_error (set_susp x false) RT_EOK), l)) as E2.
  { unfold rt_susp_list_dequeue, rt_sched_thread_ready. rewrite Ex. simpl. rewrite Hsu. simpl.
    by rewrite th_upd_eq, list_remove_head by done. }
  eexists. unfold rt_sem_release. rewrite Hl, E1. simpl. split; [done |]. split; [done |]. split; simpl.
  - unfold _thread_timeout. rewrite Ex. simpl. rewrite Hsu. simpl. eexists.
    rewrite th_upd_eq. simpl. split; [done |]. split; [done |]. by apply list_remove_head.
  - rewrite E2. simpl. eexists. rewrite th_upd_eq. split; [done |]. unfold _thread_timeout. simpl.
    by rewrite th_upd_eq.
Qed.

(** * Witnesses *)

(** Thread 1 of priority 5 and thread 2 of priority 3. *)
Definition two_threads : threads :=
  upd (upd ∅ 1%nat (mk_thread 5 0 false false false false)) 2%nat
    (mk_thread 3 0 false false false false).

Lemma two_threads_ready : wait_ok two_threads [].
Proof.
  apply wait_ok_nil. intros t. unfold two_threads. rewrite !th_upd. repeat case_decide; done.
Qed.

(** Both wait, a release wakes the more urgent one, the other times out, a release is
    kept and taken. *)
Definition sem_trace : list (sem_op * event) :=
  [(Take 1 10, mk_ev None []); (Take 2 (-1), mk_ev None []);
   (Release, mk_ev (Some 0) [(2%nat, 0)]); (Expire 1, mk_ev None []);
   (Timeout 1, mk_ev None [(1%nat, -2)]); (Release, mk_ev (Some 0) []);
   (Take 2 0, mk_ev (Some 0) []); (Take 1 0, mk_ev (Some (-2)) [])].


(** Thread 1 waits in a fresh semaphore, then thread 2 takes. *)
Definition one_waiting : sem_state :=
  match sem_exec (sem_start two_threads 0 RT_IPC_FLAG_PRIO) (Take 1 10) with
  | Some (_, s) => s
  | None => sem_start two_threads 0 RT_IPC_FLAG_PRIO
  end.

Lemma one_waiting_ok : sem_ok one_waiting.
Proof.
  destruct (step_ok (sem_start two_threads 0 RT_IPC_FLAG_PRIO) (Take 1 10)) as (e & s & E & Hok & _).
  - apply sem_start_ok; [exact two_threads_ready | lia | by right].
  - reflexivity.
  - exact I.
  - unfold one_waiting. rewrite E. exact Hok.
Qed.

Lemma sem_wakes_in_order_witness :
  ∃ s', sem_exec one_waiting Release = Some (mk_ev (Some RT_EOK) [(1%nat, RT_EOK)], s').
Proof.
  destruct (sem_wakes_in_order one_waiting 2 (-1) one_waiting_ok) as (_ & H).
  - vm_compute. reflexivity.
  - vm_compute. reflexivity.
  - lia.
  - destruct (H ltac:(by repeat constructor) 1%nat []) as (s' & E & _).
    + vm_compute. reflexivity.
    + exists s'. exact E.
Defined.

(** The timer of thread 1 has expired, its handler has not run. *)
Definition in_window : sem_state :=
  mk_st (timer_expire (st_ts one_waiting) 1) (st_sem one_waiting).

Lemma in_window_ok : sem_ok in_window.
Proof.
  destruct (step_ok one_waiting (Expire 1) one_waiting_ok) as (e & s & E & Hok & _).
  - vm_compute. reflexivity.
  - exact I.
  - simpl in E. injection E as _ <-. exact Hok.
Qed.

Lemma sem_release_lost_witness :
  ∃ s1, sem_exec in_window Release = Some (mk_ev (Some RT_EOK) [], s1)
    ∧ value (st_sem s1) = 0.
Proof.
  destruct (sem_release_lost in_window 1 [] in_window_ok) as (s1 & E & Hv & _).
  - vm_compute. reflexivity.
  - vm_compute. reflexivity.
  - exists s1. split; [exact E |]. rewrite Hv. vm_compute. reflexivity.
Defined.
