(* ===== verification/Waiters.v ===== *)
(** The two suspend lists of a queue (of words in [Mailbox], of messages in [MsgQueue]): on one
    wait the threads that want to take, on the other those that want to give. What waking,
    blocking, returning and timing out do to both lists is proved here once, for calls of any
    kind: [P] says of a suspended call that it waits on the first list, [Q] on the second. *)

From S2P Require Import Prelude.
From S2P Require Import RtDef.
From S2P Require Import Kernel.
Open Scope Z_scope.

(** The first waiting thread of a list, if any, is made ready. *)
Definition wake_first (ts : threads) (l : list nat) : list nat * threads * list nat :=
  match l with
  | [] => ([], ts, [])
  | _ :: _ => let '(w, ts, l) := rt_susp_list_dequeue ts l RT_EOK in (option_list w, ts, l)
  end.

(** The time that is left of a timeout, which is signed; the difference of ticks is unsigned. *)
Definition time_left (timeout tick now : Z) : Z :=
  if 0 <? timeout then
    let left := s32 (timeout - u32 (now - tick)) in
    if left <? 0 then 0 else left
  else timeout.

(** * Lists *)

Lemma list_remove_blen l t : NoDup l → blen l - 1 ≤ blen (list_remove l t) ≤ blen l.
Proof.
  induction 1 as [|u l Hu Hn IH]; [done |]. destruct (decide (u = t)) as [->|Hne].
  - rewrite list_remove_head by done. len.
  - unfold list_remove. rewrite filter_cons_True by done. fold (list_remove l t). len.
Qed.

(** * Woken threads *)

(** Woken with success and not run since, inside a call of the kind [P]. *)
Definition rdy_ok {C} (ts : threads) (conts : gmap nat C) (P : option C → Prop) (l : list nat) : Prop :=
  NoDup l ∧ ∀ t, t ∈ l → t_susp (th ts t) = false ∧ t_error (th ts t) = 0 ∧ P (conts !! t).

Section ready.
Context {C : Type}.
Implicit Types (conts : gmap nat C) (P : option C → Prop).

Lemma rdy_ok_frame ts ts' conts conts' P l :
  (∀ t, t ∈ l → th ts' t = th ts t ∧ conts' !! t = conts !! t) → rdy_ok ts conts P l →
  rdy_ok ts' conts' P l.
Proof. intros E [Hn H]. split; [done |]. intros t Ht. destruct (E t Ht) as [-> ->]. auto. Qed.

Lemma rdy_ok_remove ts conts P l t : rdy_ok ts conts P l → rdy_ok ts conts P (list_remove l t).
Proof.
  intros [Hn H]. split; [by apply NoDup_list_remove |]. intros u [_ Hu]%elem_of_list_remove. auto.
Qed.

Lemma rdy_ok_change ts ts' conts conts' P l t :
  rdy_ok ts conts P l → (∀ u, u ≠ t → th ts' u = th ts u ∧ conts' !! u = conts !! u) →
  rdy_ok ts' conts' P (list_remove l t).
Proof.
  intros Hl Hu. eapply rdy_ok_frame; [|by apply rdy_ok_remove]. intros u [Hne _]%elem_of_list_remove. by apply Hu.
Qed.

Lemma rdy_kind ts conts P l t : rdy_ok ts conts P l → ¬ P (conts !! t) → t ∉ l.
Proof. intros [_ H] Hn Hin. apply Hn. by apply H. Qed.

End ready.

(** * Both lists *)

(** [A] and [B] are the suspend lists, [ra] and [rb] the woken threads. *)
Record lists_ok {C} (P Q : option C → Prop) (ts : threads) (flag : Z) (A B : list nat) (conts : gmap nat C)
    (ra rb : list nat) : Prop := {
  l_flag : flag = RT_IPC_FLAG_FIFO ∨ flag = RT_IPC_FLAG_PRIO;
  l_wait : wait_ok ts (A ++ B);
  l_oa : prio_ordered ts flag A;
  l_ob : prio_ordered ts flag B;
  l_ra : rdy_ok ts conts P ra;
  l_rb : rdy_ok ts conts Q rb;
  l_ca : ∀ t, t ∈ A → P (conts !! t);
  l_cb : ∀ t, t ∈ B → Q (conts !! t)
}.

Section lists.
Context {C : Type}.
Implicit Types (conts : gmap nat C) (P Q : option C → Prop).

Lemma lists_sym P Q ts flag A B conts ra rb :
  lists_ok P Q ts flag A B conts ra rb → lists_ok Q P ts flag B A conts rb ra.
Proof. intros []. constructor; try done. eapply wait_ok_perm; [apply Permutation_app_comm | done]. Qed.

Lemma rdy_not_waiting P Q R ts flag A B conts ra rb l t :
  lists_ok P Q ts flag A B conts ra rb → rdy_ok ts conts R l → t ∈ l → t ∉ A ++ B.
Proof. intros Hc [_ H] Ht. apply (not_susp _ _ _ (l_wait _ _ _ _ _ _ _ _ _ Hc)). by apply H. Qed.

(** Nobody waits. *)
Lemma lists_start P Q ts flag :
  flag = RT_IPC_FLAG_FIFO ∨ flag = RT_IPC_FLAG_PRIO → wait_ok ts [] → lists_ok P Q ts flag [] [] (∅ : gmap nat C) [] [].
Proof.
  intros Hf Hw. assert (Hrdy : ∀ R, rdy_ok ts (∅ : gmap nat C) R []) by (intros R; split; [apply NoDup_nil_2 | by intros t ?%elem_of_nil]).
  constructor; auto; try (intros _; constructor); by intros t ?%elem_of_nil.
Qed.

(** Threads that do not wait may change. *)
Lemma lists_same P Q ts ts' flag A B conts ra rb :
  lists_ok P Q ts flag A B conts ra rb → wait_ok ts' (A ++ B) → same_prio ts ts' →
  (∀ u, u ∈ ra ++ rb → th ts' u = th ts u) → lists_ok P Q ts' flag A B conts ra rb.
Proof.
  intros [] Hw Hs Hu. constructor; try done; try (by eapply prio_ordered_same).
  - eapply rdy_ok_frame; [|done]. intros u Hin. split; [apply Hu; set_solver | done].
  - eapply rdy_ok_frame; [|done]. intros u Hin. split; [apply Hu; set_solver | done].
Qed.

(** The first thread of [A] is woken. *)
Lemma lists_wake P Q ts flag A B conts ra rb :
  lists_ok P Q ts flag A B conts ra rb → Forall (λ t, t_pend (th ts t) = false) (A ++ B) →
  ∃ w ts' l, wake_first ts A = (w, ts', l) ∧ A = w ++ l ∧ (A ≠ [] → blen w = 1)
    ∧ lists_ok P Q ts' flag l B conts (ra ++ w) rb ∧ (∀ u, u ∉ A → th ts' u = th ts u).
Proof.
  intros Hc Hnw. pose proof Hc as []. destruct A as [|t l]; simpl.
  { exists [], ts, []. rewrite (app_nil_r ra). by split_and!. }
  apply Forall_cons in Hnw as [Hpt _].
  destruct (dequeue_spec ts t l B RT_EOK l_wait0 Hpt) as (ts' & -> & Hw' & Hs' & He' & Hu); [done |].
  exists [t], ts', l. pose proof (w_nodup _ _ l_wait0) as Hn. simpl in Hn. apply NoDup_cons in Hn as [Hnot _].
  split_and!; [done | done | done | | intros u Hnu; apply Hu; set_solver].
  assert (Hfr : ∀ R k, rdy_ok ts conts R k → rdy_ok ts' conts R k).
  { intros R k Hk. eapply rdy_ok_frame; [|exact Hk]. intros u Huk. split; [|done]. apply Hu. intros ->.
    apply (rdy_not_waiting _ _ _ _ _ _ _ _ _ _ k t Hc Hk Huk). set_solver. }
  constructor; try done.
  - eapply prio_ordered_same; [done |]. intros Hp. specialize (l_oa0 Hp). by apply StronglySorted_inv in l_oa0 as [? _].
  - by eapply prio_ordered_same.
  - destruct (Hfr _ _ l_ra0) as [Hnr Hr]. split.
    + apply NoDup_app. split_and!; [done | | apply NoDup_singleton]. intros u Hu1 ->%list_elem_of_singleton.
      apply (rdy_not_waiting _ _ _ _ _ _ _ _ _ _ _ t Hc l_ra0 Hu1). set_solver.
    + intros u [Hu1 | ->%list_elem_of_singleton]%elem_of_app; [by apply Hr |].
      split_and!; [|done | by apply l_ca0; left]. by apply (not_susp _ _ _ Hw').
  - by apply Hfr.
  - intros u Hul. apply l_ca0. by right.
Qed.

(** The call of [t] goes on or ends; [t] was not waiting, and only its own records changed. *)
Lemma lists_change P Q ts ts' flag A B conts conts' ra rb t :
  lists_ok P Q ts flag A B conts ra rb → t ∉ A ++ B → wait_ok ts' (A ++ B) → same_prio ts ts' →
  (∀ u, u ≠ t → th ts' u = th ts u ∧ conts' !! u = conts !! u) →
  lists_ok P Q ts' flag A B conts' (list_remove ra t) (list_remove rb t).
Proof.
  intros [] Ht Hw Hs Hu. constructor; try done; try (by eapply prio_ordered_same); try (by eapply rdy_ok_change).
  - intros u Hin. rewrite (proj2 (Hu u ltac:(set_solver))). auto.
  - intros u Hin. rewrite (proj2 (Hu u ltac:(set_solver))). auto.
Qed.

(** [t] starts to wait on [A]. *)
Lemma lists_enqueue P Q ts ts' flag A B conts ra rb t c :
  lists_ok P Q ts flag A B conts ra rb → t ∉ A ++ B → wait_ok ts' (t :: (A ++ B)) → same_prio ts ts' →
  (∀ u, u ≠ t → th ts' u = th ts u) → P (Some c) →
  lists_ok P Q ts' flag (rt_susp_list_enqueue ts A t flag) B (<[t := c]> conts) (list_remove ra t) (list_remove rb t).
Proof.
  intros [] Ht Hw Hs Hu HP. pose proof (w_nodup _ _ l_wait0) as Hn. apply NoDup_app in Hn as (Hn1 & Hdis & Hn2).
  assert (Hch : ∀ u, u ≠ t → th ts' u = th ts u ∧ <[t := c]> conts !! u = conts !! u).
  { intros u Hne. split; [by apply Hu | by rewrite lookup_insert_ne]. }
  constructor; try done; try (by eapply rdy_ok_change).
  - eapply wait_ok_perm; [|exact Hw]. rewrite app_comm_cons. apply Permutation_app_tail.
    apply NoDup_Permutation; [constructor; [set_solver | done] | apply enqueue_NoDup; [done | done | set_solver] |].
    intros u. rewrite enqueue_elem by done. set_solver.
  - eapply prio_ordered_same; [exact Hs |]. by apply enqueue_ordered.
  - by eapply prio_ordered_same.
  - intros u [-> | Hin]%enqueue_elem; [by rewrite lookup_insert_eq | | done]. rewrite lookup_insert_ne by set_solver. auto.
  - intros u Hin. rewrite lookup_insert_ne by set_solver. auto.
Qed.

(** All waiting threads of both lists are resumed with an error. *)
Lemma lists_resume_all P Q ts flag A B conts ra rb :
  lists_ok P Q ts flag A B conts ra rb → Forall (λ t, t_pend (th ts t) = false) (A ++ B) →
  ∃ ts1 ts2, rt_susp_list_resume_all ts A RT_ERROR = (A, ts1, []) ∧ rt_susp_list_resume_all ts1 B RT_ERROR = (B, ts2, [])
    ∧ lists_ok P Q ts2 flag [] [] conts ra rb ∧ (∀ u, u ∈ A ++ B → t_error (th ts2 u) = RT_ERROR)
    ∧ (∀ u, u ∉ A ++ B → th ts2 u = th ts u).
Proof.
  intros Hc [Hn1 Hn2]%Forall_app. pose proof Hc as [].
  destruct (resume_all_spec ts A B RT_ERROR l_wait0 Hn1) as (ts1 & E1 & Hw1 & Hs1 & He1 & Hu1); [done |].
  pose proof (w_nodup _ _ l_wait0) as Hn. apply NoDup_app in Hn as (_ & Hdis & _).
  destruct (resume_all_spec ts1 B [] RT_ERROR) as (ts2 & E2 & Hw2 & Hs2 & He2 & Hu2); [by rewrite app_nil_r | | done |].
  { rewrite Forall_forall in *. intros u Hin. rewrite Hu1; [by apply Hn2 |]. intros Hin'. by apply (Hdis u). }
  rewrite Forall_forall in He1, He2. exists ts1, ts2.
  assert (Hu : ∀ u, u ∉ A ++ B → th ts2 u = th ts u) by (intros u Hnu; rewrite Hu2, Hu1; set_solver).
  split_and!; [done | done | | | done].
  - assert (Hrdy : ∀ R k, rdy_ok ts conts R k → rdy_ok ts2 conts R k).
    { intros R k Hl. eapply rdy_ok_frame; [|exact Hl]. intros u Huk. split; [|done].
      apply Hu. by eapply rdy_not_waiting. }
    constructor; auto; try (intros _; constructor); set_solver.
  - intros u [Hin | Hin]%elem_of_app; [rewrite Hu2 by (intros Hb; by apply (Hdis u)); by apply He1 | by apply He2].
Qed.

(** The timer of a waiting thread expires, and its handler runs. *)
Lemma lists_expire P Q ts flag A B conts ra rb t :
  lists_ok P Q ts flag A B conts ra rb → t_active (th ts t) = true → lists_ok P Q (timer_expire ts t) flag A B conts ra rb.
Proof.
  intros Hc Ha. destruct (expire_spec ts _ t (l_wait _ _ _ _ _ _ _ _ _ Hc) Ha) as [Hin Hw'].
  eapply lists_same; [done | done | by apply same_prio_upd |]. intros u Hu. apply th_upd_ne. intros ->.
  apply elem_of_app in Hu as [Hu | Hu].
  - by apply (rdy_not_waiting _ _ _ _ _ _ _ _ _ _ _ u Hc (l_ra _ _ _ _ _ _ _ _ _ Hc) Hu).
  - by apply (rdy_not_waiting _ _ _ _ _ _ _ _ _ _ _ u Hc (l_rb _ _ _ _ _ _ _ _ _ Hc) Hu).
Qed.

Lemma lists_timeout P Q ts flag A B conts ra rb t l :
  lists_ok P Q ts flag A B conts ra rb → t_pend (th ts t) = true →
  ∃ ts', _thread_timeout ts l t = Some (ts', list_remove l t)
    ∧ t_error (th ts' t) = - RT_ETIMEOUT ∧ (∀ u, u ≠ t → th ts' u = th ts u)
    ∧ lists_ok P Q ts' flag (list_remove A t) (list_remove B t) conts ra rb.
Proof.
  intros Hc Hp. pose proof Hc as []. destruct (timeout_spec ts _ l t l_wait0 Hp) as (x & E & Hin & He & Hpr & Hw').
  exists (upd ts t x). split_and!; [done | by rewrite th_upd_eq | intros u Hne; by apply th_upd_ne |].
  assert (Hs : same_prio ts (upd ts t x)) by (by apply same_prio_upd).
  assert (Hrdy : ∀ R k, rdy_ok ts conts R k → rdy_ok (upd ts t x) conts R k).
  { intros R k Hl. eapply rdy_ok_frame; [|exact Hl]. intros u Huk. split; [|done]. apply th_upd_ne. intros ->.
    by eapply rdy_not_waiting. }
  unfold list_remove in Hw'. rewrite filter_app in Hw'.
  constructor; auto; try (apply prio_ordered_remove; by eapply prio_ordered_same).
  - intros u [_ Hu]%elem_of_list_remove. auto.
  - intros u [_ Hu]%elem_of_list_remove. auto.
Qed.

End lists.
