(* ===== verification/Mailbox.v ===== *)
(** Mailboxes (rt-thread/src/ipc.c): bounded queues of words with waiting senders and
    receivers. The blocking calls are split at [rt_schedule]: each part between two
    schedules is one critical section. *)

From S2P Require Import Prelude.
From S2P Require Import Ring.
From S2P Require Import RtDef.
From S2P Require Import Kernel.
From S2P Require Import Waiters.
Open Scope Z_scope.

(** * The object and its operations *)

(** [mb_flag] is the flag and [receivers] the suspend list of the parent object. *)
Record rt_mailbox : Type := mk_mb {
  msg_pool : list Z;
  mb_size : Z;
  entry : Z;
  in_offset : Z;
  out_offset : Z;
  mb_flag : Z;
  receivers : list nat;
  suspend_sender_thread : list nat
}.

Definition set_receivers (mb : rt_mailbox) (l : list nat) : rt_mailbox :=
  mk_mb (msg_pool mb) (mb_size mb) (entry mb) (in_offset mb) (out_offset mb) (mb_flag mb) l
    (suspend_sender_thread mb).
Definition set_senders (mb : rt_mailbox) (l : list nat) : rt_mailbox :=
  mk_mb (msg_pool mb) (mb_size mb) (entry mb) (in_offset mb) (out_offset mb) (mb_flag mb)
    (receivers mb) l.
Definition set_queue (mb : rt_mailbox) (pool : list Z) (entry in_ out : Z) : rt_mailbox :=
  mk_mb pool (mb_size mb) entry in_ out (mb_flag mb) (receivers mb) (suspend_sender_thread mb).

Definition rt_mb_init (msgpool : list Z) (size flag : Z) : Z * rt_mailbox :=
  (RT_EOK, mk_mb msgpool (u16 size) 0 0 0 flag [] []).

(** [alloc] and [pool]: whether the object and the pool can be allocated; a pool comes
    with arbitrary contents. *)
Definition rt_mb_create (alloc : bool) (pool : option (list Z)) (size flag : Z)
    : option rt_mailbox :=
  if negb alloc then None else
  match pool with
  | None => None
  | Some msgpool => Some (mk_mb msgpool (u16 size) 0 0 0 flag [] [])
  end.

(** Resuming all receivers, then all senders. *)
Definition resume_both (ts : threads) (mb : rt_mailbox) : list nat * threads * rt_mailbox :=
  let '(w1, ts, l1) := rt_susp_list_resume_all ts (receivers mb) RT_ERROR in
  let '(w2, ts, l2) := rt_susp_list_resume_all ts (suspend_sender_thread mb) RT_ERROR in
  (w1 ++ w2, ts, set_senders (set_receivers mb l1) l2).

Definition rt_mb_detach (ts : threads) (mb : rt_mailbox) : Z * list nat * threads * rt_mailbox :=
  let '(w, ts, mb) := resume_both ts mb in (RT_EOK, w, ts, mb).

Definition rt_mb_delete (ts : threads) (mb : rt_mailbox) : Z * list nat * threads * rt_mailbox :=
  let '(w, ts, mb) := resume_both ts mb in (RT_EOK, w, ts, mb).

Definition rt_mb_control (ts : threads) (mb : rt_mailbox) (cmd : Z)
    : Z * list nat * threads * rt_mailbox :=
  if cmd =? RT_IPC_CMD_RESET then
    let '(w, ts, mb) := resume_both ts mb in
    (RT_EOK, w, ts, set_queue mb (msg_pool mb) 0 0 0)
  else (- RT_ERROR, [], ts, mb).

(** A critical section of a blocking call: it returns (with the received word), or blocks
    with the timeout and the tick at which it began to wait. *)
Inductive mcall : Type :=
  | MReturns (r : Z) (v : option Z)
  | MBlocks (timeout tick : Z).

(** The first waiting receiver, or sender, if any, is made ready. *)
Definition wake_receiver (ts : threads) (mb : rt_mailbox) : list nat * threads * rt_mailbox :=
  let '(w, ts, l) := wake_first ts (receivers mb) in (w, ts, set_receivers mb l).

Definition wake_sender (ts : threads) (mb : rt_mailbox) : list nat * threads * rt_mailbox :=
  let '(w, ts, l) := wake_first ts (suspend_sender_thread mb) in (w, ts, set_senders mb l).

(** [_rt_mb_send_wait] after its loop: the word is stored and a receiver woken. *)
Definition mb_put (ts : threads) (mb : rt_mailbox) (v : Z)
    : mcall * list nat * threads * rt_mailbox :=
  let pool := <[Z.to_nat (in_offset mb) := v]> (msg_pool mb) in
  let in_ := u16 (in_offset mb + 1) in
  let in_ := if mb_size mb <=? in_ then 0 else in_ in
  if entry mb <? RT_MB_ENTRY_MAX then
    let mb := set_queue mb pool (entry mb + 1) in_ (out_offset mb) in
    let '(w, ts, mb) := wake_receiver ts mb in
    (MReturns RT_EOK None, w, ts, mb)
  else (MReturns (- RT_EFULL) None, [], ts, set_queue mb pool (entry mb) in_ (out_offset mb)).

(** Suspending in the loop: on [l], with the thread timer for a positive timeout. *)
Definition mb_suspend (ts : threads) (l : list nat) (self : nat) (flag timeout tick now : Z)
    : mcall * threads * list nat :=
  let '(ret, ts, l) := rt_thread_suspend_to_list ts l self flag in
  if negb (ret =? RT_EOK) then (MReturns ret None, ts, l)
  else if 0 <? timeout
  then (MBlocks timeout now, upd ts self (rt_timer_start (th ts self)), l)
  else (MBlocks timeout tick, ts, l).

(** One round of the loop of [_rt_mb_send_wait], or what follows it. *)
Definition mb_send_round (ts : threads) (mb : rt_mailbox) (self : nat) (v timeout tick now : Z)
    : mcall * list nat * threads * rt_mailbox :=
  if entry mb =? mb_size mb then
    let ts := upd ts self (set_error (th ts self) (- RT_EINTR)) in
    if timeout =? 0 then (MReturns (- RT_EFULL) None, [], ts, mb) else
    let '(c, ts, l) :=
      mb_suspend ts (suspend_sender_thread mb) self (mb_flag mb) timeout tick now in
    (c, [], ts, set_senders mb l)
  else mb_put ts mb v.

(** [_rt_mb_send_wait] up to the first [rt_schedule]; [now] is the tick. *)
Definition _rt_mb_send_wait (ts : threads) (mb : rt_mailbox) (self : nat) (v timeout now : Z)
    : mcall * list nat * threads * rt_mailbox :=
  if (entry mb =? mb_size mb) && (timeout =? 0) then (MReturns (- RT_EFULL) None, [], ts, mb)
  else mb_send_round ts mb self v timeout 0 now.

(** [_rt_mb_send_wait] after [rt_schedule], when the thread runs again. *)
Definition mb_send_resume (ts : threads) (mb : rt_mailbox) (self : nat) (v timeout tick now : Z)
    : mcall * list nat * threads * rt_mailbox :=
  if negb (t_error (th ts self) =? RT_EOK)
  then (MReturns (t_error (th ts self)) None, [], ts, mb)
  else mb_send_round ts mb self v (time_left timeout tick now) tick now.

Definition rt_mb_send_wait (ts : threads) (mb : rt_mailbox) (self : nat) (v timeout now : Z) :=
  _rt_mb_send_wait ts mb self v timeout now.

Definition rt_mb_send (ts : threads) (mb : rt_mailbox) (self : nat) (v now : Z) :=
  rt_mb_send_wait ts mb self v 0 now.

Definition rt_mb_urgent (ts : threads) (mb : rt_mailbox) (v : Z)
    : mcall * list nat * threads * rt_mailbox :=
  if entry mb =? mb_size mb then (MReturns (- RT_EFULL) None, [], ts, mb) else
  let out := if 0 <? out_offset mb then out_offset mb - 1 else mb_size mb - 1 in
  let pool := <[Z.to_nat out := v]> (msg_pool mb) in
  let mb := set_queue mb pool (entry mb + 1) (in_offset mb) out in
  let '(w, ts, mb) := wake_receiver ts mb in
  (MReturns RT_EOK None, w, ts, mb).

(** [_rt_mb_recv] after its loop: the oldest word is taken and a sender woken. *)
Definition mb_get (ts : threads) (mb : rt_mailbox) : mcall * list nat * threads * rt_mailbox :=
  let v := nthZ (msg_pool mb) (out_offset mb) in
  let out := u16 (out_offset mb + 1) in
  let out := if mb_size mb <=? out then 0 else out in
  let n := if 0 <? entry mb then entry mb - 1 else entry mb in
  let mb := set_queue mb (msg_pool mb) n (in_offset mb) out in
  let '(w, ts, mb) := wake_sender ts mb in
  (MReturns RT_EOK (Some v), w, ts, mb).

Definition mb_recv_round (ts : threads) (mb : rt_mailbox) (self : nat) (timeout tick now : Z)
    : mcall * list nat * threads * rt_mailbox :=
  if entry mb =? 0 then
    let ts := upd ts self (set_error (th ts self) (- RT_EINTR)) in
    if timeout =? 0 then
      (MReturns (- RT_ETIMEOUT) None, [], upd ts self (set_error (th ts self) (- RT_ETIMEOUT)), mb)
    else
    let '(c, ts, l) := mb_suspend ts (receivers mb) self (mb_flag mb) timeout tick now in
    (c, [], ts, set_receivers mb l)
  else mb_get ts mb.

Definition _rt_mb_recv (ts : threads) (mb : rt_mailbox) (self : nat) (timeout now : Z)
    : mcall * list nat * threads * rt_mailbox :=
  if (entry mb =? 0) && (timeout =? 0) then (MReturns (- RT_ETIMEOUT) None, [], ts, mb)
  else mb_recv_round ts mb self timeout 0 now.

Definition mb_recv_resume (ts : threads) (mb : rt_mailbox) (self : nat) (timeout tick now : Z)
    : mcall * list nat * threads * rt_mailbox :=
  if negb (t_error (th ts self) =? RT_EOK)
  then (MReturns (t_error (th ts self)) None, [], ts, mb)
  else mb_recv_round ts mb self (time_left timeout tick now) tick now.

Definition rt_mb_recv (ts : threads) (mb : rt_mailbox) (self : nat) (timeout now : Z) :=
  _rt_mb_recv ts mb self timeout now.

(** * The machine *)

(** A thread inside a blocked call. *)
Inductive cont : Type :=
  | CSend (v timeout tick : Z)
  | CRecv (timeout tick : Z).

Inductive mb_op : Type :=
  | MSend (t : nat) (v timeout now : Z)
  | MUrgent (v : Z)
  | MRecv (t : nat) (timeout now : Z)
  | MResume (t : nat) (now : Z)
  | MReset
  | MExpire (t : nat)
  | MTimeout (t : nat).

(** [ms_conts]: the blocked calls. [ms_rdy_recv] and [ms_rdy_send]: receivers and senders
    that were woken with success and have not run since. *)
Record mb_state : Type := mk_ms {
  ms_ts : threads;
  ms_mb : rt_mailbox;
  ms_conts : gmap nat cont;
  ms_rdy_recv : list nat;
  ms_rdy_send : list nat
}.

(** What a step completes. *)
Inductive mb_event : Type :=
  | Sent (v : Z)
  | SentUrgent (v : Z)
  | Received (v : Z)
  | Failed (r : Z)
  | Blocked
  | WasReset
  | Silent.

(** The outcome of a critical section of a send (a receiver may have been woken). *)
Definition after_send (s : mb_state) (t : nat) (v : Z) (x : mcall * list nat * threads * rt_mailbox)
    : mb_event * mb_state :=
  let '(c, w, ts, mb) := x in
  match c with
  | MReturns r _ =>
      (if r =? RT_EOK then Sent v else Failed r,
       mk_ms ts mb (delete t (ms_conts s)) (ms_rdy_recv s ++ w) (list_remove (ms_rdy_send s) t))
  | MBlocks timeout tick =>
      (Blocked, mk_ms ts mb (<[t := CSend v timeout tick]> (ms_conts s)) (ms_rdy_recv s)
                  (list_remove (ms_rdy_send s) t))
  end.

Definition after_recv (s : mb_state) (t : nat) (x : mcall * list nat * threads * rt_mailbox)
    : mb_event * mb_state :=
  let '(c, w, ts, mb) := x in
  match c with
  | MReturns r v =>
      (match v with Some v => Received v | None => Failed r end,
       mk_ms ts mb (delete t (ms_conts s)) (list_remove (ms_rdy_recv s) t) (ms_rdy_send s ++ w))
  | MBlocks timeout tick =>
      (Blocked, mk_ms ts mb (<[t := CRecv timeout tick]> (ms_conts s))
                  (list_remove (ms_rdy_recv s) t) (ms_rdy_send s))
  end.

(** One step; [None] when an assertion of the kernel fails. *)
Definition mb_exec (s : mb_state) (o : mb_op) : option (mb_event * mb_state) :=
  let ts := ms_ts s in
  let mb := ms_mb s in
  match o with
  | MSend t v timeout now => Some (after_send s t v (rt_mb_send_wait ts mb t v timeout now))
  | MUrgent v =>
      let '(c, w, ts, mb) := rt_mb_urgent ts mb v in
      Some (match c with
            | MReturns r _ => if r =? RT_EOK then SentUrgent v else Failed r
            | MBlocks _ _ => Silent
            end, mk_ms ts mb (ms_conts s) (ms_rdy_recv s ++ w) (ms_rdy_send s))
  | MRecv t timeout now => Some (after_recv s t (rt_mb_recv ts mb t timeout now))
  | MResume t now =>
      match ms_conts s !! t with
      | Some (CSend v timeout tick) =>
          Some (after_send s t v (mb_send_resume ts mb t v timeout tick now))
      | Some (CRecv timeout tick) =>
          Some (after_recv s t (mb_recv_resume ts mb t timeout tick now))
      | None => Some (Silent, s)
      end
  | MReset =>
      let '(_, _, ts, mb) := rt_mb_control ts mb RT_IPC_CMD_RESET in
      Some (WasReset, mk_ms ts mb (ms_conts s) (ms_rdy_recv s) (ms_rdy_send s))
  | MExpire t =>
      Some (Silent, mk_ms (timer_expire ts t) mb (ms_conts s) (ms_rdy_recv s) (ms_rdy_send s))
  | MTimeout t =>
      (* the node is on one of the two lists *)
      match _thread_timeout ts (receivers mb) t with
      | Some (ts', l) =>
          Some (Silent, mk_ms ts' (set_senders (set_receivers mb l)
                                     (list_remove (suspend_sender_thread mb) t))
                          (ms_conts s) (ms_rdy_recv s) (ms_rdy_send s))
      | None => None
      end
  end.

(** No waiting thread is between the expiry of its timer and the timeout handler. *)
Definition mb_no_window (s : mb_state) : Prop :=
  Forall (λ t, t_pend (th (ms_ts s) t) = false) (receivers (ms_mb s) ++ suspend_sender_thread (ms_mb s)).

(** A thread calls when it is not inside a call, and resumes when it has been woken. *)
Definition mb_enabled (s : mb_state) (o : mb_op) : Prop :=
  match o with
  | MSend t _ _ _ | MRecv t _ _ =>
      t_susp (th (ms_ts s) t) = false ∧ ms_conts s !! t = None ∧ mb_no_window s
  | MResume t _ =>
      t_susp (th (ms_ts s) t) = false ∧ is_Some (ms_conts s !! t) ∧ mb_no_window s
  | MUrgent _ | MReset => mb_no_window s
  | MExpire t => t_active (th (ms_ts s) t) = true
  | MTimeout t => t_pend (th (ms_ts s) t) = true
  end.

Inductive mb_run : mb_state → list (mb_op * mb_event) → mb_state → Prop :=
  | mrun_nil s : mb_run s [] s
  | mrun_step s o e s' tr s'' :
      mb_enabled s o → mb_exec s o = Some (e, s') → mb_run s' tr s'' →
      mb_run s ((o, e) :: tr) s''.

(** * The queue *)

(** The words in the mailbox, oldest first. *)
Definition contents (mb : rt_mailbox) : list Z := ring_view (msg_pool mb) (out_offset mb) (entry mb).

Record ring_ok (mb : rt_mailbox) : Prop := {
  rk_size : mb_size mb = blen (msg_pool mb);
  rk_range : 1 ≤ mb_size mb ≤ 65535;
  rk_entry : 0 ≤ entry mb ≤ mb_size mb;
  rk_out : 0 ≤ out_offset mb < mb_size mb;
  rk_in : in_offset mb = ring_idx (mb_size mb) (out_offset mb) (entry mb)
}.

Lemma mb_contents_blen mb : ring_ok mb → blen (contents mb) = entry mb.
Proof. intros []. apply ring_view_blen; lia. Qed.

Lemma u16_in (x : Z) : 0 ≤ x < 65536 → u16 x = x.
Proof. intros. by apply u16_small. Qed.

(** Storing a word appends it. *)
Lemma ring_put_word mb v :
  ring_ok mb → entry mb < mb_size mb →
  let in_ := if mb_size mb <=? u16 (in_offset mb + 1) then 0 else u16 (in_offset mb + 1) in
  let mb' := set_queue mb (<[Z.to_nat (in_offset mb) := v]> (msg_pool mb)) (entry mb + 1) in_
               (out_offset mb) in
  ring_ok mb' ∧ contents mb' = contents mb ++ [v].
Proof.
  intros [Hs Hr He Ho Hi] Hlt in_ mb'.
  pose proof (ring_idx_range (mb_size mb) (out_offset mb) (entry mb) Ho ltac:(lia)) as Hrange.
  rewrite <-Hi in Hrange. subst in_. split.
  - constructor; simpl; try lia; [by unfold blen in *; rewrite length_insert|].
    rewrite !u16_in by lia. rewrite Hi. unfold ring_idx. zbool.
  - unfold contents, mb'. simpl. rewrite insert_ring_put by lia. rewrite Hi, Hs.
    rewrite ring_view_put by (lia || (change (blen [v]) with 1; lia)). done.
Qed.

(** Taking a word removes the oldest. *)
Lemma ring_get_word mb :
  ring_ok mb → 0 < entry mb →
  let out := if mb_size mb <=? u16 (out_offset mb + 1) then 0 else u16 (out_offset mb + 1) in
  let mb' := set_queue mb (msg_pool mb) (entry mb - 1) (in_offset mb) out in
  ring_ok mb' ∧ contents mb = nthZ (msg_pool mb) (out_offset mb) :: contents mb'.
Proof.
  intros [Hs Hr He Ho Hi] Hlt out mb'.
  assert (out = ring_adv (mb_size mb) (out_offset mb) 1) as Eo.
  { subst out. rewrite !u16_in by lia. unfold ring_adv. zbool. }
  split.
  - constructor; simpl; try lia.
    + rewrite Eo. apply ring_adv_range; lia.
    + rewrite Eo, Hi. unfold ring_idx, ring_adv. zbool.
  - unfold contents, mb'. simpl. rewrite Eo, Hs.
    rewrite ring_view_drop by lia. change (Z.to_nat 1) with 1%nat.
    pose proof (ring_view_lookup (msg_pool mb) (out_offset mb) (entry mb) 0 ltac:(lia) ltac:(lia) ltac:(lia)) as H0.
    assert (ring_idx (blen (msg_pool mb)) (out_offset mb) 0 = out_offset mb) as E0
      by (unfold ring_idx; zbool).
    change (Z.of_nat 0) with 0 in H0. rewrite E0 in H0.
    destruct (ring_view (msg_pool mb) (out_offset mb) (entry mb)) as [|x l] eqn:E.
    + exfalso. apply (f_equal blen) in E. rewrite ring_view_blen in E by lia.
      change (blen []) with 0 in E. lia.
    + simpl in *. rewrite drop_0. f_equal. symmetry. by apply nthZ_lookup.
Qed.

(** An urgent word goes to the front. *)
Lemma ring_urgent_word mb v :
  ring_ok mb → entry mb < mb_size mb →
  let out := if 0 <? out_offset mb then out_offset mb - 1 else mb_size mb - 1 in
  let mb' := set_queue mb (<[Z.to_nat out := v]> (msg_pool mb)) (entry mb + 1) (in_offset mb) out in
  ring_ok mb' ∧ contents mb' = v :: contents mb.
Proof.
  intros [Hs Hr He Ho Hi] Hlt out mb'.
  assert (0 ≤ out < mb_size mb) as Hout by (subst out; zbool).
  assert (ring_ok mb') as Hok.
  { constructor; simpl; try lia; [by unfold blen in *; rewrite length_insert|].
    rewrite Hi. subst out. unfold ring_idx. zbool. }
  split; [done |].
  assert (∀ i, 0 ≤ i < entry mb →
    ring_idx (mb_size mb) out (i + 1) = ring_idx (mb_size mb) (out_offset mb) i
    ∧ ring_idx (mb_size mb) (out_offset mb) i ≠ out) as Hidx.
  { intros i Hii. subst out. unfold ring_idx. zbool. }
  assert (blen (<[Z.to_nat out := v]> (msg_pool mb)) = blen (msg_pool mb)) as Hb
    by (unfold blen; by rewrite length_insert).
  unfold contents, mb'. simpl. apply list_eq. intros [|i].
  - rewrite ring_view_lookup by lia. rewrite Hb. change (Z.of_nat 0) with 0.
    replace (ring_idx (blen (msg_pool mb)) out 0) with out by (unfold ring_idx; zbool).
    apply list_lookup_insert_eq. unfold blen in *. lia.
  - simpl. destruct (decide (Z.of_nat i < entry mb)) as [Hii|Hii].
    + rewrite !ring_view_lookup by lia. rewrite Hb, <-Hs.
      replace (Z.of_nat (S i)) with (Z.of_nat i + 1) by lia.
      destruct (Hidx (Z.of_nat i)) as [-> Hne]; [lia |].
      pose proof (ring_idx_range (mb_size mb) (out_offset mb) (Z.of_nat i) Ho ltac:(lia)).
      apply list_lookup_insert_ne. lia.
    + rewrite !lookup_ge_None_2; [done | rewrite ring_view_length; lia | rewrite ring_view_length; lia].
Qed.

(** * The invariant *)

Definition is_send (c : option cont) : Prop := ∃ v n k, c = Some (CSend v n k).
Definition is_recv (c : option cont) : Prop := ∃ n k, c = Some (CRecv n k).

(** Everything but the wake-up counts. *)
Record mb_core (ts : threads) (mb : rt_mailbox) (conts : gmap nat cont) (rr rs : list nat) : Prop := {
  c_ring : ring_ok mb;
  c_lists : lists_ok is_recv is_send ts (mb_flag mb) (receivers mb) (suspend_sender_thread mb) conts rr rs
}.

Lemma c_wait {ts mb conts rr rs} : mb_core ts mb conts rr rs → wait_ok ts (receivers mb ++ suspend_sender_thread mb).
Proof. intros [_ Hl]. apply Hl. Qed.

(** No wake-up is lost: while a receiver waits, every word in the mailbox has a woken
    receiver on its way; while a sender waits, every free place has a woken sender. *)
Record wakes (mb : rt_mailbox) (rr rs : list nat) : Prop := {
  k_recv : receivers mb ≠ [] → entry mb ≤ blen rr;
  k_send : suspend_sender_thread mb ≠ [] → mb_size mb - entry mb ≤ blen rs
}.

Definition mb_ok (s : mb_state) : Prop :=
  mb_core (ms_ts s) (ms_mb s) (ms_conts s) (ms_rdy_recv s) (ms_rdy_send s)
  ∧ wakes (ms_mb s) (ms_rdy_recv s) (ms_rdy_send s).

Lemma is_send_recv c : is_send c → is_recv c → False.
Proof. intros (? & ? & ? & ->) (? & ? & [=]). Qed.

Section waking.
Context (ts : threads) (mb : rt_mailbox) (conts : gmap nat cont) (rr rs : list nat).
Context (Hc : mb_core ts mb conts rr rs).
Context (Hnw : Forall (λ t, t_pend (th ts t) = false) (receivers mb ++ suspend_sender_thread mb)).

(** A receiver is woken, if one waits. *)
Lemma wake_receiver_core :
  ∃ w ts' l, wake_receiver ts mb = (w, ts', set_receivers mb l)
    ∧ receivers mb = w ++ l ∧ (receivers mb ≠ [] → blen w = 1)
    ∧ mb_core ts' (set_receivers mb l) conts (rr ++ w) rs
    ∧ (∀ u, u ∉ receivers mb → th ts' u = th ts u).
Proof using Hc Hnw.
  destruct Hc as [Hr Hl]. unfold wake_receiver.
  destruct (lists_wake _ _ _ _ _ _ _ _ _ Hl Hnw) as (w & ts' & l & -> & E & Hw & Hl' & Hu). exists w, ts', l.
  split_and!; try done. split; [|done]. destruct Hr. by constructor.
Qed.

Lemma wake_sender_core :
  ∃ w ts' l, wake_sender ts mb = (w, ts', set_senders mb l)
    ∧ suspend_sender_thread mb = w ++ l ∧ (suspend_sender_thread mb ≠ [] → blen w = 1)
    ∧ mb_core ts' (set_senders mb l) conts rr (rs ++ w)
    ∧ (∀ u, u ∉ suspend_sender_thread mb → th ts' u = th ts u).
Proof using Hc Hnw.
  destruct Hc as [Hr Hl]. unfold wake_sender.
  destruct (lists_wake _ _ _ _ _ _ _ _ _ (lists_sym _ _ _ _ _ _ _ _ _ Hl)) as (w & ts' & l & -> & E & Hw & Hl' & Hu).
  { by rewrite Permutation_app_comm. }
  exists w, ts', l. split_and!; try done. split; [|by apply lists_sym]. destruct Hr. by constructor.
Qed.

End waking.

(** * Steps of a thread *)

Lemma core_queue ts mb conts rr rs pool n i o :
  mb_core ts mb conts rr rs → ring_ok (set_queue mb pool n i o) →
  mb_core ts (set_queue mb pool n i o) conts rr rs.
Proof. intros [] Hr. by constructor. Qed.

(** The call of [t] ends; [t] was not waiting, and only its own record changed. *)
Lemma core_finish ts ts' mb conts rr rs t :
  mb_core ts mb conts rr rs → t ∉ receivers mb ++ suspend_sender_thread mb →
  wait_ok ts' (receivers mb ++ suspend_sender_thread mb) → same_prio ts ts' →
  (∀ u, u ≠ t → th ts' u = th ts u) →
  mb_core ts' mb (delete t conts) (list_remove rr t) (list_remove rs t).
Proof.
  intros [Hr Hl] Ht Hw Hs Hu. split; [done |]. eapply lists_change; try done. intros u Hne.
  split; [by apply Hu | by rewrite lookup_delete_ne].
Qed.

(** [t] starts to wait on one of the lists. *)
Lemma core_wait ts ts' mb mb' conts rr rs t c :
  mb_core ts mb conts rr rs → t ∉ receivers mb ++ suspend_sender_thread mb →
  wait_ok ts' (t :: (receivers mb ++ suspend_sender_thread mb)) → same_prio ts ts' →
  (∀ u, u ≠ t → th ts' u = th ts u) →
  (mb' = set_receivers mb (rt_susp_list_enqueue ts (receivers mb) t (mb_flag mb)) ∧ is_recv (Some c)
   ∨ mb' = set_senders mb (rt_susp_list_enqueue ts (suspend_sender_thread mb) t (mb_flag mb)) ∧ is_send (Some c)) →
  mb_core ts' mb' (<[t := c]> conts) (list_remove rr t) (list_remove rs t).
Proof.
  intros [Hr Hl] Ht Hw Hs Hu [[-> Hk] | [-> Hk]]; (split; [destruct Hr; by constructor |]); simpl.
  - by apply lists_enqueue.
  - apply lists_sym, lists_enqueue; try done; [by apply lists_sym | set_solver |].
    eapply wait_ok_perm; [|exact Hw]. apply perm_skip, Permutation_app_comm.
Qed.

Lemma mb_suspend_spec ts W l t flag timeout tick now :
  wait_ok ts W → t ∉ W → flag = RT_IPC_FLAG_FIFO ∨ flag = RT_IPC_FLAG_PRIO →
  ∃ k ts', mb_suspend (upd ts t (set_error (th ts t) (- RT_EINTR))) l t flag timeout tick now
      = (MBlocks timeout k, ts', rt_susp_list_enqueue ts l t flag)
    ∧ wait_ok ts' (t :: W) ∧ same_prio ts ts' ∧ (∀ u, u ≠ t → th ts' u = th ts u).
Proof.
  intros Hw Ht Hf. unfold mb_suspend.
  destruct (block_spec ts W l t flag (- RT_EINTR) timeout Hw Ht Hf) as (ts1 & -> & Hb). simpl in *.
  destruct Hb as (Hw2 & Hs2 & Hu2 & _). destruct (0 <? timeout); eauto 10.
Qed.

(** What the abstract queue of [n] places does. *)
Definition q_step (n : Z) (q : list Z) (e : mb_event) (q' : list Z) : Prop :=
  match e with
  | Sent v => blen q < n ∧ q' = q ++ [v]
  | SentUrgent v => blen q < n ∧ q' = v :: q
  | Received v => q = v :: q'
  | Failed _ | Blocked | Silent => q' = q
  | WasReset => q' = []
  end.

(** A good step: the invariant is kept and the queue follows the event. *)
Definition good (mb : rt_mailbox) (x : mb_event * mb_state) : Prop :=
  mb_ok x.2 ∧ mb_size (ms_mb x.2) = mb_size mb ∧ mb_flag (ms_mb x.2) = mb_flag mb
  ∧ q_step (mb_size mb) (contents mb) x.1 (contents (ms_mb x.2)).

Section thread.
Context (ts : threads) (mb : rt_mailbox) (conts : gmap nat cont) (rr rs : list nat) (t : nat).
Context (Hc : mb_core ts mb conts rr rs) (Hk : wakes mb rr rs).
Context (Hnw : Forall (λ t, t_pend (th ts t) = false) (receivers mb ++ suspend_sender_thread mb)).
Context (Ht : t ∉ receivers mb ++ suspend_sender_thread mb).

Let s := mk_ms ts mb conts rr rs.

Lemma put_good v :
  t ∉ rr → entry mb < mb_size mb → good mb (after_send s t v (mb_put ts mb v)).
Proof using Hc Hk Hnw Ht.
  intros Hrr Hlt. pose proof (c_ring _ _ _ _ _ Hc) as Hr. unfold mb_put.
  destruct (ring_put_word mb v Hr Hlt) as [Hr' Hq].
  replace (entry mb <? RT_MB_ENTRY_MAX) with true
    by (symmetry; apply Z.ltb_lt; unfold RT_MB_ENTRY_MAX; destruct Hr; lia).
  set (mb' := set_queue _ _ _ _ _) in *.
  pose proof (core_queue _ _ _ _ _ _ _ _ _ Hc Hr') as Hc'. fold mb' in Hc'.
  destruct (wake_receiver_core ts mb' conts rr rs Hc' Hnw) as (w & ts' & l & -> & Ew & Hw1 & Hcw & Hu).
  simpl. change (receivers mb') with (receivers mb) in *.
  assert (t ∉ rr ++ w) as Hrw by (rewrite Ew in Ht; set_solver).
  assert (t ∉ l ++ suspend_sender_thread mb) as Ht' by (rewrite Ew in Ht; set_solver).
  pose proof (core_finish ts' ts' _ _ _ _ t Hcw Ht' (c_wait Hcw) (reflexivity _) (λ _ _, eq_refl)) as Hf.
  rewrite (list_remove_notin (rr ++ w)) in Hf by done.
  split_and!; [split; [exact Hf |] | done | done | split; [by rewrite (mb_contents_blen mb Hr) | exact Hq]].
  destruct Hk as [Hkr Hks]. pose proof (list_remove_blen rs t (proj1 (l_rb _ _ _ _ _ _ _ _ _ (c_lists _ _ _ _ _ Hc)))).
  constructor; simpl.
  - intros Hne. assert (receivers mb ≠ []) as Hne' by (rewrite Ew; by destruct w).
    specialize (Hkr Hne'). specialize (Hw1 Hne'). rewrite blen_app. lia.
  - intros Hne. specialize (Hks Hne). lia.
Qed.

Lemma get_good :
  t ∉ rs → 0 < entry mb → good mb (after_recv s t (mb_get ts mb)).
Proof using Hc Hk Hnw Ht.
  intros Hrs Hlt. pose proof (c_ring _ _ _ _ _ Hc) as Hr. unfold mb_get.
  destruct (ring_get_word mb Hr Hlt) as [Hr' Hq].
  replace (0 <? entry mb) with true by (symmetry; by apply Z.ltb_lt).
  set (mb' := set_queue _ _ _ _ _) in *.
  pose proof (core_queue _ _ _ _ _ _ _ _ _ Hc Hr') as Hc'. fold mb' in Hc'.
  destruct (wake_sender_core ts mb' conts rr rs Hc' Hnw) as (w & ts' & l & -> & Ew & Hw1 & Hcw & Hu).
  simpl. change (suspend_sender_thread mb') with (suspend_sender_thread mb) in *.
  assert (t ∉ rs ++ w) as Hrw by (rewrite Ew in Ht; set_solver).
  assert (t ∉ receivers mb ++ l) as Ht' by (rewrite Ew in Ht; set_solver).
  pose proof (core_finish ts' ts' _ _ _ _ t Hcw Ht' (c_wait Hcw) (reflexivity _) (λ _ _, eq_refl)) as Hf.
  rewrite (list_remove_notin (rs ++ w)) in Hf by done.
  split_and!; [split; [exact Hf |] | done | done | exact Hq].
  destruct Hk as [Hkr Hks]. pose proof (list_remove_blen rr t (proj1 (l_ra _ _ _ _ _ _ _ _ _ (c_lists _ _ _ _ _ Hc)))).
  constructor; simpl.
  - intros Hne. specialize (Hkr Hne). lia.
  - intros Hne. assert (suspend_sender_thread mb ≠ []) as Hne' by (rewrite Ew; by destruct w).
    specialize (Hks Hne'). specialize (Hw1 Hne'). rewrite blen_app. lia.
Qed.

(** A send that returns an error. *)
Lemma send_fail_good v r ts' :
  t ∉ rr → t ∉ rs ∨ entry mb = mb_size mb → r ≠ RT_EOK →
  wait_ok ts' (receivers mb ++ suspend_sender_thread mb) → same_prio ts ts' →
  (∀ u, u ≠ t → th ts' u = th ts u) →
  good mb (after_send s t v (MReturns r None, [], ts', mb)).
Proof using Hc Hk Ht.
  intros Hrr Hrs Hr Hw Hs Hu. pose proof (core_finish ts ts' _ _ _ _ t Hc Ht Hw Hs Hu) as Hf.
  rewrite (list_remove_notin rr) in Hf by done. simpl. rewrite (proj2 (Z.eqb_neq r RT_EOK)) by done.
  unfold good. simpl. rewrite app_nil_r. split_and!; [split; [exact Hf |] | done | done | done].
  simpl. destruct Hk as [Hkr Hks]. constructor; [done |]. intros Hne. specialize (Hks Hne).
  destruct Hrs as [Hrs | ->]; [by rewrite list_remove_notin |]. rewrite Z.sub_diag. apply blen_nonneg.
Qed.

Lemma recv_fail_good r ts' :
  t ∉ rs → t ∉ rr ∨ entry mb = 0 →
  wait_ok ts' (receivers mb ++ suspend_sender_thread mb) → same_prio ts ts' →
  (∀ u, u ≠ t → th ts' u = th ts u) →
  good mb (after_recv s t (MReturns r None, [], ts', mb)).
Proof using Hc Hk Ht.
  intros Hrs Hrr Hw Hs Hu. pose proof (core_finish ts ts' _ _ _ _ t Hc Ht Hw Hs Hu) as Hf.
  rewrite (list_remove_notin rs) in Hf by done.
  unfold good. simpl. rewrite app_nil_r. split_and!; [split; [exact Hf |] | done | done | done].
  simpl. destruct Hk as [Hkr Hks]. constructor; [|done]. intros Hne. specialize (Hkr Hne).
  destruct Hrr as [Hrr | ->]; [by rewrite list_remove_notin |]. apply blen_nonneg.
Qed.

Lemma send_round_good v timeout tick now :
  t ∉ rr → good mb (after_send s t v (mb_send_round ts mb t v timeout tick now)).
Proof using Hc Hk Hnw Ht.
  intros Hrr. unfold mb_send_round. pose proof (c_ring _ _ _ _ _ Hc) as Hr.
  destruct (Z.eqb_spec (entry mb) (mb_size mb)) as [Hfull|Hnf];
    [|apply put_good; [done | destruct Hr; lia]].
  destruct (Z.eqb_spec timeout 0) as [->|Hto].
  { apply send_fail_good; [done | by right | done | by apply wait_ok_error, Hc | by apply same_prio_upd |].
    intros u Hu. by rewrite th_upd_ne. }
  destruct (mb_suspend_spec ts _ (suspend_sender_thread mb) t (mb_flag mb) timeout tick now
    (c_wait Hc) Ht (l_flag _ _ _ _ _ _ _ _ _ (c_lists _ _ _ _ _ Hc))) as (k & ts' & -> & Hw2 & Hs2 & Hu2).
  destruct Hk as [Hkr Hks].
  pose proof (core_wait ts ts' mb _ conts rr rs t (CSend v timeout k) Hc Ht Hw2 Hs2 Hu2
    (or_intror (conj eq_refl (ex_intro _ _ (ex_intro _ _ (ex_intro _ _ eq_refl)))))) as Hf.
  rewrite (list_remove_notin rr) in Hf by done.
  unfold good. simpl. split_and!; [split; [exact Hf |] | done | done | done].
  constructor; simpl; [done |]; intros _; rewrite Hfull, Z.sub_diag; apply blen_nonneg.
Qed.

Lemma recv_round_good timeout tick now :
  t ∉ rs → good mb (after_recv s t (mb_recv_round ts mb t timeout tick now)).
Proof using Hc Hk Hnw Ht.
  intros Hrs. unfold mb_recv_round. pose proof (c_ring _ _ _ _ _ Hc) as Hr.
  destruct (Z.eqb_spec (entry mb) 0) as [Hemp|Hne];
    [|apply get_good; [done | destruct Hr; lia]].
  destruct (Z.eqb_spec timeout 0) as [->|Hto].
  { apply recv_fail_good; [done | by right | by do 2 apply wait_ok_error; apply Hc | |].
    - transitivity (upd ts t (set_error (th ts t) (- RT_EINTR))); by apply same_prio_upd.
    - intros u Hu. by rewrite !th_upd_ne. }
  destruct (mb_suspend_spec ts _ (receivers mb) t (mb_flag mb) timeout tick now
    (c_wait Hc) Ht (l_flag _ _ _ _ _ _ _ _ _ (c_lists _ _ _ _ _ Hc))) as (k & ts' & -> & Hw2 & Hs2 & Hu2).
  destruct Hk as [Hkr Hks].
  pose proof (core_wait ts ts' mb _ conts rr rs t (CRecv timeout k) Hc Ht Hw2 Hs2 Hu2
    (or_introl (conj eq_refl (ex_intro _ _ (ex_intro _ _ eq_refl))))) as Hf.
  rewrite (list_remove_notin rs) in Hf by done.
  unfold good. simpl. split_and!; [split; [exact Hf |] | done | done | done].
  constructor; simpl; [|done]; intros _; rewrite Hemp; apply blen_nonneg.
Qed.

End thread.

(** * Every step is good *)

Definition mb_step_good (s : mb_state) (o : mb_op) : Prop :=
  ∃ e s', mb_exec s o = Some (e, s') ∧ good (ms_mb s) (e, s').

Lemma not_send_none : ¬ is_send None.
Proof. by intros (? & ? & ? & ?). Qed.
Lemma not_recv_none : ¬ is_recv None.
Proof. by intros (? & ? & ?). Qed.

Lemma send_step s t v timeout now :
  mb_ok s → mb_enabled s (MSend t v timeout now) → mb_step_good s (MSend t v timeout now).
Proof.
  destruct s as [ts mb conts rr rs]. intros [Hc Hk] (Hsu & Hco & Hnw). simpl in *.
  assert (t ∉ receivers mb ++ suspend_sender_thread mb) as Ht
    by (by apply (not_susp ts _ _ (c_wait Hc))).
  assert (t ∉ rr) as Hrr by (eapply rdy_kind; [apply Hc | rewrite Hco; apply not_recv_none]).
  assert (t ∉ rs) as Hrs by (eapply rdy_kind; [apply Hc | rewrite Hco; apply not_send_none]).
  unfold mb_step_good. simpl. unfold rt_mb_send_wait, _rt_mb_send_wait.
  eexists _, _. split; [f_equal; apply surjective_pairing |]. rewrite <-surjective_pairing.
  destruct ((entry mb =? mb_size mb) && (timeout =? 0)).
  - apply (send_fail_good ts mb conts rr rs t Hc Hk Ht); [done | by left | done | apply Hc | done | done].
  - by apply send_round_good.
Qed.

Lemma recv_step s t timeout now :
  mb_ok s → mb_enabled s (MRecv t timeout now) → mb_step_good s (MRecv t timeout now).
Proof.
  destruct s as [ts mb conts rr rs]. intros [Hc Hk] (Hsu & Hco & Hnw). simpl in *.
  assert (t ∉ receivers mb ++ suspend_sender_thread mb) as Ht
    by (by apply (not_susp ts _ _ (c_wait Hc))).
  assert (t ∉ rr) as Hrr by (eapply rdy_kind; [apply Hc | rewrite Hco; apply not_recv_none]).
  assert (t ∉ rs) as Hrs by (eapply rdy_kind; [apply Hc | rewrite Hco; apply not_send_none]).
  unfold mb_step_good. simpl. unfold rt_mb_recv, _rt_mb_recv.
  eexists _, _. split; [f_equal; apply surjective_pairing |]. rewrite <-surjective_pairing.
  destruct ((entry mb =? 0) && (timeout =? 0)).
  - apply (recv_fail_good ts mb conts rr rs t Hc Hk Ht); [done | by left | apply Hc | done | done].
  - by apply recv_round_good.
Qed.

Lemma resume_step s t now : mb_ok s → mb_enabled s (MResume t now) → mb_step_good s (MResume t now).
Proof.
  destruct s as [ts mb conts rr rs]. intros [Hc Hk] (Hsu & [c Hco] & Hnw). simpl in *.
  assert (t ∉ receivers mb ++ suspend_sender_thread mb) as Ht
    by (by apply (not_susp ts _ _ (c_wait Hc))).
  unfold mb_step_good. simpl. rewrite Hco. destruct c as [v timeout tick | timeout tick].
  - assert (t ∉ rr) as Hrr.
    { eapply rdy_kind; [apply Hc |]. rewrite Hco. intros Hr. eapply is_send_recv; [|done]. by eexists _, _, _. }
    eexists _, _. split; [f_equal; apply surjective_pairing |]. rewrite <-surjective_pairing.
    unfold mb_send_resume. destruct (Z.eqb_spec (t_error (th ts t)) RT_EOK) as [He|He]; simpl negb; cbv iota.
    + by apply send_round_good.
    + apply (send_fail_good ts mb conts rr rs t Hc Hk Ht); [done | | done | apply Hc | done | done].
      left. intros Hin. apply He. by apply (l_rb _ _ _ _ _ _ _ _ _ (c_lists _ _ _ _ _ Hc)).
  - assert (t ∉ rs) as Hrs.
    { eapply rdy_kind; [apply Hc |]. rewrite Hco. intros Hr. eapply is_send_recv; [done |]. by eexists _, _. }
    eexists _, _. split; [f_equal; apply surjective_pairing |]. rewrite <-surjective_pairing.
    unfold mb_recv_resume. destruct (Z.eqb_spec (t_error (th ts t)) RT_EOK) as [He|He]; simpl negb; cbv iota.
    + by apply recv_round_good.
    + apply (recv_fail_good ts mb conts rr rs t Hc Hk Ht); [done | | apply Hc | done | done].
      left. intros Hin. apply He. by apply (l_ra _ _ _ _ _ _ _ _ _ (c_lists _ _ _ _ _ Hc)).
Qed.

Lemma urgent_step s v : mb_ok s → mb_enabled s (MUrgent v) → mb_step_good s (MUrgent v).
Proof.
  destruct s as [ts mb conts rr rs]. intros [Hc Hk] Hnw. unfold mb_enabled, mb_no_window in Hnw. simpl in *.
  pose proof (c_ring _ _ _ _ _ Hc) as Hr. unfold mb_step_good. simpl. unfold rt_mb_urgent.
  destruct (Z.eqb_spec (entry mb) (mb_size mb)) as [Hfull|Hnf].
  { eexists _, _. split; [done |]. rewrite app_nil_r. by split_and!. }
  destruct (ring_urgent_word mb v Hr) as [Hr' Hq]; [destruct Hr; lia |].
  set (mb' := set_queue _ _ _ _ _) in *.
  pose proof (core_queue _ _ _ _ _ _ _ _ _ Hc Hr') as Hc'. fold mb' in Hc'.
  destruct (wake_receiver_core ts mb' conts rr rs Hc' Hnw) as (w & ts' & l & -> & Ew & Hw1 & Hcw & Hu).
  eexists _, _. split; [done |]. change (receivers mb') with (receivers mb) in *.
  split_and!; [split; [exact Hcw |] | done | done | split; [rewrite (mb_contents_blen mb Hr); destruct Hr; lia | exact Hq]].
  destruct Hk as [Hkr Hks]. constructor; simpl.
  - intros Hne. assert (receivers mb ≠ []) as Hne' by (rewrite Ew; by destruct w).
    specialize (Hkr Hne'). specialize (Hw1 Hne'). rewrite blen_app. lia.
  - intros Hne. specialize (Hks Hne). lia.
Qed.

Lemma reset_step s : mb_ok s → mb_enabled s MReset → mb_step_good s MReset.
Proof.
  destruct s as [ts mb conts rr rs]. intros [[Hr Hl] Hk] Hnw. unfold mb_enabled, mb_no_window in Hnw. simpl in *.
  unfold mb_step_good. simpl. unfold rt_mb_control, resume_both. simpl.
  destruct (lists_resume_all _ _ _ _ _ _ _ _ _ Hl Hnw) as (ts1 & ts2 & -> & -> & Hl' & _). eexists _, _. split; [done |].
  assert (ring_ok (set_queue (set_senders (set_receivers mb []) []) (msg_pool mb) 0 0 0)) as Hr'.
  { destruct Hr. constructor; simpl; try lia. unfold ring_idx. zbool. }
  split_and!; [split; [by split | by constructor] | done | done |].
  simpl. unfold contents, ring_view. simpl. by rewrite take_0.
Qed.

Lemma expire_step s t : mb_ok s → mb_enabled s (MExpire t) → mb_step_good s (MExpire t).
Proof.
  destruct s as [ts mb conts rr rs]. intros [[Hr Hl] Hk] Hen. simpl in *. eexists _, _. split; [done |].
  split_and!; [split; [|done] | done | done | done]. split; [done |]. by apply lists_expire.
Qed.

Lemma timeout_step s t : mb_ok s → mb_enabled s (MTimeout t) → mb_step_good s (MTimeout t).
Proof.
  destruct s as [ts mb conts rr rs]. intros [[Hr Hl] [Hkr Hks]] Hen. simpl in *.
  destruct (lists_timeout _ _ _ _ _ _ _ _ _ t (receivers mb) Hl Hen) as (ts' & E & _ & _ & Hl').
  unfold mb_step_good. simpl. rewrite E. eexists _, _. split; [done |].
  split_and!; [split | done | done | done].
  - split; [destruct Hr; by constructor | done].
  - constructor; simpl.
    + intros Hne. apply Hkr. by intros E0; rewrite E0 in Hne.
    + intros Hne. apply Hks. by intros E0; rewrite E0 in Hne.
Qed.

Lemma mb_step_ok s o : mb_ok s → mb_enabled s o → mb_step_good s o.
Proof.
  destruct o; auto using send_step, recv_step, resume_step, urgent_step, reset_step, expire_step,
    timeout_step.
Qed.

(** * Theorems *)

(** Runs of the abstract queue of [n] places. *)
Inductive q_run (n : Z) : list Z → list mb_event → list Z → Prop :=
  | qrun_nil q : q_run n q [] q
  | qrun_step q e q' es q'' : q_step n q e q' → q_run n q' es q'' → q_run n q (e :: es) q''.

(** A fresh mailbox among threads of which none is suspended or inside a call. *)
Definition mb_start (ts : threads) (pool : list Z) (size flag : Z) : mb_state :=
  mk_ms ts (rt_mb_init pool size flag).2 ∅ [] [].

Lemma mb_start_ok ts pool size flag :
  wait_ok ts [] → 1 ≤ size ≤ 65535 → blen pool = size →
  flag = RT_IPC_FLAG_FIFO ∨ flag = RT_IPC_FLAG_PRIO → mb_ok (mb_start ts pool size flag).
Proof.
  intros Hw Hs Hp Hf. unfold mb_start, rt_mb_init. simpl. rewrite u16_in by lia. split; [|by constructor].
  split; [|by apply lists_start].
  constructor; simpl; try lia. unfold ring_idx. zbool.
Qed.

Lemma mb_run_good s tr s' :
  mb_ok s → mb_run s tr s' →
  mb_ok s' ∧ mb_size (ms_mb s') = mb_size (ms_mb s)
  ∧ q_run (mb_size (ms_mb s)) (contents (ms_mb s)) (tr.*2) (contents (ms_mb s')).
Proof.
  intros Hok Hrun. induction Hrun as [s | s o e s1 tr s2 Hen He Hrun IH].
  - split_and!; [done | done | constructor].
  - destruct (mb_step_ok s o Hok Hen) as (e' & s1' & He' & Hok1 & Hsz & _ & Hq).
    rewrite He' in He. injection He as -> ->. simpl in *.
    destruct (IH Hok1) as (Hok2 & Hsz2 & Hq2). rewrite Hsz in *.
    split_and!; [done | done |]. by econstructor.
Qed.

(** C29. A mailbox is a bounded queue. From [rt_mb_init], for any interleaving of sends
    (blocking and not), urgent sends, receives, resumptions of blocked calls, timeouts
    and resets, in which no other interrupt enters between a timer expiry and its
    handler: the words sent successfully come out in order, urgent ones first, each
    exactly once (the events form a run of the abstract queue, whose contents are what
    the ring holds), every further operation can be carried out, and the non-blocking
    calls fail exactly when the queue is full, or empty. *)
Theorem mb_refines_queue (ts : threads) (pool : list Z) (size flag : Z)
    (tr : list (mb_op * mb_event)) (s : mb_state)
    (Hts : wait_ok ts []) (Hsize : 1 ≤ size ≤ 65535) (Hpool : blen pool = size)
    (Hflag : flag = RT_IPC_FLAG_FIFO ∨ flag = RT_IPC_FLAG_PRIO)
    (Hrun : mb_run (mb_start ts pool size flag) tr s) :
  let q := contents (ms_mb s) in
  q_run size [] (tr.*2) q
  ∧ blen q = entry (ms_mb s) ∧ 0 ≤ blen q ≤ size
  ∧ (∀ o, mb_enabled s o → ∃ e s', mb_exec s o = Some (e, s') ∧ q_step size q e (contents (ms_mb s')))
  ∧ (∀ t v now, mb_enabled s (MSend t v 0 now) → ∃ s',
       mb_exec s (MSend t v 0 now)
         = Some (if blen q =? size then Failed (- RT_EFULL) else Sent v, s'))
  ∧ (∀ t now, mb_enabled s (MRecv t 0 now) → ∃ s',
       mb_exec s (MRecv t 0 now)
         = Some (match q with [] => Failed (- RT_ETIMEOUT) | v :: _ => Received v end, s')).
Proof.
  intros q. pose proof (mb_start_ok ts pool size flag Hts Hsize Hpool Hflag) as Hok0.
  destruct (mb_run_good _ _ _ Hok0 Hrun) as (Hok & Hsz & Hq). simpl in Hsz, Hq.
  rewrite u16_in in Hsz, Hq by lia. change (contents _) with (@nil Z) in Hq at 1.
  pose proof (c_ring _ _ _ _ _ (proj1 Hok)) as Hr. pose proof (mb_contents_blen _ Hr) as Hb. fold q in Hb, Hq.
  split_and!; [done | done | destruct Hr; lia | destruct Hr; lia | | |].
  - intros o Ho. destruct (mb_step_ok s o Hok Ho) as (e & s' & He & _ & _ & _ & Hs). simpl in Hs.
    rewrite Hsz in Hs. eauto.
  - intros t v now Ho. destruct (mb_step_ok s _ Hok Ho) as (e & s' & He & _ & _ & _ & Hs).
    exists s'. rewrite He. do 2 f_equal. simpl in He. unfold rt_mb_send_wait, _rt_mb_send_wait in He.
    rewrite andb_true_r, Hsz, <-Hb in He. fold q in He. destruct (Z.eqb_spec (blen q) size) as [E|E].
    + by injection He as <- _.
    + simpl in He. unfold mb_send_round in He. rewrite Hsz, <-Hb in He.
      destruct (Z.eqb_spec (blen q) size); [done |]. unfold mb_put in He.
      rewrite <-Hb in He. destruct (Z.ltb_spec (blen q) RT_MB_ENTRY_MAX) as [_|Hge].
      * destruct (wake_receiver _ _) as [[w ts'] mb']. by injection He as <- _.
      * unfold RT_MB_ENTRY_MAX in Hge. destruct Hr. lia.
  - intros t now Ho. destruct (mb_step_ok s _ Hok Ho) as (e & s' & He & _ & _ & _ & Hs).
    exists s'. rewrite He. do 2 f_equal. simpl in He, Hs. unfold rt_mb_recv, _rt_mb_recv in He.
    rewrite andb_true_r, <-Hb in He. fold q in He, Hs. destruct q as [|v q'] eqn:Eq.
    + by injection He as <- _.
    + destruct (Z.eqb_spec (blen (v :: q')) 0) as [E|E]; [unfold blen in E; simpl in E; lia |].
      simpl in He. unfold mb_recv_round in He. rewrite <-Hb in He.
      destruct (Z.eqb_spec (blen (v :: q')) 0); [done |]. unfold mb_get in He.
      destruct (wake_sender _ _) as [[w ts'] mb']. injection He as <- _. simpl in Hs.
      by injection Hs as ->.
Qed.

(** No wake-up of a mailbox is lost. In every state reached by such a run, while a
    receiver waits each word in the mailbox has a receiver that was woken with success
    and has yet to run, and while a sender waits each free place has such a sender; so
    when no woken thread is left to run, receivers wait only on an empty mailbox and
    senders only on a full one. *)
Theorem mb_no_lost_wakeup (ts : threads) (pool : list Z) (size flag : Z)
    (tr : list (mb_op * mb_event)) (s : mb_state)
    (Hts : wait_ok ts []) (Hsize : 1 ≤ size ≤ 65535) (Hpool : blen pool = size)
    (Hflag : flag = RT_IPC_FLAG_FIFO ∨ flag = RT_IPC_FLAG_PRIO)
    (Hrun : mb_run (mb_start ts pool size flag) tr s) :
  let q := contents (ms_mb s) in
  (receivers (ms_mb s) ≠ [] → blen q ≤ blen (ms_rdy_recv s))
  ∧ (suspend_sender_thread (ms_mb s) ≠ [] → size - blen q ≤ blen (ms_rdy_send s))
  ∧ (ms_rdy_recv s = [] → receivers (ms_mb s) ≠ [] → q = [])
  ∧ (ms_rdy_send s = [] → suspend_sender_thread (ms_mb s) ≠ [] → blen q = size).
Proof.
  intros q. pose proof (mb_start_ok ts pool size flag Hts Hsize Hpool Hflag) as Hok0.
  destruct (mb_run_good _ _ _ Hok0 Hrun) as ([Hc [Hkr Hks]] & Hsz & _). simpl in Hsz.
  rewrite u16_in in Hsz by lia.
  pose proof (c_ring _ _ _ _ _ Hc) as Hr. pose proof (mb_contents_blen _ Hr) as Hb. fold q in Hb.
  rewrite Hsz in Hks. rewrite <-Hb in *. split_and!; [done | done | |].
  - intros E Hne. specialize (Hkr Hne). rewrite E in Hkr. change (blen []) with 0 in Hkr.
    destruct q; [done |]. unfold blen in Hkr. simpl in Hkr. lia.
  - intros E Hne. specialize (Hks Hne). rewrite E in Hks. change (blen []) with 0 in Hks.
    destruct Hr. lia.
Qed.

(** * Witnesses *)

(** Thread 1 waits for a word, thread 2 sends two words and an urgent one into two
    places, thread 1 resumes and receives. *)
Definition mb_trace : list (mb_op * mb_event) :=
  [(MRecv 1 10 100, Blocked); (MSend 2 7 0 101, Sent 7); (MUrgent 8, SentUrgent 8);
   (MSend 2 9 (-1) 102, Blocked); (MResume 1 103, Received 8); (MResume 2 104, Sent 9);
   (MRecv 1 0 105, Received 7)].

Definition mb_threads : threads := ∅.

Lemma mb_threads_ready : wait_ok mb_threads [].
Proof. by apply wait_ok_nil. Qed.

Lemma mb_refines_queue_witness :
  ∃ s, mb_run (mb_start mb_threads [0; 0] 2 RT_IPC_FLAG_FIFO) mb_trace s
    ∧ q_run 2 [] (mb_trace.*2) (contents (ms_mb s)) ∧ contents (ms_mb s) = [9].
Proof.
  eexists ?[s].
  assert (mb_run (mb_start mb_threads [0; 0] 2 RT_IPC_FLAG_FIFO) mb_trace ?s) as Hrun.
  { unfold mb_trace.
    repeat (eapply mrun_step;
      [first [by repeat constructor | split_and!; [reflexivity | by eexists | by repeat constructor]]
      | vm_compute; reflexivity |]).
    apply mrun_nil. }
  split; [exact Hrun |].
  destruct (mb_refines_queue mb_threads [0; 0] 2 RT_IPC_FLAG_FIFO mb_trace _ mb_threads_ready
    ltac:(lia) eq_refl (or_introl eq_refl) Hrun) as (Hq & _).
  split; [exact Hq |]. vm_compute. reflexivity.
Defined.

Lemma mb_no_lost_wakeup_witness :
  ∃ s, mb_run (mb_start mb_threads [0; 0] 2 RT_IPC_FLAG_FIFO)
         [(MRecv 1 10 100, Blocked); (MRecv 2 10 100, Blocked); (MSend 3 7 0 101, Sent 7)] s
    ∧ receivers (ms_mb s) = [2%nat] ∧ blen (contents (ms_mb s)) ≤ blen (ms_rdy_recv s).
Proof.
  eexists ?[s].
  assert (mb_run (mb_start mb_threads [0; 0] 2 RT_IPC_FLAG_FIFO)
    [(MRecv 1 10 100, Blocked); (MRecv 2 10 100, Blocked); (MSend 3 7 0 101, Sent 7)] ?s) as Hrun.
  { repeat (eapply mrun_step;
      [split_and!; [reflexivity | reflexivity | by repeat constructor] | vm_compute; reflexivity |]).
    apply mrun_nil. }
  split; [exact Hrun |]. split; [reflexivity |].
  apply (mb_no_lost_wakeup mb_threads [0; 0] 2 RT_IPC_FLAG_FIFO _ _ mb_threads_ready
    ltac:(lia) eq_refl (or_introl eq_refl) Hrun). discriminate.
Defined.
