(* ===== verification/Mutex.v ===== *)
(** Mutexes with priority inheritance (rt-thread/src/ipc.c; the change of a priority is in
    scheduler_comm.c, the release of a closed thread's mutexes in thread.c).

    Mutexes are used by threads only, and the thread timers run in the tick interrupt, so
    the steps of a run are whole calls up to [rt_schedule], the rest of a call after it, and
    the expiry of a timer together with its handler. A result [None] is a call that does not
    return: an assertion fails, an owner that is NULL is followed, or a loop runs on. *)

From S2P Require Import Prelude.
From S2P Require Import RtDef.
From S2P Require Import Kernel.
Open Scope Z_scope.

(** * Data *)

Record rt_mutex : Type := mk_mutex {
  suspend_thread : list nat;
  ceiling_priority : Z;
  priority : Z;
  hold : Z;
  owner : option nat
}.

(** The fields of [struct rt_thread] that belong to the mutexes. *)
Record mfields : Type := mk_mf {
  init_priority : Z;
  pending_object : option nat;
  taken_object_list : list nat
}.

(** The threads and the mutexes of the system, by number. *)
Record msys : Type := mk_ms {
  ms_ts : threads;
  ms_mf : gmap nat mfields;
  ms_mx : gmap nat rt_mutex
}.

(** [rt_mutex_init]; the flag of the list is always [RT_IPC_FLAG_PRIO]. *)
Definition rt_mutex_init : rt_mutex := mk_mutex [] 255 255 0 None.

Definition tk (s : msys) (t : nat) : thread := th (ms_ts s) t.
Definition mf (s : msys) (t : nat) : mfields := default (mk_mf 0 None []) (ms_mf s !! t).
Definition mx (s : msys) (m : nat) : rt_mutex := default rt_mutex_init (ms_mx s !! m).

(** [rt_sched_thread_get_curr_prio]. *)
Definition prio (s : msys) (t : nat) : Z := t_prio (tk s t).

Definition upd_tk (t : nat) (x : thread) (s : msys) : msys := mk_ms (upd (ms_ts s) t x) (ms_mf s) (ms_mx s).
Definition upd_mf (t : nat) (f : mfields) (s : msys) : msys := mk_ms (ms_ts s) (<[t := f]> (ms_mf s)) (ms_mx s).
Definition upd_mx (m : nat) (x : rt_mutex) (s : msys) : msys := mk_ms (ms_ts s) (ms_mf s) (<[m := x]> (ms_mx s)).

Definition set_prio (p : Z) (x : thread) : thread :=
  mk_thread p (t_error x) (t_susp x) (t_ttmr x) (t_active x) (t_pend x).
Definition set_pending (o : option nat) (f : mfields) : mfields := mk_mf (init_priority f) o (taken_object_list f).
Definition set_taken (l : list nat) (f : mfields) : mfields := mk_mf (init_priority f) (pending_object f) l.
Definition set_susps (l : list nat) (x : rt_mutex) : rt_mutex :=
  mk_mutex l (ceiling_priority x) (priority x) (hold x) (owner x).
Definition set_priority (p : Z) (x : rt_mutex) : rt_mutex :=
  mk_mutex (suspend_thread x) (ceiling_priority x) p (hold x) (owner x).
Definition set_ceiling (p : Z) (x : rt_mutex) : rt_mutex :=
  mk_mutex (suspend_thread x) p (priority x) (hold x) (owner x).
Definition set_hold (n : Z) (x : rt_mutex) : rt_mutex :=
  mk_mutex (suspend_thread x) (ceiling_priority x) (priority x) n (owner x).
Definition set_owner (o : option nat) (p n : Z) (x : rt_mutex) : rt_mutex :=
  mk_mutex (suspend_thread x) (ceiling_priority x) p n o.

Definition set_err (t : nat) (e : Z) (s : msys) : msys := upd_tk t (set_error (tk s t) e) s.
Definition pend_on (t : nat) (o : option nat) (s : msys) : msys := upd_mf t (set_pending o (mf s t)) s.

(** [rt_list_insert_after] to, and [rt_list_remove] from, the list of taken mutexes. *)
Definition push_taken (t m : nat) (s : msys) : msys :=
  upd_mf t (set_taken (m :: taken_object_list (mf s t)) (mf s t)) s.
Definition drop_taken (t m : nat) (s : msys) : msys :=
  upd_mf t (set_taken (list_remove (taken_object_list (mf s t)) m) (mf s t)) s.

(** * Priorities *)

Definition rt_sched_thread_change_priority (s : msys) (t : nat) (p : Z) : option msys :=
  if p <? RT_THREAD_PRIORITY_MAX then Some (upd_tk t (set_prio p (tk s t)) s) else None.

Definition head_prio (s : msys) (l : list nat) : Z := match l with [] => 255 | t :: _ => prio s t end.
Definition _mutex_update_priority (s : msys) (m : nat) : msys :=
  upd_mx m (set_priority (head_prio s (suspend_thread (mx s m))) (mx s m)) s.

(** The more urgent one of [p] and what mutex [x] asks for. *)
Definition mutex_prio (p : Z) (x : rt_mutex) : Z :=
  let q := if priority x <? ceiling_priority x then priority x else ceiling_priority x in
  if q <? p then q else p.
Definition _thread_get_mutex_priority (s : msys) (t : nat) : Z :=
  fold_left (λ p m, mutex_prio p (mx s m)) (taken_object_list (mf s t)) (init_priority (mf s t)).

(** The loop of [_thread_update_priority], after the priority of [t] was changed. *)
Fixpoint update_loop (fuel : nat) (s : msys) (t : nat) : option msys :=
  match fuel with
  | O => None
  | S fuel =>
      if t_susp (tk s t) then
        match pending_object (mf s t) with
        | Some m =>
            let x := mx s m in
            let l := rt_susp_list_enqueue (ms_ts s) (list_remove (suspend_thread x) t) t RT_IPC_FLAG_PRIO in
            let s := _mutex_update_priority (upd_mx m (set_susps l x) s) m in
            match owner (mx s m) with
            | None => None
            | Some o =>
                let p := _thread_get_mutex_priority s o in
                if negb (p =? prio s o) then s ← rt_sched_thread_change_priority s o p; update_loop fuel s o
                else Some s
            end
        | None => Some s
        end
      else Some s
  end.

(** Every round goes from a waiting thread to the owner it waits for; without a deadlock
    no thread comes twice, so the number of threads is enough. *)
Definition _thread_update_priority (s : msys) (t : nat) (p : Z) : option msys :=
  s ← rt_sched_thread_change_priority s t p; update_loop (S (size (ms_mf s))) s t.

Definition _check_and_update_prio (s : msys) (t m : nat) : option msys :=
  if negb (ceiling_priority (mx s m) =? 255) || (prio s t =? priority (mx s m))
  then rt_sched_thread_change_priority s t (_thread_get_mutex_priority s t)
  else Some s.

(** The owner's priority is computed again. *)
Definition refresh_owner (s : msys) (o : nat) : option msys :=
  let p := _thread_get_mutex_priority s o in
  if negb (p =? prio s o) then _thread_update_priority s o p else Some s.

(** * Taking *)

(** [_rt_mutex_take] up to [rt_schedule]. *)
Definition _rt_mutex_take (s : msys) (self m : nat) (timeout : Z) : option (call * msys) :=
  let s := set_err self RT_EOK s in
  let x := mx s m in
  match owner x with
  | Some o =>
      if decide (o = self) then
        if hold x <? RT_MUTEX_HOLD_MAX then Some (Returns RT_EOK, upd_mx m (set_hold (hold x + 1) x) s)
        else Some (Returns (- RT_EFULL), s)
      else if timeout =? 0 then Some (Returns (- RT_ETIMEOUT), set_err self RT_ETIMEOUT s)
      else
        let '(ret, ts, l) := rt_thread_suspend_to_list (ms_ts s) (suspend_thread x) self RT_IPC_FLAG_PRIO in
        let s := upd_mx m (set_susps l x) (mk_ms ts (ms_mf s) (ms_mx s)) in
        if negb (ret =? RT_EOK) then Some (Returns ret, s)
        else
          let s := pend_on self (Some m) s in
          let p := prio s self in
          s ← (if p <? priority (mx s m) then
                 let s := upd_mx m (set_priority p (mx s m)) s in
                 if p <? prio s o then _thread_update_priority s o p else Some s
               else Some s);
          Some (Blocks, if 0 <? timeout then upd_tk self (rt_timer_start (tk s self)) s else s)
  | None =>
      let s := upd_mx m (set_owner (Some self) 255 1 x) s in
      s ← (if negb (ceiling_priority x =? 255) && (ceiling_priority x <? prio s self)
           then _thread_update_priority s self (ceiling_priority x) else Some s);
      Some (Returns RT_EOK, push_taken self m s)
  end.

Definition rt_mutex_take (s : msys) (self m : nat) (time : Z) : option (call * msys) := _rt_mutex_take s self m time.
Definition rt_mutex_trytake (s : msys) (self m : nat) : option (call * msys) := rt_mutex_take s self m RT_WAITING_NO.

(** Thread [t] has left the list of the mutex without getting it. *)
Definition waiter_left (s : msys) (m t : nat) : option msys :=
  let o := owner (mx s m) in
  let need_update := match o with Some o => prio s o =? prio s t | None => false end in
  let s := _mutex_update_priority s m in
  match o with
  | Some o => if need_update then refresh_owner s o else Some s
  | None => Some s
  end.

(** [_rt_mutex_take] after [rt_schedule], when the thread runs again. *)
Definition mutex_take_resume (s : msys) (self m : nat) : option (Z * msys) :=
  let ret := t_error (tk s self) in
  if ret =? RT_EOK then
    if decide (owner (mx s m) = Some self) then Some (RT_EOK, s) else None
  else
    if decide (owner (mx s m) = Some self) then None
    else
      s ← waiter_left s m self;
      Some (if 0 <? ret then - ret else ret, pend_on self None s).

(** * Releasing *)

(** The loop that wakes the first thread whose timer has not just expired. *)
Fixpoint wake_loop (fuel : nat) (s : msys) (m : nat) : option (option nat * msys) :=
  match fuel with
  | O => None
  | S fuel =>
      let x := mx s m in
      match suspend_thread x with
      | [] => Some (None, s)
      | t :: _ =>
          if negb (t_susp (tk s t)) then None
          else
            let '(err, ts, l) := rt_sched_thread_ready (ms_ts s) (list_remove (suspend_thread x) t) t in
            let s := upd_mx m (set_susps l x) (mk_ms ts (ms_mf s) (ms_mx s)) in
            if negb (err =? RT_EOK) then wake_loop fuel s m else Some (Some t, s)
      end
  end.

Definition rt_mutex_release (s : msys) (self m : nat) : option (Z * msys) :=
  let x := mx s m in
  if decide (owner x = Some self) then
    let s := upd_mx m (set_hold (u8 (hold x - 1)) x) s in
    if hold (mx s m) =? 0 then
      let s := drop_taken self m s in
      s ← _check_and_update_prio s self m;
      '(next, s) ← wake_loop (S (length (suspend_thread (mx s m)))) s m;
      Some (RT_EOK,
        match next with
        | Some n =>
            let s := upd_mx m (set_owner (Some n) (priority (mx s m)) 1 (mx s m)) s in
            let s := push_taken n m s in
            let s := pend_on n None s in
            _mutex_update_priority s m
        | None => upd_mx m (set_owner None 255 (hold (mx s m)) (mx s m)) s
        end)
    else Some (RT_EOK, s)
  else Some (- RT_ERROR, set_err self (- RT_ERROR) s).

(** * The other calls *)

(** The old ceiling; 255 for a priority that is refused. *)
Definition rt_mutex_setprioceiling (s : msys) (m : nat) (p : Z) : option (Z * msys) :=
  if p <? RT_THREAD_PRIORITY_MAX then
    let x := mx s m in
    let s := upd_mx m (set_ceiling p x) s in
    s ← match owner x with Some o => refresh_owner s o | None => Some s end;
    Some (ceiling_priority x, s)
  else Some (255, s).

Definition rt_mutex_getprioceiling (s : msys) (m : nat) : Z := ceiling_priority (mx s m).
Definition rt_mutex_control : Z := - RT_EINVAL.

(** [rt_mutex_create]; [alloc] says whether the object could be allocated. *)
Definition rt_mutex_create (alloc : bool) : option rt_mutex := if alloc then Some rt_mutex_init else None.

(** The threads that are woken, and the state. *)
Definition _mutex_before_delete_detach (s : msys) (m : nat) : option (list nat * msys) :=
  let x := mx s m in
  let '(woken, ts, l) := rt_susp_list_resume_all (ms_ts s) (suspend_thread x) RT_ERROR in
  let s := upd_mx m (set_susps l x) (mk_ms ts (ms_mf s) (ms_mx s)) in
  match owner x with
  | Some o => s ← _check_and_update_prio (drop_taken o m s) o m; Some (woken, s)
  | None => Some (woken, s)
  end.

Definition rt_mutex_detach (s : msys) (m : nat) : option (Z * list nat * msys) :=
  '(woken, s) ← _mutex_before_delete_detach s m; Some (RT_EOK, woken, s).
Definition rt_mutex_delete (s : msys) (m : nat) : option (Z * list nat * msys) :=
  '(woken, s) ← _mutex_before_delete_detach s m; Some (RT_EOK, woken, s).

Definition rt_mutex_drop_thread (s : msys) (m t : nat) : option msys :=
  if decide (pending_object (mf s t) = Some m) then
    let x := mx s m in
    waiter_left (upd_mx m (set_susps (list_remove (suspend_thread x) t) x) s) m t
  else None.

(** [_thread_detach_from_mutex] of thread [t] that is closed by [self]: the taken mutexes
    are the ones that were on the list when the loop started. *)
Fixpoint release_all (s : msys) (self : nat) (l : list nat) : option msys :=
  match l with
  | [] => Some s
  | m :: l => '(_, s) ← rt_mutex_release s self m; release_all s self l
  end.
Definition _thread_detach_from_mutex (s : msys) (self t : nat) : option msys :=
  s ← match pending_object (mf s t) with
      | Some m => s ← rt_mutex_drop_thread s m t; Some (pend_on t None s)
      | None => Some s
      end;
  release_all s self (taken_object_list (mf s t)).
