(* ===== verification/MutexInv.v ===== *)
(** Invariants of the mutexes: who owns and who waits ([shape_ok]), how priorities are
    inherited ([prio_ok], and exactly in [exact]), and what [_thread_update_priority] does to
    them along a chain of waiting owners. *)

From S2P Require Import Prelude.
From S2P Require Import RtDef.
From S2P Require Import Kernel.
From S2P Require Import Mutex.
Open Scope Z_scope.

(** * Reading an updated state *)

Lemma tk_upd_tk s t u x : tk (upd_tk t x s) u = if decide (t = u) then x else tk s u.
Proof. apply th_upd. Qed.
Lemma tk_upd_mf s t f u : tk (upd_mf t f s) u = tk s u.
Proof. done. Qed.
Lemma tk_upd_mx s m x u : tk (upd_mx m x s) u = tk s u.
Proof. done. Qed.
Lemma mf_upd_tk s t x u : mf (upd_tk t x s) u = mf s u.
Proof. done. Qed.
Lemma mf_upd_mf s t f u : mf (upd_mf t f s) u = if decide (t = u) then f else mf s u.
Proof. unfold mf, upd_mf; simpl. case_decide; [subst; by rewrite lookup_insert_eq | by rewrite lookup_insert_ne]. Qed.
Lemma mf_upd_mx s m x u : mf (upd_mx m x s) u = mf s u.
Proof. done. Qed.
Lemma mx_upd_tk s t x m : mx (upd_tk t x s) m = mx s m.
Proof. done. Qed.
Lemma mx_upd_mf s t f m : mx (upd_mf t f s) m = mx s m.
Proof. done. Qed.
Lemma mx_upd_mx s m x n : mx (upd_mx m x s) n = if decide (m = n) then x else mx s n.
Proof. unfold mx, upd_mx; simpl. case_decide; [subst; by rewrite lookup_insert_eq | by rewrite lookup_insert_ne]. Qed.

Create Rewrite HintDb mut.
#[export] Hint Rewrite tk_upd_tk tk_upd_mf tk_upd_mx mf_upd_tk mf_upd_mf mf_upd_mx mx_upd_tk mx_upd_mf mx_upd_mx : mut.
#[global] Arguments tk : simpl never.
#[global] Arguments mf : simpl never.
#[global] Arguments mx : simpl never.
#[global] Arguments upd_tk : simpl never.
#[global] Arguments upd_mf : simpl never.
#[global] Arguments upd_mx : simpl never.

(** * Chains of waiting threads *)

(** Thread [t] waits for a mutex that [o] owns. *)
Definition blocked (s : msys) (t o : nat) : Prop :=
  ∃ m, t ∈ suspend_thread (mx s m) ∧ owner (mx s m) = Some o.

Definition acyclic (R : nat → nat → Prop) : Prop := ∀ t, ¬ tc R t t.

(** On a cycle every node has a successor, so edges to nodes without one do not matter. *)
Lemma acyclic_mono (R R' : nat → nat → Prop) :
  (∀ a b c, R' a b → R' b c → R a b) → acyclic R → acyclic R'.
Proof.
  intros Hsub HR t Ht. apply (HR t).
  assert (∀ a b, tc R' a b → (∃ c, R' b c) → tc R a b) as Hall.
  { induction 1 as [a b Hab | a b c Hab Hbc IH]; intros [d Hd].
    - apply tc_once. by eapply Hsub.
    - destruct (IH (ex_intro _ _ Hd)) as [? ? Hb | ]; (eapply tc_l; [|by apply IH; eexists]); inversion Hbc; subst; by eapply Hsub. }
  apply Hall; [done |]. inversion Ht; eauto.
Qed.

(** One more edge, whose target does not lead to its source. *)
Lemma acyclic_add (R R' : nat → nat → Prop) t o :
  (∀ a b, R' a b → R a b ∨ (a = t ∧ b = o)) → ¬ rtc R o t → acyclic R → acyclic R'.
Proof.
  intros Hsub Hno HR u Hu.
  assert (∀ a b, rtc R' a b → rtc R a b ∨ (rtc R a t ∧ rtc R o b)) as Hall.
  { induction 1 as [a | a b c Hab Hbc IH]; [by left |]. destruct (Hsub a b Hab) as [HR1 | [-> ->]].
    - destruct IH as [IH | [IH1 IH2]]; [left | right]; try split; try done; by eapply rtc_l.
    - destruct IH as [IH | [IH1 IH2]]; right; done. }
  assert (∃ v, R' u v ∧ rtc R' v u) as (v & Huv & Hvu).
  { inversion Hu; subst; [by exists u; split; [|apply rtc_refl] |]. exists y. split; [done |]. by apply tc_rtc. }
  destruct (Hsub u v Huv) as [HR1 | [-> ->]].
  - destruct (Hall v u Hvu) as [H1 | [H1 H2]]; [by apply (HR u); eapply tc_rtc_r; [apply tc_once |] |].
    apply Hno. etrans; [exact H2 |]. by eapply rtc_l.
  - destruct (Hall o t Hvu) as [H1 | [H1 H2]]; done.
Qed.

(** * Who owns and who waits *)

(** [C] says which threads are inside a call of [rt_mutex_take] that has gone to sleep, and
    for which mutex: such a thread waits, or has been woken by its timer, or owns the mutex
    and has not run since. *)
Definition in_call (s : msys) (t m : nat) : Prop :=
  t ∈ suspend_thread (mx s m)
  ∨ (t_susp (tk s t) = false ∧ pending_object (mf s t) = Some m ∧ t_error (tk s t) = - RT_ETIMEOUT
     ∧ owner (mx s m) ≠ Some t)
  ∨ (t_susp (tk s t) = false ∧ pending_object (mf s t) = None ∧ t_error (tk s t) = RT_EOK
     ∧ owner (mx s m) = Some t).

Record shape_ok (s : msys) (C : gmap nat nat) : Prop := {
  sh_wait : ∀ m t, t ∈ suspend_thread (mx s m) →
    pending_object (mf s t) = Some m ∧ C !! t = Some m ∧ t_error (tk s t) = RT_EOK;
  sh_nodup : ∀ m, NoDup (suspend_thread (mx s m));
  sh_timer : ∃ W, wait_ok (ms_ts s) W ∧ ∀ t, t ∈ W ↔ ∃ m, t ∈ suspend_thread (mx s m);
  sh_pend : ∀ t, t_pend (tk s t) = false;
  sh_free : ∀ m, owner (mx s m) = None → suspend_thread (mx s m) = [];
  sh_hold : ∀ m t, owner (mx s m) = Some t → 1 ≤ hold (mx s m) ≤ 255;
  sh_taken : ∀ m t, m ∈ taken_object_list (mf s t) ↔ owner (mx s m) = Some t;
  sh_once : ∀ t, NoDup (taken_object_list (mf s t));
  sh_idle : ∀ t, C !! t = None → pending_object (mf s t) = None;
  sh_call : ∀ t m, C !! t = Some m → in_call s t m;
  sh_acyclic : acyclic (blocked s)
}.

(** A thread is suspended while it is on the list of a mutex. *)
Lemma susp_iff s C t : shape_ok s C → t_susp (tk s t) = true ↔ ∃ m, t ∈ suspend_thread (mx s m).
Proof. intros H. destruct (sh_timer _ _ H) as (W & Hw & HW). unfold tk. by rewrite (w_susp _ _ Hw), HW. Qed.

Lemma wait_unique s C t m n :
  shape_ok s C → t ∈ suspend_thread (mx s m) → t ∈ suspend_thread (mx s n) → m = n.
Proof. intros H H1 H2. destruct (sh_wait _ _ H m t H1) as [E1 _], (sh_wait _ _ H n t H2) as [E2 _]. congruence. Qed.

Lemma wait_owner s C t m :
  shape_ok s C → t ∈ suspend_thread (mx s m) → ∃ o, owner (mx s m) = Some o ∧ blocked s t o ∧ o ≠ t.
Proof.
  intros H Ht. destruct (owner (mx s m)) as [o|] eqn:E.
  - exists o. assert (blocked s t o) by (by exists m). split_and!; try done. intros ->. apply (sh_acyclic _ _ H t). by apply tc_once.
  - apply (sh_free _ _ H) in E. rewrite E in Ht. by apply elem_of_nil in Ht.
Qed.

(** A state with other priorities, the waiting threads in another order. *)
Record same_shape (s s' : msys) : Prop := {
  ss_tk : ∀ t, tk s' t = set_prio (prio s' t) (tk s t);
  ss_mf : ∀ t, mf s' t = mf s t;
  ss_owner : ∀ m, owner (mx s' m) = owner (mx s m);
  ss_hold : ∀ m, hold (mx s' m) = hold (mx s m);
  ss_ceiling : ∀ m, ceiling_priority (mx s' m) = ceiling_priority (mx s m);
  ss_wait : ∀ m, suspend_thread (mx s' m) ≡ₚ suspend_thread (mx s m)
}.

#[export] Instance same_shape_preorder : PreOrder same_shape.
Proof.
  split.
  - intros s. constructor; try done. intros t. unfold prio. by destruct (tk s t).
  - intros a b c H1 H2. constructor; intros x.
    + rewrite (ss_tk _ _ H2), (ss_tk _ _ H1). done.
    + by rewrite (ss_mf _ _ H2), (ss_mf _ _ H1).
    + by rewrite (ss_owner _ _ H2), (ss_owner _ _ H1).
    + by rewrite (ss_hold _ _ H2), (ss_hold _ _ H1).
    + by rewrite (ss_ceiling _ _ H2), (ss_ceiling _ _ H1).
    + by rewrite (ss_wait _ _ H2), (ss_wait _ _ H1).
Qed.

Lemma ss_elem s s' m t : same_shape s s' → t ∈ suspend_thread (mx s' m) ↔ t ∈ suspend_thread (mx s m).
Proof. intros H. by rewrite (ss_wait _ _ H). Qed.

Lemma ss_susp s s' t : same_shape s s' → t_susp (tk s' t) = t_susp (tk s t).
Proof. intros H. by rewrite (ss_tk _ _ H). Qed.
Lemma ss_error s s' t : same_shape s s' → t_error (tk s' t) = t_error (tk s t).
Proof. intros H. by rewrite (ss_tk _ _ H). Qed.

Lemma ss_blocked s s' t o : same_shape s s' → blocked s' t o ↔ blocked s t o.
Proof. intros H. unfold blocked. by setoid_rewrite (ss_wait _ _ H); setoid_rewrite (ss_owner _ _ H). Qed.

Lemma shape_same s s' C : same_shape s s' → shape_ok s C → shape_ok s' C.
Proof.
  intros Hs H. constructor.
  - intros m t. rewrite (ss_elem _ _ _ _ Hs), (ss_mf _ _ Hs), (ss_error _ _ _ Hs). apply H.
  - intros m. rewrite (ss_wait _ _ Hs). apply H.
  - destruct (sh_timer _ _ H) as (W & Hw & HW). exists W. split.
    + revert Hw. apply wait_ok_ext. intros u. change (th (ms_ts s') u) with (tk s' u). by rewrite (ss_tk _ _ Hs).
    + intros t. rewrite HW. f_equiv; intros m. by rewrite (ss_elem _ _ _ _ Hs).
  - intros t. rewrite (ss_tk _ _ Hs). apply H.
  - intros m. rewrite (ss_owner _ _ Hs). intros E. apply (sh_free _ _ H) in E.
    apply Permutation_nil. by rewrite <-E, (ss_wait _ _ Hs).
  - intros m t. rewrite (ss_owner _ _ Hs), (ss_hold _ _ Hs). apply H.
  - intros m t. rewrite (ss_owner _ _ Hs), (ss_mf _ _ Hs). apply H.
  - intros t. rewrite (ss_mf _ _ Hs). apply H.
  - intros t. rewrite (ss_mf _ _ Hs). apply H.
  - intros t m Hc. unfold in_call. rewrite (ss_elem _ _ _ _ Hs), (ss_susp _ _ _ Hs), (ss_error _ _ _ Hs), (ss_mf _ _ Hs), (ss_owner _ _ Hs).
    by apply H.
  - apply (acyclic_mono (blocked s)); [|apply H]. intros a b c Hab _. by apply (ss_blocked _ _ _ _ Hs).
Qed.

(** * Inherited priorities *)

Definition urgent (s : msys) (a b : nat) : Prop := prio s a ≤ prio s b.

(** An owner is at least as urgent as every thread that waits for it, and the lists are in
    order. [d] is a thread whose priority was changed and that may be out of place on its
    list; [e] is a thread whose own priority may have to be computed again. *)
Record prio_ok (s : msys) (d e : option nat) : Prop := {
  po_range : ∀ t, 0 ≤ prio s t ≤ init_priority (mf s t) ∧ init_priority (mf s t) < 32;
  po_bound : ∀ m, 0 ≤ priority (mx s m) ≤ 255 ∧ 0 ≤ ceiling_priority (mx s m);
  po_sorted : ∀ m, StronglySorted (λ a b, Some a ≠ d → Some b ≠ d → urgent s a b) (suspend_thread (mx s m));
  po_wait : ∀ m t, Some t ≠ d → t ∈ suspend_thread (mx s m) → priority (mx s m) ≤ prio s t;
  po_owner : ∀ m t, Some t ≠ e → owner (mx s m) = Some t → prio s t ≤ priority (mx s m)
}.

(** Every priority is exactly what its thread and its mutexes ask for. *)
Record exact (s : msys) (d e : option nat) : Prop := {
  ex_prio : ∀ t, Some t ≠ e → prio s t = _thread_get_mutex_priority s t;
  ex_mutex : ∀ m, (∀ t, t ∈ suspend_thread (mx s m) → Some t ≠ d) →
    priority (mx s m) = head_prio s (suspend_thread (mx s m))
}.

Lemma StronglySorted_weaken {A} (R S : A → A → Prop) l :
  (∀ a b, a ∈ l → b ∈ l → R a b → S a b) → StronglySorted R l → StronglySorted S l.
Proof.
  intros Hsub H. induction H as [|a l H IH Ha]; constructor.
  - apply IH. intros x y Hx Hy. apply Hsub; by right.
  - rewrite Forall_forall in *. intros x Hx. apply Hsub; [by left | by right | by apply Ha].
Qed.

Lemma prio_weaken s d e : prio_ok s None None → prio_ok s d e.
Proof.
  intros H. constructor; try apply H.
  - intros m. eapply StronglySorted_weaken, (po_sorted _ _ _ H). auto.
  - intros m t _. by apply H.
  - intros m t _. by apply H.
Qed.

Lemma exact_weaken s d e : exact s None None → exact s d e.
Proof. intros H. constructor; intros; by apply H. Qed.

(** The dirty thread is not on a list, so nothing is out of place. *)
Lemma prio_clean s t e : (∀ m, t ∉ suspend_thread (mx s m)) → prio_ok s (Some t) e → prio_ok s None e.
Proof.
  intros Ht H. constructor; try apply H.
  - intros m. eapply StronglySorted_weaken, (po_sorted _ _ _ H). intros a b Ha Hb Hab _ _. apply Hab; intros [= ->]; by apply (Ht m).
  - intros m u _ Hu. apply H; [|done]. intros [= ->]. by apply (Ht m).
Qed.

Lemma exact_clean s t e : (∀ m, t ∉ suspend_thread (mx s m)) → exact s (Some t) e → exact s None e.
Proof. intros Ht H. constructor; [apply H |]. intros m _. apply H. intros u Hu [= ->]. by apply (Ht m). Qed.

(** ** The priority a thread should have *)

Lemma mutex_prio_spec p x :
  mutex_prio p x ≤ p ∧ mutex_prio p x ≤ priority x ∧ mutex_prio p x ≤ ceiling_priority x
  ∧ (mutex_prio p x = p ∨ mutex_prio p x = priority x ∨ mutex_prio p x = ceiling_priority x).
Proof. unfold mutex_prio. zbool. Qed.

Definition fold_prio (s : msys) (l : list nat) (p : Z) : Z := fold_left (λ p m, mutex_prio p (mx s m)) l p.

Lemma fold_prio_le s l p : fold_prio s l p ≤ p.
Proof.
  revert p. induction l as [|m l IH]; intros p; simpl; [lia |].
  etrans; [apply IH |]. apply mutex_prio_spec.
Qed.

Lemma fold_prio_elem s l p m : m ∈ l → fold_prio s l p ≤ priority (mx s m) ∧ fold_prio s l p ≤ ceiling_priority (mx s m).
Proof.
  revert p. induction l as [|n l IH]; intros p Hm; [by apply elem_of_nil in Hm |].
  apply elem_of_cons in Hm as [-> | Hm]; simpl; [|by apply IH].
  pose proof (fold_prio_le s l (mutex_prio p (mx s n))). pose proof (mutex_prio_spec p (mx s n)). unfold fold_prio in *. lia.
Qed.

Lemma fold_prio_case s l p :
  fold_prio s l p = p ∨ ∃ m, m ∈ l ∧ (fold_prio s l p = priority (mx s m) ∨ fold_prio s l p = ceiling_priority (mx s m)).
Proof.
  revert p. induction l as [|n l IH]; intros p; [by left |].
  cbn [fold_prio fold_left]. fold (fold_prio s l (mutex_prio p (mx s n))).
  destruct (IH (mutex_prio p (mx s n))) as [E | (m & Hm & E)].
  - rewrite E. destruct (mutex_prio_spec p (mx s n)) as (_ & _ & _ & [E1 | E1]); [by left |]. right. exists n.
    split; [by left | done].
  - right. exists m. split; [by right | done].
Qed.

(** It is characterised as a greatest lower bound. *)
Lemma get_prio_glb s t p :
  p ≤ _thread_get_mutex_priority s t
  ↔ p ≤ init_priority (mf s t) ∧ ∀ m, m ∈ taken_object_list (mf s t) → p ≤ priority (mx s m) ∧ p ≤ ceiling_priority (mx s m).
Proof.
  change (_thread_get_mutex_priority s t) with (fold_prio s (taken_object_list (mf s t)) (init_priority (mf s t))).
  set (l := taken_object_list (mf s t)). set (i := init_priority (mf s t)). split.
  - intros Hp. pose proof (fold_prio_le s l i). split; [lia |]. intros m Hm. pose proof (fold_prio_elem s l i m Hm). lia.
  - intros [Hi Hl]. destruct (fold_prio_case s l i) as [-> | (m & Hm & [-> | ->])]; [done | by apply Hl..].
Qed.

Lemma get_prio_eq s t p :
  p = _thread_get_mutex_priority s t ↔ ∀ q, q ≤ p ↔ q ≤ init_priority (mf s t)
    ∧ ∀ m, m ∈ taken_object_list (mf s t) → q ≤ priority (mx s m) ∧ q ≤ ceiling_priority (mx s m).
Proof.
  split.
  - intros -> q. apply get_prio_glb.
  - intros H. apply Z.le_antisymm; [apply get_prio_glb, H; lia | apply H, get_prio_glb; lia].
Qed.

(** Without a ceiling only the waiting threads count. *)
Definition no_ceilings (s : msys) : Prop := ∀ m, ceiling_priority (mx s m) = 255.

Lemma get_prio_ext s s' t :
  init_priority (mf s' t) = init_priority (mf s t) → taken_object_list (mf s' t) = taken_object_list (mf s t) →
  (∀ m, m ∈ taken_object_list (mf s t) → priority (mx s' m) = priority (mx s m) ∧ ceiling_priority (mx s' m) = ceiling_priority (mx s m)) →
  _thread_get_mutex_priority s' t = _thread_get_mutex_priority s t.
Proof.
  intros E1 E2 Hm. symmetry. apply get_prio_eq. intros q. rewrite E1, E2, get_prio_glb. f_equiv. split; intros H m Hin;
    [destruct (Hm m Hin) as [-> ->] | destruct (Hm m Hin) as [<- <-]]; by apply H.
Qed.

(** What a thread owns bounds its priority. *)
Lemma get_prio_range s C t :
  shape_ok s C → 0 ≤ init_priority (mf s t) → (∀ m, 0 ≤ priority (mx s m) ≤ 255 ∧ 0 ≤ ceiling_priority (mx s m)) →
  0 ≤ _thread_get_mutex_priority s t ≤ init_priority (mf s t)
  ∧ ∀ m, owner (mx s m) = Some t → _thread_get_mutex_priority s t ≤ priority (mx s m).
Proof.
  intros H Hi Hb. assert (Hle := proj1 (get_prio_glb s t _) (Z.le_refl _)). destruct Hle as [H1 H2]. split_and!; [|done |].
  - apply get_prio_glb. split; [done |]. intros m _. split; apply Hb.
  - intros m Hm. by apply H2, (sh_taken _ _ H).
Qed.

(** * Changing one priority *)

Definition with_prio (s : msys) (t : nat) (p : Z) : msys := upd_tk t (set_prio p (tk s t)) s.

Lemma change_prio s t p : p < 32 → rt_sched_thread_change_priority s t p = Some (with_prio s t p).
Proof. intros Hp. unfold rt_sched_thread_change_priority, RT_THREAD_PRIORITY_MAX. by rewrite (proj2 (Z.ltb_lt _ _) Hp). Qed.

Lemma prio_with s t p u : prio (with_prio s t p) u = if decide (t = u) then p else prio s u.
Proof. unfold prio, with_prio. rewrite tk_upd_tk. by case_decide. Qed.

Lemma with_prio_shape s t p : same_shape s (with_prio s t p).
Proof.
  constructor; try done. intros u. rewrite prio_with. unfold with_prio. rewrite tk_upd_tk. case_decide; [by subst |].
  unfold prio. by destruct (tk s u).
Qed.

Lemma with_prio_ok s o p :
  prio_ok s None (Some o) → 0 ≤ p ≤ init_priority (mf s o) → (∀ m, owner (mx s m) = Some o → p ≤ priority (mx s m)) →
  prio_ok (with_prio s o p) (Some o) None.
Proof.
  intros H Hp Ho. constructor.
  - intros t. rewrite prio_with. case_decide; [subst; split; [done |] |]; apply (po_range _ _ _ H).
  - apply H.
  - intros m. eapply StronglySorted_weaken, (po_sorted _ _ _ H). intros a b _ _ Hab Ha Hb. unfold urgent.
    rewrite !prio_with, !decide_False by congruence. by apply Hab.
  - intros m t Ht Hin. rewrite prio_with, decide_False by congruence. by apply (po_wait _ _ _ H).
  - intros m t _ Hm. rewrite prio_with. case_decide; [subst; by apply Ho |]. apply (po_owner _ _ _ H); [congruence | done].
Qed.

Lemma head_prio_with s o p l : o ∉ l → head_prio (with_prio s o p) l = head_prio s l.
Proof. intros Ho. destruct l as [|t l]; [done |]. simpl. rewrite prio_with, decide_False; [done | set_solver]. Qed.

Lemma with_prio_exact s o p :
  exact s None (Some o) → p = _thread_get_mutex_priority s o → exact (with_prio s o p) (Some o) None.
Proof.
  intros H Hp. constructor.
  - intros t _. rewrite prio_with. case_decide; [by subst |]. apply (ex_prio _ _ _ H). congruence.
  - intros m Hm. change (mx (with_prio s o p) m) with (mx s m) in *. rewrite head_prio_with; [by apply H |]. intros Hin. by apply (Hm o).
Qed.

(** Nothing has to be changed. *)
Lemma prio_settled s o :
  prio_ok s None (Some o) → (∀ m, owner (mx s m) = Some o → prio s o ≤ priority (mx s m)) → prio_ok s None None.
Proof.
  intros H Ho. constructor; try apply H. intros m t _ Hm. destruct (decide (t = o)) as [-> | Hne]; [by apply Ho |].
  apply H; [congruence | done].
Qed.

Lemma exact_settled s o : exact s None (Some o) → prio s o = _thread_get_mutex_priority s o → exact s None None.
Proof.
  intros H Ho. constructor; [|apply H]. intros t _. destruct (decide (t = o)) as [-> | Hne]; [done |]. apply H. congruence.
Qed.

(** * The loop *)

Lemma prio_insert_perm ts l t : prio_insert ts l t ≡ₚ t :: l.
Proof.
  induction l as [|u l IH]; simpl; [done |]. destruct (_ <? _); [done |]. rewrite IH. constructor.
Qed.

Lemma list_remove_perm l t : NoDup l → t ∈ l → t :: list_remove l t ≡ₚ l.
Proof.
  induction l as [|u l IH]; intros Hn Ht; [by apply elem_of_nil in Ht |]. apply NoDup_cons in Hn as [Hu Hn].
  destruct (decide (u = t)) as [-> | Hne].
  - by rewrite list_remove_head.
  - unfold list_remove in *. rewrite filter_cons_True by done. rewrite Permutation_swap. constructor. apply IH; [done |]. set_solver.
Qed.

(** The first thread of a list in order is the most urgent one. *)
Lemma head_prio_le s l t : StronglySorted (urgent s) l → t ∈ l → head_prio s l ≤ prio s t.
Proof.
  intros Hs Ht. destruct l as [|u l]; [by apply elem_of_nil in Ht |]. simpl. apply elem_of_cons in Ht as [-> | Ht]; [lia |].
  apply StronglySorted_inv in Hs as [_ Hs]. rewrite Forall_forall in Hs. by apply Hs.
Qed.

Lemma head_prio_range s d e l : prio_ok s d e → 0 ≤ head_prio s l ≤ 255.
Proof. intros H. destruct l as [|t l]; simpl; [lia |]. pose proof (po_range _ _ _ H t). lia. Qed.

Lemma sorted_plain s d e m :
  prio_ok s d e → StronglySorted (urgent s) (filter (λ t, Some t ≠ d) (suspend_thread (mx s m))).
Proof.
  intros H. eapply StronglySorted_weaken, StronglySorted_filter, (po_sorted _ _ _ H m).
  intros a b [Ha _]%list_elem_of_filter [Hb _]%list_elem_of_filter Hab. by apply Hab.
Qed.

Lemma sorted_all s e m : prio_ok s None e → StronglySorted (urgent s) (suspend_thread (mx s m)).
Proof. intros H. eapply StronglySorted_weaken, (po_sorted _ _ _ H m). intros a b _ _ Hab. by apply Hab. Qed.

Lemma sorted_remove s t e m :
  prio_ok s (Some t) e → StronglySorted (urgent s) (list_remove (suspend_thread (mx s m)) t).
Proof.
  intros H. unfold list_remove. eapply StronglySorted_weaken, StronglySorted_filter, (po_sorted _ _ _ H m).
  intros a b [Ha _]%list_elem_of_filter [Hb _]%list_elem_of_filter Hab. apply Hab; congruence.
Qed.

(** A thread goes back to its place on the list. *)
Definition requeue (s : msys) (t m : nat) : msys :=
  let x := mx s m in
  let l := rt_susp_list_enqueue (ms_ts s) (list_remove (suspend_thread x) t) t RT_IPC_FLAG_PRIO in
  _mutex_update_priority (upd_mx m (set_susps l x) s) m.

Lemma mx_requeue s t m n :
  mx (requeue s t m) n =
    if decide (m = n) then
      let x := mx s m in
      let l := prio_insert (ms_ts s) (list_remove (suspend_thread x) t) t in
      mk_mutex l (ceiling_priority x) (head_prio s l) (hold x) (owner x)
    else mx s n.
Proof.
  unfold requeue, _mutex_update_priority. rewrite !mx_upd_mx, !(decide_True (P := m = m)) by done. by case_decide.
Qed.

Lemma requeue_perm s C t m :
  shape_ok s C → t ∈ suspend_thread (mx s m) →
  prio_insert (ms_ts s) (list_remove (suspend_thread (mx s m)) t) t ≡ₚ suspend_thread (mx s m).
Proof. intros H Ht. rewrite prio_insert_perm. apply list_remove_perm; [apply H | done]. Qed.

Lemma requeue_shape s C t m : shape_ok s C → t ∈ suspend_thread (mx s m) → same_shape s (requeue s t m).
Proof.
  intros H Ht. constructor; try done; try (intros n; rewrite mx_requeue; by case_decide; subst).
  - intros u. change (prio (requeue s t m) u) with (prio s u). change (tk (requeue s t m) u) with (tk s u). unfold prio. by destruct (tk s u).
  - intros n. rewrite mx_requeue. case_decide; [subst; simpl; by eapply requeue_perm | done].
Qed.

Lemma requeue_prio s C t m o :
  shape_ok s C → prio_ok s (Some t) None → t ∈ suspend_thread (mx s m) → owner (mx s m) = Some o →
  prio_ok (requeue s t m) None (Some o).
Proof.
  intros Hsh H Ht Ho. set (l := prio_insert (ms_ts s) (list_remove (suspend_thread (mx s m)) t) t).
  assert (Hl : StronglySorted (urgent s) l).
  { apply (enqueue_ordered (ms_ts s) _ t RT_IPC_FLAG_PRIO); [|done]. intros _. by eapply sorted_remove. }
  assert (Hother : ∀ n, m ≠ n → t ∉ suspend_thread (mx s n)).
  { intros n Hne Hu. apply Hne. by eapply wait_unique. }
  constructor.
  - apply H.
  - intros n. rewrite mx_requeue. case_decide; [|apply H]. simpl. split; [|apply (po_bound _ _ _ H)].
    by eapply head_prio_range.
  - intros n. rewrite mx_requeue. case_decide.
    + simpl. eapply StronglySorted_weaken, Hl. by intros a b _ _ Hab _ _.
    + eapply StronglySorted_weaken, (po_sorted _ _ _ H n). intros a b Ha Hb Hab _ _. apply Hab; intros [= ->]; by apply (Hother n).
  - intros n u _. change (prio (requeue s t m) u) with (prio s u). rewrite mx_requeue. case_decide; simpl.
    + intros Hu. by apply head_prio_le.
    + intros Hu. apply (po_wait _ _ _ H); [|done]. intros [= ->]. by apply (Hother n).
  - intros n u Hu. rewrite mx_requeue. case_decide; simpl; [congruence |]. by apply (po_owner _ _ _ H).
Qed.

Lemma requeue_exact s C t m o :
  shape_ok s C → exact s (Some t) None → t ∈ suspend_thread (mx s m) → owner (mx s m) = Some o →
  exact (requeue s t m) None (Some o).
Proof.
  intros Hsh H Ht Ho. constructor.
  - intros u Hu. change (prio (requeue s t m) u) with (prio s u). rewrite (ex_prio _ _ _ H u) by done. symmetry. apply get_prio_ext; [done | done |].
    intros n Hn%(sh_taken _ _ Hsh). rewrite mx_requeue. rewrite decide_False by congruence. done.
  - intros n _. rewrite mx_requeue. case_decide; [done |]. apply (ex_mutex _ _ _ H). intros u Hu [= ->].
    assert (m = n) by (by eapply wait_unique). done.
Qed.

(** The waiting threads that can be reached from [t] are in [X]. *)
Definition reach_in (s : msys) (X : gset nat) (t : nat) : Prop := ∀ u v, rtc (blocked s) t u → blocked s u v → u ∈ X.

Lemma reach_in_start s C t : shape_ok s C → reach_in s (dom (ms_mf s)) t.
Proof.
  intros H u v _ (m & Hu & _). destruct (sh_wait _ _ H m u Hu) as [E _]. apply elem_of_dom. unfold mf in E. by destruct (ms_mf s !! u).
Qed.

Lemma reach_in_step s C X t o : shape_ok s C → reach_in s X t → blocked s t o → reach_in s (X ∖ {[t]}) o ∧ t ∈ X.
Proof.
  intros H HX Hto. split; [|by apply (HX t o); [apply rtc_refl |]]. intros u v Hou Huv. apply elem_of_difference. split.
  - apply (HX u v); [by eapply rtc_l | done].
  - intros ->%elem_of_singleton. apply (sh_acyclic _ _ H t). apply (tc_rtc_r t o t); [by apply tc_once | done].
Qed.

Lemma reach_in_same s s' X t : same_shape s s' → reach_in s X t → reach_in s' X t.
Proof.
  intros Hs HX u v Hu Hv. apply (HX u v); [|by apply (ss_blocked _ _ _ _ Hs)].
  eapply rtc_subrel; [|exact Hu]. intros a b Hab. by apply (ss_blocked _ _ _ _ Hs).
Qed.

(** The loop ends, and settles the priorities along the chain. *)
Lemma update_loop_ok fuel s t X C :
  shape_ok s C → prio_ok s (Some t) None → reach_in s X t → (size X < fuel)%nat →
  ∃ s', update_loop fuel s t = Some s' ∧ same_shape s s' ∧ prio_ok s' None None ∧ (exact s (Some t) None → exact s' None None).
Proof.
  revert s t X. induction fuel as [|fuel IH]; intros s t X Hsh Hp HX Hf; [lia |]. cbn [update_loop].
  destruct (t_susp (tk s t)) eqn:Es.
  - apply (susp_iff _ _ _ Hsh) in Es as [m Ht]. destruct (sh_wait _ _ Hsh m t Ht) as (-> & _).
    destruct (wait_owner _ _ _ _ Hsh Ht) as (o & Ho & Hb & _). cbv zeta.
    change (_mutex_update_priority _ m) with (requeue s t m). set (s1 := requeue s t m).
    assert (Hs1 : same_shape s s1) by (by eapply requeue_shape). rewrite (ss_owner _ _ Hs1), Ho.
    pose proof (requeue_prio _ _ _ _ _ Hsh Hp Ht Ho : prio_ok s1 None (Some o)) as Hp1.
    pose proof (shape_same _ _ _ Hs1 Hsh) as Hsh1.
    destruct (get_prio_range s1 C o Hsh1) as [Hr Hro]; [apply Z.le_trans with (prio s1 o); apply (po_range _ _ _ Hp1) | apply Hp1 |].
    destruct (Z.eqb_spec (_thread_get_mutex_priority s1 o) (prio s1 o)) as [E|E]; cbn [negb].
    + exists s1. split_and!; [done | done | |].
      * eapply prio_settled; [done |]. by rewrite <-E.
      * intros Hx. eapply exact_settled; [by eapply requeue_exact | done].
    + rewrite change_prio by (pose proof (po_range _ _ _ Hp1 o); lia). cbn [mbind option_bind].
      set (s2 := with_prio s1 o _). pose proof (with_prio_shape s1 o (_thread_get_mutex_priority s1 o) : same_shape s1 s2) as Hs2.
      destruct (reach_in_step s C X t o Hsh HX Hb) as [HX' HtX].
      destruct (IH s2 o (X ∖ {[t]})) as (s3 & E3 & Hs3 & Hp3 & Hx3).
      * by eapply shape_same.
      * by apply with_prio_ok.
      * eapply reach_in_same; [|exact HX']. by etrans.
      * rewrite size_difference by set_solver. rewrite size_singleton. assert (0 < size X)%nat; [|lia].
        destruct (decide (size X = 0)%nat) as [E0|]; [|lia]. apply size_empty_inv in E0. set_solver.
      * exists s3. split_and!; [done | by etrans; [|etrans] | done |]. intros Hx. apply Hx3, with_prio_exact; [|done]. by eapply requeue_exact.
  - assert (∀ m, t ∉ suspend_thread (mx s m)) as Hno.
    { intros m Hm. assert (t_susp (tk s t) = true) by (apply (susp_iff _ _ _ Hsh); by exists m). congruence. }
    exists s. split_and!; [done | done | by eapply prio_clean | intros Hx; by eapply exact_clean].
Qed.

(** ** The two ways the calls use it *)

Lemma update_priority_ok s o p C :
  shape_ok s C → prio_ok s None (Some o) → 0 ≤ p ≤ init_priority (mf s o) → (∀ m, owner (mx s m) = Some o → p ≤ priority (mx s m)) →
  ∃ s', _thread_update_priority s o p = Some s' ∧ same_shape s s' ∧ prio_ok s' None None
    ∧ (exact s None (Some o) → p = _thread_get_mutex_priority s o → exact s' None None).
Proof.
  intros Hsh Hp Hr Ho. unfold _thread_update_priority. rewrite change_prio by (pose proof (po_range _ _ _ Hp o); lia).
  cbn [mbind option_bind]. pose proof (with_prio_shape s o p) as Hs. pose proof (shape_same _ _ _ Hs Hsh) as Hsh'.
  destruct (update_loop_ok (S (size (ms_mf (with_prio s o p)))) (with_prio s o p) o (dom (ms_mf (with_prio s o p))) C) as (s' & E & Hs' & Hp' & Hx').
  - done.
  - by apply with_prio_ok.
  - by eapply reach_in_start.
  - rewrite size_dom. lia.
  - exists s'. split_and!; [done | by etrans | done |]. intros Hx Heq. by apply Hx', with_prio_exact.
Qed.

Lemma refresh_owner_ok s o C :
  shape_ok s C → prio_ok s None (Some o) →
  ∃ s', refresh_owner s o = Some s' ∧ same_shape s s' ∧ prio_ok s' None None ∧ (exact s None (Some o) → exact s' None None).
Proof.
  intros Hsh Hp. unfold refresh_owner.
  destruct (get_prio_range s C o Hsh) as [Hr Hro]; [apply Z.le_trans with (prio s o); apply (po_range _ _ _ Hp) | apply Hp |].
  destruct (Z.eqb_spec (_thread_get_mutex_priority s o) (prio s o)) as [E|E]; cbn [negb].
  - exists s. split_and!; [done | done | |].
    + eapply prio_settled; [done |]. by rewrite <-E.
    + intros Hx. by eapply exact_settled.
  - destruct (update_priority_ok s o _ C Hsh Hp Hr Hro) as (s' & E' & Hs & Hp' & Hx). exists s'. split_and!; try done. intros He. by apply Hx.
Qed.
