(* ===== verification/MutexOps.v ===== *)
(** The calls on mutexes keep the invariants of [MutexInv]: taking, the rest of a take after
    the thread has slept, releasing, the timeout of a waiting thread, the ceiling. *)

From S2P Require Import Prelude.
From S2P Require Import RtDef.
From S2P Require Import Kernel.
From S2P Require Import Mutex.
From S2P Require Import MutexInv.
Open Scope Z_scope.

(** Both invariants, with nothing out of place. *)
Definition mutex_inv (s : msys) (C : gmap nat nat) : Prop := shape_ok s C ∧ prio_ok s None None.

(** Read the parts of an updated state, case by case. *)
Ltac mred := autorewrite with mut in *; repeat case_decide; subst; cbn [suspend_thread ceiling_priority priority hold owner
  init_priority pending_object taken_object_list set_hold set_owner set_priority set_ceiling set_susps set_pending set_taken] in *.

Lemma idle_not_waiting s C t m : shape_ok s C → C !! t = None → t ∉ suspend_thread (mx s m).
Proof. intros H Hc Ht. destruct (sh_wait _ _ H m t Ht) as (_ & E & _). congruence. Qed.

Lemma idle_running s C t : shape_ok s C → C !! t = None → t_susp (tk s t) = false.
Proof.
  intros H Hc. destruct (t_susp (tk s t)) eqn:E; [|done]. apply (susp_iff _ _ _ H) in E as [m Hm].
  exfalso. by eapply idle_not_waiting.
Qed.

(** The waiting threads are the same. *)
Lemma timer_ext s s' C :
  shape_ok s C → ms_ts s' = ms_ts s → (∀ k, suspend_thread (mx s' k) = suspend_thread (mx s k)) →
  ∃ W, wait_ok (ms_ts s') W ∧ ∀ t, t ∈ W ↔ ∃ k, t ∈ suspend_thread (mx s' k).
Proof.
  intros H Et E. destruct (sh_timer _ _ H) as (W & Hw & HW). exists W. rewrite Et. split; [done |]. intros t. rewrite HW.
  split; intros [k Hk]; exists k; by rewrite E in *.
Qed.

(** ** The error code *)

Lemma set_err_inv s C t e : mutex_inv s C → C !! t = None → mutex_inv (set_err t e s) C.
Proof.
  intros [H Hp] Hc. split.
  - constructor; try apply H.
    + intros m u Hu. destruct (sh_wait _ _ H m u Hu) as (E1 & E2 & E3). split_and!; [done | done |].
      unfold set_err. rewrite tk_upd_tk. case_decide; [congruence | done].
    + destruct (sh_timer _ _ H) as (W & Hw & HW). exists W. split; [by apply wait_ok_error | done].
    + intros u. unfold set_err. rewrite tk_upd_tk. case_decide; [|apply H]. subst. apply (sh_pend _ _ H).
    + intros u m Hu. destruct (sh_call _ _ H u m Hu) as [Hw | Hw]; [by left | right]. unfold set_err. rewrite !tk_upd_tk.
      rewrite decide_False by congruence. done.
  - assert (∀ u, prio (set_err t e s) u = prio s u) as E.
    { intros u. unfold prio, set_err. rewrite tk_upd_tk. by case_decide; subst. }
    constructor; try apply Hp.
    + intros u. rewrite E. apply Hp.
    + intros m. eapply StronglySorted_weaken, (po_sorted _ _ _ Hp m). intros a b _ _ Hab. unfold urgent. by rewrite !E.
    + intros m u. rewrite E. apply Hp.
    + intros m u. rewrite E. apply Hp.
Qed.

(** Exactness depends on priorities and mutexes only. *)
Lemma exact_ext s s' d e :
  (∀ t, prio s' t = prio s t) → (∀ t, mf s' t = mf s t) → (∀ m, mx s' m = mx s m) → exact s d e → exact s' d e.
Proof.
  intros E1 E2 E3 H. constructor.
  - intros t Ht. rewrite E1, (ex_prio _ _ _ H t Ht). symmetry. apply get_prio_ext; [by rewrite E2 | by rewrite E2 |]. intros m _. by rewrite E3.
  - intros m. rewrite E3. intros Hm. rewrite (ex_mutex _ _ _ H m Hm). destruct (suspend_thread (mx s m)); simpl; [done | by rewrite E1].
Qed.

Lemma prio_ext s s' d e :
  (∀ t, prio s' t = prio s t) → (∀ t, mf s' t = mf s t) → (∀ m, mx s' m = mx s m) → prio_ok s d e → prio_ok s' d e.
Proof.
  intros E1 E2 E3 H. constructor.
  - intros t. rewrite E1, E2. apply H.
  - intros m. rewrite E3. apply H.
  - intros m. rewrite E3. eapply StronglySorted_weaken, (po_sorted _ _ _ H m). intros a b _ _. unfold urgent. by rewrite !E1.
  - intros m t. rewrite E1, E3. apply H.
  - intros m t. rewrite E1, E3. apply H.
Qed.

Lemma prio_set_err s t e u : prio (set_err t e s) u = prio s u.
Proof. unfold prio, set_err. rewrite tk_upd_tk. by case_decide; subst. Qed.

Lemma set_err_exact s t e : exact s None None → exact (set_err t e s) None None.
Proof. apply exact_ext; [apply prio_set_err | done..]. Qed.

(** ** The count of the owner *)

Lemma set_hold_inv s C m n :
  mutex_inv s C → 1 ≤ n ≤ 255 → mutex_inv (upd_mx m (set_hold n (mx s m)) s) C.
Proof.
  intros [H Hp] Hn. set (s' := upd_mx m (set_hold n (mx s m)) s).
  assert (∀ k, suspend_thread (mx s' k) = suspend_thread (mx s k) ∧ owner (mx s' k) = owner (mx s k) ∧ priority (mx s' k) = priority (mx s k)
    ∧ ceiling_priority (mx s' k) = ceiling_priority (mx s k)) as E by (intros k; unfold s'; by mred).
  split.
  - constructor; try apply H.
    + intros k t. rewrite (proj1 (E k)). apply H.
    + intros k. rewrite (proj1 (E k)). apply H.
    + eapply timer_ext; [done | done |]. intros k. apply E.
    + intros k. destruct (E k) as (-> & -> & _). apply H.
    + intros k t. unfold s'. mred; [done | apply H].
    + intros k t. destruct (E k) as (_ & -> & _). apply H.
    + intros t k Hc. unfold in_call. destruct (E k) as (-> & -> & _). by apply H.
    + apply (acyclic_mono (blocked s)); [|apply H]. intros a b c (k & Hk) _. exists k. destruct (E k) as (E1 & E2 & _). by rewrite E1, E2 in Hk.
  - constructor; try apply Hp.
    + intros k. destruct (E k) as (_ & _ & -> & ->). apply Hp.
    + intros k. destruct (E k) as (-> & _). apply (po_sorted _ _ _ Hp).
    + intros k t. destruct (E k) as (-> & _ & -> & _). apply (po_wait _ _ _ Hp).
    + intros k t. destruct (E k) as (_ & -> & -> & _). apply (po_owner _ _ _ Hp).
Qed.

Lemma set_hold_exact s m n : exact s None None → exact (upd_mx m (set_hold n (mx s m)) s) None None.
Proof.
  intros H. constructor.
  - intros t Ht. change (prio _ t) with (prio s t). rewrite (ex_prio _ _ _ H t Ht). symmetry. apply get_prio_ext; [done | done |]. intros k _. by mred.
  - intros k Hk. change (head_prio (upd_mx m _ s) ?l) with (head_prio s l). mred; by apply H.
Qed.

(** * Taking a free mutex *)

Definition own (s : msys) (t m : nat) : msys := push_taken t m (upd_mx m (set_owner (Some t) 255 1 (mx s m)) s).

Lemma own_inv s C t m : mutex_inv s C → C !! t = None → owner (mx s m) = None → mutex_inv (own s t m) C.
Proof.
  intros [H Hp] Hc Ho. pose proof (sh_free _ _ H m Ho) as Hl.
  assert (Hm : ∀ u, m ∉ taken_object_list (mf s u)) by (intros u Hu%(sh_taken _ _ H); congruence).
  assert (Es : ∀ k, suspend_thread (mx (own s t m) k) = suspend_thread (mx s k)).
  { intros k. unfold own, push_taken. by mred. }
  assert (Em : ∀ k, m ≠ k → mx (own s t m) k = mx s k) by (intros k Hk; unfold own, push_taken; by mred).
  assert (Eo : mx (own s t m) m = mk_mutex [] (ceiling_priority (mx s m)) 255 1 (Some t)).
  { unfold own, push_taken. mred; [|done]. unfold set_owner. by rewrite Hl. }
  assert (Ef : ∀ u, mf (own s t m) u = if decide (t = u) then set_taken (m :: taken_object_list (mf s t)) (mf s t) else mf s u).
  { intros u. unfold own, push_taken. by mred. }
  assert (Ep : ∀ u, pending_object (mf (own s t m) u) = pending_object (mf s u) ∧ init_priority (mf (own s t m) u) = init_priority (mf s u)).
  { intros u. rewrite Ef. by case_decide; subst. }
  change (tk (own s t m)) with (tk s). split.
  - constructor.
    + intros k u. rewrite Es, (proj1 (Ep u)). apply H.
    + intros k. rewrite Es. apply H.
    + by eapply timer_ext.
    + apply H.
    + intros k. destruct (decide (m = k)) as [<- | Hne]; [by rewrite Eo |]. rewrite Em by done. apply H.
    + intros k u. destruct (decide (m = k)) as [<- | Hne]; [rewrite Eo; simpl; lia |]. rewrite Em by done. apply H.
    + intros k u. rewrite Ef. destruct (decide (m = k)) as [<- | Hne].
      * rewrite Eo. case_decide; simpl; [subst; set_solver |]. pose proof (Hm u). split; [done | congruence].
      * rewrite Em by done. case_decide; [subst; simpl |]; rewrite ?elem_of_cons, <-(sh_taken _ _ H); naive_solver.
    + intros u. rewrite Ef. case_decide; [|apply H]. simpl. constructor; [apply Hm | apply H].
    + intros u. rewrite (proj1 (Ep u)). apply H.
    + intros u k Hu. unfold in_call. rewrite Es, (proj1 (Ep u)). change (tk (own s t m) u) with (tk s u).
      destruct (sh_call _ _ H u k Hu) as [? | [(? & ? & ? & Hne) | (? & ? & ? & Ek)]]; [by left | right; left | right; right].
      * split_and!; try done. destruct (decide (m = k)) as [<- | Hk]; [rewrite Eo; simpl; congruence | by rewrite Em].
      * split_and!; try done. rewrite Em; [done | congruence].
    + apply (acyclic_mono (blocked s)); [|apply H]. intros a b c (k & Hk & Hb) _. rewrite Es in Hk. exists k. split; [done |].
      rewrite Em in Hb; [done |]. intros <-. rewrite Hl in Hk. by apply elem_of_nil in Hk.
  - constructor.
    + intros u. rewrite (proj2 (Ep u)). apply Hp.
    + intros k. destruct (decide (m = k)) as [<- | Hne]; [|rewrite Em by done; apply Hp]. rewrite Eo. simpl. split; [lia | apply Hp].
    + intros k. rewrite Es. apply (po_sorted _ _ _ Hp).
    + intros k u _. rewrite Es. intros Hu. rewrite Em; [by apply (po_wait _ _ _ Hp) |]. intros <-. rewrite Hl in Hu. by apply elem_of_nil in Hu.
    + intros k u _. destruct (decide (m = k)) as [<- | Hne].
      * intros _. rewrite Eo. simpl. pose proof (po_range _ _ _ Hp u). change (prio (own s t m) u) with (prio s u). lia.
      * rewrite Em by done. by apply (po_owner _ _ _ Hp).
Qed.

Lemma own_exact s C t m :
  mutex_inv s C → owner (mx s m) = None → no_ceilings s → exact s None None → exact (own s t m) None None.
Proof.
  intros [H Hp] Ho Hn Hx. pose proof (sh_free _ _ H m Ho) as Hl.
  assert (Hm : ∀ u, m ∉ taken_object_list (mf s u)) by (intros u Hu%(sh_taken _ _ H); congruence).
  constructor.
  - intros u _. change (prio (own s t m) u) with (prio s u). rewrite (ex_prio _ _ _ Hx) by done.
    destruct (decide (t = u)) as [<- | Hne].
    + apply get_prio_eq. intros q. rewrite get_prio_glb. unfold own, push_taken. mred; [|done].
      pose proof (po_range _ _ _ Hp t) as Hr. split; intros [Hi Ht]; split; try done.
      * intros k [-> | Hk]%elem_of_cons; mred; try done; try (rewrite Hn; lia). by apply Ht.
      * intros k Hk. specialize (Ht k (list_elem_of_further _ _ _ Hk)). mred; [by destruct (Hm t) | done].
    + symmetry. apply get_prio_ext; unfold own, push_taken; [by mred | by mred |]. intros k Hk. mred; [|done]. by destruct (Hm u).
  - intros k _. change (head_prio (own s t m) ?l) with (head_prio s l). unfold own, push_taken. mred; [by rewrite Hl |]. by apply Hx.
Qed.

(** A running thread is raised at once. *)
Lemma update_running s t p : t_susp (tk s t) = false → p < 32 → _thread_update_priority s t p = Some (with_prio s t p).
Proof.
  intros Hs Hp. unfold _thread_update_priority. rewrite change_prio by done. cbn [mbind option_bind update_loop].
  by rewrite (ss_susp _ _ _ (with_prio_shape s t p)), Hs.
Qed.

(** Raising a running thread keeps the invariants. *)
Lemma raise_inv s C t p :
  mutex_inv s C → (∀ m, t ∉ suspend_thread (mx s m)) → 0 ≤ p ≤ prio s t → mutex_inv (with_prio s t p) C.
Proof.
  intros [H Hp] Ht Hr. pose proof (po_range _ _ _ Hp t). split; [eapply shape_same; [apply with_prio_shape | done] |].
  eapply prio_clean; [exact Ht |]. apply with_prio_ok; [by apply prio_weaken | lia |].
  intros m Hm. pose proof (po_owner _ _ _ Hp m t ltac:(done) Hm). lia.
Qed.

Lemma take_free s C t m timeout :
  mutex_inv s C → C !! t = None → owner (mx s m) = None →
  ∃ s', _rt_mutex_take s t m timeout = Some (Returns RT_EOK, s') ∧ mutex_inv s' C ∧ owner (mx s' m) = Some t ∧ hold (mx s' m) = 1
    ∧ (∀ n, m ≠ n → mx s' n = mx s n) ∧ (∀ n, ceiling_priority (mx s' n) = ceiling_priority (mx s n)) ∧ (no_ceilings s → exact s None None → exact s' None None).
Proof.
  intros Hi Hc Ho. set (s0 := set_err t RT_EOK s). pose proof (set_err_inv s C t RT_EOK Hi Hc : mutex_inv s0 C) as Hi0.
  pose proof (own_inv s0 C t m Hi0 Hc Ho) as Hi1. unfold _rt_mutex_take. fold s0. change (mx s0 m) with (mx s m). rewrite Ho. cbv zeta.
  set (s1 := upd_mx m (set_owner (Some t) 255 1 (mx s m)) s0). change (own s0 t m) with (push_taken t m s1) in Hi1.
  assert (Hrun : t_susp (tk s1 t) = false) by (apply (idle_running s0 C); [apply Hi0 | done]).
  assert (Hmx : ∀ n, mx (push_taken t m s1) n = if decide (m = n) then set_owner (Some t) 255 1 (mx s m) else mx s n) by (intros n; exact (mx_upd_mx s0 m _ n)).
  destruct (negb (ceiling_priority (mx s m) =? 255) && (ceiling_priority (mx s m) <? prio s1 t)) eqn:E.
  - apply andb_true_iff in E as [E1 E2]. apply negb_true_iff, Z.eqb_neq in E1. apply Z.ltb_lt in E2.
    destruct Hi as [H Hp]. destruct Hi0 as [H0 Hp0]. pose proof (po_range _ _ _ Hp0 t) as Hr. change (prio s0 t) with (prio s1 t) in Hr.
    rewrite update_running by (done || lia). cbn [mbind option_bind].
    change (push_taken t m (with_prio s1 t (ceiling_priority (mx s m)))) with (with_prio (push_taken t m s1) t (ceiling_priority (mx s m))).
    eexists. split_and!; [done | | | | | |].
    + apply raise_inv; [done | | pose proof (po_bound _ _ _ Hp m); split; [lia |]; change (prio (push_taken t m s1) t) with (prio s1 t); lia].
      intros k. rewrite Hmx. case_decide; [cbn; subst; rewrite (sh_free _ _ H k Ho); apply not_elem_of_nil | by eapply idle_not_waiting].
    + change (mx (with_prio _ _ _) m) with (mx (push_taken t m s1) m). by rewrite Hmx, decide_True.
    + change (mx (with_prio _ _ _) m) with (mx (push_taken t m s1) m). by rewrite Hmx, decide_True.
    + intros n Hn. change (mx (with_prio _ _ _) n) with (mx (push_taken t m s1) n). by rewrite Hmx, decide_False.
    + intros n. change (mx (with_prio _ _ _) n) with (mx (push_taken t m s1) n). rewrite Hmx. by case_decide; subst.
    + intros Hno. by rewrite Hno in E1.
  - cbn [mbind option_bind]. eexists. split_and!; [done | done | | | | |].
    + by rewrite Hmx, decide_True.
    + by rewrite Hmx, decide_True.
    + intros n Hn. by rewrite Hmx, decide_False.
    + intros n. rewrite Hmx. by case_decide; subst.
    + intros Hno Hx. apply (own_exact s0 C t m Hi0 Ho Hno). by apply set_err_exact.
Qed.

(** * Waiting for a mutex *)

(** Thread [t] has been put on the list of mutex [m]. *)
Record put_to_sleep (s s' : msys) (t m : nat) : Prop := {
  pt_prio : ∀ u, prio s' u = prio s u;
  pt_tk : ∀ u, t ≠ u → tk s' u = tk s u;
  pt_err : t_error (tk s' t) = RT_EOK;
  pt_pend : t_pend (tk s' t) = t_pend (tk s t);
  pt_mf : ∀ u, mf s' u = if decide (t = u) then set_pending (Some m) (mf s t) else mf s u;
  pt_mx : ∀ n, mx s' n = if decide (m = n) then set_susps (prio_insert (ms_ts s) (suspend_thread (mx s m)) t) (mx s m) else mx s n;
  pt_wait : ∀ W, wait_ok (ms_ts s) W → t ∉ W → wait_ok (ms_ts s') (t :: W)
}.

Lemma suspend_pend ts l t flag r ts' l' :
  rt_thread_suspend_to_list ts l t flag = (r, ts', l') → t_pend (th ts' t) = t_pend (th ts t).
Proof.
  unfold rt_thread_suspend_to_list. destruct (t_susp (th ts t)); intros [= <- <- <-]; [done |]. rewrite !th_upd_eq.
  unfold rt_sched_thread_timer_stop, rt_timer_stop. simpl. by destruct (t_ttmr (th ts t)), (t_active (th ts t)).
Qed.

Lemma suspend_self s C t m :
  shape_ok s C → C !! t = None →
  ∃ ts l s', rt_thread_suspend_to_list (ms_ts (set_err t RT_EOK s)) (suspend_thread (mx s m)) t RT_IPC_FLAG_PRIO = (RT_EOK, ts, l)
    ∧ s' = pend_on t (Some m) (upd_mx m (set_susps l (mx s m)) (mk_ms ts (ms_mf s) (ms_mx s))) ∧ put_to_sleep s s' t m.
Proof.
  intros H Hc. destruct (sh_timer _ _ H) as (W & Hw & HW).
  assert (Ht : t ∉ W) by (rewrite HW; intros [k Hk]; by eapply idle_not_waiting).
  destruct (block_spec (ms_ts s) W (suspend_thread (mx s m)) t RT_IPC_FLAG_PRIO RT_EOK 0 Hw Ht) as (ts & E & Hw' & Hs & Hu & He); [by right |].
  cbn [Z.ltb Z.compare] in *. eexists ts, _, _. split_and!; [exact E | done |]. constructor.
  - intros u. apply Hs.
  - intros u Hne. apply Hu. congruence.
  - exact He.
  - etrans; [exact (suspend_pend _ _ _ _ _ _ _ E) |]. simpl. by rewrite th_upd_eq.
  - intros u. unfold pend_on. rewrite mf_upd_mf. by case_decide.
  - intros n. unfold pend_on. rewrite mx_upd_mf, mx_upd_mx. by case_decide.
  - intros W' Hw1 Ht1. assert (W ≡ₚ W') as Ep.
    { apply NoDup_Permutation; [apply Hw | apply Hw1 |]. intros u. by rewrite <-(w_susp _ _ Hw), <-(w_susp _ _ Hw1). }
    eapply wait_ok_perm; [|exact Hw']. by rewrite Ep.
Qed.

Lemma sleep_elem s s' t m u k :
  put_to_sleep s s' t m → u ∈ suspend_thread (mx s' k) ↔ u ∈ suspend_thread (mx s k) ∨ (u = t ∧ k = m).
Proof.
  intros Hs. rewrite (pt_mx _ _ _ _ Hs). case_decide; [subst; simpl; rewrite prio_insert_elem; naive_solver | naive_solver].
Qed.

Lemma sleep_owner s s' t m k : put_to_sleep s s' t m → owner (mx s' k) = owner (mx s k).
Proof. intros Hs. rewrite (pt_mx _ _ _ _ Hs). by case_decide; subst. Qed.


Lemma sleep_shape s s' C t m o :
  shape_ok s C → C !! t = None → owner (mx s m) = Some o → ¬ rtc (blocked s) o t → put_to_sleep s s' t m →
  shape_ok s' (<[t := m]> C).
Proof.
  intros H Hc Ho Hno Hs. assert (Hnw : ∀ k, t ∉ suspend_thread (mx s k)) by (intros k; by eapply idle_not_waiting).
  constructor.
  - intros k u. rewrite (sleep_elem _ _ _ _ _ _ Hs). intros [Hu | [-> ->]].
    + assert (t ≠ u) by (intros ->; by apply (Hnw k)). destruct (sh_wait _ _ H k u Hu) as (? & ? & ?).
      by rewrite (pt_mf _ _ _ _ Hs), decide_False, lookup_insert_ne, (pt_tk _ _ _ _ Hs) by done.
    + rewrite (pt_mf _ _ _ _ Hs), decide_True, lookup_insert_eq, (pt_err _ _ _ _ Hs) by done. done.
  - intros k. rewrite (pt_mx _ _ _ _ Hs). case_decide; [|apply H]. subst. simpl. apply prio_insert_NoDup; [apply H | apply Hnw].
  - destruct (sh_timer _ _ H) as (W & Hw & HW). exists (t :: W). split.
    + apply (pt_wait _ _ _ _ Hs); [done |]. rewrite HW. intros [k Hk]. by apply (Hnw k).
    + intros u. rewrite elem_of_cons, HW. setoid_rewrite (sleep_elem _ _ _ _ _ _ Hs). split.
      * intros [-> | [k Hk]]; [exists m; by right | exists k; by left].
      * intros [k [Hk | [-> ->]]]; [right; by exists k | by left].
  - intros u. destruct (decide (t = u)) as [<- | Hne]; [rewrite (pt_pend _ _ _ _ Hs) | rewrite (pt_tk _ _ _ _ Hs) by done]; apply H.
  - intros k. rewrite (sleep_owner _ _ _ _ _ Hs), (pt_mx _ _ _ _ Hs). case_decide; [subst; congruence | apply H].
  - intros k u. rewrite (sleep_owner _ _ _ _ _ Hs), (pt_mx _ _ _ _ Hs). case_decide; subst; apply H.
  - intros k u. rewrite (sleep_owner _ _ _ _ _ Hs), (pt_mf _ _ _ _ Hs), <-(sh_taken _ _ H). by case_decide; subst.
  - intros u. rewrite (pt_mf _ _ _ _ Hs). case_decide; subst; apply H.
  - intros u [Hu Hne]%lookup_insert_None. rewrite (pt_mf _ _ _ _ Hs), decide_False by done. by apply H.
  - intros u k [[<- <-] | [Hne Hu]]%lookup_insert_Some; [left; apply (sleep_elem _ _ _ _ _ _ Hs); by right |].
    unfold in_call. rewrite (sleep_elem _ _ _ _ _ _ Hs), (sleep_owner _ _ _ _ _ Hs), (pt_tk _ _ _ _ Hs), (pt_mf _ _ _ _ Hs), decide_False by done.
    destruct (sh_call _ _ H u k Hu) as [? | ?]; [left; by left | by right].
  - eapply (acyclic_add (blocked s)); [|exact Hno | apply H]. intros a b (k & Hk & Hb). rewrite (sleep_owner _ _ _ _ _ Hs) in Hb.
    apply (sleep_elem _ _ _ _ _ _ Hs) in Hk as [Hk | [-> ->]]; [left; by exists k | right; split; congruence].
Qed.

(** The thread starts its timer. *)
Lemma start_timer_inv s C t m :
  mutex_inv s C → t ∈ suspend_thread (mx s m) → mutex_inv (upd_tk t (rt_timer_start (tk s t)) s) C.
Proof.
  intros [H Hp] Ht. split.
  - constructor; try apply H.
    + intros k u Hu. destruct (sh_wait _ _ H k u Hu) as (? & ? & ?). rewrite tk_upd_tk. by case_decide; subst.
    + destruct (sh_timer _ _ H) as (W & Hw & HW). exists W. split; [|done]. pose proof Hw as []. unfold upd_tk. cbn [ms_ts]. constructor.
      * done.
      * intros u. rewrite th_upd. case_decide; [subst; apply w_susp | apply w_susp]; done.
      * intros u Hu. rewrite th_upd. case_decide; [done | by apply w_ttmr].
      * intros u. rewrite th_upd. case_decide; [|done]. simpl. apply (sh_pend _ _ H).
      * intros u Hu. rewrite th_upd_ne; [by apply w_off |]. intros ->. apply Hu, HW. by exists m.
    + intros u. rewrite tk_upd_tk. case_decide; [subst; apply (sh_pend _ _ H) | apply H].
    + intros u k Hu. unfold in_call. rewrite !tk_upd_tk. case_decide; [subst |]; by apply (sh_call _ _ H).
  - revert Hp. apply prio_ext; try done. intros u. unfold prio. rewrite tk_upd_tk. by case_decide; subst.
Qed.

(** ** The priorities *)

Lemma head_insert s l t : prio s t < 255 → head_prio s (prio_insert (ms_ts s) l t) = Z.min (prio s t) (head_prio s l).
Proof.
  intros Ht. destruct l as [|u l]; simpl; [lia |].
  change (t_prio (th (ms_ts s) t)) with (prio s t). change (t_prio (th (ms_ts s) u)) with (prio s u).
  destruct (Z.ltb_spec (prio s t) (prio s u)); cbn [head_prio]; lia.
Qed.

Lemma insert_sorted s l t : StronglySorted (urgent s) l → StronglySorted (urgent s) (prio_insert (ms_ts s) l t).
Proof. intros Hl. apply (enqueue_ordered (ms_ts s) l t RT_IPC_FLAG_PRIO); [by intros _ | done]. Qed.

Section sleep.
  Context (s s' : msys) (C : gmap nat nat) (t m o : nat).
  Context (H : shape_ok s C) (Hp : prio_ok s None None) (Ho : owner (mx s m) = Some o) (Hs : put_to_sleep s s' t m).

Lemma sleep_head l : head_prio s' l = head_prio s l.
Proof. destruct l; simpl; [done | apply (pt_prio _ _ _ _ Hs)]. Qed.

Lemma sleep_get u :
  init_priority (mf s' u) = init_priority (mf s u) ∧ taken_object_list (mf s' u) = taken_object_list (mf s u).
Proof. rewrite (pt_mf _ _ _ _ Hs). by case_decide; subst. Qed.

(** The list is in order with any new priority of the mutex that suits the new thread. *)
Lemma sleep_prio q e :
  0 ≤ q ≤ 255 → q ≤ prio s t → q ≤ priority (mx s m) → (Some o ≠ e → prio s o ≤ q) → prio_ok (upd_mx m (set_priority q (mx s' m)) s') None e.
Proof.
  intros Hq Hqt Hqm Hqo. set (s2 := upd_mx m (set_priority q (mx s' m)) s').
  assert (Em : ∀ n, mx s2 n = if decide (m = n) then set_priority q (set_susps (prio_insert (ms_ts s) (suspend_thread (mx s m)) t) (mx s m)) else mx s n).
  { intros n. unfold s2. rewrite mx_upd_mx, !(pt_mx _ _ _ _ Hs), !(decide_True (P := m = m)) by done. by case_decide. }
  assert (Ep : ∀ u, prio s2 u = prio s u) by apply (pt_prio _ _ _ _ Hs).
  constructor.
  - intros u. rewrite Ep. change (mf s2 u) with (mf s' u). rewrite (proj1 (sleep_get u)). apply Hp.
  - intros n. rewrite Em. case_decide; [|apply Hp]. simpl. split; [done | apply Hp].
  - intros n. rewrite Em. case_decide; simpl.
    + eapply StronglySorted_weaken, insert_sorted, (sorted_all _ _ _ Hp). intros a b _ _ Hab _ _. unfold urgent. by rewrite !Ep.
    + eapply StronglySorted_weaken, (po_sorted _ _ _ Hp n). intros a b _ _. unfold urgent. by rewrite !Ep.
  - intros n u _. rewrite Em, Ep. case_decide; simpl; [|by apply (po_wait _ _ _ Hp)]. subst n.
    intros [-> | Hu]%prio_insert_elem; [done |]. etrans; [exact Hqm | by apply (po_wait _ _ _ Hp)].
  - intros n u Hu. rewrite Em, Ep. case_decide; simpl; [|intros Hn; by apply (po_owner _ _ _ Hp n u)].
    rewrite Ho. intros [= <-]. by apply Hqo.
Qed.

Lemma sleep_exact q e :
  exact s None None → q = Z.min (prio s t) (priority (mx s m)) → prio s t < 255 →
  (Some o ≠ e → prio s o = _thread_get_mutex_priority (upd_mx m (set_priority q (mx s' m)) s') o) →
  exact (upd_mx m (set_priority q (mx s' m)) s') None e.
Proof.
  intros Hx Hq Ht Hqo. set (s2 := upd_mx m (set_priority q (mx s' m)) s').
  assert (Em : ∀ n, mx s2 n = if decide (m = n) then set_priority q (set_susps (prio_insert (ms_ts s) (suspend_thread (mx s m)) t) (mx s m)) else mx s n).
  { intros n. unfold s2. rewrite mx_upd_mx, !(pt_mx _ _ _ _ Hs), !(decide_True (P := m = m)) by done. by case_decide. }
  constructor.
  - intros u Hu. change (prio s2 u) with (prio s' u). rewrite (pt_prio _ _ _ _ Hs). destruct (decide (u = o)) as [-> | Hne]; [by apply Hqo |].
    rewrite (ex_prio _ _ _ Hx) by done. symmetry. apply get_prio_ext; [apply sleep_get | apply sleep_get |].
    intros n Hn%(sh_taken _ _ H). rewrite Em. rewrite decide_False by congruence. done.
  - intros n _. change (head_prio s2 ?l) with (head_prio s' l). rewrite sleep_head, Em. case_decide; [|by apply Hx]. simpl.
    rewrite head_insert by done. by rewrite Hq, (ex_mutex _ _ _ Hx m).
Qed.

(** What the owner should have now. *)
Lemma sleep_owner_prio q :
  q ≤ priority (mx s m) → exact s None None →
  _thread_get_mutex_priority (upd_mx m (set_priority q (mx s' m)) s') o = Z.min q (prio s o).
Proof.
  intros Hq Hx. set (s2 := upd_mx m (set_priority q (mx s' m)) s'). symmetry. apply get_prio_eq. intros r.
  change (mf s2 o) with (mf s' o). destruct (sleep_get o) as [-> ->].
  assert (Em : ∀ n, ceiling_priority (mx s2 n) = ceiling_priority (mx s n) ∧ priority (mx s2 n) = if decide (m = n) then q else priority (mx s n)).
  { intros n. unfold s2. rewrite mx_upd_mx, !(pt_mx _ _ _ _ Hs), !(decide_True (P := m = m)) by done. by case_decide; subst. }
  rewrite (ex_prio _ _ _ Hx) by done. rewrite Z.min_glb_iff, get_prio_glb. split.
  - intros (Hr & Hi & Hl). split; [done |]. intros n Hn. destruct (Em n) as [-> ->]. destruct (Hl n Hn). by case_decide.
  - intros [Hi Hl]. assert (Hrq : r ≤ q).
    { destruct (Hl m) as [Hrm _]; [by apply (sh_taken _ _ H) |]. destruct (Em m) as [_ E]. rewrite decide_True in E by done. by rewrite <-E. }
    split_and!; [done | done |]. intros n Hn. destruct (Hl n Hn) as [H1 H2]. destruct (Em n) as [E1 E2]. rewrite E1 in H2. rewrite E2 in H1.
    case_decide; [subst n; split; [lia | done] | done].
Qed.
End sleep.

(** Taking a mutex that another thread owns. *)
Lemma take_blocks_ok s C t m o timeout :
  mutex_inv s C → C !! t = None → owner (mx s m) = Some o → o ≠ t → timeout ≠ 0 → ¬ rtc (blocked s) o t →
  ∃ s', _rt_mutex_take s t m timeout = Some (Blocks, s') ∧ mutex_inv s' (<[t := m]> C)
    ∧ (∀ n, owner (mx s' n) = owner (mx s n) ∧ hold (mx s' n) = hold (mx s n) ∧ ceiling_priority (mx s' n) = ceiling_priority (mx s n))
    ∧ (exact s None None → exact s' None None).
Proof.
  intros [H Hp] Hc Ho Hne Htm Hno. unfold _rt_mutex_take. cbv zeta.
  change (mx (set_err t RT_EOK s) m) with (mx s m). rewrite Ho, decide_False by done. rewrite (proj2 (Z.eqb_neq _ _) Htm).
  destruct (suspend_self s C t m H Hc) as (ts & l & s1 & -> & E1 & Hs). cbn [Z.eqb RT_EOK negb].
  change (ms_mf (set_err t RT_EOK s)) with (ms_mf s). change (ms_mx (set_err t RT_EOK s)) with (ms_mx s). rewrite <-E1.
  pose proof (sleep_shape s s1 C t m o H Hc Ho Hno Hs) as H1.
  assert (Hpr : prio s1 m = prio s m) by apply (pt_prio _ _ _ _ Hs).
  assert (Epm : priority (mx s1 m) = priority (mx s m)) by (by rewrite (pt_mx _ _ _ _ Hs), decide_True).
  rewrite Epm, !(pt_prio _ _ _ _ Hs). pose proof (po_range _ _ _ Hp t) as Hrt. pose proof (po_bound _ _ _ Hp m) as Hbm.
  set (s2 := upd_mx m (set_priority (prio s t) (mx s1 m)) s1).
  assert (∃ s', (if prio s t <? priority (mx s m) then if prio s t <? prio s2 o then _thread_update_priority s2 o (prio s t) else Some s2 else Some s1) = Some s'
    ∧ same_shape s1 s' ∧ prio_ok s' None None ∧ (exact s None None → exact s' None None)) as (s3 & E3 & Hs3 & Hp3 & Hx3).
  { change (prio s2 o) with (prio s1 o). rewrite (pt_prio _ _ _ _ Hs).
    assert (Hs2 : same_shape s1 s2).
    { constructor; try done; try (intros n; unfold s2; rewrite mx_upd_mx; by case_decide; subst).
      intros u. unfold prio. change (tk s2 u) with (tk s1 u). by destruct (tk s1 u). }
    destruct (Z.ltb_spec (prio s t) (priority (mx s m))) as [Hlt|Hge]; [destruct (Z.ltb_spec (prio s t) (prio s o)) as [Hlo|Hlo] |].
    - assert (Hp2 : prio_ok s2 None (Some o)) by (apply (sleep_prio s s1 t m o Hp Ho Hs); try done; lia).
      destruct (update_priority_ok s2 o (prio s t) (<[t := m]> C)) as (s3 & E3 & Hs3 & Hp3 & Hx3); [by eapply shape_same | done | | |].
      + change (mf s2 o) with (mf s1 o). rewrite (proj1 (sleep_get _ _ _ _ Hs o)). pose proof (po_range _ _ _ Hp o). lia.
      + intros n Hn. unfold s2 in *. rewrite mx_upd_mx in *. case_decide; [simpl; lia |].
        rewrite (sleep_owner _ _ _ _ _ Hs) in Hn. rewrite (pt_mx _ _ _ _ Hs), decide_False by done.
        pose proof (po_owner _ _ _ Hp n o ltac:(done) Hn). lia.
      + exists s3. split_and!; [done | by etrans | done |]. intros Hx. apply Hx3.
        * apply (sleep_exact s s1 C t m o H Ho Hs); try done; lia.
        * unfold s2. rewrite (sleep_owner_prio s s1 C t m o H Ho Hs) by (done || lia). lia.
    - exists s2. split_and!; [done | done | apply (sleep_prio s s1 t m o Hp Ho Hs); try done; lia |]. intros Hx. apply (sleep_exact s s1 C t m o H Ho Hs); try done; [lia | lia |].
      intros _. rewrite (sleep_owner_prio s s1 C t m o H Ho Hs) by (done || lia). lia.
    - assert (Em : ∀ n, mx s1 n = mx (upd_mx m (set_priority (priority (mx s m)) (mx s1 m)) s1) n).
      { intros n. rewrite mx_upd_mx. case_decide; [subst n | done]. rewrite <-Epm. by destruct (mx s1 m). }
      pose proof (po_owner _ _ _ Hp m o ltac:(done) Ho) as Hom.
      exists s1. split_and!; [done | done | |].
      + eapply prio_ext; [| |exact Em |]; [done | done |]. apply (sleep_prio s s1 t m o Hp Ho Hs); try done; lia.
      + intros Hx. eapply exact_ext; [| |exact Em |]; [done | done |]. apply (sleep_exact s s1 C t m o H Ho Hs); try done; [lia | lia |].
        intros _. rewrite (sleep_owner_prio s s1 C t m o H Ho Hs) by (done || lia). lia. }
  rewrite E3. cbn [mbind option_bind]. assert (Hi3 : mutex_inv s3 (<[t := m]> C)) by (split; [by eapply shape_same | done]).
  assert (Hin : t ∈ suspend_thread (mx s3 m)).
  { apply (ss_elem _ _ _ _ Hs3), (sleep_elem _ _ _ _ _ _ Hs). by right. }
  assert (Hmx : ∀ n, owner (mx s3 n) = owner (mx s n) ∧ hold (mx s3 n) = hold (mx s n) ∧ ceiling_priority (mx s3 n) = ceiling_priority (mx s n)).
  { intros n. rewrite (ss_owner _ _ Hs3), (ss_hold _ _ Hs3), (ss_ceiling _ _ Hs3), (pt_mx _ _ _ _ Hs). by case_decide; subst. }
  destruct (0 <? timeout).
  - eexists. split_and!; [done | by eapply start_timer_inv | done |]. intros Hx. eapply exact_ext, Hx3, Hx; try done.
    intros u. unfold prio. rewrite tk_upd_tk. by case_decide; subst.
  - eexists. by split_and!.
Qed.

(** * Leaving the list without the mutex *)

Lemma mx_update_priority s m n :
  mx (_mutex_update_priority s m) n = if decide (m = n) then set_priority (head_prio s (suspend_thread (mx s m))) (mx s m) else mx s n.
Proof. apply mx_upd_mx. Qed.

Lemma update_mutex_shape s m : same_shape s (_mutex_update_priority s m).
Proof.
  constructor; try done; try (intros n; rewrite mx_update_priority; by case_decide; subst).
  intros u. unfold prio. change (tk (_mutex_update_priority s m) u) with (tk s u). by destruct (tk s u).
Qed.

(** The priority of a mutex only ever lags behind its list. *)
Lemma priority_le_head s m : prio_ok s None None → priority (mx s m) ≤ head_prio s (suspend_thread (mx s m)).
Proof.
  intros Hp. destruct (suspend_thread (mx s m)) as [|t l] eqn:E; simpl; [apply Hp |].
  apply (po_wait _ _ _ Hp); [done |]. rewrite E. by left.
Qed.

Lemma update_mutex_prio s m : prio_ok s None None → prio_ok (_mutex_update_priority s m) None None.
Proof.
  intros Hp. pose proof (priority_le_head s m Hp) as Hle. constructor.
  - apply Hp.
  - intros n. rewrite mx_update_priority. case_decide; [|apply Hp]. simpl. split; [by eapply head_prio_range | apply Hp].
  - intros n. rewrite mx_update_priority. case_decide; [subst n |]; apply (po_sorted _ _ _ Hp).
  - intros n u _. change (prio (_mutex_update_priority s m) u) with (prio s u).
    rewrite mx_update_priority. case_decide; simpl; [subst n | by apply (po_wait _ _ _ Hp)]. intros Hu.
    apply head_prio_le; [by eapply sorted_all | done].
  - intros n u _. change (prio (_mutex_update_priority s m) u) with (prio s u).
    rewrite mx_update_priority. case_decide; simpl; [subst n | by apply (po_owner _ _ _ Hp)]. intros Hu.
    etrans; [by apply (po_owner _ _ _ Hp m u) | done].
Qed.

(** All priorities are exact, but the mutex may still count the thread that has left. *)
Record stale (s : msys) (m t : nat) : Prop := {
  st_prio : ∀ u, prio s u = _thread_get_mutex_priority s u;
  st_other : ∀ n, m ≠ n → priority (mx s n) = head_prio s (suspend_thread (mx s n));
  st_this : priority (mx s m) = prio s t ∨ priority (mx s m) = head_prio s (suspend_thread (mx s m))
}.

Lemma update_mutex_exact s C m t o :
  shape_ok s C → owner (mx s m) = Some o → stale s m t → exact (_mutex_update_priority s m) None (Some o).
Proof.
  intros H Ho Hx. constructor.
  - intros u Hu. change (prio (_mutex_update_priority s m) u) with (prio s u). rewrite (st_prio _ _ _ Hx). symmetry.
    apply get_prio_ext; [done | done |]. intros n Hn%(sh_taken _ _ H). rewrite mx_update_priority, decide_False by congruence. done.
  - intros n _. change (head_prio (_mutex_update_priority s m) ?l) with (head_prio s l). rewrite mx_update_priority.
    case_decide; [done |]. by apply (st_other _ _ _ Hx).
Qed.

(** An owner that did not get its priority from the thread that has left keeps it. *)
Lemma update_mutex_settled s C m t o :
  shape_ok s C → prio_ok s None None → owner (mx s m) = Some o → stale s m t → prio s o ≠ prio s t → no_ceilings s →
  exact (_mutex_update_priority s m) None None.
Proof.
  intros H Hp Ho Hx Hne Hno. eapply exact_settled; [by eapply update_mutex_exact |]. change (prio (_mutex_update_priority s m) o) with (prio s o).
  pose proof (priority_le_head s m Hp) as Hle. pose proof (po_owner _ _ _ Hp m o ltac:(done) Ho) as Hom.
  rewrite (st_prio _ _ _ Hx). destruct (st_this _ _ _ Hx) as [E | E].
  - apply get_prio_eq. intros q. change (mf (_mutex_update_priority s m) o) with (mf s o). rewrite get_prio_glb. split; intros [Hi Hl]; split; try done.
    + intros n Hn. rewrite mx_update_priority. case_decide; [subst n; simpl | by apply Hl]. destruct (Hl m Hn). split; [lia | done].
    + intros n Hn. destruct (decide (m = n)) as [<- | Hmn]; [|specialize (Hl n Hn); by rewrite mx_update_priority, decide_False in Hl].
      (* everything but this mutex asks for more than it did *)
      assert (q ≤ prio s o); [|rewrite Hno; pose proof (po_range _ _ _ Hp o); lia].
      destruct (Z.le_gt_cases q (prio s o)) as [|Hgt]; [done |]. exfalso.
      assert (prio s o + 1 ≤ _thread_get_mutex_priority s o); [|rewrite <-(st_prio _ _ _ Hx) in *; lia].
      apply get_prio_glb. split; [lia |]. intros k Hk. specialize (Hl k Hk). rewrite mx_update_priority in Hl.
      case_decide; [subst k; simpl in Hl; split; lia | lia].
  - symmetry. apply get_prio_ext; [done | done |]. intros n Hn. rewrite mx_update_priority. case_decide; [|done]. subst n. simpl. by rewrite E.
Qed.

Lemma waiter_left_ok s C m t :
  mutex_inv s C → t ∉ suspend_thread (mx s m) →
  ∃ s', waiter_left s m t = Some s' ∧ same_shape s s' ∧ prio_ok s' None None
    ∧ (no_ceilings s → stale s m t → exact s' None None).
Proof.
  intros [H Hp] Ht. unfold waiter_left. cbv zeta. pose proof (update_mutex_shape s m) as Hs. pose proof (update_mutex_prio s m Hp) as Hp'.
  destruct (owner (mx s m)) as [o|] eqn:Ho.
  - destruct (Z.eqb_spec (prio s o) (prio s t)) as [E|E].
    + destruct (refresh_owner_ok (_mutex_update_priority s m) o C) as (s' & E' & Hs' & Hp'' & Hx);
        [by eapply shape_same | by apply prio_weaken |].
      exists s'. split_and!; [done | by etrans | done |]. intros _ Hst. apply Hx. by eapply update_mutex_exact.
    + exists (_mutex_update_priority s m). split_and!; [done | done | done |]. intros Hno Hst. by eapply update_mutex_settled.
  - exists (_mutex_update_priority s m). split_and!; [done | done | done |]. intros Hno Hst.
    pose proof (sh_free _ _ H m Ho) as Hl.
    constructor.
    + intros u _. change (prio (_mutex_update_priority s m) u) with (prio s u). rewrite (st_prio _ _ _ Hst). symmetry.
      apply get_prio_ext; [done | done |]. intros n Hn%(sh_taken _ _ H). rewrite mx_update_priority, decide_False by congruence. done.
    + intros n _. change (head_prio (_mutex_update_priority s m) ?l) with (head_prio s l). rewrite mx_update_priority.
      case_decide; [done |]. by apply (st_other _ _ _ Hst).
Qed.

(** The thread runs again: its assertions hold and it returns the result. *)
Lemma pend_none_inv s C t m :
  mutex_inv s C → C !! t = Some m → t ∉ suspend_thread (mx s m) → mutex_inv (pend_on t None s) (delete t C).
Proof.
  intros [H Hp] Hc Ht. assert (Hnw : ∀ k, t ∉ suspend_thread (mx s k)).
  { intros k Hk. destruct (sh_wait _ _ H k t Hk) as (_ & E & _). replace k with m in Hk by congruence. done. }
  assert (Ef : ∀ u, mf (pend_on t None s) u = if decide (t = u) then set_pending None (mf s t) else mf s u) by (intros u; apply mf_upd_mf).
  split.
  - constructor; try apply H.
    + intros k u Hu. assert (t ≠ u) by (intros ->; by apply (Hnw k)). rewrite Ef, decide_False, lookup_delete_ne by done. by apply H.
    + intros k u. change (mx (pend_on t None s) k) with (mx s k). rewrite Ef, <-(sh_taken _ _ H). by case_decide; subst.
    + intros u. rewrite Ef. case_decide; subst; apply H.
    + intros u. rewrite Ef. case_decide; [done |]. rewrite lookup_delete_ne by done. apply H.
    + intros u k [Hne Hu]%lookup_delete_Some. unfold in_call. rewrite Ef, decide_False by done. by apply H.
  - constructor; try apply Hp. intros u. rewrite Ef. case_decide; subst; apply Hp.
Qed.

Lemma pend_none_exact s t : exact s None None → exact (pend_on t None s) None None.
Proof.
  intros Hx. assert (Ef : ∀ u, mf (pend_on t None s) u = if decide (t = u) then set_pending None (mf s t) else mf s u) by (intros u; apply mf_upd_mf).
  constructor; [|apply Hx]. intros u _. change (prio (pend_on t None s) u) with (prio s u). rewrite (ex_prio _ _ _ Hx) by done.
  symmetry. apply get_prio_ext; rewrite ?Ef; [by case_decide; subst | by case_decide; subst | done].
Qed.

Lemma resume_ok s C t m :
  mutex_inv s C → C !! t = Some m → t_susp (tk s t) = false →
  ∃ r s', mutex_take_resume s t m = Some (r, s') ∧ mutex_inv s' (delete t C)
    ∧ (∀ n, owner (mx s' n) = owner (mx s n) ∧ hold (mx s' n) = hold (mx s n) ∧ ceiling_priority (mx s' n) = ceiling_priority (mx s n))
    ∧ (r = RT_EOK ∧ owner (mx s m) = Some t ∧ t_error (tk s t) = RT_EOK ∨ r = - RT_ETIMEOUT ∧ owner (mx s m) ≠ Some t ∧ t_error (tk s t) = - RT_ETIMEOUT)
    ∧ (no_ceilings s → (t_error (tk s t) = RT_EOK → exact s None None) → (t_error (tk s t) ≠ RT_EOK → stale s m t) → exact s' None None).
Proof.
  intros [H Hp] Hc Hrun. unfold mutex_take_resume.
  assert (Ht : t ∉ suspend_thread (mx s m)).
  { intros Ht. assert (t_susp (tk s t) = true) by (apply (susp_iff _ _ _ H); by exists m). congruence. }
  destruct (sh_call _ _ H t m Hc) as [? | [(_ & Hpd & He & Ho) | (_ & Hpd & He & Ho)]]; [done | |]; rewrite He.
  - change (- RT_ETIMEOUT =? RT_EOK) with false. cbv iota zeta. rewrite decide_False by done. destruct (waiter_left_ok s C m t) as (s' & -> & Hs & Hp' & Hx); [done | done |]. 
    exists (- RT_ETIMEOUT), (pend_on t None s'). split_and!; [reflexivity | | | right; by split_and! |].
    + apply pend_none_inv with (m := m); [split; [by eapply shape_same | done] | done |]. by rewrite (ss_elem _ _ _ _ Hs).
    + intros n. change (mx (pend_on t None s') n) with (mx s' n). by rewrite (ss_owner _ _ Hs), (ss_hold _ _ Hs), (ss_ceiling _ _ Hs).
    + intros Hno _ Hst. apply pend_none_exact, Hx; [done |]. by apply Hst.
  - change (RT_EOK =? RT_EOK) with true. cbv iota zeta. rewrite decide_True by done. eexists _, s. split_and!; [done | | done | left; by split_and! |].
    + assert (mutex_inv (pend_on t None s) (delete t C)) as [H' Hp'] by (by eapply pend_none_inv).
      split; [|done]. assert (Ef : ∀ u, mf (pend_on t None s) u = mf s u).
      { intros u. unfold pend_on. rewrite mf_upd_mf. case_decide; [subst u | done]. rewrite <-Hpd. by destruct (mf s t). }
      constructor; try apply H.
      * intros k u. rewrite <-Ef. apply H'.
      * intros u. rewrite <-Ef. apply H'.
      * intros u k Hu. specialize (sh_call _ _ H' u k Hu). unfold in_call. by rewrite Ef.
    + intros _ Hx _. by apply Hx.
Qed.

(** * The timeout of a waiting thread *)

(** The timer of [t] expires in the tick interrupt, and its handler runs. *)
Definition mutex_timeout (s : msys) (t : nat) : option msys :=
  m ← pending_object (mf s t);
  '(ts, l) ← _thread_timeout (timer_expire (ms_ts s) t) (suspend_thread (mx s m)) t;
  Some (upd_mx m (set_susps l (mx s m)) (mk_ms ts (ms_mf s) (ms_mx s))).

(** Thread [t] has been taken off the list of mutex [m]. *)
Record taken_off (s s' : msys) (t m : nat) (e : Z) : Prop := {
  to_prio : ∀ u, prio s' u = prio s u;
  to_tk : ∀ u, t ≠ u → tk s' u = tk s u;
  to_err : t_error (tk s' t) = e;
  to_mf : ∀ u, mf s' u = mf s u;
  to_mx : ∀ n, mx s' n = if decide (m = n) then set_susps (list_remove (suspend_thread (mx s m)) t) (mx s m) else mx s n;
  to_wait : ∀ W, wait_ok (ms_ts s) W → wait_ok (ms_ts s') (list_remove W t)
}.

Lemma off_elem s s' t m e u k :
  taken_off s s' t m e → u ∈ suspend_thread (mx s' k) ↔ u ∈ suspend_thread (mx s k) ∧ (u = t → k ≠ m).
Proof.
  intros Ho. rewrite (to_mx _ _ _ _ _ Ho). case_decide; [subst; simpl; rewrite elem_of_list_remove; naive_solver | naive_solver].
Qed.

Lemma off_owner s s' t m e k : taken_off s s' t m e → owner (mx s' k) = owner (mx s k) ∧ hold (mx s' k) = hold (mx s k)
  ∧ priority (mx s' k) = priority (mx s k) ∧ ceiling_priority (mx s' k) = ceiling_priority (mx s k).
Proof. intros Ho. rewrite (to_mx _ _ _ _ _ Ho). by case_decide; subst. Qed.

(** The list shrinks, in order, and every other thread is as it was. *)
Lemma off_prio s s' t m e d : taken_off s s' t m e → prio_ok s None d → prio_ok s' None d.
Proof.
  intros Ho Hp. constructor.
  - intros u. rewrite (to_prio _ _ _ _ _ Ho), (to_mf _ _ _ _ _ Ho). apply Hp.
  - intros n. destruct (off_owner _ _ _ _ _ n Ho) as (_ & _ & -> & ->). apply Hp.
  - intros n. apply (StronglySorted_weaken (λ a b, Some a ≠ None → Some b ≠ None → urgent s a b)).
    { intros a b _ _. unfold urgent. by rewrite !(to_prio _ _ _ _ _ Ho). }
    rewrite (to_mx _ _ _ _ _ Ho). case_decide; [subst; apply StronglySorted_filter |]; apply (po_sorted _ _ _ Hp).
  - intros n u Hu [Hin _]%(off_elem _ _ _ _ _ _ _ Ho). destruct (off_owner _ _ _ _ _ n Ho) as (_ & _ & -> & _).
    rewrite (to_prio _ _ _ _ _ Ho). by apply Hp.
  - intros n u Hu. destruct (off_owner _ _ _ _ _ n Ho) as (-> & _ & -> & _). rewrite (to_prio _ _ _ _ _ Ho). by apply Hp.
Qed.

Lemma off_shape s s' C t m :
  shape_ok s C → t ∈ suspend_thread (mx s m) → taken_off s s' t m (- RT_ETIMEOUT) → shape_ok s' C ∧ t_susp (tk s' t) = false.
Proof.
  intros H Ht Ho. destruct (sh_wait _ _ H m t Ht) as (Hpd & Hct & _). destruct (wait_owner _ _ _ _ H Ht) as (o & Hom & _ & Hne).
  destruct (sh_timer _ _ H) as (W & Hw & HW). pose proof (to_wait _ _ _ _ _ Ho W Hw) as Hw'.
  assert (HnW : t ∉ list_remove W t) by (rewrite elem_of_list_remove; naive_solver).
  assert (Hrun : t_susp (tk s' t) = false) by (by apply (not_susp _ _ _ Hw')). split; [|done].
  assert (Hin : ∀ u k, u ∈ suspend_thread (mx s' k) ↔ u ∈ suspend_thread (mx s k) ∧ u ≠ t).
  { intros u k. rewrite (off_elem _ _ _ _ _ _ _ Ho). split; intros [Hu Hk]; split; try done.
    intros ->. by apply Hk, (wait_unique s C t k m). }
  constructor.
  - intros k u [Hu Hut]%Hin. rewrite (to_mf _ _ _ _ _ Ho), (to_tk _ _ _ _ _ Ho) by done. by apply H.
  - intros k. rewrite (to_mx _ _ _ _ _ Ho). case_decide; [subst; apply NoDup_list_remove |]; apply H.
  - exists (list_remove W t). split; [done |]. intros u. rewrite elem_of_list_remove, HW. setoid_rewrite Hin. naive_solver.
  - intros u. destruct (decide (t = u)) as [<- | Hu]; [by apply (w_off _ _ Hw' t HnW) | rewrite (to_tk _ _ _ _ _ Ho) by done; apply H].
  - intros k. rewrite (proj1 (off_owner _ _ _ _ _ k Ho)), (to_mx _ _ _ _ _ Ho). case_decide; [subst; congruence | apply H].
  - intros k u. destruct (off_owner _ _ _ _ _ k Ho) as (-> & -> & _). apply H.
  - intros k u. rewrite (proj1 (off_owner _ _ _ _ _ k Ho)), (to_mf _ _ _ _ _ Ho). apply H.
  - intros u. rewrite (to_mf _ _ _ _ _ Ho). apply H.
  - intros u. rewrite (to_mf _ _ _ _ _ Ho). apply H.
  - intros u k Hu. unfold in_call. rewrite Hin, (to_mf _ _ _ _ _ Ho), (proj1 (off_owner _ _ _ _ _ k Ho)).
    destruct (decide (t = u)) as [<- | Hne']; [|rewrite (to_tk _ _ _ _ _ Ho) by done; destruct (sh_call _ _ H u k Hu); naive_solver].
    right. left. replace k with m by congruence. split_and!; [done | done | apply (to_err _ _ _ _ _ Ho) | congruence].
  - apply (acyclic_mono (blocked s)); [|apply H]. intros a b c (k & [Hk _]%Hin & Hb) _. exists k.
    by rewrite (proj1 (off_owner _ _ _ _ _ k Ho)) in Hb.
Qed.

Lemma off_stale s s' t m e : taken_off s s' t m e → exact s None None → stale s' m t.
Proof.
  intros Ho Hx. assert (Eh : ∀ l, head_prio s' l = head_prio s l).
  { intros [|u l]; simpl; [done | apply (to_prio _ _ _ _ _ Ho)]. }
  constructor.
  - intros u. rewrite (to_prio _ _ _ _ _ Ho), (ex_prio _ _ _ Hx) by done. symmetry.
    apply get_prio_ext; [by rewrite (to_mf _ _ _ _ _ Ho).. |]. intros n _. by destruct (off_owner _ _ _ _ _ n Ho) as (_ & _ & -> & ->).
  - intros n Hn. rewrite Eh, (to_mx _ _ _ _ _ Ho), decide_False by done. by apply Hx.
  - rewrite Eh, (to_prio _ _ _ _ _ Ho), (to_mx _ _ _ _ _ Ho), decide_True by done. simpl. rewrite (ex_mutex _ _ _ Hx m) by done.
    destruct (suspend_thread (mx s m)) as [|u l]; [by right |]. simpl. destruct (decide (u = t)) as [-> | Hne]; [by left | right].
    unfold list_remove. by rewrite filter_cons_True.
Qed.

Lemma timeout_ok s C t :
  mutex_inv s C → t_active (tk s t) = true →
  ∃ m s', mutex_timeout s t = Some s' ∧ C !! t = Some m ∧ mutex_inv s' C ∧ t_susp (tk s' t) = false ∧ t_error (tk s' t) = - RT_ETIMEOUT
    ∧ (∀ n, owner (mx s' n) = owner (mx s n) ∧ hold (mx s' n) = hold (mx s n) ∧ ceiling_priority (mx s' n) = ceiling_priority (mx s n))
    ∧ (exact s None None → stale s' m t).
Proof.
  intros [H Hp] Ha. destruct (sh_timer _ _ H) as (W & Hw & HW). destruct (expire_spec _ W t Hw Ha) as [HtW Hw1].
  apply HW in HtW as [m Ht]. destruct (sh_wait _ _ H m t Ht) as (Hpd & Hc & _).
  destruct (timeout_spec (timer_expire (ms_ts s) t) W (suspend_thread (mx s m)) t Hw1) as (x & E & _ & He & Hpx & Hw2).
  { unfold timer_expire. by rewrite th_upd_eq. }
  unfold mutex_timeout. rewrite Hpd. cbn [mbind option_bind]. rewrite E. cbn [mbind option_bind].
  set (s' := upd_mx m (set_susps (list_remove (suspend_thread (mx s m)) t) (mx s m)) (mk_ms (upd (timer_expire (ms_ts s) t) t x) (ms_mf s) (ms_mx s))).
  exists m, s'. assert (Htk : ∀ u, tk s' u = if decide (t = u) then x else tk s u).
  { intros u. unfold s', tk, upd_mx, timer_expire. cbn [ms_ts]. rewrite !th_upd. by case_decide. }
  assert (Ho : taken_off s s' t m (- RT_ETIMEOUT)).
  { constructor; try done.
    - intros u. unfold prio. rewrite Htk. case_decide; [subst u | done]. rewrite Hpx. unfold timer_expire. by rewrite th_upd_eq.
    - intros u Hne. by rewrite Htk, decide_False.
    - by rewrite Htk, decide_True.
    - intros n. unfold s'. rewrite mx_upd_mx. by case_decide.
    - intros W' Hw'. eapply wait_ok_perm; [|exact Hw2]. unfold list_remove.
      assert (W ≡ₚ W') as ->; [|done]. apply NoDup_Permutation; [apply Hw | apply Hw' |]. intros u. by rewrite <-(w_susp _ _ Hw), <-(w_susp _ _ Hw'). }
  destruct (off_shape s s' C t m H Ht Ho) as [H' Hrun]. split_and!; try done.
  - split; [done | by eapply off_prio].
  - apply (to_err _ _ _ _ _ Ho).
  - intros n. by destruct (off_owner _ _ _ _ _ n Ho) as (-> & -> & _ & ->).
  - by eapply off_stale.
Qed.

(** * Releasing *)

(** The owner's priority after the mutex has left its list of taken ones. *)
Lemma check_ok s C t m :
  mutex_inv s C → owner (mx s m) = Some t →
  let s1 := drop_taken t m (upd_mx m (set_hold 0 (mx s m)) s) in
  ∃ p s2, _check_and_update_prio s1 t m = Some s2 ∧ ms_mf s2 = ms_mf s1 ∧ ms_mx s2 = ms_mx s1
    ∧ (∀ u, tk s2 u = if decide (t = u) then set_prio p (tk s t) else tk s u)
    ∧ 0 ≤ p ≤ init_priority (mf s t) ∧ (∀ k, m ≠ k → owner (mx s k) = Some t → p ≤ priority (mx s k))
    ∧ (no_ceilings s → exact s None None → p = _thread_get_mutex_priority s1 t).
Proof.
  intros [H Hp] Ho s1. pose proof (po_range _ _ _ Hp t) as Hr.
  assert (Hf : mf s1 t = set_taken (list_remove (taken_object_list (mf s t)) m) (mf s t)).
  { unfold s1, drop_taken. autorewrite with mut. by rewrite decide_True. }
  assert (Hmx : ∀ k, mx s1 k = if decide (m = k) then set_hold 0 (mx s m) else mx s k) by (intros k; apply mx_upd_mx).
  assert (Hglb : ∀ q, q ≤ _thread_get_mutex_priority s1 t ↔ q ≤ init_priority (mf s t)
    ∧ ∀ k, k ≠ m → k ∈ taken_object_list (mf s t) → q ≤ priority (mx s k) ∧ q ≤ ceiling_priority (mx s k)).
  { intros q. rewrite get_prio_glb, Hf. simpl. f_equiv. split; intros Hl k Hk.
    - intros Hin. specialize (Hl k (proj2 (elem_of_list_remove _ _ _) (conj Hk Hin))). by rewrite Hmx, decide_False in Hl by done.
    - apply elem_of_list_remove in Hk as [Hkm Hin]. rewrite Hmx, decide_False by done. by apply Hl. }
  unfold _check_and_update_prio. change (prio s1 t) with (prio s t).
  assert (priority (mx s1 m) = priority (mx s m) ∧ ceiling_priority (mx s1 m) = ceiling_priority (mx s m)) as [-> ->] by (by rewrite Hmx, decide_True).
  destruct (negb (ceiling_priority (mx s m) =? 255) || (prio s t =? priority (mx s m))) eqn:E.
  - assert (Hg := proj1 (Hglb _) (Z.le_refl _)). destruct Hg as [Hgi Hgk].
    assert (0 ≤ _thread_get_mutex_priority s1 t).
    { apply Hglb. split; [lia |]. intros k _ _. pose proof (po_bound _ _ _ Hp k). lia. }
    exists (_thread_get_mutex_priority s1 t), (with_prio s1 t (_thread_get_mutex_priority s1 t)). rewrite change_prio by lia.
    split_and!; try done.
    + intros u. unfold with_prio. rewrite tk_upd_tk. by case_decide.
    + intros k Hk Hok. apply Hgk; [done |]. by apply (sh_taken _ _ H).
  - apply orb_false_iff in E as [_ E%Z.eqb_neq]. pose proof (po_owner _ _ _ Hp m t ltac:(done) Ho) as Hle.
    exists (prio s t), s1. split_and!; try done; try lia.
    + intros u. change (tk s1 u) with (tk s u). case_decide; [subst u | done]. unfold prio. by destruct (tk s t).
    + intros k _ Hok. by apply (po_owner _ _ _ Hp k t).
    + intros Hno Hx. pose proof (ex_prio _ _ _ Hx t ltac:(done)) as Ex. assert (Hs := proj1 (get_prio_glb s t _) (Z.le_refl _)). destruct Hs as [Hsi Hsl].
      apply Z.le_antisymm.
      * rewrite Ex. apply Hglb. split; [done |]. intros k _ Hk. by apply Hsl.
      * destruct (Z.le_gt_cases (_thread_get_mutex_priority s1 t) (prio s t)) as [|Hgt]; [done |]. exfalso.
        assert (prio s t + 1 ≤ _thread_get_mutex_priority s t); [|lia].
        assert (Hg := proj1 (Hglb (prio s t + 1)) ltac:(lia)). destruct Hg as [Hgi Hgk].
        apply get_prio_glb. split; [done |]. intros k Hk. destruct (decide (k = m)) as [-> | Hkm]; [rewrite Hno; lia | by apply Hgk].
Qed.

(** ** Nobody waits *)

Lemma free_inv s s' C t m p :
  mutex_inv s C → C !! t = None → owner (mx s m) = Some t → suspend_thread (mx s m) = [] →
  (∀ u, tk s' u = if decide (t = u) then set_prio p (tk s t) else tk s u) →
  (∀ u, mf s' u = if decide (t = u) then set_taken (list_remove (taken_object_list (mf s t)) m) (mf s t) else mf s u) →
  (∀ k, mx s' k = if decide (m = k) then mk_mutex [] (ceiling_priority (mx s m)) 255 0 None else mx s k) →
  0 ≤ p ≤ init_priority (mf s t) → (∀ k, m ≠ k → owner (mx s k) = Some t → p ≤ priority (mx s k)) →
  mutex_inv s' C.
Proof.
  intros [H Hp] Hc Ho Hl Et Ef Em Hp0 Hpk.
  assert (Es : ∀ k, suspend_thread (mx s' k) = suspend_thread (mx s k)) by (intros k; rewrite Em; case_decide; [by subst; rewrite Hl | done]).
  assert (Epr : ∀ u, prio s' u = if decide (t = u) then p else prio s u) by (intros u; unfold prio; rewrite Et; by case_decide).
  assert (Efl : ∀ u, pending_object (mf s' u) = pending_object (mf s u) ∧ init_priority (mf s' u) = init_priority (mf s u)).
  { intros u. rewrite Ef. by case_decide; subst. }
  assert (Eer : ∀ u, t_error (tk s' u) = t_error (tk s u) ∧ t_susp (tk s' u) = t_susp (tk s u) ∧ t_ttmr (tk s' u) = t_ttmr (tk s u)
    ∧ t_active (tk s' u) = t_active (tk s u) ∧ t_pend (tk s' u) = t_pend (tk s u)) by (intros u; rewrite Et; by case_decide; subst).
  assert (Hnw : ∀ k, t ∉ suspend_thread (mx s k)) by (intros k; by eapply idle_not_waiting).
  split.
  - constructor.
    + intros k u. rewrite Es, (proj1 (Efl u)), (proj1 (Eer u)). apply H.
    + intros k. rewrite Es. apply H.
    + destruct (sh_timer _ _ H) as (W & Hw & HW). exists W. split; [revert Hw; apply wait_ok_ext; intros u; apply Eer |].
      intros u. rewrite HW. split; intros [k Hk]; exists k; by rewrite Es in *.
    + intros u. destruct (Eer u) as (_ & _ & _ & _ & ->). apply H.
    + intros k. rewrite Es, Em. case_decide; [by subst; rewrite Hl | apply H].
    + intros k u. rewrite Em. case_decide; [done | apply H].
    + intros k u. rewrite Em, Ef. repeat case_decide; subst; simpl; rewrite ?elem_of_list_remove, ?(sh_taken _ _ H); naive_solver.
    + intros u. rewrite Ef. case_decide; [subst; simpl; apply NoDup_list_remove |]; apply H.
    + intros u. rewrite (proj1 (Efl u)). apply H.
    + intros u k Hu. unfold in_call. rewrite Es, (proj1 (Efl u)). destruct (Eer u) as (-> & -> & _).
      destruct (sh_call _ _ H u k Hu) as [? | [(? & ? & ? & Hne) | (? & ? & ? & Ek)]]; [by left | right; left | right; right]; split_and!; try done;
        rewrite Em; case_decide; try done. subst. congruence.
    + apply (acyclic_mono (blocked s)); [|apply H]. intros a b c (k & Hk & Hb) _. rewrite Es in Hk. exists k. split; [done |].
      rewrite Em in Hb. by case_decide.
  - constructor.
    + intros u. rewrite Epr, (proj2 (Efl u)). case_decide; [subst; split; [done |] |]; apply (po_range _ _ _ Hp).
    + intros k. rewrite Em. case_decide; [|apply Hp]. simpl. split; [lia | apply Hp].
    + intros k. rewrite Es. eapply StronglySorted_weaken, (po_sorted _ _ _ Hp k). intros a b Ha Hb Hab. unfold urgent.
      rewrite !Epr, !decide_False by (intros ->; by apply (Hnw k)). done.
    + intros k u _. rewrite Es. intros Hu. assert (t ≠ u) by (intros ->; by apply (Hnw k)). rewrite Epr, decide_False, Em by done.
      case_decide; [subst; rewrite Hl in Hu; by apply elem_of_nil in Hu | by apply Hp].
    + intros k u _. rewrite Em. case_decide; [done |]. rewrite Epr. intros Hu. case_decide; [subst; by apply Hpk | by apply Hp].
Qed.

Lemma free_exact s s' C t m p :
  mutex_inv s C → C !! t = None → owner (mx s m) = Some t →
  (∀ u, prio s' u = if decide (t = u) then p else prio s u) →
  (∀ u, mf s' u = if decide (t = u) then set_taken (list_remove (taken_object_list (mf s t)) m) (mf s t) else mf s u) →
  (∀ k, mx s' k = if decide (m = k) then mk_mutex [] (ceiling_priority (mx s m)) 255 0 None else mx s k) →
  exact s None None → p = _thread_get_mutex_priority s' t → exact s' None None.
Proof.
  intros [H Hp] Hc Ho Epr Ef Em Hx Hpt. assert (Hnw : ∀ k, t ∉ suspend_thread (mx s k)) by (intros k; by eapply idle_not_waiting).
  constructor.
  - intros u _. rewrite Epr. case_decide; [by subst |]. rewrite (ex_prio _ _ _ Hx) by done. symmetry.
    apply get_prio_ext; [by rewrite Ef, decide_False.. |]. intros k Hk%(sh_taken _ _ H). rewrite Em, decide_False by congruence. done.
  - intros k _. rewrite Em. case_decide; [done |]. rewrite (ex_mutex _ _ _ Hx k) by done.
    destruct (suspend_thread (mx s k)) as [|u l] eqn:E; simpl; [done |]. rewrite Epr, decide_False; [done |]. intros ->. apply (Hnw k). rewrite E. by left.
Qed.

(** ** The first waiting thread gets the mutex *)

Section handover.
  Context (s s' : msys) (C : gmap nat nat) (t m n : nat) (l : list nat) (p : Z).
  Context (Hi : mutex_inv s C) (Hc : C !! t = None) (Ho : owner (mx s m) = Some t) (Hl : suspend_thread (mx s m) = n :: l).
  Context (Etn : ∀ u, n ≠ u → tk s' u = if decide (t = u) then set_prio p (tk s t) else tk s u)
    (Epn : prio s' n = prio s n) (Een : t_error (tk s' n) = t_error (tk s n))
    (Ewt : ∀ W, wait_ok (ms_ts s) W → wait_ok (ms_ts s') (list_remove W n))
    (Ef : ∀ u, mf s' u =
       if decide (t = u) then set_taken (list_remove (taken_object_list (mf s t)) m) (mf s t)
       else if decide (n = u) then set_pending None (set_taken (m :: taken_object_list (mf s n)) (mf s n)) else mf s u)
    (Em : ∀ k, mx s' k = if decide (m = k) then mk_mutex l (ceiling_priority (mx s m)) (head_prio s l) 1 (Some n) else mx s k)
    (Hp0 : 0 ≤ p ≤ init_priority (mf s t)) (Hpk : ∀ k, m ≠ k → owner (mx s k) = Some t → p ≤ priority (mx s k)).

Lemma ho_waits : n ∈ suspend_thread (mx s m).
Proof. rewrite Hl. by left. Qed.
Lemma ho_not_waiting k : t ∉ suspend_thread (mx s k).
Proof. eapply idle_not_waiting; [apply Hi | done]. Qed.
Lemma ho_ne : t ≠ n.
Proof. intros E. apply (ho_not_waiting m). rewrite E. apply ho_waits. Qed.

Lemma ho_elem u k : u ∈ suspend_thread (mx s' k) ↔ u ∈ suspend_thread (mx s k) ∧ u ≠ n.
Proof.
  destruct Hi as [H _]. rewrite Em. case_decide; [subst k; simpl; rewrite Hl |].
  - pose proof (sh_nodup _ _ H m) as Hn. rewrite Hl in Hn. apply NoDup_cons in Hn as [Hn _]. rewrite elem_of_cons. naive_solver.
  - split; [|naive_solver]. intros Hu. split; [done |]. intros ->. assert (m = k); [|done]. eapply wait_unique; [done | apply ho_waits | done].
Qed.

Lemma ho_prio u : prio s' u = if decide (t = u) then p else prio s u.
Proof.
  destruct (decide (n = u)) as [<- | Hn]; [rewrite decide_False by apply ho_ne; done |]. unfold prio. rewrite Etn by done. by case_decide.
Qed.

Lemma ho_shape : shape_ok s' C.
Proof.
  destruct Hi as [H Hp]. pose proof ho_ne as Hne. destruct (sh_wait _ _ H m n ho_waits) as (Hpn & Hcn & Hen).
  assert (Eer : ∀ u, t_error (tk s' u) = t_error (tk s u)).
  { intros u. destruct (decide (n = u)) as [<- | Hu]; [done |]. rewrite Etn by done. by case_decide; subst. }
  destruct (sh_timer _ _ H) as (W & Hw & HW). pose proof (Ewt W Hw) as Hw'.
  assert (HnW : n ∉ list_remove W n) by (rewrite elem_of_list_remove; naive_solver).
  constructor.
  - intros k u [Hu Hun]%ho_elem. assert (t ≠ u) by (intros <-; by apply (ho_not_waiting k)). rewrite Ef, !decide_False, Eer by done. by apply H.
  - intros k. rewrite Em. case_decide; [|apply H]. subst. simpl. pose proof (sh_nodup _ _ H k) as Hn. rewrite Hl in Hn. by apply NoDup_cons in Hn as [_ ?].
  - exists (list_remove W n). split; [done |]. intros u. rewrite elem_of_list_remove, HW. setoid_rewrite ho_elem. naive_solver.
  - intros u. destruct (decide (n = u)) as [<- | Hu]; [by apply (w_off _ _ Hw' n HnW) |]. rewrite Etn by done. case_decide; [subst |]; apply (sh_pend _ _ H).
  - intros k. rewrite Em. case_decide; [done | apply H].
  - intros k u. rewrite Em. case_decide; [simpl; lia | apply H].
  - intros k u. rewrite Em, Ef. repeat case_decide; subst; simpl; rewrite ?elem_of_cons, ?elem_of_list_remove, ?(sh_taken _ _ H); naive_solver.
  - intros u. rewrite Ef. repeat case_decide; subst; simpl; [apply NoDup_list_remove, H | | apply H]. constructor; [|apply H].
    rewrite (sh_taken _ _ H). congruence.
  - intros u Hu. rewrite Ef. repeat case_decide; subst; simpl; [by apply H | done | by apply H].
  - intros u k Hu. unfold in_call. rewrite ho_elem, Eer. destruct (decide (n = u)) as [<- | Hun].
    + right. right. replace k with m in * by congruence. rewrite Ef, Em, decide_False, !decide_True by done. simpl.
      split_and!; try done. by apply (not_susp _ _ _ Hw').
    + assert (t ≠ u) by congruence. rewrite Ef, !decide_False, Etn, !decide_False by done.
      destruct (sh_call _ _ H u k Hu) as [? | [(? & ? & ? & Hok) | (? & ? & ? & Hok)]]; [naive_solver | right; left | right; right];
        split_and!; try done; rewrite Em; case_decide; subst; simpl; try done; congruence.
  - apply (acyclic_mono (blocked s)); [|apply H]. intros a b c (k & [Hk _]%ho_elem & Hb) (k' & [_ Hbn]%ho_elem & _). exists k. split; [done |].
    rewrite Em in Hb. case_decide; [simpl in Hb; congruence | done].
Qed.

Lemma ho_sorted : StronglySorted (urgent s) (n :: l).
Proof. rewrite <-Hl. eapply sorted_all, Hi. Qed.

Lemma ho_prio_ok : prio_ok s' None None.
Proof.
  pose proof ho_sorted as Hso. apply StronglySorted_inv in Hso as [Hsl Hnl]. destruct Hi as [H Hp]. rewrite Forall_forall in Hnl. constructor.
  - intros u. rewrite ho_prio, Ef. repeat case_decide; subst; simpl; [split; [done |] | |]; apply (po_range _ _ _ Hp).
  - intros k. rewrite Em. case_decide; [|apply Hp]. simpl. split; [by eapply head_prio_range | apply Hp].
  - intros k. apply (StronglySorted_weaken (urgent s)).
    { intros a b [Ha _]%ho_elem [Hb _]%ho_elem Hab _ _. unfold urgent. rewrite !ho_prio, !decide_False; [done | |]; intros <-; by apply (ho_not_waiting k). }
    rewrite Em. case_decide; [done |]. by eapply sorted_all.
  - intros k u _ Hu. pose proof (proj1 (ho_elem u k) Hu) as [Hu' _]. rewrite ho_prio, decide_False by (intros <-; by apply (ho_not_waiting k)).
    rewrite Em in *. case_decide; simpl in *; [by apply head_prio_le | by apply (po_wait _ _ _ Hp)].
  - intros k u _. rewrite Em. case_decide; simpl.
    + intros [= <-]. rewrite Epn. destruct l as [|v l0]; simpl; [pose proof (po_range _ _ _ Hp n); lia |]. apply Hnl. by left.
    + intros Hu. rewrite ho_prio. case_decide; [subst; by apply Hpk | by apply (po_owner _ _ _ Hp)].
Qed.

Lemma ho_exact : no_ceilings s → exact s None None → p = _thread_get_mutex_priority s' t → exact s' None None.
Proof.
  intros Hno Hx Hpt. destruct Hi as [H Hp]. pose proof ho_ne as Hne. pose proof ho_prio_ok as Hp'.
  assert (Hh : ∀ k, head_prio s' (suspend_thread (mx s' k)) = head_prio s (suspend_thread (mx s' k))).
  { intros k. destruct (suspend_thread (mx s' k)) as [|u r] eqn:E; simpl; [done |]. rewrite ho_prio, decide_False; [done |]. intros <-.
    apply (ho_not_waiting k), ho_elem. rewrite E. by left. }
  constructor.
  - intros u _. rewrite ho_prio. case_decide; [by subst |]. rewrite (ex_prio _ _ _ Hx) by done. destruct (decide (n = u)) as [<- | Hun].
    + apply get_prio_eq. intros q. rewrite Ef, decide_False, decide_True by done. simpl. rewrite get_prio_glb. split; intros [Hqi Hql]; split; try done.
      * intros k [-> | Hk]%elem_of_cons.
        -- rewrite Em, decide_True by done. simpl. rewrite Hno. assert (q ≤ prio s n).
           { rewrite (ex_prio _ _ _ Hx) by done. apply get_prio_glb. done. }
           pose proof (po_owner _ _ _ Hp' m n ltac:(done)) as Hon. rewrite Em, decide_True, Epn in Hon by done. specialize (Hon eq_refl). simpl in Hon.
           pose proof (po_range _ _ _ Hp n). lia.
        -- rewrite Em, decide_False; [by apply Hql |]. intros <-. apply (sh_taken _ _ H) in Hk. congruence.
      * intros k Hk. specialize (Hql k (list_elem_of_further _ _ _ Hk)). rewrite Em, decide_False in Hql; [done |]. intros <-. apply (sh_taken _ _ H) in Hk. congruence.
    + symmetry. apply get_prio_ext; [by rewrite Ef, !decide_False.. |]. intros k Hk%(sh_taken _ _ H). rewrite Em, decide_False by congruence. done.
  - intros k _. rewrite Hh, Em. case_decide; [done |]. by apply Hx.
Qed.
End handover.

(** What a release does to the mutex. *)
Definition released (x : rt_mutex) (o : option nat) (h : Z) : Prop :=
  if hold x =? 1 then
    match suspend_thread x with [] => o = None ∧ h = 0 | n :: _ => o = Some n ∧ h = 1 end
  else o = owner x ∧ h = hold x - 1.

Lemma mx_mk ts f x m : mx (mk_ms ts f x) m = default rt_mutex_init (x !! m).
Proof. done. Qed.

Section last_release.
  Context (s s2 : msys) (C : gmap nat nat) (t m : nat) (p : Z).
  Context (Hi : mutex_inv s C) (Hc : C !! t = None) (Ho : owner (mx s m) = Some t).
  Context (Hm2 : ∀ k, mx s2 k = if decide (m = k) then set_hold 0 (mx s m) else mx s k)
    (Hf2 : ∀ u, mf s2 u = if decide (t = u) then set_taken (list_remove (taken_object_list (mf s t)) m) (mf s t) else mf s u)
    (Et : ∀ u, tk s2 u = if decide (t = u) then set_prio p (tk s t) else tk s u)
    (Hp0 : 0 ≤ p ≤ init_priority (mf s t)) (Hpk : ∀ k, m ≠ k → owner (mx s k) = Some t → p ≤ priority (mx s k))
    (Hpx : no_ceilings s → exact s None None → p = _thread_get_mutex_priority s2 t).

(** What remains to be done when [next] has been chosen. *)
Definition pass_on (s : msys) (next : option nat) : msys :=
  match next with
  | Some n => _mutex_update_priority (pend_on n None (push_taken n m (upd_mx m (set_owner (Some n) (priority (mx s m)) 1 (mx s m)) s))) m
  | None => upd_mx m (set_owner None 255 (hold (mx s m)) (mx s m)) s
  end.

Definition release_result (s' : msys) : Prop :=
  mutex_inv s' C ∧ match suspend_thread (mx s m) with
                   | [] => owner (mx s' m) = None ∧ hold (mx s' m) = 0
                   | n :: _ => owner (mx s' m) = Some n ∧ hold (mx s' m) = 1
                   end
  ∧ (∀ k, m ≠ k → mx s' k = mx s k) ∧ ceiling_priority (mx s' m) = ceiling_priority (mx s m)
  ∧ (no_ceilings s → exact s None None → exact s' None None).

(** The priority of the old owner does not depend on what happens to the mutex. *)
Lemma old_owner_prio s' :
  no_ceilings s → exact s None None → mf s' t = mf s2 t → (∀ k, m ≠ k → mx s' k = mx s k) → p = _thread_get_mutex_priority s' t.
Proof.
  intros Hno Hx Ef Em. rewrite (Hpx Hno Hx). symmetry. apply get_prio_ext; [by rewrite Ef.. |].
  intros k. rewrite Hf2, decide_True by done. cbn [taken_object_list set_taken]. intros [Hk _]%elem_of_list_remove.
  rewrite Em, Hm2, decide_False by done. done.
Qed.

Lemma release_nobody : suspend_thread (mx s m) = [] → release_result (pass_on s2 None).
Proof.
  intros Hl. set (s' := pass_on s2 None).
  assert (Em' : ∀ k, mx s' k = if decide (m = k) then mk_mutex [] (ceiling_priority (mx s m)) 255 0 None else mx s k).
  { intros k. unfold s', pass_on. rewrite mx_upd_mx, !Hm2, (decide_True (P := m = m)) by done. unfold set_owner. simpl. rewrite Hl. by case_decide. }
  unfold release_result. rewrite Hl. split_and!.
  - by apply (free_inv s s' C t m p).
  - by rewrite Em', decide_True.
  - by rewrite Em', decide_True.
  - intros k Hk. by rewrite Em', decide_False.
  - by rewrite Em', decide_True.
  - intros Hno Hx. apply (free_exact s s' C t m p); try done.
    + intros u. unfold prio. change (tk s' u) with (tk s2 u). rewrite Et. by case_decide.
    + apply old_owner_prio; try done. intros k Hk. by rewrite Em', decide_False.
Qed.

(** The first thread of the list is woken. *)
Lemma wake_first_ok n l fuel :
  suspend_thread (mx s m) = n :: l →
  ∃ x, wake_loop (S fuel) s2 m = Some (Some n, upd_mx m (set_susps l (set_hold 0 (mx s m))) (mk_ms (upd (ms_ts s2) n x) (ms_mf s2) (ms_mx s2)))
    ∧ t ≠ n ∧ t_error x = t_error (tk s n) ∧ t_prio x = prio s n
    ∧ ∀ W, wait_ok (ms_ts s) W → wait_ok (upd (ms_ts s2) n x) (list_remove W n).
Proof using Hi Hc Hm2 Et.
  intros Hl. destruct Hi as [H Hp]. assert (Hn : n ∈ suspend_thread (mx s m)) by (rewrite Hl; by left).
  assert (Hne : t ≠ n) by (intros Etq; rewrite <-Etq in Hn; by eapply idle_not_waiting). pose proof (sh_nodup _ _ H m) as Hnd. rewrite Hl in Hnd.
  apply NoDup_cons in Hnd as [Hnl _]. destruct (sh_timer _ _ H) as (W & Hw & HW).
  assert (Hw2 : wait_ok (ms_ts s2) W).
  { revert Hw. apply wait_ok_ext. intros u. change (th (ms_ts s2) u) with (tk s2 u). rewrite Et. case_decide as Eq; [by rewrite <-Eq | done]. }
  assert (HnW : n ∈ W) by (apply HW; by exists m). assert (Etn : th (ms_ts s2) n = tk s n) by (etrans; [exact (Et n) | by rewrite decide_False]).
  destruct (ready_spec (ms_ts s2) W (list_remove (n :: l) n) n Hw2 HnW) as (x & E & Hex & Hpx' & Hw3); [rewrite Etn; apply (sh_pend _ _ H) |].
  rewrite list_remove_head in E by done. assert (Hrl : list_remove l n = l).
  { rewrite <-(list_remove_head l n) at 2 by done. unfold list_remove. rewrite filter_cons_False; [done | by intros Hf; apply Hf]. }
  exists x. split_and!; [|done | by rewrite Hex, Etn | by rewrite Hpx', Etn |].
  - cbn [wake_loop]. rewrite Hm2, decide_True by done. cbn [suspend_thread set_hold]. rewrite Hl.
    replace (t_susp (tk s2 n)) with true by (symmetry; by apply (w_susp _ _ Hw2)). cbn [negb].
    rewrite list_remove_head, E, Hrl by done. done.
  - intros W' Hw'. eapply wait_ok_perm; [|exact Hw3]. unfold list_remove.
    assert (W ≡ₚ W') as ->; [|done]. apply NoDup_Permutation; [apply Hw | apply Hw' |]. intros u. by rewrite <-(w_susp _ _ Hw), <-(w_susp _ _ Hw').
Qed.

Lemma release_next n l x :
  suspend_thread (mx s m) = n :: l → t ≠ n → t_error x = t_error (tk s n) → t_prio x = prio s n →
  (∀ W, wait_ok (ms_ts s) W → wait_ok (upd (ms_ts s2) n x) (list_remove W n)) →
  release_result (pass_on (upd_mx m (set_susps l (set_hold 0 (mx s m))) (mk_ms (upd (ms_ts s2) n x) (ms_mf s2) (ms_mx s2))) (Some n)).
Proof.
  intros Hl Hne Hex Hpx' Hwt. set (s3 := upd_mx m _ (mk_ms _ _ _)). set (s' := pass_on s3 (Some n)).
  assert (Htk : ∀ u, tk s' u = if decide (n = u) then x else tk s2 u) by (intros u; exact (th_upd (ms_ts s2) n u x)).
  assert (Htn : ∀ u, n ≠ u → tk s' u = if decide (t = u) then set_prio p (tk s t) else tk s u) by (intros u Hu; by rewrite Htk, decide_False, Et).
  assert (Hhp : head_prio s' l = head_prio s l).
  { destruct l as [|v l0]; simpl; [done |]. pose proof (sh_nodup _ _ (proj1 Hi) m) as Hnd. rewrite Hl in Hnd. apply NoDup_cons in Hnd as [Hnl _].
    unfold prio. rewrite Htn, decide_False; [done | | set_solver]. intros ->. apply (idle_not_waiting s C v m (proj1 Hi) Hc). rewrite Hl. right. by left. }
  assert (Em3 : ∀ k, mx s3 k = if decide (m = k) then set_susps l (set_hold 0 (mx s m)) else mx s k).
  { intros k. unfold s3. rewrite mx_upd_mx. case_decide; [done |]. rewrite mx_mk. fold (mx s2 k). by rewrite Hm2, decide_False. }
  assert (Em' : ∀ k, mx s' k = if decide (m = k) then mk_mutex l (ceiling_priority (mx s m)) (head_prio s l) 1 (Some n) else mx s k).
  { intros k. unfold s', pass_on. rewrite mx_update_priority. unfold pend_on, push_taken. autorewrite with mut.
    rewrite !Em3, !(decide_True (P := m = m)) by done. cbn [suspend_thread set_owner set_susps]. 
    match goal with |- context [head_prio ?x l] => change (head_prio x l) with (head_prio s' l) end. rewrite Hhp.
    by case_decide. }
  assert (Ef' : ∀ u, mf s' u =
     if decide (t = u) then set_taken (list_remove (taken_object_list (mf s t)) m) (mf s t)
     else if decide (n = u) then set_pending None (set_taken (m :: taken_object_list (mf s n)) (mf s n)) else mf s u).
  { intros u. change (mf s' u) with (mf (pend_on n None (push_taken n m s2)) u). unfold pend_on, push_taken.
    rewrite !mf_upd_mf, !(decide_True (P := n = n)), !Hf2, (decide_False (P := t = n)) by done. repeat case_decide; subst; done. }
  assert (Hpn : prio s' n = prio s n) by (unfold prio at 1; by rewrite Htk, decide_True).
  assert (Hen : t_error (tk s' n) = t_error (tk s n)) by (by rewrite Htk, decide_True).
  assert (Hwt' : ∀ W, wait_ok (ms_ts s) W → wait_ok (ms_ts s') (list_remove W n)) by exact Hwt.
  unfold release_result. rewrite Hl. split_and!.
  - split; [by apply (ho_shape s s' C t m n l p) | by apply (ho_prio_ok s s' C t m n l p)].
  - by rewrite Em', decide_True.
  - by rewrite Em', decide_True.
  - intros k Hk. by rewrite Em', decide_False.
  - by rewrite Em', decide_True.
  - intros Hno Hx. apply (ho_exact s s' C t m n l p); try done. apply old_owner_prio; try done.
    + by rewrite Ef', Hf2, !decide_True.
    + intros k Hk. by rewrite Em', decide_False.
Qed.
End last_release.

Lemma release_last s C t m :
  mutex_inv s C → C !! t = None → owner (mx s m) = Some t → hold (mx s m) = 1 →
  ∃ s', rt_mutex_release s t m = Some (RT_EOK, s') ∧ release_result s C m s'.
Proof.
  intros Hi Hc Ho Hh. unfold rt_mutex_release. cbv zeta. rewrite decide_True by done. rewrite Hh. change (u8 (1 - 1)) with 0.
  rewrite mx_upd_mx, decide_True by done. cbn [hold set_hold Z.eqb].
  destruct (check_ok s C t m Hi Ho) as (p & s2 & -> & Ef & Em & Et & Hp0 & Hpk & Hpx). set (s1 := drop_taken t m _) in *. cbn [mbind option_bind].
  assert (Hm2 : ∀ k, mx s2 k = if decide (m = k) then set_hold 0 (mx s m) else mx s k).
  { intros k. unfold mx. rewrite Em. change (default rt_mutex_init (ms_mx s1 !! k)) with (mx s1 k). apply mx_upd_mx. }
  assert (Hf1 : ∀ u, mf s2 u = mf s1 u) by (intros u; unfold mf; by rewrite Ef).
  assert (Hf2 : ∀ u, mf s2 u = if decide (t = u) then set_taken (list_remove (taken_object_list (mf s t)) m) (mf s t) else mf s u).
  { intros u. rewrite Hf1. unfold s1, drop_taken. by mred. }
  assert (Hpx2 : no_ceilings s → exact s None None → p = _thread_get_mutex_priority s2 t).
  { intros Hno Hx. rewrite (Hpx Hno Hx). apply get_prio_ext; [by rewrite Hf1.. |]. intros k _. unfold mx. by rewrite Em. }
  destruct (suspend_thread (mx s m)) as [|n l] eqn:Hl.
  - cbn [wake_loop]. rewrite (Hm2 m), decide_True by done. cbn [suspend_thread set_hold]. rewrite Hl. cbn [mbind option_bind].
    eexists. split; [reflexivity |]. eapply (release_nobody s s2 C t m p); done.
  - destruct (wake_first_ok s s2 C t m p Hi Hc Hm2 Et n l (length (suspend_thread (mx s2 m))) Hl) as (x & -> & Hne & Hex & Hpx' & Hwt).
    cbn [mbind option_bind]. eexists. split; [reflexivity |]. eapply (release_next s s2 C t m p); done.
Qed.

Lemma release_ok s C t m :
  mutex_inv s C → C !! t = None →
  ∃ r s', rt_mutex_release s t m = Some (r, s') ∧ mutex_inv s' C
    ∧ (∀ k, m ≠ k → owner (mx s' k) = owner (mx s k) ∧ hold (mx s' k) = hold (mx s k))
    ∧ (∀ k, ceiling_priority (mx s' k) = ceiling_priority (mx s k))
    ∧ (if decide (owner (mx s m) = Some t) then r = RT_EOK ∧ released (mx s m) (owner (mx s' m)) (hold (mx s' m))
       else r = - RT_ERROR ∧ owner (mx s' m) = owner (mx s m) ∧ hold (mx s' m) = hold (mx s m))
    ∧ (no_ceilings s → exact s None None → exact s' None None).
Proof.
  intros Hi Hc. destruct (decide (owner (mx s m) = Some t)) as [Ho | Ho].
  - pose proof (sh_hold _ _ (proj1 Hi) m t Ho) as Hh. unfold released. destruct (Z.eqb_spec (hold (mx s m)) 1) as [E1 | E1].
    + destruct (release_last s C t m Hi Hc Ho E1) as (s' & -> & Hi' & Hr & Hk & Hce & Hx). exists RT_EOK, s'. split_and!; try done.
      * intros k Hkm. by rewrite Hk.
      * intros k. destruct (decide (m = k)) as [<- | Hkm]; [done | by rewrite Hk].
    + unfold rt_mutex_release. rewrite decide_True by done. cbv zeta. unfold u8. rewrite Z.mod_small by lia.
      rewrite mx_upd_mx, decide_True by done. cbn [hold set_hold]. rewrite (proj2 (Z.eqb_neq _ _)) by lia.
      eexists _, _. split_and!; [done | apply set_hold_inv; [done | lia] | intros k Hk; by mred | intros k; by mred | done | | |].
      * by mred.
      * by mred.
      * intros _ Hx. by apply set_hold_exact.
  - unfold rt_mutex_release. rewrite decide_False by done. eexists _, _. split_and!; try done; [by apply set_err_inv |]. intros _ Hx. by apply set_err_exact.
Qed.

(** * The ceiling *)

Lemma ceiling_ok s C m p :
  mutex_inv s C → 0 ≤ p →
  ∃ r s', rt_mutex_setprioceiling s m p = Some (r, s') ∧ mutex_inv s' C
    ∧ (∀ k, owner (mx s' k) = owner (mx s k) ∧ hold (mx s' k) = hold (mx s k)).
Proof.
  intros [H Hp] Hp0. unfold rt_mutex_setprioceiling. destruct (p <? RT_THREAD_PRIORITY_MAX); [|by exists 255, s].
  set (s1 := upd_mx m (set_ceiling p (mx s m)) s).
  assert (E : ∀ k, suspend_thread (mx s1 k) = suspend_thread (mx s k) ∧ owner (mx s1 k) = owner (mx s k) ∧ priority (mx s1 k) = priority (mx s k)
    ∧ hold (mx s1 k) = hold (mx s k) ∧ 0 ≤ ceiling_priority (mx s1 k)).
  { intros k. unfold s1. pose proof (po_bound _ _ _ Hp k). mred; split_and!; try done; lia. }
  assert (Hi1 : mutex_inv s1 C).
  { split.
    - constructor; try apply H.
      + intros k t. rewrite (proj1 (E k)). apply H.
      + intros k. rewrite (proj1 (E k)). apply H.
      + eapply timer_ext; [done | done |]. intros k. apply E.
      + intros k. destruct (E k) as (-> & -> & _). apply H.
      + intros k t. destruct (E k) as (_ & -> & _ & -> & _). apply H.
      + intros k t. destruct (E k) as (_ & -> & _). apply H.
      + intros t k Hc. unfold in_call. destruct (E k) as (-> & -> & _). by apply H.
      + apply (acyclic_mono (blocked s)); [|apply H]. intros a b c (k & Hk) _. exists k. destruct (E k) as (E1 & E2 & _). by rewrite E1, E2 in Hk.
    - constructor; try apply Hp.
      + intros k. destruct (E k) as (_ & _ & -> & _ & ?). split; [apply Hp | done].
      + intros k. destruct (E k) as (-> & _). apply (po_sorted _ _ _ Hp).
      + intros k t. destruct (E k) as (-> & _ & -> & _). apply (po_wait _ _ _ Hp).
      + intros k t. destruct (E k) as (_ & -> & -> & _). apply (po_owner _ _ _ Hp). }
  destruct (owner (mx s m)) as [o|]; cbv zeta.
  - destruct (refresh_owner_ok s1 o C) as (s' & -> & Hs & Hp' & _); [apply Hi1 | apply prio_weaken, Hi1 |]. cbn [mbind option_bind].
    eexists _, s'. split_and!; [done | split; [eapply shape_same; [done | apply Hi1] | done] |].
    intros k. rewrite (ss_owner _ _ Hs), (ss_hold _ _ Hs). by destruct (E k) as (_ & -> & _ & -> & _).
  - cbn [mbind option_bind]. eexists _, s1. split_and!; [done | done |]. intros k. by destruct (E k) as (_ & -> & _ & -> & _).
Qed.
