(* ===== verification/MutexRun.v ===== *)
(** Runs of threads that take and release mutexes, with timeouts: no priority inversion,
    exact inheritance where it holds, the lock discipline, and the cases in which the code
    leaves a wrong priority or a mutex without a living owner. *)

From S2P Require Import Prelude.
From S2P Require Import RtDef.
From S2P Require Import Kernel.
From S2P Require Import Mutex.
From S2P Require Import MutexInv.
From S2P Require Import MutexOps.
Open Scope Z_scope.

(** * Runs *)

(** [Resume t]: thread [t] runs again after it slept in [rt_mutex_take]. [Expire t] is a
    [Timeout] that the thread notices before anything else happens. *)
Inductive mutex_op : Type :=
  | Take (t m : nat) (timeout : Z)
  | Release (t m : nat)
  | Timeout (t : nat)
  | Resume (t : nat)
  | Expire (t : nat)
  | SetCeiling (m : nat) (p : Z).

(** The system, and the threads inside a call that sleeps, with the mutex they asked for. *)
Notation mstate := (msys * gmap nat nat)%type.

Definition exec_resume (st : mstate) (t : nat) : option (option Z * mstate) :=
  m ← st.2 !! t; '(r, s) ← mutex_take_resume st.1 t m; Some (Some r, (s, delete t st.2)).

Definition mutex_exec (st : mstate) (op : mutex_op) : option (option Z * mstate) :=
  let '(s, C) := st in
  match op with
  | Take t m timeout =>
      '(c, s) ← rt_mutex_take s t m timeout;
      Some (match c with Returns r => (Some r, (s, C)) | Blocks => (None, (s, <[t := m]> C)) end)
  | Release t m => '(r, s) ← rt_mutex_release s t m; Some (Some r, (s, C))
  | Timeout t => s ← mutex_timeout s t; Some (None, (s, C))
  | Resume t => exec_resume st t
  | Expire t => s ← mutex_timeout s t; exec_resume (s, C) t
  | SetCeiling m p => '(r, s) ← rt_mutex_setprioceiling s m p; Some (Some r, (s, C))
  end.

(** A thread inside a call makes no other one; a take does not close a circle of waiting
    threads; a timer expires when it runs; a woken thread can run. *)
Definition enabled (st : mstate) (op : mutex_op) : Prop :=
  let '(s, C) := st in
  match op with
  | Take t m timeout => C !! t = None ∧ ∀ o, owner (mx s m) = Some o → o = t ∨ timeout = 0 ∨ ¬ rtc (blocked s) o t
  | Release t m => C !! t = None
  | Timeout t | Expire t => t_active (tk s t) = true
  | Resume t => is_Some (C !! t) ∧ t_susp (tk s t) = false
  | SetCeiling m p => 0 ≤ p
  end.

Inductive mutex_run (st : mstate) : list mutex_op → mstate → Prop :=
  | run_nil : mutex_run st [] st
  | run_snoc ops op st1 r st2 :
      mutex_run st ops st1 → enabled st1 op → mutex_exec st1 op = Some (r, st2) → mutex_run st (ops ++ [op]) st2.

(** Threads with their priorities, all running, and fresh mutexes. *)
Definition mutex_start (prios : gmap nat Z) : mstate :=
  (mk_ms ((λ p, mk_thread p RT_EOK false false false false) <$> prios) ((λ p, mk_mf p None []) <$> prios) ∅, ∅).

Lemma start_facts prios t :
  let s := (mutex_start prios).1 in
  mf s t = mk_mf (default 0 (prios !! t)) None [] ∧ tk s t = mk_thread (default 0 (prios !! t)) 0 false false false false.
Proof.
  unfold mf, tk, th, mutex_start. simpl. rewrite !lookup_fmap. by destruct (prios !! t).
Qed.

Lemma start_mx prios m : mx (mutex_start prios).1 m = rt_mutex_init.
Proof. done. Qed.

Definition prios_ok (prios : gmap nat Z) : Prop := map_Forall (λ _ p, 0 ≤ p < 32) prios.
#[export] Instance prios_ok_dec prios : Decision (prios_ok prios).
Proof. unfold prios_ok. apply _. Defined.

Lemma prios_default prios t : prios_ok prios → 0 ≤ default 0 (prios !! t) < 32.
Proof. intros H. destruct (prios !! t) eqn:E; simpl; [by apply (H t) | lia]. Qed.

Lemma start_inv prios : prios_ok prios → mutex_inv (mutex_start prios).1 ∅ ∧ no_ceilings (mutex_start prios).1 ∧ exact (mutex_start prios).1 None None.
Proof.
  intros Hpr. set (s := (mutex_start prios).1). assert (Ef := λ t, proj1 (start_facts prios t)). assert (Et := λ t, proj2 (start_facts prios t)).
  fold s in Ef, Et. assert (Em : ∀ m, mx s m = rt_mutex_init) by apply start_mx.
  assert (Hpi : ∀ t, prio s t = init_priority (mf s t)) by (intros t; unfold prio; by rewrite Et, Ef).
  split_and!; [split | done |].
  - constructor; try (intros m; rewrite Em; simpl; set_solver).
    + intros m. rewrite Em. apply NoDup_nil_2.
    + exists []. split; [apply wait_ok_nil; intros t; change (th (ms_ts s) t) with (tk s t); by rewrite Et |].
      intros t. split; [by intros ?%elem_of_nil |]. intros [m Hm]. rewrite Em in Hm. by apply elem_of_nil in Hm.
    + intros t. by rewrite Et.
    + intros m t. rewrite Ef, Em. simpl. set_solver.
    + intros t. rewrite Ef. apply NoDup_nil_2.
    + intros t _. by rewrite Ef.
    + intros t m Hc. by rewrite lookup_empty in Hc.
    + intros t Ht. assert (∃ o, blocked s t o) as (o & m & Hm & _) by (inversion Ht; eauto). rewrite Em in Hm. by apply elem_of_nil in Hm.
  - constructor.
    + intros t. rewrite Hpi, Ef. simpl. pose proof (prios_default prios t Hpr). lia.
    + intros m. rewrite Em. simpl. lia.
    + intros m. rewrite Em. constructor.
    + intros m t _. rewrite Em. intros Hm. by apply elem_of_nil in Hm.
    + intros m t _. by rewrite Em.
  - constructor.
    + intros t _. rewrite Hpi. unfold _thread_get_mutex_priority. by rewrite Ef.
    + intros m _. by rewrite Em.
Qed.

(** * One step *)

(** The lock a mutex represents: its owner and how often it has been taken. *)
Definition lock_of (x : rt_mutex) : option (nat * Z) := o ← owner x; Some (o, hold x).

(** The most urgent of the waiting threads. *)
Definition first_waiting (s : msys) (m n : nat) : Prop :=
  n ∈ suspend_thread (mx s m) ∧ ∀ u, u ∈ suspend_thread (mx s m) → prio s n ≤ prio s u.

(** What a step may do to the lock it is about, and its result. *)
Definition lock_step (s : msys) (op : mutex_op) (m : nat) (L : option (nat * Z)) (r : option Z) (L' : option (nat * Z)) : Prop :=
  match op with
  | Take t _ timeout =>
      match L with
      | None => r = Some RT_EOK ∧ L' = Some (t, 1)
      | Some (o, h) =>
          if decide (o = t) then if h <? 255 then r = Some RT_EOK ∧ L' = Some (t, h + 1) else r = Some (- RT_EFULL) ∧ L' = L
          else if timeout =? 0 then r = Some (- RT_ETIMEOUT) ∧ L' = L else r = None ∧ L' = L
      end
  | Release t _ =>
      match L with
      | Some (o, h) =>
          if decide (o = t) then
            r = Some RT_EOK ∧
            (if h =? 1 then (suspend_thread (mx s m) = [] ∧ L' = None) ∨ (∃ n, first_waiting s m n ∧ L' = Some (n, 1))
             else L' = Some (t, h - 1))
          else r = Some (- RT_ERROR) ∧ L' = L
      | None => r = Some (- RT_ERROR) ∧ L' = L
      end
  | Resume t | Expire t =>
      L' = L ∧ (r = Some RT_EOK ∧ (∃ h, L = Some (t, h)) ∨ r = Some (- RT_ETIMEOUT) ∧ ∀ h, L ≠ Some (t, h))
  | Timeout _ | SetCeiling _ _ => L' = L
  end.

(** The mutex a step is about. *)
Definition target (st : mstate) (op : mutex_op) : nat :=
  match op with
  | Take _ k _ | Release _ k | SetCeiling k _ => k
  | Timeout t | Resume t | Expire t => default 0%nat (st.2 !! t)
  end.

(** A step without ceilings in which timeouts are noticed at once. *)
Definition prompt (op : mutex_op) : bool := match op with Timeout _ | SetCeiling _ _ => false | _ => true end.

(** Every step returns; it keeps the invariant, and exact priorities if it is prompt; it
    changes only the lock it is about, as the lock allows. *)
Definition step_good (st : mstate) (op : mutex_op) : Prop :=
  ∃ r st', mutex_exec st op = Some (r, st') ∧ mutex_inv st'.1 st'.2
    ∧ lock_step st.1 op (target st op) (lock_of (mx st.1 (target st op))) r (lock_of (mx st'.1 (target st op)))
    ∧ (∀ k, k ≠ target st op → lock_of (mx st'.1 k) = lock_of (mx st.1 k))
    ∧ (prompt op = true → no_ceilings st.1 → exact st.1 None None → no_ceilings st'.1 ∧ exact st'.1 None None).

Lemma exact_stale s m t : exact s None None → stale s m t.
Proof. intros H. constructor; intros; try right; by apply H. Qed.

Lemma lock_ext x y : owner x = owner y → hold x = hold y → lock_of x = lock_of y.
Proof. unfold lock_of. by intros -> ->. Qed.

Lemma lock_none x : lock_of x = None ↔ owner x = None.
Proof. unfold lock_of. by destruct (owner x). Qed.

Lemma mutex_take_good s C t m timeout : mutex_inv s C → enabled (s, C) (Take t m timeout) → step_good (s, C) (Take t m timeout).
Proof.
  intros Hi [Hc Hd]. unfold step_good, mutex_exec, rt_mutex_take, lock_step. cbn [fst snd target prompt]. destruct (owner (mx s m)) as [o|] eqn:Ho.
  - assert (El : lock_of (mx s m) = Some (o, hold (mx s m))) by (unfold lock_of; by rewrite Ho). rewrite El.
    set (s0 := set_err t RT_EOK s). assert (Hi0 : mutex_inv s0 C) by (by apply set_err_inv).
    destruct (decide (o = t)) as [-> | Hot].
    + pose proof (sh_hold _ _ (proj1 Hi) m t Ho) as Hh. unfold _rt_mutex_take. fold s0. change (mx s0 m) with (mx s m). cbv zeta.
      rewrite Ho, decide_True by done. unfold RT_MUTEX_HOLD_MAX. destruct (Z.ltb_spec (hold (mx s m)) 255); cbn [mbind option_bind].
      * eexists _, (_, _). cbn [fst snd]. split_and!; [done | | done | | |].
        -- apply (set_hold_inv s0 C m); [done | lia].
        -- rewrite mx_upd_mx, decide_True by done. unfold lock_of. simpl. by rewrite Ho.
        -- intros k Hk. by rewrite mx_upd_mx, decide_False.
        -- intros _ Hno Hx. split; [intros k; rewrite mx_upd_mx; case_decide; [subst |]; apply Hno |]. by apply (set_hold_exact s0 m), set_err_exact.
      * eexists _, (_, _). cbn [fst snd]. split_and!; [done | done | done | done | done |]. intros _ Hno Hx. split; [done |]. by apply set_err_exact.
    + destruct (Z.eqb_spec timeout 0) as [-> | Htm].
      * unfold _rt_mutex_take. fold s0. change (mx s0 m) with (mx s m). cbv zeta. rewrite Ho, decide_False by done. cbn [Z.eqb mbind option_bind].
        eexists _, (_, _). cbn [fst snd]. split_and!; [done | | done | done | done |]; [by apply set_err_inv |].
        intros _ Hno Hx. split; [done |]. by do 2 apply set_err_exact.
      * destruct (Hd o eq_refl) as [? | [? | Hd']]; [done | done |].
        destruct (take_blocks_ok s C t m o timeout Hi Hc Ho Hot Htm Hd') as (s' & -> & Hi' & Hmx & Hx). cbn [mbind option_bind].
        assert (Hlk : ∀ k, lock_of (mx s' k) = lock_of (mx s k)) by (intros k; apply lock_ext; apply Hmx).
        eexists _, (_, _). cbn [fst snd]. split_and!; [done | done | done | by rewrite Hlk | done |].
        intros _ Hno He. split; [|by apply Hx]. intros k. destruct (Hmx k) as (_ & _ & ->). apply Hno.
  - rewrite (proj2 (lock_none _) Ho). destruct (take_free s C t m timeout Hi Hc Ho) as (s' & -> & Hi' & Ho' & Hh' & Hk & Hce & Hx). cbn [mbind option_bind].
    eexists _, (_, _). cbn [fst snd]. split_and!; [done | done | done | | |].
    + unfold lock_of. by rewrite Ho', Hh'.
    + intros k Hne. by rewrite Hk.
    + intros _ Hno He. split; [|by apply Hx]. intros k. by rewrite Hce.
Qed.

Lemma mutex_release_good s C t m : mutex_inv s C → enabled (s, C) (Release t m) → step_good (s, C) (Release t m).
Proof.
  intros Hi Hc. unfold step_good, mutex_exec, lock_step. cbn [fst snd target prompt].
  destruct (release_ok s C t m Hi Hc) as (r & s' & -> & Hi' & Hk & Hce & Hr & Hx). cbn [mbind option_bind].
  exists (Some r), (s', C). cbn [fst snd]. split_and!; [done | done | | |].
  - destruct (decide (owner (mx s m) = Some t)) as [Ho | Ho].
    + destruct Hr as [-> Hr]. assert (lock_of (mx s m) = Some (t, hold (mx s m))) as -> by (unfold lock_of; by rewrite Ho).
      rewrite decide_True by done. split; [done |]. unfold released in Hr. destruct (hold (mx s m) =? 1).
      * destruct (suspend_thread (mx s m)) as [|n l] eqn:El; destruct Hr as [Hr1 Hr2]; [left | right].
        -- split; [done | by apply lock_none].
        -- exists n. split; [|unfold lock_of; by rewrite Hr1, Hr2]. unfold first_waiting. rewrite El. split; [by left |]. intros u Hu.
           apply (head_prio_le s (n :: l)); [|done]. rewrite <-El. eapply sorted_all, Hi.
      * destruct Hr as [Hr1 Hr2]. unfold lock_of. by rewrite Hr1, Hr2, Ho.
    + destruct Hr as (-> & Hr1 & Hr2). rewrite (lock_ext _ _ Hr1 Hr2). unfold lock_of. destruct (owner (mx s m)) as [o|] eqn:Eo; simpl; [|done].
      rewrite decide_False by congruence. done.
  - intros k Hne. apply lock_ext; by apply Hk.
  - intros _ Hno He. split; [|by apply Hx]. intros k. by rewrite Hce.
Qed.

(** A thread that runs again. *)
Lemma resume_good s C t m :
  mutex_inv s C → C !! t = Some m → t_susp (tk s t) = false →
  ∃ r st', exec_resume (s, C) t = Some (Some r, st') ∧ mutex_inv st'.1 st'.2 ∧ (∀ k, lock_of (mx st'.1 k) = lock_of (mx s k))
    ∧ (r = RT_EOK ∧ (∃ h, lock_of (mx s m) = Some (t, h)) ∨ r = - RT_ETIMEOUT ∧ ∀ h, lock_of (mx s m) ≠ Some (t, h))
    ∧ (no_ceilings s → stale s m t → (t_error (tk s t) = RT_EOK → exact s None None) → no_ceilings st'.1 ∧ exact st'.1 None None).
Proof.
  intros Hi Hc Hrun. unfold exec_resume. cbn [fst snd]. rewrite Hc. cbn [mbind option_bind].
  destruct (resume_ok s C t m Hi Hc Hrun) as (r & s' & -> & Hi' & Hmx & Hr & Hx). cbn [mbind option_bind].
  exists r, (s', delete t C). cbn [fst snd]. split_and!; [done | done | | |].
  - intros k. apply lock_ext; apply Hmx.
  - destruct Hr as [(-> & Ho & _) | (-> & Ho & _)]; [left | right]; (split; [done |]).
    + exists (hold (mx s m)). unfold lock_of. by rewrite Ho.
    + intros h. unfold lock_of. destruct (owner (mx s m)) as [o|]; simpl; [|done]. intros [= -> _]. done.
  - intros Hno Hst He. split; [intros k; destruct (Hmx k) as (_ & _ & ->); apply Hno |]. by apply Hx.
Qed.

Lemma mutex_step_ok st op : mutex_inv st.1 st.2 → enabled st op → step_good st op.
Proof.
  destruct st as [s C]. destruct op as [t m timeout | t m | t | t | t | m p]; intros Hi He.
  - by apply mutex_take_good.
  - by apply mutex_release_good.
  - destruct (timeout_ok s C t Hi He) as (m & s' & E & Hc & Hi' & _ & _ & Hmx & _). unfold step_good. cbn [mutex_exec fst snd]. rewrite E. cbn [mbind option_bind].
    exists None, (s', C). cbn [fst snd lock_step prompt]. assert (∀ k, lock_of (mx s' k) = lock_of (mx s k)) by (intros k; apply lock_ext; apply Hmx). by split_and!.
  - destruct He as [[m Hc] Hrun]. destruct (resume_good s C t m Hi Hc Hrun) as (r & st' & E & Hi' & Hl & Hr & Hx). unfold step_good. cbn [mutex_exec].
    exists (Some r), st'. cbn [fst snd lock_step target]. rewrite Hc. cbn [default from_option id]. split_and!; try done.
    + destruct Hr as [[-> ?] | [-> ?]]; [by left | by right].
    + intros _ Hno Hex. apply Hx; [done | by apply exact_stale | done].
  - destruct (timeout_ok s C t Hi He) as (m & s1 & E1 & Hc & Hi1 & Hrun & Her & Hmx & Hst). destruct (resume_good s1 C t m Hi1 Hc Hrun) as (r & st' & E & Hi' & Hl & Hr & Hx).
    assert (Hl1 : ∀ k, lock_of (mx s1 k) = lock_of (mx s k)) by (intros k; apply lock_ext; apply Hmx).
    unfold step_good. cbn [mutex_exec]. rewrite E1. cbn [mbind option_bind]. exists (Some r), st'. cbn [fst snd lock_step target]. rewrite Hc. cbn [default from_option id].
    rewrite !Hl1 in *. split_and!; try done.
    + by rewrite Hl, Hl1.
    + destruct Hr as [[-> ?] | [-> ?]]; [by left | by right].
    + intros k _. by rewrite Hl, Hl1.
    + intros _ Hno Hex. apply Hx; [intros k; destruct (Hmx k) as (_ & _ & ->); apply Hno | by apply Hst |]. rewrite Her. done.
  - destruct (ceiling_ok s C m p Hi He) as (r & s' & E & Hi' & Hmx). unfold step_good. cbn [mutex_exec fst snd]. rewrite E. cbn [mbind option_bind].
    exists (Some r), (s', C). cbn [fst snd lock_step prompt]. assert (∀ k, lock_of (mx s' k) = lock_of (mx s k)) by (intros k; apply lock_ext; apply Hmx). by split_and!.
Qed.

Lemma run_inv st ops st' : mutex_inv st.1 st.2 → mutex_run st ops st' → mutex_inv st'.1 st'.2.
Proof.
  intros Hi. induction 1 as [|ops op st1 r st2 Hr IH He E]; [done |].
  destruct (mutex_step_ok st1 op IH He) as (r' & st3 & E' & Hi' & _). rewrite E in E'. by injection E' as -> ->.
Qed.

Lemma run_exact st ops st' :
  mutex_inv st.1 st.2 → no_ceilings st.1 → exact st.1 None None → mutex_run st ops st' → Forall (λ op, prompt op = true) ops →
  no_ceilings st'.1 ∧ exact st'.1 None None.
Proof.
  intros Hi Hno Hx. induction 1 as [|ops op st1 r st2 Hr IH He E]; intros Hf; [done |]. apply Forall_app in Hf as [Hf Hop]. apply Forall_cons in Hop as [Hop _].
  destruct (IH Hf) as [Hno1 Hx1]. destruct (mutex_step_ok st1 op (run_inv _ _ _ Hi Hr) He) as (r' & st3 & E' & _ & _ & _ & Hstep).
  rewrite E in E'. injection E' as -> ->. by apply Hstep.
Qed.

(** The initial priorities stay. *)
Definition keeps_init (s s' : msys) : Prop := ∀ t, init_priority (mf s' t) = init_priority (mf s t).

#[export] Instance keeps_init_preorder : PreOrder keeps_init.
Proof. split; [done | intros a b c H1 H2 t; by rewrite H2, H1]. Qed.

Lemma keeps_upd_mf s t f : init_priority f = init_priority (mf s t) → keeps_init s (upd_mf t f s).
Proof. intros E u. rewrite mf_upd_mf. by case_decide; subst. Qed.

Lemma keeps_change s t p s' : rt_sched_thread_change_priority s t p = Some s' → keeps_init s s'.
Proof. unfold rt_sched_thread_change_priority. destruct (_ <? _); [|done]. by intros [= <-]. Qed.

Lemma keeps_loop fuel s t s' : update_loop fuel s t = Some s' → keeps_init s s'.
Proof.
  revert s t. induction fuel as [|fuel IH]; intros s t; [done |]. cbn [update_loop].
  destruct (t_susp (tk s t)); [|by intros [= <-]]. destruct (pending_object (mf s t)) as [m|]; [|by intros [= <-]].
  cbv zeta. destruct (owner _) as [o|]; [|done]. destruct (negb _); [|by intros [= <-]]. set (s1 := _mutex_update_priority _ m).
  destruct (rt_sched_thread_change_priority s1 o _) as [s2|] eqn:E; [|done]. cbn [mbind option_bind]. intros Hl.
  etrans; [|by eapply IH]. by apply (keeps_change s1 _ _ _ E).
Qed.

Lemma keeps_update s t p s' : _thread_update_priority s t p = Some s' → keeps_init s s'.
Proof.
  unfold _thread_update_priority. destruct (rt_sched_thread_change_priority s t p) as [s1|] eqn:E; [|done]. cbn [mbind option_bind].
  intros Hl. etrans; [by eapply keeps_change | by eapply keeps_loop].
Qed.

Lemma keeps_refresh s o s' : refresh_owner s o = Some s' → keeps_init s s'.
Proof. unfold refresh_owner. destruct (negb _); [apply keeps_update | by intros [= <-]]. Qed.

Lemma keeps_take s t m timeout c s' : rt_mutex_take s t m timeout = Some (c, s') → keeps_init s s'.
Proof.
  unfold rt_mutex_take, _rt_mutex_take. cbv zeta. change (mx (set_err t RT_EOK s) m) with (mx s m). destruct (owner (mx s m)) as [o|].
  - case_decide; [destruct (_ <? _); by intros [= <- <-] |]. destruct (timeout =? 0); [by intros [= <- <-] |].
    destruct (rt_thread_suspend_to_list _ _ _ _) as [[ret ts] l]. destruct (negb _); [by intros [= <- <-] |].
    set (s1 := pend_on _ _ _). assert (H1 : keeps_init s s1) by (by apply (keeps_upd_mf (upd_mx m _ (mk_ms ts (ms_mf s) (ms_mx s))))).
    destruct (prio s1 t <? priority (mx s1 m)); [destruct (prio s1 t <? _) |]; cbn [mbind option_bind].
    + destruct (_thread_update_priority _ o _) as [s2|] eqn:E; [|done]. intros [= <- <-]. etrans; [exact H1 |].
      etrans; [by apply (keeps_update (upd_mx m (set_priority (prio s1 t) (mx s1 m)) s1) _ _ _ E) |]. by destruct (0 <? timeout).
    + intros [= <- <-]. etrans; [exact H1 |]. by destruct (0 <? timeout).
    + intros [= <- <-]. etrans; [exact H1 |]. by destruct (0 <? timeout).
  - set (s1 := upd_mx m _ _). destruct (_ && _); cbn [mbind option_bind].
    + destruct (_thread_update_priority s1 t _) as [s2|] eqn:E; [|done]. intros [= <- <-].
      etrans; [by apply (keeps_update s1 _ _ _ E) | by apply keeps_upd_mf].
    + intros [= <- <-]. by apply (keeps_upd_mf s1).
Qed.

Lemma keeps_wake fuel s m n s' : wake_loop fuel s m = Some (n, s') → keeps_init s s'.
Proof.
  revert s. induction fuel as [|fuel IH]; intros s; [done |]. cbn [wake_loop]. destruct (suspend_thread (mx s m)) as [|t l]; [by intros [= <- <-] |].
  destruct (negb _); [done |]. destruct (rt_sched_thread_ready _ _ _) as [[err ts] l']. destruct (negb _); [|by intros [= <- <-]]. intros E. by apply IH in E.
Qed.

Lemma keeps_release s t m r s' : rt_mutex_release s t m = Some (r, s') → keeps_init s s'.
Proof.
  unfold rt_mutex_release. cbv zeta. case_decide; [|by intros [= <- <-]]. destruct (_ =? 0); [|by intros [= <- <-]].
  set (s1 := drop_taken t m _). assert (H1 : keeps_init s s1) by (by apply (keeps_upd_mf (upd_mx m _ s))).
  destruct (_check_and_update_prio s1 t m) as [s2|] eqn:E2; [|done]. cbn [mbind option_bind].
  assert (H2 : keeps_init s1 s2) by (revert E2; unfold _check_and_update_prio; destruct (_ || _); [apply keeps_change | by intros [= <-]]).
  destruct (wake_loop _ s2 m) as [[n s3]|] eqn:E3; [|done]. cbn [mbind option_bind]. intros [= <- <-].
  etrans; [exact H1 |]. etrans; [exact H2 |]. etrans; [by eapply keeps_wake |]. destruct n as [n|]; [|done].
  set (s4 := upd_mx m _ s3). etrans; [by apply (keeps_upd_mf s4 n (set_taken (m :: taken_object_list (mf s4 n)) (mf s4 n))) |].
  set (s5 := upd_mf n _ s4). by apply (keeps_upd_mf s5 n (set_pending None (mf s5 n))).
Qed.

Lemma keeps_resume s C t r st : exec_resume (s, C) t = Some (r, st) → keeps_init s st.1.
Proof.
  unfold exec_resume, mutex_take_resume. cbn [fst snd]. destruct (C !! t) as [m|]; [|done]. cbn [mbind option_bind].
  destruct (_ =? RT_EOK); case_decide; try done; cbn [mbind option_bind]; [by intros [= <- <-] |].
  destruct (waiter_left s m t) as [s1|] eqn:E; [|done]. cbn [mbind option_bind]. intros [= <- <-]. cbn [fst].
  etrans; [|by apply keeps_upd_mf]. revert E. unfold waiter_left. destruct (owner (mx s m)) as [o|]; [destruct (_ =? _) |]; try (by intros [= <-]).
  by intros E%keeps_refresh.
Qed.

Lemma keeps_timeout s t s' : mutex_timeout s t = Some s' → keeps_init s s'.
Proof.
  unfold mutex_timeout. destruct (pending_object (mf s t)) as [m|]; [|done]. cbn [mbind option_bind].
  destruct (_thread_timeout _ _ _) as [[ts l]|]; [|done]. by intros [= <-].
Qed.

Lemma keeps_step st op r st' : mutex_exec st op = Some (r, st') → keeps_init st.1 st'.1.
Proof.
  destruct st as [s C], op as [t m timeout | t m | t | t | t | m p]; cbn [mutex_exec fst].
  - destruct (rt_mutex_take s t m timeout) as [[c s1]|] eqn:E; [|done]. cbn [mbind option_bind]. apply keeps_take in E. by destruct c; intros [= <- <-].
  - destruct (rt_mutex_release s t m) as [[c s1]|] eqn:E; [|done]. cbn [mbind option_bind]. apply keeps_release in E. by intros [= <- <-].
  - destruct (mutex_timeout s t) as [s1|] eqn:E; [|done]. cbn [mbind option_bind]. apply keeps_timeout in E. by intros [= <- <-].
  - apply keeps_resume.
  - destruct (mutex_timeout s t) as [s1|] eqn:E; [|done]. cbn [mbind option_bind]. apply keeps_timeout in E. intros E1%keeps_resume. by etrans.
  - unfold rt_mutex_setprioceiling. destruct (_ <? _); cbn [mbind option_bind]; [|by intros [= <- <-]].
    destruct (owner (mx s m)) as [o|]; cbn [mbind option_bind]; [|by intros [= <- <-]].
    destruct (refresh_owner _ o) as [s1|] eqn:E; [|done]. cbn [mbind option_bind]. apply keeps_refresh in E. by intros [= <- <-].
Qed.

Lemma run_init prios ops st t : mutex_run (mutex_start prios) ops st → init_priority (mf st.1 t) = default 0 (prios !! t).
Proof.
  induction 1 as [|ops op st1 r st2 Hr IH He E]; [by rewrite (proj1 (start_facts prios t)) |]. by rewrite (keeps_step _ _ _ _ E).
Qed.

(** * The claims *)

Lemma chain_urgent s C t o : mutex_inv s C → rtc (blocked s) t o → prio s o ≤ prio s t.
Proof.
  intros [H Hp]. induction 1 as [|t u o (m & Ht & Hu) _ IH]; [lia |].
  pose proof (po_wait _ _ _ Hp m t ltac:(done) Ht). pose proof (po_owner _ _ _ Hp m u ltac:(done) Hu). lia.
Qed.

Lemma exact_prio s C t :
  mutex_inv s C → no_ceilings s → exact s None None →
  prio s t = init_priority (mf s t) ∨ ∃ u, blocked s u t ∧ prio s t = prio s u.
Proof.
  intros [H Hp] Hno Hx. pose proof (po_range _ _ _ Hp t) as Hr. rewrite (ex_prio _ _ _ Hx t) in Hr |- * by done. unfold _thread_get_mutex_priority in *.
  destruct (fold_prio_case s (taken_object_list (mf s t)) (init_priority (mf s t))) as [E | (m & Hm & E)]; unfold fold_prio in E; [by left |].
  apply (sh_taken _ _ H) in Hm as Ho. rewrite Hno, (ex_mutex _ _ _ Hx m) in E by done.
  right. destruct (suspend_thread (mx s m)) as [|u l] eqn:El; simpl in E; [lia |]. destruct E as [E | E]; [|lia].
  exists u. split; [|done]. exists m. rewrite El. split; [by left | done].
Qed.

(** C9. No priority inversion: in every run of takes (that close no circle of waiting threads),
    releases, timeouts and ceiling changes, every further call returns (no assertion fails,
    and the loop that passes priorities on ends); a thread is never more urgent than the
    owner of the mutex it waits for, directly or along a chain of waiting owners; the waiting
    threads are in order of urgency; and every mutex is on the list of exactly its owner. *)
Theorem mutex_no_inversion (prios : gmap nat Z) (ops : list mutex_op) (s : msys) (C : gmap nat nat)
    (Hprios : prios_ok prios) (Hrun : mutex_run (mutex_start prios) ops (s, C)) :
  (∀ op, enabled (s, C) op → is_Some (mutex_exec (s, C) op))
  ∧ (∀ t o, rtc (blocked s) t o → prio s o ≤ prio s t)
  ∧ (∀ m, StronglySorted (urgent s) (suspend_thread (mx s m)))
  ∧ (∀ m t, t ∈ suspend_thread (mx s m) → t_susp (tk s t) = true ∧ is_Some (owner (mx s m)))
  ∧ (∀ m t, m ∈ taken_object_list (mf s t) ↔ owner (mx s m) = Some t).
Proof.
  destruct (start_inv prios Hprios) as [Hi _]. pose proof (run_inv _ _ _ Hi Hrun : mutex_inv s C) as Hi'. split_and!.
  - intros op He. destruct (mutex_step_ok (s, C) op Hi' He) as (r & st & E & _). by exists (r, st).
  - intros t o. by apply (chain_urgent s C).
  - intros m. eapply sorted_all, Hi'.
  - intros m t Ht. split; [eapply susp_iff; [apply Hi' | by exists m] |]. destruct (wait_owner _ _ _ _ (proj1 Hi') Ht) as (o & -> & _). by exists o.
  - apply Hi'.
Qed.

(** C20. Inheritance is exact: as long as no ceiling is set and a thread whose wait times out
    runs before anything else happens, a thread has its own priority or that of the most
    urgent thread that waits for one of its mutexes, whichever is more urgent; so a thread
    that owns no mutex is back at its own priority. *)
Theorem mutex_priority_exact (prios : gmap nat Z) (ops : list mutex_op) (s : msys) (C : gmap nat nat) (t : nat)
    (Hprios : prios_ok prios) (Hrun : mutex_run (mutex_start prios) ops (s, C)) (Hprompt : Forall (λ op, prompt op = true) ops) :
  prio s t ≤ default 0 (prios !! t)
  ∧ (∀ u, blocked s u t → prio s t ≤ prio s u)
  ∧ (prio s t = default 0 (prios !! t) ∨ ∃ u, blocked s u t ∧ prio s t = prio s u)
  ∧ (taken_object_list (mf s t) = [] → prio s t = default 0 (prios !! t)).
Proof.
  destruct (start_inv prios Hprios) as (Hi & Hno & Hx). pose proof (run_inv _ _ _ Hi Hrun : mutex_inv s C) as Hi'.
  destruct (run_exact _ _ _ Hi Hno Hx Hrun Hprompt) as [Hno' Hx']. pose proof (run_init _ _ _ t Hrun) as Ei. cbn [fst] in *.
  rewrite <-Ei. assert (Hc := exact_prio s C t Hi' Hno' Hx'). split_and!; [apply Hi' | | done |].
  - intros u Hu. apply (chain_urgent s C); [done |]. by apply rtc_once.
  - intros Hnil. destruct Hc as [? | (u & (m & _ & Ho) & _)]; [done |]. apply (sh_taken _ _ (proj1 Hi')) in Ho. rewrite Hnil in Ho. by apply elem_of_nil in Ho.
Qed.

(** C28. A mutex is a recursive lock: in every reachable state a take of a free mutex makes the
    caller its owner, a take by the owner counts up to 255 and is refused beyond, a take
    of a mutex that is owned by another thread fails at once or blocks and changes no lock;
    only the owner can release, and the last release passes the mutex to a most urgent
    waiting thread or frees it; a thread that returns from a wait with success owns the
    mutex, one that times out does not. No step changes another lock. *)
Theorem mutex_is_lock (prios : gmap nat Z) (ops : list mutex_op) (st : mstate) (op : mutex_op)
    (Hprios : prios_ok prios) (Hrun : mutex_run (mutex_start prios) ops st) (Hen : enabled st op) :
  ∃ r st', mutex_exec st op = Some (r, st')
    ∧ lock_step st.1 op (target st op) (lock_of (mx st.1 (target st op))) r (lock_of (mx st'.1 (target st op)))
    ∧ ∀ k, k ≠ target st op → lock_of (mx st'.1 k) = lock_of (mx st.1 k).
Proof.
  destruct (start_inv prios Hprios) as [Hi _]. destruct (mutex_step_ok st op (run_inv _ _ _ Hi Hrun) Hen) as (r & st' & E & _ & Hl & Hk & _).
  by exists r, st'.
Qed.

(** ** Closing a thread that owns a mutex *)

Lemma release_all_refused s self l :
  (∀ m, m ∈ l → owner (mx s m) ≠ Some self) → ∃ s', release_all s self l = Some s' ∧ ∀ m, mx s' m = mx s m.
Proof.
  revert s. induction l as [|m l IH]; intros s Hl; cbn [release_all]; [by exists s |].
  unfold rt_mutex_release. rewrite decide_False by (apply Hl; by left). cbn [mbind option_bind].
  destruct (IH (set_err self (- RT_ERROR) s)) as (s' & E & Hs'); [intros k Hk; apply Hl; by right |]. by exists s'.
Qed.

(** A thread that is closed by another one keeps its mutexes: the release is refused, because
    the caller is not the owner. *)
Theorem closed_owner_keeps s C self t :
  mutex_inv s C → self ≠ t → pending_object (mf s t) = None →
  ∃ s', _thread_detach_from_mutex s self t = Some s' ∧ ∀ m, mx s' m = mx s m.
Proof.
  intros [H _] Hne Hpd. unfold _thread_detach_from_mutex. rewrite Hpd. cbn [mbind option_bind]. apply release_all_refused.
  intros m Hm%(sh_taken _ _ H). congruence.
Qed.

(** * Concrete runs *)

(** Whether the chain of waiting owners from [o] leads to [t]. *)
Fixpoint leads (fuel : nat) (s : msys) (o t : nat) : bool :=
  match fuel with
  | O => true
  | S fuel =>
      bool_decide (o = t) || t_susp (tk s o) &&
        match pending_object (mf s o) with
        | Some m => match owner (mx s m) with Some o' => leads fuel s o' t | None => false end
        | None => false
        end
  end.

Lemma leads_ok fuel s C o t : shape_ok s C → leads fuel s o t = false → ¬ rtc (blocked s) o t.
Proof.
  intros H. revert o. induction fuel as [|fuel IH]; intros o; [done |]. cbn [leads]. intros [Hne Hl]%orb_false_iff Hr.
  apply bool_decide_eq_false in Hne. inversion Hr as [|? y ? (m & Hm & Ho) Hy]; subst; [done |].
  assert (Hs : t_susp (tk s o) = true) by (apply (susp_iff _ _ _ H); by exists m).
  rewrite Hs, (proj1 (sh_wait _ _ H m o Hm)), Ho in Hl. by apply (IH y).
Qed.

(** A test that implies [enabled]. *)
Definition enabledb (st : mstate) (op : mutex_op) : bool :=
  let '(s, C) := st in
  match op with
  | Take t m timeout => bool_decide (C !! t = None) &&
      match owner (mx s m) with
      | Some o => bool_decide (o = t) || (timeout =? 0) || negb (leads (S (size C)) s o t)
      | None => true
      end
  | Release t m => bool_decide (C !! t = None)
  | Timeout t | Expire t => t_active (tk s t)
  | Resume t => bool_decide (is_Some (C !! t)) && negb (t_susp (tk s t))
  | SetCeiling m p => 0 <=? p
  end.

Lemma enabledb_ok st op : mutex_inv st.1 st.2 → enabledb st op = true → enabled st op.
Proof.
  destruct st as [s C], op as [t m timeout | t m | t | t | t | m p]; intros [H _]; cbn [enabledb enabled fst snd] in *.
  - intros [Hc Ho]%andb_true_iff. apply bool_decide_eq_true in Hc. split; [done |]. intros o Eo. rewrite Eo in Ho.
    apply orb_true_iff in Ho as [[Ho | Ho]%orb_true_iff | Ho]; [left; by apply bool_decide_eq_true in Ho | right; left; by apply Z.eqb_eq | ].
    right. right. apply negb_true_iff in Ho. by eapply leads_ok.
  - by intros ?%bool_decide_eq_true.
  - done.
  - intros [Hc Hs]%andb_true_iff. apply bool_decide_eq_true in Hc. by apply negb_true_iff in Hs.
  - done.
  - by intros ?%Z.leb_le.
Qed.

Fixpoint run_all (st : mstate) (ops : list mutex_op) : option mstate :=
  match ops with
  | [] => Some st
  | op :: ops => if enabledb st op then '(_, st) ← mutex_exec st op; run_all st ops else None
  end.

Lemma run_all_ok st0 pre st ops st' :
  mutex_inv st0.1 st0.2 → mutex_run st0 pre st → run_all st ops = Some st' → mutex_run st0 (pre ++ ops) st'.
Proof.
  intros Hi. revert st pre. induction ops as [|op ops IH]; intros st pre Hr; cbn [run_all].
  - intros [= <-]. by rewrite app_nil_r.
  - destruct (enabledb st op) eqn:Ee; [|done]. destruct (mutex_exec st op) as [[r st1]|] eqn:E; [|done]. cbn [mbind option_bind].
    intros Ha. rewrite (cons_middle op pre ops), app_assoc. apply (IH st1); [|done]. eapply run_snoc; [done | | done].
    apply enabledb_ok; [|done]. by eapply run_inv.
Qed.

Lemma start_run prios ops st : prios_ok prios → run_all (mutex_start prios) ops = Some st → mutex_run (mutex_start prios) ops st.
Proof. intros Hp. apply (run_all_ok _ [] _ _ _); [apply (start_inv prios Hp) | constructor]. Qed.

(** Three threads of priorities 10, 5 and 2. *)
Definition demo_prios : gmap nat Z := <[1%nat := 10]> (<[2%nat := 5]> (<[3%nat := 2]> ∅)).
Definition demo_state (ops : list mutex_op) : mstate := default (mutex_start demo_prios) (run_all (mutex_start demo_prios) ops).

Lemma demo_prios_ok : prios_ok demo_prios.
Proof. by apply (bool_decide_unpack _); vm_compute. Qed.

Lemma demo_run ops : bool_decide (is_Some (run_all (mutex_start demo_prios) ops)) = true → mutex_run (mutex_start demo_prios) ops (demo_state ops).
Proof.
  intros H%bool_decide_eq_true. destruct H as [st E]. apply start_run; [apply demo_prios_ok |]. unfold demo_state. by rewrite E.
Qed.

(** Thread 1 owns mutex 1; thread 2 owns mutex 2 and waits for mutex 1, thread 3 waits for mutex 2. *)
Definition chain_ops : list mutex_op := [Take 1 1 (-1); Take 2 2 (-1); Take 2 1 10; Take 3 2 (-1)].

Lemma mutex_no_inversion_witness :
  prios_ok demo_prios ∧ mutex_run (mutex_start demo_prios) chain_ops (demo_state chain_ops)
  ∧ prio (demo_state chain_ops).1 1 = 2 ∧ ∀ t o, rtc (blocked (demo_state chain_ops).1) t o → prio (demo_state chain_ops).1 o ≤ prio (demo_state chain_ops).1 t.
Proof.
  assert (Hr : mutex_run (mutex_start demo_prios) chain_ops (demo_state chain_ops)) by (apply demo_run; vm_compute; reflexivity).
  split_and!; [exact demo_prios_ok | exact Hr | vm_compute; reflexivity |].
  rewrite (surjective_pairing (demo_state chain_ops)) in Hr.
  apply (mutex_no_inversion demo_prios chain_ops (demo_state chain_ops).1 (demo_state chain_ops).2 demo_prios_ok Hr).
Defined.

(** The wait of thread 2 times out and everything is released again. *)
Definition release_ops : list mutex_op := chain_ops ++ [Expire 2; Release 2 2; Resume 3; Release 1 1].

Lemma mutex_priority_exact_witness :
  mutex_run (mutex_start demo_prios) release_ops (demo_state release_ops)
  ∧ taken_object_list (mf (demo_state release_ops).1 1) = [] ∧ prio (demo_state release_ops).1 1 = default 0 (demo_prios !! 1%nat).
Proof.
  assert (Hr : mutex_run (mutex_start demo_prios) release_ops (demo_state release_ops)) by (apply demo_run; vm_compute; reflexivity).
  assert (Hnil : taken_object_list (mf (demo_state release_ops).1 1) = []) by (vm_compute; reflexivity).
  split_and!; [exact Hr | exact Hnil |]. rewrite (surjective_pairing (demo_state release_ops)) in Hr.
  apply (mutex_priority_exact demo_prios release_ops (demo_state release_ops).1 (demo_state release_ops).2 1 demo_prios_ok Hr);
    [apply (bool_decide_unpack _); vm_compute; exact I | exact Hnil].
Defined.

Lemma mutex_is_lock_witness :
  enabled (demo_state chain_ops) (Release 1 1)
  ∧ ∃ r st', mutex_exec (demo_state chain_ops) (Release 1 1) = Some (r, st')
      ∧ lock_step (demo_state chain_ops).1 (Release 1 1) 1 (lock_of (mx (demo_state chain_ops).1 1)) r (lock_of (mx st'.1 1)).
Proof.
  assert (Hr : mutex_run (mutex_start demo_prios) chain_ops (demo_state chain_ops)) by (apply demo_run; vm_compute; reflexivity).
  assert (He : enabled (demo_state chain_ops) (Release 1 1)).
  { apply enabledb_ok; [apply (run_inv _ _ _ (proj1 (start_inv _ demo_prios_ok)) Hr) | vm_compute; reflexivity]. }
  split; [exact He |]. destruct (mutex_is_lock demo_prios chain_ops _ (Release 1 1) demo_prios_ok Hr He) as (r & st' & E & Hl & _).
  exists r, st'. split; [exact E | exact Hl].
Defined.

(** ** Where a priority goes wrong *)

(** The wait of thread 2 times out; before thread 2 runs, thread 3 waits for it and makes it
    more urgent, so that it no longer recognises its own priority in thread 1, which keeps
    priority 5 for good: it owns nothing and its own priority is 10. *)
Definition leak_ops : list mutex_op :=
  [Take 1 1 (-1); Take 2 2 (-1); Take 2 1 10; Timeout 2; Take 3 2 (-1); Resume 2; Release 2 2; Resume 3; Release 1 1].

Theorem mutex_priority_leak :
  ∃ st, mutex_run (mutex_start demo_prios) leak_ops st
    ∧ taken_object_list (mf st.1 1) = [] ∧ init_priority (mf st.1 1) = 10 ∧ prio st.1 1 = 5 ∧ suspend_thread (mx st.1 1) = [].
Proof.
  exists (demo_state leak_ops). split_and!; [apply demo_run |..]; vm_compute; reflexivity.
Qed.

(** A mutex with ceiling 3 is passed on: thread 2 owns it and has priority 5, although its
    mutexes ask for 3. *)
Definition ceiling_ops : list mutex_op := [SetCeiling 1 3; Take 1 1 (-1); Take 2 1 (-1); Release 1 1].

Theorem mutex_ceiling_lost :
  ∃ st, mutex_run (mutex_start demo_prios) ceiling_ops st
    ∧ owner (mx st.1 1) = Some 2%nat ∧ prio st.1 2 = 5 ∧ _thread_get_mutex_priority st.1 2 = 3.
Proof.
  exists (demo_state ceiling_ops). split_and!; [apply demo_run |..]; vm_compute; reflexivity.
Qed.
