(* ===== verification/Event.v ===== *)
(** Event sets of the kernel (rt-thread/src/ipc.c, the rt_event calls), over the threads and suspend
    lists of [Kernel]. A thread waits for all or for any bits of a set; a send wakes every
    thread whose condition holds and then clears what the woken threads asked to clear. *)

From S2P Require Import Prelude.
From S2P Require Import RtDef.
From S2P Require Import Kernel.
Open Scope Z_scope.

(** * Data *)

Definition RT_EVENT_FLAG_AND : Z := 1.
Definition RT_EVENT_FLAG_OR : Z := 2.
Definition RT_EVENT_FLAG_CLEAR : Z := 4.

Record rt_event : Type := mk_event {
  e_list : list nat;
  e_flag : Z;
  e_set : Z
}.

(** The fields of [struct rt_thread] that belong to the events. *)
Record einfo : Type := mk_einfo { event_set : Z; event_info : Z }.

Record esys : Type := mk_es { es_ts : threads; es_info : gmap nat einfo; es_event : rt_event }.

Definition info (s : esys) (t : nat) : einfo := default (mk_einfo 0 0) (es_info s !! t).
Definition with_info (t : nat) (i : einfo) (s : esys) : esys := mk_es (es_ts s) (<[t := i]> (es_info s)) (es_event s).
Definition with_threads (ts : threads) (l : list nat) (s : esys) : esys :=
  mk_es ts (es_info s) (mk_event l (e_flag (es_event s)) (e_set (es_event s))).
Definition with_set (z : Z) (s : esys) : esys :=
  mk_es (es_ts s) (es_info s) (mk_event (e_list (es_event s)) (e_flag (es_event s)) z).

(** * Operations *)

Definition rt_event_init (flag : Z) : rt_event := mk_event [] flag 0.
Definition rt_event_create (alloc : bool) (flag : Z) : option rt_event :=
  if alloc then Some (rt_event_init flag) else None.

(** The threads that are resumed, and the state. *)
Definition event_resume_all (s : esys) : list nat * esys :=
  let '(woken, ts, l) := rt_susp_list_resume_all (es_ts s) (e_list (es_event s)) RT_ERROR in
  (woken, with_threads ts l s).
Definition rt_event_detach (s : esys) : Z * list nat * esys := (RT_EOK, (event_resume_all s).1, (event_resume_all s).2).
Definition rt_event_delete (s : esys) : Z * list nat * esys := (RT_EOK, (event_resume_all s).1, (event_resume_all s).2).

Definition rt_event_control (s : esys) (cmd : Z) : Z * list nat * esys :=
  if cmd =? RT_IPC_CMD_RESET then
    let '(woken, s) := event_resume_all s in (RT_EOK, woken, with_set 0 s)
  else (- RT_ERROR, [], s).

(** The thread is made ready; the result of [rt_sched_thread_ready] is not looked at. *)
Definition event_wake (s : esys) (t : nat) : esys :=
  let '(_, ts, l) := rt_sched_thread_ready (es_ts s) (e_list (es_event s)) t in
  with_threads (upd ts t (set_error (th ts t) RT_EOK)) l s.

(** The loop of [rt_event_send] over the threads that were on the list; [clear] is
    [need_clear_set]. The first result is false when a thread waits for neither. *)
Fixpoint event_send_loop (todo : list nat) (s : esys) (clear : Z) : bool * Z * esys :=
  match todo with
  | [] => (true, clear, s)
  | t :: todo =>
      let i := info s t in
      let both := Z.land (event_set i) (e_set (es_event s)) in
      let resume (s : esys) :=
        let clear := if flag_set (event_info i) RT_EVENT_FLAG_CLEAR then Z.lor clear (event_set (info s t)) else clear in
        event_send_loop todo (event_wake s t) clear in
      if flag_set (event_info i) RT_EVENT_FLAG_AND then
        if both =? event_set i then resume s else event_send_loop todo s clear
      else if flag_set (event_info i) RT_EVENT_FLAG_OR then
        if negb (both =? 0) then resume (with_info t (mk_einfo both (event_info i)) s) else event_send_loop todo s clear
      else (false, clear, s)
  end.

Definition rt_event_send (s : esys) (set : Z) : Z * esys :=
  if set =? 0 then (- RT_ERROR, s) else
  let s := with_set (Z.lor (e_set (es_event s)) set) s in
  let '(ok, clear, s) := event_send_loop (e_list (es_event s)) s 0 in
  if ok then (RT_EOK, if negb (clear =? 0) then with_set (Z.ldiff (e_set (es_event s)) clear) s else s)
  else (- RT_EINVAL, s).

Definition event_error (t : nat) (e : Z) (s : esys) : esys :=
  mk_es (upd (es_ts s) t (set_error (th (es_ts s) t) e)) (es_info s) (es_event s).

(** The event has happened. *)
Definition recv_now (s : esys) (self : nat) (set opt : Z) : call * option Z * esys :=
  let both := Z.land (e_set (es_event s)) set in
  let s := with_info self (mk_einfo both opt) (event_error self RT_EOK s) in
  (Returns RT_EOK, Some both,
   if flag_set opt RT_EVENT_FLAG_CLEAR then with_set (Z.ldiff (e_set (es_event s)) set) s else s).

(** It has not. *)
Definition recv_wait (s : esys) (self : nat) (set opt timeout : Z) : call * option Z * esys :=
  if timeout =? 0 then (Returns (- RT_ETIMEOUT), None, event_error self (- RT_ETIMEOUT) s)
  else
    let s := with_info self (mk_einfo set opt) s in
    let '(ret, ts, l) := rt_thread_suspend_to_list (es_ts s) (e_list (es_event s)) self (e_flag (es_event s)) in
    let s := with_threads ts l s in
    if negb (ret =? RT_EOK) then (Returns ret, None, s)
    else (Blocks, None,
          if 0 <? timeout then mk_es (upd (es_ts s) self (rt_timer_start (th (es_ts s) self))) (es_info s) (es_event s) else s).

(** [_rt_event_recv] up to [rt_schedule], with what it stores at [recved]; [None] when its
    assertion fails. *)
Definition _rt_event_recv (s : esys) (self : nat) (set opt timeout : Z) : option (call * option Z * esys) :=
  if set =? 0 then Some (Returns (- RT_ERROR), None, s) else
  let s := event_error self (- RT_EINTR) s in
  let both := Z.land (e_set (es_event s)) set in
  if flag_set opt RT_EVENT_FLAG_AND then
    Some (if both =? set then recv_now s self set opt else recv_wait s self set opt timeout)
  else if flag_set opt RT_EVENT_FLAG_OR then
    Some (if negb (both =? 0) then recv_now s self set opt else recv_wait s self set opt timeout)
  else None.

Definition rt_event_recv (s : esys) (self : nat) (set opt timeout : Z) : option (call * option Z * esys) :=
  _rt_event_recv s self set opt timeout.

(** [_rt_event_recv] after [rt_schedule]: the result and what is stored at [recved]. *)
Definition event_recv_resume (s : esys) (self : nat) : Z * option Z :=
  let e := t_error (th (es_ts s) self) in
  if negb (e =? RT_EOK) then (e, None) else (e, Some (event_set (info s self))).

(** * The condition of a waiting thread *)

Definition satisfied (i : einfo) (set : Z) : bool :=
  if flag_set (event_info i) RT_EVENT_FLAG_AND then Z.land (event_set i) set =? event_set i
  else flag_set (event_info i) RT_EVENT_FLAG_OR && negb (Z.land (event_set i) set =? 0).

(** What it is told. *)
Definition received (i : einfo) (set : Z) : Z :=
  if flag_set (event_info i) RT_EVENT_FLAG_AND then event_set i else Z.land (event_set i) set.

(** What it asks to clear. *)
Definition to_clear (i : einfo) (set : Z) : Z :=
  if flag_set (event_info i) RT_EVENT_FLAG_CLEAR then received i set else 0.

(** The waiting threads a set wakes, and the bits they clear together. *)
Definition wakes (s : esys) (set : Z) (l : list nat) : list nat := filter (λ t, satisfied (info s t) set = true) l.
Definition stays (s : esys) (set : Z) (l : list nat) : list nat := filter (λ t, satisfied (info s t) set ≠ true) l.
Definition clears (s : esys) (set : Z) (l : list nat) : Z := foldr (λ t, Z.lor (to_clear (info s t) set)) 0 (wakes s set l).

(** A waiting thread asks for something, in one of the two ways. *)
Definition asks (i : einfo) : Prop :=
  0 < event_set i ∧ flag_set (event_info i) RT_EVENT_FLAG_AND || flag_set (event_info i) RT_EVENT_FLAG_OR = true.

Lemma satisfied_received i set : asks i → satisfied i set = true → received i set ≠ 0 ∧ Z.land (received i set) set = received i set
  ∧ Z.land (received i set) (event_set i) = received i set.
Proof.
  intros [Hp Hf]. unfold satisfied, received. destruct (flag_set (event_info i) RT_EVENT_FLAG_AND).
  - intros E%Z.eqb_eq. split_and!; [lia | done | apply Z.land_diag].
  - intros [_ E%negb_true_iff%Z.eqb_neq]%andb_true_iff. split_and!; [done | |].
    + by rewrite <-Z.land_assoc, Z.land_diag.
    + by rewrite Z.land_comm, Z.land_assoc, Z.land_diag.
Qed.

(** Clearing bits satisfies nobody. *)
Lemma satisfied_mono i set clear : 0 ≤ event_set i → satisfied i (Z.ldiff set clear) = true → satisfied i set = true.
Proof.
  intros Hp. unfold satisfied. destruct (flag_set (event_info i) RT_EVENT_FLAG_AND).
  - intros E%Z.eqb_eq. apply Z.eqb_eq. apply Z.bits_inj'. intros n Hn. pose proof (f_equal (λ z, Z.testbit z n) E) as En. cbn beta in En.
    rewrite Z.land_spec, Z.ldiff_spec in En. rewrite Z.land_spec. by destruct (Z.testbit (event_set i) n), (Z.testbit set n).
  - intros [-> E%negb_true_iff%Z.eqb_neq]%andb_true_iff. cbn [andb]. apply negb_true_iff, Z.eqb_neq. intros E0. apply E.
    apply Z.bits_inj'. intros n Hn. pose proof (f_equal (λ z, Z.testbit z n) E0) as En. cbn beta in En. rewrite Z.bits_0, Z.land_spec in En.
    rewrite Z.bits_0, Z.land_spec, Z.ldiff_spec. by destruct (Z.testbit (event_set i) n), (Z.testbit set n).
Qed.

(** * The loop of a send *)

Lemma info_with s t i u : info (with_info t i s) u = if decide (t = u) then i else info s u.
Proof. unfold info, with_info. simpl. case_decide; [subst; by rewrite lookup_insert_eq | by rewrite lookup_insert_ne]. Qed.

(** Waking one thread that waits for nothing else. *)
Lemma event_wake_ok s t kept todo :
  wait_ok (es_ts s) (kept ++ t :: todo) → e_list (es_event s) = kept ++ t :: todo → t_pend (th (es_ts s) t) = false →
  ∃ x, event_wake s t = with_threads (upd (es_ts s) t x) (kept ++ todo) s ∧ wait_ok (upd (es_ts s) t x) (kept ++ todo)
    ∧ t_prio x = t_prio (th (es_ts s) t) ∧ t_error x = RT_EOK ∧ t_susp x = false.
Proof.
  intros Hw El Hp. unfold event_wake. rewrite El. pose proof (w_nodup _ _ Hw) as Hn.
  apply NoDup_app in Hn as (Hk & Hkt & Ht). apply NoDup_cons in Ht as [Htt _].
  assert (Htk : t ∉ kept) by (intros Hin; apply (Hkt t Hin); by left).
  assert (Hr : list_remove (kept ++ t :: todo) t = kept ++ todo).
  { unfold list_remove. rewrite filter_app, filter_cons_False by (by intros H; apply H). fold (list_remove kept t) (list_remove todo t).
    by rewrite !list_remove_notin. }
  destruct (ready_spec (es_ts s) _ (kept ++ t :: todo) t Hw) as (x & -> & _ & Hpx & Hw'); [set_solver | done |]. rewrite Hr in *.
  exists (set_error x RT_EOK). rewrite th_upd_eq. split_and!; try done.
  - unfold with_threads. f_equal. unfold upd. by rewrite insert_insert_eq.
  - revert Hw'. apply wait_ok_ext. intros u. rewrite !th_upd. by case_decide.
  - pose proof (proj1 (not_susp _ _ t Hw')) as Hs. rewrite th_upd_eq in Hs. apply Hs. set_solver.
Qed.

Lemma filter_ext_in {A} (P Q : A → Prop) `{∀ x, Decision (P x)} `{∀ x, Decision (Q x)} (l : list A) :
  (∀ x, x ∈ l → P x ↔ Q x) → filter P l = filter Q l.
Proof.
  induction l as [|x l IH]; intros HPQ; [done |]. rewrite !filter_cons, IH by (intros y Hy; apply HPQ; by right).
  destruct (HPQ x) as [H1 H2]; [by left |]. repeat case_decide; done || naive_solver.
Qed.

Lemma wakes_ext s s' set l :
  (∀ u, u ∈ l → info s' u = info s u) → wakes s' set l = wakes s set l ∧ stays s' set l = stays s set l ∧ clears s' set l = clears s set l.
Proof.
  intros E. unfold clears. assert (wakes s' set l = wakes s set l) as Ew.
  { unfold wakes. apply filter_ext_in. intros u Hu. by rewrite E. }
  split_and!; [done | |].
  - unfold stays. apply filter_ext_in. intros u Hu. by rewrite E.
  - rewrite Ew. assert (Hin : ∀ u, u ∈ wakes s set l → info s' u = info s u) by (intros u [_ Hu]%list_elem_of_filter; by apply E).
    clear Ew. induction (wakes s set l) as [|u w IH]; [done |]. cbn [foldr].
    rewrite IH by (intros v Hv; apply Hin; by right). by rewrite (Hin u) by (by left).
Qed.

(** What the loop does to the threads. *)
Record sent (s s' : esys) (set : Z) (kept todo : list nat) : Prop := {
  sn_list : e_list (es_event s') = kept ++ stays s set todo;
  sn_wait : wait_ok (es_ts s') (kept ++ stays s set todo);
  sn_event : e_set (es_event s') = e_set (es_event s) ∧ e_flag (es_event s') = e_flag (es_event s);
  sn_prio : same_prio (es_ts s) (es_ts s');
  sn_rest : ∀ u, u ∉ wakes s set todo → th (es_ts s') u = th (es_ts s) u ∧ info s' u = info s u;
  sn_woken : ∀ u, u ∈ wakes s set todo → t_susp (th (es_ts s') u) = false ∧ t_error (th (es_ts s') u) = RT_EOK
    ∧ event_set (info s' u) = received (info s u) set
}.

(** One thread is woken, and the loop goes on. *)
Lemma sent_step s s1 s2 t set kept todo x :
  sent s1 s2 set kept todo → t ∉ todo → satisfied (info s t) set = true →
  (∀ u, info s1 u = if decide (t = u) then mk_einfo (received (info s t) set) (event_info (info s t)) else info s u) →
  es_ts s1 = upd (es_ts s) t x → t_prio x = t_prio (th (es_ts s) t) → t_error x = RT_EOK → t_susp x = false →
  e_set (es_event s1) = e_set (es_event s) → e_flag (es_event s1) = e_flag (es_event s) →
  sent s s2 set kept (t :: todo).
Proof.
  intros H Ht Hsat Hi Ets Hp He Hsu E1 E2.
  assert (Hu : ∀ u, u ∈ todo → info s1 u = info s u) by (intros u Hu; rewrite Hi, decide_False; [done | congruence]).
  destruct (wakes_ext s s1 set todo Hu) as (Ew & Es & _).
  assert (Ew' : wakes s set (t :: todo) = t :: wakes s set todo) by (unfold wakes; by rewrite filter_cons_True).
  assert (Es' : stays s set (t :: todo) = stays s set todo) by (unfold stays; rewrite filter_cons_False; [done | by intros Hf; apply Hf]).
  assert (Htw : t ∉ wakes s1 set todo) by (intros [_ Hin]%list_elem_of_filter; done).
  constructor; rewrite ?Es', ?Ew', <-?Es, <-?Ew.
  - apply H.
  - apply H.
  - destruct (sn_event _ _ _ _ _ H) as [-> ->]. done.
  - etrans; [|apply (sn_prio _ _ _ _ _ H)]. rewrite Ets. by apply same_prio_upd.
  - intros u [Hne Hin]%not_elem_of_cons. destruct (sn_rest _ _ _ _ _ H u Hin) as [-> ->]. rewrite Ets, th_upd_ne, Hi, decide_False by done. done.
  - intros u [-> | Hin]%elem_of_cons.
    + destruct (sn_rest _ _ _ _ _ H t Htw) as [-> ->]. by rewrite Ets, th_upd_eq, Hi, decide_True.
    + assert (t ≠ u) by (intros ->; done). destruct (sn_woken _ _ _ _ _ H u Hin) as (? & ? & E). rewrite Hi, decide_False in E by done. done.
Qed.

Lemma sent_skip s s2 t set kept todo :
  sent s s2 set (kept ++ [t]) todo → satisfied (info s t) set ≠ true → sent s s2 set kept (t :: todo).
Proof.
  intros H Hsat. assert (Ew' : wakes s set (t :: todo) = wakes s set todo) by (unfold wakes; by rewrite filter_cons_False).
  assert (Es' : kept ++ stays s set (t :: todo) = (kept ++ [t]) ++ stays s set todo).
  { unfold stays. rewrite filter_cons_True by done. by rewrite <-app_assoc. }
  constructor; rewrite ?Es', ?Ew'; apply H.
Qed.

Lemma send_loop_ok todo kept s clear :
  wait_ok (es_ts s) (kept ++ todo) → e_list (es_event s) = kept ++ todo →
  Forall (λ t, t_pend (th (es_ts s) t) = false ∧ asks (info s t)) todo →
  ∃ s', event_send_loop todo s clear = (true, Z.lor clear (clears s (e_set (es_event s)) todo), s')
    ∧ sent s s' (e_set (es_event s)) kept todo.
Proof.
  revert kept s clear. induction todo as [|t todo IH]; intros kept s clear Hw El Hf.
  { exists s. split; [unfold clears; simpl; by rewrite Z.lor_0_r |]. by constructor; rewrite ?app_nil_r in *; try done; intros u Hu; apply elem_of_nil in Hu. }
  apply Forall_cons in Hf as [[Hpt [Hpos Hask]] Hf]. set (S := e_set (es_event s)).
  pose proof (w_nodup _ _ Hw) as Hn. apply NoDup_app in Hn as (_ & _ & Hn). apply NoDup_cons in Hn as [Htt _].
  assert (Hskip : satisfied (info s t) S ≠ true →
    ∃ s', event_send_loop todo s clear = (true, Z.lor clear (clears s S (t :: todo)), s') ∧ sent s s' S kept (t :: todo)).
  { intros Hsat. destruct (IH (kept ++ [t]) s clear) as (s' & E & Hs); [by rewrite <-app_assoc.. | done |]. exists s'.
    split; [|by apply sent_skip]. rewrite E. unfold clears, wakes, S. by rewrite filter_cons_False. }
  assert (Hwake : ∀ s1, satisfied (info s t) S = true → es_ts s1 = es_ts s → es_event s1 = es_event s →
    (∀ u, info s1 u = if decide (t = u) then mk_einfo (received (info s t) S) (event_info (info s t)) else info s u) →
    ∃ s', event_send_loop todo (event_wake s1 t) (if flag_set (event_info (info s t)) RT_EVENT_FLAG_CLEAR then Z.lor clear (event_set (info s1 t)) else clear)
      = (true, Z.lor clear (clears s S (t :: todo)), s') ∧ sent s s' S kept (t :: todo)).
  { intros s1 Hsat Ets Eev Hi. destruct (event_wake_ok s1 t kept todo) as (x & Ex & Hw1 & Hpx & Hex & Hsx); [by rewrite Ets | by rewrite Eev | by rewrite Ets |].
    rewrite Ex. set (s2 := with_threads _ _ s1).
    assert (Hi2 : ∀ u, info s2 u = info s1 u) by done. assert (ES : e_set (es_event s2) = S) by (unfold s2; simpl; by rewrite Eev).
    set (c := if flag_set _ _ then _ else clear).
    destruct (IH kept s2 c) as (s' & E & Hs).
    - done.
    - done.
    - rewrite Forall_forall in *. intros u Hu. assert (t ≠ u) by congruence. unfold s2. cbn [with_threads es_ts]. rewrite th_upd_ne by done.
      change (info (with_threads _ _ _) u) with (info s1 u). rewrite Hi, decide_False, Ets by done. by apply Hf.
    - rewrite ES in *. exists s'. split.
      + rewrite E. do 2 f_equal. unfold clears, wakes. rewrite filter_cons_True by done. cbn [foldr].
        assert (Hu : ∀ u, u ∈ todo → info s2 u = info s u) by (intros u Hu; rewrite Hi2, Hi, decide_False; [done | congruence]).
        destruct (wakes_ext s s2 S todo Hu) as (_ & _ & Ec). unfold clears, wakes in Ec. rewrite Ec. unfold c, to_clear.
        destruct (flag_set (event_info (info s t)) RT_EVENT_FLAG_CLEAR); [|done]. rewrite Hi, decide_True by done. by rewrite Z.lor_assoc.
      + apply (sent_step s s2 s' t S kept todo x); try done; [by rewrite <-Ets | by rewrite Hpx, Ets | unfold s2; simpl; by rewrite Eev]. }
  cbn [event_send_loop]. fold S. unfold satisfied in Hskip, Hwake.
  destruct (flag_set (event_info (info s t)) RT_EVENT_FLAG_AND) eqn:EA; [|destruct (flag_set (event_info (info s t)) RT_EVENT_FLAG_OR) eqn:EO; [|done]].
  - destruct (Z.land (event_set (info s t)) S =? event_set (info s t)) eqn:E; [|by apply Hskip]. apply Hwake; try done.
    intros u. unfold received. rewrite EA. case_decide; [subst; by destruct (info s u) | done].
  - cbn [andb] in *. destruct (negb (Z.land (event_set (info s t)) S =? 0)) eqn:E; [|by apply Hskip]. apply Hwake; try done.
    intros u. unfold received. rewrite EA. apply info_with.
Qed.

(** * The invariant *)

(** Exactly the threads on the list are suspended; each asks for something, and what it asks
    for has not happened. *)
Record event_ok (s : esys) : Prop := {
  eo_wait : wait_ok (es_ts s) (e_list (es_event s));
  eo_flag : e_flag (es_event s) = RT_IPC_FLAG_FIFO ∨ e_flag (es_event s) = RT_IPC_FLAG_PRIO;
  eo_order : prio_ordered (es_ts s) (e_flag (es_event s)) (e_list (es_event s));
  eo_set : is_u32 (e_set (es_event s));
  eo_asks : ∀ t, t ∈ e_list (es_event s) → asks (info s t);
  eo_missed : ∀ t, t ∈ e_list (es_event s) → satisfied (info s t) (e_set (es_event s)) = false
}.

(** No waiting thread is between the expiry of its timer and the timeout handler. *)
Definition event_quiet (s : esys) : Prop := Forall (λ t, t_pend (th (es_ts s) t) = false) (e_list (es_event s)).

Lemma u32_lor a b : is_u32 a → is_u32 b → is_u32 (Z.lor a b).
Proof.
  unfold is_u32. intros Ha Hb. assert (Z.lor a b = Z.lor a b mod 2 ^ 32) as ->; [|apply Z.mod_pos_bound; lia].
  rewrite <-Z.land_ones, Z.land_lor_distr_l, !Z.land_ones, !Z.mod_small by lia. done.
Qed.

Lemma u32_ldiff a b : is_u32 a → is_u32 (Z.ldiff a b).
Proof.
  unfold is_u32. intros Ha. assert (Hn : 0 ≤ Z.ldiff a b) by (apply Z.ldiff_nonneg; lia). split; [done |].
  assert (Z.ldiff a b ≤ a); [|lia]. apply Z.ldiff_le; [lia |]. apply Z.bits_inj'. intros n Hn0. rewrite !Z.ldiff_spec, Z.bits_0.
  by destruct (Z.testbit a n), (Z.testbit b n).
Qed.

(** ** Sending *)

Lemma event_send_ok s set :
  event_ok s → event_quiet s → is_u32 set → set ≠ 0 →
  let l := e_list (es_event s) in let S := Z.lor (e_set (es_event s)) set in
  ∃ s', rt_event_send s set = (RT_EOK, s') ∧ event_ok s'
    ∧ e_list (es_event s') = stays s S l ∧ e_set (es_event s') = Z.ldiff S (clears s S l)
    ∧ (∀ t, t ∈ wakes s S l → t_susp (th (es_ts s') t) = false ∧ event_recv_resume s' t = (RT_EOK, Some (received (info s t) S)))
    ∧ (∀ t, t ∉ wakes s S l → th (es_ts s') t = th (es_ts s) t ∧ info s' t = info s t).
Proof.
  intros [Hw Hf Ho Hs Ha Hm] Hq Hset H0 l S. unfold rt_event_send. rewrite (proj2 (Z.eqb_neq _ _) H0). cbv zeta. fold S.
  set (s0 := with_set S s). destruct (send_loop_ok l [] s0 0) as (s1 & E & Hst); [done | done | |].
  { apply Forall_forall. intros t Ht. unfold event_quiet in Hq. rewrite Forall_forall in Hq. split; [by apply Hq | by apply Ha]. }
  change (e_set (es_event s0)) with S in *. change (e_list (es_event s0)) with l. rewrite E. rewrite Z.lor_0_l. change (clears s0 S l) with (clears s S l).
  set (c := clears s S l). set (s' := if negb (c =? 0) then _ else s1).
  assert (Es' : es_ts s' = es_ts s1 ∧ (∀ t, info s' t = info s1 t) ∧ e_list (es_event s') = stays s S l ∧ e_flag (es_event s') = e_flag (es_event s)
    ∧ e_set (es_event s') = Z.ldiff S c).
  { destruct (sn_event _ _ _ _ _ Hst) as [E1 E2]. pose proof (sn_list _ _ _ _ _ Hst) as E3. cbn [app] in E3. change (stays s0 S l) with (stays s S l) in E3.
    unfold s'. destruct (Z.eqb_spec c 0) as [Ec|]; cbn [negb]; split_and!; try done.
    - rewrite E1, Ec. symmetry. apply Z.ldiff_0_r.
    - simpl. by rewrite E1. }
  destruct Es' as (Et & Ei & El & Ef & ES). exists s'.
  assert (Hrest : ∀ t, t ∉ wakes s S l → th (es_ts s') t = th (es_ts s) t ∧ info s' t = info s t).
  { intros t Ht. rewrite Et, Ei. by apply (sn_rest _ _ _ _ _ Hst). }
  assert (Hstay : ∀ t, t ∈ stays s S l → t ∈ l ∧ satisfied (info s t) S = false ∧ info s' t = info s t).
  { intros t [Hns Hin]%list_elem_of_filter. split_and!; [done | by destruct (satisfied (info s t) S) |]. apply Hrest.
    intros [Hsat _]%list_elem_of_filter. done. }
  split_and!; [done | | done | done | | done].
  - constructor.
    + rewrite Et, El. apply (sn_wait _ _ _ _ _ Hst).
    + by rewrite Ef.
    + rewrite Et, El, Ef. eapply prio_ordered_same; [apply (sn_prio _ _ _ _ _ Hst) |]. intros HP. by apply StronglySorted_filter, Ho.
    + rewrite ES. by apply u32_ldiff, u32_lor.
    + intros t. rewrite El. intros (Hin & _ & ->)%Hstay. by apply Ha.
    + intros t. rewrite El, ES. intros (Hin & Hns & ->)%Hstay. destruct (satisfied (info s t) (Z.ldiff S c)) eqn:Esat; [|done].
      apply satisfied_mono in Esat; [congruence |]. destruct (Ha t Hin). lia.
  - intros t Ht. destruct (sn_woken _ _ _ _ _ Hst t Ht) as (H1 & H2 & H3). rewrite Et. split; [done |].
    unfold event_recv_resume. rewrite Et, H2, Ei, H3. done.
Qed.

(** ** Receiving *)

(** Whether a set meets a request. *)
Definition meets (set opt S : Z) : bool := satisfied (mk_einfo set opt) S.

Lemma event_error_ok s t e : event_ok s → event_ok (event_error t e s).
Proof.
  intros [Hw Hf Ho Hs Ha Hm]. constructor; try done; [by apply wait_ok_error |].
  eapply prio_ordered_same; [|exact Ho]. by apply same_prio_upd.
Qed.

Lemma recv_now_ok s t set opt :
  event_ok s → t ∉ e_list (es_event s) → let S := e_set (es_event s) in
  ∃ s', recv_now s t set opt = (Returns RT_EOK, Some (Z.land S set), s') ∧ event_ok s' ∧ e_list (es_event s') = e_list (es_event s)
    ∧ e_set (es_event s') = (if flag_set opt RT_EVENT_FLAG_CLEAR then Z.ldiff S set else S).
Proof.
  intros Hok Ht S. unfold recv_now. cbv zeta. fold S. set (s1 := with_info t _ _). eexists. split; [done |].
  destruct (event_error_ok s t RT_EOK Hok) as [Hw Hf Ho Hs Ha Hm].
  assert (Hi : ∀ u, u ∈ e_list (es_event s) → info s1 u = info s u).
  { intros u Hu. unfold s1. rewrite info_with, decide_False; [done | congruence]. }
  destruct (flag_set opt RT_EVENT_FLAG_CLEAR); (split; [|done]); constructor; try done.
  - by apply u32_ldiff.
  - intros u Hu. change (info (with_set _ s1) u) with (info s1 u). rewrite Hi by done. by apply Ha.
  - intros u Hu. change (info (with_set _ s1) u) with (info s1 u). rewrite Hi by done. cbn [with_set es_event e_set].
    destruct (satisfied (info s u) _) eqn:E; [|done]. apply satisfied_mono in E; [rewrite <-E; by apply (Hm u) | by apply Z.lt_le_incl, (Ha u Hu)].
  - intros u Hu. rewrite Hi by done. by apply Ha.
  - intros u Hu. rewrite Hi by done. by apply Hm.
Qed.

Lemma recv_wait_ok s t set opt timeout :
  event_ok s → t ∉ e_list (es_event s) → asks (mk_einfo set opt) → meets set opt (e_set (es_event s)) = false → timeout ≠ 0 →
  ∃ s', recv_wait (event_error t (- RT_EINTR) s) t set opt timeout = (Blocks, None, s') ∧ event_ok s'
    ∧ e_set (es_event s') = e_set (es_event s) ∧ e_list (es_event s') ≡ₚ t :: e_list (es_event s) ∧ info s' t = mk_einfo set opt.
Proof.
  intros [Hw Hf Ho Hs Ha Hm] Ht Hask Hno Htm. unfold recv_wait. rewrite (proj2 (Z.eqb_neq _ _) Htm). cbv zeta.
  cbn [with_info event_error es_ts es_event es_info].
  destruct (block_spec (es_ts s) _ (e_list (es_event s)) t (e_flag (es_event s)) (- RT_EINTR) timeout Hw Ht Hf) as (ts1 & -> & Hw2 & Hs2 & _ & _).
  change (RT_EOK =? RT_EOK) with true. cbn [negb]. set (l := rt_susp_list_enqueue _ _ _ _) in *. eexists. split; [reflexivity |].
  set (s' := if 0 <? timeout then _ else _).
  assert (El : l ≡ₚ t :: e_list (es_event s)).
  { apply NoDup_Permutation; [apply enqueue_NoDup; [done | apply Hw | done] | by apply NoDup_cons; split; [|apply Hw] |].
    intros u. unfold l. rewrite enqueue_elem by done. set_solver. }
  assert (Es : es_ts s' = (if 0 <? timeout then upd ts1 t (rt_timer_start (th ts1 t)) else ts1) ∧ e_list (es_event s') = l
    ∧ e_flag (es_event s') = e_flag (es_event s) ∧ e_set (es_event s') = e_set (es_event s)
    ∧ ∀ u, info s' u = if decide (t = u) then mk_einfo set opt else info s u).
  { unfold s'. destruct (0 <? timeout); split_and!; try done; intros u; exact (info_with s t _ u). }
  destruct Es as (Et & Ell & Ef & ES & Ei). split_and!; [|done | by rewrite Ell | by rewrite Ei, decide_True]. constructor.
  - rewrite Et, Ell. eapply wait_ok_perm; [|exact Hw2]. by symmetry.
  - by rewrite Ef.
  - rewrite Et, Ell, Ef. eapply prio_ordered_same; [exact Hs2 |]. by apply enqueue_ordered.
  - by rewrite ES.
  - intros u. rewrite Ell, El, Ei. intros [-> | Hu]%elem_of_cons; [by rewrite decide_True |]. rewrite decide_False by congruence. by apply Ha.
  - intros u. rewrite Ell, El, Ei, ES. intros [-> | Hu]%elem_of_cons; [by rewrite decide_True |]. rewrite decide_False by congruence. by apply Hm.
Qed.

Lemma event_recv_ok s t set opt timeout :
  event_ok s → t_susp (th (es_ts s) t) = false → is_u32 set → set ≠ 0 →
  flag_set opt RT_EVENT_FLAG_AND || flag_set opt RT_EVENT_FLAG_OR = true →
  let S := e_set (es_event s) in
  ∃ c r s', rt_event_recv s t set opt timeout = Some (c, r, s') ∧ event_ok s'
    ∧ (if meets set opt S then
         c = Returns RT_EOK ∧ r = Some (Z.land S set) ∧ e_list (es_event s') = e_list (es_event s)
         ∧ e_set (es_event s') = (if flag_set opt RT_EVENT_FLAG_CLEAR then Z.ldiff S set else S)
       else e_set (es_event s') = S ∧ r = None ∧
         (if timeout =? 0 then c = Returns (- RT_ETIMEOUT) ∧ e_list (es_event s') = e_list (es_event s)
          else c = Blocks ∧ e_list (es_event s') ≡ₚ t :: e_list (es_event s) ∧ info s' t = mk_einfo set opt)).
Proof.
  intros Hok Hrun Hset H0 Hopt S. set (s0 := event_error t (- RT_EINTR) s).
  assert (Hok0 : event_ok s0) by (by apply event_error_ok).
  assert (E : rt_event_recv s t set opt timeout = Some (if meets set opt S then recv_now s0 t set opt else recv_wait s0 t set opt timeout)).
  { unfold rt_event_recv, _rt_event_recv. rewrite (proj2 (Z.eqb_neq _ _) H0). cbv zeta. fold s0. change (e_set (es_event s0)) with S.
    unfold meets, satisfied. cbn [event_info event_set]. rewrite (Z.land_comm set S). destruct (flag_set opt RT_EVENT_FLAG_AND); [done |].
    cbn [orb] in Hopt. by rewrite Hopt. }
  rewrite E. destruct (meets set opt S) eqn:Em.
  - destruct (recv_now_ok s0 t set opt Hok0) as (s' & -> & Hok' & El & ES); [by apply (not_susp (es_ts s)); [apply Hok |] |].
    eexists _, _, s'. by split_and!.
  - assert (Ht : t ∉ e_list (es_event s)) by (by apply (not_susp (es_ts s)); [apply Hok |]).
    destruct (Z.eqb_spec timeout 0) as [-> | Htm].
    + eexists _, _, _. split; [reflexivity |]. split_and!; try done. by apply event_error_ok.
    + destruct (recv_wait_ok s t set opt timeout Hok Ht) as (s' & E' & Hok' & ES & El & Ei); [|done | done |].
      { split; [|done]. simpl. unfold is_u32 in Hset. lia. }
      fold s0 in E'. rewrite E'. eexists _, _, s'. by split_and!.
Qed.

(** * Any state, also between an expiry and its handler *)

(** The waiting threads a send wakes and leaves: the timer of a woken thread has not expired. *)
Definition wakeable (s : esys) (set : Z) (t : nat) : bool := satisfied (info s t) set && negb (timed_out (th (es_ts s) t)).
Definition woken (s : esys) (set : Z) (l : list nat) : list nat := filter (λ t, wakeable s set t = true) l.
Definition left_over (s : esys) (set : Z) (l : list nat) : list nat := filter (λ t, wakeable s set t ≠ true) l.

Lemma event_wake_any s t kept todo :
  wait_any (es_ts s) (kept ++ t :: todo) → e_list (es_event s) = kept ++ t :: todo →
  let b := timed_out (th (es_ts s) t) in let l := kept ++ (if b then [t] else []) ++ todo in
  ∃ x, event_wake s t = with_threads (upd (es_ts s) t x) l s ∧ wait_any (upd (es_ts s) t x) l
    ∧ t_error x = RT_EOK ∧ (if b then t_pend x = true else t_susp x = false).
Proof.
  intros Hw El. unfold event_wake. rewrite El. pose proof (a_nodup _ _ Hw) as Hn.
  apply NoDup_app in Hn as (Hk & Hkt & Ht). apply NoDup_cons in Ht as [Htt _].
  assert (Htk : t ∉ kept) by (intros Hin; apply (Hkt t Hin); by left).
  assert (Hr : list_remove (kept ++ t :: todo) t = kept ++ todo).
  { unfold list_remove. rewrite filter_app, filter_cons_False by (by intros H; apply H). fold (list_remove kept t) (list_remove todo t).
    by rewrite !list_remove_notin. }
  pose proof (ready_any (es_ts s) _ (kept ++ t :: todo) t Hw ltac:(set_solver)) as Hx. rewrite Hr in Hx.
  pose proof (timed_out_pend (es_ts s) _ t Hw ltac:(set_solver)) as Hp.
  destruct (timed_out (th (es_ts s) t)); destruct Hx as (x & -> & _ & _ & Hx & Hw'); exists (set_error x RT_EOK); rewrite th_upd_eq;
    (split_and!; [unfold with_threads; f_equal; unfold upd; by rewrite insert_insert_eq | | done |]).
  - pose proof (wait_any_error _ _ t RT_EOK Hw') as Hw2. rewrite th_upd_eq in Hw2. unfold upd in *. by rewrite insert_insert_eq in Hw2.
  - simpl. rewrite Hx. by apply Hp.
  - pose proof (wait_any_error _ _ t RT_EOK Hw') as Hw2. rewrite th_upd_eq in Hw2. unfold upd in *. by rewrite insert_insert_eq in Hw2.
  - done.
Qed.

(** What a send does to a waiting thread. *)
Definition served (s s' : esys) (set : Z) (u : nat) : Prop :=
  if satisfied (info s u) set then
    info s' u = mk_einfo (received (info s u) set) (event_info (info s u)) ∧ t_error (th (es_ts s') u) = RT_EOK
    ∧ (if timed_out (th (es_ts s) u) then t_pend (th (es_ts s') u) = true else t_susp (th (es_ts s') u) = false)
  else th (es_ts s') u = th (es_ts s) u ∧ info s' u = info s u.

Record sent_any (s s' : esys) (set : Z) (kept todo : list nat) : Prop := {
  sx_list : e_list (es_event s') = kept ++ left_over s set todo;
  sx_wait : wait_any (es_ts s') (kept ++ left_over s set todo);
  sx_event : e_set (es_event s') = e_set (es_event s) ∧ e_flag (es_event s') = e_flag (es_event s);
  sx_rest : ∀ u, u ∉ todo → th (es_ts s') u = th (es_ts s) u ∧ info s' u = info s u;
  sx_served : ∀ u, u ∈ todo → served s s' set u
}.

(** The threads of [todo] are the same in both states. *)
Definition same_todo (s s' : esys) (todo : list nat) : Prop :=
  ∀ u, u ∈ todo → th (es_ts s') u = th (es_ts s) u ∧ info s' u = info s u.

Lemma left_over_ext s s' set todo : same_todo s s' todo → left_over s' set todo = left_over s set todo.
Proof. intros H. apply filter_ext_in. intros u Hu. unfold wakeable. by destruct (H u Hu) as [-> ->]. Qed.

Lemma sent_any_skip s s' set kept t todo :
  sent_any s s' set (kept ++ [t]) todo → t ∉ todo → satisfied (info s t) set ≠ true → sent_any s s' set kept (t :: todo).
Proof.
  intros [H1 H2 H3 H4 H5] Ht Hsat. apply not_true_is_false in Hsat.
  assert (El : left_over s set (t :: todo) = t :: left_over s set todo).
  { unfold left_over. rewrite filter_cons_True; [done |]. unfold wakeable. by rewrite Hsat. }
  constructor; rewrite ?El; rewrite <-?app_assoc in *; try done.
  - intros u Hu. apply H4. set_solver.
  - intros u [-> | Hu]%elem_of_cons; [|by apply H5]. unfold served. rewrite Hsat. by apply H4.
Qed.

Lemma sent_any_step s s1 s2 t set kept todo x :
  let b := timed_out (th (es_ts s) t) in
  sent_any s1 s2 set (kept ++ (if b then [t] else [])) todo → t ∉ todo → satisfied (info s t) set = true →
  (∀ u, info s1 u = if decide (t = u) then mk_einfo (received (info s t) set) (event_info (info s t)) else info s u) →
  es_ts s1 = upd (es_ts s) t x → t_error x = RT_EOK → (if b then t_pend x = true else t_susp x = false) →
  e_set (es_event s1) = e_set (es_event s) → e_flag (es_event s1) = e_flag (es_event s) →
  sent_any s s2 set kept (t :: todo).
Proof.
  intros b [H1 H2 H3 H4 H5] Ht Hsat Hi Ets He Hb E1 E2.
  assert (Hsame : same_todo s s1 todo).
  { intros u Hu. rewrite Ets, Hi, th_upd_ne, decide_False by congruence. done. }
  assert (El : kept ++ left_over s set (t :: todo) = (kept ++ (if b then [t] else [])) ++ left_over s1 set todo).
  { rewrite (left_over_ext s s1 set todo Hsame), <-app_assoc. f_equal. unfold left_over, wakeable, b. destruct (timed_out (th (es_ts s) t)) eqn:Eb.
    - rewrite filter_cons_True; [done |]. by rewrite Eb, andb_false_r.
    - rewrite filter_cons_False; [done |]. rewrite Hsat, Eb. by intros H. }
  constructor; rewrite ?El; try done.
  - by rewrite <-E1, <-E2.
  - intros u Hu. destruct (H4 u) as [-> ->]; [set_solver |]. rewrite Ets, Hi, th_upd_ne, decide_False by set_solver. done.
  - intros u [-> | Hu]%elem_of_cons.
    + unfold served. rewrite Hsat. destruct (H4 t Ht) as [-> ->]. rewrite Hi, decide_True, Ets, th_upd_eq by done. done.
    + specialize (H5 u Hu). unfold served in *. by destruct (Hsame u Hu) as [<- <-].
Qed.

Lemma send_loop_any todo kept s clear :
  wait_any (es_ts s) (kept ++ todo) → e_list (es_event s) = kept ++ todo → Forall (λ t, asks (info s t)) todo →
  ∃ s', event_send_loop todo s clear = (true, Z.lor clear (clears s (e_set (es_event s)) todo), s')
    ∧ sent_any s s' (e_set (es_event s)) kept todo.
Proof.
  revert kept s clear. induction todo as [|t todo IH]; intros kept s clear Hw El Hf.
  { exists s. split; [unfold clears; simpl; by rewrite Z.lor_0_r |]. constructor; rewrite ?app_nil_r in *; try done; intros u Hu; by apply elem_of_nil in Hu. }
  apply Forall_cons in Hf as [[Hpos Hask] Hf]. set (S := e_set (es_event s)).
  pose proof (a_nodup _ _ Hw) as Hn. apply NoDup_app in Hn as (_ & _ & Hn). apply NoDup_cons in Hn as [Htt _].
  assert (Hskip : satisfied (info s t) S ≠ true →
    ∃ s', event_send_loop todo s clear = (true, Z.lor clear (clears s S (t :: todo)), s') ∧ sent_any s s' S kept (t :: todo)).
  { intros Hsat. destruct (IH (kept ++ [t]) s clear) as (s' & E & Hs); [by rewrite <-app_assoc.. | done |]. exists s'.
    split; [|by apply sent_any_skip]. rewrite E. unfold clears, wakes, S. by rewrite filter_cons_False. }
  assert (Hwake : ∀ s1, satisfied (info s t) S = true → es_ts s1 = es_ts s → es_event s1 = es_event s →
    (∀ u, info s1 u = if decide (t = u) then mk_einfo (received (info s t) S) (event_info (info s t)) else info s u) →
    ∃ s', event_send_loop todo (event_wake s1 t) (if flag_set (event_info (info s t)) RT_EVENT_FLAG_CLEAR then Z.lor clear (event_set (info s1 t)) else clear)
      = (true, Z.lor clear (clears s S (t :: todo)), s') ∧ sent_any s s' S kept (t :: todo)).
  { intros s1 Hsat Ets Eev Hi. destruct (event_wake_any s1 t kept todo) as (x & Ex & Hw1 & Hex & Hbx); [by rewrite Ets | by rewrite Eev |].
    rewrite Ets in Ex, Hw1, Hbx. rewrite app_assoc in Ex, Hw1.
    set (k := kept ++ (if timed_out (th (es_ts s) t) then [t] else [])) in *.
    rewrite Ex. set (s2 := with_threads _ _ s1).
    assert (Hi2 : ∀ u, info s2 u = info s1 u) by done. assert (ES : e_set (es_event s2) = S) by (unfold s2; simpl; by rewrite Eev).
    set (c := if flag_set _ _ then _ else clear).
    assert (Hu : ∀ u, u ∈ todo → info s2 u = info s u) by (intros u Hu; rewrite Hi2, Hi, decide_False; [done | congruence]).
    destruct (IH k s2 c) as (s' & E & Hs).
    - done.
    - done.
    - rewrite Forall_forall in *. intros u Hin. rewrite Hu by done. by apply Hf.
    - rewrite ES in *. exists s'. split.
      + rewrite E. do 2 f_equal. unfold clears, wakes. rewrite filter_cons_True by done. cbn [foldr].
        destruct (wakes_ext s s2 S todo Hu) as (_ & _ & Ec). unfold clears, wakes in Ec. rewrite Ec. unfold c, to_clear.
        destruct (flag_set (event_info (info s t)) RT_EVENT_FLAG_CLEAR); [|done]. rewrite Hi, decide_True by done. by rewrite Z.lor_assoc.
      + apply (sent_any_step s s2 s' t S kept todo x); try done; unfold s2; simpl; by rewrite Eev. }
  cbn [event_send_loop]. fold S. unfold satisfied in Hskip, Hwake.
  destruct (flag_set (event_info (info s t)) RT_EVENT_FLAG_AND) eqn:EA; [|destruct (flag_set (event_info (info s t)) RT_EVENT_FLAG_OR) eqn:EO; [|done]].
  - destruct (Z.land (event_set (info s t)) S =? event_set (info s t)) eqn:E; [|by apply Hskip]. apply Hwake; try done.
    intros u. unfold received. rewrite EA. case_decide; [subst; by destruct (info s u) | done].
  - cbn [andb] in *. destruct (negb (Z.land (event_set (info s t)) S =? 0)) eqn:E; [|by apply Hskip]. apply Hwake; try done.
    intros u. unfold received. rewrite EA. apply info_with.
Qed.

(** The threads on the list are the suspended ones; one whose condition holds is timing out. *)
Record event_any (s : esys) : Prop := {
  ea_wait : wait_any (es_ts s) (e_list (es_event s));
  ea_flag : e_flag (es_event s) = RT_IPC_FLAG_FIFO ∨ e_flag (es_event s) = RT_IPC_FLAG_PRIO;
  ea_set : is_u32 (e_set (es_event s));
  ea_asks : ∀ t, t ∈ e_list (es_event s) → asks (info s t);
  ea_missed : ∀ t, t ∈ e_list (es_event s) → satisfied (info s t) (e_set (es_event s)) = true → t_pend (th (es_ts s) t) = true
}.

Lemma event_ok_any s : event_ok s → event_any s.
Proof. intros []. constructor; try done; [by apply wait_any_ok |]. intros t Ht E. by rewrite eo_missed0 in E. Qed.

(** What a thread was told it could ask for. *)
Lemma received_asks i set :
  asks i → satisfied i set = true → asks (mk_einfo (received i set) (event_info i)).
Proof.
  intros Ha Hs. destruct (satisfied_received i set Ha Hs) as (Hne & _ & _). destruct Ha as [Hp Hf]. split; [|done]. simpl.
  unfold received in *. destruct (flag_set (event_info i) RT_EVENT_FLAG_AND); [done |].
  pose proof (proj2 (Z.land_nonneg (event_set i) set) ltac:(lia)). lia.
Qed.

Lemma event_send_any s set :
  event_any s → is_u32 set → set ≠ 0 →
  let l := e_list (es_event s) in let S := Z.lor (e_set (es_event s)) set in
  ∃ s', rt_event_send s set = (RT_EOK, s') ∧ event_any s'
    ∧ e_list (es_event s') = left_over s S l ∧ e_set (es_event s') = Z.ldiff S (clears s S l)
    ∧ ∀ t, t ∈ woken s S l → t_susp (th (es_ts s') t) = false ∧ event_recv_resume s' t = (RT_EOK, Some (received (info s t) S)).
Proof.
  intros [Hw Hf Hs Ha Hm] Hset H0 l S. unfold rt_event_send. rewrite (proj2 (Z.eqb_neq _ _) H0). cbv zeta. fold S.
  set (s0 := with_set S s). destruct (send_loop_any l [] s0 0) as (s1 & E & Hst); [done | done | by apply Forall_forall |].
  change (e_set (es_event s0)) with S in *. change (e_list (es_event s0)) with l. rewrite E. rewrite Z.lor_0_l. change (clears s0 S l) with (clears s S l).
  set (c := clears s S l). set (s' := if negb (c =? 0) then _ else s1).
  assert (Es' : es_ts s' = es_ts s1 ∧ (∀ t, info s' t = info s1 t) ∧ e_list (es_event s') = left_over s S l ∧ e_flag (es_event s') = e_flag (es_event s)
    ∧ e_set (es_event s') = Z.ldiff S c).
  { destruct (sx_event _ _ _ _ _ Hst) as [E1 E2]. pose proof (sx_list _ _ _ _ _ Hst) as E3. cbn [app] in E3. change (left_over s0 S l) with (left_over s S l) in E3.
    unfold s'. destruct (Z.eqb_spec c 0) as [Ec|]; cbn [negb]; split_and!; try done.
    - rewrite E1, Ec. symmetry. apply Z.ldiff_0_r.
    - simpl. by rewrite E1. }
  destruct Es' as (Et & Ei & El & Ef & ES). exists s'.
  assert (Hsv : ∀ t, t ∈ l → served s s1 S t) by apply (sx_served _ _ _ _ _ Hst).
  split_and!; [done | | done | done |].
  - constructor.
    + rewrite Et, El. apply (sx_wait _ _ _ _ _ Hst).
    + by rewrite Ef.
    + rewrite ES. by apply u32_ldiff, u32_lor.
    + intros t. rewrite El, Ei. intros [_ Hin]%list_elem_of_filter. specialize (Hsv t Hin). unfold served in Hsv.
      destruct (satisfied (info s t) S) eqn:Esat; [|destruct Hsv as [_ ->]; by apply Ha]. destruct Hsv as [-> _].
      by apply received_asks; [apply Ha |].
    + intros t. rewrite El, Ei, ES, Et. intros [Hnw Hin]%list_elem_of_filter Hsat. specialize (Hsv t Hin). unfold served in Hsv. unfold wakeable in Hnw.
      apply satisfied_mono in Hsat.
      2: { destruct (satisfied (info s t) S) eqn:Esat; [|destruct Hsv as [_ ->]; apply Z.lt_le_incl, (Ha t Hin)]. destruct Hsv as [-> _].
           apply Z.lt_le_incl. by apply (received_asks (info s t) S); [apply Ha |]. }
      destruct (satisfied (info s t) S) eqn:Esat; [|destruct Hsv as [_ Hi]; rewrite Hi in Hsat; congruence].
      destruct Hsv as (_ & _ & Hp). by destruct (timed_out (th (es_ts s) t)).
  - intros t [Hwk Hin]%list_elem_of_filter. apply andb_true_iff in Hwk as [Hsat Hto%negb_true_iff]. specialize (Hsv t Hin). unfold served in Hsv.
    rewrite Hsat, Hto in Hsv. destruct Hsv as (Hi & He & Hsu). rewrite Et. split; [done |].
    unfold event_recv_resume. by rewrite Et, He, Ei, Hi.
Qed.

Lemma event_error_any s t e : event_any s → event_any (event_error t e s).
Proof.
  intros [Hw Hf Hs Ha Hm]. constructor; try done; [by apply wait_any_error |].
  intros u Hu Hsat. cbn [event_error es_ts]. rewrite th_upd. case_decide; [subst; simpl |]; by apply Hm.
Qed.

Lemma recv_now_any s t set opt :
  event_any s → t ∉ e_list (es_event s) →
  ∃ s', recv_now s t set opt = (Returns RT_EOK, Some (Z.land (e_set (es_event s)) set), s') ∧ event_any s'.
Proof.
  intros Hok Ht. unfold recv_now. cbv zeta. set (s1 := with_info t _ _). eexists. split; [done |].
  destruct (event_error_any s t RT_EOK Hok) as [Hw Hf Hs Ha Hm].
  assert (Hi : ∀ u, u ∈ e_list (es_event s) → info s1 u = info s u).
  { intros u Hu. unfold s1. rewrite info_with, decide_False; [done | congruence]. }
  destruct (flag_set opt RT_EVENT_FLAG_CLEAR); constructor; try done.
  - by apply u32_ldiff.
  - intros u Hu. change (info (with_set _ s1) u) with (info s1 u). rewrite Hi by done. by apply Ha.
  - intros u Hu. change (info (with_set _ s1) u) with (info s1 u). rewrite Hi by done. cbn [with_set es_event e_set].
    intros E. apply satisfied_mono in E; [by apply (Hm u) | by apply Z.lt_le_incl, (Ha u Hu)].
  - intros u Hu. rewrite Hi by done. by apply Ha.
  - intros u Hu. rewrite Hi by done. by apply Hm.
Qed.

Lemma recv_wait_any s t set opt timeout :
  event_any s → t ∉ e_list (es_event s) → asks (mk_einfo set opt) → meets set opt (e_set (es_event s)) = false →
  ∃ c s', recv_wait s t set opt timeout = (c, None, s') ∧ event_any s'.
Proof.
  intros Hok Ht Hask Hno. pose proof Hok as [Hw Hf Hs Ha Hm]. unfold recv_wait.
  destruct (Z.eqb_spec timeout 0) as [->|Htm]; [eexists _, _; split; [done |]; by apply event_error_any |].
  cbv zeta. cbn [with_info es_ts es_event es_info].
  destruct (suspend_any (es_ts s) (e_list (es_event s)) t (e_flag (es_event s)) timeout Hw Ht Hf) as (ts1 & l' & -> & Hl & Hw2 & Hu2).
  change (RT_EOK =? RT_EOK) with true. cbn [negb]. eexists _, _. split; [reflexivity |]. set (s' := if 0 <? timeout then _ else _).
  assert (Es : es_ts s' = (if 0 <? timeout then upd ts1 t (rt_timer_start (th ts1 t)) else ts1) ∧ e_list (es_event s') = l'
    ∧ e_flag (es_event s') = e_flag (es_event s) ∧ e_set (es_event s') = e_set (es_event s)
    ∧ ∀ u, info s' u = if decide (t = u) then mk_einfo set opt else info s u).
  { unfold s'. destruct (0 <? timeout); split_and!; try done; intros u; exact (info_with s t _ u). }
  destruct Es as (Et & Ell & Ef & ES & Ei). constructor.
  - rewrite Et, Ell. by apply (wait_any_perm _ (t :: e_list (es_event s))).
  - by rewrite Ef.
  - by rewrite ES.
  - intros u. rewrite Ell, Hl, Ei. intros [-> | Hu]%elem_of_cons; [by rewrite decide_True |]. rewrite decide_False by congruence. by apply Ha.
  - intros u. rewrite Ell, Hl, Ei, ES, Et. intros [-> | Hu]%elem_of_cons.
    + rewrite decide_True by done. unfold meets in Hno. by rewrite Hno.
    + rewrite decide_False, Hu2 by congruence. by apply Hm.
Qed.

Lemma event_recv_any s t set opt timeout :
  event_any s → t_susp (th (es_ts s) t) = false → is_u32 set → set ≠ 0 →
  flag_set opt RT_EVENT_FLAG_AND || flag_set opt RT_EVENT_FLAG_OR = true →
  ∃ c r s', rt_event_recv s t set opt timeout = Some (c, r, s') ∧ event_any s'
    ∧ (meets set opt (e_set (es_event s)) = true → c = Returns RT_EOK ∧ r = Some (Z.land (e_set (es_event s)) set)).
Proof.
  intros Hok Hrun Hset H0 Hopt. set (S := e_set (es_event s)). set (s0 := event_error t (- RT_EINTR) s).
  assert (Hok0 : event_any s0) by (by apply event_error_any).
  assert (Ht : t ∉ e_list (es_event s0)) by (by apply (any_not_susp (es_ts s)); [apply Hok |]).
  assert (E : rt_event_recv s t set opt timeout = Some (if meets set opt S then recv_now s0 t set opt else recv_wait s0 t set opt timeout)).
  { unfold rt_event_recv, _rt_event_recv. rewrite (proj2 (Z.eqb_neq _ _) H0). cbv zeta. fold s0. change (e_set (es_event s0)) with S.
    unfold meets, satisfied. cbn [event_info event_set]. rewrite (Z.land_comm set S). destruct (flag_set opt RT_EVENT_FLAG_AND); [done |].
    cbn [orb] in Hopt. by rewrite Hopt. }
  rewrite E. destruct (meets set opt S) eqn:Em.
  - destruct (recv_now_any s0 t set opt Hok0 Ht) as (s' & -> & Hok'). by eexists _, _, _.
  - destruct (recv_wait_any s0 t set opt timeout Hok0 Ht) as (c & s' & -> & Hok'); [|done | by eexists _, _, _].
    split; [|done]. simpl. unfold is_u32 in Hset. lia.
Qed.

Lemma resume_all_any_event s :
  event_any s → ∃ ts l, (event_resume_all s).2 = with_threads ts l s ∧ event_any (with_threads ts l s).
Proof.
  intros [Hw Hf Hs Ha Hm]. unfold event_resume_all.
  destruct (resume_all_any (es_ts s) (e_list (es_event s)) RT_ERROR Hw) as (w & ts & l & -> & El & Hw' & _ & _ & Hp); [done |].
  exists ts, l. split; [done |]. constructor; try done; cbn [with_threads es_event e_list e_set es_ts].
  - intros u Hu. apply (Ha u). rewrite El. set_solver.
  - intros u Hu Hsat. rewrite Hp by done. apply (Hm u); [rewrite El; set_solver | done].
Qed.

(** * Runs *)

(** What threads, interrupts and the timer do to an event. *)
Inductive event_op : Type :=
  | Send (set : Z)
  | Recv (t : nat) (set opt timeout : Z)
  | Expire (t : nat)
  | Timeout (t : nat)
  | Control (cmd : Z)
  | Detach.

(** One operation; [None] when an assertion of the kernel fails. *)
Definition event_exec (s : esys) (o : event_op) : option esys :=
  match o with
  | Send set => Some (rt_event_send s set).2
  | Recv t set opt timeout => '(_, s) ← rt_event_recv s t set opt timeout; Some s
  | Expire t => Some (mk_es (timer_expire (es_ts s) t) (es_info s) (es_event s))
  | Timeout t => '(ts, l) ← _thread_timeout (es_ts s) (e_list (es_event s)) t; Some (with_threads ts l s)
  | Control cmd => Some (rt_event_control s cmd).2
  | Detach => Some (rt_event_detach s).2
  end.

(** A thread that is not suspended calls, with one of the two options; only an active timer
    expires; the handler follows the expiry. Everything else can happen at any time, also
    between an expiry and its handler. *)
Definition event_enabled (s : esys) (o : event_op) : Prop :=
  match o with
  | Send set => is_u32 set
  | Recv t set opt _ => t_susp (th (es_ts s) t) = false ∧ is_u32 set ∧ flag_set opt RT_EVENT_FLAG_AND || flag_set opt RT_EVENT_FLAG_OR = true
  | Expire t => t_active (th (es_ts s) t) = true
  | Timeout t => t_pend (th (es_ts s) t) = true
  | Control _ | Detach => True
  end.

(** The operation wakes nobody inside the window of a timeout. *)
Definition quiet_op (s : esys) (o : event_op) : Prop :=
  match o with Send _ | Control _ | Detach => event_quiet s | Recv _ _ _ _ | Expire _ | Timeout _ => True end.

Inductive event_run : esys → list event_op → esys → Prop :=
  | erun_nil s : event_run s [] s
  | erun_step s o s' ops s'' : event_enabled s o → event_exec s o = Some s' → event_run s' ops s'' → event_run s (o :: ops) s''.

(** No send, control or detach of the run falls in the window of a timeout. *)
Fixpoint outside_windows (s : esys) (ops : list event_op) : Prop :=
  match ops with
  | [] => True
  | o :: ops => quiet_op s o ∧ match event_exec s o with Some s => outside_windows s ops | None => True end
  end.

Definition event_start (ts : threads) (flag : Z) : esys := mk_es ts ∅ (rt_event_init flag).

Lemma event_start_ok ts flag : wait_ok ts [] → flag = RT_IPC_FLAG_FIFO ∨ flag = RT_IPC_FLAG_PRIO → event_ok (event_start ts flag).
Proof. intros Hw Hf. constructor; try done; [intros _; constructor | intros t Ht; by apply elem_of_nil in Ht..]. Qed.

Lemma event_resume_all_ok s :
  event_ok s → event_quiet s → ∃ ts, event_resume_all s = (e_list (es_event s), with_threads ts [] s) ∧ event_ok (with_threads ts [] s).
Proof.
  intros [Hw Hf Ho Hs Ha Hm] Hq. unfold event_resume_all.
  destruct (resume_all_spec (es_ts s) (e_list (es_event s)) [] RT_ERROR) as (ts & -> & Hw' & _); [by rewrite app_nil_r | done | done |].
  exists ts. split; [done |]. constructor; try done; [intros _; constructor | intros t Ht; by apply elem_of_nil in Ht..].
Qed.

Lemma event_step_ok s o : event_ok s → event_enabled s o → quiet_op s o → ∃ s', event_exec s o = Some s' ∧ event_ok s'.
Proof.
  intros Hok He Hq. destruct o as [set | t set opt timeout | t | t | cmd | ]; cbn [event_exec event_enabled quiet_op] in *.
  - destruct (decide (set = 0)) as [-> | H0]; [by exists s |].
    destruct (event_send_ok s set Hok Hq He H0) as (s' & -> & Hok' & _). by exists s'.
  - destruct He as (Hrun & Hset & Hopt). destruct (decide (set = 0)) as [-> | H0]; [by exists s |].
    destruct (event_recv_ok s t set opt timeout Hok Hrun Hset H0 Hopt) as (c & r & s' & -> & Hok' & _). by exists s'.
  - destruct Hok as [Hw Hf Ho Hs Ha Hm]. destruct (expire_spec _ _ t Hw He) as [_ Hw']. eexists. split; [done |].
    constructor; try done. eapply prio_ordered_same; [|exact Ho]. by apply same_prio_upd.
  - destruct Hok as [Hw Hf Ho Hs Ha Hm]. destruct (timeout_spec _ _ (e_list (es_event s)) t Hw He) as (x & -> & _ & _ & Hp & Hw').
    eexists. split; [done |]. constructor; try done.
    + apply prio_ordered_remove. eapply prio_ordered_same; [|exact Ho]. by apply same_prio_upd.
    + intros u [_ Hu]%elem_of_list_remove. by apply Ha.
    + intros u [_ Hu]%elem_of_list_remove. by apply Hm.
  - unfold rt_event_control. destruct (cmd =? RT_IPC_CMD_RESET); [|by exists s].
    destruct (event_resume_all_ok s Hok Hq) as (ts & -> & Hok'). eexists. split; [done |]. destruct Hok'. constructor; try done.
    intros t Ht. by apply elem_of_nil in Ht.
  - unfold rt_event_detach. destruct (event_resume_all_ok s Hok Hq) as (ts & -> & Hok'). by eexists.
Qed.

(** Every operation returns, but for the handler of a thread that does not wait any more. *)
Lemma event_step_any s o :
  event_any s → event_enabled s o →
  (∃ t, o = Timeout t ∧ t_susp (th (es_ts s) t) = false ∧ event_exec s o = None) ∨ ∃ s', event_exec s o = Some s' ∧ event_any s'.
Proof.
  intros Hok He. destruct o as [set | t set opt timeout | t | t | cmd | ]; cbn [event_exec event_enabled] in *.
  - right. destruct (decide (set = 0)) as [-> | H0]; [by exists s |].
    destruct (event_send_any s set Hok He H0) as (s' & -> & Hok' & _). by exists s'.
  - right. destruct He as (Hrun & Hset & Hopt). destruct (decide (set = 0)) as [-> | H0]; [by exists s |].
    destruct (event_recv_any s t set opt timeout Hok Hrun Hset H0 Hopt) as (c & r & s' & -> & Hok' & _). by exists s'.
  - right. destruct Hok as [Hw Hf Hs Ha Hm]. eexists. split; [done |]. constructor; try done; [by apply expire_any |].
    intros u Hu Hsat. cbn [es_ts]. unfold timer_expire. rewrite th_upd. case_decide; [done | by apply Hm].
  - destruct Hok as [Hw Hf Hs Ha Hm]. pose proof (timeout_any _ _ (e_list (es_event s)) t Hw) as Ht.
    destruct (t_susp (th (es_ts s) t)) eqn:Esu; [right | left; exists t; by rewrite Ht].
    destruct Ht as (x & -> & _ & _ & _ & Hw'). eexists. split; [done |].
    constructor; try done; cbn [with_threads es_event e_list e_set es_ts].
    + intros u [_ Hu]%elem_of_list_remove. by apply Ha.
    + intros u [Hne Hu]%elem_of_list_remove Hsat. rewrite th_upd_ne by done. by apply Hm.
  - right. unfold rt_event_control. destruct (cmd =? RT_IPC_CMD_RESET); [|by exists s].
    destruct (resume_all_any_event s Hok) as (ts & l & E & Hok'). destruct (event_resume_all s) as [w s1]. cbn in E. subst s1.
    exists (with_set 0 (with_threads ts l s)). split; [done |]. destruct Hok' as [Hw Hf Hs Ha Hm]. constructor; try done.
    intros u Hu. cbn [with_set es_event e_set e_list] in *. destruct (Ha u Hu) as [Hp _]. unfold satisfied.
    change (info (with_set 0 (with_threads ts l s)) u) with (info (with_threads ts l s) u). rewrite Z.land_0_r.
    destruct (flag_set _ RT_EVENT_FLAG_AND); [intros E%Z.eqb_eq; lia |]. by rewrite andb_false_r.
  - right. unfold rt_event_detach. destruct (resume_all_any_event s Hok) as (ts & l & -> & Hok'). by eexists.
Qed.

Lemma event_run_any s ops s' : event_any s → event_run s ops s' → event_any s'.
Proof.
  intros Hok. induction 1 as [|s o s1 ops s2 He E Hr IH]; [done |]. apply IH.
  destruct (event_step_any s o Hok He) as [(t & _ & _ & E') | (s1' & E' & Hok')]; rewrite E in E'; [done |]. by injection E' as ->.
Qed.

Lemma event_run_ok s ops s' : event_ok s → event_run s ops s' → outside_windows s ops → event_ok s'.
Proof.
  intros Hok. induction 1 as [|s o s1 ops s2 He E Hr IH]; [done |]. intros [Hq Hw]. rewrite E in Hw. apply IH; [|done].
  destruct (event_step_ok s o Hok He Hq) as (s1' & E' & Hok'). rewrite E in E'. by injection E' as ->.
Qed.

(** * The claim *)


(** ** Witnesses *)

Definition event_threads : threads := <[1%nat := mk_thread 10 0 false false false false]> (<[2%nat := mk_thread 5 0 false false false false]> ∅).

Lemma event_threads_ready : wait_ok event_threads [].
Proof.
  apply wait_ok_nil. intros t. unfold th, event_threads. destruct (decide (t = 1%nat)) as [-> | H1]; [by rewrite lookup_insert_eq |].
  rewrite lookup_insert_ne by done. destruct (decide (t = 2%nat)) as [-> | H2]; [by rewrite lookup_insert_eq |].
  by rewrite lookup_insert_ne, lookup_empty.
Qed.

#[export] Instance event_enabled_dec s o : Decision (event_enabled s o).
Proof. destruct o; unfold event_enabled, is_u32; apply _. Defined.

Fixpoint event_all (s : esys) (ops : list event_op) : option esys :=
  match ops with
  | [] => Some s
  | o :: ops => if decide (event_enabled s o) then s ← event_exec s o; event_all s ops else None
  end.

Lemma event_all_run s ops s' : event_all s ops = Some s' → event_run s ops s'.
Proof.
  revert s. induction ops as [|o ops IH]; intros s; cbn [event_all]; [intros [= ->]; constructor |].
  case_decide; [|done]. destruct (event_exec s o) as [s1|] eqn:E; [|done]. cbn [mbind option_bind]. intros Hs. by eapply erun_step, IH.
Qed.

(** Thread 1 waits for bits 0 and 1, thread 2 for bit 0 or 2, which it clears. *)
Definition event_demo : list event_op := [Recv 1 3 1 (-1); Recv 2 5 6 10; Send 8].
Definition event_demo_state : esys := default (event_start event_threads 1) (event_all (event_start event_threads 1) event_demo).

Lemma event_demo_run : event_run (event_start event_threads 1) event_demo event_demo_state.
Proof. apply event_all_run. vm_compute. reflexivity. Qed.


(** A send between the expiry of a timer and its handler is lost: the thread is not woken and
    times out, but the bits it asked to clear are gone. *)
Theorem event_lost_in_window :
  let s := default event_demo_state (event_all event_demo_state [Expire 2]) in
  let s' := (rt_event_send s 4).2 in
  e_list (es_event s') = [2%nat; 1%nat] ∧ e_set (es_event s') = 8
  ∧ event_recv_resume (default s' (event_exec s' (Timeout 2))) 2 = (- RT_ETIMEOUT, None).
Proof. vm_compute. split_and!; reflexivity. Qed.
