(* ===== verification/MsgQueue.v ===== *)
(** Message queues of the kernel (rt-thread/src/ipc.c, the rt_mq calls): messages of any length
    up to a maximum, in blocks of a pool that are linked into a queue and a free list.

    A block is taken out of a list in one critical section, filled or read with interrupts on,
    and linked again in a second one, so that several senders and receivers can be in between
    at the same time. Each such part is a definition of its own; the blocking calls are split
    at [rt_schedule] as in [Mailbox]. *)

From S2P Require Import Prelude.
From S2P Require Import RtDef.
From S2P Require Import Kernel.
From S2P Require Import Waiters.
Open Scope Z_scope.

(** * The object *)

(** A block: its header, and the bytes behind it. A pointer to a block is its place in the
    pool. *)
Record rt_mq_message : Type := mk_msg {
  next : option nat;
  msg_length : Z;
  msg_bytes : list Z
}.

(** [mq_flag] is the flag and [receivers] the suspend list of the parent object. *)
Record rt_messagequeue : Type := mk_mq {
  msg_pool : list rt_mq_message;
  msg_size : Z;
  max_msgs : Z;
  entry : Z;
  msg_queue_head : option nat;
  msg_queue_tail : option nat;
  msg_queue_free : option nat;
  mq_flag : Z;
  receivers : list nat;
  suspend_sender_thread : list nat
}.

Definition node (mq : rt_messagequeue) (i : nat) : rt_mq_message := default (mk_msg None 0 []) (msg_pool mq !! i).
#[global] Arguments node : simpl never.

Definition alter_node (f : rt_mq_message → rt_mq_message) (i : nat) (mq : rt_messagequeue) : rt_messagequeue :=
  mk_mq (alter f i (msg_pool mq)) (msg_size mq) (max_msgs mq) (entry mq) (msg_queue_head mq) (msg_queue_tail mq)
    (msg_queue_free mq) (mq_flag mq) (receivers mq) (suspend_sender_thread mq).
Definition set_next (i : nat) (p : option nat) : rt_messagequeue → rt_messagequeue :=
  alter_node (λ m, mk_msg p (msg_length m) (msg_bytes m)) i.
Definition set_ends (head tail : option nat) (mq : rt_messagequeue) : rt_messagequeue :=
  mk_mq (msg_pool mq) (msg_size mq) (max_msgs mq) (entry mq) head tail
    (msg_queue_free mq) (mq_flag mq) (receivers mq) (suspend_sender_thread mq).
Definition set_free (p : option nat) (mq : rt_messagequeue) : rt_messagequeue :=
  mk_mq (msg_pool mq) (msg_size mq) (max_msgs mq) (entry mq) (msg_queue_head mq) (msg_queue_tail mq)
    p (mq_flag mq) (receivers mq) (suspend_sender_thread mq).
Definition set_entry (n : Z) (mq : rt_messagequeue) : rt_messagequeue :=
  mk_mq (msg_pool mq) (msg_size mq) (max_msgs mq) n (msg_queue_head mq) (msg_queue_tail mq)
    (msg_queue_free mq) (mq_flag mq) (receivers mq) (suspend_sender_thread mq).
Definition set_waiting (l k : list nat) (mq : rt_messagequeue) : rt_messagequeue :=
  mk_mq (msg_pool mq) (msg_size mq) (max_msgs mq) (entry mq) (msg_queue_head mq) (msg_queue_tail mq)
    (msg_queue_free mq) (mq_flag mq) l k.

(** * Creation *)

Definition SIZEOF_MQ_MESSAGE : Z := 8.

(** [n] blocks of [size] bytes behind their headers in a piece of memory. The old contents of
    the headers are left out: all of a header is written before it is read. *)
Definition carve (mem : list Z) (size : Z) (n : nat) : list rt_mq_message :=
  map (λ i, mk_msg None 0 (take (Z.to_nat size)
             (drop (Z.to_nat (Z.of_nat i * (size + SIZEOF_MQ_MESSAGE) + SIZEOF_MQ_MESSAGE)) mem))) (seq 0 n).

(** The loop that puts the blocks on the free list. *)
Fixpoint link_free (todo : list nat) (mq : rt_messagequeue) : rt_messagequeue :=
  match todo with
  | [] => mq
  | i :: todo => link_free todo (set_free (Some i) (set_next i (msg_queue_free mq) mq))
  end.

Definition mq_fresh (mem : list Z) (align size max flag : Z) : rt_messagequeue :=
  link_free (seq 0 (Z.to_nat max)) (mk_mq (carve mem align (Z.to_nat max)) size max 0 None None None flag [] []).

(** [None]: refused, without an object that can be used. *)
Definition rt_mq_init (msgpool : list Z) (msg_size pool_size flag : Z) : Z * option rt_messagequeue :=
  let msg_align_size := RT_ALIGN msg_size RT_ALIGN_SIZE in
  let max_msgs := u16 (pool_size / u32 (msg_align_size + SIZEOF_MQ_MESSAGE)) in
  if 0 =? max_msgs then (- RT_EINVAL, None)
  else (RT_EOK, Some (mq_fresh msgpool msg_align_size (u16 msg_size) max_msgs flag)).

(** [alloc]: whether the object can be allocated. [malloc]: the memory of the pool. *)
Definition rt_mq_create (alloc : bool) (malloc : Z → option (list Z)) (msg_size max_msgs flag : Z) : option rt_messagequeue :=
  if negb alloc then None else
  let msg_align_size := RT_ALIGN msg_size RT_ALIGN_SIZE in
  let max_msgs := u16 max_msgs in
  match malloc (u32 (u32 (msg_align_size + SIZEOF_MQ_MESSAGE) * max_msgs)) with
  | None => None
  | Some mem => Some (mq_fresh mem msg_align_size (u16 msg_size) max_msgs flag)
  end.

(** Resuming all receivers, then all senders. *)
Definition mq_resume_both (ts : threads) (mq : rt_messagequeue) : list nat * threads * rt_messagequeue :=
  let '(w1, ts, l1) := rt_susp_list_resume_all ts (receivers mq) RT_ERROR in
  let '(w2, ts, l2) := rt_susp_list_resume_all ts (suspend_sender_thread mq) RT_ERROR in
  (w1 ++ w2, ts, set_waiting l1 l2 mq).

Definition rt_mq_detach (ts : threads) (mq : rt_messagequeue) : Z * list nat * threads * rt_messagequeue :=
  let '(w, ts, mq) := mq_resume_both ts mq in (RT_EOK, w, ts, mq).
Definition rt_mq_delete (ts : threads) (mq : rt_messagequeue) : Z * list nat * threads * rt_messagequeue :=
  let '(w, ts, mq) := mq_resume_both ts mq in (RT_EOK, w, ts, mq).

(** * Sending *)

(** A critical section of a blocking call: the call returns, or blocks with the timeout and
    the tick at which it began to wait, or goes on with a block of its own. *)
Inductive qcall : Type :=
  | QReturns (r : Z)
  | QBlocks (timeout tick : Z)
  | QTakes (msg : nat).

Definition mq_suspend (ts : threads) (l : list nat) (self : nat) (flag timeout tick now : Z) : qcall * threads * list nat :=
  let '(ret, ts, l) := rt_thread_suspend_to_list ts l self flag in
  if negb (ret =? RT_EOK) then (QReturns ret, ts, l)
  else if 0 <? timeout then (QBlocks timeout now, upd ts self (rt_timer_start (th ts self)), l)
  else (QBlocks timeout tick, ts, l).

(** One round of the loop of [_rt_mq_send_wait], or what follows it up to the end of the first
    critical section. *)
Definition mq_send_round (ts : threads) (mq : rt_messagequeue) (self : nat) (timeout tick now : Z)
    : qcall * threads * rt_messagequeue :=
  match msg_queue_free mq with
  | None =>
      let ts := upd ts self (set_error (th ts self) (- RT_EINTR)) in
      if timeout =? 0 then (QReturns (- RT_EFULL), ts, mq) else
      let '(c, ts, l) := mq_suspend ts (suspend_sender_thread mq) self (mq_flag mq) timeout tick now in
      (c, ts, set_waiting (receivers mq) l mq)
  | Some msg => (QTakes msg, ts, set_free (next (node mq msg)) mq)
  end.

(** [_rt_mq_send_wait] up to the first [rt_schedule]; [None] when the assertion on the size
    fails. *)
Definition _rt_mq_send_wait (ts : threads) (mq : rt_messagequeue) (self : nat) (size timeout now : Z)
    : option (qcall * threads * rt_messagequeue) :=
  if size =? 0 then None else
  if msg_size mq <? size then Some (QReturns (- RT_ERROR), ts, mq) else
  if bool_decide (msg_queue_free mq = None) && (timeout =? 0) then Some (QReturns (- RT_EFULL), ts, mq)
  else Some (mq_send_round ts mq self timeout 0 now).

Definition rt_mq_send_wait (ts : threads) (mq : rt_messagequeue) (self : nat) (size timeout now : Z) :=
  _rt_mq_send_wait ts mq self size timeout now.
Definition rt_mq_send (ts : threads) (mq : rt_messagequeue) (self : nat) (size now : Z) :=
  rt_mq_send_wait ts mq self size 0 now.

(** [_rt_mq_send_wait] after [rt_schedule], when the thread runs again. *)
Definition mq_send_resume (ts : threads) (mq : rt_messagequeue) (self : nat) (timeout tick now : Z)
    : qcall * threads * rt_messagequeue :=
  if negb (t_error (th ts self) =? RT_EOK) then (QReturns (t_error (th ts self)), ts, mq)
  else mq_send_round ts mq self (time_left timeout tick now) tick now.

(** The length and the contents are stored in the block; [None] when they run over its end. *)
Definition mq_store (mq : rt_messagequeue) (msg : nat) (buffer : list Z) : option rt_messagequeue :=
  if blen (msg_bytes (node mq msg)) <? blen buffer then None
  else Some (alter_node (λ m, mk_msg (next m) (blen buffer) (memcpy (msg_bytes m) 0 buffer 0 (blen buffer))) msg mq).

(** What [_rt_mq_send_wait] does to the block between the critical sections. *)
Definition mq_send_fill (mq : rt_messagequeue) (msg : nat) (buffer : list Z) : option rt_messagequeue :=
  mq_store (set_next msg None mq) msg buffer.

(** The message is counted and a receiver woken. *)
Definition mq_count (ts : threads) (mq : rt_messagequeue) : Z * list nat * threads * rt_messagequeue :=
  if entry mq <? RT_MQ_ENTRY_MAX then
    let mq := set_entry (entry mq + 1) mq in
    let '(w, ts, l) := wake_first ts (receivers mq) in
    (RT_EOK, w, ts, set_waiting l (suspend_sender_thread mq) mq)
  else (- RT_EFULL, [], ts, mq).

(** The second critical section of [_rt_mq_send_wait]: the block is the new tail. *)
Definition mq_link (ts : threads) (mq : rt_messagequeue) (msg : nat) : Z * list nat * threads * rt_messagequeue :=
  let mq := match msg_queue_tail mq with Some t => set_next t (Some msg) mq | None => mq end in
  let head := match msg_queue_head mq with None => Some msg | Some h => Some h end in
  mq_count ts (set_ends head (Some msg) mq).

(** The first critical section of [rt_mq_urgent], with the checks before it. *)
Definition rt_mq_urgent (mq : rt_messagequeue) (size : Z) : option (qcall * rt_messagequeue) :=
  if size =? 0 then None else
  if msg_size mq <? size then Some (QReturns (- RT_ERROR), mq) else
  match msg_queue_free mq with
  | None => Some (QReturns (- RT_EFULL), mq)
  | Some msg => Some (QTakes msg, set_free (next (node mq msg)) mq)
  end.

(** Its second one: the block is the new head. *)
Definition mq_link_front (ts : threads) (mq : rt_messagequeue) (msg : nat) : Z * list nat * threads * rt_messagequeue :=
  let mq := set_next msg (msg_queue_head mq) mq in
  let tail := match msg_queue_tail mq with None => Some msg | Some t => Some t end in
  mq_count ts (set_ends (Some msg) tail mq).

(** * Receiving *)

(** One round of the loop of [_rt_mq_recv], or what follows it up to the end of the first
    critical section; [None] when it follows a null pointer. *)
Definition mq_recv_round (ts : threads) (mq : rt_messagequeue) (self : nat) (timeout tick now : Z)
    : option (qcall * threads * rt_messagequeue) :=
  if entry mq =? 0 then
    let ts := upd ts self (set_error (th ts self) (- RT_EINTR)) in
    if timeout =? 0 then
      Some (QReturns (- RT_ETIMEOUT), upd ts self (set_error (th ts self) (- RT_ETIMEOUT)), mq) else
    let '(c, ts, l) := mq_suspend ts (receivers mq) self (mq_flag mq) timeout tick now in
    Some (c, ts, set_waiting l (suspend_sender_thread mq) mq)
  else
    msg ← msg_queue_head mq;
    let tail := if decide (msg_queue_tail mq = Some msg) then None else msg_queue_tail mq in
    let mq := set_ends (next (node mq msg)) tail mq in
    Some (QTakes msg, ts, if 0 <? entry mq then set_entry (entry mq - 1) mq else mq).

(** [_rt_mq_recv] up to the first [rt_schedule]. *)
Definition _rt_mq_recv (ts : threads) (mq : rt_messagequeue) (self : nat) (size timeout now : Z)
    : option (qcall * threads * rt_messagequeue) :=
  if size =? 0 then None else
  if (entry mq =? 0) && (timeout =? 0) then Some (QReturns (- RT_ETIMEOUT), ts, mq)
  else mq_recv_round ts mq self timeout 0 now.

Definition rt_mq_recv (ts : threads) (mq : rt_messagequeue) (self : nat) (size timeout now : Z) :=
  _rt_mq_recv ts mq self size timeout now.

(** [_rt_mq_recv] after [rt_schedule]. *)
Definition mq_recv_resume (ts : threads) (mq : rt_messagequeue) (self : nat) (timeout tick now : Z)
    : option (qcall * threads * rt_messagequeue) :=
  if negb (t_error (th ts self) =? RT_EOK) then Some (QReturns (t_error (th ts self)), ts, mq)
  else mq_recv_round ts mq self (time_left timeout tick now) tick now.

(** The copy between the critical sections: [len] and what is stored in the buffer. *)
Definition mq_copy (mq : rt_messagequeue) (msg : nat) (size : Z) : Z * list Z :=
  let len := msg_length (node mq msg) in
  let len := if size <? len then size else len in
  (len, take (Z.to_nat len) (msg_bytes (node mq msg))).

(** The second critical section: the block goes to the free list and a sender is woken. *)
Definition mq_recycle (ts : threads) (mq : rt_messagequeue) (msg : nat) : list nat * threads * rt_messagequeue :=
  let mq := set_free (Some msg) (set_next msg (msg_queue_free mq) mq) in
  let '(w, ts, l) := wake_first ts (suspend_sender_thread mq) in
  (w, ts, set_waiting (receivers mq) l mq).

(** * Reset *)

(** The loop that releases the messages; [None] when the queue is longer than the pool. *)
Fixpoint mq_release_all (fuel : nat) (mq : rt_messagequeue) : option rt_messagequeue :=
  match msg_queue_head mq with
  | None => Some mq
  | Some msg =>
      match fuel with
      | O => None
      | S fuel =>
          let tail := if decide (msg_queue_tail mq = Some msg) then None else msg_queue_tail mq in
          let mq := set_ends (next (node mq msg)) tail mq in
          mq_release_all fuel (set_free (Some msg) (set_next msg (msg_queue_free mq) mq))
      end
  end.

Definition rt_mq_control (ts : threads) (mq : rt_messagequeue) (cmd : Z) : option (Z * list nat * threads * rt_messagequeue) :=
  if cmd =? RT_IPC_CMD_RESET then
    let '(w, ts, mq) := mq_resume_both ts mq in
    mq ← mq_release_all (length (msg_pool mq)) mq;
    Some (RT_EOK, w, ts, set_entry 0 mq)
  else Some (- RT_ERROR, [], ts, mq).

(** * Chains of blocks *)

(** From [p] the links lead through the blocks [l] to the end. *)
Fixpoint chain (mq : rt_messagequeue) (p : option nat) (l : list nat) : Prop :=
  match l with
  | [] => p = None
  | i :: l => p = Some i ∧ chain mq (next (node mq i)) l
  end.

(** The blocks from [p] on, at most [fuel] of them. *)
Fixpoint walk (fuel : nat) (mq : rt_messagequeue) (p : option nat) : list nat :=
  match fuel, p with
  | S fuel, Some i => i :: walk fuel mq (next (node mq i))
  | _, _ => []
  end.

(** The message in a block, and those in the queue. *)
Definition message (m : rt_mq_message) : list Z := take (Z.to_nat (msg_length m)) (msg_bytes m).
Definition contents (mq : rt_messagequeue) : list (list Z) :=
  (λ i, message (node mq i)) <$> walk (length (msg_pool mq)) mq (msg_queue_head mq).

Lemma chain_walk mq p l n : chain mq p l → (length l ≤ n)%nat → walk n mq p = l.
Proof.
  revert p n. induction l as [|i l IH]; intros p n; cbn [chain].
  - intros -> _. by destruct n.
  - intros [-> Hc] Hn. destruct n as [|n]; simpl in Hn; [lia |]. cbn [walk]. f_equal. apply IH; [done | lia].
Qed.

(** Only the links of its blocks matter to a chain. *)
Lemma chain_frame mq mq' p l :
  (∀ i, i ∈ l → next (node mq' i) = next (node mq i)) → chain mq p l → chain mq' p l.
Proof.
  revert p. induction l as [|i l IH]; intros p Hl; cbn [chain]; [done |]. intros [-> Hc]. split; [done |].
  rewrite (Hl i) by (by left). apply IH; [|done]. intros j Hj. apply Hl. by right.
Qed.

Lemma node_alter_eq f i mq : (i < length (msg_pool mq))%nat → node (alter_node f i mq) i = f (node mq i).
Proof.
  intros Hi. unfold node, alter_node. cbn [msg_pool]. rewrite list_lookup_alter_eq.
  by destruct (lookup_lt_is_Some_2 _ _ Hi) as [m ->].
Qed.

Lemma node_alter_ne f i j mq : i ≠ j → node (alter_node f i mq) j = node mq j.
Proof. intros Hne. unfold node, alter_node. cbn [msg_pool]. by rewrite list_lookup_alter_ne. Qed.


(** A block that is linked behind the last one. *)
Lemma chain_snoc mq p l i :
  (i < length (msg_pool mq))%nat → Forall (λ j, j < length (msg_pool mq))%nat l → NoDup l → i ∉ l →
  chain mq p l → next (node mq i) = None →
  chain (match last l with Some j => set_next j (Some i) mq | None => mq end)
    (match l with [] => Some i | _ => p end) (l ++ [i]).
Proof.
  intros Hi Hb Hn Hil Hc Hnil. revert p Hc. induction l as [|j l IH]; intros p Hc; [by cbn |].
  apply Forall_cons in Hb as [Hj Hb]. apply NoDup_cons in Hn as [Hjl Hn]. apply not_elem_of_cons in Hil as [Hij Hil].
  destruct Hc as [-> Hc]. destruct l as [|k l].
  - cbn in Hc |- *. split; [done |]. unfold set_next. rewrite node_alter_eq by done. split; [done |]. by rewrite node_alter_ne.
  - specialize (IH Hb Hn Hil _ Hc). change (last (j :: k :: l)) with (last (k :: l)). cbn [app chain]. split; [done |].
    destruct (last (k :: l)) as [z|] eqn:Ez; [|done]. assert (z ≠ j) by (intros ->; by apply Hjl, last_Some_elem_of).
    unfold set_next at 1. rewrite node_alter_ne by done. exact IH.
Qed.

(** * The shape of a queue *)

(** The message of the block is within it. *)
Definition fits (mq : rt_messagequeue) (i : nat) : Prop := 0 ≤ msg_length (node mq i) ≤ msg_size mq.

(** The queue consists of the blocks [Lq] and the free list of [Lf]; [Bs] are the blocks that
    belong to a call. Each block is in one place. *)
Record shape (mq : rt_messagequeue) (Lq Lf Bs : list nat) : Prop := {
  sh_queue : chain mq (msg_queue_head mq) Lq;
  sh_free : chain mq (msg_queue_free mq) Lf;
  sh_tail : msg_queue_tail mq = last Lq;
  sh_part : Lq ++ Lf ++ Bs ≡ₚ seq 0 (length (msg_pool mq));
  sh_entry : entry mq = blen Lq;
  sh_max : max_msgs mq = blen (msg_pool mq);
  sh_range : max_msgs mq ≤ 65535;
  sh_bytes : ∀ i, (i < length (msg_pool mq))%nat → msg_size mq ≤ blen (msg_bytes (node mq i));
  sh_msgs : ∀ i, i ∈ Lq → fits mq i
}.

Section shape.
Context (mq : rt_messagequeue) (Lq Lf Bs : list nat).
Context (Hs : shape mq Lq Lf Bs).

Lemma shape_nodup : NoDup (Lq ++ Lf ++ Bs).
Proof using Hs. rewrite (sh_part _ _ _ _ Hs). apply NoDup_seq. Qed.

Lemma shape_bound i : i ∈ Lq ++ Lf ++ Bs → (i < length (msg_pool mq))%nat.
Proof using Hs. rewrite (sh_part _ _ _ _ Hs), elem_of_seq. lia. Qed.

(** A block is on one list only. *)
Lemma shape_sep i : (i ∈ Lq → i ∉ Lf ∧ i ∉ Bs) ∧ (i ∈ Lf → i ∉ Bs).
Proof using Hs.
  pose proof shape_nodup as Hn. apply NoDup_app in Hn as (_ & H1 & Hn). apply NoDup_app in Hn as (_ & H2 & _). set_solver.
Qed.

Lemma shape_count : blen Lq + blen Lf + blen Bs = max_msgs mq.
Proof using Hs.
  rewrite (sh_max _ _ _ _ Hs). pose proof (Permutation_length (sh_part _ _ _ _ Hs)) as E. rewrite length_seq in E.
  unfold blen. rewrite !length_app in E. lia.
Qed.

Lemma shape_contents : contents mq = (λ i, message (node mq i)) <$> Lq.
Proof using Hs.
  unfold contents. rewrite (chain_walk mq _ Lq _ (sh_queue _ _ _ _ Hs)); [done |].
  pose proof shape_count as E. rewrite (sh_max _ _ _ _ Hs) in E. unfold blen in E. lia.
Qed.

Lemma shape_blen : blen (contents mq) = entry mq.
Proof using Hs. rewrite shape_contents, (sh_entry _ _ _ _ Hs). len. Qed.

Lemma shape_perm Bs' : Bs ≡ₚ Bs' → shape mq Lq Lf Bs'.
Proof using Hs. intros E. destruct Hs. constructor; try done. by rewrite <-E. Qed.

(** The suspend lists are not part of it. *)
Lemma shape_waiting l k : shape (set_waiting l k mq) Lq Lf Bs ∧ contents (set_waiting l k mq) = contents mq.
Proof using Hs.
  assert (shape (set_waiting l k mq) Lq Lf Bs) as Hs'.
  { destruct Hs. constructor; try done; (eapply chain_frame; [|done]); done. }
  split; [done |]. rewrite shape_contents. unfold contents.
  by rewrite (chain_walk _ _ _ _ (sh_queue _ _ _ _ Hs')) by (rewrite <-length_seq with (start := 0%nat), <-(sh_part _ _ _ _ Hs'), length_app; lia).
Qed.

(** ** Taking a block *)

Lemma shape_full : msg_queue_free mq = None → Lf = [].
Proof using Hs. pose proof (sh_free _ _ _ _ Hs) as Hf. intros E. destruct Lf; [done |]. destruct Hf as [Hf _]. congruence. Qed.

Lemma shape_take_free i :
  msg_queue_free mq = Some i →
  ∃ Lf', Lf = i :: Lf' ∧ shape (set_free (next (node mq i)) mq) Lq Lf' (i :: Bs).
Proof using Hs.
  pose proof Hs as []. intros E. destruct Lf as [|j Lf']; cbn [chain] in sh_free0; [congruence |].
  destruct sh_free0 as [Ej Hc]. assert (j = i) as -> by congruence. exists Lf'. split; [done |].
  constructor; try done; try (eapply chain_frame; [|done]; done).
  cbn [set_free msg_pool]. rewrite <-sh_part0. apply Permutation_app_head. simpl. by rewrite Permutation_middle.
Qed.

Lemma shape_take_head :
  entry mq ≠ 0 →
  ∃ i Lq', Lq = i :: Lq' ∧ msg_queue_head mq = Some i
    ∧ let tail := if decide (msg_queue_tail mq = Some i) then None else msg_queue_tail mq in
      shape (set_entry (entry mq - 1) (set_ends (next (node mq i)) tail mq)) Lq' Lf (i :: Bs).
Proof using Hs.
  pose proof Hs as []. pose proof shape_nodup as Hn. intros He. destruct Lq as [|i Lq']; [done |]. destruct sh_queue0 as [Eh Hc].
  exists i, Lq'. split_and!; [done | done |]. intros tail. constructor; try done; try (eapply chain_frame; [|done]; done).
  - subst tail. cbn [set_entry set_ends msg_queue_tail]. rewrite sh_tail0. destruct Lq' as [|j Lq']; [by rewrite decide_True |].
    change (last (i :: j :: Lq')) with (last (j :: Lq')). rewrite decide_False; [done |]. intros Hl%last_Some_elem_of.
    simpl in Hn. apply NoDup_cons in Hn as [Hn _]. set_solver.
  - cbn [set_entry set_ends msg_pool]. rewrite <-sh_part0. simpl. by rewrite <-!Permutation_middle.
  - cbn [set_entry set_ends entry]. rewrite sh_entry0. len.
  - intros j Hj. apply sh_msgs0. by right.
Qed.

End shape.

(** ** Changing a block of a call *)

Lemma shape_alter mq Lq Lf Bs i f :
  shape mq Lq Lf Bs → i ∈ Bs → msg_size mq ≤ blen (msg_bytes (f (node mq i))) → shape (alter_node f i mq) Lq Lf Bs.
Proof.
  intros Hs Hi Hf. pose proof Hs as []. pose proof (shape_sep _ _ _ _ Hs) as Hsep.
  assert (Hne : ∀ j, j ∈ Lq ∨ j ∈ Lf → node (alter_node f i mq) j = node mq j).
  { intros j Hj. apply node_alter_ne. intros ->. destruct (Hsep j). naive_solver. }
  assert (Hl : length (msg_pool (alter_node f i mq)) = length (msg_pool mq)) by apply length_alter.
  constructor; try done.
  - eapply chain_frame; [|done]. intros j Hj. rewrite Hne by auto. done.
  - eapply chain_frame; [|done]. intros j Hj. rewrite Hne by auto. done.
  - by rewrite Hl.
  - unfold blen. by rewrite Hl.
  - intros j. rewrite Hl. intros Hj. destruct (decide (i = j)) as [<- | Hij]; [by rewrite node_alter_eq |].
    rewrite node_alter_ne by done. by apply sh_bytes0.
  - intros j Hj. unfold fits. rewrite Hne by auto. by apply sh_msgs0.
Qed.

Lemma contents_alter mq Lq Lf Bs i f :
  shape mq Lq Lf Bs → i ∈ Bs → msg_size mq ≤ blen (msg_bytes (f (node mq i))) → contents (alter_node f i mq) = contents mq.
Proof.
  intros Hs Hi Hf. rewrite (shape_contents _ _ _ _ Hs), (shape_contents _ _ _ _ (shape_alter _ _ _ _ _ _ Hs Hi Hf)).
  apply list_fmap_ext. intros k j Hk%list_elem_of_lookup_2. rewrite node_alter_ne; [done |]. intros ->.
  by apply (shape_sep _ _ _ _ Hs) in Hk as [_ Hk].
Qed.

(** ** Filling a block *)

Definition stored (buffer : list Z) (m : rt_mq_message) : rt_mq_message :=
  mk_msg (next m) (blen buffer) (memcpy (msg_bytes m) 0 buffer 0 (blen buffer)).

Lemma stored_message m buffer :
  blen buffer ≤ blen (msg_bytes m) → message (stored buffer m) = buffer ∧ blen (msg_bytes (stored buffer m)) = blen (msg_bytes m).
Proof.
  intros Hb. pose proof (blen_nonneg buffer). unfold message, stored. cbn [msg_length msg_bytes]. split.
  - unfold memcpy. change (take (Z.to_nat 0) (msg_bytes m)) with (@nil Z). cbn [app]. rewrite drop_0, (take_ge buffer) by len. rewrite take_app_le by len. by rewrite take_ge by len.
  - unfold blen. rewrite memcpy_length; len.
Qed.

Lemma alter_alter {A} (f g : A → A) i (l : list A) : alter g i (alter f i l) = alter (λ x, g (f x)) i l.
Proof. revert i. induction l as [|x l IH]; intros [|i]; [done | done | done |]. cbn. f_equal. apply IH. Qed.

(** A send and an urgent send fill the block of their own, within its bounds. *)
Lemma mq_fill_ok mq Lq Lf Bs i buffer (urgent : bool) :
  shape mq Lq Lf Bs → i ∈ Bs → blen buffer ≤ msg_size mq →
  ∃ f, (if urgent then mq_store mq i buffer else mq_send_fill mq i buffer) = Some (alter_node f i mq)
    ∧ shape (alter_node f i mq) Lq Lf Bs ∧ contents (alter_node f i mq) = contents mq
    ∧ message (node (alter_node f i mq) i) = buffer ∧ msg_length (node (alter_node f i mq) i) = blen buffer
    ∧ (urgent = false → next (node (alter_node f i mq) i) = None).
Proof.
  intros Hs Hi Hb. assert (Hlt : (i < length (msg_pool mq))%nat) by (apply (shape_bound _ _ _ _ Hs); set_solver).
  pose proof (sh_bytes _ _ _ _ Hs i Hlt) as Hby.
  set (f := if urgent then stored buffer else λ m, stored buffer (mk_msg None (msg_length m) (msg_bytes m))). exists f.
  assert (Hf : ∀ m, blen buffer ≤ blen (msg_bytes m) → message (f m) = buffer ∧ blen (msg_bytes (f m)) = blen (msg_bytes m) ∧ msg_length (f m) = blen buffer).
  { intros m Hm. subst f. destruct urgent; [destruct (stored_message m buffer Hm) | destruct (stored_message (mk_msg None (msg_length m) (msg_bytes m)) buffer Hm)]; done. }
  destruct (Hf (node mq i)) as (H1 & H2 & H3); [lia |]. split_and!.
  - unfold mq_send_fill, mq_store, set_next. destruct urgent; [|rewrite node_alter_eq by done; cbn [msg_bytes]];
      rewrite (proj2 (Z.ltb_ge _ _)) by lia; [done |].
    unfold alter_node. cbn [msg_pool]. by rewrite alter_alter.
  - apply shape_alter; [done | done |]. lia.
  - eapply contents_alter; [done | done |]. lia.
  - by rewrite node_alter_eq.
  - by rewrite node_alter_eq.
  - intros ->. by rewrite node_alter_eq.
Qed.

(** ** Linking a block *)

Definition linked (mq : rt_messagequeue) (i : nat) : rt_messagequeue :=
  let mq := match msg_queue_tail mq with Some t => set_next t (Some i) mq | None => mq end in
  set_entry (entry mq + 1) (set_ends (match msg_queue_head mq with None => Some i | Some h => Some h end) (Some i) mq).

Definition linked_front (mq : rt_messagequeue) (i : nat) : rt_messagequeue :=
  let mq := set_next i (msg_queue_head mq) mq in
  set_entry (entry mq + 1) (set_ends (Some i) (match msg_queue_tail mq with None => Some i | Some t => Some t end) mq).

Definition recycled (mq : rt_messagequeue) (i : nat) : rt_messagequeue :=
  set_free (Some i) (set_next i (msg_queue_free mq) mq).

(** The links apart, blocks stay as they are. *)
Definition same_data (m m' : rt_mq_message) : Prop := msg_length m' = msg_length m ∧ msg_bytes m' = msg_bytes m.

Lemma same_message m m' : same_data m m' → message m' = message m.
Proof. unfold message. by intros [-> ->]. Qed.

Lemma set_next_data i p mq j : same_data (node mq j) (node (set_next i p mq) j).
Proof.
  unfold set_next. destruct (decide (i = j)) as [<- | Hij]; [|by rewrite node_alter_ne].
  destruct (decide (i < length (msg_pool mq))%nat); [by rewrite node_alter_eq |].
  unfold node, alter_node. cbn [msg_pool]. rewrite list_lookup_alter_eq, lookup_ge_None_2 by lia. done.
Qed.

(** Shapes of objects whose blocks have the same data. *)
Lemma shape_relink mq mq' Lq Lf Bs Lq' Lf' Bs' :
  shape mq Lq Lf Bs → (∀ j, same_data (node mq j) (node mq' j)) →
  length (msg_pool mq') = length (msg_pool mq) → msg_size mq' = msg_size mq → max_msgs mq' = max_msgs mq →
  chain mq' (msg_queue_head mq') Lq' → chain mq' (msg_queue_free mq') Lf' → msg_queue_tail mq' = last Lq' →
  Lq' ++ Lf' ++ Bs' ≡ₚ Lq ++ Lf ++ Bs → entry mq' = blen Lq' → (∀ i, i ∈ Lq' → i ∈ Lq ∨ fits mq i) →
  shape mq' Lq' Lf' Bs' ∧ contents mq' = (λ i, message (node mq i)) <$> Lq'.
Proof.
  intros [] Hd Hl Es Em Hq Hf Ht Hp He Hm. assert (Hs' : shape mq' Lq' Lf' Bs').
  { constructor; try done.
    - by rewrite Hp, Hl.
    - unfold blen. by rewrite Em, Hl.
    - by rewrite Em.
    - intros i. rewrite Hl, Es. destruct (Hd i) as [_ ->]. apply sh_bytes0.
    - intros i Hi. unfold fits. rewrite Es. destruct (Hd i) as [-> _]. destruct (Hm i Hi); [by apply sh_msgs0 | done]. }
  split; [done |]. rewrite (shape_contents _ _ _ _ Hs'). apply list_fmap_ext. intros k i _. by apply same_message.
Qed.

Section relink.
Context (mq : rt_messagequeue) (Lq Lf Bs : list nat) (i : nat).
Context (Hs : shape mq Lq Lf (i :: Bs)).

Lemma shape_own : i ∉ Lq ∧ i ∉ Lf ∧ i ∉ Bs ∧ (i < length (msg_pool mq))%nat.
Proof using Hs.
  pose proof (shape_nodup _ _ _ _ Hs) as Hn. split_and!; [| | | apply (shape_bound _ _ _ _ Hs); set_solver].
  - apply NoDup_app in Hn as (_ & H & _). intros Hi. apply (H i Hi). set_solver.
  - apply NoDup_app in Hn as (_ & _ & Hn). apply NoDup_app in Hn as (_ & H & _). intros Hi. apply (H i Hi). set_solver.
  - apply NoDup_app in Hn as (_ & _ & Hn). apply NoDup_app in Hn as (_ & _ & Hn). by apply NoDup_cons in Hn as [Hn _].
Qed.

(** A new tail. *)
Lemma shape_link :
  next (node mq i) = None → fits mq i →
  shape (linked mq i) (Lq ++ [i]) Lf Bs ∧ contents (linked mq i) = contents mq ++ [message (node mq i)]
    ∧ (∀ j, j ∈ Bs → node (linked mq i) j = node mq j).
Proof using Hs.
  intros Hnil Hfit. destruct shape_own as (H1 & H2 & H3 & Hlt). pose proof Hs as []. pose proof (shape_nodup _ _ _ _ Hs) as Hn.
  set (mq1 := match msg_queue_tail mq with Some t => set_next t (Some i) mq | None => mq end).
  assert (Hd : ∀ j, same_data (node mq j) (node (linked mq i) j)).
  { intros j. change (node (linked mq i) j) with (node mq1 j). unfold mq1. destruct (msg_queue_tail mq); [apply set_next_data | done]. }
  assert (Htail : ∀ j, j ∉ Lq → node (linked mq i) j = node mq j).
  { intros j Hj. change (node (linked mq i) j) with (node mq1 j). unfold mq1. rewrite sh_tail0.
    destruct (last Lq) as [t|] eqn:Et; [|done]. apply node_alter_ne. intros ->. by apply Hj, last_Some_elem_of. }
  rewrite (shape_contents _ _ _ _ Hs).
  destruct (shape_relink mq (linked mq i) Lq Lf (i :: Bs) (Lq ++ [i]) Lf Bs) as [Hs' Hc']; try done.
  - unfold linked. cbn. destruct (msg_queue_tail mq); [apply length_alter | done].
  - unfold linked. by destruct (msg_queue_tail mq).
  - unfold linked. by destruct (msg_queue_tail mq).
  - pose proof (chain_snoc mq (msg_queue_head mq) Lq i Hlt) as Hc. rewrite <-sh_tail0 in Hc. fold mq1 in Hc.
    eapply (chain_frame mq1); [done |].
    replace (msg_queue_head (linked mq i)) with (match Lq with [] => Some i | _ => msg_queue_head mq end).
    + apply Hc; try done; [|by apply NoDup_app in Hn as (? & _)]. apply Forall_forall. intros j Hj. apply (shape_bound _ _ _ _ Hs). set_solver.
    + replace (msg_queue_head (linked mq i)) with (match msg_queue_head mq with None => Some i | Some h => Some h end)
        by (unfold linked; by destruct (msg_queue_tail mq)).
      destruct Lq; cbn in sh_queue0; [by rewrite sh_queue0 | by destruct sh_queue0 as [-> _]].
  - replace (msg_queue_free (linked mq i)) with (msg_queue_free mq) by (unfold linked; by destruct (msg_queue_tail mq)).
    eapply chain_frame; [|done]. intros j Hj. rewrite Htail; [done |]. intros Hq. by apply (shape_sep _ _ _ _ Hs) in Hq as [? _].
  - by rewrite last_snoc.
  - rewrite <-!app_assoc. apply Permutation_app_head. simpl. by rewrite Permutation_middle.
  - unfold linked. cbn. replace (entry _) with (entry mq) by (by destruct (msg_queue_tail mq)). rewrite sh_entry0. len.
  - intros j [Hj | ->%list_elem_of_singleton]%elem_of_app; auto.
  - split_and!; [done | by rewrite Hc', fmap_app |]. intros j Hj. apply Htail. intros Hq. apply (shape_sep _ _ _ _ Hs) in Hq as [_ Hq]. set_solver.
Qed.

(** A new head. *)
Lemma shape_link_front :
  fits mq i →
  shape (linked_front mq i) (i :: Lq) Lf Bs ∧ contents (linked_front mq i) = message (node mq i) :: contents mq
    ∧ (∀ j, j ∈ Bs → node (linked_front mq i) j = node mq j).
Proof using Hs.
  intros Hfit. destruct shape_own as (H1 & H2 & H3 & Hlt). pose proof Hs as [].
  assert (Hne : ∀ j, j ≠ i → node (linked_front mq i) j = node mq j).
  { intros j Hj. change (node (linked_front mq i) j) with (node (set_next i (msg_queue_head mq) mq) j). by apply node_alter_ne. }
  rewrite (shape_contents _ _ _ _ Hs).
  destruct (shape_relink mq (linked_front mq i) Lq Lf (i :: Bs) (i :: Lq) Lf Bs) as [Hs' Hc']; try done.
  - intros j. exact (set_next_data i (msg_queue_head mq) mq j).
  - apply length_alter.
  - cbn [chain]. split; [done |].
    replace (next (node (linked_front mq i) i)) with (msg_queue_head mq)
      by (change (node (linked_front mq i) i) with (node (set_next i (msg_queue_head mq) mq) i); unfold set_next; by rewrite node_alter_eq).
    eapply chain_frame; [|done]. intros j Hj. by rewrite Hne by congruence.
  - eapply chain_frame; [|done]. intros j Hj. by rewrite Hne by congruence.
  - unfold linked_front. cbn [set_entry set_ends msg_queue_tail set_next alter_node]. rewrite sh_tail0. destruct Lq; [done |].
    rewrite last_cons_cons. by destruct (last (n :: l)) eqn:E; [|apply last_None in E].
  - simpl. by rewrite <-!Permutation_middle.
  - unfold linked_front. cbn. rewrite sh_entry0. len.
  - intros j [-> | Hj]%elem_of_cons; auto.
  - split_and!; [done | done |]. intros j Hj. apply Hne. congruence.
Qed.

(** A free block. *)
Lemma shape_recycle :
  shape (recycled mq i) Lq (i :: Lf) Bs ∧ contents (recycled mq i) = contents mq ∧ (∀ j, j ∈ Bs → node (recycled mq i) j = node mq j).
Proof using Hs.
  destruct shape_own as (H1 & H2 & H3 & Hlt). pose proof Hs as [].
  assert (Hne : ∀ j, j ≠ i → node (recycled mq i) j = node mq j).
  { intros j Hj. change (node (recycled mq i) j) with (node (set_next i (msg_queue_free mq) mq) j). by apply node_alter_ne. }
  rewrite (shape_contents _ _ _ _ Hs).
  destruct (shape_relink mq (recycled mq i) Lq Lf (i :: Bs) Lq (i :: Lf) Bs) as [Hs' Hc']; try done.
  - intros j. exact (set_next_data i (msg_queue_free mq) mq j).
  - apply length_alter.
  - eapply chain_frame; [|done]. intros j Hj. by rewrite Hne by congruence.
  - cbn [chain]. split; [done |].
    replace (next (node (recycled mq i) i)) with (msg_queue_free mq)
      by (change (node (recycled mq i) i) with (node (set_next i (msg_queue_free mq) mq) i); unfold set_next; by rewrite node_alter_eq).
    eapply chain_frame; [|done]. intros j Hj. by rewrite Hne by congruence.
  - apply Permutation_app_head. simpl. by rewrite Permutation_middle.
  - auto.
  - split_and!; [done | done |]. intros j Hj. apply Hne. congruence.
Qed.

End relink.

(** ** Creation and reset *)

(** What no operation on the blocks changes. *)
Definition same_frame (mq mq' : rt_messagequeue) : Prop :=
  msg_size mq' = msg_size mq ∧ max_msgs mq' = max_msgs mq ∧ mq_flag mq' = mq_flag mq
  ∧ receivers mq' = receivers mq ∧ suspend_sender_thread mq' = suspend_sender_thread mq.

#[export] Instance same_frame_preorder : PreOrder same_frame.
Proof. split; [done |]. unfold same_frame. intros a b c. naive_solver congruence. Qed.

Lemma linked_frame mq i : same_frame mq (linked mq i).
Proof. unfold linked. by destruct (msg_queue_tail mq). Qed.

Lemma link_free_shape todo mq L :
  shape mq [] L todo → shape (link_free todo mq) [] (reverse todo ++ L) [] ∧ same_frame mq (link_free todo mq).
Proof.
  revert mq L. induction todo as [|i todo IH]; intros mq L Hs; [done |]. cbn [link_free].
  destruct (shape_recycle _ _ _ _ _ Hs) as (Hs' & _). destruct (IH _ _ Hs') as [Hs'' Hf]. split.
  - by rewrite reverse_cons, <-app_assoc.
  - exact Hf.
Qed.

(** Every block of a new queue lies within the memory it was made of. *)
Lemma mq_fresh_shape mem align size max flag :
  0 ≤ align → size ≤ align → 0 ≤ max ≤ 65535 → max * (align + SIZEOF_MQ_MESSAGE) ≤ blen mem →
  let mq := mq_fresh mem align size max flag in
  (∃ Lf, shape mq [] Lf []) ∧ same_frame (mk_mq [] size max 0 None None None flag [] []) mq.
Proof.
  intros Ha Hsz Hm Hmem. assert (Hs : shape (mk_mq (carve mem align (Z.to_nat max)) size max 0 None None None flag [] []) [] [] (seq 0 (Z.to_nat max))).
  { assert (Hl : length (carve mem align (Z.to_nat max)) = Z.to_nat max) by (unfold carve; by rewrite length_map, length_seq).
    constructor; try done.
    - cbn [msg_pool]. by rewrite Hl.
    - unfold blen. cbn [msg_pool max_msgs]. rewrite Hl. lia.
    - by cbn; lia.
    - intros i. cbn [msg_pool]. rewrite Hl. intros Hi. unfold node. cbn [msg_pool msg_size].
      unfold carve. rewrite list_lookup_fmap, lookup_seq_lt by done. simpl.
      unfold SIZEOF_MQ_MESSAGE in *. unfold blen in *. rewrite length_take, length_drop.
      assert (Z.of_nat i * (align + 8) + (align + 8) ≤ max * (align + 8)) by nia. lia.
    - by intros i ?%elem_of_nil. }
  destruct (link_free_shape _ _ _ Hs) as [Hs' Hf]. split; [by eexists | exact Hf].
Qed.

Lemma release_all_shape fuel mq Lq Lf Bs :
  shape (set_entry (blen Lq) mq) Lq Lf Bs → (length Lq ≤ fuel)%nat →
  ∃ mq' Lf', mq_release_all fuel mq = Some mq' ∧ shape (set_entry 0 mq') [] Lf' Bs ∧ same_frame mq mq'
    ∧ (∀ j, j ∈ Bs → node mq' j = node mq j).
Proof.
  revert mq Lq Lf. induction fuel as [|fuel IH]; intros mq Lq Lf Hs Hl.
  { destruct Lq; [|simpl in Hl; lia]. pose proof (sh_queue _ _ _ _ Hs) as E. cbn in E. exists mq, Lf. cbn. by rewrite E. }
  destruct Lq as [|i Lq]; pose proof (sh_queue _ _ _ _ Hs) as E.
  { cbn in E. exists mq, Lf. cbn. by rewrite E. }
  destruct (shape_take_head _ _ _ _ Hs) as (j & Lq' & [= <- <-] & Eh & Hs1); [cbn [set_entry entry]; len |].
  pose proof (shape_own _ _ _ _ _ Hs1) as (_ & _ & Hi & _).
  destruct (shape_recycle _ _ _ _ _ Hs1) as (Hs2 & _ & Hn).
  cbn [mq_release_all]. change (msg_queue_head (set_entry _ mq)) with (msg_queue_head mq) in Eh. rewrite Eh.
  set (mq2 := set_free _ _). destruct (IH mq2 Lq (i :: Lf)) as (mq' & Lf' & E' & Hs' & Hf & Hn').
  - replace (blen Lq) with (blen (i :: Lq) - 1) by len. exact Hs2.
  - simpl in Hl. lia.
  - exists mq', Lf'. split_and!; [done | done | exact Hf |]. intros j Hj. rewrite Hn' by done. exact (Hn j Hj).
Qed.

Lemma release_all_ok mq Lq Lf Bs :
  shape mq Lq Lf Bs →
  ∃ mq' Lf', mq_release_all (length (msg_pool mq)) mq = Some mq' ∧ shape (set_entry 0 mq') [] Lf' Bs ∧ same_frame mq mq'
    ∧ (∀ j, j ∈ Bs → node mq' j = node mq j).
Proof.
  intros Hs. apply (release_all_shape _ _ Lq Lf).
  - rewrite <-(sh_entry _ _ _ _ Hs). destruct Hs. by constructor; try done; (eapply chain_frame; [|done]).
  - pose proof (shape_count _ _ _ _ Hs) as E. rewrite (sh_max _ _ _ _ Hs) in E. unfold blen in E. lia.
Qed.
