(* ===== verification/MsgQueueRun.v ===== *)
(** Message queues in use: threads and interrupts that send and receive at the same time, with
    any number of calls between their critical sections. A queue is a bounded queue of
    messages, and no wake-up is lost. *)

From S2P Require Import Prelude.
From S2P Require Import RtDef.
From S2P Require Import Kernel.
From S2P Require Import Waiters.
From S2P Require Import MsgQueue.
Open Scope Z_scope.

#[local] Arguments list_remove : simpl never.
#[local] Arguments contents : simpl never.

(** * The machine *)

(** Where a call is: waiting; with a block to fill, or to link; with a block to copy from, or to
    give back. *)
Inductive cont : Type :=
  | CSend (buffer : list Z) (timeout tick : Z)
  | CRecv (size timeout tick : Z)
  | CFill (urgent : bool) (msg : nat) (buffer : list Z)
  | CLink (urgent : bool) (msg : nat) (buffer : list Z)
  | CCopy (msg : nat) (size : Z)
  | CFree (msg : nat) (size len : Z) (data : list Z).

(** The block of a call, and of all calls. *)
Definition block_of (c : cont) : option nat :=
  match c with
  | CSend _ _ _ | CRecv _ _ _ => None
  | CFill _ msg _ | CLink _ msg _ | CCopy msg _ | CFree msg _ _ _ => Some msg
  end.
Definition blocks (conts : gmap nat cont) : list nat := omap (λ p, block_of p.2) (map_to_list conts).
#[local] Arguments blocks : simpl never.

(** Calls of threads or interrupt handlers [t]; [QStep] is the next part of a call. *)
Inductive mq_op : Type :=
  | QSend (t : nat) (buffer : list Z) (timeout now : Z)
  | QUrgent (t : nat) (buffer : list Z)
  | QRecv (t : nat) (size timeout now : Z)
  | QStep (t : nat) (now : Z)
  | QReset
  | QExpire (t : nat)
  | QTimeout (t : nat).

(** What a step completes: [Taken] is a message that leaves the queue, [Received] the end of
    the call, with the size of the buffer, the result and what was copied; [Returned] is a
    call that ends without a message. *)
Inductive mq_event : Type :=
  | Sent (t : nat) (m : list Z)
  | SentUrgent (t : nat) (m : list Z)
  | Taken (t : nat) (m : list Z)
  | Received (t : nat) (size len : Z) (data : list Z)
  | Returned (t : nat) (r : Z)
  | Blocked (t : nat)
  | WasReset
  | Silent.

(** [qs_rdy_recv] and [qs_rdy_send]: threads that were woken with success and have not run
    since. *)
Record mq_state : Type := mk_qs {
  qs_ts : threads;
  qs_mq : rt_messagequeue;
  qs_conts : gmap nat cont;
  qs_rdy_recv : list nat;
  qs_rdy_send : list nat
}.

(** The end of the first critical section of a call, or of a round of its loop. *)
Definition after_round (s : mq_state) (t : nat) (x : qcall * threads * rt_messagequeue)
    (waits : Z → Z → cont) (takes : nat → cont) (event : nat → mq_event) : mq_event * mq_state :=
  let '(c, ts, mq) := x in
  let go conts := mk_qs ts mq conts (list_remove (qs_rdy_recv s) t) (list_remove (qs_rdy_send s) t) in
  match c with
  | QReturns r => (Returned t r, go (delete t (qs_conts s)))
  | QBlocks timeout tick => (Blocked t, go (<[t := waits timeout tick]> (qs_conts s)))
  | QTakes msg => (event msg, go (<[t := takes msg]> (qs_conts s)))
  end.

Definition after_send (s : mq_state) (t : nat) (buffer : list Z) (x : qcall * threads * rt_messagequeue) :=
  after_round s t x (CSend buffer) (λ msg, CFill false msg buffer) (λ _, Silent).
Definition after_urgent (s : mq_state) (t : nat) (buffer : list Z) (x : qcall * threads * rt_messagequeue) :=
  after_round s t x (CSend buffer) (λ msg, CFill true msg buffer) (λ _, Silent).
Definition after_recv (s : mq_state) (t : nat) (size : Z) (x : qcall * threads * rt_messagequeue) :=
  after_round s t x (CRecv size) (λ msg, CCopy msg size) (λ msg, Taken t (message (node (qs_mq s) msg))).

(** The next part of the call of [t]. *)
Definition mq_step (s : mq_state) (t : nat) (now : Z) (c : cont) : option (mq_event * mq_state) :=
  let ts := qs_ts s in
  let mq := qs_mq s in
  match c with
  | CSend buffer timeout tick => Some (after_send s t buffer (mq_send_resume ts mq t timeout tick now))
  | CRecv size timeout tick => x ← mq_recv_resume ts mq t timeout tick now; Some (after_recv s t size x)
  | CFill urgent msg buffer =>
      mq ← (if urgent then mq_store mq msg buffer else mq_send_fill mq msg buffer);
      Some (Silent, mk_qs ts mq (<[t := CLink urgent msg buffer]> (qs_conts s)) (qs_rdy_recv s) (qs_rdy_send s))
  | CLink urgent msg buffer =>
      let '(r, w, ts, mq) := if urgent then mq_link_front ts mq msg else mq_link ts mq msg in
      Some (if r =? RT_EOK then if urgent then SentUrgent t buffer else Sent t buffer else Returned t r,
            mk_qs ts mq (delete t (qs_conts s)) (qs_rdy_recv s ++ w) (qs_rdy_send s))
  | CCopy msg size =>
      let '(len, data) := mq_copy mq msg size in
      Some (Silent, mk_qs ts mq (<[t := CFree msg size len data]> (qs_conts s)) (qs_rdy_recv s) (qs_rdy_send s))
  | CFree msg size len data =>
      let '(w, ts, mq) := mq_recycle ts mq msg in
      Some (Received t size len data, mk_qs ts mq (delete t (qs_conts s)) (qs_rdy_recv s) (qs_rdy_send s ++ w))
  end.

(** One step; [None] when an assertion of the kernel fails, a null pointer is followed, or
    memory outside a block is written. *)
Definition mq_exec (s : mq_state) (o : mq_op) : option (mq_event * mq_state) :=
  let ts := qs_ts s in
  let mq := qs_mq s in
  match o with
  | QSend t buffer timeout now => x ← rt_mq_send_wait ts mq t (blen buffer) timeout now; Some (after_send s t buffer x)
  | QUrgent t buffer => '(c, mq) ← rt_mq_urgent mq (blen buffer); Some (after_urgent s t buffer (c, ts, mq))
  | QRecv t size timeout now => x ← rt_mq_recv ts mq t size timeout now; Some (after_recv s t size x)
  | QStep t now => match qs_conts s !! t with Some c => mq_step s t now c | None => Some (Silent, s) end
  | QReset =>
      '(_, _, ts, mq) ← rt_mq_control ts mq RT_IPC_CMD_RESET;
      Some (WasReset, mk_qs ts mq (qs_conts s) (qs_rdy_recv s) (qs_rdy_send s))
  | QExpire t => Some (Silent, mk_qs (timer_expire ts t) mq (qs_conts s) (qs_rdy_recv s) (qs_rdy_send s))
  | QTimeout t =>
      (* the node is on one of the two lists *)
      '(ts, l) ← _thread_timeout ts (receivers mq) t;
      Some (Silent, mk_qs ts (set_waiting l (list_remove (suspend_sender_thread mq) t) mq)
                      (qs_conts s) (qs_rdy_recv s) (qs_rdy_send s))
  end.

(** No waiting thread is between the expiry of its timer and the timeout handler. *)
Definition mq_no_window (s : mq_state) : Prop :=
  Forall (λ t, t_pend (th (qs_ts s) t) = false) (receivers (qs_mq s) ++ suspend_sender_thread (qs_mq s)).

(** Calls are made with buffers that are not empty, by whoever is not inside a call. *)
Definition mq_enabled (s : mq_state) (o : mq_op) : Prop :=
  match o with
  | QSend t buffer _ _ | QUrgent t buffer =>
      t_susp (th (qs_ts s) t) = false ∧ qs_conts s !! t = None ∧ buffer ≠ []
  | QRecv t size _ _ => t_susp (th (qs_ts s) t) = false ∧ qs_conts s !! t = None ∧ 0 < size
  | QStep t _ => t_susp (th (qs_ts s) t) = false ∧ is_Some (qs_conts s !! t)
  | QReset => True
  | QExpire t => t_active (th (qs_ts s) t) = true
  | QTimeout t => t_pend (th (qs_ts s) t) = true
  end.

(** The step wakes nobody inside the window of a timeout: the steps that wake link a message,
    give a block back, or reset the queue. *)
Definition mq_quiet (s : mq_state) (o : mq_op) : Prop :=
  match o with
  | QStep t _ =>
      match qs_conts s !! t with
      | Some (CLink _ _ _ | CFree _ _ _ _) => mq_no_window s
      | _ => True
      end
  | QReset => mq_no_window s
  | _ => True
  end.

Inductive mq_run : mq_state → list (mq_op * mq_event) → mq_state → Prop :=
  | qrun_nil s : mq_run s [] s
  | qrun_step s o e s' tr s'' :
      mq_enabled s o → mq_exec s o = Some (e, s') → mq_run s' tr s'' → mq_run s ((o, e) :: tr) s''.

(** No step of the run wakes inside the window of a timeout. *)
Fixpoint outside_windows (s : mq_state) (tr : list (mq_op * mq_event)) : Prop :=
  match tr with
  | [] => True
  | (o, _) :: tr =>
      mq_quiet s o ∧ match mq_exec s o with Some (_, s) => outside_windows s tr | None => True end
  end.

(** * The abstract queue *)

(** A queue of at most [n] messages, and the messages that were taken by calls that have yet
    to return. *)
Definition q_step (n : Z) (a : list (list Z) * gmap nat (list Z)) (e : mq_event) (a' : list (list Z) * gmap nat (list Z)) : Prop :=
  match e with
  | Sent _ m => blen a.1 < n ∧ a' = (a.1 ++ [m], a.2)
  | SentUrgent _ m => blen a.1 < n ∧ a' = (m :: a.1, a.2)
  | Taken t m => a.1 = m :: a'.1 ∧ a'.2 = <[t := m]> a.2
  | Received t size len data =>
      ∃ m, a.2 !! t = Some m ∧ data = take (Z.to_nat size) m ∧ len = blen data ∧ a' = (a.1, delete t a.2)
  | WasReset => a' = ([], a.2)
  | Returned _ _ | Blocked _ | Silent => a' = a
  end.

Inductive q_run (n : Z) : list (list Z) * gmap nat (list Z) → list mq_event → list (list Z) * gmap nat (list Z) → Prop :=
  | arun_nil a : q_run n a [] a
  | arun_step a e a' es a'' : q_step n a e a' → q_run n a' es a'' → q_run n a (e :: es) a''.

(** * Blocks of calls *)

Definition own (conts : gmap nat cont) (t : nat) : list nat := option_list (conts !! t ≫= block_of).

Lemma blocks_insert conts t c : blocks (<[t := c]> conts) ≡ₚ option_list (block_of c) ++ blocks (delete t conts).
Proof.
  unfold blocks. rewrite <-insert_delete_eq, map_to_list_insert by apply lookup_delete_eq. cbn. by destruct (block_of c).
Qed.

Lemma blocks_own conts t : blocks conts ≡ₚ own conts t ++ blocks (delete t conts).
Proof.
  unfold own. destruct (conts !! t) as [c|] eqn:E; cbn [mbind option_bind option_list app].
  - rewrite <-(insert_id conts t c E) at 1. apply blocks_insert.
  - by rewrite delete_id.
Qed.

Lemma blocks_other conts t u c j : u ≠ t → conts !! u = Some c → block_of c = Some j → j ∈ blocks (delete t conts).
Proof.
  intros Hne Hu Hj. unfold blocks. apply list_elem_of_omap. exists (u, c). split; [|done].
  apply elem_of_map_to_list. by rewrite lookup_delete_ne.
Qed.

(** * The invariant *)

Definition is_send (c : option cont) : Prop := ∃ b n k, c = Some (CSend b n k).
Definition is_recv (c : option cont) : Prop := ∃ z n k, c = Some (CRecv z n k).

Lemma waits_own conts t : is_send (conts !! t) ∨ is_recv (conts !! t) ∨ conts !! t = None → own conts t = [].
Proof. unfold own. intros [(? & ? & ? & ->) | [(? & ? & ? & ->) | ->]]; done. Qed.

(** What a call in progress can rely on. *)
Definition cont_ok (mq : rt_messagequeue) (held : gmap nat (list Z)) (t : nat) (c : cont) : Prop :=
  match c with
  | CSend buffer _ _ | CFill _ _ buffer => blen buffer ≤ msg_size mq
  | CRecv size _ _ => 0 < size
  | CLink urgent i buffer =>
      message (node mq i) = buffer ∧ fits mq i ∧ (urgent = false → next (node mq i) = None)
  | CCopy i size => 0 < size ∧ fits mq i ∧ held !! t = Some (message (node mq i))
  | CFree i size len data => ∃ m, held !! t = Some m ∧ data = take (Z.to_nat size) m ∧ len = blen data
  end.

Lemma cont_ok_frame mq mq' held held' t c :
  (∀ j, block_of c = Some j → node mq' j = node mq j) → msg_size mq' = msg_size mq → held' !! t = held !! t →
  cont_ok mq held t c → cont_ok mq' held' t c.
Proof. intros Hn Es Eh. destruct c; cbn [cont_ok block_of] in *; unfold fits; rewrite ?Es, ?Eh, ?(Hn _ eq_refl); done. Qed.

(** No wake-up is lost: while a receiver waits every message in the queue has a woken receiver
    on its way; while a sender waits every free block has a woken sender. *)
Record wakes (mq : rt_messagequeue) (bs : list nat) (rr rs : list nat) : Prop := {
  k_recv : receivers mq ≠ [] → entry mq ≤ blen rr;
  k_send : suspend_sender_thread mq ≠ [] → max_msgs mq - entry mq - blen bs ≤ blen rs
}.

Record mq_ok (s : mq_state) (held : gmap nat (list Z)) : Prop := {
  m_lists : lists_ok is_recv is_send (qs_ts s) (mq_flag (qs_mq s)) (receivers (qs_mq s)) (suspend_sender_thread (qs_mq s))
              (qs_conts s) (qs_rdy_recv s) (qs_rdy_send s);
  m_shape : ∃ Lq Lf, shape (qs_mq s) Lq Lf (blocks (qs_conts s));
  m_wakes : wakes (qs_mq s) (blocks (qs_conts s)) (qs_rdy_recv s) (qs_rdy_send s);
  m_conts : ∀ t c, qs_conts s !! t = Some c → cont_ok (qs_mq s) held t c
}.

(** A good step: the invariant is kept and the abstract queue follows the event. *)
Definition good (s : mq_state) (held : gmap nat (list Z)) (x : mq_event * mq_state) : Prop :=
  ∃ held', mq_ok x.2 held' ∧ max_msgs (qs_mq x.2) = max_msgs (qs_mq s) ∧ msg_size (qs_mq x.2) = msg_size (qs_mq s)
    ∧ q_step (max_msgs (qs_mq s)) (contents (qs_mq s), held) x.1 (contents (qs_mq x.2), held').

(** The other calls go on as before when only [t] changes. *)
Lemma conts_change mq mq' (held held' : gmap nat (list Z)) (conts conts' : gmap nat cont) t :
  (∀ u c, conts !! u = Some c → cont_ok mq held u c) →
  (∀ u, u ≠ t → conts' !! u = conts !! u ∧ held' !! u = held !! u) →
  (∀ j, j ∈ blocks (delete t conts) → node mq' j = node mq j) → msg_size mq' = msg_size mq →
  (∀ c, conts' !! t = Some c → cont_ok mq' held' t c) →
  ∀ u c, conts' !! u = Some c → cont_ok mq' held' u c.
Proof.
  intros Hc Hu Hn Es Ht u c Ec. destruct (decide (u = t)) as [-> | Hne]; [by apply Ht |].
  destruct (Hu u Hne) as [E1 E2]. rewrite E1 in Ec. eapply cont_ok_frame; [|done | done | by apply Hc].
  intros j Hj. apply Hn. by eapply blocks_other.
Qed.

(** * The first critical section of a call *)

Section round.
Context (ts : threads) (mq : rt_messagequeue) (conts : gmap nat cont) (rr rs : list nat) (held : gmap nat (list Z)) (t : nat).
Let s := mk_qs ts mq conts rr rs.
Context (Hok : mq_ok s held).
Context (Ht : t ∉ receivers mq ++ suspend_sender_thread mq) (Hown : own conts t = []).

Lemma blocks_rest : blocks (delete t conts) ≡ₚ blocks conts.
Proof using Hown. by rewrite (blocks_own conts t), Hown. Qed.

(** The call ends without a block. *)
Lemma fail_good r ts' waits takes event :
  t ∉ rr ∨ entry mq = 0 → t ∉ rs ∨ msg_queue_free mq = None →
  wait_ok ts' (receivers mq ++ suspend_sender_thread mq) → same_prio ts ts' → (∀ u, u ≠ t → th ts' u = th ts u) →
  good s held (after_round s t (QReturns r, ts', mq) waits takes event).
Proof using Hok Ht Hown.
  intros Hr Hs Hw Hp Hu. destruct Hok as [Hl (Lq & Lf & Hsh) [Hkr Hks] Hc]. cbn in Hl, Hsh, Hkr, Hks, Hc.
  exists held. split_and!; [|done | done | done]. constructor; cbn.
  - eapply lists_change; try done. intros u Hne. split; [by apply Hu | by rewrite lookup_delete_ne].
  - exists Lq, Lf. eapply shape_perm; [done |]. symmetry. apply blocks_rest.
  - constructor; cbn.
    + intros Hne. specialize (Hkr Hne). destruct Hr as [Hr | ->]; [by rewrite list_remove_notin | apply blen_nonneg].
    + intros Hne. specialize (Hks Hne). rewrite (blen_perm _ _ blocks_rest). destruct Hs as [Hs | Hs]; [by rewrite list_remove_notin |].
      pose proof (shape_count _ _ _ _ Hsh) as E. rewrite (shape_full _ _ _ _ Hsh Hs), <-(sh_entry _ _ _ _ Hsh) in E.
      change (blen []) with 0 in E. pose proof (blen_nonneg (list_remove rs t)). lia.
  - eapply conts_change; try done; [|by rewrite lookup_delete_eq]. intros u Hne. by rewrite lookup_delete_ne.
Qed.

Lemma refuse_good r waits takes event :
  t ∉ rr → t ∉ rs → good s held (after_round s t (QReturns r, ts, mq) waits takes event).
Proof using Hok Ht Hown. intros Hr Hs. apply fail_good; [by left | by left | apply (m_lists _ _ Hok) | done | done]. Qed.

(** It waits for a free block. *)
Lemma wait_send_good ts' c :
  msg_queue_free mq = None → is_send (Some c) → cont_ok mq held t c → t ∉ rr →
  wait_ok ts' (t :: (receivers mq ++ suspend_sender_thread mq)) → same_prio ts ts' → (∀ u, u ≠ t → th ts' u = th ts u) →
  good s held (Blocked t, mk_qs ts' (set_waiting (receivers mq) (rt_susp_list_enqueue ts (suspend_sender_thread mq) t (mq_flag mq)) mq)
                (<[t := c]> conts) (list_remove rr t) (list_remove rs t)).
Proof using Hok Ht Hown.
  intros Hfull Hk Hco Hr Hw Hp Hu. destruct Hok as [Hl (Lq & Lf & Hsh) [Hkr Hks] Hc]. cbn in Hl, Hsh, Hkr, Hks, Hc.
  assert (Hb : blocks (<[t := c]> conts) ≡ₚ blocks conts).
  { rewrite blocks_insert. destruct Hk as (? & ? & ? & [= ->]). apply blocks_rest. }
  destruct (shape_waiting _ _ _ _ Hsh (receivers mq) (rt_susp_list_enqueue ts (suspend_sender_thread mq) t (mq_flag mq))) as [Hsh' Hcn].
  exists held. split_and!; [|done | done | cbn; by rewrite Hcn]. constructor; cbn.
  - apply lists_sym, lists_enqueue; try done; [by apply lists_sym | set_solver |].
    eapply wait_ok_perm; [|exact Hw]. apply perm_skip, Permutation_app_comm.
  - exists Lq, Lf. eapply shape_perm; [done |]. by symmetry.
  - constructor; cbn.
    + intros Hne. specialize (Hkr Hne). by rewrite list_remove_notin.
    + intros _. rewrite (blen_perm _ _ Hb). pose proof (shape_count _ _ _ _ Hsh) as E.
      rewrite (shape_full _ _ _ _ Hsh Hfull), <-(sh_entry _ _ _ _ Hsh) in E.
      change (blen []) with 0 in E. pose proof (blen_nonneg (list_remove rs t)). lia.
  - eapply conts_change; try done; [intros u Hne; by rewrite lookup_insert_ne |]. intros c'. rewrite lookup_insert_eq. by intros [= <-].
Qed.

(** It waits for a message. *)
Lemma wait_recv_good ts' c :
  entry mq = 0 → is_recv (Some c) → cont_ok mq held t c → t ∉ rs →
  wait_ok ts' (t :: (receivers mq ++ suspend_sender_thread mq)) → same_prio ts ts' → (∀ u, u ≠ t → th ts' u = th ts u) →
  good s held (Blocked t, mk_qs ts' (set_waiting (rt_susp_list_enqueue ts (receivers mq) t (mq_flag mq)) (suspend_sender_thread mq) mq)
                (<[t := c]> conts) (list_remove rr t) (list_remove rs t)).
Proof using Hok Ht Hown.
  intros Hemp Hk Hco Hr Hw Hp Hu. destruct Hok as [Hl (Lq & Lf & Hsh) [Hkr Hks] Hc]. cbn in Hl, Hsh, Hkr, Hks, Hc.
  assert (Hb : blocks (<[t := c]> conts) ≡ₚ blocks conts).
  { rewrite blocks_insert. destruct Hk as (? & ? & ? & [= ->]). apply blocks_rest. }
  destruct (shape_waiting _ _ _ _ Hsh (rt_susp_list_enqueue ts (receivers mq) t (mq_flag mq)) (suspend_sender_thread mq)) as [Hsh' Hcn].
  exists held. split_and!; [|done | done | cbn; by rewrite Hcn]. constructor; cbn.
  - by apply lists_enqueue.
  - exists Lq, Lf. eapply shape_perm; [done |]. by symmetry.
  - constructor; cbn.
    + intros _. rewrite Hemp. apply blen_nonneg.
    + intros Hne. rewrite (blen_perm _ _ Hb), list_remove_notin by done. by apply Hks.
  - eapply conts_change; try done; [intros u Hne; by rewrite lookup_insert_ne |]. intros c'. rewrite lookup_insert_eq. by intros [= <-].
Qed.

(** It takes a free block. *)
Lemma take_free_good i urgent buffer :
  msg_queue_free mq = Some i → blen buffer ≤ msg_size mq → t ∉ rr →
  good s held (Silent, mk_qs ts (set_free (next (node mq i)) mq) (<[t := CFill urgent i buffer]> conts) (list_remove rr t) (list_remove rs t)).
Proof using Hok Ht Hown.
  intros Hfree Hbuf Hr. destruct Hok as [Hl (Lq & Lf & Hsh) [Hkr Hks] Hc]. cbn in Hl, Hsh, Hkr, Hks, Hc.
  assert (Hb : blocks (<[t := CFill urgent i buffer]> conts) ≡ₚ i :: blocks conts) by (by rewrite blocks_insert, blocks_rest).
  destruct (shape_take_free _ _ _ _ Hsh i Hfree) as (Lf' & -> & Hsh').
  exists held. split_and!; [|done | done |].
  - constructor; cbn.
    + eapply lists_change; try done; [apply Hl |]. intros u Hne. split; [done | by rewrite lookup_insert_ne].
    + exists Lq, Lf'. eapply shape_perm; [done |]. by symmetry.
    + constructor; cbn.
      * intros Hne. specialize (Hkr Hne). by rewrite list_remove_notin.
      * intros Hne. specialize (Hks Hne). rewrite (blen_perm _ _ Hb). pose proof (list_remove_blen rs t (proj1 (l_rb _ _ _ _ _ _ _ _ _ Hl))). len.
    + eapply conts_change; try done; [intros u Hne; by rewrite lookup_insert_ne |]. intros c'. rewrite lookup_insert_eq. by intros [= <-].
  - cbn. f_equal. rewrite (shape_contents _ _ _ _ Hsh), (shape_contents _ _ _ _ Hsh'). done.
Qed.

(** It takes a message. *)
Lemma take_head_good size :
  entry mq ≠ 0 → 0 < size → t ∉ rs →
  ∃ i, msg_queue_head mq = Some i
    ∧ let tail := if decide (msg_queue_tail mq = Some i) then None else msg_queue_tail mq in
      good s held (Taken t (message (node mq i)),
        mk_qs ts (set_entry (entry mq - 1) (set_ends (next (node mq i)) tail mq)) (<[t := CCopy i size]> conts) (list_remove rr t) (list_remove rs t)).
Proof using Hok Ht Hown.
  intros He Hsize Hr. destruct Hok as [Hl (Lq & Lf & Hsh) [Hkr Hks] Hc]. cbn in Hl, Hsh, Hkr, Hks, Hc.
  destruct (shape_take_head _ _ _ _ Hsh He) as (i & Lq' & -> & Eh & Hsh'). exists i. split; [done |]. intros tail. fold tail in Hsh'.
  assert (Hb : blocks (<[t := CCopy i size]> conts) ≡ₚ i :: blocks conts) by (by rewrite blocks_insert, blocks_rest).
  exists (<[t := message (node mq i)]> held). split_and!; [|done | done |].
  - constructor; cbn.
    + eapply lists_change; try done; [apply Hl |]. intros u Hne. split; [done | by rewrite lookup_insert_ne].
    + exists Lq', Lf. eapply shape_perm; [done |]. by symmetry.
    + constructor; cbn.
      * intros Hne. specialize (Hkr Hne). pose proof (list_remove_blen rr t (proj1 (l_ra _ _ _ _ _ _ _ _ _ Hl))). lia.
      * intros Hne. specialize (Hks Hne). rewrite (blen_perm _ _ Hb), list_remove_notin by done. len.
    + eapply (conts_change mq _ held); try done; [intros u Hne; by rewrite !lookup_insert_ne |]. intros c'. rewrite lookup_insert_eq.
      intros [= <-]. cbn [cont_ok]. rewrite lookup_insert_eq. split_and!; [done | | done]. apply (sh_msgs _ _ _ _ Hsh). by left.
  - cbn. split; [|done]. rewrite (shape_contents _ _ _ _ Hsh), (shape_contents _ _ _ _ Hsh'). done.
Qed.

End round.

Lemma mq_suspend_spec ts W l t flag timeout tick now :
  wait_ok ts W → t ∉ W → flag = RT_IPC_FLAG_FIFO ∨ flag = RT_IPC_FLAG_PRIO →
  ∃ k ts', mq_suspend (upd ts t (set_error (th ts t) (- RT_EINTR))) l t flag timeout tick now
      = (QBlocks timeout k, ts', rt_susp_list_enqueue ts l t flag)
    ∧ wait_ok ts' (t :: W) ∧ same_prio ts ts' ∧ (∀ u, u ≠ t → th ts' u = th ts u).
Proof.
  intros Hw Ht Hf. unfold mq_suspend.
  destruct (block_spec ts W l t flag (- RT_EINTR) timeout Hw Ht Hf) as (ts1 & -> & Hb). simpl in *.
  destruct Hb as (Hw2 & Hs2 & Hu2 & _). destruct (0 <? timeout); eauto 10.
Qed.

Section rounds.
Context (ts : threads) (mq : rt_messagequeue) (conts : gmap nat cont) (rr rs : list nat) (held : gmap nat (list Z)) (t : nat).
Let s := mk_qs ts mq conts rr rs.
Context (Hok : mq_ok s held).
Context (Ht : t ∉ receivers mq ++ suspend_sender_thread mq) (Hown : own conts t = []).

Lemma mq_send_round_good buffer timeout tick now :
  t ∉ rr → blen buffer ≤ msg_size mq → good s held (after_send s t buffer (mq_send_round ts mq t timeout tick now)).
Proof using Hok Ht Hown.
  intros Hr Hb. unfold mq_send_round, after_send. pose proof (m_lists _ _ Hok) as Hl. cbn in Hl.
  destruct (msg_queue_free mq) as [i|] eqn:Ef; [by apply take_free_good |].
  destruct (Z.eqb_spec timeout 0) as [-> | Hto].
  { apply fail_good; [done.. | by left | by right | by apply wait_ok_error, Hl | by apply same_prio_upd | intros u Hu; by rewrite th_upd_ne]. }
  destruct (mq_suspend_spec ts _ (suspend_sender_thread mq) t (mq_flag mq) timeout tick now (l_wait _ _ _ _ _ _ _ _ _ Hl) Ht
    (l_flag _ _ _ _ _ _ _ _ _ Hl)) as (k & ts' & -> & Hw & Hp & Hu).
  apply wait_send_good; try done. by eexists _, _, _.
Qed.

Lemma mq_recv_round_good size timeout tick now :
  t ∉ rs → 0 < size →
  ∃ x, mq_recv_round ts mq t timeout tick now = Some x ∧ good s held (after_recv s t size x).
Proof using Hok Ht Hown.
  intros Hr Hsz. unfold mq_recv_round, after_recv. pose proof (m_lists _ _ Hok) as Hl. cbn in Hl.
  destruct (Z.eqb_spec (entry mq) 0) as [He | He].
  - destruct (Z.eqb_spec timeout 0) as [-> | Hto].
    { eexists. split; [done |]. apply fail_good; [done.. | by right | by left | by do 2 apply wait_ok_error; apply Hl | |].
      - transitivity (upd ts t (set_error (th ts t) (- RT_EINTR))); by apply same_prio_upd.
      - intros u Hu. by rewrite !th_upd_ne. }
    destruct (mq_suspend_spec ts _ (receivers mq) t (mq_flag mq) timeout tick now (l_wait _ _ _ _ _ _ _ _ _ Hl) Ht
      (l_flag _ _ _ _ _ _ _ _ _ Hl)) as (k & ts' & -> & Hw & Hp & Hu).
    eexists. split; [done |]. apply wait_recv_good; try done. by eexists _, _, _.
  - destruct (take_head_good ts mq conts rr rs held t Hok Ht Hown size He Hsz Hr) as (i & Eh & Hg).
    rewrite Eh. cbn [mbind option_bind]. eexists. split; [done |].
    destruct (m_shape _ _ Hok) as (Lq & Lf & Hsh). cbn [qs_mq s] in Hsh.
    pose proof (sh_entry _ _ _ _ Hsh) as Ee. pose proof (blen_nonneg Lq). cbn [set_ends entry].
    rewrite (proj2 (Z.ltb_lt 0 (entry mq))) by lia. exact Hg.
Qed.

End rounds.

(** * The other parts of a call *)

Section busy.
Context (ts : threads) (mq : rt_messagequeue) (conts : gmap nat cont) (rr rs : list nat) (held : gmap nat (list Z)) (t : nat).
Let s := mk_qs ts mq conts rr rs.
Context (Hok : mq_ok s held) (Hrun : t_susp (th ts t) = false).
Context (c : cont) (i : nat) (Hc : conts !! t = Some c) (Hi : block_of c = Some i).

Lemma busy_blocks : blocks conts ≡ₚ i :: blocks (delete t conts).
Proof using Hc Hi. rewrite (blocks_own conts t). unfold own. rewrite Hc. cbn [mbind option_bind]. by rewrite Hi. Qed.

(** The call is on no list. *)
Lemma busy_lists ts' A B conts' :
  lists_ok is_recv is_send ts' (mq_flag mq) A B conts rr rs → t ∉ A ++ B →
  (∀ u, u ≠ t → conts' !! u = conts !! u) → lists_ok is_recv is_send ts' (mq_flag mq) A B conts' rr rs.
Proof using Hc Hi.
  intros Hl Ht Hu.
  assert (Hrr : t ∉ rr) by (eapply rdy_kind; [apply Hl | rewrite Hc; intros (? & ? & ? & [= ->]); done]).
  assert (Hrs : t ∉ rs) by (eapply rdy_kind; [apply Hl | rewrite Hc; intros (? & ? & ? & [= ->]); done]).
  rewrite <-(list_remove_notin rr t), <-(list_remove_notin rs t) by done.
  eapply lists_change; [exact Hl | done | apply Hl | done |]. intros u Hne. split; [done | by apply Hu].
Qed.

Lemma busy_not_waiting : t ∉ receivers mq ++ suspend_sender_thread mq.
Proof using Hok Hrun. by apply (not_susp _ _ _ (l_wait _ _ _ _ _ _ _ _ _ (m_lists _ _ Hok))). Qed.

(** The block is filled. *)
Lemma fill_good urgent buffer :
  c = CFill urgent i buffer →
  ∃ mq', (if urgent then mq_store mq i buffer else mq_send_fill mq i buffer) = Some mq'
    ∧ good s held (Silent, mk_qs ts mq' (<[t := CLink urgent i buffer]> conts) rr rs).
Proof using Hok Hrun Hc Hi.
  intros E. pose proof Hok as [Hl (Lq & Lf & Hsh) [Hkr Hks] Hco]. cbn in Hl, Hsh, Hkr, Hks, Hco.
  pose proof (Hco t c Hc) as Hb. rewrite E in Hb. cbn [cont_ok] in Hb.
  assert (Hbl : blocks (<[t := CLink urgent i buffer]> conts) ≡ₚ blocks conts) by (by rewrite blocks_insert, busy_blocks).
  destruct (mq_fill_ok mq Lq Lf (blocks conts) i buffer urgent Hsh) as (f & -> & Hsh' & Hcn & Hm & Hlen & Hnx); [rewrite busy_blocks; by left | done |].
  eexists. split; [done |]. exists held. split_and!; [|done | done | cbn; by rewrite Hcn]. constructor; cbn.
  - apply busy_lists; [done | apply busy_not_waiting |]. intros u Hne. by rewrite lookup_insert_ne.
  - exists Lq, Lf. eapply shape_perm; [done |]. by symmetry.
  - constructor; cbn; [done |]. by rewrite (blen_perm _ _ Hbl).
  - eapply (conts_change mq); try done; [intros u Hne; by rewrite lookup_insert_ne | |].
    + intros j Hj. apply node_alter_ne. pose proof (shape_own _ _ _ _ _ (shape_perm _ _ _ _ Hsh _ busy_blocks)). naive_solver congruence.
    + intros c'. rewrite lookup_insert_eq. intros [= <-]. cbn [cont_ok]. split_and!; [done | | done]. unfold fits. rewrite Hlen.
      change (msg_size (alter_node f i mq)) with (msg_size mq). pose proof (blen_nonneg buffer). lia.
Qed.

(** The message is linked and a receiver woken. *)
Lemma link_good urgent buffer :
  mq_no_window s → c = CLink urgent i buffer →
  ∃ w ts' mq', (if urgent then mq_link_front ts mq i else mq_link ts mq i) = (RT_EOK, w, ts', mq')
    ∧ good s held (if urgent then SentUrgent t buffer else Sent t buffer, mk_qs ts' mq' (delete t conts) (rr ++ w) rs).
Proof using Hok Hrun Hc Hi.
  intros Hnw E. pose proof Hok as [Hl (Lq & Lf & Hsh) [Hkr Hks] Hco]. cbn in Hl, Hsh, Hkr, Hks, Hco.
  pose proof (Hco t c Hc) as Hb. rewrite E in Hb. cbn [cont_ok] in Hb. destruct Hb as (Hm & Hfit & Hnx).
  pose proof (shape_perm _ _ _ _ Hsh _ busy_blocks) as Hsh1.
  pose proof (shape_count _ _ _ _ Hsh1) as Hcount. rewrite <-(sh_entry _ _ _ _ Hsh1) in Hcount. pose proof (sh_range _ _ _ _ Hsh1) as Hmax.
  assert (Hlt : entry mq < max_msgs mq) by (pose proof (blen_nonneg Lf); pose proof (blen_nonneg (blocks (delete t conts))); len).
  set (mq1 := if urgent then linked_front mq i else linked mq i).
  assert (Hmq1 : ∃ Lq', shape mq1 Lq' Lf (blocks (delete t conts)) ∧ contents mq1 = (if urgent then buffer :: contents mq else contents mq ++ [buffer])
    ∧ (∀ j, j ∈ blocks (delete t conts) → node mq1 j = node mq j) ∧ same_frame mq mq1 ∧ entry mq1 = entry mq + 1).
  { unfold mq1. destruct urgent.
    - destruct (shape_link_front _ _ _ _ _ Hsh1 Hfit) as (H1 & H2 & H3). rewrite Hm in H2. by exists (i :: Lq).
    - destruct (shape_link _ _ _ _ _ Hsh1 (Hnx eq_refl) Hfit) as (H1 & H2 & H3). rewrite Hm in H2. exists (Lq ++ [i]).
      split_and!; try done; [apply linked_frame |]. unfold linked. by destruct (msg_queue_tail mq). }
  destruct Hmq1 as (Lq' & Hs1 & Hcn & Hn & (F1 & F2 & F3 & F4 & F5) & He).
  destruct (lists_wake _ _ _ _ _ _ _ _ _ Hl Hnw) as (w & ts' & l & Ew & Er & Hw1 & Hlw & Hu).
  assert (Ht : t ∉ l ++ suspend_sender_thread mq) by (pose proof busy_not_waiting as Ht; rewrite Er in Ht; set_solver).
  exists w, ts', (set_waiting l (suspend_sender_thread mq) mq1). split.
  { assert (∀ mq2, mq1 = set_entry (entry mq2 + 1) mq2 → entry mq2 = entry mq → mq_count ts mq2 = (RT_EOK, w, ts', set_waiting l (suspend_sender_thread mq) mq1)) as Hcnt.
    { intros mq2 E1 E2. unfold mq_count. rewrite (proj2 (Z.ltb_lt _ _)) by (unfold RT_MQ_ENTRY_MAX; lia). rewrite <-E1, F4, F5, Ew. done. }
    unfold mq_link_front, mq_link. destruct urgent; apply Hcnt; try done. cbn. by destruct (msg_queue_tail mq). }
  destruct (shape_waiting _ _ _ _ Hs1 l (suspend_sender_thread mq)) as [Hs2 Hc2].
  exists held. split_and!; [|done | done |].
  - constructor; cbn.
    + rewrite F3. assert (t ∉ rr ++ w).
      { eapply rdy_kind; [apply Hlw |]. rewrite Hc. intros (? & ? & ? & [= ->]). done. }
      assert (t ∉ rs) by (eapply rdy_kind; [apply Hlw | rewrite Hc; intros (? & ? & ? & [= ->]); done]).
      rewrite <-(list_remove_notin (rr ++ w) t), <-(list_remove_notin rs t) by done.
      eapply lists_change; [exact Hlw | done | apply Hlw | done |]. intros u Hne. split; [done | by rewrite lookup_delete_ne].
    + by exists Lq', Lf.
    + constructor; cbn; rewrite ?He, ?F2.
      * intros Hne. assert (receivers mq ≠ []) as Hne' by (rewrite Er; by destruct w).
        specialize (Hkr Hne'). specialize (Hw1 Hne'). rewrite blen_app. lia.
      * intros Hne. specialize (Hks Hne). rewrite (blen_perm _ _ busy_blocks) in Hks. len.
    + eapply (conts_change mq); try done; [intros u Hne; by rewrite lookup_delete_ne | by rewrite lookup_delete_eq].
  - cbn [fst snd qs_mq]. rewrite Hc2, Hcn. pose proof (shape_blen _ _ _ _ Hsh) as Hbl. destruct urgent; cbn; (split; [lia | done]).
Qed.

(** The message is copied. *)
Lemma copy_good size :
  c = CCopy i size →
  ∃ len data, mq_copy mq i size = (len, data) ∧ good s held (Silent, mk_qs ts mq (<[t := CFree i size len data]> conts) rr rs).
Proof using Hok Hrun Hc Hi.
  intros E. pose proof Hok as [Hl (Lq & Lf & Hsh) [Hkr Hks] Hco]. cbn in Hl, Hsh, Hkr, Hks, Hco.
  pose proof (Hco t c Hc) as Hb. rewrite E in Hb. cbn [cont_ok] in Hb. destruct Hb as (Hsz & Hfit & Hheld).
  destruct (mq_copy mq i size) as [len data] eqn:Ecp. exists len, data. split; [done |].
  assert (Hbl : blocks (<[t := CFree i size len data]> conts) ≡ₚ blocks conts) by (by rewrite blocks_insert, busy_blocks).
  exists held. split_and!; [|done | done | done]. constructor; cbn.
  - apply busy_lists; [done | apply busy_not_waiting |]. intros u Hne. by rewrite lookup_insert_ne.
  - exists Lq, Lf. eapply shape_perm; [done |]. by symmetry.
  - constructor; cbn; [done |]. by rewrite (blen_perm _ _ Hbl).
  - eapply (conts_change mq); try done; [intros u Hne; by rewrite lookup_insert_ne |].
    intros c'. rewrite lookup_insert_eq. intros [= <-]. cbn [cont_ok]. exists (message (node mq i)). split; [done |].
    assert (Hlt : (i < length (msg_pool mq))%nat) by (apply (shape_bound _ _ _ _ Hsh); rewrite busy_blocks; set_solver).
    pose proof (sh_bytes _ _ _ _ Hsh i Hlt). destruct Hfit as [H0 H1].
    unfold mq_copy in Ecp. injection Ecp as <- <-. unfold message. rewrite take_take.
    destruct (Z.ltb_spec size (msg_length (node mq i))); (split; [f_equal; lia |]); len.
Qed.

(** The block is given back and a sender woken. *)
Lemma free_good size len data :
  mq_no_window s → c = CFree i size len data →
  ∃ w ts' mq', mq_recycle ts mq i = (w, ts', mq')
    ∧ good s held (Received t size len data, mk_qs ts' mq' (delete t conts) rr (rs ++ w)).
Proof using Hok Hrun Hc Hi.
  intros Hnw E. pose proof Hok as [Hl (Lq & Lf & Hsh) [Hkr Hks] Hco]. cbn in Hl, Hsh, Hkr, Hks, Hco.
  pose proof (Hco t c Hc) as Hb. rewrite E in Hb. cbn [cont_ok] in Hb. destruct Hb as (m & Hm & Hd & Hlen).
  pose proof (shape_perm _ _ _ _ Hsh _ busy_blocks) as Hsh1.
  destruct (shape_recycle _ _ _ _ _ Hsh1) as (Hs1 & Hcn & Hn).
  destruct (lists_wake _ _ _ _ _ _ _ _ _ (lists_sym _ _ _ _ _ _ _ _ _ Hl)) as (w & ts' & l & Ew & Er & Hw1 & Hlw & Hu).
  { unfold mq_no_window in Hnw. cbn in Hnw. by rewrite Permutation_app_comm. }
  apply lists_sym in Hlw.
  assert (Ht : t ∉ receivers mq ++ l) by (pose proof busy_not_waiting as Ht; rewrite Er in Ht; set_solver).
  exists w, ts', (set_waiting (receivers mq) l (recycled mq i)). split.
  { unfold mq_recycle. change (suspend_sender_thread (set_free _ _)) with (suspend_sender_thread mq). by rewrite Ew. }
  destruct (shape_waiting _ _ _ _ Hs1 (receivers mq) l) as [Hs2 Hc2].
  exists (delete t held). split_and!; [|done | done |].
  - constructor; cbn.
    + assert (t ∉ rs ++ w) by (eapply rdy_kind; [apply Hlw | rewrite Hc; intros (? & ? & ? & [= ->]); done]).
      assert (t ∉ rr) by (eapply rdy_kind; [apply Hlw | rewrite Hc; intros (? & ? & ? & [= ->]); done]).
      rewrite <-(list_remove_notin (rs ++ w) t), <-(list_remove_notin rr t) by done.
      eapply lists_change; [exact Hlw | done | apply Hlw | done |]. intros u Hne. split; [done | by rewrite lookup_delete_ne].
    + by exists Lq, (i :: Lf).
    + constructor; cbn.
      * done.
      * intros Hne. assert (suspend_sender_thread mq ≠ []) as Hne' by (rewrite Er; by destruct w).
        specialize (Hks Hne'). specialize (Hw1 Hne'). rewrite (blen_perm _ _ busy_blocks) in Hks. len.
    + eapply (conts_change mq _ held); try done; [intros u Hne; by rewrite !lookup_delete_ne | by rewrite lookup_delete_eq].
  - cbn [fst snd qs_mq q_step]. exists m. split_and!; try done. by rewrite Hc2, Hcn.
Qed.

End busy.

(** * Every step is good *)

Definition mq_step_good (s : mq_state) (held : gmap nat (list Z)) (o : mq_op) : Prop :=
  ∃ e s', mq_exec s o = Some (e, s') ∧ good s held (e, s').

(** A call of [t] begins. *)
Lemma call_idle s held t :
  mq_ok s held → t_susp (th (qs_ts s) t) = false → qs_conts s !! t = None →
  t ∉ receivers (qs_mq s) ++ suspend_sender_thread (qs_mq s) ∧ own (qs_conts s) t = [] ∧ t ∉ qs_rdy_recv s ∧ t ∉ qs_rdy_send s.
Proof.
  intros [Hl _ _ _] Hsu Hco. split_and!.
  - by apply (not_susp _ _ _ (l_wait _ _ _ _ _ _ _ _ _ Hl)).
  - apply waits_own. auto.
  - eapply rdy_kind; [apply Hl |]. rewrite Hco. by intros (? & ? & ? & ?).
  - eapply rdy_kind; [apply Hl |]. rewrite Hco. by intros (? & ? & ? & ?).
Qed.

Lemma mq_send_step s held t buffer timeout now :
  mq_ok s held → mq_enabled s (QSend t buffer timeout now) → mq_step_good s held (QSend t buffer timeout now).
Proof.
  intros Hok (Hsu & Hco & Hne). destruct (call_idle s held t Hok Hsu Hco) as (Ht & Hown & Hrr & Hrs).
  destruct s as [ts mq conts rr rs]. cbn in *. unfold mq_step_good. cbn. unfold rt_mq_send_wait, _rt_mq_send_wait.
  destruct (Z.eqb_spec (blen buffer) 0) as [E|_]; [destruct buffer; [done | exfalso; len] |].
  destruct (Z.ltb_spec (msg_size mq) (blen buffer)).
  { cbn. eexists _, _. split; [done |]. by apply (refuse_good ts mq conts rr rs held t Hok Ht Hown _ (CSend buffer) (λ _, CSend [] 0 0) (λ _, Silent)). }
  destruct (bool_decide (msg_queue_free mq = None) && (timeout =? 0)) eqn:Eb.
  { cbn. eexists _, _. split; [done |]. by apply (refuse_good ts mq conts rr rs held t Hok Ht Hown _ (CSend buffer) (λ _, CSend [] 0 0) (λ _, Silent)). }
  cbn. eexists _, _. split; [f_equal; apply surjective_pairing |]. rewrite <-surjective_pairing. by apply mq_send_round_good.
Qed.

Lemma mq_urgent_step s held t buffer :
  mq_ok s held → mq_enabled s (QUrgent t buffer) → mq_step_good s held (QUrgent t buffer).
Proof.
  intros Hok (Hsu & Hco & Hne). destruct (call_idle s held t Hok Hsu Hco) as (Ht & Hown & Hrr & Hrs).
  destruct s as [ts mq conts rr rs]. cbn in *. unfold mq_step_good. cbn. unfold rt_mq_urgent.
  destruct (Z.eqb_spec (blen buffer) 0) as [E|_]; [destruct buffer; [done | exfalso; len] |].
  pose proof (m_lists _ _ Hok) as Hl. cbn in Hl.
  assert (Hfail : ∀ r, good (mk_qs ts mq conts rr rs) held (after_urgent (mk_qs ts mq conts rr rs) t buffer (QReturns r, ts, mq))).
  { intros r. by apply refuse_good. }
  destruct (Z.ltb_spec (msg_size mq) (blen buffer)); [cbn; eexists _, _; split; [done | apply Hfail] |].
  destruct (msg_queue_free mq) as [i|] eqn:Ef; cbn; eexists _, _; (split; [done |]); [by apply take_free_good | apply Hfail].
Qed.

Lemma mq_recv_step s held t size timeout now :
  mq_ok s held → mq_enabled s (QRecv t size timeout now) → mq_step_good s held (QRecv t size timeout now).
Proof.
  intros Hok (Hsu & Hco & Hsz). destruct (call_idle s held t Hok Hsu Hco) as (Ht & Hown & Hrr & Hrs).
  destruct s as [ts mq conts rr rs]. cbn in *. unfold mq_step_good. cbn. unfold rt_mq_recv, _rt_mq_recv.
  rewrite (proj2 (Z.eqb_neq size 0)) by lia. pose proof (m_lists _ _ Hok) as Hl. cbn in Hl.
  destruct ((entry mq =? 0) && (timeout =? 0)).
  { cbn. eexists _, _. split; [done |]. by apply (refuse_good ts mq conts rr rs held t Hok Ht Hown _ (CRecv size) (λ _, CSend [] 0 0) (λ _, Silent)). }
  destruct (mq_recv_round_good ts mq conts rr rs held t Hok Ht Hown size timeout 0 now Hrs Hsz) as (x & -> & Hg). cbn.
  eexists _, _. split; [f_equal; apply surjective_pairing |]. by rewrite <-surjective_pairing.
Qed.

(** A thread that waited runs again. *)
Lemma resumed_idle s held t c :
  mq_ok s held → t_susp (th (qs_ts s) t) = false → qs_conts s !! t = Some c → is_send (Some c) ∨ is_recv (Some c) →
  t ∉ receivers (qs_mq s) ++ suspend_sender_thread (qs_mq s) ∧ own (qs_conts s) t = []
  ∧ (is_send (Some c) → t ∉ qs_rdy_recv s) ∧ (is_recv (Some c) → t ∉ qs_rdy_send s)
  ∧ (t_error (th (qs_ts s) t) ≠ RT_EOK → t ∉ qs_rdy_recv s ∧ t ∉ qs_rdy_send s).
Proof.
  intros [Hl _ _ _] Hsu Hco Hk. split_and!.
  - by apply (not_susp _ _ _ (l_wait _ _ _ _ _ _ _ _ _ Hl)).
  - apply waits_own. rewrite Hco. tauto.
  - intros (? & ? & ? & [= ->]). eapply rdy_kind; [apply Hl |]. rewrite Hco. by intros (? & ? & ? & ?).
  - intros (? & ? & ? & [= ->]). eapply rdy_kind; [apply Hl |]. rewrite Hco. by intros (? & ? & ? & ?).
  - intros He. split; intros Hin; apply He; [by apply (l_ra _ _ _ _ _ _ _ _ _ Hl) | by apply (l_rb _ _ _ _ _ _ _ _ _ Hl)].
Qed.

Lemma mq_cont_step s held t now :
  mq_ok s held → mq_enabled s (QStep t now) → mq_quiet s (QStep t now) → mq_step_good s held (QStep t now).
Proof.
  intros Hok (Hsu & [c Hco]) Hnw. cbn [mq_quiet] in Hnw. rewrite Hco in Hnw. unfold mq_step_good. cbn [mq_exec]. rewrite Hco.
  pose proof (resumed_idle s held t c Hok Hsu Hco) as Hidle. pose proof (m_conts _ _ Hok t c Hco) as Hc. pose proof (m_lists _ _ Hok) as Hl.
  destruct s as [ts mq conts rr rs]. cbn in Hsu, Hco, Hidle, Hc, Hl. destruct c as [buffer timeout tick | size timeout tick | urgent i buffer | urgent i buffer | i size | i size len data]; cbn [mq_step qs_ts qs_mq qs_conts qs_rdy_recv qs_rdy_send].
  - destruct Hidle as (Ht & Hown & Hrr & _ & Herr); [left; by eexists _, _, _ |].
    assert (is_send (Some (CSend buffer timeout tick))) as Hk by (by eexists _, _, _).
    eexists _, _. split; [f_equal; apply surjective_pairing |]. rewrite <-surjective_pairing. unfold mq_send_resume.
    destruct (Z.eqb_spec (t_error (th ts t)) RT_EOK) as [He | He]; cbn [negb].
    + apply mq_send_round_good; auto.
    + destruct (Herr He). by apply refuse_good.
  - destruct Hidle as (Ht & Hown & _ & Hrs & Herr); [right; by eexists _, _, _ |].
    assert (is_recv (Some (CRecv size timeout tick))) as Hk by (by eexists _, _, _).
    unfold mq_recv_resume. destruct (Z.eqb_spec (t_error (th ts t)) RT_EOK) as [He | He]; cbn [negb].
    + destruct (mq_recv_round_good ts mq conts rr rs held t Hok Ht Hown size (time_left timeout tick now) tick now (Hrs Hk) Hc) as (x & -> & Hg).
      cbn [mbind option_bind]. eexists _, _. split; [f_equal; apply surjective_pairing |]. by rewrite <-surjective_pairing.
    + destruct (Herr He). cbn [mbind option_bind]. eexists _, _. split; [done |].
      by apply (refuse_good ts mq conts rr rs held t Hok Ht Hown _ (CRecv size) (λ _, CSend [] 0 0) (λ _, Silent)).
  - destruct (fill_good ts mq conts rr rs held t Hok Hsu _ i Hco eq_refl urgent buffer eq_refl) as (mq' & -> & Hg). cbn [mbind option_bind]. eauto.
  - destruct (link_good ts mq conts rr rs held t Hok Hsu _ i Hco eq_refl urgent buffer Hnw eq_refl) as (w & ts' & mq' & -> & Hg).
    change (RT_EOK =? RT_EOK) with true. eauto.
  - destruct (copy_good ts mq conts rr rs held t Hok Hsu _ i Hco eq_refl size eq_refl) as (len' & data & -> & Hg). eauto.
  - destruct (free_good ts mq conts rr rs held t Hok Hsu _ i Hco eq_refl size len data Hnw eq_refl) as (w & ts' & mq' & -> & Hg). eauto.
Qed.

Lemma mq_reset_step s held : mq_ok s held → mq_no_window s → mq_step_good s held QReset.
Proof.
  intros [Hl (Lq & Lf & Hsh) Hk Hco] Hnw. destruct s as [ts mq conts rr rs]. unfold mq_no_window in Hnw. cbn in *.
  unfold mq_step_good. cbn [mq_exec qs_ts qs_mq]. unfold rt_mq_control. change (RT_IPC_CMD_RESET =? RT_IPC_CMD_RESET) with true.
  unfold mq_resume_both. destruct (lists_resume_all _ _ _ _ _ _ _ _ _ Hl Hnw) as (ts1 & ts2 & -> & -> & Hl' & _).
  destruct (shape_waiting _ _ _ _ Hsh [] []) as [Hsh1 _].
  destruct (release_all_ok _ _ _ _ Hsh1) as (mq' & Lf' & -> & Hs' & (F1 & F2 & F3 & F4 & F5) & Hn).
  cbn [mbind option_bind]. eexists _, _. split; [done |]. exists held. split_and!; [|done | done |].
  - constructor; cbn.
    + by rewrite F3, F4, F5.
    + by exists [], Lf'.
    + constructor; cbn; by rewrite ?F4, ?F5.
    + intros t c Ec. eapply cont_ok_frame; [|done | done | by apply Hco]. intros j Hj.
      assert (j ∈ blocks conts) as Hin by (apply list_elem_of_omap; exists (t, c); split; [by apply elem_of_map_to_list | done]).
      exact (Hn j Hin).
  - cbn. f_equal. by rewrite (shape_contents _ _ _ _ Hs').
Qed.

Lemma mq_expire_step s held t : mq_ok s held → mq_enabled s (QExpire t) → mq_step_good s held (QExpire t).
Proof.
  intros [Hl Hsh Hk Hco] Hen. eexists _, _. split; [done |]. exists held. split_and!; [|done | done | done].
  constructor; cbn; try done. by apply lists_expire.
Qed.

Lemma mq_timeout_step s held t : mq_ok s held → mq_enabled s (QTimeout t) → mq_step_good s held (QTimeout t).
Proof.
  intros [Hl (Lq & Lf & Hsh) [Hkr Hks] Hco] Hen. destruct s as [ts mq conts rr rs]. cbn in *.
  destruct (lists_timeout _ _ _ _ _ _ _ _ _ t (receivers mq) Hl Hen) as (ts' & E & _ & _ & Hl').
  unfold mq_step_good. cbn [mq_exec qs_ts qs_mq]. rewrite E. cbn [mbind option_bind]. eexists _, _. split; [done |].
  destruct (shape_waiting _ _ _ _ Hsh (list_remove (receivers mq) t) (list_remove (suspend_sender_thread mq) t)) as [Hsh' Hcn].
  exists held. split_and!; [|done | done | cbn; by rewrite Hcn]. constructor; cbn; try done.
  - by exists Lq, Lf.
  - constructor; cbn.
    + intros Hne. apply Hkr. by intros E0; rewrite E0 in Hne.
    + intros Hne. apply Hks. by intros E0; rewrite E0 in Hne.
Qed.

Lemma mq_step_ok s held o : mq_ok s held → mq_enabled s o → mq_quiet s o → mq_step_good s held o.
Proof.
  destruct o; intros; auto using mq_send_step, mq_urgent_step, mq_recv_step, mq_cont_step, mq_reset_step, mq_expire_step, mq_timeout_step.
Qed.

(** * Theorems *)

(** A new queue among threads of which none is suspended or inside a call. *)
Definition mq_start (ts : threads) (mq : rt_messagequeue) : mq_state := mk_qs ts mq ∅ [] [].

Section runs.
Context (ts : threads) (mem : list Z) (size flag : Z) (mq : rt_messagequeue).
Context (Hts : wait_ok ts []) (Hsize : 0 ≤ size ≤ 65535) (Hmem : is_u32 (blen mem)).
Context (Hflag : flag = RT_IPC_FLAG_FIFO ∨ flag = RT_IPC_FLAG_PRIO).
Context (Hinit : rt_mq_init mem size (blen mem) flag = (RT_EOK, Some mq)).

Lemma mq_start_ok : mq_ok (mq_start ts mq) ∅ ∧ contents mq = [] ∧ msg_size mq = size.
Proof using Hts Hsize Hmem Hflag Hinit.
  pose proof Hinit as Hi. unfold rt_mq_init in Hi. destruct (_ =? _) in Hi; [done |].
  unfold RT_ALIGN_SIZE in Hi. rewrite RT_ALIGN_8 in Hi by lia. set (align := (size + 7) / 8 * 8) in *.
  assert (Ha : size ≤ align ≤ size + 7) by (subst align; pose proof (Z.div_mod (size + 7) 8); pose proof (Z.mod_pos_bound (size + 7) 8); lia).
  rewrite (u32_small (align + SIZEOF_MQ_MESSAGE)) in Hi by (unfold is_u32, SIZEOF_MQ_MESSAGE; lia).
  set (n := blen mem / (align + SIZEOF_MQ_MESSAGE)) in *.
  assert (Hd : 0 ≤ n ∧ n * (align + SIZEOF_MQ_MESSAGE) ≤ blen mem).
  { unfold n, SIZEOF_MQ_MESSAGE. destruct Hmem. split; [apply Z.div_pos; lia |]. rewrite Z.mul_comm. apply Z.mul_div_le. lia. }
  assert (Hu : 0 ≤ u16 n ≤ 65535 ∧ u16 n ≤ n).
  { unfold u16. pose proof (Z.mod_pos_bound n 65536). split; [lia | apply Z.mod_le; lia]. }
  injection Hi as Emq.
  destruct (mq_fresh_shape mem align (u16 size) (u16 n) flag) as [(Lf & Hs) (F1 & F2 & F3 & F4 & F5)].
  { lia. }
  { rewrite u16_small by (unfold is_u16; lia). lia. }
  { lia. }
  { unfold SIZEOF_MQ_MESSAGE in *. nia. }
  rewrite Emq in Hs, F1, F2, F3, F4, F5. cbn in F1, F2, F3, F4, F5. split_and!.
  - constructor; cbn.
    + rewrite F3, F4, F5. by apply lists_start.
    + exists [], Lf. exact Hs.
    + constructor; cbn; by rewrite ?F4, ?F5.
    + intros t c. by rewrite lookup_empty.
  - by rewrite (shape_contents _ _ _ _ Hs).
  - rewrite F1. apply u16_small. unfold is_u16. lia.
Qed.

Lemma mq_run_good s tr s' held :
  mq_ok s held → mq_run s tr s' → outside_windows s tr →
  ∃ held', mq_ok s' held' ∧ max_msgs (qs_mq s') = max_msgs (qs_mq s) ∧ msg_size (qs_mq s') = msg_size (qs_mq s)
    ∧ q_run (max_msgs (qs_mq s)) (contents (qs_mq s), held) (tr.*2) (contents (qs_mq s'), held').
Proof using.
  intros Hok Hrun. revert held Hok. induction Hrun as [s | s o e s1 tr s2 Hen He Hrun IH]; intros held Hok.
  - intros _. exists held. split_and!; [done.. | constructor].
  - intros [Hqu Hw]. rewrite He in Hw. destruct (mq_step_ok s held o Hok Hen Hqu) as (e' & s1' & He' & held1 & Hok1 & Hm & Hz & Hq).
    rewrite He' in He. injection He as -> ->. cbn [fst snd] in *.
    destruct (IH held1 Hok1 Hw) as (held2 & Hok2 & Hm2 & Hz2 & Hq2). exists held2. rewrite Hm, Hz in *.
    split_and!; [done.. |]. by econstructor.
Qed.

(** A thread that a reset finds waiting returns [RT_ERROR] when it runs again. *)
Lemma reset_wakes s held :
  mq_ok s held → mq_no_window s →
  ∃ s', mq_exec s QReset = Some (WasReset, s')
    ∧ ∀ t now, t ∈ receivers (qs_mq s) ++ suspend_sender_thread (qs_mq s) →
        ∃ s'', mq_exec s' (QStep t now) = Some (Returned t RT_ERROR, s'').
Proof using.
  intros [Hl (Lq & Lf & Hsh) Hk Hco] Hnw. destruct s as [ts' mq' conts rr rs]. unfold mq_no_window in Hnw. cbn in *.
  unfold rt_mq_control. change (RT_IPC_CMD_RESET =? RT_IPC_CMD_RESET) with true.
  unfold mq_resume_both. destruct (lists_resume_all _ _ _ _ _ _ _ _ _ Hl Hnw) as (ts1 & ts2 & -> & -> & Hl' & He & _).
  destruct (shape_waiting _ _ _ _ Hsh [] []) as [Hsh1 _].
  destruct (release_all_ok _ _ _ _ Hsh1) as (mq2 & Lf' & -> & _).
  cbn [mbind option_bind]. eexists. split; [done |]. intros t now Ht. specialize (He t Ht). cbn.
  apply elem_of_app in Ht as [Ht | Ht].
  - destruct (l_ca _ _ _ _ _ _ _ _ _ Hl t Ht) as (z & n & k & ->). cbn. unfold mq_recv_resume. rewrite He.
    by eexists.
  - destruct (l_cb _ _ _ _ _ _ _ _ _ Hl t Ht) as (z & n & k & ->). cbn. unfold mq_send_resume. rewrite He.
    by eexists.
Qed.

(** C11. A message queue is a bounded queue of messages. After [rt_mq_init] on any memory, for
    any interleaving of sends and receives (blocking and not), urgent sends, the separate parts
    of calls that are under way at the same time, timeouts and resets, in which no message is
    linked, no block given back and no reset made between the expiry of a waiting thread's timer
    and its handler: the messages come out in the order they were sent, urgent ones first, each
    once and whole, up to the size of the receiver's buffer, or are dropped by a reset; every
    further step outside such a window can be carried out, without a null pointer or a byte
    written outside a block; and the non-blocking calls fail exactly when every block holds a
    message or belongs to a call, and when the queue is empty. A call that a reset finds waiting
    returns [RT_ERROR] (which is 1, so that a receiver's result looks like the length of a
    message, although none was received). *)
Theorem mq_refines_queue (tr : list (mq_op * mq_event)) (s : mq_state) (Hrun : mq_run (mq_start ts mq) tr s)
    (Hwin : outside_windows (mq_start ts mq) tr) :
  let q := contents (qs_mq s) in
  let n := max_msgs mq in
  ∃ held, q_run n ([], ∅) (tr.*2) (q, held)
  ∧ blen q = entry (qs_mq s) ∧ blen q + blen (blocks (qs_conts s)) ≤ n
  ∧ (∀ o, mq_enabled s o → mq_quiet s o →
       ∃ e s' held', mq_exec s o = Some (e, s') ∧ q_step n (q, held) e (contents (qs_mq s'), held'))
  ∧ (∀ t buffer now, mq_enabled s (QSend t buffer 0 now) → ∃ s',
       mq_exec s (QSend t buffer 0 now)
         = Some (if size <? blen buffer then Returned t (- RT_ERROR)
                 else if blen q + blen (blocks (qs_conts s)) =? n then Returned t (- RT_EFULL) else Silent, s'))
  ∧ (∀ t z now, mq_enabled s (QRecv t z 0 now) → ∃ s',
       mq_exec s (QRecv t z 0 now) = Some (match q with [] => Returned t (- RT_ETIMEOUT) | m :: _ => Taken t m end, s'))
  ∧ (mq_quiet s QReset → ∃ s', mq_exec s QReset = Some (WasReset, s')
       ∧ ∀ t now, t ∈ receivers (qs_mq s) ++ suspend_sender_thread (qs_mq s) →
           ∃ s'', mq_exec s' (QStep t now) = Some (Returned t RT_ERROR, s'')).
Proof using Hts Hsize Hmem Hflag Hinit.
  intros q n. destruct mq_start_ok as (Hok0 & E0 & Ez). destruct (mq_run_good _ _ _ _ Hok0 Hrun Hwin) as (held & Hok & Hm & Hz & Hq).
  cbn [mq_start qs_mq] in Hm, Hz, Hq. fold n in Hm, Hq. rewrite E0 in Hq. exists held.
  destruct (m_shape _ _ Hok) as (Lq & Lf & Hsh). pose proof (shape_blen _ _ _ _ Hsh) as Hb. fold q in Hb.
  pose proof (shape_count _ _ _ _ Hsh) as Hcount. rewrite <-(sh_entry _ _ _ _ Hsh), <-Hb, Hm in Hcount.
  split_and!; [done | done | pose proof (blen_nonneg Lf); lia | | | | by apply (reset_wakes s held)].
  - intros o Ho Hqu. destruct (mq_step_ok s held o Hok Ho Hqu) as (e & s' & He & held' & _ & _ & _ & Hs). cbn [fst snd] in Hs. rewrite Hm in Hs. eauto.
  - intros t buffer now (Hsu & Hco & Hne). cbn [mq_exec]. unfold rt_mq_send_wait, _rt_mq_send_wait.
    destruct (Z.eqb_spec (blen buffer) 0) as [E|_]; [destruct buffer; [done | exfalso; unfold blen in E; simpl in E; lia] |].
    rewrite Hz, Ez. destruct (size <? blen buffer); [by eexists |]. rewrite andb_true_r.
    destruct (msg_queue_free (qs_mq s)) as [i|] eqn:Ef.
    + destruct (shape_take_free _ _ _ _ Hsh i Ef) as (Lf' & -> & _). rewrite (proj2 (Z.eqb_neq _ n)) by (revert Hcount; rewrite blen_cons; pose proof (blen_nonneg Lf'); lia).
      rewrite bool_decide_eq_false_2 by done. cbn [mbind option_bind]. unfold mq_send_round. rewrite Ef. by eexists.
    + rewrite (shape_full _ _ _ _ Hsh Ef) in Hcount. change (blen []) with 0 in Hcount. rewrite (proj2 (Z.eqb_eq _ n)) by lia.
      rewrite bool_decide_eq_true_2 by done. by eexists.
  - intros t z now Ho. destruct (mq_step_ok s held _ Hok Ho I) as (e & s' & He & held' & _ & _ & _ & Hs). exists s'. rewrite He. do 2 f_equal.
    cbn [fst snd] in Hs. fold q in Hs. destruct Ho as (_ & _ & Hz0). cbn [mq_exec] in He. unfold rt_mq_recv, _rt_mq_recv in He.
    rewrite (proj2 (Z.eqb_neq z 0)), andb_true_r, <-Hb in He by lia. destruct q as [|m q'].
    + by injection He as <- _.
    + pose proof (blen_nonneg q'). rewrite blen_cons in *. rewrite (proj2 (Z.eqb_neq _ 0)) in He by lia. unfold mq_recv_round in He.
      rewrite <-Hb, (proj2 (Z.eqb_neq _ 0)) in He by lia. destruct (msg_queue_head (qs_mq s)) as [i|]; [|done].
      cbn in He. injection He as <- _. cbn in Hs. by destruct Hs as [[= ->] _].
Qed.

(** No wake-up of a message queue is lost. In every state of such a run, while a receiver waits
    each message in the queue has a receiver that was woken with success and has yet to run;
    while a sender waits each free block has such a sender. *)
Theorem mq_no_lost_wakeup (tr : list (mq_op * mq_event)) (s : mq_state) (Hrun : mq_run (mq_start ts mq) tr s)
    (Hwin : outside_windows (mq_start ts mq) tr) :
  let q := contents (qs_mq s) in
  (receivers (qs_mq s) ≠ [] → blen q ≤ blen (qs_rdy_recv s))
  ∧ (suspend_sender_thread (qs_mq s) ≠ [] → max_msgs mq - blen q - blen (blocks (qs_conts s)) ≤ blen (qs_rdy_send s)).
Proof using Hts Hsize Hmem Hflag Hinit.
  intros q. destruct mq_start_ok as (Hok0 & _ & _). destruct (mq_run_good _ _ _ _ Hok0 Hrun Hwin) as (held & Hok & Hm & _).
  destruct (m_shape _ _ Hok) as (Lq & Lf & Hsh). destruct (m_wakes _ _ Hok) as [Hr Hs].
  pose proof (shape_blen _ _ _ _ Hsh) as Hb. fold q in Hb. cbn [mq_start qs_mq] in Hm. rewrite Hm, <-Hb in Hs. rewrite <-Hb in Hr. done.
Qed.

End runs.

(** ** Witnesses *)

(** Two blocks of eight bytes, for messages of up to four. *)
Definition mq_memory : list Z := replicate 40 0.
Definition mq_demo : rt_messagequeue := default (mk_mq [] 0 0 0 None None None 0 [] []) (rt_mq_init mq_memory 4 40 RT_IPC_FLAG_FIFO).2.

(** Thread 1 waits; thread 2 sends, and before it has filled its block an interrupt (3) sends an
    urgent message; thread 4 waits for a block until thread 1 has given back the first one. *)
Definition mq_trace : list (mq_op * mq_event) :=
  [(QRecv 1 4 10 100, Blocked 1); (QSend 2 [1; 2] 0 101, Silent); (QUrgent 3 [9], Silent);
   (QStep 3 102, Silent); (QStep 3 102, SentUrgent 3 [9]); (QStep 2 103, Silent); (QStep 2 103, Sent 2 [1; 2]);
   (QSend 4 [5; 6; 7] (-1) 104, Blocked 4); (QStep 1 105, Taken 1 [9]); (QStep 1 105, Silent);
   (QStep 1 105, Received 1 4 1 [9]); (QStep 4 106, Silent); (QRecv 1 1 0 107, Taken 1 [1; 2]); (QStep 4 108, Silent);
   (QStep 1 109, Silent); (QStep 1 109, Received 1 1 1 [1]); (QStep 4 110, Sent 4 [5; 6; 7])].

Lemma mq_threads_ready : wait_ok (∅ : threads) [].
Proof. by apply wait_ok_nil. Qed.

Ltac mq_run_steps :=
  repeat (eapply qrun_step;
    [first [exact I | reflexivity | split_and!; [reflexivity | by eexists]
           | split_and!; [reflexivity | reflexivity | done]]
    | vm_compute; reflexivity |]);
  apply qrun_nil.

Lemma mq_refines_queue_witness :
  ∃ s, mq_run (mq_start ∅ mq_demo) mq_trace s ∧ contents (qs_mq s) = [[5; 6; 7]]
    ∧ ∃ held, q_run 2 ([], ∅) (mq_trace.*2) (contents (qs_mq s), held).
Proof.
  eexists ?[s]. assert (mq_run (mq_start ∅ mq_demo) mq_trace ?s) as Hrun by (unfold mq_trace; mq_run_steps).
  split; [exact Hrun |]. split; [vm_compute; reflexivity |].
  destruct (mq_refines_queue ∅ mq_memory 4 RT_IPC_FLAG_FIFO mq_demo mq_threads_ready ltac:(lia) ltac:(unfold is_u32; vm_compute; done)
    (or_introl eq_refl) ltac:(vm_compute; reflexivity) mq_trace _ Hrun ltac:(vm_compute; by repeat constructor)) as (held & Hq & _).
  exists held. exact Hq.
Defined.

(** A receiver that a reset wakes returns [RT_ERROR], which is 1: its caller takes this for a
    message of one byte, and its buffer was not written. *)
Theorem mq_reset_as_message :
  ∃ s, mq_run (mq_start ∅ mq_demo) [(QRecv 1 4 (-1) 100, Blocked 1); (QReset, WasReset); (QStep 1 101, Returned 1 1)] s.
Proof. eexists. mq_run_steps. Qed.
