(* ===== verification/MemPool.v ===== *)
(** Memory pools (rt-thread/src/mempool.c): equal blocks carved out of one stretch of memory, the
    free ones linked through their headers, with threads that wait for a block. The blocking call
    is split at [rt_schedule] as in [Mailbox]. Memory holds words at word addresses. *)

From S2P Require Import Prelude.
From S2P Require Import RtDef.
From S2P Require Import Kernel.
From S2P Require Import Waiters.
Open Scope Z_scope.

(** * The object and its operations *)

Definition RT_NULL : Z := 0.

(** The size of the pointer in front of a block. *)
Definition SIZEOF_PTR : Z := 4.

Record rt_mempool : Type := mk_mp {
  start_address : Z;
  mp_size : Z;
  block_size : Z;
  block_list : Z;
  block_total_count : Z;
  block_free_count : Z;
  suspend_thread : list nat
}.

Definition set_blocks (mp : rt_mempool) (list free : Z) : rt_mempool :=
  mk_mp (start_address mp) (mp_size mp) (block_size mp) list (block_total_count mp) free (suspend_thread mp).
Definition set_waiting (mp : rt_mempool) (l : list nat) : rt_mempool :=
  mk_mp (start_address mp) (mp_size mp) (block_size mp) (block_list mp) (block_total_count mp) (block_free_count mp) l.

Notation memory := (gmap Z Z).
Definition load (m : memory) (p : Z) : Z := default 0 (m !! p).
Definition store (m : memory) (p v : Z) : memory := <[p := v]> m.

(** The loop that links every block to the one after it; [pitch] is the size of a block with
    its header. *)
Fixpoint link_blocks (n : nat) (start pitch offset : Z) (m : memory) : memory :=
  match n with
  | O => m
  | S n =>
      link_blocks n start pitch (offset + 1)
        (store m (u32 (start + offset * pitch)) (u32 (start + (offset + 1) * pitch)))
  end.

(** What [rt_mp_init] and [rt_mp_create] share: the counters and the free list, whose last
    block is block [total - 1]. *)
Definition mp_setup (m : memory) (start size block_size total : Z) : memory * rt_mempool :=
  let pitch := u32 (block_size + SIZEOF_PTR) in
  let m := link_blocks (Z.to_nat total) start pitch 0 m in
  let m := store m (u32 (start + u32 (total - 1) * pitch)) RT_NULL in
  (m, mk_mp start size block_size start total total []).

(** [None] when an assertion fails. *)
Definition rt_mp_init (m : memory) (start size block_size : Z) : option (Z * memory * rt_mempool) :=
  if (start =? RT_NULL) || negb ((0 <? size) && (0 <? block_size)) then None else
  let size := RT_ALIGN_DOWN size RT_ALIGN_SIZE in
  let block_size := RT_ALIGN block_size RT_ALIGN_SIZE in
  let total := size / u32 (block_size + SIZEOF_PTR) in
  let '(m, mp) := mp_setup m start size block_size total in
  Some (RT_EOK, m, mp).

(** [alloc]: whether the object can be allocated; [malloc] is the heap. The outer [None] is a
    failed assertion, the inner one [RT_NULL]. *)
Definition rt_mp_create (alloc : bool) (malloc : Z → option Z) (m : memory) (block_count block_size : Z)
    : option (option (memory * rt_mempool)) :=
  if negb ((0 <? block_count) && (0 <? block_size)) then None else
  if negb alloc then Some None else
  let block_size := RT_ALIGN block_size RT_ALIGN_SIZE in
  let size := u32 (u32 (block_size + SIZEOF_PTR) * block_count) in
  match malloc size with
  | None => Some None
  | Some start => Some (Some (mp_setup m start size block_size block_count))
  end.

Definition rt_mp_detach (ts : threads) (mp : rt_mempool) : Z * list nat * threads * rt_mempool :=
  let '(woken, ts, l) := rt_susp_list_resume_all ts (suspend_thread mp) RT_ERROR in
  (RT_EOK, woken, ts, set_waiting mp l).

(** The last component is the address that is given back to the heap. *)
Definition rt_mp_delete (ts : threads) (mp : rt_mempool) : Z * list nat * threads * Z :=
  let '(woken, ts, _) := rt_susp_list_resume_all ts (suspend_thread mp) RT_ERROR in
  (RT_EOK, woken, ts, start_address mp).

(** A critical section of [rt_mp_alloc]: it returns a pointer, or blocks with the time that is
    left and the tick at which it began to wait. *)
Inductive pcall : Type :=
  | PReturns (block : Z)
  | PBlocks (time before_sleep : Z).

(** [rt_mp_alloc] after its loop; [self] is the address of the pool. *)
Definition mp_take (m : memory) (self : Z) (mp : rt_mempool) : option (Z * memory * rt_mempool) :=
  let block_ptr := block_list mp in
  if block_ptr =? RT_NULL then None else
  let mp := set_blocks mp (load m block_ptr) (block_free_count mp - 1) in
  let m := store m block_ptr self in
  Some (u32 (block_ptr + SIZEOF_PTR), m, mp).

(** One round of the loop, or what follows it. The result of suspending is not looked at. *)
Definition mp_alloc_round (ts : threads) (m : memory) (self : Z) (mp : rt_mempool) (thread : nat)
    (time before_sleep now : Z) : option (pcall * threads * memory * rt_mempool) :=
  if block_free_count mp =? 0 then
    if time =? 0
    then Some (PReturns RT_NULL, upd ts thread (set_error (th ts thread) (- RT_ETIMEOUT)), m, mp) else
    let ts := upd ts thread (set_error (th ts thread) RT_EOK) in
    let '(_, ts, l) := rt_thread_suspend_to_list ts (suspend_thread mp) thread RT_IPC_FLAG_FIFO in
    if 0 <? time
    then Some (PBlocks time now, upd ts thread (rt_timer_start (th ts thread)), m, set_waiting mp l)
    else Some (PBlocks time before_sleep, ts, m, set_waiting mp l)
  else
    match mp_take m self mp with
    | None => None
    | Some (block, m, mp) => Some (PReturns block, ts, m, mp)
    end.

(** [rt_mp_alloc] up to the first [rt_schedule]; [now] is the tick. *)
Definition rt_mp_alloc (ts : threads) (m : memory) (self : Z) (mp : rt_mempool) (thread : nat) (time now : Z)
    : option (pcall * threads * memory * rt_mempool) :=
  mp_alloc_round ts m self mp thread time 0 now.

(** [rt_mp_alloc] after [rt_schedule], when the thread runs again. *)
Definition mp_alloc_resume (ts : threads) (m : memory) (self : Z) (mp : rt_mempool) (thread : nat)
    (time before_sleep now : Z) : option (pcall * threads * memory * rt_mempool) :=
  if negb (t_error (th ts thread) =? RT_EOK) then Some (PReturns RT_NULL, ts, m, mp)
  else mp_alloc_round ts m self mp thread (time_left time before_sleep now) before_sleep now.

(** [rt_mp_free], with the threads it made ready. The pool is the one the header of the block
    points to; [None] when that is not the pool at [self]. *)
Definition rt_mp_free (ts : threads) (m : memory) (self : Z) (mp : rt_mempool) (block : Z)
    : option (list nat * threads * memory * rt_mempool) :=
  if block =? RT_NULL then Some ([], ts, m, mp) else
  let block_ptr := u32 (block - SIZEOF_PTR) in
  if negb (load m block_ptr =? self) then None else
  let free := u32 (block_free_count mp + 1) in
  let m := store m block_ptr (block_list mp) in
  let mp := set_blocks mp block_ptr free in
  let '(w, ts, l) := rt_susp_list_dequeue ts (suspend_thread mp) RT_EOK in
  Some (option_list w, ts, m, set_waiting mp l).

(** * The machine *)

(** What threads, interrupts and timers do: [PWrite block i v] is a thread that stores [v] in
    word [i] of a block it holds. *)
Inductive mp_op : Type :=
  | PAlloc (t : nat) (time now : Z)
  | PResume (t : nat) (now : Z)
  | PFree (block : Z)
  | PWrite (block i v : Z)
  | PDetach
  | PExpire (t : nat)
  | PTimeout (t : nat).

Inductive mp_event : Type :=
  | PGot (block : Z)
  | PNull
  | PBlocked
  | PSilent.

(** [ps_conts]: the blocked calls, with time and tick. [ps_rdy]: threads woken with success that
    have not run since. [ps_used]: the blocks that were handed out and not freed since. *)
Record mp_state : Type := mk_ps {
  ps_ts : threads;
  ps_mem : memory;
  ps_mp : rt_mempool;
  ps_conts : gmap nat (Z * Z);
  ps_rdy : list nat;
  ps_used : list Z
}.

Definition after_alloc (s : mp_state) (t : nat) (x : option (pcall * threads * memory * rt_mempool))
    : option (mp_event * mp_state) :=
  match x with
  | None => None
  | Some (PReturns b, ts, m, mp) =>
      let s' := mk_ps ts m mp (delete t (ps_conts s)) (list_remove (ps_rdy s) t) in
      Some (if b =? RT_NULL then (PNull, s' (ps_used s)) else (PGot b, s' (b :: ps_used s)))
  | Some (PBlocks time before, ts, m, mp) =>
      Some (PBlocked, mk_ps ts m mp (<[t := (time, before)]> (ps_conts s)) (list_remove (ps_rdy s) t) (ps_used s))
  end.

Definition word_at (block i : Z) : Z := block + 4 * i.

(** One step of the pool at [self]; [None] when an assertion fails or a pointer that is not one
    of this pool is used. *)
Definition mp_exec (self : Z) (s : mp_state) (o : mp_op) : option (mp_event * mp_state) :=
  let '(mk_ps ts m mp conts rdy used) := s in
  match o with
  | PAlloc t time now => after_alloc s t (rt_mp_alloc ts m self mp t time now)
  | PResume t now =>
      match conts !! t with
      | Some (time, before) => after_alloc s t (mp_alloc_resume ts m self mp t time before now)
      | None => Some (PSilent, s)
      end
  | PFree b =>
      match rt_mp_free ts m self mp b with
      | None => None
      | Some (w, ts, m, mp) => Some (PSilent, mk_ps ts m mp conts (rdy ++ w) (filter (λ u, u ≠ b) used))
      end
  | PWrite b i v => Some (PSilent, mk_ps ts (store m (word_at b i) v) mp conts rdy used)
  | PDetach =>
      let '(_, _, ts, mp) := rt_mp_detach ts mp in Some (PSilent, mk_ps ts m mp conts rdy used)
  | PExpire t => Some (PSilent, mk_ps (timer_expire ts t) m mp conts rdy used)
  | PTimeout t =>
      match _thread_timeout ts (suspend_thread mp) t with
      | None => None
      | Some (ts, l) => Some (PSilent, mk_ps ts m (set_waiting mp l) conts rdy used)
      end
  end.

(** No waiting thread is between the expiry of its timer and the timeout handler. *)
Definition mp_no_window (s : mp_state) : Prop :=
  Forall (λ t, t_pend (th (ps_ts s) t) = false) (suspend_thread (ps_mp s)).

(** A thread calls when it is not inside a call and runs again when it was woken; blocks are
    freed and written by those who hold them, within their size. Blocks are freed and the pool is
    detached at any time, also between the expiry of a timer and its handler. *)
Definition mp_enabled (s : mp_state) (o : mp_op) : Prop :=
  match o with
  | PAlloc t _ _ => t_susp (th (ps_ts s) t) = false ∧ ps_conts s !! t = None
  | PResume t _ => t_susp (th (ps_ts s) t) = false ∧ is_Some (ps_conts s !! t)
  | PFree b => b = RT_NULL ∨ b ∈ ps_used s
  | PWrite b i _ => b ∈ ps_used s ∧ 0 ≤ i < block_size (ps_mp s) / 4
  | PDetach => True
  | PExpire t => t_active (th (ps_ts s) t) = true
  | PTimeout t => t_pend (th (ps_ts s) t) = true
  end.

(** The operation wakes nobody inside the window of a timeout. *)
Definition mp_quiet (s : mp_state) (o : mp_op) : Prop :=
  match o with PFree _ | PDetach => mp_no_window s | _ => True end.

Inductive mp_run (self : Z) : mp_state → list (mp_op * mp_event) → mp_state → Prop :=
  | prun_nil s : mp_run self s [] s
  | prun_step s o e s' tr s'' :
      mp_enabled s o → mp_exec self s o = Some (e, s') → mp_run self s' tr s'' →
      mp_run self s ((o, e) :: tr) s''.

(** No block is freed and the pool is not detached in the window of a timeout. *)
Fixpoint outside_windows (self : Z) (s : mp_state) (tr : list (mp_op * mp_event)) : Prop :=
  match tr with
  | [] => True
  | (o, _) :: tr =>
      mp_quiet s o ∧ match mp_exec self s o with Some (_, s) => outside_windows self s tr | None => True end
  end.

(** * The specification *)

(** An allocator of the blocks [bs]: the blocks in use with the words they hold. *)
Inductive a_step (bs : list Z) : gmap Z (list Z) → mp_op * mp_event → gmap Z (list Z) → Prop :=
  | a_got a o b w : b ∈ bs → a !! b = None → a_step bs a (o, PGot b) (<[b := w]> a)
  | a_full a t now : (∀ b, b ∈ bs → is_Some (a !! b)) → a_step bs a (PAlloc t 0 now, PNull) a
  | a_failed a t now : a_step bs a (PResume t now, PNull) a
  | a_blocked a o : (∀ b, b ∈ bs → is_Some (a !! b)) → a_step bs a (o, PBlocked) a
  | a_free a b : a_step bs a (PFree b, PSilent) (delete b a)
  | a_write a b i v w :
      a !! b = Some w → 0 ≤ i < blen w →
      a_step bs a (PWrite b i v, PSilent) (<[b := <[Z.to_nat i := v]> w]> a)
  | a_detach a : a_step bs a (PDetach, PSilent) a
  | a_expire a t : a_step bs a (PExpire t, PSilent) a
  | a_timeout a t : a_step bs a (PTimeout t, PSilent) a.

Inductive a_run (bs : list Z) : gmap Z (list Z) → list (mp_op * mp_event) → gmap Z (list Z) → Prop :=
  | arun_nil a : a_run bs a [] a
  | arun_step a x a' tr a'' : a_step bs a x a' → a_run bs a' tr a'' → a_run bs a (x :: tr) a''.

(** * Blocks and headers *)

Definition pitch (mp : rt_mempool) : Z := block_size mp + SIZEOF_PTR.
Definition header (mp : rt_mempool) (k : Z) : Z := start_address mp + k * pitch mp.
Definition headers (mp : rt_mempool) : list Z := header mp <$> seqZ 0 (block_total_count mp).
Definition block_of (p : Z) : Z := p + SIZEOF_PTR.
Definition header_of (b : Z) : Z := b - SIZEOF_PTR.
Definition blocks (mp : rt_mempool) : list Z := block_of <$> headers mp.

(** The words of a block. *)
Definition words (m : memory) (mp : rt_mempool) (b : Z) : list Z :=
  (λ i, load m (word_at b i)) <$> seqZ 0 (block_size mp / 4).

Record geometry (mp : rt_mempool) : Prop := {
  g_start : 0 < start_address mp;
  g_size : 8 ≤ block_size mp ∧ (8 | block_size mp);
  g_total : 0 ≤ block_total_count mp;
  g_end : start_address mp + block_total_count mp * pitch mp < 4294967296
}.

Lemma elem_headers mp p : p ∈ headers mp ↔ ∃ k, 0 ≤ k < block_total_count mp ∧ p = header mp k.
Proof.
  unfold headers. rewrite list_elem_of_fmap. setoid_rewrite elem_of_seqZ. split; intros (k & H1 & H2); exists k; (split; [lia | done]) || (split; [done | lia]).
Qed.

Lemma elem_blocks mp b : b ∈ blocks mp ↔ header_of b ∈ headers mp.
Proof.
  unfold blocks, block_of, header_of. rewrite list_elem_of_fmap. split.
  - intros (p & -> & Hp). by replace (p + SIZEOF_PTR - SIZEOF_PTR) with p by lia.
  - intros Hp. eexists. split; [|exact Hp]. lia.
Qed.

Section geometry.
Context (mp : rt_mempool) (Hg : geometry mp).

Lemma header_inj j k : header mp j = header mp k → j = k.
Proof. destruct Hg as [_ [Hs _] _ _]. unfold header, pitch, SIZEOF_PTR. intros. nia. Qed.

Lemma NoDup_headers : NoDup (headers mp).
Proof. apply NoDup_fmap_2; [|apply NoDup_seqZ]. intros j k. apply header_inj. Qed.

Lemma header_range p : p ∈ headers mp → 0 < p ∧ block_of p < 4294967296.
Proof.
  rewrite elem_headers. intros (k & Hk & ->). destruct Hg as [Hst [Hs _] _ He]. unfold block_of, header, pitch, SIZEOF_PTR in *. nia.
Qed.

(** A word of one block is neither a header nor a word of another block. *)
Lemma word_not_header p q i : p ∈ headers mp → q ∈ headers mp → 0 ≤ i < block_size mp / 4 → word_at (block_of p) i ≠ q.
Proof.
  rewrite !elem_headers. intros (j & Hj & ->) (k & Hk & ->) Hi. destruct Hg as [_ [Hs _] _ _].
  assert (4 * i + 4 ≤ block_size mp) by (Z.div_mod_to_equations; lia).
  unfold word_at, block_of, header, pitch, SIZEOF_PTR. destruct (Z.le_gt_cases k j); nia.
Qed.

Lemma word_inj p q i j :
  p ∈ headers mp → q ∈ headers mp → 0 ≤ i < block_size mp / 4 → 0 ≤ j < block_size mp / 4 →
  word_at (block_of p) i = word_at (block_of q) j → p = q ∧ i = j.
Proof.
  rewrite !elem_headers. intros (k & Hk & ->) (l & Hl & ->) Hi Hj. destruct Hg as [_ [Hs _] _ _].
  assert (4 * i + 4 ≤ block_size mp ∧ 4 * j + 4 ≤ block_size mp) by (Z.div_mod_to_equations; lia).
  unfold word_at, block_of, header, pitch, SIZEOF_PTR. intros E.
  assert (k = l) as -> by (destruct (Z.lt_trichotomy k l) as [|[|]]; [nia | done | nia]). split; [done | lia].
Qed.

Lemma load_stored m p v : load (store m p v) p = v.
Proof. unfold load, store. by rewrite lookup_insert_eq. Qed.

Lemma load_other m p q v : p ≠ q → load (store m p v) q = load m q.
Proof. intros. unfold load, store. by rewrite lookup_insert_ne. Qed.

(** A change of a header leaves the words of all blocks. *)
Lemma words_header m p b v : p ∈ headers mp → b ∈ blocks mp → words (store m p v) mp b = words m mp b.
Proof.
  intros Hp Hb. apply list_fmap_ext. intros x i [-> Hi]%lookup_seqZ. apply load_other.
  apply elem_blocks in Hb. replace b with (block_of (header_of b)) by (unfold block_of, header_of; lia).
  intros E. by eapply (word_not_header (header_of b) p); [.. | symmetry; exact E]; [done | done | lia].
Qed.

(** A store in a block changes that word and no other block. *)
Lemma words_store m b c i v :
  b ∈ blocks mp → c ∈ blocks mp → 0 ≤ i < block_size mp / 4 →
  words (store m (word_at b i) v) mp c = if decide (b = c) then <[Z.to_nat i := v]> (words m mp c) else words m mp c.
Proof.
  intros Hb Hc Hi. apply elem_blocks in Hb, Hc.
  assert (Eb : ∀ x, block_of (header_of x) = x) by (intros x; unfold block_of, header_of; lia).
  apply list_eq. intros j. unfold words at 1. rewrite list_lookup_fmap.
  assert (Hj : ∀ x, seqZ 0 (block_size mp / 4) !! j = Some x → x = Z.of_nat j ∧ 0 ≤ x < block_size mp / 4)
    by (intros x [-> ?]%lookup_seqZ; lia).
  case_decide as E.
  - subst c. destruct (decide (j = Z.to_nat i)) as [->|Hne].
    + rewrite list_lookup_insert_eq by (unfold words; rewrite length_fmap, length_seqZ; lia).
      rewrite lookup_seqZ_lt by lia. simpl. f_equal. replace (0 + Z.of_nat (Z.to_nat i)) with i by lia. apply load_stored.
    + rewrite list_lookup_insert_ne by done. unfold words. rewrite list_lookup_fmap.
      destruct (seqZ _ _ !! j) as [x|] eqn:Ex; [|done]. destruct (Hj x eq_refl) as [-> ?]. simpl. f_equal.
      apply load_other. unfold word_at. lia.
  - unfold words. rewrite list_lookup_fmap. destruct (seqZ _ _ !! j) as [x|] eqn:Ex; [|done].
    destruct (Hj x eq_refl) as [-> ?]. simpl. f_equal. apply load_other. intros Ew. apply E.
    rewrite <-(Eb b), <-(Eb c) in Ew |- *. by destruct (word_inj _ _ _ _ Hb Hc Hi ltac:(eassumption) Ew) as [-> _].
Qed.

End geometry.

(** * The invariant *)

(** The free blocks, from [p] on. *)
Fixpoint chain (m : memory) (p : Z) (L : list Z) : Prop :=
  match L with
  | [] => p = RT_NULL
  | q :: L => p = q ∧ chain m (load m q) L
  end.

Lemma free_chain_frame m m' p L : (∀ q, q ∈ L → load m' q = load m q) → chain m p L → chain m' p L.
Proof.
  revert p. induction L as [|q L IH]; intros p Hm; simpl; [done |]. intros [-> Hc]. split; [done |].
  rewrite Hm by set_solver. apply IH; [|done]. intros q' Hq'. apply Hm. set_solver.
Qed.

(** Every block is either on the free list or handed out, and a block that is handed out points
    to its pool. *)
Record blocks_ok (self : Z) (m : memory) (mp : rt_mempool) (used L : list Z) : Prop := {
  b_geom : geometry mp;
  b_chain : chain m (block_list mp) L;
  b_perm : L ++ (header_of <$> used) ≡ₚ headers mp;
  b_count : block_free_count mp = blen L;
  b_self : ∀ b, b ∈ used → load m (header_of b) = self
}.

Section blocks.
Context (self : Z) (m : memory) (mp : rt_mempool) (used L : list Z) (Hb : blocks_ok self m mp used L).

Lemma used_header b : b ∈ used → header_of b ∈ headers mp ∧ header_of b ∉ L.
Proof.
  intros Hin. assert (Hh : header_of b ∈ header_of <$> used) by (by apply list_elem_of_fmap_2).
  pose proof (NoDup_headers mp (b_geom _ _ _ _ _ Hb)) as Hn. rewrite <-(b_perm _ _ _ _ _ Hb) in Hn |- *.
  split; [set_solver |]. apply NoDup_app in Hn as (_ & Hd & _). intros HL. by apply (Hd (header_of b)).
Qed.

Lemma used_blocks b : b ∈ used → b ∈ blocks mp.
Proof. intros Hin. apply elem_blocks. by apply used_header. Qed.

Lemma used_nodup : NoDup used.
Proof.
  pose proof (NoDup_headers mp (b_geom _ _ _ _ _ Hb)) as Hn. rewrite <-(b_perm _ _ _ _ _ Hb) in Hn.
  apply NoDup_app in Hn as (_ & _ & Hn). by apply NoDup_fmap_1 in Hn.
Qed.

Lemma blocks_count : blen L + blen used = block_total_count mp.
Proof.
  pose proof (Permutation_length (b_perm _ _ _ _ _ Hb)) as E. unfold headers in E.
  rewrite length_app, !length_fmap, length_seqZ in E. pose proof (g_total _ (b_geom _ _ _ _ _ Hb)). unfold blen. lia.
Qed.

(** No free block: all are handed out. *)
Lemma blocks_full b : block_free_count mp = 0 → b ∈ blocks mp → b ∈ used.
Proof.
  intros Hz Hin%elem_blocks. rewrite (b_count _ _ _ _ _ Hb) in Hz. destruct L as [|q L']; [|len].
  rewrite <-(b_perm _ _ _ _ _ Hb) in Hin. simpl in Hin. apply list_elem_of_fmap in Hin as (c & E & Hc).
  unfold header_of in E. by replace b with c by lia.
Qed.

Lemma blocks_waiting l : blocks_ok self m (set_waiting mp l) used L.
Proof. destruct Hb as [[]]. by constructor. Qed.

(** Taking the first free block. *)
Lemma take_ok :
  block_free_count mp ≠ 0 →
  ∃ b m' mp', mp_take m self mp = Some (b, m', mp') ∧ 0 < b ∧ b ∈ blocks mp ∧ b ∉ used
    ∧ blocks_ok self m' mp' (b :: used) (tail L) ∧ (∀ c, c ∈ blocks mp → words m' mp c = words m mp c)
    ∧ mp' = set_blocks mp (block_list mp') (block_free_count mp - 1).
Proof.
  intros Hz. pose proof Hb as [Hg Hc Hp Hn Hs]. destruct L as [|p L']; [len |]. simpl in Hc. destruct Hc as [Ep Hc].
  assert (Hin : p ∈ headers mp) by (rewrite <-Hp; set_solver). destruct (header_range mp Hg p Hin) as [H0 H1].
  pose proof (NoDup_headers mp Hg) as Hnd. rewrite <-Hp in Hnd. simpl in Hnd. apply NoDup_cons in Hnd as [Hnot _].
  assert (Ehb : header_of (block_of p) = p) by (unfold block_of, header_of; lia).
  unfold mp_take. rewrite Ep. destruct (Z.eqb_spec p RT_NULL) as [->|_]; [done |].
  rewrite u32_small by (unfold is_u32, block_of, SIZEOF_PTR in *; lia). fold (block_of p).
  eexists _, _, _. split_and!; [done | unfold block_of, SIZEOF_PTR; lia | by rewrite elem_blocks, Ehb | | | |].
  - intros Hu. apply Hnot. rewrite <-Ehb. apply elem_of_app. right. by apply list_elem_of_fmap_2.
  - constructor; simpl; [by destruct Hg | | | len |].
    + eapply free_chain_frame; [|exact Hc]. intros q Hq. apply load_other. set_solver.
    + rewrite Ehb, <-Permutation_middle. exact Hp.
    + intros b [->|Hu]%elem_of_cons; [rewrite Ehb; apply load_stored |]. rewrite load_other; [by apply Hs |].
      intros ->. apply Hnot, elem_of_app. right. by apply list_elem_of_fmap_2.
  - intros c Hcb. by apply words_header.
  - done.
Qed.

Lemma filter_notin (l : list Z) b : b ∉ l → filter (λ u, u ≠ b) l = l.
Proof.
  induction l as [|c l IH]; intros Hn; [done |]. apply not_elem_of_cons in Hn as [Hne Hn].
  rewrite filter_cons_True by done. by rewrite IH.
Qed.

(** The address of a block that is in use leads back to its header. *)
Lemma block_address b :
  b ∈ used → 4 < b ∧ u32 (b - SIZEOF_PTR) = header_of b ∧ u32 (block_free_count mp + 1) = block_free_count mp + 1.
Proof.
  intros Hu. pose proof blocks_count as Hc. pose proof Hb as [Hg _ _ Hn _]. destruct (header_range mp Hg (header_of b)) as [H1 H2]; [by apply used_header |].
  assert (1 ≤ blen used) by (destruct used; [by apply elem_of_nil in Hu | len]). destruct Hg.
  unfold block_of, header_of, pitch, SIZEOF_PTR in *. split; [lia |]. split; apply u32_small; unfold is_u32, blen in *; nia.
Qed.

(** Linking a block back. *)
Lemma give_ok b :
  b ∈ used →
  let m' := store m (header_of b) (block_list mp) in
  let mp' := set_blocks mp (header_of b) (block_free_count mp + 1) in
  blocks_ok self m' mp' (filter (λ u, u ≠ b) used) (header_of b :: L) ∧ (∀ c, c ∈ blocks mp → words m' mp c = words m mp c).
Proof.
  intros Hu m' mp'. pose proof Hb as [Hg Hc Hp Hn Hs]. destruct (used_header b Hu) as [Hh HL].
  split; [|intros c Hcb; by apply words_header].
  destruct (list_elem_of_split used b Hu) as (u1 & u2 & Eu). pose proof used_nodup as Hnd. rewrite Eu in Hnd.
  apply NoDup_app in Hnd as (_ & Hd & Hnd). apply NoDup_cons in Hnd as [Hn2 _].
  assert (Ef : filter (λ u, u ≠ b) used = u1 ++ u2).
  { rewrite Eu, filter_app, filter_cons_False by (intros Hne; by apply Hne). rewrite !filter_notin; [done | done |].
    intros Hb1. apply (Hd b Hb1). set_solver. }
  constructor; simpl; [by destruct Hg | | | len |].
  - split; [done |]. subst m'. rewrite load_stored. eapply free_chain_frame; [|exact Hc]. intros q Hq. apply load_other. set_solver.
  - change (headers mp') with (headers mp). rewrite Ef, <-Hp, Eu, !fmap_app, fmap_cons. rewrite !(app_assoc L). rewrite <-Permutation_middle. done.
  - intros c Hin. apply list_elem_of_filter in Hin as [Hne Hin]. subst m'. rewrite load_other by (unfold header_of; lia). by apply Hs.
Qed.

(** Writing in a block. *)
Lemma write_ok b i v :
  b ∈ used → 0 ≤ i < block_size mp / 4 → blocks_ok self (store m (word_at b i) v) mp used L.
Proof.
  intros Hu Hi. pose proof Hb as [Hg Hc Hp Hn Hs]. destruct (used_header b Hu) as [Hh _].
  assert (Hld : ∀ q, q ∈ headers mp → load (store m (word_at b i) v) q = load m q).
  { intros q Hq. apply load_other. replace b with (block_of (header_of b)) by (unfold block_of, header_of; lia).
    by apply (word_not_header mp Hg). }
  constructor; [done | | done | done |].
  - eapply free_chain_frame; [|exact Hc]. intros q Hq. apply Hld. rewrite <-Hp. set_solver.
  - intros c Hin. rewrite Hld by (by apply used_header). by apply Hs.
Qed.

End blocks.

(** * Steps *)

(** Only the list of waiting threads that want a block is in use. *)
Definition wants (c : option (Z * Z)) : Prop := is_Some c.
Definition gives (c : option (Z * Z)) : Prop := False.

(** [p_wake]: while threads wait, no more blocks are free than threads are on their way to
    take one. *)
Record mp_ok (self : Z) (s : mp_state) (a : gmap Z (list Z)) : Prop := {
  p_blocks : ∃ L, blocks_ok self (ps_mem s) (ps_mp s) (ps_used s) L;
  p_lists : lists_ok wants gives (ps_ts s) RT_IPC_FLAG_FIFO (suspend_thread (ps_mp s)) [] (ps_conts s) (ps_rdy s) [];
  p_wake : suspend_thread (ps_mp s) ≠ [] → block_free_count (ps_mp s) ≤ blen (ps_rdy s);
  p_abs : ∀ b, a !! b = if decide (b ∈ ps_used s) then Some (words (ps_mem s) (ps_mp s) b) else None
}.

Definition same_pool (mp mp' : rt_mempool) : Prop :=
  start_address mp' = start_address mp ∧ block_size mp' = block_size mp ∧ block_total_count mp' = block_total_count mp.

Lemma same_pool_blocks mp mp' : same_pool mp mp' → blocks mp' = blocks mp.
Proof. intros (E1 & E2 & E3). unfold blocks, headers. rewrite E3. f_equal. apply list_fmap_ext. intros ? k _. unfold header, pitch. by rewrite E1, E2. Qed.

Lemma abs_full self s a b : mp_ok self s a → block_free_count (ps_mp s) = 0 → b ∈ blocks (ps_mp s) → is_Some (a !! b).
Proof.
  intros [[L HL] _ _ Ha] Hz Hin. rewrite Ha, decide_True; [done |]. by eapply blocks_full.
Qed.

Lemma caller_not_waiting self s a t : mp_ok self s a → t_susp (th (ps_ts s) t) = false → t ∉ suspend_thread (ps_mp s) ++ [].
Proof. intros [_ Hl _ _] Ht. by apply (not_susp _ _ _ (l_wait _ _ _ _ _ _ _ _ _ Hl)). Qed.

(** A call ends without a block; [t] had no success to report. *)
Lemma null_good self s a t ts' :
  mp_ok self s a → t_susp (th (ps_ts s) t) = false → t ∉ ps_rdy s ∨ block_free_count (ps_mp s) = 0 →
  (ts' = ps_ts s ∨ ∃ e, ts' = upd (ps_ts s) t (set_error (th (ps_ts s) t) e)) →
  mp_ok self (mk_ps ts' (ps_mem s) (ps_mp s) (delete t (ps_conts s)) (list_remove (ps_rdy s) t) (ps_used s)) a.
Proof.
  intros Hok Ht Hr Hts. pose proof (caller_not_waiting _ _ _ _ Hok Ht) as Hnw. destruct Hok as [HL Hl Hw Ha].
  constructor; simpl; [done | | | done].
  - change (@nil nat) with (list_remove [] t) at 2. pose proof (l_wait _ _ _ _ _ _ _ _ _ Hl) as Hwt.
    eapply lists_change; [exact Hl | exact Hnw | | |]; destruct Hts as [-> | [e ->]]; try done;
      [by apply wait_ok_error | by apply same_prio_upd | |];
      intros u Hu; (split; [|by rewrite lookup_delete_ne]); [done | by apply th_upd_ne].
  - intros Hs. specialize (Hw Hs). destruct Hr as [Hr|Hr]; [by rewrite list_remove_notin | len].
Qed.

(** A round of the loop: a block is handed out, or all blocks are in use. *)
Lemma round_good self s a t time before now :
  mp_ok self s a → t_susp (th (ps_ts s) t) = false →
  ∃ e s' a', after_alloc s t (mp_alloc_round (ps_ts s) (ps_mem s) self (ps_mp s) t time before now) = Some (e, s')
    ∧ mp_ok self s' a' ∧ same_pool (ps_mp s) (ps_mp s')
    ∧ ((∃ b w, e = PGot b ∧ b ∈ blocks (ps_mp s) ∧ a !! b = None ∧ a' = <[b := w]> a)
       ∨ (block_free_count (ps_mp s) = 0 ∧ a' = a ∧ (e = PBlocked ∨ e = PNull ∧ time = 0))).
Proof.
  intros Hok Ht. pose proof (caller_not_waiting _ _ _ _ Hok Ht) as Hnw. pose proof Hok as [[L HL] Hl Hw Ha].
  unfold mp_alloc_round. destruct (Z.eqb_spec (block_free_count (ps_mp s)) 0) as [Hz|Hz].
  - destruct (Z.eqb_spec time 0) as [->|Htime].
    + eexists PNull, _, a. split; [done |]. split; [|by split; [|right; auto]].
      eapply (null_good _ _ _ _ _ Hok Ht); eauto.
    + destruct (block_spec (ps_ts s) _ (suspend_thread (ps_mp s)) t RT_IPC_FLAG_FIFO RT_EOK time
        (l_wait _ _ _ _ _ _ _ _ _ Hl) Hnw) as (ts1 & -> & Hw2 & Hs2 & Hu2 & _); [by left |].
      set (ts2 := if 0 <? time then upd ts1 t (rt_timer_start (th ts1 t)) else ts1) in *.
      assert (Hgood : ∀ c, mp_ok self (mk_ps ts2 (ps_mem s)
          (set_waiting (ps_mp s) (rt_susp_list_enqueue (ps_ts s) (suspend_thread (ps_mp s)) t RT_IPC_FLAG_FIFO))
          (<[t := c]> (ps_conts s)) (list_remove (ps_rdy s) t) (ps_used s)) a).
      { intros c. constructor; simpl; [exists L; by apply blocks_waiting | | intros _; rewrite Hz; len | done].
        change (@nil nat) with (list_remove [] t) at 2. apply (lists_enqueue _ _ _ _ _ _ _ _ _ _ _ _ Hl); try done. by eexists. }
      subst ts2. destruct (0 <? time); eexists PBlocked, _, a; (split; [done |]); (split; [apply Hgood |]); (split; [done |]); right; auto.
  - destruct (take_ok _ _ _ _ _ HL Hz) as (b & m' & mp' & -> & H0 & Hin & Hnu & HL' & Hwd & Emp). simpl.
    destruct (Z.eqb_spec b RT_NULL) as [->|_]; [done |]. eexists (PGot b), _, (<[b := words m' mp' b]> a).
    split; [done |]. split_and!; [| by rewrite Emp | left; exists b, (words m' mp' b); split_and!; try done; by rewrite Ha, decide_False].
    constructor; simpl; [by eexists | | |].
    + change (@nil nat) with (list_remove [] t) at 2. rewrite Emp. simpl.
      apply (lists_change _ _ _ _ _ _ _ _ _ _ _ _ Hl); [done | apply Hl | done |]. intros u Hu. by rewrite lookup_delete_ne.
    + rewrite Emp. simpl. intros Hs. specialize (Hw Hs). destruct (l_ra _ _ _ _ _ _ _ _ _ Hl) as [Hnd _].
      pose proof (list_remove_blen (ps_rdy s) t Hnd). lia.
    + intros c. destruct (decide (b = c)) as [->|Hne].
      * rewrite lookup_insert_eq, decide_True by set_solver. done.
      * rewrite lookup_insert_ne, Ha by done. destruct (decide (c ∈ ps_used s)) as [Hc|Hc].
        -- rewrite decide_True by set_solver. f_equal. rewrite Emp. change (words m' _ c) with (words m' (ps_mp s) c).
           symmetry. apply Hwd. by eapply used_blocks.
        -- by rewrite decide_False by set_solver.
Qed.

(** What a step has to show. *)
Definition mp_step_good (self : Z) (s : mp_state) (a : gmap Z (list Z)) (o : mp_op) : Prop :=
  ∃ e s' a', mp_exec self s o = Some (e, s') ∧ mp_ok self s' a' ∧ same_pool (ps_mp s) (ps_mp s')
    ∧ a_step (blocks (ps_mp s)) a (o, e) a'.

Lemma alloc_step self s a t time now :
  mp_ok self s a → mp_enabled s (PAlloc t time now) → mp_step_good self s a (PAlloc t time now).
Proof.
  intros Hok [Ht Hc]. destruct (round_good self s a t time 0 now Hok Ht) as (e & s' & a' & E & Hok' & Hsame & Hout).
  exists e, s', a'. split_and!; [by destruct s | done | done |].
  destruct Hout as [(b & w & -> & Hin & Hnone & ->) | (Hz & -> & [-> | [-> ->]])];
    [by apply a_got | apply a_blocked | apply a_full]; intros b Hin; by apply (abs_full _ _ _ b Hok).
Qed.

Lemma alloc_resume_step self s a t now :
  mp_ok self s a → mp_enabled s (PResume t now) → mp_step_good self s a (PResume t now).
Proof.
  intros Hok [Ht [[time before] Hc]]. destruct s as [ts m mp conts rdy used]. unfold mp_step_good. simpl in *. rewrite Hc.
  unfold mp_alloc_resume. destruct (Z.eqb_spec (t_error (th ts t)) RT_EOK) as [He|He]; simpl.
  - destruct (round_good self _ a t (time_left time before now) before now Hok Ht) as (e & s' & a' & E & Hok' & Hsame & Hout).
    exists e, s', a'. split_and!; [done | done | done |].
    destruct Hout as [(b & w & -> & Hin & Hnone & ->) | (Hz & -> & [-> | [-> _]])];
      [by apply a_got | apply a_blocked; intros b Hin; by apply (abs_full _ _ _ b Hok) | apply a_failed].
  - eexists PNull, _, a. split; [done |]. split; [|by split; [|constructor]].
    apply (null_good self _ a t ts Hok Ht); [|by left]. left. intros Hin.
    destruct (l_ra _ _ _ _ _ _ _ _ _ (p_lists _ _ _ Hok)) as [_ Hr]. by destruct (Hr t Hin) as (_ & ? & _).
Qed.

Lemma dequeue_wake ts l :
  rt_susp_list_dequeue ts l RT_EOK = (let '(w, ts', l') := wake_first ts l in (head w, ts', l')).
Proof. destruct l as [|t l]; [done |]. unfold wake_first. by destruct (rt_susp_list_dequeue ts (t :: l) RT_EOK) as [[[u|] ts'] l']. Qed.

Lemma free_step self s a b : mp_ok self s a → mp_enabled s (PFree b) → mp_no_window s → mp_step_good self s a (PFree b).
Proof.
  intros [[L HL] Hl Hw Ha] Hb Hnw. destruct s as [ts m mp conts rdy used]. unfold mp_no_window, mp_step_good in *. simpl in *.
  unfold rt_mp_free. destruct (Z.eqb_spec b RT_NULL) as [->|Hb0].
  { assert (Hn : RT_NULL ∉ used) by (intros Hin; destruct (block_address _ _ _ _ _ HL _ Hin) as [? _]; unfold RT_NULL in *; lia).
    eexists PSilent, _, (delete RT_NULL a). split; [done |]. rewrite app_nil_r, filter_notin by done. split; [|by split; [|apply a_free]].
    rewrite delete_id by (by rewrite Ha, decide_False). by constructor; [exists L | ..]. }
  destruct Hb as [->|Hu]; [done |]. destruct (block_address _ _ _ _ _ HL b Hu) as (_ & -> & ->).
  rewrite (b_self _ _ _ _ _ HL b Hu), Z.eqb_refl. simpl.
  rewrite dequeue_wake. destruct (lists_wake _ _ _ _ _ _ _ _ _ Hl) as (w & ts' & l & -> & EA & Hone & Hl' & _); [by rewrite app_nil_r |].
  destruct (give_ok _ _ _ _ _ HL b Hu) as [HL' Hwd]. assert (option_list (head w) = w) as ->.
  { destruct w as [|t w]; [done |]. rewrite EA in Hone. specialize (Hone ltac:(done)). destruct w; [done | len]. }
  eexists PSilent, _, (delete b a). split; [done |]. split; [|by split; [|apply a_free]]. constructor; simpl.
  - eexists. by apply blocks_waiting.
  - done.
  - intros Hne. assert (suspend_thread mp ≠ []) as Hs by (rewrite EA; by destruct w). specialize (Hw Hs). specialize (Hone Hs). len.
  - intros c. destruct (decide (b = c)) as [->|Hne].
    + rewrite lookup_delete_eq, decide_False; [done |]. rewrite list_elem_of_filter. tauto.
    + rewrite lookup_delete_ne, Ha by done. destruct (decide (c ∈ used)) as [Hc|Hc].
      * rewrite decide_True by (rewrite list_elem_of_filter; done). f_equal. symmetry. apply Hwd. by eapply used_blocks.
      * rewrite decide_False; [done |]. rewrite list_elem_of_filter. tauto.
Qed.

Lemma write_step self s a b i v : mp_ok self s a → mp_enabled s (PWrite b i v) → mp_step_good self s a (PWrite b i v).
Proof.
  intros [[L HL] Hl Hw Ha] [Hu Hi]. destruct s as [ts m mp conts rdy used]. unfold mp_step_good. simpl in *.
  pose proof (b_geom _ _ _ _ _ HL) as Hg. pose proof (used_blocks _ _ _ _ _ HL b Hu) as Hb.
  eexists PSilent, _, (<[b := <[Z.to_nat i := v]> (words m mp b)]> a). split; [done |]. split_and!; [| done |].
  - constructor; simpl; [exists L; by apply write_ok | done | done |]. intros c. destruct (decide (b = c)) as [<-|Hne].
    + rewrite lookup_insert_eq, decide_True by done. f_equal. rewrite (words_store mp Hg) by done. by rewrite decide_True.
    + rewrite lookup_insert_ne, Ha by done. case_decide as Hc; [|done]. f_equal.
      rewrite (words_store mp Hg) by (done || by eapply used_blocks). by rewrite decide_False.
  - apply a_write; [by rewrite Ha, decide_True |]. unfold blen, words. rewrite length_fmap, length_seqZ. lia.
Qed.

Lemma detach_step self s a : mp_ok self s a → mp_no_window s → mp_step_good self s a PDetach.
Proof.
  intros [[L HL] Hl Hw Ha] Hnw. destruct s as [ts m mp conts rdy used]. unfold mp_no_window, mp_step_good in *. simpl in *.
  destruct (lists_resume_all _ _ _ _ _ _ _ _ _ Hl) as (ts1 & ts2 & E1 & E2 & Hl' & _); [by rewrite app_nil_r |].
  unfold rt_mp_detach. rewrite E1. injection E2 as <-. eexists PSilent, _, a. split; [done |]. split; [|by split; [|apply a_detach]].
  constructor; simpl; [exists L; by apply blocks_waiting | done | done | done].
Qed.

Lemma timer_step self s a t :
  mp_ok self s a → (mp_enabled s (PExpire t) → mp_step_good self s a (PExpire t))
  ∧ (mp_enabled s (PTimeout t) → mp_step_good self s a (PTimeout t)).
Proof.
  intros [[L HL] Hl Hw Ha]. destruct s as [ts m mp conts rdy used]. unfold mp_step_good. simpl in *. split; intros Hen.
  - eexists PSilent, _, a. split; [done |]. split; [|by split; [|apply a_expire]].
    constructor; simpl; [by exists L | by apply lists_expire | done | done].
  - destruct (lists_timeout _ _ _ _ _ _ _ _ _ t (suspend_thread mp) Hl Hen) as (ts' & -> & _ & _ & Hl').
    eexists PSilent, _, a. split; [done |]. split; [|by split; [|apply a_timeout]].
    constructor; simpl; [exists L; by apply blocks_waiting | done | | done].
    intros Hne. apply Hw. intros E. by rewrite E in Hne.
Qed.

Lemma mp_step_ok self s a o : mp_ok self s a → mp_enabled s o → mp_quiet s o → mp_step_good self s a o.
Proof.
  destruct o; intros Hok Hen Hq; [by apply alloc_step | by apply alloc_resume_step | by apply free_step | by apply write_step
    | by apply detach_step | by apply timer_step | by apply timer_step].
Qed.

(** ** Any state, also between an expiry and its handler

    Which blocks are in use and what they hold does not depend on the waiting threads. *)
Record pool_any (self : Z) (s : mp_state) (a : gmap Z (list Z)) : Prop := {
  y_blocks : ∃ L, blocks_ok self (ps_mem s) (ps_mp s) (ps_used s) L;
  y_abs : ∀ b, a !! b = if decide (b ∈ ps_used s) then Some (words (ps_mem s) (ps_mp s) b) else None
}.

Lemma mp_ok_any self s a : mp_ok self s a → pool_any self s a.
Proof. intros []. by constructor. Qed.

(** Only the lists of threads and calls change. *)
Lemma pool_any_frame self s a ts l conts rdy :
  pool_any self s a → pool_any self (mk_ps ts (ps_mem s) (set_waiting (ps_mp s) l) conts rdy (ps_used s)) a.
Proof. intros [[L HL] Ha]. constructor; simpl; [exists L; by apply blocks_waiting | done]. Qed.

Lemma pool_any_same self s a ts conts rdy :
  pool_any self s a → pool_any self (mk_ps ts (ps_mem s) (ps_mp s) conts rdy (ps_used s)) a.
Proof. intros []. by constructor. Qed.

Lemma any_full self s a b : pool_any self s a → block_free_count (ps_mp s) = 0 → b ∈ blocks (ps_mp s) → is_Some (a !! b).
Proof. intros [[L HL] Ha] Hz Hin. rewrite Ha, decide_True; [done |]. by eapply blocks_full. Qed.

Definition step_any (self : Z) (s : mp_state) (a : gmap Z (list Z)) (o : mp_op) : Prop :=
  ∃ e s' a', mp_exec self s o = Some (e, s') ∧ pool_any self s' a' ∧ same_pool (ps_mp s) (ps_mp s')
    ∧ a_step (blocks (ps_mp s)) a (o, e) a'.

Lemma round_any self s a t time before now :
  pool_any self s a →
  ∃ e s' a', after_alloc s t (mp_alloc_round (ps_ts s) (ps_mem s) self (ps_mp s) t time before now) = Some (e, s')
    ∧ pool_any self s' a' ∧ same_pool (ps_mp s) (ps_mp s')
    ∧ ((∃ b w, e = PGot b ∧ b ∈ blocks (ps_mp s) ∧ a !! b = None ∧ a' = <[b := w]> a)
       ∨ (block_free_count (ps_mp s) = 0 ∧ a' = a ∧ (e = PBlocked ∨ e = PNull ∧ time = 0))).
Proof.
  intros Hok. pose proof Hok as [[L HL] Ha]. unfold mp_alloc_round.
  destruct (Z.eqb_spec (block_free_count (ps_mp s)) 0) as [Hz|Hz].
  - destruct (Z.eqb_spec time 0) as [->|Htime].
    + eexists PNull, _, a. split; [done |]. split; [by apply pool_any_same |]. split; [done | right; auto].
    + destruct (rt_thread_suspend_to_list _ _ _ _) as [[r ts1] l].
      destruct (0 <? time); eexists PBlocked, _, a; (split; [done |]); (split; [by apply pool_any_frame |]);
        (split; [done |]); right; auto.
  - destruct (take_ok _ _ _ _ _ HL Hz) as (b & m' & mp' & -> & H0 & Hin & Hnu & HL' & Hwd & Emp). simpl.
    destruct (Z.eqb_spec b RT_NULL) as [->|_]; [done |]. eexists (PGot b), _, (<[b := words m' mp' b]> a).
    split; [done |]. split_and!; [| by rewrite Emp | left; exists b, (words m' mp' b); split_and!; try done; by rewrite Ha, decide_False].
    constructor; simpl; [by eexists |]. intros c. destruct (decide (b = c)) as [->|Hne].
    + rewrite lookup_insert_eq, decide_True by set_solver. done.
    + rewrite lookup_insert_ne, Ha by done. destruct (decide (c ∈ ps_used s)) as [Hc|Hc].
      * rewrite decide_True by set_solver. f_equal. rewrite Emp. change (words m' _ c) with (words m' (ps_mp s) c).
        symmetry. apply Hwd. by eapply used_blocks.
      * by rewrite decide_False by set_solver.
Qed.

Lemma alloc_any self s a t time now : pool_any self s a → step_any self s a (PAlloc t time now).
Proof.
  intros Hok. destruct (round_any self s a t time 0 now Hok) as (e & s' & a' & E & Hok' & Hsame & Hout).
  exists e, s', a'. split_and!; [by destruct s | done | done |].
  destruct Hout as [(b & w & -> & Hin & Hnone & ->) | (Hz & -> & [-> | [-> ->]])];
    [by apply a_got | apply a_blocked | apply a_full]; intros b Hin; by apply (any_full _ _ _ b Hok).
Qed.

Lemma alloc_resume_any self s a t now : pool_any self s a → mp_enabled s (PResume t now) → step_any self s a (PResume t now).
Proof.
  intros Hok [_ [[time before] Hc]]. destruct s as [ts m mp conts rdy used]. unfold step_any. simpl in *. rewrite Hc.
  unfold mp_alloc_resume. destruct (Z.eqb_spec (t_error (th ts t)) RT_EOK) as [He|He]; simpl.
  - destruct (round_any self _ a t (time_left time before now) before now Hok) as (e & s' & a' & E & Hok' & Hsame & Hout).
    exists e, s', a'. split_and!; [done | done | done |].
    destruct Hout as [(b & w & -> & Hin & Hnone & ->) | (Hz & -> & [-> | [-> _]])];
      [by apply a_got | apply a_blocked; intros b Hin; by apply (any_full _ _ _ b Hok) | apply a_failed].
  - eexists PNull, _, a. split; [done |]. split; [|by split; [|constructor]]. by destruct Hok.
Qed.

Lemma free_any self s a b : pool_any self s a → mp_enabled s (PFree b) → step_any self s a (PFree b).
Proof.
  intros [[L HL] Ha] Hb. destruct s as [ts m mp conts rdy used]. unfold step_any. simpl in *.
  unfold rt_mp_free. destruct (Z.eqb_spec b RT_NULL) as [->|Hb0].
  { assert (Hn : RT_NULL ∉ used) by (intros Hin; destruct (block_address _ _ _ _ _ HL _ Hin) as [? _]; unfold RT_NULL in *; lia).
    eexists PSilent, _, (delete RT_NULL a). split; [done |]. rewrite filter_notin by done. split; [|by split; [|apply a_free]].
    rewrite delete_id by (by rewrite Ha, decide_False). constructor; [by exists L | done]. }
  destruct Hb as [->|Hu]; [done |]. destruct (block_address _ _ _ _ _ HL b Hu) as (_ & -> & ->).
  rewrite (b_self _ _ _ _ _ HL b Hu), Z.eqb_refl. simpl.
  destruct (rt_susp_list_dequeue ts (suspend_thread mp) RT_EOK) as [[w ts'] l].
  destruct (give_ok _ _ _ _ _ HL b Hu) as [HL' Hwd].
  eexists PSilent, _, (delete b a). split; [done |]. split; [|by split; [|apply a_free]]. constructor; simpl.
  - eexists. by apply blocks_waiting.
  - intros c. destruct (decide (b = c)) as [->|Hne].
    + rewrite lookup_delete_eq, decide_False; [done |]. rewrite list_elem_of_filter. tauto.
    + rewrite lookup_delete_ne, Ha by done. destruct (decide (c ∈ used)) as [Hc|Hc].
      * rewrite decide_True by (rewrite list_elem_of_filter; done). f_equal. symmetry. apply Hwd. by eapply used_blocks.
      * rewrite decide_False; [done |]. rewrite list_elem_of_filter. tauto.
Qed.

Lemma write_any self s a b i v : pool_any self s a → mp_enabled s (PWrite b i v) → step_any self s a (PWrite b i v).
Proof.
  intros [[L HL] Ha] [Hu Hi]. destruct s as [ts m mp conts rdy used]. unfold step_any. simpl in *.
  pose proof (b_geom _ _ _ _ _ HL) as Hg. pose proof (used_blocks _ _ _ _ _ HL b Hu) as Hb.
  eexists PSilent, _, (<[b := <[Z.to_nat i := v]> (words m mp b)]> a). split; [done |]. split_and!; [| done |].
  - constructor; simpl; [exists L; by apply write_ok |]. intros c. destruct (decide (b = c)) as [<-|Hne].
    + rewrite lookup_insert_eq, decide_True by done. f_equal. rewrite (words_store mp Hg) by done. by rewrite decide_True.
    + rewrite lookup_insert_ne, Ha by done. case_decide as Hc; [|done]. f_equal.
      rewrite (words_store mp Hg) by (done || by eapply used_blocks). by rewrite decide_False.
  - apply a_write; [by rewrite Ha, decide_True |]. unfold blen, words. rewrite length_fmap, length_seqZ. lia.
Qed.

(** Every operation returns, but for the handler of a thread that does not wait any more. *)
Lemma pool_step_any_ok self s a o :
  pool_any self s a → mp_enabled s o →
  (∃ t, o = PTimeout t ∧ t_susp (th (ps_ts s) t) = false ∧ mp_exec self s o = None) ∨ step_any self s a o.
Proof.
  intros Hok Hen. destruct o as [t time now | t now | b | b i v | | t | t].
  - right. by apply alloc_any.
  - right. by apply alloc_resume_any.
  - right. by apply free_any.
  - right. by apply write_any.
  - right. destruct s as [ts m mp conts rdy used]. unfold step_any. simpl. unfold rt_mp_detach.
    destruct (rt_susp_list_resume_all _ _ _) as [[w ts'] l]. eexists PSilent, _, a. split; [done |].
    split; [by apply (pool_any_frame self (mk_ps ts m mp conts rdy used) a) |]. split; [done | apply a_detach].
  - right. destruct s as [ts m mp conts rdy used]. eexists PSilent, _, a. split; [done |].
    split; [by apply (pool_any_same self (mk_ps ts m mp conts rdy used) a) |]. split; [done | apply a_expire].
  - destruct s as [ts m mp conts rdy used]. simpl in *. unfold step_any, _thread_timeout. simpl.
    destruct (t_susp (th ts t)) eqn:Hs; simpl; [|left; exists t; unfold _thread_timeout; by rewrite Hs].
    right. unfold _thread_timeout. rewrite Hs. simpl. eexists PSilent, _, a. split; [done |].
    split; [by apply (pool_any_frame self (mk_ps ts m mp conts rdy used) a) |]. split; [done | apply a_timeout].
Qed.

#[export] Instance same_pool_trans : Transitive same_pool.
Proof. intros x y z (E1 & E2 & E3) (E4 & E5 & E6). repeat split; congruence. Qed.

Lemma pool_run_any self s tr s' a :
  mp_run self s tr s' → pool_any self s a →
  ∃ a', pool_any self s' a' ∧ same_pool (ps_mp s) (ps_mp s') ∧ a_run (blocks (ps_mp s)) a tr a'.
Proof.
  intros Hrun. revert a. induction Hrun as [s | s o e s1 tr s2 Hen He Hrun IH]; intros a Hok.
  { exists a. split_and!; [done | done | constructor]. }
  destruct (pool_step_any_ok self s a o Hok Hen) as [(t & _ & _ & E) | (e' & s1' & a1 & E & Hok1 & Hs1 & Ha1)]; simplify_eq.
  destruct (IH a1 Hok1) as (a2 & Hok2 & Hs2 & Ha2). exists a2. split_and!; [done | by etrans |].
  eapply arun_step; [done |]. by rewrite (same_pool_blocks _ _ Hs1) in Ha2.
Qed.

(** Outside the windows the waiting threads are accounted for as well. *)
Lemma pool_run_quiet self s tr s' a :
  mp_run self s tr s' → mp_ok self s a → outside_windows self s tr → ∃ a', mp_ok self s' a'.
Proof.
  intros Hrun. revert a. induction Hrun as [s | s o e s1 tr s2 Hen He Hrun IH]; intros a Hok; [by exists a |].
  intros [Hq Hw]. rewrite He in Hw.
  destruct (mp_step_ok self s a o Hok Hen Hq) as (e' & s1' & a1 & E & Hok1 & _). simplify_eq. by apply (IH a1).
Qed.

(** * A new pool *)

Lemma link_blocks_load n start d offset m :
  0 < start → 0 < d → 0 ≤ offset → start + (offset + Z.of_nat n) * d < 4294967296 →
  (∀ k, offset ≤ k < offset + Z.of_nat n → load (link_blocks n start d offset m) (start + k * d) = start + (k + 1) * d)
  ∧ (∀ q, (∀ k, offset ≤ k < offset + Z.of_nat n → q ≠ start + k * d) → load (link_blocks n start d offset m) q = load m q).
Proof.
  intros Hs Hd. revert offset m. induction n as [|n IH]; intros offset m Ho He; [split; [intros; lia | done] |]. cbn [link_blocks].
  rewrite !u32_small by (unfold is_u32; nia). destruct (IH (offset + 1) (store m (start + offset * d) (start + (offset + 1) * d))) as [IH1 IH2]; [lia | nia |].
  split.
  - intros k Hk. destruct (decide (k = offset)) as [->|Hne]; [|apply IH1; lia]. rewrite IH2; [apply load_stored |]. intros j Hj E. nia.
  - intros q Hq. rewrite IH2 by (intros k Hk; apply Hq; lia). apply load_other. intros <-. apply (Hq offset); [lia | done].
Qed.

Lemma chain_headers m mp k n :
  (∀ j, k ≤ j < k + Z.of_nat n - 1 → load m (header mp j) = header mp (j + 1)) →
  load m (header mp (k + Z.of_nat n - 1)) = RT_NULL → (0 < n)%nat → chain m (header mp k) (header mp <$> seqZ k (Z.of_nat n)).
Proof.
  revert k. induction n as [|n IH]; intros k Hl He Hn; [lia |]. rewrite seqZ_cons by lia. simpl. split; [done |].
  replace (Z.pred (Z.of_nat (S n))) with (Z.of_nat n) by lia. destruct n as [|n].
  - simpl. by replace (k + Z.of_nat 1 - 1) with k in He by lia.
  - rewrite Hl by lia. apply (IH (Z.succ k)); [|by replace (Z.succ k + Z.of_nat (S n) - 1) with (k + Z.of_nat (S (S n)) - 1) by lia | lia].
    intros j Hj. apply Hl. lia.
Qed.

(** The free list of a new pool holds all its blocks. *)
Lemma setup_ok self m start size block_size total :
  0 < start → 8 ≤ block_size → (8 | block_size) → 1 ≤ total → start + total * (block_size + 4) < 4294967296 →
  let '(m', mp) := mp_setup m start size block_size total in blocks_ok self m' mp [] (headers mp).
Proof.
  intros Hs Hb H8 Ht He. unfold mp_setup, SIZEOF_PTR. rewrite (u32_small (block_size + 4)) by (unfold is_u32; nia).
  rewrite (u32_small (total - 1)), (u32_small (start + _)) by (unfold is_u32; nia).
  destruct (link_blocks_load (Z.to_nat total) start (block_size + 4) 0 m) as [Hl _]; [lia | lia | lia | nia |].
  set (m1 := link_blocks _ _ _ _ _) in *. set (mp := mk_mp _ _ _ _ _ _ _).
  assert (Hh : ∀ k, header mp k = start + k * (block_size + 4)) by done.
  constructor.
  - constructor; simpl; [lia | done | lia |]. unfold pitch, SIZEOF_PTR. simpl. lia.
  - change (block_list mp) with start. replace start with (header mp 0) at 2 by (rewrite Hh; lia).
    unfold headers. change (block_total_count mp) with total. rewrite <-(Z2Nat.id total) at 2 by lia. apply chain_headers; [| | lia].
    + intros j Hj. rewrite load_other by (rewrite Hh; nia). rewrite !Hh. apply Hl. lia.
    + rewrite Hh. replace (0 + Z.of_nat (Z.to_nat total) - 1) with (total - 1) by lia. apply load_stored.
  - by rewrite app_nil_r.
  - unfold headers, blen. rewrite length_fmap, length_seqZ. simpl. lia.
  - by intros b ?%elem_of_nil.
Qed.

Definition mp_start (ts : threads) (m : memory) (mp : rt_mempool) : mp_state := mk_ps ts m mp ∅ [] [].

Lemma RT_ALIGN_bounds x : 0 < x → x + 7 < 4294967296 → 8 ≤ RT_ALIGN x RT_ALIGN_SIZE ∧ x ≤ RT_ALIGN x RT_ALIGN_SIZE < 4294967296 ∧ (8 | RT_ALIGN x RT_ALIGN_SIZE).
Proof.
  intros H0 H1. unfold RT_ALIGN_SIZE. rewrite RT_ALIGN_8 by lia. split_and!; [| | | by eexists]; Z.div_mod_to_equations; lia.
Qed.

(** What [rt_mp_init] makes of memory that has room for a block. *)
Lemma pool_init_ok self ts m start sz bs r m' mp :
  wait_ok ts [] → rt_mp_init m start sz bs = Some (r, m', mp) → 0 < start → 0 < sz → start + sz < 4294967296 →
  0 < bs → bs + 7 < 4294967296 → 1 ≤ block_total_count mp →
  r = RT_EOK ∧ mp_ok self (mp_start ts m' mp) ∅ ∧ bs ≤ block_size mp ∧ start_address mp = start
  ∧ block_total_count mp * pitch mp ≤ sz.
Proof.
  intros Hts Hi Hs Hsz Hend Hb Hb7 Ht. unfold rt_mp_init in Hi.
  destruct ((start =? RT_NULL) || _); [done |]. destruct (RT_ALIGN_bounds bs Hb Hb7) as (H8 & Hlo & Hdiv).
  set (B := RT_ALIGN bs RT_ALIGN_SIZE) in *. unfold RT_ALIGN_SIZE in Hi. rewrite RT_ALIGN_DOWN_8 in Hi by (unfold is_u32; lia).
  set (D := sz / 8 * 8) in *. assert (D ≤ sz) by (subst D; Z.div_mod_to_equations; lia).
  assert (HB : u32 (B + SIZEOF_PTR) = B + 4).
  { apply u32_small. destruct Hdiv as [q Hq]. unfold is_u32, SIZEOF_PTR. lia. }
  set (T := D / u32 (B + SIZEOF_PTR)) in *. destruct (mp_setup m start D B T) as [m1 mp1] eqn:E. injection Hi as <- <- <-.
  pose proof E as E'. unfold mp_setup in E'. injection E' as _ Emp. assert (1 ≤ T) as HT by (by rewrite <-Emp in Ht).
  assert (HTp : T * (B + 4) ≤ D). { unfold T. rewrite HB. rewrite Z.mul_comm. apply Z.mul_div_le. lia. }
  pose proof (setup_ok self m start D B T Hs H8 Hdiv HT ltac:(lia)) as Hok. rewrite E in Hok.
  split_and!; [done | | rewrite <-Emp; simpl; lia | by rewrite <-Emp | rewrite <-Emp; unfold pitch, SIZEOF_PTR; simpl; lia].
  constructor; [by eexists | simpl; rewrite <-Emp; apply lists_start; [by left | done] | simpl; by rewrite <-Emp |].
  intros b. rewrite lookup_empty, decide_False; [done | apply not_elem_of_nil].
Qed.

(** The blocks lie in the memory of the pool, one after the other. *)
Lemma blocks_layout mp : geometry mp →
  (∀ b, b ∈ blocks mp → start_address mp + SIZEOF_PTR ≤ b ∧ b + block_size mp ≤ start_address mp + block_total_count mp * pitch mp)
  ∧ (∀ b c, b ∈ blocks mp → c ∈ blocks mp → b < c → b + block_size mp + SIZEOF_PTR ≤ c).
Proof.
  intros [_ [Hs _] _ _]. split.
  - intros b [p [-> (k & Hk & ->)%elem_headers]]%list_elem_of_fmap. unfold block_of, header, pitch, SIZEOF_PTR. nia.
  - intros b c [p [-> (j & Hj & ->)%elem_headers]]%list_elem_of_fmap [q [-> (k & Hk & ->)%elem_headers]]%list_elem_of_fmap.
    unfold block_of, header, pitch, SIZEOF_PTR. intros Hlt. assert (j < k) by nia. nia.
Qed.

(** * Correctness *)

(** C7. A memory pool is an allocator of its blocks. A pool is set up by [rt_mp_init] on memory that
    has room for a block, and threads allocate (waiting as long as they like), run again, free
    and write blocks they hold, time out, while the pool may be detached, in any order, also
    between the expiry of a timer and its handler. The blocks lie in the memory, are at least as
    large as asked for and do not overlap. Every run is a run of the allocator: a block that is
    handed out is not in use, a call fails at once or waits only when all blocks are in use, and
    what a thread wrote in its block stays until it frees it, whatever others do with theirs. The
    counter is the number of free blocks. Every further operation returns and no header leads
    astray, but for the handler of a thread that was woken since its timer expired, whose assertion
    fails. When no block is freed and the pool is not detached between the expiry of a waiting
    thread's timer and its handler, no wake-up is lost (while threads wait, no more blocks are free
    than woken threads are about to take one) and every further operation returns. *)
Theorem pool_refines_allocator (self start sz bs r : Z) (ts : threads) (m m' : memory) (mp : rt_mempool)
    (tr : list (mp_op * mp_event)) (s : mp_state)
    (Hts : wait_ok ts []) (Hstart : 0 < start) (Hsz : 0 < sz) (Hend : start + sz < 4294967296)
    (Hbs : 0 < bs) (Hbs7 : bs + 7 < 4294967296)
    (Hinit : rt_mp_init m start sz bs = Some (r, m', mp)) (Hroom : 1 ≤ block_total_count mp)
    (Hrun : mp_run self (mp_start ts m' mp) tr s) :
  (bs ≤ block_size mp
   ∧ (∀ b, b ∈ blocks mp → start + SIZEOF_PTR ≤ b ∧ b + block_size mp ≤ start + sz)
   ∧ (∀ b c, b ∈ blocks mp → c ∈ blocks mp → b < c → b + block_size mp + SIZEOF_PTR ≤ c))
  ∧ (∃ a, a_run (blocks mp) ∅ tr a
     ∧ ∀ b, a !! b = if decide (b ∈ ps_used s) then Some (words (ps_mem s) (ps_mp s) b) else None)
  ∧ block_free_count (ps_mp s) = block_total_count mp - blen (ps_used s)
  ∧ (∀ o, mp_enabled s o → is_Some (mp_exec self s o) ∨ ∃ t, o = PTimeout t ∧ t_susp (th (ps_ts s) t) = false)
  ∧ (outside_windows self (mp_start ts m' mp) tr →
     (suspend_thread (ps_mp s) ≠ [] → block_free_count (ps_mp s) ≤ blen (ps_rdy s))
     ∧ ∀ o, mp_enabled s o → is_Some (mp_exec self s o)).
Proof.
  destruct (pool_init_ok self ts m start sz bs r m' mp) as (_ & Hok & Hlo & Est & Hfit); try done.
  destruct (p_blocks _ _ _ Hok) as [L0 HL0]. destruct (blocks_layout mp (b_geom _ _ _ _ _ HL0)) as [Hin Hsep].
  destruct (pool_run_any _ _ _ _ _ Hrun (mp_ok_any _ _ _ Hok)) as (a & Hany & (_ & _ & Et) & Ha). pose proof Hany as [[L HL] Habs].
  split_and!; [done | | done | by exists a | | |].
  - intros b Hb. specialize (Hin b Hb). rewrite Est in Hin. lia.
  - pose proof (blocks_count _ _ _ _ _ HL) as Hc. rewrite (b_count _ _ _ _ _ HL). simpl in Et. lia.
  - intros o Ho. destruct (pool_step_any_ok self s a o Hany Ho) as [(t & -> & Ht & _) | (e & s' & a' & -> & _)]; eauto.
  - intros Hw. destruct (pool_run_quiet _ _ _ _ _ Hrun Hok Hw) as [a' Hok']. split; [apply Hok' |]. intros o Ho.
    destruct (pool_step_any_ok self s a o Hany Ho) as [(t & -> & Ht & _) | (e & s' & a2 & -> & _)]; [|by eexists].
    destruct (proj2 (timer_step self s a' t Hok') Ho) as (e & s' & a2 & -> & _). by eexists.
Qed.

(** When [rt_mp_alloc] runs again it returns [RT_NULL] only when the thread was woken with an
    error (its time is over, or the pool is gone), or when all blocks are in use and no time is
    left. *)
Theorem alloc_null_why (ts ts' : threads) (m m' : memory) (self : Z) (mp mp' : rt_mempool) (used L : list Z) (t : nat) (time before now : Z)
    (Hb : blocks_ok self m mp used L) (Hnull : mp_alloc_resume ts m self mp t time before now = Some (PReturns RT_NULL, ts', m', mp')) :
  t_error (th ts t) ≠ RT_EOK
  ∨ (block_free_count mp = 0 ∧ time_left time before now = 0 ∧ t_error (th ts' t) = - RT_ETIMEOUT).
Proof.
  unfold mp_alloc_resume in Hnull. destruct (Z.eqb_spec (t_error (th ts t)) RT_EOK) as [He|He]; [right | by left]. simpl in Hnull.
  unfold mp_alloc_round in Hnull. destruct (Z.eqb_spec (block_free_count mp) 0) as [Hz|Hz].
  - destruct (Z.eqb_spec (time_left time before now) 0) as [Ht|Ht]; [injection Hnull as <- <- <-; by rewrite th_upd_eq |].
    destruct (rt_thread_suspend_to_list _ _ _ _) as [[? ?] ?]. by destruct (0 <? time_left time before now).
  - destruct (take_ok _ _ _ _ _ Hb Hz) as (b & m1 & mp1 & E & H0 & _). rewrite E in Hnull. injection Hnull as -> _ _ _. unfold RT_NULL in H0. lia.
Qed.

(** Memory too small for one block: [rt_mp_init] returns success, with a pool of no blocks, and
    writes a null pointer below the memory it was given. *)
Theorem pool_init_underflow (m : memory) (start sz bs : Z)
    (Hbs : 0 < bs) (Hbs7 : bs + 7 < 4294967296) (Hsz : 0 < sz < 4294967296)
    (Hsmall : RT_ALIGN_DOWN sz RT_ALIGN_SIZE < RT_ALIGN bs RT_ALIGN_SIZE + SIZEOF_PTR)
    (Hstart : RT_ALIGN bs RT_ALIGN_SIZE + SIZEOF_PTR < start < 4294967296) :
  ∃ mp, rt_mp_init m start sz bs = Some (RT_EOK, store m (start - (RT_ALIGN bs RT_ALIGN_SIZE + SIZEOF_PTR)) RT_NULL, mp)
    ∧ block_total_count mp = 0 ∧ block_free_count mp = 0.
Proof.
  destruct (RT_ALIGN_bounds bs Hbs Hbs7) as (H8 & Hlo & Hdiv). unfold rt_mp_init.
  set (B := RT_ALIGN bs RT_ALIGN_SIZE) in *. assert (HD : 0 ≤ RT_ALIGN_DOWN sz RT_ALIGN_SIZE).
  { unfold RT_ALIGN_SIZE. rewrite RT_ALIGN_DOWN_8 by (unfold is_u32; lia). Z.div_mod_to_equations; lia. }
  set (D := RT_ALIGN_DOWN sz RT_ALIGN_SIZE) in *. replace ((start =? RT_NULL) || _) with false.
  2: { symmetry. apply orb_false_iff. split; [apply Z.eqb_neq; unfold SIZEOF_PTR, RT_NULL in *; lia |].
       apply negb_false_iff, andb_true_iff. split; apply Z.ltb_lt; lia. }
  assert (HB : u32 (B + SIZEOF_PTR) = B + SIZEOF_PTR) by (apply u32_small; unfold is_u32, SIZEOF_PTR in *; lia). rewrite HB, Z.div_small by lia.
  unfold mp_setup. rewrite HB. change (Z.to_nat 0) with 0%nat. cbn [link_blocks]. change (u32 (0 - 1)) with 4294967295.
  assert (u32 (start + 4294967295 * (B + SIZEOF_PTR)) = start - (B + SIZEOF_PTR)) as ->.
  { symmetry. apply (Z.mod_unique_pos _ _ (B + SIZEOF_PTR)); unfold SIZEOF_PTR in *; lia. }
  by eexists.
Qed.

(** A number of blocks so large that the size of the pool wraps around: [rt_mp_create] asks the
    heap for 8 bytes and sets up 357913942 blocks of 12 bytes in them. *)
Theorem pool_create_wraps (malloc : Z → option Z) (m : memory) (start : Z) (Hm : malloc 8 = Some start) :
  rt_mp_create true malloc m 357913942 8 = Some (Some (mp_setup m start 8 8 357913942)).
Proof.
  unfold rt_mp_create. change (0 <? 357913942) with true. change (0 <? 8) with true. cbn [negb andb].
  change (RT_ALIGN 8 RT_ALIGN_SIZE) with 8. change (u32 (u32 (8 + SIZEOF_PTR) * 357913942)) with 8. by rewrite Hm.
Qed.

(** A block freed inside the window of a timeout wakes nobody: between the expiry of the timer of
    the first waiting thread and its handler, [rt_mp_free] takes the block back but leaves all threads
    waiting. The thread then times out, and the others wait on although a block is free and no
    woken thread is to take it. *)
Theorem pool_free_lost (self : Z) (s : mp_state) (a : gmap Z (list Z)) (t : nat) (l : list nat) (b : Z)
    (Hok : mp_ok self s a) (Hl : suspend_thread (ps_mp s) = t :: l) (Hpend : t_pend (th (ps_ts s) t) = true)
    (Hb : b ∈ ps_used s) :
  ∃ s1 s2, mp_exec self s (PFree b) = Some (PSilent, s1) ∧ suspend_thread (ps_mp s1) = t :: l ∧ ps_rdy s1 = ps_rdy s
    ∧ block_free_count (ps_mp s1) = block_free_count (ps_mp s) + 1
    ∧ mp_exec self s1 (PTimeout t) = Some (PSilent, s2) ∧ suspend_thread (ps_mp s2) = l ∧ ps_rdy s2 = ps_rdy s
    ∧ block_free_count (ps_mp s2) = block_free_count (ps_mp s) + 1.
Proof.
  destruct Hok as [[L HL] Hls _ _]. pose proof (l_wait _ _ _ _ _ _ _ _ _ Hls) as Hw.
  destruct s as [ts m mp conts rdy used]. simpl in *. rewrite Hl in *. destruct (block_address _ _ _ _ _ HL b Hb) as (Hb0 & Eh & Hcnt).
  unfold rt_mp_free. destruct (Z.eqb_spec b RT_NULL) as [->|_]; [unfold RT_NULL in *; lia |].
  rewrite Eh, (b_self _ _ _ _ _ HL b Hb), Z.eqb_refl, Hcnt. simpl. rewrite Hl, (dequeue_pending ts _ t l RT_EOK Hw) by (done || set_solver).
  assert (t_susp (th ts t) = true) as Hsu by (apply (w_susp _ _ Hw); set_solver).
  pose proof (w_nodup _ _ Hw) as Hn. apply NoDup_cons in Hn as [Hnot _]. eexists _, _. split; [done |]. simpl.
  rewrite app_nil_r. unfold _thread_timeout. rewrite th_upd_eq. simpl. rewrite Hsu. simpl.
  split_and!; try done. simpl. apply list_remove_head. set_solver.
Qed.

(** * Runs by evaluation *)

#[global] Instance mp_event_eq : EqDecision mp_event.
Proof. solve_decision. Defined.
#[global] Instance mp_enabled_dec s o : Decision (mp_enabled s o).
Proof. destruct o; unfold mp_enabled; apply _. Defined.

Fixpoint mp_replay (self : Z) (s : mp_state) (tr : list (mp_op * mp_event)) : option mp_state :=
  match tr with
  | [] => Some s
  | (o, e) :: tr =>
      if bool_decide (mp_enabled s o) then
        match mp_exec self s o with
        | Some (e', s') => if bool_decide (e = e') then mp_replay self s' tr else None
        | None => None
        end
      else None
  end.

Lemma mp_replay_run self s tr s' : mp_replay self s tr = Some s' → mp_run self s tr s'.
Proof.
  revert s. induction tr as [|[o e] tr IH]; intros s; simpl; [intros [= <-]; constructor |].
  case_bool_decide as Hen; [|done]. destruct (mp_exec self s o) as [[e' s1]|] eqn:E; [|done].
  case_bool_decide as He; [subst e' | done]. intros Hr. by eapply prun_step; [.. | apply IH].
Qed.

(** Three blocks of eight bytes in forty bytes at 1000; the pool object is at 500. *)
Definition demo_init : Z * memory * rt_mempool := default (0, ∅, mk_mp 0 0 0 0 0 0 []) (rt_mp_init ∅ 1000 40 8).
Definition demo_start : mp_state := mp_start ∅ demo_init.1.2 demo_init.2.

(** What is seen of the state a trace leads to, by evaluation. *)
Lemma replay_view {A} (f : mp_state → A) tr s s' (x : A) : mp_replay 500 s tr = Some s' → f <$> mp_replay 500 s tr = Some x → f s' = x.
Proof. intros ->. by intros [= ->]. Qed.

Lemma no_thread_waits : wait_ok (∅ : threads) [].
Proof. apply wait_ok_nil. intros t. unfold th. by rewrite lookup_empty. Qed.

Lemma demo_reaches tr s : mp_replay 500 demo_start tr = Some s → outside_windows 500 demo_start tr → ∃ a, mp_ok 500 s a.
Proof.
  intros E%mp_replay_run Hw. destruct (pool_init_ok 500 ∅ ∅ 1000 40 8 demo_init.1.1 demo_init.1.2 demo_init.2) as (_ & Hok & _);
    [| reflexivity | lia | lia | lia | lia | lia | by vm_compute |].
  - exact no_thread_waits.
  - exact (pool_run_quiet _ _ _ _ _ E Hok Hw).
Qed.

(** Thread 1 takes all blocks, thread 2 waits for one and gets it, thread 3 does not wait, then
    waits in vain. *)
Definition demo_trace : list (mp_op * mp_event) :=
  [(PAlloc 1 0 0, PGot 1004); (PWrite 1004 1 7, PSilent); (PAlloc 1 0 0, PGot 1016); (PAlloc 1 0 0, PGot 1028);
   (PAlloc 2 5 0, PBlocked); (PFree 1016, PSilent); (PResume 2 3, PGot 1016); (PAlloc 3 0 9, PNull);
   (PAlloc 3 4 10, PBlocked); (PExpire 3, PSilent); (PTimeout 3, PSilent); (PResume 3 14, PNull)].

Lemma pool_refines_allocator_witness :
  ∃ s, mp_replay 500 demo_start demo_trace = Some s ∧ block_free_count (ps_mp s) = 0 ∧ words (ps_mem s) (ps_mp s) 1004 = [0; 7]
    ∧ (∃ a, a_run (blocks (ps_mp demo_start)) ∅ demo_trace a) ∧ ∀ o, mp_enabled s o → is_Some (mp_exec 500 s o).
Proof.
  destruct (mp_replay 500 demo_start demo_trace) as [s|] eqn:E; [|by vm_compute in E]. exists s. split; [done |].
  split; [by apply (replay_view (λ s, block_free_count (ps_mp s)) _ _ _ _ E) |].
  split; [by apply (replay_view (λ s, words (ps_mem s) (ps_mp s) 1004) _ _ _ _ E) |].
  destruct (pool_refines_allocator 500 1000 40 8 demo_init.1.1 ∅ ∅ demo_init.1.2 demo_init.2 demo_trace s)
    as (_ & (a & Ha & _) & _ & _ & Hq); [| lia | lia | lia | lia | lia | reflexivity | by vm_compute | by apply mp_replay_run |].
  - exact no_thread_waits.
  - split; [exists a; exact Ha |]. apply Hq. vm_compute. by repeat constructor.
Defined.

(** The timer of thread 2, which waits for a block, has expired and its handler has not run;
    thread 3 waits for ever. *)
Definition window_trace : list (mp_op * mp_event) :=
  [(PAlloc 1 0 0, PGot 1004); (PAlloc 1 0 0, PGot 1016); (PAlloc 1 0 0, PGot 1028);
   (PAlloc 2 5 0, PBlocked); (PAlloc 3 (-1) 0, PBlocked); (PExpire 2, PSilent)].

Lemma pool_free_lost_witness :
  ∃ s s1, mp_replay 500 demo_start window_trace = Some s ∧ mp_exec 500 s (PFree 1016) = Some (PSilent, s1)
    ∧ suspend_thread (ps_mp s1) = [2%nat; 3%nat] ∧ block_free_count (ps_mp s1) = 1.
Proof.
  destruct (mp_replay 500 demo_start window_trace) as [s|] eqn:E; [|by vm_compute in E]. exists s.
  destruct (demo_reaches window_trace s E) as [a Hok]; [vm_compute; by repeat constructor |].
  destruct (pool_free_lost 500 s a 2 [3%nat] 1016 Hok) as (s1 & s2 & E1 & Hw1 & _ & Hf1 & _).
  - by apply (replay_view (λ s, suspend_thread (ps_mp s)) _ _ _ _ E).
  - by apply (replay_view (λ s, t_pend (th (ps_ts s) 2)) _ _ _ _ E).
  - apply (bool_decide_unpack _). apply Is_true_true. by apply (replay_view (λ s, bool_decide (1016 ∈ ps_used s)) _ _ _ _ E).
  - exists s1. split_and!; [done | done | done |]. rewrite Hf1. by rewrite (replay_view (λ s, block_free_count (ps_mp s)) _ _ _ 0 E).
Defined.
