(* ===== verification/Timer.v ===== *)
(** Timers of the kernel (rt-thread/src/timer.c, with the tick of clock.c): lists of timers in
    the order of their deadlines, for the tick interrupt (hard timers) and the timer thread (soft
    timers). Ticks are 32-bit numbers that wrap around.

    The skip list has one level (RT_TIMER_SKIP_LIST_LEVEL), so the loop over the levels is left
    out, and a timer has one list node. A check runs the timeout functions with interrupts on:
    what happens meanwhile comes between [check_begin] and [check_end]. *)

From S2P Require Import Prelude.
From S2P Require Import RtDef.
From S2P Require Import Kernel.
Open Scope Z_scope.

(** * Data *)

Definition RT_TICK_MAX : Z := 4294967295.
Definition RT_TIMER_FLAG_DEACTIVATED : Z := 0.
Definition RT_TIMER_FLAG_ACTIVATED : Z := 1.
Definition RT_TIMER_FLAG_PROCESSING : Z := 2.
Definition RT_TIMER_FLAG_PERIODIC : Z := 4.
Definition RT_TIMER_FLAG_SOFT_TIMER : Z := 8.
Definition RT_TIMER_FLAG_THREAD_TIMER : Z := 16.

Definition RT_TIMER_CTRL_SET_TIME : Z := 0.
Definition RT_TIMER_CTRL_GET_TIME : Z := 1.
Definition RT_TIMER_CTRL_SET_ONESHOT : Z := 2.
Definition RT_TIMER_CTRL_SET_PERIODIC : Z := 3.
Definition RT_TIMER_CTRL_GET_STATE : Z := 4.
Definition RT_TIMER_CTRL_GET_REMAIN_TIME : Z := 5.
Definition RT_TIMER_CTRL_GET_FUNC : Z := 6.
Definition RT_TIMER_CTRL_SET_FUNC : Z := 7.
Definition RT_TIMER_CTRL_GET_PARM : Z := 8.
Definition RT_TIMER_CTRL_SET_PARM : Z := 9.

(** Functions and parameters are words. *)
Record rt_timer : Type := mk_tm {
  tm_flag : Z;
  timeout_func : Z;
  parameter : Z;
  init_tick : Z;
  timeout_tick : Z
}.

(** The tick, the timers, the two lists, and the local lists of the two checks, which hold the
    timer whose function runs. [stimer_posts] counts the releases of the semaphore of the timer
    thread. *)
Record tsys : Type := mk_tsys {
  rt_tick : Z;
  tms : gmap nat rt_timer;
  _timer_list : list nat;
  _soft_timer_list : list nat;
  hard_tmp : list nat;
  soft_tmp : list nat;
  random_nr : Z;
  stimer_posts : Z
}.

Definition tm (s : tsys) (t : nat) : rt_timer := default (mk_tm 0 0 0 0 0) (tms s !! t).
#[global] Arguments tm : simpl never.

Definition upd_tm (t : nat) (f : rt_timer → rt_timer) (s : tsys) : tsys :=
  mk_tsys (rt_tick s) (<[t := f (tm s t)]> (tms s)) (_timer_list s) (_soft_timer_list s) (hard_tmp s) (soft_tmp s)
    (random_nr s) (stimer_posts s).

Definition map_flag (g : Z → Z) (x : rt_timer) : rt_timer :=
  mk_tm (g (tm_flag x)) (timeout_func x) (parameter x) (init_tick x) (timeout_tick x).
Definition set_flag (m : Z) : rt_timer → rt_timer := map_flag (λ f, Z.lor f m).
Definition clear_flag (m : Z) : rt_timer → rt_timer := map_flag (λ f, Z.ldiff f m).
Definition set_init_tick (d : Z) (x : rt_timer) : rt_timer := mk_tm (tm_flag x) (timeout_func x) (parameter x) d (timeout_tick x).
Definition set_timeout_tick (d : Z) (x : rt_timer) : rt_timer := mk_tm (tm_flag x) (timeout_func x) (parameter x) (init_tick x) d.

(** The list of hard or soft timers, and the local list of its check. *)
Definition tlist (soft : bool) (s : tsys) : list nat := if soft then _soft_timer_list s else _timer_list s.
Definition ttmp (soft : bool) (s : tsys) : list nat := if soft then soft_tmp s else hard_tmp s.
Definition set_tlist (soft : bool) (l : list nat) (s : tsys) : tsys :=
  mk_tsys (rt_tick s) (tms s) (if soft then _timer_list s else l) (if soft then l else _soft_timer_list s) (hard_tmp s) (soft_tmp s)
    (random_nr s) (stimer_posts s).
Definition set_ttmp (soft : bool) (l : list nat) (s : tsys) : tsys :=
  mk_tsys (rt_tick s) (tms s) (_timer_list s) (_soft_timer_list s) (if soft then hard_tmp s else l) (if soft then l else soft_tmp s)
    (random_nr s) (stimer_posts s).
Definition bump (s : tsys) : tsys :=
  mk_tsys (rt_tick s) (tms s) (_timer_list s) (_soft_timer_list s) (hard_tmp s) (soft_tmp s) (u32 (random_nr s + 1)) (stimer_posts s).
Definition post (s : tsys) : tsys :=
  mk_tsys (rt_tick s) (tms s) (_timer_list s) (_soft_timer_list s) (hard_tmp s) (soft_tmp s) (random_nr s) (stimer_posts s + 1).

Definition is_soft (x : rt_timer) : bool := flag_set (tm_flag x) RT_TIMER_FLAG_SOFT_TIMER.

(** * Operations *)

Definition _timer_init (timeout param time flag : Z) : rt_timer :=
  mk_tm (Z.ldiff flag RT_TIMER_FLAG_ACTIVATED) timeout param time 0.

(** [None] when the assertion on the time fails. *)
Definition rt_timer_init (t : nat) (timeout param time flag : Z) (s : tsys) : option tsys :=
  if time <? RT_TICK_MAX / 2 then Some (upd_tm t (λ _, _timer_init timeout param time flag) s) else None.

(** [alloc]: whether the object [t] can be allocated. *)
Definition rt_timer_create (alloc : bool) (t : nat) (timeout param time flag : Z) (s : tsys) : option (option nat * tsys) :=
  if time <? RT_TICK_MAX / 2 then
    Some (if alloc then (Some t, upd_tm t (λ _, _timer_init timeout param time flag) s) else (None, s))
  else None.

(** The node of a timer is taken off the list it is on. *)
Definition _timer_remove (t : nat) (s : tsys) : tsys :=
  mk_tsys (rt_tick s) (tms s) (list_remove (_timer_list s) t) (list_remove (_soft_timer_list s) t) (list_remove (hard_tmp s) t)
    (list_remove (soft_tmp s) t) (random_nr s) (stimer_posts s).

Definition rt_timer_detach (t : nat) (s : tsys) : Z * tsys :=
  (RT_EOK, upd_tm t (clear_flag RT_TIMER_FLAG_ACTIVATED) (_timer_remove t s)).
Definition rt_timer_delete (t : nat) (s : tsys) : Z * tsys :=
  (RT_EOK, upd_tm t (clear_flag RT_TIMER_FLAG_ACTIVATED) (_timer_remove t s)).

(** The search for the place of a timer with the deadline [d]. *)
Fixpoint timer_insert (s : tsys) (l : list nat) (t : nat) (d : Z) : list nat :=
  match l with
  | [] => [t]
  | u :: l =>
      let diff := u32 (timeout_tick (tm s u) - d) in
      if diff =? 0 then u :: timer_insert s l t d
      else if diff <? RT_TICK_MAX / 2 then t :: u :: l
      else u :: timer_insert s l t d
  end.

Definition _timer_start (soft : bool) (t : nat) (s : tsys) : Z * tsys :=
  if flag_set (tm_flag (tm s t)) RT_TIMER_FLAG_PROCESSING then (- RT_ERROR, s) else
  let s := upd_tm t (clear_flag RT_TIMER_FLAG_ACTIVATED) (_timer_remove t s) in
  let d := u32 (rt_tick s + init_tick (tm s t)) in
  let s := upd_tm t (set_timeout_tick d) s in
  let s := bump (set_tlist soft (timer_insert s (tlist soft s) t d) s) in
  (RT_EOK, upd_tm t (set_flag RT_TIMER_FLAG_ACTIVATED) s).

(** The flag of the thread of a thread timer is in [Kernel] and in [Sched]. *)
Definition rt_timer_start (t : nat) (s : tsys) : Z * tsys :=
  let soft := is_soft (tm s t) in
  let '(err, s) := _timer_start soft t s in
  (err, if (err =? RT_EOK) && is_soft (tm s t) then post s else s).

Definition rt_timer_stop (t : nat) (s : tsys) : Z * tsys :=
  if negb (flag_set (tm_flag (tm s t)) RT_TIMER_FLAG_ACTIVATED) then (- RT_ERROR, s)
  else (RT_EOK, upd_tm t (clear_flag RT_TIMER_FLAG_ACTIVATED) (_timer_remove t s)).

(** [arg]: the word the pointer points to for [RT_TIMER_CTRL_SET_TIME], otherwise the pointer.
    The result, what is stored at [arg], and the state; [None] when the assertion fails. *)
Definition rt_timer_control (t : nat) (cmd arg : Z) (s : tsys) : option (Z * option Z * tsys) :=
  let x := tm s t in
  if cmd =? RT_TIMER_CTRL_GET_TIME then Some (RT_EOK, Some (init_tick x), s)
  else if cmd =? RT_TIMER_CTRL_SET_TIME then
    if arg <? RT_TICK_MAX / 2 then
      let s := if flag_set (tm_flag x) RT_TIMER_FLAG_ACTIVATED
               then upd_tm t (clear_flag RT_TIMER_FLAG_ACTIVATED) (_timer_remove t s) else s in
      Some (RT_EOK, None, upd_tm t (set_init_tick arg) s)
    else None
  else if cmd =? RT_TIMER_CTRL_SET_ONESHOT then Some (RT_EOK, None, upd_tm t (clear_flag RT_TIMER_FLAG_PERIODIC) s)
  else if cmd =? RT_TIMER_CTRL_SET_PERIODIC then Some (RT_EOK, None, upd_tm t (set_flag RT_TIMER_FLAG_PERIODIC) s)
  else if cmd =? RT_TIMER_CTRL_GET_STATE then
    Some (RT_EOK, Some (if flag_set (tm_flag x) RT_TIMER_FLAG_ACTIVATED then RT_TIMER_FLAG_ACTIVATED else RT_TIMER_FLAG_DEACTIVATED), s)
  else if cmd =? RT_TIMER_CTRL_GET_REMAIN_TIME then Some (RT_EOK, Some (timeout_tick x), s)
  else if cmd =? RT_TIMER_CTRL_GET_FUNC then Some (RT_EOK, Some (timeout_func x), s)
  else if cmd =? RT_TIMER_CTRL_SET_FUNC then
    Some (RT_EOK, None, upd_tm t (λ x, mk_tm (tm_flag x) arg (parameter x) (init_tick x) (timeout_tick x)) s)
  else if cmd =? RT_TIMER_CTRL_GET_PARM then Some (RT_EOK, Some (parameter x), s)
  else if cmd =? RT_TIMER_CTRL_SET_PARM then
    Some (RT_EOK, None, upd_tm t (λ x, mk_tm (tm_flag x) (timeout_func x) arg (init_tick x) (timeout_tick x)) s)
  else Some (RT_EOK, None, s).

(** * Checking the timers *)

(** One round of [rt_timer_check] or [_soft_timer_check], up to the timeout function: the timer
    that has expired, if the first one has. The tick read by [rt_timer_check] is the current
    one, as its caller counts the ticks. *)
Definition check_begin (soft : bool) (s : tsys) : option nat * tsys :=
  match tlist soft s with
  | [] => (None, s)
  | t :: _ =>
      if u32 (rt_tick s - timeout_tick (tm s t)) <? RT_TICK_MAX / 2 then
        let s := _timer_remove t s in
        let s := if negb (flag_set (tm_flag (tm s t)) RT_TIMER_FLAG_PERIODIC)
                 then upd_tm t (clear_flag RT_TIMER_FLAG_ACTIVATED) s else s in
        let s := upd_tm t (set_flag RT_TIMER_FLAG_PROCESSING) s in
        (Some t, set_ttmp soft (t :: ttmp soft s) s)
      else (None, s)
  end.

(** The round after the timeout function. *)
Definition check_end (soft : bool) (t : nat) (s : tsys) : tsys :=
  let s := upd_tm t (clear_flag RT_TIMER_FLAG_PROCESSING) s in
  match ttmp soft s with
  | [] => s
  | _ :: _ =>
      let s := _timer_remove t s in
      if flag_set (tm_flag (tm s t)) RT_TIMER_FLAG_PERIODIC && flag_set (tm_flag (tm s t)) RT_TIMER_FLAG_ACTIVATED
      then (_timer_start soft t (upd_tm t (clear_flag RT_TIMER_FLAG_ACTIVATED) s)).2
      else s
  end.

(** The loop of a check; [run f p] is what the timeout function [f] with the parameter [p]
    does. [None]: it has not ended after [fuel] rounds. *)
Fixpoint timer_check_loop (fuel : nat) (soft : bool) (run : Z → Z → tsys → tsys) (s : tsys) : option tsys :=
  match fuel with
  | O => None
  | S fuel =>
      match check_begin soft s with
      | (None, s) => Some s
      | (Some t, s) => timer_check_loop fuel soft run (check_end soft t (run (timeout_func (tm s t)) (parameter (tm s t)) s))
      end
  end.

Definition rt_timer_check (fuel : nat) (run : Z → Z → tsys → tsys) (s : tsys) : option tsys := timer_check_loop fuel false run s.
Definition _soft_timer_check (fuel : nat) (run : Z → Z → tsys → tsys) (s : tsys) : option tsys := timer_check_loop fuel true run s.

Definition tick_add (s : tsys) : tsys :=
  mk_tsys (u32 (rt_tick s + 1)) (tms s) (_timer_list s) (_soft_timer_list s) (hard_tmp s) (soft_tmp s) (random_nr s) (stimer_posts s).

(** The hook and the time slices of the threads are not part of the state. *)
Definition rt_tick_increase (fuel : nat) (run : Z → Z → tsys → tsys) (s : tsys) : option tsys := rt_timer_check fuel run (tick_add s).

Definition _timer_list_next_timeout (soft : bool) (s : tsys) : option Z :=
  match tlist soft s with [] => None | t :: _ => Some (timeout_tick (tm s t)) end.

Definition rt_timer_next_timeout_tick (s : tsys) : Z := default RT_TICK_MAX (_timer_list_next_timeout false s).

(** How long [_timer_thread_entry] waits for its semaphore before the next check: for ever, for
    some ticks, or not at all. *)
Inductive thread_wait : Type := Forever | Ticks (d : Z) | NoWait.

Definition timer_thread_wait (s : tsys) : thread_wait :=
  match _timer_list_next_timeout true s with
  | None => Forever
  | Some next => if u32 (next - rt_tick s) <? RT_TICK_MAX / 2 then Ticks (u32 (next - rt_tick s)) else NoWait
  end.

Definition rt_system_timer_init : tsys := mk_tsys 0 ∅ [] [] [] [] 0 0.

Definition rt_tick_set (tick : Z) (s : tsys) : tsys :=
  mk_tsys tick (tms s) (_timer_list s) (_soft_timer_list s) (hard_tmp s) (soft_tmp s) (random_nr s) (stimer_posts s).
