(* ===== verification/TimerRun.v ===== *)
(** Timers in use: any order of starting, stopping and changing timers, ticks, and checks with
    whatever their timeout functions do. The abstract clock counts without wrapping around; a
    timer has a deadline on it and a serial number of its start. *)

From S2P Require Import Prelude.
From S2P Require Import RtDef.
From S2P Require Import Kernel.
From S2P Require Import Timer.
Open Scope Z_scope.

#[local] Arguments list_remove : simpl never.

(** * The abstract clock *)

(** The pending timers of the tick interrupt and of the timer thread, with deadline and serial
    number. *)
Record clock : Type := mk_clock { a_now : Z; a_seq : Z; a_hard : gmap nat (Z * Z); a_soft : gmap nat (Z * Z) }.

Definition pending (soft : bool) (a : clock) : gmap nat (Z * Z) := if soft then a_soft a else a_hard a.

Inductive timer_event : Type :=
  | Started (t : nat) (soft : bool) (d : Z)
  | Removed (t : nat)
  | Fired (soft : bool) (t : nat)
  | Idle (soft : bool)
  | Ticked
  | Silent.

Definition forget (t : nat) (a : clock) : clock := mk_clock (a_now a) (a_seq a) (delete t (a_hard a)) (delete t (a_soft a)).

Definition a_next (a : clock) (e : timer_event) : clock :=
  match e with
  | Started t soft d =>
      let a := forget t a in
      let p := (a_now a + d, a_seq a) in
      mk_clock (a_now a) (a_seq a + 1) (if soft then a_hard a else <[t := p]> (a_hard a))
        (if soft then <[t := p]> (a_soft a) else a_soft a)
  | Removed t | Fired _ t => forget t a
  | Ticked => mk_clock (a_now a + 1) (a_seq a) (a_hard a) (a_soft a)
  | Idle _ | Silent => a
  end.

(** An earlier deadline, or the same one and an earlier start. *)
Definition sooner (p q : Z * Z) : Prop := p.1 < q.1 ∨ p.1 = q.1 ∧ p.2 < q.2.

(** A timer fires when its deadline has come and no other timer of its kind is sooner; a check
    ends when no deadline has come. *)
Definition legal (a : clock) (e : timer_event) : Prop :=
  match e with
  | Fired soft t =>
      ∃ p, pending soft a !! t = Some p ∧ p.1 ≤ a_now a ∧ ∀ u q, pending soft a !! u = Some q → u ≠ t → sooner p q
  | Idle soft => ∀ u q, pending soft a !! u = Some q → a_now a < q.1
  | Started _ _ d => 0 ≤ d
  | _ => True
  end.

(** Half of the range of ticks. *)
Definition HALF : Z := 2147483647.

(** The timers are checked in time: no timer is started with a delay that is half the range of
    ticks or more after a deadline that is still pending, and no deadline is left pending for as
    long as that. *)
Definition in_time (a : clock) (e : timer_event) : Prop :=
  match e with
  | Started t soft d => ∀ u p, u ≠ t → pending soft a !! u = Some p → a_now a + d - p.1 < HALF
  | Ticked => ∀ soft u p, pending soft a !! u = Some p → a_now a + 1 - p.1 < HALF
  | _ => True
  end.

Fixpoint along (P : clock → timer_event → Prop) (a : clock) (es : list timer_event) : Prop :=
  match es with [] => True | e :: es => P a e ∧ along P (a_next a e) es end.

(** * The machine *)

(** The timer whose function is running in each of the two checks. *)
Record timer_state : Type := mk_tst { st_sys : tsys; st_hard : option nat; st_soft : option nat }.

Definition running (soft : bool) (s : timer_state) : option nat := if soft then st_soft s else st_hard s.
Definition set_running (soft : bool) (o : option nat) (x : tsys) (s : timer_state) : timer_state :=
  mk_tst x (if soft then st_hard s else o) (if soft then o else st_soft s).
Definition set_sys (x : tsys) (s : timer_state) : timer_state := mk_tst x (st_hard s) (st_soft s).

Inductive timer_op : Type :=
  | TInit (t : nat) (func param time flag : Z)
  | TStart (t : nat)
  | TStop (t : nat)
  | TDetach (t : nat)
  | TControl (t : nat) (cmd arg : Z)
  | TTick
  | TBegin (soft : bool)
  | TEnd (soft : bool).

(** Whether a check starts its timer again. *)
Definition restarts (soft : bool) (t : nat) (s : tsys) : bool :=
  negb (bool_decide (ttmp soft s = [])) && flag_set (tm_flag (tm s t)) RT_TIMER_FLAG_PERIODIC
  && flag_set (tm_flag (tm s t)) RT_TIMER_FLAG_ACTIVATED.

(** One step; [None] when an assertion fails. *)
Definition timer_exec (s : timer_state) (o : timer_op) : option (timer_event * timer_state) :=
  let x := st_sys s in
  match o with
  | TInit t func param time flag => x ← rt_timer_init t func param time flag x; Some (Silent, set_sys x s)
  | TStart t =>
      let '(err, x') := rt_timer_start t x in
      Some (if err =? RT_EOK then Started t (is_soft (tm x t)) (init_tick (tm x t)) else Silent, set_sys x' s)
  | TStop t => let '(err, x') := rt_timer_stop t x in Some (if err =? RT_EOK then Removed t else Silent, set_sys x' s)
  | TDetach t => Some (Removed t, set_sys (rt_timer_detach t x).2 s)
  | TControl t cmd arg =>
      '(_, _, x') ← rt_timer_control t cmd arg x;
      Some (if (cmd =? RT_TIMER_CTRL_SET_TIME) && flag_set (tm_flag (tm x t)) RT_TIMER_FLAG_ACTIVATED then Removed t else Silent, set_sys x' s)
  | TTick => Some (Ticked, set_sys (tick_add x) s)
  | TBegin soft =>
      let '(o, x') := check_begin soft x in
      Some (match o with Some t => Fired soft t | None => Idle soft end, set_running soft o x' s)
  | TEnd soft =>
      match running soft s with
      | Some t => Some (if restarts soft t x then Started t soft (init_tick (tm x t)) else Silent, set_running soft None (check_end soft t x) s)
      | None => Some (Silent, s)
      end
  end.

(** A timer is initialised when it is not in use; a check does not run inside itself. *)
Definition timer_enabled (s : timer_state) (o : timer_op) : Prop :=
  match o with
  | TInit t _ _ time _ => (∀ soft, t ∉ tlist soft (st_sys s) ∧ t ∉ ttmp soft (st_sys s) ∧ running soft s ≠ Some t) ∧ 0 ≤ time < HALF
  | TControl _ cmd arg => cmd = RT_TIMER_CTRL_SET_TIME → 0 ≤ arg < HALF
  | TBegin soft => running soft s = None
  | TEnd soft => is_Some (running soft s)
  | _ => True
  end.

Inductive timer_run : timer_state → list (timer_op * timer_event) → timer_state → Prop :=
  | trun_nil s : timer_run s [] s
  | trun_step s o e s' tr s'' :
      timer_enabled s o → timer_exec s o = Some (e, s') → timer_run s' tr s'' → timer_run s ((o, e) :: tr) s''.

(** * Ticks *)

Lemma half_max : RT_TICK_MAX / 2 = HALF.
Proof. reflexivity. Qed.

(** Within half the range the wrapped difference has the sign of the true one. *)
Lemma tick_diff (D E : Z) : - HALF < D - E < HALF → u32 (u32 D - u32 E) = if E <=? D then D - E else D - E + 4294967296.
Proof.
  unfold HALF, u32. intros H. rewrite <-Zminus_mod. destruct (Z.leb_spec E D).
  - apply Z.mod_small. lia.
  - symmetry. apply (Z.mod_unique_pos _ _ (-1)); lia.
Qed.

Lemma tick_same D E : - HALF < D - E < HALF → (u32 (u32 D - u32 E) =? 0) = (D =? E).
Proof.
  intros H. rewrite tick_diff by done. unfold HALF in H. destruct (Z.leb_spec E D);
    [destruct (Z.eqb_spec (D - E) 0), (Z.eqb_spec D E) | destruct (Z.eqb_spec (D - E + 4294967296) 0), (Z.eqb_spec D E)]; (done || lia).
Qed.

Lemma tick_reached D E : - HALF < D - E < HALF → (u32 (u32 D - u32 E) <? RT_TICK_MAX / 2) = (E <=? D).
Proof.
  intros H. rewrite tick_diff, half_max by done. unfold HALF in *. destruct (Z.leb_spec E D);
    [apply Z.ltb_lt | apply Z.ltb_ge]; lia.
Qed.

(** * A list in the order of deadlines *)

(** [es] are the timers of the list with deadline and serial number. *)
Record listed (s : tsys) (now seq : Z) (l : list nat) (dl : gmap nat (Z * Z)) (es : list (nat * (Z * Z))) : Prop := {
  ld_fst : l = es.*1;
  ld_nodup : NoDup l;
  ld_map : ∀ u p, dl !! u = Some p ↔ (u, p) ∈ es;
  ld_sort : StronglySorted (λ e e', sooner e.2 e'.2) es;
  ld_each : ∀ u p, (u, p) ∈ es → timeout_tick (tm s u) = u32 p.1 ∧ now - HALF < p.1 < now + HALF ∧ p.2 < seq
}.

Definition in_order (s : tsys) (now seq : Z) (l : list nat) (dl : gmap nat (Z * Z)) : Prop := ∃ es, listed s now seq l dl es.

Lemma listed_frame s s' now now' seq seq' l dl es :
  listed s now seq l dl es → (∀ u, u ∈ l → timeout_tick (tm s' u) = timeout_tick (tm s u)) → seq ≤ seq' →
  (∀ u p, dl !! u = Some p → now' - HALF < p.1 < now' + HALF) → listed s' now' seq' l dl es.
Proof.
  intros [Hf Hn Hm Hs He] Ht Hq Hw. constructor; try done. intros u p Hin. destruct (He u p Hin) as (E & _ & Hp).
  split_and!; [|by apply (Hw u p), Hm |by apply (Hw u p), Hm | lia]. rewrite Ht; [done |]. rewrite Hf. by apply (list_elem_of_fmap_2 fst es (u, p)).
Qed.

Lemma listed_remove s now seq l dl es t :
  listed s now seq l dl es → listed s now seq (list_remove l t) (delete t dl) (filter (λ e, e.1 ≠ t) es).
Proof.
  intros [Hf Hn Hm Hs He]. constructor.
  - rewrite Hf. clear. induction es as [|[u p] es IH]; [done |]. unfold list_remove in *. cbn [fmap list_fmap fst]. rewrite !filter_cons. cbn [fst].
    case_decide; [|done]. cbn [fmap list_fmap fst]. by rewrite IH.
  - by apply NoDup_list_remove.
  - intros u p. rewrite list_elem_of_filter, lookup_delete_Some, Hm. cbn. naive_solver.
  - by apply StronglySorted_filter.
  - intros u p [_ Hin]%list_elem_of_filter. by apply He.
Qed.

(** The place of a new deadline is behind those that are not later. *)
Lemma timer_insert_split s now seq l dl es t D :
  listed s now seq l dl es → (∀ u p, (u, p) ∈ es → - HALF < p.1 - D < HALF) →
  ∃ es1 es2, es = es1 ++ es2 ∧ timer_insert s l t (u32 D) = es1.*1 ++ t :: es2.*1
    ∧ Forall (λ e, e.2.1 ≤ D) es1 ∧ Forall (λ e, D < e.2.1) es2.
Proof.
  intros [-> _ _ Hs He] Hw. clear dl. induction Hs as [|[u p] es Hs IH Hall]; [by exists [], [] |]. cbn [fmap list_fmap fst timer_insert].
  destruct (He u p) as (-> & _); [by left |]. pose proof (Hw u p ltac:(by left)) as Hup. rewrite tick_same, tick_reached by done.
  destruct (Z.eqb_spec p.1 D) as [E | E]; [|destruct (Z.leb_spec D p.1) as [L | L]].
  2: { exists [], ((u, p) :: es). split_and!; [done.. |]. constructor; [cbn; lia |]. eapply Forall_impl; [exact Hall |]. unfold sooner. cbn. intros e. lia. }
  all: destruct IH as (es1 & es2 & -> & E2 & H1 & H2); [by intros; apply He; right | by intros; eapply Hw; right |].
  all: exists ((u, p) :: es1), es2; rewrite E2; split_and!; [done.. | constructor; [cbn; lia | done] | done].
Qed.

Lemma StronglySorted_insert {A} (R : A → A → Prop) l1 x l2 :
  StronglySorted R (l1 ++ l2) → Forall (λ y, R y x) l1 → Forall (R x) l2 → StronglySorted R (l1 ++ x :: l2).
Proof.
  induction l1 as [|y l1 IH]; cbn; intros Hs H1 H2; [by constructor |]. apply StronglySorted_inv in Hs as [Hs Hy]. apply Forall_cons in H1 as [Hyx H1].
  constructor; [by apply IH |]. rewrite Forall_app in *. destruct Hy. split; [done |]. by constructor.
Qed.

Lemma listed_insert s now seq l dl es t d :
  listed s now seq l dl es → t ∉ l → 0 ≤ d < HALF → (∀ u p, dl !! u = Some p → now + d - p.1 < HALF) →
  timeout_tick (tm s t) = u32 (now + d) →
  in_order s now (seq + 1) (timer_insert s l t (u32 (now + d))) (<[t := (now + d, seq)]> dl).
Proof.
  intros Hl Ht Hd Hw Etm. destruct (timer_insert_split s now seq l dl es t (now + d) Hl) as (es1 & es2 & -> & -> & H1 & H2).
  { intros u p Hin. pose proof (ld_each _ _ _ _ _ _ Hl u p Hin) as (_ & Hb & _). pose proof (Hw u p (proj2 (ld_map _ _ _ _ _ _ Hl u p) Hin)). lia. }
  destruct Hl as [Hf Hn Hm Hs He]. exists (es1 ++ (t, (now + d, seq)) :: es2). rewrite fmap_app in Hf. constructor.
  - by rewrite fmap_app.
  - rewrite Hf in Hn, Ht. rewrite <-Permutation_middle. by apply NoDup_cons.
  - intros u p. rewrite lookup_insert_Some, Hm, !elem_of_app, elem_of_cons. split.
    + intros [[-> <-] | [_ Hin]]; tauto.
    + intros Hin. destruct (decide (t = u)) as [-> | Hne]; [left | right; naive_solver]. split; [done |].
      destruct Hin as [Hin | [[= ->] | Hin]]; [exfalso; apply Ht | done | exfalso; apply Ht]; rewrite Hf; apply elem_of_app;
        [left | right]; by apply (list_elem_of_fmap_2 fst _ (u, p)).
  - apply StronglySorted_insert; [done | |].
    + apply Forall_forall. intros [u p] Hin. rewrite Forall_forall in H1. specialize (H1 _ Hin). cbn in H1. unfold sooner. cbn.
      destruct (He u p) as (_ & _ & Hq); [set_solver |]. lia.
    + eapply Forall_impl; [exact H2 |]. intros e He'. by left.
  - intros u p. rewrite elem_of_app, elem_of_cons. intros Hin. assert ((u, p) ∈ es1 ++ es2 ∨ (u, p) = (t, (now + d, seq))) as [Hin' | [= -> ->]] by set_solver.
    + destruct (He u p Hin') as (? & ? & ?). split_and!; (done || lia).
    + cbn. split_and!; [done | lia | lia | lia].
Qed.

(** * Flags *)

Lemma flag_bit f k : 0 ≤ k → flag_set f (2 ^ k) = Z.testbit f k.
Proof.
  intros Hk. unfold flag_set. destruct (Z.testbit f k) eqn:E.
  - apply negb_true_iff, Z.eqb_neq. intros H. apply (f_equal (λ z, Z.testbit z k)) in H.
    rewrite Z.land_spec, Z.pow2_bits_true, E, Z.bits_0 in H by done. done.
  - apply negb_false_iff, Z.eqb_eq, Z.bits_inj'. intros n Hn. rewrite Z.land_spec, Z.bits_0, Z.pow2_bits_eqb by done.
    destruct (Z.eqb_spec k n) as [<- | _]; [by rewrite E | apply andb_false_r].
Qed.

Definition active (x : rt_timer) : bool := flag_set (tm_flag x) RT_TIMER_FLAG_ACTIVATED.
Definition processing (x : rt_timer) : bool := flag_set (tm_flag x) RT_TIMER_FLAG_PROCESSING.

(** What sets and clears the two flags. *)
Lemma active_set x m : active (set_flag m x) = active x || Z.testbit m 0.
Proof. unfold active, set_flag, map_flag. cbn [tm_flag]. by rewrite !(flag_bit _ 0), Z.lor_spec. Qed.
Lemma active_clear x m : active (clear_flag m x) = active x && negb (Z.testbit m 0).
Proof. unfold active, clear_flag, map_flag. cbn [tm_flag]. by rewrite !(flag_bit _ 0), Z.ldiff_spec. Qed.
Lemma processing_set x m : processing (set_flag m x) = processing x || Z.testbit m 1.
Proof. unfold processing, set_flag, map_flag. cbn [tm_flag]. by rewrite !(flag_bit _ 1), Z.lor_spec. Qed.
Lemma processing_clear x m : processing (clear_flag m x) = processing x && negb (Z.testbit m 1).
Proof. unfold processing, clear_flag, map_flag. cbn [tm_flag]. by rewrite !(flag_bit _ 1), Z.ldiff_spec. Qed.

(** * The invariant *)

Record sys_ok (s : tsys) (a : clock) : Prop := {
  r_tick : rt_tick s = u32 (a_now a);
  r_init : ∀ t, 0 ≤ init_tick (tm s t) < HALF;
  r_list : ∀ soft, in_order s (a_now a) (a_seq a) (tlist soft s) (pending soft a);
  r_active : ∀ soft t, t ∈ tlist soft s → active (tm s t) = true
}.

Lemma tm_upd t f s u : tm (upd_tm t f s) u = if decide (t = u) then f (tm s t) else tm s u.
Proof. unfold tm at 1, upd_tm. cbn [tms]. case_decide; [subst; by rewrite lookup_insert_eq | by rewrite lookup_insert_ne]. Qed.

(** Only the tick, the lists and the times of the timers matter. *)
Lemma sys_ok_ext s s' a :
  sys_ok s a → rt_tick s' = rt_tick s → (∀ soft, tlist soft s' = tlist soft s) →
  (∀ t, 0 ≤ init_tick (tm s' t) < HALF) →
  (∀ soft t, t ∈ tlist soft s → timeout_tick (tm s' t) = timeout_tick (tm s t) ∧ active (tm s' t) = active (tm s t)) → sys_ok s' a.
Proof.
  intros [Ht Hi Hl Ha] Et El Hi' Htm. constructor.
  - by rewrite Et.
  - done.
  - intros soft. destruct (Hl soft) as [es Hes]. exists es. rewrite El. eapply listed_frame; [exact Hes | | done |].
    + intros u Hu. by apply (Htm soft).
    + intros u p Hp. by apply (ld_each _ _ _ _ _ _ Hes u p), (ld_map _ _ _ _ _ _ Hes).
  - intros soft t. rewrite El. intros Hin. rewrite (proj2 (Htm soft t Hin)). by eapply Ha.
Qed.

(** A timer that is on no list changes. *)
Lemma sys_ok_upd s a t f :
  sys_ok s a → 0 ≤ init_tick (f (tm s t)) < HALF →
  (∀ soft, t ∈ tlist soft s → timeout_tick (f (tm s t)) = timeout_tick (tm s t) ∧ active (f (tm s t)) = active (tm s t)) →
  sys_ok (upd_tm t f s) a.
Proof.
  intros Hok Hi Hf. apply (sys_ok_ext s); [done | done | by intros [] | |].
  - intros u. rewrite tm_upd. case_decide; [done | apply (r_init _ _ Hok)].
  - intros soft u Hu. rewrite tm_upd. case_decide; [subst; by apply (Hf soft) | done].
Qed.

Lemma tlist_remove soft t s : tlist soft (_timer_remove t s) = list_remove (tlist soft s) t.
Proof. by destruct soft. Qed.

Lemma pending_forget soft t a : pending soft (forget t a) = delete t (pending soft a).
Proof. by destruct soft. Qed.

Lemma sys_ok_remove s a t : sys_ok s a → sys_ok (_timer_remove t s) (forget t a).
Proof.
  intros [Ht Hi Hl Ha]. constructor; try done.
  - intros soft. rewrite tlist_remove, pending_forget. destruct (Hl soft) as [es Hes]. eexists.
    eapply (listed_frame s); [by apply listed_remove | done | done |].
    intros u p [_ Hp]%lookup_delete_Some. by apply (ld_each _ _ _ _ _ _ Hes u p), (ld_map _ _ _ _ _ _ Hes).
  - intros soft u. rewrite tlist_remove, elem_of_list_remove. intros [_ Hu]. by eapply Ha.
Qed.

Lemma removed_notin soft t s : t ∉ tlist soft (_timer_remove t s).
Proof. rewrite tlist_remove, elem_of_list_remove. tauto. Qed.

(** Off the lists a timer may be flagged at will. *)
Lemma sys_ok_off s a t f :
  sys_ok s a → (∀ soft, t ∉ tlist soft s) → init_tick (f (tm s t)) = init_tick (tm s t) → sys_ok (upd_tm t f s) a.
Proof.
  intros Hok Hoff Hi. apply sys_ok_upd; [done | rewrite Hi; apply (r_init _ _ Hok) |]. intros soft Hin. by apply Hoff in Hin.
Qed.

(** ** Starting *)

Lemma timer_insert_elem s l t d u : u ∈ timer_insert s l t d → u = t ∨ u ∈ l.
Proof. induction l as [|v l IH]; cbn [timer_insert]; [set_solver |]. repeat case_match; set_solver. Qed.

Lemma start_ok s a soft t :
  sys_ok s a → processing (tm s t) = false → in_time a (Started t soft (init_tick (tm s t))) →
  (_timer_start soft t s).1 = RT_EOK ∧ sys_ok (_timer_start soft t s).2 (a_next a (Started t soft (init_tick (tm s t)))).
Proof.
  intros Hok Hp Hw. unfold _timer_start. fold (processing (tm s t)). rewrite Hp. split; [done |]. cbn [snd].
  set (s1 := upd_tm t (clear_flag RT_TIMER_FLAG_ACTIVATED) (_timer_remove t s)).
  assert (Ei : init_tick (tm s1 t) = init_tick (tm s t)) by (unfold s1; by rewrite tm_upd, decide_True).
  assert (Hoff : ∀ b, t ∉ tlist b s1) by (intros b; pose proof (removed_notin b t s) as H; by destruct b).
  assert (Hok1 : sys_ok s1 (forget t a)) by (apply sys_ok_off; [by apply sys_ok_remove | intros b; apply removed_notin | done]).
  rewrite Ei. set (d := init_tick (tm s t)) in *.
  assert (Ed : u32 (rt_tick s1 + d) = u32 (a_now a + d)).
  { rewrite (r_tick _ _ Hok1). unfold u32. cbn [forget a_now]. by rewrite Zplus_mod_idemp_l. }
  rewrite Ed. set (s2 := upd_tm t (set_timeout_tick (u32 (a_now a + d))) s1).
  assert (Hok2 : sys_ok s2 (forget t a)) by (by apply sys_ok_off).
  assert (Etm : ∀ u, tm s2 u = if decide (t = u) then set_timeout_tick (u32 (a_now a + d)) (tm s1 t) else tm s1 u) by (intros u; apply tm_upd).
  assert (Hoff2 : ∀ b, t ∉ tlist b s2) by (intros []; [apply (Hoff true) | apply (Hoff false)]).
  set (l' := timer_insert s2 (tlist soft s2) t (u32 (a_now a + d))). set (s3 := upd_tm t _ _).
  assert (Htm3 : ∀ u, tm s3 u = if decide (t = u) then set_flag RT_TIMER_FLAG_ACTIVATED (tm s2 t) else tm s2 u) by (intros u; unfold s3; by rewrite tm_upd).
  assert (Hl3 : ∀ b, tlist b s3 = if decide (soft = b) then l' else tlist b s2) by (intros b; by destruct soft, b).
  assert (Hpend : ∀ b, pending b (a_next a (Started t soft d)) = if decide (soft = b) then <[t := (a_now a + d, a_seq a)]> (pending b (forget t a)) else pending b (forget t a))
    by (intros b; by destruct soft, b).
  assert (Htime : ∀ u, timeout_tick (tm s3 u) = timeout_tick (tm s2 u)) by (intros u; rewrite Htm3; case_decide; by subst).
  destruct (r_list _ _ Hok2 soft) as [es Hes].
  destruct (listed_insert s2 (a_now a) (a_seq a) (tlist soft s2) (pending soft (forget t a)) es t d) as [es' Hes'].
  { exact Hes. }
  { apply Hoff2. }
  { apply (r_init _ _ Hok). }
  { intros u p. rewrite pending_forget. intros [Hne Hup]%lookup_delete_Some. by apply (Hw u p). }
  { by rewrite Etm, decide_True. }
  constructor.
  - apply (r_tick _ _ Hok2).
  - intros u. rewrite Htm3. case_decide; [|apply (r_init _ _ Hok2)]. apply (r_init _ _ Hok2 t).
  - intros b. rewrite Hl3, Hpend. case_decide as Eb.
    + subst b. exists es'. eapply listed_frame; [exact Hes' | done | done |].
      intros u p Hp'. by apply (ld_each _ _ _ _ _ _ Hes' u p), (ld_map _ _ _ _ _ _ Hes').
    + destruct (r_list _ _ Hok2 b) as [eb Heb]. exists eb. eapply listed_frame; [exact Heb | done | cbn; lia |].
      intros u p Hp'. by apply (ld_each _ _ _ _ _ _ Heb u p), (ld_map _ _ _ _ _ _ Heb).
  - intros b u. rewrite Hl3. intros Hu. rewrite Htm3. destruct (decide (t = u)) as [<- | Hne]; [rewrite active_set; apply orb_true_r |].
    apply (r_active _ _ Hok2 b). case_decide as Eb; [|done]. subst b.
    apply timer_insert_elem in Hu as [-> | Hu]; done.
Qed.

(** ** Checking *)

Lemma begin_ok s a soft :
  sys_ok s a →
  let '(o, s') := check_begin soft s in
  let e := match o with Some t => Fired soft t | None => Idle soft end in
  legal a e ∧ sys_ok s' (a_next a e).
Proof.
  intros Hok. unfold check_begin. destruct (r_list _ _ Hok soft) as [es Hes]. destruct Hes as [Hf Hn Hm Hs He].
  destruct (tlist soft s) as [|t l] eqn:El.
  { split; [|done]. intros u q Hu%Hm. by destruct es; [apply elem_of_nil in Hu |]. }
  destruct es as [|[t' p] es]; [done |]. injection Hf as -> ->. destruct (He t' p) as (Et & Hb & _); [by left |].
  apply StronglySorted_inv in Hs as [_ Hs]. rewrite Forall_forall in Hs.
  rewrite (r_tick _ _ Hok), Et, tick_reached by lia. destruct (Z.leb_spec p.1 (a_now a)) as [Hle | Hlt].
  - split.
    + exists p. split_and!; [apply Hm; by left | done |]. intros u q Hu%Hm Hne. apply elem_of_cons in Hu as [[= -> ->] | Hu]; [done |].
      by apply (Hs (u, q)).
    + set (s1 := _timer_remove t' s). assert (Hok1 : sys_ok s1 (forget t' a)) by (by apply sys_ok_remove).
      assert (Hoff : ∀ b, t' ∉ tlist b s1) by (intros b; apply removed_notin).
      set (s2 := if negb _ then _ else s1).
      assert (sys_ok s2 (forget t' a) ∧ ∀ b, t' ∉ tlist b s2) as [Hok2 Hoff2].
      { unfold s2. destruct (negb _); [|done]. split; [by apply sys_ok_off |]. intros []; [apply (Hoff true) | apply (Hoff false)]. }
      assert (Hok3 : sys_ok (upd_tm t' (set_flag RT_TIMER_FLAG_PROCESSING) s2) (forget t' a)) by (by apply sys_ok_off).
      apply (sys_ok_ext (upd_tm t' (set_flag RT_TIMER_FLAG_PROCESSING) s2)); [done | done | by intros [] | exact (r_init _ _ Hok3) | done].
  - split; [|done]. intros u q Hu%Hm. apply elem_of_cons in Hu as [[= -> ->] | Hu]; [done |].
    specialize (Hs _ Hu). unfold sooner in Hs. cbn in Hs. lia.
Qed.

(** The timer of the check, which is on no list, is started again or left alone. *)
Lemma end_ok s a soft t :
  sys_ok s a → (∀ b, t ∉ tlist b s) →
  let e := if restarts soft t s then Started t soft (init_tick (tm s t)) else Silent in
  in_time a e → legal a e ∧ sys_ok (check_end soft t s) (a_next a e).
Proof.
  intros Hok Hoff e Hw. unfold check_end. set (s1 := upd_tm t (clear_flag RT_TIMER_FLAG_PROCESSING) s).
  assert (Etm : tm s1 t = clear_flag RT_TIMER_FLAG_PROCESSING (tm s t)) by (unfold s1; by rewrite tm_upd, decide_True).
  assert (Hok1 : sys_ok s1 a) by (by apply sys_ok_off).
  assert (Hok2 : sys_ok (_timer_remove t s1) a).
  { apply (sys_ok_ext s1); [done | done | | apply (r_init _ _ Hok1) | done]. intros b. rewrite tlist_remove, list_remove_notin; [by destruct b |].
    destruct b; [apply (Hoff true) | apply (Hoff false)]. }
  set (s2 := _timer_remove t s1) in *. assert (Hper : ∀ m, Z.testbit RT_TIMER_FLAG_PROCESSING m = false → 0 ≤ m →
    flag_set (tm_flag (tm s2 t)) (2 ^ m) = flag_set (tm_flag (tm s t)) (2 ^ m)).
  { intros m Hm H0. change (tm s2 t) with (tm s1 t). rewrite Etm, !flag_bit by done. unfold clear_flag, map_flag. cbn [tm_flag].
    rewrite Z.ldiff_spec, Hm. apply andb_true_r. }
  pose proof (Hper 2 eq_refl ltac:(lia)) as HP. pose proof (Hper 0 eq_refl ltac:(lia)) as HA.
  change (2 ^ 2) with RT_TIMER_FLAG_PERIODIC in HP. change (2 ^ 0) with RT_TIMER_FLAG_ACTIVATED in HA. rewrite HP, HA.
  subst e. unfold restarts in *. change (ttmp soft s1) with (ttmp soft s). destruct (ttmp soft s) as [|y l] eqn:Ey; [done |].
  rewrite bool_decide_eq_false_2 in * by done. cbn [negb andb] in *.
  destruct (flag_set (tm_flag (tm s t)) RT_TIMER_FLAG_PERIODIC && flag_set (tm_flag (tm s t)) RT_TIMER_FLAG_ACTIVATED); [|done].
  set (s3 := upd_tm t (clear_flag RT_TIMER_FLAG_ACTIVATED) s2).
  assert (E3 : tm s3 t = clear_flag RT_TIMER_FLAG_ACTIVATED (tm s1 t)) by (unfold s3; by rewrite tm_upd, decide_True).
  assert (Hi3 : init_tick (tm s3 t) = init_tick (tm s t)) by (by rewrite E3, Etm).
  rewrite <-Hi3 in Hw |- *. split.
  - cbn. rewrite Hi3. apply (r_init _ _ Hok).
  - apply start_ok; [|by rewrite E3, processing_clear, Etm, processing_clear, andb_false_r | done].
    apply sys_ok_off; [done | intros b; apply removed_notin | done].
Qed.

(** * Runs *)

(** A timer whose function runs is marked, and on no list. *)
Definition run_ok (s : tsys) (u : nat) : Prop := processing (tm s u) = true ∧ ∀ b, u ∉ tlist b s.

Record state_ok (s : timer_state) (a : clock) : Prop := {
  so_sys : sys_ok (st_sys s) a;
  so_run : ∀ soft u, running soft s = Some u → run_ok (st_sys s) u;
  so_diff : ∀ u, st_hard s = Some u → st_soft s ≠ Some u
}.

Lemma run_ok_upd s t f u : run_ok s u → (t = u → processing (f (tm s t)) = true) → run_ok (upd_tm t f s) u.
Proof. intros [Hp Hl] Hf. split; [rewrite tm_upd; case_decide; auto |]. intros []; [apply (Hl true) | apply (Hl false)]. Qed.

Lemma run_ok_remove s t u : run_ok s u → run_ok (_timer_remove t s) u.
Proof. intros [Hp Hl]. split; [done |]. intros b. rewrite tlist_remove, elem_of_list_remove. intros [_ Hu]. by apply (Hl b). Qed.

Lemma run_ok_start s soft t u : run_ok s u → u ≠ t → run_ok (_timer_start soft t s).2 u.
Proof.
  intros Hr Hne. unfold _timer_start. destruct (flag_set _ _); [done |]. cbn [snd].
  apply run_ok_upd; [|congruence]. set (s1 := upd_tm t (clear_flag RT_TIMER_FLAG_ACTIVATED) (_timer_remove t s)).
  set (d := u32 _). set (s2 := upd_tm t (set_timeout_tick d) s1).
  assert (run_ok s2 u) as [Hp Hl] by (do 2 (apply run_ok_upd; [|congruence]); by apply run_ok_remove).
  split; [done |]. intros b Hin. assert (u ∈ tlist b s2 ∨ u ∈ timer_insert s2 (tlist soft s2) t d) as [Hu | Hu] by (destruct soft, b; auto).
  - by apply (Hl b).
  - apply timer_insert_elem in Hu as [? | Hu]; [done | by apply (Hl soft)].
Qed.

Lemma run_ok_end s soft t u : run_ok s u → u ≠ t → run_ok (check_end soft t s) u.
Proof.
  intros Hr Hne. unfold check_end. set (s1 := upd_tm t (clear_flag RT_TIMER_FLAG_PROCESSING) s).
  assert (run_ok s1 u) as H1 by (apply run_ok_upd; [done | congruence]). destruct (ttmp soft s1); [done |].
  apply (run_ok_remove _ t) in H1. destruct (_ && _); [|done]. apply run_ok_start; [|done]. apply run_ok_upd; [done | congruence].
Qed.

(** Operations that leave the checks alone. *)
Lemma state_ok_sys s a x a' :
  state_ok s a → sys_ok x a' → (∀ u, run_ok (st_sys s) u → run_ok x u) → state_ok (set_sys x s) a'.
Proof. intros [_ Hr Hd] Hx Hu. constructor; [done | | done]. intros soft u Hs. apply Hu, (Hr soft u). by destruct soft. Qed.

(** A timer is taken off its list and deactivated. *)
Definition dropped (t : nat) (s : tsys) : tsys := upd_tm t (clear_flag RT_TIMER_FLAG_ACTIVATED) (_timer_remove t s).

Lemma dropped_ok s a t : sys_ok s a → sys_ok (dropped t s) (forget t a) ∧ ∀ u, run_ok s u → run_ok (dropped t s) u.
Proof.
  intros Hok. split; [apply sys_ok_off; [by apply sys_ok_remove | intros b; apply removed_notin | done] |].
  intros u Hu. apply run_ok_upd; [by apply run_ok_remove |]. intros ->. rewrite processing_clear.
  change (tm (_timer_remove u s) u) with (tm s u). by rewrite (proj1 Hu).
Qed.

(** Changing a timer other than its times and the two flags. *)
Lemma changed_ok s a t f :
  sys_ok s a →
  (∀ x, init_tick (f x) = init_tick x ∧ timeout_tick (f x) = timeout_tick x ∧ active (f x) = active x ∧ processing (f x) = processing x) →
  sys_ok (upd_tm t f s) a ∧ ∀ u, run_ok s u → run_ok (upd_tm t f s) u.
Proof.
  intros Hok Hf. destruct (Hf (tm s t)) as (E1 & E2 & E3 & E4). split.
  - apply sys_ok_upd; [done | rewrite E1; apply (r_init _ _ Hok) | done].
  - intros u Hu. apply run_ok_upd; [done |]. intros <-. rewrite E4. apply Hu.
Qed.

Lemma control_ok s a t cmd arg :
  sys_ok s a → (cmd = RT_TIMER_CTRL_SET_TIME → 0 ≤ arg < HALF) →
  ∃ r v s', rt_timer_control t cmd arg s = Some (r, v, s')
    ∧ sys_ok s' (a_next a (if (cmd =? RT_TIMER_CTRL_SET_TIME) && flag_set (tm_flag (tm s t)) RT_TIMER_FLAG_ACTIVATED then Removed t else Silent))
    ∧ (∀ u, run_ok s u → run_ok s' u).
Proof.
  intros Hok Harg. unfold rt_timer_control. destruct (Z.eqb_spec cmd RT_TIMER_CTRL_GET_TIME) as [-> | _]; [by eexists _, _, _ |].
  destruct (Z.eqb_spec cmd RT_TIMER_CTRL_SET_TIME) as [-> | _].
  - specialize (Harg eq_refl). rewrite half_max, (proj2 (Z.ltb_lt arg HALF)) by lia. cbn [andb]. eexists _, _, _. split; [done |].
    destruct (flag_set (tm_flag (tm s t)) RT_TIMER_FLAG_ACTIVATED) eqn:E; cbn [a_next].
    + destruct (dropped_ok s a t Hok) as [Hd Hr]. split; [by apply (sys_ok_upd (dropped t s)) |].
      intros u Hu. apply (run_ok_upd (dropped t s)); [by apply Hr |]. intros ->. exact (proj1 (Hr u Hu)).
    + split; [by apply sys_ok_upd |]. intros u Hu. apply run_ok_upd; [done |]. intros ->. exact (proj1 Hu).
  - cbn [andb]. repeat (match goal with |- context [if cmd =? ?c then _ else _] => destruct (cmd =? c) end);
      eexists _, _, _; (split; [done |]); cbn [a_next]; try done; apply changed_ok; try done; intros x; split_and!; try done.
    + by rewrite active_clear, andb_true_r.
    + by rewrite processing_clear, andb_true_r.
    + by rewrite active_set, orb_false_r.
    + by rewrite processing_set, orb_false_r.
Qed.

(** ** Every step *)

Definition timer_step_good (s : timer_state) (a : clock) (o : timer_op) : Prop :=
  ∃ e s', timer_exec s o = Some (e, s') ∧ legal a e ∧ (in_time a e → state_ok s' (a_next a e)).

Lemma timer_init_step s a t func param time flag :
  state_ok s a → timer_enabled s (TInit t func param time flag) → timer_step_good s a (TInit t func param time flag).
Proof.
  intros [Hok Hrun Hdiff] [Hoff Hd]. unfold timer_step_good. cbn [timer_exec]. unfold rt_timer_init.
  rewrite half_max, (proj2 (Z.ltb_lt time HALF)) by lia. cbn [mbind option_bind]. eexists _, _. split; [done |]. split; [done |]. intros _.
  constructor; [| | done].
  - apply sys_ok_upd; [done | done |]. intros b Hin. by destruct (Hoff b).
  - intros b u Hu. assert (running b s = Some u) as Hu' by (by destruct b). apply run_ok_upd; [by apply (Hrun b) |].
    intros ->. by destruct (Hoff b) as (_ & _ & ?).
Qed.

Lemma timer_start_step s a t : state_ok s a → timer_step_good s a (TStart t).
Proof.
  intros Hst. pose proof Hst as [Hok Hrun Hdiff]. unfold timer_step_good. cbn [timer_exec]. unfold rt_timer_start.
  destruct (processing (tm (st_sys s) t)) eqn:Ep.
  { unfold _timer_start. fold (processing (tm (st_sys s) t)). rewrite Ep. cbn. eexists _, _. split; [done |]. split; [done |]. intros _. by destruct s. }
  set (soft := is_soft (tm (st_sys s) t)). pose proof (start_ok (st_sys s) a soft t Hok Ep) as Hs.
  assert (Hr : ∀ u, run_ok (st_sys s) u → run_ok (_timer_start soft t (st_sys s)).2 u).
  { intros u Hu. apply run_ok_start; [done |]. intros ->. destruct Hu as [Hu _]. congruence. }
  assert (Eerr : (_timer_start soft t (st_sys s)).1 = RT_EOK) by (unfold _timer_start; fold (processing (tm (st_sys s) t)); by rewrite Ep).
  destruct (_timer_start soft t (st_sys s)) as [err x]. cbn [fst snd] in *. subst err.
  rewrite Z.eqb_refl. eexists _, _. split; [done |]. split; [apply (r_init _ _ Hok) |]. intros Hw. destruct (Hs Hw) as [_ Hx].
  cbn [andb]. destruct (is_soft (tm x t)); [|by apply state_ok_sys with a]. apply state_ok_sys with a; [done | |].
  - apply (sys_ok_ext x); [done | done | by intros [] | exact (r_init _ _ Hx) | done].
  - intros u Hu. destruct (Hr u Hu) as [H1 H2]. split; [done |]. intros []; [apply (H2 true) | apply (H2 false)].
Qed.

Lemma timer_drop_step s a t : state_ok s a → timer_step_good s a (TStop t) ∧ timer_step_good s a (TDetach t).
Proof.
  intros Hst. destruct (dropped_ok (st_sys s) a t (so_sys _ _ Hst)) as [Hd Hr]. split; unfold timer_step_good; cbn [timer_exec].
  - unfold rt_timer_stop. destruct (flag_set _ _); cbn [negb]; eexists _, _; (split; [done |]); (split; [done |]); intros _; [|by destruct s].
    by apply state_ok_sys with a.
  - eexists _, _. split; [done |]. split; [done |]. intros _. by apply state_ok_sys with a.
Qed.

Lemma tick_ok s a : sys_ok s a → in_time a Ticked → sys_ok (tick_add s) (a_next a Ticked).
Proof.
  intros Hok Hw. constructor; [cbn; rewrite (r_tick _ _ Hok); unfold u32; by rewrite Zplus_mod_idemp_l | apply (r_init _ _ Hok) | | intros b; exact (r_active _ _ Hok b)].
  intros b. destruct (r_list _ _ Hok b) as [es Hes]. exists es. assert (pending b (a_next a Ticked) = pending b a) as -> by (by destruct b).
  assert (tlist b (tick_add s) = tlist b s) as -> by (by destruct b).
  eapply listed_frame; [exact Hes | done | done |]. intros u p Hp. pose proof (Hw b u p Hp). cbn [a_next a_now].
  pose proof (ld_each _ _ _ _ _ _ Hes u p (proj1 (ld_map _ _ _ _ _ _ Hes u p) Hp)). lia.
Qed.

Lemma timer_tick_step s a : state_ok s a → timer_step_good s a TTick.
Proof.
  intros Hst. pose proof (so_sys _ _ Hst) as Hok. eexists _, _. split; [done |]. split; [done |]. intros Hw. apply state_ok_sys with a; [done | by apply tick_ok |].
  intros u [H1 H2]. split; [done |]. intros []; [apply (H2 true) | apply (H2 false)].
Qed.

(** What a check takes off its list. *)
Lemma begin_run soft s t x u :
  check_begin soft s = (Some t, x) → run_ok x t ∧ (run_ok s u → run_ok x u) ∧ (run_ok s u → u ≠ t).
Proof.
  unfold check_begin. destruct (tlist soft s) as [|t' l] eqn:El; [done |]. destruct (_ <? _); [|done]. intros [= <- <-].
  set (s1 := _timer_remove t' s). set (s2 := if negb _ then _ else s1).
  assert (Hl2 : ∀ b, tlist b s2 = tlist b s1) by (intros b; unfold s2; destruct (negb _); by destruct b).
  assert (Hx : ∀ v, processing (tm (upd_tm t' (set_flag RT_TIMER_FLAG_PROCESSING) s2) v) = if decide (t' = v) then true else processing (tm s v)).
  { intros v. rewrite tm_upd. case_decide as E; [rewrite processing_set; apply orb_true_r |].
    unfold s2. destruct (negb _); [|done]. by rewrite tm_upd, decide_False. }
  assert (Hrun : ∀ v, processing (tm (upd_tm t' (set_flag RT_TIMER_FLAG_PROCESSING) s2) v) = true → (∀ b, v ∉ tlist b s1) →
    run_ok (set_ttmp soft (t' :: ttmp soft (upd_tm t' (set_flag RT_TIMER_FLAG_PROCESSING) s2)) (upd_tm t' (set_flag RT_TIMER_FLAG_PROCESSING) s2)) v).
  { intros v Hv Hn. split; [exact Hv |]. intros b. specialize (Hn b). rewrite <-Hl2 in Hn. by destruct b, soft. }
  split_and!.
  - apply Hrun; [rewrite Hx; by rewrite decide_True | intros b; apply removed_notin].
  - intros Hu. apply Hrun; [rewrite Hx; case_decide; [done | apply Hu] |]. exact (proj2 (run_ok_remove s t' u Hu)).
  - intros [_ Hu] ->. apply (Hu soft). rewrite El. by left.
Qed.

Lemma timer_begin_step s a soft : state_ok s a → timer_enabled s (TBegin soft) → timer_step_good s a (TBegin soft).
Proof.
  intros [Hok Hrun Hdiff] Hidle. unfold timer_step_good. cbn [timer_exec timer_enabled] in *. pose proof (begin_ok (st_sys s) a soft Hok) as Hb.
  pose proof (begin_run soft (st_sys s)) as Hr. destruct (check_begin soft (st_sys s)) as [o x] eqn:E.
  eexists _, _. split; [done |]. destruct Hb as [Hleg Hx]. split; [done |]. intros _. destruct o as [t|].
  - constructor; [done | |].
    + intros b u Hu. destruct (Hr t x u eq_refl) as (H1 & H2 & _). assert (u = t ∨ running b s = Some u) as [-> | Hu'].
      { destruct soft, b; cbn in Hu |- *; try (by right); left; congruence. }
      * done.
      * by apply H2, (Hrun b).
    + intros u. destruct soft; cbn; intros Hu; [intros [= <-]; by apply (proj2 (proj2 (Hr t x t eq_refl))); [apply (Hrun false) |] |].
      injection Hu as <-. intros Hu. by apply (proj2 (proj2 (Hr t x t eq_refl))); [apply (Hrun true) |].
  - assert (x = st_sys s) as ->.
    { unfold check_begin in E. destruct (tlist soft (st_sys s)); [by injection E |]. destruct (_ <? _); [done | by injection E]. }
    constructor; [done | |].
    + intros b u Hu. apply (Hrun b). by destruct soft, b.
    + intros u. destruct soft; cbn in *; [done | by intros].
Qed.

Lemma timer_end_step s a soft : state_ok s a → timer_enabled s (TEnd soft) → timer_step_good s a (TEnd soft).
Proof.
  intros [Hok Hrun Hdiff] [t Ht]. unfold timer_step_good. cbn [timer_exec]. rewrite Ht. destruct (Hrun soft t Ht) as [Hp Hoff].
  eexists _, _. split; [done |]. assert (Hleg : legal a (if restarts soft t (st_sys s) then Started t soft (init_tick (tm (st_sys s) t)) else Silent)).
  { destruct (restarts _ _ _); [apply (r_init _ _ Hok) | done]. }
  split; [done |]. intros Hw. destruct (end_ok (st_sys s) a soft t Hok Hoff Hw) as [_ Hx]. constructor; [done | |].
  - intros b u Hu. assert (running b s = Some u ∧ b ≠ soft) as [Hu' Hb] by (by destruct soft, b).
    assert (u ≠ t).
    { intros ->. destruct soft, b; try done; [by apply (Hdiff t) | by apply (Hdiff t)]. }
    apply (λ H, run_ok_end _ soft t u H ltac:(done)). by apply (Hrun b).
  - intros u. destruct soft; cbn; [done | by intros].
Qed.

Lemma timer_step_ok s a o : state_ok s a → timer_enabled s o → timer_step_good s a o.
Proof.
  intros Hst He. destruct o as [t func param time flag | t | t | t | t cmd arg | | soft | soft].
  - by apply timer_init_step.
  - by apply timer_start_step.
  - by apply timer_drop_step.
  - by apply timer_drop_step.
  - unfold timer_step_good. cbn [timer_exec]. destruct (control_ok (st_sys s) a t cmd arg (so_sys _ _ Hst) He) as (r & v & x & -> & Hx & Hr).
    cbn [mbind option_bind]. eexists _, _. split; [done |]. split; [by destruct (_ && _) |]. intros _. by apply state_ok_sys with a.
  - by apply timer_tick_step.
  - by apply timer_begin_step.
  - by apply timer_end_step.
Qed.

(** * Theorems *)

(** The kernel starts without timers, at the tick [n] (0, or one that was set). *)
Definition timer_boot (n : Z) : timer_state := mk_tst (rt_tick_set (u32 n) rt_system_timer_init) None None.
Definition clock_boot (n : Z) : clock := mk_clock n 0 ∅ ∅.

Lemma timer_boot_ok n : state_ok (timer_boot n) (clock_boot n).
Proof.
  constructor; [|by intros [] u | done]. constructor; [done | done | | by intros [] t Ht%elem_of_nil]. intros soft. exists []. constructor.
  - by destruct soft.
  - destruct soft; apply NoDup_nil_2.
  - intros u p. destruct soft; cbn; rewrite lookup_empty, elem_of_nil; naive_solver.
  - constructor.
  - intros u p Hin. by apply elem_of_nil in Hin.
Qed.

Lemma timer_run_ok s tr s' a :
  state_ok s a → timer_run s tr s' → along in_time a (tr.*2) → along legal a (tr.*2) ∧ state_ok s' (foldl a_next a (tr.*2)).
Proof.
  intros Hok Hrun. revert a Hok. induction Hrun as [s | s o e s1 tr s2 Hen He Hrun IH]; intros a Hok; [done |].
  cbn [fmap list_fmap snd along foldl]. intros [Hw Hws]. destruct (timer_step_ok s a o Hok Hen) as (e' & s1' & He' & Hleg & Hok1).
  rewrite He' in He. injection He as -> ->. destruct (IH _ (Hok1 Hw) Hws) as [Hl Hok2]. done.
Qed.

(** What the timer thread waits for. *)
Lemma thread_wait_ok s a :
  sys_ok s a →
  match timer_thread_wait s with
  | Forever => ∀ u, pending true a !! u = None
  | Ticks d => 0 ≤ d ∧ (∃ t p, pending true a !! t = Some p ∧ p.1 = a_now a + d) ∧ ∀ u q, pending true a !! u = Some q → a_now a + d ≤ q.1
  | NoWait => ∃ t p, pending true a !! t = Some p ∧ p.1 < a_now a
  end.
Proof.
  intros Hok. unfold timer_thread_wait, _timer_list_next_timeout. destruct (r_list _ _ Hok true) as [es [Hf Hn Hm Hs He]].
  destruct (tlist true s) as [|t l].
  { intros u. destruct (pending true a !! u) as [p|] eqn:E; [|done]. apply Hm in E. destruct es; [by apply elem_of_nil in E | done]. }
  destruct es as [|[t' p] es]; [done |]. injection Hf as -> ->. destruct (He t' p) as (-> & Hb & _); [by left |].
  apply StronglySorted_inv in Hs as [_ Hs]. rewrite Forall_forall in Hs. assert (Hp : pending true a !! t' = Some p) by (apply Hm; by left).
  rewrite (r_tick _ _ Hok), tick_reached by lia. destruct (Z.leb_spec (a_now a) p.1) as [Hle | Hlt]; [|by exists t', p].
  rewrite tick_diff by lia. rewrite (proj2 (Z.leb_le _ _)) by done. split_and!; [lia | exists t', p; split; [done | lia] |].
  intros u q Hu%Hm. apply elem_of_cons in Hu as [[= -> ->] | Hu]; [lia |]. specialize (Hs _ Hu). unfold sooner in Hs. cbn in Hs. lia.
Qed.

Lemma listed_pending s a : sys_ok s a → ∀ soft t, t ∈ tlist soft s ↔ is_Some (pending soft a !! t).
Proof.
  intros Hok soft t. destruct (r_list _ _ Hok soft) as [es [-> _ Hm _ _]]. rewrite list_elem_of_fmap. split.
  - intros ([u p] & -> & Hu). exists p. by apply Hm.
  - intros [p Hp]. exists (t, p). split; [done | by apply Hm].
Qed.

(** C40. Timers fire in the order of their deadlines, across the wrap-around of the tick. From
    any tick on, for any order of starting, stopping, changing and detaching timers, ticks, and
    checks of hard and soft timers with anything happening while a timeout function runs: as
    long as the timers are checked in time, a check fires exactly the timers whose deadline on
    the unbounded clock has come, the soonest first and of equal deadlines the one that was
    started first, and ends when none is left. A pending timer is on its list and active, and
    the timer thread waits exactly until the next deadline. *)
Theorem timers_in_order (n : Z) (tr : list (timer_op * timer_event)) (s : timer_state)
    (Hrun : timer_run (timer_boot n) tr s) (Htime : along in_time (clock_boot n) (tr.*2)) :
  let a := foldl a_next (clock_boot n) (tr.*2) in
  along legal (clock_boot n) (tr.*2)
  ∧ (∀ o, timer_enabled s o → ∃ e s', timer_exec s o = Some (e, s') ∧ legal a e)
  ∧ (∀ soft t, t ∈ tlist soft (st_sys s) ↔ is_Some (pending soft a !! t))
  ∧ (∀ soft t, is_Some (pending soft a !! t) → active (tm (st_sys s) t) = true)
  ∧ match timer_thread_wait (st_sys s) with
    | Forever => ∀ u, pending true a !! u = None
    | Ticks d => 0 ≤ d ∧ (∃ t p, pending true a !! t = Some p ∧ p.1 = a_now a + d) ∧ ∀ u q, pending true a !! u = Some q → a_now a + d ≤ q.1
    | NoWait => ∃ t p, pending true a !! t = Some p ∧ p.1 < a_now a
    end.
Proof.
  intros a. destruct (timer_run_ok _ _ _ _ (timer_boot_ok n) Hrun Htime) as [Hleg Hok]. fold a in Hok. pose proof (so_sys _ _ Hok) as Hsys.
  pose proof (listed_pending _ _ Hsys) as Hin.
  split_and!; [done | | done | | by apply thread_wait_ok].
  - intros o Ho. destruct (timer_step_ok s a o Hok Ho) as (e & s' & He & Hl & _). eauto.
  - intros soft t Ht. by apply (r_active _ _ Hsys soft), Hin.
Qed.

(** ** The end of a check *)

(** A periodic timer of period 0 is due again at once: the check that runs it never ends. *)
Theorem timer_zero_period (fuel : nat) (s : tsys) (t : nat) :
  _timer_list s = [t] → hard_tmp s = [] → tm_flag (tm s t) = 5 → init_tick (tm s t) = 0 → is_u32 (rt_tick s) → timeout_tick (tm s t) = rt_tick s →
  rt_timer_check fuel (λ _ _ s, s) s = None.
Proof.
  unfold rt_timer_check. revert s. induction fuel as [|fuel IH]; intros s El Etmp Ef Ei Hu Et; [done |]. cbn [timer_check_loop].
  unfold check_begin. cbn [tlist]. rewrite El, Et, Z.sub_diag. change (u32 0 <? RT_TICK_MAX / 2) with true. cbv iota.
  change (tm (_timer_remove t s) t) with (tm s t). rewrite Ef. change (negb (flag_set 5 RT_TIMER_FLAG_PERIODIC)) with false. cbv iota.
  unfold check_end. set (s1 := set_ttmp false _ _). set (s2 := upd_tm t (clear_flag RT_TIMER_FLAG_PROCESSING) s1).
  assert (E2 : tm s2 t = tm s t).
  { unfold s2. rewrite tm_upd, decide_True by done. unfold s1.
    change (tm (set_ttmp _ _ (upd_tm t (set_flag RT_TIMER_FLAG_PROCESSING) (_timer_remove t s))) t) with (tm (upd_tm t (set_flag RT_TIMER_FLAG_PROCESSING) (_timer_remove t s)) t).
    rewrite tm_upd, decide_True by done. change (tm (_timer_remove t s) t) with (tm s t). destruct (tm s t) as [f g h i k]. cbn in Ef. by subst f. }
  change (ttmp false s2) with (t :: list_remove (hard_tmp s) t). cbv iota. change (tm (_timer_remove t s2) t) with (tm s2 t). rewrite E2, Ef.
  change (flag_set 5 RT_TIMER_FLAG_PERIODIC && flag_set 5 RT_TIMER_FLAG_ACTIVATED) with true. cbv iota.
  set (s3 := upd_tm t (clear_flag RT_TIMER_FLAG_ACTIVATED) (_timer_remove t s2)).
  assert (E3 : tm s3 t = mk_tm 4 (timeout_func (tm s t)) (parameter (tm s t)) 0 (rt_tick s)).
  { unfold s3. rewrite tm_upd, decide_True by done. change (tm (_timer_remove t s2) t) with (tm s2 t). rewrite E2.
    destruct (tm s t) as [f g h i k]. cbn in Ef, Ei, Et. by subst f i k. }
  assert (Erem : ∀ l, l = [t] ∨ l = [] → list_remove l t = []) by (intros l [-> | ->]; [apply list_remove_head; apply not_elem_of_nil | done]).
  unfold _timer_start. cbn [tm_flag]. rewrite E3. cbn [tm_flag]. change (flag_set 4 RT_TIMER_FLAG_PROCESSING) with false. cbv iota. cbn [snd].
  set (s4 := upd_tm t (clear_flag RT_TIMER_FLAG_ACTIVATED) (_timer_remove t s3)).
  assert (E4 : tm s4 t = tm s3 t).
  { unfold s4. rewrite tm_upd, decide_True by done. change (tm (_timer_remove t s3) t) with (tm s3 t). by rewrite E3. }
  rewrite E4, E3. cbn [init_tick]. change (rt_tick s4) with (rt_tick s). rewrite Z.add_0_r, u32_small by done.
  assert (Hl4 : _timer_list s4 = []) by (cbn; rewrite El; by rewrite (Erem [t]), !(Erem []) by auto).
  assert (Ht4 : hard_tmp s4 = []) by (cbn; rewrite Etmp; by rewrite !(Erem []), (Erem [t]), (Erem []) by auto).
  set (s5 := upd_tm t (set_timeout_tick (rt_tick s)) s4). set (s6 := upd_tm t (set_flag RT_TIMER_FLAG_ACTIVATED) _).
  assert (E6 : tm s6 t = mk_tm 5 (timeout_func (tm s t)) (parameter (tm s t)) 0 (rt_tick s)).
  { unfold s6. rewrite tm_upd, decide_True by done. change (tm (bump _) t) with (tm s5 t). unfold s5. rewrite tm_upd, decide_True by done. by rewrite E4, E3. }
  apply IH; rewrite ?E6; try done. change (timer_insert s5 (_timer_list s4) t (rt_tick s) = [t]). by rewrite Hl4.
Qed.

(** The deadlines that have come. *)
Definition due (soft : bool) (a : clock) : gmap nat (Z * Z) := filter (λ x, x.2.1 ≤ a_now a) (pending soft a).

Lemma due_delete soft a a' t :
  a_now a' = a_now a → (∀ u, u ≠ t → pending soft a' !! u = pending soft a !! u) →
  (∀ p, pending soft a' !! t = Some p → a_now a < p.1) → due soft a' = delete t (due soft a).
Proof.
  intros En Hne Ht. apply map_eq. intros u. apply option_eq. intros p. unfold due. rewrite lookup_delete_Some, !map_lookup_filter_Some, En. cbn.
  destruct (decide (u = t)) as [-> | Hu].
  - split; [|naive_solver]. intros [Hp Hle]. specialize (Ht p Hp). lia.
  - rewrite Hne by done. naive_solver.
Qed.

(** Periods, kinds and functions of timers stay. *)
Definition kind (x : rt_timer) : Z * bool * Z * Z :=
  (init_tick x, flag_set (tm_flag x) RT_TIMER_FLAG_PERIODIC, timeout_func x, parameter x).
Definition same_kind (s s' : tsys) : Prop := ∀ u, kind (tm s' u) = kind (tm s u).

#[export] Instance same_kind_preorder : PreOrder same_kind.
Proof. split; [done |]. intros x y z H1 H2 u. by rewrite H2, H1. Qed.

Lemma kind_fields x y :
  kind x = kind y → init_tick x = init_tick y
    ∧ flag_set (tm_flag x) RT_TIMER_FLAG_PERIODIC = flag_set (tm_flag y) RT_TIMER_FLAG_PERIODIC
    ∧ timeout_func x = timeout_func y ∧ parameter x = parameter y.
Proof. unfold kind. intros E. by simplify_eq. Qed.

Lemma same_init s s' u : same_kind s s' → init_tick (tm s' u) = init_tick (tm s u).
Proof. intros H. by apply kind_fields. Qed.
Lemma same_periodic s s' u :
  same_kind s s' → flag_set (tm_flag (tm s' u)) RT_TIMER_FLAG_PERIODIC = flag_set (tm_flag (tm s u)) RT_TIMER_FLAG_PERIODIC.
Proof. intros H. by apply kind_fields. Qed.

Lemma same_kind_upd t f s : (∀ y, kind (f y) = kind y) → same_kind s (upd_tm t f s).
Proof. intros Hf u. rewrite tm_upd. case_decide; [subst; apply Hf | done]. Qed.

Lemma same_kind_flag t m s : Z.testbit m 2 = false → same_kind s (upd_tm t (set_flag m) s) ∧ same_kind s (upd_tm t (clear_flag m) s).
Proof.
  intros Hm. split; apply same_kind_upd; intros y; unfold kind, set_flag, clear_flag, map_flag; cbn; do 3 f_equal;
    change RT_TIMER_FLAG_PERIODIC with (2 ^ 2); rewrite !flag_bit by lia; [rewrite Z.lor_spec, Hm; apply orb_false_r |].
  rewrite Z.ldiff_spec, Hm. apply andb_true_r.
Qed.

Lemma same_kind_start soft t s : same_kind s (_timer_start soft t s).2.
Proof.
  unfold _timer_start. destruct (flag_set _ RT_TIMER_FLAG_PROCESSING); [done |]. cbn [snd].
  etrans; [|apply same_kind_flag; reflexivity]. etrans; [|apply (same_kind_upd t (set_timeout_tick _)); done].
  apply (same_kind_flag t RT_TIMER_FLAG_ACTIVATED (_timer_remove t s) eq_refl).
Qed.

Lemma same_kind_begin soft s : same_kind s (check_begin soft s).2.
Proof.
  unfold check_begin. destruct (tlist soft s) as [|t l]; [done |]. destruct (_ <? _); [|done]. cbn [snd].
  etrans; [|apply (same_kind_flag t RT_TIMER_FLAG_PROCESSING _ eq_refl)]. destruct (negb _); [|done].
  apply (same_kind_flag t RT_TIMER_FLAG_ACTIVATED (_timer_remove t s) eq_refl).
Qed.

Lemma same_kind_end soft t s : same_kind s (check_end soft t s).
Proof.
  unfold check_end. pose proof (proj2 (same_kind_flag t RT_TIMER_FLAG_PROCESSING s eq_refl)) as H1.
  destruct (ttmp _ _); [done |]. destruct (_ && _); [|done]. etrans; [|apply same_kind_start].
  etrans; [exact H1 |]. apply (same_kind_flag t RT_TIMER_FLAG_ACTIVATED (_timer_remove t (upd_tm t (clear_flag RT_TIMER_FLAG_PROCESSING) s)) eq_refl).
Qed.

(** One round: the soonest timer, which is due, is no longer due. *)
Lemma check_round soft s a t x :
  sys_ok s a → check_begin soft s = (Some t, x) →
  (∀ u, flag_set (tm_flag (tm s u)) RT_TIMER_FLAG_PERIODIC = true → 0 < init_tick (tm s u)) →
  (∀ u v p, pending soft a !! v = Some p → a_now a + init_tick (tm s u) - p.1 < HALF) →
  is_Some (due soft a !! t)
  ∧ ∃ a', sys_ok (check_end soft t x) a' ∧ a_now a' = a_now a ∧ due soft a' = delete t (due soft a)
    ∧ (∀ u, u ≠ t → pending soft a' !! u = pending soft a !! u)
    ∧ (∀ u v p, pending soft a' !! v = Some p → a_now a + init_tick (tm s u) - p.1 < HALF)
    ∧ (flag_set (tm_flag (tm s t)) RT_TIMER_FLAG_PERIODIC = false → pending soft a' !! t = None)
    ∧ pending (negb soft) a' ⊆ pending (negb soft) a.
Proof.
  intros Hok E Hper Hwin. pose proof (begin_ok s a soft Hok) as Hb. rewrite E in Hb. destruct Hb as [(p & Hp & Hle & _) Hx].
  destruct (begin_run soft s t x t E) as ([_ Hoff] & _ & _). pose proof (same_kind_begin soft s) as Hk. rewrite E in Hk. cbn [snd] in Hk.
  split; [exists p; apply map_lookup_filter_Some; done |].
  set (a1 := a_next a (Fired soft t)) in *. set (e := if restarts soft t x then Started t soft (init_tick (tm x t)) else Silent).
  assert (H1 : ∀ u, u ≠ t → pending soft a1 !! u = pending soft a !! u) by (intros u Hu; unfold a1; cbn [a_next]; by rewrite pending_forget, lookup_delete_ne).
  assert (Ht1 : pending soft a1 !! t = None) by (unfold a1; cbn [a_next]; rewrite pending_forget; apply lookup_delete_eq).
  assert (Htime : in_time a1 e).
  { unfold e. destruct (restarts _ _ _); [|done]. intros u q Hne Hq. rewrite H1 in Hq by done. rewrite (same_init _ _ t Hk). by apply (Hwin t u). }
  destruct (end_ok x a1 soft t Hx Hoff Htime) as [_ Hend]. fold e in Hend. exists (a_next a1 e).
  assert (H2 : ∀ u, u ≠ t → pending soft (a_next a1 e) !! u = pending soft a !! u).
  { intros u Hu. rewrite <-H1 by done. unfold e. destruct (restarts soft t x); [|done]. destruct soft; cbn; by rewrite lookup_insert_ne, lookup_delete_ne. }
  assert (H3 : ∀ q, pending soft (a_next a1 e) !! t = Some q → q.1 = a_now a + init_tick (tm s t) ∧ 0 < init_tick (tm s t)).
  { intros q. unfold e. destruct (restarts soft t x) eqn:Er; [|intros Hq; cbn [a_next] in Hq; congruence]. rewrite (same_init _ _ t Hk).
    assert (0 < init_tick (tm s t)) as Hpos.
    { apply Hper. rewrite <-(same_periodic _ _ t Hk). unfold restarts in Er. by apply andb_true_iff in Er as [[_ Er]%andb_true_iff _]. }
    destruct soft; cbn; rewrite lookup_insert_eq; intros [= <-]; done. }
  assert (H4 : a_now (a_next a1 e) = a_now a) by (unfold e; by destruct (restarts soft t x)).
  split_and!; [done | done | | done | | |].
  - apply due_delete; [done | done |]. intros q Hq. destruct (H3 q Hq). lia.
  - intros u v q Hq. destruct (decide (v = t)) as [-> | Hv]; [|rewrite H2 in Hq by done; by apply (Hwin u v)].
    destruct (H3 q Hq) as [-> Hpos]. pose proof (r_init _ _ Hok u). lia.
  - intros Hn. unfold e, restarts. by rewrite (same_periodic _ _ t Hk), Hn, andb_false_r.
  - unfold e, a1. destruct (restarts soft t x), soft; cbn; rewrite ?delete_delete_eq; apply delete_subseteq.
Qed.

(** A check whose timeout functions do not touch timers ends after one round for each timer that
    is due, when no periodic timer has the period 0; the other timers stay as they are. *)
Theorem timer_check_ends (soft : bool) (s : tsys) (a : clock) (fuel : nat) :
  sys_ok s a → (∀ u, flag_set (tm_flag (tm s u)) RT_TIMER_FLAG_PERIODIC = true → 0 < init_tick (tm s u)) →
  (∀ u v p, pending soft a !! v = Some p → a_now a + init_tick (tm s u) - p.1 < HALF) →
  (size (due soft a) < fuel)%nat →
  ∃ s' a', timer_check_loop fuel soft (λ _ _ s, s) s = Some s' ∧ sys_ok s' a' ∧ a_now a' = a_now a ∧ due soft a' = ∅
    ∧ ∀ u p, pending soft a !! u = Some p → a_now a < p.1 → pending soft a' !! u = Some p.
Proof.
  revert s a. induction fuel as [|fuel IH]; intros s a Hok Hper Hwin Hf; [lia |]. cbn [timer_check_loop].
  pose proof (begin_ok s a soft Hok) as Hb. destruct (check_begin soft s) as [[t|] x] eqn:E.
  - destruct (check_round soft s a t x Hok E Hper Hwin) as ([p Hp] & a' & Hok' & En & Hdue & Hrest & Hwin' & _).
    assert (Hk : same_kind s (check_end soft t x)).
    { etrans; [|apply same_kind_end]. pose proof (same_kind_begin soft s) as Hk. by rewrite E in Hk. }
    destruct (IH (check_end soft t x) a') as (s' & a'' & Es & Hs & Hn & Hd & Hu).
    + done.
    + intros u. rewrite (same_init _ _ u Hk), (same_periodic _ _ u Hk). apply Hper.
    + intros u v q. rewrite En, (same_init _ _ u Hk). apply Hwin'.
    + rewrite Hdue. rewrite map_size_delete_Some by (by exists p).
      pose proof (map_size_ne_0_lookup_2 (due soft a) t ltac:(by exists p)). lia.
    + exists s', a''. split_and!; [done | done | congruence | done |]. intros u q Hq Hlt. apply Hu; [|by rewrite En].
      rewrite Hrest; [done |]. intros ->. apply map_lookup_filter_Some in Hp as [Hp Hle]. cbn in Hle. rewrite Hp in Hq. injection Hq as ->. lia.
  - destruct Hb as [Hidle Hx]. exists x, a. split_and!; [done | done | done | | done]. apply map_eq. intros u. rewrite lookup_empty.
    apply map_lookup_filter_None. right. intros p Hp. cbn. specialize (Hidle u p Hp). lia.
Qed.

(** ** The thread timers of [Kernel]

    [Kernel] has of a thread timer the two flags. Its functions do to them what the functions of
    timer.c do. *)
Definition kernel_view (y : thread) (x : rt_timer) : Prop := t_active y = active x ∧ t_pend y = processing x.

Theorem kernel_timer_refines (s : tsys) (t : nat) (y : thread) :
  kernel_view y (tm s t) →
  ((rt_timer_stop t s).1 = (Kernel.rt_timer_stop y).1 ∧ kernel_view (Kernel.rt_timer_stop y).2 (tm (rt_timer_stop t s).2 t))
  ∧ (t_pend y = false → (rt_timer_start t s).1 = RT_EOK ∧ kernel_view (Kernel.rt_timer_start y) (tm (rt_timer_start t s).2 t))
  ∧ (∀ soft x, check_begin soft s = (Some t, x) → flag_set (tm_flag (tm s t)) RT_TIMER_FLAG_PERIODIC = false →
       kernel_view (set_timer y (t_ttmr y) false true) (tm x t))
  ∧ (∀ soft, flag_set (tm_flag (tm s t)) RT_TIMER_FLAG_PERIODIC = false →
       kernel_view (set_timer y (t_ttmr y) (t_active y) false) (tm (check_end soft t s) t)).
Proof.
  intros [Ha Hp]. split; [|split; [|split]].
  - unfold rt_timer_stop, Kernel.rt_timer_stop. fold (active (tm s t)). rewrite <-Ha. destruct (t_active y) eqn:Ey; cbn [negb fst snd]; [|split; [done | split; congruence]].
    split; [done |]. rewrite tm_upd, decide_True by done. change (tm (_timer_remove t s) t) with (tm s t). split; cbn.
    + by rewrite active_clear, andb_false_r.
    + by rewrite processing_clear, andb_true_r.
  - intros H0. unfold rt_timer_start, _timer_start. fold (processing (tm s t)). rewrite <-Hp, H0. cbn [fst snd].
    set (s1 := upd_tm t (set_flag RT_TIMER_FLAG_ACTIVATED) _). change (RT_EOK =? RT_EOK) with true. cbn [andb].
    assert (kernel_view (Kernel.rt_timer_start y) (tm s1 t)) as Hv.
    { unfold s1. rewrite tm_upd, decide_True by done. split; [rewrite active_set; symmetry; apply orb_true_r |]. cbn [Kernel.rt_timer_start t_pend set_timer].
      rewrite processing_set, orb_false_r. change (tm (bump ?z) t) with (tm z t). change (tm (set_tlist ?b ?l ?z) t) with (tm z t).
      rewrite tm_upd, decide_True by done. change (processing (set_timeout_tick ?d ?z)) with (processing z). rewrite tm_upd, decide_True by done.
      by rewrite processing_clear, andb_true_r. }
    split; [done |]. by destruct (is_soft (tm s1 t)).
  - intros soft x. unfold check_begin. destruct (tlist soft s) as [|t' l]; [done |]. destruct (_ <? _); [|done]. intros [= -> <-] Hper.
    change (tm (_timer_remove t s) t) with (tm s t). rewrite Hper. cbn [negb]. split; cbn.
    + change (tm (set_ttmp ?b ?l ?z) t) with (tm z t). rewrite !tm_upd, !decide_True by done. by rewrite active_set, active_clear, andb_false_r.
    + change (tm (set_ttmp ?b ?l ?z) t) with (tm z t). rewrite !tm_upd, !decide_True by done. rewrite processing_set. symmetry. apply orb_true_r.
  - intros soft Hper. unfold check_end. set (s1 := upd_tm t (clear_flag RT_TIMER_FLAG_PROCESSING) s).
    assert (E1 : tm s1 t = clear_flag RT_TIMER_FLAG_PROCESSING (tm s t)) by (unfold s1; by rewrite tm_upd, decide_True).
    assert (Hv : kernel_view (set_timer y (t_ttmr y) (t_active y) false) (tm s1 t)).
    { rewrite E1. split; cbn; [by rewrite active_clear, andb_true_r | by rewrite processing_clear, andb_false_r]. }
    destruct (ttmp soft s1); [done |]. change (tm (_timer_remove t s1) t) with (tm s1 t).
    pose proof (same_periodic _ _ t (proj2 (same_kind_flag t RT_TIMER_FLAG_PROCESSING s eq_refl))) as Hk. fold s1 in Hk. by rewrite Hk, Hper.
Qed.

(** ** Witnesses *)

#[export] Instance in_time_dec a e : Decision (in_time a e).
Proof.
  destruct e as [t soft d | | | | |]; try (left; exact I).
  - refine (cast_if (decide (map_Forall (λ u p, u ≠ t → a_now a + d - p.1 < HALF) (pending soft a)))).
    + intros u p Hne Hp. by apply (m u p Hp).
    + intros H. apply n. intros u p Hp Hne. by apply (H u p).
  - refine (cast_if (decide (map_Forall (λ _ p, a_now a + 1 - p.1 < HALF) (a_hard a) ∧ map_Forall (λ _ p, a_now a + 1 - p.1 < HALF) (a_soft a)))).
    + intros [] u p Hp; [by apply (proj2 a0 u p) | by apply (proj1 a0 u p)].
    + intros H. apply n. split; intros u p Hp; [by apply (H false u p) | by apply (H true u p)].
Defined.

#[export] Instance along_dec P `{∀ a e, Decision (P a e)} a es : Decision (along P a es).
Proof. revert a. induction es as [|e es IH]; intros a; cbn [along]; apply _. Defined.

(** Six ticks before the wrap-around, a periodic timer of 10 ticks and one-shot timers of 3 ticks
    (hard) and 8 ticks (soft). *)
Definition timer_trace : list (timer_op * timer_event) :=
  [(TInit 1 0 0 10 4, Silent); (TInit 2 0 0 3 0, Silent); (TInit 3 0 0 8 8, Silent);
   (TStart 1, Started 1 false 10); (TStart 2, Started 2 false 3); (TStart 3, Started 3 true 8);
   (TTick, Ticked); (TTick, Ticked); (TBegin false, Idle false); (TTick, Ticked); (TBegin false, Fired false 2); (TEnd false, Silent);
   (TBegin false, Idle false); (TTick, Ticked); (TTick, Ticked); (TTick, Ticked); (TTick, Ticked); (TTick, Ticked);
   (TBegin true, Fired true 3); (TTick, Ticked); (TTick, Ticked); (TBegin false, Fired false 1); (TEnd true, Silent);
   (TEnd false, Started 1 false 10); (TBegin false, Idle false)].

#[export] Instance timer_enabled_dec s o : Decision (timer_enabled s o).
Proof. destruct o; apply _. Defined.

(** The run of a list of operations. *)
Fixpoint timer_replay (s : timer_state) (ops : list timer_op) : option (list (timer_op * timer_event) * timer_state) :=
  match ops with
  | [] => Some ([], s)
  | o :: ops =>
      if bool_decide (timer_enabled s o) then
        '(e, s) ← timer_exec s o;
        '(tr, s) ← timer_replay s ops;
        Some ((o, e) :: tr, s)
      else None
  end.

Lemma timer_replay_run s ops tr s' : timer_replay s ops = Some (tr, s') → timer_run s tr s'.
Proof.
  revert s tr. induction ops as [|o ops IH]; intros s tr H; cbn [timer_replay] in H; [simplify_eq; constructor |].
  case_bool_decide as Hen; [|done]. destruct (timer_exec s o) as [[e s1]|] eqn:Ex; [|done]. cbn in H.
  destruct (timer_replay s1 ops) as [[tr1 s2]|] eqn:Er; [|done]. cbn in H. simplify_eq. by econstructor; eauto.
Qed.

Lemma timers_in_order_witness :
  ∃ s, timer_run (timer_boot 4294967290) timer_trace s ∧ rt_tick (st_sys s) = 4
    ∧ along legal (clock_boot 4294967290) (timer_trace.*2) ∧ tlist false (st_sys s) = [1%nat].
Proof.
  eexists ?[s]. assert (timer_run (timer_boot 4294967290) timer_trace ?s) as Hrun
    by (apply (timer_replay_run _ (timer_trace.*1)); vm_compute; reflexivity).
  split; [exact Hrun |]. split; [vm_compute; reflexivity |]. split; [|vm_compute; reflexivity].
  apply (timers_in_order 4294967290 timer_trace _ Hrun). apply (bool_decide_unpack _). vm_compute. exact I.
Defined.

Definition restart_trace : list (timer_op * timer_event) :=
  [(TInit 1 0 0 1 4, Silent); (TStart 1, Started 1 false 1); (TTick, Ticked); (TBegin false, Fired false 1);
   (TControl 1 RT_TIMER_CTRL_SET_TIME 5, Removed 1); (TStart 1, Silent); (TEnd false, Silent)].

(** A timeout function cannot start its own timer again, for example with another time: the start
    is refused, and the timer has stopped for good, although the check looks for timers that
    were started again. *)
Theorem timer_restart_refused :
  ∃ s, timer_run (timer_boot 0) restart_trace s
    ∧ tlist false (st_sys s) = [] ∧ active (tm (st_sys s) 1) = false.
Proof. eexists. split; [apply (timer_replay_run _ (restart_trace.*1)); vm_compute; reflexivity | vm_compute; done]. Qed.

Definition oneshot_trace : list (timer_op * timer_event) :=
  [(TInit 1 0 0 1 4, Silent); (TStart 1, Started 1 false 1); (TTick, Ticked); (TBegin false, Fired false 1);
   (TControl 1 RT_TIMER_CTRL_SET_ONESHOT 0, Silent); (TEnd false, Silent)].

(** A periodic timer that is made a one-shot timer while its function runs is on no list
    afterwards, but keeps the flag of an active timer. *)
Theorem timer_oneshot_stays_active :
  ∃ s, timer_run (timer_boot 0) oneshot_trace s
    ∧ tlist false (st_sys s) = [] ∧ active (tm (st_sys s) 1) = true.
Proof. eexists. split; [apply (timer_replay_run _ (oneshot_trace.*1)); vm_compute; reflexivity | vm_compute; done]. Qed.
