(* ===== verification/Sched.v ===== *)
(** The scheduler of the single core (rt-thread/src/scheduler_up.c, scheduler_comm.c) with the
    threads of thread.c and the list of closed threads of idle.c, on top of the timers of
    [Timer].

    A thread has one list node, which is on the queue of its priority when it is ready, on the
    list of an IPC object when it waits there, or on the list of closed threads. The thread
    timer of thread [t] is timer [t]. A result [None] is a call that does not return, because an
    assertion fails, or one that follows a null pointer. What is left out: names and the list
    of objects, stacks with their overflow check, hooks, and the switch of the registers, which
    comes with the change of [rt_current_thread]. *)

From S2P Require Import Prelude.
From S2P Require Import RtDef.
From S2P Require Import Kernel.
From S2P Require Import Timer.
Open Scope Z_scope.

(** * Data *)

Definition RT_THREAD_INIT : Z := 0.
Definition RT_THREAD_CLOSE : Z := 1.
Definition RT_THREAD_READY : Z := 2.
Definition RT_THREAD_RUNNING : Z := 3.
Definition RT_INTERRUPTIBLE : Z := 0.
Definition RT_KILLABLE : Z := 1.
Definition RT_UNINTERRUPTIBLE : Z := 2.
Definition RT_THREAD_SUSPEND_MASK : Z := 4.
Definition RT_THREAD_SUSPEND_INTERRUPTIBLE : Z := 4.
Definition RT_THREAD_SUSPEND : Z := 4.
Definition RT_THREAD_SUSPEND_KILLABLE : Z := 6.
Definition RT_THREAD_SUSPEND_UNINTERRUPTIBLE : Z := 7.
Definition RT_THREAD_STAT_MASK : Z := 7.
Definition RT_THREAD_STAT_YIELD : Z := 8.
Definition RT_THREAD_CTRL_STARTUP : Z := 0.
Definition RT_THREAD_CTRL_CLOSE : Z := 1.
Definition RT_THREAD_CTRL_CHANGE_PRIORITY : Z := 2.
Definition RT_THREAD_CTRL_BIND_CPU : Z := 4.

(** The fields of [struct rt_thread] and its scheduling context. *)
Record sthread : Type := mk_st {
  s_stat : Z;
  s_prio : Z;
  s_init_prio : Z;
  s_mask : Z;
  s_init_tick : Z;
  s_left : Z;
  s_error : Z;
  s_ttmr : bool
}.

(** The timers, the threads, the queue of each priority with the bitmap of queues in use, the
    running thread, the lists of the IPC objects by number, and the closed threads. *)
Record ssys : Type := mk_ss {
  sc_tm : tsys;
  sc_th : gmap nat sthread;
  rt_thread_priority_table : gmap Z (list nat);
  rt_thread_ready_priority_group : Z;
  rt_scheduler_lock_nest : Z;
  rt_current_thread : option nat;
  rt_current_priority : Z;
  susp_lists : gmap nat (list nat);
  _rt_thread_defunct : list nat
}.

Definition st (s : ssys) (t : nat) : sthread := default (mk_st 0 0 0 0 0 0 0 false) (sc_th s !! t).
Definition queue (s : ssys) (p : Z) : list nat := default [] (rt_thread_priority_table s !! p).
Definition susp (s : ssys) (l : nat) : list nat := default [] (susp_lists s !! l).
#[global] Arguments st : simpl never.
#[global] Arguments queue : simpl never.
#[global] Arguments susp : simpl never.

Definition set_tm (x : tsys) (s : ssys) : ssys :=
  mk_ss x (sc_th s) (rt_thread_priority_table s) (rt_thread_ready_priority_group s) (rt_scheduler_lock_nest s)
    (rt_current_thread s) (rt_current_priority s) (susp_lists s) (_rt_thread_defunct s).
Definition upd_st (t : nat) (f : sthread → sthread) (s : ssys) : ssys :=
  mk_ss (sc_tm s) (<[t := f (st s t)]> (sc_th s)) (rt_thread_priority_table s) (rt_thread_ready_priority_group s)
    (rt_scheduler_lock_nest s) (rt_current_thread s) (rt_current_priority s) (susp_lists s) (_rt_thread_defunct s).
Definition set_queue (p : Z) (l : list nat) (s : ssys) : ssys :=
  mk_ss (sc_tm s) (sc_th s) (<[p := l]> (rt_thread_priority_table s)) (rt_thread_ready_priority_group s)
    (rt_scheduler_lock_nest s) (rt_current_thread s) (rt_current_priority s) (susp_lists s) (_rt_thread_defunct s).
Definition set_group (g : Z) (s : ssys) : ssys :=
  mk_ss (sc_tm s) (sc_th s) (rt_thread_priority_table s) g (rt_scheduler_lock_nest s)
    (rt_current_thread s) (rt_current_priority s) (susp_lists s) (_rt_thread_defunct s).
Definition set_nest (n : Z) (s : ssys) : ssys :=
  mk_ss (sc_tm s) (sc_th s) (rt_thread_priority_table s) (rt_thread_ready_priority_group s) n
    (rt_current_thread s) (rt_current_priority s) (susp_lists s) (_rt_thread_defunct s).
Definition set_current (t : nat) (s : ssys) : ssys :=
  mk_ss (sc_tm s) (sc_th s) (rt_thread_priority_table s) (rt_thread_ready_priority_group s) (rt_scheduler_lock_nest s)
    (Some t) (rt_current_priority s) (susp_lists s) (_rt_thread_defunct s).
Definition set_cprio (p : Z) (s : ssys) : ssys :=
  mk_ss (sc_tm s) (sc_th s) (rt_thread_priority_table s) (rt_thread_ready_priority_group s) (rt_scheduler_lock_nest s)
    (rt_current_thread s) p (susp_lists s) (_rt_thread_defunct s).
Definition set_susp_list (l : nat) (q : list nat) (s : ssys) : ssys :=
  mk_ss (sc_tm s) (sc_th s) (rt_thread_priority_table s) (rt_thread_ready_priority_group s) (rt_scheduler_lock_nest s)
    (rt_current_thread s) (rt_current_priority s) (<[l := q]> (susp_lists s)) (_rt_thread_defunct s).
Definition set_defunct (q : list nat) (s : ssys) : ssys :=
  mk_ss (sc_tm s) (sc_th s) (rt_thread_priority_table s) (rt_thread_ready_priority_group s) (rt_scheduler_lock_nest s)
    (rt_current_thread s) (rt_current_priority s) (susp_lists s) q.

Definition set_stat (g : Z → Z) (x : sthread) : sthread :=
  mk_st (g (s_stat x)) (s_prio x) (s_init_prio x) (s_mask x) (s_init_tick x) (s_left x) (s_error x) (s_ttmr x).
Definition set_sprio (p m : Z) (x : sthread) : sthread :=
  mk_st (s_stat x) p (s_init_prio x) m (s_init_tick x) (s_left x) (s_error x) (s_ttmr x).
Definition set_mask (m : Z) (x : sthread) : sthread :=
  mk_st (s_stat x) (s_prio x) (s_init_prio x) m (s_init_tick x) (s_left x) (s_error x) (s_ttmr x).
Definition set_left (n : Z) (x : sthread) : sthread :=
  mk_st (s_stat x) (s_prio x) (s_init_prio x) (s_mask x) (s_init_tick x) n (s_error x) (s_ttmr x).
Definition set_serror (e : Z) (x : sthread) : sthread :=
  mk_st (s_stat x) (s_prio x) (s_init_prio x) (s_mask x) (s_init_tick x) (s_left x) e (s_ttmr x).
Definition set_ttmr (b : bool) (x : sthread) : sthread :=
  mk_st (s_stat x) (s_prio x) (s_init_prio x) (s_mask x) (s_init_tick x) (s_left x) (s_error x) b.

(** The state of a thread: [stat & RT_THREAD_STAT_MASK]. A new state keeps the other bits. *)
Definition state_of (x : sthread) : Z := Z.land (s_stat x) RT_THREAD_STAT_MASK.
Definition enter_state (v : Z) : sthread → sthread := set_stat (λ f, Z.lor v (Z.ldiff f RT_THREAD_STAT_MASK)).
Definition yielded (x : sthread) : bool := flag_set (s_stat x) RT_THREAD_STAT_YIELD.

(** The node of a thread is taken off the list it is on. *)
Definition node_remove (t : nat) (s : ssys) : ssys :=
  mk_ss (sc_tm s) (sc_th s) ((λ l, list_remove l t) <$> rt_thread_priority_table s) (rt_thread_ready_priority_group s)
    (rt_scheduler_lock_nest s) (rt_current_thread s) (rt_current_priority s)
    ((λ l, list_remove l t) <$> susp_lists s) (list_remove (_rt_thread_defunct s) t).

(** A thread as the IPC objects see it. *)
Definition is_suspended (x : sthread) : bool := Z.land (s_stat x) RT_THREAD_SUSPEND_MASK =? RT_THREAD_SUSPEND_MASK.
Definition kview (x : sthread) (y : rt_timer) : thread :=
  mk_thread (s_prio x) (s_error x) (is_suspended x) (s_ttmr x) (flag_set (tm_flag y) RT_TIMER_FLAG_ACTIVATED)
    (flag_set (tm_flag y) RT_TIMER_FLAG_PROCESSING).
Definition kthreads (s : ssys) : threads := map_imap (λ t x, Some (kview x (tm (sc_tm s) t))) (sc_th s).

(** * The ready queue *)

(** The number of the lowest bit, counted from 1. *)
Fixpoint ffs_pos (p : positive) : Z := match p with xO p => ffs_pos p + 1 | _ => 1 end.
Definition __rt_ffs (value : Z) : Z := match value with Zpos p => ffs_pos p | _ => 0 end.

(** The thread and its priority; [None] when the queue is empty. *)
Definition _scheduler_get_highest_priority_thread (s : ssys) : option (nat * Z) :=
  let p := __rt_ffs (rt_thread_ready_priority_group s) - 1 in
  match queue s p with [] => None | t :: _ => Some (t, p) end.

Definition rt_sched_insert_thread (t : nat) (s : ssys) : ssys :=
  if decide (rt_current_thread s = Some t) then upd_st t (enter_state RT_THREAD_RUNNING) s else
  let s := upd_st t (enter_state RT_THREAD_READY) s in
  let x := st s t in
  let q := queue s (s_prio x) in
  let s := set_queue (s_prio x) (if yielded x then q ++ [t] else t :: q) s in
  set_group (Z.lor (rt_thread_ready_priority_group s) (s_mask x)) s.

Definition rt_sched_remove_thread (t : nat) (s : ssys) : ssys :=
  let s := node_remove t s in
  match queue s (s_prio (st s t)) with
  | [] => set_group (Z.ldiff (rt_thread_ready_priority_group s) (s_mask (st s t))) s
  | _ :: _ => s
  end.

(** * Scheduling *)

Definition rt_schedule (s : ssys) : option ssys :=
  if negb (rt_scheduler_lock_nest s =? 0) then Some s else
  if rt_thread_ready_priority_group s =? 0 then Some s else
  '(to, highest) ← _scheduler_get_highest_priority_thread s;
  cur ← rt_current_thread s;
  let x := st s cur in
  let running := state_of x =? RT_THREAD_RUNNING in
  let stays := (s_prio x <? highest) || (s_prio x =? highest) && negb (yielded x) in
  let to := if running && stays then cur else to in
  if decide (to = cur) then Some (upd_st cur (enter_state RT_THREAD_RUNNING) (rt_sched_remove_thread cur s)) else
  let s := set_current to (set_cprio (u8 highest) s) in
  let s := if running && negb stays then rt_sched_insert_thread cur s else s in
  let s := upd_st cur (set_stat (λ f, Z.ldiff f RT_THREAD_STAT_YIELD)) s in
  Some (upd_st to (enter_state RT_THREAD_RUNNING) (rt_sched_remove_thread to s)).

Definition rt_sched_unlock_n_resched (s : ssys) : option ssys :=
  match rt_current_thread s with Some _ => rt_schedule s | None => Some s end.

(** An [rt_int16_t]. *)
Definition s16 (z : Z) : Z := (z + 32768) mod 65536 - 32768.

Definition rt_enter_critical (s : ssys) : Z * ssys :=
  let s := set_nest (s16 (rt_scheduler_lock_nest s + 1)) s in (rt_scheduler_lock_nest s, s).

Definition rt_exit_critical (s : ssys) : option ssys :=
  let s := set_nest (s16 (rt_scheduler_lock_nest s - 1)) s in
  if rt_scheduler_lock_nest s <=? 0 then rt_sched_unlock_n_resched (set_nest 0 s) else Some s.

(** A level that does not match stops the system. *)
Definition rt_exit_critical_safe (critical_level : Z) (s : ssys) : option ssys :=
  if negb (critical_level =? rt_scheduler_lock_nest s) then None else rt_exit_critical s.

Definition rt_critical_level (s : ssys) : Z := u16 (rt_scheduler_lock_nest s).

Definition rt_system_scheduler_init (s : ssys) : ssys :=
  mk_ss (sc_tm s) (sc_th s) ∅ 0 0 (rt_current_thread s) (rt_current_priority s) (susp_lists s) (_rt_thread_defunct s).

Definition rt_system_scheduler_start (s : ssys) : option ssys :=
  '(to, _) ← _scheduler_get_highest_priority_thread s;
  Some (upd_st to (set_stat (λ _, RT_THREAD_RUNNING)) (rt_sched_remove_thread to (set_current to s))).

(** * The state of a thread *)

Definition rt_sched_thread_init_priv (t : nat) (tick priority : Z) (s : ssys) : option ssys :=
  if priority <? RT_THREAD_PRIORITY_MAX
  then Some (upd_st t (λ x, mk_st (s_stat x) priority priority 0 tick tick (s_error x) (s_ttmr x)) s)
  else None.

Definition rt_sched_thread_init_ctx (t : nat) (tick priority : Z) (s : ssys) : option ssys :=
  rt_sched_thread_init_priv t tick priority (upd_st t (set_stat (λ _, RT_THREAD_INIT)) s).

Definition rt_sched_thread_startup (t : nat) (s : ssys) : ssys :=
  upd_st t (λ x, set_stat (λ _, RT_THREAD_SUSPEND) (set_mask (Z.shiftl 1 (s_prio x)) x)) s.

Definition rt_sched_thread_timer_start (t : nat) (s : ssys) : ssys := upd_st t (set_ttmr true) s.

Definition rt_sched_thread_timer_stop (t : nat) (s : ssys) : Z * ssys :=
  if s_ttmr (st s t) then
    let '(error, x) := Timer.rt_timer_stop t (sc_tm s) in (error, upd_st t (set_ttmr false) (set_tm x s))
  else (RT_EOK, s).

(** [rt_timer_start] of a thread timer. *)
Definition thread_timer_start (t : nat) (s : ssys) : Z * ssys :=
  let s := rt_sched_thread_timer_start t s in
  let '(err, x) := Timer.rt_timer_start t (sc_tm s) in (err, set_tm x s).

Definition rt_sched_thread_get_stat (t : nat) (s : ssys) : Z := state_of (st s t).
Definition rt_sched_thread_is_suspended (t : nat) (s : ssys) : bool := is_suspended (st s t).
Definition rt_sched_thread_close (t : nat) (s : ssys) : ssys := upd_st t (set_stat (λ _, RT_THREAD_CLOSE)) s.

Definition rt_sched_thread_yield (t : nat) (s : ssys) : ssys :=
  upd_st t (λ x, set_stat (λ f, Z.lor f RT_THREAD_STAT_YIELD) (set_left (s_init_tick x) x)) s.

Definition rt_sched_thread_ready (t : nat) (s : ssys) : Z * ssys :=
  if negb (rt_sched_thread_is_suspended t s) then (- RT_EINVAL, s) else
  let '(error, s) := if s_ttmr (st s t) then rt_sched_thread_timer_stop t s else (RT_EOK, s) in
  if error =? 0 then (error, rt_sched_insert_thread t (node_remove t s)) else (error, s).

Definition rt_sched_tick_increase (s : ssys) : option ssys :=
  t ← rt_current_thread s;
  let s := upd_st t (λ x, set_left (u32 (s_left x - 1)) x) s in
  if negb (s_left (st s t) =? 0) then Some s else rt_sched_unlock_n_resched (rt_sched_thread_yield t s).

Definition rt_sched_thread_change_priority (t : nat) (priority : Z) (s : ssys) : option ssys :=
  if negb (priority <? RT_THREAD_PRIORITY_MAX) then None else
  if rt_sched_thread_get_stat t s =? RT_THREAD_READY then
    let s := rt_sched_remove_thread t s in
    let s := upd_st t (λ x, set_stat (λ _, RT_THREAD_INIT) (set_sprio priority (Z.shiftl 1 priority) x)) s in
    Some (rt_sched_insert_thread t s)
  else Some (upd_st t (set_sprio priority (Z.shiftl 1 priority)) s).

(** * Threads *)

Definition rt_thread_defunct_enqueue (t : nat) (s : ssys) : ssys := set_defunct (t :: _rt_thread_defunct s) s.

Definition rt_thread_defunct_dequeue (s : ssys) : option nat * ssys :=
  match _rt_thread_defunct s with [] => (None, s) | t :: _ => (Some t, node_remove t s) end.

(** The threads that are reaped, in order; every round shortens the list. *)
Fixpoint defunct_loop (fuel : nat) (s : ssys) : list nat * ssys :=
  match fuel with
  | O => ([], s)
  | S fuel =>
      match rt_thread_defunct_dequeue s with
      | (Some t, s) => let '(dead, s) := defunct_loop fuel s in (t :: dead, s)
      | (None, s) => ([], s)
      end
  end.
Definition rt_defunct_execute (s : ssys) : list nat * ssys := defunct_loop (S (length (_rt_thread_defunct s))) s.

(** [_thread_timeout] is the function of the timer, given by its address. *)
Definition thread_timeout_func : Z := 1.

Definition _thread_init (t : nat) (priority tick : Z) (s : ssys) : option ssys :=
  s ← rt_sched_thread_init_ctx t tick priority s;
  let s := upd_st t (set_serror RT_EOK) s in
  x ← rt_timer_init t thread_timeout_func (Z.of_nat t) 0 RT_TIMER_FLAG_THREAD_TIMER (sc_tm s);
  Some (set_tm x s).

Definition rt_thread_init (t : nat) (priority tick : Z) (s : ssys) : option ssys :=
  if tick =? 0 then None else _thread_init t priority tick s.

(** [alloc]: whether the object [t], which is all zero, and its stack can be allocated. *)
Definition rt_thread_create (alloc : bool) (t : nat) (priority tick : Z) (s : ssys) : option (option nat * ssys) :=
  if tick =? 0 then None else
  if alloc then
    s ← _thread_init t priority tick (upd_st t (λ _, mk_st 0 0 0 0 0 0 0 false) s);
    Some (Some t, s)
  else Some (None, s).

Definition rt_thread_resume (t : nat) (s : ssys) : option (Z * ssys) :=
  let '(error, s) := rt_sched_thread_ready t s in
  if error =? 0 then s ← rt_sched_unlock_n_resched s; Some (RT_EOK, s) else Some (error, s).

Definition rt_thread_startup (t : nat) (s : ssys) : option (Z * ssys) :=
  if negb (rt_sched_thread_get_stat t s =? RT_THREAD_INIT) then None else
  '(_, s) ← rt_thread_resume t (rt_sched_thread_startup t s);
  Some (RT_EOK, s).

Definition rt_thread_yield (s : ssys) : option ssys :=
  t ← rt_current_thread s; rt_sched_unlock_n_resched (rt_sched_thread_yield t s).

(** The critical section of [_thread_exit] and [_thread_detach]. *)
Definition thread_close (t : nat) (s : ssys) : ssys :=
  rt_sched_thread_close t (set_tm (rt_timer_detach t (sc_tm s)).2 s).

(** A call of [rt_schedule] by the thread [c], which runs now if it has not been switched out. *)
Definition then_schedule (c : option nat) (s : ssys) : option ssys :=
  if decide (rt_current_thread s = c) then rt_schedule s else Some s.

Definition _thread_exit (s : ssys) : option ssys :=
  t ← rt_current_thread s;
  let '(critical_level, s) := rt_enter_critical s in
  let s := thread_close t (rt_sched_remove_thread t s) in
  s ← rt_exit_critical_safe critical_level (rt_thread_defunct_enqueue t s);
  then_schedule (Some t) s.

(** [mutexes]: what [_thread_detach_from_mutex], which is in [Mutex], does to the other threads. *)
Definition _thread_detach (t : nat) (mutexes : ssys → ssys) (s : ssys) : option (Z * ssys) :=
  let '(critical_level, s) := rt_enter_critical s in
  let status := rt_sched_thread_get_stat t s in
  let s :=
    if negb (status =? RT_THREAD_CLOSE) then
      let s := if negb (status =? RT_THREAD_INIT) then rt_sched_remove_thread t s else s in
      rt_thread_defunct_enqueue t (mutexes (thread_close t s))
    else s in
  s ← rt_exit_critical_safe critical_level s;
  Some (RT_EOK, s).

Definition rt_thread_detach := _thread_detach.
Definition rt_thread_delete := _thread_detach.

Definition _thread_timeout (t : nat) (s : ssys) : option ssys :=
  if negb (rt_sched_thread_is_suspended t s) then None else
  rt_sched_unlock_n_resched (rt_sched_insert_thread t (node_remove t (upd_st t (set_serror (- RT_ETIMEOUT)) s))).

Definition _thread_set_suspend_state (t : nat) (suspend_flag : Z) (s : ssys) : option ssys :=
  stat ← if suspend_flag =? RT_INTERRUPTIBLE then Some RT_THREAD_SUSPEND_INTERRUPTIBLE
         else if suspend_flag =? RT_KILLABLE then Some RT_THREAD_SUSPEND_KILLABLE
         else if suspend_flag =? RT_UNINTERRUPTIBLE then Some RT_THREAD_SUSPEND_UNINTERRUPTIBLE
         else None;
  Some (upd_st t (enter_state stat) s).

(** [l]: the list of the IPC object, if there is one. *)
Definition rt_thread_suspend_to_list (t : nat) (l : option nat) (ipc_flags suspend_flag : Z) (s : ssys) : option (Z * ssys) :=
  if negb (bool_decide (rt_current_thread s = Some t)) then None else
  let stat := rt_sched_thread_get_stat t s in
  if negb (stat =? RT_THREAD_READY) && negb (stat =? RT_THREAD_RUNNING) then Some (- RT_ERROR, s) else
  s ← _thread_set_suspend_state t suspend_flag (rt_sched_remove_thread t s);
  let s := match l with
           | Some l => set_susp_list l (rt_susp_list_enqueue (kthreads s) (susp s l) t ipc_flags) s
           | None => s
           end in
  Some (RT_EOK, (rt_sched_thread_timer_stop t s).2).

Definition rt_thread_suspend_with_flag (t : nat) (suspend_flag : Z) (s : ssys) : option (Z * ssys) :=
  rt_thread_suspend_to_list t None 0 suspend_flag s.
Definition rt_thread_suspend (t : nat) (s : ssys) : option (Z * ssys) := rt_thread_suspend_with_flag t RT_UNINTERRUPTIBLE s.

(** Setting the time of the thread timer and starting it. *)
Definition thread_timer_set (t : nat) (tick : Z) (s : ssys) : option ssys :=
  '(_, _, x) ← rt_timer_control t RT_TIMER_CTRL_SET_TIME tick (sc_tm s);
  Some (thread_timer_start t (set_tm x s)).2.

(** [_thread_sleep] until the thread leaves the processor; [sleep_resume] is the rest. *)
Definition _thread_sleep (tick : Z) (s : ssys) : option (call * ssys) :=
  if tick =? 0 then Some (Returns (- RT_EINVAL), s) else
  t ← rt_current_thread s;
  if negb (rt_critical_level s =? 0) then None else
  let s := upd_st t (set_serror RT_EOK) s in
  let '(critical_level, s) := rt_enter_critical s in
  '(err, s) ← rt_thread_suspend_with_flag t RT_INTERRUPTIBLE s;
  if err =? RT_EOK then
    s ← thread_timer_set t tick s;
    s ← rt_schedule (upd_st t (set_serror (- RT_EINTR)) s);
    s ← rt_exit_critical_safe critical_level s;
    Some (Blocks, s)
  else
    s ← rt_exit_critical_safe critical_level s;
    Some (Returns err, s).

Definition clear_timeout (t : nat) (s : ssys) : ssys :=
  if s_error (st s t) =? - RT_ETIMEOUT then upd_st t (set_serror RT_EOK) s else s.
Definition sleep_resume (t : nat) (s : ssys) : Z * ssys := (RT_EOK, clear_timeout t s).

Definition rt_thread_delay (tick : Z) (s : ssys) : option (call * ssys) := _thread_sleep tick s.
Definition rt_thread_mdelay (ms : Z) (s : ssys) : option (call * ssys) := _thread_sleep (rt_tick_from_millisecond ms) s.

(** The result, the new [*tick] and the state. The result of the suspension is not looked at.
    [delay_until_resume] is the rest after the switch. *)
Definition rt_thread_delay_until (tick inc_tick : Z) (s : ssys) : option (call * Z * ssys) :=
  t ← rt_current_thread s;
  let s := upd_st t (set_serror RT_EOK) s in
  let '(critical_level, s) := rt_enter_critical s in
  let cur_tick := rt_tick (sc_tm s) in
  if u32 (cur_tick - tick) <? inc_tick then
    let tick := u32 (tick + inc_tick) in
    '(_, s) ← rt_thread_suspend_with_flag t RT_UNINTERRUPTIBLE s;
    s ← thread_timer_set t (u32 (tick - cur_tick)) s;
    s ← rt_exit_critical_safe critical_level s;
    s ← then_schedule (Some t) s;
    Some (Blocks, tick, s)
  else
    s ← rt_exit_critical_safe critical_level s;
    Some (Returns (s_error (st s t)), cur_tick, s).
Definition delay_until_resume (t : nat) (s : ssys) : Z * ssys := let s := clear_timeout t s in (s_error (st s t), s).

(** [arg]: the priority the pointer points to. *)
Definition rt_thread_control (t : nat) (cmd arg : Z) (mutexes : ssys → ssys) (s : ssys) : option (Z * ssys) :=
  if cmd =? RT_THREAD_CTRL_CHANGE_PRIORITY then s ← rt_sched_thread_change_priority t arg s; Some (RT_EOK, s)
  else if cmd =? RT_THREAD_CTRL_STARTUP then rt_thread_startup t s
  else if cmd =? RT_THREAD_CTRL_CLOSE then
    let self := rt_current_thread s in
    '(err, s) ← _thread_detach t mutexes s;
    s ← then_schedule self s;
    Some (err, s)
  else if cmd =? RT_THREAD_CTRL_BIND_CPU then Some (- RT_EINVAL, s)
  else Some (RT_EOK, s).

Definition rt_thread_idle_init (idle : nat) (s : ssys) : option ssys :=
  s ← rt_thread_init idle (RT_THREAD_PRIORITY_MAX - 1) 32 s;
  '(_, s) ← rt_thread_startup idle s;
  Some s.

(** * The tick interrupt *)

(** The call of a timeout function; [user f p] is what a function other than [_thread_timeout]
    does. *)
Definition timeout_call (user : Z → Z → ssys → option ssys) (f p : Z) (s : ssys) : option ssys :=
  if f =? thread_timeout_func then _thread_timeout (Z.to_nat p) s else user f p s.

(** [rt_timer_check] with the threads. *)
Fixpoint hard_check_loop (fuel : nat) (user : Z → Z → ssys → option ssys) (s : ssys) : option ssys :=
  match fuel with
  | O => None
  | S fuel =>
      match check_begin false (sc_tm s) with
      | (None, x) => Some (set_tm x s)
      | (Some t, x) =>
          s ← timeout_call user (timeout_func (tm x t)) (parameter (tm x t)) (set_tm x s);
          hard_check_loop fuel user (set_tm (check_end false t (sc_tm s)) s)
      end
  end.

(** [rt_tick_increase] with the threads. *)
Definition sys_tick_increase (fuel : nat) (user : Z → Z → ssys → option ssys) (s : ssys) : option ssys :=
  s ← rt_sched_tick_increase (set_tm (tick_add (sc_tm s)) s);
  hard_check_loop fuel user s.
