(* ===== verification/SchedInv.v ===== *)
(** The invariant of the scheduler: every thread is where its state says, and the bitmap tells
    which queues are in use. The operations of [Sched] keep it. *)

From S2P Require Import Prelude.
From S2P Require Import RtDef.
From S2P Require Import Kernel.
From S2P Require Import Timer.
From S2P Require Import Sched.
Open Scope Z_scope.

#[local] Arguments list_remove : simpl never.

(** * State words *)

Lemma land_7_mod f : Z.land f RT_THREAD_STAT_MASK = f mod 8.
Proof. exact (Z.land_ones f 3 ltac:(lia)). Qed.

Lemma state_range x : 0 ≤ state_of x < 8.
Proof. unfold state_of. rewrite land_7_mod. apply Z.mod_pos_bound. lia. Qed.

Lemma state_enter v x : 0 ≤ v < 8 → state_of (enter_state v x) = v.
Proof.
  intros Hv. unfold state_of. cbn. rewrite Z.land_lor_distr_l, Z.land_ldiff, Z.lor_0_r, land_7_mod. by apply Z.mod_small.
Qed.

Lemma state_lor_8 f : Z.land (Z.lor f 8) RT_THREAD_STAT_MASK = Z.land f RT_THREAD_STAT_MASK.
Proof. rewrite Z.land_lor_distr_l. change (Z.land 8 RT_THREAD_STAT_MASK) with 0. apply Z.lor_0_r. Qed.

Lemma state_ldiff_8 f : Z.land (Z.ldiff f 8) RT_THREAD_STAT_MASK = Z.land f RT_THREAD_STAT_MASK.
Proof.
  apply Z.bits_inj'. intros n Hn. rewrite !Z.land_spec, Z.ldiff_spec. change 8 with (2 ^ 3). rewrite Z.pow2_bits_eqb by lia.
  destruct (Z.eqb_spec 3 n) as [<- |]; [by rewrite !andb_false_r | by rewrite andb_true_r].
Qed.

Lemma yielded_bit x : yielded x = Z.testbit (s_stat x) 3.
Proof.
  unfold yielded, flag_set, RT_THREAD_STAT_YIELD. change 8 with (2 ^ 3). destruct (Z.testbit (s_stat x) 3) eqn:E.
  - destruct (Z.eqb_spec (Z.land (s_stat x) (2 ^ 3)) 0) as [H |]; [|done]. apply (f_equal (λ z, Z.testbit z 3)) in H.
    rewrite Z.land_spec, E, Z.bits_0 in H. done.
  - destruct (Z.eqb_spec (Z.land (s_stat x) (2 ^ 3)) 0) as [| H]; [done |]. destruct H. apply Z.bits_inj'. intros n Hn.
    rewrite Z.land_spec, Z.pow2_bits_eqb, Z.bits_0 by lia. destruct (Z.eqb_spec 3 n) as [<- |]; [by rewrite E | apply andb_false_r].
Qed.

Lemma small_cases v : 0 ≤ v < 8 → v ∈ [0; 1; 2; 3; 4; 5; 6; 7].
Proof. intros. assert (v = 0 ∨ v = 1 ∨ v = 2 ∨ v = 3 ∨ v = 4 ∨ v = 5 ∨ v = 6 ∨ v = 7) by lia. set_solver. Qed.

Lemma yielded_enter v x : 0 ≤ v < 8 → yielded (enter_state v x) = yielded x.
Proof.
  intros Hv%small_cases. rewrite !yielded_bit. unfold enter_state, set_stat. cbn [s_stat]. rewrite Z.lor_spec, Z.ldiff_spec.
  assert (Z.testbit v 3 = false) as -> by (repeat (apply elem_of_cons in Hv as [-> | Hv]; [done |]); by apply elem_of_nil in Hv).
  by rewrite andb_true_r.
Qed.

Lemma suspended_state x : is_suspended x = (4 <=? state_of x).
Proof.
  unfold is_suspended, state_of, RT_THREAD_SUSPEND_MASK. rewrite land_7_mod.
  assert (E : Z.land (s_stat x) 4 = Z.land (s_stat x mod 8) 4).
  { rewrite <-land_7_mod, <-Z.land_assoc. done. }
  rewrite E. pose proof (small_cases _ (Z.mod_pos_bound (s_stat x) 8 ltac:(lia))) as Hv. revert Hv. generalize (s_stat x mod 8) as v. intros v Hv.
  repeat (apply elem_of_cons in Hv as [-> | Hv]; [done |]). by apply elem_of_nil in Hv.
Qed.

(** * Reading an updated state *)

Lemma st_upd t f s u : st (upd_st t f s) u = if decide (t = u) then f (st s t) else st s u.
Proof. unfold st, upd_st. cbn [sc_th]. case_decide as E; [subst; by rewrite lookup_insert_eq | by rewrite lookup_insert_ne]. Qed.

Lemma st_upd_eq t f s : st (upd_st t f s) t = f (st s t).
Proof. by rewrite st_upd, decide_True. Qed.

Lemma st_upd_ne t f s u : t ≠ u → st (upd_st t f s) u = st s u.
Proof. intros. by rewrite st_upd, decide_False. Qed.

Lemma queue_set p l s q : queue (set_queue p l s) q = if decide (p = q) then l else queue s q.
Proof. unfold queue, set_queue. cbn [rt_thread_priority_table]. case_decide as E; [subst; by rewrite lookup_insert_eq | by rewrite lookup_insert_ne]. Qed.

Lemma susp_set k l s q : susp (set_susp_list k l s) q = if decide (k = q) then l else susp s q.
Proof. unfold susp, set_susp_list. cbn [susp_lists]. case_decide as E; [subst; by rewrite lookup_insert_eq | by rewrite lookup_insert_ne]. Qed.

Lemma queue_remove t s p : queue (node_remove t s) p = list_remove (queue s p) t.
Proof. unfold queue, node_remove. cbn [rt_thread_priority_table]. rewrite lookup_fmap. by destruct (rt_thread_priority_table s !! p). Qed.

Lemma susp_remove t s l : susp (node_remove t s) l = list_remove (susp s l) t.
Proof. unfold susp, node_remove. cbn [susp_lists]. rewrite lookup_fmap. by destruct (susp_lists s !! l). Qed.

(** What the operations on the queues leave alone. *)
Definition same_rest (s s' : ssys) : Prop :=
  sc_tm s' = sc_tm s ∧ rt_scheduler_lock_nest s' = rt_scheduler_lock_nest s ∧ rt_current_thread s' = rt_current_thread s
  ∧ rt_current_priority s' = rt_current_priority s.

Lemma insert_rest t s :
  same_rest s (rt_sched_insert_thread t s) ∧ susp_lists (rt_sched_insert_thread t s) = susp_lists s
  ∧ _rt_thread_defunct (rt_sched_insert_thread t s) = _rt_thread_defunct s.
Proof. unfold rt_sched_insert_thread. by case_decide. Qed.

Lemma insert_st t s :
  rt_current_thread s ≠ Some t →
  sc_th (rt_sched_insert_thread t s) = sc_th (upd_st t (enter_state RT_THREAD_READY) s).
Proof. intros. unfold rt_sched_insert_thread. by rewrite decide_False. Qed.

Lemma remove_rest t s :
  same_rest s (rt_sched_remove_thread t s) ∧ sc_th (rt_sched_remove_thread t s) = sc_th s
  ∧ susp_lists (rt_sched_remove_thread t s) = susp_lists (node_remove t s)
  ∧ _rt_thread_defunct (rt_sched_remove_thread t s) = list_remove (_rt_thread_defunct s) t
  ∧ rt_thread_priority_table (rt_sched_remove_thread t s) = rt_thread_priority_table (node_remove t s).
Proof. unfold rt_sched_remove_thread. by destruct (queue (node_remove t s) (s_prio (st (node_remove t s) t))). Qed.

Lemma remove_queue t s p : queue (rt_sched_remove_thread t s) p = list_remove (queue s p) t.
Proof. rewrite <-queue_remove. unfold queue. by rewrite (proj2 (proj2 (proj2 (proj2 (remove_rest t s))))). Qed.

(** * The queues *)

(** The threads of [R] are in the queues of their priorities. *)
Record q_ok (R : nat → Prop) (s : ssys) : Prop := {
  qo_in : ∀ p t, t ∈ queue s p ↔ R t ∧ s_prio (st s t) = p;
  qo_nodup : ∀ p, NoDup (queue s p);
  qo_group : ∀ p, 0 ≤ p → Z.testbit (rt_thread_ready_priority_group s) p = negb (bool_decide (queue s p = []));
  qo_pos : 0 ≤ rt_thread_ready_priority_group s;
  qo_prio : ∀ t, R t → 0 ≤ s_prio (st s t) < RT_THREAD_PRIORITY_MAX
}.

Lemma q_ok_iff (R R' : nat → Prop) s : (∀ t, R t ↔ R' t) → q_ok R s → q_ok R' s.
Proof. intros E [H1 H2 H3 H4 H5]. split; [setoid_rewrite <-E; done | done | done | done | setoid_rewrite <-E; done]. Qed.

(** Nothing but the threads outside the queues has changed. *)
Lemma q_ok_ext R s s' :
  (∀ p, queue s' p = queue s p) → rt_thread_ready_priority_group s' = rt_thread_ready_priority_group s →
  (∀ t, R t → s_prio (st s' t) = s_prio (st s t)) → q_ok R s → q_ok R s'.
Proof.
  intros Eq Eg Ep [H1 H2 H3 H4 H5]. split.
  - intros p t. rewrite Eq, H1. split; intros [HR <-]; split; try done; by rewrite Ep.
  - intros. by rewrite Eq.
  - intros. by rewrite Eg, Eq, H3.
  - by rewrite Eg.
  - intros t HR. rewrite Ep by done. by apply H5.
Qed.

Lemma q_ok_upd R s t f : (R t → s_prio (f (st s t)) = s_prio (st s t)) → q_ok R s → q_ok R (upd_st t f s).
Proof.
  intros Hp. apply q_ok_ext; [done | done |]. intros u Hu. rewrite st_upd. case_decide; [subst; by apply Hp | done].
Qed.

Lemma insert_q R s t :
  rt_current_thread s ≠ Some t → ¬ R t → 0 ≤ s_prio (st s t) < RT_THREAD_PRIORITY_MAX → s_mask (st s t) = 2 ^ s_prio (st s t) →
  q_ok R s → q_ok (λ u, u = t ∨ R u) (rt_sched_insert_thread t s).
Proof.
  intros Hc Hn Hp Hm [H1 H2 H3 H4 H5]. unfold rt_sched_insert_thread. rewrite decide_False by done.
  set (s1 := upd_st t (enter_state RT_THREAD_READY) s).
  assert (E1 : st s1 t = enter_state RT_THREAD_READY (st s t)) by apply st_upd_eq.
  assert (Ep : ∀ u, s_prio (st s1 u) = s_prio (st s u)) by (intros u; unfold s1; rewrite st_upd; case_decide; by subst).
  change (queue s1) with (queue s). rewrite E1. cbn [s_prio s_mask enter_state set_stat]. set (p := s_prio (st s t)) in *.
  set (l := if yielded _ then _ else _).
  assert (Hl : ∀ u, u ∈ l ↔ u = t ∨ u ∈ queue s p).
  { intros u. unfold l. destruct (yielded _); set_solver. }
  assert (Ht : t ∉ queue s p) by (rewrite H1; tauto).
  split.
  - intros q u. change (queue (set_group ?g ?z) q) with (queue z q). rewrite queue_set.
    change (st (set_group ?g (set_queue p l s1)) u) with (st s1 u). rewrite Ep. case_decide as Eq.
    + subst q. rewrite Hl, H1. split; [intros [-> | [? ?]]; tauto | intros [[-> | ?] ?]; tauto].
    + change (queue s1 q) with (queue s q). rewrite H1. split; [intros [? ?]; tauto |]. intros [[-> | ?] ?]; [done | tauto].
  - intros q. change (queue (set_group ?g ?z) q) with (queue z q). rewrite queue_set. case_decide; [|apply H2].
    unfold l. destruct (yielded _); [apply NoDup_app; split_and!; [apply H2 | set_solver | apply NoDup_singleton] | constructor; [done | apply H2]].
  - intros q Hq. cbn [rt_thread_ready_priority_group set_group]. change (rt_thread_ready_priority_group (set_queue p l s1)) with (rt_thread_ready_priority_group s).
    rewrite Z.lor_spec, H3 by done. rewrite Hm, Z.pow2_bits_eqb by lia.
    change (queue (set_group ?g ?z) q) with (queue z q). rewrite queue_set. case_decide as Eq.
    + subst q. rewrite Z.eqb_refl, orb_true_r. rewrite bool_decide_false; [done |]. unfold l. destruct (yielded _); [by destruct (queue s p) | done].
    + rewrite (proj2 (Z.eqb_neq _ _)) by done. apply orb_false_r.
  - cbn [rt_thread_ready_priority_group set_group]. apply Z.lor_nonneg. split; [done |]. rewrite Hm. apply Z.pow_nonneg. lia.
  - intros u Hu. change (st (set_group ?g (set_queue p l s1)) u) with (st s1 u). rewrite Ep. destruct Hu as [-> | Hu]; [done | by apply H5].
Qed.

Lemma list_remove_nil l t : list_remove l t = [] ↔ ∀ u, u ∈ l → u = t.
Proof.
  split.
  - intros E u Hu. destruct (decide (u = t)) as [| Hne]; [done |]. assert (u ∈ list_remove l t) as H by by apply elem_of_list_remove.
    rewrite E in H. by apply elem_of_nil in H.
  - intros H. destruct (list_remove l t) as [|u k] eqn:E; [done |]. assert (u ∈ list_remove l t) as Hu by (rewrite E; by left).
    apply elem_of_list_remove in Hu as [Hne Hu]. by apply H in Hu.
Qed.

Lemma remove_q R s t :
  0 ≤ s_prio (st s t) < RT_THREAD_PRIORITY_MAX → s_mask (st s t) = 2 ^ s_prio (st s t) →
  q_ok R s → q_ok (λ u, u ≠ t ∧ R u) (rt_sched_remove_thread t s).
Proof.
  intros Hp Hm [H1 H2 H3 H4 H5]. destruct (remove_rest t s) as (_ & Est & _).
  assert (Es : ∀ u, st (rt_sched_remove_thread t s) u = st s u) by (intros; unfold st; by rewrite Est).
  assert (Eg : ∀ q, 0 ≤ q → Z.testbit (rt_thread_ready_priority_group (rt_sched_remove_thread t s)) q
                    = Z.testbit (rt_thread_ready_priority_group s) q && negb (bool_decide (q = s_prio (st s t) ∧ list_remove (queue s q) t = []))).
  { intros q Hq. unfold rt_sched_remove_thread. change (st (node_remove t s) t) with (st s t).
    destruct (queue (node_remove t s) (s_prio (st s t))) eqn:E; rewrite queue_remove in E.
    - cbn [set_group rt_thread_ready_priority_group node_remove]. rewrite Z.ldiff_spec, Hm, Z.pow2_bits_eqb by lia. f_equal. f_equal.
      destruct (Z.eqb_spec (s_prio (st s t)) q) as [<- |]; [by rewrite bool_decide_true | by rewrite bool_decide_false by naive_solver].
    - cbn [rt_thread_ready_priority_group node_remove]. rewrite bool_decide_false; [by rewrite andb_true_r |]. intros [-> E']. congruence. }
  split.
  - intros p u. rewrite remove_queue, Es, elem_of_list_remove, H1. tauto.
  - intros p. rewrite remove_queue. apply NoDup_list_remove, H2.
  - intros q Hq. rewrite Eg, H3, remove_queue by done. destruct (decide (list_remove (queue s q) t = [])) as [E | E].
    + rewrite (bool_decide_true (list_remove _ _ = [])) by done. destruct (decide (q = s_prio (st s t))) as [-> | Hq'].
      { rewrite (bool_decide_true (_ ∧ _)) by done. apply andb_false_r. }
      rewrite (bool_decide_true (queue s q = [])); [done |]. destruct (queue s q) as [|u k] eqn:Eq; [done |].
      assert (Hu : u ∈ queue s q) by (rewrite Eq; by left). assert (u = t) as -> by (apply (proj1 (list_remove_nil _ _) E); by left).
      apply H1 in Hu as [_ Hu]. congruence.
    + rewrite !bool_decide_false; [done | done | tauto | intros Eq; by rewrite Eq in E].
  - unfold rt_sched_remove_thread. destruct (queue _ _); [|done]. cbn [set_group rt_thread_ready_priority_group node_remove].
    apply Z.ldiff_nonneg. by left.
  - intros u [_ Hu]. rewrite Es. by apply H5.
Qed.

(** Taking a thread outside the queues off its list. *)
Lemma node_remove_q R s t : ¬ R t → q_ok R s → q_ok R (node_remove t s).
Proof.
  intros Hn Hq. apply (q_ok_ext R s); [|done | done | done]. intros p. rewrite queue_remove. apply list_remove_notin.
  rewrite (qo_in _ _ Hq). tauto.
Qed.

(** The most urgent ready thread. *)

Lemma ffs_pos_spec p : 1 ≤ ffs_pos p ∧ Z.testbit (Zpos p) (ffs_pos p - 1) = true ∧ ∀ n, 0 ≤ n < ffs_pos p - 1 → Z.testbit (Zpos p) n = false.
Proof.
  induction p as [p IH | p (H1 & H2 & H3) |]; cbn [ffs_pos]; [split_and!; [lia | done | lia] | | split_and!; [lia | done | lia]].
  change (Zpos p~0) with (2 * Zpos p). split_and!; [lia | |].
  - replace (ffs_pos p + 1 - 1) with (Z.succ (ffs_pos p - 1)) by lia. by rewrite Z.testbit_even_succ by lia.
  - intros n Hn. destruct (decide (n = 0)) as [-> | ]; [apply Z.testbit_even_0 |].
    replace n with (Z.succ (n - 1)) by lia. rewrite Z.testbit_even_succ by lia. apply H3. lia.
Qed.

Lemma highest_spec R s t0 :
  q_ok R s → R t0 →
  ∃ t p l, _scheduler_get_highest_priority_thread s = Some (t, p) ∧ queue s p = t :: l ∧ rt_thread_ready_priority_group s ≠ 0
    ∧ R t ∧ s_prio (st s t) = p ∧ ∀ u, R u → p ≤ s_prio (st s u).
Proof.
  intros Hq H0. unfold _scheduler_get_highest_priority_thread.
  assert (Hbit : ∀ u, R u → Z.testbit (rt_thread_ready_priority_group s) (s_prio (st s u)) = true).
  { intros u Hu. rewrite (qo_group _ _ Hq) by apply (qo_prio _ _ Hq u Hu). rewrite bool_decide_false; [done |].
    intros E. assert (u ∈ queue s (s_prio (st s u))) as H by by apply (qo_in _ _ Hq). rewrite E in H. by apply elem_of_nil in H. }
  pose proof (qo_pos _ _ Hq) as Hpos. destruct (rt_thread_ready_priority_group s) as [|g|] eqn:Eg; [|clear Hpos |lia].
  { specialize (Hbit t0 H0). by rewrite Z.bits_0 in Hbit. }
  cbn [__rt_ffs]. destruct (ffs_pos_spec g) as (Hf & Hset & Hlow). set (p := ffs_pos g - 1) in *.
  pose proof (qo_group _ _ Hq p ltac:(lia)) as Hp. rewrite Eg, Hset in Hp. destruct (queue s p) as [|t l] eqn:El; [by rewrite bool_decide_true in Hp |].
  assert (Ht : t ∈ queue s p) by (rewrite El; by left). apply (qo_in _ _ Hq) in Ht as [Ht Htp].
  exists t, p, l. split_and!; try done. intros u Hu. destruct (Z.le_gt_cases p (s_prio (st s u))) as [| Hlt]; [done |].
  pose proof (Hbit u Hu) as Hb. pose proof (qo_prio _ _ Hq u Hu). by rewrite Hlow in Hb by lia.
Qed.

Lemma group_empty R s : q_ok R s → (∀ t, ¬ R t) → rt_thread_ready_priority_group s = 0.
Proof.
  intros Hq Hn. apply Z.bits_inj'. intros p Hp. rewrite (qo_group _ _ Hq), Z.bits_0 by done. rewrite bool_decide_true; [done |].
  destruct (queue s p) as [|t l] eqn:E; [done |]. assert (Ht : t ∈ queue s p) by (rewrite E; by left). apply (qo_in _ _ Hq) in Ht as [Ht _]. by apply Hn in Ht.
Qed.

(** * The invariant *)

Definition ready (s : ssys) (t : nat) : Prop := state_of (st s t) = RT_THREAD_READY.

(** A thread that was initialised has a time slice; one that was started has the mask of its
    priority. *)
Record th_ok (x : sthread) : Prop := {
  to_prio : 0 ≤ s_prio x < RT_THREAD_PRIORITY_MAX;
  to_mask : RT_THREAD_READY ≤ state_of x → s_mask x = 2 ^ s_prio x;
  to_slice : (s_init_tick x = 0 ∧ state_of x = RT_THREAD_INIT) ∨ 0 < s_left x ≤ s_init_tick x ∧ s_init_tick x ≤ RT_TICK_MAX
}.

Record sched_ok (s : ssys) : Prop := {
  so_q : q_ok (ready s) s;
  so_th : ∀ t, th_ok (st s t);
  so_run : ∀ t, state_of (st s t) = RT_THREAD_RUNNING → rt_current_thread s = Some t;
  so_cur : ∀ t, rt_current_thread s = Some t → ¬ ready s t ∧ state_of (st s t) ≠ RT_THREAD_INIT;
  so_susp : ∀ l t, t ∈ susp s l → is_suspended (st s t) = true;
  so_susp_one : ∀ l k t, t ∈ susp s l → t ∈ susp s k → l = k;
  so_susp_nodup : ∀ l, NoDup (susp s l);
  so_dead : ∀ t, t ∈ _rt_thread_defunct s → state_of (st s t) = RT_THREAD_CLOSE;
  so_dead_nodup : NoDup (_rt_thread_defunct s);
  so_nest : 0 ≤ rt_scheduler_lock_nest s < 32768
}.

Lemma sched_ok_tm s x : sched_ok s → sched_ok (set_tm x s).
Proof. intros [[? ? ? ? ?] ? ? ? ? ? ? ? ? ?]. split; [split |..]; done. Qed.

Lemma sched_ok_nest s n : 0 ≤ n < 32768 → sched_ok s → sched_ok (set_nest n s).
Proof. intros Hn [[? ? ? ? ?] ? ? ? ? ? ? ? ? ?]. split; [split |..]; done. Qed.

(** A change of a thread that keeps its place. *)
Lemma sched_ok_upd s t f :
  th_ok (f (st s t)) → (ready s t → s_prio (f (st s t)) = s_prio (st s t)) → state_of (f (st s t)) = state_of (st s t) →
  sched_ok s → sched_ok (upd_st t f s).
Proof.
  intros Ht Ep Es [Hq Hth Hrun Hcur Hs1 Hs2 Hs3 Hd1 Hd2 Hn].
  assert (E : ∀ u, state_of (st (upd_st t f s) u) = state_of (st s u)) by (intros u; rewrite st_upd; case_decide; by subst).
  split; try done.
  - apply (q_ok_iff (ready s)); [intros u; unfold ready; by rewrite E |]. by apply q_ok_upd.
  - intros u. rewrite st_upd. by case_decide.
  - intros u. rewrite E. apply Hrun.
  - intros u. unfold ready. rewrite E. apply Hcur.
  - intros l u. rewrite suspended_state, E, <-suspended_state. apply Hs1.
  - intros u. rewrite E. apply Hd1.
Qed.

(** A thread that is on no list changes its state, and may change its priority. *)
Lemma sched_ok_outside s t f :
  ¬ ready s t → (∀ l, t ∉ susp s l) → t ∉ _rt_thread_defunct s →
  th_ok (f (st s t)) → state_of (f (st s t)) ≠ RT_THREAD_READY →
  (state_of (f (st s t)) = RT_THREAD_RUNNING → rt_current_thread s = Some t) →
  (rt_current_thread s = Some t → state_of (f (st s t)) ≠ RT_THREAD_INIT) →
  sched_ok s → sched_ok (upd_st t f s).
Proof.
  intros Hr Hl Hd Ht Hn1 Hn2 Hc [Hq Hth Hrun Hcur Hs1 Hs2 Hs3 Hd1 Hd2 Hn].
  assert (E : ∀ u, u ≠ t → st (upd_st t f s) u = st s u) by (intros u Hu; by rewrite st_upd_ne).
  split; try done.
  - apply (q_ok_iff (ready s)); [|by apply q_ok_upd]. intros u. unfold ready. rewrite st_upd. case_decide; [subst | done].
    split; [done | by intros ?%Hn1].
  - intros u. rewrite st_upd. by case_decide.
  - intros u. rewrite st_upd. case_decide as Eu; [subst; exact Hn2 | apply Hrun].
  - intros u Hu. change (rt_current_thread s = Some u) in Hu. unfold ready. rewrite st_upd. case_decide as Eu; [subst; by auto | by apply Hcur].
  - intros l u Hu. rewrite E; [by apply (Hs1 l) |]. intros ->. by apply (Hl l).
  - intros u Hu. rewrite E; [by apply Hd1 |]. by intros ->.
Qed.

(** A thread outside the queues leaves its list. *)
Lemma node_remove_ok s t :
  ¬ ready s t → sched_ok s →
  sched_ok (node_remove t s) ∧ (∀ l, t ∉ susp (node_remove t s) l) ∧ t ∉ _rt_thread_defunct (node_remove t s).
Proof.
  intros Hr [Hq Hth Hrun Hcur Hs1 Hs2 Hs3 Hd1 Hd2 Hn]. split; [|split].
  - split; try done.
    + by apply node_remove_q.
    + intros l u. rewrite susp_remove. intros [_ Hu]%elem_of_list_remove. by apply (Hs1 l).
    + intros l k u. rewrite !susp_remove. intros [_ ?]%elem_of_list_remove [_ ?]%elem_of_list_remove. by apply (Hs2 l k u).
    + intros l. rewrite susp_remove. by apply NoDup_list_remove.
    + intros u [_ Hu]%elem_of_list_remove. by apply Hd1.
    + by apply NoDup_list_remove.
  - intros l. rewrite susp_remove, elem_of_list_remove. tauto.
  - intros [? _]%elem_of_list_remove. done.
Qed.

Lemma th_ok_enter v x : RT_THREAD_READY ≤ v < 8 → RT_THREAD_READY ≤ state_of x → th_ok x → th_ok (enter_state v x).
Proof.
  intros Hv Hx [H1 H2 H3]. unfold RT_THREAD_READY in *. split.
  - done.
  - intros _. by apply H2.
  - rewrite state_enter by lia. destruct H3 as [[_ H3] | H3]; [|by right]. unfold RT_THREAD_INIT in *. lia.
Qed.

Lemma th_ok_state x y :
  s_prio y = s_prio x → s_mask y = s_mask x → s_init_tick y = s_init_tick x → s_left y = s_left x → state_of y = state_of x → th_ok x → th_ok y.
Proof. intros E1 E2 E3 E4 E5 [H1 H2 H3]. split; rewrite ?E1, ?E2, ?E3, ?E4, ?E5; done. Qed.

(** A thread on no list becomes ready, or goes on running. *)
Lemma insert_ok s t :
  ¬ ready s t → th_ok (enter_state RT_THREAD_READY (st s t)) → (∀ l, t ∉ susp s l) → t ∉ _rt_thread_defunct s →
  sched_ok s → sched_ok (rt_sched_insert_thread t s).
Proof.
  intros Hr Ht Hl Hd Hok.
  destruct (decide (rt_current_thread s = Some t)) as [Hc | Hc].
  { unfold rt_sched_insert_thread. rewrite decide_True by done. apply sched_ok_outside; try done; try by rewrite state_enter.
    apply (th_ok_enter RT_THREAD_RUNNING) in Ht; [|done | by rewrite state_enter]. 
    apply (th_ok_state (enter_state RT_THREAD_RUNNING (enter_state RT_THREAD_READY (st s t)))); try done. by rewrite !state_enter. }
  destruct (insert_rest t s) as ((_ & En & Ec & _) & Esu & Edf). pose proof (insert_st t s Hc) as Est.
  set (s' := rt_sched_insert_thread t s) in *. destruct Hok as [Hq Hth Hrun Hcur Hs1 Hs2 Hs3 Hd1 Hd2 Hn].
  assert (E : ∀ u, u ≠ t → st s' u = st s u) by (intros u Hu; unfold st at 1; rewrite Est; apply st_upd_ne; congruence).
  assert (E1 : st s' t = enter_state RT_THREAD_READY (st s t)) by (unfold st at 1; rewrite Est; apply st_upd_eq).
  assert (El : susp s' = susp s) by (unfold susp; by rewrite Esu). split.
  - apply (q_ok_iff (λ u, u = t ∨ ready s u)).
    + intros u. unfold ready. destruct (decide (u = t)) as [-> | Hu]; [rewrite E1, state_enter by done; tauto | rewrite E by done; tauto].
    + apply insert_q; [done | done | apply Hth | apply (to_mask _ Ht); by rewrite state_enter | done].
  - intros u. destruct (decide (u = t)) as [-> | Hu]; [by rewrite E1 | rewrite E by done; apply Hth].
  - intros u. rewrite Ec. destruct (decide (u = t)) as [-> | Hu]; [by rewrite E1, state_enter | rewrite E by done; apply Hrun].
  - intros u. rewrite Ec. intros Hu. unfold ready. rewrite E by congruence. by apply Hcur.
  - intros l u. rewrite El. intros Hu. rewrite E; [by apply (Hs1 l) |]. intros ->. by apply (Hl l).
  - rewrite El. done.
  - rewrite El. done.
  - intros u. rewrite Edf. intros Hu. rewrite E; [by apply Hd1 |]. by intros ->.
  - by rewrite Edf.
  - by rewrite En.
Qed.

Lemma wake_ok s t : is_suspended (st s t) = true → sched_ok s → sched_ok (rt_sched_insert_thread t (node_remove t s)).
Proof.
  rewrite suspended_state. intros Hs%Z.leb_le Hok. assert (Hr : ¬ ready s t) by (unfold ready, RT_THREAD_READY; lia).
  destruct (node_remove_ok s t Hr Hok) as (Hok' & Hl & Hd). apply insert_ok; try done.
  apply th_ok_enter; [done | unfold RT_THREAD_READY; change (st (node_remove t s) t) with (st s t); lia | apply (so_th s Hok)].
Qed.

(** A started thread leaves the queues for a state in which it does not run. *)
Lemma remove_ok s t f :
  RT_THREAD_READY ≤ state_of (st s t) → th_ok (f (st s t)) →
  state_of (f (st s t)) ≠ RT_THREAD_READY → state_of (f (st s t)) ≠ RT_THREAD_RUNNING →
  (rt_current_thread s = Some t → state_of (f (st s t)) ≠ RT_THREAD_INIT) →
  sched_ok s →
  sched_ok (upd_st t f (rt_sched_remove_thread t s)) ∧ (∀ l, t ∉ susp (rt_sched_remove_thread t s) l)
  ∧ t ∉ _rt_thread_defunct (rt_sched_remove_thread t s).
Proof.
  intros Hst Ht Hn1 Hn2 Hn3 [Hq Hth Hrun Hcur Hs1 Hs2 Hs3 Hd1 Hd2 Hn].
  destruct (remove_rest t s) as ((_ & En & Ec & _) & Est & Esu & Edf & _).
  assert (Es : ∀ u, st (rt_sched_remove_thread t s) u = st s u) by (intros; unfold st; by rewrite Est).
  assert (El : ∀ l, susp (rt_sched_remove_thread t s) l = list_remove (susp s l) t) by (intros l; rewrite <-susp_remove; unfold susp; by rewrite Esu).
  assert (E : ∀ u, u ≠ t → st (upd_st t f (rt_sched_remove_thread t s)) u = st s u) by (intros u Hu; rewrite st_upd_ne by done; apply Es).
  assert (E1 : st (upd_st t f (rt_sched_remove_thread t s)) t = f (st s t)) by (by rewrite st_upd_eq, Es).
  split; [|split; [intros l; rewrite El, elem_of_list_remove; tauto | rewrite Edf, elem_of_list_remove; tauto]]. split.
  - apply (q_ok_iff (λ u, u ≠ t ∧ ready s u)).
    + intros u. unfold ready. destruct (decide (u = t)) as [-> | Hu]; [rewrite E1; tauto | rewrite E by done; tauto].
    + apply q_ok_upd; [tauto |]. apply remove_q; [apply (Hth t) | by apply (Hth t) | done].
  - intros u. destruct (decide (u = t)) as [-> | Hu]; [by rewrite E1 | by rewrite E].
  - intros u. destruct (decide (u = t)) as [-> | Hu]; [by rewrite E1 | rewrite E by done]. change (rt_current_thread (upd_st ?a ?b ?c)) with (rt_current_thread c). rewrite Ec. apply Hrun.
  - intros u. change (rt_current_thread (upd_st ?a ?b ?c)) with (rt_current_thread c). rewrite Ec. intros Hu. unfold ready.
    destruct (decide (u = t)) as [-> | Hne]; [rewrite E1; by auto | rewrite E by done; by apply Hcur].
  - intros l u. change (susp (upd_st ?a ?b ?c)) with (susp c). rewrite El. intros [Hu Hin]%elem_of_list_remove. rewrite E by done. by apply (Hs1 l).
  - intros l k u. change (susp (upd_st ?a ?b ?c)) with (susp c). rewrite !El. intros [_ ?]%elem_of_list_remove [_ ?]%elem_of_list_remove. by apply (Hs2 l k u).
  - intros l. change (susp (upd_st ?a ?b ?c)) with (susp c). rewrite El. by apply NoDup_list_remove.
  - intros u. change (_rt_thread_defunct (upd_st ?a ?b ?c)) with (_rt_thread_defunct c). rewrite Edf. intros [Hu Hin]%elem_of_list_remove. rewrite E by done. by apply Hd1.
  - change (_rt_thread_defunct (upd_st ?a ?b ?c)) with (_rt_thread_defunct c). rewrite Edf. by apply NoDup_list_remove.
  - change (rt_scheduler_lock_nest (upd_st ?a ?b ?c)) with (rt_scheduler_lock_nest c). by rewrite En.
Qed.

(** * Scheduling *)

Definition running (s : ssys) (c : nat) : bool := state_of (st s c) =? RT_THREAD_RUNNING.

(** Whether the running thread keeps the processor when [p] is the most urgent priority of the
    ready threads. *)
Definition stays (s : ssys) (c : nat) (p : Z) : bool :=
  running s c && ((s_prio (st s c) <? p) || (s_prio (st s c) =? p) && negb (yielded (st s c))).

(** The queue of priority [q] with the running thread [c] back in it: at the end if it is marked
    as having yielded, otherwise in front. *)
Definition requeue (s : ssys) (c : nat) (q : Z) : list nat :=
  if running s c && (q =? s_prio (st s c)) then (if yielded (st s c) then queue s q ++ [c] else c :: queue s q) else queue s q.

Definition unyield : sthread → sthread := set_stat (λ f, Z.ldiff f RT_THREAD_STAT_YIELD).

Lemma enter_same x : enter_state (state_of x) x = x.
Proof.
  destruct x as [f p ip m it l e b]. unfold enter_state, set_stat, state_of. cbn. f_equal. rewrite Z.lor_comm. apply Z.bits_inj'. intros n Hn.
  rewrite Z.lor_spec, Z.ldiff_spec, Z.land_spec. by destruct (Z.testbit f n), (Z.testbit RT_THREAD_STAT_MASK n).
Qed.

Lemma state_unyield x : state_of (unyield x) = state_of x.
Proof. apply state_ldiff_8. Qed.

(** The result of a switch from [c] to [t]. *)
Record switched (s : ssys) (c t : nat) (s' : ssys) : Prop := {
  sw_cur : rt_current_thread s' = Some t;
  sw_to : st s' t = enter_state RT_THREAD_RUNNING (st s t);
  sw_from : st s' c = unyield (if running s c then enter_state RT_THREAD_READY (st s c) else st s c);
  sw_st : ∀ u, u ≠ t → u ≠ c → st s' u = st s u;
  sw_queue : ∀ q, queue s' q = list_remove (requeue s c q) t;
  sw_susp : ∀ l, susp s' l = susp s l;
  sw_dead : _rt_thread_defunct s' = _rt_thread_defunct s;
  sw_tm : sc_tm s' = sc_tm s;
  sw_nest : rt_scheduler_lock_nest s' = rt_scheduler_lock_nest s
}.

Lemma ready_off s t : ready s t → sched_ok s → (∀ l, t ∉ susp s l) ∧ t ∉ _rt_thread_defunct s.
Proof.
  unfold ready. intros Hr Hok. split.
  - intros l Hl%(so_susp s Hok). by rewrite suspended_state, Hr in Hl.
  - intros Hd%(so_dead s Hok). by rewrite Hr in Hd.
Qed.

(** The steps of a switch. *)
Definition switch (s : ssys) (c t : nat) (p : Z) : ssys :=
  let s1 := set_current t (set_cprio p s) in
  let s2 := if running s c then rt_sched_insert_thread c s1 else s1 in
  upd_st t (enter_state RT_THREAD_RUNNING) (rt_sched_remove_thread t (upd_st c unyield s2)).

Lemma switch_spec s c t p :
  rt_current_thread s = Some c → ready s t → sched_ok s → switched s c t (switch s c t p).
Proof.
  intros Hc Hr Hok. assert (Hne : t ≠ c) by (intros ->; by destruct (so_cur s Hok c Hc)). destruct (ready_off s t Hr Hok) as [Hl Hd].
  unfold switch. set (s1 := set_current t (set_cprio p s)). set (s2 := if running s c then _ else _). set (s3 := upd_st c unyield s2).
  destruct (remove_rest t s3) as ((R1 & R2 & R3 & _) & R4 & R5 & R6 & _).
  assert (Hc1 : rt_current_thread s1 ≠ Some c) by (cbn; congruence).
  assert (F : same_rest s1 s2 ∧ susp_lists s2 = susp_lists s ∧ _rt_thread_defunct s2 = _rt_thread_defunct s
      ∧ (∀ u, st s2 u = if decide (c = u) then (if running s c then enter_state RT_THREAD_READY (st s c) else st s c) else st s u)
      ∧ ∀ q, queue s2 q = requeue s c q).
  { unfold s2, requeue. destruct (running s c).
    - destruct (insert_rest c s1) as (F1 & F2 & F3). split_and!; [done | done | done | |].
      + intros u. unfold st at 1. rewrite (insert_st c s1 Hc1). exact (st_upd c _ s1 u).
      + intros q. unfold rt_sched_insert_thread. rewrite decide_False by done.
        change (queue (set_group ?g ?z) q) with (queue z q). rewrite queue_set, st_upd_eq. cbn [s_prio enter_state set_stat andb]. change (st s1 c) with (st s c).
        change (queue (upd_st c ?f s1)) with (queue s). rewrite yielded_enter by done. case_decide as Eq; [subst; by rewrite Z.eqb_refl |].
        by rewrite (proj2 (Z.eqb_neq _ _)) by congruence.
    - split_and!; [done | done | done | | done]. intros u. case_decide; [by subst | done]. }
  destruct F as ((F1 & F2 & F3 & _) & F4 & F5 & F6 & F7).
  assert (E3 : ∀ u, st s3 u = if decide (c = u) then unyield (if running s c then enter_state RT_THREAD_READY (st s c) else st s c) else st s u).
  { intros u. unfold s3. rewrite st_upd. rewrite !F6. case_decide; [by rewrite decide_True | done]. }
  assert (E4 : ∀ u, st (rt_sched_remove_thread t s3) u = st s3 u) by (intros; unfold st; by rewrite R4).
  split.
  - cbn [rt_current_thread upd_st]. rewrite R3. change (rt_current_thread s3) with (rt_current_thread s2). by rewrite F3.
  - rewrite st_upd_eq, E4, E3, decide_False by congruence. done.
  - rewrite st_upd_ne, E4, E3, decide_True by done. done.
  - intros u Hu1 Hu2. rewrite st_upd_ne, E4, E3, decide_False by congruence. done.
  - intros q. change (queue (upd_st ?a ?b ?z) q) with (queue z q). rewrite remove_queue. change (queue s3 q) with (queue s2 q). by rewrite F7.
  - intros l. change (susp (upd_st ?a ?b ?z) l) with (susp z l). unfold susp at 1. rewrite R5. change (susp (node_remove t s3) l = susp s l).
    rewrite susp_remove. change (susp s3 l) with (susp s2 l). unfold susp. rewrite F4. apply list_remove_notin, Hl.
  - cbn [_rt_thread_defunct upd_st]. rewrite R6. change (_rt_thread_defunct s3) with (_rt_thread_defunct s2). rewrite F5. by apply list_remove_notin.
  - cbn [sc_tm upd_st]. rewrite R1. change (sc_tm s3) with (sc_tm s2). by rewrite F1.
  - cbn [rt_scheduler_lock_nest upd_st]. rewrite R2. change (rt_scheduler_lock_nest s3) with (rt_scheduler_lock_nest s2). by rewrite F2.
Qed.

Lemma switch_q s c t p :
  rt_current_thread s = Some c → ready s t → sched_ok s →
  q_ok (λ u, u ≠ t ∧ (u = c ∧ running s c = true ∨ ready s u)) (switch s c t p).
Proof.
  intros Hc Hr Hok. destruct (so_cur s Hok c Hc) as [Hrc _]. assert (Hne : t ≠ c) by by intros ->.
  unfold switch. set (s1 := set_current t (set_cprio p s)). assert (Q1 : q_ok (ready s) s1) by (by apply (q_ok_ext _ s); [..| apply Hok]).
  set (s2 := if running s c then _ else _). assert (Q2 : q_ok (λ u, u = c ∧ running s c = true ∨ ready s u) s2).
  { unfold s2. destruct (running s c) eqn:Er.
    - apply (q_ok_iff (λ u, u = c ∨ ready s u)); [intros u; tauto |]. apply Z.eqb_eq in Er.
      apply insert_q; [cbn; congruence | done | apply (so_th s Hok c) | apply (so_th s Hok c); by rewrite Er | done].
    - apply (q_ok_iff (ready s)); [intros u; split; [by right | by intros [[_ ?] | ?]] | done]. }
  set (s3 := upd_st c unyield s2). assert (Q3 : q_ok (λ u, u = c ∧ running s c = true ∨ ready s u) s3) by by apply q_ok_upd.
  assert (Et : st s3 t = st s t).
  { unfold s3. rewrite st_upd_ne by done. unfold s2. destruct (running s c); [|done]. unfold st at 1. rewrite insert_st by (cbn; congruence).
    exact (st_upd_ne c _ s1 t ltac:(done)). }
  apply q_ok_upd; [done |]. apply remove_q; [| |done]; rewrite Et; [apply (so_th s Hok t) | apply (so_th s Hok t); by rewrite Hr].
Qed.

Lemma switch_ok s c t p : rt_current_thread s = Some c → ready s t → sched_ok s → sched_ok (switch s c t p).
Proof.
  intros Hc Hr Hok. destruct (so_cur s Hok c Hc) as [Hrc Hci]. assert (Hne : t ≠ c) by by intros ->.
  pose proof (switch_q s c t p Hc Hr Hok) as Hq. destruct (switch_spec s c t p Hc Hr Hok) as [W1 W2 W3 W4 W5 W6 W7 W8 W9].
  set (s' := switch s c t p) in *. destruct Hok as [_ Hth Hrun Hcur Hs1 Hs2 Hs3 Hd1 Hd2 Hn].
  assert (Ec : state_of (st s' c) = if running s c then RT_THREAD_READY else state_of (st s c)).
  { rewrite W3, state_unyield. destruct (running s c); [by apply state_enter | done]. }
  assert (Et : state_of (st s' t) = RT_THREAD_RUNNING) by (rewrite W2; by apply state_enter).
  assert (Hk : ∀ u, is_suspended (st s u) = true ∨ state_of (st s u) = RT_THREAD_CLOSE → state_of (st s' u) = state_of (st s u)).
  { intros u Hu. unfold ready, RT_THREAD_READY in Hr. destruct (decide (u = t)) as [-> | Hut]; [exfalso |].
    { destruct Hu as [Hu | Hu]; [rewrite suspended_state in Hu; apply Z.leb_le in Hu; lia | rewrite Hr in Hu; done]. }
    destruct (decide (u = c)) as [-> | Huc]; [|by rewrite W4]. rewrite Ec. unfold running.
    destruct (Z.eqb_spec (state_of (st s c)) RT_THREAD_RUNNING) as [E | E]; [|done].
    destruct Hu as [Hu | Hu]; [rewrite suspended_state, E in Hu; done | by rewrite E in Hu]. }
  split.
  - refine (q_ok_iff _ _ _ _ Hq). intros u. unfold ready. destruct (decide (u = t)) as [-> | Hut]; [rewrite Et; split; [tauto | done] |].
    destruct (decide (u = c)) as [-> | Huc]; [rewrite Ec |by rewrite W4; [tauto |..]].
    destruct (running s c) eqn:Er; [tauto |]. split; [intros [_ [[_ ?] | ?]]; done | done].
  - intros u. destruct (decide (u = t)) as [-> | Hut]; [rewrite W2; apply th_ok_enter; [done | by rewrite Hr | done] |].
    destruct (decide (u = c)) as [-> | Huc]; [rewrite W3 | by rewrite W4].
    apply (th_ok_state (if running s c then enter_state RT_THREAD_READY (st s c) else st s c)); [by destruct (running s c).. | apply state_unyield |].
    destruct (running s c) eqn:Er; [|done]. apply Z.eqb_eq in Er. apply th_ok_enter; [done | by rewrite Er | done].
  - intros u Hu. rewrite W1. destruct (decide (u = t)) as [-> | Hut]; [done |]. exfalso.
    destruct (decide (u = c)) as [-> | Huc]; [|rewrite W4 in Hu by done; apply Hrun in Hu; congruence].
    rewrite Ec in Hu. unfold running in Hu. destruct (Z.eqb_spec (state_of (st s c)) RT_THREAD_RUNNING); done.
  - intros u. rewrite W1. intros [= <-]. unfold ready. by rewrite Et.
  - intros l u. rewrite W6. intros Hu%Hs1. rewrite suspended_state, Hk, <-suspended_state by by left. done.
  - intros l k u. rewrite !W6. apply Hs2.
  - intros l. by rewrite W6.
  - intros u. rewrite W7. intros Hu%Hd1. rewrite Hk by by right. done.
  - by rewrite W7.
  - by rewrite W9.
Qed.

(** What [rt_schedule] does when the scheduler is not locked: without a ready thread nothing;
    otherwise the running thread stays, or the first thread of the most urgent queue runs. *)
Inductive scheduled (s : ssys) (c : nat) : ssys → Prop :=
  | scheduled_none : (∀ t, ¬ ready s t) → scheduled s c s
  | scheduled_same s' t p l :
      queue s p = t :: l → (∀ u, ready s u → p ≤ s_prio (st s u)) → stays s c p = true →
      rt_current_thread s' = Some c → (∀ u, st s' u = st s u) → (∀ q, queue s' q = queue s q) →
      (∀ k, susp s' k = susp s k) → sc_tm s' = sc_tm s → rt_scheduler_lock_nest s' = rt_scheduler_lock_nest s →
      _rt_thread_defunct s' = _rt_thread_defunct s → scheduled s c s'
  | scheduled_switch s' t p l :
      queue s p = t :: l → ready s t → s_prio (st s t) = p → (∀ u, ready s u → p ≤ s_prio (st s u)) → stays s c p = false →
      switched s c t s' → scheduled s c s'.

Lemma ready_dec s : (∃ t, ready s t) ∨ (∀ t, ¬ ready s t).
Proof.
  destruct (decide (map_Exists (λ _ x, state_of x = RT_THREAD_READY) (sc_th s))) as [(t & x & Hx & Hr) | Hn].
  - left. exists t. unfold ready, st. by rewrite Hx.
  - right. intros t Ht. apply Hn. unfold ready, st in Ht. destruct (sc_th s !! t) as [x|] eqn:E; [by exists t, x | done].
Qed.

Lemma stay_ok s c :
  rt_current_thread s = Some c → running s c = true → sched_ok s →
  let s' := upd_st c (enter_state RT_THREAD_RUNNING) (rt_sched_remove_thread c s) in
  sched_ok s' ∧ (∀ u, st s' u = st s u) ∧ (∀ q, queue s' q = queue s q) ∧ (∀ k, susp s' k = susp s k)
  ∧ _rt_thread_defunct s' = _rt_thread_defunct s ∧ same_rest s s'.
Proof.
  intros Hc Hr Hok s'. apply Z.eqb_eq in Hr. destruct (remove_rest c s) as (R1 & R4 & R5 & R6 & _).
  destruct (so_cur s Hok c Hc) as [Hn _].
  assert (Hl : ∀ l, c ∉ susp s l) by (intros l Hl%(so_susp s Hok); by rewrite suspended_state, Hr in Hl).
  assert (Hd : c ∉ _rt_thread_defunct s) by (intros Hd%(so_dead s Hok); by rewrite Hr in Hd).
  assert (E1 : ∀ u, st (rt_sched_remove_thread c s) u = st s u) by (intros; unfold st; by rewrite R4).
  assert (Es : ∀ u, st s' u = st s u).
  { intros u. unfold s'. rewrite st_upd. case_decide; [subst |]; rewrite E1; [|done]. rewrite <-Hr. apply enter_same. }
  assert (Eq : ∀ q, queue s' q = queue s q).
  { intros q. change (queue s' q) with (queue (rt_sched_remove_thread c s) q). rewrite remove_queue. apply list_remove_notin.
    rewrite (qo_in _ _ (so_q s Hok)). tauto. }
  assert (Ek : ∀ k, susp s' k = susp s k).
  { intros k. change (susp s' k) with (default [] (susp_lists (rt_sched_remove_thread c s) !! k)). rewrite R5. change (susp (node_remove c s) k = susp s k).
    rewrite susp_remove. by apply list_remove_notin. }
  assert (Ed : _rt_thread_defunct s' = _rt_thread_defunct s).
  { change (_rt_thread_defunct s') with (_rt_thread_defunct (rt_sched_remove_thread c s)). rewrite R6. by apply list_remove_notin. }
  assert (Hq : q_ok (ready s) s').
  { apply q_ok_upd; [done |]. apply (q_ok_iff (λ u, u ≠ c ∧ ready s u)); [intros u; split; [tauto | intros; split; [by intros -> | done]] |].
    apply remove_q; [apply (so_th s Hok) | apply (so_th s Hok); by rewrite Hr | apply Hok]. }
  split; [|done]. destruct R1 as (_ & R2 & R3 & _). destruct Hok as [_ Hth Hrun Hcur Hs1 Hs2 Hs3 Hd1 Hd2 Hns]. split.
  - refine (q_ok_iff _ _ _ _ Hq). intros u. unfold ready. by rewrite Es.
  - intros u. by rewrite Es.
  - intros u. rewrite Es. change (rt_current_thread s') with (rt_current_thread (rt_sched_remove_thread c s)). rewrite R3. apply Hrun.
  - intros u. change (rt_current_thread s') with (rt_current_thread (rt_sched_remove_thread c s)). rewrite R3. unfold ready. rewrite Es. apply Hcur.
  - intros l u. rewrite Ek, Es. apply Hs1.
  - intros l k u. rewrite !Ek. apply Hs2.
  - intros l. by rewrite Ek.
  - intros u. rewrite Ed, Es. apply Hd1.
  - by rewrite Ed.
  - change (rt_scheduler_lock_nest s') with (rt_scheduler_lock_nest (rt_sched_remove_thread c s)). by rewrite R2.
Qed.

Lemma schedule_spec s c :
  rt_current_thread s = Some c → sched_ok s →
  ∃ s', rt_schedule s = Some s' ∧ sched_ok s' ∧ (if rt_scheduler_lock_nest s =? 0 then scheduled s c s' else s' = s).
Proof.
  intros Hc Hok. unfold rt_schedule. destruct (Z.eqb_spec (rt_scheduler_lock_nest s) 0) as [_ | Hn]; cbn [negb]; [|by exists s].
  destruct (ready_dec s) as [[t0 H0] | Hn].
  2:{ rewrite (group_empty _ _ (so_q s Hok) Hn). exists s. split_and!; [done | done | by constructor]. }
  destruct (highest_spec _ _ _ (so_q s Hok) H0) as (t & p & l & -> & El & Hg & Hr & Hp & Hmin).
  rewrite (proj2 (Z.eqb_neq _ _) Hg), Hc. cbn [mbind option_bind].
  assert (Hne : t ≠ c) by (intros ->; by destruct (so_cur s Hok c Hc)).
  fold (running s c). set (b := (s_prio (st s c) <? p) || _). assert (Eb : stays s c p = running s c && b) by done.
  destruct (running s c && b) eqn:E.
  - apply andb_prop in E as [Er _]. rewrite decide_True by done. destruct (stay_ok s c Hc Er Hok) as (Hok' & E1 & E2 & E3 & E4 & (E5 & E6 & E7 & _)).
    eexists. split; [done |]. split; [done |]. eapply scheduled_same; try done. cbn [rt_current_thread upd_st]. exact (eq_trans E7 Hc).
  - rewrite decide_False by done. assert (Er : running s c && negb b = running s c) by (destruct (running s c), b; done).
    exists (switch s c t (u8 p)). split; [unfold switch; by rewrite Er |].
    split; [by apply switch_ok |]. eapply scheduled_switch; try done. by apply switch_spec.
Qed.
