(* ===== verification/SchedRun.v ===== *)
(** Runs of the scheduler: threads and interrupts act in any order, one critical section at a
    time. The theorems say that the invariant holds throughout, which thread the scheduler
    picks, and that threads of the same priority take turns. *)

From S2P Require Import Prelude.
From S2P Require Import RtDef.
From S2P Require Import Kernel.
From S2P Require Import Timer.
From S2P Require Import Sched.
From S2P Require Import SchedInv.
Open Scope Z_scope.

#[local] Arguments list_remove : simpl never.

(** * The machine *)

(** The critical sections of the calls of [Sched], and the rounds of the check of the hard
    timers in the tick interrupt. Suspending, and setting and starting the timer, are done by
    the running thread to itself. *)
Inductive sched_op : Type :=
  | SInit (t : nat) (priority tick : Z)
  | SStartup (t : nat)
  | SStart
  | SResume (t : nat)
  | SReady (t : nat)
  | SSuspend (l : option nat) (ipc_flags suspend_flag : Z)
  | SSetTime (tick : Z)
  | SStartTimer
  | SSchedule
  | SEnter
  | SExit
  | SYield
  | SPrio (t : nat) (priority : Z)
  | SClose (t : nat)
  | SDefunct (t : nat)
  | SReap
  | SSlice
  | STick
  | SBegin
  | STimeout (t : nat)
  | SEnd (t : nat).

Definition sched_exec (s : ssys) (o : sched_op) : option ssys :=
  match o with
  | SInit t priority tick => rt_thread_init t priority tick s
  | SStartup t => snd <$> rt_thread_startup t s
  | SStart => rt_system_scheduler_start s
  | SResume t => snd <$> rt_thread_resume t s
  | SReady t => Some (rt_sched_thread_ready t s).2
  | SSuspend l ipc_flags suspend_flag => t ← rt_current_thread s; snd <$> rt_thread_suspend_to_list t l ipc_flags suspend_flag s
  | SSetTime tick =>
      t ← rt_current_thread s;
      '(_, _, x) ← rt_timer_control t RT_TIMER_CTRL_SET_TIME tick (sc_tm s);
      Some (set_tm x s)
  | SStartTimer => t ← rt_current_thread s; Some (thread_timer_start t s).2
  | SSchedule => rt_schedule s
  | SEnter => Some (rt_enter_critical s).2
  | SExit => rt_exit_critical s
  | SYield => rt_thread_yield s
  | SPrio t priority => rt_sched_thread_change_priority t priority s
  | SClose t =>
      let status := rt_sched_thread_get_stat t s in
      if status =? RT_THREAD_CLOSE then Some s
      else Some (thread_close t (if status =? RT_THREAD_INIT then s else rt_sched_remove_thread t s))
  | SDefunct t => Some (rt_thread_defunct_enqueue t s)
  | SReap => Some (rt_thread_defunct_dequeue s).2
  | SSlice => rt_sched_tick_increase s
  | STick => Some (set_tm (tick_add (sc_tm s)) s)
  | SBegin => Some (set_tm (check_begin false (sc_tm s)).2 s)
  | STimeout t => _thread_timeout t s
  | SEnd t => Some (set_tm (check_end false t (sc_tm s)) s)
  end.

Definition initialised (s : ssys) (t : nat) : Prop := s_init_tick (st s t) ≠ 0.

(** A thread is initialised when it is new or was reaped. A timeout handler can run at any
    time, whatever its thread does. *)
Definition sched_enabled (s : ssys) (o : sched_op) : Prop :=
  match o with
  | SInit t priority tick =>
      (state_of (st s t) = RT_THREAD_INIT ∨ state_of (st s t) = RT_THREAD_CLOSE)
      ∧ rt_current_thread s ≠ Some t ∧ t ∉ _rt_thread_defunct s
      ∧ 0 ≤ priority < RT_THREAD_PRIORITY_MAX ∧ 0 < tick ≤ RT_TICK_MAX
  | SStartup t => state_of (st s t) = RT_THREAD_INIT ∧ initialised s t
  | SStart => rt_current_thread s = None ∧ rt_thread_ready_priority_group s ≠ 0
  | SSuspend l ipc_flags suspend_flag =>
      is_Some (rt_current_thread s) ∧ (ipc_flags = RT_IPC_FLAG_FIFO ∨ ipc_flags = RT_IPC_FLAG_PRIO) ∧ 0 ≤ suspend_flag ≤ 2
  | SSetTime tick => is_Some (rt_current_thread s) ∧ 0 ≤ tick < RT_TICK_MAX / 2
  | SStartTimer | SSchedule | SYield | SSlice => is_Some (rt_current_thread s)
  | SEnter => rt_scheduler_lock_nest s < 32767
  | SExit => 0 < rt_scheduler_lock_nest s
  | SPrio t priority => 0 ≤ priority < RT_THREAD_PRIORITY_MAX
  | SClose t => initialised s t
  | SDefunct t => state_of (st s t) = RT_THREAD_CLOSE ∧ t ∉ _rt_thread_defunct s
  | SResume _ | SReady _ | SReap | STick | SBegin | STimeout _ | SEnd _ => True
  end.

Inductive sched_run : ssys → list sched_op → ssys → Prop :=
  | srun_nil s : sched_run s [] s
  | srun_step s o s' ops s'' : sched_enabled s o → sched_exec s o = Some s' → sched_run s' ops s'' → sched_run s (o :: ops) s''.

Definition sched_boot (n : Z) : ssys := mk_ss (mk_tsys n ∅ [] [] [] [] 0 0) ∅ ∅ 0 0 None 0 ∅ [].

Lemma sched_boot_ok n : sched_ok (sched_boot n).
Proof.
  split; try done; try by intros l; constructor.
  - split; try done; try by intros p; constructor.
    + intros p t. split; [by intros ?%elem_of_nil | by intros [? _]].
    + intros p Hp. apply Z.bits_0.
  - intros t. split; [done | done | by left].
  - intros l t ?%elem_of_nil. done.
  - intros l k t ?%elem_of_nil. done.
  - intros t ?%elem_of_nil. done.
  - apply NoDup_nil_2.
Qed.

(** * Every step keeps the invariant *)

Definition rescheduled (s s' : ssys) : Prop :=
  match rt_current_thread s with
  | Some c => if rt_scheduler_lock_nest s =? 0 then scheduled s c s' else s' = s
  | None => s' = s
  end.

Lemma resched_ok s : sched_ok s → ∃ s', rt_sched_unlock_n_resched s = Some s' ∧ sched_ok s' ∧ rescheduled s s'.
Proof.
  intros Hok. unfold rt_sched_unlock_n_resched, rescheduled. destruct (rt_current_thread s) as [c|] eqn:Hc; [|by exists s].
  by apply schedule_spec.
Qed.

Definition step_ok (s : ssys) (o : sched_op) : Prop := ∃ s', sched_exec s o = Some s' ∧ sched_ok s'.

(** Changes of the fields that no list depends on. *)
Lemma field_ok s t f :
  (∀ x, s_prio (f x) = s_prio x ∧ s_mask (f x) = s_mask x ∧ s_init_tick (f x) = s_init_tick x ∧ s_left (f x) = s_left x ∧ state_of (f x) = state_of x) →
  sched_ok s → sched_ok (upd_st t f s).
Proof.
  intros Hf Hok. destruct (Hf (st s t)) as (E1 & E2 & E3 & E4 & E5). apply sched_ok_upd; [|done | done | done].
  by apply (th_ok_state (st s t)); [..| apply (so_th s Hok)].
Qed.

Lemma timer_stop_ok s t : sched_ok s → sched_ok (rt_sched_thread_timer_stop t s).2.
Proof.
  intros Hok. unfold rt_sched_thread_timer_stop. destruct (s_ttmr (st s t)); [|done]. destruct (Timer.rt_timer_stop t (sc_tm s)).
  by apply field_ok, sched_ok_tm.
Qed.

Lemma timer_stop_st s t u : state_of (st (rt_sched_thread_timer_stop t s).2 u) = state_of (st s u).
Proof.
  unfold rt_sched_thread_timer_stop. destruct (s_ttmr (st s t)); [|done]. destruct (Timer.rt_timer_stop t (sc_tm s)).
  cbn [snd]. rewrite st_upd. by case_decide; [subst |].
Qed.

Lemma thread_ready_ok s t : sched_ok s → sched_ok (rt_sched_thread_ready t s).2.
Proof.
  intros Hok. unfold rt_sched_thread_ready, rt_sched_thread_is_suspended. destruct (is_suspended (st s t)) eqn:Hs; [|done]. cbn [negb].
  assert (H : sched_ok (if s_ttmr (st s t) then rt_sched_thread_timer_stop t s else (RT_EOK, s)).2
    ∧ is_suspended (st (if s_ttmr (st s t) then rt_sched_thread_timer_stop t s else (RT_EOK, s)).2 t) = true).
  { destruct (s_ttmr (st s t)); [|done]. split; [by apply timer_stop_ok |]. by rewrite suspended_state, timer_stop_st, <-suspended_state. }
  destruct (if s_ttmr (st s t) then _ else _) as [error s1]. destruct H as [H1 H2]. destruct (error =? 0); [by apply wake_ok | done].
Qed.

Lemma thread_resume_ok s t :
  sched_ok s → ∃ e s', rt_thread_resume t s = Some (e, s') ∧ sched_ok s'
    ∧ (s' = (rt_sched_thread_ready t s).2 ∧ (rt_sched_thread_ready t s).1 ≠ 0 ∨ rescheduled (rt_sched_thread_ready t s).2 s').
Proof.
  intros Hok. pose proof (thread_ready_ok s t Hok) as H1. unfold rt_thread_resume. destruct (rt_sched_thread_ready t s) as [error s1]. cbn [fst snd] in *.
  destruct (Z.eqb_spec error 0) as [_ | Hne]; [|by exists error, s1; auto]. destruct (resched_ok s1 H1) as (s2 & -> & H2 & H3). by exists RT_EOK, s2; auto.
Qed.

Lemma init_ok s t priority tick : sched_enabled s (SInit t priority tick) → sched_ok s → step_ok s (SInit t priority tick).
Proof.
  intros (Hst & Hc & Hd & Hp & Ht) Hok. unfold step_ok. cbn [sched_exec]. unfold rt_thread_init, _thread_init, rt_sched_thread_init_ctx, rt_sched_thread_init_priv.
  rewrite (proj2 (Z.eqb_neq _ _)), (proj2 (Z.ltb_lt _ _)) by lia. cbn [mbind option_bind]. set (g := λ x, mk_st _ _ _ _ _ _ _ _).
  set (s1 := upd_st t (set_stat (λ _, RT_THREAD_INIT)) s).
  assert (Hl : ∀ l, t ∉ susp s l) by (intros l Hl%(so_susp s Hok); rewrite suspended_state in Hl; destruct Hst as [E | E]; by rewrite E in Hl).
  assert (Hr : ¬ ready s t) by (unfold ready; destruct Hst as [E | E]; by rewrite E).
  assert (H1 : sched_ok s1).
  { apply sched_ok_outside; try done. destruct (so_th s Hok t) as [Ho1 Ho2 Ho3]. split; [done | done |]. destruct Ho3 as [[? _] | ?]; [by left | by right]. }
  assert (H2 : sched_ok (upd_st t g s1)).
  { assert (E1 : st s1 t = set_stat (λ _, RT_THREAD_INIT) (st s t)) by apply st_upd_eq.
    apply sched_ok_outside; rewrite ?E1; try done.
    - unfold ready. by rewrite E1.
    - split; [done | done |]. right. cbn. lia. }
  unfold rt_timer_init. cbn [mbind option_bind]. change (0 <? RT_TICK_MAX / 2) with true. eexists. split; [done |]. by apply sched_ok_tm, field_ok.
Qed.

Lemma startup_susp_ok s t : sched_enabled s (SStartup t) → sched_ok s → sched_ok (rt_sched_thread_startup t s).
Proof.
  intros [Hst Hin] Hok. apply sched_ok_outside; try done.
  - unfold ready. by rewrite Hst.
  - intros l Hl%(so_susp s Hok). by rewrite suspended_state, Hst in Hl.
  - intros Hd%(so_dead s Hok). by rewrite Hst in Hd.
  - destruct (so_th s Hok t) as [Ho1 Ho2 Ho3]. split; [done | |].
    + intros _. cbn. rewrite Z.shiftl_1_l. done.
    + destruct Ho3 as [[? _] | ?]; [done | by right].
Qed.

Lemma startup_ok s t : sched_enabled s (SStartup t) → sched_ok s → step_ok s (SStartup t).
Proof.
  intros Hen Hok. unfold step_ok. cbn [sched_exec]. unfold rt_thread_startup, rt_sched_thread_get_stat. rewrite (proj1 Hen). cbn [negb Z.eqb].
  destruct (thread_resume_ok _ t (startup_susp_ok s t Hen Hok)) as (e & s' & E & H2 & _). rewrite E. cbn. eauto.
Qed.

Lemma sched_start_ok s : sched_enabled s SStart → sched_ok s → step_ok s SStart.
Proof.
  intros [Hc Hg] Hok. unfold step_ok. cbn [sched_exec]. unfold rt_system_scheduler_start.
  destruct (ready_dec s) as [[t0 H0] | Hn]; [|by rewrite (group_empty _ _ (so_q s Hok) Hn) in Hg].
  destruct (highest_spec _ _ _ (so_q s Hok) H0) as (t & p & l & -> & _ & _ & Hr & _). cbn [mbind option_bind]. clear p l t0 H0.
  destruct (ready_off s t Hr Hok) as [Hl Hd]. set (f := set_stat (λ _, RT_THREAD_RUNNING)). set (s1 := set_current t s).
  destruct (remove_rest t s1) as ((_ & En & Ec & _) & Est & Esu & Edf & _). eexists. split; [done |].
  assert (Es : ∀ u, st (rt_sched_remove_thread t s1) u = st s u) by (intros; unfold st; by rewrite Est).
  assert (El : ∀ k, susp (rt_sched_remove_thread t s1) k = susp s k).
  { intros k. transitivity (susp (node_remove t s1) k); [unfold susp; by rewrite Esu |]. rewrite susp_remove. by apply list_remove_notin. }
  rewrite (list_remove_notin _ _ Hd : list_remove (_rt_thread_defunct s1) t = _) in Edf. unfold ready in Hr.
  assert (Ht : th_ok (f (st s t))).
  { apply (th_ok_state (enter_state RT_THREAD_RUNNING (st s t))); [done.. | by rewrite state_enter |].
    apply th_ok_enter; [done | by rewrite Hr | apply (so_th s Hok)]. }
  assert (E : ∀ u, u ≠ t → st (upd_st t f (rt_sched_remove_thread t s1)) u = st s u) by (intros u Hu; by rewrite st_upd_ne, Es).
  assert (E1 : st (upd_st t f (rt_sched_remove_thread t s1)) t = f (st s t)) by (by rewrite st_upd_eq, Es).
  assert (Hq : q_ok (λ u, u ≠ t ∧ ready s u) (upd_st t f (rt_sched_remove_thread t s1))).
  { apply q_ok_upd; [tauto |]. apply remove_q; [apply (so_th s Hok t) | apply (so_th s Hok t); by rewrite Hr |].
    by apply (q_ok_ext _ s); [..| apply Hok]. }
  destruct Hok as [_ Hth Hrun Hcur Hs1 Hs2 Hs3 Hd1 Hd2 Hn]. split.
  - refine (q_ok_iff _ _ _ _ Hq). intros u. unfold ready. destruct (decide (u = t)) as [-> | Hu]; [rewrite E1; by split; [tauto |] | rewrite E by done; tauto].
  - intros u. destruct (decide (u = t)) as [-> | Hu]; [by rewrite E1 | by rewrite E].
  - intros u Hu. change (rt_current_thread (rt_sched_remove_thread t s1) = Some u). rewrite Ec. destruct (decide (u = t)) as [-> | Hne]; [done |].
    rewrite E in Hu by done. apply Hrun in Hu. congruence.
  - intros u Hu. change (rt_current_thread (rt_sched_remove_thread t s1) = Some u) in Hu. rewrite Ec in Hu. injection Hu as <-. unfold ready. by rewrite E1.
  - intros k u Hu. change (u ∈ susp (rt_sched_remove_thread t s1) k) in Hu. rewrite El in Hu. rewrite E; [by apply (Hs1 k) |]. intros ->. by apply (Hl k).
  - intros k m u. change (susp (upd_st ?a ?b ?c)) with (susp c). rewrite !El. apply Hs2.
  - intros k. change (susp (upd_st ?a ?b ?c)) with (susp c). by rewrite El.
  - intros u Hu. change (u ∈ _rt_thread_defunct (rt_sched_remove_thread t s1)) in Hu. rewrite Edf in Hu. rewrite E; [by apply Hd1 |]. by intros ->.
  - change (_rt_thread_defunct (upd_st ?a ?b ?c)) with (_rt_thread_defunct c). by rewrite Edf.
  - change (rt_scheduler_lock_nest (upd_st ?a ?b ?c)) with (rt_scheduler_lock_nest c). by rewrite En.
Qed.

Lemma susp_add_ok s t l flags :
  flags = RT_IPC_FLAG_FIFO ∨ flags = RT_IPC_FLAG_PRIO → is_suspended (st s t) = true → (∀ k, t ∉ susp s k) → sched_ok s →
  sched_ok (set_susp_list l (rt_susp_list_enqueue (kthreads s) (susp s l) t flags) s).
Proof.
  intros Hf Ht Hn [[? ? ? ? ?] Hth Hrun Hcur Hs1 Hs2 Hs3 Hd1 Hd2 Hns].
  assert (Hin : ∀ k u, u ∈ susp (set_susp_list l (rt_susp_list_enqueue (kthreads s) (susp s l) t flags) s) k ↔ u = t ∧ k = l ∨ u ∈ susp s k).
  { intros k u. rewrite susp_set. case_decide as E; [subst; rewrite enqueue_elem by done; tauto |]. split; [by right | by intros [[-> ->] | ?]]. }
  split; [split |..]; try done.
  - intros k u [[-> _] | Hu]%Hin; [done | by apply (Hs1 k)].
  - intros k m u [[-> ->] | Hu]%Hin [[Eu ->] | Hu']%Hin; [done | by apply Hn in Hu' | subst u; by apply Hn in Hu | by apply (Hs2 k m u)].
  - intros k. rewrite susp_set. case_decide; [|done]. by apply enqueue_NoDup.
Qed.

Lemma suspend_ok s l flags flag : sched_enabled s (SSuspend l flags flag) → sched_ok s → step_ok s (SSuspend l flags flag).
Proof.
  intros ([t Hc] & Hf & Hfl) Hok. unfold step_ok. cbn [sched_exec]. rewrite Hc. cbn [mbind option_bind]. unfold rt_thread_suspend_to_list, rt_sched_thread_get_stat.
  rewrite bool_decide_true by done. cbn [negb].
  destruct (negb (state_of (st s t) =? RT_THREAD_READY) && negb (state_of (st s t) =? RT_THREAD_RUNNING)) eqn:E; [by exists s |].
  assert (Hst : RT_THREAD_READY ≤ state_of (st s t)).
  { unfold RT_THREAD_READY, RT_THREAD_RUNNING in *. apply andb_false_iff in E as [E | E]; apply negb_false_iff, Z.eqb_eq in E; lia. }
  assert (∃ v, 4 ≤ v < 8 ∧ _thread_set_suspend_state t flag (rt_sched_remove_thread t s) = Some (upd_st t (enter_state v) (rt_sched_remove_thread t s))) as (v & Hv & ->).
  { unfold _thread_set_suspend_state. assert (flag = 0 ∨ flag = 1 ∨ flag = 2) as [-> | [-> | ->]] by lia; cbn; eexists; (split; [|done]); done. }
  cbn [mbind option_bind]. set (s1 := upd_st t _ _).
  destruct (remove_ok s t (enter_state v) Hst) as (H1 & Hl & _); try done; try (rewrite state_enter by lia; unfold RT_THREAD_READY, RT_THREAD_RUNNING, RT_THREAD_INIT; lia).
  { apply th_ok_enter; [unfold RT_THREAD_READY; lia | done | apply (so_th s Hok)]. }
  fold s1 in H1. eexists. split; [done |]. cbn [fmap option_fmap option_map snd]. apply timer_stop_ok. destruct l as [l|]; [|done].
  apply susp_add_ok; try done. unfold s1. rewrite suspended_state, st_upd_eq, state_enter by lia. apply Z.leb_le. lia.
Qed.

Lemma exit_ok s : sched_enabled s SExit → sched_ok s → ∃ s1 s', sched_exec s SExit = Some s' ∧ sched_ok s' ∧ s1 = set_nest (rt_scheduler_lock_nest s - 1) s ∧ (rt_scheduler_lock_nest s = 1 ∧ rescheduled s1 s' ∨ rt_scheduler_lock_nest s ≠ 1 ∧ s' = s1).
Proof.
  intros Hen Hok. cbn [sched_enabled] in Hen. pose proof (so_nest s Hok) as Hn. exists (set_nest (rt_scheduler_lock_nest s - 1) s). cbn [sched_exec]. unfold rt_exit_critical.
  assert (E : s16 (rt_scheduler_lock_nest s - 1) = rt_scheduler_lock_nest s - 1) by (unfold s16; rewrite Z.mod_small; lia).
  rewrite E. cbn [rt_scheduler_lock_nest set_nest]. assert (H1 : sched_ok (set_nest (rt_scheduler_lock_nest s - 1) s)) by (apply sched_ok_nest; [lia | done]).
  destruct (Z.leb_spec (rt_scheduler_lock_nest s - 1) 0) as [Hle | Hgt].
  - change (set_nest 0 (set_nest ?n s)) with (set_nest 0 s). assert (Hn1 : rt_scheduler_lock_nest s - 1 = 0) by lia. rewrite Hn1 in *.
    destruct (resched_ok _ H1) as (s' & -> & H2 & H3). exists s'. split_and!; [done | done | done |]. left. split; [lia | done].
  - eexists. split_and!; [done | done | done |]. right. split; [lia | done].
Qed.

Lemma yield_ok s t : state_of (st s t) ≠ RT_THREAD_INIT → sched_ok s → sched_ok (rt_sched_thread_yield t s).
Proof.
  intros Hst Hok. assert (E : ∀ x n, state_of (set_stat (λ f, Z.lor f RT_THREAD_STAT_YIELD) (set_left n x)) = state_of x) by (intros; apply state_lor_8).
  apply sched_ok_upd; [|done | apply E | done]. destruct (so_th s Hok t) as [H1 H2 H3]. split; rewrite ?E; try done.
  destruct H3 as [[_ ?] | H3]; [done |]. right. cbn. lia.
Qed.

Lemma prio_ok s t p : sched_enabled s (SPrio t p) → sched_ok s → step_ok s (SPrio t p).
Proof.
  intros Hp Hok. cbn in Hp. unfold step_ok. cbn [sched_exec]. unfold rt_sched_thread_change_priority, rt_sched_thread_get_stat.
  rewrite (proj2 (Z.ltb_lt _ _)) by lia. cbn [negb]. destruct (so_th s Hok t) as [H1 H2 H3].
  destruct (Z.eqb_spec (state_of (st s t)) RT_THREAD_READY) as [E | E]; (eexists; split; [done |]).
  - assert (Hc : rt_current_thread s ≠ Some t) by (intros Hc; by destruct (so_cur s Hok t Hc)).
    set (f := λ x, set_stat _ (set_sprio p (Z.shiftl 1 p) x)).
    assert (Hs : 0 < s_left (st s t) ≤ s_init_tick (st s t) ∧ s_init_tick (st s t) ≤ RT_TICK_MAX) by (destruct H3 as [[_ H3] | H3]; [by rewrite E in H3 | done]).
    destruct (remove_ok s t f) as (Hok' & Hl & Hd); try done; [by rewrite E | split; [done | done | by right] |].
    assert (E1 : st (upd_st t f (rt_sched_remove_thread t s)) t = f (st s t)).
    { rewrite st_upd_eq. f_equal. unfold st. by rewrite (proj1 (proj2 (remove_rest t s))). }
    apply insert_ok; try done; [unfold ready; by rewrite E1 |]. rewrite E1. split; [done | | by right]. intros _. apply Z.shiftl_1_l.
  - apply sched_ok_upd; try done. split; [done | | done]. intros _. apply Z.shiftl_1_l.
Qed.

Lemma thread_close_ok s t : sched_enabled s (SClose t) → sched_ok s → step_ok s (SClose t).
Proof.
  intros Hin Hok. cbn in Hin. unfold step_ok, thread_close. cbn [sched_exec]. unfold rt_sched_thread_get_stat.
  destruct (Z.eqb_spec (state_of (st s t)) RT_THREAD_CLOSE) as [_ | Ec]; [by exists s |]. eexists. split; [done |].
  set (f := set_stat (λ _, RT_THREAD_CLOSE)).
  assert (Ht : th_ok (f (st s t))).
  { destruct (so_th s Hok t) as [H1 H2 H3]. split; [done | done |]. destruct H3 as [[? _] | ?]; [done | by right]. }
  destruct (Z.eqb_spec (state_of (st s t)) RT_THREAD_INIT) as [E | E].
  - change (sched_ok (set_tm (rt_timer_detach t (sc_tm s)).2 (upd_st t f s))). apply sched_ok_tm. apply sched_ok_outside; try done.
    + unfold ready. by rewrite E.
    + intros l Hl%(so_susp s Hok). by rewrite suspended_state, E in Hl.
    + intros Hd%(so_dead s Hok). by rewrite E in Hd.
  - pose proof (state_range (st s t)). change (sched_ok (set_tm (rt_timer_detach t (sc_tm (rt_sched_remove_thread t s))).2 (upd_st t f (rt_sched_remove_thread t s)))).
    apply sched_ok_tm. apply (remove_ok s t f); try done. unfold RT_THREAD_READY, RT_THREAD_CLOSE, RT_THREAD_INIT in *. lia.
Qed.

Lemma defunct_ok s t : sched_enabled s (SDefunct t) → sched_ok s → step_ok s (SDefunct t).
Proof.
  intros [E Hn] [[? ? ? ? ?] ? ? ? ? ? ? Hd ? ?]. eexists. split; [done |]. split; [split |..]; try done.
  - intros u [-> | Hu]%elem_of_cons; [done | by apply Hd].
  - by constructor.
Qed.

Lemma reap_ok s : sched_ok s → step_ok s SReap.
Proof.
  intros Hok. unfold step_ok. cbn [sched_exec]. unfold rt_thread_defunct_dequeue. destruct (_rt_thread_defunct s) as [|t l] eqn:E; [by exists s |].
  eexists. split; [done |]. apply node_remove_ok; [|done]. unfold ready. rewrite (so_dead s Hok t); [done |]. rewrite E. by left.
Qed.

Lemma upd_st_twice t f g s : upd_st t f (upd_st t g s) = upd_st t (λ x, f (g x)) s.
Proof. unfold upd_st. cbn. f_equal. unfold st. cbn. by rewrite lookup_insert_eq, insert_insert_eq. Qed.

(** The tick of the running thread: its time goes on, or is used up and the thread yields. *)
Lemma slice_ok s c :
  rt_current_thread s = Some c → sched_ok s →
  ∃ s', sched_exec s SSlice = Some s' ∧ sched_ok s'
    ∧ (s_left (st s c) ≠ 1 ∧ s' = upd_st c (set_left (s_left (st s c) - 1)) s
       ∨ s_left (st s c) = 1 ∧ sched_ok (rt_sched_thread_yield c s) ∧ rescheduled (rt_sched_thread_yield c s) s').
Proof.
  intros Hc Hok. destruct (so_cur s Hok c Hc) as [_ Hi]. destruct (so_th s Hok c) as [H1 H2 [[_ H3] | H3]]; [done |].
  cbn [sched_exec]. unfold rt_sched_tick_increase. rewrite Hc. cbn [mbind option_bind].
  set (f := λ x, set_left (u32 (s_left x - 1)) x). assert (E : f (st s c) = set_left (s_left (st s c) - 1) (st s c)).
  { unfold f. rewrite u32_small; [done |]. unfold is_u32. unfold RT_TICK_MAX in H3. lia. }
  assert (Eu : upd_st c f s = upd_st c (set_left (s_left (st s c) - 1)) s) by (unfold upd_st; by rewrite E).
  rewrite Eu, st_upd_eq. cbn [s_left set_left]. destruct (Z.eqb_spec (s_left (st s c) - 1) 0) as [E0 | E0]; cbn [negb].
  - assert (Ey : rt_sched_thread_yield c (upd_st c (set_left (s_left (st s c) - 1)) s) = rt_sched_thread_yield c s).
    { unfold rt_sched_thread_yield. rewrite upd_st_twice. done. }
    rewrite Ey. pose proof (yield_ok s c Hi Hok) as Hy. destruct (resched_ok _ Hy) as (s' & -> & H4 & H5). exists s'. split_and!; [done | done |]. right. split; [lia | done].
  - eexists. split_and!; [done | | left; split; [lia | done]]. apply sched_ok_upd; try done. split; [done | done |]. right. cbn. lia.
Qed.

Lemma thread_timeout_ok s t :
  is_suspended (st s t) = true → sched_ok s →
  ∃ s1 s', _thread_timeout t s = Some s' ∧ sched_ok s'
    ∧ s1 = rt_sched_insert_thread t (node_remove t (upd_st t (set_serror (- RT_ETIMEOUT)) s)) ∧ sched_ok s1 ∧ rescheduled s1 s'.
Proof.
  intros Hs Hok. unfold _thread_timeout, rt_sched_thread_is_suspended. rewrite Hs. cbn [negb]. set (s1 := rt_sched_insert_thread _ _).
  assert (H1 : sched_ok s1) by (apply wake_ok; [by rewrite st_upd_eq | by apply field_ok]).
  destruct (resched_ok s1 H1) as (s' & E & H2 & H3). eauto 10.
Qed.

(** The assertion of [_thread_timeout] fails: its thread is not suspended. *)
Definition asserts (s : ssys) (o : sched_op) : Prop := ∃ t, o = STimeout t ∧ is_suspended (st s t) = false.

Lemma sched_step_ok s o : sched_enabled s o → sched_ok s → ¬ asserts s o → step_ok s o.
Proof.
  intros Hen Hok Has. destruct o.
  - by apply init_ok.
  - by apply startup_ok.
  - by apply sched_start_ok.
  - destruct (thread_resume_ok s t Hok) as (e & s' & E & H & _). exists s'. cbn. by rewrite E.
  - eexists. split; [done |]. by apply thread_ready_ok.
  - by apply suspend_ok.
  - destruct Hen as [[c Hc] Ht]. unfold step_ok. cbn [sched_exec]. rewrite Hc. cbn [mbind option_bind]. unfold rt_timer_control.
    cbn [Z.eqb RT_TIMER_CTRL_SET_TIME RT_TIMER_CTRL_GET_TIME]. rewrite (proj2 (Z.ltb_lt _ _)) by lia. cbn [mbind option_bind]. eexists. split; [done |]. by apply sched_ok_tm.
  - destruct Hen as [c Hc]. unfold step_ok. cbn [sched_exec]. rewrite Hc. eexists. split; [done |]. unfold thread_timer_start.
    destruct (Timer.rt_timer_start c _). by apply sched_ok_tm, field_ok.
  - destruct Hen as [c Hc]. destruct (schedule_spec s c Hc Hok) as (s' & E & H & _). by exists s'.
  - cbn in Hen. pose proof (so_nest s Hok). eexists. split; [done |]. apply sched_ok_nest; [|done]. unfold s16. rewrite Z.mod_small; lia.
  - destruct (exit_ok s Hen Hok) as (s1 & s' & E & H & _). by exists s'.
  - destruct Hen as [c Hc]. unfold step_ok. cbn [sched_exec]. unfold rt_thread_yield. rewrite Hc. cbn [mbind option_bind].
    destruct (resched_ok _ (yield_ok s c (proj2 (so_cur s Hok c Hc)) Hok)) as (s' & E & H & _). by exists s'.
  - by apply prio_ok.
  - by apply thread_close_ok.
  - by apply defunct_ok.
  - by apply reap_ok.
  - destruct Hen as [c Hc]. destruct (slice_ok s c Hc Hok) as (s' & E & H & _). by exists s'.
  - eexists. split; [done |]. by apply sched_ok_tm.
  - eexists. split; [done |]. by apply sched_ok_tm.
  - destruct (is_suspended (st s t)) eqn:Hs; [|by destruct Has; exists t].
    destruct (thread_timeout_ok s t Hs Hok) as (s1 & s' & E & H & _). by exists s'.
  - eexists. split; [done |]. by apply sched_ok_tm.
Qed.

Lemma asserts_none s o : asserts s o → sched_exec s o = None.
Proof. intros (t & -> & E). cbn [sched_exec]. unfold _thread_timeout, rt_sched_thread_is_suspended. by rewrite E. Qed.

Lemma sched_run_ok s ops s' : sched_ok s → sched_run s ops s' → sched_ok s'.
Proof.
  intros Hok Hrun. induction Hrun as [| s o s1 ops s' Hen Ex Hrun IH]; [done |]. apply IH.
  destruct (sched_step_ok s o Hen Hok) as (s2 & E & H); [intros Ha%asserts_none; congruence | congruence].
Qed.

(** * The thread that runs *)

(** No ready thread is more urgent than the one that runs. *)
Definition settled (s : ssys) : Prop :=
  rt_scheduler_lock_nest s = 0 → ∀ c t, rt_current_thread s = Some c → running s c = true → ready s t → s_prio (st s c) ≤ s_prio (st s t).

Lemma stays_prio s c p : running s c = true → (stays s c p = true → s_prio (st s c) ≤ p) ∧ (stays s c p = false → p ≤ s_prio (st s c)).
Proof.
  intros Hr. unfold stays. rewrite Hr. cbn [andb]. destruct (Z.ltb_spec (s_prio (st s c)) p), (Z.eqb_spec (s_prio (st s c)) p); cbn; split; intros; try done; lia.
Qed.

Lemma switched_state s c t s' u :
  switched s c t s' → rt_current_thread s = Some c → s_prio (st s' u) = s_prio (st s u)
  ∧ (ready s' u → u ≠ t ∧ (ready s u ∨ u = c ∧ running s c = true)).
Proof.
  intros [W1 W2 W3 W4 W5 W6 W7 W8 W9] Hc. unfold ready. destruct (decide (u = t)) as [-> | Hut].
  { rewrite W2. split; [done |]. by rewrite state_enter. }
  destruct (decide (u = c)) as [-> | Huc]; [rewrite W3 | rewrite W4 by done; auto].
  split; [by destruct (running s c) |]. rewrite state_unyield. destruct (running s c); auto.
Qed.

Lemma scheduled_top s c s' :
  rt_current_thread s = Some c → sched_ok s → scheduled s c s' →
  (∀ c' t, rt_current_thread s' = Some c' → ready s' t → s_prio (st s' c') ≤ s_prio (st s' t))
  ∧ (running s c = true ∨ (∃ t, ready s t) → ∃ c', rt_current_thread s' = Some c' ∧ running s' c' = true).
Proof.
  intros Hc Hok [Hn | s1 t p l El Hmin Hst Hc1 E1 E2 _ _ _ _ | s1 t p l El Hr Hp Hmin Hst Hsw].
  - split; [intros c' t _ Ht; by apply Hn in Ht |]. intros [Hr | [t Ht]]; [by exists c | by apply Hn in Ht].
  - assert (Hr : running s c = true) by (by apply andb_prop in Hst as [? _]). split.
    + intros c' u. rewrite Hc1. intros [= <-] Hu. unfold ready in Hu. rewrite E1 in Hu. rewrite !E1. apply (proj1 (stays_prio s c p Hr)) in Hst. specialize (Hmin u Hu). lia.
    + intros _. exists c. unfold running. by rewrite E1.
  - pose proof (switched_state s c t s1) as Hs. split.
    + intros c' u. rewrite (sw_cur _ _ _ _ Hsw). intros [= <-] Hu. destruct (Hs u Hsw Hc) as [Eu Hu']. destruct (Hs t Hsw Hc) as [Et _]. rewrite Eu, Et.
      destruct (Hu' Hu) as [_ [Hu2 | [-> Hrc]]]; [specialize (Hmin u Hu2); lia |]. apply (proj2 (stays_prio s c p Hrc)) in Hst. lia.
    + intros _. exists t. split; [apply Hsw |]. unfold running. by rewrite (sw_to _ _ _ _ Hsw), state_enter.
Qed.

Lemma rescheduled_settled s s' : sched_ok s → rescheduled s s' → settled s'.
Proof.
  unfold rescheduled. intros Hok H. destruct (rt_current_thread s) as [c|] eqn:Hc; [|subst; intros ? ? ? ?; congruence].
  destruct (Z.eqb_spec (rt_scheduler_lock_nest s) 0) as [_ | Hn]; [|subst; intros ?; done].
  intros _ c' t Hc' _ Ht. by apply (proj1 (scheduled_top s c s' Hc Hok H) c' t).
Qed.

(** The state of the threads is the same for the scheduler. *)
Definition same_sched (s s' : ssys) : Prop :=
  rt_current_thread s' = rt_current_thread s ∧ rt_scheduler_lock_nest s' = rt_scheduler_lock_nest s
  ∧ ∀ u, s_prio (st s' u) = s_prio (st s u) ∧ (ready s' u ↔ ready s u) ∧ running s' u = running s u.

#[export] Instance same_sched_preorder : PreOrder same_sched.
Proof.
  split; [done |]. intros a b c (E1 & E2 & E3) (F1 & F2 & F3). split_and!; [congruence.. |]. intros u. destruct (E3 u) as (? & ? & ?), (F3 u) as (? & ? & ?).
  split_and!; [congruence | tauto | congruence].
Qed.

Lemma same_sched_upd s t f : s_prio (f (st s t)) = s_prio (st s t) → (state_of (f (st s t)) = state_of (st s t)) → same_sched s (upd_st t f s).
Proof. intros Ep Es. split_and!; [done | done |]. intros u. unfold ready, running. rewrite st_upd. case_decide; [subst; by rewrite Ep, Es | done]. Qed.

Lemma ready_failed s t : (rt_sched_thread_ready t s).1 ≠ 0 → same_sched s (rt_sched_thread_ready t s).2.
Proof.
  unfold rt_sched_thread_ready. destruct (negb _); [done |].
  assert (H : same_sched s (if s_ttmr (st s t) then rt_sched_thread_timer_stop t s else (RT_EOK, s)).2).
  { unfold rt_sched_thread_timer_stop. destruct (s_ttmr (st s t)); [|done]. destruct (Timer.rt_timer_stop t (sc_tm s)). by apply (same_sched_upd (set_tm _ s)). }
  destruct (if s_ttmr (st s t) then _ else _) as [error s1]. destruct (Z.eqb_spec error 0); [done | by cbn in *].
Qed.

(** The operations that end with a scheduling. *)
Definition preempts (o : sched_op) : bool :=
  match o with SStartup _ | SResume _ | SSchedule | SExit | SYield | SSlice | STimeout _ => true | _ => false end.

(** The operations that schedule only if a thread was woken or a time slice has ended. *)
Definition may_defer (o : sched_op) : bool :=
  match o with SStartup _ | SResume _ | SSlice => true | _ => false end.

Lemma resume_settled s t e s' : sched_ok s → rt_thread_resume t s = Some (e, s') → settled s' ∨ same_sched s s'.
Proof.
  intros Hok E. destruct (thread_resume_ok s t Hok) as (e' & s2 & E' & _ & H). rewrite E' in E. injection E as -> ->.
  destruct H as [[-> Hf] | H]; [right; by apply ready_failed |]. left. by apply (rescheduled_settled _ _ (thread_ready_ok s t Hok) H).
Qed.

Lemma preempts_settled s o s' :
  preempts o = true → sched_enabled s o → sched_ok s → sched_exec s o = Some s' → settled s' ∨ may_defer o = true ∧ same_sched s s'.
Proof.
  intros Hp Hen Hok Ex. destruct o; try done; cbn [may_defer].
  - destruct Hen as [Hst Hin]. cbn [sched_exec] in Ex. unfold rt_thread_startup, rt_sched_thread_get_stat in Ex. rewrite Hst in Ex. cbn [negb Z.eqb] in Ex.
    assert (H1 : sched_ok (rt_sched_thread_startup t s)) by by apply startup_susp_ok.
    destruct (rt_thread_resume t (rt_sched_thread_startup t s)) as [[e s1]|] eqn:E; [|done]. cbn in Ex. injection Ex as <-.
    destruct (resume_settled _ _ _ _ H1 E) as [H | H]; [by left | right; split; [done |]].
    etrans; [|exact H]. split_and!; [done | done |]. intros u. unfold ready, running, rt_sched_thread_startup.
    rewrite st_upd. case_decide; [subst; by rewrite Hst | done].
  - cbn in Ex. destruct (rt_thread_resume t s) as [[e s1]|] eqn:E; [|done]. injection Ex as <-.
    destruct (resume_settled s t e s1 Hok E); auto.
  - left. destruct Hen as [c Hc]. destruct (schedule_spec s c Hc Hok) as (s2 & E & _ & H). cbn in Ex. rewrite Ex in E. injection E as <-.
    apply (rescheduled_settled s); [done |]. unfold rescheduled. by rewrite Hc.
  - left. destruct (exit_ok s Hen Hok) as (s1 & s2 & E & _ & -> & H). rewrite Ex in E. injection E as <-. pose proof (so_nest s Hok).
    destruct H as [[En H] | [En ->]]; [|intros Hn; cbn in Hn; lia]. apply (rescheduled_settled (set_nest (rt_scheduler_lock_nest s - 1) s)); [|done].
    cbn in Hen. apply sched_ok_nest; [lia | done].
  - left. destruct Hen as [c Hc]. cbn in Ex. unfold rt_thread_yield in Ex. rewrite Hc in Ex. cbn in Ex.
    pose proof (yield_ok s c (proj2 (so_cur s Hok c Hc)) Hok) as Hy. destruct (resched_ok _ Hy) as (s2 & E & _ & H). rewrite Ex in E. injection E as <-.
    by apply (rescheduled_settled _ _ Hy).
  - destruct Hen as [c Hc]. destruct (slice_ok s c Hc Hok) as (s2 & E & _ & H). rewrite Ex in E. injection E as <-.
    destruct H as [[_ ->] | (_ & Hy & H)]; [right; split; [done | by apply same_sched_upd] | left; by apply (rescheduled_settled _ _ Hy)].
  - left. destruct (is_suspended (st s t)) eqn:Hs.
    + destruct (thread_timeout_ok s t Hs Hok) as (s1 & s2 & E & _ & _ & H1 & H). cbn in Ex. rewrite Ex in E. injection E as <-. by apply (rescheduled_settled s1).
    + by rewrite asserts_none in Ex by (by exists t).
Qed.

(** * Taking turns *)

(** Ticks of the clock that only count the time slices. *)
Fixpoint slices (n : nat) (s : ssys) : option ssys :=
  match n with O => Some s | S n => s ← rt_sched_tick_increase s; slices n s end.

Lemma slices_app n m s s' : slices n s = Some s' → slices (n + m) s = slices m s'.
Proof.
  revert s. induction n as [|n IH]; intros s H; cbn [slices Nat.add] in *; [by simplify_eq |].
  destruct (rt_sched_tick_increase s) as [s1|]; [|done]. by apply IH.
Qed.

(** The most urgent threads: [c] runs, and the others of its priority are [l]. *)
Record top_level (s : ssys) (c : nat) (p : Z) (l : list nat) : Prop := {
  tl_ok : sched_ok s;
  tl_nest : rt_scheduler_lock_nest s = 0;
  tl_cur : rt_current_thread s = Some c;
  tl_run : running s c = true;
  tl_prio : s_prio (st s c) = p;
  tl_queue : queue s p = l;
  tl_top : ∀ u, ready s u → p ≤ s_prio (st s u)
}.

Lemma top_highest s c p t l : top_level s c p (t :: l) → ∀ p' t' l', queue s p' = t' :: l' → (∀ u, ready s u → p' ≤ s_prio (st s u)) → p' = p ∧ t' = t ∧ l' = l.
Proof.
  intros [Hok _ _ _ _ Hq Ht] p' t' l' El Hmin.
  assert (H1 : t ∈ queue s p) by (rewrite Hq; by left). assert (H2 : t' ∈ queue s p') by (rewrite El; by left).
  apply (qo_in _ _ (so_q s Hok)) in H1 as [R1 P1]. apply (qo_in _ _ (so_q s Hok)) in H2 as [R2 P2].
  assert (p' = p) as -> by (specialize (Hmin t R1); specialize (Ht t' R2); lia). rewrite Hq in El. by injection El as <- <-.
Qed.

Lemma yielded_lor x : yielded (set_stat (λ f, Z.lor f RT_THREAD_STAT_YIELD) x) = true.
Proof. rewrite yielded_bit. unfold set_stat. cbn [s_stat]. rewrite Z.lor_spec. apply orb_true_r. Qed.

(** The running thread has used up its time: the next one runs, and it goes to the end. *)
Lemma turn s c p t l :
  top_level s c p (t :: l) → s_left (st s c) = 1 →
  ∃ s', rt_sched_tick_increase s = Some s' ∧ top_level s' t p (l ++ [c]) ∧ ∀ u, u ≠ c → s_left (st s' u) = s_left (st s u).
Proof.
  intros Htop Hl. pose proof Htop as [Hok Hn Hc Hr Hp Hq Ht].
  destruct (slice_ok s c Hc Hok) as (s' & E & Hok' & [[? _] | (_ & Hy & H)]); [done |]. exists s'. split; [exact E |].
  set (s1 := rt_sched_thread_yield c s) in *.
  assert (Est : ∀ u, u ≠ c → st s1 u = st s u) by (intros u Hu; by apply st_upd_ne).
  assert (E1 : st s1 c = set_stat (λ f, Z.lor f RT_THREAD_STAT_YIELD) (set_left (s_init_tick (st s c)) (st s c))) by apply st_upd_eq.
  assert (Es : ∀ u, state_of (st s1 u) = state_of (st s u) ∧ s_prio (st s1 u) = s_prio (st s u)).
  { intros u. destruct (decide (u = c)) as [-> | Hu]; [rewrite E1 | by rewrite Est]. split; [apply state_lor_8 | done]. }
  assert (Hr1 : running s1 c = true) by (unfold running; by rewrite (proj1 (Es c))).
  assert (Htop1 : top_level s1 c p (t :: l)).
  { split; try done; [by rewrite (proj2 (Es c)) |]. intros u Hu. rewrite (proj2 (Es u)). apply Ht. unfold ready in *. by rewrite (proj1 (Es u)) in Hu. }
  unfold rescheduled in H. change (rt_current_thread s1) with (rt_current_thread s) in H. change (rt_scheduler_lock_nest s1) with (rt_scheduler_lock_nest s) in H.
  rewrite Hc, Hn in H. cbn [Z.eqb] in H. destruct (scheduled_top s1 c s' Hc Hy H) as [Hmin' _].
  assert (Hy1 : yielded (st s1 c) = true) by (rewrite E1; apply yielded_lor).
  destruct H as [Hno | s2 t' p' l' El Hmin Hst _ _ _ _ _ _ _ | s2 t' p' l' El Hrt Hpt Hmin Hst Hsw].
  - assert (t ∈ queue s p) as H1 by (rewrite Hq; by left). apply (qo_in _ _ (so_q s Hok)) in H1 as [H1 _]. exfalso. apply (Hno t). unfold ready. by rewrite (proj1 (Es t)).
  - destruct (top_highest _ _ _ _ _ Htop1 _ _ _ El Hmin) as (-> & _ & _). unfold stays in Hst. rewrite Hy1, Hr1, (proj2 (Es c)), Hp, Z.ltb_irrefl, andb_false_r in Hst. done.
  - destruct (top_highest _ _ _ _ _ Htop1 _ _ _ El Hmin) as (-> & -> & ->).
    assert (Hne : t ≠ c) by (intros ->; by destruct (so_cur s1 Hy c Hc)).
    pose proof (switched_state s1 c t s2 t Hsw Hc) as [Ept _]. rewrite (proj2 (Es t)) in *. split.
    + split; [done | by rewrite (sw_nest _ _ _ _ Hsw) | apply Hsw | | congruence | |].
      * unfold running. by rewrite (sw_to _ _ _ _ Hsw), state_enter.
      * rewrite (sw_queue _ _ _ _ Hsw). unfold requeue. rewrite Hr1, Hy1, (proj2 (Es c)), Hp, Z.eqb_refl. cbn [andb]. rewrite El.
        assert (Hnd : NoDup (queue s1 p)) by apply (qo_nodup _ _ (so_q s1 Hy)). rewrite El in Hnd. apply NoDup_cons in Hnd as [Hnd _].
        rewrite <-app_comm_cons, list_remove_head; [done |]. rewrite elem_of_app. intros [? | ?%list_elem_of_singleton]; congruence.
      * intros u Hu. specialize (Hmin' t u (sw_cur _ _ _ _ Hsw) Hu). lia.
    + intros u Hu. destruct (decide (u = t)) as [-> | Hut]; [rewrite (sw_to _ _ _ _ Hsw); cbn; by rewrite Est |]. by rewrite (sw_st _ _ _ _ Hsw), Est.
Qed.

(** A tick before the end of the time slice. *)
Lemma no_turn s c p l :
  top_level s c p l → s_left (st s c) ≠ 1 →
  ∃ s', rt_sched_tick_increase s = Some s' ∧ top_level s' c p l ∧ s_left (st s' c) = s_left (st s c) - 1
    ∧ ∀ u, u ≠ c → s_left (st s' u) = s_left (st s u).
Proof.
  intros [Hok Hn Hc Hr Hp Hq Ht] Hl. destruct (slice_ok s c Hc Hok) as (s' & E & Hok' & [[_ ->] | (? & _)]); [|done].
  eexists. split; [exact E |]. assert (Es : same_sched s (upd_st c (set_left (s_left (st s c) - 1)) s)) by by apply same_sched_upd. destruct Es as (_ & _ & Es).
  split_and!; [|by rewrite st_upd_eq | intros u Hu; by rewrite st_upd_ne].
  split; try done; [by rewrite (proj2 (proj2 (Es c))) | by rewrite (proj1 (Es c)) |]. intros u Hu%(proj1 (proj2 (Es u))). rewrite (proj1 (Es u)). by apply Ht.
Qed.

Lemma one_slice s c p t l :
  top_level s c p (t :: l) →
  ∃ s', slices (Z.to_nat (s_left (st s c))) s = Some s' ∧ top_level s' t p (l ++ [c]) ∧ ∀ u, u ≠ c → s_left (st s' u) = s_left (st s u).
Proof.
  intros Htop. assert (H0 : 0 < s_left (st s c)).
  { destruct Htop as [Hok _ Hc _ _ _ _]. destruct (so_th s Hok c) as [_ _ [[_ H] | ?]]; [|lia]. by destruct (so_cur s Hok c Hc). }
  destruct (Z_of_nat_complete (s_left (st s c)) ltac:(lia)) as [n En]. rewrite En, Nat2Z.id.
  revert s Htop H0 En. induction n as [|n IH]; intros s Htop H0 En; [lia |]. cbn [slices].
  destruct (decide (s_left (st s c) = 1)) as [E1 | E1].
  - assert (n = 0)%nat as -> by lia. destruct (turn s c p t l Htop E1) as (s' & -> & H1 & H2). by exists s'.
  - destruct (no_turn s c p (t :: l) Htop E1) as (s1 & -> & H1 & H2 & H3). cbn [mbind option_bind].
    destruct (IH s1 H1) as (s' & -> & H4 & H5); [lia | lia |]. exists s'. split_and!; [done | done |]. intros u Hu. by rewrite H5, H3.
Qed.

(** The ticks until the threads of [l] have used up their time. *)
Definition ticks_of (s : ssys) (l : list nat) : nat := sum_list_with (λ u, Z.to_nat (s_left (st s u))) l.

Lemma ticks_of_same s s' l : (∀ u, u ∈ l → s_left (st s' u) = s_left (st s u)) → ticks_of s' l = ticks_of s l.
Proof.
  unfold ticks_of. induction l as [|u l IH]; intros H; [done |]. cbn [sum_list_with]. rewrite IH, H; [done | by left | intros; apply H; by right].
Qed.

Lemma turns s c p l1 t l2 :
  top_level s c p (l1 ++ t :: l2) → ∃ s', slices (ticks_of s (c :: l1)) s = Some s' ∧ top_level s' t p (l2 ++ c :: l1).
Proof.
  revert s c l2. induction l1 as [|u l1 IH]; intros s c l2 Htop; cbn [app] in Htop.
  - destruct (one_slice s c p t l2 Htop) as (s' & E & H & _). exists s'. unfold ticks_of. cbn [sum_list_with]. by rewrite Nat.add_0_r.
  - destruct (one_slice s c p u _ Htop) as (s1 & E & H & Hl). rewrite <-app_assoc in H. destruct (IH s1 u (l2 ++ [c]) H) as (s' & E' & H').
    exists s'. rewrite <-app_assoc in H'. split; [|done]. change (ticks_of s (c :: u :: l1)) with (Z.to_nat (s_left (st s c)) + ticks_of s (u :: l1))%nat.
    rewrite (slices_app _ _ _ _ E), <-(ticks_of_same s s1); [done |]. intros v Hv. apply Hl. intros ->.
    destruct Htop as [Hok _ Hc _ _ Hq _]. assert (c ∈ queue s p) as Hin by (rewrite Hq; set_solver).
    apply (qo_in _ _ (so_q s Hok)) in Hin as [Hr _]. by destruct (so_cur s Hok c Hc).
Qed.

(** * The theorems *)

(** C24. In every run, threads and interrupts acting in any order and timeout handlers running at
    any time, every thread is in the place that its state says: a ready thread once in the queue
    of its priority, a waiting one in at most one list, a closed one at most in the list of closed
    threads, and the running one in none; the bitmap has exactly the bits of the queues in use.
    Every operation returns and keeps this, with one exception: the handler of a timeout whose
    thread is not suspended (any more) fails its assertion. *)
Theorem sched_well_formed (n : Z) (ops : list sched_op) (s : ssys) (Hrun : sched_run (sched_boot n) ops s) :
  sched_ok s
  ∧ ∀ o, sched_enabled s o →
      (∃ s', sched_exec s o = Some s' ∧ sched_ok s')
      ∨ ((∃ t, o = STimeout t ∧ is_suspended (st s t) = false) ∧ sched_exec s o = None).
Proof.
  assert (Hok : sched_ok s) by exact (sched_run_ok _ _ _ (sched_boot_ok n) Hrun). split; [done |]. intros o Ho.
  destruct (sched_exec s o) as [s'|] eqn:E.
  - left. destruct (sched_step_ok s o Ho Hok) as (s2 & E2 & H); [intros Ha%asserts_none; congruence |].
    rewrite E in E2. injection E2 as <-. eauto.
  - right. split; [|done]. destruct o as [| | | | | | | | | | | | | | | | | | | t |];
      try by (edestruct sched_step_ok as (s2 & E2 & _); [exact Ho | exact Hok | by intros (? & ? & _) | rewrite E in E2]).
    destruct (is_suspended (st s t)) eqn:Hs; [|eauto]. destruct (thread_timeout_ok s t Hs Hok) as (s1 & s' & E' & _). cbn in E. congruence.
Qed.

(** C16. In every reachable state [rt_schedule] does nothing while the scheduler is locked, and
    otherwise makes a most urgent thread run: the first one of the most urgent queue, or the
    running thread if it is more urgent, or if it is as urgent and is not marked as having yielded
    (the end of its time slice and [rt_thread_yield] set the mark, a switch clears it);
    [scheduled] says what becomes of the queues. After [rt_schedule], [rt_exit_critical],
    [rt_thread_yield] and a timeout, unless the scheduler is locked, no ready thread is more urgent
    than the running one; the same holds after a start, a resumption and the tick of a time
    slice, unless they woke no thread and ended no slice, when readiness, priorities and the running
    thread are as before. *)
Theorem sched_most_urgent (n : Z) (ops : list sched_op) (s : ssys) (c : nat)
    (Hrun : sched_run (sched_boot n) ops s) (Hc : rt_current_thread s = Some c) :
  (∃ s', rt_schedule s = Some s'
     ∧ (rt_scheduler_lock_nest s ≠ 0 → s' = s)
     ∧ (rt_scheduler_lock_nest s = 0 →
         scheduled s c s'
         ∧ (∀ c' t, rt_current_thread s' = Some c' → ready s' t → s_prio (st s' c') ≤ s_prio (st s' t))
         ∧ (running s c = true ∨ (∃ t, ready s t) → ∃ c', rt_current_thread s' = Some c' ∧ running s' c' = true)))
  ∧ ∀ o s', preempts o = true → sched_enabled s o → sched_exec s o = Some s' →
      settled s' ∨ (may_defer o = true ∧ same_sched s s').
Proof.
  pose proof (sched_run_ok _ _ _ (sched_boot_ok n) Hrun) as Hok. split.
  - destruct (schedule_spec s c Hc Hok) as (s' & -> & Hok' & H). exists s'. split; [done |].
    destruct (Z.eqb_spec (rt_scheduler_lock_nest s) 0) as [Hn | Hn]; [|by split; [|intros]]. split; [done |]. intros _. split; [done |]. by apply scheduled_top.
  - intros o s' Hp Ho Ex. by apply (preempts_settled s o s').
Qed.

(** C30. Threads of the same priority take turns. If the running thread [c] has the threads
    [l1], [t] and [l2] behind it in the most urgent queue, [t] runs exactly when [c] and the
    threads before it have used up their time, and the queue has turned by as many places. *)
Theorem sched_round_robin (n : Z) (ops : list sched_op) (s : ssys) (c t : nat) (l1 l2 : list nat)
    (Hrun : sched_run (sched_boot n) ops s) (Hn : rt_scheduler_lock_nest s = 0) (Hc : rt_current_thread s = Some c)
    (Hr : running s c = true) (Htop : ∀ u, ready s u → s_prio (st s c) ≤ s_prio (st s u))
    (Hq : queue s (s_prio (st s c)) = l1 ++ t :: l2) :
  ∃ s', slices (ticks_of s (c :: l1)) s = Some s' ∧ rt_current_thread s' = Some t ∧ running s' t = true
    ∧ queue s' (s_prio (st s c)) = l2 ++ c :: l1.
Proof.
  destruct (turns s c (s_prio (st s c)) l1 t l2) as (s' & E & [_ _ H1 H2 _ H3 _]); [|eauto].
  by split; [exact (sched_run_ok _ _ _ (sched_boot_ok n) Hrun) |..].
Qed.

(** ** Witnesses *)

#[export] Instance sched_enabled_dec s o : Decision (sched_enabled s o).
Proof. destruct o; cbn [sched_enabled]; unfold initialised; apply _. Defined.

(** The run of a list of operations. *)
Fixpoint sched_replay (s : ssys) (ops : list sched_op) : option ssys :=
  match ops with
  | [] => Some s
  | o :: ops => if bool_decide (sched_enabled s o) then s ← sched_exec s o; sched_replay s ops else None
  end.

Lemma sched_replay_run s ops s' : sched_replay s ops = Some s' → sched_run s ops s'.
Proof.
  revert s. induction ops as [|o ops IH]; intros s H; cbn [sched_replay] in H; [simplify_eq; constructor |].
  case_bool_decide as Hen; [|done]. destruct (sched_exec s o) as [s1|] eqn:Ex; [|done]. cbn in H. econstructor; eauto.
Qed.

(** The idle thread 0, and the threads 1, 2 and 3 of priority 10 with 5, 3 and 4 ticks. *)
Definition three_threads : list sched_op :=
  [SInit 0 31 32; SStartup 0; SInit 1 10 5; SStartup 1; SInit 2 10 3; SStartup 2; SInit 3 10 4; SStartup 3; SStart].

Definition three_state : ssys := default (sched_boot 0) (sched_replay (sched_boot 0) three_threads).

Lemma three_run : sched_run (sched_boot 0) three_threads three_state.
Proof. apply sched_replay_run. vm_compute. reflexivity. Qed.

Lemma sched_well_formed_witness : sched_ok three_state ∧ ∃ s', sched_exec three_state (SSuspend (Some 7%nat) 0 2) = Some s' ∧ sched_ok s'.
Proof.
  destruct (sched_well_formed 0 three_threads three_state three_run) as [H1 H2]. split; [exact H1 |].
  destruct (H2 (SSuspend (Some 7%nat) 0 2)) as [H | [(t & [=] & _) _]]; [|exact H]. vm_compute. split; [by exists 3%nat |]. by split; [left |].
Defined.

Lemma sched_most_urgent_witness :
  ∃ s', rt_schedule three_state = Some s' ∧ ∀ c' t, rt_current_thread s' = Some c' → ready s' t → s_prio (st s' c') ≤ s_prio (st s' t).
Proof.
  destruct (sched_most_urgent 0 three_threads three_state 3 three_run eq_refl) as [(s' & E & _ & H) _]. exists s'. split; [exact E |]. by apply H.
Defined.

Lemma sched_round_robin_witness :
  ∃ s', slices 7 three_state = Some s' ∧ rt_current_thread s' = Some 1%nat ∧ running s' 1 = true ∧ queue s' 10 = [3%nat; 2%nat].
Proof.
  apply (sched_round_robin 0 three_threads three_state 3 1 [2%nat] [] three_run eq_refl eq_refl eq_refl); [|reflexivity].
  intros u Hu. pose proof (so_th _ (sched_run_ok _ _ _ (sched_boot_ok 0) three_run) u) as Hth. unfold ready, st in *.
  assert (Hall : map_Forall (λ _ x, 10 ≤ s_prio x) (sc_th three_state)) by (apply (bool_decide_unpack _); vm_compute; exact I).
  destruct (sc_th three_state !! u) as [x|] eqn:E; [exact (Hall u x E) | done].
Defined.

(** ** Cases in which a thread is not scheduled as meant *)

(** A thread that yields while no other thread of its priority is ready keeps the mark that its
    time is used up: as soon as one becomes ready, for which it has all its time left, it is
    switched out. *)
Theorem sched_stale_yield :
  ∃ s, sched_run (sched_boot 0)
         [SInit 0 31 32; SStartup 0; SInit 2 10 3; SStartup 2; SStart; SSuspend None 0 2; SSchedule;
          SInit 1 10 5; SStartup 1; SYield; SResume 2] s
    ∧ rt_current_thread s = Some 2%nat ∧ s_left (st s 1) = s_init_tick (st s 1).
Proof. eexists. split; [apply sched_replay_run; vm_compute; reflexivity | vm_compute; done]. Qed.

(** Without the call of [rt_thread_yield] it goes on. *)
Theorem sched_no_yield :
  ∃ s, sched_run (sched_boot 0)
         [SInit 0 31 32; SStartup 0; SInit 2 10 3; SStartup 2; SStart; SSuspend None 0 2; SSchedule;
          SInit 1 10 5; SStartup 1; SResume 2] s
    ∧ rt_current_thread s = Some 1%nat.
Proof. eexists. split; [apply sched_replay_run; vm_compute; reflexivity | vm_compute; done]. Qed.

(** A thread object that is closed during a timed wait and initialised again cannot be started:
    the flag of its timer is left set, the wake-up of the start fails on the new timer, and
    [rt_thread_startup] returns success. *)
Theorem thread_restart_lost :
  ∃ s s', sched_run (sched_boot 0)
         [SInit 0 31 32; SStartup 0; SInit 1 10 5; SStartup 1; SStart; SSuspend None 0 0; SSetTime 100; SStartTimer; SSchedule;
          SClose 1; SDefunct 1; SReap; SInit 1 10 5] s
    ∧ rt_thread_startup 1 s = Some (RT_EOK, s') ∧ is_suspended (st s' 1) = true ∧ queue s' 10 = [].
Proof. eexists _, _. split; [apply sched_replay_run; vm_compute; reflexivity | vm_compute; done]. Qed.
