(* ===== verification/SchedKernel.v ===== *)
(** [Kernel] describes a thread by its priority, its error, whether it is suspended and the flags
    of its timer, which is what the models of the IPC objects work on. Its operations are those
    of [Sched], seen through these fields. *)

From S2P Require Import Prelude.
From S2P Require Import RtDef.
From S2P Require Import Kernel.
From S2P Require Import Timer.
From S2P Require Import TimerRun.
From S2P Require Import Sched.
From S2P Require Import SchedInv.
From S2P Require Import SchedRun.
Open Scope Z_scope.

#[local] Arguments list_remove : simpl never.

(** The threads of [ts] are those of [s]. *)
Definition kernel_of (ts : threads) (s : ssys) : Prop :=
  ∀ u, is_Some (sc_th s !! u) → th ts u = kview (st s u) (tm (sc_tm s) u).

Lemma kthreads_of s : kernel_of (kthreads s) s.
Proof.
  intros u [x Hx]. unfold th, kthreads, st. rewrite map_lookup_imap, Hx. done.
Qed.

(** One thread and its timer change. *)
Lemma kernel_of_upd ts s t x f z :
  kernel_of ts s → is_Some (sc_th s !! t) → (∀ u, u ≠ t → tm z u = tm (sc_tm s) u) → x = kview (f (st s t)) (tm z t) →
  kernel_of (upd ts t x) (upd_st t f (set_tm z s)).
Proof.
  intros Hk Ht Hz -> u Hu. rewrite th_upd, st_upd. change (st (set_tm z s)) with (st s). case_decide as E; [by subst |].
  change (sc_tm (upd_st t f (set_tm z s))) with z. rewrite Hz by congruence. apply Hk.
  destruct Hu as [y Hy]. unfold upd_st, set_tm in Hy. cbn in Hy. rewrite lookup_insert_ne in Hy by done. by exists y.
Qed.

Lemma stop_others t z u : u ≠ t → tm (Timer.rt_timer_stop t z).2 u = tm z u.
Proof. intros Hu. unfold Timer.rt_timer_stop. destruct (negb _); [done |]. cbn [snd]. by rewrite tm_upd, decide_False. Qed.

(** Stopping the timer of a thread. *)
Lemma timer_stop_refines ts s t :
  kernel_of ts s → is_Some (sc_th s !! t) →
  (Kernel.rt_sched_thread_timer_stop (th ts t)).1 = (Sched.rt_sched_thread_timer_stop t s).1
  ∧ kernel_of (upd ts t (Kernel.rt_sched_thread_timer_stop (th ts t)).2) (Sched.rt_sched_thread_timer_stop t s).2.
Proof.
  intros Hk Ht. rewrite (Hk t Ht). unfold Kernel.rt_sched_thread_timer_stop, Sched.rt_sched_thread_timer_stop. cbn [t_ttmr kview].
  destruct (s_ttmr (st s t)) eqn:Et.
  - pose proof (stop_others t (sc_tm s)) as Hz. destruct (proj1 (kernel_timer_refines (sc_tm s) t (kview (st s t) (tm (sc_tm s) t)) ltac:(done))) as [E [Va Vp]].
    destruct (Timer.rt_timer_stop t (sc_tm s)) as [e z]. cbn [fst snd] in *. unfold Kernel.rt_timer_stop in *. cbn [t_active kview] in *.
    destruct (flag_set (tm_flag (tm (sc_tm s) t)) RT_TIMER_FLAG_ACTIVATED); cbn [negb fst snd] in *; (split; [done |]);
      apply kernel_of_upd; try done; unfold kview, set_timer, active, processing in *; cbn in *; by rewrite <-Va, <-Vp.
  - split; [done |]. intros u Hu. rewrite th_upd. case_decide; [by subst | by apply Hk].
Qed.

(** A thread becomes ready: its view is no longer suspended, whether it joins a queue or goes on
    running. *)
Lemma insert_kernel ts s t :
  kernel_of ts s → is_Some (sc_th s !! t) → kernel_of (upd ts t (set_susp (th ts t) false)) (rt_sched_insert_thread t s).
Proof.
  intros Hk Ht. assert (H : ∀ v, 0 ≤ v < 4 → kernel_of (upd ts t (set_susp (th ts t) false)) (upd_st t (enter_state v) (set_tm (sc_tm s) s))).
  { intros v Hv. apply kernel_of_upd; try done. rewrite (Hk t Ht). unfold kview, set_susp. cbn. f_equal. rewrite suspended_state, state_enter by lia.
    symmetry. apply Z.leb_gt. lia. }
  unfold rt_sched_insert_thread. case_decide; [exact (H RT_THREAD_RUNNING ltac:(done)) |]. exact (H RT_THREAD_READY ltac:(done)).
Qed.

Lemma prio_insert_ext ts ts' l t : (∀ u, u ∈ t :: l → t_prio (th ts' u) = t_prio (th ts u)) → prio_insert ts' l t = prio_insert ts l t.
Proof.
  intros H. induction l as [|v l IH]; [done |]. cbn [prio_insert]. rewrite (H t), (H v), IH; [done | | set_solver | set_solver]. intros u Hu. apply H. set_solver.
Qed.

(** The threads that wait in a list exist. *)
Lemma waiting_exists s l u : sched_ok s → u ∈ susp s l → is_Some (sc_th s !! u).
Proof. intros Hok Hu%(so_susp s Hok). unfold st in Hu. by destruct (sc_th s !! u). Qed.

Lemma ready_timer ts s t l :
  kernel_of ts s → is_Some (sc_th s !! t) →
  (Kernel.rt_sched_thread_timer_stop (th ts t)).1 = (Sched.rt_sched_thread_timer_stop t s).1
  ∧ kernel_of (upd ts t (Kernel.rt_sched_thread_timer_stop (th ts t)).2) (Sched.rt_sched_thread_timer_stop t s).2
  ∧ susp (Sched.rt_sched_thread_timer_stop t s).2 l = susp s l ∧ is_Some (sc_th (Sched.rt_sched_thread_timer_stop t s).2 !! t).
Proof.
  intros Hk Ht. destruct (timer_stop_refines ts s t Hk Ht) as [H1 H2]. split_and!; [done | done | |].
  - unfold Sched.rt_sched_thread_timer_stop. destruct (s_ttmr (st s t)); [|done]. by destruct (Timer.rt_timer_stop t (sc_tm s)).
  - unfold Sched.rt_sched_thread_timer_stop. destruct (s_ttmr (st s t)); [|done]. destruct (Timer.rt_timer_stop t (sc_tm s)). cbn. rewrite lookup_insert_eq. done.
Qed.

Lemma suspend_refines ts s l t flags :
  sched_ok s → kernel_of ts s → is_Some (sc_th s !! t) → flags = RT_IPC_FLAG_FIFO ∨ flags = RT_IPC_FLAG_PRIO →
  rt_current_thread s = Some t → state_of (st s t) = RT_THREAD_RUNNING →
  let '(e, ts', l') := Kernel.rt_thread_suspend_to_list ts (susp s l) t flags in
  ∃ s', Sched.rt_thread_suspend_to_list t (Some l) flags RT_UNINTERRUPTIBLE s = Some (e, s') ∧ kernel_of ts' s' ∧ susp s' l = l'.
Proof.
  intros Hok Hk Ht Hf Hc Er. unfold Kernel.rt_thread_suspend_to_list, Sched.rt_thread_suspend_to_list, rt_sched_thread_get_stat. rewrite (Hk t Ht). cbn [t_susp kview].
  rewrite suspended_state, Er, bool_decide_true by done. cbn [negb andb Z.eqb Z.leb RT_THREAD_READY RT_THREAD_RUNNING Z.compare Pos.compare Pos.compare_cont Pos.eqb].
  unfold _thread_set_suspend_state. cbn [RT_UNINTERRUPTIBLE RT_INTERRUPTIBLE RT_KILLABLE Z.eqb Pos.eqb mbind option_bind].
  rewrite <-(Hk t Ht). destruct (remove_rest t s) as ((R1 & _ & _ & _) & R4 & R5 & _). set (s0 := rt_sched_remove_thread t s) in *. set (s1 := upd_st t _ s0).
  assert (Hk0 : kernel_of ts s0).
  { intros u Hu. rewrite R4 in Hu. rewrite (Hk u Hu), R1. unfold st. by rewrite R4. }
  assert (Hk1 : kernel_of (upd ts t (set_susp (th ts t) true)) s1).
  { assert (kernel_of (upd ts t (set_susp (th ts t) true)) (upd_st t (enter_state RT_THREAD_SUSPEND_UNINTERRUPTIBLE) (set_tm (sc_tm s0) s0))) as H; [|exact H].
    apply kernel_of_upd; [done | by rewrite R4 | done |]. rewrite (Hk0 t) by by rewrite R4. unfold kview, set_susp. cbn. f_equal. by rewrite suspended_state, state_enter. }
  assert (Hn : t ∉ susp s l) by (intros Hin%(so_susp s Hok); by rewrite suspended_state, Er in Hin).
  assert (El : susp s1 l = susp s l).
  { transitivity (susp (node_remove t s) l); [unfold susp; cbn [s1 upd_st susp_lists]; by rewrite R5 |]. rewrite susp_remove. by apply list_remove_notin. }
  assert (Eq : rt_susp_list_enqueue (kthreads s1) (susp s1 l) t flags = rt_susp_list_enqueue (upd ts t (set_susp (th ts t) true)) (susp s l) t flags).
  { rewrite El. unfold rt_susp_list_enqueue. destruct Hf as [-> | ->]; [done |]. cbn [Z.eqb RT_IPC_FLAG_PRIO RT_IPC_FLAG_FIFO Pos.eqb]. apply prio_insert_ext.
    intros u Hu. assert (Hx : is_Some (sc_th s1 !! u)).
    { cbn [s1 upd_st sc_th]. rewrite lookup_insert_is_Some'. destruct (decide (t = u)) as [-> | Hne]; [by left |]. right. rewrite R4.
      apply elem_of_cons in Hu as [-> | Hu]; [done | by apply (waiting_exists s l)]. }
    by rewrite (kthreads_of s1 u Hx), (Hk1 u Hx). }
  rewrite Eq. set (q := rt_susp_list_enqueue _ _ _ _). set (s2 := set_susp_list l q s1).
  assert (Hx1 : is_Some (sc_th s2 !! t)) by (cbn [s2 set_susp_list sc_th s1 upd_st]; by rewrite lookup_insert_eq).
  destruct (ready_timer _ s2 t l (Hk1 : kernel_of _ s2) Hx1) as (_ & H2 & H3 & _).
  eexists. split; [done |]. split; [exact H2 |]. rewrite H3. unfold s2. by rewrite susp_set, decide_True.
Qed.

(** What the IPC objects do to threads and lists through [Kernel] is what the scheduler does.
    Making a thread of the list [l] ready has the same result, the same effect on the fields and
    on the list; so has suspending the running thread to a list. *)
Theorem kernel_sched_refines (ts : threads) (s : ssys) (l t : nat) (Hok : sched_ok s) (Hk : kernel_of ts s) (Ht : is_Some (sc_th s !! t)) :
  (let '(e, ts', l') := Kernel.rt_sched_thread_ready ts (susp s l) t in
   let '(e', s') := Sched.rt_sched_thread_ready t s in e' = e ∧ kernel_of ts' s' ∧ susp s' l = l')
  ∧ (∀ flags, flags = RT_IPC_FLAG_FIFO ∨ flags = RT_IPC_FLAG_PRIO → rt_current_thread s = Some t → running s t = true →
     let '(e, ts', l') := Kernel.rt_thread_suspend_to_list ts (susp s l) t flags in
     ∃ s', Sched.rt_thread_suspend_to_list t (Some l) flags RT_UNINTERRUPTIBLE s = Some (e, s') ∧ kernel_of ts' s' ∧ susp s' l = l').
Proof.
  split.
  - unfold Kernel.rt_sched_thread_ready, Sched.rt_sched_thread_ready, rt_sched_thread_is_suspended. rewrite (Hk t Ht). cbn [t_susp t_ttmr kview].
    destruct (is_suspended (st s t)); cbn [negb]; [|done]. rewrite <-(Hk t Ht).
    assert (H : (if s_ttmr (st s t) then Kernel.rt_sched_thread_timer_stop (th ts t) else (RT_EOK, th ts t)).1
                = (if s_ttmr (st s t) then Sched.rt_sched_thread_timer_stop t s else (RT_EOK, s)).1
      ∧ kernel_of (upd ts t (if s_ttmr (st s t) then Kernel.rt_sched_thread_timer_stop (th ts t) else (RT_EOK, th ts t)).2)
                  (if s_ttmr (st s t) then Sched.rt_sched_thread_timer_stop t s else (RT_EOK, s)).2
      ∧ susp (if s_ttmr (st s t) then Sched.rt_sched_thread_timer_stop t s else (RT_EOK, s)).2 l = susp s l
      ∧ is_Some (sc_th (if s_ttmr (st s t) then Sched.rt_sched_thread_timer_stop t s else (RT_EOK, s)).2 !! t)).
    { destruct (s_ttmr (st s t)); [by apply ready_timer |]. split_and!; [done | | done | done]. intros u Hu. cbn [snd]. rewrite th_upd. case_decide; [subst; by apply Hk | by apply Hk]. }
    destruct (if s_ttmr (st s t) then Kernel.rt_sched_thread_timer_stop (th ts t) else _) as [e x],
      (if s_ttmr (st s t) then Sched.rt_sched_thread_timer_stop t s else _) as [e' s1]. cbn [fst snd] in H. destruct H as (-> & H1 & H2 & H3).
    destruct (e' =? 0); [|done]. split; [done |]. split.
    + pose proof (insert_kernel _ (node_remove t s1) t H1 H3) as H4. rewrite th_upd_eq in H4. intros u Hu. specialize (H4 u Hu). rewrite <-H4. unfold th, upd. by rewrite insert_insert_eq.
    + unfold susp. rewrite (proj1 (proj2 (insert_rest t (node_remove t s1)))). change (susp (node_remove t s1) l = list_remove (susp s l) t). by rewrite susp_remove, H2.
  - intros flags Hf Hc Hr. pose proof Hr as Er. apply Z.eqb_eq in Er. apply suspend_refines; done.
Qed.
