(* ===== verification/Sleep.v ===== *)
(** A thread that sleeps: the scheduler and the timers together. [rt_thread_delay] takes the
    running thread off the processor until the tick interrupt has come as often as asked for. *)

From S2P Require Import Prelude.
From S2P Require Import RtDef.
From S2P Require Import Kernel.
From S2P Require Import Timer.
From S2P Require Import TimerRun.
From S2P Require Import Sched.
From S2P Require Import SchedInv.
From S2P Require Import SchedRun.
Open Scope Z_scope.

#[local] Arguments list_remove : simpl never.

(** * Who is suspended *)

Lemma suspended_eq x y : state_of x = state_of y → is_suspended x = is_suspended y.
Proof. intros E. by rewrite !suspended_state, E. Qed.

(** A switch concerns threads that are not suspended, or that stay suspended. *)
Lemma scheduled_susp s c s' u : rt_current_thread s = Some c → sched_ok s → scheduled s c s' → is_suspended (st s' u) = is_suspended (st s u).
Proof.
  intros Hc Hok [Hn | s1 t p l _ _ _ _ E _ _ _ _ _ | s1 t p l _ Hr _ _ _ [W1 W2 W3 W4 _ _ _ _ _]]; [done | by rewrite E |].
  unfold ready in Hr. destruct (decide (u = t)) as [-> | Hut]; [rewrite W2, !suspended_state, state_enter, Hr by done; done |].
  destruct (decide (u = c)) as [-> | Huc]; [|by rewrite W4]. rewrite W3, !suspended_state, state_unyield. unfold running.
  destruct (Z.eqb_spec (state_of (st s c)) RT_THREAD_RUNNING) as [E | E]; [by rewrite state_enter, E |done].
Qed.

Lemma rescheduled_susp s s' :
  sched_ok s → rescheduled s s' →
  (∀ u, is_suspended (st s' u) = is_suspended (st s u)) ∧ sc_tm s' = sc_tm s
  ∧ (is_Some (rt_current_thread s) → is_Some (rt_current_thread s')) ∧ rt_scheduler_lock_nest s' = rt_scheduler_lock_nest s.
Proof.
  unfold rescheduled. intros Hok H. destruct (rt_current_thread s) as [c|] eqn:Hc; [|by subst; rewrite Hc].
  destruct (_ =? 0); [|by subst; rewrite Hc]. split; [intros u; by apply (scheduled_susp s c) |].
  destruct H as [| s1 t p l _ _ _ Hc1 _ _ _ Et En _ | s1 t p l _ _ _ _ _ [W1 _ _ _ _ _ _ W8 W9]]; [by rewrite Hc | by rewrite Hc1 | by rewrite W1].
Qed.

Lemma timeout_susp s t :
  is_suspended (st s t) = true → sched_ok s → is_Some (rt_current_thread s) →
  ∃ s', _thread_timeout t s = Some s' ∧ sched_ok s' ∧ sc_tm s' = sc_tm s ∧ is_Some (rt_current_thread s')
    ∧ ∀ u, is_suspended (st s' u) = is_suspended (st s u) && negb (bool_decide (u = t)).
Proof.
  intros Hs Hok Hc. destruct (thread_timeout_ok s t Hs Hok) as (s1 & s' & E & Hok' & E1 & Hok1 & H).
  destruct (rescheduled_susp s1 s' Hok1 H) as (Hsu & Htm & Hcu & _).
  set (s0 := node_remove t (upd_st t (set_serror (- RT_ETIMEOUT)) s)) in *. destruct (insert_rest t s0) as ((R1 & _ & R3 & _) & _ & _).
  exists s'. split_and!; [done | done | by rewrite Htm, E1, R1 | apply Hcu; by rewrite E1, R3 |]. intros u. rewrite Hsu, E1.
  assert (E0 : ∀ v, is_suspended (st s0 v) = is_suspended (st s v)).
  { intros v. change (st s0 v) with (st (upd_st t (set_serror (- RT_ETIMEOUT)) s) v). rewrite st_upd. case_decide; by subst. }
  rewrite <-E0. unfold rt_sched_insert_thread. case_decide as Ec.
  - rewrite st_upd. case_decide as Eu; [subst u; rewrite bool_decide_true, andb_false_r by done; by rewrite suspended_state, state_enter |].
    by rewrite bool_decide_false, andb_true_r by done.
  - change (st (set_group ?g (set_queue ?p ?l ?z)) u) with (st z u). rewrite st_upd.
    case_decide as Eu; [subst u; rewrite bool_decide_true, andb_false_r by done; by rewrite suspended_state, state_enter |].
    by rewrite bool_decide_false, andb_true_r by done.
Qed.

(** * The tick interrupt *)

Definition thread_timer (x : tsys) (u : nat) : Prop := timeout_func (tm x u) = thread_timeout_func.
#[export] Instance thread_timer_dec x u : Decision (thread_timer x u).
Proof. unfold thread_timer. apply _. Defined.
Definition periodic (x : tsys) (u : nat) : bool := flag_set (tm_flag (tm x u)) RT_TIMER_FLAG_PERIODIC.

(** The thread timers that run are those of suspended threads, and what they call is the
    timeout of their thread. Other timers may run beside them. *)
Record in_sync (s : ssys) (a : clock) : Prop := {
  is_sched : sched_ok s;
  is_tm : sys_ok (sc_tm s) a;
  is_hard : ∀ t, t ∈ _timer_list (sc_tm s) → thread_timer (sc_tm s) t →
              parameter (tm (sc_tm s) t) = Z.of_nat t ∧ periodic (sc_tm s) t = false ∧ is_suspended (st s t) = true;
  is_period : ∀ u, periodic (sc_tm s) u = true → 0 < init_tick (tm (sc_tm s) u);
  is_cur : is_Some (rt_current_thread s)
}.

(** The functions of the other timers do not touch threads and timers. *)
Definition quiet (f p : Z) (s : ssys) : option ssys := Some s.

Lemma same_kind_func x y u : same_kind x y → (thread_timer y u ↔ thread_timer x u) ∧ parameter (tm y u) = parameter (tm x u) ∧ periodic y u = periodic x u.
Proof. intros H. destruct (kind_fields _ _ (H u)) as (_ & Hp & Hf & Hq). unfold thread_timer, periodic. by rewrite Hp, Hf, Hq. Qed.

(** The call of the timeout function of a timer that is due. *)
Lemma due_call_ok s a t x :
  in_sync s a → check_begin false (sc_tm s) = (Some t, x) →
  ∃ s1, timeout_call quiet (timeout_func (tm x t)) (parameter (tm x t)) (set_tm x s) = Some s1
    ∧ sched_ok s1 ∧ sc_tm s1 = x ∧ is_Some (rt_current_thread s1)
    ∧ ∀ u, is_suspended (st s1 u) = is_suspended (st s u) && negb (bool_decide (u = t ∧ thread_timer (sc_tm s) t)).
Proof.
  intros [Hok Htm Hhard Hper Hcur] E. pose proof (same_kind_begin false (sc_tm s)) as Hk. rewrite E in Hk. cbn [snd] in Hk.
  destruct (same_kind_func _ _ t Hk) as (Hf & Hp & _). unfold timeout_call. destruct (Z.eqb_spec (timeout_func (tm x t)) thread_timeout_func) as [Et | Et].
  - assert (Ht : thread_timer (sc_tm s) t) by by apply Hf. assert (Hin : t ∈ _timer_list (sc_tm s)).
    { change (_timer_list (sc_tm s)) with (tlist false (sc_tm s)). revert E. unfold check_begin. destruct (tlist false (sc_tm s)) as [|v l]; [done |].
      destruct (_ <? _); [|done]. intros [= -> _]. by left. }
    destruct (Hhard t Hin Ht) as (Hpar & _ & Hs). rewrite Hp, Hpar, Nat2Z.id.
    destruct (timeout_susp (set_tm x s) t Hs (sched_ok_tm _ _ Hok) Hcur) as (s1 & -> & H1 & H2 & H3 & H4).
    exists s1. split_and!; [done | done | done | done |]. intros u. rewrite H4. f_equal. f_equal. apply bool_decide_ext. tauto.
  - exists (set_tm x s). split_and!; [done | by apply sched_ok_tm | done | done |]. intros u.
    rewrite bool_decide_false by (intros [_ Ht]; by apply Hf in Ht). by rewrite andb_true_r.
Qed.

Lemma hard_check_ok fuel s a :
  in_sync s a → (∀ u v p, a_hard a !! v = Some p → a_now a + init_tick (tm (sc_tm s) u) - p.1 < HALF) → (size (due false a) < fuel)%nat →
  ∃ s' a', hard_check_loop fuel quiet s = Some s' ∧ in_sync s' a' ∧ a_now a' = a_now a ∧ due false a' = ∅ ∧ a_soft a' ⊆ a_soft a
    ∧ same_kind (sc_tm s) (sc_tm s')
    ∧ (∀ u p, a_hard a !! u = Some p → a_now a < p.1 → a_hard a' !! u = Some p)
    ∧ (∀ u, is_Some (a_hard a' !! u) → is_Some (a_hard a !! u))
    ∧ ∀ u, is_suspended (st s' u) = is_suspended (st s u) && negb (bool_decide (is_Some (due false a !! u) ∧ thread_timer (sc_tm s) u)).
Proof.
  revert s a. induction fuel as [|fuel IH]; intros s a Hsy Hwin Hf; [lia |]. pose proof Hsy as [Hok Htm Hhard Hper Hcur]. cbn [hard_check_loop].
  pose proof (begin_ok (sc_tm s) a false Htm) as Hb. destruct (check_begin false (sc_tm s)) as [[t|] x] eqn:E.
  - destruct (due_call_ok s a t x Hsy E) as (s1 & -> & Hok1 & Ex & Hc1 & Hs1). cbn [mbind option_bind]. rewrite Ex. clear Hb.
    destruct (check_round false (sc_tm s) a t x Htm E Hper Hwin) as ([p Hp] & a' & Hok' & En & Hdue & Hrest & Hwin' & Hone & Hsoft).
    assert (Hk : same_kind (sc_tm s) (check_end false t x)).
    { etrans; [|apply same_kind_end]. pose proof (same_kind_begin false (sc_tm s)) as Hk. by rewrite E in Hk. }
    assert (Hsy' : in_sync (set_tm (check_end false t x) s1) a').
    { split; [by apply sched_ok_tm | done | | | done].
      - intros u Hu Hu'. apply (listed_pending _ _ Hok' false) in Hu. destruct (same_kind_func _ _ u Hk) as (F1 & F2 & F3). cbn [sc_tm set_tm] in *.
        apply F1 in Hu'. rewrite F2, F3. destruct (decide (u = t)) as [-> | Hne].
        + assert (Hin : t ∈ _timer_list (sc_tm s)) by (apply (listed_pending _ _ Htm false); exists p; by apply map_lookup_filter_Some in Hp as [Hp _]).
          destruct (Hhard t Hin Hu') as (_ & Hnp & _). rewrite (Hone Hnp) in Hu. by destruct Hu.
        + rewrite Hrest in Hu by done. apply (listed_pending _ _ Htm false) in Hu. destruct (Hhard u Hu Hu') as (G1 & G2 & G3). split_and!; [done | done |].
          change (st (set_tm ?y s1) u) with (st s1 u). rewrite Hs1, G3, bool_decide_false by tauto. done.
      - intros u. destruct (same_kind_func _ _ u Hk) as (_ & _ & F3). cbn [sc_tm set_tm]. rewrite F3, (same_init _ _ u Hk). apply Hper. }
    destruct (IH _ a' Hsy') as (s' & a'' & Es & Hs & Hn & Hd & Hso & Hk' & Hu & Hdom & Hsu).
    + intros u v q. cbn [sc_tm set_tm]. rewrite En, (same_init _ _ u Hk). apply Hwin'.
    + rewrite Hdue. rewrite map_size_delete_Some by (by exists p). pose proof (map_size_ne_0_lookup_2 (due false a) t ltac:(by exists p)). lia.
    + exists s', a''. split_and!; [done | done | congruence | done | by etrans | by etrans | | |].
      * intros u q Hq Hlt. apply Hu; [|by rewrite En]. change (a_hard a' !! u) with (pending false a' !! u). rewrite Hrest; [done |]. intros ->.
        apply map_lookup_filter_Some in Hp as [Hp Hle]. cbn in Hle, Hp. rewrite Hp in Hq. injection Hq as ->. lia.
      * intros u Hq%Hdom. destruct (decide (u = t)) as [-> | Hne]; [exists p; by apply map_lookup_filter_Some in Hp as [Hp _] |].
        change (is_Some (pending false a' !! u)) in Hq. by rewrite Hrest in Hq.
      * intros u. rewrite Hsu. change (st (set_tm ?y s1) u) with (st s1 u). rewrite Hs1, <-andb_assoc. f_equal. rewrite <-negb_orb. f_equal. rewrite <-bool_decide_or.
        apply bool_decide_ext. destruct (same_kind_func _ _ u Hk) as (F1 & _). cbn [sc_tm set_tm]. rewrite F1, Hdue. destruct (decide (u = t)) as [-> | Hne].
        -- rewrite lookup_delete_eq. split; [intros [? | [[? ?] ?]]; [split; [by exists p | tauto] | done] | tauto].
        -- rewrite lookup_delete_ne by done. tauto.
  - destruct Hb as [Hidle Hx]. assert (x = sc_tm s) as ->.
    { revert E. unfold check_begin. destruct (tlist false (sc_tm s)); [by intros [= <-] |]. destruct (_ <? _); [done | by intros [= <-]]. }
    assert (Hd : due false a = ∅).
    { apply map_eq. intros u. rewrite lookup_empty. apply map_lookup_filter_None. right. intros p Hp. cbn. specialize (Hidle u p Hp). lia. }
    exists (set_tm (sc_tm s) s), a. split_and!; try done.
    + split; [by apply sched_ok_tm | done..].
    + intros u. rewrite Hd, bool_decide_false, andb_true_r; [done |]. rewrite lookup_empty. intros [[? ?] _]. done.
Qed.

(** * Starting to sleep *)

(** Timers keep their functions and kinds, and all but [c] their times. *)
Definition same_but (c : nat) (x y : tsys) : Prop :=
  ∀ u, timeout_func (tm y u) = timeout_func (tm x u) ∧ parameter (tm y u) = parameter (tm x u) ∧ periodic y u = periodic x u
    ∧ is_soft (tm y u) = is_soft (tm x u) ∧ processing (tm y u) = processing (tm x u) ∧ (u ≠ c → init_tick (tm y u) = init_tick (tm x u)).

#[export] Instance same_but_preorder c : PreOrder (same_but c).
Proof.
  split; [done |]. intros x y z H1 H2 u. destruct (H1 u) as (? & ? & ? & ? & ? & E1), (H2 u) as (? & ? & ? & ? & ? & E2).
  split_and!; [congruence.. |]. intros Hu. by rewrite E2, E1.
Qed.

Lemma same_but_upd c f x :
  (∀ y, timeout_func (f y) = timeout_func y ∧ parameter (f y) = parameter y ∧ Z.ldiff (tm_flag (f y)) 1 = Z.ldiff (tm_flag y) 1) →
  same_but c x (upd_tm c f x).
Proof.
  intros Hf u. unfold periodic. rewrite tm_upd. case_decide as E; [subst u | done]. destruct (Hf (tm x c)) as (H1 & H2 & H3).
  assert (Hb : ∀ k, 0 < k → flag_set (tm_flag (f (tm x c))) (2 ^ k) = flag_set (tm_flag (tm x c)) (2 ^ k)).
  { intros k Hk. rewrite !flag_bit by lia. apply (f_equal (λ z, Z.testbit z k)) in H3. rewrite !Z.ldiff_spec in H3.
    change 1 with (2 ^ 0) in H3. rewrite Z.pow2_bits_false, !andb_true_r in H3 by lia. done. }
  split_and!; [done | done | exact (Hb 2 eq_refl) | exact (Hb 3 eq_refl) | exact (Hb 1 eq_refl) | done].
Qed.

Lemma ldiff_active x : Z.ldiff (Z.ldiff x 1) 1 = Z.ldiff x 1 ∧ Z.ldiff (Z.lor x 1) 1 = Z.ldiff x 1.
Proof.
  split; apply Z.bits_inj'; intros n Hn; rewrite !Z.ldiff_spec, ?Z.lor_spec; destruct (Z.testbit x n), (Z.testbit 1 n); done.
Qed.

Lemma same_but_dropped c x : same_but c x (dropped c x).
Proof. apply (same_but_upd c _ (_timer_remove c x)). intros y. split_and!; [done | done | apply ldiff_active]. Qed.

Lemma forget_idle x a t : sys_ok x a → active (tm x t) = false → forget t a = a.
Proof.
  intros Hok Ha. assert (H : ∀ b, pending b a !! t = None).
  { intros b. destruct (pending b a !! t) as [p|] eqn:E; [|done]. assert (t ∈ tlist b x) as Hin by (apply (listed_pending _ _ Hok); by exists p).
    apply (r_active _ _ Hok) in Hin. congruence. }
  unfold forget. rewrite (delete_id (a_hard a)) by exact (H false). rewrite delete_id by exact (H true). by destruct a.
Qed.

Lemma stop_sync x a t : sys_ok x a → sys_ok (Timer.rt_timer_stop t x).2 (forget t a) ∧ same_but t x (Timer.rt_timer_stop t x).2.
Proof.
  intros Hok. unfold Timer.rt_timer_stop. fold (active (tm x t)). destruct (active (tm x t)) eqn:E; cbn [negb snd].
  - split; [by apply dropped_ok | apply same_but_dropped].
  - by rewrite (forget_idle x a t Hok E).
Qed.

Lemma set_time_sync x a t n :
  sys_ok x a → 0 ≤ n < HALF →
  ∃ y, rt_timer_control t RT_TIMER_CTRL_SET_TIME n x = Some (RT_EOK, None, y) ∧ sys_ok y (forget t a) ∧ same_but t x y ∧ init_tick (tm y t) = n.
Proof.
  intros Hok Hn. destruct (control_ok x a t RT_TIMER_CTRL_SET_TIME n Hok ltac:(done)) as (r & v & y & E & Hy & _).
  unfold rt_timer_control in E. change (RT_TIMER_CTRL_SET_TIME =? RT_TIMER_CTRL_GET_TIME) with false in E. rewrite Z.eqb_refl in E, Hy.
  rewrite half_max, (proj2 (Z.ltb_lt n HALF)) in E by lia. cbn [andb] in Hy. fold (active (tm x t)) in E, Hy. fold (dropped t x) in E. injection E as <- <- <-.
  eexists. split; [unfold rt_timer_control; change (RT_TIMER_CTRL_SET_TIME =? RT_TIMER_CTRL_GET_TIME) with false; rewrite Z.eqb_refl, half_max, (proj2 (Z.ltb_lt n HALF)) by lia; done |].
  fold (active (tm x t)) (dropped t x). split_and!.
  - destruct (active (tm x t)) eqn:Ea; [done |]. by rewrite (forget_idle x a t Hok Ea).
  - etrans; [|by apply same_but_upd]. destruct (active (tm x t)); [apply same_but_dropped | done].
  - by rewrite tm_upd, decide_True.
Qed.

Lemma start_sync x a t :
  sys_ok x a → processing (tm x t) = false → is_soft (tm x t) = false → in_time a (Started t false (init_tick (tm x t))) →
  sys_ok (Timer.rt_timer_start t x).2 (a_next a (Started t false (init_tick (tm x t)))) ∧ same_but t x (Timer.rt_timer_start t x).2.
Proof.
  intros Hok Hp Hs Hw. destruct (TimerRun.start_ok x a false t Hok Hp Hw) as [_ H]. unfold Timer.rt_timer_start. rewrite Hs.
  assert (Hb : same_but t x (_timer_start false t x).2).
  { unfold _timer_start. fold (processing (tm x t)). rewrite Hp. cbn [snd]. fold (dropped t x). set (d := u32 (rt_tick _ + _)). set (z := bump _).
    assert (H2 : same_but t (dropped t x) (upd_tm t (set_timeout_tick d) (dropped t x))) by by apply same_but_upd.
    assert (H3 : same_but t z (upd_tm t (set_flag RT_TIMER_FLAG_ACTIVATED) z)) by (apply same_but_upd; intros y; split_and!; [done | done | apply ldiff_active]).
    etrans; [apply same_but_dropped |]. etrans; [exact H2 | exact H3]. }
  destruct (_timer_start false t x) as [err y]. cbn [snd] in *. rewrite (proj1 (proj2 (proj2 (proj2 (Hb t))))), Hs, andb_false_r. done.
Qed.

(** * Ticks *)

(** No hard timer is overdue. *)
Definition caught_up (a : clock) : Prop := ∀ u p, a_hard a !! u = Some p → a_now a < p.1.

Lemma slice_sync s :
  sched_ok s → is_Some (rt_current_thread s) →
  ∃ s', rt_sched_tick_increase s = Some s' ∧ sched_ok s' ∧ sc_tm s' = sc_tm s ∧ is_Some (rt_current_thread s')
    ∧ ∀ u, is_suspended (st s' u) = is_suspended (st s u).
Proof.
  intros Hok [c Hc]. destruct (slice_ok s c Hc Hok) as (s' & E & Hok' & H). exists s'. split; [exact E |]. split; [done |].
  destruct H as [[_ ->] | (_ & Hy & H)].
  - split_and!; [done | by exists c |]. intros u. rewrite st_upd. case_decide; by subst.
  - destruct (rescheduled_susp _ _ Hy H) as (H1 & H2 & H3 & _). split_and!; [done | apply H3; by exists c |]. intros u. rewrite H1.
    unfold rt_sched_thread_yield. rewrite st_upd. case_decide; [subst | done]. apply suspended_eq, state_lor_8.
Qed.

Lemma tick_sync fuel s a :
  in_sync s a → caught_up a → (∀ u p, a_soft a !! u = Some p → a_now a + 1 - p.1 < HALF) → (size (a_hard a) < fuel)%nat →
  ∃ s' a', sys_tick_increase fuel quiet s = Some s' ∧ in_sync s' a' ∧ caught_up a' ∧ a_now a' = a_now a + 1 ∧ a_soft a' ⊆ a_soft a
    ∧ (size (a_hard a') ≤ size (a_hard a))%nat ∧ same_kind (sc_tm s) (sc_tm s')
    ∧ ∀ u p, a_hard a !! u = Some p → thread_timer (sc_tm s) u → is_suspended (st s u) = true →
        if decide (a_now a + 1 < p.1) then a_hard a' !! u = Some p ∧ is_suspended (st s' u) = true else is_suspended (st s' u) = false.
Proof.
  intros [Hok Htm Hhard Hper Hcur] Hup Hsoft Hf. unfold sys_tick_increase. set (a1 := a_next a Ticked).
  destruct (slice_sync (set_tm (tick_add (sc_tm s)) s)) as (s1 & -> & Hok1 & Etm & Hc1 & Hs1); [by apply sched_ok_tm | done |]. cbn [mbind option_bind].
  assert (Htm1 : sys_ok (sc_tm s1) a1).
  { rewrite Etm. apply tick_ok; [done |]. intros [] u p Hp; [by apply (Hsoft u) | specialize (Hup u p Hp); unfold HALF; lia]. }
  assert (Hsy : in_sync s1 a1).
  { split; [done | done | | | done].
    - rewrite Etm. intros t Ht1 Ht2. destruct (Hhard t Ht1 Ht2) as (H1 & H2 & H3). by rewrite Hs1.
    - rewrite Etm. exact Hper. }
  assert (Hdue : (size (due false a1) ≤ size (a_hard a))%nat) by (apply map_subseteq_size, map_filter_subseteq).
  destruct (hard_check_ok fuel s1 a1 Hsy) as (s' & a' & E & Hsy' & En & Hd & Hso & Hk & Hfut & Hdom & Hsu).
  { intros u v p Hp. specialize (Hup v p Hp). pose proof (r_init _ _ Htm1 u). cbn. lia. }
  { lia. }
  exists s', a'. split_and!; [done | done | | done | done | | by rewrite Etm in Hk |].
  - intros u p Hp. destruct (Z.lt_ge_cases (a_now a') p.1); [done |]. assert (due false a' !! u = Some p) as Hx by by apply map_lookup_filter_Some.
    by rewrite Hd, lookup_empty in Hx.
  - rewrite <-!size_dom. apply subseteq_size. intros u. rewrite !elem_of_dom. apply Hdom.
  - intros u p Hp Ht Hs. rewrite Hsu, Hs1. change (st (set_tm ?y s) u) with (st s u). rewrite Hs, andb_true_l. case_decide as El.
    + split; [by apply Hfut |]. rewrite bool_decide_false; [done |]. intros [[q Hq] _]. apply map_lookup_filter_Some in Hq as [Hq Hle]. cbn in Hq, Hle.
      rewrite Hp in Hq. injection Hq as <-. lia.
    + rewrite bool_decide_true; [done |]. rewrite Etm. split; [|done]. exists p. apply map_lookup_filter_Some. split; [done |]. cbn. lia.
Qed.

Fixpoint sys_ticks (n fuel : nat) (s : ssys) : option ssys :=
  match n with O => Some s | S n => s ← sys_tick_increase fuel quiet s; sys_ticks n fuel s end.

(** A sleeping thread wakes with the tick of its deadline. *)
Lemma ticks_sync n fuel s a c p :
  in_sync s a → caught_up a → (∀ u q, a_soft a !! u = Some q → a_now a + Z.of_nat n - q.1 < HALF) → (size (a_hard a) < fuel)%nat →
  a_hard a !! c = Some p → thread_timer (sc_tm s) c → is_suspended (st s c) = true → a_now a + Z.of_nat n ≤ p.1 →
  ∃ s', sys_ticks n fuel s = Some s' ∧ is_suspended (st s' c) = bool_decide (a_now a + Z.of_nat n < p.1).
Proof.
  revert s a. induction n as [|n IH]; intros s a Hsy Hup Hso Hf Hp Ht Hs Hn; cbn [sys_ticks].
  { exists s. split; [done |]. rewrite Hs, bool_decide_true; [done |]. specialize (Hup c p Hp). lia. }
  destruct (tick_sync fuel s a Hsy Hup) as (s1 & a1 & -> & Hsy1 & Hup1 & En & Hso1 & Hsz & Hk & Hc); [|done |].
  { intros u q Hq. specialize (Hso u q Hq). lia. }
  cbn [mbind option_bind]. specialize (Hc c p Hp Ht Hs). destruct (same_kind_func _ _ c Hk) as (Ht' & _). case_decide as El.
  - destruct Hc as [Hp1 Hs1]. destruct (IH s1 a1) as (s' & E & E'); try done; [|lia | by apply Ht' | lia |].
    + intros u q Hq. apply (lookup_weaken _ _ _ _ Hq) in Hso1. specialize (Hso u q Hso1). lia.
    + exists s'. split; [done |]. rewrite E', En. apply bool_decide_ext. lia.
  - assert (n = 0)%nat as -> by lia. exists s1. split; [done |]. rewrite Hc, bool_decide_false; [done | lia].
Qed.

(** * The delay *)

Lemma forget_twice t a : forget t (forget t a) = forget t a.
Proof. unfold forget. cbn. by rewrite !delete_delete_eq. Qed.

(** The running thread is suspended. *)
Lemma suspend_sync s a c :
  sched_ok s → sys_ok (sc_tm s) a → rt_current_thread s = Some c → running s c = true →
  ∃ s', rt_thread_suspend_with_flag c RT_INTERRUPTIBLE s = Some (RT_EOK, s') ∧ sched_ok s'
    ∧ (sys_ok (sc_tm s') a ∨ sys_ok (sc_tm s') (forget c a)) ∧ same_but c (sc_tm s) (sc_tm s')
    ∧ rt_current_thread s' = Some c ∧ rt_scheduler_lock_nest s' = rt_scheduler_lock_nest s
    ∧ ∀ u, is_suspended (st s' u) = is_suspended (st s u) || bool_decide (u = c).
Proof.
  intros Hok Htm Hc Hr. pose proof Hr as Er. apply Z.eqb_eq in Er.
  unfold rt_thread_suspend_with_flag, rt_thread_suspend_to_list, rt_sched_thread_get_stat. rewrite bool_decide_true, Er by done. cbn [negb andb Z.eqb RT_THREAD_READY RT_THREAD_RUNNING].
  unfold _thread_set_suspend_state. cbn [RT_INTERRUPTIBLE Z.eqb mbind option_bind]. set (s1 := upd_st c _ _). eexists. split; [done |].
  destruct (remove_rest c s) as ((R1 & R2 & R3 & _) & R4 & _).
  destruct (remove_ok s c (enter_state RT_THREAD_SUSPEND_INTERRUPTIBLE)) as (Hok1 & _ & _); try done; try by rewrite state_enter.
  { by rewrite Er. }
  { apply th_ok_enter; [done | by rewrite Er | apply (so_th s Hok)]. }
  fold s1 in Hok1. assert (Es : ∀ u, is_suspended (st s1 u) = is_suspended (st s u) || bool_decide (u = c)).
  { intros u. unfold s1. rewrite st_upd. assert (Eu : ∀ v, st (rt_sched_remove_thread c s) v = st s v) by (intros; unfold st; by rewrite R4). rewrite !Eu.
    case_decide as E; [subst u; by rewrite bool_decide_true, orb_true_r, suspended_state, state_enter by done | by rewrite bool_decide_false, orb_false_r by done]. }
  assert (E1 : sc_tm s1 = sc_tm s) by done. split; [by apply timer_stop_ok |]. unfold rt_sched_thread_timer_stop.
  destruct (s_ttmr (st s1 c)); cbn [snd]; [|by split_and!; [left; rewrite E1 | rewrite E1 | rewrite <-Hc | rewrite <-R2 |]].
  rewrite E1. destruct (stop_sync (sc_tm s) a c Htm) as [H1 H2]. destruct (Timer.rt_timer_stop c (sc_tm s)) as [e x]. cbn [snd] in *.
  split_and!; [by right | done | by rewrite <-Hc | by rewrite <-R2 |]. intros u. rewrite <-Es, st_upd. case_decide; by subst.
Qed.

(** The thread timer of [c] is ready to use. *)
Record timer_usable (x : tsys) (c : nat) : Prop := {
  tu_func : thread_timer x c;
  tu_param : parameter (tm x c) = Z.of_nat c;
  tu_once : periodic x c = false;
  tu_hard : is_soft (tm x c) = false;
  tu_idle : processing (tm x c) = false
}.

Lemma set_timer_sync s a a0 c n :
  sys_ok (sc_tm s) a0 → a0 = a ∨ a0 = forget c a → timer_usable (sc_tm s) c → caught_up a → 0 ≤ n < HALF →
  ∃ x, thread_timer_set c n s = Some (set_tm x (upd_st c (set_ttmr true) s)) ∧ sys_ok x (a_next (forget c a) (Started c false n)) ∧ same_but c (sc_tm s) x.
Proof.
  intros Hok Ha [Hf Hpar Ho Hh Hi] Hup Hn. unfold thread_timer_set. destruct (set_time_sync (sc_tm s) a0 c n Hok Hn) as (y & -> & Hy & Hb & En).
  assert (forget c a0 = forget c a) as Ea by (destruct Ha as [-> | ->]; [done | apply forget_twice]). rewrite Ea in Hy.
  cbn [mbind option_bind]. unfold thread_timer_start. cbn [sc_tm set_tm upd_st rt_sched_thread_timer_start].
  destruct (Hb c) as (_ & _ & _ & Es & Ep & _). destruct (start_sync y (forget c a) c Hy) as [H1 H2]; [congruence | congruence | |].
  - intros u p Hu Hp. cbn in Hp. apply lookup_delete_Some in Hp as [_ Hp]. specialize (Hup u p Hp). rewrite En. cbn. lia.
  - destruct (Timer.rt_timer_start c y) as [e z]. cbn [snd] in *. exists z. rewrite En in H1. split_and!; [done | done | by etrans].
Qed.

Lemma sleep_begins s a c n :
  in_sync s a → caught_up a → rt_current_thread s = Some c → running s c = true → rt_scheduler_lock_nest s = 0 →
  timer_usable (sc_tm s) c → 0 < n < HALF →
  ∃ s1 a1, rt_thread_delay n s = Some (Blocks, s1) ∧ in_sync s1 a1 ∧ caught_up a1 ∧ a_now a1 = a_now a ∧ a_soft a1 ⊆ a_soft a
    ∧ (size (a_hard a1) ≤ S (size (a_hard a)))%nat ∧ a_hard a1 !! c = Some (a_now a + n, a_seq a)
    ∧ thread_timer (sc_tm s1) c ∧ is_suspended (st s1 c) = true.
Proof.
  intros [Hok Htm Hhard Hper _] Hup Hc Hr Hn Hu Hb. unfold rt_thread_delay, _thread_sleep, rt_critical_level.
  rewrite (proj2 (Z.eqb_neq n 0)), Hc, Hn by lia. cbn [mbind option_bind u16 negb Z.eqb rt_enter_critical]. change (u16 0 =? 0) with true. cbn [negb].
  set (s0 := upd_st c (set_serror RT_EOK) s). assert (Hok0 : sched_ok s0) by by apply field_ok. change (rt_scheduler_lock_nest s0) with (rt_scheduler_lock_nest s). rewrite Hn.
  change (s16 (0 + 1)) with 1. set (s2 := set_nest 1 s0). assert (Hok2 : sched_ok s2) by by apply sched_ok_nest.
  assert (Hr2 : running s2 c = true) by (unfold running; change (st s2 c) with (st s0 c); unfold s0; by rewrite st_upd_eq).
  destruct (suspend_sync s2 a c Hok2 Htm Hc Hr2) as (s3 & -> & Hok3 & Htm3 & Hb3 & Hc3 & Hn3 & Hs3). cbn [mbind option_bind Z.eqb RT_EOK rt_scheduler_lock_nest set_nest].
  assert (∃ a0, sys_ok (sc_tm s3) a0 ∧ (a0 = a ∨ a0 = forget c a)) as (a0 & Htm0 & Ha0) by (destruct Htm3; eauto).
  assert (Hu3 : timer_usable (sc_tm s3) c).
  { destruct Hu as [U1 U2 U3 U4 U5]. destruct (Hb3 c) as (B1 & B2 & B3 & B4 & B5 & _). unfold thread_timer in *. split; unfold thread_timer; cbn in *; congruence. }
  destruct (set_timer_sync s3 a a0 c n Htm0 Ha0 Hu3 Hup ltac:(lia)) as (x & -> & Hx & Hbx). cbn [mbind option_bind].
  set (s4 := upd_st c (set_serror (- RT_EINTR)) _). assert (Hok4 : sched_ok s4) by (apply field_ok; [done |]; by apply sched_ok_tm, field_ok).
  assert (Hn4 : rt_scheduler_lock_nest s4 = 1) by exact Hn3. unfold rt_schedule. rewrite Hn4. cbn [negb Z.eqb mbind option_bind].
  unfold rt_exit_critical_safe, rt_exit_critical. rewrite Hn4. cbn [negb Z.eqb Pos.eqb rt_scheduler_lock_nest set_nest]. change (s16 (1 - 1) <=? 0) with true. cbn [andb].
  set (s5 := set_nest 0 _). assert (Hok5 : sched_ok s5) by (apply sched_ok_nest; [lia |]; by apply sched_ok_nest).
  destruct (resched_ok s5 Hok5) as (s6 & -> & Hok6 & Hsc). destruct (rescheduled_susp _ _ Hok5 Hsc) as (Hs6 & Et6 & Hc6 & _).
  assert (Hsu : ∀ u, is_suspended (st s6 u) = is_suspended (st s u) || bool_decide (u = c)).
  { intros u. rewrite Hs6. change (st s5 u) with (st s4 u). transitivity (is_suspended (st s3 u)).
    { unfold s4. rewrite st_upd. change (st (set_tm x ?z)) with (st z). rewrite !st_upd. destruct (decide (c = u)) as [<- | ?]; [by rewrite decide_True | done]. }
    rewrite Hs3. f_equal. change (st s2 u) with (st s0 u). unfold s0. rewrite st_upd. by case_decide; subst. }
  assert (Et : sc_tm s6 = x) by exact Et6. assert (Hbb : same_but c (sc_tm s) x) by by etrans.
  exists s6, (a_next (forget c a) (Started c false n)). rewrite Et. split_and!.
  - done.
  - split; [done | by rewrite Et | | | apply Hc6; change (rt_current_thread s5) with (rt_current_thread s3); by exists c].
    + rewrite Et. intros t Ht1 Ht2. apply (listed_pending _ _ Hx false) in Ht1. destruct (Hbb t) as (B1 & B2 & B3 & _). rewrite B2, B3, Hsu.
      destruct (decide (t = c)) as [-> | Hne]; [split_and!; [apply Hu | apply Hu | by rewrite bool_decide_true, orb_true_r] |].
      cbn in Ht1. rewrite lookup_insert_ne, !lookup_delete_ne in Ht1 by done. apply (listed_pending _ _ Htm false) in Ht1.
      destruct (Hhard t Ht1) as (G1 & G2 & G3); [unfold thread_timer in *; congruence |]. by rewrite G3.
    + rewrite Et. intros u. destruct (Hbb u) as (_ & _ & B3 & _ & _ & B6). rewrite B3. intros Hpu. destruct (decide (u = c)) as [-> | Hne]; [by rewrite (tu_once _ _ Hu) in Hpu |].
      rewrite B6 by done. by apply Hper.
  - intros u p. cbn. intros [[<- <-] | [Hne Hp]]%lookup_insert_Some; [cbn; lia |]. apply lookup_delete_Some in Hp as [_ Hp]. apply lookup_delete_Some in Hp as [_ Hp]. by apply (Hup u).
  - done.
  - cbn. etrans; apply delete_subseteq.
  - cbn. rewrite map_size_insert_None by apply lookup_delete_eq. apply le_n_S. do 2 (etrans; [apply map_subseteq_size, delete_subseteq |]). done.
  - cbn. by rewrite lookup_insert_eq.
  - destruct (Hbb c) as (B1 & _). unfold thread_timer. rewrite B1. apply Hu.
  - by rewrite Hsu, bool_decide_true, orb_true_r.
Qed.

(** C31. A delay lasts exactly as many ticks as asked for. The running thread calls
    [rt_thread_delay] with [n] ticks, with any threads and hard timers besides whose timeout
    functions do not touch threads and timers: the call takes it off the processor, and in the
    ticks that follow, with their time slices, the check of the timers and the wake-up of other
    threads, it is suspended for [n] of them and ready or running after the [n]-th. *)
Theorem delay_exact (s : ssys) (a : clock) (c fuel k : nat) (n : Z)
    (Hsync : in_sync s a) (Hup : caught_up a) (Hc : rt_current_thread s = Some c) (Hr : running s c = true)
    (Hn : rt_scheduler_lock_nest s = 0) (Hu : timer_usable (sc_tm s) c) (Hb : 0 < n < HALF) (Hk : Z.of_nat k ≤ n)
    (Hsoft : ∀ u p, a_soft a !! u = Some p → a_now a + n - p.1 < HALF) (Hf : (S (size (a_hard a)) < fuel)%nat) :
  ∃ s1 s2, rt_thread_delay n s = Some (Blocks, s1) ∧ sys_ticks k fuel s1 = Some s2
    ∧ is_suspended (st s2 c) = bool_decide (Z.of_nat k < n).
Proof.
  destruct (sleep_begins s a c n Hsync Hup Hc Hr Hn Hu Hb) as (s1 & a1 & E & Hs1 & Hup1 & En & Hso & Hsz & Hp & Ht & Hsu).
  destruct (ticks_sync k fuel s1 a1 c (a_now a + n, a_seq a) Hs1 Hup1) as (s2 & E2 & E3); try done; cbn [fst]; [|lia | lia |].
  - intros u q Hq. apply (lookup_weaken _ _ _ _ Hq) in Hso. specialize (Hsoft u q Hso). lia.
  - exists s1, s2. split_and!; [done | done |]. rewrite E3, En. apply bool_decide_ext. cbn. lia.
Qed.

(** A negative time, which [rt_tick_from_millisecond] turns into waiting for ever, stops the
    system: the time does not pass the assertion of the timer. *)
Theorem mdelay_forever_stops (s : ssys) (a : clock) (c : nat) (ms : Z) :
  in_sync s a → rt_current_thread s = Some c → running s c = true → rt_scheduler_lock_nest s = 0 → ms < 0 → rt_thread_mdelay ms s = None.
Proof.
  intros [Hok Htm _ _ _] Hc Hr Hn Hms. unfold rt_thread_mdelay, rt_tick_from_millisecond. rewrite (proj2 (Z.ltb_lt _ _)) by lia.
  change (u32 RT_WAITING_FOREVER) with 4294967295. unfold _thread_sleep, rt_critical_level. rewrite Hc, Hn. cbn [mbind option_bind Z.eqb negb rt_enter_critical].
  change (u16 0 =? 0) with true. cbn [negb]. set (s2 := set_nest _ _).
  destruct (suspend_sync s2 a c) as (s3 & -> & _); [|done | done | |done].
  - apply sched_ok_nest; [|by apply field_ok]. change (rt_scheduler_lock_nest (upd_st ?t ?f s)) with (rt_scheduler_lock_nest s). rewrite Hn. done.
  - unfold running. change (st s2 c) with (st (upd_st c (set_serror RT_EOK) s) c). by rewrite st_upd_eq.
Qed.

(** ** Witnesses *)

(** No timer runs. *)
Lemma idle_sync n s :
  sched_ok s → is_Some (rt_current_thread s) → rt_tick (sc_tm s) = u32 n → _timer_list (sc_tm s) = [] → _soft_timer_list (sc_tm s) = [] →
  map_Forall (λ _ y, 0 ≤ init_tick y < HALF ∧ flag_set (tm_flag y) RT_TIMER_FLAG_PERIODIC = false) (tms (sc_tm s)) → in_sync s (clock_boot n).
Proof.
  intros Hok Hc Ht Hl1 Hl2 Hall.
  assert (H : ∀ u, 0 ≤ init_tick (tm (sc_tm s) u) < HALF ∧ periodic (sc_tm s) u = false).
  { intros u. unfold periodic, tm. destruct (tms (sc_tm s) !! u) as [y|] eqn:E; [by apply (Hall u y) | done]. }
  split; [done | | | | done].
  - constructor; [done | intros t; apply H | |].
    + intros b. exists []. assert (pending b (clock_boot n) = ∅) as -> by by destruct b.
      constructor; [by destruct b | by destruct b; cbn; rewrite ?Hl1, ?Hl2; constructor | | constructor |].
      * intros u p. split; [by rewrite lookup_empty | by intros ?%elem_of_nil].
      * by intros u p ?%elem_of_nil.
    + intros b t. assert (tlist b (sc_tm s) = []) as -> by by destruct b. by intros ?%elem_of_nil.
  - rewrite Hl1. by intros t ?%elem_of_nil.
  - intros u. by rewrite (proj2 (H u)).
Qed.

(** Thread 3 of [three_threads] sleeps for 4 ticks. *)
Lemma delay_exact_witness :
  ∃ s1 s2, rt_thread_delay 4 three_state = Some (Blocks, s1) ∧ sys_ticks 3 2 s1 = Some s2 ∧ is_suspended (st s2 3) = true.
Proof.
  assert (Hs : in_sync three_state (clock_boot 0)).
  { apply idle_sync; [exact (sched_run_ok _ _ _ (sched_boot_ok 0) three_run) | by exists 3%nat | done | done | done |].
    apply (bool_decide_unpack _). vm_compute. exact I. }
  apply (delay_exact three_state (clock_boot 0) 3 2 3 4 Hs); try done. vm_compute. lia.
Defined.
