(* ===== verification/SfudInit.v ===== *)
(** Start-up of the serial flash driver: the SFDP parameters of the chip
    (rt-thread/components/drivers/spi/sfud/src/sfud_sfdp.c), the table of known chips
    (sfud_flash_def.h) and [sfud_device_init] (sfud.c). *)

From S2P Require Import Prelude.
From S2P Require Import Nor.
From S2P Require Import Sfud.

(** * SFDP *)

Definition SUPPORT_MAX_SFDP_MAJOR_REV : Z := 1.
Definition BASIC_TABLE_LEN : Z := 9.

Definition set_chip (flash : sfud_flash) (c : sfud_flash_chip) : sfud_flash :=
  mk_flash c (fl_sfdp flash) (init_ok flash) (addr_in_4_byte flash) (retry_times flash).
Definition set_sfdp (flash : sfud_flash) (p : sfud_sfdp) : sfud_flash :=
  mk_flash (fl_chip flash) p (init_ok flash) (addr_in_4_byte flash) (retry_times flash).
Definition set_init_ok (flash : sfud_flash) (b : bool) : sfud_flash :=
  mk_flash (fl_chip flash) (fl_sfdp flash) b (addr_in_4_byte flash) (retry_times flash).

Definition read_sfdp_data (s : io) (addr : Z) (size : nat) : sfud_err * list Z * io :=
  spi_write_read s
    [SFUD_CMD_READ_SFDP_REGISTER; Z.land (Z.shiftr addr 16) 0xFF; Z.land (Z.shiftr addr 8) 0xFF;
     Z.land (Z.shiftr addr 0) 0xFF; SFUD_DUMMY_DATA] size.

Definition sfdp_revs (p : sfud_sfdp) (available : bool) (major minor : Z) : sfud_sfdp :=
  mk_sfdp available major minor (write_gran p) (erase_4k p) (erase_4k_cmd p) (sr_is_non_vola p)
    (vola_sr_we_cmd p) (addr_3_byte p) (addr_4_byte p) (sfdp_capacity p) (erasers p).

Definition read_sfdp_header (flash : sfud_flash) (s : io) : bool * sfud_flash * io :=
  let p := fl_sfdp flash in
  let flash := set_sfdp flash (sfdp_revs p false (major_rev p) (minor_rev p)) in
  let '(r, header, s) := read_sfdp_data s 0 8 in
  if negb (bool_decide (r = SFUD_SUCCESS)) then (false, flash, s) else
  if negb ((nthZ header 0 =? 0x53) && (nthZ header 1 =? 0x46) && (nthZ header 2 =? 0x44)
           && (nthZ header 3 =? 0x50)) then (false, flash, s) else
  let flash := set_sfdp flash (sfdp_revs p false (nthZ header 5) (nthZ header 4)) in
  if SUPPORT_MAX_SFDP_MAJOR_REV <? nthZ header 5 then (false, flash, s) else (true, flash, s).

Record sfdp_para_header : Type := mk_para {
  ph_id : Z; ph_minor_rev : Z; ph_major_rev : Z; ph_len : Z; ph_ptp : Z
}.

Definition read_basic_header (s : io) : bool * sfdp_para_header * io :=
  let '(r, header, s) := read_sfdp_data s 8 8 in
  if negb (bool_decide (r = SFUD_SUCCESS)) then (false, mk_para 0 0 0 0 0, s) else
  let h := mk_para (nthZ header 0) (nthZ header 1) (nthZ header 2) (nthZ header 3)
             (Z.lor (Z.lor (nthZ header 4) (Z.shiftl (nthZ header 5) 8)) (Z.shiftl (nthZ header 6) 16)) in
  if SUPPORT_MAX_SFDP_MAJOR_REV <? ph_major_rev h then (false, h, s) else
  if ph_len h <? BASIC_TABLE_LEN then (false, h, s) else (true, h, s).

(** The erase types of the table, compacted to the front of the eraser table. *)
Definition fill_erasers (table : list Z) (old : list eraser) : list eraser :=
  (foldl (λ '(l, j) i,
     if negb (nthZ table (28 + 2 * i) =? 0)
     then (<[j := mk_eraser (u32 (Z.shiftl 1 (nthZ table (28 + 2 * i)))) (nthZ table (28 + 2 * i + 1))]> l,
           S j)
     else (l, j)) (old, O) [0; 1; 2; 3]).1.

(** The exchange sort of the erasers by size; entries of size 0 are unused. *)
Definition sort_inner (l : list eraser) (i j : nat) : list eraser :=
  match l !! i, l !! j with
  | Some a, Some b =>
      if negb (er_size b =? 0) && (er_size b <? er_size a) then <[j := a]> (<[i := b]> l) else l
  | _, _ => l
  end.

Definition sort_outer (l : list eraser) (i : nat) : list eraser :=
  match l !! i with
  | Some a => if negb (er_size a =? 0) then foldl (λ l j, sort_inner l i j) l (seq (S i) (3 - i)) else l
  | None => l
  end.

Definition sort_erasers (l : list eraser) : list eraser := foldl sort_outer l (seq 0 4).

(** The capacity field: bits minus one, or a power of two. (A shift of the C code by 32 or
    more, or by a negative count, is undefined there; the tables of the theorems have
    none.) *)
Definition table_capacity (table : list Z) : option Z :=
  let t2 := Z.lor (Z.lor (Z.lor (Z.shiftl (nthZ table 7) 24) (Z.shiftl (nthZ table 6) 16))
                     (Z.shiftl (nthZ table 5) 8)) (nthZ table 4) in
  if Z.shiftr (Z.land (nthZ table 7) (Z.shiftl 1 7)) 7 =? 0 then Some (u32 (1 + Z.shiftr t2 3))
  else
    let t2 := Z.land t2 0x7FFFFFFF in
    if 4 * 8 + 3 <? t2 then None else Some (u32 (Z.shiftl 1 (t2 - 3))).

(** [read_basic_table]; the fields are filled in the order of the code, so that a failure
    leaves the earlier ones changed. *)
Definition read_basic_table (flash : sfud_flash) (s : io) (basic_header : sfdp_para_header)
    : bool * sfud_flash * io :=
  let '(r, table, s) := read_sfdp_data s (ph_ptp basic_header) 36 in
  if negb (bool_decide (r = SFUD_SUCCESS)) then (false, flash, s) else
  let p := fl_sfdp flash in
  let e4 := Z.land (nthZ table 0) 0x03 in
  if negb ((e4 =? 1) || (e4 =? 3)) then
    (false, set_sfdp flash
       (mk_sfdp (available p) (major_rev p) (minor_rev p) (write_gran p) (erase_4k p) (nthZ table 1)
          (sr_is_non_vola p) (vola_sr_we_cmd p) (addr_3_byte p) (addr_4_byte p) (sfdp_capacity p)
          (erasers p)), s) else
  let gran := if Z.shiftr (Z.land (nthZ table 0) (Z.shiftl 1 2)) 2 =? 0 then 1 else 256 in
  let nonvol := Z.shiftr (Z.land (nthZ table 0) (Z.shiftl 1 3)) 3 =? 0 in
  let we := if nonvol then vola_sr_we_cmd p
            else if Z.shiftr (Z.land (nthZ table 0) (Z.shiftl 1 4)) 4 =? 0
                 then SFUD_VOLATILE_SR_WRITE_ENABLE else SFUD_CMD_WRITE_ENABLE in
  let ab := Z.shiftr (Z.land (nthZ table 2) (Z.shiftl 0x03 1)) 1 in
  let mk a3 a4 cap er av :=
    set_sfdp flash (mk_sfdp av (major_rev p) (minor_rev p) gran (e4 =? 1) (nthZ table 1) nonvol we
                      a3 a4 cap er) in
  if negb ((ab =? 0) || (ab =? 1) || (ab =? 2))
  then (false, mk false false (sfdp_capacity p) (erasers p) (available p), s) else
  let a3 := (ab =? 0) || (ab =? 1) in
  let a4 := (ab =? 1) || (ab =? 2) in
  match table_capacity table with
  | None => (false, mk a3 a4 0 (erasers p) (available p), s)
  | Some cap => (true, mk a3 a4 cap (sort_erasers (fill_erasers table (erasers p))) true, s)
  end.

Definition sfud_read_sfdp (flash : sfud_flash) (s : io) : bool * sfud_flash * io :=
  let '(ok, flash, s) := read_sfdp_header flash s in
  if negb ok then (false, flash, s) else
  let '(ok, h, s) := read_basic_header s in
  if negb ok then (false, flash, s) else read_basic_table flash s h.

(** * The table of known chips *)

Definition flash_chip_table : list sfud_flash_chip := [
  mk_chip 0x1F 0x26 0x00 (2 * 1024 * 1024) (Z.lor SFUD_WM_BYTE SFUD_WM_DUAL_BUFFER) 512 0x81;
  mk_chip 0xEF 0x40 0x13 (512 * 1024) SFUD_WM_PAGE_256B 4096 0x20;
  mk_chip 0xEF 0x30 0x13 (512 * 1024) SFUD_WM_PAGE_256B 4096 0x20;
  mk_chip 0xEF 0x30 0x15 (2 * 1024 * 1024) SFUD_WM_PAGE_256B 4096 0x20;
  mk_chip 0xEF 0x40 0x15 (2 * 1024 * 1024) SFUD_WM_PAGE_256B 4096 0x20;
  mk_chip 0xEF 0x40 0x16 (4 * 1024 * 1024) SFUD_WM_PAGE_256B 4096 0x20;
  mk_chip 0xEF 0x40 0x17 (8 * 1024 * 1024) SFUD_WM_PAGE_256B 4096 0x20;
  mk_chip 0xEF 0x60 0x17 (8 * 1024 * 1024) SFUD_WM_PAGE_256B 4096 0x20;
  mk_chip 0xEF 0x40 0x18 (16 * 1024 * 1024) SFUD_WM_PAGE_256B 4096 0x20;
  mk_chip 0xEF 0x40 0x19 (32 * 1024 * 1024) SFUD_WM_PAGE_256B 4096 0x20;
  mk_chip 0xBF 0x25 0x8E (1 * 1024 * 1024) (Z.lor SFUD_WM_BYTE SFUD_WM_AAI) 4096 0x20;
  mk_chip 0xBF 0x25 0x41 (2 * 1024 * 1024) (Z.lor SFUD_WM_BYTE SFUD_WM_AAI) 4096 0x20;
  mk_chip 0x20 0x20 0x16 (4 * 1024 * 1024) SFUD_WM_PAGE_256B (64 * 1024) 0xD8;
  mk_chip 0x20 0x20 0x14 (1 * 1024 * 1024) SFUD_WM_PAGE_256B (64 * 1024) 0xD8;
  mk_chip 0x20 0x20 0x13 (512 * 1024) SFUD_WM_PAGE_256B (64 * 1024) 0xD8;
  mk_chip 0x1C 0x30 0x16 (4 * 1024 * 1024) SFUD_WM_PAGE_256B 4096 0x20;
  mk_chip 0xC8 0x40 0x17 (8 * 1024 * 1024) SFUD_WM_PAGE_256B 4096 0x20;
  mk_chip 0xC8 0x40 0x15 (2 * 1024 * 1024) SFUD_WM_PAGE_256B 4096 0x20;
  mk_chip 0xC8 0x40 0x16 (4 * 1024 * 1024) SFUD_WM_PAGE_256B 4096 0x20;
  mk_chip 0x01 0x40 0x15 (2 * 1024 * 1024) SFUD_WM_PAGE_256B 4096 0x20;
  mk_chip 0x01 0x02 0x15 (4 * 1024 * 1024) SFUD_WM_PAGE_256B 4096 0x20;
  mk_chip 0x37 0x30 0x14 (1 * 1024 * 1024) SFUD_WM_PAGE_256B 4096 0x20;
  mk_chip 0x8C 0x20 0x13 (512 * 1024) (Z.lor SFUD_WM_BYTE SFUD_WM_AAI) 4096 0x20;
  mk_chip 0xBF 0x25 0x41 (2 * 1024 * 1024) (Z.lor SFUD_WM_BYTE SFUD_WM_AAI) 4096 0x20;
  mk_chip 0x52 0x21 0x18 (16 * 1024 * 1024) SFUD_WM_PAGE_256B 4096 0x20
].

(** The first entry with the chip's id. *)
Fixpoint find_chip (l : list sfud_flash_chip) (c : sfud_flash_chip) : option sfud_flash_chip :=
  match l with
  | [] => None
  | e :: l =>
      if (mf_id e =? mf_id c) && (type_id e =? type_id c) && (capacity_id e =? capacity_id c)
      then Some e else find_chip l c
  end.

(** * Initialisation *)

Definition read_jedec_id (flash : sfud_flash) (s : io) : sfud_err * sfud_flash * io :=
  let '(r, recv_data, s) := spi_write_read s [SFUD_CMD_JEDEC_ID] 3 in
  let c := fl_chip flash in
  (r, if bool_decide (r = SFUD_SUCCESS)
      then set_chip flash (mk_chip (nthZ recv_data 0) (nthZ recv_data 1) (nthZ recv_data 2)
                             (capacity c) (write_mode c) (erase_gran c) (erase_gran_cmd c))
      else flash, s).

(** [sfud_spi_port_init] sets 60 * 10000 retries of 100 microseconds; the number is a
    parameter here. *)
Definition sfud_spi_port_init (flash : sfud_flash) (times : nat) : sfud_err * sfud_flash :=
  (SFUD_SUCCESS,
   mk_flash (fl_chip flash) (fl_sfdp flash) (init_ok flash) (addr_in_4_byte flash) times).

Definition unconfigured (c : sfud_flash_chip) : bool :=
  (capacity c =? 0) || (write_mode c =? 0) || (erase_gran c =? 0) || (erase_gran_cmd c =? 0).

(** The smallest eraser of the table. *)
Definition smallest_eraser (l : list eraser) : eraser :=
  foldl (λ e x, if negb (er_size x =? 0) && (er_size x <? er_size e) then x else e)
    (default (mk_eraser 0 0) (l !! 0%nat)) (drop 1 l).

(** The chip parameters from the SFDP table. *)
Definition chip_from_sfdp (c : sfud_flash_chip) (p : sfud_sfdp) : sfud_flash_chip :=
  let e := smallest_eraser (erasers p) in
  mk_chip (mf_id c) (type_id c) (capacity_id c) (sfdp_capacity p)
    (if write_gran p =? 1 then SFUD_WM_BYTE else SFUD_WM_PAGE_256B) (er_size e) (er_cmd e).

(** The first part of [hardware_init]: the parameters of a chip that the user did not
    configure. *)
Definition probe_chip (flash : sfud_flash) (s : io) : sfud_err * sfud_flash * io :=
  if unconfigured (fl_chip flash) then
    let '(r, flash, s) := read_jedec_id flash s in
    if negb (bool_decide (r = SFUD_SUCCESS)) then (r, flash, s) else
    let '(ok, flash, s) := sfud_read_sfdp flash s in
    let c := fl_chip flash in
    if ok then (SFUD_SUCCESS, set_chip flash (chip_from_sfdp c (fl_sfdp flash)), s)
    else match find_chip flash_chip_table c with
         | Some e =>
             (SFUD_SUCCESS,
              set_chip flash (mk_chip (mf_id c) (type_id c) (capacity_id c) (capacity e)
                                (write_mode e) (erase_gran e) (erase_gran_cmd e)), s)
         | None => (SFUD_SUCCESS, flash, s)
         end
  else (SFUD_SUCCESS, flash, s).

(** The last part: reset, block protection, address mode. *)
Definition configure_chip (flash : sfud_flash) (s : io) : sfud_err * sfud_flash * io :=
  let c := fl_chip flash in
  let '(r, s) :=
    s <-? reset flash s;
    if flag_set (write_mode c) SFUD_WM_AAI then sfud_write_status s true 0x00
    else if (0xC2 =? mf_id c) && (0x20 =? type_id c) && (0x16 =? capacity_id c)
    then sfud_write_status s false 0x00
    else (SFUD_SUCCESS, s) in
  if negb (bool_decide (r = SFUD_SUCCESS)) then (r, flash, s) else
  if Z.shiftl 1 24 <? capacity c then set_4_byte_address_mode flash s true
  else (r, set_addr_in_4_byte flash false, s).

Definition hardware_init (flash : sfud_flash) (times : nat) (s : io) : sfud_err * sfud_flash * io :=
  let '(_, flash) := sfud_spi_port_init flash times in
  let '(r, flash, s) := probe_chip flash s in
  if negb (bool_decide (r = SFUD_SUCCESS)) then (r, flash, s) else
  if unconfigured (fl_chip flash) then (SFUD_ERR_NOT_FOUND, flash, s)
  else configure_chip flash s.

Definition sfud_device_init (flash : sfud_flash) (times : nat) (s : io)
    : sfud_err * sfud_flash * io :=
  let '(r, flash, s) := hardware_init flash times s in
  (r, set_init_ok flash (bool_decide (r = SFUD_SUCCESS)), s).

(** * Transfers on a working bus *)

(** One transfer later, nothing else changed. *)
Definition popped (s : io) : io := mk_io (pop_bus (io_nor s)) (io_locks s).

Lemma popped_quiet n s : quiet n s (popped s).
Proof. apply pop_quiet. Qed.

Lemma popped_ok n s : healthy n s → idle s → healthy n (popped s) ∧ idle (popped s).
Proof. intros Hh Hi. split; [by apply (popped_quiet n s) | done]. Qed.

Lemma xfer_ok n s cmd args k :
  healthy n s →
  spi_write_read s (cmd :: args) k
    = (SFUD_SUCCESS, (nor_exec (pop_bus (io_nor s)) cmd args k).1,
       mk_io (nor_exec (pop_bus (io_nor s)) cmd args k).2 (io_locks s)).
Proof.
  intros Hh. destruct (spi_write_read s (cmd :: args) k) as [[r out] s'] eqn:H.
  apply xfer_cases in H as [Hl [(_ & _ & Hb) | [-> E]]]; [by destruct (Hb n) |].
  rewrite E. simpl. destruct s' as [d l]. simpl in *. by subst.
Qed.

(** Commands that an idle chip answers without changing. *)
Lemma jedec_ok n s :
  healthy n s → idle s →
  spi_write_read s [SFUD_CMD_JEDEC_ID] 3
    = (SFUD_SUCCESS, take 3 (np_id (nor_spec (io_nor s)) ++ replicate 3 0xFF), popped s).
Proof.
  intros Hh [Hb _]. rewrite (xfer_ok n) by done. unfold nor_exec. simpl. by rewrite Hb.
Qed.

Lemma sfdp_data_ok n s addr k :
  healthy n s → idle s → 0 ≤ addr < 16777216 →
  read_sfdp_data s addr k
    = (SFUD_SUCCESS,
       take k (drop (Z.to_nat addr) (np_sfdp (nor_spec (io_nor s))) ++ replicate k 0xFF), popped s).
Proof.
  intros Hh [Hb _] Ha. unfold read_sfdp_data. rewrite (xfer_ok n) by done.
  unfold nor_exec. cbn [take]. rewrite be_val_3 by done. simpl. by rewrite Hb.
Qed.

Lemma wait_idle_ok n flash s : healthy n s → idle s → wait_busy flash s = (SFUD_SUCCESS, popped s).
Proof.
  intros Hh [Hb _]. unfold wait_busy.
  assert (sfud_read_status s = (SFUD_SUCCESS, nor_status (io_nor s), popped s)) as E.
  { unfold sfud_read_status. rewrite (xfer_ok n) by done. unfold nor_exec, tick. simpl. by rewrite Hb. }
  destruct (retry_times flash); simpl; rewrite E, (proj1 (status_bits _)), Hb; done.
Qed.

Lemma reset_ok n flash s :
  healthy n s → idle s → nor_wel (io_nor s) = false →
  reset flash s = (SFUD_SUCCESS, popped (popped (popped (popped s)))).
Proof.
  intros Hh Hi Hw. assert (∀ s cmd, healthy n s → idle s → nor_wel (io_nor s) = false →
    cmd = SFUD_CMD_ENABLE_RESET ∨ cmd = SFUD_CMD_RESET → spi_write s [cmd] = (SFUD_SUCCESS, popped s)) as Hx.
  { intros s0 cmd Hh0 [Hb0 _] Hw0 Hc. unfold spi_write. rewrite (xfer_ok n) by done.
    unfold nor_exec. simpl (nor_busy _). simpl (nor_wel _). rewrite Hb0, Hw0. by destruct Hc as [-> | ->]. }
  unfold reset. rewrite Hx by auto. simpl.
  destruct (popped_ok n s Hh Hi) as [Hh1 Hi1]. rewrite (wait_idle_ok n) by done.
  destruct (popped_ok n _ Hh1 Hi1) as [Hh2 Hi2]. rewrite Hx by auto. simpl.
  destruct (popped_ok n _ Hh2 Hi2) as [Hh3 Hi3]. by rewrite (wait_idle_ok n) by done.
Qed.

(** * The eraser table *)

Lemma sort_inner_Forall (P : eraser → Prop) l i j : Forall P l → Forall P (sort_inner l i j).
Proof.
  intros Hl. unfold sort_inner. destruct (l !! i) as [a|] eqn:Ea; [|done].
  destruct (l !! j) as [b|] eqn:Eb; [|done]. case_match; [|done].
  rewrite Forall_lookup in Hl. apply Forall_insert; [apply Forall_insert|]; eauto.
  by rewrite Forall_lookup.
Qed.

Lemma sort_inner_head l i j : (0 < i)%nat → (0 < j)%nat → sort_inner l i j !! 0%nat = l !! 0%nat.
Proof.
  intros Hi Hj. unfold sort_inner. repeat case_match; try done.
  by rewrite !list_lookup_insert_ne by lia.
Qed.

Lemma sort_fold_inv (P : eraser → Prop) l i js :
  Forall P l → Forall P (foldl (λ l j, sort_inner l i j) l js).
Proof.
  revert l. induction js as [|j js IH]; intros l Hl; simpl; [done |]. by apply IH, sort_inner_Forall.
Qed.

Lemma sort_fold_head l i js :
  (0 < i)%nat → Forall (λ j, (0 < j)%nat) js →
  foldl (λ l j, sort_inner l i j) l js !! 0%nat = l !! 0%nat.
Proof.
  intros Hi. revert l. induction js as [|j js IH]; intros l Hj; simpl; [done |].
  apply Forall_cons in Hj as [? ?]. rewrite IH by done. by apply sort_inner_head.
Qed.

Lemma sort_outer_inv (P : eraser → Prop) l i : Forall P l → Forall P (sort_outer l i).
Proof. intros Hl. unfold sort_outer. repeat case_match; try done. by apply sort_fold_inv. Qed.

Lemma sort_outer_head l i : (0 < i)%nat → sort_outer l i !! 0%nat = l !! 0%nat.
Proof.
  intros Hi. unfold sort_outer. repeat case_match; try done. apply sort_fold_head; [done |].
  apply Forall_forall. intros j. rewrite elem_of_seq. lia.
Qed.

(** Not smaller than [a], or unused. *)
Definition unused_or_ge (a : Z) (x : eraser) : Prop := er_size x = 0 ∨ a ≤ er_size x.

(** The first [m] entries are unused or not smaller than the first one, which is used. *)
Definition front_min (l : list eraser) (m : nat) : Prop :=
  ∃ h, l !! 0%nat = Some h ∧ er_size h ≠ 0
    ∧ ∀ k x, (k < m)%nat → l !! k = Some x → unused_or_ge (er_size h) x.

Lemma front_min_step l m :
  (0 < m)%nat → front_min l m → front_min (sort_inner l 0 m) (S m).
Proof.
  intros Hm (h & Eh & Hh & Hl). unfold sort_inner. rewrite Eh. destruct (l !! m) as [b|] eqn:Eb.
  - destruct (negb (er_size b =? 0) && (er_size b <? er_size h)) eqn:Ec.
    + apply andb_true_iff in Ec as [Hb%negb_true_iff%Z.eqb_neq Hlt%Z.ltb_lt].
      apply lookup_lt_Some in Eb as Hlen.
      exists b. split_and!; [|done |].
      * rewrite list_lookup_insert_ne, list_lookup_insert_eq by lia. done.
      * intros k x Hk Hx. destruct (decide (k = m)) as [->|Hkm].
        { rewrite list_lookup_insert_eq in Hx by (rewrite length_insert; lia).
          injection Hx as <-. right. lia. }
        rewrite list_lookup_insert_ne in Hx by lia. destruct (decide (k = 0%nat)) as [->|Hk0].
        { rewrite list_lookup_insert_eq in Hx by lia. injection Hx as <-. right. lia. }
        rewrite list_lookup_insert_ne in Hx by lia.
        destruct (Hl k x ltac:(lia) Hx); [by left | right; lia].
    + exists h. split_and!; [done | done |]. intros k x Hk Hx.
      destruct (decide (k = m)) as [->|Hkm]; [|apply (Hl k); [lia | done]].
      rewrite Eb in Hx. injection Hx as ->. apply andb_false_iff in Ec as [E|E].
      * left. by apply negb_false_iff, Z.eqb_eq in E.
      * right. by apply Z.ltb_ge in E.
  - exists h. split_and!; [done | done |]. intros k x Hk Hx.
    destruct (decide (k = m)) as [->|Hkm]; [congruence | apply (Hl k); [lia | done]].
Qed.

Lemma sort_inner_length l i j : length (sort_inner l i j) = length l.
Proof. unfold sort_inner. repeat case_match; by rewrite ?length_insert. Qed.

(** The first pass brings the smallest eraser to the front. *)
Lemma sort_first a b c d :
  er_size a ≠ 0 →
  ∃ h, sort_outer [a; b; c; d] 0 !! 0%nat = Some h ∧ er_size h ≠ 0
    ∧ Forall (unused_or_ge (er_size h)) (sort_outer [a; b; c; d] 0).
Proof.
  intros Ha. unfold sort_outer. cbn [lookup list_lookup].
  rewrite (proj2 (Z.eqb_neq (er_size a) 0)) by done. cbn [negb seq Nat.sub foldl].
  assert (front_min [a; b; c; d] 1) as H1.
  { exists a. split_and!; [done | done |]. intros [|k] x Hk Hx; [|lia].
    injection Hx as <-. right. lia. }
  apply front_min_step in H1; [|lia]. apply front_min_step in H1; [|lia].
  apply front_min_step in H1; [|lia]. destruct H1 as (h & Eh & Hh & Hl).
  exists h. split_and!; [done | done |]. apply Forall_lookup. intros k x Hx.
  apply (Hl k); [|done]. apply lookup_lt_Some in Hx. rewrite !sort_inner_length in Hx. simpl in Hx. lia.
Qed.

Lemma sort_erasers_spec (P : eraser → Prop) a b c d :
  Forall P [a; b; c; d] → er_size a ≠ 0 →
  ∃ h, sort_erasers [a; b; c; d] !! 0%nat = Some h ∧ er_size h ≠ 0
    ∧ Forall P (sort_erasers [a; b; c; d])
    ∧ Forall (unused_or_ge (er_size h)) (sort_erasers [a; b; c; d]).
Proof.
  intros HP Ha. destruct (sort_first a b c d Ha) as (h & Eh & Hh & Hge).
  exists h. unfold sort_erasers. cbn [foldl seq]. split_and!; [| done | |].
  - by rewrite !sort_outer_head by lia.
  - by do 4 apply sort_outer_inv.
  - by do 3 apply sort_outer_inv.
Qed.

Lemma smallest_eraser_head l h :
  l !! 0%nat = Some h → Forall (unused_or_ge (er_size h)) l → smallest_eraser l = h.
Proof.
  destruct l as [|x l]; [done |]. intros [= ->] Hl. unfold smallest_eraser. simpl. rewrite drop_0.
  apply Forall_cons in Hl as [_ Hl]. induction l as [|y l IH]; simpl; [done |].
  apply Forall_cons in Hl as [Hy Hl]. unfold unused_or_ge in Hy.
  destruct (Z.eqb_spec (er_size y) 0); simpl; [by apply IH |].
  destruct (Z.ltb_spec (er_size y) (er_size h)); [lia | by apply IH].
Qed.

(** * A chip whose SFDP tables describe it *)

Definition bit (x n : Z) : bool := negb (Z.shiftr (Z.land x (Z.shiftl 1 n)) n =? 0).

(** A used entry of the eraser table is a block size and command of the chip. *)
Definition eraser_true (s : io) (e : eraser) : Prop :=
  er_size e = 0
  ∨ ∃ n, 0 < n < 32 ∧ er_size e = 2 ^ n ∧ erases s e ∧ er_cmd e ≠ 0
      ∧ (er_size e | blen (nor_mem (io_nor s))).

Record sfdp_true (s : io) (tab : list Z) : Prop := {
  tr_header : ∃ mi ma n x, ma ≤ 1
    ∧ take 8 (np_sfdp (nor_spec (io_nor s))) = [0x53; 0x46; 0x44; 0x50; mi; ma; n; x];
  tr_basic : ∃ id mi ma len p0 p1 p2 x, ma ≤ 1 ∧ 9 ≤ len ∧ is_u8 p0 ∧ is_u8 p1 ∧ is_u8 p2
    ∧ take 8 (drop 8 (np_sfdp (nor_spec (io_nor s)))) = [id; mi; ma; len; p0; p1; p2; x]
    ∧ take 36 (drop (Z.to_nat (p2 * 65536 + (p1 * 256 + p0))) (np_sfdp (nor_spec (io_nor s)))) = tab;
  tr_len : length tab = 36%nat;
  tr_4k : Z.land (nthZ tab 0) 0x03 = 1 ∨ Z.land (nthZ tab 0) 0x03 = 3;
  tr_addr : 0 ≤ Z.shiftr (Z.land (nthZ tab 2) (Z.shiftl 0x03 1)) 1 ≤ 2;
  tr_cap : table_capacity tab = Some (blen (nor_mem (io_nor s)));
  tr_erasers : ∀ i, 0 ≤ i < 4 → nthZ tab (28 + 2 * i) = 0
    ∨ (0 < nthZ tab (28 + 2 * i) < 32
       ∧ eraser_true s (mk_eraser (2 ^ nthZ tab (28 + 2 * i)) (nthZ tab (28 + 2 * i + 1))));
  tr_some : ∃ i, 0 ≤ i < 4 ∧ nthZ tab (28 + 2 * i) ≠ 0
}.

Lemma sfdp_true_spec s s' tab :
  nor_spec (io_nor s') = nor_spec (io_nor s) → nor_mem (io_nor s') = nor_mem (io_nor s) →
  sfdp_true s tab → sfdp_true s' tab.
Proof.
  intros E1 E2 []. assert (∀ e, eraser_true s e → eraser_true s' e) as He.
  { intros e. unfold eraser_true, erases. by rewrite E1, E2. }
  constructor; rewrite ?E1, ?E2; try done. intros i Hi. destruct (tr_erasers0 i Hi) as [|[? ?]]; auto.
Qed.

Lemma take_area k (l r : list Z) : length (take k l) = k → take k (l ++ r) = take k l.
Proof. intros H. rewrite length_take in H. apply take_app_le. lia. Qed.

Lemma fill_erasers_spec s tab :
  sfdp_true s tab →
  ∃ a b c d, fill_erasers tab (replicate 4 (mk_eraser 0 0)) = [a; b; c; d]
    ∧ er_size a ≠ 0 ∧ Forall (eraser_true s) [a; b; c; d].
Proof.
  intros Ht. pose proof (tr_erasers _ _ Ht) as He. destruct (tr_some _ _ Ht) as (k & Hk & Hnz).
  assert (eraser_true s (mk_eraser 0 0)) as H0 by (by left).
  assert (∀ i, 0 ≤ i < 4 → nthZ tab (28 + 2 * i) ≠ 0 →
    er_size (mk_eraser (u32 (Z.shiftl 1 (nthZ tab (28 + 2 * i)))) (nthZ tab (28 + 2 * i + 1))) ≠ 0
    ∧ eraser_true s (mk_eraser (u32 (Z.shiftl 1 (nthZ tab (28 + 2 * i)))) (nthZ tab (28 + 2 * i + 1)))) as Hg.
  { intros i Hi Hne. destruct (He i Hi) as [|[Hr Hgood]]; [done |].
    rewrite Z.shiftl_1_l.
    assert (0 < 2 ^ nthZ tab (28 + 2 * i) < 2 ^ 32) as Hp
      by (split; [apply Z.pow_pos_nonneg | apply Z.pow_lt_mono_r]; lia).
    rewrite u32_small by (unfold is_u32; change (2 ^ 32) with 4294967296 in Hp; lia).
    split; [simpl; lia | done]. }
  unfold fill_erasers. cbn [foldl].
  pose proof (Hg 0 ltac:(lia)) as G0. pose proof (Hg 1 ltac:(lia)) as G1.
  pose proof (Hg 2 ltac:(lia)) as G2. pose proof (Hg 3 ltac:(lia)) as G3.
  assert (k = 0 ∨ k = 1 ∨ k = 2 ∨ k = 3) as Hk4 by lia. clear Hg He Hk.
  destruct (Z.eq_dec (nthZ tab (28 + 2 * 0)) 0) as [N0|N0], (Z.eq_dec (nthZ tab (28 + 2 * 1)) 0) as [N1|N1],
    (Z.eq_dec (nthZ tab (28 + 2 * 2)) 0) as [N2|N2], (Z.eq_dec (nthZ tab (28 + 2 * 3)) 0) as [N3|N3];
  try (exfalso; destruct Hk4 as [-> | [-> | [-> | ->]]]; congruence);
  try destruct (G0 N0); try destruct (G1 N1); try destruct (G2 N2); try destruct (G3 N3);
  clear G0 G1 G2 G3; apply Z.eqb_eq in N0 || apply Z.eqb_neq in N0; apply Z.eqb_eq in N1 || apply Z.eqb_neq in N1;
  apply Z.eqb_eq in N2 || apply Z.eqb_neq in N2; apply Z.eqb_eq in N3 || apply Z.eqb_neq in N3;
  rewrite N0; cbn [negb fst]; rewrite N1; cbn [negb fst]; rewrite N2; cbn [negb fst]; rewrite N3; cbn [negb fst];
  (eexists _, _, _, _; split; [reflexivity |]; split; [assumption | repeat (apply Forall_cons_2; [assumption |]); apply Forall_nil_2]).
Qed.

(** The three SFDP reads on a working bus. *)
Lemma read_sfdp_header_ok n flash s tab :
  healthy n s → idle s → sfdp_true s tab →
  ∃ p, read_sfdp_header flash s = (true, set_sfdp flash p, popped s)
    ∧ erasers p = erasers (fl_sfdp flash).
Proof.
  intros Hh Hi Ht. destruct (tr_header _ _ Ht) as (mi & ma & nn & x & Hma & Ehd).
  unfold read_sfdp_header. rewrite (sfdp_data_ok n) by (done || lia).
  change (Z.to_nat 0) with 0%nat. rewrite drop_0, take_area by (by rewrite Ehd). rewrite Ehd.
  change (nthZ [83; 70; 68; 80; mi; ma; nn; x] 5) with ma.
  change (nthZ [83; 70; 68; 80; mi; ma; nn; x] 4) with mi. cbn -[Z.ltb set_sfdp sfdp_revs popped].
  destruct (Z.ltb_spec SUPPORT_MAX_SFDP_MAJOR_REV ma) as [Hx|_];
    [unfold SUPPORT_MAX_SFDP_MAJOR_REV in Hx; lia |]. by eexists.
Qed.

Lemma read_basic_header_ok n s tab :
  healthy n s → idle s → sfdp_true s tab →
  ∃ h, read_basic_header s = (true, h, popped s) ∧ 0 ≤ ph_ptp h < 16777216
    ∧ take 36 (drop (Z.to_nat (ph_ptp h)) (np_sfdp (nor_spec (io_nor s)))) = tab.
Proof.
  intros Hh Hi Ht.
  destruct (tr_basic _ _ Ht) as (id & mi & ma & len & p0 & p1 & p2 & x & Hma & Hlen & B0 & B1 & B2 & Ebs & Etab).
  unfold read_basic_header. rewrite (sfdp_data_ok n) by (done || lia).
  change (Z.to_nat 8) with 8%nat. rewrite take_area by (by rewrite Ebs). rewrite Ebs.
  cbn [ph_major_rev ph_len].
  change (nthZ [id; mi; ma; len; p0; p1; p2; x] 2) with ma.
  change (nthZ [id; mi; ma; len; p0; p1; p2; x] 3) with len.
  change (nthZ [id; mi; ma; len; p0; p1; p2; x] 4) with p0.
  change (nthZ [id; mi; ma; len; p0; p1; p2; x] 5) with p1.
  change (nthZ [id; mi; ma; len; p0; p1; p2; x] 6) with p2.
  cbn -[Z.ltb popped Z.lor Z.shiftl nthZ].
  destruct (Z.ltb_spec SUPPORT_MAX_SFDP_MAJOR_REV ma) as [Hx|_];
    [unfold SUPPORT_MAX_SFDP_MAJOR_REV in Hx; lia |].
  destruct (Z.ltb_spec len BASIC_TABLE_LEN) as [Hx|_]; [unfold BASIC_TABLE_LEN in Hx; lia |].
  eexists. split; [reflexivity |]. cbn [ph_ptp].
  assert (Z.lor (Z.lor p0 (Z.shiftl p1 8)) (Z.shiftl p2 16) = p2 * 65536 + (p1 * 256 + p0)) as ->.
  { unfold is_u8 in *. rewrite (Z.lor_comm p0), lor_shiftl by (simpl; lia). change (2 ^ 8) with 256.
    rewrite Z.lor_comm, lor_shiftl by (simpl; lia). done. }
  unfold is_u8 in *. split; [lia | done].
Qed.

Lemma read_basic_table_ok n flash s h tab :
  healthy n s → idle s → sfdp_true s tab → erasers (fl_sfdp flash) = replicate 4 (mk_eraser 0 0) →
  0 ≤ ph_ptp h < 16777216 →
  take 36 (drop (Z.to_nat (ph_ptp h)) (np_sfdp (nor_spec (io_nor s)))) = tab →
  ∃ p e, read_basic_table flash s h = (true, set_sfdp flash p, popped s)
    ∧ available p = true ∧ sfdp_capacity p = blen (nor_mem (io_nor s))
    ∧ write_gran p = (if bit (nthZ tab 0) 2 then 256 else 1)
    ∧ erasers p !! 0%nat = Some e ∧ er_size e ≠ 0
    ∧ Forall (eraser_true s) (erasers p) ∧ Forall (unused_or_ge (er_size e)) (erasers p).
Proof.
  intros Hh Hi Ht He Hp Etab. destruct (fill_erasers_spec s tab Ht) as (a & b & c & d & Ef & Hanz & Hforall).
  destruct (sort_erasers_spec _ a b c d Hforall Hanz) as (e & Ee & Hez & Hse & Hge).
  unfold read_basic_table. rewrite (sfdp_data_ok n) by done.
  rewrite take_area by (rewrite Etab; apply (tr_len _ _ Ht)). rewrite Etab.
  change (bool_decide (SFUD_SUCCESS = SFUD_SUCCESS)) with true. cbn [negb].
  replace (negb ((Z.land (nthZ tab 0) 3 =? 1) || (Z.land (nthZ tab 0) 3 =? 3))) with false
    by (destruct (tr_4k _ _ Ht) as [-> | ->]; done).
  pose proof (tr_addr _ _ Ht) as Hab. set (ab := Z.shiftr (Z.land (nthZ tab 2) _) 1) in *.
  replace (negb ((ab =? 0) || (ab =? 1) || (ab =? 2))) with false
    by (symmetry; apply negb_false_iff;
        destruct (Z.eqb_spec ab 0), (Z.eqb_spec ab 1), (Z.eqb_spec ab 2); simpl; lia || done).
  rewrite (tr_cap _ _ Ht), He, Ef.
  eexists _, e. split; [reflexivity |]. cbn [available sfdp_capacity write_gran erasers].
  split_and!; try done. unfold bit. by destruct (Z.shiftr _ 2 =? 0).
Qed.

Lemma read_sfdp_ok n flash s tab :
  healthy n s → idle s → sfdp_true s tab → erasers (fl_sfdp flash) = replicate 4 (mk_eraser 0 0) →
  ∃ p e, sfud_read_sfdp flash s = (true, set_sfdp flash p, popped (popped (popped s)))
    ∧ available p = true ∧ sfdp_capacity p = blen (nor_mem (io_nor s))
    ∧ write_gran p = (if bit (nthZ tab 0) 2 then 256 else 1)
    ∧ erasers p !! 0%nat = Some e ∧ er_size e ≠ 0
    ∧ Forall (eraser_true s) (erasers p) ∧ Forall (unused_or_ge (er_size e)) (erasers p).
Proof.
  intros Hh Hi Ht He. destruct (popped_ok n s Hh Hi) as [Hh1 Hi1].
  destruct (popped_ok n _ Hh1 Hi1) as [Hh2 Hi2].
  assert (∀ s', nor_spec (io_nor s') = nor_spec (io_nor s) → nor_mem (io_nor s') = nor_mem (io_nor s) →
    sfdp_true s' tab) as Ht' by (intros; by apply (sfdp_true_spec s)).
  unfold sfud_read_sfdp. destruct (read_sfdp_header_ok n flash s tab Hh Hi Ht) as (p1 & -> & He1). cbn [negb].
  destruct (read_basic_header_ok n (popped s) tab) as (h & -> & Hp & Etab); auto. cbn [negb].
  destruct (read_basic_table_ok n (set_sfdp flash p1) (popped (popped s)) h tab)
    as (p & e & -> & H); auto; [by rewrite <- He |].
  exists p, e. split; [done | exact H].
Qed.

(** * The configured device *)

(** What [sfud_device_init] starts from: a device entry that the user did not fill in, as
    in the static table of the board. *)
Definition blank_flash (flash : sfud_flash) : Prop :=
  unconfigured (fl_chip flash) = true ∧ erasers (fl_sfdp flash) = replicate 4 (mk_eraser 0 0).

(** A chip ready for its first command, with SFDP tables. *)
Record fresh_chip (n : nat) (s : io) (tab : list Z) : Prop := {
  fc_healthy : healthy n s;
  fc_idle : idle s;
  fc_wel : nor_wel (io_nor s) = false;
  fc_4b : nor_4b (io_nor s) = false;
  fc_size : 0 < blen (nor_mem (io_nor s)) < 4294967296;
  fc_id : ∃ mf ty cap, np_id (nor_spec (io_nor s)) = [mf; ty; cap]
    ∧ (mf, ty, cap) ≠ (0xC2, 0x20, 0x16);
  fc_sfdp : sfdp_true s tab
}.

(** The write mode that the granularity bit of the table selects. *)
Definition mode_of (tab : list Z) : Z :=
  if bit (nthZ tab 0) 2 then SFUD_WM_PAGE_256B else SFUD_WM_BYTE.

(** What [probe_chip] leaves for [configure_chip]. *)
Record probed (flash : sfud_flash) (s : io) (tab : list Z) : Prop := {
  pr_avail : available (fl_sfdp flash) = true;
  pr_cap : capacity (fl_chip flash) = blen (nor_mem (io_nor s));
  pr_mode : write_mode (fl_chip flash) = mode_of tab;
  pr_id : (mf_id (fl_chip flash), type_id (fl_chip flash), capacity_id (fl_chip flash))
          ≠ (0xC2, 0x20, 0x16);
  pr_erasers : Forall (eraser_true s) (erasers (fl_sfdp flash));
  pr_min : Forall (unused_or_ge (erase_gran (fl_chip flash))) (erasers (fl_sfdp flash));
  pr_first : erasers (fl_sfdp flash) !! 0%nat
             = Some (mk_eraser (erase_gran (fl_chip flash)) (erase_gran_cmd (fl_chip flash)));
  pr_gran : erase_gran (fl_chip flash) ≠ 0
}.

Lemma probe_ok n flash s tab :
  fresh_chip n s tab → blank_flash flash →
  ∃ flash', probe_chip flash s = (SFUD_SUCCESS, flash', popped (popped (popped (popped s))))
    ∧ probed flash' s tab ∧ retry_times flash' = retry_times flash.
Proof.
  intros [Hh Hi Hw H4 Hsz (mf & ty & cap & Eid & Hid) Ht] [Hu He].
  unfold probe_chip. rewrite Hu. unfold read_jedec_id. rewrite (jedec_ok n), Eid by done.
  change (bool_decide (SFUD_SUCCESS = SFUD_SUCCESS)) with true. cbn [negb take app].
  destruct (popped_ok n s Hh Hi) as [Hh1 Hi1].
  set (flash1 := set_chip flash _).
  destruct (read_sfdp_ok n flash1 (popped s) tab) as (p & e & -> & Hav & Hcap & Hg & Ee & Hez & Hf & Hge);
    [done | done | by apply (sfdp_true_spec s) | done |].
  eexists. split; [reflexivity |]. split; [|done].
  assert (smallest_eraser (erasers p) = e) as Es by by apply smallest_eraser_head.
  constructor; cbn [fl_chip fl_sfdp set_chip set_sfdp capacity write_mode erase_gran erase_gran_cmd
    mf_id type_id capacity_id chip_from_sfdp]; rewrite ?Es; try done.
  - rewrite Hg. unfold mode_of. by destruct (bit (nthZ tab 0) 2).
  - by destruct e.
Qed.

(** The outcome of a successful initialisation. *)
Record ready (flash : sfud_flash) (s s' : io) (tab : list Z) : Prop := {
  rd_ok : flash_ok flash s';
  rd_idle : idle s';
  rd_healthy : healthy (retry_times flash) s';
  rd_mem : nor_mem (io_nor s') = nor_mem (io_nor s);
  rd_locks : io_locks s' = io_locks s;
  rd_mode : write_mode (fl_chip flash) = mode_of tab;
  rd_erasers : erasers_ok flash s' (erase_gran (fl_chip flash));
  rd_gran : 0 < erase_gran (fl_chip flash);
  rd_div : (erase_gran (fl_chip flash) | capacity (fl_chip flash));
  rd_init : init_ok flash = true
}.

Lemma pow2_divide a b : 0 ≤ a → 0 ≤ b → 2 ^ a ≤ 2 ^ b → (2 ^ a | 2 ^ b).
Proof.
  intros Ha Hb Hle. apply Z.pow_le_mono_r_iff in Hle; [|lia | lia].
  exists (2 ^ (b - a)). rewrite <- Z.pow_add_r by lia. f_equal. lia.
Qed.

Lemma eraser_at_in flash i :
  er_size (eraser_at flash i) ≠ 0 → eraser_at flash i ∈ erasers (fl_sfdp flash).
Proof.
  unfold eraser_at. destruct (erasers (fl_sfdp flash) !! i) eqn:E; simpl; [|done].
  intros _. by eapply list_elem_of_lookup_2.
Qed.

(** The erasers found are usable, on any chip state with the same parameters. *)
Lemma probed_erasers flash s s' tab :
  probed flash s tab → nor_spec (io_nor s') = nor_spec (io_nor s) →
  erasers_ok flash s' (erase_gran (fl_chip flash)) ∧ 0 < erase_gran (fl_chip flash)
  ∧ (erase_gran (fl_chip flash) | capacity (fl_chip flash)) ∧ erase_gran_cmd (fl_chip flash) ≠ 0.
Proof.
  intros [Hav Hcap Hm Hid Hf Hge H0 Hg] Es.
  assert (∀ e, erases s e → erases s' e) as Hes by (intros e; unfold erases; by rewrite Es).
  rewrite Forall_forall in Hf, Hge.
  assert (eraser_at flash 0 = mk_eraser (erase_gran (fl_chip flash)) (erase_gran_cmd (fl_chip flash))) as E0
    by (unfold eraser_at; by rewrite H0).
  destruct (Hf _ (list_elem_of_lookup_2 _ _ _ H0)) as [|(a & Ha & Ea & He0 & Hc0 & Hd0)]; [done |].
  cbn [er_size er_cmd] in *.
  split_and!; [constructor; [congruence |] | | congruence | done].
  - intros _. rewrite E0. split_and!; [done | auto |]. intros i Hi.
    pose proof (eraser_at_in flash i Hi) as Hin.
    destruct (Hf _ Hin) as [|(b & Hb & Eb & He & _)]; [done |]. split; [auto |].
    destruct (Hge _ Hin) as [|Hle]; [done |]. rewrite Eb, Ea in *. apply pow2_divide; lia.
  - rewrite Ea. apply Z.pow_pos_nonneg; lia.
Qed.

Lemma probed_configured flash s tab :
  probed flash s tab → 0 < blen (nor_mem (io_nor s)) → unconfigured (fl_chip flash) = false.
Proof.
  intros Hp Hs. destruct (probed_erasers flash s s tab Hp eq_refl) as (_ & Hg & _ & Hc).
  destruct Hp. unfold unconfigured. rewrite pr_mode0, pr_cap0. unfold mode_of.
  destruct (Z.eqb_spec (blen (nor_mem (io_nor s))) 0); [lia |].
  destruct (Z.eqb_spec (erase_gran (fl_chip flash)) 0); [lia |].
  destruct (Z.eqb_spec (erase_gran_cmd (fl_chip flash)) 0); [done |].
  by destruct (bit _ _).
Qed.

(** Entering the 4-byte address mode on a working bus. *)
Lemma enter_4b_ok n flash s :
  healthy n s → idle s →
  ∃ s', set_4_byte_address_mode flash s true = (SFUD_SUCCESS, set_addr_in_4_byte flash true, s')
    ∧ healthy n s' ∧ idle s' ∧ nor_mem (io_nor s') = nor_mem (io_nor s)
    ∧ io_locks s' = io_locks s ∧ nor_spec (io_nor s') = nor_spec (io_nor s)
    ∧ nor_4b (io_nor s') = true.
Proof.
  intros Hh Hi. unfold set_4_byte_address_mode.
  destruct (set_write_enabled s true) as [r s1] eqn:E.
  destruct (set_write_enabled_spec n s true r s1 E) as ([F M] & I & _ & Hr).
  rewrite (Hr Hh Hi) in *. destruct F. specialize (fr_healthy Hh). specialize (I Hi). destruct I as [Hb Ha].
  simpl. unfold spi_write. rewrite (xfer_ok n) by done. unfold nor_exec.
  simpl (nor_busy _). rewrite Hb. simpl. eexists. split; [reflexivity |].
  cbn [io_nor io_locks]. split_and!; try done. by apply (popped_ok n s1).
Qed.

Lemma popped4_ok n s :
  healthy n s → idle s →
  healthy n (popped (popped (popped (popped s)))) ∧ idle (popped (popped (popped (popped s)))).
Proof.
  intros Hh Hi. destruct (popped_ok n s Hh Hi) as [H1 I1]. destruct (popped_ok n _ H1 I1) as [H2 I2].
  destruct (popped_ok n _ H2 I2) as [H3 I3]. by apply popped_ok.
Qed.

Lemma configure_ok n flash s tab :
  healthy n s → idle s → nor_wel (io_nor s) = false → nor_4b (io_nor s) = false →
  blen (nor_mem (io_nor s)) < 4294967296 → probed flash s tab → retry_times flash = n →
  ∃ flash' s', configure_chip flash s = (SFUD_SUCCESS, flash', s')
    ∧ ready (set_init_ok flash' true) s s' tab.
Proof.
  intros Hh Hi Hw H4 Hsz Hp Hn. unfold configure_chip. rewrite (reset_ok n) by done.
  set (s4 := popped (popped (popped (popped s)))).
  cbn -[set_4_byte_address_mode flag_set Z.eqb Z.ltb Z.shiftl set_addr_in_4_byte].
  assert (healthy n s4 ∧ idle s4) as [Hh4 Hi4] by by apply popped4_ok.
  pose proof (pr_mode _ _ _ Hp) as Hm. pose proof (pr_cap _ _ _ Hp) as Hcap. pose proof (pr_id _ _ _ Hp) as Hid.
  replace (flag_set (write_mode (fl_chip flash)) SFUD_WM_AAI) with false
    by (rewrite Hm; unfold mode_of; by destruct (bit _ _)).
  replace ((0xC2 =? mf_id (fl_chip flash)) && (0x20 =? type_id (fl_chip flash))
           && (0x16 =? capacity_id (fl_chip flash))) with false.
  2: { symmetry. apply not_true_is_false. rewrite !andb_true_iff, !Z.eqb_eq. intros [[E1 E2] E3].
       by rewrite <- E1, <- E2, <- E3 in Hid. }
  change (bool_decide (SFUD_SUCCESS = SFUD_SUCCESS)) with true. cbn [negb].
  destruct (Z.ltb_spec (Z.shiftl 1 24) (capacity (fl_chip flash))) as [Hbig|Hsmall];
    change (Z.shiftl 1 24) with 16777216 in *.
  - destruct (enter_4b_ok n flash s4 Hh4 Hi4) as (s' & -> & Hh' & Hi' & Hm' & Hl' & Hs' & H4').
    destruct (probed_erasers flash s s' tab Hp Hs') as (He & Hg & Hd & _).
    eexists _, s'. split; [reflexivity |].
    constructor; try done; [constructor; rewrite ?Hm'; done | by rewrite <- Hn in Hh' | by destruct He; constructor].
  - destruct (probed_erasers flash s s4 tab Hp eq_refl) as (He & Hg & Hd & _).
    eexists _, s4. split; [reflexivity |].
    constructor; try done; [constructor; try done | by rewrite <- Hn in Hh4 | by destruct He; constructor].
    intros _. change (nor_mem (io_nor s4)) with (nor_mem (io_nor s)). lia.
Qed.

Lemma device_init_ok times flash s tab :
  fresh_chip times s tab → blank_flash flash →
  ∃ flash' s', sfud_device_init flash times s = (SFUD_SUCCESS, flash', s')
    ∧ ready flash' s s' tab.
Proof.
  intros Hf Hb. unfold sfud_device_init, hardware_init, sfud_spi_port_init.
  destruct (probe_ok times (mk_flash (fl_chip flash) (fl_sfdp flash) (init_ok flash) (addr_in_4_byte flash) times)
    s tab Hf Hb) as (flash1 & -> & Hp & Hr).
  change (bool_decide (SFUD_SUCCESS = SFUD_SUCCESS)) with true. cbn [negb].
  destruct Hf as [Hh Hi Hw H4 Hsz _ _]. rewrite (probed_configured flash1 s tab) by (done || lia).
  set (s4 := popped (popped (popped (popped s)))).
  assert (healthy times s4 ∧ idle s4) as [Hh4 Hi4] by by apply popped4_ok.
  destruct (configure_ok times flash1 s4 tab) as (flash' & s' & -> & Hrd); try done; [apply Hsz | by destruct Hp; constructor |].
  eexists _, s'. split; [reflexivity |]. destruct Hrd; by constructor.
Qed.

(** * Erase, program, read back *)

(** The array after an erase of [lo, hi) and a program of the data at [addr]. *)
Lemma rewritten_lookup mem lo hi addr data (i : nat) :
  0 ≤ lo ≤ addr → addr + blen data ≤ hi ≤ blen mem → Forall is_u8 data →
  nor_program (memset mem lo 0xFF (hi - lo)) (Z.to_nat addr) data !! i =
    if (addr <=? Z.of_nat i) && (Z.of_nat i <? addr + blen data)
    then data !! Z.to_nat (Z.of_nat i - addr)
    else if (lo <=? Z.of_nat i) && (Z.of_nat i <? hi) then Some 0xFF else mem !! i.
Proof.
  intros Hlo Hhi Hb. pose proof (blen_nonneg data). rewrite nor_program_lookup, memset_lookup by lia.
  replace (lo + (hi - lo)) with hi by lia. unfold blen in *.
  destruct (Z.leb_spec addr (Z.of_nat i)), (Z.ltb_spec (Z.of_nat i) (addr + Z.of_nat (length data))); simpl;
    [rewrite decide_True by lia | by rewrite decide_False by lia ..].
  replace (Z.to_nat (Z.of_nat i - addr)) with (i - Z.to_nat addr)%nat by lia.
  destruct (Z.leb_spec lo (Z.of_nat i)), (Z.ltb_spec (Z.of_nat i) hi); simpl; try lia.
  destruct (data !! (i - Z.to_nat addr)%nat) as [b|] eqn:E; simpl; [|done].
  by rewrite land_255 by (by eapply Forall_lookup_1).
Qed.

(** Erase and program on a ready device. *)
Lemma erase_write_ok flash s addr data :
  flash_ok flash s → idle s → healthy (retry_times flash) s →
  flag_set (write_mode (fl_chip flash)) SFUD_WM_PAGE_256B = true →
  erasers_ok flash s (erase_gran (fl_chip flash)) → 0 < erase_gran (fl_chip flash) →
  (erase_gran (fl_chip flash) | capacity (fl_chip flash)) →
  0 ≤ addr → 0 < blen data → addr + blen data ≤ blen (nor_mem (io_nor s)) →
  ∃ s', sfud_erase_write flash s addr (blen data) data = (SFUD_SUCCESS, s')
    ∧ frame (retry_times flash) s s' ∧ idle s'
    ∧ nor_mem (io_nor s')
      = nor_program (memset (nor_mem (io_nor s)) (round_down (erase_gran (fl_chip flash)) addr) 0xFF
          (round_up (erase_gran (fl_chip flash)) (addr + blen data)
           - round_down (erase_gran (fl_chip flash)) addr)) (Z.to_nat addr) data.
Proof.
  intros Hok Hi Hh Hm Heo Hg Hd Ha Hs Hfit. unfold sfud_erase_write.
  pose proof (fo_range _ _ Hok). destruct (sfud_erase flash s addr (blen data)) as [r1 s1] eqn:E1.
  pose proof (sfud_erase_spec flash s _ addr (blen data) r1 s1 Hok Hi Heo Hg Hd Ha ltac:(lia) ltac:(lia) E1) as H1.
  destruct (Z.ltb_spec (blen (nor_mem (io_nor s))) (addr + blen data)); [lia |].
  destruct H1 as (F1 & (h & _ & _ & M1 & Eh) & I1 & Hr1). rewrite (Hr1 Hh) in *. rewrite (Eh eq_refl) in M1.
  cbn -[sfud_write]. destruct (sfud_write flash s1 addr (blen data) data) as [r2 s2] eqn:E2.
  assert (blen (nor_mem (io_nor s1)) = blen (nor_mem (io_nor s))) as El
    by (unfold blen; by rewrite (fr_len _ _ _ F1)).
  pose proof (sfud_write_spec flash s1 addr (blen data) data r2 s2 (flash_ok_frame _ _ _ _ Hok F1) (I1 eq_refl) Hm Ha
    ltac:(lia) ltac:(lia) ltac:(lia) E2) as H2. rewrite El in H2.
  destruct (Z.ltb_spec (blen (nor_mem (io_nor s))) (addr + blen data)); [lia |].
  destruct H2 as [(F2 & (k & _ & M2 & Ek) & I2 & Hr2) _].
  rewrite (Hr2 (fr_healthy _ _ _ F1 Hh)) in *. exists s2.
  split_and!; [done | by etrans | by apply I2 |]. rewrite M2, M1, (Ek eq_refl), take_ge by len. done.
Qed.

(** * Theorems *)

(** Initialisation from the chip's own tables. For an unconfigured device entry and a
    chip that is idle, whose SFDP tables describe it (in particular one of up to 4 GiB),
    on a bus without faults, [sfud_device_init] succeeds, changes no byte of the chip, and
    leaves a device that satisfies all the assumptions of the read, write and erase
    theorems: the capacity is the chip's, the address mode agrees with the chip's (4-byte
    addresses beyond 16 MiB), the eraser table is usable with the smallest size first,
    dividing the others and the capacity. *)
Theorem sfud_init_ready (flash : sfud_flash) (times : nat) (s : io) (tab : list Z)
    (Hchip : fresh_chip times s tab) (Hblank : blank_flash flash) :
  ∃ flash' s', sfud_device_init flash times s = (SFUD_SUCCESS, flash', s')
    ∧ ready flash' s s' tab.
Proof. exact (device_init_ok times flash s tab Hchip Hblank). Qed.

(** C32. Power-up to data. After the initialisation of a page-mode chip, an erase-write of
    any bytes inside the chip followed by a read of the same range returns these bytes;
    the blocks around them hold 0xFF and no byte outside these blocks has changed. *)
Theorem sfud_boot_roundtrip (flash : sfud_flash) (times : nat) (s : io) (tab : list Z)
    (addr : Z) (data buf : list Z)
    (Hchip : fresh_chip times s tab) (Hblank : blank_flash flash) (Hpage : bit (nthZ tab 0) 2 = true)
    (Haddr : 0 ≤ addr) (Hsize : 0 < blen data)
    (Hfit : addr + blen data ≤ blen (nor_mem (io_nor s))) (Hu8 : Forall is_u8 data)
    (Hbuf : blen buf = blen data) :
  ∃ flash' s0 s1 s2,
    sfud_device_init flash times s = (SFUD_SUCCESS, flash', s0)
    ∧ sfud_erase_write flash' s0 addr (blen data) data = (SFUD_SUCCESS, s1)
    ∧ sfud_read flash' s1 addr (blen data) buf = (SFUD_SUCCESS, data, s2)
    ∧ ∀ i : nat,
        nor_mem (io_nor s2) !! i =
          if (addr <=? Z.of_nat i) && (Z.of_nat i <? addr + blen data)
          then data !! Z.to_nat (Z.of_nat i - addr)
          else if (round_down (erase_gran (fl_chip flash')) addr <=? Z.of_nat i)
                  && (Z.of_nat i <? round_up (erase_gran (fl_chip flash')) (addr + blen data))
          then Some 0xFF else nor_mem (io_nor s) !! i.
Proof.
  destruct (device_init_ok times flash s tab Hchip Hblank) as (flash' & s0 & E0 & []).
  assert (flag_set (write_mode (fl_chip flash')) SFUD_WM_PAGE_256B = true) as Hm
    by (rewrite rd_mode0; unfold mode_of; by rewrite Hpage).
  rewrite <- rd_mem0 in *.
  destruct (erase_write_ok flash' s0 addr data) as (s1 & E1 & F1 & I1 & M1); try done.
  destruct (sfud_read flash' s1 addr (blen data) buf) as [[r2 buf2] s2] eqn:E2.
  assert (blen (nor_mem (io_nor s1)) = blen (nor_mem (io_nor s0))) as El
    by (unfold blen; by rewrite (fr_len _ _ _ F1)).
  destruct (sfud_read_spec flash' s1 addr (blen data) buf r2 buf2 s2 (flash_ok_frame _ _ _ _ rd_ok0 F1) Haddr
    Hsize ltac:(lia) E2) as ([_ M2] & _ & Hs & _ & Hr).
  rewrite Hr in * by first [by apply (fr_healthy _ _ _ F1) | rewrite (proj1 I1); lia]. specialize (Hs eq_refl).
  destruct (rounded_intro _ addr (blen data) rd_gran0 Haddr) as (_ & _ & _ & Hlo & Hhi & Hlo0).
  pose proof (round_up_le _ (addr + blen data) _ rd_gran0 rd_div0 ltac:(rewrite (fo_cap _ _ rd_ok0); lia)) as Hup.
  rewrite (fo_cap _ _ rd_ok0) in Hup.
  exists flash', s0, s1, s2. split_and!; [done | done | |].
  - rewrite E2. f_equal. f_equal. rewrite Hs. apply list_eq. intros i. rewrite memcpy_lookup by lia.
    destruct (Z.ltb_spec (Z.of_nat i) (0 + blen data)) as [Hi|Hi].
    + rewrite (proj2 (Z.leb_le _ _)) by lia. simpl. rewrite M1, rewritten_lookup by (done || lia).
      rewrite (proj2 (Z.leb_le _ _)), (proj2 (Z.ltb_lt _ _)) by lia. simpl. f_equal. lia.
    + rewrite (proj2 (Z.leb_le _ _)) by lia. simpl. by rewrite !lookup_ge_None_2 by len.
  - intros i. rewrite M2, M1. by apply rewritten_lookup; (done || lia).
Qed.

(** A chip whose SFDP table declares byte programming is accepted and never written:
    the initialisation succeeds with the mode [SFUD_WM_BYTE], for which [sfud_write] has no
    case, so that it reports success for every request without a single transfer. *)
Theorem sfud_byte_mode_ignored (flash : sfud_flash) (times : nat) (s : io) (tab : list Z)
    (Hchip : fresh_chip times s tab) (Hblank : blank_flash flash) (Hbyte : bit (nthZ tab 0) 2 = false) :
  ∃ flash' s', sfud_device_init flash times s = (SFUD_SUCCESS, flash', s')
    ∧ ∀ s addr size data, sfud_write flash' s addr size data = (SFUD_SUCCESS, s).
Proof.
  destruct (device_init_ok times flash s tab Hchip Hblank) as (flash' & s0 & E0 & []).
  exists flash', s0. split; [done |]. intros. unfold sfud_write. rewrite rd_mode0. unfold mode_of.
  by rewrite Hbyte.
Qed.

(** * Witnesses *)

(** A chip of 512 bytes with erase blocks of 64 and 16 bytes; [mode] is the first byte of its
    basic table. *)
Definition boot_table (mode : Z) : list Z :=
  [mode; 0x20; 0xF0; 0xFF; 0xFF; 0x0F; 0; 0] ++ replicate 20 0 ++ [6; 0x52; 4; 0x20; 0; 0; 0; 0].
Definition boot_io (mode : Z) : io :=
  mk_io (mk_nor (mk_nor_part [(0x20, 16); (0x52, 64)] [0xEF; 0x40; 0x16]
                   ([0x53; 0x46; 0x44; 0x50; 6; 1; 0; 0xFF] ++ [0; 6; 1; 9; 16; 0; 0; 0xFF]
                    ++ boot_table mode))
           (replicate 512 0xA5) false 0 false None [2%nat; 1%nat; 3%nat] []) 0.
Definition boot_flash : sfud_flash :=
  mk_flash (mk_chip 0 0 0 0 0 0 0)
    (mk_sfdp false 0 0 0 false 0 false 0 false false 0 (replicate 4 (mk_eraser 0 0))) false false 0.

Lemma boot_blank : blank_flash boot_flash.
Proof. done. Qed.

Lemma boot_fresh mode :
  Z.land mode 0x03 = 1 → fresh_chip 3 (boot_io mode) (boot_table mode).
Proof.
  intros H0.
  assert (∀ k, blen (nor_mem (io_nor (boot_io k))) = 512) as El by (intros k; by vm_compute).
  constructor; rewrite ?El; [by split; repeat constructor | done | done | done | lia | by exists 0xEF, 0x40, 0x16 |].
  constructor; rewrite ?El.
  - exists 6, 1, 0, 0xFF. split; [lia | reflexivity].
  - exists 0, 6, 1, 9, 16, 0, 0, 0xFF. unfold is_u8. repeat (split; [lia |]). split; reflexivity.
  - reflexivity.
  - left. exact H0.
  - split; by vm_compute.
  - reflexivity.
  - intros i Hi. unfold eraser_true. rewrite El.
    assert (i = 0 ∨ i = 1 ∨ i = 2 ∨ i = 3) as [-> | [-> | [-> | ->]]] by lia;
      [right | right | left; reflexivity | left; reflexivity].
    + split; [by vm_compute |]. right. exists 6. split_and!; try by vm_compute. by exists 8.
    + split; [by vm_compute |]. right. exists 4. split_and!; try by vm_compute. by exists 32.
  - exists 0. by vm_compute.
Qed.

Lemma sfud_init_ready_witness :
  ∃ flash' s', sfud_device_init boot_flash 3 (boot_io 0xE5) = (SFUD_SUCCESS, flash', s')
    ∧ ready flash' (boot_io 0xE5) s' (boot_table 0xE5).
Proof. exact (sfud_init_ready boot_flash 3 (boot_io 0xE5) (boot_table 0xE5) (boot_fresh 0xE5 eq_refl) boot_blank). Defined.

Lemma sfud_boot_roundtrip_witness :
  ∃ flash' s0 s1 s2,
    sfud_device_init boot_flash 3 (boot_io 0xE5) = (SFUD_SUCCESS, flash', s0)
    ∧ sfud_erase_write flash' s0 250 (blen demo_data) demo_data = (SFUD_SUCCESS, s1)
    ∧ sfud_read flash' s1 250 (blen demo_data) (replicate 12 0) = (SFUD_SUCCESS, demo_data, s2).
Proof.
  destruct (sfud_boot_roundtrip boot_flash 3 (boot_io 0xE5) (boot_table 0xE5) 250 demo_data (replicate 12 0)
    (boot_fresh 0xE5 eq_refl) boot_blank eq_refl ltac:(lia) ltac:(by vm_compute) ltac:(by vm_compute)
    ltac:(by repeat constructor) eq_refl) as (flash' & s0 & s1 & s2 & E0 & E1 & E2 & _).
  exists flash', s0, s1, s2. split; [exact E0 | split; [exact E1 | exact E2]].
Defined.

Lemma sfud_byte_mode_ignored_witness :
  ∃ flash' s', sfud_device_init boot_flash 3 (boot_io 0xE1) = (SFUD_SUCCESS, flash', s')
    ∧ sfud_write flash' s' 0 2 [1; 2] = (SFUD_SUCCESS, s').
Proof.
  destruct (sfud_byte_mode_ignored boot_flash 3 (boot_io 0xE1) (boot_table 0xE1) (boot_fresh 0xE1 eq_refl)
    boot_blank eq_refl) as (flash' & s' & E & H).
  exists flash', s'. split; [exact E | exact (H s' 0 2 [1; 2])].
Defined.
