(* ===== verification/AtClient.v ===== *)
(** The AT command client (rt-thread/components/net/at/src/at_client.c, at_utils.c): the
    parser thread that cuts the received bytes into lines and hands them to unsolicited
    result code (URC) handlers or to the waiting command, the response object, and the
    execution of a command.

    The parser thread is a function of one received byte ([parser_byte]); it is always
    blocked in [at_client_getchar], so its locals [last_ch] and [is_full] are part of the
    client's state. [W] is whatever the URC handlers change. *)

From Stdlib Require Import String.
From S2P Require Import Prelude.
From S2P Require Import CText.
From S2P Require Import RtDef.

(** * Data (at.h) *)

Inductive at_resp_status : Set := AT_RESP_OK | AT_RESP_ERROR | AT_RESP_TIMEOUT | AT_RESP_BUFF_FULL.
#[export] Instance at_resp_status_eq_dec : EqDecision at_resp_status.
Proof. solve_decision. Defined.

Inductive at_status : Set := AT_STATUS_UNINITIALIZED | AT_STATUS_INITIALIZED | AT_STATUS_CLI.
#[export] Instance at_status_eq_dec : EqDecision at_status.
Proof. solve_decision. Defined.

Record at_response : Type := mk_resp {
  rs_buf : list Z;
  rs_buf_size : Z;
  rs_buf_len : Z;
  rs_line_num : Z;
  rs_line_counts : Z
}.

(** The line buffer, with the locals of [at_recv_readline]. *)
Record reader : Type := mk_rd {
  recv_line_buf : list Z;
  recv_line_len : Z;
  recv_bufsz : Z;
  last_ch : Z;
  is_full : bool
}.

(** [client->resp] (whether it is set, and the object it points to or last pointed to), the
    value of the semaphore [resp_notice], and [resp_status]. *)
Record answer : Type := mk_ans {
  resp_on : bool;
  resp_obj : at_response;
  resp_notice : Z;
  resp_status : at_resp_status
}.

Section client.
Context {W : Type}.

Record at_urc : Type := mk_urc {
  cmd_prefix : list Z;
  cmd_suffix : list Z;
  urc_func : option (W → list Z → Z → W)
}.

(** [cl_tx] is what was written to the serial device, oldest first; [cl_hold] the number of
    times the calling thread holds [client->lock]; [cl_ub] records a write outside
    [send_buf]. *)
Record at_client : Type := mk_client {
  cl_status : at_status;
  end_sign : Z;
  send_bufsz : Z;
  cl_rd : reader;
  cl_ans : answer;
  urc_table : list (list at_urc);
  cl_tx : list (list Z);
  cl_hold : Z;
  cl_ub : bool
}.

Definition set_rd (c : at_client) (r : reader) : at_client :=
  mk_client (cl_status c) (end_sign c) (send_bufsz c) r (cl_ans c) (urc_table c) (cl_tx c) (cl_hold c) (cl_ub c).
Definition set_ans (c : at_client) (a : answer) : at_client :=
  mk_client (cl_status c) (end_sign c) (send_bufsz c) (cl_rd c) a (urc_table c) (cl_tx c) (cl_hold c) (cl_ub c).
Definition set_io (c : at_client) (tx : list (list Z)) (hold : Z) (ub : bool) : at_client :=
  mk_client (cl_status c) (end_sign c) (send_bufsz c) (cl_rd c) (cl_ans c) (urc_table c) tx hold ub.

Definition at_obj_set_end_sign (c : at_client) (ch : Z) : at_client :=
  mk_client (cl_status c) ch (send_bufsz c) (cl_rd c) (cl_ans c) (urc_table c) (cl_tx c) (cl_hold c) (cl_ub c).

(** A table is appended; [mem]: the array of tables can be extended. *)
Definition at_obj_set_urc_table (mem : bool) (c : at_client) (t : list at_urc) : Z * at_client :=
  if mem then
    (RT_EOK,
     mk_client (cl_status c) (end_sign c) (send_bufsz c) (cl_rd c) (cl_ans c) (urc_table c ++ [t])
       (cl_tx c) (cl_hold c) (cl_ub c))
  else (- RT_ENOMEM, c).

(** * The parser thread *)

(** [rt_strncmp] with a text of [blen text] characters is 0. *)
Definition starts_with (text l : list Z) : bool := bool_decide (take (length text) l = text).

(** The URC whose prefix and suffix the line has, first match. *)
Definition urc_matches (r : reader) (u : at_urc) : bool :=
  (blen (cmd_prefix u) + blen (cmd_suffix u) <=? recv_line_len r)
  && starts_with (cmd_prefix u) (recv_line_buf r)
  && starts_with (cmd_suffix u) (drop (Z.to_nat (recv_line_len r - blen (cmd_suffix u))) (recv_line_buf r)).

Definition get_urc_obj (c : at_client) : option at_urc :=
  snd <$> list_find (λ u, Is_true (urc_matches (cl_rd c) u)) (concat (urc_table c)).

(** Entry of [at_recv_readline]. *)
Definition readline_start (r : reader) : reader :=
  mk_rd (memset (recv_line_buf r) 0 0 (recv_bufsz r)) 0 (recv_bufsz r) 0 false.

(** One character stored. *)
Definition store_char (r : reader) (ch : Z) : reader :=
  if recv_line_len r <? recv_bufsz r then
    mk_rd (<[Z.to_nat (recv_line_len r) := ch]> (recv_line_buf r)) (recv_line_len r + 1) (recv_bufsz r)
      (last_ch r) (is_full r)
  else mk_rd (recv_line_buf r) (recv_line_len r) (recv_bufsz r) (last_ch r) true.

Definition set_last (r : reader) (ch : Z) : reader :=
  mk_rd (recv_line_buf r) (recv_line_len r) (recv_bufsz r) ch (is_full r).

(** The body of the loop of [at_recv_readline] for one character: the line length or
    [-RT_EFULL] when the line is complete, with the URC object found. *)
Definition readline_char (c : at_client) (ch : Z) : option (Z * option at_urc) * at_client :=
  let c := set_rd c (store_char (cl_rd c) ch) in
  let r := cl_rd c in
  let urc := get_urc_obj c in
  if bool_decide (is_Some urc) || ((ch =? 10) && (last_ch r =? 13))
     || (negb (end_sign c =? 0) && (ch =? end_sign c)) then
    if is_full r then
      (Some (- RT_EFULL, urc),
       set_rd c (mk_rd (memset (recv_line_buf r) 0 0 (recv_bufsz r)) 0 (recv_bufsz r) (last_ch r) (is_full r)))
    else (Some (recv_line_len r, urc), c)
  else (None, set_rd c (set_last r ch)).

(** The search of a text in a C string: [rt_strstr(s, text) != NULL]. *)
Fixpoint strstr (text l : list Z) : bool :=
  starts_with text l || match l with [] => false | _ :: l => strstr text l end.

Definition AT_RESP_END_OK : list Z := str "OK".
Definition AT_RESP_END_ERROR : list Z := str "ERROR".
Definition AT_RESP_END_FAIL : list Z := str "FAIL".

(** A line added to the response, separated from the next one by a NUL. *)
Definition resp_add (resp : at_response) (buf : list Z) (len : Z) : at_response :=
  mk_resp (memcpy (rs_buf resp) (rs_buf_len resp) buf 0 len) (rs_buf_size resp) (rs_buf_len resp + len)
    (rs_line_num resp) (rs_line_counts resp + 1).

(** [client_parser] on a line while a command waits. *)
Definition parse_response (c : at_client) : at_client :=
  let r := cl_rd c in
  let a := cl_ans c in
  let resp := resp_obj a in
  let len := recv_line_len r in
  let end_ch := nthZ (recv_line_buf r) (len - 1) in
  let buf := <[Z.to_nat (len - 1) := 0]> (recv_line_buf r) in
  let c := set_rd c (mk_rd buf len (recv_bufsz r) (last_ch r) (is_full r)) in
  let '(resp, st) :=
    if rs_buf_len resp + len <? rs_buf_size resp then (resp_add resp buf len, resp_status a)
    else (resp, AT_RESP_BUFF_FULL) in
  let finish st := set_ans c (mk_ans false resp (resp_notice a + 1) st) in
  if negb (end_sign c =? 0) && (end_ch =? end_sign c) && (rs_line_num resp =? 0) then finish AT_RESP_OK
  else if starts_with AT_RESP_END_OK buf && (rs_line_num resp =? 0) then finish AT_RESP_OK
  else if strstr AT_RESP_END_ERROR (cstr buf) || starts_with AT_RESP_END_FAIL buf then finish AT_RESP_ERROR
  else if (rs_line_counts resp =? rs_line_num resp) && negb (rs_line_num resp =? 0) then finish AT_RESP_OK
  else set_ans c (mk_ans true resp (resp_notice a) st).

(** [client_parser] on the result of [at_recv_readline]. *)
Definition parse_line (w : W) (c : at_client) (res : Z) (urc : option at_urc) : W * at_client :=
  if 0 <? res then
    match urc with
    | Some u =>
        (match urc_func u with
         | Some f => f w (recv_line_buf (cl_rd c)) (recv_line_len (cl_rd c))
         | None => w
         end, c)
    | None => if resp_on (cl_ans c) then (w, parse_response c) else (w, c)
    end
  else (w, c).

(** One received byte: the character, and when it completes a line the parser's reaction
    and the start of the next line. *)
Definition parser_byte (s : W * at_client) (ch : Z) : W * at_client :=
  let '(w, c) := s in
  match readline_char c ch with
  | (None, c) => (w, c)
  | (Some (res, urc), c) =>
      let '(w, c) := parse_line w c res urc in (w, set_rd c (readline_start (cl_rd c)))
  end.

Definition feed (s : W * at_client) (bytes : list Z) : W * at_client := foldl parser_byte s bytes.

(** * Responses *)

(** [None] when there is no memory ([mem] is false). *)
Definition at_create_resp (mem : bool) (buf_size line_num : Z) : option at_response :=
  if mem then Some (mk_resp (replicate (Z.to_nat buf_size) 0) buf_size 0 line_num 0) else None.

(** [resp_buf += strlen(resp_buf) + 1]. *)
Definition skip_line (buf : list Z) : list Z := drop (Z.to_nat (strlen buf + 1)) buf.

Fixpoint line_at (buf : list Z) (n : nat) : list Z :=
  match n with O => buf | S n => line_at (skip_line buf) n end.

Definition at_resp_get_line (resp : at_response) (resp_line : Z) : option (list Z) :=
  if (rs_line_counts resp <? resp_line) || (resp_line <=? 0) then None
  else Some (cstr (line_at (rs_buf resp) (Z.to_nat (resp_line - 1)))).

Fixpoint line_by_kw (buf : list Z) (keyword : list Z) (n : nat) : option (list Z) :=
  match n with
  | O => None
  | S n => if strstr keyword (cstr buf) then Some (cstr buf) else line_by_kw (skip_line buf) keyword n
  end.

Definition at_resp_get_line_by_kw (resp : at_response) (keyword : list Z) : option (list Z) :=
  line_by_kw (rs_buf resp) keyword (Z.to_nat (rs_line_counts resp)).

(** * Commands *)

(** [at_vprintfln] with the formatted text [text]: [vsnprintf] returns the length of the
    whole text but stores at most [buf_size - 3] characters and a NUL; the line end is
    written behind the whole length. [None] when that is outside the buffer. *)
Definition at_vprintfln (buf_size : Z) (text : list Z) : option (list Z) :=
  let len := blen text in
  if len =? 0 then Some []
  else if buf_size <? len + 2 then None
  else if len <? buf_size - 2 then Some (text ++ [13; 10])
  else Some (take (Z.to_nat (buf_size - 3)) text ++ [0; 13; 10]).

Definition send_text (c : at_client) (text : list Z) : at_client :=
  match at_vprintfln (send_bufsz c) text with
  | Some [] => c
  | Some bytes => set_io c (cl_tx c ++ [bytes]) (cl_hold c) (cl_ub c)
  | None => set_io c (cl_tx c) (cl_hold c) true
  end.

Definition lock (c : at_client) : at_client := set_io c (cl_tx c) (cl_hold c + 1) (cl_ub c).
Definition unlock (c : at_client) : at_client := set_io c (cl_tx c) (cl_hold c - 1) (cl_ub c).

(** [at_obj_exec_cmd] up to the wait: the response object is emptied and published. *)
Definition exec_begin (c : at_client) (resp : at_response) (text : list Z) : at_client :=
  let c := lock c in
  let resp := mk_resp (rs_buf resp) (rs_buf_size resp) 0 (rs_line_num resp) 0 in
  let c := set_ans c (mk_ans true resp 0 AT_RESP_OK) in
  send_text c text.

(** After [rt_sem_take] on [resp_notice]: the result and the response object. *)
Definition exec_finish (c : at_client) : Z * at_response * at_client :=
  let a := cl_ans c in
  let '(result, n, st) :=
    if 0 <? resp_notice a then
      (if decide (resp_status a = AT_RESP_OK) then RT_EOK else - RT_ERROR, resp_notice a - 1, resp_status a)
    else (- RT_ETIMEOUT, resp_notice a, AT_RESP_TIMEOUT) in
  (result, resp_obj a, unlock (set_ans c (mk_ans false (resp_obj a) n st))).

(** The call with a response object; [arrivals] are the bytes the parser thread handles
    before the caller runs again, because it was notified or because the time is up. *)
Definition exec_cmd (s : W * at_client) (resp : at_response) (text arrivals : list Z)
    : Z * at_response * (W * at_client) :=
  let '(w, c) := s in
  if decide (cl_status c = AT_STATUS_CLI) then (- RT_EBUSY, resp, s) else
  let '(w, c) := feed (w, exec_begin c resp text) arrivals in
  let '(result, resp, c) := exec_finish c in
  (result, resp, (w, c)).

(** The whole call. Without a response object the command is sent and nothing is waited for,
    also in CLI mode. *)
Definition at_obj_exec_cmd (s : W * at_client) (resp : option at_response) (text arrivals : list Z)
    : Z * option at_response * (W * at_client) :=
  match resp with
  | Some resp => let '(result, resp, s) := exec_cmd s resp text arrivals in (result, Some resp, s)
  | None =>
      let '(w, c) := s in
      let c := lock c in
      let c := set_ans c (mk_ans false (resp_obj (cl_ans c)) 0 AT_RESP_OK) in
      (RT_EOK, None, (w, unlock (send_text c text)))
  end.

(** Raw data; [written] is what [rt_device_write] returns. *)
Definition at_client_obj_send (c : at_client) (buf : list Z) (written : Z) : Z * at_client :=
  (written, set_io c (cl_tx c ++ [take (Z.to_nat written) buf]) (cl_hold c) (cl_ub c)).

End client.
Arguments at_urc : clear implicits.
Arguments at_client : clear implicits.

(** * Lines *)

(** A character that completes a line: the line feed of CR LF, or the end sign. *)
Definition completes (e last ch : Z) : bool :=
  ((ch =? 10) && (last =? 13)) || (negb (e =? 0) && (ch =? e)).

(** A line: its last character completes it and no earlier one does. *)
Fixpoint is_line_from (e last : Z) (l : list Z) : bool :=
  match l with
  | [] => false
  | ch :: l' => if completes e last ch then bool_decide (l' = []) else is_line_from e ch l'
  end.
Definition is_line (e : Z) (l : list Z) : bool := is_line_from e 0 l.

Section lines.
Context {W : Type}.
Implicit Types (c : at_client W) (w : W) (r : reader) (u : at_urc W).

(** Every URC of the table ends its line with CR LF. *)
Definition urcs_crlf c : Prop :=
  Forall (λ u, ∃ p, cmd_suffix u = p ++ [13; 10]) (concat (urc_table c)).

(** At the start of a line. *)
Definition fresh_rd (bufsz : Z) : reader := mk_rd (replicate (Z.to_nat bufsz) 0) 0 bufsz 0 false.
Definition at_start c : Prop := 0 < recv_bufsz (cl_rd c) ∧ cl_rd c = fresh_rd (recv_bufsz (cl_rd c)).

(** The reader in the middle of a line after the characters [pre]. *)
Definition mid_rd (bufsz : Z) (pre : list Z) : reader :=
  mk_rd (take (Z.to_nat bufsz) (pre ++ replicate (Z.to_nat bufsz) 0)) (Z.min (blen pre) bufsz) bufsz
    (default 0 (last pre)) (bufsz <? blen pre).

(** The line as the parser sees it: stored whole. *)
Definition line_rd (bufsz : Z) (l : list Z) : reader :=
  mk_rd (take (Z.to_nat bufsz) (l ++ replicate (Z.to_nat bufsz) 0)) (blen l) bufsz
    (default 0 (last (removelast l))) false.

(** The parser on whole lines: the reference for the parser on bytes. *)
Definition line_step (s : W * at_client W) (l : list Z) : W * at_client W :=
  let '(w, c) := s in
  let bufsz := recv_bufsz (cl_rd c) in
  if blen l <=? bufsz then
    let c := set_rd c (line_rd bufsz l) in
    let '(w, c) := parse_line w c (blen l) (get_urc_obj c) in (w, set_rd c (fresh_rd bufsz))
  else (w, set_rd c (fresh_rd bufsz)).

Lemma mid_store bufsz pre ch :
  0 < bufsz →
  store_char (mid_rd bufsz pre) ch
  = mk_rd (take (Z.to_nat bufsz) ((pre ++ [ch]) ++ replicate (Z.to_nat bufsz) 0))
      (Z.min (blen (pre ++ [ch])) bufsz) bufsz (default 0 (last pre)) (bufsz <? blen (pre ++ [ch])).
Proof.
  intros Hb. unfold store_char, mid_rd. cbn [recv_line_len recv_bufsz recv_line_buf last_ch is_full].
  rewrite blen_app. change (blen [ch]) with 1. pose proof (blen_nonneg pre).
  destruct (Z.ltb_spec (Z.min (blen pre) bufsz) bufsz).
  - destruct (Z.ltb_spec bufsz (blen pre)), (Z.ltb_spec bufsz (blen pre + 1)); try lia.
    f_equal; [|lia]. apply list_eq. intros i.
    destruct (decide (i < Z.to_nat bufsz)%nat) as [Hi|Hi]; [|by rewrite !lookup_ge_None_2 by len].
    rewrite <- app_assoc. cbn [app]. destruct (decide (i = length pre)) as [->|Hne].
    + replace (Z.to_nat (Z.min (blen pre) bufsz)) with (length pre) by len.
      rewrite list_lookup_insert_eq by len. rewrite lookup_take_lt by len.
      by rewrite list_lookup_middle.
    + rewrite list_lookup_insert_ne by len. rewrite !lookup_take_lt by done.
      destruct (decide (i < length pre)%nat).
      * by rewrite !lookup_app_l by done.
      * rewrite !(lookup_app_r pre) by lia. rewrite lookup_cons_ne_0 by lia.
        by rewrite !lookup_replicate_2 by lia.
  - destruct (Z.ltb_spec bufsz (blen pre + 1)); [|lia]. f_equal; [|lia].
    rewrite <- app_assoc, !take_app_le by len. done.
Qed.

Lemma completes_suffix e pre ch p bufsz :
  0 < bufsz → completes e (default 0 (last pre)) ch = false → blen (pre ++ [ch]) ≤ bufsz →
  starts_with (p ++ [13; 10]) (drop (Z.to_nat (blen (pre ++ [ch]) - blen (p ++ [13; 10])))
    (take (Z.to_nat bufsz) ((pre ++ [ch]) ++ replicate (Z.to_nat bufsz) 0))) = true →
  blen (p ++ [13; 10]) ≤ blen (pre ++ [ch]) → False.
Proof.
  intros Hb Hc Hle Hs Hl. unfold starts_with in Hs. apply bool_decide_eq_true in Hs.
  set (l := pre ++ [ch]) in *. set (k := Z.to_nat (blen l - blen (p ++ [13; 10]))) in *.
  rewrite take_app_ge, drop_app_le, take_app_le, take_ge in Hs by (subst k; len).
  assert (pre ++ [ch] = (take k l ++ p ++ [13]) ++ [10]) as E.
  { change (pre ++ [ch]) with l. rewrite <- (take_drop k l) at 1. rewrite Hs, <- !app_assoc. done. }
  apply app_inj_tail in E as [E ->].
  rewrite E, app_assoc, last_snoc in Hc. done.
Qed.

(** No character of the text completes a line. *)
Definition quiet_text (e : Z) (l : list Z) : Prop :=
  ∀ pre ch rest, l = pre ++ ch :: rest → completes e (default 0 (last pre)) ch = false.

Lemma quiet_snoc e l ch :
  quiet_text e l → completes e (default 0 (last l)) ch = false → quiet_text e (l ++ [ch]).
Proof.
  intros Hq Hc pre x rest E. destruct rest as [|y rest _] using rev_ind.
  - apply app_inj_tail in E as [<- <-]. done.
  - rewrite app_comm_cons, app_assoc in E. apply app_inj_tail in E as [-> _]. by eapply Hq.
Qed.

Lemma quiet_take e l n : quiet_text e l → quiet_text e (take n l).
Proof.
  intros Hq pre ch rest E. apply (Hq pre ch (rest ++ drop n l)).
  rewrite <- (take_drop n l) at 1. rewrite E. by rewrite <- app_assoc.
Qed.

(** Inside a line no URC is recognised. *)
Lemma no_urc c B l r :
  0 < B → urcs_crlf c → quiet_text (end_sign c) l → l ≠ [] →
  recv_line_buf r = take (Z.to_nat B) (l ++ replicate (Z.to_nat B) 0) → recv_line_len r = Z.min (blen l) B →
  get_urc_obj (set_rd c r) = None.
Proof.
  intros Hb Hu Hq Hne Eb El. unfold get_urc_obj. cbn [cl_rd set_rd urc_table].
  rewrite (proj2 (list_find_None _ _)); [done |]. eapply Forall_impl; [exact Hu |].
  intros u [p Ep] Hm. apply Is_true_true in Hm. unfold urc_matches in Hm.
  rewrite !andb_true_iff, Z.leb_le, Ep, Eb, El in Hm. destruct Hm as [[Hlen _] Hs].
  assert (take (Z.to_nat B) (l ++ replicate (Z.to_nat B) 0)
    = take (Z.to_nat B) (take (Z.to_nat B) l ++ replicate (Z.to_nat B) 0)) as E.
  { destruct (Z.le_gt_cases (blen l) B); [by rewrite (take_ge l) by len |].
    rewrite !take_app_le, take_take by len. f_equal. lia. }
  rewrite E in Hs. clear E. set (l' := take (Z.to_nat B) l) in *.
  assert (Z.min (blen l) B = blen l') as E' by (subst l'; len). rewrite E' in *.
  apply (quiet_take _ _ (Z.to_nat B)) in Hq. fold l' in Hq.
  destruct l' as [|y l'' _] using rev_ind.
  { destruct l; [done |]. unfold blen in E'. simpl in E'. lia. }
  pose proof (Hq l'' y [] eq_refl) as Hc. pose proof (blen_nonneg (cmd_prefix u)).
  eapply completes_suffix; [exact Hb | exact Hc | lia | exact Hs | lia].
Qed.

Lemma parse_line_rd w c res urc :
  recv_bufsz (cl_rd (parse_line w c res urc).2) = recv_bufsz (cl_rd c)
  ∧ length (recv_line_buf (cl_rd (parse_line w c res urc).2)) = length (recv_line_buf (cl_rd c))
  ∧ end_sign (parse_line w c res urc).2 = end_sign c ∧ urc_table (parse_line w c res urc).2 = urc_table c.
Proof.
  unfold parse_line, parse_response. repeat case_match; simpl; by rewrite ?length_insert.
Qed.

Lemma readline_start_fresh r : blen (recv_line_buf r) = recv_bufsz r → readline_start r = fresh_rd (recv_bufsz r).
Proof.
  intros E. unfold readline_start, fresh_rd, memset. f_equal. simpl. rewrite drop_ge, app_nil_r by len. done.
Qed.

Lemma set_rd_set_rd c r r' : set_rd (set_rd c r) r' = set_rd c r'.
Proof. done. Qed.

(** From the middle of a line to its end. *)
Lemma feed_mid w c B pre l :
  0 < B → recv_bufsz (cl_rd c) = B → urcs_crlf c → quiet_text (end_sign c) pre →
  is_line_from (end_sign c) (default 0 (last pre)) l = true →
  feed (w, set_rd c (mid_rd B pre)) l = line_step (w, c) (pre ++ l).
Proof.
  intros Hb HB Hu. revert pre. induction l as [|ch l IH]; intros pre Hq Hl; [done |]. simpl in Hl.
  unfold feed. cbn [foldl]. unfold parser_byte at 2. unfold readline_char. cbn [set_rd cl_rd end_sign].
  rewrite mid_store by done. rewrite set_rd_set_rd. set (r := mk_rd _ _ _ _ _).
  assert (recv_line_buf r = take (Z.to_nat B) ((pre ++ [ch]) ++ replicate (Z.to_nat B) 0)) as E1 by done.
  assert (recv_line_len r = Z.min (blen (pre ++ [ch])) B) as E2 by done.
  fold (completes (end_sign c) (default 0 (last pre)) ch) in *.
  destruct (completes (end_sign c) (default 0 (last pre)) ch) eqn:Hc.
  - apply bool_decide_eq_true in Hl as ->.
    replace (bool_decide (is_Some (get_urc_obj (set_rd c r))) || (ch =? 10) && (last_ch r =? 13)
      || negb (end_sign c =? 0) && (ch =? end_sign c)) with true
      by (unfold completes in Hc; cbn [r last_ch]; rewrite <- orb_assoc, Hc; by rewrite orb_true_r).
    unfold line_step. rewrite HB.
    destruct (Z.leb_spec (blen (pre ++ [ch])) B) as [Hle|Hgt].
    + replace (is_full r) with false by (symmetry; apply Z.ltb_ge; lia).
      replace (line_rd B (pre ++ [ch])) with r
        by (unfold line_rd, r; rewrite removelast_last; f_equal; [lia | apply Z.ltb_ge; lia]).
      replace (recv_line_len r) with (blen (pre ++ [ch])) by (rewrite E2; lia).
      destruct (parse_line w (set_rd c r) (blen (pre ++ [ch])) (get_urc_obj (set_rd c r))) as [w' c'] eqn:Ep.
      pose proof (parse_line_rd w (set_rd c r) (blen (pre ++ [ch])) (get_urc_obj (set_rd c r))) as Hp.
      rewrite Ep in Hp. destruct Hp as (P1 & P2 & _ & _). simpl in P1, P2. simpl.
      rewrite readline_start_fresh, P1; [done |]. rewrite P1. unfold blen. rewrite P2. len.
    + replace (is_full r) with true by (symmetry; apply Z.ltb_lt; lia). simpl.
      rewrite readline_start_fresh; [done |]. simpl. unfold memset. len.
  - replace (bool_decide (is_Some (get_urc_obj (set_rd c r))) || (ch =? 10) && (last_ch r =? 13)
      || negb (end_sign c =? 0) && (ch =? end_sign c)) with false.
    2: { rewrite (no_urc c B (pre ++ [ch]) r Hb Hu); [| by apply quiet_snoc | by destruct pre | done | done].
         unfold completes in Hc. cbn [r last_ch]. by rewrite <- orb_assoc, Hc. }
    rewrite set_rd_set_rd. change (foldl parser_byte) with (@feed W).
    replace (set_last r ch) with (mid_rd B (pre ++ [ch])) by (unfold mid_rd, set_last, r; by rewrite last_snoc).
    rewrite IH; [by rewrite <- app_assoc | by apply quiet_snoc | by rewrite last_snoc].
Qed.

Lemma line_step_keeps w c l :
  at_start c → at_start (line_step (w, c) l).2 ∧ recv_bufsz (cl_rd (line_step (w, c) l).2) = recv_bufsz (cl_rd c)
  ∧ end_sign (line_step (w, c) l).2 = end_sign c ∧ urc_table (line_step (w, c) l).2 = urc_table c.
Proof.
  intros [H0 _]. unfold line_step, at_start. case_match; [|done].
  pose proof (parse_line_rd w (set_rd c (line_rd (recv_bufsz (cl_rd c)) l)) (blen l)
    (get_urc_obj (set_rd c (line_rd (recv_bufsz (cl_rd c)) l)))) as Hp.
  destruct (parse_line _ _ _ _) as [w' c']. simpl in *. naive_solver.
Qed.

Lemma feed_line w c l :
  at_start c → urcs_crlf c → is_line (end_sign c) l = true → feed (w, c) l = line_step (w, c) l.
Proof.
  intros [H0 E] Hu Hl. transitivity (feed (w, set_rd c (mid_rd (recv_bufsz (cl_rd c)) [])) l).
  - f_equal. f_equal. destruct c. unfold set_rd. simpl in *. rewrite E. f_equal.
    unfold fresh_rd, mid_rd. simpl. f_equal; [|unfold blen; simpl; lia | symmetry; apply Z.ltb_ge; unfold blen; simpl; lia].
    rewrite take_ge by len. done.
  - apply (feed_mid w c _ []); try done. intros pre ch rest E'. by destruct pre.
Qed.

Lemma feed_lines w c ls :
  at_start c → urcs_crlf c → Forall (λ l, is_line (end_sign c) l = true) ls →
  feed (w, c) (concat ls) = foldl line_step (w, c) ls.
Proof.
  revert w c. induction ls as [|l ls IH]; intros w c Hs Hu Hl; [done |].
  apply Forall_cons in Hl as [Hl Hls]. cbn [concat foldl]. unfold feed. rewrite foldl_app.
  change (foldl parser_byte) with (@feed W). rewrite feed_line by done.
  destruct (line_step_keeps w c l Hs) as (K1 & _ & K3 & K4).
  destruct (line_step (w, c) l) as [w' c']. simpl in *. apply IH; [done | | by rewrite K3].
  unfold urcs_crlf. by rewrite K4.
Qed.

(** * The reference of a command's answer *)

(** The URC of a whole line, none for a line longer than the buffer. *)
Definition line_urc c (l : list Z) : option (at_urc W) :=
  get_urc_obj (set_rd c (line_rd (recv_bufsz (cl_rd c)) l)).
Definition fits c (l : list Z) : bool := blen l <=? recv_bufsz (cl_rd c).
Definition is_text c (l : list Z) : bool := fits c l && negb (bool_decide (is_Some (line_urc c l))).

(** What the URC handlers make of a line. *)
Definition handle c w (l : list Z) : W :=
  match line_urc c l with
  | Some u =>
      match urc_func u with
      | Some f =>
          if fits c l
          then f w (recv_line_buf (line_rd (recv_bufsz (cl_rd c)) l)) (blen l) else w
      | None => w
      end
  | None => w
  end.

(** Whether a text line ends the answer, [cnt] being the number of lines stored so far. *)
Definition verdict (e line_num cnt : Z) (l : list Z) : option bool :=
  let x := removelast l in
  if negb (e =? 0) && bool_decide (last l = Some e) && (line_num =? 0) then Some true
  else if starts_with AT_RESP_END_OK x && (line_num =? 0) then Some true
  else if strstr AT_RESP_END_ERROR (cstr x) || starts_with AT_RESP_END_FAIL x then Some false
  else if (cnt =? line_num) && negb (line_num =? 0) then Some true
  else None.

(** The bytes of stored lines. *)
Definition nul_end (l : list Z) : list Z := removelast l ++ [0].
Definition stored (kept : list (list Z)) : list Z := concat (nul_end <$> kept).
Definition keep (size : Z) (kept : list (list Z)) (l : list Z) : list (list Z) :=
  if blen (stored kept) + blen l <? size then kept ++ [l] else kept.

(** The answer: complete with success or failure, or still open; and the lines stored. *)
Fixpoint respond c (line_num size : Z) (kept : list (list Z)) (ls : list (list Z))
    : option bool * list (list Z) :=
  match ls with
  | [] => (None, kept)
  | l :: ls =>
      if is_text c l then
        match verdict (end_sign c) line_num (blen (keep size kept l)) l with
        | Some v => (Some v, keep size kept l)
        | None => respond c line_num size (keep size kept l) ls
        end
      else respond c line_num size kept ls
  end.

(** A response object that holds these lines. *)
Record holds (resp : at_response) (line_num size : Z) (kept : list (list Z)) : Prop := {
  ho_size : rs_buf_size resp = size;
  ho_blen : blen (rs_buf resp) = size;
  ho_len : rs_buf_len resp = blen (stored kept);
  ho_num : rs_line_num resp = line_num;
  ho_cnt : rs_line_counts resp = blen kept;
  ho_fit : blen (stored kept) ≤ size;
  ho_buf : take (length (stored kept)) (rs_buf resp) = stored kept
}.

Lemma is_line_nonempty e l : is_line e l = true → l ≠ [].
Proof. by destruct l. Qed.

Lemma nul_end_length l : l ≠ [] → length (nul_end l) = length l.
Proof.
  intros H. destruct l as [|x l _] using rev_ind; [done |]. unfold nul_end. rewrite removelast_last. len.
Qed.

Lemma line_rd_nul B l :
  l ≠ [] → blen l ≤ B →
  <[Z.to_nat (blen l - 1) := 0]> (recv_line_buf (line_rd B l))
  = nul_end l ++ replicate (Z.to_nat B - length l) 0.
Proof.
  intros Hne Hle. destruct l as [|x l _] using rev_ind; [done |]. unfold nul_end, line_rd. cbn [recv_line_buf].
  rewrite removelast_last, take_app_ge by len. rewrite take_replicate, <- !app_assoc.
  replace (Z.to_nat (blen (l ++ [x]) - 1)) with (length l + 0)%nat by len. rewrite insert_app_r. cbn [app].
  f_equal. unfold blen in *. rewrite length_app in *. simpl in *. f_equal. f_equal. lia.
Qed.

Lemma starts_with_nul t x z : Forall (λ b, b ≠ 0) t → starts_with t (x ++ 0 :: z) = starts_with t x.
Proof.
  intros Ht. unfold starts_with. apply bool_decide_ext. destruct (decide (length t ≤ length x)%nat) as [Hl|Hl].
  - by rewrite take_app_le.
  - split; intros E; exfalso.
    + rewrite Forall_lookup in Ht. apply (Ht (length x) 0); [|done].
      rewrite <- E, lookup_take_lt by lia. by rewrite list_lookup_middle.
    + apply (f_equal length) in E. rewrite length_take in E. lia.
Qed.

Lemma cstr_app_cut x z : cstr (x ++ 0 :: z) = cstr x.
Proof. induction x as [|y x IH]; simpl; [done |]. case_match; by rewrite ?IH. Qed.

Lemma holds_add resp line_num size kept l buf B :
  holds resp line_num size kept → l ≠ [] → blen l ≤ B → 0 ≤ size →
  buf = nul_end l ++ replicate (Z.to_nat B - length l) 0 →
  blen (stored kept) + blen l < size →
  holds (resp_add resp buf (blen l)) line_num size (kept ++ [l]).
Proof.
  intros [] Hne HB Hs -> Hfit. assert (stored (kept ++ [l]) = stored kept ++ nul_end l) as Es.
  { unfold stored. rewrite fmap_app, concat_app. simpl. by rewrite app_nil_r. }
  assert (length (nul_end l) = length l) as En by by apply nul_end_length.
  unfold resp_add. constructor; cbn; rewrite ?Es, ?blen_app; try done; unfold blen in *; rewrite ?En; try lia.
  - unfold memcpy. len.
  - rewrite ho_cnt0. unfold blen. len.
  - unfold memcpy. simpl. rewrite drop_0, ho_len0. rewrite Nat2Z.id, ho_buf0.
    rewrite Nat2Z.id, (take_app_le (nul_end l)), (take_ge (nul_end l)) by lia.
    rewrite app_assoc, take_app_le, take_ge by len. done.
Qed.

(** The state while a command waits with these lines stored. *)
Definition waiting c (line_num size : Z) (kept : list (list Z)) : Prop :=
  resp_on (cl_ans c) = true ∧ resp_notice (cl_ans c) = 0 ∧ holds (resp_obj (cl_ans c)) line_num size kept.

(** What the steps of the parser leave alone. *)
Definition same_env c c' : Prop :=
  end_sign c' = end_sign c ∧ urc_table c' = urc_table c ∧ recv_bufsz (cl_rd c') = recv_bufsz (cl_rd c)
  ∧ cl_status c' = cl_status c ∧ send_bufsz c' = send_bufsz c ∧ cl_tx c' = cl_tx c ∧ cl_hold c' = cl_hold c
  ∧ cl_ub c' = cl_ub c.

#[local] Instance same_env_preorder : PreOrder same_env.
Proof. split; [by intros c | intros c1 c2 c3 H1 H2; unfold same_env in *; intuition congruence]. Qed.

Lemma same_env_urc c c' l : same_env c c' → line_urc c' l = line_urc c l ∧ fits c' l = fits c l.
Proof.
  intros (_ & E1 & E2 & _). unfold line_urc, fits, get_urc_obj. simpl. by rewrite E1, E2.
Qed.

Lemma line_step_env w c l : same_env c (line_step (w, c) l).2 ∧ at_start (line_step (w, c) l).2
  ∨ ¬ 0 < recv_bufsz (cl_rd c).
Proof.
  destruct (decide (0 < recv_bufsz (cl_rd c))); [left | by right]. unfold line_step, at_start, same_env.
  case_match; [|done]. unfold parse_line, parse_response. repeat case_match; simplify_eq; simpl; done.
Qed.

Lemma line_step_world w c l : l ≠ [] → (line_step (w, c) l).1 = handle c w l.
Proof.
  intros Hne. unfold line_step, handle, line_urc, fits. case_match; [|by repeat case_match].
  unfold parse_line. destruct (Z.ltb_spec 0 (blen l)); [|destruct l; [done | unfold blen in *; simpl in *; lia]].
  destruct (get_urc_obj _) as [u|]; simpl; [by destruct (urc_func u) |]. by destruct (resp_on _).
Qed.

(** A line that is not a text line does not touch the answer. *)
Lemma line_step_urc w c l : l ≠ [] → is_text c l = false → cl_ans (line_step (w, c) l).2 = cl_ans c.
Proof.
  intros Hne Ht. unfold line_step. unfold is_text, fits, line_urc in Ht. case_match; [|done]. simpl in Ht.
  apply negb_false_iff, bool_decide_eq_true in Ht as [u Hu]. rewrite Hu. unfold parse_line.
  by destruct (0 <? blen l).
Qed.

(** A text line while a command waits. *)
Lemma line_step_text w c l line_num size kept :
  l ≠ [] → is_text c l = true → waiting c line_num size kept →
  let c' := (line_step (w, c) l).2 in
  let v := verdict (end_sign c) line_num (blen (keep size kept l)) l in
  holds (resp_obj (cl_ans c')) line_num size (keep size kept l)
  ∧ resp_on (cl_ans c') = bool_decide (v = None)
  ∧ resp_notice (cl_ans c') = (if v then 1 else 0)
  ∧ (∀ b, v = Some b → resp_status (cl_ans c') = if b : bool then AT_RESP_OK else AT_RESP_ERROR).
Proof.
  intros Hne Ht (Hon & Hn & Hh). unfold is_text, fits, line_urc in Ht. apply andb_true_iff in Ht as [Hf Hu].
  apply negb_true_iff, bool_decide_eq_false in Hu. unfold line_step. rewrite Hf. apply Z.leb_le in Hf.
  set (B := recv_bufsz (cl_rd c)) in *.
  destruct (get_urc_obj (set_rd c (line_rd B l))) eqn:Eu; [by destruct Hu |]. clear Hu.
  unfold parse_line. destruct (Z.ltb_spec 0 (blen l)); [|destruct l; [done | unfold blen in *; simpl in *; lia]].
  cbn [cl_ans set_rd]. rewrite Hon. cbn [fst snd]. unfold parse_response. cbn [cl_rd set_rd cl_ans end_sign].
  cbn [recv_line_len line_rd]. fold (line_rd B l). rewrite line_rd_nul by done.
  set (buf := nul_end l ++ _).
  assert (nthZ (recv_line_buf (line_rd B l)) (blen l - 1) = default 0 (last l)) as Eend.
  { destruct l as [|x l _] using rev_ind; [done |]. rewrite last_snoc. apply nthZ_lookup. unfold line_rd. simpl.
    replace (Z.to_nat (blen (l ++ [x]) - 1)) with (length l) by len. rewrite lookup_take_lt by len.
    rewrite <- app_assoc. simpl. by rewrite list_lookup_middle. }
  rewrite Eend.
  destruct Hh. rewrite ho_len0, ho_size0.
  assert (0 ≤ size) by (pose proof (blen_nonneg (stored kept)); lia).
  assert (∃ resp st, (if blen (stored kept) + blen l <? size
      then (resp_add (resp_obj (cl_ans c)) buf (blen l), resp_status (cl_ans c))
      else (resp_obj (cl_ans c), AT_RESP_BUFF_FULL)) = (resp, st) ∧ holds resp line_num size (keep size kept l))
    as (resp & st & -> & Hr).
  { unfold keep. destruct (Z.ltb_spec (blen (stored kept) + blen l) size); eexists _, _; split; try reflexivity.
    - by eapply holds_add.
    - done. }
  pose proof (ho_num _ _ _ _ Hr) as ->. pose proof (ho_cnt _ _ _ _ Hr) as ->.
  unfold verdict. unfold buf, nul_end. rewrite <- app_assoc. cbn [app].
  rewrite !starts_with_nul, cstr_app_cut by (repeat constructor; done).
  assert (negb (end_sign c =? 0) && (default 0 (last l) =? end_sign c)
    = negb (end_sign c =? 0) && bool_decide (last l = Some (end_sign c))) as ->.
  { destruct (Z.eqb_spec (end_sign c) 0); simpl; [done |].
    destruct (last l) as [x|] eqn:El; simpl; [|by apply last_None in El].
    destruct (Z.eqb_spec x (end_sign c)) as [->|]; symmetry; [by apply bool_decide_eq_true | apply bool_decide_eq_false; congruence]. }
  repeat case_match; simpl; rewrite ?Hn; split_and!; try done; intros b [= <-]; done.
Qed.

Lemma handle_env c c' w l : same_env c c' → handle c' w l = handle c w l.
Proof.
  intros H. destruct (same_env_urc c c' l H) as [E1 E2]. unfold handle. rewrite E1, E2.
  destruct H as (_ & _ & -> & _). done.
Qed.

Lemma respond_env c c' line_num size kept ls :
  same_env c c' → respond c' line_num size kept ls = respond c line_num size kept ls.
Proof.
  intros H. revert kept. induction ls as [|l ls IH]; intros kept; simpl; [done |].
  destruct (same_env_urc c c' l H) as [E1 E2]. unfold is_text. rewrite E1, E2, (proj1 H), !IH. done.
Qed.

(** Lines that arrive when no command waits. *)
Lemma lines_idle ls : ∀ w c,
  0 < recv_bufsz (cl_rd c) → Forall (λ l, l ≠ []) ls → resp_on (cl_ans c) = false →
  (foldl line_step (w, c) ls).1 = foldl (handle c) w ls
  ∧ same_env c (foldl line_step (w, c) ls).2 ∧ cl_ans (foldl line_step (w, c) ls).2 = cl_ans c
  ∧ (at_start c → at_start (foldl line_step (w, c) ls).2).
Proof.
  induction ls as [|l ls IH]; intros w c H0 Hl Hon; [done |].
  apply Forall_cons in Hl as [Hne Hls]. cbn [foldl].
  destruct (line_step_env w c l) as [[He Hs]|]; [|done].
  assert (cl_ans (line_step (w, c) l).2 = cl_ans c) as Ha.
  { unfold line_step, parse_line. repeat (case_match; simplify_eq; simpl in *; try congruence). }
  rewrite <- (line_step_world w c l Hne). destruct (line_step (w, c) l) as [w' c']. simpl in *.
  destruct (IH w' c') as (J1 & J2 & J3 & J4); [by rewrite (proj1 (proj2 (proj2 He))) | done | by rewrite Ha |].
  split_and!; [|by etrans | by rewrite J3 |by intros _; apply J4].
  rewrite J1. clear - He. revert w'. induction ls as [|l' ls IH]; intros w'; simpl; [done |].
  by rewrite (handle_env c c' w' l' He), IH.
Qed.

Lemma handle_fold_env c c' w ls : same_env c c' → foldl (handle c') w ls = foldl (handle c) w ls.
Proof.
  intros He. revert w. induction ls as [|l ls IH]; intros w; simpl; [done |]. by rewrite (handle_env c c' w l He), IH.
Qed.

(** The lines up to the end of the answer, and those behind it. *)
Lemma lines_respond ls : ∀ w c line_num size kept,
  0 < recv_bufsz (cl_rd c) → Forall (λ l, l ≠ []) ls → waiting c line_num size kept →
  let s := foldl line_step (w, c) ls in
  s.1 = foldl (handle c) w ls ∧ same_env c s.2 ∧ (at_start c → at_start s.2)
  ∧ holds (resp_obj (cl_ans s.2)) line_num size (respond c line_num size kept ls).2
  ∧ match (respond c line_num size kept ls).1 with
    | None => resp_notice (cl_ans s.2) = 0
    | Some b => resp_notice (cl_ans s.2) = 1
                ∧ resp_status (cl_ans s.2) = if b then AT_RESP_OK else AT_RESP_ERROR
    end.
Proof.
  induction ls as [|l ls IH]; intros w c line_num size kept H0 Hl Hw.
  { destruct Hw as (_ & ? & ?). done. }
  apply Forall_cons in Hl as [Hne Hls]. cbn [foldl respond].
  destruct (line_step_env w c l) as [[He Hs]|]; [|done].
  pose proof (line_step_world w c l Hne) as Hwd. pose proof (proj1 (proj2 (proj2 He))) as HB.
  destruct (is_text c l) eqn:Ht.
  - pose proof (line_step_text w c l line_num size kept Hne Ht Hw) as Hx. cbv zeta in Hx.
    destruct (line_step (w, c) l) as [w' c']. simpl in *. destruct Hx as (X1 & X2 & X3 & X4).
    destruct (verdict (end_sign c) line_num (blen (keep size kept l)) l) as [b|].
    + destruct (lines_idle ls w' c') as (J1 & J2 & J3 & J4); [lia | done | by rewrite X2 |].
      rewrite J1, (handle_fold_env c c' w' ls He), <- Hwd, J3.
      split_and!; first [done | by etrans | by intros _; apply J4 | by split; [| apply X4]].
    + destruct (IH w' c' line_num size (keep size kept l)) as (J1 & J2 & J3 & J4 & J5);
        [lia | done | split; [by rewrite X2 | by split] |].
      rewrite J1, (handle_fold_env c c' w' ls He), <- Hwd. rewrite (respond_env c c') in J4, J5 by done.
      split_and!; first [done | by etrans | by intros _; apply J3].
  - pose proof (line_step_urc w c l Hne Ht) as Ha.
    destruct (line_step (w, c) l) as [w' c']. simpl in *.
    destruct (IH w' c' line_num size kept) as (J1 & J2 & J3 & J4 & J5);
      [lia | done | unfold waiting; by rewrite Ha |].
    rewrite J1, (handle_fold_env c c' w' ls He), <- Hwd. rewrite (respond_env c c') in J4, J5 by done.
    split_and!; first [done | by etrans | by intros _; apply J3].
Qed.

(** The stored lines read back. *)
Lemma holds_get_line resp line_num size kept (i : nat) l :
  holds resp line_num size kept → Forall (λ l, Forall (λ b, b ≠ 0) (removelast l)) kept →
  kept !! i = Some l → at_resp_get_line resp (Z.of_nat i + 1) = Some (removelast l).
Proof.
  intros [] Hn Hi. unfold at_resp_get_line. pose proof (lookup_lt_Some _ _ _ Hi) as Hlt.
  rewrite ho_cnt0. destruct (Z.ltb_spec (blen kept) (Z.of_nat i + 1)); [unfold blen in *; lia |].
  destruct (Z.leb_spec (Z.of_nat i + 1) 0); [lia |]. simpl. f_equal.
  replace (Z.to_nat (Z.of_nat i + 1 - 1)) with i by lia.
  assert (∃ t, rs_buf resp = stored kept ++ t) as [t ->].
  { exists (drop (length (stored kept)) (rs_buf resp)). rewrite <- ho_buf0 at 1. by rewrite take_drop. }
  clear - Hn Hi. revert i Hi. induction kept as [|l' kept IH]; intros i Hi; [done |].
  apply Forall_cons in Hn as [Hl' Hk]. change (stored (l' :: kept)) with (nul_end l' ++ stored kept).
  assert (∀ z, cstr ((nul_end l' ++ z)) = removelast l') as Hc.
  { intros z. unfold nul_end. rewrite <- app_assoc. simpl. by apply cstr_app_nul. }
  rewrite <- app_assoc. destruct i as [|i]; simpl in *.
  - injection Hi as ->. by rewrite Hc.
  - unfold skip_line, strlen. rewrite Hc.
    rewrite drop_app_ge by (unfold nul_end; len).
    replace (Z.to_nat (blen (removelast l') + 1) - length (nul_end l'))%nat with 0%nat by (unfold nul_end; len).
    rewrite drop_0. by apply IH.
Qed.

Lemma exec_begin_facts c resp text :
  let c' := exec_begin c resp text in
  end_sign c' = end_sign c ∧ urc_table c' = urc_table c ∧ cl_rd c' = cl_rd c
  ∧ cl_status c' = cl_status c ∧ send_bufsz c' = send_bufsz c ∧ cl_hold c' = cl_hold c + 1
  ∧ cl_ub c' = (cl_ub c || (negb (bool_decide (text = [])) && (send_bufsz c <? blen text + 2)))
  ∧ (0 < blen text < send_bufsz c - 2 → cl_tx c' = cl_tx c ++ [text ++ [13; 10]])
  ∧ cl_ans c' = mk_ans true (mk_resp (rs_buf resp) (rs_buf_size resp) 0 (rs_line_num resp) 0) 0 AT_RESP_OK.
Proof.
  cbv zeta. unfold exec_begin, send_text, at_vprintfln. cbn [send_bufsz set_ans lock set_io].
  destruct (Z.eqb_spec (blen text) 0) as [E|E].
  { destruct text; [|unfold blen in E; simpl in E; lia]. cbn. rewrite orb_false_r. split_and!; try done. lia. }
  rewrite (bool_decide_eq_false_2 (text = [])) by (intros ->; done). cbn [negb andb].
  destruct (Z.ltb_spec (send_bufsz c) (blen text + 2)).
  { cbn. rewrite orb_true_r. split_and!; try done. lia. }
  destruct (Z.ltb_spec (blen text) (send_bufsz c - 2)).
  - destruct (text ++ [13; 10]) eqn:Et; [by destruct text |]. cbn. rewrite orb_false_r. done.
  - destruct (take (Z.to_nat (send_bufsz c - 3)) text ++ [0; 13; 10]) eqn:Et; [by destruct (take _ text) |].
    cbn. rewrite orb_false_r. split_and!; try done. lia.
Qed.

(** The whole call against the reference. *)
Lemma exec_spec w c resp text ls :
  at_start c → urcs_crlf c → cl_status c ≠ AT_STATUS_CLI → blen (rs_buf resp) = rs_buf_size resp →
  Forall (λ l, is_line (end_sign c) l = true) ls →
  let rk := respond c (rs_line_num resp) (rs_buf_size resp) [] ls in
  ∃ resp' c',
    exec_cmd (w, c) resp text (concat ls)
      = (match rk.1 with Some true => RT_EOK | Some false => - RT_ERROR | None => - RT_ETIMEOUT end,
         resp', (foldl (handle c) w ls, c'))
    ∧ holds resp' (rs_line_num resp) (rs_buf_size resp) rk.2
    ∧ at_start c' ∧ resp_on (cl_ans c') = false ∧ end_sign c' = end_sign c ∧ urc_table c' = urc_table c
    ∧ recv_bufsz (cl_rd c') = recv_bufsz (cl_rd c) ∧ cl_status c' = cl_status c ∧ send_bufsz c' = send_bufsz c
    ∧ cl_hold c' = cl_hold c
    ∧ cl_ub c' = (cl_ub c || (negb (bool_decide (text = [])) && (send_bufsz c <? blen text + 2)))
    ∧ (0 < blen text < send_bufsz c - 2 → cl_tx c' = cl_tx c ++ [text ++ [13; 10]]).
Proof.
  intros Hs Hu Hst Hb Hl. cbv zeta. unfold exec_cmd. rewrite decide_False by done.
  destruct (exec_begin_facts c resp text) as (E1 & E2 & E3 & E4 & E5 & E6 & E7 & E8 & E9).
  set (c0 := exec_begin c resp text) in *.
  assert (at_start c0) as Hs0 by (unfold at_start; by rewrite E3).
  assert (urcs_crlf c0) as Hu0 by (unfold urcs_crlf; by rewrite E2).
  rewrite feed_lines by (done || by rewrite E1).
  assert (Forall (λ l, l ≠ []) ls) as Hne
    by (eapply Forall_impl; [exact Hl |]; intros l Hx; exact (is_line_nonempty _ _ Hx)).
  assert (∀ l, line_urc c0 l = line_urc c l ∧ fits c0 l = fits c l) as Hcl
    by (intros l; unfold line_urc, fits, get_urc_obj; simpl; by rewrite E2, E3).
  assert (∀ w, foldl (handle c0) w ls = foldl (handle c) w ls) as Hhd.
  { clear - Hcl E3. induction ls as [|l ls IH]; intros w; simpl; [done |]. rewrite IH. f_equal.
    unfold handle. destruct (Hcl l) as [-> ->]. by rewrite E3. }
  assert (∀ k, respond c0 (rs_line_num resp) (rs_buf_size resp) k ls
    = respond c (rs_line_num resp) (rs_buf_size resp) k ls) as Hrs.
  { clear - Hcl E1. induction ls as [|l ls IH]; intros k; simpl; [done |]. unfold is_text.
    destruct (Hcl l) as [-> ->]. by rewrite E1, !IH. }
  destruct (lines_respond ls w c0 (rs_line_num resp) (rs_buf_size resp) []) as (J1 & J2 & J3 & J4 & J5);
    [by apply Hs0 | done | unfold waiting; rewrite E9; split_and!; try done |].
  { constructor; cbn; try done. rewrite <- Hb. apply blen_nonneg. }
  rewrite Hhd, Hrs in *. destruct (foldl line_step (w, c0) ls) as [w' c']. simpl in J1, J2, J3, J4, J5. subst w'.
  destruct J2 as (F1 & F2 & F3 & F4 & F5 & F6 & F7 & F8). unfold exec_finish. cbv zeta.
  destruct (respond c (rs_line_num resp) (rs_buf_size resp) [] ls) as [v kept]. simpl in *.
  destruct v as [b|].
  - destruct J5 as [-> ->]. simpl. destruct b; (eexists _, _; split; [reflexivity |]); cbn;
    split_and!; first [done | congruence | by apply J3 | rewrite F7, E6; lia | by rewrite F8 | intros Ht; rewrite F6; by apply E8].
  - rewrite J5. simpl. eexists _, _. split; [done |]. cbn.
    split_and!; first [done | congruence | by apply J3 | rewrite F7, E6; lia | by rewrite F8 | intros Ht; rewrite F6; by apply E8].
Qed.

(** ** Frames *)

(** Every URC handler moves the world along [R]. *)
Definition urcs_move (R : relation W) c : Prop :=
  Forall (λ u, ∀ f, urc_func u = Some f → ∀ w data size, R w (f w data size)) (concat (urc_table c)).

Lemma urcs_move_table R c c' : urc_table c' = urc_table c → urcs_move R c → urcs_move R c'.
Proof. unfold urcs_move. by intros ->. Qed.

Lemma parse_line_frame (R : relation W) `{!PreOrder R} w c res urc :
  (∀ u f, urc = Some u → urc_func u = Some f → ∀ w data size, R w (f w data size)) →
  R w (parse_line w c res urc).1 ∧ same_env c (parse_line w c res urc).2.
Proof.
  intros Hu. unfold parse_line. destruct (0 <? res); [|done]. destruct urc as [u|].
  - destruct (urc_func u) as [f|] eqn:Ef; [|done]. split; [by eapply Hu | done].
  - destruct (resp_on (cl_ans c)); [|done]. split; [done |]. unfold parse_response.
    repeat case_match; simplify_eq; done.
Qed.

Lemma readline_char_env c ch : same_env c (readline_char c ch).2.
Proof. unfold readline_char, store_char. repeat case_match; simplify_eq; done. Qed.

Lemma readline_char_urc c ch res u :
  (readline_char c ch).1 = Some (res, Some u) → u ∈ concat (urc_table c).
Proof.
  unfold readline_char. destruct (get_urc_obj _) as [u'|] eqn:E; [|repeat case_match; naive_solver].
  intros H. assert (u' = u) as -> by (repeat case_match; naive_solver). unfold get_urc_obj in E.
  apply fmap_Some in E as ([k x] & Ef & ->). apply list_find_Some in Ef as (Ef & _).
  cbn [set_rd urc_table] in Ef. by eapply list_elem_of_lookup_2.
Qed.

Lemma parser_byte_frame (R : relation W) `{!PreOrder R} w c ch :
  urcs_move R c → R w (parser_byte (w, c) ch).1 ∧ same_env c (parser_byte (w, c) ch).2.
Proof.
  intros Hu. unfold parser_byte. pose proof (readline_char_env c ch) as He.
  pose proof (readline_char_urc c ch) as Hin. destruct (readline_char c ch) as [[[res urc]|] c']; simpl in *; [|done].
  destruct (parse_line_frame R w c' res urc) as [H1 H2].
  { intros u f -> Hf. unfold urcs_move in Hu. rewrite Forall_forall in Hu. exact (Hu u (Hin res u eq_refl) f Hf). }
  destruct (parse_line w c' res urc) as [w' c'']. split; [done |]. simpl in *.
  etrans; [exact He |]. etrans; [exact H2 |]. done.
Qed.

(** Whatever arrives, the handlers are all that moves the world, and the client keeps its
    configuration. *)
Lemma feed_frame (R : relation W) `{!PreOrder R} bytes : ∀ w c,
  urcs_move R c → R w (feed (w, c) bytes).1 ∧ same_env c (feed (w, c) bytes).2.
Proof.
  induction bytes as [|b bytes IH]; intros w c Hu; [done |]. unfold feed. cbn [foldl].
  destruct (parser_byte_frame R w c b Hu) as [H1 H2]. destruct (parser_byte (w, c) b) as [w' c']. simpl in H1, H2.
  destruct (IH w' c') as [H3 H4]; [eapply urcs_move_table; [apply H2 | done] |].
  split; [by etrans | by etrans].
Qed.

(** The configuration of a client, without what it sent. *)
Definition same_conf c c' : Prop :=
  end_sign c' = end_sign c ∧ urc_table c' = urc_table c ∧ recv_bufsz (cl_rd c') = recv_bufsz (cl_rd c)
  ∧ cl_status c' = cl_status c ∧ send_bufsz c' = send_bufsz c ∧ cl_hold c' = cl_hold c.

#[export] Instance same_conf_preorder : PreOrder same_conf.
Proof. split; [by intros c | intros c1 c2 c3 H1 H2; unfold same_conf in *; intuition congruence]. Qed.

Lemma respond_conf c c' line_num size kept ls :
  same_conf c c' → respond c' line_num size kept ls = respond c line_num size kept ls.
Proof.
  intros (E1 & E2 & E3 & _). revert kept. induction ls as [|l ls IH]; intros kept; simpl; [done |].
  unfold is_text, fits, line_urc, get_urc_obj. cbn [set_rd cl_rd urc_table]. by rewrite E1, E2, E3, !IH.
Qed.

(** A text that fits is sent with a line end. *)
Lemma send_text_fits c text :
  0 < blen text < send_bufsz c - 2 →
  cl_tx (send_text c text) = cl_tx c ++ [text ++ [13; 10]] ∧ cl_ub (send_text c text) = cl_ub c.
Proof.
  intros Ht. unfold send_text, at_vprintfln. destruct (Z.eqb_spec (blen text) 0); [lia |].
  destruct (Z.ltb_spec (send_bufsz c) (blen text + 2)); [lia |].
  destruct (Z.ltb_spec (blen text) (send_bufsz c - 2)); [|lia].
  destruct (text ++ [13; 10]) eqn:E; [by destruct text | done].
Qed.

Lemma send_text_conf c text : same_conf c (send_text c text).
Proof. unfold send_text. repeat case_match; done. Qed.

(** A command, whatever arrives. *)
Lemma exec_frame (R : relation W) `{!PreOrder R} w c resp text bytes :
  urcs_move R c →
  let '(r, _, (w', c')) := exec_cmd (w, c) resp text bytes in
  R w w' ∧ same_conf c c' ∧ r ≤ 0
  ∧ (cl_status c ≠ AT_STATUS_CLI → resp_on (cl_ans c') = false
     ∧ cl_tx c' = cl_tx (send_text c text) ∧ cl_ub c' = cl_ub (send_text c text))
  ∧ (cl_status c = AT_STATUS_CLI → r < 0 ∧ c' = c).
Proof.
  intros Hu. unfold exec_cmd. case_decide as Hst; [done |].
  set (c0 := exec_begin c resp text).
  assert (same_conf (lock c) c0 ∧ cl_tx c0 = cl_tx (send_text c text) ∧ cl_ub c0 = cl_ub (send_text c text)) as Hc0.
  { unfold c0, exec_begin. split; [by destruct (send_text_conf (set_ans (lock c) (mk_ans true
      (mk_resp (rs_buf resp) (rs_buf_size resp) 0 (rs_line_num resp) 0) 0 AT_RESP_OK)) text) |]. unfold send_text.
    cbn [send_bufsz set_ans lock set_io]. destruct (at_vprintfln (send_bufsz c) text) as [[|? ?]|]; done. }
  destruct Hc0 as ((E1 & E2 & E3 & E4 & E5 & E6) & E7 & E8).
  destruct (feed_frame R bytes w c0) as [H1 H2]; [by eapply urcs_move_table |].
  destruct (feed (w, c0) bytes) as [w' c']. simpl in H1, H2. unfold same_env in H2.
  destruct H2 as (F1 & F2 & F3 & F4 & F5 & F6 & F7 & F8). unfold exec_finish.
  assert (∀ c'' : at_client W, end_sign c'' = end_sign c' → urc_table c'' = urc_table c' → cl_rd c'' = cl_rd c' →
    cl_status c'' = cl_status c' → send_bufsz c'' = send_bufsz c' → cl_hold c'' = cl_hold c' - 1 → same_conf c c'') as Hk.
  { intros c'' G1 G2 G3 G4 G5 G6. cbn in *. unfold same_conf. rewrite G3. split_and!; (congruence || lia). }
  repeat case_match; simplify_eq; (split_and!; [done | by apply Hk | done | | done]); intros _; cbn;
    by rewrite F6, F8, E7, E8.
Qed.

(** A command without a response object sends what one with it sends. *)
Lemma send_text_io c c1 text :
  send_bufsz c1 = send_bufsz c → cl_tx c1 = cl_tx c → cl_ub c1 = cl_ub c →
  cl_tx (send_text c1 text) = cl_tx (send_text c text) ∧ cl_ub (send_text c1 text) = cl_ub (send_text c text).
Proof. intros E1 E2 E3. unfold send_text. rewrite E1. by repeat case_match; simpl; rewrite ?E2, ?E3. Qed.

Lemma exec_null_sends w c resp text bytes :
  cl_status c ≠ AT_STATUS_CLI →
  ∃ c0, at_obj_exec_cmd (w, c) None text bytes = (RT_EOK, None, (w, c0))
    ∧ cl_rd c0 = cl_rd c ∧ resp_on (cl_ans c0) = false ∧ cl_hold c0 = cl_hold c
    ∧ cl_tx c0 = cl_tx (exec_cmd (w, c) resp text bytes).2.2
    ∧ cl_ub c0 = cl_ub (exec_cmd (w, c) resp text bytes).2.2.
Proof.
  intros Hst. unfold at_obj_exec_cmd. set (c1 := set_ans _ _). exists (unlock (send_text c1 text)). split; [done |].
  assert (PreOrder (λ _ _ : W, True)) as Hpre by (by split).
  pose proof (exec_frame (λ _ _ : W, True) w c resp text bytes) as Hf.
  destruct (exec_cmd (w, c) resp text bytes) as [[r x] [w' c']].
  destruct Hf as (_ & _ & _ & Hf & _); [by apply Forall_forall |].
  destruct (Hf Hst) as (_ & Htx & Hub). destruct (send_text_io c c1 text) as [E1 E2]; [done..|]. cbn [snd].
  rewrite Htx, Hub, <-E1, <-E2.
  unfold send_text. destruct (at_vprintfln (send_bufsz c1) text) as [[|? ?]|]; (split_and!; try done; cbn; lia).
Qed.

(** * Theorems *)



End lines.

(** * Witnesses *)

(** A client with one URC that counts its lines. *)
Definition demo_client : at_client Z :=
  mk_client AT_STATUS_INITIALIZED 0 32 (fresh_rd 16) (mk_ans false (mk_resp [] 0 0 0 0) 0 AT_RESP_OK)
    [[mk_urc (str "+EV") [13; 10] (Some (λ n _ _, n + 1))]] [] 0 false.
Definition demo_lines : list (list Z) :=
  [str "+EV1" ++ [13; 10]; str "+X:5" ++ [13; 10]; str "a line that is too long" ++ [13; 10];
   str "OK" ++ [13; 10]; str "+EV2" ++ [13; 10]].


