(* ===== verification/AtSocket.v ===== *)
(** The socket layer over AT commands
    (rt-thread/components/net/at/at_socket/at_socket.c): the socket table of the device,
    the list of received packets, connecting, sending, receiving and closing.

    A received packet keeps the pointer it was given, so memory is modelled: a pointer is
    the start of a heap block or a place inside the client's line buffer, whose contents
    belong to the parser thread. Freeing anything but a live heap block is recorded in
    [nt_ub]. The operations of the device driver are an interface, [SocketOps].

    The parser thread has priority over the threads that call the socket functions: it
    handles what arrived, up to the start of the next line, before they run again. *)

From Stdlib Require Import String.
From stdpp Require Import gmap.
From S2P Require Import Prelude.
From S2P Require Import CText.
From S2P Require Import RtDef.
From S2P Require Import AtClient.
Open Scope Z_scope.
Open Scope list_scope.

(** * Data (at_socket.h) *)

Inductive at_socket_state : Set :=
  AT_SOCKET_NONE | AT_SOCKET_OPEN | AT_SOCKET_LISTEN | AT_SOCKET_CONNECT | AT_SOCKET_CLOSED.
#[export] Instance at_socket_state_eq_dec : EqDecision at_socket_state.
Proof. solve_decision. Defined.

Inductive at_socket_type : Set := AT_SOCKET_INVALID | AT_SOCKET_TCP | AT_SOCKET_UDP.
#[export] Instance at_socket_type_eq_dec : EqDecision at_socket_type.
Proof. solve_decision. Defined.

(** A place in the line buffer of the client, or a heap block. *)
Inductive buff : Set := LineBuf (off : Z) | Block (id : nat).
#[export] Instance buff_eq_dec : EqDecision buff.
Proof. solve_decision. Defined.

Record at_recv_pkt : Type := mk_pkt { bfsz_totle : Z; bfsz_index : Z; pk_buff : buff }.

(** [sk_magic]: the magic word is set. *)
Record at_socket : Type := mk_sock {
  sk_magic : bool;
  sk_socket : Z;
  sk_type : at_socket_type;
  sk_state : at_socket_state;
  recv_notice : Z;
  recvpkt_list : list at_recv_pkt;
  recv_timeout : Z;
  send_timeout : Z;
  rcvevent : Z;
  sendevent : Z;
  errevent : Z;
  user_data : Z
}.

(** A cleared entry of the table. *)
Definition zero_sock : at_socket := mk_sock false 0 AT_SOCKET_INVALID AT_SOCKET_NONE 0 [] 0 0 0 0 0 0.

(** [device->sockets], the list [_socket_list] as table indices, the heap, and whether a
    pointer that is not a live block was freed. *)
Record net : Type := mk_net {
  sockets : list at_socket;
  socket_list : list nat;
  nt_heap : gmap nat (list Z);
  nt_ub : bool
}.

Definition upd_sock (n : net) (i : nat) (f : at_socket → at_socket) : net :=
  mk_net (alter f i (sockets n)) (socket_list n) (nt_heap n) (nt_ub n).
Definition get_sock (n : net) (i : nat) : at_socket := default zero_sock (sockets n !! i).

Definition set_pkts (l : list at_recv_pkt) (s : at_socket) : at_socket :=
  mk_sock (sk_magic s) (sk_socket s) (sk_type s) (sk_state s) (recv_notice s) l (recv_timeout s)
    (send_timeout s) (rcvevent s) (sendevent s) (errevent s) (user_data s).
Definition set_state (st : at_socket_state) (s : at_socket) : at_socket :=
  mk_sock (sk_magic s) (sk_socket s) (sk_type s) st (recv_notice s) (recvpkt_list s) (recv_timeout s)
    (send_timeout s) (rcvevent s) (sendevent s) (errevent s) (user_data s).
Definition set_notice (v : Z) (s : at_socket) : at_socket :=
  mk_sock (sk_magic s) (sk_socket s) (sk_type s) (sk_state s) v (recvpkt_list s) (recv_timeout s)
    (send_timeout s) (rcvevent s) (sendevent s) (errevent s) (user_data s).
Definition set_events (r w e : Z) (s : at_socket) : at_socket :=
  mk_sock (sk_magic s) (sk_socket s) (sk_type s) (sk_state s) (recv_notice s) (recvpkt_list s)
    (recv_timeout s) (send_timeout s) r w e (user_data s).
Definition set_user_data (v : Z) (s : at_socket) : at_socket :=
  mk_sock (sk_magic s) (sk_socket s) (sk_type s) (sk_state s) (recv_notice s) (recvpkt_list s)
    (recv_timeout s) (send_timeout s) (rcvevent s) (sendevent s) (errevent s) v.
Definition set_timeouts (r w : Z) (s : at_socket) : at_socket :=
  mk_sock (sk_magic s) (sk_socket s) (sk_type s) (sk_state s) (recv_notice s) (recvpkt_list s) r w
    (rcvevent s) (sendevent s) (errevent s) (user_data s).

(** * Memory *)

(** [rt_free]. *)
Definition rt_free (n : net) (p : buff) : net :=
  match p with
  | Block id =>
      match nt_heap n !! id with
      | Some _ => mk_net (sockets n) (socket_list n) (delete id (nt_heap n)) (nt_ub n)
      | None => mk_net (sockets n) (socket_list n) (nt_heap n) true
      end
  | LineBuf _ => mk_net (sockets n) (socket_list n) (nt_heap n) true
  end.

(** The bytes behind a pointer, [lb] being the line buffer now. *)
Definition bytes_at (lb : list Z) (n : net) (p : buff) : list Z :=
  match p with
  | Block id => default [] (nt_heap n !! id)
  | LineBuf off => drop (Z.to_nat off) lb
  end.

(** * Packets *)

(** [mem]: the packet can be allocated. *)
Definition at_recvpkt_put (mem : bool) (n : net) (i : nat) (p : buff) (length : Z) : Z * net :=
  if mem then (RT_EOK, upd_sock n i (λ s, set_pkts (recvpkt_list s ++ [mk_pkt length 0 p]) s))
  else (- RT_ENOMEM, n).

Definition at_recvpkt_all_delete (n : net) (i : nat) : net :=
  foldl (λ n k, rt_free n (pk_buff k)) n (recvpkt_list (get_sock n i)).

(** The first packet of the list is removed and freed. *)
Definition at_recvpkt_node_delete (n : net) (i : nat) : net :=
  match recvpkt_list (get_sock n i) with
  | [] => n
  | k :: _ => rt_free (upd_sock n i (λ s, set_pkts (tail (recvpkt_list s)) s)) (pk_buff k)
  end.

Definition set_index (v : Z) (s : at_socket) : at_socket :=
  match recvpkt_list s with
  | [] => s
  | k :: l => set_pkts (mk_pkt (bfsz_totle k) v (pk_buff k) :: l) s
  end.

(** The loop of [at_recvpkt_get]: packets are taken from the front; [fuel] counts them. *)
Fixpoint recvpkt_loop (fuel : nat) (lb : list Z) (n : net) (i : nat) (mem : list Z) (content_pos len : Z)
    : Z * list Z * net :=
  match fuel, recvpkt_list (get_sock n i) with
  | S fuel, k :: _ =>
      let page_pos := bfsz_totle k - bfsz_index k in
      let src := bytes_at lb n (pk_buff k) in
      if len - content_pos <=? page_pos then
        let mem := memcpy mem content_pos src (bfsz_index k) (len - content_pos) in
        let index := bfsz_index k + (len - content_pos) in
        let n := upd_sock n i (set_index index) in
        let n := if index =? bfsz_totle k then at_recvpkt_node_delete n i else n in
        (len, mem, n)
      else
        let mem := memcpy mem content_pos src (bfsz_index k) page_pos in
        let n := upd_sock n i (set_index (bfsz_index k + page_pos)) in
        recvpkt_loop fuel lb (at_recvpkt_node_delete n i) i mem (content_pos + page_pos) len
  | _, _ => (content_pos, mem, n)
  end.

Definition at_recvpkt_get (lb : list Z) (n : net) (i : nat) (mem : list Z) (len : Z) : Z * list Z * net :=
  recvpkt_loop (length (recvpkt_list (get_sock n i))) lb n i mem 0 len.

(** * Events *)

Inductive at_event_t : Set := AT_EVENT_SEND | AT_EVENT_RECV | AT_EVENT_ERROR.

Definition at_do_event_changes (n : net) (i : nat) (event : at_event_t) (is_plus : bool) : net :=
  upd_sock n i (λ s,
    match event with
    | AT_EVENT_SEND => set_events (rcvevent s) (if is_plus then 1 else 0) (errevent s) s
    | AT_EVENT_RECV =>
        set_events (if is_plus then u16 (rcvevent s + 1)
                    else if rcvevent s =? 0 then 0 else rcvevent s - 1) (sendevent s) (errevent s) s
    | AT_EVENT_ERROR =>
        set_events (rcvevent s) (sendevent s)
          (if is_plus then u16 (errevent s + 1) else if errevent s =? 0 then 0 else errevent s - 1) s
    end).

Definition at_do_event_clean (n : net) (i : nat) (event : at_event_t) : net :=
  upd_sock n i (λ s,
    match event with
    | AT_EVENT_SEND => set_events (rcvevent s) 0 (errevent s) s
    | AT_EVENT_RECV => set_events 0 (sendevent s) (errevent s) s
    | AT_EVENT_ERROR => set_events (rcvevent s) (sendevent s) 0 s
    end).

(** * The socket table *)

(** [at_get_socket]: the table index of a descriptor. *)
Definition at_get_socket (n : net) (socket : Z) : option nat :=
  snd <$> list_find (λ i, sk_socket (get_sock n i) = socket ∧ sk_magic (get_sock n i) = true) (socket_list n).

(** The smallest free descriptor and the list with the new entry in its place. *)
Fixpoint alloc_empty_socket (n : net) (l : list nat) (i : nat) (idx : Z) : Z * list nat :=
  match l with
  | j :: l' =>
      if sk_socket (get_sock n j) =? idx
      then let '(d, l') := alloc_empty_socket n l' i (idx + 1) in (d, j :: l')
      else (idx, i :: l)
  | [] => (idx, [i])
  end.

(** The first entry of the table without a magic word. *)
Fixpoint free_entry (l : list at_socket) : nat :=
  match l with
  | s :: l => if sk_magic s then S (free_entry l) else O
  | [] => O
  end.

(** [sem_ok] and [mutex_ok]: the allocations of the notice and of the lock succeed. *)
Definition alloc_socket_by_device (n : net) (sem_ok mutex_ok : bool) : option nat * net :=
  let idx := free_entry (sockets n) in
  if (length (sockets n) <=? idx)%nat then (None, n) else
  let '(d, l) := alloc_empty_socket n (socket_list n) idx 0 in
  let s0 := get_sock n idx in
  let n := mk_net
    (<[idx := mk_sock true d (sk_type s0) AT_SOCKET_NONE 0 [] (recv_timeout s0) (send_timeout s0)
                0 0 0 (Z.of_nat idx)]> (sockets n)) l (nt_heap n) (nt_ub n) in
  if negb sem_ok then (None, n) else if negb mutex_ok then (None, n) else (Some idx, n).

(** [at_socket] for the types SOCK_STREAM and SOCK_DGRAM; the event callbacks are set. *)
Definition at_socket_open (n : net) (type : at_socket_type) (sem_ok mutex_ok : bool) : Z * net :=
  match alloc_socket_by_device n sem_ok mutex_ok with
  | (None, n) => (-1, n)
  | (Some i, n) =>
      let n := upd_sock n i (λ s,
        mk_sock (sk_magic s) (sk_socket s) type AT_SOCKET_OPEN (recv_notice s) (recvpkt_list s)
          (recv_timeout s) (send_timeout s) (rcvevent s) (sendevent s) (errevent s) (user_data s)) in
      (sk_socket (get_sock n i), n)
  end.

Definition free_socket (n : net) (i : nat) : net :=
  let n := at_recvpkt_all_delete n i in
  let d := sk_socket (get_sock n i) in
  let n := mk_net (sockets n)
    (match at_get_socket n d with Some j => filter (λ k, k ≠ j) (socket_list n) | None => socket_list n end)
    (nt_heap n) (nt_ub n) in
  upd_sock n i (λ _, zero_sock).

(** * Callbacks of the driver *)

(** [rt_sem_release] when no thread waits. *)
Definition sem_release (v : Z) : Z := if v <? RT_SEM_VALUE_MAX then v + 1 else v.

Definition at_recv_notice_cb (mem : bool) (n : net) (i : nat) (p : buff) (bfsz : Z) : net :=
  let s := get_sock n i in
  if negb (sk_magic s) || bool_decide (sk_state s = AT_SOCKET_CLOSED) then rt_free n p else
  let '(result, n) := at_recvpkt_put mem n i p bfsz in
  if negb (result =? RT_EOK) then rt_free n p else
  let n := upd_sock n i (λ s, set_notice (sem_release (recv_notice s)) s) in
  at_do_event_changes n i AT_EVENT_RECV true.

Definition at_closed_notice_cb (n : net) (i : nat) : net :=
  if negb (sk_magic (get_sock n i)) then n else
  let n := at_do_event_changes n i AT_EVENT_RECV true in
  let n := at_do_event_changes n i AT_EVENT_ERROR true in
  upd_sock n i (λ s, set_notice (sem_release (recv_notice s)) (set_state AT_SOCKET_CLOSED s)).

(** * Operations *)

(** The network and the AT client whose URC handlers change it. *)
Definition sys : Type := net * at_client net.

(** The driver: the replies of the module during each wait are an argument, the rest of them
    a result. *)
Class SocketOps : Type := {
  op_connect : sys → nat → list Z → Z → at_socket_type → bool → list (list Z) → Z * list (list Z) * sys;
  op_close : sys → nat → list (list Z) → Z * list (list Z) * sys;
  op_send : sys → nat → list Z → list (list Z) → Z * list (list Z) * sys
}.

Section ops.
Context `{SocketOps}.

Definition on_net (s : sys) (f : net → net) : sys := (f s.1, s.2).

(** [at_closesocket]; [at_shutdown] is the same without the delay. *)
Definition at_closesocket (s : sys) (socket : Z) (env : list (list Z)) : Z * sys :=
  match at_get_socket s.1 socket with
  | None => (-1, s)
  | Some i =>
      let last_state := sk_state (get_sock s.1 i) in
      let s := on_net s (λ n, upd_sock n i (set_state AT_SOCKET_CLOSED)) in
      let '(r, _, s) :=
        if bool_decide (last_state = AT_SOCKET_CLOSED) then (0, env, s) else op_close s i env in
      (if r =? 0 then 0 else -1, on_net s (λ n, free_socket n i))
  end.

Definition at_connect (s : sys) (socket : Z) (ip : list Z) (port : Z) (env : list (list Z)) : Z * sys :=
  match at_get_socket s.1 socket with
  | None => (-1, s)
  | Some i =>
      if negb (bool_decide (sk_state (get_sock s.1 i) = AT_SOCKET_OPEN))
      then (-1, on_net s (λ n, at_do_event_changes n i AT_EVENT_ERROR true)) else
      let '(r, _, s) := op_connect s i ip port (sk_type (get_sock s.1 i)) true env in
      if r <? 0 then (-1, on_net s (λ n, at_do_event_changes n i AT_EVENT_ERROR true))
      else (0, on_net s (λ n,
              at_do_event_changes (upd_sock n i (set_state AT_SOCKET_CONNECT)) i AT_EVENT_SEND true))
  end.

(** [at_sendto] without an address ([at_send]). *)
Definition at_send (s : sys) (socket : Z) (data : list Z) (env : list (list Z)) : Z * sys :=
  if bool_decide (data = []) then (-1, s) else
  match at_get_socket s.1 socket with
  | None => (-1, s)
  | Some i =>
      let fail s := (-1, on_net s (λ n, at_do_event_changes n i AT_EVENT_ERROR true)) in
      let send s :=
        let '(len, _, s) := op_send s i data env in
        if len <? 0 then fail s else (len, s) in
      match sk_type (get_sock s.1 i) with
      | AT_SOCKET_TCP =>
          match sk_state (get_sock s.1 i) with
          | AT_SOCKET_CLOSED => (0, s)
          | AT_SOCKET_CONNECT | AT_SOCKET_OPEN => send s
          | _ => fail s
          end
      | AT_SOCKET_UDP => send s
      | AT_SOCKET_INVALID => fail s
      end
  end.

(** The loop of [at_recvfrom]; each wait on the notice takes one list of arrivals, and when
    none brings a notice (or none is left) the wait times out. *)
Fixpoint recv_loop (s : sys) (i : nat) (mem : list Z) (len : Z) (dontwait : bool) (env : list (list Z))
    : Z * list Z * sys :=
  if bool_decide (sk_state (get_sock s.1 i) = AT_SOCKET_CLOSED) then (0, mem, s) else
  let s := on_net s (λ n, upd_sock n i (set_notice 0)) in
  let '(recv_len, mem, n) := at_recvpkt_get (recv_line_buf (cl_rd s.2)) s.1 i mem len in
  let s : sys := (n, s.2) in
  if 0 <? recv_len then
    (recv_len, mem,
     on_net s (λ n, if bool_decide (recvpkt_list (get_sock n i) = [])
                    then at_do_event_clean n i AT_EVENT_RECV else n))
  else if dontwait then (-1, mem, s)
  else
    match env with
    | [] => (-1, mem, s)
    | bytes :: env =>
        let s : sys := feed s bytes in
        if 0 <? recv_notice (get_sock s.1 i)
        then recv_loop (on_net s (λ n, upd_sock n i (λ k, set_notice (recv_notice k - 1) k))) i mem len dontwait env
        else (-1, mem, s)
    end.

(** [at_recvfrom] without an address ([at_recv]). *)
Definition at_recv (s : sys) (socket : Z) (mem : list Z) (len : Z) (dontwait : bool) (env : list (list Z))
    : Z * list Z * sys :=
  if len =? 0 then (0, mem, s) else
  match at_get_socket s.1 socket with
  | None => (-1, mem, s)
  | Some i =>
      let '(r, mem, s) := recv_loop s i mem len dontwait env in
      (r, mem, if r <=? 0 then on_net s (λ n, at_do_event_changes n i AT_EVENT_ERROR true) else s)
  end.

(** The receive and send timeouts, in milliseconds, from a [struct timeval]. *)
Definition at_setsockopt (s : sys) (socket : Z) (rcv : bool) (tv_sec tv_usec : Z) : Z * sys :=
  match at_get_socket s.1 socket with
  | None => (-1, s)
  | Some i =>
      let v := s32 (tv_sec * 1000 + Z.quot tv_usec 1000) in
      (0, on_net s (λ n, upd_sock n i (λ k,
            if rcv then set_timeouts v (send_timeout k) k else set_timeouts (recv_timeout k) v k)))
  end.

End ops.

(** * Ownership of the packets' memory *)

(** Packet [a] of socket [i] is block [id]. *)
Definition owns (n : net) (i a id : nat) : Prop :=
  ∃ s k, sockets n !! i = Some s ∧ recvpkt_list s !! a = Some k ∧ pk_buff k = Block id.

(** A packet is a live block of its length, not yet read to its end. *)
Definition live (n : net) (k : at_recv_pkt) : Prop :=
  ∃ id b, pk_buff k = Block id ∧ nt_heap n !! id = Some b ∧ blen b = bfsz_totle k
    ∧ 0 ≤ bfsz_index k < bfsz_totle k.

(** Every packet owns its block, every block has one owner, nothing was freed wrongly. *)
Record owned (n : net) : Prop := {
  ow_live : ∀ i s, sockets n !! i = Some s → Forall (live n) (recvpkt_list s);
  ow_uniq : ∀ i a j b id, owns n i a id → owns n j b id → i = j ∧ a = b;
  ow_exact : ∀ id, is_Some (nt_heap n !! id) → ∃ i a, owns n i a id;
  ow_ub : nt_ub n = false
}.

(** The bytes of a packet not yet read, and of a socket. *)
Definition unread (lb : list Z) (n : net) (k : at_recv_pkt) : list Z :=
  take (Z.to_nat (bfsz_totle k - bfsz_index k)) (drop (Z.to_nat (bfsz_index k)) (bytes_at lb n (pk_buff k))).
Definition stream_of (lb : list Z) (n : net) (s : at_socket) : list Z := concat (unread lb n <$> recvpkt_list s).
Definition is_open (s : at_socket) : bool := sk_magic s && negb (bool_decide (sk_state s = AT_SOCKET_CLOSED)).

Lemma upd_sock_eq n i s f :
  sockets n !! i = Some s → upd_sock n i f = mk_net (<[i := f s]> (sockets n)) (socket_list n) (nt_heap n) (nt_ub n).
Proof.
  intros E. unfold upd_sock. f_equal. apply list_eq. intros j. destruct (decide (i = j)) as [<-|Hne].
  - rewrite list_lookup_alter_eq, E. simpl. rewrite list_lookup_insert_eq; [done |]. by eapply lookup_lt_Some.
  - by rewrite list_lookup_alter_ne, list_lookup_insert_ne.
Qed.

Lemma get_sock_eq n i s : sockets n !! i = Some s → get_sock n i = s.
Proof. unfold get_sock. by intros ->. Qed.

(** Replacing one entry by another with the same packets. *)
Lemma owns_same n n' i a id :
  (∀ j s', sockets n' !! j = Some s' → ∃ s, sockets n !! j = Some s ∧ recvpkt_list s' = recvpkt_list s) →
  owns n' i a id → owns n i a id.
Proof.
  intros H (s' & k & E & Ek & Eb). destruct (H i s' E) as (s & Es & El). exists s, k. by rewrite <- El.
Qed.

Lemma owned_same n n' :
  owned n → nt_heap n' = nt_heap n → nt_ub n' = nt_ub n →
  (∀ j s', sockets n' !! j = Some s' → ∃ s, sockets n !! j = Some s ∧ recvpkt_list s' = recvpkt_list s) →
  (∀ j s, sockets n !! j = Some s → ∃ s', sockets n' !! j = Some s' ∧ recvpkt_list s = recvpkt_list s') →
  owned n'.
Proof.
  intros [] Eh Eu H1 H2. constructor.
  - intros i s' E. destruct (H1 i s' E) as (s & Es & ->). eapply Forall_impl; [by eapply ow_live0 |].
    intros k Hk. unfold live in *. by rewrite Eh.
  - intros i a j b id Ha Hb. eapply ow_uniq0; by eapply owns_same.
  - intros id. rewrite Eh. intros Hid. destruct (ow_exact0 id Hid) as (i & a & Ho).
    exists i, a. by eapply owns_same.
  - congruence.
Qed.

(** The entry [i] with other bookkeeping but the same packets. *)
Lemma owned_upd n i f :
  owned n → (∀ s, recvpkt_list (f s) = recvpkt_list s) → owned (upd_sock n i f).
Proof.
  intros Ho Hf. apply (owned_same n); try done.
  - intros j s' E. unfold upd_sock in E. simpl in E. destruct (decide (i = j)) as [<-|Hne].
    + rewrite list_lookup_alter_eq in E. destruct (sockets n !! i) as [s|]; [|done].
      injection E as <-. exists s. by rewrite Hf.
    + rewrite list_lookup_alter_ne in E by done. by exists s'.
  - intros j s E. unfold upd_sock. simpl. destruct (decide (i = j)) as [<-|Hne].
    + rewrite list_lookup_alter_eq, E. simpl. exists (f s). by rewrite Hf.
    + rewrite list_lookup_alter_ne by done. by exists s.
Qed.

(** The state that the other sockets see. *)
Definition view (lb : list Z) (n : net) : list (bool * list Z) :=
  (λ s, (is_open s, stream_of lb n s)) <$> sockets n.

Lemma unread_heap lb n n' k :
  (∀ id, pk_buff k = Block id → nt_heap n' !! id = nt_heap n !! id) → unread lb n' k = unread lb n k.
Proof. intros H. unfold unread, bytes_at. destruct (pk_buff k); [done |]. by rewrite H. Qed.

Lemma stream_heap lb n n' s :
  (∀ k id, k ∈ recvpkt_list s → pk_buff k = Block id → nt_heap n' !! id = nt_heap n !! id) →
  stream_of lb n' s = stream_of lb n s.
Proof.
  intros H. unfold stream_of. f_equal. apply list_fmap_ext. intros a k Hk.
  apply unread_heap. intros id. apply H. by eapply list_elem_of_lookup_2.
Qed.

Lemma view_upd lb n i f :
  (∀ s, recvpkt_list (f s) = recvpkt_list s ∧ is_open (f s) = is_open s) →
  view lb (upd_sock n i f) = view lb n.
Proof.
  intros Hf. unfold view. apply list_eq. intros j. rewrite !list_lookup_fmap. unfold upd_sock. simpl.
  destruct (decide (i = j)) as [<-|Hne].
  - rewrite list_lookup_alter_eq. destruct (sockets n !! i) as [s|]; simpl; [|done].
    destruct (Hf s) as [E1 E2]. unfold stream_of. by rewrite E1, E2.
  - by rewrite list_lookup_alter_ne.
Qed.

(** ** Removing the first packet *)

Lemma delete_head_eq n i s k l id v :
  sockets n !! i = Some s → recvpkt_list s = k :: l → pk_buff k = Block id → is_Some (nt_heap n !! id) →
  at_recvpkt_node_delete (upd_sock n i (set_index v)) i
  = mk_net (<[i := set_pkts l s]> (sockets n)) (socket_list n) (delete id (nt_heap n)) (nt_ub n).
Proof.
  intros E El Eb [b Eh]. rewrite (upd_sock_eq n i s) by done. unfold set_index. rewrite El.
  unfold at_recvpkt_node_delete. assert (i < length (sockets n))%nat as Hi by by eapply lookup_lt_Some.
  rewrite (get_sock_eq _ i (set_pkts (mk_pkt (bfsz_totle k) v (pk_buff k) :: l) s))
    by (simpl; by rewrite list_lookup_insert_eq). cbn [recvpkt_list set_pkts].
  rewrite (upd_sock_eq _ i (set_pkts (mk_pkt (bfsz_totle k) v (pk_buff k) :: l) s))
    by (simpl; by rewrite list_lookup_insert_eq).
  cbn [pk_buff sockets nt_heap socket_list nt_ub]. rewrite Eb. unfold rt_free. cbn [nt_heap]. rewrite Eh. cbn.
  by rewrite list_insert_insert_eq.
Qed.

Lemma owns_insert n i s' sl h u j a id :
  owns (mk_net (<[i := s']> (sockets n)) sl h u) j a id → (i < length (sockets n))%nat →
  (j = i ∧ ∃ k, recvpkt_list s' !! a = Some k ∧ pk_buff k = Block id) ∨ (j ≠ i ∧ owns n j a id).
Proof.
  intros (s & k & E & Ek & Eb) Hi. simpl in E. destruct (decide (j = i)) as [->|Hne].
  - rewrite list_lookup_insert_eq in E by done. injection E as <-. left. eauto.
  - rewrite list_lookup_insert_ne in E by done. right. split; [done |]. by exists s, k.
Qed.

Lemma delete_head_owned lb n i s k l id :
  owned n → sockets n !! i = Some s → recvpkt_list s = k :: l → pk_buff k = Block id →
  let n' := mk_net (<[i := set_pkts l s]> (sockets n)) (socket_list n) (delete id (nt_heap n)) (nt_ub n) in
  owned n' ∧ view lb n' = <[i := (is_open s, concat (unread lb n <$> l))]> (view lb n).
Proof.
  intros Ho E El Eb n'. assert (i < length (sockets n))%nat as Hi by by eapply lookup_lt_Some.
  assert (owns n i 0 id) as Hown by (exists s, k; by rewrite El).
  assert (∀ j a id', owns n' j a id' → owns n j (if decide (j = i) then S a else a) id') as Hsub.
  { intros j a id' H. apply owns_insert in H as [(-> & k' & Hk & Hb)|[Hne H]]; [| |done].
    - rewrite decide_True by done. exists s, k'. by rewrite El.
    - by rewrite decide_False by done. }
  assert (∀ j a id', owns n' j a id' → id' ≠ id) as Hdiff.
  { intros j a id' H ->. apply Hsub in H. destruct (ow_uniq _ Ho _ _ _ _ _ Hown H) as [<- E0].
    rewrite decide_True in E0 by done. done. }
  assert (∀ j s', sockets n' !! j = Some s' → ∃ t, sockets n !! j = Some t
    ∧ (∀ k', k' ∈ recvpkt_list s' → k' ∈ recvpkt_list t)) as Hinc.
  { intros j s' Hj. simpl in Hj. destruct (decide (j = i)) as [->|Hne].
    - rewrite list_lookup_insert_eq in Hj by done. injection Hj as <-. exists s. split; [done |].
      intros k' Hk. rewrite El. by right.
    - rewrite list_lookup_insert_ne in Hj by done. by exists s'. }
  assert (∀ j s' k' id', sockets n' !! j = Some s' → k' ∈ recvpkt_list s' → pk_buff k' = Block id' →
    nt_heap n' !! id' = nt_heap n !! id') as Hheap.
  { intros j s' k' id' Hj Hk Hb. simpl. apply lookup_delete_ne. apply list_elem_of_lookup_1 in Hk as [a Ha].
    intros <-. eapply (Hdiff j a id); [|done]. by exists s', k'. }
  split.
  - constructor.
    + intros j s' Hj. apply Forall_forall. intros k' Hk. destruct (Hinc j s' Hj) as (t & Et & Hin).
      pose proof (ow_live _ Ho j t Et) as Hl. rewrite Forall_forall in Hl.
      destruct (Hl k' (Hin k' Hk)) as (id' & b & B1 & B2 & B3 & B4). exists id', b.
      by rewrite (Hheap j s' k' id' Hj Hk B1).
    + intros j a j' b id' H1 H2. pose proof (ow_uniq _ Ho _ _ _ _ _ (Hsub _ _ _ H1) (Hsub _ _ _ H2)) as [-> E2].
      split; [done |]. by case_decide; simplify_eq.
    + intros id' Hid. simpl in Hid. destruct (decide (id = id')) as [<-|Hne]; [by rewrite lookup_delete_eq in Hid; destruct Hid |].
      rewrite lookup_delete_ne in Hid by done. destruct (ow_exact _ Ho id' Hid) as (j & a & (t & k' & T1 & T2 & T3)).
      destruct (decide (j = i)) as [->|Hji].
      * rewrite E in T1. injection T1 as <-. rewrite El in T2. destruct a as [|a]; [simpl in T2; congruence |].
        exists i, a, (set_pkts l s), k'. simpl. by rewrite list_lookup_insert_eq.
      * exists j, a, t, k'. simpl. by rewrite list_lookup_insert_ne.
    + apply Ho.
  - unfold view. apply list_eq. intros j. rewrite list_lookup_fmap. destruct (decide (j = i)) as [->|Hne].
    + rewrite (list_lookup_insert_eq _ i) by (by rewrite length_fmap). simpl. rewrite list_lookup_insert_eq by done.
      simpl. f_equal. f_equal. rewrite (stream_heap lb n n'); [done |]. intros k' id' Hk Hb.
      eapply (Hheap i); [simpl; by rewrite list_lookup_insert_eq | done | done].
    + rewrite (list_lookup_insert_ne _ i) by done. rewrite list_lookup_fmap. simpl.
      rewrite list_lookup_insert_ne by done. destruct (sockets n !! j) as [t|] eqn:Ej; simpl; [|done].
      f_equal. f_equal. apply stream_heap. intros k' id' Hk Hb. eapply (Hheap j); [simpl; by rewrite list_lookup_insert_ne | done | done].
Qed.

(** ** Reading part of the first packet *)

Lemma set_index_owned lb n i s k l v :
  owned n → sockets n !! i = Some s → recvpkt_list s = k :: l → 0 ≤ v < bfsz_totle k →
  let n' := upd_sock n i (set_index v) in
  owned n' ∧ view lb n' = <[i := (is_open s, unread lb n (mk_pkt (bfsz_totle k) v (pk_buff k)) ++ concat (unread lb n <$> l))]> (view lb n).
Proof.
  intros Ho E El Hv n'. assert (i < length (sockets n))%nat as Hi by by eapply lookup_lt_Some.
  set (s' := set_pkts (mk_pkt (bfsz_totle k) v (pk_buff k) :: l) s).
  assert (n' = mk_net (<[i := s']> (sockets n)) (socket_list n) (nt_heap n) (nt_ub n)) as En.
  { unfold n'. rewrite (upd_sock_eq n i s) by done. unfold set_index. by rewrite El. }
  rewrite En. assert (∀ j a id, owns (mk_net (<[i := s']> (sockets n)) (socket_list n) (nt_heap n) (nt_ub n)) j a id
    → owns n j a id) as Hsub.
  { intros j a id H. apply owns_insert in H as [(-> & k' & Hk & Hb)|[_ H]]; [| done | done].
    destruct a as [|a]; simpl in Hk.
    - injection Hk as <-. exists s, k. by rewrite El.
    - exists s, k'. by rewrite El. }
  split.
  - constructor.
    + intros j t Hj. simpl in Hj. destruct (decide (j = i)) as [->|Hne].
      * rewrite list_lookup_insert_eq in Hj by done. injection Hj as <-. pose proof (ow_live _ Ho i s E) as Hl.
        rewrite El in Hl. apply Forall_cons in Hl as [(id & b & B1 & B2 & B3 & B4) Hl].
        apply Forall_cons. split; [exists id, b; simpl; split_and!; (done || lia) |]. exact Hl.
      * rewrite list_lookup_insert_ne in Hj by done. exact (ow_live _ Ho j t Hj).
    + intros j a j' b id H1 H2. eapply (ow_uniq _ Ho); by apply Hsub.
    + intros id Hid. destruct (ow_exact _ Ho id Hid) as (j & a & (t & k' & T1 & T2 & T3)).
      destruct (decide (j = i)) as [->|Hji].
      * rewrite E in T1. injection T1 as <-. rewrite El in T2. exists i, a.
        destruct a as [|a]; simpl in T2.
        -- injection T2 as <-. exists s', (mk_pkt (bfsz_totle k) v (pk_buff k)). simpl. by rewrite list_lookup_insert_eq.
        -- exists s', k'. simpl. by rewrite list_lookup_insert_eq.
      * exists j, a, t, k'. simpl. by rewrite list_lookup_insert_ne.
    + apply Ho.
  - unfold view. apply list_eq. intros j. rewrite list_lookup_fmap. simpl. destruct (decide (j = i)) as [->|Hne].
    + rewrite !list_lookup_insert_eq by (rewrite ?length_fmap; done). done.
    + rewrite !list_lookup_insert_ne by done. rewrite list_lookup_fmap. by destruct (sockets n !! j).
Qed.

(** ** Reading *)

Lemma memcpy_app dst off (a b : list Z) m :
  0 ≤ off → 0 ≤ m ≤ blen b → off + blen a + m ≤ blen dst →
  memcpy (memcpy dst off a 0 (blen a)) (off + blen a) b 0 m = memcpy dst off (a ++ b) 0 (blen a + m).
Proof.
  intros Ho Hm Hd. pose proof (blen_nonneg a). unfold memcpy. simpl. rewrite !drop_0.
  rewrite (take_ge a) by len.
  assert (take (Z.to_nat (off + blen a)) (take (Z.to_nat off) dst ++ a ++ drop (Z.to_nat (off + blen a)) dst)
    = take (Z.to_nat off) dst ++ a) as ->.
  { rewrite app_assoc, take_app_le by len. by rewrite take_ge by len. }
  assert (drop (Z.to_nat (off + blen a + m)) (take (Z.to_nat off) dst ++ a ++ drop (Z.to_nat (off + blen a)) dst)
    = drop (Z.to_nat (off + blen a + m)) dst) as ->.
  { rewrite app_assoc, drop_app_ge by len. rewrite drop_drop. f_equal. len. }
  rewrite (take_app_ge a) by len. rewrite <- !app_assoc. f_equal. f_equal. f_equal; [f_equal; len | f_equal; len].
Qed.

Lemma memcpy_unread lb n k mem pos m :
  0 ≤ bfsz_index k → 0 ≤ m ≤ bfsz_totle k - bfsz_index k →
  memcpy mem pos (bytes_at lb n (pk_buff k)) (bfsz_index k) m = memcpy mem pos (unread lb n k) 0 m.
Proof.
  intros Hi Hm. unfold memcpy, unread. simpl. rewrite drop_0, take_take. f_equal. f_equal. f_equal. lia.
Qed.

Lemma unread_blen lb n k : live n k → blen (unread lb n k) = bfsz_totle k - bfsz_index k.
Proof. intros (id & b & E & Eh & El & Hi). unfold unread, bytes_at. rewrite E, Eh. simpl. len. Qed.

Lemma recvpkt_loop_spec lb i len fuel : ∀ n s mem pos,
  owned n → sockets n !! i = Some s → length (recvpkt_list s) = fuel →
  0 ≤ pos ≤ len → len ≤ blen mem →
  let m := Z.min (len - pos) (blen (stream_of lb n s)) in
  ∃ n', recvpkt_loop fuel lb n i mem pos len = (pos + m, memcpy mem pos (stream_of lb n s) 0 m, n')
    ∧ owned n' ∧ view lb n' = <[i := (is_open s, drop (Z.to_nat m) (stream_of lb n s))]> (view lb n).
Proof.
  induction fuel as [|fuel IH]; intros n s mem pos Ho E Hf Hp Hm m.
  { destruct (recvpkt_list s) eqn:El; [|done]. unfold m, stream_of in *. rewrite El in *. simpl. exists n.
    rewrite Z.min_r by (unfold blen; simpl; lia). change (blen []) with 0. split_and!; [|done |].
    - unfold memcpy. rewrite take_0, Z.add_0_r. simpl. by rewrite take_drop.
    - symmetry. apply list_insert_id. unfold view. rewrite list_lookup_fmap, E. simpl. unfold stream_of. by rewrite El. }
  destruct (recvpkt_list s) as [|k l] eqn:El; [done |]. simpl in Hf.
  pose proof (ow_live _ Ho i s E) as Hl. rewrite El in Hl. apply Forall_cons in Hl as [Hk Hl].
  pose proof Hk as (id & b & B1 & B2 & B3 & B4). pose proof (unread_blen lb n k Hk) as Hu.
  assert (stream_of lb n s = unread lb n k ++ concat (unread lb n <$> l)) as Es by (unfold stream_of; by rewrite El).
  assert (i < length (sockets n))%nat as Hi by by eapply lookup_lt_Some.
  cbn [recvpkt_loop]. rewrite (get_sock_eq n i s E), El. pose proof (blen_nonneg (concat (unread lb n <$> l))).
  unfold m. rewrite Es, blen_app, Hu in *. destruct (Z.leb_spec (len - pos) (bfsz_totle k - bfsz_index k)) as [Hle|Hgt].
  - rewrite Z.min_l by lia. rewrite memcpy_unread by lia.
    assert (memcpy mem pos (unread lb n k) 0 (len - pos)
      = memcpy mem pos (unread lb n k ++ concat (unread lb n <$> l)) 0 (len - pos)) as ->.
    { unfold memcpy. simpl. rewrite !drop_0, (take_app_le (unread lb n k)) by len. done. }
    destruct (Z.eqb_spec (bfsz_index k + (len - pos)) (bfsz_totle k)) as [Heq|Hne].
    + rewrite (delete_head_eq n i s k l id) by done.
      destruct (delete_head_owned lb n i s k l id Ho E El B1) as [Ho' Hv'].
      eexists. split; [f_equal; f_equal; lia |]. split; [done |]. rewrite Hv'. f_equal. f_equal.
      rewrite drop_app_ge by len. replace (Z.to_nat (len - pos) - length (unread lb n k))%nat with 0%nat by len. done.
    + destruct (set_index_owned lb n i s k l (bfsz_index k + (len - pos)) Ho E El ltac:(lia)) as [Ho' Hv'].
      eexists. split; [f_equal; f_equal; lia |]. split; [done |]. rewrite Hv'. f_equal. f_equal.
      rewrite drop_app_le by len. f_equal. unfold unread. cbn [bfsz_totle bfsz_index pk_buff].
      rewrite skipn_firstn_comm, drop_drop. f_equal; [lia | f_equal; lia].
  - rewrite (delete_head_eq n i s k l id) by done.
    destruct (delete_head_owned lb n i s k l id Ho E El B1) as [Ho' Hv'].
    set (n1 := mk_net _ _ _ _) in *.
    assert (sockets n1 !! i = Some (set_pkts l s)) as E1 by (simpl; by rewrite list_lookup_insert_eq).
    assert (stream_of lb n1 (set_pkts l s) = concat (unread lb n <$> l)) as Es1.
    { apply (f_equal (λ v, v !! i)) in Hv'. unfold view in Hv'. rewrite list_lookup_fmap, E1 in Hv'. simpl in Hv'.
      rewrite list_lookup_insert_eq in Hv' by (by rewrite length_fmap). by injection Hv' as ->. }
    rewrite memcpy_unread by lia.
    assert (length (memcpy mem pos (unread lb n k) 0 (bfsz_totle k - bfsz_index k)) = length mem) as Elen
      by (apply memcpy_length; lia).
    destruct (IH n1 (set_pkts l s) (memcpy mem pos (unread lb n k) 0 (bfsz_totle k - bfsz_index k))
      (pos + (bfsz_totle k - bfsz_index k)) Ho' E1) as (n' & -> & Ho2 & Hv2); [simpl; lia | lia | unfold blen in *; lia |].
    rewrite Es1 in *. rewrite Hv' in Hv2.
    set (m' := Z.min (len - (pos + (bfsz_totle k - bfsz_index k))) (blen (concat (unread lb n <$> l)))) in *.
    replace (Z.min (len - pos) (bfsz_totle k - bfsz_index k + blen (concat (unread lb n <$> l))))
      with (bfsz_totle k - bfsz_index k + m') by lia.
    exists n'. split_and!; [| done |].
    + rewrite <- Hu. rewrite memcpy_app by lia. f_equal. f_equal. lia.
    + rewrite Hv2, list_insert_insert_eq. f_equal. f_equal.
      rewrite drop_app_ge by len. f_equal. len.
Qed.

(** ** Delivering *)

(** A driver delivers data in a new block. *)
Definition deliver (mem : bool) (n : net) (i : nat) (data : list Z) : net :=
  let id := fresh (dom (nt_heap n)) in
  at_recv_notice_cb mem (mk_net (sockets n) (socket_list n) (<[id := data]> (nt_heap n)) (nt_ub n)) i
    (Block id) (blen data).

Section put.
Context (lb : list Z) (n : net) (i : nat) (s : at_socket) (data : list Z) (id : nat).
Hypothesis Howned : owned n.
Hypothesis Hi : sockets n !! i = Some s.
Hypothesis Hid : nt_heap n !! id = None.

(** Entry [i] with one more packet, the new block. *)
Let s' : at_socket := set_pkts (recvpkt_list s ++ [mk_pkt (blen data) 0 (Block id)]) s.
Let n' : net := mk_net (<[i := s']> (sockets n)) (socket_list n) (<[id := data]> (nt_heap n)) (nt_ub n).

Lemma put_stream t j : sockets n !! j = Some t → stream_of lb n' t = stream_of lb n t.
Proof.
  intros Ht. apply stream_heap. intros k id' Hk Hb. simpl. apply lookup_insert_ne. intros <-.
  pose proof (ow_live _ Howned j t Ht) as Hl. rewrite Forall_forall in Hl.
  destruct (Hl k Hk) as (id2 & b & B1 & B2 & _). congruence.
Qed.

Lemma put_view : is_open s = true → view lb n' = <[i := (true, stream_of lb n s ++ data)]> (view lb n).
Proof.
  intros Eo. unfold view. apply list_eq. intros j. rewrite list_lookup_fmap. simpl.
  assert (i < length (sockets n))%nat as Hlt by by eapply lookup_lt_Some.
  destruct (decide (j = i)) as [->|Hne].
  - rewrite !list_lookup_insert_eq by (rewrite ?length_fmap; done). simpl. f_equal. f_equal; [exact Eo |].
    rewrite <- (put_stream s i Hi). unfold stream_of, s'. simpl. rewrite fmap_app, concat_app. f_equal. simpl.
    rewrite app_nil_r. unfold unread. simpl. rewrite lookup_insert_eq. simpl. by rewrite drop_0, take_ge by len.
  - rewrite !list_lookup_insert_ne by done. rewrite list_lookup_fmap.
    destruct (sockets n !! j) as [t|] eqn:Ej; simpl; [|done]. f_equal. f_equal. by eapply put_stream.
Qed.

Lemma put_owns j a id' : owns n' j a id' → owns n j a id' ∨ (j = i ∧ a = length (recvpkt_list s) ∧ id' = id).
Proof.
  intros H. apply owns_insert in H as [(-> & k & Hk & Hb)|[Hne H]]; [| by left | by eapply lookup_lt_Some].
  simpl in Hk. apply lookup_snoc_Some in Hk as [[Ha Hk]|[-> <-]].
  - left. by exists s, k.
  - right. simpl in Hb. by injection Hb as <-.
Qed.

Lemma put_fresh j a : ¬ owns n j a id.
Proof.
  intros (t & k & T1 & T2 & T3). pose proof (ow_live _ Howned j t T1) as Hl.
  apply (Forall_lookup_1 _ _ _ _ Hl) in T2 as (id2 & b & B1 & B2 & _). congruence.
Qed.

Lemma put_live k : live n k → live n' k.
Proof.
  intros (id2 & b & B1 & B2 & B3). exists id2, b. split; [done |]. split; [|done].
  simpl. by rewrite lookup_insert_ne by (intros <-; congruence).
Qed.

Lemma put_owned : data ≠ [] → owned n'.
Proof.
  intros Hd. assert (i < length (sockets n))%nat as Hlt by by eapply lookup_lt_Some. constructor.
  - intros j t Hj. simpl in Hj. destruct (decide (j = i)) as [->|Hne].
    + rewrite list_lookup_insert_eq in Hj by done. injection Hj as <-. apply Forall_app. split.
      * eapply Forall_impl; [exact (ow_live _ Howned i s Hi) | exact put_live].
      * apply Forall_singleton. exists id, data. simpl. rewrite lookup_insert_eq.
        assert (0 < blen data) by (destruct data; [done | unfold blen; simpl; lia]). split_and!; (done || lia).
    + rewrite list_lookup_insert_ne in Hj by done.
      eapply Forall_impl; [exact (ow_live _ Howned j t Hj) | exact put_live].
  - intros j a j' b id' H1 H2. apply put_owns in H1 as [H1|(-> & -> & ->)], H2 as [H2|(-> & -> & ?)].
    + by eapply (ow_uniq _ Howned).
    + subst. by apply put_fresh in H1.
    + by apply put_fresh in H2.
    + done.
  - intros id' Hid'. simpl in Hid'. destruct (decide (id = id')) as [<-|Hne].
    + exists i, (length (recvpkt_list s)), s', (mk_pkt (blen data) 0 (Block id)). simpl.
      rewrite list_lookup_insert_eq by done. split_and!; [done | | done]. by apply list_lookup_middle.
    + rewrite lookup_insert_ne in Hid' by done.
      destruct (ow_exact _ Howned id' Hid') as (j & a & (t & k & T1 & T2 & T3)).
      destruct (decide (j = i)) as [->|Hji].
      * rewrite Hi in T1. injection T1 as <-. exists i, a, s', k. simpl. rewrite list_lookup_insert_eq by done.
        split_and!; [done | | done]. rewrite lookup_app_l; [done |]. by eapply lookup_lt_Some.
      * exists j, a, t, k. simpl. by rewrite list_lookup_insert_ne.
  - apply Howned.
Qed.

End put.

Lemma deliver_owned mem lb n i s data :
  owned n → sockets n !! i = Some s → data ≠ [] →
  owned (deliver mem n i data)
  ∧ view lb (deliver mem n i data)
    = if is_open s && mem then <[i := (true, stream_of lb n s ++ data)]> (view lb n) else view lb n.
Proof.
  intros Ho E Hd. unfold deliver. set (id := fresh (dom (nt_heap n))).
  assert (nt_heap n !! id = None) as Hid by (apply not_elem_of_dom; unfold id; apply is_fresh).
  set (n1 := mk_net _ _ _ _). assert (rt_free n1 (Block id) = n) as Hfree.
  { unfold rt_free. simpl. rewrite lookup_insert_eq, delete_insert_id by done. by destruct n. }
  unfold at_recv_notice_cb. rewrite (get_sock_eq n1 i s) by done.
  destruct (is_open s) eqn:Eo; unfold is_open in Eo.
  - replace (negb (sk_magic s) || bool_decide (sk_state s = AT_SOCKET_CLOSED)) with false
      by (by destruct (sk_magic s), (bool_decide (sk_state s = AT_SOCKET_CLOSED))).
    destruct mem; [|change (- RT_ENOMEM =? RT_EOK) with false; cbn [at_recvpkt_put andb]; by rewrite Hfree].
    cbn [at_recvpkt_put andb]. change (RT_EOK =? RT_EOK) with true. cbn [negb]. unfold at_do_event_changes.
    rewrite (upd_sock_eq n1 i s) by done. split.
    + do 2 (apply owned_upd; [|by intros]). by apply (put_owned n i s data id).
    + rewrite !view_upd by (intros ?; done). by apply (put_view lb n i s data id).
  - replace (negb (sk_magic s) || bool_decide (sk_state s = AT_SOCKET_CLOSED)) with true
      by (by destruct (sk_magic s), (bool_decide (sk_state s = AT_SOCKET_CLOSED))).
    by rewrite Hfree.
Qed.

(** ** Freeing a socket *)

Lemma free_all_eq l : ∀ n,
  Forall (live n) l → NoDup (pk_buff <$> l) →
  let n' := foldl (λ n k, rt_free n (pk_buff k)) n l in
  sockets n' = sockets n ∧ socket_list n' = socket_list n ∧ nt_ub n' = nt_ub n
  ∧ ∀ id, nt_heap n' !! id = if decide (Block id ∈ pk_buff <$> l) then None else nt_heap n !! id.
Proof.
  induction l as [|k l IH]; intros n Hl Hd; [done |].
  apply Forall_cons in Hl as [(id & b & B1 & B2 & B3) Hl]. rewrite fmap_cons in *. apply NoDup_cons in Hd as [Hk Hd].
  set (n1 := mk_net (sockets n) (socket_list n) (delete id (nt_heap n)) (nt_ub n)).
  assert (rt_free n (pk_buff k) = n1) as Er by (unfold rt_free; by rewrite B1, B2). cbn [foldl]. rewrite Er.
  destruct (IH n1) as (J1 & J2 & J3 & J4).
  - apply Forall_forall. intros k' Hk'. rewrite Forall_forall in Hl.
    destruct (Hl k' Hk') as (id2 & b2 & C1 & C2 & C3). exists id2, b2. split; [done |]. split; [|done].
    simpl. rewrite lookup_delete_ne; [done |]. intros <-. apply Hk. rewrite B1, <- C1. by apply list_elem_of_fmap_2.
  - done.
  - split_and!; [exact J1 | exact J2 | exact J3 |]. intros id'. rewrite J4. simpl.
    destruct (decide (id = id')) as [<-|Hne].
    + rewrite lookup_delete_eq. rewrite (decide_True (P:=Block id ∈ pk_buff k :: _)) by (rewrite B1; by left).
      by case_decide.
    + rewrite lookup_delete_ne by done. apply decide_ext. rewrite elem_of_cons. rewrite B1. split; [by right |].
      intros [[= ->]|]; done.
Qed.

Lemma owned_nodup n i s : owned n → sockets n !! i = Some s → NoDup (pk_buff <$> recvpkt_list s).
Proof.
  intros Ho E. apply NoDup_alt. intros a b p Ha Hb. rewrite list_lookup_fmap in Ha, Hb.
  apply fmap_Some in Ha as (k & Hk & ->). apply fmap_Some in Hb as (k' & Hk' & Ek).
  pose proof (ow_live _ Ho i s E) as Hl. pose proof (Forall_lookup_1 _ _ _ _ Hl Hk) as (id & b' & B1 & _).
  apply (ow_uniq _ Ho i a i b id); [by exists s, k | exists s, k'; split_and!; congruence].
Qed.

Lemma free_socket_owned lb n i s :
  owned n → sockets n !! i = Some s →
  owned (free_socket n i) ∧ view lb (free_socket n i) = <[i := (false, [])]> (view lb n).
Proof.
  intros Ho E. assert (i < length (sockets n))%nat as Hi by by eapply lookup_lt_Some.
  unfold free_socket, at_recvpkt_all_delete. rewrite (get_sock_eq n i s E).
  destruct (free_all_eq (recvpkt_list s) n (ow_live _ Ho i s E) (owned_nodup n i s Ho E)) as (J1 & J2 & J3 & J4).
  set (n1 := foldl _ n _) in *. set (sl := match at_get_socket n1 _ with Some j => _ | None => _ end). clearbody sl.
  rewrite (upd_sock_eq _ i s) by (simpl; by rewrite J1). cbn [sockets socket_list nt_heap nt_ub]. rewrite J1, J3.
  assert (∀ j t k id, j ≠ i → sockets n !! j = Some t → k ∈ recvpkt_list t → pk_buff k = Block id →
    nt_heap n1 !! id = nt_heap n !! id) as Hkeep.
  { intros j t k id Hj Ht Hk Hb. rewrite J4, decide_False; [done |]. intros Hin.
    apply list_elem_of_fmap in Hin as (k' & Eb & Hk'). apply list_elem_of_lookup_1 in Hk as [a Ha].
    apply list_elem_of_lookup_1 in Hk' as [a' Ha'].
    destruct (ow_uniq _ Ho j a i a' id) as [-> _]; [by exists t, k | by exists s, k' | done]. }
  set (n2 := mk_net _ _ _ _).
  assert (∀ j a id, owns n2 j a id → j ≠ i ∧ owns n j a id) as Hsub.
  { intros j a id H. apply owns_insert in H as [(-> & k & Hk & _)|?]; [done | done | done]. }
  split.
  - constructor.
    + intros j t Hj. simpl in Hj. destruct (decide (j = i)) as [->|Hne].
      * rewrite list_lookup_insert_eq in Hj by done. injection Hj as <-. done.
      * rewrite list_lookup_insert_ne in Hj by done. apply Forall_forall. intros k Hk.
        pose proof (ow_live _ Ho j t Hj) as Hl. rewrite Forall_forall in Hl.
        destruct (Hl k Hk) as (id & b & B1 & B2 & B3). exists id, b. split; [done |]. split; [|done].
        simpl. by rewrite (Hkeep j t k id).
    + intros j a j' b id H1 H2. apply Hsub in H1 as [_ H1], H2 as [_ H2]. by eapply (ow_uniq _ Ho).
    + intros id Hid. simpl in Hid. rewrite J4 in Hid. case_decide as Hin; [by destruct Hid |].
      destruct (ow_exact _ Ho id Hid) as (j & a & (t & k & T1 & T2 & T3)). exists j, a, t, k. split_and!; [|done | done].
      simpl. rewrite list_lookup_insert_ne; [done |]. intros <-. apply Hin. rewrite E in T1. injection T1 as <-.
      rewrite <- T3. apply list_elem_of_fmap_2. by eapply list_elem_of_lookup_2.
    + apply Ho.
  - unfold view. apply list_eq. intros j. rewrite list_lookup_fmap. simpl. destruct (decide (j = i)) as [->|Hne].
    + by rewrite !list_lookup_insert_eq by (rewrite ?length_fmap; done).
    + rewrite !list_lookup_insert_ne by done. rewrite list_lookup_fmap.
      destruct (sockets n !! j) as [t|] eqn:Ej; simpl; [|done]. f_equal. f_equal. apply stream_heap.
      intros k id Hk Hb. by eapply Hkeep.
Qed.

(** * Runs *)

(** What happens to the packets: a delivery, a read, the end of a socket. *)
Inductive pkt_op : Type :=
  | PDeliver (mem : bool) (i : nat) (data : list Z)
  | PRead (i : nat) (len : Z)
  | PFree (i : nat).

Definition pkt_step (lb : list Z) (n : net) (op : pkt_op) : list Z * net :=
  match op with
  | PDeliver mem i data => ([], deliver mem n i data)
  | PRead i len =>
      let '(r, mem, n) := at_recvpkt_get lb n i (replicate (Z.to_nat len) 0) len in
      (take (Z.to_nat r) mem, n)
  | PFree i => ([], free_socket n i)
  end.

(** The abstract socket: open or not, and a queue of bytes. *)
Definition queue_step (q : list (bool * list Z)) (op : pkt_op) : list Z * list (bool * list Z) :=
  match op with
  | PDeliver mem i data =>
      ([], match q !! i, mem with Some (true, b), true => <[i := (true, b ++ data)]> q | _, _ => q end)
  | PRead i len =>
      match q !! i with
      | Some (o, b) => (take (Z.to_nat len) b, <[i := (o, drop (Z.to_nat len) b)]> q)
      | None => ([], q)
      end
  | PFree i => ([], <[i := (false, [])]> q)
  end.

Definition op_ok (k : nat) (op : pkt_op) : Prop :=
  match op with
  | PDeliver _ i data => (i < k)%nat ∧ data ≠ []
  | PRead i len => (i < k)%nat ∧ 0 ≤ len
  | PFree i => (i < k)%nat
  end.

Fixpoint run {S} (step : S → pkt_op → list Z * S) (s : S) (ops : list pkt_op) : list (list Z) * S :=
  match ops with
  | [] => ([], s)
  | op :: ops => let '(o, s) := step s op in let '(os, s) := run step s ops in (o :: os, s)
  end.

Lemma pkt_step_refines lb n op :
  owned n → op_ok (length (sockets n)) op →
  let '(o, n') := pkt_step lb n op in
  owned n' ∧ length (sockets n') = length (sockets n) ∧ queue_step (view lb n) op = (o, view lb n').
Proof.
  intros Ho Hop.
  assert (∀ n' x i, view lb n' = <[i := x]> (view lb n) → length (sockets n') = length (sockets n)) as Hlen.
  { intros n' x i Hv. apply (f_equal length) in Hv. unfold view in Hv. by rewrite length_insert, !length_fmap in Hv. }
  destruct op as [mem i data|i len|i]; simpl in *.
  - destruct Hop as [Hi Hd]. apply lookup_lt_is_Some in Hi as [s E].
    destruct (deliver_owned mem lb n i s data Ho E Hd) as [Ho' Hv].
    assert (view lb n !! i = Some (is_open s, stream_of lb n s)) as El by (unfold view; by rewrite list_lookup_fmap, E).
    rewrite El. split; [done |]. destruct (is_open s), mem; cbn [andb] in Hv; (split; [|by rewrite Hv]).
    1: exact (Hlen _ _ _ Hv).
    all: apply (f_equal length) in Hv; unfold view in Hv; by rewrite !length_fmap in Hv.
  - destruct Hop as [Hi Hl]. apply lookup_lt_is_Some in Hi as [s E].
    assert (view lb n !! i = Some (is_open s, stream_of lb n s)) as El by (unfold view; by rewrite list_lookup_fmap, E).
    unfold at_recvpkt_get. rewrite (get_sock_eq n i s E).
    destruct (recvpkt_loop_spec lb i len (length (recvpkt_list s)) n s (replicate (Z.to_nat len) 0) 0)
      as (n' & -> & Ho' & Hv); [done | done | done | lia | len |].
    split; [done |]. split; [by eapply Hlen |]. rewrite El, Hv. rewrite Z.sub_0_r.
    set (b := stream_of lb n s). pose proof (blen_nonneg b). f_equal.
    + unfold memcpy. simpl. rewrite drop_0. rewrite take_app_le by len.
      rewrite take_take. destruct (Z.le_gt_cases len (blen b)); [f_equal; lia |]. rewrite !take_ge by len. done.
    + f_equal. f_equal. destruct (Z.le_gt_cases len (blen b)); [f_equal; lia |]. by rewrite !drop_ge by len.
  - apply lookup_lt_is_Some in Hop as [s E]. destruct (free_socket_owned lb n i s Ho E) as [Ho' Hv].
    split; [done |]. split; [exact (Hlen _ _ _ Hv) | by rewrite <- Hv].
Qed.

Lemma run_refines lb ops : ∀ n,
  owned n → Forall (op_ok (length (sockets n))) ops →
  owned (run (pkt_step lb) n ops).2
  ∧ run queue_step (view lb n) ops = ((run (pkt_step lb) n ops).1, view lb (run (pkt_step lb) n ops).2).
Proof.
  induction ops as [|op ops IH]; intros n Ho Hops; [done |]. apply Forall_cons in Hops as [Hop Hops].
  pose proof (pkt_step_refines lb n op Ho Hop) as H. simpl. destruct (pkt_step lb n op) as [o n'].
  destruct H as (Ho' & El & ->). rewrite <- El in Hops. destruct (IH n' Ho' Hops) as [H1 ->].
  by destruct (run (pkt_step lb) n' ops) as [os n''].
Qed.

(** * Theorems *)

(** C36. Received data arrives as sent, and its memory is returned. For a driver that hands
    over a new heap block with every piece of data, any interleaving of deliveries, reads
    of any length and closures over all sockets gives exactly the bytes of one queue per
    socket (a closed socket takes nothing, nor does one when there is no memory for the
    packet); no pointer is freed twice or wrongly, every
    live block belongs to exactly one packet, and when all packets are gone the heap is
    empty. The heap is that of the data blocks; the list nodes are not part of it. *)
Theorem at_packets_queues (lb : list Z) (n : net) (ops : list pkt_op)
    (Howned : owned n) (Hops : Forall (op_ok (length (sockets n))) ops) :
  let '(outs, n') := run (pkt_step lb) n ops in
  run queue_step (view lb n) ops = (outs, view lb n')
  ∧ owned n'
  ∧ ((∀ i s, sockets n' !! i = Some s → recvpkt_list s = []) → nt_heap n' = ∅).
Proof.
  destruct (run_refines lb ops n Howned Hops) as [Ho Hr].
  destruct (run (pkt_step lb) n ops) as [outs n']. split_and!; [done | done |]. intros Hempty.
  apply map_eq. intros id. rewrite lookup_empty. destruct (nt_heap n' !! id) eqn:E; [|done].
  destruct (ow_exact _ Ho id ltac:(by eexists)) as (i & a & (s & k & E1 & E2 & _)).
  by rewrite (Hempty i s E1) in E2.
Qed.

(** Data that is still unread when the peer closes is lost: [at_recv] reports the end of the
    stream without looking at the packets. *)
Lemma at_recv_after_close `{SocketOps} n (c : at_client net) d i s mem len dontwait env :
  at_get_socket n d = Some i → sockets n !! i = Some s → sk_magic s = true → len ≠ 0 →
  (at_recv (at_closed_notice_cb n i, c) d mem len dontwait env).1 = (0, mem).
Proof.
  intros Hd E Hm Hl. unfold at_closed_notice_cb. rewrite (get_sock_eq n i s E), Hm. cbn [negb].
  unfold at_recv. rewrite (proj2 (Z.eqb_neq len 0)) by done. cbn [fst].
  set (f1 := at_do_event_changes _ i AT_EVENT_ERROR true).
  assert (∀ j, sk_socket (get_sock (upd_sock f1 i (λ s, set_notice (sem_release (recv_notice s)) (set_state AT_SOCKET_CLOSED s))) j)
      = sk_socket (get_sock n j) ∧ sk_magic (get_sock (upd_sock f1 i (λ s, set_notice (sem_release (recv_notice s)) (set_state AT_SOCKET_CLOSED s))) j)
      = sk_magic (get_sock n j)) as Hg.
  { intros j. unfold get_sock, f1, at_do_event_changes, upd_sock. simpl. destruct (decide (i = j)) as [<-|Hne].
    - rewrite !list_lookup_alter_eq, E. done.
    - by rewrite !list_lookup_alter_ne. }
  assert (at_get_socket (upd_sock f1 i (λ s, set_notice (sem_release (recv_notice s)) (set_state AT_SOCKET_CLOSED s))) d
    = Some i) as ->.
  { rewrite <- Hd. unfold at_get_socket. f_equal. change (socket_list (upd_sock f1 i _)) with (socket_list n).
    apply list_find_ext. intros j. destruct (Hg j) as [-> ->]. done. }
  set (n' := upd_sock f1 i _) in *.
  assert (sk_state (get_sock n' i) = AT_SOCKET_CLOSED) as Hst.
  { unfold get_sock, n', f1, at_do_event_changes, upd_sock. simpl. rewrite !list_lookup_alter_eq, E. done. }
  destruct env; cbn [recv_loop fst]; rewrite (bool_decide_eq_true_2 _ Hst); done.
Qed.

(** * Witness *)

Definition demo_sock (i : Z) : at_socket := mk_sock true i AT_SOCKET_TCP AT_SOCKET_CONNECT 0 [] 0 0 0 1 0 i.
Definition demo_net : net := mk_net [demo_sock 0; demo_sock 1] [0%nat; 1%nat] ∅ false.
Definition demo_ops : list pkt_op :=
  [PDeliver true 0 [1; 2; 3]; PDeliver true 1 [9]; PDeliver false 0 [8]; PDeliver true 0 [4; 5]; PRead 0 2; PRead 0 2;
   PFree 1; PDeliver true 1 [7]; PRead 0 5].

Lemma demo_owned : owned demo_net.
Proof.
  constructor; [| | |done].
  - intros i s E. do 2 (destruct i as [|i]; [by injection E as <- |]). done.
  - intros i a j b id (s & k & E & Ek & _). do 2 (destruct i as [|i]; [by injection E as <- |]). done.
  - intros id [x Hx]. done.
Qed.

Lemma at_packets_queues_witness :
  run queue_step (view [] demo_net) demo_ops
    = ((run (pkt_step []) demo_net demo_ops).1, view [] (run (pkt_step []) demo_net demo_ops).2)
  ∧ (run queue_step (view [] demo_net) demo_ops).1 = [[]; []; []; []; [1; 2]; [3; 4]; []; []; [5]].
Proof.
  split; [|done].
  pose proof (at_packets_queues [] demo_net demo_ops demo_owned
    ltac:(repeat constructor; simpl; (done || lia))) as Hw.
  destruct (run (pkt_step []) demo_net demo_ops) as [outs n']. exact (proj1 Hw).
Defined.
