(* ===== verification/Aiwb2.v ===== *)
(** The driver of the Ai-WB2 Wi-Fi module (src/project/aiwb2/at_socket_aiwb2.c and the
    response parsing of at_device_aiwb2.c): connecting, sending, closing and name
    resolution as AT commands, the URC handlers for received data and closed connections,
    and the start of the socket layer on top of them ([SocketOps]).

    What the module sends during each wait is an argument (one list of bytes per wait). The
    device is registered, so its lookup by the name of the client succeeds.
    Memory for response objects and packets, and the result of writing to the serial
    device, are parameters. *)

From Stdlib Require Import String Sorted.
From stdpp Require Import gmap.
From S2P Require Import Prelude.
From S2P Require Import CText.
From S2P Require Import RtDef.
From S2P Require Import AtClient.
From S2P Require Import AtSocket.
Open Scope Z_scope.
Open Scope list_scope.

(** * Scanning text *)

(** The conversions the driver uses of [sscanf]: a literal character, "%d" and "%[^...]". *)
Inductive fmt_item : Set := FLit (c : Z) | FInt | FNot (set : list Z).
Inductive scan_arg : Set := AInt (v : Z) | AStr (s : list Z).

(** The characters of a string constant of the format. *)
Definition lit (s : string) : list fmt_item := FLit <$> str s.

Fixpoint span_not (set s : list Z) : list Z * list Z :=
  match s with
  | c :: s' => if bool_decide (c ∈ set) then ([], s) else let '(a, b) := span_not set s' in (c :: a, b)
  | [] => ([], [])
  end.

(** The converted arguments; their number is the result, except that [sscanf] returns EOF
    instead of 0 when the text ends first, which the callers do not distinguish. *)
Fixpoint sscanf (s : list Z) (fmt : list fmt_item) : list scan_arg :=
  match fmt with
  | [] => []
  | FLit c :: fmt =>
      if isspace c then sscanf (skip_space s) fmt
      else match s with
           | d :: s => if d =? c then sscanf s fmt else []
           | [] => []
           end
  | FInt :: fmt => let r := strtol s in if sl_conv r then AInt (sl_val r) :: sscanf (sl_end r) fmt else []
  | FNot set :: fmt =>
      let '(a, b) := span_not set s in if bool_decide (a = []) then [] else AStr a :: sscanf b fmt
  end.

(** [strchr(s, ch)] as an offset. *)
Definition strchr (s : list Z) (ch : Z) : option nat := fst <$> list_find (λ c, c = ch) (cstr s).

(** * Constants (at_device_aiwb2.h) *)

Definition AT_DEVICE_AIWB2_SOCKETS_NUM : nat := 5.
Definition AIWB2_MODULE_SEND_MAX_SIZE : Z := 1024.

(** * URC handlers *)

Definition aiwb2_find_socket (n : net) (con_id : Z) : option nat :=
  if con_id <=? 0 then None else fst <$> list_find (λ s, user_data s = con_id) (sockets n).

(** The offset behind the third comma. *)
Definition third_comma (data : list Z) : option nat :=
  p ← strchr data 44;
  q ← strchr (drop (S p) data) 44;
  r ← strchr (drop (S q) (drop (S p) data)) 44;
  Some (S p + S q + S r)%nat.

Section driver.
(** Whether a packet can be allocated, whether a response object can, and what
    [rt_device_write] returns. *)
Context (pkt_mem : net → bool) (resp_mem : at_client net → bool) (dev_write : at_client net → list Z → Z).

(** Received data, in the line; the data keeps its place in the line buffer. The receive
    callback is set by the first [at_socket] call, before any entry has a ConID. *)
Definition urc_recv_func (n : net) (data : list Z) (size : Z) : net :=
  match sscanf (cstr data) (lit "+EVENT:SocketDown," ++ [FInt; FLit 44; FInt]) with
  | [AInt con_id; AInt v] =>
      let bfsz := u32 v in
      match third_comma data with
      | None => n
      | Some off =>
          let off := Z.of_nat off in
          if (con_id <? 0) || (bfsz =? 0) then n else
          let avail := u32 (size - off) in
          let avail :=
            if (2 <=? avail) && (nthZ data (size - 2) =? 13) && (nthZ data (size - 1) =? 10)
            then avail - 2 else avail in
          let bfsz := if avail <? bfsz then avail else bfsz in
          match aiwb2_find_socket n con_id with
          | None => n
          | Some i => at_recv_notice_cb (pkt_mem n) n i (LineBuf off) bfsz
          end
      end
  | _ => n
  end.

Definition urc_close_func (n : net) (data : list Z) (size : Z) : net :=
  match sscanf (cstr data) (lit "+EVENT:SocketDisconnect," ++ [FInt]) with
  | [AInt con_id] =>
      match aiwb2_find_socket n con_id with None => n | Some i => at_closed_notice_cb n i end
  | _ => n
  end.

(** These only log. *)
Definition urc_reconn_func (n : net) (data : list Z) (size : Z) : net := n.
Definition urc_autodel_func (n : net) (data : list Z) (size : Z) : net := n.

Definition aiwb2_socket_urc_table : list (at_urc net) :=
  [mk_urc (str "+EVENT:SocketDown,") [13; 10] (Some urc_recv_func);
   mk_urc (str "+EVENT:SocketDisconnect,") [13; 10] (Some urc_close_func);
   mk_urc (str "+EVENT:SocketReconnect,") [13; 10] (Some urc_reconn_func);
   mk_urc (str "+EVENT:SocketAutoDel,") [13; 10] (Some urc_autodel_func)].

(** The handlers of the Wi-Fi events change the network interface, not the sockets. *)
Definition urc_table_wifi : list (at_urc net) :=
  let ignore (n : net) (_ : list Z) (_ : Z) := n in
  [mk_urc (str "+EVENT:WIFI_CONNECT") [13; 10] (Some ignore);
   mk_urc (str "+EVENT:WIFI_DISCONNECT") [13; 10] (Some ignore);
   mk_urc (str "+EVENT:WIFI_GOT_IP") [13; 10] (Some ignore)].

Definition aiwb2_socket_init (mem : bool) (c : at_client net) : Z * at_client net :=
  (RT_EOK, (at_obj_set_urc_table mem c aiwb2_socket_urc_table).2).

(** * Socket operations *)

(** The bytes that arrive during the next wait. *)
Definition next (env : list (list Z)) : list Z * list (list Z) :=
  match env with [] => ([], []) | b :: env => (b, env) end.

(** The wait for OK or ERROR after the data of a packet; [arrivals] as for a command. *)
Definition aiwb2_send_wait (s : sys) (arrivals : list Z) : Z * sys :=
  let '(n, c) := s in
  match at_create_resp (resp_mem c) 64 0 with
  | None => (- RT_ENOMEM, s)
  | Some resp =>
      let c := lock c in
      let c := set_ans c (mk_ans true resp 0 AT_RESP_OK) in
      let '(n, c) := feed (n, c) arrivals in
      let '(result, _, c) := exec_finish c in
      (result, (n, c))
  end.

Definition aiwb2_socket_close (s : sys) (i : nat) (env : list (list Z)) : Z * list (list Z) * sys :=
  let con_id := user_data (get_sock s.1 i) in
  match at_create_resp (resp_mem s.2) 64 0 with
  | None => (- RT_ENOMEM, env, s)
  | Some resp =>
      let '(arrivals, env) := next env in
      let '(result, _, s) := exec_cmd s resp (str "AT+SOCKETDEL=" ++ dec_int con_id) arrivals in
      (result, env, s)
  end.

(** The ConID of the first line that reports one, -1 without; [k] lines from line [i]. *)
Fixpoint resp_con_id (resp : at_response) (i : Z) (k : nat) : Z :=
  match k with
  | O => -1
  | S k =>
      match at_resp_get_line resp i with
      | Some line =>
          match sscanf line (lit "connect success ConID=" ++ [FInt]) with
          | AInt v :: _ => v
          | _ => resp_con_id resp (i + 1) k
          end
      | None => resp_con_id resp (i + 1) k
      end
  end.

Definition connect_text (mode ip : list Z) (port con_id : Z) : list Z :=
  str "AT+SOCKET=" ++ mode ++ [44; 34] ++ ip ++ [34; 44] ++ dec_int port ++ str ",0," ++ dec_int con_id.

(** From the label [__retry] on; [retries] counts the retries that are left. *)
Fixpoint connect_try (retries : nat) (s : sys) (i : nat) (resp : at_response) (ip : list Z) (port con_id : Z)
    (type : at_socket_type) (is_client : bool) (env : list (list Z)) : Z * list (list Z) * sys :=
  let exec mode :=
    let '(arrivals, env) := next env in
    let '(r, resp, s) := exec_cmd s resp (connect_text mode ip port con_id) arrivals in
    Some (if r <? 0 then - RT_ERROR else RT_EOK, resp, env, s) in
  match
    if is_client then
      match type with
      | AT_SOCKET_TCP => exec (str "4")
      | AT_SOCKET_UDP => exec (str "2")
      | AT_SOCKET_INVALID => None
      end
    else Some (RT_EOK, resp, env, s)
  with
  | None => (- RT_ERROR, env, s)
  | Some (result, resp, env, s) =>
      let '(result, s) :=
        if result =? RT_EOK then
          if resp_con_id resp 1 (Z.to_nat (rs_line_counts resp)) =? con_id
          then (RT_EOK, on_net s (λ n, upd_sock n i (set_user_data con_id)))
          else (- RT_ERROR, s)
        else (result, s) in
      if negb (result =? RT_EOK) then
        match retries with
        | O => (result, env, s)
        | S retries => connect_try retries s i resp ip port con_id type is_client env
        end
      else (result, env, s)
  end.

Definition aiwb2_socket_connect (s : sys) (i : nat) (ip : list Z) (port : Z) (type : at_socket_type)
    (is_client : bool) (env : list (list Z)) : Z * list (list Z) * sys :=
  let con_id := user_data (get_sock s.1 i) + 1 in
  match at_create_resp (resp_mem s.2) 128 0 with
  | None => (- RT_ENOMEM, env, s)
  | Some resp => connect_try 1 s i resp ip port con_id type is_client env
  end.

Definition cur_pkt_size (left : Z) : Z :=
  if left <? AIWB2_MODULE_SEND_MAX_SIZE then left else AIWB2_MODULE_SEND_MAX_SIZE.

Definition send_cmd_text (con_id size : Z) : list Z :=
  str "AT+SOCKETSEND=" ++ dec_int con_id ++ [44] ++ dec_int size.

(** The loop over the packets: [data] is what is left, [sent] what was sent. Three waits
    per packet: for the prompt, while the data is written, for the answer. [fuel] counts
    the packets. *)
Fixpoint send_loop (fuel : nat) (s : sys) (con_id : Z) (data : list Z) (sent : Z) (env : list (list Z))
    : Z * Z * list (list Z) * sys :=
  match fuel, data with
  | S fuel, _ :: _ =>
      let cur := cur_pkt_size (blen data) in
      match at_create_resp (resp_mem s.2) 64 1 with
      | None => (- RT_ENOMEM, sent, env, s)
      | Some resp =>
          let '(prompt, env) := next env in
          let '(r, _, s) := exec_cmd s resp (send_cmd_text con_id cur) prompt in
          if r <? 0 then (- RT_ERROR, sent, env, s) else
          let pkt := take (Z.to_nat cur) data in
          let '(len, c) := at_client_obj_send s.2 pkt (dev_write s.2 pkt) in
          let '(early, env) := next env in
          let s : sys := feed (s.1, c) early in
          if len =? 0 then (- RT_ERROR, sent, env, s) else
          let '(late, env) := next env in
          let '(r, s) := aiwb2_send_wait s late in
          if negb (r =? RT_EOK) then (r, sent, env, s)
          else send_loop fuel s con_id (drop (Z.to_nat cur) data) (sent + cur) env
      end
  | _, _ => (s32 sent, sent, env, s)
  end.

Definition aiwb2_socket_send (s : sys) (i : nat) (data : list Z) (env : list (list Z))
    : Z * list (list Z) * sys :=
  let con_id := user_data (get_sock s.1 i) in
  let s : sys := (s.1, at_obj_set_end_sign (lock s.2) 62) in
  let '(result, sent, env, s) := send_loop (length data) s con_id data 0 env in
  let s : sys := (s.1, unlock (at_obj_set_end_sign s.2 0)) in
  (if 0 <? result then s32 sent else result, env, s).

#[export] Instance aiwb2_socket_ops : SocketOps := {|
  op_connect := aiwb2_socket_connect;
  op_close := aiwb2_socket_close;
  op_send := aiwb2_socket_send
|}.

(** * Name resolution *)

(** The retry loop: the text scanned last and whether it was longer than its 16 bytes;
    [None] when a command failed. *)
Fixpoint resolve_loop (retries : nat) (s : sys) (resp : at_response) (name recv_ip : list Z) (over : bool)
    (env : list (list Z)) : option (list Z) * bool * list (list Z) * sys :=
  match retries with
  | O => (Some recv_ip, over, env, s)
  | S retries =>
      let '(arrivals, env) := next env in
      let '(r, resp, s) := exec_cmd s resp (str "AT+WDOMAIN=" ++ name) arrivals in
      if r <? 0 then (None, over, env, s) else
      match (line ← at_resp_get_line_by_kw resp (str "+WDOMAIN:");
             head (sscanf line (lit "+WDOMAIN:" ++ [FNot [13; 10]]))) with
      | Some (AStr ip) =>
          let over := over || (16 <=? blen ip) in
          if blen ip <? 8 then resolve_loop retries s resp name ip over env
          else (Some ip, over, env, s)
      | _ => resolve_loop retries s resp name recv_ip over env
      end
  end.

(** The result, the text stored at [ip] on success, and whether [recv_ip] was overrun. *)
Definition aiwb2_domain_resolve (s : sys) (name : list Z) (env : list (list Z))
    : Z * option (list Z) * bool * sys :=
  match at_create_resp (resp_mem s.2) 128 0 with
  | None => (- RT_ENOMEM, None, false, s)
  | Some resp =>
      match resolve_loop 5 s resp name [] false env with
      | (None, over, _, s) => (- RT_ERROR, None, over, s)
      | (Some recv_ip, over, _, s) =>
          if blen recv_ip <? 8 then (- RT_ERROR, None, over, s)
          else (RT_EOK, Some (take 15 recv_ip), over, s)
      end
  end.

End driver.

(** * The socket table *)

(** What callbacks, reads and events leave of an entry: its identity. A state changes only
    to closed. *)
Definition same_entry (s s' : at_socket) : Prop :=
  sk_magic s' = sk_magic s ∧ sk_socket s' = sk_socket s ∧ user_data s' = user_data s
  ∧ (sk_state s' = sk_state s ∨ sk_state s' = AT_SOCKET_CLOSED).

#[export] Instance same_entry_preorder : PreOrder same_entry.
Proof.
  split; [by intros s; unfold same_entry; eauto |].
  intros s1 s2 s3 (A1 & A2 & A3 & A4) (B1 & B2 & B3 & B4). unfold same_entry.
  rewrite B1, B2, B3. split_and!; [done | done | done |]. destruct B4 as [->|]; auto.
Qed.

Definition keeps (n n' : net) : Prop :=
  socket_list n' = socket_list n ∧ Forall2 same_entry (sockets n) (sockets n').

#[export] Instance keeps_preorder : PreOrder keeps.
Proof.
  split; [by intros n; split |]. intros n1 n2 n3 [A1 A2] [B1 B2]. split; [congruence | by etrans].
Qed.

Lemma keeps_upd n i f : (∀ s, same_entry s (f s)) → keeps n (upd_sock n i f).
Proof.
  intros Hf. split; [done |]. simpl. apply Forall2_same_length_lookup. split; [by rewrite length_alter |].
  intros j x y Hx Hy. destruct (decide (i = j)) as [<-|Hne].
  - rewrite list_lookup_alter_eq, Hx in Hy. injection Hy as <-. apply Hf.
  - rewrite list_lookup_alter_ne in Hy by done. by simplify_eq.
Qed.

Lemma keeps_mem n h u : keeps n (mk_net (sockets n) (socket_list n) h u).
Proof. by split. Qed.

Ltac keeps_solve :=
  repeat first [ reflexivity
               | etrans; [|apply keeps_upd; intros []; unfold same_entry; simpl; by auto]
               | apply keeps_upd; intros []; unfold same_entry; simpl; by auto ].

Lemma keeps_free n p : keeps n (rt_free n p).
Proof. unfold rt_free. repeat case_match; apply keeps_mem. Qed.

Lemma keeps_events n i e b : keeps n (at_do_event_changes n i e b).
Proof. unfold at_do_event_changes. destruct e; keeps_solve. Qed.

Lemma keeps_clean n i e : keeps n (at_do_event_clean n i e).
Proof. unfold at_do_event_clean. destruct e; keeps_solve. Qed.

Lemma keeps_recv_cb mem n i p sz : keeps n (at_recv_notice_cb mem n i p sz).
Proof.
  unfold at_recv_notice_cb, at_recvpkt_put. case_match; [apply keeps_free |].
  destruct mem; change (- RT_ENOMEM =? RT_EOK) with false; change (RT_EOK =? RT_EOK) with true; cbn [negb];
    [|apply keeps_free]. etrans; [|apply keeps_events]. keeps_solve.
Qed.

Lemma keeps_closed_cb n i : keeps n (at_closed_notice_cb n i).
Proof.
  unfold at_closed_notice_cb. case_match; [done |]. etrans; [apply keeps_events |].
  etrans; [apply keeps_events |]. keeps_solve.
Qed.

Lemma keeps_node_delete n i : keeps n (at_recvpkt_node_delete n i).
Proof.
  unfold at_recvpkt_node_delete. case_match; [done |]. etrans; [|apply keeps_free]. keeps_solve.
Qed.

Lemma keeps_index n i v : keeps n (upd_sock n i (set_index v)).
Proof.
  apply keeps_upd. intros s. unfold set_index. case_match; [done |]. unfold same_entry. simpl. auto.
Qed.

Lemma keeps_recvpkt_loop lb i len fuel : ∀ n mem pos, keeps n (recvpkt_loop fuel lb n i mem pos len).2.
Proof.
  induction fuel as [|fuel IH]; intros n mem pos; simpl; [done |]. case_match; [done |]. case_match.
  - simpl. case_match; [etrans; [|apply keeps_node_delete] |]; apply keeps_index.
  - etrans; [apply keeps_index |]. etrans; [apply keeps_node_delete |]. apply IH.
Qed.

Lemma keeps_all_delete n i : keeps n (at_recvpkt_all_delete n i).
Proof.
  unfold at_recvpkt_all_delete. generalize (recvpkt_list (get_sock n i)) as l. intros l. revert n.
  induction l as [|k l IH]; intros n; [done |]. cbn [foldl]. etrans; [apply keeps_free |]. apply IH.
Qed.

Lemma keeps_lookup n n' i s : keeps n n' → sockets n !! i = Some s →
  ∃ s', sockets n' !! i = Some s' ∧ same_entry s s'.
Proof. intros [_ H] E. by eapply Forall2_lookup_l in H. Qed.

Lemma keeps_get n n' i : keeps n n' → same_entry (get_sock n i) (get_sock n' i).
Proof.
  intros Hk. unfold get_sock. destruct (sockets n !! i) as [s|] eqn:E.
  - destruct (keeps_lookup n n' i s Hk E) as (s' & -> & H). done.
  - apply lookup_ge_None in E. rewrite (Forall2_length _ _ _ (proj2 Hk)) in E.
    rewrite lookup_ge_None_2 by done. done.
Qed.

(** The ConID of an entry: the index while the entry is not connected, one more for a
    connection. *)
Definition slot_ok (i : nat) (s : at_socket) : Prop :=
  if sk_magic s then
    match sk_state s with
    | AT_SOCKET_CONNECT => user_data s = Z.of_nat i + 1
    | AT_SOCKET_CLOSED => user_data s = Z.of_nat i ∨ user_data s = Z.of_nat i + 1
    | _ => user_data s = Z.of_nat i
    end
  else user_data s = 0.

(** The list of sockets is exactly the entries in use, by strictly increasing descriptor. *)
Definition descr (n : net) (i : nat) : Z := sk_socket (get_sock n i).

Record table_ok (n : net) : Prop := {
  tb_slots : ∀ i s, sockets n !! i = Some s → slot_ok i s;
  tb_list : ∀ i, i ∈ socket_list n ↔ sk_magic (get_sock n i) = true;
  tb_sorted : StronglySorted Z.lt (descr n <$> socket_list n);
  tb_nonneg : Forall (λ i, 0 ≤ descr n i) (socket_list n)
}.

Lemma slot_ok_same i s s' : same_entry s s' → slot_ok i s → slot_ok i s'.
Proof.
  intros (E1 & _ & E3 & E4). unfold slot_ok. rewrite E1, E3. destruct (sk_magic s); [|done].
  destruct E4 as [-> | ->]; [done |]. destruct (sk_state s); auto.
Qed.

Lemma table_ok_keeps n n' : keeps n n' → table_ok n → table_ok n'.
Proof.
  intros Hk [T1 T2 T3 T4]. pose proof Hk as [El Hf].
  assert (∀ i, descr n' i = descr n i) as Ed by (intros i; apply (keeps_get n n' i Hk)).
  constructor.
  - intros i s' E'. destruct (Forall2_lookup_r _ _ _ _ _ Hf E') as (s & E & He).
    eapply slot_ok_same; [exact He | by apply T1].
  - intros i. rewrite El, T2. by destruct (keeps_get n n' i Hk) as (-> & _).
  - rewrite El. erewrite list_fmap_ext; [exact T3 |]. intros. apply Ed.
  - rewrite El. eapply Forall_impl; [exact T4 |]. intros i. by rewrite Ed.
Qed.

(** ** Descriptors *)

Lemma sorted_app_inv (l1 l2 : list Z) :
  StronglySorted Z.lt (l1 ++ l2) → StronglySorted Z.lt l1 ∧ StronglySorted Z.lt l2
    ∧ ∀ x y, x ∈ l1 → y ∈ l2 → x < y.
Proof.
  induction l1 as [|a l1 IH]; simpl; intros H.
  - split_and!; [constructor | done |]. intros x y Hx. by apply not_elem_of_nil in Hx.
  - apply StronglySorted_inv in H as [H Ha]. destruct (IH H) as (H1 & H2 & H3).
    apply Forall_app in Ha as [Ha1 Ha2]. split_and!; [by constructor | done |].
    intros x y [->|Hx]%elem_of_cons Hy; [|by apply H3]. rewrite Forall_forall in Ha2. by apply Ha2.
Qed.

Lemma sorted_app_mid (l1 l2 : list Z) d :
  StronglySorted Z.lt (l1 ++ l2) → Forall (λ x, x < d) l1 → Forall (λ x, d < x) l2 →
  StronglySorted Z.lt (l1 ++ d :: l2).
Proof.
  intros H H1 H2. induction l1 as [|a l1 IH]; simpl in *; [by constructor |].
  apply StronglySorted_inv in H as [H Ha]. apply Forall_cons in H1 as [Had H1].
  constructor; [by apply IH |]. apply Forall_app in Ha as [Ha1 Ha2]. apply Forall_app. split; [done |].
  by constructor.
Qed.

Lemma alloc_empty_spec n i l : ∀ idx,
  StronglySorted Z.lt (descr n <$> l) → Forall (λ j, idx ≤ descr n j) l →
  let '(d, l') := alloc_empty_socket n l i idx in
  idx ≤ d ∧ ∃ l1 l2, l = l1 ++ l2 ∧ l' = l1 ++ i :: l2
    ∧ Forall (λ j, descr n j < d) l1 ∧ Forall (λ j, d < descr n j) l2.
Proof.
  induction l as [|j l IH]; intros idx Hs Hf; simpl; [split; [lia |]; by exists [], [] |].
  apply Forall_cons in Hf as [Hj Hf]. rewrite fmap_cons in Hs. apply StronglySorted_inv in Hs as [Hs Hlt].
  rewrite Forall_fmap in Hlt. fold (descr n j). destruct (Z.eqb_spec (descr n j) idx) as [E|E].
  - specialize (IH (idx + 1) Hs). destruct (alloc_empty_socket n l i (idx + 1)) as [d l'].
    destruct IH as (Hd & l1 & l2 & -> & -> & H1 & H2).
    { eapply Forall_impl; [exact Hlt |]. simpl. intros; lia. }
    split; [lia |]. exists (j :: l1), l2. split_and!; [done | done | constructor; [lia | done] | done].
  - split; [lia |]. exists [], (j :: l). split_and!; [done | done | done |]. constructor; [lia |].
    eapply Forall_impl; [exact Hlt |]. simpl. intros; lia.
Qed.

(** An entry in use is found by its descriptor. *)
Lemma table_get n i : table_ok n → sk_magic (get_sock n i) = true → at_get_socket n (descr n i) = Some i.
Proof.
  intros [_ T2 T3 _] Hm. unfold at_get_socket. apply T2 in Hm as Hin.
  destruct (list_find _ (socket_list n)) as [[k j]|] eqn:E; simpl.
  - apply list_find_Some in E as (Ek & [Ej _] & _). f_equal. fold (descr n j) in Ej.
    apply list_elem_of_lookup_1 in Hin as [a Ha].
    destruct (decide (a = k)) as [->|Hne]; [congruence |]. exfalso.
    assert (∀ x y p q, (x < y)%nat → socket_list n !! x = Some p → socket_list n !! y = Some q → descr n p < descr n q) as Hord.
    { intros x y p q Hxy Hp Hq. rewrite <- (take_drop_middle _ _ _ Hq), fmap_app in T3.
      apply sorted_app_inv in T3 as (_ & _ & H). apply H.
      - apply list_elem_of_fmap_2. apply list_elem_of_lookup. exists x. by rewrite lookup_take_lt.
      - rewrite fmap_cons. by left. }
    destruct (Nat.lt_total a k) as [H|[H|H]]; [| done |].
    + pose proof (Hord a k i j H Ha Ek). lia.
    + pose proof (Hord k a j i H Ek Ha). lia.
  - exfalso. apply list_find_None in E. rewrite Forall_forall in E. exact (E i Hin (conj eq_refl Hm)).
Qed.

Lemma get_socket_in n d i : at_get_socket n d = Some i → sk_magic (get_sock n i) = true ∧ descr n i = d.
Proof.
  unfold at_get_socket. intros H. apply fmap_Some in H as ([k j] & E & ->).
  apply list_find_Some in E as (_ & [H1 H2] & _). done.
Qed.

Lemma magic_lookup n i : sk_magic (get_sock n i) = true → ∃ s, sockets n !! i = Some s ∧ sk_magic s = true.
Proof. unfold get_sock. destruct (sockets n !! i) as [s|]; [by exists s | done]. Qed.

(** ** Opening and freeing *)

Lemma free_entry_spec l : (free_entry l < length l)%nat → ∃ s, l !! free_entry l = Some s ∧ sk_magic s = false.
Proof.
  induction l as [|s l IH]; simpl; [lia |]. destruct (sk_magic s) eqn:E; simpl; [|by exists s].
  intros H. apply IH. lia.
Qed.

Lemma get_insert_ne n i j s l h u : i ≠ j → get_sock (mk_net (<[i := s]> (sockets n)) l h u) j = get_sock n j.
Proof. intros. unfold get_sock. simpl. by rewrite list_lookup_insert_ne. Qed.

Lemma get_insert_eq n i s l h u :
  (i < length (sockets n))%nat → get_sock (mk_net (<[i := s]> (sockets n)) l h u) i = s.
Proof. intros. unfold get_sock. simpl. by rewrite list_lookup_insert_eq. Qed.

Lemma alloc_table_ok n sem_ok mutex_ok : table_ok n → table_ok (alloc_socket_by_device n sem_ok mutex_ok).2.
Proof.
  intros Ht. unfold alloc_socket_by_device. set (k := free_entry (sockets n)).
  destruct (Nat.leb_spec (length (sockets n)) k) as [|Hk]; [done |].
  destruct (free_entry_spec (sockets n) Hk) as (s & Es & Hs). fold k in Es.
  pose proof (alloc_empty_spec n k (socket_list n) 0 (tb_sorted _ Ht) (tb_nonneg _ Ht)) as Ha.
  destruct (alloc_empty_socket n (socket_list n) k 0) as [d l'].
  destruct Ha as (Hd & l1 & l2 & El & -> & H1 & H2). set (s' := mk_sock true d _ _ _ _ _ _ _ _ _ _).
  set (n' := mk_net _ _ _ _).
  assert ((if negb sem_ok then (None, n') else if negb mutex_ok then (None, n') else (Some k, n')).2 = n') as ->
    by (by destruct sem_ok, mutex_ok).
  assert (k ∉ socket_list n) as Hnin.
  { intros Hin. apply Ht in Hin. rewrite (get_sock_eq n k s Es) in Hin. congruence. }
  assert (∀ j, j ≠ k → get_sock n' j = get_sock n j) as Hne by (intros j Hj; by apply get_insert_ne).
  assert (descr n' k = d) as Ek by (unfold descr, n'; by rewrite get_insert_eq).
  assert (∀ j, j ∈ socket_list n → descr n' j = descr n j) as Hdn.
  { intros j Hj. unfold descr. rewrite Hne; [done |]. by intros ->. }
  constructor.
  - intros j t Hj. simpl in Hj. destruct (decide (j = k)) as [->|Hjk].
    + rewrite list_lookup_insert_eq in Hj by done. by injection Hj as <-.
    + rewrite list_lookup_insert_ne in Hj by done. by apply Ht.
  - intros j. simpl. destruct (decide (j = k)) as [->|Hjk].
    + unfold get_sock. simpl. rewrite list_lookup_insert_eq by done. simpl. set_solver.
    + rewrite Hne by done. rewrite <- (tb_list _ Ht), El. set_solver.
  - simpl. rewrite fmap_app, fmap_cons, Ek. pose proof (tb_sorted _ Ht) as Hsort. rewrite El, fmap_app in Hsort.
    rewrite !(list_fmap_ext (descr n') (descr n));
      [| intros a j Hj; apply Hdn; rewrite El; apply elem_of_app; right; by eapply list_elem_of_lookup_2
       | intros a j Hj; apply Hdn; rewrite El; apply elem_of_app; left; by eapply list_elem_of_lookup_2 ].
    apply sorted_app_mid; [done | by apply Forall_fmap | by apply Forall_fmap].
  - simpl. pose proof (tb_nonneg _ Ht) as Hn. rewrite Forall_forall in Hn |- *. intros j Hj.
    destruct (decide (j = k)) as [->|Hjk]; [by rewrite Ek |].
    assert (j ∈ socket_list n) as Hin by (rewrite El; set_solver). rewrite Hdn by done. by apply Hn.
Qed.

Lemma free_socket_table_ok n i : table_ok n → sk_magic (get_sock n i) = true → table_ok (free_socket n i).
Proof.
  intros Ht0 Hm0. unfold free_socket. pose proof (keeps_all_delete n i) as Hk.
  set (n1 := at_recvpkt_all_delete n i) in *. clearbody n1.
  assert (table_ok n1) as Ht by (by eapply table_ok_keeps).
  assert (sk_magic (get_sock n1 i) = true) as Hm by (by destruct (keeps_get n n1 i Hk) as (-> & _)).
  fold (descr n1 i). rewrite (table_get n1 i Ht Hm). destruct (magic_lookup n1 i Hm) as (s & Es & _).
  rewrite (upd_sock_eq _ i s) by done. cbn [sockets socket_list nt_heap nt_ub].
  assert (i < length (sockets n1))%nat as Hlt by by eapply lookup_lt_Some.
  set (n' := mk_net _ _ _ _).
  assert (∀ j, j ≠ i → get_sock n' j = get_sock n1 j) as Hne by (intros j Hj; by apply get_insert_ne).
  assert (get_sock n' i = zero_sock) as Ei by (by apply get_insert_eq).
  assert (∀ a j, filter (λ k, k ≠ i) (socket_list n1) !! a = Some j → descr n' j = descr n1 j) as Hd.
  { intros a j Hj. apply list_elem_of_lookup_2, list_elem_of_filter in Hj as [Hj _]. unfold descr. by rewrite Hne. }
  constructor.
  - intros j t Hj. simpl in Hj. destruct (decide (j = i)) as [->|Hji].
    + rewrite list_lookup_insert_eq in Hj by done. by injection Hj as <-.
    + rewrite list_lookup_insert_ne in Hj by done. by apply Ht.
  - intros j. simpl. rewrite list_elem_of_filter. destruct (decide (j = i)) as [->|Hji].
    + rewrite Ei. simpl. naive_solver.
    + rewrite Hne by done. rewrite <- (tb_list _ Ht). naive_solver.
  - simpl. rewrite (list_fmap_ext (descr n') (descr n1)) by exact Hd. clear -Ht. pose proof (tb_sorted _ Ht) as H.
    induction (socket_list n1) as [|j l IH]; simpl; [constructor |]. rewrite filter_cons.
    rewrite fmap_cons in H. apply StronglySorted_inv in H as [H Hj]. case_decide; [|by apply IH].
    rewrite fmap_cons. constructor; [by apply IH |]. rewrite Forall_fmap, Forall_forall in Hj |- *.
    intros x Hx. apply list_elem_of_filter in Hx as [_ Hx]. by apply Hj.
  - simpl. pose proof (tb_nonneg _ Ht) as Hn. rewrite Forall_forall in Hn |- *. intros j Hj.
    apply list_elem_of_lookup_1 in Hj as Hj'. destruct Hj' as [a Ha]. rewrite (Hd a j Ha).
    apply Hn. by apply list_elem_of_filter in Hj as [_ ?].
Qed.

(** * Operations and the table *)

Section run.
Context (pkt_mem : net → bool) (resp_mem : at_client net → bool) (dev_write : at_client net → list Z → Z).
#[local] Existing Instance aiwb2_socket_ops.
Notation ops := (aiwb2_socket_ops resp_mem dev_write).

(** The client as the driver sets it up. *)
Definition driver_client (c : at_client net) : Prop :=
  urc_table c = [urc_table_wifi; aiwb2_socket_urc_table pkt_mem].

(** A step that keeps the identity of every entry. *)
Definition sys_keeps (s s' : sys) : Prop := keeps s.1 s'.1 ∧ urc_table s'.2 = urc_table s.2.

#[local] Instance sys_keeps_preorder : PreOrder sys_keeps.
Proof.
  split; [by intros s; split |]. intros s1 s2 s3 [A1 A2] [B1 B2]. split; [by etrans | congruence].
Qed.

Lemma driver_move c : driver_client c → urcs_move keeps c.
Proof.
  unfold driver_client, urcs_move. intros ->. cbn [concat app].
  unfold urc_table_wifi, aiwb2_socket_urc_table. cbn [app]. rewrite !Forall_cons, Forall_nil.
  split_and!; try done; simpl; intros f [= <-] n data size; try done.
  - unfold urc_recv_func. repeat case_match; try done; apply keeps_recv_cb.
  - unfold urc_close_func. repeat case_match; try done; apply keeps_closed_cb.
Qed.

Lemma driver_table c c' : urc_table c' = urc_table c → driver_client c → driver_client c'.
Proof. unfold driver_client. by intros ->. Qed.

Lemma feed_keeps (s : sys) bytes : driver_client s.2 → sys_keeps s (feed s bytes).
Proof.
  destruct s as [n c]. intros Hd. destruct (feed_frame keeps bytes n c (driver_move c Hd)) as [H1 H2].
  split; [done |]. apply H2.
Qed.

Lemma exec_keeps (s : sys) resp text bytes :
  driver_client s.2 → sys_keeps s (exec_cmd s resp text bytes).2.
Proof.
  destruct s as [n c]. intros Hd. pose proof (exec_frame keeps n c resp text bytes (driver_move c Hd)) as H.
  destruct (exec_cmd (n, c) resp text bytes) as [[r resp'] [n' c']]. destruct H as (H1 & H2 & _).
  split; [done |]. apply H2.
Qed.

Lemma exec_finish_table c : urc_table (exec_finish c).2 = urc_table (W := net) c.
Proof. unfold exec_finish. repeat case_match; simplify_eq; done. Qed.

Lemma send_wait_keeps (s : sys) bytes : driver_client s.2 → sys_keeps s (aiwb2_send_wait resp_mem s bytes).2.
Proof.
  destruct s as [n c]. intros Hd. unfold aiwb2_send_wait. destruct (at_create_resp _ 64 0) as [resp|]; [|done].
  set (c0 := set_ans (lock c) _). pose proof (feed_keeps (n, c0) bytes Hd) as [H1 H2].
  destruct (feed (n, c0) bytes) as [n' c']. pose proof (exec_finish_table c') as Ht.
  destruct (exec_finish c') as [[r x] c'']. split; [done |]. simpl in *. by rewrite Ht, H2.
Qed.

Lemma close_keeps (s : sys) i env : driver_client s.2 → sys_keeps s (aiwb2_socket_close resp_mem s i env).2.
Proof.
  intros Hd. unfold aiwb2_socket_close. destruct (at_create_resp _ 64 0) as [resp|]; [|done].
  destruct (next env) as [arr env']. set (text := str _ ++ _). pose proof (exec_keeps s resp text arr Hd) as H.
  by destruct (exec_cmd s resp text arr) as [[r x] s'].
Qed.

Lemma send_loop_keeps con_id fuel : ∀ (s : sys) data sent env,
  driver_client s.2 → sys_keeps s (send_loop resp_mem dev_write fuel s con_id data sent env).2.
Proof.
  induction fuel as [|fuel IH]; intros s data sent env Hd; simpl; [done |].
  destruct data as [|b data]; [done |]. destruct (at_create_resp _ 64 1) as [resp|]; [|done].
  destruct (next env) as [prompt env1]. set (text := send_cmd_text _ _). set (data' := b :: data).
  pose proof (exec_keeps s resp text prompt Hd) as H1.
  destruct (exec_cmd s resp text prompt) as [[r x] s1]. simpl in H1.
  case_match; [done |]. set (pkt := take _ data'). destruct (next env1) as [early env2].
  set (c1 := set_io _ _ _ _).
  assert (sys_keeps s (s1.1, c1)) as H1' by (destruct H1; by split).
  assert (driver_client c1) as Hd1 by (eapply driver_table; [apply H1' | done]).
  pose proof (feed_keeps (s1.1, c1) early Hd1) as H2.
  case_match; [by etrans |]. destruct (next env2) as [late env3].
  set (s2 := feed (s1.1, c1) early) in *.
  assert (driver_client s2.2) as Hd2 by (eapply driver_table; [apply H2 | done]).
  pose proof (send_wait_keeps s2 late Hd2) as H3. destruct (aiwb2_send_wait resp_mem s2 late) as [r' s3].
  simpl in H3. case_match; [by do 2 (etrans; [eassumption |]) |].
  do 3 (etrans; [eassumption |]). apply IH. eapply driver_table; [apply H3 | done].
Qed.

Lemma send_keeps (s : sys) i data env :
  driver_client s.2 → sys_keeps s (aiwb2_socket_send resp_mem dev_write s i data env).2.
Proof.
  intros Hd. unfold aiwb2_socket_send. set (s0 := (s.1, at_obj_set_end_sign (lock s.2) 62)).
  pose proof (send_loop_keeps (user_data (get_sock s.1 i)) (length data) s0 data 0 env Hd) as H.
  destruct (send_loop _ _ _ _ _ _ _ _) as [[[r sent] env'] s']. destruct H as [H1 H2]. by split.
Qed.

(** Connecting: on success the entry has its ConID, otherwise it is unchanged. *)
Lemma connect_try_spec i ip port con_id type is_client retries : ∀ (s : sys) resp env,
  driver_client s.2 →
  let '(r, _, s') := connect_try retries s i resp ip port con_id type is_client env in
  r ≤ 0 ∧ urc_table s'.2 = urc_table s.2
  ∧ ∃ n1, keeps s.1 n1 ∧ s'.1 = if r =? 0 then upd_sock n1 i (set_user_data con_id) else n1.
Proof.
  induction retries as [|retries IH]; intros s resp env Hd; cbn [connect_try].
  all: set (exec := λ mode, _).
  all: match goal with |- context [match ?x with Some _ => _ | None => _ end] => set (attempt := x) end.
  all: assert (match attempt with
               | None => True
               | Some (r, _, _, s1) => r ≤ 0 ∧ sys_keeps s s1
               end) as Ha
    by (subst attempt exec; destruct is_client; [|done]; destruct type; [done | |]; cbv beta;
        destruct (next env) as [arr env1]; set (text := connect_text _ _ _ _);
        pose proof (exec_keeps s resp text arr Hd) as H;
        destruct (exec_cmd s resp text arr) as [[r x] s1]; (split; [by case_match | done])).
  all: clearbody attempt; destruct attempt as [[[[r resp1] env1] s1]|]; [|split_and!; try done; by exists s.1].
  all: destruct Ha as [Hr [Hk Ht]].
  all: destruct (Z.eqb_spec r RT_EOK) as [->|Hne].
  all: try (destruct (Z.eqb_spec (resp_con_id resp1 1 (Z.to_nat (rs_line_counts resp1))) con_id);
            [split_and!; try done; by exists s1.1 |]).
  all: try change (- RT_ERROR =? RT_EOK) with false; try rewrite (proj2 (Z.eqb_neq r RT_EOK)) by done; cbn [negb].
  all: try (split_and!; [done | done |]; exists s1.1; split; [done |]; by rewrite ?(proj2 (Z.eqb_neq r 0)) by done).
  all: assert (driver_client s1.2) as Hd1 by (by eapply driver_table).
  all: specialize (IH s1 resp1 env1 Hd1); destruct (connect_try _ _ _ _ _ _ _ _ _ _) as [[r' env'] s'];
       destruct IH as (H1 & H2 & n1 & H3 & H4); split_and!; [done | congruence |]; exists n1; split; [by etrans | done].
Qed.

(** ** The socket calls *)

Definition sys_ok (s : sys) : Prop := table_ok s.1 ∧ driver_client s.2.

Lemma sys_ok_keeps s s' : sys_keeps s s' → sys_ok s → sys_ok s'.
Proof. intros [H1 H2] [T D]. split; [by eapply table_ok_keeps | by eapply driver_table]. Qed.

Lemma sys_ok_net (s : sys) f : keeps s.1 (f s.1) → sys_ok s → sys_ok (on_net s f).
Proof. intros H [T D]. split; [by eapply table_ok_keeps | done]. Qed.

(** Changing one entry without its descriptor. *)
Lemma table_ok_upd n i f :
  table_ok n →
  (∀ s, sockets n !! i = Some s → sk_magic (f s) = sk_magic s ∧ sk_socket (f s) = sk_socket s ∧ slot_ok i (f s)) →
  table_ok (upd_sock n i f).
Proof.
  intros Ht Hf.
  assert (∀ j, sk_magic (get_sock (upd_sock n i f) j) = sk_magic (get_sock n j)
             ∧ descr (upd_sock n i f) j = descr n j) as Hg.
  { intros j. unfold descr, get_sock, upd_sock. simpl. destruct (decide (i = j)) as [<-|Hne].
    - rewrite list_lookup_alter_eq. destruct (sockets n !! i) as [s|] eqn:E; simpl; [|done].
      destruct (Hf s eq_refl) as (? & ? & _). done.
    - by rewrite list_lookup_alter_ne. }
  constructor.
  - intros j s Hj. simpl in Hj. destruct (decide (i = j)) as [<-|Hne].
    + rewrite list_lookup_alter_eq in Hj. apply fmap_Some in Hj as (t & Et & ->). by apply Hf.
    + rewrite list_lookup_alter_ne in Hj by done. by apply Ht.
  - intros j. simpl. rewrite (proj1 (Hg j)). apply Ht.
  - simpl. erewrite list_fmap_ext; [apply Ht |]. intros. apply Hg.
  - simpl. eapply Forall_impl; [apply Ht |]. intros j. by rewrite (proj2 (Hg j)).
Qed.

Lemma upd_upd n i f g : upd_sock (upd_sock n i f) i g = upd_sock n i (λ s, g (f s)).
Proof.
  unfold upd_sock. simpl. f_equal. apply list_eq. intros j. destruct (decide (i = j)) as [<-|Hne].
  - rewrite !list_lookup_alter_eq. by destruct (sockets n !! i).
  - by rewrite !list_lookup_alter_ne.
Qed.

Lemma open_ok n type sem_ok mutex_ok : table_ok n → table_ok (at_socket_open n type sem_ok mutex_ok).2.
Proof.
  intros Ht. unfold at_socket_open. pose proof (alloc_table_ok n sem_ok mutex_ok Ht) as Ha.
  destruct (alloc_socket_by_device n sem_ok mutex_ok) as [[i|] n'] eqn:E; [|done]. simpl in *.
  apply table_ok_upd; [done |]. intros s Es. split_and!; [done | done |].
  unfold alloc_socket_by_device in E. repeat case_match; simplify_eq.
  simpl in Es. match goal with H : (length (sockets n) <=? ?k)%nat = false |- _ => apply Nat.leb_gt in H end.
  rewrite list_lookup_insert_eq in Es by done. by injection Es as <-.
Qed.

Lemma connect_ok (s : sys) d ip port env : sys_ok s → sys_ok (@at_connect ops s d ip port env).2.
Proof.
  intros [Ht Hd]. unfold at_connect. destruct (at_get_socket s.1 d) as [i|] eqn:Eg; [|done].
  case_bool_decide as Hopen; cbn [negb]; [|by apply sys_ok_net; [apply keeps_events |]].
  destruct (get_socket_in _ _ _ Eg) as [Hm _]. destruct (magic_lookup _ _ Hm) as (k & Ek & Hmk).
  rewrite (get_sock_eq s.1 i k Ek) in *.
  pose proof (tb_slots _ Ht i k Ek) as Hslot. unfold slot_ok in Hslot. rewrite Hmk, Hopen in Hslot.
  cbn [op_connect aiwb2_socket_ops]. unfold aiwb2_socket_connect. rewrite (get_sock_eq s.1 i k Ek).
  destruct (at_create_resp (resp_mem s.2) 128 0) as [resp|]; [|by apply sys_ok_net; [apply keeps_events |]].
  pose proof (connect_try_spec i ip port (user_data k + 1) (sk_type k) true 1 s resp env Hd) as H.
  destruct (connect_try _ _ _ _ _ _ _ _ _ _) as [[r env'] s']. destruct H as (Hr & Htab & n1 & Hk & En).
  assert (table_ok n1) as Ht1 by (by eapply table_ok_keeps).
  assert (driver_client s'.2) as Hd' by (by eapply driver_table).
  destruct (Z.ltb_spec r 0).
  - rewrite (proj2 (Z.eqb_neq r 0)) in En by lia. apply sys_ok_net; [apply keeps_events |]. by rewrite <- En in Ht1.
  - rewrite (proj2 (Z.eqb_eq r 0)) in En by lia. split; [|done]. unfold on_net. cbn [fst snd].
    eapply table_ok_keeps; [apply keeps_events |]. rewrite En, upd_upd. apply table_ok_upd; [done |].
    intros t Et. destruct (keeps_lookup _ _ _ _ Hk Ek) as (t' & Et' & (Em & _ & Eu & _)).
    assert (t' = t) as -> by congruence. split_and!; [done | done |]. unfold slot_ok. simpl.
    rewrite Em, Hmk. lia.
Qed.

Lemma send_ok (s : sys) d data env : sys_ok s → sys_ok (@at_send ops s d data env).2.
Proof.
  intros Hs. unfold at_send. case_bool_decide; [done |]. destruct (at_get_socket s.1 d) as [i|]; [|done].
  cbn [op_send aiwb2_socket_ops].
  pose proof (send_keeps s i data env (proj2 Hs)) as Hk.
  destruct (aiwb2_socket_send resp_mem dev_write s i data env) as [[r env'] s'].
  assert (sys_ok s') as Hs' by (by eapply sys_ok_keeps).
  repeat case_match; try done; simpl; by apply sys_ok_net; [apply keeps_events |].
Qed.

Lemma recv_loop_ok i len dontwait env : ∀ (s : sys) mem,
  sys_ok s → sys_ok (recv_loop s i mem len dontwait env).2.
Proof.
  induction env as [|bytes env IH]; intros s mem Hs; cbn [recv_loop].
  all: case_bool_decide; [done |].
  all: set (s0 := on_net s _); assert (sys_ok s0) as Hs0 by (apply sys_ok_net; [keeps_solve | done]).
  all: pose proof (keeps_recvpkt_loop (recv_line_buf (cl_rd s0.2)) i len (length (recvpkt_list (get_sock s0.1 i))) s0.1 mem 0) as Hk.
  all: unfold at_recvpkt_get; destruct (recvpkt_loop _ _ _ _ _ _ _) as [[r mem'] n1]; simpl in Hk.
  all: assert (sys_ok (n1, s0.2)) as Hs1 by (destruct Hs0; split; [by eapply table_ok_keeps | done]).
  all: case_match; [apply sys_ok_net; [case_match; [apply keeps_clean | done] | done] |].
  all: destruct dontwait; [done |].
  - done.
  - assert (sys_ok (feed (n1, s0.2) bytes)) as Hs2 by (eapply sys_ok_keeps; [apply feed_keeps, Hs1 | done]).
    case_match; [|done]. apply IH. apply sys_ok_net; [keeps_solve | done].
Qed.

Lemma recv_ok (s : sys) d mem len dontwait env : sys_ok s → sys_ok (at_recv s d mem len dontwait env).2.
Proof.
  intros Hs. unfold at_recv. case_match; [done |]. destruct (at_get_socket s.1 d) as [i|]; [|done].
  pose proof (recv_loop_ok i len dontwait env s mem Hs) as Hrl.
  destruct (recv_loop s i mem len dontwait env) as [[r mem'] s']. simpl in *.
  case_match; [|done]. by apply sys_ok_net; [apply keeps_events |].
Qed.

Lemma close_ok (s : sys) d env : sys_ok s → sys_ok (@at_closesocket ops s d env).2.
Proof.
  intros Hs. unfold at_closesocket. destruct (at_get_socket s.1 d) as [i|] eqn:Eg; [|done].
  destruct (get_socket_in _ _ _ Eg) as [Hm _].
  set (s1 := on_net s _). assert (keeps s.1 s1.1) as Hk1 by (simpl; keeps_solve).
  assert (sys_ok s1) as Hs1 by (by apply sys_ok_net).
  match goal with |- context [if ?b then (0, env, s1) else op_close s1 i env] => set (closed := b) end.
  set (res := if closed then (0, env, s1) else op_close s1 i env).
  assert (sys_keeps s1 res.2) as Hk.
  { subst res. destruct closed; [done |]. apply close_keeps, Hs1. }
  clearbody res. destruct res as [[r env'] s']. simpl in Hk. cbn [snd].
  destruct (sys_ok_keeps _ _ Hk Hs1) as [T D]. split; [|done]. apply free_socket_table_ok; [done |].
  destruct (keeps_get _ _ i (proj1 Hk)) as (-> & _). by destruct (keeps_get _ _ i Hk1) as (-> & _).
Qed.

(** Runs: socket calls, each with what the module sends meanwhile, and bytes that arrive
    between them. *)
Inductive sock_op : Type :=
  | OpOpen (type : at_socket_type) (sem_ok mutex_ok : bool)
  | OpConnect (d : Z) (ip : list Z) (port : Z) (env : list (list Z))
  | OpSend (d : Z) (data : list Z) (env : list (list Z))
  | OpRecv (d : Z) (mem : list Z) (len : Z) (dontwait : bool) (env : list (list Z))
  | OpClose (d : Z) (env : list (list Z))
  | OpBytes (bytes : list Z).

Definition sock_step (s : sys) (op : sock_op) : sys :=
  match op with
  | OpOpen type sem_ok mutex_ok => on_net s (λ n, (at_socket_open n type sem_ok mutex_ok).2)
  | OpConnect d ip port env => (@at_connect ops s d ip port env).2
  | OpSend d data env => (@at_send ops s d data env).2
  | OpRecv d mem len dontwait env => (at_recv s d mem len dontwait env).2
  | OpClose d env => (@at_closesocket ops s d env).2
  | OpBytes bytes => feed s bytes
  end.

Lemma sock_step_ok s op : sys_ok s → sys_ok (sock_step s op).
Proof.
  intros Hs. destruct op; simpl.
  - destruct Hs as [T D]. split; [by apply open_ok | done].
  - by apply connect_ok.
  - by apply send_ok.
  - by apply recv_ok.
  - by apply close_ok.
  - eapply sys_ok_keeps; [apply feed_keeps, Hs | done].
Qed.

(** The table after registration. *)
Definition boot_net : net := mk_net (replicate AT_DEVICE_AIWB2_SOCKETS_NUM zero_sock) [] ∅ false.

Lemma boot_table_ok : table_ok boot_net.
Proof.
  assert (∀ i, get_sock boot_net i = zero_sock) as Hg.
  { intros i. unfold get_sock, boot_net. simpl. do 5 (destruct i as [|i]; [done |]). done. }
  constructor; simpl.
  - intros i s E. pose proof (get_sock_eq boot_net i s E) as Eg. rewrite Hg in Eg. by subst s.
  - intros i. rewrite Hg. simpl. set_solver.
  - constructor.
  - constructor.
Qed.

Lemma find_socket_connected n i s :
  table_ok n → sockets n !! i = Some s → sk_magic s = true → user_data s = Z.of_nat i + 1 →
  aiwb2_find_socket n (Z.of_nat i + 1) = Some i.
Proof.
  intros Ht E Hm Hu. unfold aiwb2_find_socket. destruct (Z.leb_spec (Z.of_nat i + 1) 0); [lia |].
  apply fmap_Some. exists (i, s). split; [|done]. apply list_find_Some. split_and!; [done | done |].
  intros j y Ey Hj Hy. pose proof (tb_slots _ Ht j y Ey) as Hs. unfold slot_ok in Hs.
  destruct (sk_magic y); [|lia]. destruct (sk_state y); lia.
Qed.

Lemma find_socket_inv n k j :
  table_ok n → aiwb2_find_socket n k = Some j →
  sk_magic (get_sock n j) = true ∧ (k = Z.of_nat j + 1 ∨ (k = Z.of_nat j ∧ sk_state (get_sock n j) ≠ AT_SOCKET_CONNECT)).
Proof.
  intros Ht. unfold aiwb2_find_socket. destruct (Z.leb_spec k 0); [done |]. intros H0.
  apply fmap_Some in H0 as ([j' s] & Ef & ->). apply list_find_Some in Ef as (Es & Hu & _). simpl.
  rewrite (get_sock_eq n j' s Es). pose proof (tb_slots _ Ht j' s Es) as Hs. unfold slot_ok in Hs.
  destruct (sk_magic s); [|lia]. split; [done |]. destruct (sk_state s); (left; lia) || (right; split; [lia | done]) || idtac.
  destruct Hs as [Hs|Hs]; [right; split; [lia | done] | left; lia].
Qed.

(** * Routing *)

(** C37. Every connection has its own ConID and events find their socket. From registration
    on, whatever sequence of socket calls is made and whatever bytes the module sends
    during and between them (and whichever allocations fail): the sockets in use have
    different descriptors, each found by its own; the entry [i] of a connected socket
    carries ConID [i + 1], and an event for that ConID is handed to it. Any event reaches
    either the entry before its ConID or, misrouted, the entry with the same number while
    that entry is not connected (its ConID still being its index). *)
Theorem aiwb2_routing (c : at_client net) (ops : list sock_op) (Hclient : driver_client c) :
  let n := (foldl sock_step (boot_net, c) ops).1 in
  (∀ i j, sk_magic (get_sock n i) = true → sk_magic (get_sock n j) = true → descr n i = descr n j → i = j)
  ∧ (∀ i, sk_magic (get_sock n i) = true → at_get_socket n (descr n i) = Some i)
  ∧ (∀ i s, sockets n !! i = Some s → sk_magic s = true → sk_state s = AT_SOCKET_CONNECT →
       user_data s = Z.of_nat i + 1 ∧ aiwb2_find_socket n (Z.of_nat i + 1) = Some i)
  ∧ (∀ k j, aiwb2_find_socket n k = Some j → sk_magic (get_sock n j) = true
       ∧ (k = Z.of_nat j + 1 ∨ (k = Z.of_nat j ∧ sk_state (get_sock n j) ≠ AT_SOCKET_CONNECT))).
Proof.
  assert (sys_ok (foldl sock_step (boot_net, c) ops)) as [Ht _].
  { assert (sys_ok (boot_net, c)) as H by (split; [exact boot_table_ok | done]). revert H.
    generalize (boot_net, c) as s. induction ops as [|op ops' IH]; intros s Hs; [done |]. cbn [foldl].
    by apply IH, sock_step_ok. }
  cbv zeta. split_and!.
  - intros i j Hi Hj E. pose proof (table_get _ i Ht Hi) as Ei. rewrite E, (table_get _ j Ht Hj) in Ei. congruence.
  - intros i Hi. by apply table_get.
  - intros i s E Hm Hst. pose proof (tb_slots _ Ht i s E) as Hs. unfold slot_ok in Hs. rewrite Hm, Hst in Hs.
    split; [done |]. by eapply find_socket_connected.
  - intros k j. by apply find_socket_inv.
Qed.

(** Closing a socket that was never connected deletes the connection of the entry before it:
    the ConID in the command is the entry's own index. *)
Lemma aiwb2_close_unconnected (s : sys) i k arrivals env :
  sys_ok s → cl_status s.2 ≠ AT_STATUS_CLI → 32 ≤ send_bufsz s.2 → resp_mem s.2 = true →
  (i < 1000)%nat →
  sockets s.1 !! S i = Some k → sk_magic k = true → sk_state k = AT_SOCKET_OPEN →
  cl_tx (aiwb2_socket_close resp_mem s (S i) (arrivals :: env)).2.2
    = cl_tx s.2 ++ [str "AT+SOCKETDEL=" ++ dec_int (Z.of_nat (S i)) ++ [13; 10]]
  ∧ (∀ s', sockets s.1 !! i = Some s' → sk_magic s' = true → sk_state s' = AT_SOCKET_CONNECT →
       user_data s' = Z.of_nat (S i)).
Proof.
  intros [Ht Hd] Hcli Hsz Hmem Hi Ek Hm Hst. split.
  - unfold aiwb2_socket_close. rewrite Hmem. cbn [at_create_resp next].
    pose proof (tb_slots _ Ht _ _ Ek) as Hs. unfold slot_ok in Hs. rewrite Hm, Hst in Hs.
    rewrite (get_sock_eq _ _ _ Ek), Hs. destruct s as [n c]. cbn [fst snd] in *. set (text := str _ ++ _).
    pose proof (exec_frame keeps n c (mk_resp (replicate 64 0) 64 0 0 0) text arrivals (driver_move c Hd)) as H.
    change (Z.to_nat 64) with 64%nat.
    destruct (exec_cmd (n, c) _ text arrivals) as [[r x] [n' c']]. destruct H as (_ & _ & _ & H & _).
    destruct (H Hcli) as (_ & Etx & _). cbn [fst snd]. rewrite Etx.
    pose proof (dec_int_length (Z.of_nat (S i)) ltac:(unfold is_s32; lia)) as Hl.
    rewrite (proj1 (send_text_fits c text ltac:(subst text; unfold blen; rewrite length_app; simpl length at 1 3; lia))).
    subst text. by rewrite <- app_assoc.
  - intros s' E' Hm' Hst'. pose proof (tb_slots _ Ht _ _ E') as Hs. unfold slot_ok in Hs. rewrite Hm', Hst' in Hs. lia.
Qed.

(** * Received data *)

(** The event line for data of ConID [k]. *)
Definition down_head (k len : Z) : list Z :=
  str "+EVENT:SocketDown," ++ dec_int k ++ [44] ++ dec_int len ++ [44].
Definition down_line (k : Z) (data : list Z) : list Z := down_head k (blen data) ++ data ++ [13; 10].

Lemma sscanf_lit fmt l t :
  Forall (λ c, isspace c = false) l → sscanf (l ++ t) ((FLit <$> l) ++ fmt) = sscanf t fmt.
Proof.
  induction l as [|c l IH]; intros Hl; [done |]. apply Forall_cons in Hl as [Hc Hl]. simpl.
  rewrite Hc, Z.eqb_refl. by apply IH.
Qed.

Lemma cstr_app s l : Forall (λ c, c ≠ 0) s → cstr (s ++ l) = s ++ cstr l.
Proof.
  induction s as [|c s IH]; intros Hs; [done |]. apply Forall_cons in Hs as [Hc Hs]. simpl.
  rewrite (proj2 (Z.eqb_neq c 0)) by done. by rewrite IH.
Qed.

Lemma strchr_app x t : Forall (λ c, c ≠ 0 ∧ c ≠ 44) x → strchr (x ++ 44 :: t) 44 = Some (length x).
Proof.
  intros Hx. unfold strchr. rewrite cstr_app by (eapply Forall_impl; [exact Hx | naive_solver]).
  apply fmap_Some. exists (length x, 44). split; [|done]. simpl. apply list_find_Some. split_and!.
  - by apply list_lookup_middle.
  - done.
  - intros j y Hj Hlt ->. rewrite lookup_app_l in Hj by done.
    by destruct (Forall_lookup_1 _ _ _ _ Hx Hj).
Qed.

Lemma dec_int_plain v : is_s32 v → Forall (λ c, c ≠ 0 ∧ c ≠ 44) (dec_int v).
Proof. intros Hv. destruct (dec_int_chars v Hv) as [H _]. eapply Forall_impl; [exact H |]. simpl. intros; lia. Qed.

Lemma down_head_no_nul k len : is_s32 k → is_s32 len → Forall (λ c, c ≠ 0) (down_head k len).
Proof.
  intros Hk Hl. unfold down_head. rewrite !Forall_app.
  assert (∀ v, is_s32 v → Forall (λ c, c ≠ 0) (dec_int v)) as H.
  { intros v Hv. eapply Forall_impl; [exact (dec_int_plain v Hv) | naive_solver]. }
  split_and!; auto; by repeat constructor.
Qed.

(** The handler finds the ConID, the length and the place of the data. *)
Lemma down_scan k len t :
  is_s32 k → is_s32 len →
  sscanf (cstr (down_head k len ++ t)) (lit "+EVENT:SocketDown," ++ [FInt; FLit 44; FInt]) = [AInt k; AInt len]
  ∧ third_comma (down_head k len ++ t) = Some (length (down_head k len)).
Proof.
  intros Hk Hl. split.
  - rewrite cstr_app by (by apply down_head_no_nul). unfold down_head, lit. rewrite <- app_assoc.
    rewrite sscanf_lit by (by repeat constructor). rewrite <- !app_assoc. cbn [app sscanf].
    rewrite strtol_dec_int_app by done. cbn [sl_conv sl_val sl_end sscanf]. change (isspace 44) with false. simpl.
    by rewrite strtol_dec_int_app by done.
  - unfold third_comma, down_head. change (str "+EVENT:SocketDown,") with (str "+EVENT:SocketDown" ++ [44]).
    rewrite <- !app_assoc. cbn [app]. set (pre := str "+EVENT:SocketDown").
    rewrite strchr_app by (by repeat constructor). cbn [mbind option_bind].
    rewrite (cons_middle 44 pre), app_assoc, (drop_app_length' (pre ++ [44])) by (rewrite length_app; simpl; lia).
    rewrite strchr_app by (by apply dec_int_plain). cbn [mbind option_bind].
    rewrite (cons_middle 44 (dec_int k)), app_assoc, (drop_app_length' (dec_int k ++ [44])) by (rewrite length_app; simpl; lia).
    rewrite strchr_app by (by apply dec_int_plain). cbn [mbind option_bind]. f_equal.
    repeat (rewrite !length_app || simpl length). lia.
Qed.

Lemma urc_recv_down n k data z :
  is_s32 k → 0 < k → data ≠ [] → blen data + 100 < 2147483648 →
  urc_recv_func pkt_mem n (down_line k data ++ z) (blen (down_line k data))
  = match aiwb2_find_socket n k with
    | None => n
    | Some i => at_recv_notice_cb (pkt_mem n) n i (LineBuf (blen (down_head k (blen data)))) (blen data)
    end.
Proof.
  intros Hk Hpos Hne Hlen. assert (0 < blen data) by (destruct data; [done | unfold blen; simpl; lia]).
  assert (is_s32 (blen data)) as Hl by (unfold is_s32; lia).
  unfold urc_recv_func, down_line. set (h := down_head k (blen data)). rewrite <- !app_assoc.
  destruct (down_scan k (blen data) (data ++ [13; 10] ++ z) Hk Hl) as [E1 E2]. fold h in E1, E2. rewrite E1, E2.
  rewrite (u32_small (blen data)) by (unfold is_u32; lia).
  destruct (Z.ltb_spec k 0); [lia |]. destruct (Z.eqb_spec (blen data) 0); [lia |]. cbn [orb].
  assert (blen (h ++ data ++ [13; 10]) - Z.of_nat (length h) = blen data + 2) as -> by len.
  rewrite (u32_small (blen data + 2)) by (unfold is_u32; lia).
  destruct (Z.leb_spec 2 (blen data + 2)); [|lia].
  assert (∀ j c, [13; 10] !! j = Some c →
    nthZ (h ++ data ++ [13; 10] ++ z) (blen (h ++ data ++ [13; 10]) - 2 + Z.of_nat j) = c) as Hn.
  { intros j c Hj. apply nthZ_lookup.
    replace (Z.to_nat (blen (h ++ data ++ [13; 10]) - 2 + Z.of_nat j)) with (length (h ++ data) + j)%nat by len.
    rewrite app_assoc, lookup_app_r by lia. rewrite lookup_app_l; [by replace (_ - _)%nat with j by lia |].
    apply lookup_lt_Some in Hj. lia. }
  pose proof (Hn 0%nat 13 eq_refl) as H13. rewrite Z.add_0_r in H13. rewrite H13.
  pose proof (Hn 1%nat 10 eq_refl) as H10.
  replace (blen (h ++ data ++ [13; 10]) - 2 + Z.of_nat 1) with (blen (h ++ data ++ [13; 10]) - 1) in H10 by lia.
  rewrite H10. cbn [andb Z.eqb Pos.eqb]. replace (blen data + 2 - 2) with (blen data) by lia.
  by rewrite Z.ltb_irrefl.
Qed.

Lemma down_urc c k data :
  driver_client c → blen (down_line k data) ≤ recv_bufsz (cl_rd c) →
  recv_line_buf (line_rd (recv_bufsz (cl_rd c)) (down_line k data))
    = down_line k data ++ replicate (Z.to_nat (recv_bufsz (cl_rd c)) - length (down_line k data)) 0
  ∧ line_urc c (down_line k data) = Some (mk_urc (str "+EVENT:SocketDown,") [13; 10] (Some (urc_recv_func pkt_mem))).
Proof.
  intros Hd Hf. set (B := recv_bufsz (cl_rd c)) in *. set (l := down_line k data) in *.
  assert (recv_line_buf (line_rd B l) = l ++ replicate (Z.to_nat B - length l) 0) as Eb.
  { unfold line_rd. cbn [recv_line_buf]. rewrite take_app_ge by len. f_equal. rewrite take_replicate. f_equal. len. }
  split; [exact Eb |]. unfold line_urc, get_urc_obj. cbn [cl_rd set_rd urc_table]. fold B. rewrite Hd.
  unfold urc_table_wifi, aiwb2_socket_urc_table. cbn [concat app].
  assert (∀ p f, starts_with p l = false → urc_matches (line_rd B l) (mk_urc (W := net) p [13; 10] f) = false
    ∨ (length l < length p)%nat) as Hno.
  { intros p f Hp. destruct (decide (length l < length p)%nat); [by right | left]. unfold urc_matches. cbn [cmd_prefix].
    rewrite Eb. replace (starts_with p (l ++ _)) with false; [by rewrite andb_false_r |].
    unfold starts_with in *. by rewrite take_app_le by lia. }
  assert (∀ p f, starts_with p l = false → ¬ Is_true (urc_matches (line_rd B l) (mk_urc (W := net) p [13; 10] f))) as Hno'.
  { intros p f Hp Ht. destruct (Hno p f Hp) as [E|Hl]; [by rewrite E in Ht |].
    unfold urc_matches in Ht. cbn [cmd_prefix cmd_suffix recv_line_len line_rd] in Ht.
    destruct (Z.leb_spec (blen p + blen [13; 10]) (blen l)); [len | done]. }
  assert (Is_true (urc_matches (line_rd B l) (mk_urc (W := net) (str "+EVENT:SocketDown,") [13; 10] (Some (urc_recv_func pkt_mem))))) as Hyes.
  { unfold urc_matches. cbn [cmd_prefix cmd_suffix recv_line_len line_rd]. rewrite Eb.
    rewrite !andb_True. split_and!.
    - apply Is_true_true, Z.leb_le. subst l. unfold down_line, down_head. len.
    - apply bool_decide_pack. done.
    - apply bool_decide_pack. subst l. unfold down_line.
      replace (Z.to_nat (blen (down_head k (blen data) ++ data ++ [13; 10]) - blen [13; 10]))
        with (length (down_head k (blen data) ++ data)) by len.
      rewrite app_assoc, <- app_assoc, drop_app_length. done. }
  cbn [list_find].
  rewrite (decide_False (P := Is_true (urc_matches _ (mk_urc (str "+EVENT:WIFI_CONNECT") _ _)))) by (apply Hno'; done).
  rewrite (decide_False (P := Is_true (urc_matches _ (mk_urc (str "+EVENT:WIFI_DISCONNECT") _ _)))) by (apply Hno'; done).
  rewrite (decide_False (P := Is_true (urc_matches _ (mk_urc (str "+EVENT:WIFI_GOT_IP") _ _)))) by (apply Hno'; done).
  rewrite (decide_True (P := Is_true (urc_matches _ (mk_urc (str "+EVENT:SocketDown,") _ _)))) by exact Hyes.
  done.
Qed.

(** The entry after a delivery. *)
Lemma recv_cb_entry n i s p L :
  sockets n !! i = Some s → sk_magic s = true → sk_state s = AT_SOCKET_CONNECT → recvpkt_list s = [] →
  ∃ s', sockets (at_recv_notice_cb true n i p L) !! i = Some s' ∧ recvpkt_list s' = [mk_pkt L 0 p]
    ∧ sk_state s' = AT_SOCKET_CONNECT ∧ nt_ub (at_recv_notice_cb true n i p L) = nt_ub n.
Proof.
  intros E Hm Hst Hp. unfold at_recv_notice_cb. rewrite (get_sock_eq n i s E), Hm, Hst.
  rewrite (bool_decide_eq_false_2 (AT_SOCKET_CONNECT = _)) by done. cbn [negb orb at_recvpkt_put].
  change (RT_EOK =? RT_EOK) with true. cbn [negb]. unfold at_do_event_changes.
  rewrite !upd_upd, (upd_sock_eq n i s) by done. cbn [sockets nt_ub].
  rewrite list_lookup_insert_eq by (by eapply lookup_lt_Some). eexists. split; [done |].
  cbn [recvpkt_list sk_state set_events set_notice set_pkts]. by rewrite Hp.
Qed.

(** A packet that lies in the cleared line buffer reads as zeros; read to its end it is
    freed although it is no heap block. *)
Lemma recv_cleared n c d i s off L mem len dontwait env :
  at_get_socket n d = Some i → sockets n !! i = Some s → sk_state s = AT_SOCKET_CONNECT →
  recvpkt_list s = [mk_pkt L 0 (LineBuf off)] → 0 < L → 0 < len ≤ blen mem →
  recv_line_buf (cl_rd c) = replicate (length (recv_line_buf (cl_rd c))) 0 →
  0 ≤ off → off + L ≤ blen (recv_line_buf (cl_rd c)) →
  let '(r, mem', (n', _)) := at_recv (n, c) d mem len dontwait env in
  r = Z.min len L ∧ mem' = replicate (Z.to_nat r) 0 ++ drop (Z.to_nat r) mem
  ∧ nt_ub n' = (nt_ub n || (L <=? len)).
Proof.
  intros Hg E Hst Hp HL Hlen Hz Hoff Hfit. unfold at_recv. rewrite (proj2 (Z.eqb_neq len 0)) by lia.
  cbn [fst]. rewrite Hg. set (lb := recv_line_buf (cl_rd c)) in *.
  set (nz := upd_sock n i (set_notice 0)).
  assert (sockets nz !! i = Some (set_notice 0 s)) as Enz by (unfold nz; simpl; by rewrite list_lookup_alter_eq, E).
  assert (∀ m, 0 ≤ m ≤ L → memcpy mem 0 (drop (Z.to_nat off) lb) 0 m = replicate (Z.to_nat m) 0 ++ drop (Z.to_nat m) mem) as Hcpy.
  { intros m Hm. unfold memcpy. simpl. rewrite drop_0. f_equal. rewrite Hz, drop_replicate, take_replicate.
    f_equal. unfold blen in Hfit. rewrite Hz, length_replicate in Hfit. lia. }
  assert (∃ n2, at_recvpkt_get lb nz i mem len
      = (Z.min len L, replicate (Z.to_nat (Z.min len L)) 0 ++ drop (Z.to_nat (Z.min len L)) mem, n2)
      ∧ nt_ub n2 = (nt_ub n || (L <=? len))) as (n2 & Eget & Hub).
  { unfold at_recvpkt_get. rewrite (get_sock_eq nz i _ Enz). cbn [recvpkt_list set_notice]. rewrite Hp. cbn [length].
    cbn [recvpkt_loop]. rewrite (get_sock_eq nz i _ Enz). cbn [recvpkt_list set_notice]. rewrite Hp.
    cbn [bfsz_totle bfsz_index pk_buff bytes_at]. rewrite !Z.sub_0_r, !Z.add_0_l.
    assert (∀ v, nt_ub (at_recvpkt_node_delete (upd_sock nz i (set_index v)) i) = true) as Hdel.
    { intros v. assert (sockets (upd_sock nz i (set_index v)) !! i = Some (set_index v (set_notice 0 s))) as Ex
        by (simpl; by rewrite list_lookup_alter_eq, list_lookup_alter_eq, E).
      unfold at_recvpkt_node_delete. rewrite (get_sock_eq _ i _ Ex). unfold set_index. cbn [recvpkt_list set_notice].
      rewrite Hp. done. }
    destruct (Z.leb_spec len L).
    - eexists. split; [rewrite Z.min_l, (Hcpy len) by lia; reflexivity |].
      destruct (Z.eqb_spec len L), (Z.leb_spec L len); try lia; [|by rewrite orb_false_r].
      rewrite Hdel. by rewrite orb_true_r.
    - eexists. split; [rewrite Z.min_r, (Hcpy L) by lia; reflexivity |].
      destruct (Z.leb_spec L len); [|lia]. rewrite Hdel. by rewrite orb_true_r. }
  assert (recv_loop (n, c) i mem len dontwait env
    = (Z.min len L, replicate (Z.to_nat (Z.min len L)) 0 ++ drop (Z.to_nat (Z.min len L)) mem,
       on_net (n2, c) (λ n, if bool_decide (recvpkt_list (get_sock n i) = [])
                            then at_do_event_clean n i AT_EVENT_RECV else n))) as ->.
  { destruct env; cbn [recv_loop fst snd]; rewrite (get_sock_eq n i s E), Hst; cbn [bool_decide decide_rel];
      rewrite bool_decide_eq_false_2 by done; cbn [on_net fst snd]; fold nz lb; rewrite Eget;
      (destruct (Z.ltb_spec 0 (Z.min len L)); [done | lia]). }
  destruct (Z.leb_spec (Z.min len L) 0); [lia |]. cbn [on_net fst snd]. split_and!; [done | done |].
  rewrite <- Hub. by case_bool_decide.
Qed.

Lemma driver_crlf c : driver_client c → urcs_crlf c.
Proof.
  intros Hd. unfold urcs_crlf. rewrite Hd. unfold urc_table_wifi, aiwb2_socket_urc_table. cbn [concat app].
  rewrite !Forall_cons, Forall_nil. split_and!; try done; by exists [].
Qed.

(** Received data is lost. The handler passes on a pointer into the client's line
    buffer, which the parser thread clears before it reads the next line: once the event
    line for a connected socket (of any data, under the documented format and short enough
    for the line buffer) has been handled, [at_recv] on that socket returns the right number
    of bytes, all of them zero; and when it reads the packet to its end it frees an address
    inside the line buffer. *)
Theorem aiwb2_received_data_lost (n : net) (c : at_client net) (i : nat) (s : at_socket) (data mem : list Z)
    (len : Z) (dontwait : bool) (env : list (list Z))
    (Hclient : driver_client c) (Hstart : at_start c)
    (Hline : is_line (end_sign c) (down_line (Z.of_nat i + 1) data) = true)
    (Hfits : blen (down_line (Z.of_nat i + 1) data) ≤ recv_bufsz (cl_rd c)) (Hbufsz : recv_bufsz (cl_rd c) < 1000000)
    (Htable : table_ok n) (Hi : sockets n !! i = Some s) (Hmagic : sk_magic s = true)
    (Hconnected : sk_state s = AT_SOCKET_CONNECT) (Hempty : recvpkt_list s = []) (Hindex : (i < 1000)%nat)
    (Hmem : pkt_mem n = true) (Hdata : data ≠ []) (Hlen : 0 < len ≤ blen mem) :
  let '(r, mem', (n', _)) := at_recv (feed (n, c) (down_line (Z.of_nat i + 1) data)) (descr n i) mem len dontwait env in
  r = Z.min len (blen data)
  ∧ mem' = replicate (Z.to_nat r) 0 ++ drop (Z.to_nat r) mem
  ∧ nt_ub n' = (nt_ub n || (blen data <=? len)).
Proof.
  set (k := Z.of_nat i + 1) in *. set (l := down_line k data) in *.
  assert (blen data + 2 ≤ blen l) by (subst l; unfold down_line; rewrite !blen_app; pose proof (blen_nonneg (down_head k (blen data))); len).
  destruct (down_urc c k data Hclient Hfits) as [Ebuf Eurc]. fold l in Ebuf, Eurc.
  assert (handle c n l = at_recv_notice_cb true n i (LineBuf (blen (down_head k (blen data)))) (blen data)) as Hh.
  { unfold handle. rewrite Eurc. cbn [urc_func]. unfold fits. rewrite (proj2 (Z.leb_le _ _) Hfits), Ebuf.
    pose proof (tb_slots _ Htable i s Hi) as Hs. unfold slot_ok in Hs. rewrite Hmagic, Hconnected in Hs.
    unfold l. rewrite urc_recv_down; [|unfold is_s32; lia | lia | done | lia].
    unfold k. by rewrite (find_socket_connected n i s), Hmem. }
  rewrite (feed_line n c l Hstart (driver_crlf c Hclient) Hline).
  pose proof (line_step_world n c l ltac:(by destruct l)) as Hw. rewrite Hh in Hw.
  destruct (line_step_env n c l) as [[He [Hb Hs]]|]; [|destruct Hstart; lia].
  destruct (line_step (n, c) l) as [n' c']. cbn [fst snd] in *. subst n'.
  destruct (recv_cb_entry n i s (LineBuf (blen (down_head k (blen data)))) (blen data) Hi Hmagic Hconnected Hempty)
    as (s' & E' & Hp' & Hst' & Hub').
  set (n' := at_recv_notice_cb true n i _ _) in *.
  assert (keeps n n') as Hk by apply keeps_recv_cb.
  assert (at_get_socket n' (descr n i) = Some i) as Hg.
  { destruct (keeps_get n n' i Hk) as (Em & Ed & _). unfold descr. rewrite <- Ed. apply table_get.
    - by eapply table_ok_keeps.
    - by rewrite Em, (get_sock_eq n i s Hi). }
  assert (recv_bufsz (cl_rd c') = recv_bufsz (cl_rd c)) as EB by apply He.
  assert (recv_line_buf (cl_rd c') = replicate (Z.to_nat (recv_bufsz (cl_rd c))) 0) as Hz
    by (rewrite Hs; cbn [recv_line_buf fresh_rd]; by rewrite EB).
  rewrite <- Hub'. apply (recv_cleared n' c' _ i s' (blen (down_head k (blen data)))); try done.
  - destruct data; [done | unfold blen; simpl; lia].
  - by rewrite Hz, length_replicate.
  - assert (blen (recv_line_buf (cl_rd c')) = recv_bufsz (cl_rd c)) as ->
      by (rewrite Hz; unfold blen; rewrite length_replicate; lia).
    subst l. unfold down_line in Hfits. rewrite !blen_app in Hfits. pose proof (blen_nonneg [13; 10]). lia.
Qed.

End run.

(** * Witnesses *)

(** Memory is always available and the serial device writes everything. *)
Definition demo_mem {A} (_ : A) : bool := true.
Definition demo_write (_ : at_client net) (b : list Z) : Z := blen b.

Definition demo_wb2 : at_client net :=
  mk_client AT_STATUS_INITIALIZED 0 64 (fresh_rd 64) (mk_ans false (mk_resp [] 0 0 0 0) 0 AT_RESP_OK)
    [urc_table_wifi; aiwb2_socket_urc_table demo_mem] [] 0 false.

(** Two sockets, the first one connected, the second one opened. *)
Definition demo_run : list sock_op :=
  [OpOpen AT_SOCKET_TCP true true;
   OpConnect 0 (str "h") 1883 [str "connect success ConID=1" ++ [13; 10] ++ str "OK" ++ [13; 10]];
   OpOpen AT_SOCKET_TCP true true].

Lemma aiwb2_routing_witness :
  let n := (foldl (sock_step demo_mem demo_write) (boot_net, demo_wb2) demo_run).1 in
  sk_state (get_sock n 0) = AT_SOCKET_CONNECT ∧ aiwb2_find_socket n 1 = Some 0%nat
  ∧ at_get_socket n (descr n 1) = Some 1%nat.
Proof.
  destruct (aiwb2_routing demo_mem demo_mem demo_write demo_wb2 demo_run) as (_ & Hd & Hc & _); [done |].
  set (n := (foldl (sock_step demo_mem demo_write) (boot_net, demo_wb2) demo_run).1) in *.
  assert (sk_state (get_sock n 0) = AT_SOCKET_CONNECT) as H0 by (vm_compute; done).
  assert (sk_magic (get_sock n 1) = true) as H1 by (vm_compute; done).
  split; [exact H0 |]. split; [|exact (Hd 1%nat H1)].
  exact (proj2 (Hc 0%nat (get_sock n 0) ltac:(vm_compute; reflexivity) ltac:(vm_compute; reflexivity) H0)).
Defined.

Definition demo_net1 : net := (foldl (sock_step demo_mem demo_write) (boot_net, demo_wb2) (take 2 demo_run)).1.

Lemma demo_net1_ok : table_ok demo_net1.
Proof.
  assert (sys_ok demo_mem (foldl (sock_step demo_mem demo_write) (boot_net, demo_wb2) (take 2 demo_run))) as [H _].
  { do 2 (apply sock_step_ok with (pkt_mem := demo_mem)). split; [exact boot_table_ok | done]. }
  exact H.
Qed.

Lemma aiwb2_received_data_lost_witness :
  let '(r, mem', (n', _)) :=
    at_recv (feed (demo_net1, demo_wb2) (down_line 1 [104; 105])) (descr demo_net1 0) (replicate 4 7) 4 true [] in
  r = 2 ∧ mem' = [0; 0; 7; 7] ∧ nt_ub n' = true.
Proof.
  pose proof (aiwb2_received_data_lost demo_mem demo_net1 demo_wb2 0 (get_sock demo_net1 0) [104; 105] (replicate 4 7)
    4 true [] eq_refl (conj eq_refl eq_refl) eq_refl ltac:(vm_compute; done) eq_refl demo_net1_ok
    ltac:(vm_compute; reflexivity) ltac:(vm_compute; reflexivity) ltac:(vm_compute; reflexivity)
    ltac:(vm_compute; reflexivity) ltac:(lia) eq_refl ltac:(done) ltac:(vm_compute; done)) as Hw.
  change (Z.of_nat 0 + 1) with 1 in Hw.
  destruct (at_recv _ _ _ _ _ _) as [[r mem'] [n' c']]. destruct Hw as (-> & -> & ->). done.
Defined.

(** A host name longer than an address in the answer is accepted, and scanned into the 16
    bytes of [recv_ip]. *)
Lemma aiwb2_resolve_overrun :
  let '(r, ip, over, _) :=
    aiwb2_domain_resolve demo_mem (boot_net, demo_wb2) (str "h")
      [str "+WDOMAIN:a.long.host.example" ++ [13; 10] ++ str "OK" ++ [13; 10]] in
  r = RT_EOK ∧ ip = Some (str "a.long.host.exa") ∧ over = true.
Proof. vm_compute. done. Qed.
