(* ===== verification/Aiwb2Send.v ===== *)
(** Sending through the Ai-WB2 driver ([aiwb2_socket_send], at_socket_aiwb2.c): the packets
    a buffer is cut into, what reaches the module when exchanges fail, and when a send
    succeeds. *)

From Stdlib Require Import String.
From stdpp Require Import gmap.
From S2P Require Import Prelude.
From S2P Require Import CText.
From S2P Require Import RtDef.
From S2P Require Import AtClient.
From S2P Require Import AtSocket.
From S2P Require Import Aiwb2.
Open Scope Z_scope.
Open Scope list_scope.

(** * Reference *)

(** The packets of a buffer: 1024 bytes each, the last one what is left. *)
Fixpoint packets_of (fuel : nat) (data : list Z) : list (list Z) :=
  match fuel, data with
  | S fuel, _ :: _ => take 1024 data :: packets_of fuel (drop 1024 data)
  | _, _ => []
  end.
Definition packets (data : list Z) : list (list Z) := packets_of (length data) data.

(** What is written for a packet: the command line and the data. *)
Definition frames (con_id : Z) (p : list Z) : list (list Z) := [send_cmd_text con_id (blen p) ++ [13; 10]; p].

Lemma packets_of_spec fuel : ∀ data, (length data ≤ fuel)%nat →
  concat (packets_of fuel data) = data ∧ Forall (λ p, 0 < blen p ≤ 1024) (packets_of fuel data).
Proof.
  induction fuel as [|fuel IH]; intros data Hl; [destruct data; [done | simpl in Hl; lia] |].
  destruct data as [|b data]; [done |]. cbn [packets_of]. set (d := b :: data) in *.
  destruct (IH (drop 1024 d)) as [H1 H2]; [rewrite length_drop; subst d; simpl in *; lia |].
  cbn [concat]. rewrite H1, take_drop. split; [done |]. constructor; [|done].
  assert (0 < length d)%nat by (subst d; simpl; lia). len.
Qed.

Lemma cur_pkt_take (data : list Z) : take (Z.to_nat (cur_pkt_size (blen data))) data = take 1024 data
  ∧ drop (Z.to_nat (cur_pkt_size (blen data))) data = drop 1024 data
  ∧ cur_pkt_size (blen data) = blen (take 1024 data).
Proof.
  unfold cur_pkt_size, AIWB2_MODULE_SEND_MAX_SIZE. destruct (Z.ltb_spec (blen data) 1024).
  - rewrite !take_ge, !drop_ge by len. done.
  - change (Z.to_nat 1024) with 1024%nat. split_and!; [done | done | len].
Qed.

Section send.
Context (pkt_mem : net → bool) (resp_mem : at_client net → bool) (dev_write : at_client net → list Z → Z).
(** The serial device writes everything it is given. *)
Hypothesis Hwrite : ∀ c b, dev_write c b = blen b.

(** A client that can send: not in the command line mode, and its buffer holds the command. *)
Definition can_send (c : at_client net) : Prop :=
  driver_client pkt_mem c ∧ cl_status c ≠ AT_STATUS_CLI ∧ 48 ≤ send_bufsz c.

Lemma can_send_conf c c' : same_conf c c' → can_send c → can_send c'.
Proof.
  intros (_ & E2 & _ & E4 & E5 & _) (H1 & H2 & H3). unfold can_send, driver_client. by rewrite E2, E4, E5.
Qed.

Lemma send_cmd_fits con_id (p : list Z) c :
  is_s32 con_id → blen p ≤ 1024 → 48 ≤ send_bufsz c →
  cl_tx (send_text c (send_cmd_text con_id (blen p))) = cl_tx (W := net) c ++ [send_cmd_text con_id (blen p) ++ [13; 10]]
  ∧ cl_ub (send_text c (send_cmd_text con_id (blen p))) = cl_ub c.
Proof.
  intros Hc Hp Hs. apply send_text_fits. pose proof (blen_nonneg p).
  assert (∀ v, is_s32 v → 0 ≤ blen (dec_int v) ≤ 11) as Hd
    by (intros v Hv; pose proof (dec_int_length v Hv); unfold blen; lia).
  pose proof (Hd con_id Hc). pose proof (Hd (blen p) ltac:(unfold is_s32; lia)).
  unfold send_cmd_text. rewrite !blen_app. change (blen (str "AT+SOCKETSEND=")) with 14. change (blen [44]) with 1. lia.
Qed.

(** The wait for the answer is a command without text. *)
Lemma send_wait_exec (s : sys) bytes :
  cl_status s.2 ≠ AT_STATUS_CLI → resp_mem s.2 = true →
  aiwb2_send_wait resp_mem s bytes
  = let '(r, _, s') := exec_cmd s (mk_resp (replicate 64 0) 64 0 0 0) [] bytes in (r, s').
Proof.
  destruct s as [n c]. cbn [snd]. intros Hst Hm. unfold aiwb2_send_wait, exec_cmd.
  rewrite Hm, decide_False by done. cbn [at_create_resp]. change (Z.to_nat 64) with 64%nat.
  change (exec_begin c (mk_resp (replicate 64 0) 64 0 0 0) [])
    with (set_ans (lock c) (mk_ans true (mk_resp (replicate 64 0) 64 0 0 0) 0 AT_RESP_OK)).
  destruct (feed _ bytes) as [n' c']. by destruct (exec_finish c') as [[r x] c''].
Qed.

Lemma exec_empty_text c : send_text (W := net) c [] = c.
Proof. done. Qed.

(** Relation of two clients with the same configuration and no overrun in between. *)
Definition sent_more (c c' : at_client net) (tx : list (list Z)) : Prop :=
  same_conf c c' ∧ cl_tx c' = cl_tx c ++ tx ∧ cl_ub c' = cl_ub c.

Lemma sent_more_trans c1 c2 c3 a b : sent_more c1 c2 a → sent_more c2 c3 b → sent_more c1 c3 (a ++ b).
Proof.
  intros (A1 & A2 & A3) (B1 & B2 & B3). split_and!; [by etrans | by rewrite B2, A2, app_assoc | congruence].
Qed.

Lemma send_wait_sent (s : sys) bytes :
  can_send s.2 → let '(r, s') := aiwb2_send_wait resp_mem s bytes in r ≤ 0 ∧ sent_more s.2 s'.2 [].
Proof.
  intros (Hd & Hst & Hsz). destruct (resp_mem s.2) eqn:Em.
  - rewrite send_wait_exec by done. destruct s as [n c].
    pose proof (exec_frame keeps n c (mk_resp (replicate 64 0) 64 0 0 0) [] bytes (driver_move pkt_mem c Hd)) as H.
    destruct (exec_cmd (n, c) _ [] bytes) as [[r x] [n' c']]. destruct H as (_ & H1 & H2 & H3 & _).
    destruct (H3 Hst) as (_ & H4 & H5). split; [done |]. unfold sent_more. rewrite app_nil_r. done.
  - destruct s as [n c]. simpl in *. rewrite Em. simpl. split; [done |]. unfold sent_more. by rewrite app_nil_r.
Qed.

Lemma feed_sent (s : sys) bytes : driver_client pkt_mem s.2 → sent_more s.2 (feed s bytes).2 [].
Proof.
  destruct s as [n c]. intros Hd.
  destruct (feed_frame keeps bytes n c (driver_move pkt_mem c Hd)) as [_ (E1 & E2 & E3 & E4 & E5 & E6 & E7 & E8)].
  unfold sent_more, same_conf. rewrite app_nil_r. done.
Qed.

(** What one packet can lead to: all of it written and acknowledged, or a part of it written
    and an error. *)
Definition loop_result (con_id : Z) (s : sys) (ps : list (list Z)) (sent : Z)
    (res : Z * Z * list (list Z) * sys) : Prop :=
  let '(r, sent', _, s') := res in
  ∃ done rest, ps = done ++ rest ∧ sent' = sent + blen (concat done)
    ∧ ((rest = [] ∧ r = s32 sent' ∧ sent_more s.2 s'.2 (concat (frames con_id <$> done)))
       ∨ (∃ p rest' k, rest = p :: rest' ∧ r < 0
            ∧ sent_more s.2 s'.2 (concat (frames con_id <$> done) ++ take k (frames con_id p)))).

Lemma loop_fails con_id s p ps sent env r s' k :
  r < 0 → sent_more s.2 s'.2 (take k (frames con_id p)) →
  loop_result con_id s (p :: ps) sent (r, sent, env, s').
Proof.
  intros Hr Hs. exists [], (p :: ps). split_and!; [done | unfold blen; simpl; lia |]. right. by exists p, ps, k.
Qed.

Lemma send_loop_result con_id fuel : ∀ (s : sys) data sent env,
  is_s32 con_id → can_send s.2 →
  loop_result con_id s (packets_of fuel data) sent (send_loop resp_mem dev_write fuel s con_id data sent env).
Proof.
  induction fuel as [|fuel IH]; intros s data sent env Hc Hs.
  { exists [], []. split_and!; [done | unfold blen; simpl; lia |]. left. split_and!; try done. unfold sent_more. by rewrite app_nil_r. }
  destruct data as [|b data].
  { exists [], []. split_and!; [done | unfold blen; simpl; lia |]. left. split_and!; try done. unfold sent_more. by rewrite app_nil_r. }
  cbn [send_loop packets_of]. destruct (cur_pkt_take (b :: data)) as (Et & Ed & El).
  set (d := b :: data) in *. set (p := take 1024 d) in *. rewrite Et, Ed, El.
  assert (blen p ≤ 1024) as Hp by (subst p; len).
  destruct (at_create_resp (resp_mem s.2) 64 1) as [resp|].
  2: { apply (loop_fails _ _ _ _ _ _ _ _ 0); [done |]. unfold sent_more. by rewrite app_nil_r. }
  destruct (next env) as [prompt env1]. destruct Hs as (Hd & Hst & Hsz).
  pose proof (exec_frame keeps s.1 s.2 resp (send_cmd_text con_id (blen p)) prompt (driver_move pkt_mem _ Hd)) as He.
  rewrite <- surjective_pairing in He.
  destruct (exec_cmd s resp (send_cmd_text con_id (blen p)) prompt) as [[r x] [n1 c1]].
  destruct He as (_ & Hcf & _ & Htx & _). destruct (Htx Hst) as (_ & Htx1 & Hub1).
  destruct (send_cmd_fits con_id p s.2 Hc Hp Hsz) as [Etx Eub].
  assert (sent_more s.2 c1 (take 1 (frames con_id p))) as H1 by (unfold sent_more; by rewrite Htx1, Hub1, Etx, Eub).
  destruct (Z.ltb_spec r 0); [by apply (loop_fails _ _ _ _ _ _ _ _ 1) |]. cbn [fst snd at_client_obj_send].
  destruct (next env1) as [early env2]. rewrite Hwrite.
  set (c2 := set_io c1 _ _ _).
  assert (sent_more c1 c2 [p]) as H2.
  { unfold sent_more. split_and!; [done | | done]. simpl. f_equal. f_equal. rewrite take_ge by len. done. }
  pose proof (sent_more_trans _ _ _ _ _ H1 H2) as H12. cbn [frames take app] in H12.
  assert (can_send c2) as (Hd2 & Hst2 & Hsz2) by (by eapply can_send_conf; [apply H12 |]).
  pose proof (feed_sent (n1, c2) early Hd2) as H3. set (s3 := feed (n1, c2) early) in *.
  pose proof (sent_more_trans _ _ _ _ _ H12 H3) as H13. rewrite app_nil_r in H13.
  destruct (blen p =? 0); [by apply (loop_fails _ _ _ _ _ _ _ _ 2) |].
  destruct (next env2) as [late env3].
  assert (can_send s3.2) as Hs3 by (by eapply can_send_conf; [apply H13 |]).
  pose proof (send_wait_sent s3 late Hs3) as H4.
  destruct (aiwb2_send_wait resp_mem s3 late) as [r4 s4]. destruct H4 as [Hr4 H4].
  pose proof (sent_more_trans _ _ _ _ _ H13 H4) as H14. rewrite app_nil_r in H14.
  destruct (Z.eqb_spec r4 RT_EOK) as [->|Hne]; cbn [negb].
  2: { apply (loop_fails _ _ _ _ _ _ _ _ 2); [unfold RT_EOK in *; lia | done]. }
  assert (can_send s4.2) as Hs4 by (by eapply can_send_conf; [apply H14 |]).
  pose proof (IH s4 (drop 1024 d) (sent + blen p) env3 Hc Hs4) as Hrec. unfold loop_result in *.
  destruct (send_loop _ _ _ _ _ _ _ _) as [[[r5 sent5] env5] s5].
  destruct Hrec as (ok & rest & Eps & Es & Hcase). exists (p :: ok), rest. split_and!; [by rewrite Eps | |].
  { cbn [concat]. rewrite blen_app. lia. }
  rewrite fmap_cons. cbn [concat]. destruct Hcase as [(E1 & E2 & E3)|(q & rest' & k & E1 & E2 & E3)]; [left | right].
  - split_and!; [done | done |]. by eapply sent_more_trans.
  - exists q, rest', k. split_and!; [done | done |]. rewrite <- app_assoc. by eapply sent_more_trans.
Qed.

(** ** The result against the answers *)

(** What arrives for one packet, as lines: while the driver waits for the prompt, while the
    data is written, and while it waits for the answer. *)
Record exchange : Type := mk_exchange {
  ex_prompt : list (list Z);
  ex_early : list (list Z);
  ex_answer : list (list Z)
}.
Definition exchange_lines (c : at_client net) (x : exchange) : Prop :=
  let lines := Forall (λ l, is_line (end_sign c) l = true) in
  lines (ex_prompt x) ∧ lines (ex_early x) ∧ lines (ex_answer x).

(** The bytes of the waits. *)
Definition arrivals (xs : list exchange) : list (list Z) :=
  concat ((λ x, [concat (ex_prompt x); concat (ex_early x); concat (ex_answer x)]) <$> xs).

(** The reference: what is written and the error, if there is one. A packet needs a prompt
    before its data, and an answer that ends with OK during the wait for it. *)
Fixpoint session (c : at_client net) (con_id : Z) (ps : list (list Z)) (xs : list exchange)
    : list (list Z) * option Z :=
  match ps, xs with
  | [], _ => ([], None)
  | p :: _, [] => (take 1 (frames con_id p), Some (- RT_ERROR))
  | p :: ps, x :: xs =>
      if decide ((respond c 1 64 [] (ex_prompt x)).1 = Some true) then
        match (respond c 0 64 [] (ex_answer x)).1 with
        | Some true => let '(tx, e) := session c con_id ps xs in (frames con_id p ++ tx, e)
        | Some false => (frames con_id p, Some (- RT_ERROR))
        | None => (frames con_id p, Some (- RT_ETIMEOUT))
        end
      else (take 1 (frames con_id p), Some (- RT_ERROR))
  end.

Lemma exchange_lines_conf c c' x : same_conf c c' → exchange_lines c x → exchange_lines c' x.
Proof. intros Hc. unfold exchange_lines. by rewrite (proj1 Hc). Qed.

Lemma session_conf c c' con_id ps : ∀ xs, same_conf c c' → session c' con_id ps xs = session c con_id ps xs.
Proof.
  induction ps as [|p ps IH]; intros xs Hc; [done |]. destruct xs as [|x xs]; [done |]. simpl.
  by rewrite !(respond_conf c c'), IH.
Qed.

(** The result of a command by the first deciding line. *)
Definition outcome (v : option bool) : Z :=
  match v with Some true => RT_EOK | Some false => - RT_ERROR | None => - RT_ETIMEOUT end.

Lemma exec_outcome (s : sys) resp text ls :
  can_send s.2 → at_start s.2 → blen (rs_buf resp) = rs_buf_size resp →
  Forall (λ l, is_line (end_sign s.2) l = true) ls →
  ∃ x s', exec_cmd s resp text (concat ls)
            = (outcome (respond s.2 (rs_line_num resp) (rs_buf_size resp) [] ls).1, x, s')
    ∧ at_start s'.2 ∧ same_conf s.2 s'.2 ∧ resp_on (cl_ans s'.2) = false
    ∧ cl_tx s'.2 = cl_tx (send_text s.2 text).
Proof.
  intros (Hd & Hst & _) Hs Hb Hl. destruct s as [n c]. cbn [fst snd] in *.
  pose proof (exec_frame keeps n c resp text (concat ls) (driver_move pkt_mem c Hd)) as Hf.
  destruct (exec_spec n c resp text ls Hs (driver_crlf pkt_mem c Hd) Hst Hb Hl)
    as (x & c' & E & _ & H1 & H2 & _). rewrite E in Hf |- *.
  exists x, (foldl (handle c) n ls, c'). destruct Hf as (_ & H3 & _ & H4 & _). split_and!; try done. by apply H4.
Qed.

(** Lines that arrive while no command waits have no effect on the exchange. *)
Lemma feed_idle (s : sys) ls :
  can_send s.2 → at_start s.2 → resp_on (cl_ans s.2) = false →
  Forall (λ l, is_line (end_sign s.2) l = true) ls →
  at_start (feed s (concat ls)).2 ∧ same_conf s.2 (feed s (concat ls)).2
  ∧ cl_tx (feed s (concat ls)).2 = cl_tx s.2.
Proof.
  destruct s as [n c]. cbn [snd]. intros (Hd & _ & _) Hs Hon Hl.
  pose proof (feed_sent (n, c) (concat ls) Hd) as (Hc & Htx & _). rewrite app_nil_r in Htx. split_and!; [|done..].
  rewrite feed_lines by (done || by eapply driver_crlf).
  apply lines_idle; [apply Hs | | done | done].
  eapply Forall_impl; [exact Hl |]. intros l Hx. exact (is_line_nonempty _ _ Hx).
Qed.

(** The command of a packet. *)
Lemma cmd_outcome con_id (s : sys) p P :
  is_s32 con_id → blen p ≤ 1024 → can_send s.2 → at_start s.2 →
  Forall (λ l, is_line (end_sign s.2) l = true) P → ∃ x s1,
    exec_cmd s (mk_resp (replicate 64 0) 64 0 1 0) (send_cmd_text con_id (blen p)) (concat P)
      = (outcome (respond s.2 1 64 [] P).1, x, s1)
    ∧ at_start s1.2 ∧ same_conf s.2 s1.2 ∧ resp_on (cl_ans s1.2) = false
    ∧ cl_tx s1.2 = cl_tx s.2 ++ take 1 (frames con_id p).
Proof.
  intros Hc Hp Hs Hst HP. destruct (send_cmd_fits con_id p s.2 Hc Hp (proj2 (proj2 Hs))) as [Etx _].
  destruct (exec_outcome s (mk_resp (replicate 64 0) 64 0 1 0) (send_cmd_text con_id (blen p)) P
    Hs Hst eq_refl HP) as (x & s1 & E & H1 & H2 & H3 & H4). exists x, s1. by rewrite H4.
Qed.

Hypothesis Hmem : ∀ c, resp_mem c = true.

Lemma send_loop_session con_id fuel : ∀ (s : sys) data sent xs,
  is_s32 con_id → can_send s.2 → at_start s.2 → Forall (exchange_lines s.2) xs →
  let ses := session s.2 con_id (packets_of fuel data) xs in
  let res := send_loop resp_mem dev_write fuel s con_id data sent (arrivals xs) in
  res.1.1.1 = default (s32 (sent + blen (concat (packets_of fuel data)))) ses.2
  ∧ cl_tx res.2.2 = cl_tx s.2 ++ ses.1.
Proof.
  induction fuel as [|fuel IH]; intros s data sent xs Hc Hs Hst Hx;
    [simpl; rewrite app_nil_r, Z.add_0_r; done |].
  destruct data as [|b data]; [simpl; rewrite app_nil_r, Z.add_0_r; done |]. cbn [send_loop packets_of] in *.
  destruct (cur_pkt_take (b :: data)) as (Et & Ed & El). set (d := b :: data) in *.
  assert (0 < blen (take 1024 d) ≤ 1024) as Hp by (subst d; len). set (p := take 1024 d) in *.
  rewrite Et, Ed, El, Hmem. cbn [at_create_resp]. change (Z.to_nat 64) with 64%nat.
  pose proof (λ P, cmd_outcome con_id s p P Hc (proj2 Hp) Hs Hst) as Hcmd.
  destruct xs as [|[P E A] xs].
  { destruct (Hcmd [] ltac:(done)) as (x & s1 & E & _ & _ & _ & Htx). cbn [concat] in E. cbn [arrivals fmap list_fmap concat next].
    rewrite E. cbn. done. }
  apply Forall_cons in Hx as [(HP & HE & HA) Hx]. cbn [ex_prompt ex_early ex_answer] in *.
  change (arrivals (mk_exchange P E A :: xs)) with (concat P :: concat E :: concat A :: arrivals xs).
  cbn [next session ex_prompt ex_answer]. destruct (Hcmd P HP) as (x & [n1 c1] & -> & Hst1 & Hc1 & Hon1 & Htx1).
  cbn [snd] in *. destruct (decide ((respond s.2 1 64 [] P).1 = Some true)) as [Er|Hr].
  2: { destruct (Z.ltb_spec (outcome (respond s.2 1 64 [] P).1) 0) as [_|Hz]; [done |].
       destruct (respond s.2 1 64 [] P).1 as [[]|]; done. }
  rewrite Er. change (outcome (Some true) <? 0) with false. cbn [fst snd at_client_obj_send]. rewrite Hwrite.
  rewrite (proj2 (Z.eqb_neq (blen p) 0)) by lia. set (c2 := set_io c1 _ _ _).
  assert (same_conf s.2 c2) as Hc2 by (etrans; [exact Hc1 | done]).
  assert (can_send c2) as Hs2 by (by eapply can_send_conf).
  destruct (feed_idle (n1, c2) E Hs2 Hst1 Hon1) as (Hst3 & Hc3 & Htx3);
    [cbn [snd]; by rewrite (proj1 Hc2) |].
  set (s3 := feed (n1, c2) (concat E)) in *. cbn [snd] in *.
  assert (same_conf s.2 s3.2) as Hcs3 by (by etrans).
  assert (can_send s3.2) as Hs3 by (by eapply can_send_conf).
  rewrite send_wait_exec by (apply Hs3 || done).
  destruct (exec_outcome s3 (mk_resp (replicate 64 0) 64 0 0 0) [] A Hs3 Hst3 eq_refl)
    as (x' & s4 & -> & Hst4 & Hc4 & _ & Htx4); [by rewrite (proj1 Hcs3) |]. cbn [rs_line_num rs_buf_size].
  rewrite (respond_conf s.2 s3.2) by done.
  assert (cl_tx s4.2 = cl_tx s.2 ++ frames con_id p) as Htx.
  { rewrite Htx4. change (send_text s3.2 []) with s3.2. rewrite Htx3. cbn [c2 set_io cl_tx].
    rewrite Htx1, (take_ge p) by (unfold blen; lia). by rewrite <- app_assoc. }
  destruct (respond s.2 0 64 [] A).1 as [[]|]; cbn [outcome]; [|done..].
  change (RT_EOK =? RT_EOK) with true. cbn [negb concat]. rewrite blen_app, Z.add_assoc.
  assert (same_conf s.2 s4.2) as Hcs4 by (by etrans).
  destruct (IH s4 (drop 1024 d) (sent + blen p) xs Hc) as [Hres Htx'];
    [by eapply can_send_conf | done | |].
  { eapply Forall_impl; [exact Hx |]. intros y. by apply exchange_lines_conf. }
  rewrite (session_conf s.2 s4.2) in Hres, Htx' by done.
  destruct (session s.2 con_id (packets_of fuel (drop 1024 d)) xs) as [tx e]. cbn [fst snd] in *.
  split; [done |]. by rewrite Htx', Htx, app_assoc.
Qed.

End send.

(** * Theorem *)


(** An acknowledgement that arrives before the driver waits for it is lost: the wait times
    out although the module took the data. *)
Lemma aiwb2_early_answer_lost pkt_mem resp_mem n (c : at_client net) ls :
  can_send pkt_mem c → at_start c → resp_on (cl_ans c) = false → (∀ c, resp_mem c = true) →
  Forall (λ l, is_line (end_sign c) l = true) ls →
  (aiwb2_send_wait resp_mem (feed (n, c) (concat ls)) []).1 = - RT_ETIMEOUT.
Proof.
  intros (Hd & Hst & _) Hs Hon Hm Hl. pose proof (driver_crlf pkt_mem c Hd) as Hu.
  rewrite (feed_lines n c ls Hs Hu Hl).
  assert (Forall (λ l, l ≠ []) ls) as Hne
    by (eapply Forall_impl; [exact Hl |]; intros l Hx; exact (is_line_nonempty _ _ Hx)).
  destruct (lines_idle ls n c (proj1 Hs) Hne Hon) as (_ & He & _ & _).
  destruct (foldl line_step (n, c) ls) as [n' c']. unfold aiwb2_send_wait. rewrite Hm. done.
Qed.

(** * Witness *)

Definition demo_data : list Z := replicate 1030 65.
Definition demo_ok : list (list Z) := [[13; 10]; str "OK" ++ [13; 10]].
(** Two packets, both acknowledged; the second answer too early; the first one an error. *)
Definition demo_acks : list exchange := replicate 2 (mk_exchange [[62]] [] demo_ok).
Definition demo_late : list exchange := [mk_exchange [[62]] [] demo_ok; mk_exchange [[62]] demo_ok []].
Definition demo_error : list exchange := [mk_exchange [[62]] [] [str "ERROR" ++ [13; 10]]].
Definition demo_send (xs : list exchange) : Z :=
  (aiwb2_socket_send demo_mem demo_write (demo_net1, demo_wb2) 0 demo_data (arrivals xs)).1.1.

