(* ===== verification/Aiwb2Info.v ===== *)
(** The station information of the Ai-WB2 module (at_device_aiwb2.c): cutting a response line
    into fields ([aiwb2_split_fields]) and reading the addresses out of the answer to
    AT+STAINFO? (the first part of [aiwb2_get_netdev_info]). *)

From Stdlib Require Import String.
From S2P Require Import Prelude.
From S2P Require Import CText.
From S2P Require Import RtDef.
From S2P Require Import AtClient.
From S2P Require Import Aiwb2.
Open Scope Z_scope.
Open Scope list_scope.

(** * Fields of a line *)

(** A character that ends a field: comma, CR, LF (the NUL ends the list). *)
Definition ends_field (c : Z) : bool := (c =? 44) || (c =? 13) || (c =? 10).

(** At most [room] characters of the field, and the rest of the line. *)
Fixpoint scan_field (room : nat) (p : list Z) : list Z * list Z :=
  match room, p with
  | S room, c :: p' => if ends_field c then ([], p) else let '(a, b) := scan_field room p' in (c :: a, b)
  | _, _ => ([], p)
  end.

(** The rest of an over-long field. *)
Fixpoint skip_field (p : list Z) : list Z :=
  match p with
  | c :: p' => if ends_field c then p else skip_field p'
  | [] => []
  end.

(** The loop over the fields; [max] counts them. *)
Fixpoint split_loop (max : nat) (p : list Z) : list (list Z) :=
  match max with
  | O => []
  | S max =>
      let '(f, p) := scan_field 31 p in
      f :: match p with
           | [] => []
           | c :: p' =>
               if c =? 44 then split_loop max p'
               else if (length f =? 31)%nat then
                 match skip_field p with
                 | c :: p' => if c =? 44 then split_loop max p' else []
                 | [] => []
                 end
               else []
           end
  end.

Definition aiwb2_split_fields (line : list Z) (max : nat) : list (list Z) :=
  if bool_decide (line = []) then [] else split_loop max line.

(** * The station information *)

Definition AIWB2_STAINFO_FIELD_MAX : nat := 12.

(** The loop over the lines from line [i] on: the status and the fields last cut. *)
Fixpoint stainfo_loop (resp : at_response) (i : Z) (k : nat) (status : Z) (field : list (list Z))
    : Z * list (list Z) :=
  match k with
  | O => (status, field)
  | S k =>
      match at_resp_get_line resp i with
      | None => stainfo_loop resp (i + 1) k status field
      | Some line =>
          match sscanf line (lit "+STAINFO:" ++ [FInt]) with
          | AInt v :: _ => stainfo_loop resp (i + 1) k v field
          | _ =>
              if starts_with (str "SSID:") line || starts_with (str "Password:") line
              then stainfo_loop resp (i + 1) k status field
              else
                let field := aiwb2_split_fields line AIWB2_STAINFO_FIELD_MAX in
                if (6 <=? length field)%nat then (status, field)
                else stainfo_loop resp (i + 1) k status field
          end
      end
  end.

Record sta_addr : Type := mk_sta { sta_ip : list Z; sta_gateway : list Z; sta_mac : list Z }.

(** The addresses, empty when the station is not connected. *)
Definition stainfo_addresses (resp : at_response) : sta_addr :=
  let '(status, field) := stainfo_loop resp 1 (Z.to_nat (rs_line_counts resp)) 0 [] in
  let n := length field in
  let at_field k := default [] (field !! k) in
  if (6 <=? n)%nat && (status =? 3) then
    mk_sta (at_field (n - 2)%nat) (at_field (n - 1)%nat)
      (if bool_decide (58 ∈ at_field (n - 4)%nat) then at_field (n - 4)%nat else [])
  else mk_sta [] [] [].

(** * Reference *)

(** The text of a line, and its fields: cut at every comma. *)
Fixpoint text_of (l : list Z) : list Z :=
  match l with
  | c :: l => if (c =? 13) || (c =? 10) then [] else c :: text_of l
  | [] => []
  end.

Fixpoint fields_of (l : list Z) : list (list Z) :=
  match l with
  | [] => [[]]
  | c :: l => if c =? 44 then [] :: fields_of l
              else match fields_of l with f :: fs => (c :: f) :: fs | [] => [] end
  end.

(** Fields joined by commas. *)
Fixpoint join (fs : list (list Z)) : list Z :=
  match fs with
  | [] => []
  | [f] => f
  | f :: fs => f ++ 44 :: join fs
  end.

Lemma fields_of_cons l : ∃ f fs, fields_of l = f :: fs.
Proof.
  induction l as [|c l (f & fs & IH)]; simpl; [by exists [], [] |].
  destruct (c =? 44); [eauto |]. rewrite IH. eauto.
Qed.

(** The first field and what follows it. *)
Lemma skip_field_split l :
  ∃ f, l = f ++ skip_field l ∧ Forall (λ c, ends_field c = false) f
    ∧ fields_of (text_of l)
      = match skip_field l with
        | c :: l' => if c =? 44 then f :: fields_of (text_of l') else [f]
        | [] => [f]
        end.
Proof.
  induction l as [|c l (f & E & Hf & IH)]; simpl; [by exists [] |].
  destruct (ends_field c) eqn:Ec.
  - exists []. split_and!; [done | done |]. unfold ends_field in Ec.
    destruct (Z.eqb_spec c 44) as [->|]; [done |]. cbn [orb] in Ec. by rewrite Ec.
  - exists (c :: f). split_and!; [simpl; congruence | by constructor |]. unfold ends_field in Ec.
    apply orb_false_iff in Ec as [Ec1 Ec3]. apply orb_false_iff in Ec1 as [Ec1 Ec2]. rewrite Ec2, Ec3. cbn [orb].
    cbn [fields_of]. rewrite Ec1, IH. destruct (skip_field l) as [|d l']; [done |]. by destruct (d =? 44).
Qed.

Lemma skip_field_app f l : Forall (λ c, ends_field c = false) f → skip_field (f ++ l) = skip_field l.
Proof. induction f as [|c f IH]; intros Hf; [done |]. apply Forall_cons in Hf as [Hc Hf]. simpl. rewrite Hc. auto. Qed.

Lemma skip_field_idem l : skip_field (skip_field l) = skip_field l.
Proof. induction l as [|c l IH]; simpl; [done |]. destruct (ends_field c) eqn:E; simpl; [by rewrite E | done]. Qed.

Lemma skip_field_head l c l' : skip_field l = c :: l' → ends_field c = true.
Proof. induction l as [|d l IH]; simpl; [done |]. destruct (ends_field d) eqn:E; [by intros [= -> ->] | done]. Qed.

(** Scanning stops at the end of the field or when the room is used up. *)
Lemma scan_field_spec f l : ∀ room,
  Forall (λ c, ends_field c = false) f → skip_field l = l →
  scan_field room (f ++ l) = (take room f, drop room f ++ l).
Proof.
  induction f as [|c f IH]; intros room Hf Hl; simpl.
  - rewrite take_nil, drop_nil. destruct room, l as [|c l]; simpl in *; try done.
    destruct (ends_field c) eqn:E; [done |]. exfalso. pose proof (skip_field_head l c l) as Hh.
    apply (f_equal length) in Hl. assert (∀ l, (length (skip_field l) ≤ length l)%nat) as Hle.
    { induction l0 as [|d l0 IH]; simpl; [done |]. destruct (ends_field d); simpl; lia. }
    specialize (Hle l). simpl in Hl. lia.
  - apply Forall_cons in Hf as [Hc Hf]. destruct room; simpl; [done |]. by rewrite Hc, IH.
Qed.

(** The fields of [split_loop] are those of the reference, cut to 31 characters. *)
Lemma split_loop_spec max : ∀ l, split_loop max l = take max (take 31 <$> fields_of (text_of l)).
Proof.
  induction max as [|max IH]; intros l; [done |]. cbn [split_loop].
  destruct (skip_field_split l) as (f & E & Hf & ->). set (l' := skip_field l) in *.
  assert (skip_field l' = l') as Hl' by apply skip_field_idem.
  assert (∀ c t, l' = c :: t → ends_field c = true) as Hh by (intros c t; apply skip_field_head).
  rewrite E, scan_field_spec by done.
  assert (match l' with c :: t => if c =? 44 then f :: fields_of (text_of t) else [f] | [] => [f] end
    = f :: match l' with c :: t => if c =? 44 then fields_of (text_of t) else [] | [] => [] end) as ->
    by (destruct l' as [|c t]; [done |]; by destruct (c =? 44)).
  rewrite fmap_cons. cbn [firstn take]. f_equal.
  assert (take max (take 31 <$> match l' with c :: t => if c =? 44 then fields_of (text_of t) else [] | [] => [] end)
    = match l' with c :: t => if c =? 44 then split_loop max t else [] | [] => [] end) as ->.
  { destruct l' as [|c t]; [by rewrite fmap_nil, take_nil |]. destruct (c =? 44); [by rewrite IH |].
    by rewrite fmap_nil, take_nil. }
  destruct (drop 31 f) as [|d t] eqn:Ed; cbn [app].
  - destruct l' as [|c t]; [done |]. destruct (c =? 44) eqn:Ec; [done |].
    case_match; [|done]. rewrite Hl'. by rewrite Ec.
  - assert (ends_field d = false) as Hd.
    { apply (Forall_drop _ 31) in Hf. rewrite Ed in Hf. by apply Forall_cons in Hf as [? _]. }
    destruct (d =? 44) eqn:E44; [unfold ends_field in Hd; by rewrite E44 in Hd |].
    assert (length (take 31 f) = 31%nat) as ->.
    { apply (f_equal length) in Ed. rewrite length_drop in Ed. simpl in Ed. rewrite length_take. lia. }
    rewrite Nat.eqb_refl. rewrite app_comm_cons, <- Ed, skip_field_app by (by apply Forall_drop).
    by rewrite Hl'.
Qed.

Lemma fields_of_join fs :
  fs ≠ [] → Forall (Forall (λ c, c ≠ 44)) fs → fields_of (join fs) = fs.
Proof.
  assert (∀ f t, Forall (λ c, c ≠ 44) f → fields_of (f ++ 44 :: t) = f :: fields_of t) as Happ.
  { induction f as [|c f IH]; intros t Hf; simpl; [done |]. apply Forall_cons in Hf as [Hc Hf].
    rewrite (proj2 (Z.eqb_neq c 44)) by done. by rewrite IH. }
  assert (∀ f, Forall (λ c, c ≠ 44) f → fields_of f = [f]) as Hone.
  { induction f as [|c f IH]; intros Hf; simpl; [done |]. apply Forall_cons in Hf as [Hc Hf].
    rewrite (proj2 (Z.eqb_neq c 44)) by done. by rewrite IH. }
  induction fs as [|f fs IH]; intros Hne Hfs; [done |]. apply Forall_cons in Hfs as [Hf Hfs].
  destruct fs as [|g fs]; [by apply Hone |]. change (join (f :: g :: fs)) with (f ++ 44 :: join (g :: fs)).
  by rewrite Happ, IH.
Qed.

Lemma text_of_line l t : Forall (λ c, c ≠ 13 ∧ c ≠ 10) l → text_of (l ++ 13 :: t) = l.
Proof.
  induction l as [|c l IH]; intros Hl; simpl; [done |]. apply Forall_cons in Hl as [[H1 H2] Hl].
  rewrite (proj2 (Z.eqb_neq c 13)), (proj2 (Z.eqb_neq c 10)) by done. cbn [orb]. by rewrite IH.
Qed.

(** The loop on a list of lines. *)
Fixpoint stainfo_lines (ls : list (list Z)) (status : Z) (field : list (list Z)) : Z * list (list Z) :=
  match ls with
  | [] => (status, field)
  | line :: ls =>
      match sscanf line (lit "+STAINFO:" ++ [FInt]) with
      | AInt v :: _ => stainfo_lines ls v field
      | _ =>
          if starts_with (str "SSID:") line || starts_with (str "Password:") line
          then stainfo_lines ls status field
          else
            let field := aiwb2_split_fields line AIWB2_STAINFO_FIELD_MAX in
            if (6 <=? length field)%nat then (status, field) else stainfo_lines ls status field
      end
  end.

Lemma stainfo_loop_lines resp line_num size kept :
  holds resp line_num size kept → Forall (λ l, Forall (λ b, b ≠ 0) (removelast l)) kept →
  ∀ k j status field, (j + k = length kept)%nat →
  stainfo_loop resp (Z.of_nat j + 1) k status field = stainfo_lines (@removelast Z <$> drop j kept) status field.
Proof.
  intros Hh Hn k. induction k as [|k IH]; intros j status field Hj.
  - rewrite drop_ge by lia. done.
  - destruct (lookup_lt_is_Some_2 kept j) as [l Hl]; [lia |]. cbn [stainfo_loop].
    rewrite (holds_get_line resp line_num size kept j l Hh Hn Hl), (drop_S _ _ _ Hl), fmap_cons.
    cbn [stainfo_lines]. replace (Z.of_nat j + 1 + 1) with (Z.of_nat (S j) + 1) by lia. cbv zeta.
    rewrite !IH by lia. destruct (sscanf _ _) as [|[v|s'] args]; try rewrite !IH by lia; done.
Qed.

(** A line that leaves no fields behind: SSID and password, whatever they are. *)
Definition is_secret (l : list Z) : Prop := starts_with (str "SSID:") l = true ∨ starts_with (str "Password:") l = true.

Lemma secret_lines ls rest status field :
  Forall is_secret ls → stainfo_lines (ls ++ rest) status field = stainfo_lines rest status field.
Proof.
  induction ls as [|l ls IH]; intros Hl; [done |]. apply Forall_cons in Hl as [Hs Hl]. cbn [app stainfo_lines].
  assert (sscanf l (lit "+STAINFO:" ++ [FInt]) = []) as ->.
  { destruct l as [|c l]; [done |]. assert (c = 83 ∨ c = 80) as [-> | ->]; [|done | done].
    destruct Hs as [H|H]; unfold starts_with in H; apply bool_decide_eq_true in H; simpl in H; injection H; auto. }
  destruct Hs as [-> | ->]; [|rewrite orb_true_r]; by apply IH.
Qed.

Lemma status_line_scan v t : is_s32 v →
  sscanf (str "+STAINFO:" ++ dec_int v ++ 13 :: t) (lit "+STAINFO:" ++ [FInt]) = [AInt v].
Proof.
  intros Hv. unfold lit. rewrite sscanf_lit by (by repeat constructor). cbn [sscanf].
  by rewrite strtol_dec_int_app by done.
Qed.

(** * Theorem *)

(** The documented answer to AT+STAINFO?: the status, the SSID and the password, then one row
    of comma-separated fields that ends with MAC, channel, IP and gateway. *)
Definition status_line (v : Z) : list Z := str "+STAINFO:" ++ dec_int v ++ [13; 10].
Definition row_line (fs : list (list Z)) : list Z := join fs ++ [13; 10].

Lemma removelast_crlf l : removelast (l ++ [13; 10]) = l ++ [13].
Proof. change [13; 10] with ([13] ++ [10]). by rewrite app_assoc, removelast_last. Qed.

Lemma row_fields fs :
  (6 ≤ length fs ≤ 12)%nat →
  Forall (Forall (λ c, c ≠ 44 ∧ c ≠ 13 ∧ c ≠ 10)) fs →
  aiwb2_split_fields (join fs ++ [13]) AIWB2_STAINFO_FIELD_MAX = take 31 <$> fs.
Proof.
  intros Hn Hfs. unfold aiwb2_split_fields.
  rewrite bool_decide_eq_false_2 by (by destruct (join fs)). rewrite split_loop_spec, text_of_line.
  - rewrite fields_of_join.
    + rewrite take_ge; [done |]. unfold AIWB2_STAINFO_FIELD_MAX. rewrite length_fmap. lia.
    + intros ->. simpl in Hn. lia.
    + eapply Forall_impl; [exact Hfs |]. intros f Hf. eapply Forall_impl; [exact Hf |]. by intros c (? & _).
  - clear Hn. induction fs as [|f fs IH]; [constructor |]. apply Forall_cons in Hfs as [Hf Hfs].
    assert (Forall (λ c, c ≠ 13 ∧ c ≠ 10) f) as Hf' by (eapply Forall_impl; [exact Hf |]; by intros c (_ & ?)).
    destruct fs as [|g fs]; [done |]. change (join (f :: g :: fs)) with (f ++ 44 :: join (g :: fs)).
    apply Forall_app. split; [done |]. constructor; [done | by apply IH].
Qed.

(** The addresses are read back from the documented answer. If the response object holds
    a status line, then SSID and password lines of any content, then a row of 6 to 12
    fields (so also one whose network name or security mode brought extra commas) that
    begins like a BSSID, and any further lines, then for status 3 the IP address and the
    gateway are the last but one and the last field and the MAC the fourth from the end if
    it has a colon, each cut to 31 characters; for any other status nothing is taken. *)
Theorem aiwb2_stainfo_roundtrip (resp : at_response) (line_num size v : Z) (secrets rest : list (list Z))
    (b : Z) (f0 : list Z) (fs : list (list Z))
    (Hholds : holds resp line_num size (status_line v :: secrets ++ row_line ((b :: f0) :: fs) :: rest))
    (Hnul : Forall (λ l, Forall (λ c, c ≠ 0) (removelast l))
              (status_line v :: secrets ++ row_line ((b :: f0) :: fs) :: rest))
    (Hv : is_s32 v) (Hsecrets : Forall (λ l, is_secret (removelast l)) secrets)
    (Hbssid : b ≠ 43 ∧ b ≠ 83 ∧ b ≠ 80) (Hcount : (5 ≤ length fs ≤ 11)%nat)
    (Hfields : Forall (Forall (λ c, c ≠ 44 ∧ c ≠ 13 ∧ c ≠ 10)) ((b :: f0) :: fs)) :
  let row := (b :: f0) :: fs in
  let field k := take 31 (default [] (row !! (length row - k)%nat)) in
  stainfo_addresses resp
  = if v =? 3
    then mk_sta (field 2%nat) (field 1%nat) (if bool_decide (58 ∈ field 4%nat) then field 4%nat else [])
    else mk_sta [] [] [].
Proof.
  cbv zeta. set (row := (b :: f0) :: fs) in *. set (kept := status_line v :: _) in *.
  unfold stainfo_addresses. rewrite (ho_cnt _ _ _ _ Hholds).
  pose proof (stainfo_loop_lines resp line_num size kept Hholds Hnul (length kept) 0 0 []) as Hloop.
  rewrite drop_0 in Hloop. change (Z.of_nat 0 + 1) with 1 in Hloop. unfold blen. rewrite Nat2Z.id, Hloop by lia.
  unfold kept. rewrite fmap_cons, fmap_app, fmap_cons. cbn [stainfo_lines].
  assert (removelast (status_line v) = str "+STAINFO:" ++ dec_int v ++ [13]) as ->
    by (unfold status_line; rewrite app_assoc, removelast_crlf; by rewrite <- app_assoc).
  rewrite status_line_scan by done.
  rewrite secret_lines by (by apply Forall_fmap). cbn [stainfo_lines].
  unfold row_line. rewrite removelast_crlf.
  assert (∃ t, join row = b :: t) as [t Et] by (subst row; destruct fs; simpl; eauto).
  assert (sscanf (join row ++ [13]) (lit "+STAINFO:" ++ [FInt]) = []) as ->.
  { rewrite Et. change (lit "+STAINFO:" ++ [FInt]) with (FLit 43 :: (lit "STAINFO:" ++ [FInt])).
    cbn [app sscanf]. change (isspace 43) with false. by rewrite (proj2 (Z.eqb_neq b 43)) by (by destruct Hbssid). }
  assert (starts_with (str "SSID:") (join row ++ [13]) || starts_with (str "Password:") (join row ++ [13]) = false) as ->.
  { rewrite Et. unfold starts_with. destruct Hbssid as (_ & H1 & H2).
    rewrite !bool_decide_eq_false_2; [done | |]; intros Hx; simpl in Hx; injection Hx as Hx _; by vm_compute in Hx. }
  assert (6 ≤ length row ≤ 12)%nat as Hn by (subst row; simpl; lia).
  rewrite row_fields by done. rewrite length_fmap. rewrite (proj2 (Nat.leb_le 6 (length row))) by lia.
  rewrite length_fmap, (proj2 (Nat.leb_le 6 (length row))) by lia. cbn [andb].
  destruct (v =? 3); [|done].
  assert (∀ k, default [] ((take 31 <$> row) !! k) = take 31 (default [] (row !! k))) as Hd.
  { intros k. rewrite list_lookup_fmap. by destruct (row !! k). }
  by rewrite !Hd.
Qed.

(** * Witness *)

Definition demo_row : list (list Z) :=
  [str "aa:bb"; str "WPA2"; str "28:bb:ed"; str "6"; str "192.168.1.7"; str "192.168.1.1"].
Definition demo_kept : list (list Z) :=
  [status_line 3; str "SSID:a,b,c,d,e,f,g" ++ [13; 10]; str "Password:x" ++ [13; 10]; row_line demo_row;
   str "OK" ++ [13; 10]].
Definition demo_resp : at_response :=
  mk_resp (stored demo_kept ++ replicate (200 - length (stored demo_kept)) 0) 200 (blen (stored demo_kept)) 0 5.

Lemma aiwb2_stainfo_roundtrip_witness :
  stainfo_addresses demo_resp = mk_sta (str "192.168.1.7") (str "192.168.1.1") (str "28:bb:ed").
Proof.
  rewrite (aiwb2_stainfo_roundtrip demo_resp 0 200 3 [str "SSID:a,b,c,d,e,f,g" ++ [13; 10]; str "Password:x" ++ [13; 10]]
    [str "OK" ++ [13; 10]] 97 (str "a:bb") (tail demo_row)).
  - by vm_compute.
  - constructor; by vm_compute.
  - by repeat constructor.
  - done.
  - constructor; [by left |]. constructor; [by right | constructor].
  - done.
  - simpl. lia.
  - by repeat constructor.
Defined.
